(* ===== verification/_CoqProject ===== *)
-Q . S2P
Prelude.v
Errors.v
Retry.v
Env.v
Kube.v
Pool.v
ClusterLock.v
Timeout.v
Lease.v
LeaseSafety.v
LeaseServer.v
Config.v
ModuleLevels.v
ModuleGraph.v
Deckhouse.v
Modules.v
Wait.v
Naming.v
Virt.v
Disks.v
Provision.v
Bootstrap.v
DvpConfig.v
SshConn.v
SshSafety.v
SshExec.v
Tunnel.v
TunnelSafety.v
Remote.v
SshDial.v
Connect.v
Deps.v
Install.v
Join.v
Dhctl.v
DvpProvider.v
E2E.v
CommanderApi.v
CommanderUpdate.v
Commander.v
CommanderSafety.v
Suite.v
Cmd.v
Kit.v
KitNodes.v
KitPods.v
KitExec.v
Stress.v
StressSafety.v
StressRuns.v
KitVirt.v
LegacyVms.v
LegacyVmsSafety.v
KitStorage.v
KitElastic.v
KitScenarios.v
KitDefault.v
KitApply.v
KitCrc.v
LegacyRemote.v
LegacySetup.v
LegacySetupSafety.v
LegacyJoin.v
LegacySsh.v
LegacySshOps.v
LegacySshSafety.v
LegacySshRuns.v
LegacyTunnel.v
LegacyKubeconfig.v
LegacyConnect.v
LegacyConnectSafety.v
LegacyCreate.v
LegacyCreateSafety.v
LegacyCreateReturns.v
LegacyCommander.v
LegacySuite.v
LegacySuiteSafety.v
LegacyHealth.v
LegacySuiteRuns.v
