(* ===== verification/Prelude.v ===== *)
(** * storage-e2e: test clusters and storage tests, verified

    The program ([src/], module [github.com/deckhouse/storage-e2e]) makes Kubernetes clusters
    for storage tests and runs them. A provider creates virtual machines on a base cluster,
    installs Deckhouse on the first one with [dhctl] from a container on a setup node, joins the
    other nodes over SSH, enables modules level by level; another provider asks Deckhouse
    Commander for a cluster. [pkg/e2e] hands a suite a connection, node commands and disks, and
    a lease on the cluster keeps two suites apart. The test kit creates storage resources, waits
    for them and puts load on them. Nearly every step is a call that may fail, be retried, be
    raced by somebody else or have to be waited for; the development is about those.

    ** Files and the code they model

    - [Prelude]: this header, the state monad [M], strings and formatting of the Go standard
      library, shared lemmas and tactics.
    - [Errors]: Go errors as trees ([fmt.Errorf] with [%w], [errors.Is], [errors.As],
      [errors.Join]) and the predicates of apimachinery ([ApiErrors] and its laws).
    - [Retry]: [pkg/retry/retry.go]. Durations are integers, the backoff is computed in binary64.
    - [Env]: [internal/config/env.go], [internal/logger], [pkg/storage-e2e/setup.go].
    - [Kube]: contexts with timers ([Ctx]), typed API clients ([Client]) and their laws, the
      shape of all waits ([poll]), [errgroup], deadlines; a server in memory to run on.
      [Timeout]: [context.WithTimeout] as scopes with a budget. [Pool]: goroutines started in a
      loop with a wait group and a channel of results.
    - [Lease], [LeaseSafety], [LeaseServer]: [internal/kubernetes/clusterlock/lease.go] as
      programs over single API calls, any number of them interleaved with others, and run alone.
      [ClusterLock]: its predecessor [pkg/cluster/lock.go].
    - [Config]: [internal/config]: the cluster definition, its YAML decoding, overrides, checks.
    - [ModuleLevels], [ModuleGraph]: the orders of [dvp/modules.go] and of
      [pkg/kubernetes/modules.go]. [Modules]: applying them and waiting, as event traces of
      concurrent tasks. [Deckhouse]: [internal/kubernetes/deckhouse], [pkg/kubernetes/nodegroup.go].
    - [Wait]: [dvp/vm/wait.go], [pollObject], [pkg/kubernetes/poll.go]. [Naming]:
      [dvp/vm/naming.go] and the names of attachments. [Virt], [Provision]: the rest of
      [dvp/vm]: labels, builders, cloud-init, the provisioner. [Disks]: [dvp/disks.go].
    - [Bootstrap]: [dvp/bootstrap.go] with the parts of package [net] it uses. [DvpConfig]:
      [dvp/config.go] with [os.ExpandEnv] and path cleaning.
    - [SshConn], [SshSafety], [SshExec]: the reconnecting client of
      [internal/infrastructure/ssh/v2], as programs of any number of goroutines over its mutex,
      its single flight and its links. [Tunnel], [TunnelSafety]: its local port forwards as a
      state machine. [SshDial]: routes, host keys, agents and the dialing of hops.
    - [Remote]: what the provider relies on of SSH: clients and tunnels that are open, commands
      that were run. [Connect]: [dvp/connect.go], [node_executor.go], [vm_ip_resolver.go] and
      [internal/kubernetes/kubeaccess]. [Deps]: the seams of [dvp/deps.go] with their laws.
    - [Install]: [dvp/install.go], [setupnode.go], [pkg/kubernetes/client.go], [namespace.go].
      [Join]: [dvp/nodes.go]. [Dhctl]: [dvp/dhctl.go]. [DvpProvider]: [dvp/provider.go],
      [connect_test_cluster.go], [kubeconfig.go] and the default seams.
    - [E2E]: [pkg/e2e] and [pkg/clusterprovider]. [CommanderApi], [CommanderUpdate]:
      [internal/kubernetes/commander]. [Commander], [CommanderSafety]:
      [internal/provisioning/commander], [pkg/commander]. [Suite]: a suite from connect to close
      on the lease and a provider. [Cmd]: the commands under [cmd].
    - [Kit], [KitNodes], [KitPods], [KitExec], [KitVirt], [KitStorage], [KitElastic], [KitApply]:
      the resources of [pkg/kubernetes], [internal/kubernetes/storage] and
      [internal/kubernetes/virtualization]. [KitScenarios], [KitDefault], [KitCrc]:
      [pkg/testkit] [elastic.go], [storageclass.go], [ceph_crc.go]. [Stress], [StressSafety],
      [StressRuns]: [pkg/testkit/stress-tests.go].
    - The code the providers replace: [LegacyVms], [LegacyVmsSafety]: [pkg/cluster/vms.go].
      [LegacyRemote]: the interface of the SSH client of [internal/infrastructure/ssh] and local
      files. [LegacySetup], [LegacySetupSafety], [LegacyJoin]: [pkg/cluster/setup.go].
      [LegacySsh], [LegacySshOps], [LegacySshSafety], [LegacySshRuns]:
      [internal/infrastructure/ssh/client.go], the direct client and the one through a jump
      host: keys, connections and reconnections, commands and uploads. [LegacyTunnel]: their
      tunnels, [tunnel.go] included, as a state machine. [LegacyKubeconfig]:
      [internal/cluster/cluster.go]. [pkg/cluster/cluster.go] is in [LegacyConnect] (connecting,
      existing clusters, [connectViaProvider]), [LegacyCreate] (creating, resuming and cleaning
      up a test cluster; the stages over the API are the interface [Stages]), [LegacyCommander],
      [LegacyHealth] and [LegacySuite] (what a suite calls); [LegacyConnectSafety],
      [LegacyCreateSafety], [LegacyCreateReturns] and [LegacySuiteSafety] hold the theorems,
      [LegacySuiteRuns] runs in memory.

    (dvp is [internal/provisioning/dvp].)

    ** How code becomes definitions

    Functions that only compute are Rocq functions. Code with effects is a function
    [W -> A * W]; what it needs of its world [W] are classes ([Ctx], [Client], [Remote], ...)
    whose laws state documented behaviour of the API server, of contexts and of SSH. The
    theorems hold for every world that satisfies the laws; the worlds in memory show that the
    laws can hold, and witnesses run the definitions on them. Other people's objects may change
    between any two calls unless a theorem asks for [Quiet]; where they write the very objects
    the code updates, the interface is [Shared] with resource versions. Errors are values with
    their texts, so that decisions that look at texts (retries) are modelled as they are. Code
    of other packages (YAML and template rendering, SHA-256, quantities, kubeconfig parsing, SSH
    keys) is an argument of the definitions. Log lines are left out. A cleanup function is a
    value [M W unit].

    Goroutines: the lease holders of [LeaseSafety], the callers of a connection in [SshSafety],
    the goroutines of a tunnel and the pools of the stress tests and of the legacy code
    interleave at every call; the tasks of a module level interleave at their start and end; the tasks of the other groups,
    which work on different objects, run one after another in an order that is left open
    ([order], any permutation).

    ** What the theorems show

    - Mutual exclusion: under any interleaving of the API calls of any number of processes with
      one clock, a lease that is not expired is changed by no other process, and every change on
      the server is one of the legal transitions, with one exception the model shows: a takeover
      keeps the UID of the object, so a late release can delete the live lease of its successor.
      What one acquisition does in each case, the round trip with the release, and a second
      defect: the error for a held lock is retried when the holder's test name contains "webhook".
    - Retries: which attempts, waits and results a script of outcomes leads to; a transient error
      stays retryable when it is wrapped; a bound on the total wait.
    - SSH: concurrent users of a connection see a cell that holds one live link; no link leaks,
      nobody waits forever; a command is started once. A tunnel that is closed drains: all its
      goroutines end within a bound, and [Close] returns only after them.
    - Modules: the levels contain each module once, after its dependencies and as early as
      possible; they exist exactly for closed acyclic inputs; the two implementations agree up to
      order; no module is applied before its dependencies are ready.
    - Waits end by their deadline, succeed only on a state that was read, and report the reason.
    - VMs and disks: teardown removes exactly what is managed; creation never overwrites; a disk
      attachment is adopted only when it binds the same disk and machine; disks never shrink;
      object names are valid labels.
    - The providers: no run of [Bootstrap] or [Remove] leaves an SSH connection open, a failed
      [ConnectTestCluster] neither, and its cleanup closes all; dhctl is run only on a master
      that was probed and found clean; joining runs the right script on the right nodes; values
      of a Commander cluster are updated atomically; a suite gives back lease and connections
      however it ends; shell quoting is faithful.
    - Test kit: labels are set without losing other writes; manifests are applied document by
      document and nothing else is touched; volume groups, classes and block devices are ready
      when the scenarios succeed; a switch of checksums restarts every daemon.
    - Stress tests: every stage ends under every schedule and creates what is configured; two
      modes cannot work, and the model proves it: [snapshot_resize_cloning] with restored claims
      waits for pods of a role no pod has, [check_cloning] clones a claim from itself.
    - Environment: which values are accepted and which defaults are left.
    - Legacy clusters: creating machines under every schedule gives each node its machine and
      disk and touches no others; removing a machine takes at most its disks and images; the
      setup machine never gets the Docker its installation waits for; the file with the
      passphrase is removed from the setup node on every path; joining nodes returns under every
      schedule, closes every connection and on success ran the right script on each node; the
      values of the bootstrap template are those of the DVP provider. A client of the old SSH
      package leaves nothing but connections to the agent; a command is sent at most ten times;
      a private upload writes nothing before the permissions are set; a tunnel that is done has
      closed all it opened. Creating a test cluster returns, holds exactly what its resources
      name, and on an error leaves nothing, but from step 14 on the tunnel of the base cluster;
      after the cleanup of a suite nothing remains, but the base connection of an existing
      cluster behind a jump host; the health checks return and are sound; a saved state is what
      is loaded.

    ** Bounds and fuel

    A wait takes [fuel], the number of ticks it may see; under a context with a deadline
    ([Deadline], [left]) or in a scope with a timeout ([TimeoutLaws]) any fuel above the budget
    gives a result, and the theorems about waits prove that one is returned; waits that sleep
    need a fuel whose product with the interval exceeds the timeout. [Retry] recurses on the
    attempts left, conflicting writes are retried five times. Level loops run as many rounds as
    there are modules: each takes out at least one. A pool runs as many moves as its goroutines
    have calls, and [pool_ends] shows that this is enough. Replacing and squeezing strings take
    as many rounds as there are bytes. Integers are exact where Go's cannot overflow and wrapped
    where they can (lease transitions, backoff, the interval of the stress tests).

    ** Not modelled

    [OutputEnvironmentVariables]; the transport options that [configureExtendedTimeouts] sets on
    a client-go configuration; log lines, with [kubeconfigContextSummary] that feeds one, and the
    JSON log; the bytes that flow through a tunnel or an exec stream; the shell scripts inside
    test pods. *)

From Stdlib Require Export ssreflect Ascii ZArith Lia.
From stdpp Require Export base tactics gmap strings list pretty sorting.

Global Open Scope general_if_scope.

(** * Effects: explicit state passing

    A Go function that performs effects on a world [W] (the API server, a
    remote shell, the clock) is a function [W -> A * W]. *)
Declare Scope go_scope.
Delimit Scope go_scope with go.

Definition M (W A : Type) : Type := W -> A * W.

#[export] Instance M_ret W : MRet (M W) := fun A a w => (a, w).
#[export] Instance M_bind W : MBind (M W) := fun A B k m w => let '(a, w') := m w in k a w'.

Notation "'let!' x := m 'in' k" := (mbind (fun x => k) m)
  (at level 10, x name, m at level 100, k at level 200) : go_scope.
Notation "'let!' ' p := m 'in' k" := (mbind (fun x => match x with p => k end) m)
  (at level 10, p strict pattern, m at level 100, k at level 200) : go_scope.
Notation "m ;;; k" := (mbind (fun _ => k) m)
  (at level 100, right associativity) : go_scope.

(** Reading and updating the world. *)
Definition gets {W A} (f : W -> A) : M W A := fun w => (f w, w).

Lemma bind_eq {W A B} (m : M W A) (k : A -> M W B) w a w' :
  m w = (a, w') -> mbind k m w = k a w'.
Proof. unfold mbind, M_bind. by intros ->. Qed.

(** Symbolic execution of a hypothesis [m w = (a, w')]: the outcome of its next call. *)
Tactic Notation "mstep" hyp(H) "as" simple_intropattern(p) ident(E) :=
  unfold mbind, M_bind, mret, M_ret in H; cbv beta iota in H;
  match type of H with (match ?x with _ => _ end) = _ => destruct x as p eqn:E end.

(** How a call ends: a nil function that is called panics, and so do a nil map that is
    written to and [resource.MustParse] on a text that is no quantity. *)
Inductive ending (A : Type) := Returns (r : A) | Panics.
Arguments Returns {A} r.
Arguments Panics {A}.

Lemma option_test_iff {A} (o : option A) (p : A -> bool) :
  match o with Some a => p a | None => false end = true <-> exists a, o = Some a /\ p a = true.
Proof. destruct o; naive_solver. Qed.

(** * Strings, as the [strings] package of Go treats ASCII text *)

(** A line feed. *)
Definition nl : string := String "010" "".

Fixpoint HasPrefix (s pre : string) : bool :=
  match pre, s with
  | EmptyString, _ => true
  | String a pre', String b s' => Ascii.eqb a b && HasPrefix s' pre'
  | _, _ => false
  end.

Fixpoint Contains (s sub : string) : bool :=
  HasPrefix s sub ||
  match s with
  | EmptyString => false
  | String _ s' => Contains s' sub
  end.

Fixpoint TrimSuffix (s suf : string) : string :=
  if String.eqb s suf then ""
  else match s with
       | EmptyString => ""
       | String c s' => String c (TrimSuffix s' suf)
       end.

Fixpoint str_drop (n : nat) (s : string) : string :=
  match n, s with
  | S n', String _ s' => str_drop n' s'
  | _, _ => s
  end.

Fixpoint str_take (n : nat) (s : string) : string :=
  match n, s with
  | S n', String c s' => String c (str_take n' s')
  | _, _ => ""
  end.

Definition TrimPrefix (s pre : string) : string :=
  if HasPrefix s pre then str_drop (String.length pre) s else s.

(** Before and after the first slash. *)
Fixpoint cut_slash (s : string) : option (string * string) :=
  match s with
  | EmptyString => None
  | String c s' =>
      if Ascii.eqb c "/" then Some ("", s')
      else match cut_slash s' with Some (a, b) => Some (String c a, b) | None => None end
  end.

Fixpoint str_map (f : Ascii.ascii -> Ascii.ascii) (s : string) : string :=
  match s with
  | EmptyString => EmptyString
  | String c s' => String (f c) (str_map f s')
  end.

Fixpoint str_forallb (p : Ascii.ascii -> bool) (s : string) : bool :=
  match s with
  | EmptyString => true
  | String c s' => p c && str_forallb p s'
  end.

(** [strings.TrimLeftFunc] and [strings.TrimRightFunc]. *)
Fixpoint trim_left (p : Ascii.ascii -> bool) (s : string) : string :=
  match s with
  | String c s' => if p c then trim_left p s' else s
  | EmptyString => EmptyString
  end.

Fixpoint trim_right (p : Ascii.ascii -> bool) (s : string) : string :=
  match s with
  | EmptyString => EmptyString
  | String c s' =>
      match trim_right p s' with
      | EmptyString => if p c then EmptyString else String c EmptyString
      | t => String c t
      end
  end.

Definition is_space (c : Ascii.ascii) : bool :=
  match Ascii.nat_of_ascii c with
  | 9 | 10 | 11 | 12 | 13 | 32 => true
  | _ => false
  end.

Definition TrimSpace (s : string) : string := trim_right is_space (trim_left is_space s).

(** [strings.ReplaceAll] for a non-empty [old]: non-overlapping occurrences,
    left to right. Every round consumes at least one byte, so [length s]
    rounds are enough. *)
Fixpoint replace_rounds (n : nat) (s old new : string) : string :=
  match n with
  | 0 => s
  | S n' =>
      if HasPrefix s old
      then new +:+ replace_rounds n' (str_drop (String.length old) s) old new
      else match s with
           | EmptyString => EmptyString
           | String c s' => String c (replace_rounds n' s' old new)
           end
  end.

Definition ReplaceAll (s old new : string) : string :=
  replace_rounds (String.length s) s old new.

(** [strings.ToLower] on ASCII. *)
Definition lower_byte (c : Ascii.ascii) : Ascii.ascii :=
  let n := Ascii.nat_of_ascii c in
  if (65 <=? n)%nat && (n <=? 90)%nat then Ascii.ascii_of_nat (n + 32) else c.
Definition ToLower (s : string) : string := str_map lower_byte s.

(** [strings.Join]. *)
Fixpoint Join (l : list string) (sep : string) : string :=
  match l with
  | [] => ""
  | [s] => s
  | s :: l' => s +:+ sep +:+ Join l' sep
  end.

(** The part of [s] before the first [c] ([strings.Cut]), and after the last. *)
Fixpoint cut_before (c : Ascii.ascii) (s : string) : string :=
  match s with
  | EmptyString => EmptyString
  | String a s' => if Ascii.eqb a c then EmptyString else String a (cut_before c s')
  end.

Fixpoint after_last_go (c : Ascii.ascii) (cur s : string) : string :=
  match s with
  | EmptyString => cur
  | String a s' => if Ascii.eqb a c then after_last_go c s' s' else after_last_go c cur s'
  end.

Definition after_last (c : Ascii.ascii) (s : string) : string := after_last_go c s s.

(** ** Lemmas on strings *)
Create HintDb gostr.

Lemma str_app_cons c (s t : string) : String c s +:+ t = String c (s +:+ t).
Proof. done. Qed.

Lemma str_app_nil_l (s : string) : "" +:+ s = s.
Proof. done. Qed.

Lemma str_app_nil_r (s : string) : s +:+ "" = s.
Proof. induction s as [|c s IH]; [done|]. by rw str_app_cons IH. Qed.

Lemma str_app_assoc (s t u : string) : (s +:+ t) +:+ u = s +:+ t +:+ u.
Proof. induction s as [|c s IH]; [done|]. by rw !str_app_cons IH. Qed.

Lemma str_length_app (s t : string) :
  String.length (s +:+ t) = String.length s + String.length t.
Proof. induction s as [|c s IH]; [done|]. by rw str_app_cons /= IH. Qed.

Lemma HasPrefix_spec s pre : HasPrefix s pre = true <-> exists t, s = pre +:+ t.
Proof.
  revert s. induction pre as [|a pre IH]; intros s.
  - split; [by exists s|by destruct s].
  - destruct s as [|b s]; [split; [done|by intros [t Ht]]|].
    simpl. rw andb_true_iff IH. split.
    + intros [->%Ascii.eqb_eq [t ->]]. by exists t.
    + intros [t [= -> ->]]. split; [apply Ascii.eqb_refl|by exists t].
Qed.

Lemma Contains_unfold s sub :
  Contains s sub =
    HasPrefix s sub || match s with EmptyString => false | String _ s' => Contains s' sub end.
Proof. by destruct s. Qed.

Lemma Contains_spec s sub : Contains s sub = true <-> exists a b, s = a +:+ sub +:+ b.
Proof.
  induction s as [|c s IH]; rw Contains_unfold orb_true_iff HasPrefix_spec.
  - split; [intros [[t Ht]|[=]]; by exists "", t|].
    intros ([|x a] & b & Hab); [|done]. left. exists b. done.
  - rw IH. split.
    + intros [[t ->]|(a & b & ->)]; [by exists "", t|by exists (String c a), b].
    + intros ([|x a] & b & Hab); [left; by exists b|].
      right. injection Hab as -> ->. by exists a, b.
Qed.

Lemma Contains_self s : Contains s s = true.
Proof. apply Contains_spec. exists "", "". by rw str_app_nil_r. Qed.

(** A message that contains a pattern still does after any wrapping. *)
Lemma Contains_infix pre s post sub :
  Contains s sub = true -> Contains (pre +:+ s +:+ post) sub = true.
Proof.
  rw !Contains_spec. intros (a & b & ->).
  exists (pre +:+ a), (b +:+ post). by rw !str_app_assoc.
Qed.

Lemma Contains_app_r a s sub : Contains s sub = true -> Contains (a +:+ s) sub = true.
Proof. intros Hs. rw -(str_app_nil_r s). by apply Contains_infix. Qed.

Lemma Contains_app_l s b sub : Contains s sub = true -> Contains (s +:+ b) sub = true.
Proof. apply (Contains_infix ""). Qed.

#[export] Hint Resolve Contains_app_r Contains_app_l : gostr.

Lemma str_forallb_app p s t :
  str_forallb p (s +:+ t) = str_forallb p s && str_forallb p t.
Proof. induction s as [|c s IH]; [done|]. by rw str_app_cons /= IH andb_assoc. Qed.

Lemma str_forallb_map p f s :
  (forall c, p (f c) = true) -> str_forallb p (str_map f s) = true.
Proof. intros Hf. induction s as [|c s IH]; [done|]. by rw /= Hf IH. Qed.

Lemma str_forallb_take p n s : str_forallb p s = true -> str_forallb p (str_take n s) = true.
Proof.
  revert n. induction s as [|c s IH]; intros [|n]; try done.
  simpl. intros [-> Hs]%andb_true_iff. by apply IH.
Qed.

Lemma str_take_length n s : String.length (str_take n s) <= n.
Proof.
  revert n. induction s as [|c s IH]; intros [|n]; simpl; try lia.
  specialize (IH n). lia.
Qed.

Lemma str_take_drop n s : str_take n s +:+ str_drop n s = s.
Proof. revert n. induction s as [|c s IH]; intros [|n]; try done. by rw /= str_app_cons IH. Qed.

Lemma trim_left_suffix p s : exists t, s = t +:+ trim_left p s.
Proof.
  induction s as [|c s [t IH]]; [by exists ""|]. simpl.
  destruct (p c); [exists (String c t); by rw str_app_cons -IH|by exists ""].
Qed.

Lemma trim_right_cons p c s :
  trim_right p (String c s) =
    if String.eqb (trim_right p s) "" && p c then "" else String c (trim_right p s).
Proof. simpl. by destruct (trim_right p s) as [|d t]; [destruct (p c)|]. Qed.

Lemma trim_right_prefix p s : exists t, s = trim_right p s +:+ t.
Proof.
  induction s as [|c s [t IH]]; [by exists ""|]. rw trim_right_cons.
  destruct (_ && _); [by exists (String c s)|].
  exists t. by rw str_app_cons -IH.
Qed.

Lemma trim_right_length p s : String.length (trim_right p s) <= String.length s.
Proof.
  destruct (trim_right_prefix p s) as [t Ht]. rw {2}Ht str_length_app. lia.
Qed.

Lemma trim_left_length p s : String.length (trim_left p s) <= String.length s.
Proof.
  destruct (trim_left_suffix p s) as [t Ht]. rw {2}Ht str_length_app. lia.
Qed.

Lemma trim_right_forallb p q s :
  str_forallb q s = true -> str_forallb q (trim_right p s) = true.
Proof.
  destruct (trim_right_prefix p s) as [t Ht]. rw {1}Ht str_forallb_app.
  by intros [? _]%andb_true_iff.
Qed.

Lemma trim_left_forallb p q s :
  str_forallb q s = true -> str_forallb q (trim_left p s) = true.
Proof.
  destruct (trim_left_suffix p s) as [t Ht]. rw {1}Ht str_forallb_app.
  by intros [_ ?]%andb_true_iff.
Qed.

#[export] Hint Resolve trim_right_forallb trim_left_forallb str_forallb_take
  str_forallb_map : gostr.

(** The first and the last byte of a string. *)
Definition str_head (s : string) : option Ascii.ascii :=
  match s with EmptyString => None | String c _ => Some c end.

Fixpoint str_last (s : string) : option Ascii.ascii :=
  match s with
  | EmptyString => None
  | String c EmptyString => Some c
  | String _ s' => str_last s'
  end.

Lemma str_last_app s t : t <> "" -> str_last (s +:+ t) = str_last t.
Proof.
  intros Ht. induction s as [|c s IH]; [done|].
  simpl. rw IH. destruct s, t; try done.
Qed.

Lemma trim_left_head p s c : str_head (trim_left p s) = Some c -> p c = false.
Proof.
  induction s as [|d s IH]; [done|]. simpl.
  destruct (p d) eqn:Hd; [done|]. by intros [= <-].
Qed.

Lemma trim_right_last p s c : str_last (trim_right p s) = Some c -> p c = false.
Proof.
  induction s as [|d s IH]; [done|]. rw trim_right_cons.
  destruct (trim_right p s) as [|e t]; simpl in *.
  - destruct (p d) eqn:Hd; [done|]. by intros [= <-].
  - exact IH.
Qed.

Lemma trim_right_head p s c :
  str_head (trim_right p s) = Some c -> str_head s = Some c.
Proof. destruct s as [|d s]; [done|]. rw trim_right_cons. by destruct (_ && _). Qed.

Lemma trim_right_keeps p c s : p c = false -> trim_right p (String c s) = String c (trim_right p s).
Proof. intros Hc. cbn. rw Hc. by destruct (trim_right p s). Qed.

Lemma trim_left_idem p s : trim_left p (trim_left p s) = trim_left p s.
Proof. induction s as [|c s IH]; cbn; [done|]. destruct (p c) eqn:E; [done|]. cbn. by rw E. Qed.

Lemma trim_right_idem p s : trim_right p (trim_right p s) = trim_right p s.
Proof.
  induction s as [|c s IH]; [done|]. cbn. destruct (trim_right p s) as [|d t] eqn:E.
  - destruct (p c) eqn:Hc; [done|]. cbn. by rw Hc.
  - cbn in *. by rw IH.
Qed.

Lemma trim_left_trim_right p s : trim_left p (trim_right p (trim_left p s)) = trim_right p (trim_left p s).
Proof.
  assert (H : trim_left p s = "" \/ exists c t, trim_left p s = String c t /\ p c = false).
  { induction s as [|c s IH]; [by left|]. cbn. destruct (p c) eqn:E; [done|]. right. eauto. }
  destruct H as [->|(c & t & -> & Hc)]; [done|]. rw trim_right_keeps; [done|]. cbn. by rw Hc.
Qed.

Lemma TrimSpace_idem s : TrimSpace (TrimSpace s) = TrimSpace s.
Proof. unfold TrimSpace. by rw trim_left_trim_right trim_right_idem. Qed.

(** * Formatting *)

Definition hex_digit (n : nat) : Ascii.ascii :=
  Ascii.ascii_of_nat (if (n <? 10)%nat then 48 + n else 87 + n).

(** One byte under [strconv.Quote]. *)
Definition quote_byte (c : Ascii.ascii) : string :=
  let n := Ascii.nat_of_ascii c in
  match n with
  | 7 => "\a" | 8 => "\b" | 9 => "\t" | 10 => "\n" | 11 => "\v" | 12 => "\f" | 13 => "\r"
  | 34 => String "092" (String "034" "")
  | 92 => "\\"
  | _ => if (n <? 32)%nat || (n =? 127)%nat
         then "\x" +:+ String (hex_digit (n / 16)) (String (hex_digit (n mod 16)) "")
         else String c ""
  end.

Fixpoint quote_bytes (s : string) : string :=
  match s with
  | EmptyString => ""
  | String c s' => quote_byte c +:+ quote_bytes s'
  end.

(** The [%q] verb. *)
Definition quote (s : string) : string :=
  String "034" (quote_bytes s +:+ String "034" "").

(** The [%v] verb on a slice of strings. *)
Definition fmt_strings (l : list string) : string := "[" +:+ Join l " " +:+ "]".

Lemma filter_true {A} (P : A -> Prop) `{!forall x, Decision (P x)} (l : list A) :
  (forall x, x ∈ l -> P x) -> filter P l = l.
Proof.
  induction l as [|x l IH]; intros Hall; [done|]. rw filter_cons_True; [apply Hall; by left|].
  f_equal. apply IH. intros y Hy. apply Hall. by right.
Qed.

(** * Numbers in text *)

Section Numbers.
Local Open Scope Z_scope.

Definition dec_digit (c : Ascii.ascii) : option Z :=
  let n := Z.of_nat (Ascii.nat_of_ascii c) in
  if (48 <=? n) && (n <=? 57) then Some (n - 48) else None.

(** [strconv.Atoi]. *)
Fixpoint all_digits (acc : Z) (s : string) : option Z :=
  match s with
  | EmptyString => Some acc
  | String c s' => match dec_digit c with
                   | Some d => all_digits (acc * 10 + d) s'
                   | None => None
                   end
  end.
Definition Atoi (s : string) : option Z :=
  let '(neg, digits) := match s with
    | String c s' => if Ascii.eqb c "-" then (true, s')
                     else if Ascii.eqb c "+" then (false, s') else (false, s)
    | EmptyString => (false, s)
    end in
  if String.eqb digits "" then None
  else match all_digits 0 digits with
       | Some v => let v := if neg : bool then - v else v in
                   if (- 2 ^ 63 <=? v) && (v <? 2 ^ 63) then Some v else None
       | None => None
       end.
End Numbers.

(** A decimal number written with [%d] is made of digits, so it ends where a dash follows:
    names with numbers in them are told apart. *)
Definition is_digit (c : Ascii.ascii) : bool :=
  let n := Ascii.nat_of_ascii c in (48 <=? n)%nat && (n <=? 57)%nat.

Lemma pretty_N_go_digits (x : N) s :
  str_forallb is_digit s = true -> str_forallb is_digit (pretty_N_go x s) = true.
Proof.
  revert s. induction (N.lt_wf_0 x) as [x _ IH]; intros s Hs.
  destruct (decide (x = 0)%N) as [->|Hx]; [by rw pretty_N_go_0|].
  rw pretty_N_go_step; [lia|]. apply IH; [apply N.div_lt; lia|]. simpl. rw Hs andb_true_r.
  unfold pretty_N_char. by repeat case_match.
Qed.

Lemma pretty_digits (z : Z) : (0 < z)%Z -> str_forallb is_digit (pretty z) = true.
Proof. destruct z as [|p|p]; [lia| |lia]. intros _. unfold pretty, pretty_Z, pretty, pretty_positive, pretty, pretty_N. simpl. by apply pretty_N_go_digits. Qed.

Lemma digits_cut s s' t t' :
  str_forallb is_digit s = true -> str_forallb is_digit s' = true ->
  s +:+ String "-" t = s' +:+ String "-" t' -> s = s' /\ t = t'.
Proof.
  revert s'. induction s as [|c s IH]; intros [|c' s'] Hs Hs'.
  - by intros [= ->].
  - intros [= <- _]. done.
  - intros [= -> _]. done.
  - rw !str_app_cons. intros [= -> H]. simpl in Hs, Hs'.
    apply andb_true_iff in Hs as [_ Hs], Hs' as [_ Hs']. by destruct (IH s' Hs Hs' H) as [-> ->].
Qed.

Lemma str_app_inv_l (s t t' : string) : s +:+ t = s +:+ t' -> t = t'.
Proof. induction s as [|c s IH]; [done|]. rw !str_app_cons. intros [= H]. auto. Qed.

Lemma str_app_inv_r (s t t' : string) : t +:+ s = t' +:+ s -> t = t'.
Proof.
  revert t'. induction t as [|c t IH]; intros [|c' t'] H; [done| | |].
  - exfalso. apply (f_equal String.length) in H. rw str_app_cons !str_length_app in H. cbn in H. rw str_length_app in H. lia.
  - exfalso. apply (f_equal String.length) in H. rw str_app_cons !str_length_app in H. cbn in H. rw str_length_app in H. lia.
  - rw !str_app_cons in H. injection H as -> H. f_equal. by apply IH.
Qed.

(** * [time.Duration.String] *)

(** The last [n] decimal digits of [v], zero-padded. *)
Fixpoint digits (n : nat) (v : Z) : string :=
  match n with
  | O => ""
  | S n' => digits n' (v / 10) +:+ pretty (v mod 10)%Z
  end.

Definition fmt_frac (n : nat) (v : Z) : string :=
  let ds := trim_right (Ascii.eqb "0"%char) (digits n v) in
  if String.eqb ds "" then "" else "." +:+ ds.

(** [d] is in nanoseconds. Below a second the unit shrinks, above it is hours, minutes and
    seconds, without leading zero units. *)
Definition fmt_duration (d : Z) : string :=
  let u := Z.abs d in
  let sign := if (d <? 0)%Z then "-" else "" in
  if (u =? 0)%Z then "0s"
  else if (u <? 1000)%Z then sign +:+ pretty u +:+ "ns"
  else if (u <? 1000000)%Z then
    sign +:+ pretty (u / 1000)%Z +:+ fmt_frac 3 u +:+ String "194" (String "181" "s")
  else if (u <? 1000000000)%Z then sign +:+ pretty (u / 1000000)%Z +:+ fmt_frac 6 u +:+ "ms"
  else
    let s := (u / 1000000000)%Z in
    sign +:+ (if (3600 <=? s)%Z then pretty (s / 3600)%Z +:+ "h" else "") +:+
    (if (60 <=? s)%Z then pretty (s / 60 mod 60)%Z +:+ "m" else "") +:+
    pretty (s mod 60)%Z +:+ fmt_frac 9 u +:+ "s".

Example fmt_duration_examples :
  map fmt_duration [0; 90000000000; 1500000000; 3600000000000; 250000000; -1500000; 7]%Z =
  ["0s"; "1m30s"; "1.5s"; "1h0m0s"; "250ms"; "-1.5ms"; "7ns"].
Proof. vm_compute. reflexivity. Qed.
