(* ===== verification/Errors.v ===== *)
(** Go error values as the program inspects them.

    An error is a tree: a leaf with its dynamic kind and message, or a value
    that wraps one ([fmt.Errorf] with [%w], [*net.OpError], ...) or two errors.
    [errors.Is] and [errors.As] walk the tree in preorder. The predicates of
    [k8s.io/apimachinery/pkg/api/errors] are not part of the repository: they are
    the class [ApiErrors], with their documented behaviour as [ApiErrorsLaws]. *)
From S2P Require Import Prelude.

(** What a [*apierrors.StatusError] carries that the code reads;
    [RetryAfterSeconds] is [None] when [Details] is nil. *)
Record Status := mkStatus {
  Code : Z;
  Reason : string;
  RetryAfterSeconds : option Z
}.

(** The dynamic type of an error value. [KSentinel name net] is a package-level
    value compared by identity; [net] is its [Timeout()] when the value also
    implements [net.Error]. *)
Inductive kind :=
| KPlain
| KSentinel (name : string) (net : option bool)
| KStatus (st : Status)
| KExit (code : Z)
| KDiscoveryFailed
| KNoKindMatch
| KNoResourceMatch
| KPassphraseMissing
| KNet (timeout : bool).

Inductive error :=
| Leaf (k : kind) (msg : string)
| Wrap (k : kind) (pre : string) (e : error) (post : string)
| Wrap2 (pre : string) (e1 : error) (mid : string) (e2 : error) (post : string).

#[export] Instance Status_eq_dec : EqDecision Status.
Proof. solve_decision. Defined.
#[export] Instance kind_eq_dec : EqDecision kind.
Proof. solve_decision. Defined.
#[export] Instance error_eq_dec : EqDecision error.
Proof. solve_decision. Defined.

(** [err.Error()]. *)
Fixpoint Error (e : error) : string :=
  match e with
  | Leaf _ msg => msg
  | Wrap _ pre e' post => pre +:+ Error e' +:+ post
  | Wrap2 pre e1 mid e2 post => pre +:+ Error e1 +:+ mid +:+ Error e2 +:+ post
  end.

(** The kinds of the tree, in the order [errors.Is] and [errors.As] visit them. *)
Fixpoint kinds (e : error) : list kind :=
  match e with
  | Leaf k _ => [k]
  | Wrap k _ e' _ => k :: kinds e'
  | Wrap2 _ e1 _ e2 _ => KPlain :: kinds e1 ++ kinds e2
  end.

Definition is_sentinel (name : string) (k : kind) : bool :=
  match k with KSentinel n _ => String.eqb n name | _ => false end.

Definition errors_Is (e : error) (name : string) : bool :=
  existsb (is_sentinel name) (kinds e).

Fixpoint find_map {A B} (f : A -> option B) (l : list A) : option B :=
  match l with
  | [] => None
  | a :: l' => match f a with Some b => Some b | None => find_map f l' end
  end.

Definition errors_As {B} (f : kind -> option B) (e : error) : option B := find_map f (kinds e).

Definition as_status (k : kind) : option Status :=
  match k with KStatus st => Some st | _ => None end.
Definition as_exit (k : kind) : option Z :=
  match k with KExit c => Some c | _ => None end.
Definition as_discovery (k : kind) : option unit :=
  match k with KDiscoveryFailed => Some tt | _ => None end.
Definition as_no_kind (k : kind) : option unit :=
  match k with KNoKindMatch => Some tt | _ => None end.
Definition as_no_resource (k : kind) : option unit :=
  match k with KNoResourceMatch => Some tt | _ => None end.
Definition as_passphrase (k : kind) : option unit :=
  match k with KPassphraseMissing => Some tt | _ => None end.
(** [net.Error], with the value of its [Timeout()]. *)
Definition as_net (k : kind) : option bool :=
  match k with KNet t => Some t | KSentinel _ (Some t) => Some t | _ => None end.

(** Constructors: [errors.New]/[fmt.Errorf] without [%w], [fmt.Errorf] with one. *)
Definition Errorf (msg : string) : error := Leaf KPlain msg.
Definition ErrorfW (pre : string) (e : error) (post : string) : error := Wrap KPlain pre e post.

(** [fmt.Errorf] with [%w] and an argument that may be nil. *)
Definition ErrorfWn (pre : string) (e : option error) (post : string) : error :=
  match e with
  | Some e => ErrorfW pre e post
  | None => Errorf (pre +:+ "%!w(<nil>)" +:+ post)
  end.

(** [errors.Join]: nil when no error is given, else the messages one per line. *)
Fixpoint joinErrors (es : list error) : option error :=
  match es with
  | [] => None
  | e :: es' =>
      Some match joinErrors es' with
           | None => Wrap KPlain "" e ""
           | Some rest => Wrap2 "" e (String "010" "") rest ""
           end
  end.

(** Values of the standard library the code compares with. *)
Definition io_EOF := Leaf (KSentinel "io.EOF" None) "EOF".
Definition context_Canceled := Leaf (KSentinel "context.Canceled" None) "context canceled".
Definition context_DeadlineExceeded :=
  Leaf (KSentinel "context.DeadlineExceeded" (Some true)) "context deadline exceeded".

(** Outcome of a fallible call that has no value on failure. *)
Inductive result (A : Type) := Ok (a : A) | Err (e : error).
Arguments Ok {A} a.
Arguments Err {A} e.

Definition is_nil (e : option error) : bool := if e is None then true else false.

(** ** The predicates of [k8s.io/apimachinery/pkg/api/errors] *)
Class ApiErrors := {
  IsNotFound : option error -> bool;
  IsAlreadyExists : option error -> bool;
  IsConflict : option error -> bool;
  IsForbidden : option error -> bool;
  IsUnauthorized : option error -> bool;
  IsBadRequest : option error -> bool;
  IsInvalid : option error -> bool;
  IsMethodNotSupported : option error -> bool;
  IsServerTimeout : option error -> bool;
  IsServiceUnavailable : option error -> bool;
  IsTooManyRequests : option error -> bool;
  IsTimeout : option error -> bool;
  IsInternalError : option error -> bool
}.

(** The predicates the client-side retry classification uses. *)
Definition transient_reasons `{ApiErrors} : list (option error -> bool) :=
  [IsServerTimeout; IsServiceUnavailable; IsTooManyRequests; IsTimeout; IsInternalError].

(** Documented: each predicate "supports wrapped errors and returns false when
    the error is nil"; the reasons are mutually exclusive. *)
Class ApiErrorsLaws `{ApiErrors} : Prop := {
  IsNotFound_nil : IsNotFound None = false;
  IsAlreadyExists_nil : IsAlreadyExists None = false;
  IsConflict_nil : IsConflict None = false;
  IsNotFound_wrap pre e post : IsNotFound (Some (ErrorfW pre e post)) = IsNotFound (Some e);
  transient_wrap P pre e post :
    In P transient_reasons -> P (Some (ErrorfW pre e post)) = P (Some e);
  NotFound_not_AlreadyExists e : IsNotFound e = true -> IsAlreadyExists e = false
}.

(** A concrete reading of the predicates, by the [Reason] of the first status
    error in the tree; used to evaluate the model on concrete inputs. *)
Definition has_reason (r : string) (e : option error) : bool :=
  match e with
  | None => false
  | Some e => match errors_As as_status e with
              | Some st => String.eqb (Reason st) r
              | None => false
              end
  end.

#[export] Instance reasonApiErrors : ApiErrors := {|
  IsNotFound := has_reason "NotFound";
  IsAlreadyExists := has_reason "AlreadyExists";
  IsConflict := has_reason "Conflict";
  IsForbidden := has_reason "Forbidden";
  IsUnauthorized := has_reason "Unauthorized";
  IsBadRequest := has_reason "BadRequest";
  IsInvalid := has_reason "Invalid";
  IsMethodNotSupported := has_reason "MethodNotAllowed";
  IsServerTimeout := has_reason "ServerTimeout";
  IsServiceUnavailable := has_reason "ServiceUnavailable";
  IsTooManyRequests := has_reason "TooManyRequests";
  IsTimeout := has_reason "Timeout";
  IsInternalError := has_reason "InternalError"
|}.

Lemma has_reason_wrap r pre e post :
  has_reason r (Some (ErrorfW pre e post)) = has_reason r (Some e).
Proof. done. Qed.

Lemma has_reason_excl r1 r2 e :
  r1 <> r2 -> has_reason r1 e = true -> has_reason r2 e = false.
Proof.
  intros Hne. destruct e as [e|]; [simpl|done].
  destruct (errors_As as_status e) as [st|]; [|done].
  intros ->%String.eqb_eq. by apply String.eqb_neq.
Qed.

#[export] Instance reasonApiErrorsLaws : ApiErrorsLaws.
Proof.
  split; try done.
  - intros P pre e post HP. simpl in HP.
    repeat (destruct HP as [<-|HP]; [apply has_reason_wrap|]). done.
  - intros e. by apply has_reason_excl.
Qed.

(** Status errors as the API server sends them. *)
Definition statusError (reason : string) (code : Z) (msg : string) : error :=
  Leaf (KStatus (mkStatus code reason None)) msg.
Definition notFoundError (what : string) : error :=
  statusError "NotFound" 404 (what +:+ " not found").
Definition alreadyExistsError (what : string) : error :=
  statusError "AlreadyExists" 409 (what +:+ " already exists").
Definition conflictError (what : string) : error :=
  statusError "Conflict" 409
    ("Operation cannot be fulfilled on " +:+ what +:+ ": the object has been modified").

(** ** Searching the tree *)
Lemma find_map_app {A B} (f : A -> option B) l1 l2 :
  find_map f (l1 ++ l2) = match find_map f l1 with Some b => Some b | None => find_map f l2 end.
Proof. induction l1 as [|a l1 IH]; [done|]. simpl. by destruct (f a). Qed.

Lemma errors_Is_wrap pre e post name : errors_Is (ErrorfW pre e post) name = errors_Is e name.
Proof. done. Qed.

Lemma errors_As_wrap {B} (f : kind -> option B) pre e post :
  f KPlain = None -> errors_As f (ErrorfW pre e post) = errors_As f e.
Proof. unfold errors_As. simpl. by intros ->. Qed.

Lemma Error_wrap pre e post : Error (ErrorfW pre e post) = pre +:+ Error e +:+ post.
Proof. done. Qed.
