(* ===== verification/Retry.v ===== *)
(** Package [pkg/retry]: retry with exponential backoff for transient errors
    ([src/pkg/retry/retry.go]), and the error classification it rests on. *)
From Stdlib Require Import SpecFloat.
From S2P Require Import Prelude Errors.

Local Open Scope Z_scope.
Local Open Scope go_scope.

(** Durations are int64 nanoseconds. *)
Definition Second : Z := 1000000000.
Definition Minute : Z := 60 * Second.

(** [float64] as IEEE 754 binary64; [float64(d)] rounds, [time.Duration(f)]
    truncates toward zero. *)
Definition float64 := spec_float.
Definition float_of_int (d : Z) : float64 := binary_normalize 53 1024 d 0 false.
Definition float_mul (x y : float64) : float64 := SFmul 53 1024 x y.
Definition min_int64 : Z := - 2 ^ 63.
Definition int_of_float (f : float64) : Z :=
  match f with
  | S754_finite s m e =>
      let a := if 0 <=? e then Zpos m * 2 ^ e else Zpos m / 2 ^ (- e) in
      if s then - a else a
  | S754_zero _ => 0
  | _ => min_int64
  end.

Definition float_1_5 : float64 := binary_normalize 53 1024 3 (-1) false.
Definition float_2_0 : float64 := binary_normalize 53 1024 2 0 false.

Record Config := mkConfig {
  MaxRetries : Z;
  InitialWait : Z;
  MaxWait : Z;
  Backoff : float64;
  LogRetries : bool
}.

Definition SSHRetryCount : Z := 10.
Definition SSHRetryInitialDelay : Z := 2 * Second.
Definition SSHRetryMaxDelay : Z := 60 * Second.

Definition DefaultConfig : Config := mkConfig 10 (2 * Second) (30 * Second) float_1_5 true.
Definition SSHConfig : Config :=
  mkConfig SSHRetryCount SSHRetryInitialDelay SSHRetryMaxDelay float_2_0 true.
Definition QuickConfig : Config := mkConfig 3 (1 * Second) (5 * Second) float_2_0 true.

(** ** Classification of errors *)

Definition networkPatterns : list string :=
  ["TLS handshake timeout"; "connection refused"; "connection reset"; "connection timed out";
   "i/o timeout"; "EOF"; "broken pipe"; "no route to host"; "network is unreachable";
   "net/http: request canceled"; "context deadline exceeded"].

Definition k8sPatterns : list string :=
  ["server is currently unable to handle the request"; "ServiceUnavailable";
   "the server is currently unable to handle the request"; "etcdserver: request timed out";
   "etcdserver: leader changed"; "failed to get server groups"].

Definition sshPatterns : list string :=
  ["failed to create SSH session"; "ssh: handshake failed"; "ssh: unable to authenticate";
   "ssh: connection lost"; "failed to dial"; "use of closed network connection"].

Definition webhookPatterns : list string := ["failed calling webhook"; "webhook"].

Definition allPatterns : list string :=
  networkPatterns ++ k8sPatterns ++ sshPatterns ++ webhookPatterns.

Definition matches_any (patterns : list string) (s : string) : bool :=
  existsb (Contains s) patterns.

Definition IsGroupDiscoveryFailedError (err : option error) : bool :=
  match err with
  | None => false
  | Some e =>
      if errors_As as_discovery e is Some _ then true
      else Contains (Error e) "unable to retrieve the complete list of server APIs"
  end.

Definition IsAPINotRegisteredError (err : option error) : bool :=
  match err with
  | None => false
  | Some e =>
      if errors_As as_no_kind e is Some _ then true
      else if errors_As as_no_resource e is Some _ then true
      else Contains (Error e) "no matches for "
  end.

Definition connectionPatterns : list string :=
  ["failed to create SSH session"; "ssh: handshake failed"; "ssh: connection lost";
   "use of closed network connection"; "connection refused"; "connection reset";
   "broken pipe"; "EOF"; "i/o timeout"].

Definition IsSSHConnectionError (err : option error) : bool :=
  match err with
  | None => false
  | Some e =>
      if matches_any connectionPatterns (Error e) then true else errors_Is e "io.EOF"
  end.

(** The first check of [IsRetryable], on the status error found in the tree. *)
Definition retryable_status (st : Status) : bool :=
  ((500 <=? Code st) && negb (Code st =? 501)) || (Code st =? 429) ||
  match RetryAfterSeconds st with Some s => 0 <? s | None => false end.

Lemma ifs_or (a b c d e : bool) :
  (if a then true else if b then true else if c then true else if d then true else e)
  = a || b || c || d || e.
Proof. by destruct a, b, c, d. Qed.

Section Classification.
Context `{AE : ApiErrors}.

Definition IsRetryable (err : option error) : bool :=
  match err with
  | None => false
  | Some e =>
      if match errors_As as_status e with
         | Some st => retryable_status st
         | None => false
         end then true
      else if IsServerTimeout err || IsServiceUnavailable err || IsTooManyRequests err ||
              IsTimeout err || IsInternalError err then true
      else if IsGroupDiscoveryFailedError err then true
      else if errors_Is e "io.EOF" then true
      else matches_any allPatterns (Error e)
  end.

Lemma IsRetryable_iff e :
  IsRetryable (Some e) = true <->
    (exists st, errors_As as_status e = Some st /\ retryable_status st = true) \/
    (exists P, In P transient_reasons /\ P (Some e) = true) \/
    IsGroupDiscoveryFailedError (Some e) = true \/
    errors_Is e "io.EOF" = true \/
    matches_any allPatterns (Error e) = true.
Proof.
  rw -(existsb_exists (fun P => P (Some e))).
  unfold IsRetryable. cbn [existsb transient_reasons].
  rw ifs_or orb_false_r -option_test_iff !orb_true_iff. tauto.
Qed.

(** ** The retry loop

    Generic in the monad [F] of effects: a state-passing function, or the
    programs of [Lease] whose calls interleave with other processes. *)
Section Do.
Context {F : Type -> Type} `{MRet F, MBind F} {T : Type}.
(** [ctx.Err()], and the [select] between [ctx.Done()] and [time.After(wait)]:
    [true] when the timer fires first. *)
Context (ctxErr : F (option error)) (timerFires : Z -> F bool).
Context (fn : F (T * option error)).

Definition nextWait (cfg : Config) (wait : Z) : Z :=
  let wait := int_of_float (float_mul (float_of_int wait) (Backoff cfg)) in
  if MaxWait cfg <? wait then MaxWait cfg else wait.

(** One iteration per unit of [left] = [MaxRetries + 1 - attempt]. *)
Fixpoint do_loop (left : nat) (cfg : Config) (wait : Z) (result : T) (lastErr : option error)
    : F (T * option error) :=
  match left with
  | O => mret (result, lastErr)
  | S left' =>
      let! ce := ctxErr in
      if negb (is_nil ce) then mret (result, ce)
      else
        let! '(result, lastErr) := fn in
        if is_nil lastErr then mret (result, None)
        else if negb (IsRetryable lastErr) then mret (result, lastErr)
        else if (0 <? Z.of_nat left') then
          let! fired := timerFires wait in
          if fired : bool then do_loop left' cfg (nextWait cfg wait) result lastErr
          else let! ce := ctxErr in mret (result, ce)
        else do_loop left' cfg wait result lastErr
  end.

(** [zero] is the zero value of [T]. *)
Definition Do (cfg : Config) (zero : T) : F (T * option error) :=
  do_loop (Z.to_nat (MaxRetries cfg + 1)) cfg (InitialWait cfg) zero None.

End Do.

Definition DoVoid {F : Type -> Type} `{MRet F, MBind F} (ctxErr : F (option error))
    (timerFires : Z -> F bool) (cfg : Config) (fn : F (option error)) : F (option error) :=
  let! '(_, err) := Do ctxErr timerFires (let! err := fn in mret (tt, err)) cfg tt in
  mret err.

End Classification.

Definition WithRetryAfter (cfg : Config) (err : option error) : Config :=
  match err with
  | None => cfg
  | Some e =>
      match errors_As as_status e with
      | Some st =>
          match RetryAfterSeconds st with
          | Some s =>
              if 0 <? s then
                let retryAfter := s * Second in
                if InitialWait cfg <? retryAfter
                then mkConfig (MaxRetries cfg) retryAfter (MaxWait cfg) (Backoff cfg)
                       (LogRetries cfg)
                else cfg
              else cfg
          | None => cfg
          end
      | None => cfg
      end
  end.

(** ** Wrapping an error keeps it retryable *)

Lemma matches_any_infix patterns pre s post :
  matches_any patterns s = true -> matches_any patterns (pre +:+ s +:+ post) = true.
Proof.
  unfold matches_any. rw !existsb_exists. intros (p & Hp & Hc).
  exists p. split; [done|]. by apply Contains_infix.
Qed.

Lemma IsGroupDiscoveryFailedError_wrap pre e post :
  IsGroupDiscoveryFailedError (Some e) = true ->
  IsGroupDiscoveryFailedError (Some (ErrorfW pre e post)) = true.
Proof.
  unfold IsGroupDiscoveryFailedError. rw errors_As_wrap //.
  destruct (errors_As as_discovery e); [done|]. rw Error_wrap. apply Contains_infix.
Qed.

(** A transient error stays retryable however often callers wrap it with
    [fmt.Errorf("...%w...", err)]. *)
Theorem IsRetryable_wrap `{ApiErrorsLaws} pre e post :
  IsRetryable (Some e) = true -> IsRetryable (Some (ErrorfW pre e post)) = true.
Proof.
  rw !IsRetryable_iff errors_As_wrap // errors_Is_wrap.
  intros [?|[(P & HP & Ht)|[Hg|[?|Hm]]]]; [by left| |..].
  - right; left. exists P. by rw transient_wrap.
  - do 2 right; left. by apply IsGroupDiscoveryFailedError_wrap.
  - do 3 right; by left.
  - do 4 right. rw Error_wrap. by apply matches_any_infix.
Qed.

Lemma IsRetryable_wrap_witness :
  IsRetryable (Some (ErrorfW "get lease: " (Errorf "dial tcp: connection refused") "")) = true.
Proof. apply (IsRetryable_wrap "get lease: " _ ""). vm_compute. reflexivity. Defined.

(** ** The loop against a scripted operation

    [outs] are the outcomes of the successive calls of the operation; [budget]
    is how many waits complete before the context is canceled. *)
Section Script.
Context `{AE : ApiErrors} {T : Type} (zero : T).

Record script := mkScript {
  outs : list (T * option error);
  calls : nat;
  slept : list Z;
  budget : nat;
  canceled : bool
}.

Definition script_fn : M script (T * option error) := fun w =>
  match outs w with
  | o :: os => (o, mkScript os (S (calls w)) (slept w) (budget w) (canceled w))
  | [] => ((zero, None), mkScript [] (S (calls w)) (slept w) (budget w) (canceled w))
  end.

Definition script_ctxErr : M script (option error) :=
  gets (fun w => if canceled w then Some context_Canceled else None).

Definition script_timer (wait : Z) : M script bool := fun w =>
  match budget w with
  | O => (false, mkScript (outs w) (calls w) (slept w) O true)
  | S b => (true, mkScript (outs w) (calls w) (slept w ++ [wait]) b (canceled w))
  end.

(** An outcome that ends the loop: success or an error that is not retryable. *)
Definition decisive (o : T * option error) : bool :=
  is_nil (snd o) || negb (IsRetryable (snd o)).

(** Index of the first decisive outcome among the first [left], or [left - 1]. *)
Fixpoint first_decisive (left : nat) (os : list (T * option error)) : nat :=
  match left, os with
  | S (S left' as l), o :: os' => if decisive o then 0%nat else S (first_decisive l os')
  | _, _ => 0%nat
  end.

(** The waits of the exponential backoff, from [wait] on. *)
Fixpoint backoff_waits (n : nat) (cfg : Config) (wait : Z) : list Z :=
  match n with
  | O => []
  | S n' => wait :: backoff_waits n' cfg (nextWait cfg wait)
  end.

Lemma first_decisive_stop left o os :
  decisive o = true \/ left = 1%nat -> first_decisive left (o :: os) = 0%nat.
Proof. destruct left as [|[|left]]; [done..|]. by intros [H|[=]]; simpl; rw ?H. Qed.

Lemma first_decisive_next left o os :
  decisive o = false -> first_decisive (S (S left)) (o :: os) = S (first_decisive (S left) os).
Proof. intros H. by cbn [first_decisive]; rw H. Qed.

Lemma do_loop_script left cfg wait r e os c sl b :
  (0 < left <= length os)%nat ->
  let i := first_decisive left os in
  let j := Nat.min i b in
  let o := nth j os (zero, None) in
  do_loop script_ctxErr script_timer script_fn left cfg wait r e (mkScript os c sl b false) =
    ((fst o, if Nat.ltb b i then Some context_Canceled else snd o),
     mkScript (drop (S j) os) (c + S j) (sl ++ backoff_waits j cfg wait) (b - j)
       (Nat.ltb b i)).
Proof.
  revert wait r e os c sl b. induction left as [|left IH]; intros wait r e os c sl b Hl; [lia|].
  destruct os as [|[x oe] os]; simpl in Hl; [lia|]. cbv zeta.
  cbn [do_loop]. unfold mbind, M_bind, mret, M_ret, script_ctxErr, gets, script_fn.
  cbn [is_nil negb outs calls slept budget canceled].
  destruct (decisive (x, oe)) eqn:Hd.
  - rw first_decisive_stop; [by left|]. cbn. rw drop_0 app_nil_r Nat.sub_0_r Nat.add_1_r.
    unfold decisive in Hd; simpl in Hd. destruct oe as [oe|]; cbn in *; by rw ?Hd.
  - pose proof Hd as Hd'. unfold decisive in Hd'; cbn in Hd'.
    apply orb_false_iff in Hd' as [Hn Hr]. rw Hn Hr. clear Hn Hr.
    destruct left as [|left].
    + rw first_decisive_stop; [by right|]. cbn.
      by rw drop_0 app_nil_r Nat.sub_0_r Nat.add_1_r.
    + rw first_decisive_next //.
      replace (0 <? Z.of_nat (S left)) with true by (symmetry; apply Z.ltb_lt; lia).
      unfold script_timer; cbn [outs calls slept budget canceled].
      destruct b as [|b]; [cbn; by rw drop_0 app_nil_r Nat.add_1_r|].
      rw IH; [lia|]. cbv zeta. generalize (first_decisive (S left) os); intros i.
      cbn [Nat.min nth skipn backoff_waits Nat.sub].
      change (Nat.ltb (S b) (S i)) with (Nat.ltb b i).
      by rw -app_assoc Nat.add_succ_l -Nat.add_succ_r.
Qed.

(** Against any script of outcomes, [Do] performs exactly the calls up to the
    first decisive outcome (or [MaxRetries + 1] calls when there is none), sleeps
    the backoff waits between them, and returns that outcome; if the context is
    canceled after [budget] waits it stops there with the context's error. *)
Theorem Do_script cfg os b :
  0 <= MaxRetries cfg < Z.of_nat (length os) ->
  let i := first_decisive (Z.to_nat (MaxRetries cfg + 1)) os in
  let j := Nat.min i b in
  let o := nth j os (zero, None) in
  Do script_ctxErr script_timer script_fn cfg zero (mkScript os 0 [] b false) =
    ((fst o, if Nat.ltb b i then Some context_Canceled else snd o),
     mkScript (drop (S j) os) (S j) (backoff_waits j cfg (InitialWait cfg)) (b - j)
       (Nat.ltb b i)).
Proof. intros Hm. unfold Do. rw do_loop_script; [lia|]. done. Qed.

Lemma first_decisive_lt left os : (0 < left)%nat -> (first_decisive left os < left)%nat.
Proof.
  revert os. induction left as [|[|left] IH]; intros os Hl; [lia|by destruct os; cbn; lia|].
  destruct os as [|o os]; [cbn; lia|]. destruct (decisive o) eqn:Hd.
  - rw first_decisive_stop; [by left|]. lia.
  - rw first_decisive_next //. specialize (IH os). lia.
Qed.
End Script.

Lemma Do_script_witness :
  let os := [(0, Some (Errorf "connection refused")); (7, None); (9, None); (9, None)] in
  Do script_ctxErr script_timer (script_fn 0) QuickConfig 0 (mkScript os 0 [] 5 false) =
    ((7, None), mkScript [(9, None); (9, None)] 2 [1 * Second] 4 false).
Proof.
  intros os. rw (Do_script 0 QuickConfig os 5); [split; vm_compute; congruence|].
  vm_compute. reflexivity.
Defined.

(** ** Waits *)

Lemma nextWait_le cfg wait : nextWait cfg wait <= MaxWait cfg.
Proof. unfold nextWait. case_match; lia. Qed.

Lemma backoff_waits_bounded n cfg wait :
  wait <= Z.max (InitialWait cfg) (MaxWait cfg) ->
  Forall (fun d => d <= Z.max (InitialWait cfg) (MaxWait cfg)) (backoff_waits n cfg wait).
Proof.
  revert wait. induction n as [|n IH]; intros wait Hw; [constructor|].
  constructor; [done|]. apply IH. pose proof (nextWait_le cfg wait). lia.
Qed.

Definition sum_Z (l : list Z) : Z := foldr Z.add 0 l.

(** Whatever the operation does, an operation retried with [DefaultConfig]
    spends at most 154.34375 s waiting between attempts, in at most ten waits. *)
Theorem Do_default_wait_bound `{ApiErrors} {T} (zero : T) os b :
  (11 <= length os)%nat ->
  let w := snd (Do script_ctxErr script_timer (script_fn zero) DefaultConfig zero
                  (mkScript os 0 [] b false)) in
  sum_Z (slept w) <= 154343750000 /\ (length (slept w) <= 10)%nat.
Proof.
  intros Hl. unfold Do. rw do_loop_script; [cbn; lia|]. cbn [snd slept app].
  set (j := Nat.min _ b).
  assert (Hj : (j <= 10)%nat).
  { pose proof (first_decisive_lt (Z.to_nat (MaxRetries DefaultConfig + 1)) os) as Hf.
    change (Z.to_nat _) with 11%nat in *. lia. }
  clearbody j. clear -Hj.
  do 11 (destruct j as [|j]; [vm_compute; split; [congruence|lia]|]). lia.
Qed.

Lemma Do_default_wait_bound_witness :
  let os := repeat (0, Some (Errorf "EOF")) 11 in
  let w := snd (Do script_ctxErr script_timer (script_fn 0) DefaultConfig 0
                  (mkScript os 0 [] 20 false)) in
  sum_Z (slept w) <= 154343750000 /\ (length (slept w) <= 10)%nat.
Proof. apply (Do_default_wait_bound 0 (repeat (0, Some (Errorf "EOF")) 11) 20). vm_compute. lia. Defined.

(** ** The rule for an operation that is retried

    An invariant of the operation, of the clock and of the context is an invariant of
    the retried operation, and on success the last call established [Q]. *)
Section Rule.
Context `{AE : ApiErrors} {W T : Type} (ctxErr : M W (option error)) (timerFires : Z -> M W bool).
Context (I : W -> Prop) (Q : T -> W -> Prop) (fn : M W (T * option error)).
Hypothesis Hctx : forall w e w', I w -> ctxErr w = (e, w') -> I w'.
Hypothesis Htimer : forall z w b w', I w -> timerFires z w = (b, w') -> I w'.
Hypothesis Hdone : forall z w w', timerFires z w = (false, w') -> exists e w'', ctxErr w' = (Some e, w'').
Hypothesis Hfn : forall w t e w', I w -> fn w = ((t, e), w') -> I w' /\ (e = None -> Q t w').

Lemma do_loop_rule left cfg wait r le w t e w' :
  I w -> left <> 0%nat \/ le <> None ->
  do_loop ctxErr timerFires fn left cfg wait r le w = ((t, e), w') ->
  I w' /\ (e = None -> Q t w').
Proof.
  revert wait r le w. induction left as [|left IH]; intros wait r le w HI Hl H; cbn [do_loop] in H.
  { injection H as -> -> ->. destruct Hl; [done|]. by split. }
  unfold mbind, M_bind, mret, M_ret in H.
  destruct (ctxErr w) as [ce w1] eqn:Hc. pose proof (Hctx _ _ _ HI Hc) as HI1.
  destruct ce as [ce|]; cbn [is_nil negb] in H; [by injection H as <- <- <-|].
  destruct (fn w1) as [[t1 e1] w2] eqn:Hf. destruct (Hfn _ _ _ _ HI1 Hf) as [HI2 HQ].
  destruct e1 as [e1|]; cbn [is_nil] in H; [|injection H as <- <- <-; by split; [|intros; apply HQ]].
  destruct (IsRetryable (Some e1)); cbn [negb] in H; [|by injection H as <- <- <-].
  destruct (0 <? Z.of_nat left); [|by eapply IH in H; [|done|by right]].
  destruct (timerFires wait w2) as [b w3] eqn:Ht. pose proof (Htimer _ _ _ _ HI2 Ht) as HI3.
  destruct b; [by eapply IH in H; [|done|by right]|].
  destruct (Hdone _ _ _ Ht) as (e2 & w4 & Hc4). rw Hc4 in H. injection H as <- <- <-.
  split; [by eapply Hctx|done].
Qed.
End Rule.

Lemma DoVoid_rule `{AE : ApiErrors} {W} (ctxErr : M W (option error)) (timerFires : Z -> M W bool)
    (I Q : W -> Prop) cfg fn w e w' :
  (forall w e w', I w -> ctxErr w = (e, w') -> I w') ->
  (forall z w b w', I w -> timerFires z w = (b, w') -> I w') ->
  (forall z w w', timerFires z w = (false, w') -> exists e w'', ctxErr w' = (Some e, w'')) ->
  (forall w e w', I w -> fn w = (e, w') -> I w' /\ (e = None -> Q w')) ->
  I w -> 0 <= MaxRetries cfg ->
  DoVoid ctxErr timerFires cfg fn w = (e, w') -> I w' /\ (e = None -> Q w').
Proof.
  intros Hc Ht Hd Hf HI Hm H. unfold DoVoid, mbind, M_bind, mret, M_ret in H.
  destruct (Do (F := M W) _ _ _ cfg tt w) as [[t e1] w1] eqn:HD. injection H as <- <-.
  refine (do_loop_rule ctxErr timerFires I (fun _ => Q) _ Hc Ht Hd _ _ _ _ _ _ _ _ _ _ HI _ HD);
    [|left; lia].
  intros w2 t2 e2 w3 HI2 Hfn. destruct (fn w2) as [e3 w4] eqn:Hfw. injection Hfn as <- <- <-.
  by eapply Hf.
Qed.
