(* ===== verification/Env.v ===== *)
(** The environment of the suites and the log: [src/internal/config/env.go],
    [src/internal/logger] and [src/pkg/storage-e2e/setup.go]. The package variables are a record;
    what is written to the console and to the log file are lists of lines. *)
From S2P Require Import Prelude Errors.

Local Open Scope Z_scope.
Local Open Scope go_scope.

(** ** Package variables *)

Definition ClusterCreateModeAlwaysUseExisting := "alwaysUseExisting".
Definition ClusterCreateModeAlwaysCreateNew := "alwaysCreateNew".
Definition ClusterCreateModeCommander := "commander".
Definition ImagePullPolicyAlways := "Always".
Definition ImagePullPolicyIfNotExists := "IfNotExists".
Definition LogLevelDebug := "debug".
Definition LogLevelInfo := "info".
Definition LogLevelWarn := "warn".
Definition LogLevelError := "error".

(** The variables that are checked or given a default. *)
Record Vars := mkVars {
  YAMLConfigFilename : string;
  SSHUser : string;
  SSHPrivateKey : string;
  SSHPublicKey : string;
  SSHHost : string;
  VMSSHUser : string;
  TestClusterCreateMode : string;
  TestClusterCleanup : string;
  TestClusterNamespace : string;
  TestClusterStorageClass : string;
  TestClusterVirtualMachineClassName : string;
  DKPLicenseKey : string;
  RegistryDockerCfg : string;
  ImagePullPolicy : string;
  LogLevel : string;
  LogFilePath : string;
  CommanderURL : string;
  CommanderToken : string;
  CommanderClusterName : string;
  CommanderTemplateName : string;
  CommanderCreateIfNotExists : string;
  CommanderWaitTimeout : string;
  LogTimetampsEnabled : string
}.

(** The initial values. *)
Definition read_environment (getenv : string -> string) : Vars :=
  mkVars (getenv "YAML_CONFIG_FILENAME") (getenv "SSH_USER") (getenv "SSH_PRIVATE_KEY")
    (getenv "SSH_PUBLIC_KEY") (getenv "SSH_HOST") (getenv "SSH_VM_USER") (getenv "TEST_CLUSTER_CREATE_MODE")
    (getenv "TEST_CLUSTER_CLEANUP") (getenv "TEST_CLUSTER_NAMESPACE") (getenv "TEST_CLUSTER_STORAGE_CLASS")
    (getenv "TEST_CLUSTER_VIRTUAL_MACHINE_CLASS_NAME") (getenv "DKP_LICENSE_KEY") (getenv "REGISTRY_DOCKER_CFG")
    (getenv "IMAGE_PULL_POLICY") (getenv "LOG_LEVEL") (getenv "LOG_FILE_PATH") (getenv "COMMANDER_URL")
    (getenv "COMMANDER_TOKEN") (getenv "COMMANDER_CLUSTER_NAME") (getenv "COMMANDER_TEMPLATE_NAME")
    (getenv "COMMANDER_CREATE_IF_NOT_EXISTS") (getenv "COMMANDER_WAIT_TIMEOUT") (getenv "LOG_TIMESTAMPS_ENABLED").

Definition or_else (s d : string) : string := if String.eqb s "" then d else s.

Definition EffectiveVirtualMachineClassName (v : Vars) : string :=
  or_else (TrimSpace (TestClusterVirtualMachineClassName v)) "generic".

(** ** [ValidateEnvironment]

    The defaults that are set before the first check, and those after it. *)
Definition first_defaults (v : Vars) : Vars :=
  mkVars (or_else (YAMLConfigFilename v) "cluster_config.yml") (SSHUser v)
    (or_else (SSHPrivateKey v) "~/.ssh/id_rsa") (or_else (SSHPublicKey v) "~/.ssh/id_rsa.pub") (SSHHost v)
    (or_else (VMSSHUser v) "cloud") (TestClusterCreateMode v)
    (if String.eqb (TestClusterCleanup v) "true" || String.eqb (TestClusterCleanup v) "True"
     then TestClusterCleanup v else "false")
    (or_else (TestClusterNamespace v) "e2e-test-cluster") (TestClusterStorageClass v)
    (EffectiveVirtualMachineClassName v) (DKPLicenseKey v) (RegistryDockerCfg v) (ImagePullPolicy v) (LogLevel v)
    (LogFilePath v) (CommanderURL v) (CommanderToken v) (CommanderClusterName v) (CommanderTemplateName v)
    (CommanderCreateIfNotExists v) (CommanderWaitTimeout v) (LogTimetampsEnabled v).

Definition set_pull_policy (p : string) (v : Vars) : Vars :=
  mkVars (YAMLConfigFilename v) (SSHUser v) (SSHPrivateKey v) (SSHPublicKey v) (SSHHost v) (VMSSHUser v)
    (TestClusterCreateMode v) (TestClusterCleanup v) (TestClusterNamespace v) (TestClusterStorageClass v)
    (TestClusterVirtualMachineClassName v) (DKPLicenseKey v) (RegistryDockerCfg v) p (LogLevel v) (LogFilePath v)
    (CommanderURL v) (CommanderToken v) (CommanderClusterName v) (CommanderTemplateName v)
    (CommanderCreateIfNotExists v) (CommanderWaitTimeout v) (LogTimetampsEnabled v).

Definition commander_defaults (v : Vars) : Vars :=
  mkVars (YAMLConfigFilename v) (SSHUser v) (SSHPrivateKey v) (SSHPublicKey v) (SSHHost v) (VMSSHUser v)
    (TestClusterCreateMode v) (TestClusterCleanup v) (TestClusterNamespace v) (TestClusterStorageClass v)
    (TestClusterVirtualMachineClassName v) (DKPLicenseKey v) (RegistryDockerCfg v) (ImagePullPolicy v) (LogLevel v)
    (LogFilePath v) (CommanderURL v) (CommanderToken v) (or_else (CommanderClusterName v) "e2e-test-cluster")
    (CommanderTemplateName v) (or_else (CommanderCreateIfNotExists v) "false")
    (or_else (CommanderWaitTimeout v) "30m") (LogTimetampsEnabled v).

Definition set_log (level timestamps : string) (v : Vars) : Vars :=
  mkVars (YAMLConfigFilename v) (SSHUser v) (SSHPrivateKey v) (SSHPublicKey v) (SSHHost v) (VMSSHUser v)
    (TestClusterCreateMode v) (TestClusterCleanup v) (TestClusterNamespace v) (TestClusterStorageClass v)
    (TestClusterVirtualMachineClassName v) (DKPLicenseKey v) (RegistryDockerCfg v) (ImagePullPolicy v) level
    (LogFilePath v) (CommanderURL v) (CommanderToken v) (CommanderClusterName v) (CommanderTemplateName v)
    (CommanderCreateIfNotExists v) (CommanderWaitTimeout v) timestamps.

Definition modes : list string :=
  [ClusterCreateModeAlwaysUseExisting; ClusterCreateModeAlwaysCreateNew; ClusterCreateModeCommander].
Definition one_of (s : string) (l : list string) : bool := existsb (String.eqb s) l.

Section Validate.
(** [validation.IsDNS1123Subdomain]. *)
Context (IsDNS1123Subdomain : string -> list string).

Definition required (name value : string) (k : option error * Vars) (v : Vars) : option error * Vars :=
  if String.eqb value "" then (Some (Errorf (name +:+ " environment variable is required but not set")), v) else k.

(** The tail of the function: the level and the timestamps of the log. *)
Definition validate_log (v : Vars) : option error * Vars :=
  let v := set_log (or_else (LogLevel v) LogLevelDebug) (LogTimetampsEnabled v) v in
  if negb (one_of (LogLevel v) [LogLevelDebug; LogLevelInfo; LogLevelWarn; LogLevelError])
  then (Some (Errorf ("LOG_LEVEL has invalid value '" +:+ LogLevel v +:+ "'; must be either '" +:+ LogLevelDebug +:+
          "' or '" +:+ LogLevelInfo +:+ "' or '" +:+ LogLevelWarn +:+ "' or '" +:+ LogLevelError +:+ "'")), v)
  else
    let v := set_log (LogLevel v) (or_else (LogTimetampsEnabled v) "true") v in
    if negb (one_of (LogTimetampsEnabled v) ["true"; "false"])
    then (Some (Errorf ("LOG_TIMESTAMPS_ENABLED has invalid value '" +:+ LogTimetampsEnabled v +:+
            "'; must be either 'true' or 'false'")), v)
    else (None, v).

Definition validate_commander (v : Vars) : option error * Vars :=
  if String.eqb (TestClusterCreateMode v) ClusterCreateModeCommander then
    if String.eqb (CommanderURL v) "" then
      (Some (Errorf ("COMMANDER_URL environment variable is required when TEST_CLUSTER_CREATE_MODE is '" +:+
         ClusterCreateModeCommander +:+ "'")), v)
    else if String.eqb (CommanderToken v) "" then
      (Some (Errorf ("COMMANDER_TOKEN environment variable is required when TEST_CLUSTER_CREATE_MODE is '" +:+
         ClusterCreateModeCommander +:+ "'")), v)
    else
      let v := commander_defaults v in
      if String.eqb (CommanderCreateIfNotExists v) "true" && String.eqb (CommanderTemplateName v) ""
      then (Some (Errorf ("COMMANDER_TEMPLATE_NAME environment variable is required when " +:+
              "COMMANDER_CREATE_IF_NOT_EXISTS is 'true'")), v)
      else validate_log v
  else validate_log v.

Definition validate_mode (v : Vars) : option error * Vars :=
  let v := set_pull_policy (or_else (ImagePullPolicy v) ImagePullPolicyIfNotExists) v in
  if negb (one_of (ImagePullPolicy v) [ImagePullPolicyAlways; ImagePullPolicyIfNotExists])
  then (Some (Errorf ("IMAGE_PULL_POLICY has invalid value '" +:+ ImagePullPolicy v +:+ "'; must be either '" +:+
          ImagePullPolicyAlways +:+ "' or '" +:+ ImagePullPolicyIfNotExists +:+ "'")), v)
  else if String.eqb (TestClusterCreateMode v) ""
  then (Some (Errorf ("TEST_CLUSTER_CREATE_MODE environment variable is required but not set; please set it to '" +:+
          ClusterCreateModeAlwaysUseExisting +:+ "', '" +:+ ClusterCreateModeAlwaysCreateNew +:+ "', or '" +:+
          ClusterCreateModeCommander +:+ "'")), v)
  else if negb (one_of (TestClusterCreateMode v) modes)
  then (Some (Errorf ("TEST_CLUSTER_CREATE_MODE has invalid value '" +:+ TestClusterCreateMode v +:+ "'; must be '" +:+
          ClusterCreateModeAlwaysUseExisting +:+ "', '" +:+ ClusterCreateModeAlwaysCreateNew +:+ "', or '" +:+
          ClusterCreateModeCommander +:+ "'")), v)
  else validate_commander v.

Definition ValidateEnvironment (v : Vars) : option error * Vars :=
  let v := first_defaults v in
  let class := TestClusterVirtualMachineClassName v in
  match (if String.eqb class "generic" then [] else IsDNS1123Subdomain class) with
  | _ :: _ as errs =>
      (Some (Errorf ("TEST_CLUSTER_VIRTUAL_MACHINE_CLASS_NAME " +:+ quote class +:+
         " is not a valid Kubernetes DNS-1123 subdomain name: " +:+ fmt_strings errs)), v)
  | [] =>
      required "SSH_USER" (SSHUser v)
        (required "SSH_HOST" (SSHHost v)
          (required "TEST_CLUSTER_STORAGE_CLASS" (TestClusterStorageClass v)
            (required "DKP_LICENSE_KEY" (DKPLicenseKey v)
              (required "REGISTRY_DOCKER_CFG" (RegistryDockerCfg v) (validate_mode v) v) v) v) v) v
  end.
End Validate.

(** ** Levels *)

Inductive Level := LevelDebug | LevelInfo | LevelWarn | LevelErr | OtherLevel (n : Z).
Definition level_number (l : Level) : Z :=
  match l with LevelDebug => -4 | LevelInfo => 0 | LevelWarn => 4 | LevelErr => 8 | OtherLevel n => n end.

Definition ParseLevel (level : string) : Level :=
  let s := ToLower (TrimSpace level) in
  if String.eqb s "debug" then LevelDebug
  else if String.eqb s "info" then LevelInfo
  else if String.eqb s "warn" || String.eqb s "warning" then LevelWarn
  else if String.eqb s "error" then LevelErr
  else LevelInfo.

Definition LevelToString (l : Level) : string :=
  match l with
  | LevelDebug => "DEBUG" | LevelInfo => "INFO" | LevelWarn => "WARN" | LevelErr => "ERROR" | OtherLevel _ => "INFO"
  end.

(** ** Handlers *)

(** A record: the time as the handler's format renders it is a function. *)
Record LogRecord := mkRecord {
  rTime : string -> string;
  rLevel : Level;
  rMessage : string;
  rAttrs : list (string * string)
}.

Record ConsoleHandler := mkConsole {
  hLevel : Level;
  UseColors : bool;
  TimeFormat : string;
  hAttrs : list (string * string);
  hGroups : list string
}.

Definition esc (code : string) : string := String "027" ("[" +:+ code +:+ "m").

Definition colorizeLevel (l : Level) : string :=
  match l with
  | LevelDebug => esc "90" +:+ "[DEBUG]" +:+ esc "0" +:+ " "
  | LevelInfo => esc "34" +:+ "[INFO]" +:+ esc "0" +:+ "  "
  | LevelWarn => esc "33" +:+ "[WARN]" +:+ esc "0" +:+ "  "
  | LevelErr => esc "31" +:+ "[ERROR]" +:+ esc "0" +:+ " "
  | OtherLevel _ => "[INFO]  "
  end.

Definition console_Enabled (h : ConsoleHandler) (l : Level) : bool := level_number (hLevel h) <=? level_number l.

(** The line that is written, with its newline. *)
Definition console_line (h : ConsoleHandler) (r : LogRecord) : string :=
  let attrs := List.filter (fun a => negb (String.eqb a.1 "type")) (rAttrs r) ++ hAttrs h in
  (if String.eqb (TimeFormat h) "" then "" else "[" +:+ rTime r (TimeFormat h) +:+ "] ") +:+
  (if UseColors h then colorizeLevel (rLevel r) else "[" +:+ LevelToString (rLevel r) +:+ "] ") +:+
  rMessage r +:+
  (match attrs with
   | [] => ""
   | _ => " [" +:+ Join (map (fun a => a.1 +:+ "=" +:+ a.2) attrs) ", " +:+ "]"
   end) +:+ String "010" "".

Definition console_WithAttrs (h : ConsoleHandler) (attrs : list (string * string)) : ConsoleHandler :=
  mkConsole (hLevel h) (UseColors h) (TimeFormat h) (hAttrs h ++ attrs) (hGroups h).
Definition console_WithGroup (h : ConsoleHandler) (name : string) : ConsoleHandler :=
  mkConsole (hLevel h) (UseColors h) (TimeFormat h) (hAttrs h) (hGroups h ++ [name]).

(** Handlers over a world of writers; [slog.JSONHandler] belongs to the standard library. *)
Class Writers (W : Type) := {
  writeConsole : string -> M W (option error);
  writeJSON : LogRecord -> M W (option error)
}.

Inductive Handler := Console (h : ConsoleHandler) | JSONFile (l : Level).

Definition handler_Enabled (h : Handler) (l : Level) : bool :=
  match h with
  | Console h => console_Enabled h l
  | JSONFile min => level_number min <=? level_number l
  end.

Section Logging.
Context {W : Type} `{WR : Writers W}.

Definition handler_Handle (h : Handler) (r : LogRecord) : M W (option error) :=
  match h with
  | Console h => writeConsole (console_line h r)
  | JSONFile _ => writeJSON r
  end.

Definition multi_Enabled (hs : list Handler) (l : Level) : bool := existsb (fun h => handler_Enabled h l) hs.

Fixpoint multi_Handle (hs : list Handler) (r : LogRecord) : M W (option error) :=
  match hs with
  | [] => mret None
  | h :: hs =>
      if handler_Enabled h (rLevel r) then
        let! err := handler_Handle h r in
        match err with
        | Some e => mret (Some e)
        | None => multi_Handle hs r
        end
      else multi_Handle hs r
  end.

(** [Initialize]: the console, and the file when there is a path. *)
Context (Dir : string -> string) (MkdirAll OpenFile : string -> M W (option error)).

Definition console_of (v : Vars) : ConsoleHandler :=
  mkConsole (ParseLevel (LogLevel v)) true
    (if String.eqb (LogTimetampsEnabled v) "true" then "15:04:05" else "") [] [].

Definition logger_Initialize (v : Vars) : M W (result (list Handler)) :=
  let handlers := [Console (console_of v)] in
  if String.eqb (LogFilePath v) "" then mret (Ok handlers)
  else
    let logDir := Dir (LogFilePath v) in
    let! made := if String.eqb logDir "" || String.eqb logDir "." then mret None else MkdirAll logDir in
    match made with
    | Some e => mret (Err (ErrorfW ("failed to create log directory " +:+ logDir +:+ ": ") e ""))
    | None =>
        let! opened := OpenFile (LogFilePath v) in
        mret match opened with
             | Some e => Err (ErrorfW ("failed to open log file " +:+ LogFilePath v +:+ ": ") e "")
             | None => Ok (handlers ++ [JSONFile (ParseLevel (LogLevel v))])
             end
    end.

(** ** [pkg/storage-e2e/setup.go]: the log is set up before the defaults are. *)
Definition setup_Initialize (IsDNS1123Subdomain : string -> list string) (v : Vars)
    : M W (result (list Handler) * Vars) :=
  let! log := logger_Initialize v in
  match log with
  | Err e => mret (Err (ErrorfW "logger initialization: " e ""), v)
  | Ok handlers =>
      let '(err, v) := ValidateEnvironment IsDNS1123Subdomain v in
      mret (match err with
            | Some e => Err (ErrorfW "environment validation: " e "")
            | None => Ok handlers
            end, v)
  end.
End Logging.

(** ** The functions of the package *)

Inductive log_kind :=
| Step (n : Z) | StepComplete (n : Z) | Success | Info | Warn | Error_ | Debug | Progress | Skip | Delete.

Definition addEmoji (useEmojis : bool) (emoji msg : string) : string :=
  if useEmojis then emoji +:+ " " +:+ msg else msg.

(** The level, the message and the attribute [type] of each; [msg] is the formatted text. *)
Definition log_entry (useEmojis : bool) (k : log_kind) (msg : string) : Level * string * string :=
  match k with
  | Step n => (LevelInfo, addEmoji useEmojis "▶️" ("Step " +:+ pretty n +:+ ": " +:+ msg), "step")
  | StepComplete n =>
      (LevelInfo, addEmoji useEmojis "✅" ("Step " +:+ pretty n +:+ " Complete: " +:+ msg), "step_complete")
  | Success => (LevelDebug, addEmoji useEmojis "✅" msg, "success")
  | Info => (LevelInfo, addEmoji useEmojis "ℹ️" msg, "info")
  | Warn => (LevelWarn, addEmoji useEmojis "⚠️" msg, "warning")
  | Error_ => (LevelErr, addEmoji useEmojis "❌" msg, "error")
  | Debug => (LevelDebug, addEmoji useEmojis "🔧" msg, "debug")
  | Progress => (LevelDebug, addEmoji useEmojis "⏳" msg, "progress")
  | Skip => (LevelDebug, addEmoji useEmojis "⏭️" msg, "skip")
  | Delete => (LevelDebug, addEmoji useEmojis "🗑️" msg, "delete")
  end.

(** ** Theorems *)
Section EnvTheorems.
Context (IsDNS1123Subdomain : string -> list string).

(** What a suite may rely on after the validation. *)
Definition valid_env (v : Vars) : Prop :=
  (TestClusterVirtualMachineClassName v = "generic" \/
   IsDNS1123Subdomain (TestClusterVirtualMachineClassName v) = []) /\
  SSHUser v <> "" /\ SSHHost v <> "" /\ TestClusterStorageClass v <> "" /\ DKPLicenseKey v <> "" /\
  RegistryDockerCfg v <> "" /\
  ImagePullPolicy v ∈ [ImagePullPolicyAlways; ImagePullPolicyIfNotExists] /\
  TestClusterCreateMode v ∈ modes /\
  (TestClusterCreateMode v = ClusterCreateModeCommander ->
     CommanderURL v <> "" /\ CommanderToken v <> "" /\
     (CommanderCreateIfNotExists v = "true" -> CommanderTemplateName v <> "")) /\
  LogLevel v ∈ [LogLevelDebug; LogLevelInfo; LogLevelWarn; LogLevelError] /\
  LogTimetampsEnabled v ∈ ["true"; "false"].

(** All defaults at once. *)
Definition with_defaults (v : Vars) : Vars :=
  let v := first_defaults v in
  let v := set_pull_policy (or_else (ImagePullPolicy v) ImagePullPolicyIfNotExists) v in
  let v := if String.eqb (TestClusterCreateMode v) ClusterCreateModeCommander then commander_defaults v else v in
  set_log (or_else (LogLevel v) LogLevelDebug) (or_else (LogTimetampsEnabled v) "true") v.

Lemma env_one_of_spec s l : one_of s l = true <-> s ∈ l.
Proof.
  unfold one_of. rewrite existsb_exists. setoid_rewrite <- list_elem_of_In. setoid_rewrite String.eqb_eq. naive_solver.
Qed.

Lemma or_else_or_else s d : d <> "" -> or_else (or_else s d) d = or_else s d.
Proof.
  intros Hd. unfold or_else. destruct (String.eqb s "") eqn:E; [|by rewrite E].
  by destruct (String.eqb_spec d "").
Qed.

Lemma or_else_nonempty s d : d <> "" -> or_else s d <> "".
Proof. intros Hd. unfold or_else. by destruct (String.eqb_spec s ""). Qed.

Lemma or_else_id s d : s <> "" -> or_else s d = s.
Proof. intros Hs. unfold or_else. by destruct (String.eqb_spec s ""). Qed.

Lemma validate_log_spec v v' :
  validate_log v = (None, v') <->
  v' = set_log (or_else (LogLevel v) LogLevelDebug) (or_else (LogTimetampsEnabled v) "true") v /\
  LogLevel v' ∈ [LogLevelDebug; LogLevelInfo; LogLevelWarn; LogLevelError] /\ LogTimetampsEnabled v' ∈ ["true"; "false"].
Proof.
  unfold validate_log. cbn [LogLevel LogTimetampsEnabled set_log].
  destruct (one_of (or_else (LogLevel v) LogLevelDebug) _) eqn:E1; cbn [negb].
  - destruct (one_of (or_else (LogTimetampsEnabled v) "true") _) eqn:E2; cbn [negb].
    + apply env_one_of_spec in E1, E2. split; [by intros [= <-]|]. by intros [-> _].
    + split; [done|]. intros (-> & _ & H). cbn in H. apply env_one_of_spec in H. congruence.
  - split; [done|]. intros (-> & H & _). cbn in H. apply env_one_of_spec in H. congruence.
Qed.

Lemma required_spec name value k v v' : required name value k v = (None, v') <-> value <> "" /\ k = (None, v').
Proof. unfold required. destruct (String.eqb_spec value ""); naive_solver. Qed.

Lemma validate_commander_spec v v' :
  validate_commander v = (None, v') <->
  let c := if String.eqb (TestClusterCreateMode v) ClusterCreateModeCommander then commander_defaults v else v in
  (TestClusterCreateMode v = ClusterCreateModeCommander -> CommanderURL v <> "" /\ CommanderToken v <> "" /\
     (CommanderCreateIfNotExists c = "true" -> CommanderTemplateName v <> "")) /\ validate_log c = (None, v').
Proof.
  cbv zeta. unfold validate_commander.
  destruct (String.eqb_spec (TestClusterCreateMode v) ClusterCreateModeCommander) as [Hm|Hm]; [|naive_solver].
  destruct (String.eqb_spec (CommanderURL v) ""); [naive_solver|].
  destruct (String.eqb_spec (CommanderToken v) ""); [naive_solver|].
  cbn [CommanderTemplateName commander_defaults CommanderCreateIfNotExists].
  destruct (String.eqb_spec (or_else (CommanderCreateIfNotExists v) "false") "true");
    destruct (String.eqb_spec (CommanderTemplateName v) ""); cbn [andb]; naive_solver.
Qed.

Lemma ValidateEnvironment_iff v v' :
  ValidateEnvironment IsDNS1123Subdomain v = (None, v') <-> v' = with_defaults v /\ valid_env v'.
Proof.
  unfold ValidateEnvironment, with_defaults, valid_env. cbv zeta. set (f := first_defaults v).
  set (p := set_pull_policy (or_else (ImagePullPolicy f) ImagePullPolicyIfNotExists) f).
  set (c := if String.eqb (TestClusterCreateMode p) ClusterCreateModeCommander then commander_defaults p else p).
  assert (Hmode : validate_mode f = (None, v') <->
    ImagePullPolicy p ∈ [ImagePullPolicyAlways; ImagePullPolicyIfNotExists] /\ TestClusterCreateMode p ∈ modes /\
    (TestClusterCreateMode p = ClusterCreateModeCommander -> CommanderURL p <> "" /\ CommanderToken p <> "" /\
       (CommanderCreateIfNotExists c = "true" -> CommanderTemplateName p <> "")) /\ validate_log c = (None, v')).
  { unfold validate_mode. cbv zeta. fold p. rewrite -!env_one_of_spec.
    destruct (one_of (ImagePullPolicy p) _); cbn [negb]; [|naive_solver].
    destruct (String.eqb_spec (TestClusterCreateMode p) "") as [He|]; [rewrite He; naive_solver|].
    destruct (one_of (TestClusterCreateMode p) modes); cbn [negb]; [|naive_solver].
    rewrite validate_commander_spec. cbv zeta. fold c. naive_solver. }
  assert (Hfields : SSHUser c = SSHUser f /\ SSHHost c = SSHHost f /\ TestClusterStorageClass c = TestClusterStorageClass f /\
    DKPLicenseKey c = DKPLicenseKey f /\ RegistryDockerCfg c = RegistryDockerCfg f /\ ImagePullPolicy c = ImagePullPolicy p /\
    TestClusterCreateMode c = TestClusterCreateMode p /\ CommanderURL c = CommanderURL p /\
    CommanderToken c = CommanderToken p /\ CommanderTemplateName c = CommanderTemplateName p /\
    TestClusterVirtualMachineClassName c = TestClusterVirtualMachineClassName f)
    by (subst c p; by destruct (String.eqb _ ClusterCreateModeCommander)).
  destruct Hfields as (F1 & F2 & F3 & F4 & F5 & F6 & F7 & F8 & F9 & F10 & F11).
  destruct (if String.eqb (TestClusterVirtualMachineClassName f) "generic" then []
            else IsDNS1123Subdomain (TestClusterVirtualMachineClassName f)) as [|x errs] eqn:Hclass.
  - rewrite !required_spec Hmode validate_log_spec. rewrite -F1 -F2 -F3 -F4 -F5 -F6 -F7 -F8 -F9 -F10.
    assert (Hc : TestClusterVirtualMachineClassName c = "generic" \/ IsDNS1123Subdomain (TestClusterVirtualMachineClassName c) = []).
    { rewrite F11. destruct (String.eqb_spec (TestClusterVirtualMachineClassName f) "generic"); auto. }
    split; [intros (? & ? & ? & ? & ? & ? & ? & ? & -> & ? & ?)|intros (-> & ? & ? & ? & ? & ? & ? & ? & ? & ? & ? & ?)];
      cbn in *; naive_solver.
  - split; [done|]. intros (-> & Hc & _). cbn in Hc. rewrite F11 in Hc.
    destruct (String.eqb_spec (TestClusterVirtualMachineClassName f) "generic"); [done|]. destruct Hc; congruence.
Qed.

(** Filling in the defaults twice is filling them in once. *)
Lemma class_idem v :
  EffectiveVirtualMachineClassName v <> "" /\
  or_else (TrimSpace (EffectiveVirtualMachineClassName v)) "generic" = EffectiveVirtualMachineClassName v.
Proof.
  unfold EffectiveVirtualMachineClassName. split; [by apply or_else_nonempty|]. unfold or_else.
  destruct (String.eqb (TrimSpace (TestClusterVirtualMachineClassName v)) "") eqn:E; [reflexivity|].
  by rewrite TrimSpace_idem E.
Qed.

Lemma first_defaults_idem v : first_defaults (first_defaults v) = first_defaults v.
Proof.
  pose proof (class_idem v) as [_ Hc]. unfold first_defaults at 1.
  cbn [YAMLConfigFilename SSHUser SSHPrivateKey SSHPublicKey SSHHost VMSSHUser TestClusterCreateMode TestClusterCleanup
       TestClusterNamespace TestClusterStorageClass DKPLicenseKey RegistryDockerCfg ImagePullPolicy LogLevel LogFilePath
       CommanderURL CommanderToken CommanderClusterName CommanderTemplateName CommanderCreateIfNotExists
       CommanderWaitTimeout LogTimetampsEnabled first_defaults].
  unfold EffectiveVirtualMachineClassName at 1. cbn [TestClusterVirtualMachineClassName first_defaults]. rewrite Hc.
  unfold first_defaults.
  assert (Ht : forall s, (if String.eqb (if String.eqb s "true" || String.eqb s "True" then s else "false") "true"
      || String.eqb (if String.eqb s "true" || String.eqb s "True" then s else "false") "True"
      then (if String.eqb s "true" || String.eqb s "True" then s else "false") else "false")
    = (if String.eqb s "true" || String.eqb s "True" then s else "false")).
  { intros s. destruct (String.eqb s "true" || String.eqb s "True") eqn:E; [by rewrite E|reflexivity]. }
  rewrite Ht !or_else_or_else; [discriminate..|]. reflexivity.
Qed.

Lemma with_defaults_fixed v :
  first_defaults v = v -> ImagePullPolicy v <> "" ->
  (TestClusterCreateMode v = ClusterCreateModeCommander -> commander_defaults v = v) ->
  LogLevel v <> "" -> LogTimetampsEnabled v <> "" -> with_defaults v = v.
Proof.
  intros H1 H2 H3 H4 H5. unfold with_defaults. cbv zeta. rewrite H1 (or_else_id (ImagePullPolicy v)); [done|].
  assert (Hp : set_pull_policy (ImagePullPolicy v) v = v) by (by destruct v). rewrite Hp.
  destruct (String.eqb_spec (TestClusterCreateMode v) ClusterCreateModeCommander) as [Hm|_]; [rewrite (H3 Hm)|];
    rewrite (or_else_id (LogLevel v)) // (or_else_id (LogTimetampsEnabled v)) //; by destruct v.
Qed.

Lemma with_defaults_idem v : with_defaults (with_defaults v) = with_defaults v.
Proof.
  unfold with_defaults at 2 3. cbv zeta. set (f := first_defaults v).
  assert (Hf : first_defaults f = f) by apply first_defaults_idem.
  set (p := or_else (ImagePullPolicy f) ImagePullPolicyIfNotExists).
  assert (Hp : p <> "") by (by apply or_else_nonempty). generalize dependent p. intros p Hp.
  set (c := if String.eqb (TestClusterCreateMode (set_pull_policy p f)) ClusterCreateModeCommander
            then commander_defaults (set_pull_policy p f) else set_pull_policy p f).
  assert (Hc : first_defaults c = c /\ ImagePullPolicy c = p /\
    (TestClusterCreateMode c = ClusterCreateModeCommander -> commander_defaults c = c)).
  { assert (Hfp : first_defaults (set_pull_policy p f) = set_pull_policy p f) by (rewrite -{2}Hf; reflexivity).
    subst c. destruct (String.eqb_spec (TestClusterCreateMode (set_pull_policy p f)) ClusterCreateModeCommander) as [Hm|Hm].
    - split; [rewrite -{2}Hfp; reflexivity|]. split; [reflexivity|]. intros _. unfold commander_defaults at 1.
      cbn [CommanderClusterName CommanderCreateIfNotExists CommanderWaitTimeout commander_defaults].
      rewrite !or_else_or_else; [discriminate..|]. reflexivity.
    - split; [done|]. split; [reflexivity|]. by intros Hx. }
  destruct Hc as (Hc1 & Hc2 & Hc3).
  set (l := or_else (LogLevel c) LogLevelDebug). set (t := or_else (LogTimetampsEnabled c) "true").
  assert (Hl : l <> "") by (by apply or_else_nonempty). assert (Ht : t <> "") by (by apply or_else_nonempty).
  generalize dependent l. intros l Hl. generalize dependent t. intros t Ht.
  apply with_defaults_fixed; [|by cbn [ImagePullPolicy set_log]; rewrite Hc2| |exact Hl|exact Ht].
  - rewrite -{2}Hc1. reflexivity.
  - intros Hm. rewrite -{2}(Hc3 Hm). reflexivity.
Qed.

(** [ValidateEnvironment] returns nil exactly when the variables are valid once the defaults are
    filled in; then these are the values it leaves, and validating them again changes nothing. *)
Theorem ValidateEnvironment_spec v v' :
  (ValidateEnvironment IsDNS1123Subdomain v = (None, v') <-> v' = with_defaults v /\ valid_env v') /\
  (ValidateEnvironment IsDNS1123Subdomain v = (None, v') -> ValidateEnvironment IsDNS1123Subdomain v' = (None, v')).
Proof.
  rewrite !ValidateEnvironment_iff. split; [done|]. intros [-> Hv]. split; [|done]. symmetry. apply with_defaults_idem.
Qed.

(** [pkg/storage-e2e.Initialize] on an environment that says nothing about the log: the defaults
    are the level debug and timestamps, but the log was set up before them, with the level info
    and without timestamps. *)
Theorem setup_log_ignores_defaults {W : Type} Dir MkdirAll OpenFile v (w : W) hs v' w' :
  LogLevel v = "" -> LogTimetampsEnabled v = "" -> LogFilePath v = "" ->
  setup_Initialize Dir MkdirAll OpenFile IsDNS1123Subdomain v w = ((Ok hs, v'), w') ->
  LogLevel v' = LogLevelDebug /\ LogTimetampsEnabled v' = "true" /\
  hs = [Console (mkConsole LevelInfo true "" [] [])] /\
  console_of v' = mkConsole LevelDebug true "15:04:05" [] [].
Proof.
  intros Hl Ht Hf H. unfold setup_Initialize, logger_Initialize in H. rewrite Hf in H. cbn in H.
  unfold mbind, M_bind, mret, M_ret in H. unfold console_of in H. rewrite Hl Ht in H.
  destruct (ValidateEnvironment IsDNS1123Subdomain v) as [[e|] v1] eqn:E; [done|]. injection H as <- <- <-.
  apply ValidateEnvironment_iff in E as [-> _].
  assert (Hd : LogLevel (with_defaults v) = LogLevelDebug /\ LogTimetampsEnabled (with_defaults v) = "true").
  { unfold with_defaults. cbv zeta. cbn [LogLevel LogTimetampsEnabled set_log].
    destruct (String.eqb _ ClusterCreateModeCommander); cbn [LogLevel LogTimetampsEnabled commander_defaults set_pull_policy first_defaults];
      by rewrite Hl Ht. }
  destruct Hd as [Hd1 Hd2]. unfold console_of. rewrite Hd1 Hd2. done.
Qed.
End EnvTheorems.

(** The names of the levels are read back. *)
Lemma ParseLevel_LevelToString l :
  ParseLevel (LevelToString l) = match l with OtherLevel _ => LevelInfo | l => l end.
Proof. by destruct l. Qed.

Section MultiHandler.
Context {W : Type} `{WR : Writers W}.

(** What is written: every enabled handler gets the record, in order, as long as none fails. *)
Lemma multi_Handle_ok hs r w w' :
  multi_Handle hs r w = (None, w') ->
  foldl (fun v h => (handler_Handle h r v).2) w (List.filter (fun h => handler_Enabled h (rLevel r)) hs) = w'.
Proof.
  revert w. induction hs as [|h hs IH]; intros w H; cbn [multi_Handle] in H; [by injection H as <-|].
  cbn [List.filter]. destruct (handler_Enabled h (rLevel r)); [|by apply IH]. mstep H as [e w1] E.
  destruct e as [e|]; [done|]. cbn. rewrite E. by apply IH.
Qed.
End MultiHandler.

(** A console that cannot be written to keeps the record out of the file too. *)
Definition broken_console : Writers (list string) := {|
  writeConsole := fun _ => mret (Some (Errorf "write /dev/stdout: broken pipe"));
  writeJSON := fun r w => (None, w ++ [rMessage r])
|}.

Example multi_Handle_stops :
  let hs := [Console (mkConsole LevelInfo false "" [] []); JSONFile LevelInfo] in
  (multi_Handle (WR := broken_console) hs (mkRecord (fun _ => "") LevelErr "node is gone" []) []).2 = [].
Proof. reflexivity. Qed.

Definition suite_env : Vars :=
  mkVars "" "tfadm" "" "" "192.0.2.1" "" "alwaysCreateNew" "" "" "linstor" "  " "license" "cfg" "" "" "" "" "" "" "" "" "" "".

Lemma ValidateEnvironment_spec_witness : valid_env (fun _ => []) (with_defaults suite_env).
Proof.
  apply (ValidateEnvironment_spec (fun _ => []) suite_env (with_defaults suite_env)). vm_compute. reflexivity.
Defined.

Lemma setup_log_ignores_defaults_witness :
  exists hs v', setup_Initialize (W := list string) (fun _ => "") (fun _ => mret None) (fun _ => mret None)
    (fun _ => []) suite_env [] = ((Ok hs, v'), []) /\ LogLevel v' = "debug" /\
    hs = [Console (mkConsole LevelInfo true "" [] [])].
Proof.
  destruct (setup_Initialize (W := list string) (fun _ => "") (fun _ => mret None) (fun _ => mret None)
    (fun _ => []) suite_env []) as [[r v'] w'] eqn:E.
  destruct r as [hs|e]; [|vm_compute in E; done].
  assert (Hw : w' = []) by (vm_compute in E; by injection E as _ _ <-). subst w'. exists hs, v'. split; [reflexivity|].
  destruct (setup_log_ignores_defaults (W := list string) (fun _ => []) (fun _ => "") (fun _ => mret None)
    (fun _ => mret None) suite_env [] hs v' [] eq_refl eq_refl eq_refl E) as (H1 & _ & H3 & _).
  split; [exact H1|exact H3].
Defined.
