(* ===== verification/Kube.v ===== *)
(** The environment the provisioning code runs in: a context with timers, and typed
    clients of the Kubernetes API ([sigs.k8s.io/controller-runtime/pkg/client]). Neither
    is part of the repository: both are classes, with the documented behaviour the code
    relies on as their laws, and an in-memory instance on which the definitions run. *)
From S2P Require Import Prelude Errors Retry.

Local Open Scope Z_scope.
Local Open Scope go_scope.

(** ** The context and its timers *)

(** [ctx.Err()], and a [select] between [ctx.Done()] and a timer: [true] when the timer
    fires first. *)
Class Ctx (W : Type) := {
  ctxErr : M W (option error);
  timerFires : Z -> M W bool
}.

(** A [select] that did not see the timer saw the context done, and a done context has
    an error. *)
Class CtxLaws (W : Type) `{Ctx W} : Prop := {
  ctx_done z w w' : timerFires z w = (false, w') -> exists e w'', ctxErr w' = (Some e, w'')
}.

(** ** Typed clients

    [O] holds the fields of the kind that the code reads or writes. *)
Class Client (W O : Type) := {
  objs : W -> gmap string O;
  clientGet : string -> M W (result O);
  clientCreate : string -> O -> M W (option error);
  clientUpdate : string -> O -> M W (option error);
  clientDelete : string -> M W (option error);
  clientList : M W (result (list (string * O)))
}.
Arguments clientDelete {W} O {_} _ _.

(** A call that reports success did what it says; a call that fails changed at most the
    object it names, and a creation that fails may have been done. A deleted object may remain until its finalizers are done. *)
Class ClientLaws (W O : Type) `{ApiErrors, Client W O} : Prop := {
  get_ok k w o w' : clientGet k w = (Ok o, w') -> objs w !! k = Some o /\ objs w' = objs w;
  get_err k w e w' : clientGet (O := O) k w = (Err e, w') ->
    objs (O := O) w' = objs w /\ (IsNotFound (Some e) = true -> objs (O := O) w !! k = None);
  create_ok k o w w' : clientCreate k o w = (None, w') ->
    objs (O := O) w !! k = None /\ objs w' = <[k := o]> (objs w);
  create_err k o w e w' : clientCreate k o w = (Some e, w') ->
    (forall k', k' <> k -> objs (O := O) w' !! k' = objs w !! k') /\
    (IsAlreadyExists (Some e) = true -> objs w' = objs w /\ is_Some (objs w !! k));
  create_err_own k o w e w' : clientCreate k o w = (Some e, w') ->
    objs (O := O) w' !! k = objs w !! k \/ (objs w !! k = None /\ objs w' !! k = Some o);
  update_ok k o w w' : clientUpdate k o w = (None, w') ->
    is_Some (objs (O := O) w !! k) /\ objs w' = <[k := o]> (objs w);
  update_err k o w e w' : clientUpdate k o w = (Some e, w') ->
    forall k', k' <> k -> objs (O := O) w' !! k' = objs w !! k';
  delete_frame k w r w' : clientDelete O k w = (r, w') ->
    forall k', k' <> k -> objs (O := O) w' !! k' = objs w !! k';
  delete_own k w r w' : clientDelete O k w = (r, w') ->
    objs (O := O) w' !! k = None \/ objs (O := O) w' !! k = objs w !! k;
  delete_notfound k w e w' : clientDelete O k w = (Some e, w') ->
    IsNotFound (Some e) = true -> objs (O := O) w !! k = None /\ objs (O := O) w' = objs w;
  list_ok w l w' : clientList w = (Ok l, w') -> l ≡ₚ map_to_list (objs (O := O) w) /\ objs (O := O) w' = objs w;
  list_err w e w' : clientList (O := O) w = (Err e, w') -> objs (O := O) w' = objs w
}.

(** ** Waiting with a ticker

    The shape of every wait of the repository: check at once, then on each tick of the
    ticker until a check decides or the context is done. [S] holds the variables the loop
    keeps between checks; [None] is returned only when the fuel runs out. *)
Section Poll.
Context {W : Type} `{CX : Ctx W} {St A : Type}.
Context (check : St -> M W (St * option A)) (onDone : St -> option error -> A).

Fixpoint poll_loop (fuel : nat) (interval : Z) (s : St) : M W (option A) :=
  match fuel with
  | O => mret None
  | S fuel' =>
      let! fired := timerFires interval in
      if fired : bool then
        let! '(s, r) := check s in
        match r with
        | Some a => mret (Some a)
        | None => poll_loop fuel' interval s
        end
      else let! ce := ctxErr in mret (Some (onDone s ce))
  end.

Definition poll (fuel : nat) (interval : Z) (s : St) : M W (option A) :=
  let! '(s, r) := check s in
  match r with
  | Some a => mret (Some a)
  | None => poll_loop fuel interval s
  end.

(** The step that ended the wait: a check that decided, or the end of the context. *)
Inductive ended (J : St -> W -> Prop) (a : A) (w' : W) : Prop :=
| ended_check s w s' : J s w -> check s w = ((s', Some a), w') -> ended J a w'
| ended_done s ce z w0 w1 : timerFires z w0 = (false, w1) -> ctxErr w1 = (ce, w') ->
    J s w0 -> a = onDone s ce -> ended J a w'.

Lemma poll_loop_ended (J : St -> W -> Prop) fuel interval s w a w' :
  (forall s w s' r w', J s w -> check s w = ((s', r), w') -> J s' w') ->
  (forall s z w w', J s w -> timerFires z w = (true, w') -> J s w') ->
  J s w -> poll_loop fuel interval s w = (Some a, w') -> ended J a w'.
Proof.
  intros Hc Ht. revert s w. induction fuel as [|fuel IH]; intros s w HJ Hp; [done|].
  cbn [poll_loop] in Hp. unfold mbind, M_bind, mret, M_ret in Hp.
  destruct (timerFires interval w) as [b w1] eqn:Hb. destruct b.
  - pose proof (Ht _ _ _ _ HJ Hb) as HJ1.
    destruct (check s w1) as [[s1 r] w2] eqn:Hs. destruct r as [a'|].
    + injection Hp as <- <-. by eapply ended_check.
    + eapply IH; [|done]. by eapply Hc.
  - destruct (ctxErr w1) as [ce w2] eqn:He. injection Hp as <- <-. by eapply ended_done.
Qed.

Lemma poll_ended (J : St -> W -> Prop) fuel interval s w a w' :
  (forall s w s' r w', J s w -> check s w = ((s', r), w') -> J s' w') ->
  (forall s z w w', J s w -> timerFires z w = (true, w') -> J s w') ->
  J s w -> poll fuel interval s w = (Some a, w') -> ended J a w'.
Proof.
  intros Hc Ht HJ Hp. unfold poll, mbind, M_bind, mret, M_ret in Hp.
  destruct (check s w) as [[s1 r] w1] eqn:Hs. destruct r as [a'|].
  - injection Hp as <- <-. by eapply ended_check.
  - by eapply poll_loop_ended; [..|exact Hp]; [| |eapply Hc].
Qed.

(** What checks, timers and the context preserve, the wait preserves. *)
Lemma poll_preserves (J : W -> Prop) fuel interval s w r w' :
  (forall s w x w', J w -> check s w = (x, w') -> J w') ->
  (forall w e w', J w -> ctxErr w = (e, w') -> J w') ->
  (forall z w b w', J w -> timerFires z w = (b, w') -> J w') ->
  J w -> poll fuel interval s w = (r, w') -> J w'.
Proof.
  intros Hc He Ht HJ H. unfold poll in H. mstep H as [[s1 r1] w1] E1.
  apply Hc in E1; [|done]. clear HJ. destruct r1 as [a|]; [by injection H as _ <-|].
  revert s1 w1 E1 H. induction fuel as [|fuel IH]; intros s1 w1 HJ H; cbn [poll_loop] in H.
  { by injection H as _ <-. }
  mstep H as [b w2] E2. apply Ht in E2; [|done]. destruct b.
  - mstep H as [[s2 r2] w3] E3. apply Hc in E3; [|done].
    destruct r2 as [a|]; [by injection H as _ <-|by eapply IH].
  - mstep H as [ce w3] E3. apply He in E3; [|done]. by injection H as _ <-.
Qed.

(** A context with a deadline lets a bounded number of ticks through: [left] bounds them
    and neither a check nor a tick gives any back. *)
Lemma poll_loop_total (left : W -> nat) fuel interval s w :
  (forall s w, (left (check s w).2 <= left w)%nat) ->
  (forall z w w', timerFires z w = (true, w') -> (left w' < left w)%nat) ->
  (left w < fuel)%nat -> exists a w', poll_loop fuel interval s w = (Some a, w').
Proof.
  intros Hc Ht. revert s w. induction fuel as [|fuel IH]; intros s w Hl; [lia|].
  cbn [poll_loop]. unfold mbind, M_bind, mret, M_ret.
  destruct (timerFires interval w) as [b w1] eqn:Hb. destruct b.
  - pose proof (Ht _ _ _ Hb). pose proof (Hc s w1) as Hw1.
    destruct (check s w1) as [[s1 r] w2]. cbn in Hw1. destruct r; [eauto|].
    apply IH. lia.
  - destruct (ctxErr w1). eauto.
Qed.

Lemma poll_total (left : W -> nat) fuel interval s w :
  (forall s w, (left (check s w).2 <= left w)%nat) ->
  (forall z w w', timerFires z w = (true, w') -> (left w' < left w)%nat) ->
  (left w < fuel)%nat -> exists a w', poll fuel interval s w = (Some a, w').
Proof.
  intros Hc Ht Hl. unfold poll, mbind, M_bind, mret, M_ret. pose proof (Hc s w) as Hw1.
  destruct (check s w) as [[s1 r] w1]. cbn in Hw1. destruct r; [eauto|].
  eapply (poll_loop_total left); [done..|lia].
Qed.
End Poll.

(** ** An API server in memory

    [mem_faults] holds, per call, the message of the transport error the call fails with
    before it reaches the store; with no entry left every call reaches it. [ticks] is how many timers fire
    before the context is done. *)
Record mem (O : Type) := mkMem {
  mem_objs : gmap string O;
  mem_faults : list (option string)
}.
Arguments mkMem {O} _ _.
Arguments mem_objs {O} _.
Arguments mem_faults {O} _.

Definition mem_call {O A} (fail : error -> A) (act : gmap string O -> A * gmap string O)
    : M (mem O) A := fun m =>
  match mem_faults m with
  | Some msg :: fs => (fail (Errorf msg), mkMem (mem_objs m) fs)
  | None :: fs => let '(a, s) := act (mem_objs m) in (a, mkMem s fs)
  | [] => let '(a, s) := act (mem_objs m) in (a, mkMem s [])
  end.

Record memWorld (O : Type) := mkWorld { store : mem O; ticks : nat; done : bool }.
Arguments mkWorld {O} _ _ _.
Arguments store {O} _.
Arguments ticks {O} _.
Arguments done {O} _.

#[export] Instance mem_ctx O : Ctx (memWorld O) := {|
  ctxErr := gets (fun w => if done w then Some context_DeadlineExceeded else None);
  timerFires := fun _ w => match ticks w with
    | 0%nat => (false, mkWorld (store w) 0 true)
    | S n => (negb (done w), mkWorld (store w) n (done w))
    end
|}.

Definition on_store {O A} (m : M (mem O) A) : M (memWorld O) A := fun w =>
  let '(a, s) := m (store w) in (a, mkWorld s (ticks w) (done w)).

#[export] Instance mem_client O : Client (memWorld O) O := {|
  objs := fun w => mem_objs (store w);
  clientGet := fun k => on_store (mem_call Err (fun s =>
    (match s !! k with Some o => Ok o | None => Err (notFoundError k) end, s)));
  clientCreate := fun k o => on_store (mem_call Some (fun s =>
    match s !! k with
    | Some _ => (Some (alreadyExistsError k), s)
    | None => (None, <[k := o]> s)
    end));
  clientUpdate := fun k o => on_store (mem_call Some (fun s =>
    match s !! k with
    | Some _ => (None, <[k := o]> s)
    | None => (Some (notFoundError k), s)
    end));
  clientDelete := fun k => on_store (mem_call Some (fun s =>
    match s !! k with
    | Some _ => (None, delete k s)
    | None => (Some (notFoundError k), s)
    end));
  clientList := on_store (mem_call Err (fun s => (Ok (map_to_list s), s)))
|}.

#[export] Instance mem_ctx_laws O : CtxLaws (memWorld O).
Proof.
  split. intros z [s n d] w'. cbn. destruct n as [|n]; [intros [= <-]; cbn; eauto|].
  destruct d; [|done]. intros [= <-]. cbn. eauto.
Qed.

Lemma mem_call_cases {O A} (fail : error -> A) act (m : mem O) a m' :
  mem_call fail act m = (a, m') ->
  (exists msg, a = fail (Errorf msg) /\ mem_objs m' = mem_objs m) \/
  exists s, act (mem_objs m) = (a, s) /\ mem_objs m' = s.
Proof.
  unfold mem_call. destruct (mem_faults m) as [|[e|] fs].
  - destruct (act _) as [b s]. intros [= <- <-]. eauto.
  - intros [= <- <-]. eauto.
  - destruct (act _) as [b s]. intros [= <- <-]. eauto.
Qed.

Lemma on_store_cases {O A} (m : M (mem O) A) w a w' :
  on_store m w = (a, w') -> m (store w) = (a, store w').
Proof. unfold on_store. destruct (m (store w)) as [b s]. by intros [= <- <-]. Qed.

(** The cases of one call: a transport error, or the store as the call leaves it. *)
Ltac mem_cases H Hs :=
  let s := fresh "s" in
  apply on_store_cases, mem_call_cases in H as [(? & H & Hs)|(s & H & Hs)];
  [simplify_eq; try done | cbn in *;
     repeat match type of H with context [match ?x with _ => _ end] => destruct x eqn:? end;
     simplify_eq].

#[export] Instance mem_client_laws O : ClientLaws (memWorld O) O.
Proof.
  split; cbn [clientGet clientCreate clientUpdate clientDelete clientList mem_client objs];
    intros *; intros Hcall; mem_cases Hcall Hs; rw ?Hs; try done; repeat split; intros;
    rw ?lookup_delete_ne //; try congruence; eauto.
  - left. congruence.
  - match goal with E : delete _ _ = _ |- _ => rw -E; by apply lookup_delete_ne end.
  - left. match goal with E : delete _ _ = _ |- _ => rw -E; apply lookup_delete_eq end.
  - right. congruence.
Qed.

(** ** Servers with several kinds

    A pair of worlds serves the kinds of both; the clock is the one of the first. *)
Definition on_fst {W1 W2 A} (m : M W1 A) : M (W1 * W2) A := fun w =>
  let '(a, w1) := m w.1 in (a, (w1, w.2)).
Definition on_snd {W1 W2 A} (m : M W2 A) : M (W1 * W2) A := fun w =>
  let '(a, w2) := m w.2 in (a, (w.1, w2)).

#[export] Instance pair_ctx W1 W2 `{C1 : Ctx W1} : Ctx (W1 * W2) := {|
  ctxErr := on_fst ctxErr; timerFires := fun z => on_fst (timerFires z) |}.

#[export] Instance pair_client_fst W1 W2 O `{C1 : Client W1 O} : Client (W1 * W2) O | 10 := {|
  objs := fun w => objs w.1;
  clientGet := fun k => on_fst (clientGet k);
  clientCreate := fun k o => on_fst (clientCreate k o);
  clientUpdate := fun k o => on_fst (clientUpdate k o);
  clientDelete := fun k => on_fst (clientDelete O k);
  clientList := on_fst clientList |}.

#[export] Instance pair_client_snd W1 W2 O `{C2 : Client W2 O} : Client (W1 * W2) O | 20 := {|
  objs := fun w => objs w.2;
  clientGet := fun k => on_snd (clientGet k);
  clientCreate := fun k o => on_snd (clientCreate k o);
  clientUpdate := fun k o => on_snd (clientUpdate k o);
  clientDelete := fun k => on_snd (clientDelete O k);
  clientList := on_snd clientList |}.

Lemma on_fst_inv {W1 W2 A} (m : M W1 A) (w : W1 * W2) a w' :
  on_fst m w = (a, w') -> m w.1 = (a, w'.1) /\ w'.2 = w.2.
Proof. unfold on_fst. destruct (m w.1). by intros [= <- <-]. Qed.

Lemma on_snd_inv {W1 W2 A} (m : M W2 A) (w : W1 * W2) a w' :
  on_snd m w = (a, w') -> m w.2 = (a, w'.2) /\ w'.1 = w.1.
Proof. unfold on_snd. destruct (m w.2). by intros [= <- <-]. Qed.

#[export] Instance pair_ctx_laws W1 W2 `{C1 : Ctx W1, L1 : !CtxLaws W1} : CtxLaws (W1 * W2).
Proof.
  split. intros z w w' [H _]%on_fst_inv. apply ctx_done in H as (e & w'' & H).
  exists e, (w'', w'.2). cbn. unfold on_fst. by rw H.
Qed.

#[export] Instance pair_client_fst_laws W1 W2 O
    `{AE : ApiErrors, C1 : Client W1 O, L1 : !ClientLaws W1 O} :
  ClientLaws (W1 * W2) O (H0 := pair_client_fst W1 W2 O).
Proof.
  split; cbn; intros *; intros [H _]%on_fst_inv; revert H;
    [apply get_ok|apply get_err|apply create_ok|apply create_err|apply create_err_own|apply update_ok
    |apply update_err|apply delete_frame|apply delete_own|apply delete_notfound|apply list_ok|apply list_err].
Qed.

#[export] Instance pair_client_snd_laws W1 W2 O
    `{AE : ApiErrors, C2 : Client W2 O, L2 : !ClientLaws W2 O} :
  ClientLaws (W1 * W2) O (H0 := pair_client_snd W1 W2 O).
Proof.
  split; cbn; intros *; intros [H _]%on_snd_inv; revert H;
    [apply get_ok|apply get_err|apply create_ok|apply create_err|apply create_err_own|apply update_ok
    |apply update_err|apply delete_frame|apply delete_own|apply delete_notfound|apply list_ok|apply list_err].
Qed.

(** ** Frames

    Calls on one kind leave the objects of another kind alone. *)
Class Frame (W O1 O2 : Type) `{Client W O1, Client W O2} : Prop := {
  frame_get k w : objs (O := O2) (clientGet (O := O1) k w).2 = objs w;
  frame_create k (o : O1) w : objs (O := O2) (clientCreate k o w).2 = objs w;
  frame_update k (o : O1) w : objs (O := O2) (clientUpdate k o w).2 = objs w;
  frame_delete k w : objs (O := O2) (clientDelete O1 k w).2 = objs w;
  frame_list w : objs (O := O2) (clientList (O := O1) w).2 = objs w
}.

(** Nobody else changes the objects while the code waits. *)
Class Quiet (W O : Type) `{Ctx W, Client W O} : Prop := {
  quiet_ctx w : objs (O := O) (ctxErr w).2 = objs w;
  quiet_timer z w : objs (O := O) (timerFires z w).2 = objs w
}.

(** ** [golang.org/x/sync/errgroup]

    The tasks of a group work on different objects; they are run one after another, in an
    order the caller leaves open. Every task runs, the first error is returned. *)
Section Errgroup.
Context {W : Type}.

Definition first_error (r rs : option (option error)) : option (option error) :=
  match r, rs with
  | Some (Some e), Some _ => Some (Some e)
  | Some None, Some x => Some x
  | _, _ => None
  end.

Fixpoint errgroup (tasks : list (M W (option (option error)))) : M W (option (option error)) :=
  match tasks with
  | [] => mret (Some None)
  | t :: ts =>
      let! r := t in
      let! rs := errgroup ts in
      mret (first_error r rs)
  end.

(** What every task preserves, the group preserves. *)
Lemma errgroup_preserves (J : W -> Prop) tasks w r w' :
  (forall t w r w', t ∈ tasks -> J w -> t w = (r, w') -> J w') ->
  J w -> errgroup tasks w = (r, w') -> J w'.
Proof.
  revert w r. induction tasks as [|t ts IH]; intros w r Ht HJ H; cbn [errgroup] in H.
  { by injection H as _ <-. }
  mstep H as [r1 w1] E1. mstep H as [r2 w2] E2. injection H as _ <-.
  refine (IH _ _ _ _ E2); [|by eapply (Ht t); [left| |]].
  intros t' w0 r0 w0' Hin. apply Ht. by right.
Qed.

(** A group that reports success ran every task with success, and what a task establishes
    and the others preserve holds at the end. *)
Lemma errgroup_ok {T} (task : T -> M W (option (option error))) (J : W -> Prop)
    (Q : T -> W -> Prop) xs w w' :
  NoDup xs ->
  (forall x w r w', x ∈ xs -> J w -> task x w = (r, w') -> J w' /\ (r = Some None -> Q x w')) ->
  (forall x y w r w', x ∈ xs -> y ∈ xs -> x <> y -> J w -> Q x w -> task y w = (r, w') -> Q x w') ->
  J w -> errgroup (map task xs) w = (Some None, w') -> forall x, x ∈ xs -> Q x w'.
Proof.
  intros Hnd. revert w. induction Hnd as [|x xs Hx Hnd IH]; intros w Ht Hp HJ H y Hy;
    [by apply elem_of_nil in Hy|].
  cbn [map errgroup] in H. mstep H as [r1 w1] E1. mstep H as [r2 w2] E2. injection H as Hr <-.
  destruct r1 as [[e|]|], r2 as [[e'|]|]; try done.
  destruct (Ht x w _ w1 (list_elem_of_here _ _) HJ E1) as [HJ1 HQ1].
  apply elem_of_cons in Hy as [->|Hy].
  - refine (proj2 (errgroup_preserves (fun w => J w /\ Q x w) _ _ _ _ _ _ E2)); [|by split; [|apply HQ1]].
    intros t w0 r0 w0' (z & -> & Hz)%list_elem_of_fmap [HJ0 HQ] Hrun. split.
    + by eapply (Ht z); [right| |].
    + eapply (Hp x z); [by left|by right| |done..]. by intros ->.
  - eapply (IH w1); [| |done|exact E2|done].
    + intros z v r v' Hz. apply Ht. by right.
    + intros z z' v r v' Hz Hz'. apply Hp; by right.
Qed.

End Errgroup.

(** ** Deadlines

    A context with a deadline lets at most [left w] more ticks through; timers use them up
    and no call gives any back. *)
Class Deadline (W : Type) `{Ctx W} := {
  left : W -> nat;
  left_ctx w : (left (ctxErr w).2 <= left w)%nat;
  left_timer z w : (left (timerFires z w).2 <= left w)%nat;
  left_tick z w w' : timerFires z w = (true, w') -> (left w' < left w)%nat
}.

Definition bounded {W A} `{Deadline W} (m : M W A) : Prop :=
  forall w, (left (m w).2 <= left w)%nat.

(** [m] returns within [fuel] polls per wait. *)
Definition returns {W A} `{Deadline W} (fuel : nat) (m : M W (option A)) : Prop :=
  forall w, (left w < fuel)%nat -> exists a w', m w = (Some a, w').

Class TimedClient (W O : Type) `{Deadline W, Client W O} : Prop := {
  get_bounded k : bounded (clientGet (O := O) k);
  create_bounded k (o : O) : bounded (clientCreate k o);
  update_bounded k (o : O) : bounded (clientUpdate k o);
  delete_bounded k : bounded (clientDelete O k);
  list_bounded : bounded (clientList (O := O))
}.

Create HintDb runs.
#[export] Hint Resolve get_bounded create_bounded update_bounded delete_bounded list_bounded
  : runs.

Section Bounded.
Context {W : Type} `{CX : Ctx W, DL : !Deadline W}.

Lemma ret_bounded {A} (a : A) : bounded (mret (M := M W) a).
Proof. by intros w. Qed.

Lemma bind_bounded {A B} (m : M W A) (k : A -> M W B) :
  bounded m -> (forall a, bounded (k a)) -> bounded (mbind k m).
Proof.
  intros Hm Hk w. unfold mbind, M_bind. specialize (Hm w). destruct (m w) as [a w1]. cbn in Hm.
  etrans; [apply Hk|done].
Qed.

Lemma bind_returns {A B} fuel (m : M W A) (k : A -> M W (option B)) :
  bounded m -> (forall a, returns fuel (k a)) -> returns fuel (mbind k m).
Proof.
  intros Hm Hk w Hl. unfold mbind, M_bind. specialize (Hm w). destruct (m w) as [a w1]. cbn in Hm.
  apply Hk. lia.
Qed.

Lemma ret_returns {A} fuel (a : A) : returns fuel (mret (M := M W) (Some a)).
Proof. intros w _. by eexists _, _. Qed.

Lemma returns_bind {A B} fuel (m : M W (option A)) (k : option A -> M W (option B)) :
  returns fuel m -> bounded m -> (forall a, returns fuel (k (Some a))) -> returns fuel (mbind k m).
Proof.
  intros Hm Hb Hk w Hl. destruct (Hm w Hl) as (a & w1 & E). specialize (Hb w).
  unfold mbind, M_bind. rw E in Hb |- *. cbn in Hb. apply Hk. lia.
Qed.

Lemma poll_bounded {St A} (check : St -> M W (St * option A)) over fuel interval s :
  (forall s, bounded (check s)) -> bounded (poll check over fuel interval s).
Proof.
  intros Hc. apply bind_bounded; [done|]. intros [s1 [a|]]; [apply ret_bounded|].
  revert s1. induction fuel as [|fuel IH]; intros s1; [apply ret_bounded|]. cbn [poll_loop].
  apply bind_bounded; [intros w; apply left_timer|]. intros [|].
  - apply bind_bounded; [done|]. intros [s2 [a|]]; [apply ret_bounded|apply IH].
  - apply bind_bounded; [intros w; apply left_ctx|intros; apply ret_bounded].
Qed.

Lemma poll_returns {St A} (check : St -> M W (St * option A)) over fuel interval s :
  (forall s, bounded (check s)) -> returns fuel (poll check over fuel interval s).
Proof. intros Hc w Hl. apply (poll_total _ _ left); [by intros; apply Hc|apply left_tick|done]. Qed.

Lemma errgroup_bounded (tasks : list (M W (option (option error)))) :
  (forall t, t ∈ tasks -> bounded t) -> bounded (errgroup tasks).
Proof.
  induction tasks as [|t ts IH]; intros Ht; cbn [errgroup]; [apply ret_bounded|].
  apply bind_bounded; [apply Ht; by left|]. intros r.
  apply bind_bounded; [|intros; apply ret_bounded].
  apply IH. intros t' Hin. apply Ht. by right.
Qed.

Lemma errgroup_returns fuel (tasks : list (M W (option (option error)))) :
  (forall t, t ∈ tasks -> bounded t /\ returns fuel t) -> returns fuel (errgroup tasks).
Proof.
  induction tasks as [|t ts IH]; intros Ht; cbn [errgroup]; [apply ret_returns|].
  destruct (Ht t) as [Hb Hr]; [by left|]. apply returns_bind; [done|done|]. intros r.
  assert (Hts : forall t', t' ∈ ts -> bounded t' /\ returns fuel t')
    by (intros t' Hin; apply Ht; by right).
  apply returns_bind; [by apply IH|apply errgroup_bounded; intros; by apply Hts|].
  intros rs. destruct r; apply ret_returns.
Qed.
End Bounded.

#[export] Hint Resolve ret_bounded bind_bounded ret_returns poll_bounded poll_returns : runs.

#[export] Instance mem_deadline O : Deadline (memWorld O).
Proof.
  refine {| left := ticks |}.
  - done.
  - intros z [s [|t] d]; cbn; lia.
  - intros z [s [|t] d] w'; cbn; [done|]. intros [= _ <-]. cbn. lia.
Defined.

Lemma on_store_bounded {O A} (m : M (mem O) A) : bounded (on_store m).
Proof. intros w. unfold on_store. by destruct (m (store w)). Qed.

#[export] Instance mem_timed O : TimedClient (memWorld O) O.
Proof. split; intros; apply on_store_bounded. Qed.

#[export] Instance pair_deadline W1 W2 `{C1 : Ctx W1, D1 : !Deadline W1} : Deadline (W1 * W2).
Proof.
  refine {| left := fun w => left w.1 |}.
  - intros w. cbn. unfold on_fst. pose proof (left_ctx w.1) as H. by destruct (ctxErr w.1).
  - intros z w. cbn. unfold on_fst. pose proof (left_timer z w.1) as H. by destruct (timerFires z w.1).
  - intros z w w' [H _]%on_fst_inv. by apply left_tick in H.
Defined.

Lemma on_fst_bounded {W1 W2 A} `{C1 : Ctx W1, D1 : !Deadline W1} (m : M W1 A) :
  bounded m -> bounded (on_fst (W2 := W2) m).
Proof. intros H w. specialize (H w.1). cbn. unfold on_fst. by destruct (m w.1). Qed.

Lemma on_fst_returns {W1 W2 A} `{C1 : Ctx W1, D1 : !Deadline W1} fuel (m : M W1 (option A)) :
  returns fuel m -> returns fuel (on_fst (W2 := W2) m).
Proof.
  intros H w Hl. destruct (H w.1 Hl) as (a & w' & E). unfold on_fst. rw E. by eexists _, _.
Qed.

Lemma on_snd_bounded {W1 W2 A} `{C1 : Ctx W1, D1 : !Deadline W1} (m : M W2 A) :
  bounded (on_snd (W1 := W1) m).
Proof. intros w. cbn. unfold on_snd. by destruct (m w.2). Qed.

#[export] Instance pair_timed_fst W1 W2 O `{C1 : Ctx W1, D1 : !Deadline W1, O1 : Client W1 O,
  T1 : !TimedClient W1 O} : TimedClient (W1 * W2) O (H1 := pair_client_fst W1 W2 O).
Proof. split; intros; apply on_fst_bounded; auto with runs. Qed.

#[export] Instance pair_timed_snd W1 W2 O `{C1 : Ctx W1, D1 : !Deadline W1, O2 : Client W2 O} :
  TimedClient (W1 * W2) O (H1 := pair_client_snd W1 W2 O).
Proof. split; intros; apply on_snd_bounded. Qed.

#[export] Instance mem_quiet O : Quiet (memWorld O) O.
Proof. split; [done|]. by intros z [s [|t] d]. Qed.

#[export] Instance pair_quiet_fst W1 W2 O `{C1 : Ctx W1, O1 : Client W1 O, Q1 : !Quiet W1 O} :
  Quiet (W1 * W2) O (H0 := pair_client_fst W1 W2 O).
Proof.
  split.
  - intros w. cbn. unfold on_fst. pose proof (quiet_ctx (O := O) w.1) as H. by destruct (ctxErr w.1).
  - intros z w. cbn. unfold on_fst. pose proof (quiet_timer (O := O) z w.1) as H.
    by destruct (timerFires z w.1).
Qed.

#[export] Instance pair_quiet_snd W1 W2 O `{C1 : Ctx W1, O2 : Client W2 O} :
  Quiet (W1 * W2) O (H0 := pair_client_snd W1 W2 O).
Proof.
  split.
  - intros w. cbn. unfold on_fst. by destruct (ctxErr w.1).
  - intros z w. cbn. unfold on_fst. by destruct (timerFires z w.1).
Qed.

#[export] Instance pair_frame_fst W1 W2 A B `{C1 : Client W1 A, C2 : Client W2 B} :
  Frame (W1 * W2) A B (H := pair_client_fst W1 W2 A) (H0 := pair_client_snd W1 W2 B).
Proof.
  split; intros; cbn; unfold on_fst;
    [by destruct (clientGet _ _)|by destruct (clientCreate _ _ _)|by destruct (clientUpdate _ _ _)
    |by destruct (clientDelete _ _ _)|by destruct (clientList _)].
Qed.

#[export] Instance pair_frame_snd W1 W2 A B `{C1 : Client W1 A, C2 : Client W2 B} :
  Frame (W1 * W2) B A (H := pair_client_snd W1 W2 B) (H0 := pair_client_fst W1 W2 A).
Proof.
  split; intros; cbn; unfold on_snd;
    [by destruct (clientGet _ _)|by destruct (clientCreate _ _ _)|by destruct (clientUpdate _ _ _)
    |by destruct (clientDelete _ _ _)|by destruct (clientList _)].
Qed.

#[export] Instance pair_frame_lift W1 W2 A B `{C1 : Client W1 A, C2 : Client W1 B, F1 : !Frame W1 A B} :
  Frame (W1 * W2) A B (H := pair_client_fst W1 W2 A) (H0 := pair_client_fst W1 W2 B).
Proof.
  split; intros; cbn; unfold on_fst;
    [pose proof (frame_get (O1 := A) (O2 := B) k w.1) as H; by destruct (clientGet _ _)
    |pose proof (frame_create (O2 := B) k o w.1) as H; by destruct (clientCreate _ _ _)
    |pose proof (frame_update (O2 := B) k o w.1) as H; by destruct (clientUpdate _ _ _)
    |pose proof (frame_delete (O1 := A) (O2 := B) k w.1) as H; by destruct (clientDelete _ _ _)
    |pose proof (frame_list (O1 := A) (O2 := B) w.1) as H; by destruct (clientList _)].
Qed.

(** ** [context.WithTimeout]

    [enter d] is the world with the derived context, [leave w] gives the context of [w] back
    when the call is over. *)
Class Scope (W : Type) := { enter : Z -> W -> W; leave : W -> W -> W }.

Definition withTimeout {W A} `{Scope W} (d : Z) (m : M W A) : M W A := fun w =>
  let '(a, w') := m (enter d w) in (a, leave w w').

(** Contexts are no objects of the server. *)
Class ScopeLaws (W O : Type) `{Scope W, Client W O} : Prop := {
  enter_objs d w : objs (O := O) (enter d w) = objs w;
  leave_objs w w' : objs (O := O) (leave w w') = objs w'
}.

(** The derived deadline is not after the one of the parent, which time brings nearer. *)
Class ScopeDeadline (W : Type) `{Scope W, Deadline W} : Prop := {
  enter_left d w : (left (enter d w) <= left w)%nat;
  leave_left w w' : (left (leave w w') <= left w)%nat
}.

Lemma withTimeout_inv {W A} `{Scope W} d (m : M W A) w a w' :
  withTimeout d m w = (a, w') -> exists w1, m (enter d w) = (a, w1) /\ w' = leave w w1.
Proof. unfold withTimeout. destruct (m (enter d w)) as [x w1]. intros [= <- <-]. eauto. Qed.

Lemma withTimeout_bounded {W A} `{ScopeDeadline W} d (m : M W A) : bounded (withTimeout d m).
Proof. intros w. unfold withTimeout. destruct (m (enter d w)) as [x w1]. apply leave_left. Qed.
#[export] Hint Resolve withTimeout_bounded : runs.

(** In memory a second is a tick. *)
#[export] Instance mem_scope O : Scope (memWorld O) := {|
  enter := fun d w => mkWorld (store w) (Nat.min (ticks w) (Z.to_nat (d / Second))) (done w);
  leave := fun w w' => mkWorld (store w') (ticks w - 1) (done w)
|}.
#[export] Instance mem_scope_laws O : ScopeLaws (memWorld O) O.
Proof. by split. Qed.
#[export] Instance mem_scope_deadline O : ScopeDeadline (memWorld O).
Proof. split; cbn; lia. Qed.

#[export] Instance pair_scope W1 W2 `{S1 : Scope W1} : Scope (W1 * W2) := {|
  enter := fun d w => (enter d w.1, w.2);
  leave := fun w w' => (leave w.1 w'.1, w'.2)
|}.
#[export] Instance pair_scope_laws_fst W1 W2 O `{S1 : Scope W1, O1 : Client W1 O, L1 : !ScopeLaws W1 O} :
  ScopeLaws (W1 * W2) O (H0 := pair_client_fst W1 W2 O).
Proof. split; intros; [apply (enter_objs (W := W1))|apply (leave_objs (W := W1))]. Qed.
#[export] Instance pair_scope_laws_snd W1 W2 O `{S1 : Scope W1, O2 : Client W2 O} :
  ScopeLaws (W1 * W2) O (H0 := pair_client_snd W1 W2 O).
Proof. by split. Qed.

(** ** What a computation maintains *)
Create HintDb stays.

Definition maintains {W A} (J : W -> Prop) (m : M W A) : Prop :=
  forall w a w', J w -> m w = (a, w') -> J w'.

Section Maintains.
Context {W : Type} (J : W -> Prop).

Lemma ret_stays {A} (a : A) : maintains J (mret (M := M W) a).
Proof. by intros w b w' HJ [= _ <-]. Qed.

Lemma bind_stays {A B} (m : M W A) (k : A -> M W B) :
  maintains J m -> (forall a, maintains J (k a)) -> maintains J (mbind k m).
Proof.
  intros Hm Hk w b w' HJ H. mstep H as [a w1] E. by eapply Hk; [eapply Hm|].
Qed.

Context `{CX : Ctx W}.

Lemma poll_loop_stays {S A} (check : S -> M W (S * option A)) over fuel interval s :
  (forall s, maintains J (check s)) -> maintains J ctxErr -> (forall z, maintains J (timerFires z)) ->
  maintains J (poll_loop check over fuel interval s).
Proof.
  intros Hc He Ht. revert s. induction fuel as [|fuel IH]; intros s; cbn [poll_loop]; [apply ret_stays|].
  apply bind_stays; [apply Ht|]. intros [].
  - apply bind_stays; [apply Hc|]. intros [s1 [a|]]; [apply ret_stays|apply IH].
  - apply bind_stays; [apply He|]. intros ce. apply ret_stays.
Qed.

Lemma poll_stays {S A} (check : S -> M W (S * option A)) over fuel interval s :
  (forall s, maintains J (check s)) -> maintains J ctxErr -> (forall z, maintains J (timerFires z)) ->
  maintains J (poll check over fuel interval s).
Proof.
  intros Hc He Ht. apply bind_stays; [apply Hc|]. intros [s1 [a|]]; [apply ret_stays|by apply poll_loop_stays].
Qed.
End Maintains.

(** Case analysis on what the calls returned, then the lemmas above and those in the database. *)
Ltac stays_with tac :=
  repeat first
    [ progress intros
    | match goal with
      | |- maintains _ (mret _) => apply ret_stays
      | |- maintains _ (mbind _ _) => apply bind_stays
      | |- maintains _ (poll _ _ _ _ _) => apply poll_stays
      | |- maintains _ (poll_loop _ _ _ _ _) => apply poll_loop_stays
      | |- maintains _ (match ?x with _ => _ end) => destruct x
      end
    | tac
    | solve [eauto 2 with stays]
    | progress cbv beta ].
