(* ===== verification/Pool.v ===== *)
(** Goroutines started in a loop, a [sync.WaitGroup] and a channel for their results: the
    shape of every parallel stage of [src/pkg/testkit/stress-tests.go].

    A goroutine is a list of calls over its local variables. A schedule picks, move by move,
    the goroutine that goes on; every interleaving of the calls is the run of some schedule.
    The channel has room for one result of each goroutine, so a send never blocks. *)
From S2P Require Import Prelude Errors Retry Kube.

Local Open Scope go_scope.

Section Pool.
Context {W St X : Type}.

(** One call: it fails, or updates the local variables; a panic ends the whole program. *)
Definition call : Type := St -> M W (ending (result St)).

(** Where a goroutine is: calls are left to be made, or an error is about to be sent, or it
    is over with what it sent. *)
Inductive gor :=
| Run (s : St) (todo : list call)
| Send (e : error)
| Over (r : result St).

(** One move. [None]: a panic. *)
Definition move (g : gor) : M W (option gor) :=
  match g with
  | Run s [] => mret (Some (Over (Ok s)))
  | Run s (c :: todo) =>
      let! r := c s in
      mret match r with
           | Panics => None
           | Returns (Err e) => Some (Send e)
           | Returns (Ok s) => Some (Run s todo)
           end
  | Send e => mret (Some (Over (Err e)))
  | Over r => mret (Some (Over r))
  end.

(** [wg.Wait()]: [live] are the goroutines that are not over, [out] what was sent so far, in
    the order it arrived. [None] only when the fuel runs out. *)
Fixpoint pool (fuel : nat) (sched : list nat) (live : list (X * gor)) (out : list (X * result St))
    : M W (option (ending (list (X * result St)))) :=
  match live with
  | [] => mret (Some (Returns out))
  | p :: live' =>
      match fuel with
      | 0 => mret None
      | S fuel =>
          let i := (hd 0 sched) mod (length live) in
          let '(x, g) := nth i live p in
          let! r := move g in
          match r with
          | None => mret (Some Panics)
          | Some (Over r) => pool fuel (tl sched) (delete i live) (out ++ [(x, r)])
          | Some g => pool fuel (tl sched) (<[i := (x, g)]> live) out
          end
      end
  end.

(** The moves a goroutine has left, at most. *)
Definition moves (g : gor) : nat :=
  match g with Run _ todo => S (S (length todo)) | _ => 1 end.
Definition total (live : list (X * gor)) : nat := sum_list_with (fun p => moves p.2) live.

Definition start (init : X -> St) (prog : X -> list call) (xs : list X) : list (X * gor) :=
  map (fun x => (x, Run (init x) (prog x))) xs.

(** The goroutines of [for x in xs { wg.Add(1); go ... }; wg.Wait()]. *)
Definition go_all (sched : list nat) (init : X -> St) (prog : X -> list call) (xs : list X)
    : M W (option (ending (list (X * result St)))) :=
  let live := start init prog xs in pool (total live) sched live [].

Lemma nth_pick (live : list (X * gor)) p n :
  live <> [] -> live !! (n mod length live) = Some (nth (n mod length live) live p).
Proof.
  intros Hne. destruct live as [|q live]; [done|]. set (l := q :: live) in *.
  assert (Hlt : n mod length l < length l) by (apply Nat.mod_upper_bound; done).
  apply lookup_lt_is_Some_2 in Hlt as [r Hr]. rewrite Hr. f_equal. symmetry. by apply nth_lookup_Some.
Qed.

Lemma total_pick live i x g : live !! i = Some (x, g) -> total live = moves g + total (delete i live).
Proof.
  unfold total. intros H. apply delete_Permutation in H. rewrite {1}H. done.
Qed.

Lemma moves_insert live i x g g' :
  live !! i = Some (x, g) -> total (<[i := (x, g')]> live) = moves g' + total (delete i live).
Proof.
  intros H. pose proof (lookup_lt_Some _ _ _ H) as Hlt.
  rewrite (total_pick (<[i := (x, g')]> live) i x g'); [by apply list_lookup_insert_eq|].
  f_equal. f_equal. clear -Hlt. revert i Hlt.
  induction live as [|q live IH]; intros [|i] Hlt; cbn in *; [lia|lia|done|]. f_equal. apply IH. lia.
Qed.

Lemma move_less g w g' w' :
  move g w = (Some g', w') -> match g' with Over _ => True | _ => moves g' < moves g end.
Proof.
  unfold move. destruct g as [s [|c todo]|e|r]; cbn; unfold mbind, M_bind, mret, M_ret.
  - by intros [= <- _].
  - destruct (c s w) as [[[s1|e]|] w1]; intros [= <- _]; cbn; lia.
  - by intros [= <- _].
  - by intros [= <- _].
Qed.

(** ** Every pool ends

    Whatever the schedule: [wg.Wait()] returns, unless a goroutine panics. *)
Lemma pool_ends fuel sched live out w :
  total live <= fuel -> exists r w', pool fuel sched live out w = (Some r, w').
Proof.
  revert sched live out w. induction fuel as [|fuel IH]; intros sched live out w Hf.
  { destruct live as [|[x g] live]; [by eexists _, _|]. unfold total in Hf. cbn in Hf. destruct g; cbn in Hf; lia. }
  destruct live as [|p live]; [by eexists _, _|]. cbn [pool].
  set (l := p :: live) in *. set (i := _ mod _). destruct (nth i l p) as [x g] eqn:Hn.
  assert (Hi : l !! i = Some (x, g)) by (rewrite -Hn; by apply nth_pick).
  unfold mbind, M_bind, mret, M_ret. destruct (move g w) as [[g'|] w1] eqn:Hm; [|by eexists _, _].
  pose proof (total_pick _ _ _ _ Hi) as Ht. pose proof (move_less _ _ _ _ Hm) as Hl.
  assert (1 <= moves g) by (destruct g; cbn; lia).
  destruct g' as [s todo|e|r]; apply IH; try (rewrite (moves_insert _ _ _ g); [done|lia]); lia.
Qed.

Lemma pick_perm (live : list (X * gor)) i x g :
  live !! i = Some (x, g) -> live.*1 ≡ₚ x :: (delete i live).*1.
Proof. intros H%delete_Permutation. by rewrite {1}H. Qed.

Lemma insert_perm (live : list (X * gor)) i x g g' :
  live !! i = Some (x, g) -> <[i := (x, g')]> live ≡ₚ (x, g') :: delete i live.
Proof.
  intros H. pose proof (lookup_lt_Some _ _ _ H) as Hlt.
  rewrite {1}(delete_Permutation (<[i := (x, g')]> live) i (x, g')); [by apply list_lookup_insert_eq|].
  f_equiv. clear -Hlt. revert i Hlt.
  induction live as [|q live IH]; intros [|i] Hlt; cbn in *; [lia|lia|done|]. f_equiv. apply IH. lia.
Qed.

(** Each goroutine sends one result. *)
Lemma pool_ids fuel sched live out w res w' :
  pool fuel sched live out w = (Some (Returns res), w') -> res.*1 ≡ₚ live.*1 ++ out.*1.
Proof.
  revert sched live out w. induction fuel as [|fuel IH]; intros sched live out w H.
  { destruct live as [|p live]; [|done]. by injection H as <- _. }
  destruct live as [|p live]; [by injection H as <- _|].
  cbn [pool] in H. set (l := p :: live) in *. set (i := _ mod _) in H. destruct (nth i l p) as [x g] eqn:Hn.
  assert (Hi : l !! i = Some (x, g)) by (rewrite -Hn; by apply nth_pick).
  mstep H as [r w1] Hm. destruct r as [g'|]; [|done]. pose proof (pick_perm _ _ _ _ Hi) as Hp.
  destruct g' as [s todo|e|r]; apply IH in H.
  1, 2: by rewrite H (insert_perm _ _ _ _ _ Hi) Hp.
  rewrite H fmap_app Hp /=. solve_Permutation.
Qed.

Lemma start_ids init prog xs : (start init prog xs).*1 = xs.
Proof. induction xs as [|x xs IH]; [done|]. cbn. by f_equal. Qed.

Lemma go_all_ids sched init prog xs w res w' :
  go_all sched init prog xs w = (Some (Returns res), w') -> res.*1 ≡ₚ xs.
Proof. intros H%pool_ids. by rewrite app_nil_r start_ids in H. Qed.

(** ** The rule of Owicki and Gries

    [A x g] is the assertion of goroutine [x] when it is at [g]. The moves of a goroutine take
    its assertions forward and do not interfere with those of the others; then, at the end,
    the final assertions of all hold together, in whatever order the goroutines went on. *)
Section Rule.
Context (J : W -> Prop) (A : X -> gor -> W -> Prop).
Hypothesis forward : forall x g w g' w',
  J w -> A x g w -> move g w = (Some g', w') -> J w' /\ A x g' w'.
Hypothesis no_interference : forall x y gx gy w g' w',
  x <> y -> J w -> A x gx w -> A y gy w -> move gy w = (Some g', w') -> A x gx w'.

Definition holds (live : list (X * gor)) (out : list (X * result St)) (w : W) : Prop :=
  NoDup (live.*1 ++ out.*1) /\
  (forall x g, (x, g) ∈ live -> A x g w) /\ (forall x r, (x, r) ∈ out -> A x (Over r) w).

(** A move keeps all assertions. *)
Lemma holds_move live out i x g g' w w' :
  live !! i = Some (x, g) -> J w -> holds live out w -> move g w = (Some g', w') ->
  J w' /\ A x g' w' /\
  (forall y gy, (y, gy) ∈ delete i live -> A y gy w') /\ (forall y r, (y, r) ∈ out -> A y (Over r) w').
Proof.
  intros Hi HJ (Hnd & Hl & Ho) Hm. assert (Hx : A x g w) by (apply Hl; by eapply list_elem_of_lookup_2).
  destruct (forward _ _ _ _ _ HJ Hx Hm) as [HJ' Hx']. split; [done|]. split; [done|].
  rewrite (pick_perm _ _ _ _ Hi) in Hnd. cbn in Hnd. apply NoDup_cons in Hnd as [Hnot _].
  split.
  - intros y gy Hy. eapply (no_interference y x); [|exact HJ| |exact Hx|exact Hm].
    + intros ->. apply Hnot, elem_of_app. left. by apply (list_elem_of_fmap_2 fst) in Hy.
    + apply Hl. apply delete_Permutation in Hi. rewrite Hi. by right.
  - intros y r Hy. eapply (no_interference y x); [|exact HJ| |exact Hx|exact Hm].
    + intros ->. apply Hnot, elem_of_app. right. by apply (list_elem_of_fmap_2 fst) in Hy.
    + by apply Ho.
Qed.

Lemma pool_holds fuel sched live out w res w' :
  J w -> holds live out w -> pool fuel sched live out w = (Some (Returns res), w') ->
  J w' /\ forall x r, (x, r) ∈ res -> A x (Over r) w'.
Proof.
  revert sched live out w. induction fuel as [|fuel IH]; intros sched live out w HJ Hh H.
  { destruct live as [|p live]; [|done]. injection H as <- <-. destruct Hh as (_ & _ & Ho). done. }
  destruct live as [|p live]; [injection H as <- <-; destruct Hh as (_ & _ & Ho); done|].
  cbn [pool] in H. set (l := p :: live) in *. set (i := _ mod _) in H. destruct (nth i l p) as [x g] eqn:Hn.
  assert (Hi : l !! i = Some (x, g)) by (rewrite -Hn; by apply nth_pick).
  mstep H as [r w1] Hm. destruct r as [g'|]; [|done].
  destruct (holds_move _ _ _ _ _ _ _ _ Hi HJ Hh Hm) as (HJ1 & Hx & Hl & Ho).
  destruct Hh as (Hnd & _ & _). pose proof (pick_perm _ _ _ _ Hi) as Hp. rewrite Hp in Hnd. cbn in Hnd.
  assert (Hrun : A x g' w1 -> holds (<[i := (x, g')]> l) out w1).
  { intros H0. split; [by rewrite (insert_perm _ _ _ _ _ Hi)|]. split; [|done].
    intros y gy Hy. rewrite (insert_perm _ _ _ _ _ Hi) in Hy. apply elem_of_cons in Hy as [[= -> ->]|Hy]; auto. }
  destruct g' as [s todo|e|r]; (eapply IH; [exact HJ1| |exact H]); [by apply Hrun|by apply Hrun|].
  split; [rewrite fmap_app /= app_assoc -Permutation_cons_append; done|]. split; [done|].
  intros y ry [Hy|[= -> ->]%list_elem_of_singleton]%elem_of_app; [by apply Ho|done].
Qed.

(** All goroutines send one result, and their final assertions hold. *)
Lemma go_all_rule sched init prog xs w res w' :
  NoDup xs -> J w -> (forall x, x ∈ xs -> A x (Run (init x) (prog x)) w) ->
  go_all sched init prog xs w = (Some (Returns res), w') ->
  J w' /\ res.*1 ≡ₚ xs /\ forall x r, (x, r) ∈ res -> A x (Over r) w'.
Proof.
  intros Hnd HJ HA H. pose proof (go_all_ids _ _ _ _ _ _ _ H) as Hp.
  apply pool_holds in H as [HJ' Hr]; [done|done|].
  - split; [|split; [|intros x r Hx; by apply elem_of_nil in Hx]].
    + by rewrite /= app_nil_r start_ids.
    + intros x g Hx. apply list_elem_of_fmap in Hx as (y & [= -> ->] & Hy). by apply HA.
Qed.
End Rule.

Lemma go_all_ends sched init prog xs w : exists r w', go_all sched init prog xs w = (Some r, w').
Proof. by apply pool_ends. Qed.

(** What every call of every goroutine preserves, the pool preserves, also when it panics; [L]
    holds of the local variables all along. *)
Lemma pool_preserves (J : W -> Prop) (L : St -> Prop) fuel sched live out w r w' :
  (forall x s todo c s' w r w', (x, Run s todo) ∈ live -> c ∈ todo -> J w -> L s' -> c s' w = (r, w') ->
     J w' /\ match r with Returns (Ok s1) => L s1 | _ => True end) ->
  (forall x s todo, (x, Run s todo) ∈ live -> L s) ->
  J w -> pool fuel sched live out w = (r, w') -> J w'.
Proof.
  revert sched live out w. induction fuel as [|fuel IH]; intros sched live out w Hc HL HJ H.
  { destruct live; by injection H as _ <-. }
  destruct live as [|p live]; [by injection H as _ <-|].
  cbn [pool] in H. set (l := p :: live) in *. set (i := _ mod _) in H. destruct (nth i l p) as [x g] eqn:Hn.
  assert (Hi : l !! i = Some (x, g)) by (rewrite -Hn; by apply nth_pick).
  assert (Hin : (x, g) ∈ l) by (by eapply list_elem_of_lookup_2).
  assert (Hdel : forall q, q ∈ delete i l -> q ∈ l) by (intros q Hq; rewrite (delete_Permutation _ _ _ Hi); by right).
  mstep H as [r1 w1] Hm.
  assert (Hmove : J w1 /\ forall s todo, r1 = Some (Run s todo) ->
            L s /\ forall c, c ∈ todo -> exists s0 todo0, g = Run s0 todo0 /\ c ∈ todo0).
  { unfold move in Hm. destruct g as [s [|c todo]|e|r2]; try (by injection Hm as <- <-).
    mstep Hm as [rc w2] Hcall. injection Hm as <- <-.
    destruct (Hc x s (c :: todo) c s w rc w2) as [HJ2 HL2]; [done|by left|done|by eapply HL|done|].
    split; [done|]. intros s1 todo1 Heq. destruct rc as [[s2|e]|]; try done. injection Heq as <- <-.
    split; [done|]. intros c0 Hc0. eexists _, _. split; [done|by right]. }
  destruct Hmove as [HJ1 Hsub]. clear Hm HJ.
  assert (Hins : forall g' y gy, (y, gy) ∈ <[i := (x, g')]> l -> (y = x /\ gy = g') \/ (y, gy) ∈ l).
  { intros g' y gy Hy. rewrite (insert_perm _ _ _ _ _ Hi) in Hy. apply elem_of_cons in Hy as [[= -> ->]|Hy]; auto. }
  destruct r1 as [[s todo|e|r2]|]; [| | |by injection H as _ <-]; (eapply IH; [| |exact HJ1|exact H]); clear H IH.
  - intros y sy ty c s' v rv v' [[-> Hg]|Hy]%Hins Hcin; [injection Hg as -> ->|by eapply (Hc y sy ty)].
    destruct (proj2 (Hsub _ _ eq_refl) c Hcin) as (s0 & t0 & -> & Hc0). by eapply (Hc x s0 t0).
  - intros y sy ty [[-> Hg]|Hy]%Hins; [injection Hg as -> ->; by apply (Hsub _ _ eq_refl)|by eapply HL].
  - intros y sy ty c s' v rv v' [[-> Hg]|Hy]%Hins; [done|]. by eapply (Hc y sy ty).
  - intros y sy ty [[-> Hg]|Hy]%Hins; [done|]. by eapply HL.
  - intros y sy ty c s' v rv v' Hy%Hdel. by eapply (Hc y sy ty).
  - intros y sy ty Hy%Hdel. by eapply HL.
Qed.

(** Calls that never panic. *)
Definition calm_calls (g : gor) : Prop :=
  match g with Run _ todo => forall c s w, c ∈ todo -> (c s w).1 <> Panics | _ => True end.

Lemma move_calm g w : calm_calls g -> exists g' w', move g w = (Some g', w') /\ calm_calls g'.
Proof.
  intros Hg. destruct g as [s [|c todo]|e|r]; try by eexists _, _. cbn. unfold mbind, M_bind, mret, M_ret.
  pose proof (Hg c s w (list_elem_of_here _ _)) as Hc. destruct (c s w) as [[[s1|e]|] w1]; [| |done]; eexists _, _; [|done].
  split; [done|]. intros c0 s0 v Hc0. apply Hg. by right.
Qed.

Lemma pool_returns fuel sched live out w :
  (forall x g, (x, g) ∈ live -> calm_calls g) -> total live <= fuel ->
  exists res w', pool fuel sched live out w = (Some (Returns res), w').
Proof.
  intros Hl Hf. destruct (pool_ends fuel sched live out w Hf) as (r & w' & H). destruct r as [res|]; [by eexists _, _|]. exfalso.
  clear Hf. revert sched live out w Hl H. induction fuel as [|fuel IH]; intros sched live out w Hl H; [by destruct live|].
  destruct live as [|p live]; [done|]. cbn [pool] in H.
  set (l := p :: live) in *. set (i := _ mod _) in H. destruct (nth i l p) as [x g] eqn:Hn.
  assert (Hi : l !! i = Some (x, g)) by (rewrite -Hn; by apply nth_pick).
  destruct (move_calm g w) as (g' & w1 & Hm & Hg'); [by eapply Hl, list_elem_of_lookup_2|].
  unfold mbind, M_bind in H. rewrite Hm in H.
  assert (Hins : forall y gy, (y, gy) ∈ <[i := (x, g')]> l -> calm_calls gy).
  { intros y gy Hy. rewrite (insert_perm _ _ _ _ _ Hi) in Hy. apply elem_of_cons in Hy as [[= -> ->]|Hy]; [done|].
    apply (Hl y). rewrite (delete_Permutation _ _ _ Hi). by right. }
  destruct g' as [s todo|e|r]; (eapply IH; [|exact H]); [done|done|].
  intros y gy Hy. apply (Hl y). rewrite (delete_Permutation _ _ _ Hi). by right.
Qed.

(** When no call panics, every goroutine sends its result. *)
Lemma go_all_returns sched init prog xs w :
  (forall x c s w, x ∈ xs -> c ∈ prog x -> (c s w).1 <> Panics) ->
  exists res w', go_all sched init prog xs w = (Some (Returns res), w').
Proof.
  intros Hc. apply pool_returns; [|done]. intros x g Hx. apply list_elem_of_fmap in Hx as (y & [= -> ->] & Hy).
  intros c s v Hin. by apply (Hc y).
Qed.

Lemma go_all_preserves (J : W -> Prop) (L : St -> Prop) sched init prog xs w r w' :
  (forall x c s w r w', x ∈ xs -> c ∈ prog x -> J w -> L s -> c s w = (r, w') ->
     J w' /\ match r with Returns (Ok s1) => L s1 | _ => True end) ->
  (forall x, x ∈ xs -> L (init x)) ->
  J w -> go_all sched init prog xs w = (r, w') -> J w'.
Proof.
  intros Hc HL HJ H. eapply (pool_preserves J L); [| |exact HJ|exact H].
  - intros x s todo c s' v rv v' Hx. apply list_elem_of_fmap in Hx as (y & [= -> -> ->] & Hy). by eapply Hc.
  - intros x s todo Hx. apply list_elem_of_fmap in Hx as (y & [= -> -> ->] & Hy). by apply HL.
Qed.
End Pool.

(** The first error that was sent. *)
Definition first_sent {X St} (res : list (X * result St)) : option error :=
  head (omap (fun p => match p.2 with Err e => Some e | Ok _ => None end) res).

Lemma first_sent_None {X St} (res : list (X * result St)) :
  first_sent res = None -> forall x r, (x, r) ∈ res -> exists s, r = Ok s.
Proof.
  unfold first_sent. induction res as [|[y [s|e]] res IH]; cbn.
  - intros _ x r Hx. by apply elem_of_nil in Hx.
  - intros Hh x r [[= -> ->]|Hx]%elem_of_cons; [by exists s|]. by eapply IH.
  - done.
Qed.

Arguments call : clear implicits.
Arguments gor : clear implicits.

(** The goroutine wraps the error it gets. *)
Definition failing {W St} (pre : string) (calls : list (call W St)) : list (call W St) :=
  map (fun c s =>
         let! r := c s in
         mret match r with Returns (Err e) => Returns (Err (ErrorfW pre e "")) | r => r end) calls.

Lemma failing_move {W St} pre (c : call W St) s todo w g' w' :
  move (Run s (failing pre (c :: todo))) w = (Some g', w') ->
  exists r, c s w = (Returns r, w') /\
    match r with Ok s1 => g' = Run s1 (failing pre todo) | Err _ => exists e, g' = Send e end.
Proof.
  intros H. unfold move in H. cbn [failing map] in H. mstep H as [r w1] E. mstep E as [r2 w2] E2.
  injection E as <- <-. injection H as Hg <-. destruct r2 as [[s1|e]|]; [| |done]; injection Hg as <-.
  - by exists (Ok s1).
  - exists (Err e). eauto.
Qed.
