(* ===== verification/ClusterLock.v ===== *)
(** The lock of the legacy suites: [src/pkg/cluster/lock.go]. A ConfigMap in the namespace
    default that exists while a suite uses the cluster. *)
From S2P Require Import Prelude Errors Retry Kube.

Local Open Scope Z_scope.
Local Open Scope go_scope.

Definition ClusterLockConfigMapName := "default/e2e-cluster-lock".

Record LockMap := mkLockMap { lockLabels : gmap string string; lockData : gmap string string }.

Record ClusterLockInfo := mkLockInfo {
  TestName : string;
  LockedAt : Z;
  LockedBy : string;
  Hostname_ : string;
  PID : Z
}.

(** [fmt.Sscanf(s, "%d", &n)] on a zero [n]: the number at the beginning, if there is one. *)
Fixpoint leading_digits (s : string) : string :=
  match s with
  | String c s' => match dec_digit c with Some _ => String c (leading_digits s') | None => "" end
  | EmptyString => ""
  end.
Definition Sscanf_d (s : string) : Z :=
  let s := trim_left is_space s in
  let '(sign, rest) := match s with
    | String c s' => if Ascii.eqb c "-" then ("-", s') else if Ascii.eqb c "+" then ("", s') else ("", s)
    | EmptyString => ("", s)
    end in
  match Atoi (sign +:+ leading_digits rest) with Some n => n | None => 0 end.

Section ClusterLock.
Context {W : Type} `{AE : ApiErrors, CX : Ctx W, CL : Client W LockMap}.
Context (newClientset : M W (option error)).
(** [os.Hostname], [os.Getenv], [os.Getpid]; times as seconds, RFC 3339 as package [time] has it. *)
Context (hostname : string) (getenv : string -> string) (pid : Z) (now : M W Z).
Context (fmtTime : Z -> string) (parseTime : string -> option Z) (zeroTime : Z).

Definition currentUser : string :=
  if negb (String.eqb (getenv "USER") "") then getenv "USER"
  else if negb (String.eqb (getenv "USERNAME") "") then getenv "USERNAME" else "unknown".

Definition lock_map (testName : string) (at_ : Z) : LockMap :=
  mkLockMap {["app.kubernetes.io/managed-by" := "storage-e2e"; "app.kubernetes.io/component" := "cluster-lock"]}
    {["test-name" := testName; "locked-at" := fmtTime at_; "locked-by" := currentUser; "hostname" := hostname;
      "pid" := pretty pid]}.

Definition datum (m : LockMap) (k : string) : string := default "" (lockData m !! k).

Definition info_of_map (m : LockMap) : ClusterLockInfo :=
  mkLockInfo (datum m "test-name") (default zeroTime (parseTime (datum m "locked-at"))) (datum m "locked-by")
    (datum m "hostname") (match lockData m !! "pid" with Some s => Sscanf_d s | None => 0 end).

Definition GetClusterLockInfo : M W (result ClusterLockInfo) :=
  let! err := newClientset in
  match err with
  | Some e => mret (Err (ErrorfW "failed to create kubernetes clientset: " e ""))
  | None =>
      let! cm := clientGet ClusterLockConfigMapName in
      mret match cm with
           | Err e => Err (ErrorfW "cluster is not locked or lock info unavailable: " e "")
           | Ok m => Ok (info_of_map m)
           end
  end.

(** One attempt. The error of a lock that is held carries no cause, only text. *)
Definition acquire_once (lock : LockMap) : M W (option error) :=
  let! got := clientGet (O := LockMap) ClusterLockConfigMapName in
  match got with
  | Ok _ =>
      let! info := GetClusterLockInfo in
      mret (Some match info with
                 | Err e => Errorf ("cluster is already locked by another test (could not retrieve lock details: " +:+
                              Error e +:+ ")")
                 | Ok i => Errorf ("cluster is already locked: test=" +:+ TestName i +:+ ", locked_at=" +:+
                             fmtTime (LockedAt i) +:+ ", locked_by=" +:+ LockedBy i +:+ ", hostname=" +:+ Hostname_ i +:+
                             ", pid=" +:+ pretty (PID i))
                 end)
  | Err err =>
      if negb (IsNotFound (Some err))
      then mret (Some (ErrorfW "failed to check for existing cluster lock: " err ""))
      else
        let! r := clientCreate ClusterLockConfigMapName lock in
        mret match r with Some e => Some (ErrorfW "failed to create cluster lock: " e "") | None => None end
  end.

Definition AcquireClusterLock (testName : string) : M W (option error) :=
  let! err := newClientset in
  match err with
  | Some e => mret (Some (ErrorfW "failed to create kubernetes clientset: " e ""))
  | None =>
      let! t := now in
      DoVoid ctxErr timerFires DefaultConfig (acquire_once (lock_map testName t))
  end.

Definition release_once : M W (option error) :=
  let! r := clientDelete LockMap ClusterLockConfigMapName in
  mret match r with
       | None => None
       | Some e => if IsNotFound (Some e) then None else Some (ErrorfW "failed to release cluster lock: " e "")
       end.

Definition ReleaseClusterLock : M W (option error) :=
  let! err := newClientset in
  match err with
  | Some e => mret (Some (ErrorfW "failed to create kubernetes clientset: " e ""))
  | None => DoVoid ctxErr timerFires DefaultConfig release_once
  end.

Definition ForceReleaseClusterLock : M W (option error) := ReleaseClusterLock.

Definition IsClusterLocked : M W (result bool) :=
  let! err := newClientset in
  match err with
  | Some e => mret (Err (ErrorfW "failed to create kubernetes clientset: " e ""))
  | None =>
      let! got := clientGet (O := LockMap) ClusterLockConfigMapName in
      mret match got with
           | Ok _ => Ok true
           | Err e => if IsNotFound (Some e) then Ok false else Err (ErrorfW "failed to check cluster lock: " e "")
           end
  end.

(** ** Theorems *)
Context `{CTL : !CtxLaws W, LL : !ClientLaws W LockMap}.

(** [AcquireClusterLock] returns nil only when there was no lock and its own is there now. *)
Theorem AcquireClusterLock_exclusive testName w w' :
  AcquireClusterLock testName w = (None, w') ->
  exists t w1, objs (O := LockMap) w1 !! ClusterLockConfigMapName = None /\
    objs w' = <[ClusterLockConfigMapName := lock_map testName t]> (objs w1).
Proof.
  intros H. unfold AcquireClusterLock in H. mstep H as [e w1] E1. destruct e as [e|]; [done|].
  mstep H as [t w2] E2. exists t.
  destruct (DoVoid_rule ctxErr timerFires (fun _ => True) (fun v => exists w1,
    objs (O := LockMap) w1 !! ClusterLockConfigMapName = None /\
    objs v = <[ClusterLockConfigMapName := lock_map testName t]> (objs w1))
    DefaultConfig (acquire_once (lock_map testName t)) w2 None w') as [_ HQ]; try done.
  - intros z v v' Hv. by eapply ctx_done.
  - intros v e v' _ Hv. split; [done|]. intros ->. unfold acquire_once in Hv. mstep Hv as [got v1] F1.
    destruct got as [m|e]; [case_match; by simplify_eq|].
    destruct (IsNotFound (Some e)); cbn [negb] in Hv; [|done]. mstep Hv as [r v2] F2. injection Hv as Hr <-.
    destruct r as [e'|]; [done|]. apply create_ok in F2 as [Hn Ho]. by exists v1.
  - by apply HQ.
Qed.

(** A release that returns nil leaves no lock, or one that is on its way out; it does not ask
    whose lock it is. *)
Lemma release_once_ok w w' :
  release_once w = (None, w') ->
  objs (O := LockMap) w' !! ClusterLockConfigMapName = None \/
  objs (O := LockMap) w' !! ClusterLockConfigMapName = objs w !! ClusterLockConfigMapName.
Proof.
  intros H. unfold release_once in H. mstep H as [r w1] E. injection H as _ <-. by eapply delete_own.
Qed.
End ClusterLock.

(** ** Runs *)

Definition free_cluster (faults : list (option string)) : memWorld LockMap := mkWorld (mkMem ∅ faults) 50 false.

Definition acquire (testName : string) : memWorld LockMap -> option error * memWorld LockMap :=
  AcquireClusterLock (mret None) "ci-1" (fun _ => "root") 42 (mret 0) (fun _ => "1970-01-01T00:00:00Z")
    (fun _ => Some 0) 0 testName.
Definition release : memWorld LockMap -> option error * memWorld LockMap := ReleaseClusterLock (mret None).

Lemma AcquireClusterLock_exclusive_witness :
  exists t (w1 w' : memWorld LockMap), objs (O := LockMap) w1 !! ClusterLockConfigMapName = None /\
    acquire "csi" (free_cluster []) = (None, w') /\
    objs w' = <[ClusterLockConfigMapName := lock_map "ci-1" (fun _ => "root") 42 (fun _ => "1970-01-01T00:00:00Z") "csi" t]> (objs w1).
Proof.
  destruct (acquire "csi" (free_cluster [])) as [r w'] eqn:E.
  assert (Hr : r = None) by (vm_compute in E; by injection E as <- _). subst r.
  destruct (AcquireClusterLock_exclusive (mret None) "ci-1" (fun _ => "root") 42 (mret 0) (fun _ => "1970-01-01T00:00:00Z")
    (fun _ => Some 0) 0 "csi" (free_cluster []) w' E) as (t & w1 & H1 & H2).
  exists t, w1, w'. split; [exact H1|]. split; [reflexivity|exact H2].
Defined.

(** A suite gives back a lock that is not its own. *)
Example release_of_another :
  let '(r1, w1) := acquire "csi" (free_cluster []) in
  let '(r2, w2) := acquire "replication" w1 in
  let '(r3, w3) := release w2 in
  let '(r4, w4) := acquire "replication" w3 in
  r1 = None /\ is_Some r2 /\ r3 = None /\ r4 = None.
Proof. vm_compute. repeat split. by eexists. Qed.

(** The held lock of a suite whose name reads like a network error is waited for. *)
Example held_lock_retried :
  let '(_, w1) := acquire "i/o timeout" (free_cluster []) in
  let '(r2, w2) := acquire "csi" w1 in
  ticks w1 = 50%nat /\ ticks w2 = 40%nat /\ is_Some r2.
Proof. vm_compute. repeat split. by eexists. Qed.
