(* ===== verification/Timeout.v ===== *)
(** Waits with a timer of their own beside the context: a [select] between [ctx.Done()], a
    timer for the whole wait and a ticker, as in [ssh.NewWithRetry] and in the waits of the
    commander client. *)
From S2P Require Import Prelude Errors Retry Kube.

Local Open Scope Z_scope.
Local Open Scope go_scope.

(** The case the [select] takes. *)
Inductive woken := WokenDone | WokenDeadline | WokenTick.

(** [wake interval] is one [select] of the wait that runs; the timer of the wait was started
    with it. *)
Class Timeout (W : Type) `{Ctx W} := {
  wake : Z -> M W woken
}.

(** A done context has an error; the timer of the wait fires after finitely many ticks:
    [budget] bounds the ticks that are still let through. *)
Class TimeoutLaws (W : Type) `{Timeout W} := {
  wake_done z w w' : wake z w = (WokenDone, w') -> exists e w'', ctxErr w' = (Some e, w'');
  budget : W -> nat;
  budget_ctx w : (budget (ctxErr w).2 <= budget w)%nat;
  budget_wake z w : (budget (wake z w).2 <= budget w)%nat;
  budget_tick z w w' : wake z w = (WokenTick, w') -> (budget w' < budget w)%nat
}.

Section Wait.
Context {W : Type} `{CX : Ctx W} `{TM : !Timeout W} {St A : Type}.
Context (check : St -> M W (St * option A)) (onDone : option error -> A) (onDeadline : St -> A).

(** A check after every tick; [None] is returned only when the fuel runs out. *)
Fixpoint wait_ticks (fuel : nat) (interval : Z) (s : St) : M W (option A) :=
  match fuel with
  | O => mret None
  | S fuel =>
      let! ev := wake interval in
      match ev with
      | WokenDone => let! ce := ctxErr in mret (Some (onDone ce))
      | WokenDeadline => mret (Some (onDeadline s))
      | WokenTick =>
          let! '(s, r) := check s in
          match r with
          | Some a => mret (Some a)
          | None => wait_ticks fuel interval s
          end
      end
  end.

(** The same with a check at once. *)
Definition wait_now (fuel : nat) (interval : Z) (s : St) : M W (option A) :=
  let! '(s, r) := check s in
  match r with
  | Some a => mret (Some a)
  | None => wait_ticks fuel interval s
  end.

(** How a wait ended: a check decided it, the context was done, or the timer fired. *)
Inductive concluded (J : St -> W -> Prop) (a : A) (w' : W) : Prop :=
| con_check s w s' : J s w -> check s w = ((s', Some a), w') -> concluded J a w'
| con_done s ce z w0 w : J s w -> wake z w0 = (WokenDone, w) -> ctxErr w = (ce, w') -> a = onDone ce -> concluded J a w'
| con_deadline s : J s w' -> a = onDeadline s -> concluded J a w'.

Lemma wait_ticks_concluded (J : St -> W -> Prop) fuel interval s w a w' :
  (forall s w s' w', J s w -> check s w = ((s', None), w') -> J s' w') ->
  (forall s z w ev w', J s w -> wake z w = (ev, w') -> J s w') ->
  J s w -> wait_ticks fuel interval s w = (Some a, w') -> concluded J a w'.
Proof.
  intros Hc Hk. revert s w. induction fuel as [|fuel IH]; intros s w HJ H; [done|].
  cbn [wait_ticks] in H. mstep H as [ev w1] E1. pose proof (Hk _ _ _ _ _ HJ E1) as HJ1.
  destruct ev.
  - mstep H as [ce w2] E2. injection H as <- <-. by eapply con_done.
  - injection H as <- <-. by eapply con_deadline.
  - mstep H as [[s1 r] w2] E2. destruct r as [b|].
    + injection H as <- <-. by eapply con_check.
    + eapply IH; [by eapply Hc|done].
Qed.

Lemma wait_now_concluded (J : St -> W -> Prop) fuel interval s w a w' :
  (forall s w s' w', J s w -> check s w = ((s', None), w') -> J s' w') ->
  (forall s z w ev w', J s w -> wake z w = (ev, w') -> J s w') ->
  J s w -> wait_now fuel interval s w = (Some a, w') -> concluded J a w'.
Proof.
  intros Hc Hk HJ H. unfold wait_now in H. mstep H as [[s1 r] w1] E1. destruct r as [b|].
  - injection H as <- <-. by eapply con_check.
  - eapply wait_ticks_concluded; [done..|by eapply Hc|done].
Qed.

Context {TL : TimeoutLaws W}.

(** Fuel above the budget is enough. *)
Lemma wait_ticks_total fuel interval s w :
  (forall s w, (budget (check s w).2 <= budget w)%nat) ->
  (budget w < fuel)%nat -> exists a w', wait_ticks fuel interval s w = (Some a, w').
Proof.
  intros Hc. revert s w. induction fuel as [|fuel IH]; intros s w Hl; [lia|].
  cbn [wait_ticks]. unfold mbind, M_bind, mret, M_ret.
  destruct (wake interval w) as [ev w1] eqn:E1. destruct ev.
  - destruct (ctxErr w1). eauto.
  - eauto.
  - apply budget_tick in E1. pose proof (Hc s w1) as H1.
    destruct (check s w1) as [[s1 r] w2]. cbn in H1. destruct r; [eauto|]. apply IH. lia.
Qed.

Lemma wait_now_total fuel interval s w :
  (forall s w, (budget (check s w).2 <= budget w)%nat) ->
  (budget w < fuel)%nat -> exists a w', wait_now fuel interval s w = (Some a, w').
Proof.
  intros Hc Hl. unfold wait_now, mbind, M_bind, mret, M_ret. pose proof (Hc s w) as H1.
  destruct (check s w) as [[s1 r] w1]. cbn in H1. destruct r; [eauto|].
  apply wait_ticks_total; [done|lia].
Qed.
End Wait.
