(* ===== verification/Lease.v ===== *)
(** Package [internal/kubernetes/clusterlock]: the cluster lock as a
    coordination.k8s.io/v1 Lease ([src/internal/kubernetes/clusterlock/lease.go]).

    The handlers are programs ([prog]) whose constructors are the calls they make
    on the API server and the clock, so that one definition serves both to run a
    handler alone and to interleave the handlers of many processes call by call.
    [LeaseAPI] is the API server, a parameter: its laws are the documented
    optimistic concurrency of Kubernetes (resourceVersion on update, UID
    precondition on delete), with failures that may or may not have taken effect. *)
From S2P Require Import Prelude Errors Retry.

Local Open Scope Z_scope.
Local Open Scope go_scope.

Definition Namespace : string := "default".
Definition LeaseName : string := "e2e-cluster-lock".
Definition DefaultLeaseDuration : Z := 5 * Minute.
Definition annotationTestName : string := "storage-e2e.deckhouse.io/test-name".
Definition annotationLockedBy : string := "storage-e2e.deckhouse.io/locked-by".
Definition annotationHostname : string := "storage-e2e.deckhouse.io/hostname".
Definition annotationPID : string := "storage-e2e.deckhouse.io/pid".

(** [coordinationv1.Lease]: the fields the lock reads or writes. Times are
    nanoseconds; a nil [Annotations] map is [None]. *)
Record Lease := mkLease {
  UID : Z;
  ResourceVersion : Z;
  Labels : gmap string string;
  Annotations : option (gmap string string);
  HolderIdentity : option string;
  LeaseDurationSeconds : option Z;
  AcquireTime : option Z;
  RenewTime : option Z;
  LeaseTransitions : option Z
}.

(** int32 conversion. *)
Definition wrap32 (z : Z) : Z := (z + 2 ^ 31) mod 2 ^ 32 - 2 ^ 31.

(** What the process reads from its environment: [USER], [USERNAME],
    [os.Hostname()], [os.Getpid()]. *)
Record Env := mkEnv { env_USER : string; env_USERNAME : string; hostname : string; pid : Z }.

Definition currentUser (env : Env) : string :=
  let user := env_USER env in
  let user := if String.eqb user "" then env_USERNAME env else user in
  if String.eqb user "" then "unknown" else user.

Definition holderIdentity (env : Env) : string :=
  currentUser env +:+ "@" +:+ hostname env +:+ "/" +:+ pretty (pid env).

Definition holderOf (lease : Lease) : string :=
  match HolderIdentity lease with None => "" | Some h => h end.

Definition applyLeaseSpec (env : Env) (lease : Lease) (holder testName : string)
    (duration now : Z) : Lease :=
  let durationSeconds := wrap32 (Z.quot duration Second) in
  let ann := match Annotations lease with None => ∅ | Some m => m end in
  let ann := <[annotationPID := pretty (pid env)]>
            (<[annotationHostname := hostname env]>
            (<[annotationLockedBy := currentUser env]>
            (<[annotationTestName := testName]> ann))) in
  mkLease (UID lease) (ResourceVersion lease) (Labels lease) (Some ann)
    (Some holder) (Some durationSeconds) (Some now) (Some now) (LeaseTransitions lease).

Definition newLease (env : Env) (holder testName : string) (duration now : Z) : Lease :=
  let labels := <["app.kubernetes.io/managed-by" := "storage-e2e"]>
               (<["app.kubernetes.io/component" := "cluster-lock"]> ∅) in
  applyLeaseSpec env (mkLease 0 0 labels None None None None None None)
    holder testName duration now.

Definition leaseExpired (lease : Lease) (now fallbackDuration : Z) : bool :=
  let renew := match RenewTime lease with None => AcquireTime lease | r => r end in
  match renew with
  | None => true
  | Some renew =>
      let duration := match LeaseDurationSeconds lease with
                      | Some s => s * Second
                      | None => fallbackDuration
                      end in
      renew + duration <? now
  end.

(** ** Programs over the API server *)
Inductive prog (A : Type) : Type :=
| Ret (a : A)
| Now (k : Z -> prog A)
| GetLease (k : result Lease -> prog A)
| CreateLease (l : Lease) (k : option error -> prog A)
| UpdateLease (l : Lease) (k : option error -> prog A)
| DeleteLease (uid : Z) (k : option error -> prog A)
| CtxErr (k : option error -> prog A)
| After (wait : Z) (k : bool -> prog A).
Arguments Ret {A} a.
Arguments Now {A} k.
Arguments GetLease {A} k.
Arguments CreateLease {A} l k.
Arguments UpdateLease {A} l k.
Arguments DeleteLease {A} uid k.
Arguments CtxErr {A} k.
Arguments After {A} wait k.

Fixpoint prog_bind {A B} (p : prog A) (f : A -> prog B) : prog B :=
  match p with
  | Ret a => f a
  | Now k => Now (fun x => prog_bind (k x) f)
  | GetLease k => GetLease (fun x => prog_bind (k x) f)
  | CreateLease l k => CreateLease l (fun x => prog_bind (k x) f)
  | UpdateLease l k => UpdateLease l (fun x => prog_bind (k x) f)
  | DeleteLease u k => DeleteLease u (fun x => prog_bind (k x) f)
  | CtxErr k => CtxErr (fun x => prog_bind (k x) f)
  | After d k => After d (fun x => prog_bind (k x) f)
  end.

#[export] Instance prog_mret : MRet prog := fun A a => Ret a.
#[export] Instance prog_mbind : MBind prog := fun A B f p => prog_bind p f.

(** The handle of a held lock; [released] is what [sync.Once] remembers. *)
Record LeaseLock := mkLock {
  holder : string;
  duration : Z;
  released : option (option error)
}.

Section Handlers.
Context `{AE : ApiErrors}.
(** [time.Time.Format(time.RFC3339)] in the local time zone of the host. *)
Context (formatRFC3339 : Z -> string).

Definition annotation (lease : Lease) (key : string) : string :=
  match Annotations lease with
  | None => ""
  | Some m => default "" (m !! key)
  end.

Definition leaseHeldError (lease : Lease) : error :=
  let renewedAt := match RenewTime lease with None => "" | Some t => formatRFC3339 t end in
  Errorf ("cluster is already locked (lease " +:+ Namespace +:+ "/" +:+ LeaseName +:+
          "): holder=" +:+ holderOf lease +:+
          ", test=" +:+ annotation lease annotationTestName +:+
          ", locked_by=" +:+ annotation lease annotationLockedBy +:+
          ", hostname=" +:+ annotation lease annotationHostname +:+
          ", pid=" +:+ annotation lease annotationPID +:+
          ", renewed_at=" +:+ renewedAt).

Definition lockedError : prog error :=
  let! got := GetLease Ret in
  match got with
  | Err e => mret (ErrorfW
      "cluster is already locked by another test (could not retrieve lease details: " e ")")
  | Ok lease => mret (leaseHeldError lease)
  end.

Definition tryAcquireLease (env : Env) (holder testName : string) (duration : Z)
    : prog (option error) :=
  let! now := Now Ret in
  let! got := GetLease Ret in
  match got with
  | Err err =>
      if IsNotFound (Some err) then
        let! createErr := CreateLease (newLease env holder testName duration now) Ret in
        if IsAlreadyExists createErr then let! e := lockedError in mret (Some e)
        else match createErr with
             | Some e => mret (Some (ErrorfW "failed to create cluster lease lock: " e ""))
             | None => mret None
             end
      else mret (Some (ErrorfW "failed to check for existing cluster lease lock: " err ""))
  | Ok lease =>
      if negb (leaseExpired lease now duration) then mret (Some (leaseHeldError lease))
      else
        let transitions := match LeaseTransitions lease with
                           | None => 1
                           | Some t => wrap32 (t + 1)
                           end in
        let u := applyLeaseSpec env lease holder testName duration now in
        let updated := mkLease (UID u) (ResourceVersion u) (Labels u) (Annotations u)
          (HolderIdentity u) (LeaseDurationSeconds u) (AcquireTime u) (RenewTime u)
          (Some transitions) in
        let! err := UpdateLease updated Ret in
        match err with
        | None => mret None
        | Some e =>
            if IsConflict err then let! e := lockedError in mret (Some e)
            else mret (Some (ErrorfW "failed to take over expired cluster lease lock: " e ""))
        end
  end.

Definition acquireLease (env : Env) (testName : string) (duration : Z)
    : prog (result LeaseLock) :=
  let holder := holderIdentity env in
  let! err := DoVoid (CtxErr Ret) (fun d => After d Ret) DefaultConfig
                (tryAcquireLease env holder testName duration) in
  match err with
  | Some e => mret (Err e)
  | None => mret (Ok (mkLock holder duration None))
  end.

(** [clientset] is the outcome of [NewClientsetWithRetry]. *)
Definition AcquireLease (clientset : result unit) (env : Env) (testName : string)
    : prog (result LeaseLock) :=
  match clientset with
  | Err e => mret (Err (ErrorfW "failed to create kubernetes clientset: " e ""))
  | Ok _ => acquireLease env testName DefaultLeaseDuration
  end.

(** One tick of the renewal loop. *)
Definition renew (l : LeaseLock) : prog unit :=
  let! got := GetLease Ret in
  match got with
  | Err _ => mret tt
  | Ok lease =>
      if negb (String.eqb (holderOf lease) (holder l)) then mret tt
      else
        let! now := Now Ret in
        let updated := mkLease (UID lease) (ResourceVersion lease) (Labels lease)
          (Annotations lease) (HolderIdentity lease) (LeaseDurationSeconds lease)
          (AcquireTime lease) (Some now) (LeaseTransitions lease) in
        let! _ := UpdateLease updated Ret in mret tt
  end.

(** The function [Release] retries, and [Release] itself. *)
Definition releaseOnce (l : LeaseLock) : prog (option error) :=
  let! got := GetLease Ret in
  match got with
  | Err err =>
      if IsNotFound (Some err) then mret None
      else mret (Some (ErrorfW "failed to check cluster lease lock before release: " err ""))
  | Ok lease =>
      if negb (String.eqb (holderOf lease) (holder l)) then mret None
      else
        let! err := DeleteLease (UID lease) Ret in
        if IsNotFound err || IsConflict err then mret None
        else match err with
             | Some e => mret (Some (ErrorfW "failed to release cluster lease lock: " e ""))
             | None => mret None
             end
  end.

Definition Release (l : LeaseLock) : prog (option error * LeaseLock) :=
  match released l with
  | Some err => mret (err, l)
  | None =>
      let! err := DoVoid (CtxErr Ret) (fun d => After d Ret) DefaultConfig (releaseOnce l) in
      mret (err, mkLock (holder l) (duration l) (Some err))
  end.

End Handlers.
