(* ===== verification/LeaseSafety.v ===== *)
(** Mutual exclusion of the lease lock of [Lease], under every interleaving of the
    API calls of any number of processes that acquire, renew and release it. *)
From S2P Require Import Prelude Errors Retry Lease.

Local Open Scope Z_scope.
Local Open Scope go_scope.

(** ** The API server *)
Class LeaseAPI (Srv : Type) := {
  stored : Srv -> option Lease;
  lastRV : Srv -> Z;
  lastUID : Srv -> Z;
  clock : Srv -> Z;
  api_get : Srv -> result Lease * Srv;
  api_create : Lease -> Srv -> option error * Srv;
  api_update : Lease -> Srv -> option error * Srv;
  api_delete : Z -> Srv -> option error * Srv
}.

(** The object with the identity and version the server gives it. *)
Definition stamp (uid rv : Z) (l : Lease) : Lease :=
  mkLease uid rv (Labels l) (Annotations l) (HolderIdentity l) (LeaseDurationSeconds l)
    (AcquireTime l) (RenewTime l) (LeaseTransitions l).

(** A transition that leaves the lock alone; time may pass. *)
Definition frame {Srv} `{LeaseAPI Srv} (s s' : Srv) : Prop :=
  stored s' = stored s /\ lastRV s' = lastRV s /\ lastUID s' = lastUID s /\ clock s <= clock s'.

(** Documented behaviour of the API server. A failed write may have been
    applied (a response lost to a timeout); a refused one has not. *)
Class LeaseAPILaws (Srv : Type) `{LeaseAPI Srv} `{ApiErrors} : Prop := {
  stored_rv s l : stored s = Some l -> ResourceVersion l <= lastRV s;
  stored_uid s l : stored s = Some l -> UID l <= lastUID s;
  get_frame s r s' : api_get s = (r, s') -> frame s s';
  get_ok s l s' : api_get s = (Ok l, s') -> stored s = Some l;
  create_law l s e s' : api_create l s = (e, s') ->
    (frame s s' /\ e <> None) \/
    (stored s = None /\ clock s <= clock s' /\
     stored s' = Some (stamp (lastUID s') (lastRV s') l) /\
     lastRV s < lastRV s' /\ lastUID s < lastUID s');
  update_law l s e s' : api_update l s = (e, s') ->
    (frame s s' /\ e <> None) \/
    (exists cur, stored s = Some cur /\ ResourceVersion cur = ResourceVersion l /\
       stored s' = Some (stamp (UID cur) (lastRV s') l) /\
       lastRV s < lastRV s' /\ lastUID s' = lastUID s /\ clock s <= clock s');
  delete_law uid s e s' : api_delete uid s = (e, s') ->
    (frame s s' /\ e <> None) \/
    (exists cur, stored s = Some cur /\ UID cur = uid /\ stored s' = None /\
       lastRV s <= lastRV s' /\ lastUID s' = lastUID s /\ clock s <= clock s')
}.

(** ** Expiry *)
Lemma leaseExpired_mono l t t' d :
  t <= t' -> leaseExpired l t d = true -> leaseExpired l t' d = true.
Proof.
  unfold leaseExpired. destruct (match RenewTime l with None => _ | _ => _ end); [|done].
  rw !Z.ltb_lt. lia.
Qed.

Lemma leaseExpired_stamp uid rv l t d : leaseExpired (stamp uid rv l) t d = leaseExpired l t d.
Proof. done. Qed.

(** The time a lease counts from: never in the future of the clock. *)
Definition renewed_by (l : Lease) (t : Z) : Prop :=
  forall r, RenewTime l = Some r \/ (RenewTime l = None /\ AcquireTime l = Some r) -> r <= t.

(** [l'] is at least as far from expiry as [l]. *)
Definition outlives (d : Z) (l l' : Lease) : Prop :=
  forall t, leaseExpired l' t d = true -> leaseExpired l t d = true.

Section Safety.
Context {Srv : Type} `{API : LeaseAPI Srv} `{AE : ApiErrors} `{!LeaseAPILaws Srv} `{!ApiErrorsLaws}.
Context (formatRFC3339 : Z -> string).
(** The lease duration all processes run with. *)
Context (dur : Z).

Definition timely (s : Srv) : Prop := forall l, stored s = Some l -> renewed_by l (clock s).

(** ** What a process may rely on, and what its steps guarantee

    Between two calls of a process the others may change the lease, but a
    resourceVersion names one version, a UID one object, and the holder of an
    object changes only once the object has expired. *)
Definition rely (s s' : Srv) : Prop :=
  clock s <= clock s' /\ lastRV s <= lastRV s' /\ lastUID s <= lastUID s' /\
  (timely s -> timely s') /\
  forall l', stored s' = Some l' ->
    (stored s = Some l' \/ lastRV s < ResourceVersion l') /\
    ((exists l, stored s = Some l /\ UID l' = UID l /\
        (leaseExpired l (clock s') dur = true \/ (holderOf l' = holderOf l /\ outlives dur l l')))
     \/ lastUID s < UID l').

Lemma rely_trans s1 s2 s3 : rely s1 s2 -> rely s2 s3 -> rely s1 s3.
Proof.
  intros (Hc & Hr & Hu & Ht & Hl) (Hc' & Hr' & Hu' & Ht' & Hl').
  split; [lia|]. split; [lia|]. split; [lia|]. split; [auto|].
  intros l3 H3. destruct (Hl' _ H3) as [Hv Hid]. split.
  - destruct Hv as [H2|Hv]; [apply (Hl _ H2)|right; lia].
  - destruct Hid as [(l2 & H2 & Hu2 & Hk2)|Hid]; [|right; lia].
    destruct (proj2 (Hl _ H2)) as [(l1 & H1 & Hu1 & Hk1)|Hid]; [|right; lia].
    left. exists l1. split; [done|]. split; [congruence|].
    destruct Hk1 as [He|[Hh1 Ho1]]; [left; by eapply leaseExpired_mono|].
    destruct Hk2 as [He|[Hh2 Ho2]]; [left; by apply Ho1|right].
    split; [congruence|]. intros t He. by apply Ho1, Ho2.
Qed.

Lemma renewed_by_mono l t t' : renewed_by l t -> t <= t' -> renewed_by l t'.
Proof. intros Hl Ht r Hr. specialize (Hl r Hr). lia. Qed.

Lemma frame_rely s s' : frame s s' -> rely s s'.
Proof.
  intros (Hs & Hr & Hu & Hc). split; [done|]. split; [lia|]. split; [lia|]. split.
  - intros Ht l Hl. rw Hs in Hl. eapply renewed_by_mono; [by apply Ht|done].
  - intros l Hl. rw Hs in Hl. split; [by left|]. left. exists l.
    split; [done|]. split; [done|]. right. split; [done|]. by intros t.
Qed.

Lemma rely_refl s : rely s s.
Proof. apply frame_rely. by repeat split. Qed.

(** The legal transitions of the lock made by a process with holder identity [h]. *)
Inductive lease_step (h : string) (s s' : Srv) : Prop :=
| ls_frame : frame s s' -> lease_step h s s'
| ls_create l :
    stored s = None -> stored s' = Some l -> holderOf l = h -> lease_step h s s'
| ls_takeover cur l :
    stored s = Some cur -> leaseExpired cur (clock s) dur = true ->
    stored s' = Some l -> UID l = UID cur -> holderOf l = h -> lease_step h s s'
| ls_renew cur l :
    stored s = Some cur -> holderOf cur = h ->
    stored s' = Some l -> UID l = UID cur -> holderOf l = h -> outlives dur cur l ->
    lease_step h s s'
| ls_release cur :
    stored s = Some cur -> holderOf cur = h -> stored s' = None -> lease_step h s s'
| ls_late_release own cur :
    holderOf own = h -> leaseExpired own (clock s) dur = true ->
    stored s = Some cur -> UID cur = UID own -> stored s' = None -> lease_step h s s'.

Definition guarantee (h : string) (s s' : Srv) : Prop := lease_step h s s' /\ rely s s'.

(** [safe h p s]: from [s], with any interference allowed by [rely] before each
    call, every call of [p] keeps the guarantee of holder [h]. *)
Fixpoint safe {A} (h : string) (p : prog A) (s : Srv) : Prop :=
  match p with
  | Ret _ => True
  | Now k => forall s', rely s s' -> timely s' -> safe h (k (clock s')) s'
  | GetLease k => forall s' r s'', rely s s' -> timely s' -> api_get s' = (r, s'') ->
      safe h (k r) s''
  | CreateLease l k => forall s' e s'', rely s s' -> timely s' -> api_create l s' = (e, s'') ->
      guarantee h s' s'' /\ safe h (k e) s''
  | UpdateLease l k => forall s' e s'', rely s s' -> timely s' -> api_update l s' = (e, s'') ->
      guarantee h s' s'' /\ safe h (k e) s''
  | DeleteLease u k => forall s' e s'', rely s s' -> timely s' -> api_delete u s' = (e, s'') ->
      guarantee h s' s'' /\ safe h (k e) s''
  | CtxErr k => forall s' e, rely s s' -> safe h (k e) s'
  | After _ k => forall s' b, rely s s' -> safe h (k b) s'
  end.

Lemma safe_rely {A} h (p : prog A) s s' : safe h p s -> rely s s' -> safe h p s'.
Proof. destruct p; simpl; eauto using rely_trans. Qed.

Lemma safe_bind {A B} h (p : prog A) (f : A -> prog B) s :
  safe h p s -> (forall a s', rely s s' -> safe h (f a) s') -> safe h (prog_bind p f) s.
Proof.
  revert s. induction p as [a|k IH|k IH|l k IH|l k IH|u k IH|k IH|d k IH];
    intros s Hp Hf; simpl in *.
  - apply Hf, rely_refl.
  - intros s' Hr Ht. apply IH; [by apply Hp|]. eauto using rely_trans.
  - intros s' r s'' Hr Ht Hg. apply IH; [by eapply Hp|].
    intros a s3 H3. apply Hf. eapply rely_trans; [exact Hr|].
    eapply rely_trans; [|exact H3]. by eapply frame_rely, get_frame.
  - intros s' e s'' Hr Ht Hc. destruct (Hp _ _ _ Hr Ht Hc) as [Hg Hk]. split; [done|].
    apply IH; [done|]. intros a s3 H3. apply Hf. destruct Hg. eauto using rely_trans.
  - intros s' e s'' Hr Ht Hc. destruct (Hp _ _ _ Hr Ht Hc) as [Hg Hk]. split; [done|].
    apply IH; [done|]. intros a s3 H3. apply Hf. destruct Hg. eauto using rely_trans.
  - intros s' e s'' Hr Ht Hc. destruct (Hp _ _ _ Hr Ht Hc) as [Hg Hk]. split; [done|].
    apply IH; [done|]. intros a s3 H3. apply Hf. destruct Hg. eauto using rely_trans.
  - intros s' e Hr. apply IH; [by apply Hp|]. eauto using rely_trans.
  - intros s' b Hr. apply IH; [by apply Hp|]. eauto using rely_trans.
Qed.

(** A retried operation is safe when one attempt is. *)
Lemma safe_do_loop h (fn : prog (unit * option error)) left cfg wait r e s :
  (forall s, safe h fn s) ->
  safe h (do_loop (CtxErr Ret) (fun d => After d Ret) fn left cfg wait r e) s.
Proof.
  intros Hfn. revert wait r e s. induction left as [|left IH]; intros wait r e s; [done|].
  cbn [do_loop mbind prog_mbind prog_bind]. intros s1 ce H1.
  destruct (negb (is_nil ce)); [done|]. apply safe_bind; [apply Hfn|].
  intros [x err] s2 H2. destruct (is_nil err); [done|].
  destruct (negb (IsRetryable err)); [done|].
  destruct (0 <? Z.of_nat left); [|apply IH].
  intros s3 b H3. destruct b; [apply IH|]. by intros s4 ce' H4.
Qed.

Lemma safe_DoVoid h cfg (fn : prog (option error)) s :
  (forall s, safe h fn s) ->
  safe h (DoVoid (CtxErr Ret) (fun d => After d Ret) cfg fn) s.
Proof.
  intros Hfn. unfold DoVoid. apply safe_bind; [|by intros []].
  apply safe_do_loop. intros s'. by apply safe_bind.
Qed.
(** ** The guarantee of each call *)

(** A resourceVersion read before names the same object now. *)
Lemma same_version s s' l cur :
  stored s = Some l -> rely s s' -> stored s' = Some cur ->
  ResourceVersion cur = ResourceVersion l -> cur = l.
Proof.
  intros Hl (_ & _ & _ & _ & Hr) Hcur Hv.
  pose proof (stored_rv _ _ Hl). destruct (Hr _ Hcur) as [[Heq|Hlt] _]; [congruence|lia].
Qed.

Lemma stored_frame s s' l : frame s s' -> stored s' = Some l -> stored s = Some l.
Proof. by intros (-> & _). Qed.

Lemma create_guarantee h l s e s' :
  api_create l s = (e, s') -> renewed_by l (clock s) -> holderOf l = h -> guarantee h s s'.
Proof.
  intros Hc Hl Hh.
  destruct (create_law _ _ _ _ Hc) as [[Hf _]|(H0 & Hcl & H1 & Hv & Hu)].
  { split; [by apply ls_frame|by apply frame_rely]. }
  split; [eapply ls_create; [done|exact H1|done]|].
  split; [done|]. split; [lia|]. split; [lia|]. split.
  - intros _ l'. rw H1. intros [= <-]. eapply (renewed_by_mono l); done.
  - intros l'. rw H1. intros [= <-]. split; right; simpl; lia.
Qed.

Lemma update_guarantee h l s e s' :
  api_update l s = (e, s') -> renewed_by l (clock s) -> holderOf l = h ->
  (forall cur, stored s = Some cur -> ResourceVersion cur = ResourceVersion l ->
     leaseExpired cur (clock s) dur = true \/ (holderOf cur = h /\ outlives dur cur l)) ->
  guarantee h s s'.
Proof.
  intros Hu Hl Hh Hcur.
  destruct (update_law _ _ _ _ Hu) as [[Hf _]|(cur & H0 & Hv & H1 & Hlt & Huid & Hcl)].
  { split; [by apply ls_frame|by apply frame_rely]. }
  specialize (Hcur _ H0 Hv). split.
  - destruct Hcur as [He|[Hc Ho]];
      [eapply ls_takeover; [exact H0|done|exact H1|done|done]|].
    eapply ls_renew; [exact H0|done|exact H1|done|done|exact Ho].
  - split; [done|]. split; [lia|]. split; [lia|]. split.
    + intros _ l'. rw H1. intros [= <-]. eapply (renewed_by_mono l); done.
    + intros l'. rw H1. intros [= <-]. split; [right; simpl; lia|]. left. exists cur.
      split; [done|]. split; [done|].
      destruct Hcur as [He|[Hc Ho]]; [left; by eapply leaseExpired_mono|right].
      split; [by rw Hc|]. exact Ho.
Qed.

Lemma delete_guarantee h own s0 s e s' :
  stored s0 = Some own -> holderOf own = h -> rely s0 s ->
  api_delete (UID own) s = (e, s') -> guarantee h s s'.
Proof.
  intros Hown Hh (_ & _ & _ & _ & Hr) Hd.
  destruct (delete_law _ _ _ _ Hd) as [[Hf _]|(cur & H0 & Hu & H1 & Hv & Huid & Hcl)].
  { split; [by apply ls_frame|by apply frame_rely]. }
  split.
  - pose proof (stored_uid _ _ Hown).
    destruct (proj2 (Hr _ H0)) as [(l & Hl & _ & Hk)|Hlt]; [|lia].
    assert (l = own) as -> by congruence.
    destruct Hk as [He|[Hk _]]; [by eapply ls_late_release|].
    eapply ls_release; [done|congruence|done].
  - split; [done|]. split; [done|]. split; [lia|].
    by split; [intros _ l'|intros l']; rw H1.
Qed.

(** ** The guarantee of each handler *)

Ltac prog_simpl := cbn [prog_bind mbind prog_mbind safe mret prog_mret negb].

Lemma safe_lockedError h s : safe h (lockedError formatRFC3339) s.
Proof. intros s1 r s2 H1 Ht Hg. by destruct r. Qed.

Lemma safe_locked_bind h s :
  safe h (let! e := lockedError formatRFC3339 in mret (Some e)) s.
Proof. apply safe_bind; [apply safe_lockedError|done]. Qed.

Lemma safe_tryAcquireLease h env testName s :
  safe h (tryAcquireLease formatRFC3339 env h testName dur) s.
Proof.
  intros s1 H1 Ht1 s2 r s3 H2 Ht2 Hg. pose proof (get_frame _ _ _ Hg) as Hf.
  assert (Hnow : forall s4, rely s3 s4 -> clock s1 <= clock s4).
  { intros s4 (? & _). destruct H2 as (? & _), Hf as (_ & _ & _ & ?). lia. }
  destruct r as [lease|err]; prog_simpl.
  - destruct (leaseExpired lease (clock s1) dur) eqn:He; prog_simpl; [|done].
    intros s4 e s5 H4 Ht4 Hu. split.
    + eapply update_guarantee; [exact Hu| |done|].
      * intros r [[= <-]|[[=] _]]. by apply Hnow.
      * intros cur Hcur Hv. left. apply get_ok in Hg.
        assert (cur = lease) as ->.
        { eapply (same_version s2); [done| |done|done].
          eapply rely_trans; [by apply frame_rely|done]. }
        eapply leaseExpired_mono; [by apply Hnow|done].
    + destruct e as [e|]; [|done].
      destruct (IsConflict (Some e)); [apply safe_locked_bind|done].
  - destruct (IsNotFound (Some err)); prog_simpl; [|done].
    intros s4 e s5 H4 Ht4 Hc. split.
    + eapply create_guarantee; [exact Hc| |done].
      intros r [[= <-]|[[=] _]]. by apply Hnow.
    + destruct (IsAlreadyExists e); [apply safe_locked_bind|]. by destruct e.
Qed.

Lemma safe_acquireLease env testName s :
  safe (holderIdentity env) (acquireLease formatRFC3339 env testName dur) s.
Proof.
  apply safe_bind; [apply safe_DoVoid, safe_tryAcquireLease|]. by intros [e|].
Qed.

(** Moving the renew time forward takes a lease further from expiry. *)
Lemma outlives_renew lease now :
  renewed_by lease now ->
  outlives dur lease (mkLease (UID lease) (ResourceVersion lease) (Labels lease)
    (Annotations lease) (HolderIdentity lease) (LeaseDurationSeconds lease)
    (AcquireTime lease) (Some now) (LeaseTransitions lease)).
Proof.
  intros Hb t. unfold leaseExpired; cbn [RenewTime AcquireTime LeaseDurationSeconds].
  unfold renewed_by in Hb.
  destruct (RenewTime lease) as [r|]; [|destruct (AcquireTime lease) as [r|]; [|done]];
    (assert (r <= now) by (apply Hb; auto)); rw !Z.ltb_lt; lia.
Qed.

Lemma safe_renew l s : safe (holder l) (renew l) s.
Proof.
  intros s1 r s2 H1 Ht1 Hg. destruct r as [lease|err]; prog_simpl; [|done].
  destruct (String.eqb (holderOf lease) (holder l)) eqn:Hh; prog_simpl; [|done].
  apply String.eqb_eq in Hh. pose proof (get_frame _ _ _ Hg) as Hf. apply get_ok in Hg.
  intros s3 H3 Ht3 s4 e s5 H4 Ht4 Hu. split; [|done].
  assert (Hb : renewed_by lease (clock s3)).
  { eapply renewed_by_mono; [by apply Ht1|]. destruct H3 as (? & _), Hf as (_ & _ & _ & ?). lia. }
  eapply update_guarantee; [exact Hu| |exact Hh|].
  - intros r [[= <-]|[[=] _]]. by destruct H4.
  - intros cur Hcur Hv. right.
    assert (cur = lease) as ->.
    { eapply (same_version s1); [done| |done|done].
      eapply rely_trans; [by apply frame_rely|]. by eapply rely_trans. }
    split; [done|]. by apply outlives_renew.
Qed.

Lemma safe_releaseOnce l s : safe (holder l) (releaseOnce l) s.
Proof.
  intros s1 r s2 H1 Ht1 Hg. destruct r as [lease|err]; prog_simpl; [|by destruct (IsNotFound (Some err))].
  destruct (String.eqb (holderOf lease) (holder l)) eqn:Hh; prog_simpl; [|done].
  apply String.eqb_eq in Hh. pose proof (get_frame _ _ _ Hg) as Hf. apply get_ok in Hg.
  intros s3 e s4 H3 Ht3 Hd. split.
  - eapply (delete_guarantee _ lease s1); [done|done| |exact Hd].
    eapply rely_trans; [by apply frame_rely|done].
  - destruct (IsNotFound e || IsConflict e); [done|]. by destruct e.
Qed.

Lemma safe_Release l s : safe (holder l) (Release l) s.
Proof.
  unfold Release. destruct (released l); [done|].
  apply safe_bind; [apply safe_DoVoid, safe_releaseOnce|done].
Qed.

(** ** The system of processes *)

Inductive prog_step {A} : prog A -> Srv -> prog A -> Srv -> Prop :=
| ps_now k s : prog_step (Now k) s (k (clock s)) s
| ps_get k s r s' : api_get s = (r, s') -> prog_step (GetLease k) s (k r) s'
| ps_create l k s e s' : api_create l s = (e, s') -> prog_step (CreateLease l k) s (k e) s'
| ps_update l k s e s' : api_update l s = (e, s') -> prog_step (UpdateLease l k) s (k e) s'
| ps_delete u k s e s' : api_delete u s = (e, s') -> prog_step (DeleteLease u k) s (k e) s'
| ps_ctx k s e : prog_step (CtxErr k) s (k e) s
| ps_after d k s b : prog_step (After d k) s (k b) s.

(** A process: acquiring, holding (with a renewal in flight or not), releasing.
    [Release] waits for the renewal goroutine to end before it starts. *)
Inductive proc :=
| PAcquire (env : Env) (p : prog (result LeaseLock))
| PHeld (env : Env) (l : LeaseLock) (renewing : option (prog unit))
| PReleasing (env : Env) (p : prog (option error * LeaseLock))
| PDone (env : Env).

Definition proc_holder (p : proc) : string :=
  match p with
  | PAcquire env _ | PHeld env _ _ | PReleasing env _ | PDone env => holderIdentity env
  end.

Inductive proc_step : proc -> Srv -> proc -> Srv -> Prop :=
| pr_acquire env p s p' s' :
    prog_step p s p' s' -> proc_step (PAcquire env p) s (PAcquire env p') s'
| pr_acquired env l s : proc_step (PAcquire env (Ret (Ok l))) s (PHeld env l None) s
| pr_refused env e s : proc_step (PAcquire env (Ret (Err e))) s (PDone env) s
| pr_tick env l s : proc_step (PHeld env l None) s (PHeld env l (Some (renew l))) s
| pr_renew env l p s p' s' :
    prog_step p s p' s' -> proc_step (PHeld env l (Some p)) s (PHeld env l (Some p')) s'
| pr_renewed env l u s : proc_step (PHeld env l (Some (Ret u))) s (PHeld env l None) s
| pr_close env l s : proc_step (PHeld env l None) s (PReleasing env (Release l)) s
| pr_release env p s p' s' :
    prog_step p s p' s' -> proc_step (PReleasing env p) s (PReleasing env p') s'
| pr_released env r s : proc_step (PReleasing env (Ret r)) s (PDone env) s.

(** The label of a step is the holder identity of the process that makes it. *)
Inductive sys_step : option string -> Srv * list proc -> Srv * list proc -> Prop :=
| sys_time s s' ps : frame s s' -> sys_step None (s, ps) (s', ps)
| sys_start env testName s ps :
    sys_step None (s, ps)
      (s, ps ++ [PAcquire env (acquireLease formatRFC3339 env testName dur)])
| sys_proc i p s p' s' ps :
    ps !! i = Some p -> proc_step p s p' s' ->
    sys_step (Some (proc_holder p)) (s, ps) (s', <[i := p']> ps).

Inductive reachable (s0 : Srv) : Srv * list proc -> Prop :=
| reach_init : reachable s0 (s0, [])
| reach_step lbl c c' : reachable s0 c -> sys_step lbl c c' -> reachable s0 c'.

(** Every value a program can return satisfies [Q]. *)
Fixpoint returns {A} (Q : A -> Prop) (p : prog A) : Prop :=
  match p with
  | Ret a => Q a
  | Now k => forall x, returns Q (k x)
  | GetLease k => forall x, returns Q (k x)
  | CreateLease _ k | UpdateLease _ k | DeleteLease _ k | CtxErr k =>
      forall x, returns Q (k x)
  | After _ k => forall x, returns Q (k x)
  end.

Lemma prog_returns_bind {A B} (Q : B -> Prop) (p : prog A) f :
  (forall a, returns Q (f a)) -> returns Q (prog_bind p f).
Proof. intros Hf. induction p; simpl; auto. Qed.

Definition own_lock (env : Env) (r : result LeaseLock) : Prop :=
  match r with Ok l => holder l = holderIdentity env | Err _ => True end.

Lemma acquireLease_returns env testName :
  returns (own_lock env) (acquireLease formatRFC3339 env testName dur).
Proof. apply prog_returns_bind. by intros [e|]. Qed.

Definition proc_ok (s : Srv) (p : proc) : Prop :=
  match p with
  | PAcquire env p => safe (holderIdentity env) p s /\ returns (own_lock env) p
  | PHeld env l None => holder l = holderIdentity env
  | PHeld env l (Some p) => holder l = holderIdentity env /\ safe (holderIdentity env) p s
  | PReleasing env p => safe (holderIdentity env) p s
  | PDone _ => True
  end.

Definition sys_inv (c : Srv * list proc) : Prop :=
  timely (fst c) /\ Forall (proc_ok (fst c)) (snd c).

Lemma prog_step_returns {A} (Q : A -> Prop) p s p' s' :
  prog_step p s p' s' -> returns Q p -> returns Q p'.
Proof. destruct 1; simpl; auto. Qed.

Lemma prog_step_safe {A} h (p : prog A) s p' s' :
  prog_step p s p' s' -> timely s -> safe h p s -> guarantee h s s' /\ safe h p' s'.
Proof.
  assert (Hid : forall s, guarantee h s s).
  { intros s1. split; [apply ls_frame; by repeat split|apply rely_refl]. }
  pose proof rely_refl. destruct 1 as [| ? ? ? ? Hg| | | | |]; simpl; intros Ht Hs; eauto.
  split; [|by eapply Hs]. apply get_frame in Hg.
  split; [by apply ls_frame|by apply frame_rely].
Qed.

Lemma proc_step_ok p s p' s' :
  proc_step p s p' s' -> timely s -> proc_ok s p ->
  guarantee (proc_holder p) s s' /\ proc_ok s' p'.
Proof.
  assert (Hid : forall h s, guarantee h s s).
  { intros h s1. split; [apply ls_frame; by repeat split|apply rely_refl]. }
  destruct 1 as [? ? ? ? ? Hp| | | |? ? ? ? ? ? Hp| | |? ? ? ? ? Hp|]; simpl; intros Ht Hok.
  - destruct Hok as [Hs Hr]. destruct (prog_step_safe _ _ _ _ _ Hp Ht Hs).
    eauto using prog_step_returns.
  - destruct Hok as [_ Hr]. by split.
  - by split.
  - split; [done|]. split; [done|]. rw -Hok. apply safe_renew.
  - destruct Hok as [Hl Hs]. destruct (prog_step_safe _ _ _ _ _ Hp Ht Hs). by split.
  - destruct Hok. by split.
  - split; [done|]. rw -Hok. apply safe_Release.
  - by apply (prog_step_safe _ _ _ _ _ Hp).
  - by split.
Qed.

Lemma proc_ok_rely s s' p : rely s s' -> proc_ok s p -> proc_ok s' p.
Proof.
  intros Hr. destruct p as [env p|env l [p|]|env p|env]; simpl; try done.
  - intros []. split; [by eapply safe_rely|done].
  - intros []. split; [done|by eapply safe_rely].
  - intros ?. by eapply safe_rely.
Qed.

(** The invariant is inductive, and a step keeps the guarantee of its label. *)
Lemma sys_step_inv lbl c c' :
  sys_step lbl c c' -> sys_inv c ->
  sys_inv c' /\
  match lbl with
  | None => frame (fst c) (fst c')
  | Some h => lease_step h (fst c) (fst c')
  end.
Proof.
  destruct 1 as [s s' ps Hf|env testName s ps|i p s p' s' ps Hi Hp];
    intros [Ht Hps]; simpl in *.
  - pose proof (frame_rely _ _ Hf) as Hr. repeat split; try apply Hf.
    + by apply Hr.
    + eapply Forall_impl; [exact Hps|]. intros. by eapply proc_ok_rely.
  - repeat split; try done. apply Forall_app; split; [done|]. repeat constructor.
    + apply safe_acquireLease.
    + apply acquireLease_returns.
  - pose proof (proj1 (Forall_lookup _ _) Hps _ _ Hi) as Hok.
    destruct (proc_step_ok _ _ _ _ Hp Ht Hok) as [[Hg Hr] Hok'].
    repeat split; [by apply Hr| |done]. apply Forall_insert; [|done].
    eapply Forall_impl; [exact Hps|]. intros. by eapply proc_ok_rely.
Qed.

Lemma reachable_inv s0 c : timely s0 -> reachable s0 c -> sys_inv c.
Proof.
  intros H0. induction 1 as [|lbl c c' Hc IH Hs]; [split; [done|constructor]|].
  by apply (sys_step_inv _ _ _ Hs).
Qed.


End Safety.
