(* ===== verification/LeaseServer.v ===== *)
(** An in-memory API server that satisfies the laws of [LeaseSafety], the handlers
    of [Lease] run against it, and concrete executions of the whole system. *)
From S2P Require Import Prelude Errors Retry Lease LeaseSafety.

Local Open Scope Z_scope.
Local Open Scope go_scope.

(** At most one lease exists; its UID and resourceVersion are the last ones issued. *)
Record mem := mkMem { obj : option Lease; m_rv : Z; m_uid : Z; m_clock : Z }.

Definition m_stored (s : mem) : option Lease := stamp (m_uid s) (m_rv s) <$> obj s.

Definition mem_get (s : mem) : result Lease * mem :=
  match m_stored s with
  | Some l => (Ok l, s)
  | None => (Err (notFoundError LeaseName), s)
  end.

Definition mem_create (l : Lease) (s : mem) : option error * mem :=
  match obj s with
  | Some _ => (Some (alreadyExistsError LeaseName), s)
  | None => (None, mkMem (Some l) (m_rv s + 1) (m_uid s + 1) (m_clock s))
  end.

Definition mem_update (l : Lease) (s : mem) : option error * mem :=
  match obj s with
  | None => (Some (notFoundError LeaseName), s)
  | Some _ =>
      if ResourceVersion l =? m_rv s
      then (None, mkMem (Some l) (m_rv s + 1) (m_uid s) (m_clock s))
      else (Some (conflictError LeaseName), s)
  end.

Definition mem_delete (uid : Z) (s : mem) : option error * mem :=
  match obj s with
  | None => (Some (notFoundError LeaseName), s)
  | Some _ =>
      if uid =? m_uid s then (None, mkMem None (m_rv s) (m_uid s) (m_clock s))
      else (Some (conflictError LeaseName), s)
  end.

#[export] Instance memAPI : LeaseAPI mem := {|
  stored := m_stored; lastRV := m_rv; lastUID := m_uid; clock := m_clock;
  api_get := mem_get; api_create := mem_create; api_update := mem_update;
  api_delete := mem_delete
|}.

Lemma mem_frame_refl (s : mem) : frame s s.
Proof. by repeat split. Qed.

#[export] Instance memAPILaws : LeaseAPILaws mem.
Proof.
  split; simpl; unfold m_stored.
  - intros s l. destruct (obj s); simpl; [|done]. by intros [= <-].
  - intros s l. destruct (obj s); simpl; [|done]. by intros [= <-].
  - intros s r s'. unfold mem_get. destruct (m_stored s); intros [= <- <-]; apply mem_frame_refl.
  - intros s l s'. unfold mem_get, m_stored. by destruct (obj s); intros [= <- <-].
  - intros l s e s'. unfold mem_create. destruct (obj s) eqn:Ho; intros [= <- <-]; simpl.
    + left. split; [apply mem_frame_refl|done].
    + right. repeat split; lia.
  - intros l s e s'. unfold mem_update. destruct (obj s) as [cur|] eqn:Ho; [|intros [= <- <-]].
    + destruct (_ =? _) eqn:Hv; intros [= <- <-]; simpl.
      * right. exists (stamp (m_uid s) (m_rv s) cur). apply Z.eqb_eq in Hv.
        repeat split; simpl; lia.
      * left. split; [apply mem_frame_refl|done].
    + left. split; [apply mem_frame_refl|done].
  - intros uid s e s'. unfold mem_delete. destruct (obj s) as [cur|] eqn:Ho; [|intros [= <- <-]].
    + destruct (_ =? _) eqn:Hv; intros [= <- <-]; simpl.
      * right. exists (stamp (m_uid s) (m_rv s) cur). apply Z.eqb_eq in Hv.
        repeat split; simpl; lia.
      * left. split; [apply mem_frame_refl|done].
    + left. split; [apply mem_frame_refl|done].
Qed.

(** ** Running one handler alone: the context is live and waits take their time *)
Fixpoint run {A} (p : prog A) (s : mem) : A * mem :=
  match p with
  | Ret a => (a, s)
  | Now k => run (k (m_clock s)) s
  | GetLease k => let '(r, s') := mem_get s in run (k r) s'
  | CreateLease l k => let '(e, s') := mem_create l s in run (k e) s'
  | UpdateLease l k => let '(e, s') := mem_update l s in run (k e) s'
  | DeleteLease u k => let '(e, s') := mem_delete u s in run (k e) s'
  | CtxErr k => run (k None) s
  | After d k => run (k true) (mkMem (obj s) (m_rv s) (m_uid s) (m_clock s + d))
  end.

Lemma run_bind {A B} (p : prog A) (f : A -> prog B) s :
  run (prog_bind p f) s = let '(a, s') := run p s in run (f a) s'.
Proof.
  revert s. induction p as [a|k IH|k IH|l k IH|l k IH|u k IH|k IH|d k IH]; intros s; simpl; auto.
  - destruct (mem_get s). apply IH.
  - destruct (mem_create l s). apply IH.
  - destruct (mem_update l s). apply IH.
  - destruct (mem_delete u s). apply IH.
Qed.

(** A retried handler that succeeds at the first attempt. *)
Lemma run_DoVoid_ok cfg (fn : prog (option error)) s s' :
  0 <= MaxRetries cfg -> run fn s = (None, s') ->
  run (DoVoid (CtxErr Ret) (fun d => After d Ret) cfg fn) s = (None, s').
Proof.
  intros Hm Hfn. unfold DoVoid, Do.
  destruct (Z.to_nat (MaxRetries cfg + 1)) as [|left] eqn:Hl; [lia|].
  cbn [do_loop mbind prog_mbind prog_bind run is_nil negb].
  by rw !run_bind Hfn.
Qed.

(** [Release] deletes a lease that is still its own. *)
Lemma run_releaseOnce_own l s cur :
  m_stored s = Some cur -> holderOf cur = holder l ->
  run (releaseOnce l) s = (None, mkMem None (m_rv s) (m_uid s) (m_clock s)).
Proof.
  intros Hs Hh. unfold releaseOnce. cbn [mbind prog_mbind prog_bind run].
  unfold mem_get. rw Hs Hh String.eqb_refl. cbn [negb prog_bind run].
  unfold mem_delete. unfold m_stored in Hs. destruct (obj s) as [o|]; [|done].
  injection Hs as <-. cbn [UID stamp]. by rw Z.eqb_refl.
Qed.

Section Functional.
Context (formatRFC3339 : Z -> string).

Lemma run_tryAcquire_free env h testName d s :
  m_stored s = None ->
  run (tryAcquireLease formatRFC3339 env h testName d) s =
    (None, mkMem (Some (newLease env h testName d (m_clock s))) (m_rv s + 1) (m_uid s + 1)
             (m_clock s)).
Proof.
  intros Hs. unfold tryAcquireLease. cbn [mbind prog_mbind prog_bind run]. unfold mem_get. rw Hs.
  cbn [IsNotFound reasonApiErrors]. change (has_reason "NotFound" _) with true. cbv iota.
  cbn [prog_bind run]. unfold mem_create.
  unfold m_stored in Hs. by destruct (obj s).
Qed.

(** One acquisition attempt on a quiescent server creates the lease when
    there is none, fails and changes nothing while the lease is live, and otherwise
    takes the expired lease over in its place (same UID, a new version, one more
    transition), valid for the whole duration from now on. *)
Theorem tryAcquireLease_functional env h testName d s :
  let '(err, s') := run (tryAcquireLease formatRFC3339 env h testName d) s in
  match m_stored s with
  | None =>
      err = None /\
      m_stored s' = Some (stamp (m_uid s + 1) (m_rv s + 1)
                            (newLease env h testName d (m_clock s)))
  | Some cur =>
      if leaseExpired cur (m_clock s) d then
        err = None /\ exists l, m_stored s' = Some l /\ UID l = UID cur /\
          ResourceVersion l = ResourceVersion cur + 1 /\ holderOf l = h /\
          RenewTime l = Some (m_clock s) /\
          LeaseTransitions l = Some (match LeaseTransitions cur with
                                     | None => 1 | Some t => wrap32 (t + 1) end)
      else err = Some (leaseHeldError formatRFC3339 cur) /\ s' = s
  end.
Proof.
  destruct (m_stored s) as [cur|] eqn:Hs; [|by rw run_tryAcquire_free].
  unfold tryAcquireLease. cbn [mbind prog_mbind prog_bind run]. unfold mem_get. rw Hs.
  destruct (leaseExpired cur (m_clock s) d) eqn:He; cbn [negb run mret prog_mret]; [|done].
  cbn [prog_bind run]. unfold mem_update.
  unfold m_stored in Hs. destruct (obj s) as [o|] eqn:Ho; [|done].
  injection Hs as <-. cbn [ResourceVersion applyLeaseSpec stamp]. rw Z.eqb_refl.
  cbn [run]. split; [done|]. eexists. by repeat split.
Qed.

End Functional.


(** ** Executions of the whole system *)
Section Execution.
Context (formatRFC3339 : Z -> string) (dur : Z).

(** One call of a program; the context stays live and timers fire. *)
Definition prog_exec {A} (p : prog A) (s : mem) : prog A * mem :=
  match p with
  | Ret a => (Ret a, s)
  | Now k => (k (m_clock s), s)
  | GetLease k => let '(r, s') := mem_get s in (k r, s')
  | CreateLease l k => let '(e, s') := mem_create l s in (k e, s')
  | UpdateLease l k => let '(e, s') := mem_update l s in (k e, s')
  | DeleteLease u k => let '(e, s') := mem_delete u s in (k e, s')
  | CtxErr k => (k None, s)
  | After _ k => (k true, s)
  end.

(** The scheduler's choices: time passes, a process starts, process [i] makes its
    next step, process [i] closes (releases the lock). *)
Inductive choice :=
| CTime (d : N)
| CStart (env : Env) (testName : string)
| CStep (i : nat)
| CClose (i : nat).

Definition proc_exec (p : proc) (s : mem) : option (proc * mem) :=
  match p with
  | PAcquire env (Ret (Ok l)) => Some (PHeld env l None, s)
  | PAcquire env (Ret (Err _)) => Some (PDone env, s)
  | PAcquire env p => let '(p', s') := prog_exec p s in Some (PAcquire env p', s')
  | PHeld env l None => Some (PHeld env l (Some (renew l)), s)
  | PHeld env l (Some (Ret _)) => Some (PHeld env l None, s)
  | PHeld env l (Some p) => let '(p', s') := prog_exec p s in Some (PHeld env l (Some p'), s')
  | PReleasing env (Ret _) => Some (PDone env, s)
  | PReleasing env p => let '(p', s') := prog_exec p s in Some (PReleasing env p', s')
  | PDone _ => None
  end.

Definition exec (c : choice) (cfg : mem * list proc) : option (mem * list proc) :=
  let '(s, ps) := cfg in
  match c with
  | CTime d => Some (mkMem (obj s) (m_rv s) (m_uid s) (m_clock s + Z.of_N d), ps)
  | CStart env testName =>
      Some (s, ps ++ [PAcquire env (acquireLease formatRFC3339 env testName dur)])
  | CStep i =>
      match ps !! i with
      | Some p => match proc_exec p s with
                  | Some (p', s') => Some (s', <[i := p']> ps)
                  | None => None
                  end
      | None => None
      end
  | CClose i =>
      match ps !! i with
      | Some (PHeld env l None) => Some (s, <[i := PReleasing env (Release l)]> ps)
      | _ => None
      end
  end.

Fixpoint exec_all (cs : list choice) (cfg : mem * list proc) : option (mem * list proc) :=
  match cs with
  | [] => Some cfg
  | c :: cs' => match exec c cfg with Some cfg' => exec_all cs' cfg' | None => None end
  end.

Lemma prog_exec_step {A} (p : prog A) s :
  (forall a, p <> Ret a) -> prog_step p s (fst (prog_exec p s)) (snd (prog_exec p s)).
Proof.
  intros Hp. destruct p as [a|k|k|l k|l k|u k|k|d k]; simpl; [by destruct (Hp a)|constructor|..].
  - destruct (mem_get s) eqn:?; by constructor.
  - destruct (mem_create l s) eqn:?; by constructor.
  - destruct (mem_update l s) eqn:?; by constructor.
  - destruct (mem_delete u s) eqn:?; by constructor.
  - constructor.
  - constructor.
Qed.

Lemma proc_exec_step p s p' s' : proc_exec p s = Some (p', s') -> proc_step p s p' s'.
Proof.
  destruct p as [env p|env l [p|]|env p|env]; simpl; [..|done].
  - pose proof (prog_exec_step p s) as Hp. destruct (prog_exec p s) as [p1 s1].
    destruct p as [[l|e]| | | | | | |]; intros [= <- <-];
      [apply pr_acquired|apply pr_refused|by apply pr_acquire, Hp..].
  - pose proof (prog_exec_step p s) as Hp. destruct (prog_exec p s) as [p1 s1].
    destruct p; intros [= <- <-]; [apply pr_renewed|by apply pr_renew, Hp..].
  - intros [= <- <-]. apply pr_tick.
  - pose proof (prog_exec_step p s) as Hp. destruct (prog_exec p s) as [p1 s1].
    destruct p; intros [= <- <-]; [apply pr_released|by apply pr_release, Hp..].
Qed.

Lemma exec_step c cfg cfg' :
  exec c cfg = Some cfg' -> exists lbl, sys_step formatRFC3339 dur lbl cfg cfg'.
Proof.
  destruct cfg as [s ps], c as [d|env t|i|i]; simpl.
  - intros [= <-]. exists None. constructor. repeat split; simpl; lia.
  - intros [= <-]. exists None. constructor.
  - destruct (ps !! i) as [p|] eqn:Hi; [|done].
    destruct (proc_exec p s) as [[p' s']|] eqn:Hp; [|done]. intros [= <-].
    eexists. econstructor; [exact Hi|]. by apply proc_exec_step.
  - destruct (ps !! i) as [[|env l [|]| |]|] eqn:Hi; try done. intros [= <-].
    eexists. econstructor; [exact Hi|]. constructor.
Qed.

Lemma exec_all_reachable cs s0 cfg cfg' :
  reachable formatRFC3339 dur s0 cfg -> exec_all cs cfg = Some cfg' ->
  reachable formatRFC3339 dur s0 cfg'.
Proof.
  revert cfg. induction cs as [|c cs IH]; intros cfg Hc; simpl; [by intros [= <-]|].
  destruct (exec c cfg) as [cfg1|] eqn:He; [|done]. apply IH.
  destruct (exec_step _ _ _ He) as [lbl Hs]. by eapply reach_step.
Qed.
End Execution.

(** Two processes; the lease of A expires, A starts to release, B takes over
    between A's read and A's delete. *)
Definition envA : Env := mkEnv "alice" "" "laptop" 1.
Definition envB : Env := mkEnv "bob" "" "runner" 2.
Definition free_server : mem := mkMem None 0 0 0.

Definition race_prefix : list choice :=
  [CStart envA "suite-a"; CStep 0; CStep 0; CStep 0; CStep 0; CStep 0;
   CTime 301000000000; CClose 0; CStep 0; CStep 0;
   CStart envB "suite-b"; CStep 1; CStep 1; CStep 1; CStep 1; CStep 1].

Definition race_state : mem * list proc :=
  default (free_server, []) (exec_all pretty DefaultLeaseDuration race_prefix (free_server, [])).
Definition race_next : mem * list proc :=
  default race_state (exec pretty DefaultLeaseDuration (CStep 0) race_state).

Lemma free_server_timely : timely free_server.
Proof. by intros l. Qed.

Lemma race_state_reachable : reachable pretty DefaultLeaseDuration free_server race_state.
Proof.
  apply (exec_all_reachable _ _ race_prefix _ (free_server, [])); [constructor|].
  vm_compute. reflexivity.
Qed.

Lemma race_step :
  sys_step pretty DefaultLeaseDuration (Some (holderIdentity envA)) race_state race_next.
Proof.
  assert (He : exec pretty DefaultLeaseDuration (CStep 0) race_state = Some race_next)
    by (vm_compute; reflexivity).
  revert He. unfold exec. destruct race_state as [s ps] eqn:Hr.
  assert (Hh : option_map proc_holder (ps !! 0%nat) = Some (holderIdentity envA)).
  { change ps with (s, ps).2. rw -Hr. vm_compute. reflexivity. }
  destruct (ps !! 0%nat) as [p|] eqn:Hp; [|done].
  destruct (proc_exec p s) as [[p' s']|] eqn:Hpe; [|done].
  intros He%(inj Some). rw -He. simpl in Hh. apply (inj Some) in Hh as <-.
  apply sys_proc; [done|]. by apply proc_exec_step.
Qed.

(** The UID precondition of [Release] does not protect a lease that was taken
    over in place: a reachable interleaving deletes the live lease of another
    holder, because a takeover keeps the UID of the object. *)
Theorem late_release_deletes_live_lease :
  exists s ps s' ps' cur,
    reachable pretty DefaultLeaseDuration free_server (s, ps) /\
    sys_step pretty DefaultLeaseDuration (Some (holderIdentity envA)) (s, ps) (s', ps') /\
    stored s = Some cur /\ holderOf cur = holderIdentity envB /\
    leaseExpired cur (clock s) DefaultLeaseDuration = false /\ stored s' = None.
Proof.
  exists (fst race_state), (snd race_state), (fst race_next), (snd race_next).
  eexists. rw -!surjective_pairing.
  split; [exact race_state_reachable|]. split; [exact race_step|].
  split; [vm_compute; reflexivity|]. by vm_compute.
Qed.



(** The error for a lock held by another run quotes the holder's test name, so
    a test name that contains the word webhook makes [IsRetryable] take the
    held-lock error for a transient failure. *)
Theorem held_error_of_webhook_suite_retryable fmt lease pre post :
  annotation lease annotationTestName = pre +:+ "webhook" +:+ post ->
  IsRetryable (Some (leaseHeldError fmt lease)) = true.
Proof.
  intros Ht. apply IsRetryable_iff. do 4 right.
  unfold matches_any. apply existsb_exists. exists "webhook". split; [vm_compute; tauto|].
  unfold leaseHeldError, Errorf; cbn [Error]. rw Ht.
  do 7 apply Contains_app_r. apply Contains_app_l.
  apply Contains_spec. by exists pre, post.
Qed.

Lemma held_error_of_webhook_suite_retryable_witness :
  let lease := newLease envA (holderIdentity envA) "csi-webhook-e2e" DefaultLeaseDuration 0 in
  IsRetryable (Some (leaseHeldError pretty lease)) = true.
Proof.
  intros lease.
  apply (held_error_of_webhook_suite_retryable pretty lease "csi-" "-e2e").
  vm_compute. reflexivity.
Defined.
