(* ===== verification/Config.v ===== *)
(** Package [internal/config]: the cluster definition, its validation and the
    resolution of module pull overrides ([types.go], [cluster_config.go],
    [module_overrides.go], [overrides.go], [images.go], [config.go]). YAML decoding is
    gopkg.in/yaml.v3's: the definitions start from the decoded values. *)
From S2P Require Import Prelude Errors Retry.

Local Open Scope Z_scope.

(** ** Data *)
Inductive HostType := HostTypeVM | HostTypeBareMetal.
(** Only the setup node has a role; [None] is the empty role. *)
Inductive ClusterRole := ClusterRoleSetup.

Record OSType := mkOSType { OSName : string; ImageURL : string; KernelVersion : string }.

Record ClusterNode := mkNode {
  Hostname : string;
  IPAddress : string;
  OS : OSType;
  Host : HostType;
  Role : option ClusterRole;
  CPU : Z;
  CoreFraction : option Z;
  RAM : Z;
  DiskSize : Z;
  Prepared : bool
}.

(** A YAML value ([any]). *)
Inductive value :=
| VNull | VBool (b : bool) | VInt (z : Z) | VString (s : string)
| VList (l : list value) | VMap (m : list (string * value)).

Record ModuleConfig := mkModule {
  Name : string;
  Version : Z;
  Enabled : bool;
  Settings : option (list (string * value));
  Dependencies : list string;
  ModulePullOverride : string
}.

(** [Modules] holds pointers, which may be nil. *)
Record DKPParameters := mkDKP {
  KubernetesVersion : string;
  PodSubnetCIDR : string;
  ServiceSubnetCIDR : string;
  ClusterDomain : string;
  RegistryRepo : string;
  DevBranch : string;
  Modules : list (option ModuleConfig)
}.

Record ClusterDefinition := mkDef {
  Masters : list ClusterNode;
  Workers : list ClusterNode;
  Setup : option ClusterNode;
  DKP : DKPParameters
}.

#[export] Instance HostType_eq_dec : EqDecision HostType.
Proof. solve_decision. Defined.
#[export] Instance ClusterRole_eq_dec : EqDecision ClusterRole.
Proof. solve_decision. Defined.

(** ** The OS images *)
Definition osType (url kernel : string) : OSType := mkOSType "" url kernel.

Definition OSTypeMap : gmap string OSType := list_to_map [
  ("Ubuntu 22.04 6.2.0-39-generic", osType
     "https://cloud-images.ubuntu.com/jammy/current/jammy-server-cloudimg-amd64.img"
     "6.2.0-39-generic");
  ("Ubuntu 24.04 6.8.0-53-generic", osType
     "https://cloud-images.ubuntu.com/noble/current/noble-server-cloudimg-amd64.img"
     "6.8.0-53-generic");
  ("RedOS 8.0 6.6.26-1.red80.x86_64", osType
     "https://89d64382-20df-4581-8cc7-80df331f67fa.selstorage.ru/redos/redos-8-1.x86_64.qcow2"
     "6.6.26-1.red80.x86_64");
  ("RedOS 7.3.6 5.15.78-2.el7.3.x86_64", osType
     "https://89d64382-20df-4581-8cc7-80df331f67fa.selstorage.ru/redos/RO732_MIN-STD.qcow2"
     "5.15.78-2.el7.3.x86_64");
  ("Debian 12", osType
     "https://cloud.debian.org/images/cloud/bookworm/latest/debian-12-genericcloud-amd64.qcow2"
     "6.1.0-41-cloud-amd64");
  ("Debian 13", osType
     "https://cdimage.debian.org/images/cloud/trixie/latest/debian-13-generic-amd64.qcow2"
     "6.12.57+deb13-amd64");
  ("AltLinux Server 10.4", osType
     "https://89d64382-20df-4581-8cc7-80df331f67fa.selstorage.ru/flant-cloud/altlinux/altlinux-10-4-p10.qcow2"
     "6.1.130-un-def-alt1");
  ("AltLinux Server 11", osType
     "https://89d64382-20df-4581-8cc7-80df331f67fa.selstorage.ru/flant-cloud/altlinux/altlinux-11-0-p11.qcow2"
     "6.12.34-6.12-alt1")].

Definition DefaultSetupVM : ClusterNode :=
  mkNode "bootstrap-node" ""
    (default (mkOSType "" "" "") (OSTypeMap !! "Ubuntu 22.04 6.2.0-39-generic"))
    HostTypeVM (Some ClusterRoleSetup) 2 (Some 50) 4 20 false.

(** Timeouts of [config.go]. *)
Definition VMsRunningTimeout : Z := 20 * Minute.
Definition ClusterVirtualImageReadinessTimeout : Z := 15 * Minute.
Definition VirtualMachineClassReadinessTimeout : Z := 15 * Minute.
Definition NodesReadyTimeout : Z := 15 * Minute.
Definition ModuleCheckTimeout : Z := 60 * Second.
Definition NamespaceTimeout : Z := 30 * Second.
Definition NodeGroupTimeout : Z := 4 * Minute.
Definition SecretsWaitTimeout : Z := 10 * Minute.
Definition ClusterHealthTimeout : Z := 15 * Minute.
Definition ModuleDeployTimeout : Z := 15 * Minute.
Definition ClusterCleanupTimeout : Z := 10 * Minute.

(** ** Decoding a node *)

(** The temporary struct [ClusterNode.UnmarshalYAML] decodes into. *)
Record clusterNodeTmp := mkTmp {
  t_Hostname : string;
  t_IPAddress : string;
  t_OSType : string;
  t_HostType : string;
  t_Role : string;
  t_CPU : Z;
  t_CoreFraction : option Z;
  t_RAM : Z;
  t_DiskSize : Z;
  t_Prepared : bool
}.

Definition parseHostType (s : string) : option HostType :=
  if String.eqb s "vm" then Some HostTypeVM
  else if String.eqb s "bare-metal" then Some HostTypeBareMetal else None.

(** [decoded] is the outcome of [value.Decode(&tmp)]. *)
Definition UnmarshalYAML (decoded : result clusterNodeTmp) : result ClusterNode :=
  match decoded with
  | Err e => Err e
  | Ok tmp =>
      match parseHostType (t_HostType tmp) with
      | None => Err (Errorf ("invalid hostType: " +:+ t_HostType tmp))
      | Some hostType =>
          let role := if String.eqb (t_Role tmp) "" then Some None
                      else if String.eqb (t_Role tmp) "setup" then Some (Some ClusterRoleSetup)
                      else None in
          match role with
          | None => Err (Errorf ("invalid role: " +:+ t_Role tmp +:+
              " (only 'setup' is valid, masters/workers are determined by section)"))
          | Some role =>
              match OSTypeMap !! t_OSType tmp with
              | None => Err (Errorf ("unknown osType: " +:+ t_OSType tmp))
              | Some os =>
                  Ok (mkNode (t_Hostname tmp) (t_IPAddress tmp) os hostType role
                        (t_CPU tmp) (t_CoreFraction tmp) (t_RAM tmp) (t_DiskSize tmp)
                        (t_Prepared tmp))
              end
          end
      end
  end.

(** A [yaml.Node], by what [ClusterDefinition.UnmarshalYAML] looks at. *)
Inductive yamlNode :=
| YMapping (content : list yamlNode)
| YScalar (v : string)
| YSequence (content : list yamlNode).

Definition nodeValue (n : yamlNode) : string := match n with YScalar v => v | _ => "" end.

(** The loop over the pairs of [value.Content]. *)
Fixpoint find_definition (content : list yamlNode) : option yamlNode :=
  match content with
  | k :: v :: content' =>
      if String.eqb (nodeValue k) "clusterDefinition" then Some v else find_definition content'
  | _ => None
  end.

(** [decode] is [Node.Decode] into the struct without this method. *)
Definition ClusterDefinition_UnmarshalYAML (decode : yamlNode -> result ClusterDefinition)
    (value : yamlNode) : result ClusterDefinition :=
  match value with
  | YMapping content =>
      match find_definition content with
      | Some n => decode n
      | None => decode value
      end
  | _ => decode value
  end.

(** ** Module pull overrides *)

Definition is_upper (c : Ascii.ascii) : bool :=
  let n := Ascii.nat_of_ascii c in (65 <=? n)%nat && (n <=? 90)%nat.
Definition is_lower (c : Ascii.ascii) : bool :=
  let n := Ascii.nat_of_ascii c in (97 <=? n)%nat && (n <=? 122)%nat.
Definition is_digit (c : Ascii.ascii) : bool :=
  let n := Ascii.nat_of_ascii c in (48 <=? n)%nat && (n <=? 57)%nat.
Definition is_ident_start (c : Ascii.ascii) : bool :=
  is_upper c || is_lower c || Ascii.eqb c "_".
Definition is_ident (c : Ascii.ascii) : bool := is_ident_start c || is_digit c.

Fixpoint span_ident (s : string) : string * string :=
  match s with
  | String c s' => if is_ident c then let '(a, b) := span_ident s' in (String c a, b) else ("", s)
  | EmptyString => ("", "")
  end.

(** A match of [envRefPattern] at the start of [s], a dollar sign and an identifier
    in braces: the name and what follows. *)
Definition match_ref (s : string) : option (string * string) :=
  match s with
  | String "$" (String "{" s') =>
      let '(name, rest) := span_ident s' in
      match name, rest with
      | String c _, String "}" rest' => if is_ident_start c then Some (name, rest') else None
      | _, _ => None
      end
  | _ => None
  end.

(** A value cut at the matches of the pattern, leftmost first. *)
Inductive segment := SLit (c : Ascii.ascii) | SRef (name : string).

Fixpoint segments_rounds (n : nat) (s : string) : list segment :=
  match n with
  | O => []
  | S n' =>
      match match_ref s with
      | Some (name, rest) => SRef name :: segments_rounds n' rest
      | None => match s with
                | EmptyString => []
                | String c s' => SLit c :: segments_rounds n' s'
                end
      end
  end.

Definition segments (s : string) : list segment := segments_rounds (String.length s) s.

Fixpoint subst_refs (lookup : string -> option string) (l : list segment) : string :=
  match l with
  | [] => ""
  | SLit c :: l' => String c (subst_refs lookup l')
  | SRef name :: l' => default "" (lookup name) +:+ subst_refs lookup l'
  end.

(** The references of a value that the environment does not set, in order. *)
Fixpoint unset_refs (lookup : string -> option string) (l : list segment) : list string :=
  match l with
  | [] => []
  | SLit _ :: l' => unset_refs lookup l'
  | SRef name :: l' =>
      match lookup name with
      | None => name :: unset_refs lookup l'
      | Some _ => unset_refs lookup l'
      end
  end.

Definition with_override (m : ModuleConfig) (o : string) : ModuleConfig :=
  mkModule (Name m) (Version m) (Enabled m) (Settings m) (Dependencies m) o.

(** One iteration of the loop: the module after it and the problems it adds. *)
Definition resolve_module (lookup : string -> option string) (m : ModuleConfig)
    : ModuleConfig * list string :=
  let original := ModulePullOverride m in
  let segs := segments original in
  let resolved := subst_refs lookup segs in
  let problems := map (fun name => "module " +:+ quote (Name m) +:+
                         " references unset ${" +:+ name +:+ "}") (unset_refs lookup segs) in
  if Contains (subst_refs (fun _ => None) segs) "${" then
    (m, problems ++ ["module " +:+ quote (Name m) +:+ " has malformed modulePullOverride " +:+
       quote original +:+
       " (only ${NAME} with letters, digits, and underscores is supported)"])
  else (with_override m resolved, problems).

Fixpoint resolve_modules (lookup : string -> option string) (ms : list (option ModuleConfig))
    : list (option ModuleConfig) * list string :=
  match ms with
  | [] => ([], [])
  | om :: ms' =>
      let '(om', ps) :=
        match om with
        | None => (None, [])
        | Some m => if String.eqb (ModulePullOverride m) "" then (Some m, [])
                    else let '(m', ps) := resolve_module lookup m in (Some m', ps)
        end in
      let '(ms'', ps') := resolve_modules lookup ms' in
      (om' :: ms'', ps ++ ps')
  end.

Definition with_modules (def : ClusterDefinition) (ms : list (option ModuleConfig))
    : ClusterDefinition :=
  let d := DKP def in
  mkDef (Masters def) (Workers def) (Setup def)
    (mkDKP (KubernetesVersion d) (PodSubnetCIDR d) (ServiceSubnetCIDR d) (ClusterDomain d)
       (RegistryRepo d) (DevBranch d) ms).

(** Mutates [def]: the definition after the call, and the error. *)
Definition ResolveModulePullOverrides (def : ClusterDefinition)
    (lookup : string -> option string) : ClusterDefinition * option error :=
  let '(ms, problems) := resolve_modules lookup (Modules (DKP def)) in
  (with_modules def ms,
   match problems with
   | [] => None
   | _ => Some (Errorf ("modulePullOverride resolution failed: " +:+ Join problems "; "))
   end).

Definition Validate (c : ClusterDefinition) : option error :=
  match Masters c with
  | [] => Some (Errorf "at least one master node is required")
  | _ =>
      let dkp := DKP c in
      if String.eqb (PodSubnetCIDR dkp) ""
      then Some (Errorf "dkpParameters.podSubnetCIDR is required")
      else if String.eqb (ServiceSubnetCIDR dkp) ""
      then Some (Errorf "dkpParameters.serviceSubnetCIDR is required")
      else if String.eqb (ClusterDomain dkp) ""
      then Some (Errorf "dkpParameters.clusterDomain is required")
      else if String.eqb (RegistryRepo dkp) ""
      then Some (Errorf "dkpParameters.registryRepo is required")
      else None
  end.

(** [data] is what [os.ReadFile] returned, [parsed] what [yaml.Unmarshal] made of it. *)
Definition LoadClusterDefinition (path : string) (data : result string)
    (parsed : string -> result ClusterDefinition) (lookup : string -> option string)
    : result ClusterDefinition :=
  match data with
  | Err e => Err (ErrorfW ("read cluster config " +:+ quote path +:+ ": ") e "")
  | Ok bytes =>
      match parsed bytes with
      | Err e => Err (ErrorfW ("parse cluster config " +:+ quote path +:+ ": ") e "")
      | Ok def =>
          let '(def, err) := ResolveModulePullOverrides def lookup in
          match err with
          | Some e => Err (ErrorfW ("resolve cluster config " +:+ quote path +:+ ": ") e "")
          | None =>
              match Validate def with
              | Some e => Err (ErrorfW ("invalid cluster config " +:+ quote path +:+ ": ") e "")
              | None => Ok def
              end
          end
      end
  end.

(** [ValidateModulePullOverrides]: literal tags only. *)
Fixpoint validate_literal (ms : list (option ModuleConfig)) : option error :=
  match ms with
  | [] => None
  | om :: ms' =>
      match om with
      | None => validate_literal ms'
      | Some m =>
          if String.eqb (ModulePullOverride m) "" then validate_literal ms'
          else if Contains (ModulePullOverride m) "${" then
            Some (Errorf ("module " +:+ quote (Name m) +:+
              ": modulePullOverride must be a literal image tag (e.g. pr123, mr55, main); ${VAR} env templating is not supported — set the tag directly in cluster_config.yml"))
          else validate_literal ms'
      end
  end.

Definition ValidateModulePullOverrides (def : ClusterDefinition) : option error :=
  validate_literal (Modules (DKP def)).

Definition ModulePullOverrideEnvSuffix : string := "_MODULE_PULL_OVERRIDE".

Definition env_char (c : Ascii.ascii) : Ascii.ascii :=
  if is_lower c then Ascii.ascii_of_nat (Ascii.nat_of_ascii c - 32)
  else if is_upper c || is_digit c then c else "_"%char.

Definition EnvKeyForModulePullOverride (moduleName : string) : string :=
  str_map env_char moduleName +:+ ModulePullOverrideEnvSuffix.

Record ModulePullOverrideChange := mkChange {
  ch_Module : string; ch_EnvVar : string; ch_FromYAML : string; ch_ToEnv : string
}.

(** [getenv] is [os.Getenv]: empty when unset. *)
Fixpoint apply_env (getenv : string -> string) (ms : list (option ModuleConfig))
    : list (option ModuleConfig) * list ModulePullOverrideChange :=
  match ms with
  | [] => ([], [])
  | om :: ms' =>
      let '(ms'', chs) := apply_env getenv ms' in
      match om with
      | None => (None :: ms'', chs)
      | Some m =>
          let key := EnvKeyForModulePullOverride (Name m) in
          let val := TrimSpace (getenv key) in
          if String.eqb val "" || String.eqb val (ModulePullOverride m) then (Some m :: ms'', chs)
          else (Some (with_override m val) :: ms'',
                mkChange (Name m) key (ModulePullOverride m) val :: chs)
      end
  end.

Definition ApplyModulePullOverrideEnv (getenv : string -> string) (def : ClusterDefinition)
    : ClusterDefinition * list ModulePullOverrideChange :=
  let '(ms, chs) := apply_env getenv (Modules (DKP def)) in (with_modules def ms, chs).

(** ** Cutting a value at its references loses nothing *)

Lemma span_ident_app s : fst (span_ident s) +:+ snd (span_ident s) = s.
Proof.
  induction s as [|c s IH]; [done|]. cbn [span_ident].
  destruct (is_ident c); [|done]. destruct (span_ident s) as [a b]. cbn in *.
  by rw str_app_cons IH.
Qed.

(** The text of a reference. *)
Definition ref_text (name : string) : string := "${" +:+ name +:+ "}".

Lemma match_ref_text s name rest :
  match_ref s = Some (name, rest) -> s = ref_text name +:+ rest.
Proof.
  unfold match_ref. destruct s as [|c1 [|c2 s]]; [done|by repeat case_match|].
  pose proof (span_ident_app s) as Hs.
  destruct (span_ident s) as [a b]. cbn in Hs. subst s.
  intros H. repeat case_match; simplify_eq. unfold ref_text.
  by rw !str_app_assoc.
Qed.

Lemma match_ref_shorter s name rest :
  match_ref s = Some (name, rest) -> (String.length rest < String.length s)%nat.
Proof.
  intros ->%match_ref_text. unfold ref_text. rw !str_length_app.
  change (String.length "${") with 2%nat. lia.
Qed.

Lemma segments_rounds_render n s :
  (String.length s <= n)%nat ->
  subst_refs (fun name => Some (ref_text name)) (segments_rounds n s) = s.
Proof.
  revert s. induction n as [|n IH]; intros s Hl; [by destruct s; cbn in Hl; [|lia]|].
  cbn [segments_rounds]. destruct (match_ref s) as [[name rest]|] eqn:Hm.
  - cbn [subst_refs]. pose proof (match_ref_shorter _ _ _ Hm).
    rw IH; [lia|]. symmetry. by apply match_ref_text.
  - destruct s as [|c s]; [done|]. cbn [subst_refs]. rw IH; [cbn in Hl; lia|]. done.
Qed.

(** Cutting a [modulePullOverride] at its variable references and putting the
    references back gives the value itself: substitution touches nothing else. *)
Theorem segments_render s :
  subst_refs (fun name => Some (ref_text name)) (segments s) = s.
Proof. by apply segments_rounds_render. Qed.

(** ** What a loaded definition guarantees *)

(** [om'] is [om] with every reference of its override replaced by a set variable. *)
Definition resolved_as (lookup : string -> option string)
    (om om' : option ModuleConfig) : Prop :=
  match om, om' with
  | None, None => True
  | Some m, Some m' =>
      m' = with_override m (subst_refs lookup (segments (ModulePullOverride m))) /\
      unset_refs lookup (segments (ModulePullOverride m)) = []
  | _, _ => False
  end.

Lemma with_override_self m : with_override m (ModulePullOverride m) = m.
Proof. by destruct m. Qed.

Lemma resolve_modules_ok lookup ms ms' :
  resolve_modules lookup ms = (ms', []) -> Forall2 (resolved_as lookup) ms ms'.
Proof.
  revert ms'. induction ms as [|om ms IH]; intros ms' H; cbn [resolve_modules] in H.
  { injection H as <-. constructor. }
  destruct (match om with None => _ | Some _ => _ end) as [om' ps] eqn:Hom.
  destruct (resolve_modules lookup ms) as [ms'' ps'].
  injection H as <- Hps. apply app_eq_nil in Hps as [-> ->].
  constructor; [|by apply IH]. destruct om as [m|]; [|by injection Hom as <-].
  destruct (String.eqb (ModulePullOverride m) "") eqn:He.
  - injection Hom as <-. apply String.eqb_eq in He. simpl. rw He. split; [|done].
    by rw -{1}(with_override_self m) He.
  - unfold resolve_module in Hom. destruct (Contains _ _); injection Hom as <- Hps.
    + by apply app_eq_nil in Hps as [_ ?].
    + simpl. split; [done|]. by apply fmap_nil_inv in Hps.
Qed.



(** An override that references a set variable is substituted by
    [LoadClusterDefinition] and refused by [ValidateModulePullOverrides]: the two
    loaders disagree on templating. *)
Theorem templated_override_loads_but_is_invalid def0 m name v lookup path bytes :
  Modules (DKP def0) = [Some m] -> ModulePullOverride m = ref_text name ->
  segments (ref_text name) = [SRef name] -> lookup name = Some v ->
  Validate def0 = None ->
  LoadClusterDefinition path (Ok bytes) (fun _ => Ok def0) lookup =
    Ok (with_modules def0 [Some (with_override m v)]) /\
  ValidateModulePullOverrides def0 <> None.
Proof.
  intros Hms Ho Hseg Hl Hv. split.
  - unfold LoadClusterDefinition, ResolveModulePullOverrides. rw Hms.
    cbn [resolve_modules]. rw Ho. change (String.eqb (ref_text name) "") with false.
    cbv iota. unfold resolve_module. rw Ho Hseg. cbn [subst_refs unset_refs map app].
    rw Hl. cbn [default]. rw str_app_nil_r. cbn [Contains HasPrefix orb].
    assert (Hv' : Validate (with_modules def0 [Some (with_override m v)]) = None) by done.
    cbn -[Validate with_modules]. by rw str_app_nil_r Hv'.
  - unfold ValidateModulePullOverrides. rw Hms. cbn [validate_literal]. rw Ho.
    change (String.eqb (ref_text name) "") with false. cbv iota. unfold ref_text.
    rw Contains_app_l; [reflexivity|done].
Qed.

Lemma templated_override_loads_but_is_invalid_witness :
  let node := mkNode "master-0" "" (mkOSType "" "" "") HostTypeVM None 4 None 8 40 false in
  let m := mkModule "csi-ceph" 1 true None [] "${TAG}" in
  let def0 := mkDef [node] [] None (mkDKP "1.30" "10.111.0.0/16" "10.222.0.0/16" "cluster.local"
                "dev-registry/x" "" [Some m]) in
  LoadClusterDefinition "c.yml" (Ok "yaml") (fun _ => Ok def0) (fun _ => Some "pr131") =
    Ok (with_modules def0 [Some (with_override m "pr131")]) /\
  ValidateModulePullOverrides def0 <> None.
Proof.
  intros node m def0.
  apply (templated_override_loads_but_is_invalid def0 m "TAG" "pr131");
    vm_compute; reflexivity.
Defined.
