(* ===== verification/ModuleLevels.v ===== *)
(** Module enablement of the DVP provider
    ([src/internal/provisioning/dvp/modules.go]): [buildModuleLevels] orders the
    modules by their dependencies into levels, [enableModulesInLevels] applies the
    levels one after another. *)
From S2P Require Import Prelude Errors Retry Config.

Local Open Scope Z_scope.
Local Open Scope go_scope.

(** ** The levels *)

Fixpoint index_modules (ms : list (option ModuleConfig)) (byName : gmap string ModuleConfig)
    : result (list ModuleConfig * gmap string ModuleConfig) :=
  match ms with
  | [] => Ok ([], byName)
  | None :: _ => Err (Errorf "nil module config")
  | Some m :: ms' =>
      match byName !! Name m with
      | Some _ => Err (Errorf ("duplicate module " +:+ quote (Name m)))
      | None =>
          match index_modules ms' (<[Name m := m]> byName) with
          | Err e => Err e
          | Ok (l, byName') => Ok (m :: l, byName')
          end
      end
  end.

(** The inner loop over the dependencies of one module: [indegree], [dependents]. *)
Fixpoint count_deps (byName : gmap string ModuleConfig) (name : string) (deps : list string)
    (seen : gset string) (indegree : gmap string Z) (dependents : gmap string (list string))
    : result (gmap string Z * gmap string (list string)) :=
  match deps with
  | [] => Ok (indegree, dependents)
  | dep :: deps' =>
      if String.eqb dep name
      then Err (Errorf ("module " +:+ quote name +:+ " depends on itself"))
      else match byName !! dep with
      | None => Err (Errorf ("module " +:+ quote name +:+ " depends on unknown module " +:+
                       quote dep))
      | Some _ =>
          if decide (dep ∈ seen) then count_deps byName name deps' seen indegree dependents
          else count_deps byName name deps' ({[dep]} ∪ seen)
                 (<[name := default 0 (indegree !! name) + 1]> indegree)
                 (<[dep := default [] (dependents !! dep) ++ [name]]> dependents)
      end
  end.

Fixpoint count_all (byName : gmap string ModuleConfig) (ms : list ModuleConfig)
    (indegree : gmap string Z) (dependents : gmap string (list string))
    : result (gmap string Z * gmap string (list string)) :=
  match ms with
  | [] => Ok (indegree, dependents)
  | m :: ms' =>
      match count_deps byName (Name m) (Dependencies m) ∅ indegree dependents with
      | Err e => Err e
      | Ok (indegree', dependents') => count_all byName ms' indegree' dependents'
      end
  end.

(** [for name, deg := range indegree { if deg == 0 ... }] and [sort.Strings]. *)
Definition free_names (indegree : gmap string Z) : list string :=
  merge_sort String.le (map fst (filter (fun p => p.2 = 0) (map_to_list indegree))).

Definition decrement (indegree : gmap string Z) (dep : string) : gmap string Z :=
  match indegree !! dep with
  | Some d => <[dep := d - 1]> indegree
  | None => indegree
  end.

(** The indegrees after a level is taken out. *)
Definition remove_level (dependents : gmap string (list string)) (names : list string)
    (indegree : gmap string Z) : gmap string Z :=
  let rest := foldl (fun acc name => delete name acc) indegree names in
  foldl decrement rest (concat (map (fun name => default [] (dependents !! name)) names)).

(** Every iteration takes out at least one module, so as many rounds as there are
    modules are enough. *)
Fixpoint levels_loop (rounds : nat) (byName : gmap string ModuleConfig)
    (dependents : gmap string (list string)) (remaining : Z) (indegree : gmap string Z)
    : result (list (list ModuleConfig)) :=
  match rounds with
  | O => Ok []
  | S rounds' =>
      if 0 <? remaining then
        match free_names indegree with
        | [] => Err (Errorf ("circular dependency among modules: " +:+
                  fmt_strings (merge_sort String.le (map fst (map_to_list indegree)))))
        | names =>
            let level := omap (fun name => byName !! name) names in
            match levels_loop rounds' byName dependents (remaining - Z.of_nat (length names))
                    (remove_level dependents names indegree) with
            | Err e => Err e
            | Ok levels => Ok (level :: levels)
            end
        end
      else Ok []
  end.

Definition buildModuleLevels (modules : list (option ModuleConfig))
    : result (list (list ModuleConfig)) :=
  match index_modules modules ∅ with
  | Err e => Err e
  | Ok (ms, byName) =>
      let indegree := foldl (fun acc m => <[Name m := 0]> acc) ∅ ms in
      match count_all byName ms indegree ∅ with
      | Err e => Err e
      | Ok (indegree, dependents) =>
          levels_loop (length ms) byName dependents (Z.of_nat (length ms)) indegree
      end
  end.

(** ** Distinct dependencies *)

(** The dependencies counted by the inner loop: the first occurrence of each. *)
Fixpoint uniq (seen : gset string) (deps : list string) : list string :=
  match deps with
  | [] => []
  | d :: deps' => if decide (d ∈ seen) then uniq seen deps' else d :: uniq ({[d]} ∪ seen) deps'
  end.

Lemma elem_of_uniq seen deps x : x ∈ uniq seen deps <-> x ∈ deps /\ x ∉ seen.
Proof.
  revert seen. induction deps as [|d deps IH]; intros seen; cbn [uniq]; [set_solver|].
  destruct (decide (d ∈ seen)); [rw IH; set_solver|].
  rw !elem_of_cons IH. destruct (decide (x = d)); set_solver.
Qed.

Lemma NoDup_uniq seen deps : NoDup (uniq seen deps).
Proof.
  revert seen. induction deps as [|d deps IH]; intros seen; cbn [uniq]; [constructor|].
  destruct (decide (d ∈ seen)); [done|]. constructor; [|done]. rw elem_of_uniq. set_solver.
Qed.

Definition deps_in (byName : gmap string ModuleConfig) (n : string) : list string :=
  match byName !! n with Some m => uniq ∅ (Dependencies m) | None => [] end.

(** ** The counting phases *)

Lemma index_modules_ok ms b l b' :
  index_modules ms b = Ok (l, b') ->
  ms = map Some l /\ NoDup (map Name l) /\
  (forall m, m ∈ l -> b !! Name m = None /\ b' !! Name m = Some m) /\
  (forall n m, b' !! n = Some m -> b !! n = Some m \/ (m ∈ l /\ Name m = n)) /\
  (forall n m, b !! n = Some m -> b' !! n = Some m).
Proof.
  revert b l b'. induction ms as [|[m|] ms IH]; intros b l b' H; cbn [index_modules] in H; [|
    |done].
  { injection H as <- <-. split; [done|]. split; [constructor|]. set_solver. }
  destruct (b !! Name m) eqn:Hm; [done|].
  destruct (index_modules ms _) as [[l1 b1]|] eqn:Hi; [|done]. injection H as <- <-.
  destruct (IH _ _ _ Hi) as (-> & Hnd & Hin & Hout & Hmono).
  split; [done|]. split; [|split; [|split]].
  - constructor; [|done]. intros (m' & Hn & Hm')%list_elem_of_fmap.
    destruct (Hin _ Hm') as [Hnone _]. rw -Hn lookup_insert_eq in Hnone. done.
  - intros m' [->|Hm']%elem_of_cons.
    + split; [done|]. apply Hmono. apply lookup_insert_eq.
    + destruct (Hin _ Hm') as [Hnone Hsome]. split; [|done].
      rw lookup_insert in Hnone. by case_decide.
  - intros n m' [Hb|[Hl Hn]]%Hout; [|right; set_solver].
    rw lookup_insert in Hb. case_decide; [|by left].
    right. split; [|congruence]. injection Hb as ->. set_solver.
  - intros n m' Hn. apply Hmono. rw lookup_insert. case_decide; [congruence|done].
Qed.

Lemma count_deps_ok b name deps seen D P D' P' :
  count_deps b name deps seen D P = Ok (D', P') -> is_Some (D !! name) ->
  (forall d, d ∈ deps -> d <> name /\ is_Some (b !! d)) /\
  (forall n, D' !! n = if decide (n = name)
     then Some (default 0 (D !! name) + Z.of_nat (length (uniq seen deps))) else D !! n) /\
  (forall d, default [] (P' !! d) =
     default [] (P !! d) ++ if decide (d ∈ uniq seen deps) then [name] else []).
Proof.
  revert seen D P. induction deps as [|dep deps IH]; intros seen D P H Hn; cbn [count_deps] in H.
  { injection H as <- <-. split; [set_solver|]. split.
    - intros n. case_decide as Hc; [|done]. destruct Hn as [x Hx]. rw Hc Hx /=. f_equal. lia.
    - intros d. cbn. by rw app_nil_r. }
  destruct (String.eqb dep name) eqn:He; [done|]. apply String.eqb_neq in He.
  destruct (b !! dep) eqn:Hb; [|done].
  cbn [uniq]. destruct (decide (dep ∈ seen)) as [Hs|Hs].
  { destruct (IH _ _ _ H Hn) as (H1 & H2 & H3). split; [|done].
    intros d [->|Hd]%elem_of_cons; [by rw Hb; eauto|by apply H1]. }
  destruct (IH _ _ _ H) as (H1 & H2 & H3); [by rw lookup_insert_eq; eauto|].
  split; [|split].
  - intros d [->|Hd]%elem_of_cons; [by rw Hb; eauto|by apply H1].
  - intros n. rw H2. case_decide as Hc; [|by rw lookup_insert_ne].
    rw lookup_insert_eq. cbn. f_equal. lia.
  - intros d. rw H3 lookup_insert. destruct (decide (dep = d)) as [<-|Hd].
    + destruct (decide (dep ∈ uniq _ deps)) as [Hx|_]; [apply elem_of_uniq in Hx; set_solver|].
      rw decide_True; [by left|]. by rw app_nil_r.
    + f_equal. destruct (decide (d ∈ uniq _ deps)) as [Hx|Hx], (decide (d ∈ dep :: _)) as [Hy|Hy];
        [done|by destruct Hy; right|by apply elem_of_cons in Hy as [?|?]|done].
Qed.

Lemma count_all_ok b ms D P D' P' :
  count_all b ms D P = Ok (D', P') -> NoDup (map Name ms) ->
  (forall m, m ∈ ms -> D !! Name m = Some 0) ->
  (forall m d, m ∈ ms -> d ∈ Dependencies m -> d <> Name m /\ is_Some (b !! d)) /\
  (forall m, m ∈ ms -> D' !! Name m = Some (Z.of_nat (length (uniq ∅ (Dependencies m))))) /\
  (forall n, n ∉ map Name ms -> D' !! n = D !! n) /\
  (forall d, default [] (P' !! d) =
     default [] (P !! d) ++ map Name (filter (fun m => d ∈ uniq ∅ (Dependencies m)) ms)).
Proof.
  revert D P. induction ms as [|m ms IH]; intros D P H Hnd HD; cbn [count_all] in H.
  { injection H as <- <-. split; [set_solver|]. split; [set_solver|]. split; [done|].
    intros d. cbn. by rw app_nil_r. }
  apply NoDup_cons in Hnd as [Hm Hnd].
  destruct (count_deps b (Name m) _ ∅ D P) as [[D1 P1]|] eqn:Hc; [|done].
  destruct (count_deps_ok _ _ _ _ _ _ _ _ Hc) as (C1 & C2 & C3).
  { rw HD; [set_solver|]. eauto. }
  assert (Hne : forall m', m' ∈ ms -> Name m' <> Name m).
  { intros m' Hm' Heq. apply Hm. rw -Heq. apply list_elem_of_fmap. eauto. }
  destruct (IH _ _ H Hnd) as (I1 & I2 & I3 & I4).
  { intros m' Hm'. rw C2 decide_False; [by apply Hne|]. apply HD. by right. }
  split; [|split; [|split]].
  - intros m' d [->|Hm']%elem_of_cons; [apply C1|by apply I1].
  - intros m' [->|Hm']%elem_of_cons; [|by apply I2].
    rw I3 // C2 decide_True // HD; [by left|]. f_equal.
  - intros n [Hn1 Hn2]%not_elem_of_cons. rw I3 // C2. by rw decide_False.
  - intros d. rw I4 C3 filter_cons. destruct (decide (d ∈ uniq ∅ (Dependencies m))).
    + by rw -app_assoc.
    + by rw app_nil_r.
Qed.

(** ** Removing a level *)

Definition occ (n : string) (l : list string) : nat := length (filter (fun x => x = n) l).

Lemma occ_cons n x l : occ n (x :: l) = ((if decide (x = n) then 1 else 0) + occ n l)%nat.
Proof. unfold occ. rw filter_cons. by case_decide. Qed.

Lemma occ_app n l1 l2 : occ n (l1 ++ l2) = (occ n l1 + occ n l2)%nat.
Proof. unfold occ. by rw filter_app length_app. Qed.

Lemma occ_NoDup n l : NoDup l -> occ n l = if decide (n ∈ l) then 1%nat else 0%nat.
Proof.
  induction 1 as [|x l Hx Hnd IH]; [done|]. rw occ_cons IH.
  repeat case_decide; set_solver.
Qed.

Lemma decrement_all l D n :
  foldl decrement D l !! n = (fun d => d - Z.of_nat (occ n l)) <$> D !! n.
Proof.
  revert D. induction l as [|x l IH]; intros D; cbn [foldl].
  { destruct (D !! n); cbn; [f_equal; lia|done]. }
  rw IH occ_cons. unfold decrement. destruct (D !! x) as [d|] eqn:Hx.
  - destruct (decide (x = n)) as [->|Hn].
    + rw lookup_insert_eq Hx. cbn. f_equal. lia.
    + rw lookup_insert_ne //.
  - destruct (decide (x = n)) as [->|Hn]; [by rw Hx|]. done.
Qed.

Lemma delete_all names (D : gmap string Z) n :
  foldl (fun acc name => delete name acc) D names !! n =
  if decide (n ∈ names) then None else D !! n.
Proof.
  revert D. induction names as [|x names IH]; intros D; cbn [foldl]; [done|].
  rw IH lookup_delete. repeat case_decide; set_solver.
Qed.

Lemma filter_nil_all (l : list string) : filter (fun d => d ∈ ([] : list string)) l = [].
Proof. induction l as [|x l IH]; [done|]. rw filter_cons_False //. set_solver. Qed.

Lemma filter_split (R L : gset string) l :
  L ⊆ R ->
  length (filter (fun x => x ∈ R) l) =
  (length (filter (fun x => x ∈ L) l) + length (filter (fun x => x ∈ R ∖ L) l))%nat.
Proof.
  intros HL. induction l as [|x l IH]; [done|]. rw !filter_cons.
  repeat case_decide; cbn; set_solver by lia.
Qed.

(** ** The rounds of the loop *)

Section Rounds.
(** [deps] are the dependencies of a name, [P] the dependents, as often as counted. *)
Context (deps : string -> list string) (P : gmap string (list string)).
Hypothesis HP : forall d n, occ n (default [] (P !! d)) = occ d (deps n).

(** The indegree table of the remaining modules [R]: each entry counts the
    dependencies of the module that remain too. *)
Definition table_of (R : gset string) (D : gmap string Z) : Prop :=
  forall n, D !! n = if decide (n ∈ R)
    then Some (Z.of_nat (length (filter (fun d => d ∈ R) (deps n)))) else None.

Lemma occ_dependents n names :
  NoDup names ->
  occ n (concat (map (fun d => default [] (P !! d)) names)) =
  length (filter (fun d => d ∈ names) (deps n)).
Proof.
  induction 1 as [|d names Hd Hnd IH].
  { cbn. by rw filter_nil_all. }
  cbn [map concat]. rw occ_app IH HP. clear -Hd. induction (deps n) as [|x l IH]; [done|].
  rw occ_cons !filter_cons. repeat case_decide; cbn; set_solver by lia.
Qed.

Lemma remove_level_table R D names :
  table_of R D -> NoDup names -> (list_to_set names : gset string) ⊆ R ->
  table_of (R ∖ list_to_set names) (remove_level P names D).
Proof.
  intros HD Hnd Hsub n. unfold remove_level. rw decrement_all delete_all (occ_dependents _ _ Hnd) HD.
  destruct (decide (n ∈ names)) as [Hn|Hn].
  { rw decide_False //. set_solver. }
  destruct (decide (n ∈ R)) as [HR|HR]; [|by rw decide_False; [set_solver|]].
  rw decide_True; [set_solver|]. cbn. f_equal. rw (filter_split R (list_to_set names)) //.
  rw (list_filter_iff (fun x => x ∈ names) (fun x => x ∈ (list_to_set names : gset string)));
    [by intros x; rw elem_of_list_to_set|]. lia.
Qed.

(** The modules of [R] none of whose dependencies remain, once each. *)
Definition free_level (R : gset string) (l : list string) : Prop :=
  NoDup l /\
  forall n, n ∈ l <-> n ∈ R /\ forall d, d ∈ deps n -> d ∉ R.

Lemma elem_of_free_names D n : n ∈ free_names D <-> D !! n = Some 0.
Proof.
  unfold free_names. rw merge_sort_Permutation. rw list_elem_of_fmap. split.
  - intros ([k v] & -> & [Hz Hk]%list_elem_of_filter). cbn in Hz. subst v.
    by apply elem_of_map_to_list in Hk.
  - intros H. exists (n, 0). split; [done|]. apply list_elem_of_filter. split; [done|].
    by apply elem_of_map_to_list.
Qed.

Lemma free_names_level R D : table_of R D -> free_level R (free_names D).
Proof.
  intros HD. split.
  - unfold free_names. rw merge_sort_Permutation.
    apply NoDup_fmap_fst; last apply NoDup_filter, NoDup_map_to_list.
    intros k v1 v2 [H1 _]%list_elem_of_filter [H2 _]%list_elem_of_filter. cbn in *. congruence.
  - intros n. rw elem_of_free_names HD. destruct (decide (n ∈ R)) as [HR|HR]; [|naive_solver].
    split.
    + intros [= H]. split; [done|]. intros d Hd HdR.
      assert (Hin : d ∈ filter (fun d => d ∈ R) (deps n)) by by apply list_elem_of_filter.
      destruct (filter _ _); [by apply elem_of_nil in Hin|done].
    + intros [_ H]. f_equal.
      destruct (filter _ _) as [|d l] eqn:Hf; [done|]. exfalso.
      assert (Hin : d ∈ filter (fun d => d ∈ R) (deps n)) by (rw Hf; left).
      apply list_elem_of_filter in Hin as [? ?]. by eapply H.
Qed.

(** The levels as the specification has them: each level is the free modules of
    what the levels before it left over, until nothing is left. *)
Inductive Levels : gset string -> list (list string) -> Prop :=
| Levels_done R : R ≡ ∅ -> Levels R []
| Levels_take R l ls :
    free_level R l -> l <> [] -> Levels (R ∖ list_to_set l) ls -> Levels R (l :: ls).

(** A set of modules each of which waits for another one of the set. *)
Definition stuck (R : gset string) : Prop :=
  R ≢ ∅ /\ forall n, n ∈ R -> exists d, d ∈ deps n /\ d ∈ R.

Lemma levels_loop_refines b rounds R D :
  table_of R D -> (size R <= rounds)%nat ->
  match levels_loop rounds b P (Z.of_nat (size R)) D with
  | Ok lv => exists ls, Levels R ls /\ lv = map (omap (fun name => b !! name)) ls /\
      Forall (Sorted String.le) ls
  | Err _ => exists S, S ⊆ R /\ stuck S
  end.
Proof.
  revert R D. induction rounds as [|rounds IH]; intros R D HD Hsz; cbn [levels_loop].
  { exists []. split; [|by split]. constructor. apply size_empty_inv. lia. }
  destruct (Z.ltb_spec 0 (Z.of_nat (size R))) as [Hpos|Hz]; last first.
  { exists []. split; [|by split]. constructor. apply size_empty_inv. lia. }
  pose proof (free_names_level R D HD) as Hfree.
  destruct (free_names D) as [|n0 l0] eqn:Hn.
  - exists R. split; [done|]. split; [intros E; apply size_empty_iff in E; lia|].
    intros n HR. destruct Hfree as (_ & Hf).
    destruct (filter (fun d => d ∈ R) (deps n)) as [|d l] eqn:Hfl.
    + assert (n ∈ []) as Hbad; [|by apply elem_of_nil in Hbad].
      rw -Hn. apply elem_of_free_names. rw HD decide_True //. by rw Hfl.
    + exists d. assert (Hin : d ∈ filter (fun d => d ∈ R) (deps n)) by (rw Hfl; left).
      by apply list_elem_of_filter in Hin as [? ?].
  - set (names := n0 :: l0) in *.
    assert (Hsub : (list_to_set names : gset string) ⊆ R).
    { intros n Hin. apply elem_of_list_to_set in Hin. destruct Hfree as (_ & Hf).
      by apply Hf in Hin as [? _]. }
    destruct Hfree as (Hnd & Hf).
    assert (Hszd : (size R = size (R ∖ list_to_set names) + length names)%nat).
    { rw size_difference // size_list_to_set //.
      pose proof (subseteq_size _ _ Hsub) as Hle. rw size_list_to_set // in Hle. lia. }
    specialize (IH _ _ (remove_level_table _ _ _ HD Hnd Hsub)).
    replace (Z.of_nat (size R) - Z.of_nat (length names))
      with (Z.of_nat (size (R ∖ list_to_set names))) by lia.
    assert (Hlt : (0 < length names)%nat) by (cbn; lia).
    destruct (levels_loop rounds b P _ _) as [lv|e].
    + destruct IH as (ls & HL & -> & Hso); [lia|]. exists (names :: ls). split; [|split].
      * constructor; [done|done|done].
      * done.
      * constructor; [|done]. rw -Hn. apply Sorted_merge_sort, _.
    + destruct IH as (S & HS & Hst); [lia|]. exists S. split; [set_solver|done].
Qed.
End Rounds.

(** ** What the levels guarantee *)

Section LevelsFacts.
Context (deps : string -> list string).

Lemma Levels_elem R ls n : Levels deps R ls -> n ∈ concat ls <-> n ∈ R.
Proof.
  induction 1 as [R HR|R l ls (_ & Hf) Hne HL IH]; [set_solver|].
  cbn [concat]. rw elem_of_app IH elem_of_difference elem_of_list_to_set.
  destruct (decide (n ∈ l)) as [Hn|Hn]; [|tauto]. apply Hf in Hn as Hn'. tauto.
Qed.

Lemma Levels_NoDup R ls : Levels deps R ls -> NoDup (concat ls).
Proof.
  induction 1 as [R HR|R l ls (Hnd & _) Hne HL IH]; [constructor|].
  cbn [concat]. apply NoDup_app. split; [done|]. split; [|done].
  intros n Hn Hn'. apply (Levels_elem _ _ _ HL) in Hn'. set_solver.
Qed.

Lemma Levels_nth R ls i l :
  Levels deps R ls -> ls !! i = Some l -> l <> [].
Proof.
  intros HL. revert i. induction HL as [R HR|R l0 ls _ Hne HL IH]; [done|].
  intros [|i] Hi; cbn in Hi; [by injection Hi as <-|eauto].
Qed.

(** Every dependency that has to be enabled at all is in an earlier level. *)
Lemma Levels_before R ls i l n d :
  Levels deps R ls -> ls !! i = Some l -> n ∈ l -> d ∈ deps n -> d ∈ R ->
  exists j lj, (j < i)%nat /\ ls !! j = Some lj /\ d ∈ lj.
Proof.
  intros HL. revert i. induction HL as [R HR|R l0 ls (_ & Hf) Hne HL IH]; [done|].
  intros [|i] Hi Hn Hd HR; cbn in Hi.
  - injection Hi as <-. apply Hf in Hn as [_ Hn]. by destruct (Hn d).
  - destruct (decide (d ∈ l0)) as [Hd0|Hd0]; [exists 0%nat, l0; split; [lia|done]|].
    destruct (IH i Hi Hn Hd) as (j & lj & Hj & Hlj & Hdj); [set_solver|].
    exists (Datatypes.S j), lj. split; [lia|done].
Qed.

(** No module waits longer than it has to: it depends on the level before it. *)
Lemma Levels_tight R ls i l n :
  Levels deps R ls -> ls !! Datatypes.S i = Some l -> n ∈ l ->
  exists d l', d ∈ deps n /\ ls !! i = Some l' /\ d ∈ l'.
Proof.
  intros HL. revert i. induction HL as [R HR|R l0 ls (_ & Hf) Hne HL IH]; [done|].
  intros [|i] Hi Hn; cbn in Hi; [|by apply (IH i)].
  inversion HL as [|R' l1 ls1 (_ & Hf1)]; subst; [done|]. cbn in Hi. injection Hi as ->.
  apply Hf1 in Hn as [Hn Hdeps].
  destruct (decide (Exists (fun d => d ∈ l0) (deps n))) as [Hd|Hno].
  { apply list.Exists_exists in Hd as (d & Hd & Hd0). by exists d, l0. }
  exfalso. assert (Hl0 : n ∈ l0); [|set_solver].
  apply Hf. split; [set_solver|]. intros d Hd HdR. apply (Hdeps d Hd).
  apply elem_of_difference. split; [done|]. rw elem_of_list_to_set. intros ?.
  apply Hno, list.Exists_exists. by exists d.
Qed.
End LevelsFacts.

(** ** From names back to modules *)

Definition keyed (b : gmap string ModuleConfig) (ms : list ModuleConfig) : Prop :=
  forall n m, b !! n = Some m <-> m ∈ ms /\ Name m = n.

Lemma level_names b ms (l : list string) :
  keyed b ms -> (forall n, n ∈ l -> is_Some (b !! n)) ->
  map Name (omap (fun name => b !! name) l) = l.
Proof.
  intros Hk. induction l as [|n l IH]; intros Hl; [done|]. cbn.
  destruct (Hl n) as [m Hm]; [by left|]. rw Hm. apply Hk in Hm as [_ Hm].
  cbn. rw Hm. f_equal. apply IH. intros n' Hn'. apply Hl. by right.
Qed.

Lemma elem_of_level b ms (l : list string) m :
  keyed b ms -> m ∈ omap (fun name => b !! name) l <-> m ∈ ms /\ Name m ∈ l.
Proof.
  intros Hk. rw list_elem_of_omap. split.
  - intros (n & Hn & Hm). apply Hk in Hm as [Hm <-]. done.
  - intros [Hm Hn]. exists (Name m). split; [done|]. by apply Hk.
Qed.

Lemma concat_omap (b : gmap string ModuleConfig) (ls : list (list string)) :
  concat (map (omap (fun name => b !! name)) ls) =
  omap (fun name => b !! name) (concat ls) :> list ModuleConfig.
Proof. induction ls as [|l ls IH]; [done|]. cbn. by rw IH omap_app. Qed.

Lemma map_names b ms ls :
  keyed b ms -> (forall n, n ∈ concat ls -> is_Some (b !! n)) ->
  map (map Name) (map (omap (fun name => b !! name)) ls) = ls.
Proof.
  intros Hk. induction ls as [|l ls IH]; intros Hl; [done|]. cbn.
  rw (level_names _ _ _ Hk); [intros n Hn; apply Hl; cbn; set_solver|].
  f_equal. apply IH. intros n Hn. apply Hl. cbn. set_solver.
Qed.

Lemma levels_permutation b ms ls :
  keyed b ms -> NoDup (map Name ms) -> NoDup (concat ls) ->
  (forall n, n ∈ concat ls <-> n ∈ map Name ms) ->
  concat (map (omap (fun name => b !! name)) ls) ≡ₚ ms.
Proof.
  intros Hk Hms Hnd Hel. rw concat_omap. apply NoDup_Permutation.
  - apply (NoDup_fmap_1 Name).
    change (NoDup (map Name (omap (fun name => b !! name) (concat ls)))).
    rw (level_names _ _ _ Hk) //. intros n Hn. apply Hel in Hn.
    apply list_elem_of_fmap in Hn as (m & -> & Hm). exists m. by apply Hk.
  - by apply (NoDup_fmap_1 Name).
  - intros m. rw (elem_of_level _ _ _ _ Hk) Hel. split; [tauto|].
    intros Hm. split; [done|]. apply list_elem_of_fmap. eauto.
Qed.

Lemma NoDup_deps_in b n : NoDup (deps_in b n).
Proof. unfold deps_in. destruct (b !! n); [apply NoDup_uniq|constructor]. Qed.

Lemma deps_in_keyed b ms m :
  keyed b ms -> m ∈ ms -> deps_in b (Name m) = uniq ∅ (Dependencies m).
Proof. intros Hk Hm. unfold deps_in. by rw (proj2 (Hk (Name m) m)). Qed.

(** The table built by the counting phase is the table of all modules. *)
Lemma initial_indegree ms D n :
  foldl (fun (acc : gmap string Z) m => <[Name m := 0]> acc) D ms !! n =
  if decide (n ∈ map Name ms) then Some 0 else D !! n.
Proof.
  revert D. induction ms as [|m ms IH]; intros D; cbn [foldl map]; [done|].
  rw IH lookup_insert. repeat case_decide; set_solver.
Qed.

(** What the configuration has to satisfy: no nil entry, no duplicate, no
    dependency on itself or on a module that is not listed. *)
Definition admissible (modules : list (option ModuleConfig)) (ms : list ModuleConfig) : Prop :=
  modules = map Some ms /\ NoDup (map Name ms) /\
  forall m d, m ∈ ms -> d ∈ Dependencies m -> d <> Name m /\ d ∈ map Name ms.

Lemma index_modules_complete ms b :
  NoDup (map Name ms) -> (forall m, m ∈ ms -> b !! Name m = None) ->
  exists b', index_modules (map Some ms) b = Ok (ms, b').
Proof.
  revert b. induction ms as [|m ms IH]; intros b Hnd Hb; cbn; [eauto|].
  apply NoDup_cons in Hnd as [Hm Hnd]. rw Hb; [by left|].
  destruct (IH (<[Name m := m]> b) Hnd) as [b' ->]; [|eauto].
  intros m' Hm'. rw lookup_insert_ne; [|apply Hb; by right].
  intros Heq. apply Hm. rw Heq. apply list_elem_of_fmap. eauto.
Qed.

Lemma count_deps_complete b name deps seen D P :
  (forall d, d ∈ deps -> d <> name /\ is_Some (b !! d)) ->
  exists r, count_deps b name deps seen D P = Ok r.
Proof.
  revert seen D P. induction deps as [|d deps IH]; intros seen D P Hd; cbn [count_deps]; [eauto|].
  destruct (Hd d) as [Hne [m Hm]]; [by left|].
  apply String.eqb_neq in Hne as ->. rw Hm.
  destruct (decide (d ∈ seen)); apply IH; intros d' Hd'; apply Hd; by right.
Qed.

Lemma count_all_complete b ms D P :
  (forall m d, m ∈ ms -> d ∈ Dependencies m -> d <> Name m /\ is_Some (b !! d)) ->
  exists r, count_all b ms D P = Ok r.
Proof.
  revert D P. induction ms as [|m ms IH]; intros D P Hd; cbn [count_all]; [eauto|].
  destruct (count_deps_complete b (Name m) (Dependencies m) ∅ D P) as [[D' P'] ->].
  { intros d. apply Hd. by left. }
  apply IH. intros m' d Hm'. apply Hd. by right.
Qed.

Lemma keyed_dom b ms n : keyed b ms -> is_Some (b !! n) <-> n ∈ map Name ms.
Proof.
  intros Hk. split.
  - intros [m Hm]. apply Hk in Hm as [Hm <-]. apply list_elem_of_fmap. eauto.
  - intros (m & -> & Hm)%list_elem_of_fmap. exists m. by apply Hk.
Qed.

(** The phases before the loop succeed exactly on admissible configurations, and
    then leave the table of all modules. *)
Lemma counting_ok ms b D P :
  keyed b ms -> NoDup (map Name ms) ->
  count_all b ms (foldl (fun acc m => <[Name m := 0]> acc) ∅ ms) ∅ = Ok (D, P) ->
  (forall m d, m ∈ ms -> d ∈ Dependencies m -> d <> Name m /\ d ∈ map Name ms) /\
  table_of (deps_in b) (list_to_set (map Name ms)) D /\
  (forall d n, occ n (default [] (P !! d)) = occ d (deps_in b n)).
Proof.
  intros Hk Hnd H. destruct (count_all_ok _ _ _ _ _ _ H Hnd) as (H1 & H2 & H3 & H4).
  { intros m Hm. rw initial_indegree decide_True //. apply list_elem_of_fmap. eauto. }
  assert (Hdeps : forall m d, m ∈ ms -> d ∈ Dependencies m -> d <> Name m /\ d ∈ map Name ms).
  { intros m d Hm Hd. destruct (H1 m d Hm Hd) as [? Hb]. split; [done|].
    by apply (keyed_dom b). }
  assert (HP : forall d, default [] (P !! d) =
    map Name (filter (fun m => d ∈ uniq ∅ (Dependencies m)) ms)) by done.
  split; [done|]. split.
  - intros n. destruct (decide (n ∈ list_to_set (map Name ms))) as [Hn|Hn].
    + apply elem_of_list_to_set, list_elem_of_fmap in Hn as (m & -> & Hm).
      rw H2 // (deps_in_keyed b ms) //. do 3 f_equal.
      symmetry. apply filter_true. intros d [Hd _]%elem_of_uniq.
      apply elem_of_list_to_set. by apply (Hdeps m).
    + rw elem_of_list_to_set in Hn. rw H3 // initial_indegree decide_False //.
  - intros d n. rw HP !occ_NoDup; [|apply NoDup_deps_in|].
    { eapply sublist_NoDup; [exact Hnd|]. apply (fmap_sublist Name), sublist_filter. }
    apply decide_ext. rw list_elem_of_fmap. split.
    + intros (m & -> & [Hd Hm]%list_elem_of_filter). by rw (deps_in_keyed b ms).
    + intros Hd. unfold deps_in in Hd. destruct (b !! n) as [m|] eqn:Hm; [|set_solver].
      apply Hk in Hm as [Hm <-]. exists m. split; [done|]. by apply list_elem_of_filter.
Qed.

Lemma buildModuleLevels_cases modules :
  match buildModuleLevels modules with
  | Ok levels => exists ms b ls,
      admissible modules ms /\ keyed b ms /\
      Levels (deps_in b) (list_to_set (map Name ms)) ls /\
      levels = map (omap (fun name => b !! name)) ls /\
      Forall (Sorted String.le) ls
  | Err _ => forall ms, admissible modules ms ->
      exists b S, keyed b ms /\ S ⊆ list_to_set (map Name ms) /\ stuck (deps_in b) S
  end.
Proof.
  unfold buildModuleLevels. destruct (index_modules modules ∅) as [[ms b]|e] eqn:Hi; last first.
  { intros ms (-> & Hnd & _). destruct (index_modules_complete ms ∅ Hnd) as [b Hb]; [|congruence].
    intros m _. apply lookup_empty. }
  destruct (index_modules_ok _ _ _ _ Hi) as (-> & Hnd & Hin & Hout & _).
  assert (Hk : keyed b ms).
  { intros n m. split; [intros [Hb|?]%Hout; [by rw lookup_empty in Hb|done]|].
    intros [Hm <-]. by apply Hin. }
  destruct (count_all b ms _ ∅) as [[D P]|e] eqn:Hc; last first.
  { intros ms' (Heq%(inj (map Some)) & _ & Hd). subst ms'.
    destruct (count_all_complete b ms (foldl (fun acc m => <[Name m := 0]> acc) ∅ ms) ∅)
      as [r Hr]; [|congruence].
    intros m d Hm Hd'. destruct (Hd m d Hm Hd'). split; [done|]. by apply (keyed_dom b ms). }
  destruct (counting_ok _ _ _ _ Hk Hnd Hc) as (Hd & HD & HP).
  assert (Hsz : size (list_to_set (map Name ms) : gset string) = length ms).
  { rw size_list_to_set // length_map //. }
  pose proof (levels_loop_refines (deps_in b) P HP b (length ms) _ D HD) as HL.
  rw Hsz in HL. specialize (HL (le_n _)).
  destruct (levels_loop _ b P _ D) as [lv|e].
  - destruct HL as (ls & HL & -> & Hs). by exists ms, b, ls.
  - intros ms' (Heq%(inj (map Some)) & _ & _). subst ms'. destruct HL as (S & HS & Hst).
    by exists b, S.
Qed.

(** A rank that decreases along dependencies leaves no stuck set. *)
Lemma rank_not_stuck b ms S (rank : string -> nat) :
  keyed b ms -> (forall m d, m ∈ ms -> d ∈ Dependencies m -> (rank d < rank (Name m))%nat) ->
  ~ stuck (deps_in b) S.
Proof.
  intros Hk Hr [Hne Hst]. apply set_choose in Hne as [n Hn].
  revert n Hn. assert (forall k n, (rank n < k)%nat -> n ∉ S) as H; [|intros n; apply (H (1 + rank n)%nat n); lia].
  intros k. induction k as [|k IH]; intros n Hlt Hn; [lia|].
  destruct (Hst n Hn) as (d & Hd & HdS). refine (IH d _ HdS).
  unfold deps_in in Hd. destruct (b !! n) as [m|] eqn:Hm; [|set_solver].
  apply Hk in Hm as [Hm <-]. apply elem_of_uniq in Hd as [Hd _].
  specialize (Hr m d Hm Hd). lia.
Qed.

(** A dependency listed in the configuration is counted. *)
Lemma in_deps_in b ms m d : keyed b ms -> m ∈ ms -> d ∈ deps_in b (Name m) <-> d ∈ Dependencies m.
Proof. intros Hk Hm. rw (deps_in_keyed b ms) // elem_of_uniq. set_solver. Qed.

Lemma elem_of_map_Name m ms : m ∈ ms -> Name m ∈ map Name ms.
Proof. intros Hm. apply list_elem_of_fmap. eauto. Qed.

(** The number of its level ranks a module above its dependencies. *)
Lemma Levels_rank deps R ls :
  Levels deps R ls ->
  exists rank : string -> nat,
    forall n d, n ∈ R -> d ∈ deps n -> d ∈ R -> (rank d < rank n)%nat.
Proof.
  intros HL. exists (fun n => default 0%nat (fst <$> list_find (fun l => n ∈ l) ls)).
  assert (Hfind : forall n, n ∈ R ->
    exists i l, list_find (fun l => n ∈ l) ls = Some (i, l) /\ ls !! i = Some l /\ n ∈ l /\
      forall j y, ls !! j = Some y -> (j < i)%nat -> n ∉ y).
  { intros n Hn. apply (Levels_elem _ _ _ _ HL) in Hn. apply list_elem_of_In, in_concat in Hn.
    destruct Hn as (l & Hl & Hn). rw -!list_elem_of_In in Hl Hn.
    destruct (list_find_elem_of (fun l => n ∈ l) ls l Hl Hn) as [[i l'] Hi].
    exists i, l'. split; [done|]. by apply list_find_Some in Hi. }
  intros n d Hn Hd HdR. destruct (Hfind n Hn) as (i & l & -> & Hi & Hnl & _).
  destruct (Hfind d HdR) as (i' & l' & -> & Hi' & Hdl & Hleast). cbn.
  destruct (Levels_before _ _ _ _ _ _ _ HL Hi Hnl Hd HdR) as (j & lj & Hj & Hlj & Hdj).
  destruct (decide (i' <= j)%nat); [lia|]. exfalso. apply (Hleast j lj Hlj); [lia|done].
Qed.

(** Where a module of a level and a name of a level come from. *)
Lemma level_lookup b ms R ls i lv m :
  keyed b ms -> Levels (deps_in b) R ls ->
  map (omap (fun name => b !! name)) ls !! i = Some lv -> m ∈ lv ->
  exists l, ls !! i = Some l /\ Name m ∈ l /\ m ∈ ms.
Proof.
  intros Hk HL Hi Hm. apply list_lookup_fmap_Some in Hi as (l & -> & Hl).
  apply (elem_of_level _ _ _ _ Hk) in Hm as [Hm Hn]. eauto.
Qed.

Lemma name_level b ms ls j (l : list string) d :
  keyed b ms -> d ∈ map Name ms -> ls !! j = Some l -> d ∈ l ->
  exists lv m', map (omap (fun name => b !! name)) ls !! j = Some lv /\ m' ∈ lv /\ Name m' = d.
Proof.
  intros Hk (m' & -> & Hm')%list_elem_of_fmap Hj Hd.
  exists (omap (fun name => b !! name) l), m'. split; [|split; [|done]].
  - rw list_lookup_fmap Hj //.
  - by apply (elem_of_level _ _ _ _ Hk).
Qed.

Lemma buildModuleLevels_perm modules levels :
  buildModuleLevels modules = Ok levels -> map Some (concat levels) ≡ₚ modules.
Proof.
  intros H. pose proof (buildModuleLevels_cases modules) as Hc. rw H in Hc.
  destruct Hc as (ms & b & ls & (-> & Hnd & Hd) & Hk & HL & -> & Hso).
  apply Permutation_map, levels_permutation; [done|done|by eapply Levels_NoDup|].
  intros n. rw (Levels_elem _ _ _ _ HL). by rw elem_of_list_to_set.
Qed.

Lemma buildModuleLevels_earlier modules levels i lv m d :
  buildModuleLevels modules = Ok levels ->
  levels !! i = Some lv -> m ∈ lv -> d ∈ Dependencies m ->
  exists j lv' m', (j < i)%nat /\ levels !! j = Some lv' /\ m' ∈ lv' /\ Name m' = d.
Proof.
  intros H. pose proof (buildModuleLevels_cases modules) as Hc. rw H in Hc.
  destruct Hc as (ms & b & ls & (-> & Hnd & Hd) & Hk & HL & -> & Hso).
  intros Hi Hm Hdm. destruct (level_lookup _ _ _ _ _ _ _ Hk HL Hi Hm) as (l & Hl & Hn & Hms).
  destruct (Hd m d Hms Hdm) as [_ Hd'].
  destruct (Levels_before _ _ _ _ _ _ d HL Hl Hn) as (j & lj & Hj & Hlj & Hdj).
  { by apply (in_deps_in b ms). }
  { by apply elem_of_list_to_set. }
  destruct (name_level b ms ls j lj d Hk Hd' Hlj Hdj) as (lv' & m' & ? & ? & ?).
  by exists j, lv', m'.
Qed.

(** C19: The levels of a successful [buildModuleLevels] hold every configured module
    exactly once; no level is empty and each is sorted by name; every dependency of a
    module is in a strictly earlier level, and a module that is not in the first level
    has a dependency in the level just before its own. *)
Theorem buildModuleLevels_sound modules levels :
  buildModuleLevels modules = Ok levels ->
  map Some (concat levels) ≡ₚ modules /\
  (forall i lv, levels !! i = Some lv -> lv <> [] /\ Sorted String.le (map Name lv)) /\
  (forall i lv m d, levels !! i = Some lv -> m ∈ lv -> d ∈ Dependencies m ->
     exists j lv' m', (j < i)%nat /\ levels !! j = Some lv' /\ m' ∈ lv' /\ Name m' = d) /\
  (forall i lv m, levels !! Datatypes.S i = Some lv -> m ∈ lv ->
     exists lv' m', levels !! i = Some lv' /\ m' ∈ lv' /\ Name m' ∈ Dependencies m).
Proof.
  intros H. split; [by apply buildModuleLevels_perm|].
  split; [|split; [intros *; by apply (buildModuleLevels_earlier modules)|]];
    pose proof (buildModuleLevels_cases modules) as Hc; rw H in Hc;
    destruct Hc as (ms & b & ls & (-> & Hnd & Hd) & Hk & HL & -> & Hso).
  - intros i lv Hi. assert (Hn : map (map Name) (map (omap (fun name => b !! name)) ls) !! i
        = Some (map Name lv)) by rw list_lookup_fmap Hi //.
    rw (map_names _ _ _ Hk) in Hn.
    { intros n Hn'. apply (Levels_elem _ _ _ _ HL) in Hn'.
      apply (keyed_dom b ms); [done|]. by apply elem_of_list_to_set in Hn'. }
    pose proof (Levels_nth _ _ _ _ _ HL Hn) as Hne. split; [by intros ->|].
    by apply (Forall_lookup_1 _ _ _ _ Hso Hn).
  - intros i lv m Hi Hm. destruct (level_lookup _ _ _ _ _ _ _ Hk HL Hi Hm) as (l & Hl & Hn & Hms).
    destruct (Levels_tight _ _ _ _ _ _ HL Hl Hn) as (d & l' & Hd0 & Hl' & Hdl).
    apply (in_deps_in b ms) in Hd0; [|done..].
    destruct (Hd m d Hms Hd0) as [_ Hd'].
    destruct (name_level b ms ls i l' d Hk Hd' Hl' Hdl) as (lv' & m' & ? & ? & <-).
    by exists lv', m'.
Qed.

(** C20: [buildModuleLevels] succeeds exactly on the configurations that list no nil and
    no duplicate module, depend only on listed modules, and have no dependency cycle (a
    rank of the modules decreases along every dependency). *)
Theorem buildModuleLevels_ok_iff modules :
  (exists levels, buildModuleLevels modules = Ok levels) <->
  (exists ms rank, modules = map Some ms /\ NoDup (map Name ms) /\
     (forall m d, m ∈ ms -> d ∈ Dependencies m -> d ∈ map Name ms) /\
     (forall m d, m ∈ ms -> d ∈ Dependencies m -> (rank d < rank (Name m))%nat)).
Proof.
  pose proof (buildModuleLevels_cases modules) as Hc. split.
  - intros [levels H]. rw H in Hc.
    destruct Hc as (ms & b & ls & (-> & Hnd & Hd) & Hk & HL & -> & Hso).
    destruct (Levels_rank _ _ _ HL) as [rank Hr].
    exists ms, rank. split; [done|]. split; [done|]. split; [intros m d Hm Hdm; by apply (Hd m)|].
    intros m d Hm Hdm. destruct (Hd m d Hm Hdm) as [_ Hd']. apply Hr.
    + by apply elem_of_list_to_set, elem_of_map_Name.
    + by apply (in_deps_in b ms).
    + by apply elem_of_list_to_set.
  - intros (ms & rank & -> & Hnd & Hd & Hr).
    destruct (buildModuleLevels _) as [levels|e]; [eauto|]. exfalso.
    destruct (Hc ms) as (b & S & Hk & _ & Hst).
    { split; [done|]. split; [done|]. intros m d Hm Hdm. split; [|by apply (Hd m)].
      intros ->. specialize (Hr m _ Hm Hdm). lia. }
    by apply (rank_not_stuck b ms S rank Hk Hr).
Qed.

Lemma buildModuleLevels_sound_witness :
  let node := mkModule "sds-node" 1 true None [] "" in
  let local := mkModule "sds-local" 1 true None ["sds-node"] "" in
  buildModuleLevels [Some local; Some node] = Ok [[node]; [local]] /\
  exists lv' m', [[node]; [local]] !! 0%nat = Some lv' /\ m' ∈ lv' /\
    Name m' ∈ Dependencies local.
Proof.
  intros node local.
  assert (H : buildModuleLevels [Some local; Some node] = Ok [[node]; [local]])
    by (vm_compute; reflexivity).
  split; [exact H|].
  destruct (buildModuleLevels_sound _ _ H) as (_ & _ & _ & Ht).
  apply (Ht 0%nat [local] local); [reflexivity|by left].
Defined.
