(* ===== verification/ModuleGraph.v ===== *)
(** The dependency order of [src/pkg/kubernetes/modules.go] ([buildModuleGraph],
    [topologicalSortLevels]), a second implementation of the order of [ModuleLevels]
    that the test kit uses, and that both agree. The modules are non-nil pointers. *)
From S2P Require Import Prelude Errors Retry Config ModuleLevels.

Local Open Scope Z_scope.

Record moduleGraph := mkGraph {
  modules : gmap string ModuleConfig;
  dependencies : gmap string (list string);
  reverseDeps : gmap string (list string)
}.

Definition add_reverse (name : string) (rev : gmap string (list string)) (depName : string) :=
  <[depName := default [] (rev !! depName) ++ [name]]> rev.

Definition add_module (g : moduleGraph) (m : ModuleConfig) : moduleGraph :=
  mkGraph (<[Name m := m]> (modules g)) (<[Name m := Dependencies m]> (dependencies g))
    (foldl (add_reverse (Name m)) (reverseDeps g) (Dependencies m)).

(** The first dependency that no module of the configuration has the name of. *)
Fixpoint missing_dep (g : moduleGraph) (name : string) (deps : list string) : option error :=
  match deps with
  | [] => None
  | depName :: deps' =>
      match modules g !! depName with
      | Some _ => missing_dep g name deps'
      | None => Some (Errorf ("dependency module " +:+ depName +:+ " not found for module " +:+ name))
      end
  end.

Fixpoint missing_deps (g : moduleGraph) (ms : list ModuleConfig) : option error :=
  match ms with
  | [] => None
  | m :: ms' =>
      match missing_dep g (Name m) (Dependencies m) with
      | Some e => Some e
      | None => missing_deps g ms'
      end
  end.

Definition buildModuleGraph (ms : list ModuleConfig) : result moduleGraph :=
  let graph := foldl add_module (mkGraph ∅ ∅ ∅) ms in
  match missing_deps graph ms with
  | Some e => Err e
  | None => Ok graph
  end.

(** Taking the modules of a level out of the in-degrees, one after another. *)
Definition take_out (reverseDeps : gmap string (list string)) (inDegree : gmap string Z)
    (name : string) : gmap string Z :=
  foldl decrement (delete name inDegree) (default [] (reverseDeps !! name)).

Section Order.
(** The order in which [range] visits a map is not specified. *)
Context (range : gmap string Z -> list (string * Z)).

Definition free_in_order (inDegree : gmap string Z) : list string :=
  map fst (filter (fun p => p.2 = 0) (range inDegree)).

(** Every round takes out a module, so [size inDegree] rounds are enough. *)
Fixpoint sort_loop (rounds : nat) (graph : moduleGraph) (inDegree : gmap string Z)
    : result (list (list ModuleConfig)) :=
  match rounds with
  | O => Ok []
  | S rounds' =>
      if (0 <? Z.of_nat (size inDegree)) then
        let currentLevel := omap (fun name => modules graph !! name) (free_in_order inDegree) in
        match currentLevel with
        | [] => Err (Errorf ("circular dependency detected among modules: " +:+
                  fmt_strings (map fst (range inDegree))))
        | _ =>
            match sort_loop rounds' graph
                    (foldl (take_out (reverseDeps graph)) inDegree (map Name currentLevel)) with
            | Err e => Err e
            | Ok levels => Ok (currentLevel :: levels)
            end
        end
      else Ok []
  end.

Definition topologicalSortLevels (graph : moduleGraph) : result (list (list ModuleConfig)) :=
  let inDegree := map_imap (fun name _ =>
    Some (Z.of_nat (length (default [] (dependencies graph !! name))))) (modules graph) in
  sort_loop (size inDegree) graph inDegree.
End Order.

(** ** The graph *)

Lemma occ_repeat_reverse name deps rev d n :
  occ n (default [] (foldl (add_reverse name) rev deps !! d)) =
  (occ n (default [] (rev !! d)) + (if decide (name = n) then occ d deps else 0))%nat.
Proof.
  revert rev. induction deps as [|x deps IH]; intros rev; cbn [foldl].
  { case_decide; cbn; lia. }
  rw IH. unfold add_reverse. destruct (decide (x = d)) as [->|Hx].
  - rw lookup_insert_eq. cbn [from_option id]. rw occ_app !occ_cons.
    destruct (decide (d = d)); [|done]. change (occ n []) with 0%nat. case_decide; lia.
  - rw lookup_insert_ne // occ_cons. destruct (decide (x = d)); [done|]. case_decide; lia.
Qed.

(** The graph of modules with distinct names. *)
Definition graph_of (ms : list ModuleConfig) (g : moduleGraph) : Prop :=
  keyed (modules g) ms /\
  (forall n, default [] (dependencies g !! n) =
     match modules g !! n with Some m => Dependencies m | None => [] end) /\
  (forall d n, occ n (default [] (reverseDeps g !! d)) =
     occ d (default [] (dependencies g !! n))).

Lemma graph_of_add ms g m :
  graph_of ms g -> Name m ∉ map Name ms -> graph_of (ms ++ [m]) (add_module g m).
Proof.
  intros (Hk & Hd & Hr) Hm. split; [|split]; cbn.
  - intros n m'. rw lookup_insert elem_of_app list_elem_of_singleton.
    destruct (decide (Name m = n)) as [<-|Hn].
    + split; [intros [= <-]; tauto|]. intros [[Hm'|Hm'] Heq]; [|by rw Hm'].
      destruct Hm. rw -Heq. by apply elem_of_map_Name.
    + rw Hk. split; [tauto|]. intros [[?|Heq] ?]; [done|]. destruct Hn. congruence.
  - intros n. rw !lookup_insert. by case_decide.
  - intros d n. rw occ_repeat_reverse Hr lookup_insert.
    destruct (decide (Name m = n)) as [<-|Hn]; [|by rw Nat.add_0_r].
    rw Hd. destruct (modules g !! Name m) as [m'|] eqn:Hg; [|done].
    apply Hk in Hg as [Hg Heq]. destruct Hm. rw -Heq. by apply elem_of_map_Name.
Qed.

Lemma graph_of_all ms ms0 g :
  graph_of ms0 g -> NoDup (map Name (ms0 ++ ms)) -> graph_of (ms0 ++ ms) (foldl add_module g ms).
Proof.
  revert ms0 g. induction ms as [|m ms IH]; intros ms0 g Hg Hnd; cbn [foldl].
  { by rw app_nil_r. }
  replace (ms0 ++ m :: ms) with ((ms0 ++ [m]) ++ ms) in * by by rw -app_assoc.
  apply IH; [|done]. apply graph_of_add; [done|].
  rw map_app map_app in Hnd. cbn in Hnd. apply NoDup_app in Hnd as [Hnd _].
  apply NoDup_app in Hnd as (_ & Hnd & _). set_solver.
Qed.

Lemma missing_dep_ok g name deps :
  missing_dep g name deps = None <-> forall d, d ∈ deps -> is_Some (modules g !! d).
Proof.
  induction deps as [|d deps IH]; cbn; [set_solver|].
  destruct (modules g !! d) as [m|] eqn:Hd; rw ?IH; split; try done.
  - intros H d' [->|?]%elem_of_cons; [eauto|auto].
  - intros H d' ?. apply H. by right.
  - intros H. destruct (H d) as [? ?]; [by left|]. congruence.
Qed.

Lemma missing_deps_ok g ms :
  missing_deps g ms = None <-> forall m d, m ∈ ms -> d ∈ Dependencies m -> is_Some (modules g !! d).
Proof.
  induction ms as [|m ms IH]; cbn; [set_solver|].
  destruct (missing_dep g (Name m) (Dependencies m)) as [e|] eqn:Hm.
  - split; [done|]. intros H. assert (Hn : missing_dep g (Name m) (Dependencies m) = None); [|congruence].
    apply missing_dep_ok. intros d. apply H. by left.
  - rw IH. rw missing_dep_ok in Hm. split; [intros H m' d [->|?]%elem_of_cons; eauto|].
    intros H m' d ?. apply H. by right.
Qed.

(** ** The rounds *)

Lemma take_out_all rev names D n :
  foldl (take_out rev) D names !! n =
  if decide (n ∈ names) then None
  else (fun d => d - Z.of_nat (occ n (concat (map (fun x => default [] (rev !! x)) names)))) <$>
         D !! n.
Proof.
  revert D. induction names as [|x names IH]; intros D; cbn [foldl map concat].
  { cbn. destruct (D !! n); [|done]. cbn. f_equal. lia. }
  rw IH. unfold take_out. rw decrement_all lookup_delete.
  destruct (decide (n ∈ names)) as [H|H], (decide (n ∈ x :: names)) as [H'|H']; try set_solver.
  - by destruct (decide (x = n)); [|set_solver].
  - destruct (decide (x = n)); [set_solver|]. destruct (D !! n); [|done]. cbn.
    f_equal. rw occ_app. lia.
Qed.

Section Refinement.
Context (range : gmap string Z -> list (string * Z)).
Hypothesis range_perm : forall D, range D ≡ₚ map_to_list D.
Context (ms : list ModuleConfig) (g : moduleGraph) (Hg : graph_of ms g).

Definition graph_deps (n : string) : list string := default [] (dependencies g !! n).

Lemma elem_of_free_in_order D n : n ∈ free_in_order range D <-> D !! n = Some 0.
Proof.
  rw -elem_of_free_names /free_names /free_in_order merge_sort_Permutation.
  by rw range_perm.
Qed.

Lemma free_in_order_level R D :
  table_of graph_deps R D -> free_level graph_deps R (free_in_order range D).
Proof.
  intros HD. destruct (free_names_level graph_deps R D HD) as [Hnd Hf]. split.
  - revert Hnd. unfold free_names, free_in_order. rw merge_sort_Permutation. by rw range_perm.
  - intros n. by rw elem_of_free_in_order -elem_of_free_names.
Qed.

Lemma take_out_table R D names :
  table_of graph_deps R D -> NoDup names -> (list_to_set names : gset string) ⊆ R ->
  table_of graph_deps (R ∖ list_to_set names) (foldl (take_out (reverseDeps g)) D names).
Proof.
  intros HD Hnd Hsub n.
  rw take_out_all -(remove_level_table graph_deps (reverseDeps g) _ R D names HD Hnd Hsub n).
  { intros d n'. by destruct Hg as (_ & _ & ->). }
  unfold remove_level. rw decrement_all delete_all. by case_decide.
Qed.

Lemma table_size R D : table_of graph_deps R D -> size D = size R.
Proof.
  intros HD. rw -size_dom. f_equal. apply set_eq. intros n. rw elem_of_dom HD.
  case_decide; split; [done..| |done]. by intros [? ?].
Qed.

Lemma sort_loop_refines rounds R D :
  table_of graph_deps R D -> R ⊆ list_to_set (map Name ms) -> (size R <= rounds)%nat ->
  match sort_loop range rounds g D with
  | Ok lv => exists ls, Levels graph_deps R ls /\ lv = map (omap (fun n => modules g !! n)) ls
  | Err _ => exists S, S ⊆ R /\ stuck graph_deps S
  end.
Proof.
  revert R D. induction rounds as [|rounds IH]; intros R D HD HR Hsz; cbn [sort_loop].
  { exists []. split; [|done]. constructor. apply size_empty_inv. lia. }
  rw (table_size R D HD). destruct (Z.ltb_spec 0 (Z.of_nat (size R))); last first.
  { exists []. split; [|done]. constructor. apply size_empty_inv. lia. }
  pose proof (free_in_order_level R D HD) as Hfree. destruct (Hfree) as [Hnd Hf].
  set (names := free_in_order range D) in *.
  assert (Hsub : (list_to_set names : gset string) ⊆ R).
  { intros n Hin. apply elem_of_list_to_set in Hin. by apply Hf in Hin as [? _]. }
  assert (Hnames : map Name (omap (fun n => modules g !! n) names) = names).
  { apply (level_names _ ms); [apply Hg|]. intros n Hn. apply (keyed_dom _ ms); [apply Hg|].
    apply (elem_of_list_to_set (C := gset string)), HR, Hsub. by apply elem_of_list_to_set. }
  destruct (omap _ names) as [|m0 l0] eqn:Hl.
  - cbn in Hnames. exists R. split; [done|].
    split; [intros E; apply size_empty_iff in E; lia|].
    intros n Hn. destruct (filter (fun d => d ∈ R) (graph_deps n)) as [|d l] eqn:Hfl.
    + assert (n ∈ []) as Hbad; [|by apply elem_of_nil in Hbad].
      rw Hnames. apply elem_of_free_in_order. rw HD decide_True //. by rw Hfl.
    + exists d. assert (Hin : d ∈ filter (fun d => d ∈ R) (graph_deps n)) by (rw Hfl; left).
      by apply list_elem_of_filter in Hin as [? ?].
  - rw Hnames. specialize (IH _ _ (take_out_table _ _ _ HD Hnd Hsub)).
    assert (Hlt : names <> []) by by intros E; rw E in Hnames.
    assert (Hsz' : (size (R ∖ list_to_set names) < size R)%nat).
    { apply subset_size. destruct names as [|n names']; [done|]. set_solver. }
    destruct (sort_loop range rounds g _) as [lv|e].
    + destruct IH as (ls & HL & ->); [set_solver|lia|]. exists (names :: ls). split.
      * by constructor.
      * cbn. by rw Hl.
    + destruct IH as (S & HS & Hst); [set_solver|lia|]. exists S. split; [set_solver|done].
Qed.
End Refinement.

(** ** Both orders agree *)

Lemma Levels_unique deps1 deps2 R ls1 ls2 :
  (forall n d, n ∈ R -> d ∈ deps1 n <-> d ∈ deps2 n) ->
  Levels deps1 R ls1 -> Levels deps2 R ls2 -> Forall2 Permutation ls1 ls2.
Proof.
  intros Hd H1. revert ls2. induction H1 as [R HR|R l1 ls1 [Hnd1 Hf1] Hne1 H1 IH]; intros ls2 H2.
  - inversion H2 as [|? l2 ? [_ Hf] Hne]; subst; [constructor|].
    destruct l2 as [|n l2]; [done|]. exfalso. apply (not_elem_of_empty (C := gset string) n).
    rw -HR. apply Hf. by left.
  - inversion H2 as [? HR|? l2 ls2' [Hnd2 Hf2] Hne2 H2']; subst.
    { destruct l1 as [|n l1]; [done|]. exfalso. apply (not_elem_of_empty (C := gset string) n).
      rw -HR. apply Hf1. by left. }
    assert (Hl : forall n, n ∈ l1 <-> n ∈ l2).
    { intros n. rw Hf1 Hf2. split; intros [HR H]; (split; [done|]); intros d; rw ?Hd //;
        intros Hdd; apply H; by rw ?Hd // -?Hd. }
    assert (HS : R ∖ list_to_set l1 = R ∖ list_to_set l2) by set_solver.
    constructor; [by apply NoDup_Permutation|]. apply IH; [set_solver|]. by rw HS.
Qed.

Lemma Levels_not_stuck deps deps' R ls S :
  (forall n d, n ∈ R -> d ∈ deps n <-> d ∈ deps' n) ->
  Levels deps R ls -> S ⊆ R -> ~ stuck deps' S.
Proof.
  intros Hd HL HS [Hne Hst]. destruct (Levels_rank _ _ _ HL) as [rank Hr].
  apply set_choose in Hne as [n Hn].
  assert (Hno : forall k n, (rank n < k)%nat -> n ∉ S);
    [|by apply (Hno (1 + rank n)%nat n); [lia|]].
  intros k. induction k as [|k IH]; intros n' Hlt Hn'; [lia|].
  destruct (Hst n' Hn') as (d & Hdd & HdS). apply (IH d); [|done].
  assert (rank d < rank n')%nat; [|lia]. apply Hr; [set_solver| |set_solver].
  apply Hd; [set_solver|done].
Qed.

Lemma graph_deps_spec ms g b n d :
  graph_of ms g -> keyed b ms -> d ∈ deps_in b n <-> d ∈ graph_deps g n.
Proof.
  intros (Hk & Hdeps & _) Hb. unfold graph_deps, deps_in. rw Hdeps.
  destruct (b !! n) as [m|] eqn:Hn.
  - rw (proj2 (Hk n m)) //; [by apply Hb|]. rw elem_of_uniq. set_solver.
  - destruct (modules g !! n) as [m|] eqn:Hg; [|done].
    apply Hk, Hb in Hg. congruence.
Qed.

Lemma perm_omap (f : string -> option ModuleConfig) ls1 ls2 :
  Forall2 Permutation ls1 ls2 ->
  Forall2 Permutation (map (omap f) ls1) (map (omap f) ls2).
Proof. induction 1; constructor; [by apply omap_Permutation|done]. Qed.

Lemma initial_table ms g :
  graph_of ms g ->
  (forall m d, m ∈ ms -> d ∈ Dependencies m -> d ∈ map Name ms) ->
  table_of (graph_deps g) (list_to_set (map Name ms))
    (map_imap (fun name _ => Some (Z.of_nat (length (graph_deps g name)))) (modules g)).
Proof.
  intros (Hk & Hdeps & _) Hd n. rw map_lookup_imap.
  destruct (decide (n ∈ list_to_set (map Name ms))) as [Hn|Hn].
  - apply elem_of_list_to_set, (keyed_dom _ _ n Hk) in Hn as [m Hm]. rw Hm. cbn.
    do 3 f_equal. symmetry. apply filter_true. intros d. unfold graph_deps. rw Hdeps Hm.
    intros Hdm. apply elem_of_list_to_set. apply Hk in Hm as [Hm _]. by apply (Hd m).
  - destruct (modules g !! n) as [m|] eqn:Hm; [|done]. destruct Hn.
    apply elem_of_list_to_set, (keyed_dom _ _ n Hk). by exists m.
Qed.

Definition sortModules range (ms : list ModuleConfig) : result (list (list ModuleConfig)) :=
  match buildModuleGraph ms with
  | Err e => Err e
  | Ok graph => topologicalSortLevels range graph
  end.

Lemma sortModules_cases range ms :
  (forall D, range D ≡ₚ map_to_list D) -> NoDup (map Name ms) ->
  exists g, graph_of ms g /\
  match sortModules range ms with
  | Ok lv => (forall m d, m ∈ ms -> d ∈ Dependencies m -> d ∈ map Name ms) /\
      exists ls, Levels (graph_deps g) (list_to_set (map Name ms)) ls /\
        lv = map (omap (fun n => modules g !! n)) ls
  | Err _ => (forall m d, m ∈ ms -> d ∈ Dependencies m -> d ∈ map Name ms) ->
      exists S, S ⊆ list_to_set (map Name ms) /\ stuck (graph_deps g) S
  end.
Proof.
  intros Hr Hnd. exists (foldl add_module (mkGraph ∅ ∅ ∅) ms).
  assert (Hg : graph_of ms (foldl add_module (mkGraph ∅ ∅ ∅) ms)).
  { apply (graph_of_all ms []); [|done]. split; [|split]; [|done..].
    intros n m. cbn. rw lookup_empty. split; [done|]. intros [?%elem_of_nil _]. done. }
  split; [done|]. unfold sortModules, buildModuleGraph.
  set (g := foldl _ _ ms) in *.
  assert (Hdom : (forall m d, m ∈ ms -> d ∈ Dependencies m -> is_Some (modules g !! d)) <->
    (forall m d, m ∈ ms -> d ∈ Dependencies m -> d ∈ map Name ms)).
  { split; intros H m d Hm Hd; apply (keyed_dom _ ms d (proj1 Hg)); eauto. }
  destruct (missing_deps g ms) as [e|] eqn:Hm.
  { intros H. pose proof (proj2 (missing_deps_ok g ms) (proj2 Hdom H)). congruence. }
  pose proof (proj1 Hdom (proj1 (missing_deps_ok g ms) Hm)) as Hin.
  pose proof (initial_table ms g Hg Hin) as HD. unfold topologicalSortLevels.
  change (fun name _ => Some (Z.of_nat (length (default [] (dependencies g !! name)))))
    with (fun (name : string) (_ : ModuleConfig) =>
            Some (Z.of_nat (length (graph_deps g name)))).
  rw (table_size _ _ _ HD).
  pose proof (sort_loop_refines range Hr ms g Hg _ _ _ HD ltac:(done) (le_n _)) as HL.
  by destruct (sort_loop _ _ _ _).
Qed.

Lemma keyed_unique b1 b2 ms : keyed b1 ms -> keyed b2 ms -> b1 = b2.
Proof. intros H1 H2. apply map_eq. intros n. apply option_eq. intros m. by rw (H1 n m) (H2 n m). Qed.

(** C35: The two implementations of the module order agree on every configuration with
    distinct module names, whatever order Go's [range] visits maps in: one fails exactly
    when the other does, and otherwise they put the same modules in the same levels. *)
Theorem topologicalSortLevels_equiv range ms :
  (forall D, range D ≡ₚ map_to_list D) -> NoDup (map Name ms) ->
  match buildModuleLevels (map Some ms), sortModules range ms with
  | Ok levels, Ok levels' => Forall2 Permutation levels levels'
  | Err _, Err _ => True
  | _, _ => False
  end.
Proof.
  intros Hr Hnd. destruct (sortModules_cases range ms Hr Hnd) as (g & Hg & H2).
  pose proof (buildModuleLevels_cases (map Some ms)) as H1.
  destruct (buildModuleLevels _) as [l1|e1], (sortModules range ms) as [l2|e2]; [| | |done].
  - destruct H1 as (ms' & b & ls1 & (<-%(inj (map Some)) & _ & Hd) & Hk & HL1 & -> & _).
    destruct H2 as (_ & ls2 & HL2 & ->).
    rw (keyed_unique _ _ _ (proj1 Hg) Hk). apply perm_omap.
    eapply Levels_unique; [|exact HL1|exact HL2]. intros n d _. by apply (graph_deps_spec ms).
  - destruct H1 as (ms' & b & ls1 & (<-%(inj (map Some)) & _ & Hd) & Hk & HL1 & -> & _).
    destruct H2 as (S & HS & Hst); [intros m d Hm Hdm; by apply (Hd m)|].
    revert Hst. eapply Levels_not_stuck; [|exact HL1|exact HS].
    intros n d _. by apply (graph_deps_spec ms).
  - destruct H2 as (Hin & ls2 & HL2 & ->).
    destruct (H1 ms) as (b & S & Hk & HS & Hst).
    { split; [done|]. split; [done|]. intros m d Hm Hd. split; [|by apply (Hin m)].
      intros ->. destruct (Levels_rank _ _ _ HL2) as [rank Hrank].
      assert (rank (Name m) < rank (Name m))%nat; [|lia].
      apply Hrank; [by apply elem_of_list_to_set, elem_of_map_Name| |
        by apply elem_of_list_to_set, elem_of_map_Name].
      apply (graph_deps_spec ms _ _ _ _ Hg (proj1 Hg)), (in_deps_in _ ms); [apply Hg|done|done]. }
    revert Hst. eapply Levels_not_stuck; [|exact HL2|exact HS].
    intros n d _. symmetry. by apply (graph_deps_spec ms).
Qed.

Definition module_needing (name : string) (deps : list string) : ModuleConfig :=
  mkModule name 1 true None deps "".

Lemma topologicalSortLevels_equiv_witness :
  match buildModuleLevels (map Some [module_needing "sds-local" ["sds-node"; "sds-node"];
                                     module_needing "sds-node" []]),
        sortModules map_to_list [module_needing "sds-local" ["sds-node"; "sds-node"];
                                 module_needing "sds-node" []] with
  | Ok levels, Ok levels' => Forall2 Permutation levels levels'
  | Err _, Err _ => True
  | _, _ => False
  end.
Proof.
  apply topologicalSortLevels_equiv; [done|]. apply (bool_decide_unpack _). vm_compute. done.
Defined.

(** A module listed twice: the legacy order keeps the in-degree of the last entry and the
    reverse dependencies of both, so a configuration without a cycle is rejected as
    circular. *)
Example duplicate_module_reported_as_cycle :
  sortModules map_to_list [module_needing "a" ["b"]; module_needing "a" ["c"];
                           module_needing "b" []; module_needing "c" []] =
  Err (Errorf "circular dependency detected among modules: [a]").
Proof. vm_compute. reflexivity. Qed.

(** ** What the test kit's order guarantees *)

Lemma sortModules_earlier range ms levels i lv m d :
  (forall D, range D ≡ₚ map_to_list D) -> NoDup (map Name ms) ->
  sortModules range ms = Ok levels ->
  levels !! i = Some lv -> m ∈ lv -> d ∈ Dependencies m ->
  exists j lv' m', (j < i)%nat /\ levels !! j = Some lv' /\ m' ∈ lv' /\ Name m' = d /\ m' ∈ ms.
Proof.
  intros Hr Hnd H. destruct (sortModules_cases range ms Hr Hnd) as (g & Hg & Hc). rw H in Hc.
  destruct Hc as (Hin & ls & HL & ->). pose proof (proj1 Hg) as Hk. intros Hi Hm Hd.
  apply list_lookup_fmap_Some in Hi as (l & -> & Hl).
  apply (elem_of_level _ _ _ _ Hk) in Hm as [Hm Hn].
  pose proof (Hin m d Hm Hd) as Hdn.
  destruct (Levels_before _ _ _ _ _ _ d HL Hl Hn) as (j & lj & Hj & Hlj & Hdj).
  { apply (graph_deps_spec ms _ _ _ _ Hg Hk), (in_deps_in _ ms); done. }
  { by apply elem_of_list_to_set. }
  destruct (name_level (modules g) ms ls j lj d Hk Hdn Hlj Hdj) as (lv' & m' & Hlv & Hm' & Hn').
  exists j, lv', m'. repeat (split; [done|]).
  apply list_lookup_fmap_Some in Hlv as (l' & -> & _).
  by apply (elem_of_level _ _ _ _ Hk) in Hm' as [? _].
Qed.
