(* ===== verification/Deckhouse.v ===== *)
(** Package [internal/kubernetes/deckhouse]: reading and writing the Deckhouse resources
    of a cluster ([modules.go], [nodegroups.go], [client.go]), and
    [src/pkg/kubernetes/nodegroup.go] on top of it. *)
From S2P Require Import Prelude Errors Retry Config Kube.

Local Open Scope Z_scope.
Local Open Scope go_scope.

(** ** The objects, by the fields the code reads or writes *)
Record ModuleConfigSpec := mkMC {
  mcVersion : Z;
  mcEnabled : bool;
  mcSettings : list (string * value)
}.

Record ModulePullOverrideSpec := mkMPO {
  ImageTag : string;
  ScanInterval : Z;
  Rollback : bool
}.

Record Condition := mkCondition {
  Type_ : string;
  Status_ : string;
  Reason_ : string;
  Message : string
}.

Record Module_ := mkModuleStatus { Phase : string; Conditions : list Condition }.

Record NodeGroup := mkNodeGroup { nodeType : string }.

(** The calls of other packages that make a client: the registration of both API
    versions and [client.New], which performs API discovery. *)
Class ClientFactory (W : Type) := {
  addV1alpha1 : M W (option error);
  addV1alpha2 : M W (option error);
  clientNew : M W (option error)
}.

Section Client.
Context {W : Type} `{AE : ApiErrors, CX : Ctx W, CF : ClientFactory W}.
Context `{MC : Client W ModuleConfigSpec, MP : Client W ModulePullOverrideSpec}.
Context `{MS : Client W Module_, NG : Client W NodeGroup}.

Definition newClientOnce : M W (unit * option error) :=
  let! err := addV1alpha1 in
  match err with
  | Some e => mret (tt, Some (ErrorfW "failed to add deckhouse v1alpha1 scheme: " e ""))
  | None =>
      let! err := addV1alpha2 in
      match err with
      | Some e => mret (tt, Some (ErrorfW "failed to add deckhouse v1alpha2 scheme: " e ""))
      | None =>
          let! err := clientNew in
          match err with
          | Some e => mret (tt, Some (ErrorfW "failed to create controller-runtime client: " e ""))
          | None => mret (tt, None)
          end
      end
  end.

Definition NewClient : M W (unit * option error) :=
  Do ctxErr timerFires newClientOnce DefaultConfig tt.

(** The first lines of every function below. *)
Definition with_client {A} (fail : error -> A) (k : M W A) : M W A :=
  let! '(_, err) := NewClient in
  match err with
  | Some e => mret (fail (ErrorfW "failed to create deckhouse client: " e ""))
  | None => k
  end.

Definition wrap_err {A} (pre : string) (r : result A) : result A :=
  match r with Ok a => Ok a | Err e => Err (ErrorfW pre e "") end.
Definition wrap_error (pre : string) (r : option error) : option error :=
  match r with None => None | Some e => Some (ErrorfW pre e "") end.

Definition GetModule (moduleName : string) : M W (result Module_) :=
  with_client Err (
    let! r := clientGet moduleName in
    mret (wrap_err ("failed to get module " +:+ moduleName +:+ ": ") r)).

Definition GetModuleConfig (moduleName : string) : M W (result ModuleConfigSpec) :=
  with_client Err (
    let! r := clientGet moduleName in
    mret (wrap_err ("failed to get moduleconfig " +:+ moduleName +:+ ": ") r)).

Definition GetModulePullOverride (moduleName : string) : M W (result ModulePullOverrideSpec) :=
  with_client Err (
    let! r := clientGet moduleName in
    mret (wrap_err ("failed to get modulepulloverride " +:+ moduleName +:+ ": ") r)).

Definition CreateModuleConfig (moduleName : string) (version : Z) (enabled : bool)
    (settings : list (string * value)) : M W (option error) :=
  with_client Some (
    let! err := clientCreate moduleName (mkMC version enabled settings) in
    mret (wrap_error ("failed to create moduleconfig " +:+ moduleName +:+ ": ") err)).

Definition UpdateModuleConfig (moduleName : string) (version : Z) (enabled : bool)
    (settings : list (string * value)) : M W (option error) :=
  with_client Some (
    let! existing := clientGet (O := ModuleConfigSpec) moduleName in
    match existing with
    | Err e => mret (Some (ErrorfW ("failed to get moduleconfig " +:+ moduleName +:+ ": ") e ""))
    | Ok _ =>
        let! err := clientUpdate moduleName (mkMC version enabled settings) in
        mret (wrap_error ("failed to update moduleconfig " +:+ moduleName +:+ ": ") err)
    end).

(** The scan interval is the constant [1m], whose parse cannot fail. *)
Definition overrideSpec (imageTag : string) : ModulePullOverrideSpec :=
  mkMPO imageTag Minute false.

Definition CreateModulePullOverride (moduleName imageTag : string) : M W (option error) :=
  with_client Some (
    let! err := clientCreate moduleName (overrideSpec imageTag) in
    mret (wrap_error ("failed to create modulepulloverride " +:+ moduleName +:+ ": ") err)).

Definition UpdateModulePullOverride (moduleName imageTag : string) : M W (option error) :=
  with_client Some (
    let! existing := clientGet (O := ModulePullOverrideSpec) moduleName in
    match existing with
    | Err e =>
        mret (Some (ErrorfW ("failed to get modulepulloverride " +:+ moduleName +:+ ": ") e ""))
    | Ok _ =>
        let! err := clientUpdate moduleName (overrideSpec imageTag) in
        mret (wrap_error ("failed to update modulepulloverride " +:+ moduleName +:+ ": ") err)
    end).

Definition GetNodeGroup (name : string) : M W (result NodeGroup) :=
  with_client Err (
    let! r := clientGet name in
    mret (wrap_err ("failed to get nodegroup " +:+ name +:+ ": ") r)).

Definition CreateNodeGroup (name nodeType : string) : M W (option error) :=
  with_client Some (
    let! err := clientCreate name (mkNodeGroup nodeType) in
    mret (wrap_error ("failed to create nodegroup " +:+ name +:+ ": ") err)).

Definition nodeGroupRetry : Retry.Config :=
  mkConfig 30 (2 * Second) (15 * Second) float_1_5 true.

Definition CreateStaticNodeGroup (name : string) : M W (option error) :=
  DoVoid ctxErr timerFires nodeGroupRetry (
    let! r := GetNodeGroup name in
    match r with
    | Ok _ => mret None
    | Err e =>
        if negb (IsNotFound (Some e))
        then mret (Some (ErrorfW ("failed to check if nodegroup " +:+ name +:+ " exists: ") e ""))
        else
          let! err := CreateNodeGroup name "Static" in
          mret (wrap_error ("failed to create nodegroup " +:+ name +:+ ": ") err)
    end).
End Client.

(** ** Successful writes *)

Section Writes.
Context {W : Type} `{AE : ApiErrors, CX : Ctx W, CF : ClientFactory W}.
Context `{MC : Client W ModuleConfigSpec, MCL : !ClientLaws W ModuleConfigSpec}.
Context `{MP : Client W ModulePullOverrideSpec, MPL : !ClientLaws W ModulePullOverrideSpec}.
Context `{NG : Client W NodeGroup, NGL : !ClientLaws W NodeGroup}.

Lemma with_client_inv {A} (fail : error -> A) (k : M W A) w a w' :
  with_client fail k w = (a, w') -> (exists e, a = fail e) \/ exists w1, k w1 = (a, w').
Proof.
  intros H. unfold with_client in H. mstep H as [[u e] w1] E.
  destruct e as [e|]; [left; by injection H as <- _; eauto|eauto].
Qed.

Lemma wrap_error_None pre r : wrap_error pre r = None -> r = None.
Proof. by destruct r. Qed.

Lemma CreateModuleConfig_ok n v en st w w' :
  CreateModuleConfig n v en st w = (None, w') -> objs w' !! n = Some (mkMC v en st).
Proof.
  intros [[e He]|[w1 H]]%with_client_inv; [done|]. mstep H as [r w2] E.
  injection H as Hr <-. apply wrap_error_None in Hr as ->.
  apply create_ok in E as [_ ->]. apply lookup_insert_eq.
Qed.

Lemma UpdateModuleConfig_ok n v en st w w' :
  UpdateModuleConfig n v en st w = (None, w') -> objs w' !! n = Some (mkMC v en st).
Proof.
  intros [[e He]|[w1 H]]%with_client_inv; [done|]. mstep H as [r w2] E. destruct r; [|done].
  mstep H as [r w3] E3. injection H as Hr <-. apply wrap_error_None in Hr as ->.
  apply update_ok in E3 as [_ ->]. apply lookup_insert_eq.
Qed.

Lemma CreateModulePullOverride_ok n tag w w' :
  CreateModulePullOverride n tag w = (None, w') -> objs w' !! n = Some (overrideSpec tag).
Proof.
  intros [[e He]|[w1 H]]%with_client_inv; [done|]. mstep H as [r w2] E.
  injection H as Hr <-. apply wrap_error_None in Hr as ->.
  apply create_ok in E as [_ ->]. apply lookup_insert_eq.
Qed.

Lemma UpdateModulePullOverride_ok n tag w w' :
  UpdateModulePullOverride n tag w = (None, w') -> objs w' !! n = Some (overrideSpec tag).
Proof.
  intros [[e He]|[w1 H]]%with_client_inv; [done|]. mstep H as [r w2] E. destruct r; [|done].
  mstep H as [r w3] E3. injection H as Hr <-. apply wrap_error_None in Hr as ->.
  apply update_ok in E3 as [_ ->]. apply lookup_insert_eq.
Qed.

Lemma GetNodeGroup_ok n w o w' : GetNodeGroup n w = (Ok o, w') -> objs w' !! n = Some o.
Proof.
  intros [[e He]|[w1 H]]%with_client_inv; [done|]. mstep H as [r w2] E.
  injection H as Hr <-. destruct r as [o'|]; [|done]. injection Hr as <-.
  by apply get_ok in E as [? ->].
Qed.

Lemma CreateNodeGroup_ok n t w w' :
  CreateNodeGroup n t w = (None, w') -> objs w' !! n = Some (mkNodeGroup t).
Proof.
  intros [[e He]|[w1 H]]%with_client_inv; [done|]. mstep H as [r w2] E.
  injection H as Hr <-. apply wrap_error_None in Hr as ->.
  apply create_ok in E as [_ ->]. apply lookup_insert_eq.
Qed.

(** When [CreateStaticNodeGroup] returns nil a NodeGroup of that name exists, whether it
    was there before, created now, or created by an attempt whose answer was lost. *)
Theorem CreateStaticNodeGroup_ok `{CL : !CtxLaws W} name w w' :
  CreateStaticNodeGroup name w = (None, w') -> is_Some (objs (O := NodeGroup) w' !! name).
Proof.
  intros H. refine (proj2 (DoVoid_rule _ _ (fun _ => True)
    (fun w' => is_Some (objs (O := NodeGroup) w' !! name)) _ _ _ _ _ _ _ _ _ _ _ H) eq_refl);
    try done; [apply ctx_done|].
  intros w1 e w2 _ H1. split; [done|]. intros ->. mstep H1 as [r w3] E.
  destruct r as [o|e].
  - injection H1 as <-. apply GetNodeGroup_ok in E. eauto.
  - destruct (negb _); [done|]. mstep H1 as [r w4] E4. injection H1 as Hr <-.
    apply wrap_error_None in Hr as ->. apply CreateNodeGroup_ok in E4. eauto.
Qed.
End Writes.

(** ** Deadlines *)

Class TimedFactory (W : Type) `{Deadline W, ClientFactory W} : Prop := {
  v1alpha1_bounded : bounded addV1alpha1;
  v1alpha2_bounded : bounded addV1alpha2;
  new_bounded : bounded clientNew
}.

Section Bounds.
Context {W : Type} `{AE : ApiErrors, CX : Ctx W, DL : !Deadline W}.
Context `{CF : ClientFactory W, TF : !TimedFactory W}.

Lemma do_loop_bounded {T} (fn : M W (T * option error)) n cfg wait r le :
  bounded fn -> bounded (do_loop ctxErr timerFires fn n cfg wait r le).
Proof.
  intros Hf. revert wait r le. induction n as [|n IH]; intros wait r le; cbn [do_loop];
    [apply ret_bounded|].
  apply bind_bounded; [intros w; apply left_ctx|]. intros [ce|]; [apply ret_bounded|].
  apply bind_bounded; [done|]. intros [t [e|]]; [|apply ret_bounded]. cbn [is_nil negb].
  destruct (IsRetryable (Some e)); [|apply ret_bounded]. cbn [negb].
  destruct (0 <? Z.of_nat n); [|apply IH].
  apply bind_bounded; [intros w; apply left_timer|]. intros [|]; [apply IH|].
  apply bind_bounded; [intros w; apply left_ctx|intros; apply ret_bounded].
Qed.

Lemma NewClient_bounded : bounded NewClient.
Proof.
  apply do_loop_bounded. apply bind_bounded; [apply v1alpha1_bounded|].
  intros [e|]; [apply ret_bounded|]. apply bind_bounded; [apply v1alpha2_bounded|].
  intros [e|]; [apply ret_bounded|]. apply bind_bounded; [apply new_bounded|].
  intros [e|]; apply ret_bounded.
Qed.

Lemma with_client_bounded {A} (fail : error -> A) (k : M W A) :
  bounded k -> bounded (with_client fail k).
Proof.
  intros Hk. apply bind_bounded; [apply NewClient_bounded|]. intros [u [e|]]; [apply ret_bounded|done].
Qed.

Lemma GetModule_bounded `{MS : Client W Module_, TC : !TimedClient W Module_} n :
  bounded (GetModule n).
Proof. apply with_client_bounded. apply bind_bounded; [apply get_bounded|intros; apply ret_bounded]. Qed.
End Bounds.

(** ** On the server in memory *)
#[export] Instance mem_factory O : ClientFactory (memWorld O) := {|
  addV1alpha1 := mret None; addV1alpha2 := mret None; clientNew := mret None |}.

#[export] Instance mem_timed_factory O : TimedFactory (memWorld O).
Proof. split; apply ret_bounded. Qed.

#[export] Instance pair_factory W1 W2 `{F1 : ClientFactory W1} : ClientFactory (W1 * W2) := {|
  addV1alpha1 := on_fst addV1alpha1; addV1alpha2 := on_fst addV1alpha2;
  clientNew := on_fst clientNew |}.

Definition empty_world {O} (faults : list (option string)) (ticks : nat) : memWorld O :=
  mkWorld (mkMem ∅ faults) ticks false.

(** The webhook refuses the first two creates: the third attempt goes through. *)
Definition webhook_down : memWorld NodeGroup :=
  empty_world [None; Some "failed calling webhook: EOF"; None; Some "failed calling webhook: EOF"] 5.

Lemma CreateStaticNodeGroup_ok_witness :
  (CreateStaticNodeGroup "worker" webhook_down).1 = None /\
  is_Some (objs (O := NodeGroup) (CreateStaticNodeGroup "worker" webhook_down).2 !! "worker").
Proof.
  assert (H : (CreateStaticNodeGroup "worker" webhook_down).1 = None) by (vm_compute; reflexivity).
  split; [exact H|]. apply (CreateStaticNodeGroup_ok "worker" webhook_down).
  rewrite <- H. apply surjective_pairing.
Defined.
