(* ===== verification/Modules.v ===== *)
(** Enabling Deckhouse modules in a cluster:
    [src/internal/provisioning/dvp/modules.go] ([enableModulesInLevels] and the upserts)
    and [src/pkg/kubernetes/modules.go] (the test kit's [EnableAndConfigureModules],
    [WaitForModuleReady] and the writes they rest on). *)
From S2P Require Import Prelude Errors Retry Config Kube Deckhouse ModuleLevels ModuleGraph.

Local Open Scope Z_scope.
Local Open Scope go_scope.

Definition devRegistryPrefix := "dev-".
Definition defaultModulePullTag := "main".

Definition moduleApplyRetry : Retry.Config :=
  mkConfig 30 (2 * Second) (30 * Second) float_1_5 true.

Definition settings_of (mc : ModuleConfig) : list (string * value) := default [] (Settings mc).

(** The image tag of the override, when there is to be one. *)
Definition overrideTag (mc : ModuleConfig) (registryRepo : string) : option string :=
  if HasPrefix registryRepo devRegistryPrefix
  then Some (if String.eqb (ModulePullOverride mc) "" then defaultModulePullTag
             else ModulePullOverride mc)
  else None.

Section Writes.
Context {W : Type} `{AE : ApiErrors, CX : Ctx W, CF : ClientFactory W}.
Context `{MC : Client W ModuleConfigSpec, MP : Client W ModulePullOverrideSpec}.

Definition upsertModuleConfig (mc : ModuleConfig) : M W (option error) :=
  DoVoid ctxErr timerFires moduleApplyRetry (
    let! r := GetModuleConfig (Name mc) in
    match r with
    | Err e =>
        if IsNotFound (Some e)
        then CreateModuleConfig (Name mc) (Version mc) (Enabled mc) (settings_of mc)
        else mret (Some e)
    | Ok _ => UpdateModuleConfig (Name mc) (Version mc) (Enabled mc) (settings_of mc)
    end).

Definition upsertModulePullOverride (mc : ModuleConfig) (registryRepo : string)
    : M W (option error) :=
  match overrideTag mc registryRepo with
  | None => mret None
  | Some imageTag =>
      DoVoid ctxErr timerFires moduleApplyRetry (
        let! r := GetModulePullOverride (Name mc) in
        match r with
        | Err e =>
            if IsNotFound (Some e) then CreateModulePullOverride (Name mc) imageTag
            else mret (Some e)
        | Ok _ => UpdateModulePullOverride (Name mc) imageTag
        end)
  end.

Definition apply (mc : ModuleConfig) (registryRepo : string) : M W (option error) :=
  let! err := upsertModuleConfig mc in
  if negb (is_nil err) then mret err else upsertModulePullOverride mc registryRepo.

(** ** The test kit's writes *)

Definition isRetryableModuleConfigError (err : option error) : bool :=
  IsRetryable err || IsAPINotRegisteredError err.

Definition maxRetryDelay : Z := 30 * Second.
Definition nextDelay (retryDelay : Z) : Z :=
  let d := int_of_float (float_mul (float_of_int retryDelay) float_1_5) in
  if maxRetryDelay <? d then maxRetryDelay else d.

(** One iteration per unit of [left] = [maxRetries - attempt]. *)
Fixpoint configureModuleConfig_loop (left : nat) (mc : ModuleConfig) (retryDelay : Z)
    (lastErr : option error) : M W (option error) :=
  match left with
  | O => mret (Some (ErrorfWn ("failed to configure moduleconfig " +:+ Name mc +:+
           " after 60 attempts: ") lastErr ""))
  | S left' =>
      let! r := GetModuleConfig (Name mc) in
      let! '(verb, err) :=
        match r with
        | Err _ =>
            let! err := CreateModuleConfig (Name mc) (Version mc) (Enabled mc) (settings_of mc) in
            mret ("create", err)
        | Ok _ =>
            let! err := UpdateModuleConfig (Name mc) (Version mc) (Enabled mc) (settings_of mc) in
            mret ("update", err)
        end in
      match err with
      | None => mret None
      | Some e =>
          if isRetryableModuleConfigError err && (0 <? Z.of_nat left') then
            let! fired := timerFires retryDelay in
            if fired : bool
            then configureModuleConfig_loop left' mc (nextDelay retryDelay) err
            else ctxErr
          else mret (Some (ErrorfW ("failed to " +:+ verb +:+ " moduleconfig " +:+ Name mc +:+
                                      ": ") e ""))
      end
  end.

Definition configureModuleConfig (mc : ModuleConfig) : M W (option error) :=
  configureModuleConfig_loop 60 mc (2 * Second) None.

(** [first] is [attempt == 0]: every later attempt waits first. *)
Fixpoint configureModulePullOverride_loop (left : nat) (first : bool) (mc : ModuleConfig)
    (imageTag : string) (retryDelay : Z) (lastErr : option error) : M W (option error) :=
  match left with
  | O => mret match lastErr with
      | Some e => Some (ErrorfW ("failed to configure ModulePullOverride for " +:+ Name mc +:+
          " after 5 attempts: ") e "")
      | None => None
      end
  | S left' =>
      let! fired := (if first then mret true else timerFires retryDelay) in
      if fired : bool then
        let retryDelay := if first then retryDelay else retryDelay * 2 in
        let! r := GetModulePullOverride (Name mc) in
        let! '(verb, err) :=
          match r with
          | Err _ => let! err := CreateModulePullOverride (Name mc) imageTag in mret ("create", err)
          | Ok _ => let! err := UpdateModulePullOverride (Name mc) imageTag in mret ("update", err)
          end in
        match err with
        | None => mret None
        | Some e =>
            if IsRetryable err && (0 <? Z.of_nat left')
            then configureModulePullOverride_loop left' false mc imageTag retryDelay err
            else mret (Some (ErrorfW ("failed to " +:+ verb +:+ " ModulePullOverride for " +:+
                                        Name mc +:+ ": ") e ""))
        end
      else
        let! ce := ctxErr in
        mret (Some (ErrorfWn ("context cancelled while retrying ModulePullOverride for " +:+
                                Name mc +:+ ": ") ce ""))
  end.

Definition configureModulePullOverride (mc : ModuleConfig) (registryRepo : string)
    : M W (option error) :=
  match overrideTag mc registryRepo with
  | None => mret None
  | Some imageTag => configureModulePullOverride_loop 5 true mc imageTag (2 * Second) None
  end.
End Writes.

(** ** What a successful write leaves behind *)

Section WritesOk.
Context {W : Type} `{AE : ApiErrors, CX : Ctx W, CL : !CtxLaws W, CF : ClientFactory W}.
Context `{MC : Client W ModuleConfigSpec, MCL : !ClientLaws W ModuleConfigSpec}.
Context `{MP : Client W ModulePullOverrideSpec, MPL : !ClientLaws W ModulePullOverrideSpec}.

(** The spec that the configuration of a module asks for. *)
Definition wantedConfig (mc : ModuleConfig) : ModuleConfigSpec :=
  mkMC (Version mc) (Enabled mc) (settings_of mc).

Lemma retried_ok cfg fn (Q : W -> Prop) w w' :
  0 <= MaxRetries cfg -> (forall w w', fn w = (None, w') -> Q w') ->
  DoVoid ctxErr timerFires cfg fn w = (None, w') -> Q w'.
Proof.
  intros Hm Hf H.
  refine (proj2 (DoVoid_rule _ _ (fun _ => True) Q cfg fn w None w' _ _ _ _ _ Hm H) eq_refl);
    try done; [apply ctx_done|].
  intros w1 e w2 _ H1. split; [done|]. intros ->. by eapply Hf.
Qed.

Lemma upsertModuleConfig_ok mc w w' :
  upsertModuleConfig mc w = (None, w') -> objs w' !! Name mc = Some (wantedConfig mc).
Proof.
  apply (retried_ok moduleApplyRetry _
    (fun w' => objs w' !! Name mc = Some (wantedConfig mc))); [done|].
  clear w w'. intros w w' H. mstep H as [r w1] E.
  destruct r as [o|e]; [by apply UpdateModuleConfig_ok in H|].
  destruct (IsNotFound _); [by apply CreateModuleConfig_ok in H|done].
Qed.

Lemma upsertModulePullOverride_ok mc repo tag w w' :
  overrideTag mc repo = Some tag -> upsertModulePullOverride mc repo w = (None, w') ->
  objs w' !! Name mc = Some (overrideSpec tag).
Proof.
  unfold upsertModulePullOverride. intros ->.
  apply (retried_ok moduleApplyRetry _
    (fun w' => objs w' !! Name mc = Some (overrideSpec tag))); [done|]. clear w w'.
  intros w w' H. mstep H as [r w1] E.
  destruct r as [o|e]; [by apply UpdateModulePullOverride_ok in H|].
  destruct (IsNotFound _); [by apply CreateModulePullOverride_ok in H|done].
Qed.

(** When [apply] returns nil the ModuleConfig with the configured version, switch and
    settings was stored, and then, for a dev registry only, the ModulePullOverride
    with the configured tag (or "main"); each is created or updated as needed. *)
Theorem apply_ok mc repo w w' :
  apply mc repo w = (None, w') ->
  exists w1, objs w1 !! Name mc = Some (wantedConfig mc) /\
    match overrideTag mc repo with
    | Some tag => objs w' !! Name mc = Some (overrideSpec tag)
    | None => w' = w1
    end.
Proof.
  intros H. unfold apply in H. mstep H as [err w1] E. destruct err as [e|]; [done|].
  exists w1. split; [by eapply upsertModuleConfig_ok|]. cbn in H.
  destruct (overrideTag mc repo) as [tag|] eqn:Ht.
  - by eapply upsertModulePullOverride_ok.
  - unfold upsertModulePullOverride in H. rw Ht in H. by injection H.
Qed.

Lemma configureModuleConfig_loop_ok left mc d le w w' :
  configureModuleConfig_loop left mc d le w = (None, w') ->
  objs w' !! Name mc = Some (wantedConfig mc).
Proof.
  revert d le w. induction left as [|left IH]; intros d le w H; [done|].
  cbn [configureModuleConfig_loop] in H. mstep H as [r w1] E. mstep H as [[verb err] w2] E2.
  destruct err as [e|]; last first.
  - injection H as <-. destruct r as [o|e]; mstep E2 as [err w3] E3; injection E2 as <- -> <-.
    + by apply UpdateModuleConfig_ok in E3.
    + by apply CreateModuleConfig_ok in E3.
  - destruct (_ && _); [|done]. mstep H as [b w3] E3. destruct b; [by eapply IH|].
    apply ctx_done in E3 as (e' & w4 & Hc). rw Hc in H. done.
Qed.
End WritesOk.

(** ** The levels, one after another

    The tasks of a level run concurrently. A run is the sequence of its events: a task
    starts, a task ends with its outcome. The outcomes are those of any implementation of
    the [moduleApplier] interface. *)
Inductive task := TApply (mc : ModuleConfig) | TReady (mc : ModuleConfig).
Inductive event := Start (t : task) | Done (t : task) (r : option error).

Definition task_module (t : task) : ModuleConfig :=
  match t with TApply mc => mc | TReady mc => mc end.

(** What the goroutine of a task of level [levelIdx] returns. *)
Definition task_error (levelIdx : nat) (t : task) (e : error) : error :=
  match t with
  | TApply mc => ErrorfW ("apply module " +:+ quote (Name mc) +:+ " (level " +:+
                   pretty levelIdx +:+ "): ") e ""
  | TReady mc => ErrorfW ("module " +:+ quote (Name mc) +:+ " not ready (level " +:+
                   pretty levelIdx +:+ "): ") e ""
  end.

(** [group err waiting running first tr r]: from here on the group produces the events
    [tr] and [Wait] returns [r], the error of the first task that failed. *)
Inductive group (err : task -> error -> error)
    : list task -> list task -> option error -> list event -> option error -> Prop :=
| group_end first : group err [] [] first [] first
| group_start l1 t l2 running first tr r :
    group err (l1 ++ l2) (t :: running) first tr r ->
    group err (l1 ++ t :: l2) running first (Start t :: tr) r
| group_done waiting l1 t l2 first e tr r :
    group err waiting (l1 ++ l2) (match first with Some _ => first | None => err t <$> e end) tr r ->
    group err waiting (l1 ++ t :: l2) first (Done t e :: tr) r.

(** The loop over the levels, from level [idx] on. *)
Inductive run_levels (err : nat -> task -> error -> error)
    : nat -> list (list ModuleConfig) -> list event -> option error -> Prop :=
| run_done idx : run_levels err idx [] [] None
| run_apply_failed idx level levels tr e :
    group (err idx) (map TApply level) [] None tr (Some e) ->
    run_levels err idx (level :: levels) tr (Some e)
| run_ready_failed idx level levels tr1 tr2 e :
    group (err idx) (map TApply level) [] None tr1 None ->
    group (err idx) (map TReady (filter (fun mc => Enabled mc = true) level)) [] None
      tr2 (Some e) ->
    run_levels err idx (level :: levels) (tr1 ++ tr2) (Some e)
| run_next idx level levels tr1 tr2 tr3 r :
    group (err idx) (map TApply level) [] None tr1 None ->
    group (err idx) (map TReady (filter (fun mc => Enabled mc = true) level)) [] None
      tr2 None ->
    run_levels err (S idx) levels tr3 r ->
    run_levels err idx (level :: levels) (tr1 ++ tr2 ++ tr3) r.

Inductive enableModulesInLevels (modules : list (option ModuleConfig))
    : list event -> option error -> Prop :=
| enable_nothing : modules = [] -> enableModulesInLevels modules [] None
| enable_unordered e :
    modules <> [] -> buildModuleLevels modules = Err e ->
    enableModulesInLevels modules [] (Some (ErrorfW "order modules: " e ""))
| enable_levels levels tr r :
    modules <> [] -> buildModuleLevels modules = Ok levels -> run_levels task_error 0 levels tr r ->
    enableModulesInLevels modules tr r.

(** ** Groups *)

Lemma group_starts err waiting running first tr r t :
  group err waiting running first tr r -> Start t ∈ tr -> t ∈ waiting.
Proof.
  induction 1 as [|l1 t' l2 running first tr r H IH|waiting l1 t' l2 first e tr r H IH];
    intros Ht; [set_solver|..].
  - apply elem_of_cons in Ht as [[= ->]|Ht]; [set_solver|]. specialize (IH Ht). set_solver.
  - apply elem_of_cons in Ht as [[=]|Ht]. auto.
Qed.

(** Once a task has failed the group fails. *)
Lemma group_first_stays err waiting running e tr r :
  group err waiting running (Some e) tr r -> r = Some e.
Proof. remember (Some e) as first. induction 1; simplify_eq; auto. Qed.

(** A group that reports no error ran every task, and each ended well. *)
Lemma group_ok err waiting running tr r t :
  group err waiting running None tr r -> r = None -> t ∈ waiting ++ running -> Done t None ∈ tr.
Proof.
  remember None as first eqn:Hf. intros H. revert Hf.
  induction H as [|l1 t' l2 running first tr r H IH|waiting l1 t' l2 first e tr r H IH];
    intros -> Hr Ht; [set_solver|..].
  - right. apply IH; [done|done|]. set_solver.
  - destruct e as [e|]; cbn in *.
    { apply group_first_stays in H. congruence. }
    assert (t = t' \/ t ∈ waiting ++ l1 ++ l2) as [->|Hin] by set_solver; [left|right; auto].
Qed.

(** ** The order of a run *)

(** [m] is in place: its configuration was applied and, if enabled, it became ready. *)
Definition in_place (m : ModuleConfig) (tr : list event) : Prop :=
  Done (TApply m) None ∈ tr /\ (Enabled m = true -> Done (TReady m) None ∈ tr).

Lemma in_place_mono m tr tr' : in_place m tr -> (forall ev, ev ∈ tr -> ev ∈ tr') -> in_place m tr'.
Proof. intros [H1 H2] Hs. split; [auto|]. intros He. auto. Qed.

Lemma level_in_place err level tr1 tr2 m :
  group err (map TApply level) [] None tr1 None ->
  group err (map TReady (filter (fun mc => Enabled mc = true) level)) [] None tr2 None ->
  m ∈ level -> in_place m (tr1 ++ tr2).
Proof.
  intros H1 H2 Hm. split.
  - apply elem_of_app. left. eapply group_ok; [exact H1|done|]. rw app_nil_r.
    apply list_elem_of_fmap. eauto.
  - intros He. apply elem_of_app. right. eapply group_ok; [exact H2|done|]. rw app_nil_r.
    apply list_elem_of_fmap. exists m. split; [done|]. by apply list_elem_of_filter.
Qed.

(** A split of the events of a group and of what follows at an [apply]. *)
Lemma split_app {A} (l1 l2 a b : list A) x :
  l1 ++ l2 = a ++ x :: b ->
  (exists b1, l1 = a ++ x :: b1 /\ b = b1 ++ l2) \/ (exists a2, a = l1 ++ a2 /\ l2 = a2 ++ x :: b).
Proof.
  revert a. induction l1 as [|y l1 IH]; intros a H; [right; by exists a|].
  destruct a as [|z a]; cbn in H; injection H as -> H.
  - left. exists l1. done.
  - destruct (IH _ H) as [(b1 & -> & ->)|(a2 & -> & ->)]; [left|right]; eauto.
Qed.

Lemma ready_group_starts_no_apply err level running first tr r a m b :
  group err (map TReady level) running first tr r -> tr <> a ++ Start (TApply m) :: b.
Proof.
  intros H ->. eapply group_starts in H; [|apply elem_of_app; right; by left].
  by apply list_elem_of_fmap in H as (? & ? & _).
Qed.

Lemma run_levels_order terr idx levels tr r a m b :
  run_levels terr idx levels tr r -> tr = a ++ Start (TApply m) :: b ->
  exists i level, levels !! i = Some level /\ m ∈ level /\
    forall j level' m', (j < i)%nat -> levels !! j = Some level' -> m' ∈ level' -> in_place m' a.
Proof.
  assert (Hap : forall err level running first tr r a m b,
    group err (map TApply level) running first tr r -> tr = a ++ Start (TApply m) :: b ->
    m ∈ level).
  { intros * H ->. eapply group_starts in H; [|apply elem_of_app; right; by left].
    by apply list_elem_of_fmap in H as (? & [= ->] & ?). }
  intros H. revert a. induction H as [idx|idx level levels tr e H|idx level levels tr1 tr2 e H1 H2
    |idx level levels tr1 tr2 tr3 r H1 H2 H3 IH]; intros a Htr.
  - by destruct a.
  - exists 0%nat, level. split; [done|]. split; [by eapply Hap|]. intros; lia.
  - apply split_app in Htr as [(b1 & -> & ->)|(a2 & -> & ->)].
    + exists 0%nat, level. split; [done|]. split; [by eapply Hap|]. intros; lia.
    + by eapply ready_group_starts_no_apply in H2.
  - apply split_app in Htr as [(b1 & -> & ->)|(a2 & -> & Htr)].
    { exists 0%nat, level. split; [done|]. split; [by eapply Hap|]. intros; lia. }
    apply split_app in Htr as [(b1 & -> & ->)|(a3 & -> & Htr)].
    { by eapply ready_group_starts_no_apply in H2. }
    destruct (IH a3 Htr) as (i & lv & Hi & Hm & Hpre). exists (S i), lv.
    split; [done|]. split; [done|]. intros [|j] lv' m' Hj Hlv Hm'; cbn in Hlv.
    + injection Hlv as <-. eapply in_place_mono; [by eapply (level_in_place _ _ _ _ _ H1 H2)|].
      set_solver.
    + eapply in_place_mono; [eapply (Hpre j); [lia|done|done]|]. set_solver.
Qed.

Lemma run_levels_ok terr idx levels tr m :
  run_levels terr idx levels tr None -> m ∈ concat levels -> in_place m tr.
Proof.
  remember None as r eqn:Hr. intros H. revert Hr.
  induction H as [| | |idx level levels tr1 tr2 tr3 r H1 H2 H3 IH]; intros Hr Hm; try done.
  - by apply elem_of_nil in Hm.
  - cbn in Hm. apply elem_of_app in Hm as [Hm|Hm].
    + eapply in_place_mono; [by eapply (level_in_place _ _ _ _ _ H1 H2)|]. set_solver.
    + eapply in_place_mono; [by apply IH|]. set_solver.
Qed.

(** C21: In every run of [enableModulesInLevels], under any interleaving of the tasks of a
    level and any outcomes of the applier, the configuration of a module is applied
    only after each of its dependencies was applied without error and, if it is enabled,
    was reported ready. *)
Theorem enableModulesInLevels_order modules tr r a m b d :
  enableModulesInLevels modules tr r -> tr = a ++ Start (TApply m) :: b -> d ∈ Dependencies m ->
  exists m', Some m' ∈ modules /\ Name m' = d /\ in_place m' a.
Proof.
  intros H Htr Hd. destruct H as [_|e _ _|levels tr r _ HL Hrun]; [by destruct a..|].
  destruct (run_levels_order _ _ _ _ _ _ _ _ Hrun Htr) as (i & lv & Hi & Hm & Hpre).
  destruct (buildModuleLevels_earlier _ _ _ _ _ _ HL Hi Hm Hd) as (j & lv' & m' & Hj & Hlv & Hm' & Hn).
  exists m'. split; [|split; [done|by eapply Hpre]].
  rw -(buildModuleLevels_perm _ _ HL). apply list_elem_of_fmap. exists m'. split; [done|].
  apply list_elem_of_In, in_concat. exists lv'. rw -!list_elem_of_In.
  split; [by eapply list_elem_of_lookup_2|done].
Qed.

(** When [enableModulesInLevels] returns nil, every configured module was applied
    without error and every enabled one was reported ready. *)
Theorem enableModulesInLevels_ok modules tr m :
  enableModulesInLevels modules tr None -> Some m ∈ modules -> in_place m tr.
Proof.
  intros H Hm. inversion H as [-> | |levels tr' r' _ HL Hrun]; subst.
  - by apply elem_of_nil in Hm.
  - eapply run_levels_ok; [exact Hrun|]. rw -(buildModuleLevels_perm _ _ HL) in Hm.
    by apply list_elem_of_fmap in Hm as (m' & [= ->] & ?).
Qed.

(** ** Runs exist

    One schedule: the tasks of a group one by one, with given outcomes. *)
Definition run_tasks (outcome : task -> option error) (ts : list task) : list event :=
  concat (map (fun t => [Start t; Done t (outcome t)]) ts).

Fixpoint first_failure (err : task -> error -> error) (outcome : task -> option error)
    (ts : list task) : option error :=
  match ts with
  | [] => None
  | t :: ts' => match outcome t with Some e => Some (err t e) | None => first_failure err outcome ts' end
  end.

Lemma run_tasks_group err outcome ts first :
  group err ts [] first (run_tasks outcome ts)
    (match first with Some _ => first | None => first_failure err outcome ts end).
Proof.
  revert first. induction ts as [|t ts IH]; intros first.
  { destruct first; constructor. }
  apply (group_start _ [] t ts). apply (group_done _ ts [] t []). cbn.
  destruct first as [e|]; [apply (IH (Some e))|].
  destruct (outcome t) as [e|]; [apply (IH (Some (err t e)))|apply (IH None)].
Qed.

Fixpoint run_all (err : nat -> task -> error -> error) (outcome : task -> option error)
    (idx : nat) (levels : list (list ModuleConfig)) : list event * option error :=
  match levels with
  | [] => ([], None)
  | level :: levels' =>
      let applies := map TApply level in
      let waits := map TReady (filter (fun mc => Enabled mc = true) level) in
      match first_failure (err idx) outcome applies with
      | Some e => (run_tasks outcome applies, Some e)
      | None =>
          match first_failure (err idx) outcome waits with
          | Some e => (run_tasks outcome applies ++ run_tasks outcome waits, Some e)
          | None =>
              let '(tr, r) := run_all err outcome (S idx) levels' in
              (run_tasks outcome applies ++ run_tasks outcome waits ++ tr, r)
          end
      end
  end.

Lemma run_all_run err outcome idx levels :
  run_levels err idx levels (run_all err outcome idx levels).1 (run_all err outcome idx levels).2.
Proof.
  revert idx. induction levels as [|level levels IH]; intros idx; cbn [run_all]; [constructor|].
  pose proof (run_tasks_group (err idx) outcome (map TApply level) None) as H1.
  pose proof (run_tasks_group (err idx) outcome
    (map TReady (filter (fun mc => Enabled mc = true) level)) None) as H2.
  destruct (first_failure _ _ (map TApply level)); [by apply run_apply_failed|].
  destruct (first_failure _ _ (map TReady _)); [by apply run_ready_failed|].
  specialize (IH (S idx)). destruct (run_all err outcome (S idx) levels) as [tr r].
  by apply run_next.
Qed.

(** ** Concrete runs *)
Definition sds : list (option ModuleConfig) :=
  [Some (module_needing "sds-local-volume" ["sds-node-configurator"]);
   Some (module_needing "sds-node-configurator" [])].
Definition sds_levels : list (list ModuleConfig) :=
  [[module_needing "sds-node-configurator" []];
   [module_needing "sds-local-volume" ["sds-node-configurator"]]].

Lemma sds_run outcome :
  enableModulesInLevels sds (run_all task_error outcome 0 sds_levels).1
    (run_all task_error outcome 0 sds_levels).2.
Proof.
  apply (enable_levels _ sds_levels); [done|vm_compute; reflexivity|apply run_all_run].
Qed.

Lemma enableModulesInLevels_order_witness :
  exists a b m',
    (run_all task_error (fun _ => None) 0 sds_levels).1 =
      a ++ Start (TApply (module_needing "sds-local-volume" ["sds-node-configurator"])) :: b /\
    Some m' ∈ sds /\ Name m' = "sds-node-configurator" /\ in_place m' a.
Proof.
  pose (tr := (run_all task_error (fun _ => None) 0 sds_levels).1).
  exists (take 4 tr), (drop 5 tr).
  destruct (enableModulesInLevels_order sds tr None (take 4 tr)
    (module_needing "sds-local-volume" ["sds-node-configurator"]) (drop 5 tr)
    "sds-node-configurator" (sds_run (fun _ => None)) eq_refl) as (m' & H); [by left|].
  exists m'. split; [reflexivity|exact H].
Defined.

Lemma enableModulesInLevels_ok_witness :
  in_place (module_needing "sds-local-volume" ["sds-node-configurator"])
    (run_all task_error (fun _ => None) 0 sds_levels).1.
Proof.
  apply (enableModulesInLevels_ok sds); [exact (sds_run (fun _ => None))|by left].
Defined.

Definition twoKinds := (memWorld ModuleConfigSpec * memWorld ModulePullOverrideSpec)%type.
Definition fresh_cluster : twoKinds :=
  (empty_world [Some "connection refused"] 3, empty_world [] 0).
Definition snapshots : ModuleConfig := mkModule "snapshot-controller" 1 true None [] "".

Lemma apply_ok_witness :
  (apply snapshots "dev-registry.deckhouse.io/sys/deckhouse-oss" fresh_cluster).1 = None /\
  exists w1 : twoKinds, objs w1 !! "snapshot-controller" = Some (wantedConfig snapshots) /\
    objs (apply snapshots "dev-registry.deckhouse.io/sys/deckhouse-oss" fresh_cluster).2
      !! "snapshot-controller" = Some (overrideSpec "main").
Proof.
  assert (H : (apply snapshots "dev-registry.deckhouse.io/sys/deckhouse-oss" fresh_cluster).1
    = None) by (vm_compute; reflexivity).
  split; [exact H|].
  refine (apply_ok snapshots "dev-registry.deckhouse.io/sys/deckhouse-oss" fresh_cluster _ _).
  rewrite <- H. apply surjective_pairing.
Defined.

(** A ModuleConfig that exists and one failed read: [upsertModuleConfig] reads again and
    updates it; the test kit's [configureModuleConfig] takes any failed read for "not
    found", so its create fails with "already exists", which it does not retry. *)
Definition one_bad_read : memWorld ModuleConfigSpec :=
  mkWorld (mkMem {["snapshot-controller" := mkMC 1 false []]} [Some "connection refused"]) 9 false.

Example one_bad_read_upsert :
  (upsertModuleConfig snapshots one_bad_read).1 = None.
Proof. vm_compute. reflexivity. Qed.

Example one_bad_read_configure :
  (configureModuleConfig snapshots one_bad_read).1 =
  Some (ErrorfW "failed to create moduleconfig snapshot-controller: "
    (ErrorfW "failed to create moduleconfig snapshot-controller: "
      (alreadyExistsError "snapshot-controller") "") "").
Proof. vm_compute. reflexivity. Qed.

(** ** Waiting for a module *)

Definition ModulePhaseReady := "Ready".
Definition ModuleConditionIsReady := "IsReady".
Definition moduleReadyPollInterval : Z := 2 * Second.

Definition moduleReadyConditionMessage (m : Module_) : string :=
  match list_find (fun c => Type_ c = ModuleConditionIsReady) (Conditions m) with
  | None => ""
  | Some (_, c) =>
      if negb (String.eqb (Reason_ c) "") || negb (String.eqb (Message c) "")
      then "IsReady=" +:+ Status_ c +:+ " reason=" +:+ quote (Reason_ c) +:+ " message=" +:+
             quote (Message c)
      else "IsReady=" +:+ Status_ c
  end.

Definition moduleConditionSuffix (condition : string) : string :=
  if String.eqb condition "" then "" else ", " +:+ condition.

Section Wait.
Context {W : Type} `{AE : ApiErrors, CX : Ctx W, CF : ClientFactory W, MS : Client W Module_}.

(** The closure [ready]; the state is [lastPhase] and [lastCondition]. *)
Definition ready (moduleName : string) (st : string * string)
    : M W ((string * string) * option (option error)) :=
  let! r := GetModule moduleName in
  match r with
  | Err _ => mret (("", st.2), None)
  | Ok m => mret ((Phase m, moduleReadyConditionMessage m),
                  if String.eqb (Phase m) ModulePhaseReady then Some None else None)
  end.

Definition module_wait_over (moduleName : string) (timeout : Z) (st : string * string)
    (ce : option error) : option error :=
  let last := " (last phase " +:+ quote st.1 +:+ moduleConditionSuffix st.2 +:+ "): " in
  Some (if match ce with Some e => errors_Is e "context.Canceled" | None => false end
        then ErrorfWn ("canceled while waiting for module " +:+ moduleName +:+
               " to become ready" +:+ last) ce ""
        else ErrorfWn ("timeout waiting for module " +:+ moduleName +:+
               " to become ready after " +:+ fmt_duration timeout +:+ last) ce "").

Definition WaitForModuleReady (fuel : nat) (moduleName : string) (timeout : Z)
    : M W (option (option error)) :=
  poll (ready moduleName) (module_wait_over moduleName timeout) fuel moduleReadyPollInterval
    ("", "").

(** [WaitForModuleReady] ends once the deadline of its context is reached. It returns nil exactly on a read that shows the module in
    phase Ready, whatever errors and phases were seen before, and otherwise an error
    that wraps the error of the context. *)
Theorem WaitForModuleReady_spec `{CL : !CtxLaws W, MSL : !ClientLaws W Module_}
    `{DL : !Deadline W, TC : !TimedClient W Module_, TF : !TimedFactory W}
    fuel moduleName timeout w :
  (left w < fuel)%nat ->
  exists r w', WaitForModuleReady fuel moduleName timeout w = (Some r, w') /\
    match r with
    | None => exists m, objs w' !! moduleName = Some m /\ Phase m = ModulePhaseReady
    | Some e => exists pre ce w1, ctxErr w1 = (Some ce, w') /\ e = ErrorfW pre ce ""
    end.
Proof.
  intros Hl.
  destruct (poll_returns (ready moduleName) (module_wait_over moduleName timeout) fuel
    moduleReadyPollInterval ("", "")) with (w := w) as (r & w' & Hp); [|done|].
  { intros st. apply bind_bounded; [apply GetModule_bounded|].
    intros [m|e]; apply ret_bounded. }
  exists r, w'. split; [exact Hp|].
  apply (poll_ended _ _ (fun _ _ => True)) in Hp; [|done..].
  destruct Hp as [st w0 st' _ Hc|st ce z w0 w1 Hd Hce _ ->].
  - unfold ready in Hc. mstep Hc as [g w1] E. destruct g as [m|e]; [|done].
    destruct (String.eqb_spec (Phase m) ModulePhaseReady) as [Hph|_]; [|done].
    injection Hc as _ <- <-. exists m. split; [|done].
    apply with_client_inv in E as [[? ?]|[w2 E]]; [done|]. mstep E as [g w3] E3.
    injection E as E <-. destruct g as [m'|]; [|done]. injection E as ->.
    by apply get_ok in E3 as [? ->].
  - destruct (ctx_done _ _ _ Hd) as (e & w2 & He). rw He in Hce. injection Hce as <- <-.
    unfold module_wait_over, ErrorfWn. destruct (errors_Is e _); eauto.
Qed.
End Wait.

Definition flaky_module : memWorld Module_ :=
  mkWorld (mkMem {["csi-ceph" := mkModuleStatus "Ready" []]} [Some "EOF"]) 4 false.

Lemma WaitForModuleReady_spec_witness :
  exists r w', WaitForModuleReady 5 "csi-ceph" (10 * Minute) flaky_module = (Some r, w') /\
    match r with
    | None => exists m, objs w' !! "csi-ceph" = Some m /\ Phase m = ModulePhaseReady
    | Some e => exists pre ce (w1 : memWorld Module_), ctxErr w1 = (Some ce, w') /\ e = ErrorfW pre ce ""
    end.
Proof.
  apply WaitForModuleReady_spec. cbn. lia.
Defined.

(** ** The test kit: [EnableAndConfigureModules]

    An [apply] here is [configureModuleConfig] and then [configureModulePullOverride]; its
    goroutine sends the error as it is. *)
Definition kit_task_error (levelIndex : nat) (t : task) (e : error) : error :=
  match t with
  | TApply _ => e
  | TReady mc => ErrorfW ("module " +:+ Name mc +:+ " in level " +:+ pretty (S levelIndex) +:+
                   " failed to become ready: ") e ""
  end.

Definition defaultRegistryRepo := "dev-registry.deckhouse.io/sys/deckhouse-oss".

(** [ModuleSpec] has the fields of [ModuleConfig]; nil settings become empty ones. *)
Definition convertModuleSpecsToConfigs (specs : list ModuleConfig) : list ModuleConfig :=
  map (fun spec => mkModule (Name spec) (Version spec) (Enabled spec)
         (Some (default [] (Settings spec))) (Dependencies spec) (ModulePullOverride spec)) specs.

Section Kit.
Context (range : gmap string Z -> list (string * Z)).

Inductive EnableAndConfigureModules (ms : list ModuleConfig) : list event -> option error -> Prop :=
| kit_nothing : ms = [] -> EnableAndConfigureModules ms [] None
| kit_no_graph e :
    ms <> [] -> buildModuleGraph ms = Err e ->
    EnableAndConfigureModules ms [] (Some (ErrorfW "failed to build module graph: " e ""))
| kit_unordered graph e :
    ms <> [] -> buildModuleGraph ms = Ok graph -> topologicalSortLevels range graph = Err e ->
    EnableAndConfigureModules ms [] (Some (ErrorfW "failed to sort modules: " e ""))
| kit_levels graph levels tr r :
    ms <> [] -> buildModuleGraph ms = Ok graph -> topologicalSortLevels range graph = Ok levels ->
    run_levels kit_task_error 0 levels tr r ->
    EnableAndConfigureModules ms tr r.

Definition EnableModulesWithSpecs (specs : list ModuleConfig) : list event -> option error -> Prop :=
  EnableAndConfigureModules (convertModuleSpecsToConfigs specs).

(** The same order for the test kit's [EnableModulesWithSpecs], for specs with
    distinct names and whatever order maps are visited in. *)
Theorem EnableModulesWithSpecs_order specs tr r a m b d :
  (forall D, range D ≡ₚ map_to_list D) -> NoDup (map Name specs) ->
  EnableModulesWithSpecs specs tr r -> tr = a ++ Start (TApply m) :: b -> d ∈ Dependencies m ->
  exists m', Name m' = d /\ m' ∈ convertModuleSpecsToConfigs specs /\ in_place m' a.
Proof.
  intros Hr Hnd H Htr Hd.
  assert (Hnd' : NoDup (map Name (convertModuleSpecsToConfigs specs))).
  { unfold convertModuleSpecsToConfigs. by rw map_map. }
  destruct H as [_|e _ _|g e _ _ _|g levels tr r _ Hg HL Hrun]; [by destruct a..|].
  destruct (run_levels_order _ _ _ _ _ _ _ _ Hrun Htr) as (i & lv & Hi & Hm & Hpre).
  destruct (sortModules_earlier range _ levels i lv m d Hr Hnd')
    as (j & lv' & m' & Hj & Hlv & Hm' & Hn & Hms); [|done..|].
  { unfold sortModules. by rw Hg. }
  exists m'. split; [done|]. split; [done|]. by eapply Hpre.
Qed.
End Kit.

Lemma EnableModulesWithSpecs_order_witness :
  let specs := [module_needing "csi-ceph" ["snapshot-controller"];
                module_needing "snapshot-controller" []] in
  let levels := [[mkModule "snapshot-controller" 1 true (Some []) [] ""];
                 [mkModule "csi-ceph" 1 true (Some []) ["snapshot-controller"] ""]] in
  let tr := (run_all kit_task_error (fun _ => None) 0 levels).1 in
  exists m', Name m' = "snapshot-controller" /\ m' ∈ convertModuleSpecsToConfigs specs /\
    in_place m' (take 4 tr).
Proof.
  intros specs levels tr.
  apply (EnableModulesWithSpecs_order map_to_list specs tr None (take 4 tr)
    (mkModule "csi-ceph" 1 true (Some []) ["snapshot-controller"] "") (drop 5 tr)).
  - done.
  - apply (bool_decide_unpack _). vm_compute. done.
  - eapply (kit_levels _ _ _ levels); [done|reflexivity|vm_compute; reflexivity|].
    exact (run_all_run kit_task_error (fun _ => None) 0 levels).
  - reflexivity.
  - by left.
Defined.

(** [WaitForModulesReady]: the enabled modules one after another, in level order. *)
Section KitWait.
Context (range : gmap string Z -> list (string * Z)).
Context {W : Type} `{AE : ApiErrors, CX : Ctx W, CF : ClientFactory W, MS : Client W Module_}.

Fixpoint wait_each (fuel : nat) (timeout : Z) (ms : list ModuleConfig)
    : M W (option (option error)) :=
  match ms with
  | [] => mret (Some None)
  | m :: ms' =>
      if Enabled m then
        let! r := WaitForModuleReady fuel (Name m) timeout in
        match r with
        | None => mret None
        | Some (Some e) => mret (Some (Some (ErrorfW ("failed to wait for module " +:+ Name m +:+
                                                       " to be ready: ") e "")))
        | Some None => wait_each fuel timeout ms'
        end
      else wait_each fuel timeout ms'
  end.

Definition WaitForModulesReady (fuel : nat) (ms : list ModuleConfig) (timeout : Z)
    : M W (option (option error)) :=
  match ms with
  | [] => mret (Some None)
  | _ =>
      match buildModuleGraph ms with
      | Err e => mret (Some (Some (ErrorfW "failed to build module graph: " e "")))
      | Ok graph =>
          match topologicalSortLevels range graph with
          | Err e => mret (Some (Some (ErrorfW "failed to sort modules: " e "")))
          | Ok levels => wait_each fuel timeout (concat levels)
          end
      end
  end.
End KitWait.
