(* ===== verification/Wait.v ===== *)
(** The waits of the repository: [waitForCondition] ([src/internal/provisioning/dvp/vm/wait.go]),
    [pollObject] ([src/internal/provisioning/dvp/disks.go]) and the pollers of
    [src/pkg/kubernetes/poll.go]. Log lines are left out, with the counters only they use. *)
From S2P Require Import Prelude Errors Retry Kube.

Local Open Scope Z_scope.
Local Open Scope go_scope.

(** [fmt.Errorf] with two [%w], the first of which may be nil. *)
Definition ErrorfW2n (pre : string) (e1 : option error) (mid : string) (e2 : error) (post : string)
    : error :=
  match e1 with
  | Some e1 => Wrap2 pre e1 mid e2 post
  | None => ErrorfW (pre +:+ "%!w(<nil>)" +:+ mid) e2 post
  end.

(** ** Conditions on an object that is read again and again

    [cond] is the condition function; it may make calls of its own. On success the last
    read is returned too: the closures of the callers keep it in a variable. *)
Section Conditions.
Context {W : Type} `{CX : Ctx W} {T : Type}.
Context (get : M W (result T)) (cond : result T -> M W (bool * option error)).

Definition wait_result : Type := option error * option (result T).

Definition wait_check (lastErr : option error) : M W (option error * option wait_result) :=
  let! got := get in
  let lastErr := match got with Err e => Some e | Ok _ => lastErr end in
  let! '(ok, err) := cond got in
  mret (lastErr,
        if negb (is_nil err) then Some (err, None)
        else if ok : bool then Some (None, Some got) else None).

Definition condition_over (lastErr ce : option error) : wait_result :=
  (match lastErr with
   | Some le => Some (ErrorfW2n "" ce " (last error: " le ")")
   | None => ce
   end, None).

Definition waitForCondition (fuel : nat) (interval : Z) : M W (option wait_result) :=
  poll wait_check condition_over fuel interval None.

Definition object_over (what : string) (lastErr ce : option error) : wait_result :=
  (Some match lastErr with
        | Some le => ErrorfW2n ("waiting for " +:+ what +:+ ": ") ce " (last error: " le ")"
        | None => ErrorfWn ("waiting for " +:+ what +:+ ": ") ce ""
        end, None).

Definition pollObject (fuel : nat) (interval : Z) (what : string) : M W (option wait_result) :=
  poll wait_check (object_over what) fuel interval None.

(** How a wait ends: with a read the condition accepted, with an error of the condition,
    or with an error once the context is done. *)
Definition wait_outcome (r : wait_result) (w' : W) : Prop :=
  match r with
  | (None, g) => exists got w1 w2, g = Some got /\ get w1 = (got, w2) /\
                   cond got w2 = ((true, None), w')
  | (Some e, g) => g = None /\
      ((exists got w1 w2 ok, get w1 = (got, w2) /\ cond got w2 = ((ok, Some e), w')) \/
       (exists z w0 w1, timerFires z w0 = (false, w1) /\ (ctxErr w1).2 = w'))
  end.

Lemma wait_check_outcome le w le' r w' :
  wait_check le w = ((le', Some r), w') -> wait_outcome r w'.
Proof.
  unfold wait_check. intros H. mstep H as [got w1] E1. mstep H as [[ok err] w2] E2.
  destruct err as [e|]; cbn in H; [injection H as _ <- <-; split; [done|left; eauto 10]|].
  destruct ok; [|done]. injection H as _ <- <-. exists got, w, w1. done.
Qed.

Lemma poll_wait_outcome over fuel interval w r w' :
  (forall le ce, exists e, over le (Some ce) = (Some e, None)) ->
  CtxLaws W -> poll wait_check over fuel interval None w = (Some r, w') -> wait_outcome r w'.
Proof.
  intros Hover CL H. apply (poll_ended _ _ (fun _ _ => True)) in H; [|done..].
  destruct H as [le w1 le' _ Hc|le ce z w0 w1 Hd Hce _ ->]; [by eapply wait_check_outcome|].
  destruct (ctx_done _ _ _ Hd) as (e & w2 & He). rw He in Hce. injection Hce as <- <-.
  destruct (Hover le e) as [e' ->]. split; [done|]. right. exists z, w0, w1. by rw He.
Qed.

Lemma waitForCondition_outcome `{CL : !CtxLaws W} fuel interval w r w' :
  waitForCondition fuel interval w = (Some r, w') -> wait_outcome r w'.
Proof. apply poll_wait_outcome; [|done]. intros [le|] ce; eexists; reflexivity. Qed.

Lemma pollObject_outcome `{CL : !CtxLaws W} fuel interval what w r w' :
  pollObject fuel interval what w = (Some r, w') -> wait_outcome r w'.
Proof. apply poll_wait_outcome; [|done]. intros [le|] ce; eexists; reflexivity. Qed.

(** A wait ends once the context is done. *)
Lemma wait_bounded_returns `{DL : !Deadline W} over fuel interval :
  bounded get -> (forall got, bounded (cond got)) ->
  bounded (poll wait_check over fuel interval None) /\
  returns fuel (poll wait_check over fuel interval None).
Proof.
  intros Hg Hc. assert (Hw : forall le, bounded (wait_check le)).
  { intros le. apply bind_bounded; [done|]. intros got.
    apply bind_bounded; [done|]. intros [ok err]. apply ret_bounded. }
  split; [by apply poll_bounded|by apply poll_returns].
Qed.
End Conditions.
Arguments wait_result : clear implicits.

(** ** The pollers of [pkg/kubernetes] *)

Definition PollTickInterval : Z := 5 * Second.

(** An unstructured object; the timestamp is in RFC 3339. *)
Record unstructured (C : Type) := mkObj {
  DeletionTimestamp : option string;
  Finalizers : list string;
  content : C
}.
Arguments mkObj {C} _ _ _.
Arguments DeletionTimestamp {C} _.
Arguments Finalizers {C} _.
Arguments content {C} _.

Definition formatRef (namespace name : string) : string :=
  if String.eqb namespace "" then name else namespace +:+ "/" +:+ name.

Definition errIfTerminating {C} (obj : unstructured C) (kind ref : string) : option error :=
  match DeletionTimestamp obj with
  | None => None
  | Some dt => Some (Errorf (kind +:+ " " +:+ ref +:+
      " exists but is being deleted (deletionTimestamp=" +:+ dt +:+ ", finalizers=" +:+
      fmt_strings (Finalizers obj) +:+
      "); wait for it to disappear or remove finalizers manually before re-running"))
  end.

Fixpoint sameFinalizers (a b : list string) : bool :=
  match a, b with
  | [], [] => true
  | x :: a', y :: b' => String.eqb x y && sameFinalizers a' b'
  | _, _ => false
  end.

Section Pollers.
Context {W C : Type} `{AE : ApiErrors, CX : Ctx W, SC : Scope W, CU : Client W (unstructured C)}.
(** [NewDynamicClientWithRetry]. *)
Context (newDynamicClient : M W (option error)).

(** [Some None] is success, [Some (Some e)] failure; [None] is "keep polling". *)
Definition ready_check (ref label : string) (isReady : unstructured C -> bool * string) (_ : unit)
    : M W (unit * option (option error)) :=
  let! got := clientGet ref in
  mret (tt, match got with
    | Ok obj =>
        match DeletionTimestamp obj with
        | Some dt => Some (Some (Errorf (label +:+ " " +:+ ref +:+
            " is being deleted (deletionTimestamp=" +:+ dt +:+ ", finalizers=" +:+
            fmt_strings (Finalizers obj) +:+
            "); refusing to wait for Ready on a Terminating object")))
        | None => if (isReady obj).1 then Some None else None
        end
    | Err _ => None
    end).

(** The parameters checked first, then the client, then the loop. [tickInterval <= 0] is
    replaced by the default. *)
Definition pollResourceUntilReady (fuel : nat) (namespace name : string) (readyTimeout tickInterval : Z)
    (resourceLabel : string) (isReady : option (unstructured C -> bool * string))
    : M W (option (option error)) :=
  if String.eqb name "" then mret (Some (Some (Errorf "name is required")))
  else match isReady with
  | None => mret (Some (Some (Errorf "isReady is required")))
  | Some isReady =>
      let tickInterval := if tickInterval <=? 0 then PollTickInterval else tickInterval in
      let ref := formatRef namespace name in
      let! err := newDynamicClient in
      match err with
      | Some e => mret (Some (Some (ErrorfW "failed to create dynamic client: " e "")))
      | None =>
          withTimeout readyTimeout
            (poll (ready_check ref resourceLabel isReady)
               (fun _ ce => Some (ErrorfWn ("timeout waiting for " +:+ resourceLabel +:+ " " +:+ ref +:+
                                              ": ") ce ""))
               fuel tickInterval tt)
      end
  end.

(** The variables [lastFinalizers] and [lastDeletionTS]. They are written when the visible
    state changed or enough time passed; in the second case with the values they have. *)
Definition gone_state : Type := list string * string.

Definition observe_alive (st : gone_state) (obj : unstructured C) : gone_state :=
  let deletionTS := default "" (DeletionTimestamp obj) in
  if negb (String.eqb deletionTS st.2) || negb (sameFinalizers (Finalizers obj) st.1)
  then (Finalizers obj, deletionTS) else st.

Definition gone_check (ref : string) (st : gone_state) : M W (gone_state * option (option error)) :=
  let! got := clientGet ref in
  mret match got with
    | Err e => if IsNotFound (Some e) then (st, Some None) else (st, None)
    | Ok obj => (observe_alive st obj, None)
    end.

Definition gone_over (label ref : string) (st : gone_state) (ce : option error) : option error :=
  let lastSeen :=
    if negb (String.eqb st.2 "") || (0 <? Z.of_nat (length st.1))
    then "deletionTimestamp=" +:+ quote st.2 +:+ ", finalizers=" +:+ fmt_strings st.1
    else "no observation yet" in
  Some (ErrorfWn ("timeout waiting for " +:+ label +:+ " " +:+ ref +:+ " to be gone (" +:+
                    lastSeen +:+ "): ") ce "").

Definition pollResourceUntilGone (fuel : nat) (namespace name : string) (goneTimeout tickInterval : Z)
    (resourceLabel : string) : M W (option (option error)) :=
  if String.eqb name "" then mret (Some (Some (Errorf "name is required")))
  else
    let tickInterval := if tickInterval <=? 0 then PollTickInterval else tickInterval in
    let ref := formatRef namespace name in
    let! err := newDynamicClient in
    match err with
    | Some e => mret (Some (Some (ErrorfW "failed to create dynamic client: " e "")))
    | None => withTimeout goneTimeout
                (poll (gone_check ref) (gone_over resourceLabel ref) fuel tickInterval ([], ""))
    end.

Section Correct.
Context `{CL : !CtxLaws W, CUL : !ClientLaws W (unstructured C), SL : !ScopeLaws W (unstructured C)}.

(** A wait for readiness that succeeds has read the object, not being deleted, as ready. *)
Lemma ready_wait_ok fuel ns name timeout tick label isReady w w' :
  pollResourceUntilReady fuel ns name timeout tick label isReady w = (Some None, w') ->
  exists obj p, objs w' !! formatRef ns name = Some obj /\
    DeletionTimestamp obj = None /\ isReady = Some p /\ (p obj).1 = true.
Proof.
  unfold pollResourceUntilReady. destruct (String.eqb name ""); [done|].
  destruct isReady as [p|]; [|done]. intros H. mstep H as [err w1] E1. destruct err as [e|]; [done|].
  apply withTimeout_inv in H as (w2 & Hp & ->). rewrite leave_objs.
  apply (poll_ended _ _ (fun _ _ => True)) in Hp; [|done..].
  destruct Hp as [[] w3 [] _ Hc|[] ce z w0 w3 Hd' Hce _ [=]].
  unfold ready_check in Hc. mstep Hc as [got w4] E. destruct got as [obj|e]; [|done].
  destruct (DeletionTimestamp obj) eqn:Hdt; [done|].
  destruct ((p obj).1) eqn:Hpo; [|done]. injection Hc as <-.
  apply get_ok in E as [E ->]. eauto 10.
Qed.

Lemma gone_wait_ok fuel ns name timeout tick label w w' :
  pollResourceUntilGone fuel ns name timeout tick label w = (Some None, w') ->
  objs (O := unstructured C) w' !! formatRef ns name = None.
Proof.
  unfold pollResourceUntilGone. destruct (String.eqb name ""); [done|].
  intros H. mstep H as [err w1] E1. destruct err as [e|]; [done|].
  apply withTimeout_inv in H as (w2 & Hp & ->). rewrite leave_objs.
  apply (poll_ended _ _ (fun _ _ => True)) in Hp; [|done..].
  destruct Hp as [st w3 st' _ Hc|st ce z w0 w3 Hd' Hce _ [=]].
  unfold gone_check in Hc. mstep Hc as [got w4] E. destruct got as [obj|e]; [done|].
  destruct (IsNotFound (Some e)) eqn:Hn; [|done]. injection Hc as _ <-.
  apply get_err in E as [-> E]. by apply E.
Qed.

Context `{DL : !Deadline W, TC : !TimedClient W (unstructured C), SD : !ScopeDeadline W}.
Hypothesis dyn_bounded : bounded newDynamicClient.

(** [pollResourceUntilReady] returns by its deadline, and returns nil only after a read
    that shows the named object, not being deleted, in a state [isReady] accepts; an
    object that is being deleted is never waited for. *)
Theorem pollResourceUntilReady_spec fuel ns name timeout tick label isReady w :
  (left w < fuel)%nat ->
  exists r w', pollResourceUntilReady fuel ns name timeout tick label isReady w = (Some r, w') /\
    (r = None -> exists obj p, objs w' !! formatRef ns name = Some obj /\
       DeletionTimestamp obj = None /\ isReady = Some p /\ (p obj).1 = true).
Proof.
  intros Hl.
  assert (Hr : exists r w', pollResourceUntilReady fuel ns name timeout tick label isReady w = (Some r, w')).
  { unfold pollResourceUntilReady. destruct (String.eqb name ""); [by eexists _, _|].
    destruct isReady as [p|]; [|by eexists _, _]. unfold mbind at 1, M_bind at 1.
    pose proof (dyn_bounded w) as Hd. destruct (newDynamicClient w) as [[e|] w1]; [by eexists _, _|].
    cbn in Hd. set (over := fun _ ce => _). set (iv := if _ <=? _ then _ else _).
    pose proof (enter_left timeout w1) as He.
    destruct (poll_returns (ready_check (formatRef ns name) label p) over fuel iv tt)
      with (w := enter timeout w1) as (r & w' & Hp); [|lia|].
    { intros []. unfold ready_check. auto with runs. }
    exists r, (leave w1 w'). unfold withTimeout. by rewrite Hp. }
  destruct Hr as (r & w' & Hr). exists r, w'. split; [done|]. intros ->. by eapply ready_wait_ok.
Qed.

(** [pollResourceUntilGone] returns by its deadline, and returns nil only when the
    object is absent from the API server. *)
Theorem pollResourceUntilGone_spec fuel ns name timeout tick label w :
  (left w < fuel)%nat ->
  exists r w', pollResourceUntilGone fuel ns name timeout tick label w = (Some r, w') /\
    (r = None -> objs (O := unstructured C) w' !! formatRef ns name = None).
Proof.
  intros Hl.
  assert (Hr : exists r w', pollResourceUntilGone fuel ns name timeout tick label w = (Some r, w')).
  { unfold pollResourceUntilGone. destruct (String.eqb name ""); [by eexists _, _|].
    unfold mbind at 1, M_bind at 1.
    pose proof (dyn_bounded w) as Hd. destruct (newDynamicClient w) as [[e|] w1]; [by eexists _, _|].
    cbn in Hd. set (iv := if _ <=? _ then _ else _). pose proof (enter_left timeout w1) as He.
    destruct (poll_returns (gone_check (formatRef ns name)) (gone_over label (formatRef ns name))
      fuel iv ([], "")) with (w := enter timeout w1) as (r & w' & Hp); [|lia|].
    { intros st. unfold gone_check. auto with runs. }
    exists r, (leave w1 w'). unfold withTimeout. by rewrite Hp. }
  destruct Hr as (r & w' & Hr). exists r, w'. split; [done|]. intros ->. by eapply gone_wait_ok.
Qed.
End Correct.
End Pollers.

Definition slow_pool : memWorld (unstructured string) :=
  mkWorld (mkMem {["d8-sds/pool" := mkObj None ["storage.deckhouse.io/finalizer"] "Ready"]}
    [Some "EOF"; Some "EOF"]) 3 false.

Lemma pollResourceUntilReady_spec_witness :
  exists r w', pollResourceUntilReady (mret None) 4 "d8-sds" "pool" (2 * Second) 0 "LVMVolumeGroup"
      (Some (fun o => (String.eqb (content o) "Ready", ""))) slow_pool = (Some r, w') /\
    (r = None -> exists obj p, objs w' !! "d8-sds/pool" = Some obj /\
       DeletionTimestamp obj = None /\
       Some (fun o => (String.eqb (content o) "Ready", "")) = Some p /\ (p obj).1 = true).
Proof.
  refine (pollResourceUntilReady_spec (mret None) _ 4 "d8-sds" "pool" (2 * Second) 0 _ _ slow_pool _);
    [apply ret_bounded|cbn; lia].
Defined.

Lemma pollResourceUntilGone_spec_witness :
  exists r w', pollResourceUntilGone (mret None) 4 "d8-sds" "other" (2 * Second) 0 "LVMVolumeGroup" slow_pool
      = (Some r, w') /\
    (r = None -> objs (O := unstructured string) w' !! "d8-sds/other" = None).
Proof.
  refine (pollResourceUntilGone_spec (mret None) _ 4 "d8-sds" "other" (2 * Second) 0 _ slow_pool _);
    [apply ret_bounded|cbn; lia].
Defined.
