(* ===== verification/Naming.v ===== *)
(** Names of the Kubernetes objects the provisioner creates
    ([src/internal/provisioning/dvp/vm/naming.go] and [attachmentName] of
    [src/internal/provisioning/dvp/disks.go]). Image URLs and names are ASCII. *)
From S2P Require Import Prelude.

Local Open Scope Z_scope.

Definition cviNameMaxLen : nat := 63.
Definition cviHashLen : nat := 8.
Definition cviBaseMaxLen : nat := cviNameMaxLen - cviHashLen - 1.
Definition attachmentNameMaxLen : nat := 63.
Definition attachmentHashLen : nat := 8.

Definition is_lower (c : Ascii.ascii) : bool :=
  let n := Ascii.nat_of_ascii c in (97 <=? n)%nat && (n <=? 122)%nat.
Definition is_digit (c : Ascii.ascii) : bool :=
  let n := Ascii.nat_of_ascii c in (48 <=? n)%nat && (n <=? 57)%nat.
Definition is_alnum (c : Ascii.ascii) : bool := is_lower c || is_digit c.
Definition is_dash (c : Ascii.ascii) : bool := Ascii.eqb c "-"%char.
Definition is_label_char (c : Ascii.ascii) : bool := is_alnum c || is_dash c.

(** [strings.ToLower] of a byte. *)
Definition lower_char (c : Ascii.ascii) : Ascii.ascii :=
  let n := Ascii.nat_of_ascii c in
  if (65 <=? n)%nat && (n <=? 90)%nat then Ascii.ascii_of_nat (n + 32) else c.
Definition ToLower : string -> string := str_map lower_char.

Definition image_extensions : list string :=
  [".img"; ".qcow2"; ".raw"; ".iso"; ".vmdk"; ".vdi"; ".gz"; ".xz"].

(** [for strings.Contains(name, "--")]: every round makes the name shorter. *)
Fixpoint squeeze (fuel : nat) (name : string) : string :=
  match fuel with
  | O => name
  | S fuel' =>
      if Contains name "--" then squeeze fuel' (ReplaceAll name "--" "-") else name
  end.

Definition Trim (p : Ascii.ascii -> bool) (s : string) : string := trim_right p (trim_left p s).

Definition sanitizeCVIBase (imageURL : string) : string :=
  let name := after_last "/" imageURL in
  let name := foldl TrimSuffix name image_extensions in
  let name := ToLower name in
  let name := str_map (fun r => if is_alnum r then r else "-"%char) name in
  let name := squeeze (String.length name) name in
  let name := Trim is_dash name in
  if String.eqb name "" then "image"
  else if (cviBaseMaxLen <? String.length name)%nat then
    let name := trim_right is_dash (str_take cviBaseMaxLen name) in
    if String.eqb name "" then "image" else name
  else name.

Definition systemDiskName (vmName : string) : string := vmName +:+ "-system".

Section Hashed.
(** [hex.EncodeToString] of [sha256.Sum256]. *)
Context (sha256hex : string -> string).

Definition cviNameFromImageURL (imageURL : string) : string :=
  sanitizeCVIBase imageURL +:+ "-" +:+ str_take cviHashLen (sha256hex imageURL).

Definition attachmentName (diskName nodeName : string) : string :=
  let name := diskName +:+ "-" +:+ nodeName in
  if (String.length name <=? attachmentNameMaxLen)%nat then name
  else
    let hash := str_take attachmentHashLen (sha256hex name) in
    let base := trim_right is_dash
                  (str_take (attachmentNameMaxLen - attachmentHashLen - 1) name) in
    base +:+ "-" +:+ hash.
End Hashed.

(** ** The squeeze loop *)

Lemma replace_forallb q n s old new :
  str_forallb q s = true -> str_forallb q new = true ->
  str_forallb q (replace_rounds n s old new) = true.
Proof.
  intros Hs Hnew. revert s Hs. induction n as [|n IH]; intros s Hs; [done|].
  cbn [replace_rounds]. destruct (HasPrefix s old) eqn:Hp.
  - rw str_forallb_app Hnew. apply IH.
    rw -(str_take_drop (String.length old) s) str_forallb_app in Hs.
    by apply andb_true_iff in Hs as [_ ?].
  - destruct s as [|c s]; [done|]. cbn in *. apply andb_true_iff in Hs as [-> Hs]. by apply IH.
Qed.

Lemma str_drop_length n s : (String.length (str_drop n s) = String.length s - n)%nat.
Proof. revert n. induction s as [|c s IH]; intros [|n]; cbn; [done..|]. apply IH. Qed.

Lemma HasPrefix_length s pre : HasPrefix s pre = true -> (String.length pre <= String.length s)%nat.
Proof. intros [t ->]%HasPrefix_spec. rw str_length_app. lia. Qed.

Lemma replace_shrinks n s :
  (String.length s <= n)%nat ->
  (String.length (replace_rounds n s "--" "-") <= String.length s)%nat /\
  (Contains s "--" = true -> (String.length (replace_rounds n s "--" "-") < String.length s)%nat).
Proof.
  revert s. induction n as [|n IH]; intros s Hn.
  { destruct s; [|cbn in Hn; lia]. cbn. split; [lia|done]. }
  cbn [replace_rounds]. destruct (HasPrefix s "--") eqn:Hp.
  - pose proof (HasPrefix_length _ _ Hp) as Hl. cbn in Hl.
    destruct (IH (str_drop (String.length "--") s)) as [H1 _]; [rw str_drop_length; cbn; lia|].
    rw str_drop_length in H1. rw str_length_app. cbn in *. split; [lia|]. intros _. lia.
  - destruct s as [|c s]; [cbn; split; [lia|done]|]. cbn in Hn.
    destruct (IH s) as [H1 H2]; [lia|]. rw Contains_unfold Hp. cbn. split; [lia|].
    intros Hc. specialize (H2 Hc). lia.
Qed.

Lemma squeeze_spec fuel s :
  (String.length s <= fuel)%nat ->
  Contains (squeeze fuel s) "--" = false /\
  (str_forallb is_label_char s = true -> str_forallb is_label_char (squeeze fuel s) = true).
Proof.
  revert s. induction fuel as [|fuel IH]; intros s Hl; cbn [squeeze].
  { destruct s; [done|cbn in Hl; lia]. }
  destruct (Contains s "--") eqn:Hc; [|done].
  destruct (replace_shrinks (String.length s) s) as [_ Hsh]; [done|]. specialize (Hsh Hc).
  destruct (IH (ReplaceAll s "--" "-")) as [H1 H2]; [unfold ReplaceAll; lia|].
  split; [done|]. intros Hs. apply H2. by apply replace_forallb.
Qed.

(** ** DNS-1123 labels *)

(** What Kubernetes accepts as a label: at most 63 of [a-z0-9-], alphanumeric ends. *)
Definition dns1123_label (s : string) : bool :=
  (String.length s <=? 63)%nat && str_forallb is_label_char s &&
  match str_head s with Some c => is_alnum c | None => false end &&
  match str_last s with Some c => is_alnum c | None => false end.

Lemma forallb_head q s c : str_forallb q s = true -> str_head s = Some c -> q c = true.
Proof. destruct s as [|d s]; [done|]. cbn. intros [Hd _]%andb_true_iff [= <-]. done. Qed.

Lemma forallb_last q s c : str_forallb q s = true -> str_last s = Some c -> q c = true.
Proof.
  induction s as [|d s IH]; [done|]. cbn. intros [Hd Hs]%andb_true_iff.
  destruct s as [|e s]; [by intros [= <-]|]. by apply IH.
Qed.

Lemma label_char_not_dash c : is_label_char c = true -> is_dash c = false -> is_alnum c = true.
Proof. unfold is_label_char. intros [?|?]%orb_true_iff; [done|congruence]. Qed.

Lemma str_last_some s : s <> "" -> exists c, str_last s = Some c.
Proof. induction s as [|c [|d s] IH]; [done|eauto|]. intros _. by apply IH. Qed.

Lemma str_head_some s : s <> "" -> exists c, str_head s = Some c.
Proof. destruct s; [done|]. eauto. Qed.

Lemma label_inv s :
  dns1123_label s = true ->
  exists c d, (String.length s <= 63)%nat /\ str_forallb is_label_char s = true /\
    str_head s = Some c /\ str_last s = Some d /\ is_alnum c = true /\ is_alnum d = true.
Proof.
  unfold dns1123_label. rw !andb_true_iff. intros [[[Hl Hf] Hh] Hd].
  destruct (str_head s) as [c|], (str_last s) as [d|]; [|done..].
  exists c, d. by apply Nat.leb_le in Hl.
Qed.

(** The shape of a name base: non-empty, label characters, alphanumeric ends. *)
Definition base_ok (max : nat) (s : string) : Prop :=
  s <> "" /\ (String.length s <= max)%nat /\ str_forallb is_label_char s = true /\
  (forall c, str_head s = Some c -> is_alnum c = true) /\
  (forall c, str_last s = Some c -> is_alnum c = true).

Lemma alnum_not_dash c : is_alnum c = true -> is_dash c = false.
Proof.
  intros H. unfold is_dash. destruct (Ascii.eqb_spec c "-"%char) as [->|_]; [|done].
  by vm_compute in H.
Qed.

(** A truncated base is still one: its head is not a dash, so trimming keeps it. *)
Lemma truncate_ok n s :
  str_forallb is_label_char s = true -> s <> "" ->
  (forall c, str_head s = Some c -> is_alnum c = true) ->
  base_ok (S n) (trim_right is_dash (str_take (S n) s)).
Proof.
  intros Hf Hne Hh. destruct s as [|c s]; [done|]. specialize (Hh c eq_refl).
  assert (Ht : trim_right is_dash (str_take (S n) (String c s)) =
               String c (trim_right is_dash (str_take n s))).
  { cbn [str_take]. by rw trim_right_cons (alnum_not_dash _ Hh) andb_false_r. }
  split; [by rw Ht|]. split; [|split; [|split]].
  - etrans; [apply trim_right_length|apply str_take_length].
  - auto with gostr.
  - rw Ht. by intros c' [= <-].
  - intros c' Hc'. apply label_char_not_dash; [|by eapply trim_right_last].
    refine (forallb_last _ _ _ _ Hc'). auto with gostr.
Qed.

Lemma sanitizeCVIBase_ok imageURL :
  base_ok cviBaseMaxLen (sanitizeCVIBase imageURL).
Proof.
  unfold sanitizeCVIBase. set (n0 := str_map _ _).
  assert (H0 : str_forallb is_label_char n0 = true).
  { apply str_forallb_map. intros c. unfold is_label_char. destruct (is_alnum c) eqn:Hc; [by rw Hc|done]. }
  destruct (squeeze_spec (String.length n0) n0) as [_ H1]; [done|]. specialize (H1 H0).
  set (n1 := squeeze _ _) in *. set (n2 := Trim is_dash n1).
  assert (H2 : str_forallb is_label_char n2 = true) by (unfold n2, Trim; auto with gostr).
  assert (Hh : forall c, str_head n2 = Some c -> is_alnum c = true).
  { intros c Hc. apply label_char_not_dash; [by eapply forallb_head|].
    by eapply trim_left_head, trim_right_head. }
  assert (Hi : base_ok cviBaseMaxLen "image").
  { split; [done|]. split; [cbn; lia|]. split; [done|].
    split; intros c; by intros [= <-]. }
  destruct (String.eqb_spec n2 "") as [_|Hne]; [done|].
  destruct (Nat.ltb_spec cviBaseMaxLen (String.length n2)) as [_|Hlen].
  - destruct (String.eqb_spec (trim_right is_dash (str_take cviBaseMaxLen n2)) "") as [_|_]; [done|].
    by apply truncate_ok.
  - split; [done|]. split; [lia|]. split; [done|]. split; [done|].
    intros c Hc. apply label_char_not_dash; [by eapply forallb_last|]. by eapply trim_right_last.
Qed.

Section HashedCorrect.
Context (sha256hex : string -> string).
(** A SHA-256 digest in hexadecimal: 64 lower-case hexadecimal digits. *)
Hypothesis sha256hex_length : forall s, String.length (sha256hex s) = 64%nat.
Hypothesis sha256hex_alnum : forall s, str_forallb is_alnum (sha256hex s) = true.

Lemma hash_suffix s :
  String.length (str_take 8 (sha256hex s)) = 8%nat /\
  str_forallb is_alnum (str_take 8 (sha256hex s)) = true.
Proof.
  split; [|apply str_forallb_take, sha256hex_alnum].
  pose proof (f_equal String.length (str_take_drop 8 (sha256hex s))) as H.
  rw str_length_app sha256hex_length str_drop_length sha256hex_length in H. lia.
Qed.

Lemma forallb_impl (p q : Ascii.ascii -> bool) s :
  (forall c, p c = true -> q c = true) -> str_forallb p s = true -> str_forallb q s = true.
Proof.
  intros H. induction s as [|c s IH]; [done|]. cbn. intros [Hc Hs]%andb_true_iff.
  by rw (H _ Hc) IH.
Qed.

(** A base and a hash make a label. *)
Lemma base_hash_label base s :
  base_ok 54 base -> dns1123_label (base +:+ "-" +:+ str_take 8 (sha256hex s)) = true.
Proof.
  intros (Hne & Hlen & Hf & Hh & _). destruct (hash_suffix s) as [Hl Ha].
  destruct (str_head_some base Hne) as [c Hc]. specialize (Hh c Hc).
  assert (Hn : str_take 8 (sha256hex s) <> "") by by intros E; rw E in Hl.
  destruct (str_last_some _ Hn) as [d Hd].
  unfold dns1123_label. rw !str_length_app Hl !str_forallb_app Hf !str_last_app //.
  rw Hd (forallb_last _ _ _ Ha Hd).
  rw (forallb_impl _ is_label_char _ _ Ha); [intros x Hx; unfold is_label_char; by rw Hx|].
  replace (str_head (base +:+ _)) with (Some c) by by destruct base.
  rw Hh. cbn [andb String.length]. rw !andb_true_r. apply Nat.leb_le. cbn. lia.
Qed.

(** The name of the ClusterVirtualImage for any image URL is a valid DNS-1123 label of at
    most 63 characters. *)
Theorem cviNameFromImageURL_label imageURL :
  dns1123_label (cviNameFromImageURL sha256hex imageURL) = true.
Proof. apply base_hash_label, sanitizeCVIBase_ok. Qed.

(** The name of an attachment of a disk to a node, both named by DNS-1123 labels, is a
    DNS-1123 label again, long pairs included. *)
Theorem attachmentName_label diskName nodeName :
  dns1123_label diskName = true -> dns1123_label nodeName = true ->
  dns1123_label (attachmentName sha256hex diskName nodeName) = true.
Proof.
  intros (c & _ & _ & Hf1 & Hc & _ & Hh1 & _)%label_inv.
  intros (_ & d & _ & Hf2 & _ & Hd & _ & Hl2)%label_inv.
  destruct diskName as [|c' diskName]; [done|]. injection Hc as ->.
  set (name := String c diskName +:+ "-" +:+ nodeName).
  assert (Hname : str_forallb is_label_char name = true).
  { unfold name. by rw !str_forallb_app Hf1 Hf2. }
  unfold attachmentName. fold name.
  destruct (Nat.leb_spec (String.length name) attachmentNameMaxLen) as [Hlen|_].
  - unfold dns1123_label. rw Hname. replace (str_head name) with (Some c) by done.
    replace (str_last name) with (Some d); [rw Hh1 Hl2; cbn [andb]; rw (proj2 (Nat.leb_le _ _) Hlen) //|].
    unfold name. rw !str_last_app //; by destruct nodeName.
  - apply base_hash_label. apply truncate_ok; [done|done|]. by intros c' [= <-].
Qed.
End HashedCorrect.

(** A stand-in for the digest on which the names can be evaluated. *)
Definition zero_digest (_ : string) : string :=
  "0000000000000000000000000000000000000000000000000000000000000000".

Lemma cviNameFromImageURL_label_witness :
  dns1123_label (cviNameFromImageURL zero_digest
    "https://cloud-images.ubuntu.com/jammy/current/Jammy_Server--CloudImg.amd64.img") = true.
Proof. apply (cviNameFromImageURL_label zero_digest); reflexivity. Defined.

Example cviNameFromImageURL_example :
  cviNameFromImageURL zero_digest "https://host/a/Jammy_Server--CloudImg.amd64.img" =
  "jammy-server-cloudimg-amd64-00000000".
Proof. vm_compute. reflexivity. Qed.

Lemma attachmentName_label_witness :
  dns1123_label (attachmentName zero_digest
    "data-disk-with-a-rather-long-name-for-a-stress-test" "worker-node-number-one") = true.
Proof. apply (attachmentName_label zero_digest); vm_compute; reflexivity. Defined.
