(* ===== verification/Virt.v ===== *)
(** The virtualization objects the DVP provider works with, by the fields its code reads or
    writes, their labels ([vm/labels.go]) and the functions that build them
    ([vm/build.go], [vm/cloudinit.go] of [src/internal/provisioning/dvp]). *)
From S2P Require Import Prelude Errors Retry Config.

Local Open Scope Z_scope.

(** ** Labels *)
Definition ManagedByLabelKey := "storage-e2e.deckhouse.io/managed-by".
Definition ManagedByLabelValue := "storage-e2e".
Definition ManagedLabels : gmap string string := {[ManagedByLabelKey := ManagedByLabelValue]}.

Definition isManaged (labels : gmap string string) : bool :=
  String.eqb (default "" (labels !! ManagedByLabelKey)) ManagedByLabelValue.

(** ** Objects *)
Record VirtualDisk := mkVD {
  vdLabels : gmap string string;
  vdSize : option Z;
  vdStorageClass : option string;
  (** the ClusterVirtualImage the disk is filled from *)
  vdDataSource : option string;
  vdPhase : string;
  vdCapacity : string
}.

Record VMBDA := mkVMBDA {
  bdLabels : gmap string string;
  VirtualMachineName : string;
  refKind : string;
  refName : string;
  bdPhase : string
}.

Record ClusterVirtualImage := mkCVI {
  cviLabels : gmap string string;
  cviURL : string;
  cviPhase : string
}.

Record VirtualMachine := mkVM {
  vmLabels : gmap string string;
  vmClassName : string;
  EnableParavirtualization : bool;
  RunPolicy : string;
  OsType : string;
  Bootloader : string;
  LiveMigrationPolicy : string;
  Cores : Z;
  vmCoreFraction : string;
  Memory : Z;
  BlockDevices : list string;
  UserData : string;
  vmPhase : string;
  vmIPAddress : string
}.

(** The parts of a class spec that [buildVirtualMachineClass] replaces, and the rest. *)
Record VMClassSpec := mkClassSpec {
  clsCPUType : string;
  clsNodeSelector : list (string * string);
  clsTolerations : list string;
  clsRest : list (string * string)
}.
Record VirtualMachineClass := mkClass {
  clsLabels : gmap string string;
  clsSpec : VMClassSpec;
  clsPhase : string
}.

Definition DiskReady := "Ready".
Definition DiskWaitForFirstConsumer := "WaitForFirstConsumer".
Definition DiskFailed := "Failed".
Definition DiskLost := "PVCLost".
Definition PhaseAttached := "Attached".
Definition PhaseFailed := "Failed".
Definition KindVirtualDisk := "VirtualDisk".
Definition ImageReady := "Ready".
Definition ImageFailed := "Failed".
Definition ImageLost := "PVCLost".
Definition ClassPhaseReady := "Ready".
Definition ClassPhaseTerminating := "Terminating".
Definition MachineRunning := "Running".
Definition MachineDegraded := "Degraded".

(** ** Building *)
Definition bytesPerGiB : Z := 1024 * 1024 * 1024.
Definition defaultCoreFraction := "100%".

(** Arithmetic on [int64]. *)
Definition wrap64 (z : Z) : Z := (z + 2 ^ 63) mod 2 ^ 64 - 2 ^ 63.

Definition buildClusterVirtualImage (imageURL : string) (labels : gmap string string)
    : ClusterVirtualImage := mkCVI labels imageURL "".

Definition buildVirtualDisk (cviName storageClass : string) (diskSizeGi : Z)
    (labels : gmap string string) : result VirtualDisk :=
  if diskSizeGi <=? 0
  then Err (Errorf ("disk size must be greater than 0, got " +:+ pretty diskSizeGi))
  else Ok (mkVD labels (Some (wrap64 (diskSizeGi * bytesPerGiB)))
             (if String.eqb storageClass "" then None else Some storageClass)
             (Some cviName) "" "").

Record vmParams := mkParams {
  p_Name : string;
  p_VMClassName : string;
  p_DiskName : string;
  p_CloudInit : string;
  p_CPU : Z;
  p_RAMGi : Z;
  p_CoreFraction : option Z;
  p_Labels : gmap string string
}.

(** [ParseQuantity] belongs to [k8s.io/apimachinery]. *)
Definition buildVirtualMachine (ParseQuantity : string -> result Z) (p : vmParams)
    : result VirtualMachine :=
  if p_CPU p <=? 0
  then Err (Errorf ("vm " +:+ quote (p_Name p) +:+ ": cpu must be greater than 0, got " +:+
                      pretty (p_CPU p)))
  else if p_RAMGi p <=? 0
  then Err (Errorf ("vm " +:+ quote (p_Name p) +:+ ": ram must be greater than 0, got " +:+
                      pretty (p_RAMGi p)))
  else match ParseQuantity (pretty (p_RAMGi p) +:+ "Gi") with
  | Err e => Err (ErrorfW ("vm " +:+ quote (p_Name p) +:+ ": parse memory quantity: ") e "")
  | Ok memory =>
      Ok (mkVM (p_Labels p) (p_VMClassName p) true "AlwaysOn" "Generic" "BIOS" "PreferSafe"
            (p_CPU p)
            match p_CoreFraction p with
            | Some f => pretty f +:+ "%"
            | None => defaultCoreFraction
            end
            memory [p_DiskName p] (p_CloudInit p) "" "")
  end.

Definition buildVirtualMachineClass (template : VMClassSpec) (labels : gmap string string)
    : VirtualMachineClass :=
  mkClass labels (mkClassSpec "Host" [] [] (clsRest template)) "".

(** ** Cloud-init user data *)
Definition dq : string := String "034" "".

Definition cloudInitAptMirror := "apt:
  primary:
    - arches: [default]
      uri: http://mirror.yandex.ru/ubuntu
  security:
    - arches: [default]
      uri: http://mirror.yandex.ru/ubuntu
".

Definition cloudInitForceIPv4Apt := "  - path: /etc/apt/apt.conf.d/99force-ipv4
    content: |
      Acquire::ForceIPv4 " +:+ dq +:+ "true" +:+ dq +:+ ";
".

Definition cloudInitKubectlAliases := "  - path: /root/.kubectl_aliases
    content: |
      alias k=kubectl
      complete -o default -F __start_kubectl k
".

Record cloudInitOptions := mkCloudInit {
  ci_hostname : string;
  ci_sshAuthorizedKey : string;
  ci_withStorageTools : bool;
  ci_withDocker : bool
}.

Definition basePackages := ["tmux"; "htop"; "qemu-guest-agent"; "iputils-ping"; "jq"; "curl"].
Definition storageToolPackages := ["stress-ng"; "yq"; "rsync"; "fio"].

Definition cloud_packages (opts : cloudInitOptions) : list string :=
  basePackages ++ (if ci_withStorageTools opts then storageToolPackages else []) ++
  (if ci_withDocker opts then ["docker.io"] else []).

Definition cloud_runcmd (opts : cloudInitOptions) : list string :=
  ["systemctl restart ssh";
   "hostnamectl set-hostname '" +:+ ci_hostname opts +:+ "'";
   "systemctl daemon-reload";
   "systemctl enable --now qemu-guest-agent.service"] ++
  (if ci_withStorageTools opts then ["echo 'source /root/.kubectl_aliases' >> /root/.bashrc"]
   else []) ++
  (if ci_withDocker opts then ["systemctl enable --now docker.service"] else []).

(** One YAML list item per line. *)
Fixpoint yaml_items (l : list string) : string :=
  match l with
  | [] => ""
  | x :: l' => "  - " +:+ x +:+ nl +:+ yaml_items l'
  end.

Definition buildCloudInit (opts : cloudInitOptions) : string :=
  let writeFiles := cloudInitForceIPv4Apt +:+
    (if ci_withStorageTools opts then cloudInitKubectlAliases else "") in
  "#cloud-config
" +:+ cloudInitAptMirror +:+ "package_update: true
packages:
" +:+ trim_right (Ascii.eqb "010"%char) (yaml_items (cloud_packages opts)) +:+ "
ssh_pwauth: false
users:
  - name: cloud
    shell: /bin/bash
    sudo: ALL=(ALL) NOPASSWD:ALL
    ssh_authorized_keys:
      - " +:+ dq +:+ ci_sshAuthorizedKey opts +:+ dq +:+ "
write_files:
" +:+ writeFiles +:+ "  - path: /etc/ssh/sshd_config.d/allow_tcp_forwarding.conf
    content: |
      AllowTcpForwarding yes
runcmd:
" +:+ yaml_items (cloud_runcmd opts).
