(* ===== verification/Disks.v ===== *)
(** The DVP disk manager ([src/internal/provisioning/dvp/disks.go]): blank VirtualDisks in
    the test namespace and their attachments to the VMs of the nodes. Quantities are their
    value in bytes; [ParseQuantity] belongs to [k8s.io/apimachinery] and is a parameter.
    A fuel argument bounds the polls of the waits, see [Disks_total]. *)
From S2P Require Import Prelude Errors Retry Kube Wait Naming Virt.

Local Open Scope Z_scope.
Local Open Scope go_scope.

(** ** Data *)
Record DiskSpec := mkDiskSpec { specName : string; specSize : Z; specStorageClass : string }.
Record Disk := mkDisk { diskName : string; diskSize : Z; diskStorageClass : string; diskPhase : string }.


Definition diskFromVirtualDisk (name : string) (vd : VirtualDisk) : Disk :=
  mkDisk name (default 0 (vdSize vd)) (default "" (vdStorageClass vd)) (vdPhase vd).

(** The [switch] statements of the condition functions. *)
Definition one_of (phases : list string) (phase : string) : bool :=
  existsb (String.eqb phase) phases.

Section Manager.
Context {W : Type} `{AE : ApiErrors, CX : Ctx W}.
Context `{VC : Client W VirtualDisk, BC : Client W VMBDA}.
Context (ParseQuantity : string -> option Z) (fmtQuantity : Z -> string).
Context (sha256hex : string -> string).
Context (namespace defaultStorageClass : string) (pollInterval : Z) (fuel : nat).

Definition inNamespace (name : string) : string := namespace +:+ "/" +:+ name.

(** The conditions below make no calls. *)
Definition pure {T} (cond : result T -> bool * option error) (got : result T)
    : M W (bool * option error) := mret (cond got).

(** A wait as a statement: its error, [None] when the fuel ran out. *)
Definition wait_error {T} (m : M W (option (wait_result T))) : M W (option (option error)) :=
  let! r := m in mret (fst <$> r).

Definition disk_ready_cond (name : string) (got : result VirtualDisk) : bool * option error :=
  match got with
    | Err _ => (false, None)
    | Ok vd =>
        if one_of [DiskReady; DiskWaitForFirstConsumer] (vdPhase vd) then (true, None)
        else if one_of [DiskFailed; DiskLost] (vdPhase vd)
        then (false, Some (Errorf ("VirtualDisk " +:+ inNamespace name +:+ " entered phase " +:+
                                     vdPhase vd)))
        else (false, None)
    end.

Definition blank_disk (spec : DiskSpec) : VirtualDisk :=
  let storageClass :=
    if String.eqb (specStorageClass spec) "" then defaultStorageClass else specStorageClass spec in
  mkVD ManagedLabels (Some (specSize spec))
    (if String.eqb storageClass "" then None else Some storageClass) None "" "".

Definition CreateDisk (spec : DiskSpec) : M W (option (result Disk)) :=
  let name := specName spec in
  if String.eqb name "" then mret (Some (Err (Errorf "create disk: name is required")))
  else if specSize spec <=? 0
  then mret (Some (Err (Errorf ("create disk " +:+ quote name +:+
         ": size must be greater than 0, got " +:+ fmtQuantity (specSize spec)))))
  else
    let! err := clientCreate name (blank_disk spec) in
    match err with
    | Some e => mret (Some (Err (ErrorfW ("create VirtualDisk " +:+ inNamespace name +:+ ": ") e "")))
    | None =>
        let! r := pollObject (clientGet name) (pure (disk_ready_cond name)) fuel pollInterval
                    ("VirtualDisk " +:+ inNamespace name +:+ " ready") in
        mret match r with
          | None => None
          | Some (Some e, _) => Some (Err e)
          | Some (None, Some (Ok observed)) => Some (Ok (diskFromVirtualDisk name observed))
          | Some (None, _) => Some (Err (Errorf "nil dereference"))
          end
    end.

Definition gone_cond {T} (got : result T) : bool * option error :=
  (match got with Err e => IsNotFound (Some e) | Ok _ => false end, None).

Definition DeleteDisk (name : string) : M W (option (option error)) :=
  let! err := clientDelete VirtualDisk name in
  if negb (is_nil err) && negb (IsNotFound err)
  then mret (Some (Some (ErrorfWn ("delete VirtualDisk " +:+ inNamespace name +:+ ": ") err "")))
  else wait_error (pollObject (clientGet (O := VirtualDisk) name) (pure gone_cond) fuel pollInterval
                     ("VirtualDisk " +:+ inNamespace name +:+ " gone")).

Definition attached_cond (name : string) (got : result VMBDA) : bool * option error :=
  match got with
    | Err _ => (false, None)
    | Ok bd =>
        if one_of [PhaseAttached] (bdPhase bd) then (true, None)
        else if one_of [PhaseFailed] (bdPhase bd)
        then (false, Some (Errorf ("attachment " +:+ inNamespace name +:+ " entered phase " +:+
                                     bdPhase bd)))
        else (false, None)
    end.

(** The attachment binds this disk to this VM. *)
Definition binds (nodeName disk : string) (bd : VMBDA) : bool :=
  String.eqb (VirtualMachineName bd) nodeName && String.eqb (refKind bd) KindVirtualDisk &&
  String.eqb (refName bd) disk.

Definition wait_attached (name : string) : M W (option (option error)) :=
  wait_error (pollObject (clientGet name) (pure (attached_cond name)) fuel pollInterval
                ("attachment " +:+ inNamespace name +:+ " attached")).

Definition AttachDisk (nodeName disk : string) : M W (option (option error)) :=
  let name := attachmentName sha256hex disk nodeName in
  let! err := clientCreate name (mkVMBDA ManagedLabels nodeName KindVirtualDisk disk "") in
  match err with
  | None => wait_attached name
  | Some e =>
      if negb (IsAlreadyExists err)
      then mret (Some (Some (ErrorfW ("create VirtualMachineBlockDeviceAttachment " +:+
             inNamespace name +:+ ": ") e "")))
      else
        let! existing := clientGet name in
        match existing with
        | Err e => mret (Some (Some (ErrorfW ("get existing VirtualMachineBlockDeviceAttachment " +:+
             inNamespace name +:+ ": ") e "")))
        | Ok bd =>
            if binds nodeName disk bd then wait_attached name
            else mret (Some (Some (Errorf ("attachment " +:+ inNamespace name +:+
              " already exists but binds " +:+ refKind bd +:+ " " +:+ quote (refName bd) +:+
              " to VM " +:+ quote (VirtualMachineName bd) +:+ ", not " +:+ KindVirtualDisk +:+
              " " +:+ quote disk +:+ " to VM " +:+ quote nodeName))))
        end
  end.

Definition DetachDisk (nodeName disk : string) : M W (option (option error)) :=
  let name := attachmentName sha256hex disk nodeName in
  let! err := clientDelete VMBDA name in
  if negb (is_nil err) && negb (IsNotFound err)
  then mret (Some (Some (ErrorfWn ("delete VirtualMachineBlockDeviceAttachment " +:+
         inNamespace name +:+ ": ") err "")))
  else wait_error (pollObject (clientGet (O := VMBDA) name) (pure gone_cond) fuel pollInterval
                     ("attachment " +:+ inNamespace name +:+ " gone")).

Definition resizeApplied (vd : VirtualDisk) (newSize : Z) : bool :=
  match (if String.eqb (vdCapacity vd) "" then None else ParseQuantity (vdCapacity vd)) with
  | Some got => newSize <=? got
  | None => match vdSize vd with Some size => newSize <=? size | None => false end
  end.

Definition resized_cond (name : string) (newSize : Z) (got : result VirtualDisk)
    : bool * option error :=
  match got with
    | Err _ => (false, None)
    | Ok vd =>
        if one_of [DiskFailed; DiskLost] (vdPhase vd)
        then (false, Some (Errorf ("VirtualDisk " +:+ inNamespace name +:+ " entered phase " +:+
                                     vdPhase vd)))
        else if one_of [DiskReady; DiskWaitForFirstConsumer] (vdPhase vd)
        then (resizeApplied vd newSize, None)
        else (false, None)
    end.

Definition with_size (vd : VirtualDisk) (size : Z) : VirtualDisk :=
  mkVD (vdLabels vd) (Some size) (vdStorageClass vd) (vdDataSource vd) (vdPhase vd) (vdCapacity vd).

(** The update and the wait of [ResizeDisk], once the new size is accepted. *)
Definition apply_resize (name : string) (vd : VirtualDisk) (newSize : Z)
    : M W (option (option error)) :=
  let! err := clientUpdate name (with_size vd newSize) in
  match err with
  | Some e => mret (Some (Some (ErrorfW ("resize disk " +:+ quote name +:+
                ": update VirtualDisk " +:+ inNamespace name +:+ ": ") e "")))
  | None => wait_error (pollObject (clientGet name) (pure (resized_cond name newSize)) fuel pollInterval
              ("VirtualDisk " +:+ inNamespace name +:+ " resized to " +:+ fmtQuantity newSize))
  end.

Definition ResizeDisk (name : string) (newSize : Z) : M W (option (option error)) :=
  if String.eqb name "" then mret (Some (Some (Errorf "resize disk: name is required")))
  else if newSize <=? 0
  then mret (Some (Some (Errorf ("resize disk " +:+ quote name +:+
         ": size must be greater than 0, got " +:+ fmtQuantity newSize))))
  else
    let! got := clientGet name in
    match got with
    | Err e =>
        mret (Some (Some (ErrorfW ("resize disk " +:+ quote name +:+
          (if IsNotFound (Some e) then ": VirtualDisk " +:+ inNamespace name +:+ " not found: "
           else ": get VirtualDisk " +:+ inNamespace name +:+ ": ")) e "")))
    | Ok vd =>
        match vdSize vd with
        | Some cur =>
            if newSize =? cur then mret (Some None)
            else if newSize <? cur
            then mret (Some (Some (Errorf ("resize disk " +:+ quote name +:+ ": cannot shrink from " +:+
                   fmtQuantity cur +:+ " to " +:+ fmtQuantity newSize +:+
                   " (PVC expansion only grows)"))))
            else apply_resize name vd newSize
        | None => apply_resize name vd newSize
        end
    end.
End Manager.

(** ** Correctness *)

Section Correct.
Context {W : Type} `{AE : ApiErrors, CX : Ctx W, CL : !CtxLaws W}.
Context `{VC : Client W VirtualDisk, VCL : !ClientLaws W VirtualDisk}.
Context `{BC : Client W VMBDA, BCL : !ClientLaws W VMBDA}.
Context (ParseQuantity : string -> option Z) (fmtQuantity : Z -> string).
Context (sha256hex : string -> string).
Context (namespace defaultStorageClass : string) (pollInterval : Z) (fuel : nat).

(** The context has a deadline. *)
Context `{DL : !Deadline W, TV : !TimedClient W VirtualDisk, TB : !TimedClient W VMBDA}.

(** A poll with a condition that makes no calls ends with an outcome. *)
Lemma pure_poll {T} (get : M W (result T)) (cond : result T -> bool * option error) what w :
  bounded get -> (left w < fuel)%nat ->
  exists r w', pollObject get (pure cond) fuel pollInterval what w = (Some r, w') /\
    wait_outcome get (pure cond) r w'.
Proof.
  intros Hg Hl. destruct (wait_bounded_returns get (pure cond) (object_over what) fuel pollInterval)
    as [_ Hr]; [done|intros; apply ret_bounded|]. destruct (Hr w Hl) as (r & w' & H).
  exists r, w'. split; [exact H|]. by eapply pollObject_outcome.
Qed.

Lemma one_of_spec phases p : one_of phases p = true <-> In p phases.
Proof.
  unfold one_of. rw existsb_exists. split.
  - by intros (q & Hq & ->%String.eqb_eq).
  - intros H. exists p. split; [done|]. apply String.eqb_refl.
Qed.

(** [CreateDisk] returns by the deadline. It refuses an empty name and a size that is not
    positive without any call; when it succeeds, the disk it describes is stored in phase
    Ready or WaitForFirstConsumer. *)
Theorem CreateDisk_spec spec w :
  (left w < fuel)%nat ->
  exists r w', CreateDisk fmtQuantity namespace defaultStorageClass pollInterval fuel spec w
      = (Some r, w') /\
    match r with
    | Ok d => specName spec <> "" /\ 0 < specSize spec /\
        exists vd, objs w' !! specName spec = Some vd /\
          (vdPhase vd = DiskReady \/ vdPhase vd = DiskWaitForFirstConsumer) /\
          d = diskFromVirtualDisk (specName spec) vd
    | Err _ => specName spec = "" \/ specSize spec <= 0 -> w' = w
    end.
Proof.
  intros Hl. unfold CreateDisk.
  destruct (String.eqb_spec (specName spec) "") as [Hn|Hn]; [by eexists _, _|].
  destruct (Z.leb_spec (specSize spec) 0) as [Hs|Hs]; [by eexists _, _|].
  assert (Hno : ~ (specName spec = "" \/ specSize spec <= 0)) by (intros [?|?]; [done|lia]).
  unfold mbind at 1, M_bind at 1. pose proof (create_bounded (specName spec)
    (blank_disk defaultStorageClass spec) w) as Hc.
  destruct (clientCreate _ _ w) as [[e|] w1]; [eexists _, _; by split; [reflexivity|intros Hx]|]. cbn in Hc.
  destruct (pure_poll (clientGet (specName spec)) (disk_ready_cond namespace (specName spec))
    ("VirtualDisk " +:+ inNamespace namespace (specName spec) +:+ " ready") w1)
    as (r & w' & Hp & Ho); [apply get_bounded|lia|].
  unfold mbind, M_bind. rw Hp. destruct r as [[e|] g]; [eexists _, _; by split; [reflexivity|intros Hx]|].
  destruct Ho as (got & w2 & w3 & -> & Hget & [= Hcond <-]).
  destruct got as [vd|e]; [|done]. unfold disk_ready_cond in Hcond.
  destruct (one_of [DiskReady; _] _) eqn:Hph; [|by case_match].
  eexists _, _. split; [reflexivity|]. split; [done|]. split; [done|].
  apply get_ok in Hget as [Hget ->]. exists vd. split; [done|]. split; [|done].
  apply one_of_spec in Hph as [?|[?|[]]]; auto.
Qed.

(** The waits of [DeleteDisk] and [DetachDisk]. *)
Lemma wait_gone {O} `{OC : Client W O, OCL : !ClientLaws W O} name what w :
  bounded (clientGet (O := O) name) -> (left w < fuel)%nat ->
  exists r w', wait_error (pollObject (clientGet (O := O) name) (pure gone_cond) fuel pollInterval
      what) w = (Some r, w') /\ (r = None -> objs (O := O) w' !! name = None).
Proof.
  intros Hg Hl. destruct (pure_poll (clientGet (O := O) name) gone_cond what w)
    as ([e g] & w' & Hp & Ho); [done|done|].
  exists e, w'. unfold wait_error, mbind, M_bind. rw Hp. split; [done|]. intros ->.
  destruct Ho as (got & w2 & w3 & -> & Hget & [= Hcond <-]). destruct got as [o|e]; [done|].
  apply get_err in Hget as [-> Hn]. by apply Hn.
Qed.

(** [DeleteDisk] returns by the deadline, and when it returns nil the disk is gone,
    whether it existed or not. *)
Theorem DeleteDisk_spec name w :
  (left w < fuel)%nat ->
  exists r w', DeleteDisk namespace pollInterval fuel name w = (Some r, w') /\
    (r = None -> objs (O := VirtualDisk) w' !! name = None).
Proof.
  intros Hl. unfold DeleteDisk. unfold mbind at 1, M_bind at 1.
  pose proof (delete_bounded (O := VirtualDisk) name w) as Hd. destruct (clientDelete _ name w) as [err w1]. cbn in Hd.
  destruct (_ && _); [by eexists _, _|]. apply wait_gone; [apply get_bounded|lia].
Qed.

(** The attachment as it was created or found, and then as it is when the wait ends. *)
Lemma wait_attached_ok name w :
  (left w < fuel)%nat ->
  exists r w', wait_attached namespace pollInterval fuel name w = (Some r, w') /\
    (r = None -> exists bd, objs w' !! name = Some bd /\ bdPhase bd = PhaseAttached).
Proof.
  intros Hl. destruct (pure_poll (clientGet name) (attached_cond namespace name)
    ("attachment " +:+ inNamespace namespace name +:+ " attached") w)
    as ([e g] & w' & Hp & Ho); [apply get_bounded|done|].
  exists e, w'. unfold wait_attached, wait_error, mbind, M_bind. rw Hp. split; [done|]. intros ->.
  destruct Ho as (got & w2 & w3 & -> & Hget & [= Hcond <-]). destruct got as [bd|e]; [|done].
  unfold attached_cond in Hcond.
  destruct (one_of [PhaseAttached] _) eqn:Hph; [|by case_match].
  apply get_ok in Hget as [Hget ->]. exists bd. split; [done|].
  by apply one_of_spec in Hph as [?|[]].
Qed.

(** [AttachDisk] returns by the deadline. When it returns nil, an attachment that binds
    this disk to this node's VM was created or found under its name, and the attachment
    of that name is in phase Attached: a leftover of another pair is never adopted. *)
Theorem AttachDisk_spec nodeName disk w :
  (left w < fuel)%nat ->
  exists r w', AttachDisk sha256hex namespace pollInterval fuel nodeName disk w = (Some r, w') /\
    (r = None ->
     (exists w1 bd, objs w1 !! attachmentName sha256hex disk nodeName = Some bd /\
        binds nodeName disk bd = true) /\
     (exists bd, objs w' !! attachmentName sha256hex disk nodeName = Some bd /\
        bdPhase bd = PhaseAttached)).
Proof.
  intros Hl. unfold AttachDisk. set (name := attachmentName _ _ _).
  unfold mbind at 1, M_bind at 1. set (obj := mkVMBDA _ _ _ _ _).
  pose proof (create_bounded name obj w) as Hc.
  destruct (clientCreate name obj w) as [[e|] w1] eqn:Hcr; cbn in Hc.
  - destruct (IsAlreadyExists (Some e)); cbn [negb]; [|by eexists _, _].
    unfold mbind at 1, M_bind at 1. pose proof (get_bounded (O := VMBDA) name w1) as Hg.
    destruct (clientGet name w1) as [[bd|e'] w2] eqn:Hget; cbn in Hg; [|by eexists _, _].
    destruct (binds nodeName disk bd) eqn:Hb; [|by eexists _, _].
    destruct (wait_attached_ok name w2) as (r & w' & Hw & Ho); [lia|].
    exists r, w'. split; [done|]. intros Hr. split; [|by apply Ho].
    apply get_ok in Hget as [Hget _]. eauto.
  - destruct (wait_attached_ok name w1) as (r & w' & Hw & Ho); [lia|].
    exists r, w'. split; [done|]. intros Hr. split; [|by apply Ho].
    exists w1, obj. apply create_ok in Hcr as [_ ->]. rw lookup_insert_eq. split; [done|].
    unfold binds. cbn. by rw !String.eqb_refl.
Qed.

Lemma apply_resize_ok name vd newSize w :
  (left w < fuel)%nat ->
  exists r w', apply_resize ParseQuantity fmtQuantity namespace pollInterval fuel name vd newSize w
      = (Some r, w') /\
    (r = None -> exists vd, objs w' !! name = Some vd /\
       resizeApplied ParseQuantity vd newSize = true /\
         (vdPhase vd = DiskReady \/ vdPhase vd = DiskWaitForFirstConsumer)).
Proof.
  intros Hl. unfold apply_resize. unfold mbind at 1, M_bind at 1.
  pose proof (update_bounded name (with_size vd newSize) w) as Hu.
  destruct (clientUpdate _ _ w) as [[e|] w1]; cbn in Hu; [by eexists _, _|].
  destruct (pure_poll (clientGet name) (resized_cond ParseQuantity namespace name newSize)
    ("VirtualDisk " +:+ inNamespace namespace name +:+ " resized to " +:+ fmtQuantity newSize) w1)
    as ([e g] & w' & Hp & Ho); [apply get_bounded|lia|].
  exists e, w'. unfold wait_error, mbind, M_bind. rw Hp. split; [done|]. intros ->.
  destruct Ho as (got & w2 & w3 & -> & Hget & [= Hcond <-]). destruct got as [vd'|e]; [|done].
  unfold resized_cond in Hcond. destruct (one_of [DiskFailed; _] _); [done|].
  destruct (one_of [DiskReady; _] _) eqn:Hph; [|done]. injection Hcond as Hcond.
  apply get_ok in Hget as [Hget ->]. exists vd'. split; [done|]. split; [done|].
  apply one_of_spec in Hph as [?|[?|[]]]; auto.
Qed.

(** [ResizeDisk] returns by the deadline. If the stored size is known, a smaller size is
    refused and an equal one accepted, both without a write. When it returns nil after a
    write, the disk is in a settled phase and reports at least the new size. *)
Theorem ResizeDisk_spec name newSize w :
  name <> "" -> 0 < newSize -> (left w < fuel)%nat ->
  exists r w', ResizeDisk ParseQuantity fmtQuantity namespace pollInterval fuel name newSize w
      = (Some r, w') /\
    (forall vd cur w1, clientGet name w = (Ok vd, w1) -> vdSize vd = Some cur -> newSize <= cur ->
       w' = w1 /\ (r = None <-> newSize = cur)) /\
    (r = None -> exists vd, objs w' !! name = Some vd /\
       (vdSize vd = Some newSize \/
        (resizeApplied ParseQuantity vd newSize = true /\
         (vdPhase vd = DiskReady \/ vdPhase vd = DiskWaitForFirstConsumer)))).
Proof.
  intros Hname Hpos Hl. unfold ResizeDisk.
  destruct (String.eqb_spec name "") as [|_]; [done|].
  destruct (Z.leb_spec newSize 0) as [|_]; [lia|]. unfold mbind at 1, M_bind at 1.
  pose proof (get_bounded (O := VirtualDisk) name w) as Hg. destruct (clientGet name w) as [[vd|e] w1] eqn:Hget; last first.
  { eexists _, _. split; [reflexivity|]. by split. }
  cbn in Hg. apply get_ok in Hget as [Hget Hw1].
  assert (Hres : exists r w', apply_resize ParseQuantity fmtQuantity namespace pollInterval fuel
      name vd newSize w1 = (Some r, w') /\
    (r = None -> exists vd, objs w' !! name = Some vd /\
       resizeApplied ParseQuantity vd newSize = true /\
         (vdPhase vd = DiskReady \/ vdPhase vd = DiskWaitForFirstConsumer))).
  { by apply apply_resize_ok; lia. }
  destruct Hres as (r & w' & Hr & Ho).
  destruct (vdSize vd) as [cur|] eqn:Hcur; last first.
  { exists r, w'. split; [done|]. split; [intros * [= <- <-]; congruence|].
    intros Hn. destruct (Ho Hn) as (vd' & H1 & H2). eauto. }
  destruct (Z.eqb_spec newSize cur) as [->|Hne].
  { exists None, w1. split; [done|]. split; [intros * [= <- <-] Hc _; split; [done|]; split; congruence|].
    intros _. exists vd. rw Hw1. auto. }
  destruct (Z.ltb_spec newSize cur) as [Hlt|Hge].
  { eexists _, _. split; [reflexivity|]. split; [|done].
    intros * [= <- <-] Hc _. split; [done|]. split; [done|]. congruence. }
  exists r, w'. split; [done|]. split.
  - intros * [= <- <-] Hc Hle. rw Hcur in Hc. injection Hc as ->. lia.
  - intros Hn. destruct (Ho Hn) as (vd' & H1 & H2). eauto.
Qed.
End Correct.

(** ** Two pairs with one attachment name *)

Lemma attachmentName_ambiguous sha256hex a b c :
  attachmentName sha256hex (a +:+ "-" +:+ b) c = attachmentName sha256hex a (b +:+ "-" +:+ c).
Proof. unfold attachmentName. by rw !str_app_assoc. Qed.

(** Detaching disk [a] from node [b-c] is the same run as detaching disk [a-b] from node [c]:
    the name joins both parts with a dash, and [DetachDisk], unlike [AttachDisk], does not
    look at what the attachment binds before it deletes it. *)
Theorem DetachDisk_ambiguous {W} `{AE : ApiErrors, CX : Ctx W, BC : Client W VMBDA}
    sha256hex namespace pollInterval fuel a b c w :
  DetachDisk sha256hex namespace pollInterval fuel (b +:+ "-" +:+ c) a w =
  DetachDisk sha256hex namespace pollInterval fuel c (a +:+ "-" +:+ b) w.
Proof. unfold DetachDisk. by rw attachmentName_ambiguous. Qed.

(** ** On the server in memory *)

Definition attached (node disk : string) : VMBDA :=
  mkVMBDA ManagedLabels node KindVirtualDisk disk PhaseAttached.
Definition one_attachment : memWorld VMBDA :=
  mkWorld (mkMem {["disk-1-worker-0" := attached "worker-0" "disk-1"]} []) 3 false.
Definition one_disk : memWorld VirtualDisk :=
  mkWorld (mkMem {["disk-1" := mkVD ManagedLabels (Some 5) None None DiskReady "6"]} []) 3 false.

(** The attachment of [disk-1] to [worker-0] is deleted by a detach of [disk] from [1-worker-0]. *)
Example DetachDisk_of_other_pair :
  let r := DetachDisk zero_digest "e2e" Second 4 "1-worker-0" "disk" one_attachment in
  r.1 = Some None /\ objs (O := VMBDA) r.2 = ∅.
Proof. vm_compute. split; reflexivity. Qed.

Lemma AttachDisk_spec_witness :
  exists r w', AttachDisk zero_digest "e2e" Second 4 "worker-0" "disk-1" one_attachment = (Some r, w') /\
    (r = None ->
     (exists (w1 : memWorld VMBDA) bd, objs w1 !! attachmentName zero_digest "disk-1" "worker-0" = Some bd /\
        binds "worker-0" "disk-1" bd = true) /\
     (exists bd, objs w' !! attachmentName zero_digest "disk-1" "worker-0" = Some bd /\
        bdPhase bd = PhaseAttached)).
Proof.
  refine (AttachDisk_spec zero_digest "e2e" Second 4 "worker-0" "disk-1" one_attachment _).
  cbn. lia.
Defined.

Lemma CreateDisk_spec_witness :
  exists r w', CreateDisk pretty "e2e" "" Second 4 (mkDiskSpec "disk-2" 7 "") one_disk = (Some r, w') /\
    match r with
    | Ok d => "disk-2" <> "" /\ 0 < 7 /\
        exists vd, objs w' !! "disk-2" = Some vd /\
          (vdPhase vd = DiskReady \/ vdPhase vd = DiskWaitForFirstConsumer) /\
          d = diskFromVirtualDisk "disk-2" vd
    | Err _ => "disk-2" = "" \/ 7 <= 0 -> w' = one_disk
    end.
Proof.
  refine (CreateDisk_spec pretty "e2e" "" Second 4 (mkDiskSpec "disk-2" 7 "") one_disk _).
  cbn. lia.
Defined.

Lemma DeleteDisk_spec_witness :
  exists r w', DeleteDisk "e2e" Second 4 "disk-1" one_disk = (Some r, w') /\
    (r = None -> objs (O := VirtualDisk) w' !! "disk-1" = None).
Proof.
  refine (DeleteDisk_spec "e2e" Second 4 "disk-1" one_disk _).
  cbn. lia.
Defined.

Lemma ResizeDisk_spec_witness :
  exists r w', ResizeDisk (fun _ => Some 6) pretty "e2e" Second 4 "disk-1" 6 one_disk = (Some r, w') /\
    (r = None -> exists vd, objs w' !! "disk-1" = Some vd /\
       (vdSize vd = Some 6 \/
        (resizeApplied (fun _ => Some 6) vd 6 = true /\
         (vdPhase vd = DiskReady \/ vdPhase vd = DiskWaitForFirstConsumer)))).
Proof.
  destruct (ResizeDisk_spec (fun _ => Some 6) pretty "e2e" Second 4 "disk-1" 6 one_disk)
    as (r & w' & H & _ & Ho); [done|lia|cbn; lia|].
  exists r, w'. split; [exact H|exact Ho].
Defined.
