(* ===== verification/Provision.v ===== *)
(** The VM provisioner ([src/internal/provisioning/dvp/vm]: [provision.go], [create.go]): it
    creates the VMs of a cluster definition on the base cluster, waits until they run, and
    tears down what carries its label. Objects are those of the test namespace. *)
From S2P Require Import Prelude Errors Retry Kube Wait Config Naming Virt.

Local Open Scope Z_scope.
Local Open Scope go_scope.

Record ProvisionerConfig := mkProv {
  pv_Namespace : string;
  pv_StorageClass : string;
  pv_SSHPublicKey : string;
  pv_VMClassName : string;
  pv_DefaultVMClassName : string;
  pv_PollInterval : Z
}.

(** Where a planned node lives in the definition: the pointer [&def.Masters[i]]. *)
Inductive nodePtr := PMaster (i : nat) | PWorker (i : nat) | PSetup.

Record plannedVM := mkPlanned {
  pl_ptr : nodePtr;
  pl_node : ClusterNode;
  pl_withStorageTools : bool;
  pl_withDocker : bool;
  pl_cviName : string
}.

Section Plan.
Context (sha256hex : string -> string).

(** The closure [add]. *)
Definition add_planned (ptr : nodePtr) (n : ClusterNode) : list plannedVM :=
  match Host n with
  | HostTypeVM =>
      [mkPlanned ptr n (negb (bool_decide (Role n = Some ClusterRoleSetup)))
         (bool_decide (Role n = Some ClusterRoleSetup))
         (cviNameFromImageURL sha256hex (ImageURL (OS n)))]
  | HostTypeBareMetal => []
  end.

Definition plan (def : ClusterDefinition) : list plannedVM :=
  concat (imap (fun i n => add_planned (PMaster i) n) (Masters def)) ++
  concat (imap (fun i n => add_planned (PWorker i) n) (Workers def)) ++
  match Setup def with Some n => add_planned PSetup n | None => [] end.

(** [images[pl.cviName] = ...]: the last entry of a name wins. *)
Definition uniqueImages (planned : list plannedVM) : gmap string string :=
  foldl (fun images pl => <[pl_cviName pl := ImageURL (OS (pl_node pl))]> images) ∅ planned.
End Plan.

(** [pl.node.IPAddress = ip]. *)
Definition set_ip (ip : string) (n : ClusterNode) : ClusterNode :=
  mkNode (Hostname n) ip (OS n) (Host n) (Role n) (CPU n) (CoreFraction n) (RAM n) (DiskSize n)
    (Prepared n).

Definition assign_ip (def : ClusterDefinition) (p : nodePtr * string) : ClusterDefinition :=
  match p.1 with
  | PMaster i => mkDef (alter (set_ip p.2) i (Masters def)) (Workers def) (Setup def) (DKP def)
  | PWorker i => mkDef (Masters def) (alter (set_ip p.2) i (Workers def)) (Setup def) (DKP def)
  | PSetup => mkDef (Masters def) (Workers def) (set_ip p.2 <$> Setup def) (DKP def)
  end.

Section Conditions.
Context `{AE : ApiErrors}.

Definition ignoreAlreadyExists (err : option error) : option error :=
  if is_nil err || IsAlreadyExists err then None else err.

Definition terminalGetErr (err : option error) : bool :=
  IsForbidden err || IsUnauthorized err || IsBadRequest err || IsInvalid err ||
  IsMethodNotSupported err.

(** A failed read: final for some errors, else read again. *)
Definition get_failed (e : error) : bool * option error :=
  if terminalGetErr (Some e) then (false, Some e) else (false, None).

Definition clusterVirtualImageReady (name : string) (got : result ClusterVirtualImage)
    : bool * option error :=
  match got with
  | Err e => get_failed e
  | Ok cvi =>
      if String.eqb (cviPhase cvi) ImageReady then (true, None)
      else if String.eqb (cviPhase cvi) ImageFailed || String.eqb (cviPhase cvi) ImageLost
      then (false, Some (Errorf ("ClusterVirtualImage " +:+ quote name +:+ " reached phase " +:+
                                   cviPhase cvi)))
      else (false, None)
  end.

Definition virtualMachineClassReady (name : string) (got : result VirtualMachineClass)
    : bool * option error :=
  match got with
  | Err e => get_failed e
  | Ok class =>
      if String.eqb (clsPhase class) ClassPhaseReady then (true, None)
      else if String.eqb (clsPhase class) ClassPhaseTerminating
      then (false, Some (Errorf ("VirtualMachineClass " +:+ quote name +:+ " is terminating")))
      else (false, None)
  end.

Definition virtualMachineRunning (name : string) (got : result VirtualMachine)
    : bool * option error :=
  match got with
  | Err e => get_failed e
  | Ok machine =>
      if String.eqb (vmPhase machine) MachineRunning
      then (negb (String.eqb (vmIPAddress machine) ""), None)
      else if String.eqb (vmPhase machine) MachineDegraded
      then (false, Some (Errorf ("VirtualMachine " +:+ quote name +:+ " is degraded")))
      else (false, None)
  end.

Definition resourceDeleted {T} (got : result T) : bool * option error :=
  match got with
  | Err e => if IsNotFound (Some e) then (true, None) else (false, None)
  | Ok _ => (false, None)
  end.
End Conditions.

Section Provisioner.
Context {W : Type} `{AE : ApiErrors, CX : Ctx W}.
Context `{IC : Client W ClusterVirtualImage, DC : Client W VirtualDisk}.
Context `{MC : Client W VirtualMachine, CC : Client W VirtualMachineClass}.
Context (sha256hex : string -> string) (ParseQuantity : string -> result Z).
(** The order in which the tasks of a group run, and in which maps are visited. *)
Context (order : forall T, list T -> list T).
Context (cfg : ProvisionerConfig) (fuel : nat).

Definition pure_cond {T} (cond : result T -> bool * option error) (got : result T)
    : M W (bool * option error) := mret (cond got).

(** The four [createIfAbsent] functions differ in the kind and in how they name the object. *)
Definition createIfAbsent {O} `{OC : Client W O} (what name : string) (o : O) : M W (option error) :=
  let! got := clientGet (O := O) name in
  match got with
  | Ok _ => mret None
  | Err e =>
      if negb (IsNotFound (Some e)) then mret (Some (ErrorfW ("get " +:+ what +:+ ": ") e ""))
      else
        let! err := clientCreate name o in
        mret match ignoreAlreadyExists err with
             | Some e => Some (ErrorfW ("create " +:+ what +:+ ": ") e "")
             | None => None
             end
  end.

Definition createIfAbsentClusterVirtualImage (name : string) (cvi : ClusterVirtualImage) :=
  createIfAbsent ("ClusterVirtualImage " +:+ quote name) name cvi.
Definition createIfAbsentVirtualDisk (name : string) (vd : VirtualDisk) :=
  createIfAbsent ("VirtualDisk " +:+ pv_Namespace cfg +:+ "/" +:+ name) name vd.
Definition createIfAbsentVirtualMachine (name : string) (machine : VirtualMachine) :=
  createIfAbsent ("VirtualMachine " +:+ pv_Namespace cfg +:+ "/" +:+ name) name machine.
Definition createIfAbsentVirtualMachineClass (name : string) (class : VirtualMachineClass) :=
  createIfAbsent ("VirtualMachineClass " +:+ quote name) name class.

(** A wait with [waitForCondition], its error wrapped with [pre]. *)
Definition wait_with {T} (pre : string) (get : M W (result T))
    (cond : result T -> M W (bool * option error)) : M W (option (option error)) :=
  let! r := waitForCondition get cond fuel (pv_PollInterval cfg) in
  mret match r with
    | None => None
    | Some (None, _) => Some None
    | Some (Some e, _) => Some (Some (ErrorfW pre e ""))
    end.

Definition waitVMClassReady (name : string) : M W (option (option error)) :=
  wait_with ("wait for VirtualMachineClass " +:+ quote name +:+ " to become Ready: ")
    (clientGet name) (pure_cond (virtualMachineClassReady name)).

Definition provisionVMClass : M W (option (option error)) :=
  let name := pv_VMClassName cfg in
  let! got := clientGet (O := VirtualMachineClass) name in
  match got with
  | Ok _ => waitVMClassReady name
  | Err e =>
      if negb (IsNotFound (Some e))
      then mret (Some (Some (ErrorfW ("get VirtualMachineClass " +:+ quote name +:+ ": ") e "")))
      else if String.eqb name (pv_DefaultVMClassName cfg)
      then mret (Some (Some (Errorf ("VirtualMachineClass " +:+ quote name +:+
             " not found on the base cluster; enable the virtualization module and ensure this class exists before running tests"))))
      else
        let! template := clientGet (O := VirtualMachineClass) (pv_DefaultVMClassName cfg) in
        match template with
        | Err e =>
            mret (Some (Some
              (if IsNotFound (Some e)
               then Errorf ("VirtualMachineClass " +:+ quote name +:+
                      " is missing and template class " +:+ quote (pv_DefaultVMClassName cfg) +:+
                      " was not found; cannot auto-create the class")
               else ErrorfW ("get template VirtualMachineClass " +:+
                      quote (pv_DefaultVMClassName cfg) +:+ ": ") e "")))
        | Ok template =>
            let! err := createIfAbsentVirtualMachineClass name
                          (buildVirtualMachineClass (clsSpec template) ManagedLabels) in
            match err with
            | Some e => mret (Some (Some e))
            | None => waitVMClassReady name
            end
        end
  end.

Definition image_task (image : string * string) : M W (option (option error)) :=
  let '(name, url) := image in
  let! err := createIfAbsentClusterVirtualImage name (buildClusterVirtualImage url ManagedLabels) in
  match err with
  | Some e => mret (Some (Some e))
  | None => wait_with ("wait for ClusterVirtualImage " +:+ quote name +:+ " to become Ready: ")
              (clientGet name) (pure_cond (clusterVirtualImageReady name))
  end.

Definition provisionClusterVirtualImages (planned : list plannedVM) : M W (option (option error)) :=
  errgroup (map image_task (order _ (map_to_list (uniqueImages planned)))).

Definition createDiskAndVM (pl : plannedVM) : M W (option error) :=
  let host := Hostname (pl_node pl) in
  let diskName := systemDiskName host in
  match buildVirtualDisk (pl_cviName pl) (pv_StorageClass cfg) (DiskSize (pl_node pl)) ManagedLabels with
  | Err e => mret (Some e)
  | Ok vd =>
      let! err := createIfAbsentVirtualDisk diskName vd in
      match err with
      | Some e => mret (Some e)
      | None =>
          let cloudInit := buildCloudInit (mkCloudInit host (pv_SSHPublicKey cfg)
                             (pl_withStorageTools pl) (pl_withDocker pl)) in
          match buildVirtualMachine ParseQuantity
                  (mkParams host (pv_VMClassName cfg) diskName cloudInit (CPU (pl_node pl))
                     (RAM (pl_node pl)) (CoreFraction (pl_node pl)) ManagedLabels) with
          | Err e => mret (Some e)
          | Ok machine => createIfAbsentVirtualMachine host machine
          end
      end
  end.

Definition disk_and_vm_task (pl : plannedVM) : M W (option (option error)) :=
  let! err := createDiskAndVM pl in mret (Some err).

Definition provisionDisksAndVMs (planned : list plannedVM) : M W (option (option error)) :=
  errgroup (map disk_and_vm_task (order _ planned)).

(** The condition of the wait: it also reads the disk, to log a failure of it. *)
Definition running_cond (host : string) (got : result VirtualMachine) : M W (bool * option error) :=
  let! _ := clientGet (O := VirtualDisk) (systemDiskName host) in
  mret (virtualMachineRunning host got).

(** The tasks of the last phase write to the definition too. *)
Definition record_ip (p : nodePtr * string) : M (W * ClusterDefinition) unit := fun w =>
  (tt, (w.1, assign_ip w.2 p)).

Definition running_task (pl : plannedVM) : M (W * ClusterDefinition) (option (option error)) :=
  let host := Hostname (pl_node pl) in
  let! r := on_fst (waitForCondition (clientGet host) (running_cond host) fuel (pv_PollInterval cfg)) in
  match r with
  | None => mret None
  | Some (Some e, _) =>
      mret (Some (Some (ErrorfW ("wait for VM " +:+ quote host +:+ " to become Running: ") e "")))
  | Some (None, got) =>
      let ip := match got with Some (Ok machine) => vmIPAddress machine | _ => "" end in
      record_ip (pl_ptr pl, ip) ;;; mret (Some None)
  end.

Definition waitRunningAndCollectIPs (planned : list plannedVM)
    : M (W * ClusterDefinition) (option (option error)) :=
  errgroup (map running_task (order _ planned)).

(** [if err := m; err != nil { return err }] and then [k]. *)
Definition and_then {W'} (m k : M W' (option (option error))) : M W' (option (option error)) :=
  let! r := m in
  match r with
  | Some None => k
  | _ => mret r
  end.

Definition Provision : M (W * ClusterDefinition) (option (option error)) := fun w =>
  let planned := plan sha256hex w.2 in
  if Nat.eqb (length planned) 0 then (Some (Some (Errorf "no VM nodes to provision")), w)
  else
    and_then (on_fst provisionVMClass) (
    and_then (on_fst (provisionClusterVirtualImages planned)) (
    and_then (on_fst (provisionDisksAndVMs planned))
      (waitRunningAndCollectIPs planned))) w.

(** ** Removal *)

Definition waitDeleted {T} (get : M W (result T)) (kind name : string) : M W (option (option error)) :=
  wait_with ("wait for " +:+ kind +:+ " " +:+ quote name +:+ " deletion: ") get
    (pure_cond resourceDeleted).

(** [deleteVirtualMachine] and [deleteVirtualDisk] differ in the kind only. *)
Definition delete_object (O : Type) `{OC : Client W O} (kind name : string)
    : M W (option (option error)) :=
  let! err := clientDelete O name in
  if negb (is_nil err) && negb (IsNotFound err)
  then mret (Some (Some (ErrorfWn ("delete " +:+ kind +:+ " " +:+ pv_Namespace cfg +:+ "/" +:+ name +:+
                                     ": ") err "")))
  else waitDeleted (clientGet (O := O) name) kind name.

Definition deleteVirtualMachine : string -> M W (option (option error)) :=
  delete_object VirtualMachine "VirtualMachine".
Definition deleteVirtualDisk : string -> M W (option (option error)) :=
  delete_object VirtualDisk "VirtualDisk".

Definition teardown_kind (O : Type) `{OC : Client W O} (labels : O -> gmap string string)
    (kind : string) : M W (option (option error)) :=
  let! got := clientList (O := O) in
  match got with
  | Err e => mret (Some (Some (ErrorfW ("list " +:+ kind +:+ "s: ") e "")))
  | Ok items =>
      let managed := filter (fun p => isManaged (labels p.2) = true) items in
      errgroup (map (fun p => delete_object O kind p.1) (order _ managed))
  end.

Definition teardownVirtualMachines : M W (option (option error)) :=
  teardown_kind VirtualMachine vmLabels "VirtualMachine".
Definition teardownVirtualDisks : M W (option (option error)) :=
  teardown_kind VirtualDisk vdLabels "VirtualDisk".

Definition Teardown : M W (option (option error)) :=
  and_then teardownVirtualMachines teardownVirtualDisks.

Definition DeleteNode (hostname : string) : M W (option (option error)) :=
  and_then (deleteVirtualMachine hostname) (deleteVirtualDisk (systemDiskName hostname)).
End Provisioner.

(** ** Creation never touches what exists *)

Section Create.
Context {W : Type} `{AE : ApiErrors, AL : !ApiErrorsLaws, CX : Ctx W}.
Context {O : Type} `{OC : Client W O, OCL : !ClientLaws W O}.

(** [createIfAbsent] keeps every stored object as it is, the named one included, and when
    it returns nil an object of that name is stored: a create that lost a race counts as
    success, and a failed read never leads to a create. *)
Theorem createIfAbsent_spec what name (o : O) w r w' :
  createIfAbsent what name o w = (r, w') ->
  objs w ⊆ objs w' /\ (r = None -> is_Some (objs w' !! name)) /\
  (forall e w1, clientGet (O := O) name w = (Err e, w1) -> IsNotFound (Some e) = false ->
     is_Some r /\ w' = w1).
Proof.
  intros H. rw and_assoc. unfold createIfAbsent in H. mstep H as [got w1] E1. split; last first.
  { intros e w1' E Hn. simplify_eq. rw Hn in H. by injection H as <- <-. }
  destruct got as [o1|e].
  - injection H as <- <-. apply get_ok in E1 as [E1 ->]. by rw E1.
  - apply get_err in E1 as [E1 Hn]. destruct (IsNotFound (Some e)); cbn [negb] in H; last first.
    { injection H as <- <-. by rw E1. }
    mstep H as [err w2] E2. specialize (Hn eq_refl). rw -E1 in Hn |- *.
    destruct err as [e2|]; last first.
    + injection H as <- <-. apply create_ok in E2 as [_ ->]. split; [by apply insert_subseteq|].
      by rw lookup_insert_eq.
    + apply create_err in E2 as [Hk Hae]. cbn [is_nil] in H. unfold ignoreAlreadyExists in H.
      cbn [is_nil orb] in H. destruct (IsAlreadyExists (Some e2)).
      * injection H as <- <-. destruct (Hae eq_refl) as [-> [x Hx]]. by rw Hx.
      * injection H as <- <-. split; [|done]. apply map_subseteq_spec. intros k x Hx.
        rw Hk; [by intros ->; congruence|done].
Qed.
End Create.

(** ** Teardown *)

Section Removal.
Context {W : Type} `{AE : ApiErrors, CX : Ctx W, CL : !CtxLaws W}.
Context (cfg : ProvisionerConfig) (fuel : nat).
Context (order : forall T, list T -> list T).
Hypothesis order_perm : forall T (l : list T), order T l ≡ₚ l.

Section Kind.
Context {O : Type} `{OC : Client W O, OCL : !ClientLaws W O}.

(** What the reads, the clock and the deletion of [name] preserve, [delete_object] does. *)
Lemma delete_object_preserves (J : W -> Prop) kind name w r w' :
  (forall w r w', J w -> clientDelete O name w = (r, w') -> J w') ->
  (forall k w r w', J w -> clientGet (O := O) k w = (r, w') -> J w') ->
  (forall w e w', J w -> ctxErr w = (e, w') -> J w') ->
  (forall z w b w', J w -> timerFires z w = (b, w') -> J w') ->
  J w -> delete_object cfg fuel O kind name w = (r, w') -> J w'.
Proof.
  intros Hd Hg Hc Ht HJ H. unfold delete_object in H. mstep H as [err w1] E1.
  apply Hd in E1; [|done]. destruct (_ && _); [by injection H as _ <-|].
  unfold waitDeleted, wait_with in H. mstep H as [wr w2] E2.
  assert (HJ2 : J w2); [|by injection H as _ <-].
  unfold waitForCondition in E2. revert E2. apply (poll_preserves _ _ J); [|done|done|done].
  intros le w3 x w4 HJ3 Hw. unfold wait_check in Hw. mstep Hw as [got w5] E5.
  mstep Hw as [[ok er] w6] E6. injection Hw as _ <-. injection E6 as _ <-. by eapply Hg.
Qed.

Lemma delete_object_ok kind name w w' :
  delete_object cfg fuel O kind name w = (Some None, w') -> objs (O := O) w' !! name = None.
Proof.
  intros H. unfold delete_object in H. mstep H as [err w1] E1.
  destruct (_ && _); [done|]. unfold waitDeleted, wait_with in H. mstep H as [wr w2] E2.
  destruct wr as [[[e|] g]|]; simplify_eq.
  destruct (waitForCondition_outcome _ _ _ _ _ _ _ E2)
    as (got & w3 & w4 & -> & Hget & [= Hcond <-]).
  destruct got as [x|e]; [done|]. unfold resourceDeleted in Hcond.
  destruct (IsNotFound (Some e)) eqn:Hn; [|done]. apply get_err in Hget as [-> Hg]. by apply Hg.
Qed.

(** From [w] to [w'] only managed objects went away, and nothing else changed. *)
Definition only_managed_gone (labels : O -> gmap string string) (w w' : W) : Prop :=
  forall k, objs (O := O) w' !! k = objs w !! k \/
    (objs (O := O) w' !! k = None /\ exists o, objs w !! k = Some o /\ isManaged (labels o) = true).

Context (QO : Quiet W O) (labels : O -> gmap string string).

(** Reads, timers and the context keep any property of the stored objects. *)
Lemma quiet_steps (P : gmap string O -> Prop) :
  (forall k w r w', P (objs w) -> clientGet (O := O) k w = (r, w') -> P (objs w')) /\
  (forall w e w', P (objs w) -> ctxErr w = (e, w') -> P (objs w')) /\
  (forall z w b w', P (objs w) -> timerFires z w = (b, w') -> P (objs w')).
Proof.
  split; [|split].
  - intros k w [o|e] w' HP H; [by apply get_ok in H as [_ ->]|by apply get_err in H as [-> _]].
  - intros w e w' HP H. pose proof (quiet_ctx (O := O) w) as Hq. rw H in Hq. by rw Hq.
  - intros z w b w' HP H. pose proof (quiet_timer (O := O) z w) as Hq. rw H in Hq. by rw Hq.
Qed.

Lemma delete_object_gone w0 kind k o w r w' :
  objs w0 !! k = Some o -> isManaged (labels o) = true ->
  only_managed_gone labels w0 w -> delete_object cfg fuel O kind k w = (r, w') ->
  only_managed_gone labels w0 w'.
Proof.
  intros Hk Hm HJ. destruct (quiet_steps (fun m => forall k, m !! k = objs w0 !! k \/
    (m !! k = None /\ exists o, objs w0 !! k = Some o /\ isManaged (labels o) = true)))
    as (Hg & Hc & Ht).
  apply (delete_object_preserves (only_managed_gone labels w0)); [|done..].
  intros w1 r1 w2 HJ1 Hd k'. destruct (decide (k' = k)) as [->|Hne].
  - destruct (delete_own _ _ _ _ Hd) as [Hn|Hn]; [right; eauto|]. rw Hn. apply HJ1.
  - rw (delete_frame _ _ _ _ Hd k' Hne). apply HJ1.
Qed.

Lemma delete_object_stays_gone kind k k' w r w' :
  objs (O := O) w !! k = None -> delete_object cfg fuel O kind k' w = (r, w') ->
  objs (O := O) w' !! k = None.
Proof.
  intros Hk. destruct (quiet_steps (fun m => m !! k = None)) as (Hg & Hc & Ht).
  apply (delete_object_preserves (fun w => objs (O := O) w !! k = None)); [|done..].
  intros w1 r1 w2 Hn Hd. destruct (decide (k = k')) as [->|Hne].
  - destruct (delete_own _ _ _ _ Hd) as [?|Hx]; [done|by rw Hx].
  - by rw (delete_frame _ _ _ _ Hd k Hne).
Qed.

Lemma delete_object_others kind k k' w r w' :
  delete_object cfg fuel O kind k w = (r, w') -> k' <> k ->
  objs (O := O) w' !! k' = objs w !! k'.
Proof.
  intros H Hne. destruct (quiet_steps (fun m => m !! k' = objs (O := O) w !! k')) as (Hg & Hc & Ht).
  refine (delete_object_preserves (fun w1 => objs (O := O) w1 !! k' = objs (O := O) w !! k')
    _ _ _ _ _ _ Hg Hc Ht _ H); [|done].
  intros w1 r1 w2 <- Hd. by rw (delete_frame _ _ _ _ Hd k' Hne).
Qed.

Lemma teardown_kind_spec kind w r w' :
  teardown_kind order cfg fuel O labels kind w = (r, w') ->
  only_managed_gone labels w w' /\
  (r = Some None -> forall k o, objs w' !! k = Some o -> isManaged (labels o) = false).
Proof.
  intros H. unfold teardown_kind in H. mstep H as [got w1] E1. destruct got as [items|e]; last first.
  { injection H as <- <-. apply list_err in E1. split; [|done]. intros k. left. by rw E1. }
  apply list_ok in E1 as [Hitems E1]. set (managed := filter _ items) in H.
  assert (Hin : forall p, p ∈ order _ managed <->
    objs w !! p.1 = Some p.2 /\ isManaged (labels p.2) = true).
  { intros [k o]. rw order_perm list_elem_of_filter Hitems elem_of_map_to_list. cbn. tauto. }
  assert (Hgone : only_managed_gone labels w w').
  { refine (errgroup_preserves (only_managed_gone labels w) _ _ _ _ _ _ H);
      [|intros k; left; by rw E1].
    intros t w2 r2 w3 (p & -> & Hp)%list_elem_of_fmap HJ. apply Hin in Hp as [Hp1 Hp2].
    by apply (delete_object_gone w _ _ p.2). }
  split; [done|]. intros -> k o Hk.
  destruct (isManaged (labels o)) eqn:Hm; [|done]. exfalso.
  assert (Hko : objs w !! k = Some o) by (destruct (Hgone k) as [<-|[? _]]; [done|congruence]).
  assert (Hnone : objs (O := O) w' !! k = None); [|congruence].
  refine (errgroup_ok (fun p => delete_object cfg fuel O kind p.1) (fun _ => True)
    (fun p w => objs (O := O) w !! p.1 = None) (order _ managed) w1 w' _ _ _ _ H (k, o) _).
  - rw order_perm. apply NoDup_filter. rw Hitems. apply NoDup_map_to_list.
  - intros p w2 r2 w3 _ _ Hrun. split; [done|]. intros ->. by eapply delete_object_ok.
  - intros p q w2 r2 w3 _ _ _ _. apply delete_object_stays_gone.
  - done.
  - by apply Hin.
Qed.

(** Calls on this kind leave another kind alone, and so does the whole teardown of it. *)
Section Other.
Context {O2 : Type} `{OC2 : Client W O2, Q2 : !Quiet W O2, FR : !Frame W O O2}.

Lemma delete_object_frame kind k w r w' :
  delete_object cfg fuel O kind k w = (r, w') -> objs (O := O2) w' = objs w.
Proof.
  intros H. refine (delete_object_preserves (fun w' => objs (O := O2) w' = objs w)
    _ _ _ _ _ _ _ _ _ _ H); [..|done].
  - intros w1 x w2 <- E. pose proof (frame_delete (O1 := O) (O2 := O2) k w1) as F. by rw E in F.
  - intros k' w1 x w2 <- E. pose proof (frame_get (O1 := O) (O2 := O2) k' w1) as F. by rw E in F.
  - intros w1 x w2 <- E. pose proof (quiet_ctx (O := O2) w1) as F. by rw E in F.
  - intros z w1 x w2 <- E. pose proof (quiet_timer (O := O2) z w1) as F. by rw E in F.
Qed.

Lemma teardown_kind_frame kind w r w' :
  teardown_kind order cfg fuel O labels kind w = (r, w') -> objs (O := O2) w' = objs w.
Proof.
  intros H. unfold teardown_kind in H. mstep H as [got w1] E1.
  pose proof (frame_list (O1 := O) (O2 := O2) w) as F. rw E1 in F. cbn in F.
  destruct got as [items|e]; [|by injection H as _ <-].
  refine (errgroup_preserves (fun w' => objs (O := O2) w' = objs w) _ _ _ _ _ F H).
  intros t w2 r2 w3 (p & -> & _)%list_elem_of_fmap <-. apply delete_object_frame.
Qed.
End Other.

Section Timed.
Context `{DL : !Deadline W, TO : !TimedClient W O}.

Lemma delete_object_runs kind k :
  bounded (delete_object cfg fuel O kind k) /\ returns fuel (delete_object cfg fuel O kind k).
Proof.
  destruct (wait_bounded_returns (clientGet (O := O) k) (pure_cond resourceDeleted) condition_over
    fuel (pv_PollInterval cfg)) as [Hb Hr]; [apply get_bounded|intros; apply ret_bounded|].
  split.
  - apply bind_bounded; [apply delete_bounded|]. intros err. destruct (_ && _); [apply ret_bounded|].
    apply bind_bounded; [exact Hb|intros; apply ret_bounded].
  - apply bind_returns; [apply delete_bounded|]. intros err. destruct (_ && _); [apply ret_returns|].
    apply returns_bind; [exact Hr|exact Hb|]. intros [[e|] g]; apply ret_returns.
Qed.

Lemma teardown_kind_runs kind :
  bounded (teardown_kind order cfg fuel O labels kind) /\
  returns fuel (teardown_kind order cfg fuel O labels kind).
Proof.
  split; [apply bind_bounded|apply bind_returns]; try apply list_bounded; intros [items|e];
    try apply ret_bounded; try apply ret_returns.
  - apply errgroup_bounded. intros t (p & -> & _)%list_elem_of_fmap. apply delete_object_runs.
  - apply errgroup_returns. intros t (p & -> & _)%list_elem_of_fmap. apply delete_object_runs.
Qed.
End Timed.
End Kind.

Section Both.
Context `{MC : Client W VirtualMachine, ML : !ClientLaws W VirtualMachine, MQ : !Quiet W VirtualMachine}.
Context `{DC : Client W VirtualDisk, DLs : !ClientLaws W VirtualDisk, DQ : !Quiet W VirtualDisk}.
Context `{F1 : !Frame W VirtualMachine VirtualDisk, F2 : !Frame W VirtualDisk VirtualMachine}.
Context `{DL : !Deadline W, TM : !TimedClient W VirtualMachine, TD : !TimedClient W VirtualDisk}.

Lemma and_then_runs (m k : M W (option (option error))) :
  bounded m /\ returns fuel m -> returns fuel k -> returns fuel (and_then m k).
Proof.
  intros [Hb Hr] Hk. apply returns_bind; [done|done|]. intros [e|]; [apply ret_returns|done].
Qed.


(** [DeleteNode] returns by the deadline, removes at most the VM of the host and its system
    disk, and when it returns nil both are gone. *)
Theorem DeleteNode_spec hostname w :
  (left w < fuel)%nat ->
  exists r w', DeleteNode cfg fuel hostname w = (Some r, w') /\
    (forall k, k <> hostname -> objs (O := VirtualMachine) w' !! k = objs w !! k) /\
    (forall k, k <> systemDiskName hostname -> objs (O := VirtualDisk) w' !! k = objs w !! k) /\
    (r = None -> objs (O := VirtualMachine) w' !! hostname = None /\
                 objs (O := VirtualDisk) w' !! systemDiskName hostname = None).
Proof.
  intros Hl. destruct (and_then_runs _ _ (delete_object_runs (O := VirtualMachine) "VirtualMachine" hostname)
    (proj2 (delete_object_runs (O := VirtualDisk) "VirtualDisk" (systemDiskName hostname))) w Hl)
    as (r & w' & H).
  exists r, w'. split; [exact H|]. unfold and_then in H. mstep H as [r1 w1] E1.
  pose proof (delete_object_frame (O2 := VirtualDisk) _ _ _ _ _ E1) as Fd.
  pose proof (fun k => delete_object_others _ _ _ k _ _ _ E1) as Om.
  destruct r1 as [[e|]|]; [injection H as <- <-; rw Fd; by split|..|done].
  pose proof (delete_object_frame (O2 := VirtualMachine) _ _ _ _ _ H) as Fm.
  pose proof (fun k => delete_object_others _ _ _ k _ _ _ H) as Od.
  rw Fm -Fd. split; [done|]. split; [done|]. intros ->.
  split; [by apply delete_object_ok in E1|by apply delete_object_ok in H].
Qed.
End Both.
End Removal.

(** ** The plan *)

Definition node_at (def : ClusterDefinition) (ptr : nodePtr) : option ClusterNode :=
  match ptr with
  | PMaster i => Masters def !! i
  | PWorker i => Workers def !! i
  | PSetup => Setup def
  end.

#[export] Instance nodePtr_eq_dec : EqDecision nodePtr.
Proof. solve_decision. Defined.

Section PlanFacts.
Context (sha256hex : string -> string).

Lemma elem_of_section (C : nat -> nodePtr) l pl :
  pl ∈ concat (imap (fun i n => add_planned sha256hex (C i) n) l) <->
  exists i n, l !! i = Some n /\ pl ∈ add_planned sha256hex (C i) n.
Proof.
  revert C. induction l as [|x l IH]; intros C; cbn [imap concat].
  { split; [set_solver|]. intros (i & n & H & _). done. }
  rw elem_of_app (IH (C ∘ S)). split.
  - intros [H|(i & n & Hi & H)]; [by exists 0%nat, x|by exists (S i), n].
  - intros ([|i] & n & Hi & H); cbn in Hi; [injection Hi as ->; by left|right; eauto].
Qed.

Lemma elem_of_add_planned ptr n pl :
  pl ∈ add_planned sha256hex ptr n ->
  pl = mkPlanned ptr n (negb (bool_decide (Role n = Some ClusterRoleSetup)))
         (bool_decide (Role n = Some ClusterRoleSetup))
         (cviNameFromImageURL sha256hex (ImageURL (OS n))) /\ Host n = HostTypeVM.
Proof.
  unfold add_planned. destruct (Host n); [|set_solver]. by intros ->%list_elem_of_singleton.
Qed.

Lemma NoDup_section (C : nat -> nodePtr) l :
  (forall i j, C i = C j -> i = j) ->
  NoDup (concat (imap (fun i n => add_planned sha256hex (C i) n) l)).
Proof.
  revert C. induction l as [|x l IH]; intros C HC; cbn [imap concat]; [constructor|].
  apply NoDup_app. split; [|split].
  - unfold add_planned. destruct (Host x); [apply NoDup_singleton|constructor].
  - intros pl [-> _]%elem_of_add_planned (i & n & _ & [Heq _]%elem_of_add_planned)%(elem_of_section (C ∘ S)).
    injection Heq as Heq _. by apply HC in Heq.
  - apply (IH (C ∘ S)). intros i j Hij%HC. by injection Hij.
Qed.

Lemma elem_of_plan def pl :
  pl ∈ plan sha256hex def ->
  exists ptr n, node_at def ptr = Some n /\ pl ∈ add_planned sha256hex ptr n.
Proof.
  unfold plan. rw !elem_of_app !elem_of_section. intros [(i & n & H)|[(i & n & H)|H]].
  - by exists (PMaster i), n.
  - by exists (PWorker i), n.
  - destruct (Setup def) as [n|] eqn:Hs; [|set_solver]. by exists PSetup, n.
Qed.

Lemma plan_node_at def pl : pl ∈ plan sha256hex def -> node_at def (pl_ptr pl) = Some (pl_node pl).
Proof. intros (ptr & n & Hn & [-> _]%elem_of_add_planned)%elem_of_plan. done. Qed.

(** Planned VMs with one pointer are one planned VM. *)
Lemma plan_inj def pl pl' :
  pl ∈ plan sha256hex def -> pl' ∈ plan sha256hex def -> pl_ptr pl = pl_ptr pl' -> pl = pl'.
Proof.
  intros (p & n & Hn & [-> _]%elem_of_add_planned)%elem_of_plan
    (p' & n' & Hn' & [-> _]%elem_of_add_planned)%elem_of_plan. cbn. intros ->.
  rw Hn in Hn'. by injection Hn' as ->.
Qed.

Lemma NoDup_plan def : NoDup (plan sha256hex def).
Proof.
  unfold plan. apply NoDup_app. split; [apply NoDup_section; by intros i j [= ->]|].
  assert (Hs : forall pl, pl ∈ match Setup def with
      | Some n => add_planned sha256hex PSetup n | None => [] end -> pl_ptr pl = PSetup).
  { intros pl. destruct (Setup def); [|set_solver]. by intros [-> _]%elem_of_add_planned. }
  split.
  - intros pl (i & n & _ & [-> _]%elem_of_add_planned)%elem_of_section.
    rw elem_of_app elem_of_section. intros [(j & n' & _ & [[=] _]%elem_of_add_planned)|H].
    by apply Hs in H.
  - apply NoDup_app. split; [apply NoDup_section; by intros i j [= ->]|]. split.
    + intros pl (i & n & _ & [-> _]%elem_of_add_planned)%elem_of_section H. by apply Hs in H.
    + destruct (Setup def) as [n|]; [|constructor]. unfold add_planned.
      destruct (Host n); [apply NoDup_singleton|constructor].
Qed.
End PlanFacts.

Lemma node_at_assign def ptr ip ptr' :
  node_at (assign_ip def (ptr, ip)) ptr' =
  if decide (ptr' = ptr) then set_ip ip <$> node_at def ptr' else node_at def ptr'.
Proof.
  destruct ptr as [i|i|], ptr' as [j|j|]; cbn; rw ?list_lookup_alter;
    repeat case_decide; simplify_eq; done.
Qed.

(** ** Provisioning *)

Section ProvisionOk.
Context {W : Type} `{AE : ApiErrors, CX : Ctx W, CL : !CtxLaws W, DL : !Deadline W}.
Context `{IC : Client W ClusterVirtualImage, IT : !TimedClient W ClusterVirtualImage}.
Context `{DC : Client W VirtualDisk, DT : !TimedClient W VirtualDisk}.
Context `{MC : Client W VirtualMachine, ML : !ClientLaws W VirtualMachine, MT : !TimedClient W VirtualMachine}.
Context `{CC : Client W VirtualMachineClass, CT : !TimedClient W VirtualMachineClass}.
Context (sha256hex : string -> string) (ParseQuantity : string -> result Z).
Context (order : forall T, list T -> list T).
Hypothesis order_perm : forall T (l : list T), order T l ≡ₚ l.
Context (cfg : ProvisionerConfig) (fuel : nat).

Lemma createIfAbsent_bounded {O} `{OC : Client W O, OT : !TimedClient W O} what name (o : O) :
  bounded (createIfAbsent what name o).
Proof.
  apply bind_bounded; [apply get_bounded|]. intros [o'|e]; [apply ret_bounded|].
  destruct (negb _); [apply ret_bounded|].
  apply bind_bounded; [apply create_bounded|intros; apply ret_bounded].
Qed.

Lemma wait_with_runs {T} pre (get : M W (result T)) cond :
  bounded get -> (forall g, bounded (cond g)) ->
  bounded (wait_with cfg fuel pre get cond) /\ returns fuel (wait_with cfg fuel pre get cond).
Proof.
  intros Hg Hc. destruct (wait_bounded_returns get cond condition_over fuel (pv_PollInterval cfg) Hg Hc)
    as [Hb Hr]. split.
  - apply bind_bounded; [exact Hb|intros; apply ret_bounded].
  - apply returns_bind; [exact Hr|exact Hb|]. intros [[e|] g]; apply ret_returns.
Qed.

Lemma waitVMClassReady_runs name :
  bounded (waitVMClassReady cfg fuel name) /\ returns fuel (waitVMClassReady cfg fuel name).
Proof. apply wait_with_runs; [apply get_bounded|intros; apply ret_bounded]. Qed.

Lemma provisionVMClass_runs :
  bounded (provisionVMClass cfg fuel) /\ returns fuel (provisionVMClass cfg fuel).
Proof.
  destruct (waitVMClassReady_runs (pv_VMClassName cfg)) as [Hb Hr].
  split; [apply bind_bounded|apply bind_returns]; try apply get_bounded; intros [c|e]; try done;
    (destruct (negb _); [by first [apply ret_bounded|apply ret_returns]|]);
    (destruct (String.eqb _ _); [by first [apply ret_bounded|apply ret_returns]|]);
    [apply bind_bounded|apply bind_returns]; try apply get_bounded; intros [t|e'];
    try (by first [apply ret_bounded|apply ret_returns]);
    [apply bind_bounded|apply bind_returns]; try apply createIfAbsent_bounded; intros [e'|];
    try (by first [apply ret_bounded|apply ret_returns]); done.
Qed.

Lemma image_task_runs i : bounded (image_task cfg fuel i) /\ returns fuel (image_task cfg fuel i).
Proof.
  destruct i as [name url]. destruct (wait_with_runs
    ("wait for ClusterVirtualImage " +:+ quote name +:+ " to become Ready: ")
    (clientGet name) (pure_cond (clusterVirtualImageReady name))) as [Hb Hr];
    [apply get_bounded|intros; apply ret_bounded|].
  split; [apply bind_bounded|apply bind_returns]; try apply createIfAbsent_bounded;
    intros [e|]; try (by first [apply ret_bounded|apply ret_returns]); done.
Qed.

Lemma createDiskAndVM_bounded pl : bounded (createDiskAndVM ParseQuantity cfg pl).
Proof.
  unfold createDiskAndVM. destruct (buildVirtualDisk _ _ _ _); [|apply ret_bounded].
  apply bind_bounded; [apply createIfAbsent_bounded|]. intros [e|]; [apply ret_bounded|].
  destruct (buildVirtualMachine _ _); [apply createIfAbsent_bounded|apply ret_bounded].
Qed.

Lemma disk_and_vm_task_runs pl :
  bounded (disk_and_vm_task ParseQuantity cfg pl) /\ returns fuel (disk_and_vm_task ParseQuantity cfg pl).
Proof.
  split; [apply bind_bounded|apply bind_returns]; try apply createDiskAndVM_bounded; intros e;
    by first [apply ret_bounded|apply ret_returns].
Qed.

Lemma running_wait_runs host :
  let m := waitForCondition (clientGet host) (running_cond host) fuel (pv_PollInterval cfg) in
  bounded m /\ returns fuel m.
Proof.
  apply wait_bounded_returns; [apply get_bounded|]. intros g.
  apply bind_bounded; [apply get_bounded|intros; apply ret_bounded].
Qed.

Lemma running_task_runs pl :
  bounded (running_task cfg fuel pl) /\ returns fuel (running_task cfg fuel pl).
Proof.
  destruct (running_wait_runs (Hostname (pl_node pl))) as [Hb Hr].
  split; [apply bind_bounded; [by apply on_fst_bounded|]|
          apply returns_bind; [by apply on_fst_returns|by apply on_fst_bounded|]].
  - intros [[[e|] g]|]; [apply ret_bounded|intros w; apply le_n|apply ret_bounded].
  - intros [[e|] g]; [apply ret_returns|]. intros w _. cbv zeta. unfold mbind, M_bind, record_ip. eexists _, _. reflexivity.
Qed.

Lemma group_runs {T} {W' : Type} `{CX' : Ctx W', DL' : !Deadline W'} (task : T -> M W' (option (option error))) l :
  (forall x, bounded (task x) /\ returns fuel (task x)) ->
  bounded (errgroup (map task l)) /\ returns fuel (errgroup (map task l)).
Proof.
  intros H. split; [apply errgroup_bounded|apply errgroup_returns];
    intros t (x & -> & _)%list_elem_of_fmap; apply H.
Qed.

Lemma and_then_runs' {W' : Type} `{CX' : Ctx W', DL' : !Deadline W'} (m k : M W' (option (option error))) :
  bounded m /\ returns fuel m -> bounded k /\ returns fuel k ->
  bounded (and_then m k) /\ returns fuel (and_then m k).
Proof.
  intros [Hb Hr] [Kb Kr]. split.
  - apply bind_bounded; [done|]. intros [[e|]|]; [apply ret_bounded|done|apply ret_bounded].
  - apply returns_bind; [done|done|]. intros [e|]; [apply ret_returns|done].
Qed.

Lemma Provision_returns : returns fuel (Provision sha256hex ParseQuantity order cfg fuel).
Proof.
  intros w Hl. unfold Provision. destruct (Nat.eqb _ 0); [by eexists _, _|].
  assert (Hf : forall m : M W (option (option error)), bounded m /\ returns fuel m ->
    bounded (on_fst (W2 := ClusterDefinition) m) /\ returns fuel (on_fst (W2 := ClusterDefinition) m)).
  { intros m [? ?]. split; [by apply on_fst_bounded|by apply on_fst_returns]. }
  refine (proj2 (and_then_runs' _ _ (Hf _ provisionVMClass_runs) (and_then_runs' _ _ (Hf _ _)
    (and_then_runs' _ _ (Hf _ _) _))) w Hl); apply group_runs.
  - apply image_task_runs.
  - apply disk_and_vm_task_runs.
  - apply running_task_runs.
Qed.
(** A machine that was seen running with an address. *)
Definition seen_running (host : string) (machine : VirtualMachine) : Prop :=
  (exists w1 : W, objs w1 !! host = Some machine) /\
  vmPhase machine = MachineRunning /\ vmIPAddress machine <> "".

Lemma running_task_inv pl w r w' :
  running_task cfg fuel pl w = (r, w') ->
  (r <> Some None /\ w'.2 = w.2) \/
  (r = Some None /\ exists machine, seen_running (Hostname (pl_node pl)) machine /\
     w'.2 = assign_ip w.2 (pl_ptr pl, vmIPAddress machine)).
Proof.
  intros H. unfold running_task in H. mstep H as [wr w1] E. apply on_fst_inv in E as [E Ed].
  destruct wr as [[[e|] g]|]; [left; by injection H as <- <-|right|left; by injection H as <- <-].
  injection H as <- <-. split; [done|].
  destruct (waitForCondition_outcome _ _ _ _ _ _ _ E) as (got & w2 & w3 & -> & Hget & Hcond).
  unfold running_cond in Hcond. mstep Hcond as [vd w4] E4. injection Hcond as Hcond _.
  unfold virtualMachineRunning, get_failed in Hcond.
  destruct got as [machine|e]; [|by destruct (terminalGetErr _)].
  destruct (String.eqb_spec (vmPhase machine) MachineRunning) as [Hp|_];
    [|by destruct (String.eqb _ MachineDegraded)].
  injection Hcond as Hip. apply negb_true_iff, String.eqb_neq in Hip.
  apply get_ok in Hget as [Hget _]. exists machine. cbn. rw Ed. split; [|done]. split; [eauto|done].
Qed.

(** The last phase: every planned node gets the address its machine was seen with. *)
Lemma waitRunning_ok def w w' :
  w.2 = def ->
  waitRunningAndCollectIPs order cfg fuel (plan sha256hex def) w = (Some None, w') ->
  forall pl, pl ∈ plan sha256hex def -> exists machine,
    seen_running (Hostname (pl_node pl)) machine /\
    node_at w'.2 (pl_ptr pl) = Some (set_ip (vmIPAddress machine) (pl_node pl)).
Proof.
  intros Hw H pl Hpl.
  refine (errgroup_ok (running_task cfg fuel)
    (fun w => forall pl, pl ∈ plan sha256hex def ->
       exists ip, node_at w.2 (pl_ptr pl) = Some (set_ip ip (pl_node pl)))
    (fun pl w => exists machine, seen_running (Hostname (pl_node pl)) machine /\
       node_at w.2 (pl_ptr pl) = Some (set_ip (vmIPAddress machine) (pl_node pl)))
    (order _ (plan sha256hex def)) w w' _ _ _ _ H pl _).
  - rw order_perm. apply NoDup_plan.
  - intros x w1 r1 w2 Hx HJ Hrun. rw order_perm in Hx.
    destruct (running_task_inv _ _ _ _ Hrun) as [[Hr Hd]|[-> (machine & Hm & Hd)]].
    { rw Hd. split; [done|]. by intros ->. }
    split; rw Hd.
    + intros y Hy. destruct (HJ y Hy) as [ip Hip]. rw node_at_assign Hip.
      case_decide; eexists; reflexivity.
    + intros _. exists machine. split; [done|]. destruct (HJ x Hx) as [ip Hip].
      rw node_at_assign Hip. by destruct (decide (pl_ptr x = pl_ptr x)).
  - intros x y w1 r1 w2 Hx Hy Hne _ (machine & Hm & Hn) Hrun. rw order_perm in Hx Hy.
    exists machine. split; [done|].
    destruct (running_task_inv _ _ _ _ Hrun) as [[_ Hd]|[_ (machine' & _ & Hd)]]; rw Hd; [done|].
    rw node_at_assign Hn. case_decide as Heq; [|done].
    destruct Hne. by apply (plan_inj sha256hex def).
  - intros x Hx. exists (IPAddress (pl_node x)). rw Hw (plan_node_at sha256hex _ _ Hx).
    by destruct (pl_node x).
  - by rw order_perm.
Qed.

(** [Provision] returns by the deadline, for any number and order of the concurrent tasks.
    When it returns nil, the definition planned at least one VM, every planned VM was seen
    Running with an address, and the definition holds that address for its node. *)
Theorem Provision_spec w def :
  (left w < fuel)%nat ->
  exists r w' def', Provision sha256hex ParseQuantity order cfg fuel (w, def) = (Some r, (w', def')) /\
    (r = None -> plan sha256hex def <> [] /\
     forall pl, pl ∈ plan sha256hex def -> exists machine,
       seen_running (Hostname (pl_node pl)) machine /\
       node_at def' (pl_ptr pl) = Some (set_ip (vmIPAddress machine) (pl_node pl))).
Proof.
  intros Hl. destruct (Provision_returns (w, def) Hl) as (r & [w' def'] & H).
  exists r, w', def'. split; [done|]. intros ->. unfold Provision in H. cbn [snd] in H.
  destruct (Nat.eqb_spec (length (plan sha256hex def)) 0) as [|Hne]; [done|].
  split; [by intros E; rw E in Hne|].
  unfold and_then in H. mstep H as [r1 w1] E1. destruct r1 as [[e|]|]; try done.
  mstep H as [r2 w2] E2. destruct r2 as [[e|]|]; try done.
  mstep H as [r3 w3] E3. destruct r3 as [[e|]|]; try done.
  apply on_fst_inv in E1 as [_ E1], E2 as [_ E2], E3 as [_ E3]. cbn in E1.
  apply (waitRunning_ok def w3 (w', def')); [congruence|done].
Qed.
End ProvisionOk.

(** ** On the server in memory *)

Definition vmWorld := (memWorld VirtualMachine * memWorld VirtualDisk)%type.
Definition sample_vm (labels : gmap string string) : VirtualMachine :=
  mkVM labels "generic" true "AlwaysOn" "Generic" "BIOS" "PreferSafe" 2 "100%" 4 [] "" "Running" "10.0.0.5".
Definition sample_vd (labels : gmap string string) : VirtualDisk := mkVD labels None None None "Ready" "".
Definition two_vms : vmWorld :=
  (mkWorld (mkMem {["worker-0" := sample_vm ManagedLabels; "gateway" := sample_vm ∅]} []) 3 false,
   mkWorld (mkMem {["worker-0-system" := sample_vd ManagedLabels]} []) 0 false).
Definition sample_cfg : ProvisionerConfig := mkProv "e2e" "" "ssh-ed25519 AAAA" "generic" "generic" Second.


Example Teardown_example :
  let '(r, w') := Teardown (fun T l => l) sample_cfg 4 two_vms in
  r = Some None /\ objs (O := VirtualMachine) w' = {["gateway" := sample_vm ∅]} /\
  objs (O := VirtualDisk) w' = ∅.
Proof. vm_compute. repeat split; reflexivity. Qed.

Lemma DeleteNode_spec_witness :
  exists r w', DeleteNode sample_cfg 4 "worker-0" two_vms = (Some r, w') /\
    (forall k, k <> "worker-0" -> objs (O := VirtualMachine) w' !! k = objs two_vms !! k) /\
    (forall k, k <> systemDiskName "worker-0" -> objs (O := VirtualDisk) w' !! k = objs two_vms !! k) /\
    (r = None -> objs (O := VirtualMachine) w' !! "worker-0" = None /\
                 objs (O := VirtualDisk) w' !! systemDiskName "worker-0" = None).
Proof. refine (DeleteNode_spec (W := vmWorld) sample_cfg 4 "worker-0" two_vms _). cbn. lia. Defined.

Lemma createIfAbsent_spec_witness :
  (createIfAbsent "VirtualMachine e2e/gateway" "gateway" (sample_vm ManagedLabels) two_vms).1 = None /\
  objs (O := VirtualMachine) two_vms ⊆
    objs (createIfAbsent "VirtualMachine e2e/gateway" "gateway" (sample_vm ManagedLabels) two_vms).2.
Proof.
  split; [vm_compute; reflexivity|].
  exact (proj1 (createIfAbsent_spec "VirtualMachine e2e/gateway" "gateway" (sample_vm ManagedLabels)
    two_vms _ _ (surjective_pairing _))).
Defined.

Definition baseWorld := (vmWorld * memWorld ClusterVirtualImage * memWorld VirtualMachineClass)%type.
Definition base_cluster : baseWorld :=
  (two_vms, mkWorld (mkMem ∅ []) 0 false,
   mkWorld (mkMem {["generic" := mkClass ∅ (mkClassSpec "Host" [] [] []) "Ready"]} []) 0 false).
Definition one_worker : ClusterDefinition :=
  mkDef [] [mkNode "worker-0" "" (mkOSType "" "https://host/jammy.img" "") HostTypeVM None 2 None 4 20 false]
    None (mkDKP "" "" "" "" "" "" []).

Lemma Provision_spec_witness :
  exists r w' def', Provision zero_digest (fun _ => Ok 4) (fun T l => l) sample_cfg 4
      (base_cluster, one_worker) = (Some r, (w', def')) /\
    (r = None -> plan zero_digest one_worker <> [] /\
     forall pl, pl ∈ plan zero_digest one_worker -> exists machine,
       seen_running (W := baseWorld) (Hostname (pl_node pl)) machine /\
       node_at def' (pl_ptr pl) = Some (set_ip (vmIPAddress machine) (pl_node pl))).
Proof.
  refine (Provision_spec (W := baseWorld) zero_digest (fun _ => Ok 4) (fun T l => l)
    (fun T l => Permutation_refl l) sample_cfg 4 base_cluster one_worker _). cbn. lia.
Defined.
