(* ===== verification/Bootstrap.v ===== *)
(** The bootstrap parameters of the DVP provider
    ([src/internal/provisioning/dvp/bootstrap.go]): the network of the VMs and the values of
    the bootstrap template. Rendering the template is [text/template]'s. *)
From S2P Require Import Prelude Errors Config.

Local Open Scope Z_scope.

(** ** [net.ParseIP] *)

Definition char_is (c : Ascii.ascii) (s : string) : bool :=
  match s with String a _ => Ascii.eqb a c | EmptyString => false end.

Definition hex_value (c : Ascii.ascii) : option Z :=
  let n := Z.of_nat (Ascii.nat_of_ascii c) in
  if (48 <=? n) && (n <=? 57) then Some (n - 48)
  else if (97 <=? n) && (n <=? 102) then Some (n - 87)
  else if (65 <=? n) && (n <=? 70) then Some (n - 55) else None.

(** One field of a dotted address: digits, no leading zero, at most 255. *)
Fixpoint octet_digits (acc : Z) (s : string) : Z * string :=
  match s with
  | EmptyString => (acc, s)
  | String c s' => match dec_digit c with
                   | Some d => octet_digits (Z.min 1000 (acc * 10 + d)) s'
                   | None => (acc, s)
                   end
  end.

Definition parse_octet (s : string) : option (Z * string) :=
  match s with
  | EmptyString => None
  | String c s' =>
      match dec_digit c with
      | None => None
      | Some d =>
          let '(v, rest) := octet_digits d s' in
          if (d =? 0) && negb (String.eqb rest s') then None
          else if 255 <? v then None else Some (v, rest)
      end
  end.

Definition after_dot (s : string) : option string :=
  match s with String c s' => if Ascii.eqb c "." then Some s' else None | EmptyString => None end.

Definition parseIPv4 (s : string) : option Z :=
  match parse_octet s with
  | None => None
  | Some (a, s1) => match after_dot s1 with None => None | Some s1 =>
      match parse_octet s1 with
      | None => None
      | Some (b, s2) => match after_dot s2 with None => None | Some s2 =>
          match parse_octet s2 with
          | None => None
          | Some (c, s3) => match after_dot s3 with None => None | Some s3 =>
              match parse_octet s3 with
              | Some (d, EmptyString) => Some (((a * 256 + b) * 256 + c) * 256 + d)
              | _ => None
              end end end end end end
  end.

(** Up to four hexadecimal digits: their number, their value and the rest. *)
Fixpoint hex_group (n : nat) (acc : Z) (s : string) {struct s} : option (nat * Z * string) :=
  match s with
  | String c s' =>
      match hex_value c with
      | Some d => match n with
                  | O => None
                  | S n' => match hex_group n' (acc * 16 + d) s' with
                            | Some (k, v, r) => Some (S k, v, r)
                            | None => None
                            end
                  end
      | None => Some (O, acc, s)
      end
  | EmptyString => Some (O, acc, s)
  end.

(** The loop of the IPv6 parser over at most eight groups; [groups] are the 16-bit groups
    read so far, [ellipsis] how many of them stand before a double colon. *)
Fixpoint parse_groups (rounds : nat) (groups : list Z) (ellipsis : option nat) (s : string)
    : option (list Z * option nat) :=
  match rounds with
  | O => if String.eqb s "" then Some (groups, ellipsis) else None
  | S rounds' =>
      match hex_group 4 0 s with
      | None | Some (O, _, _) => None
      | Some (_, v, rest) =>
          if char_is "." rest then
            if (negb (Nat.eqb (length groups) 6) && match ellipsis with None => true | _ => false end)
               || (6 <? length groups)%nat then None
            else match parseIPv4 s with
                 | Some a => Some (groups ++ [a / 65536; a mod 65536], ellipsis)
                 | None => None
                 end
          else
            let groups := groups ++ [v] in
            match rest with
            | EmptyString => Some (groups, ellipsis)
            | String c rest1 =>
                if negb (Ascii.eqb c ":") || String.eqb rest1 "" then None
                else if char_is ":" rest1 then
                  match ellipsis, rest1 with
                  | None, String _ rest2 =>
                      if String.eqb rest2 "" then Some (groups, Some (length groups))
                      else parse_groups rounds' groups (Some (length groups)) rest2
                  | _, _ => None
                  end
                else parse_groups rounds' groups ellipsis rest1
            end
      end
  end.

Definition expand_groups (p : list Z * option nat) : option (list Z) :=
  let '(groups, ellipsis) := p in
  match ellipsis with
  | None => if Nat.eqb (length groups) 8 then Some groups else None
  | Some k => if (length groups <? 8)%nat
              then Some (take k groups ++ replicate (8 - length groups) 0 ++ drop k groups)
              else None
  end.

Definition parseIPv6 (s : string) : option (list Z) :=
  let parsed :=
    if HasPrefix s "::" then
      let s := str_drop 2 s in
      if String.eqb s "" then Some ([], Some O) else parse_groups 8 [] (Some O) s
    else parse_groups 8 [] None s in
  match parsed with Some p => expand_groups p | None => None end.

(** An IP address: IPv4, in either notation, or not. *)
Inductive IP := IPv4 (a : Z) | IPv6 (groups : list Z).

Fixpoint first_sep (s : string) : option Ascii.ascii :=
  match s with
  | EmptyString => None
  | String c s' => if Ascii.eqb c "." || Ascii.eqb c ":" then Some c else first_sep s'
  end.

(** [net.ParseIP]; an IPv4-mapped IPv6 address has a [To4]. *)
Definition ParseIP (s : string) : option IP :=
  match first_sep s with
  | None => None
  | Some c =>
      if Ascii.eqb c "." then IPv4 <$> parseIPv4 s
      else match parseIPv6 s with
           | Some [0; 0; 0; 0; 0; 65535; hi; lo] => Some (IPv4 (hi * 65536 + lo))
           | Some groups => Some (IPv6 groups)
           | None => None
           end
  end.

Example ParseIP_examples :
  map ParseIP ["10.0.0.5"; "010.0.0.5"; "1.2.3"; "256.1.1.1"; "::ffff:10.0.0.5"; "::1"; "fe80::1%eth0"; "x"]
  = [Some (IPv4 167772165); None; None; None; Some (IPv4 167772165);
     Some (IPv6 [0; 0; 0; 0; 0; 0; 0; 1]); None; None].
Proof. vm_compute. reflexivity. Qed.

(** ** Networks *)

(** [net.CIDRMask(prefix, 32)] and [IP.Mask], on 32-bit addresses. *)
Definition CIDRMask (prefix : Z) : Z := Z.ldiff (Z.ones 32) (Z.ones (32 - prefix)).
Definition Mask (ip mask : Z) : Z := Z.land ip mask.

(** [IP.String] of an IPv4 address. *)
Definition fmt_ipv4 (a : Z) : string :=
  pretty (a / 16777216) +:+ "." +:+ pretty (a / 65536 mod 256) +:+ "." +:+
  pretty (a / 256 mod 256) +:+ "." +:+ pretty (a mod 256).
Definition fmt_cidr (network prefix : Z) : string := fmt_ipv4 network +:+ "/" +:+ pretty prefix.

(** [net.ParseCIDR] on the text of an IPv4 network, the only kind it is given: the address and
    the digits around the slash. The result is the network, masked, and the prefix. *)
Definition ParseCIDR (s : string) : option (Z * Z) :=
  match cut_slash s with
  | None => None
  | Some (addr, mask) =>
      match parseIPv4 addr, octet_digits 0 mask with
      | Some a, (n, EmptyString) =>
          if String.eqb mask "" || (32 <? n) then None else Some (Mask a (CIDRMask n), n)
      | _, _ => None
      end
  end.

(** [IPNet.Contains]. *)
Definition net_contains (ipNet : Z * Z) (ip : Z) : bool := Mask ip (CIDRMask ipNet.2) =? ipNet.1.

Fixpoint parse_all (vmIPs : list string) : result (list Z) :=
  match vmIPs with
  | [] => Ok []
  | s :: vmIPs' =>
      match ParseIP s with
      | None => Err (Errorf ("invalid IP address: " +:+ s))
      | Some (IPv6 _) => Err (Errorf ("IP address is not IPv4: " +:+ s))
      | Some (IPv4 a) => match parse_all vmIPs' with Ok l => Ok (a :: l) | Err e => Err e end
      end
  end.

(** The text of the error of [ParseCIDR]. *)
Definition cidr_error (s : string) : error := Errorf ("invalid CIDR address: " +:+ s).

(** [for prefix := 24; prefix >= 16; prefix--]. *)
Fixpoint find_prefix (prefixes : list Z) (base : Z) (parsed : list Z) : result string :=
  match prefixes with
  | [] => Err (Errorf "no /16../24 network contains all IPs")
  | prefix :: prefixes' =>
      let s := fmt_cidr (Mask base (CIDRMask prefix)) prefix in
      match ParseCIDR s with
      | None => Err (ErrorfW "parse CIDR: " (cidr_error s) "")
      | Some ipNet =>
          if forallb (net_contains ipNet) parsed then Ok (fmt_cidr ipNet.1 ipNet.2)
          else find_prefix prefixes' base parsed
      end
  end.

Definition cidr_prefixes : list Z := [24; 23; 22; 21; 20; 19; 18; 17; 16].

(** [base[3] = 0]. *)
Definition clear_last_byte (a : Z) : Z := Z.ldiff a (Z.ones 8).

Definition calculateNetworkCIDR (vmIPs : list string) : result string :=
  match vmIPs with
  | [] => Err (Errorf "vmIPs cannot be empty")
  | _ =>
      match parse_all vmIPs with
      | Err e => Err e
      | Ok parsed => find_prefix cidr_prefixes (clear_last_byte (hd 0 parsed)) parsed
      end
  end.

(** ** Addresses in range *)

Definition is_addr (a : Z) : Prop := 0 <= a < 2 ^ 32.
Definition is_group (g : Z) : Prop := 0 <= g < 2 ^ 16.

Lemma dec_digit_range c d : dec_digit c = Some d -> 0 <= d < 10.
Proof.
  unfold dec_digit. intros H. case_match; simplify_eq.
  apply andb_prop in H0 as [?%Z.leb_le ?%Z.leb_le]. lia.
Qed.

Lemma hex_value_range c d : hex_value c = Some d -> 0 <= d < 16.
Proof.
  unfold hex_value. intros H. repeat case_match; simplify_eq;
    repeat match goal with E : _ && _ = true |- _ => apply andb_prop in E as [?%Z.leb_le ?%Z.leb_le] end;
    lia.
Qed.

Lemma octet_digits_nonneg s acc v rest : octet_digits acc s = (v, rest) -> 0 <= acc -> 0 <= v.
Proof.
  revert acc. induction s as [|c s IH]; intros acc H Ha; cbn [octet_digits] in H.
  - by simplify_eq.
  - destruct (dec_digit c) as [d|] eqn:E; [|by simplify_eq].
    apply dec_digit_range in E. apply IH in H; lia.
Qed.

Lemma parse_octet_range s v rest : parse_octet s = Some (v, rest) -> 0 <= v < 256.
Proof.
  destruct s as [|c s]; cbn [parse_octet]; [done|]. intros H.
  destruct (dec_digit c) as [d|] eqn:E; [|done]. apply dec_digit_range in E.
  destruct (octet_digits d s) as [v' rest'] eqn:Ev. apply octet_digits_nonneg in Ev; [|lia].
  repeat case_match; simplify_eq. lia.
Qed.

Lemma parseIPv4_range s a : parseIPv4 s = Some a -> is_addr a.
Proof.
  unfold parseIPv4, is_addr. intros H.
  repeat (case_match; simplify_eq); repeat match goal with
    E : parse_octet _ = Some _ |- _ => apply parse_octet_range in E end; lia.
Qed.

Lemma hex_group_range n acc s k v rest :
  hex_group n acc s = Some (k, v, rest) -> 0 <= acc -> 0 <= v < (acc + 1) * 16 ^ Z.of_nat n.
Proof.
  revert n acc k. induction s as [|c s IH]; intros n acc k H Ha;
    (assert (Hp : 0 < 16 ^ Z.of_nat n) by (apply Z.pow_pos_nonneg; lia)).
  - cbn in H. simplify_eq. split; [lia|]. revert Hp. generalize (16 ^ Z.of_nat n). nia.
  - cbn [hex_group] in H. destruct (hex_value c) as [d|] eqn:E.
    + apply hex_value_range in E. destruct n as [|n]; [done|].
      destruct (hex_group n (acc * 16 + d) s) as [[[k' v'] r]|] eqn:Eg; [|done]. simplify_eq.
      apply IH in Eg; [|lia]. rw Nat2Z.inj_succ Z.pow_succ_r; [lia|].
      rw Nat2Z.inj_succ Z.pow_succ_r in Hp; [lia|].
      revert Eg Hp. generalize (16 ^ Z.of_nat n). nia.
    + simplify_eq. split; [lia|]. revert Hp. generalize (16 ^ Z.of_nat n). nia.
Qed.

Lemma parse_groups_range rounds groups ell s groups' ell' :
  parse_groups rounds groups ell s = Some (groups', ell') ->
  Forall is_group groups -> Forall is_group groups'.
Proof.
  revert groups ell s. induction rounds as [|rounds IH]; intros groups ell s H Hg;
    cbn [parse_groups] in H; [by case_match; simplify_eq|].
  destruct (hex_group 4 0 s) as [[[[|k] v] rest]|] eqn:E; [done| |done].
  apply hex_group_range in E; [|lia].
  assert (Hv : Forall is_group (groups ++ [v])).
  { apply Forall_app. split; [done|]. constructor; [|constructor]. unfold is_group. lia. }
  repeat (case_match; simplify_eq); eauto.
  all: match goal with E' : parseIPv4 _ = Some ?a |- _ => apply parseIPv4_range in E'; unfold is_addr in E' end.
  all: apply Forall_app; split; [done|]; unfold is_group; rw !Forall_cons; split_and!;
    [Z.div_mod_to_equations; lia..|constructor].
Qed.

Lemma parseIPv6_range s groups : parseIPv6 s = Some groups -> Forall is_group groups.
Proof.
  unfold parseIPv6. intros H. case_match eqn:E; [|done].
  match type of H with expand_groups ?p = _ => destruct p as [gs ell] end.
  assert (Hg : Forall is_group gs).
  { repeat (case_match; simplify_eq); eauto using parse_groups_range, Forall_nil_2. }
  clear E. unfold expand_groups in H. repeat (case_match; simplify_eq); [|done].
  rw !Forall_app. split_and!;
    [by apply Forall_take|by apply Forall_replicate; unfold is_group|by apply Forall_drop].
Qed.

Lemma ParseIP_range s a : ParseIP s = Some (IPv4 a) -> is_addr a.
Proof.
  unfold ParseIP. intros H. destruct (first_sep s) as [c|]; [|done].
  destruct (Ascii.eqb c ".").
  - destruct (parseIPv4 s) as [a'|] eqn:E; [|done]. cbn in H. simplify_eq.
    eauto using parseIPv4_range.
  - destruct (parseIPv6 s) as [gs|] eqn:E; [|done]. apply parseIPv6_range in E.
    repeat (case_match; simplify_eq). rw !Forall_cons in E. unfold is_addr, is_group in *. lia.
Qed.

(** ** Printed addresses parse back *)

Definition not_slash (c : Ascii.ascii) : bool := negb (Ascii.eqb c "/").

(** Checked one by one. *)
Lemma octet_text n :
  0 <= n < 256 ->
  parse_octet (pretty n) = Some (n, "") /\ str_forallb not_slash (pretty n) = true.
Proof.
  intros H. assert (Hn : n ∈ seqZ 0 256) by (apply elem_of_seqZ; lia). clear H. revert n Hn.
  apply Forall_forall, (bool_decide_unpack _). vm_compute. exact I.
Qed.

Lemma octet_digits_app acc d v s :
  octet_digits acc d = (v, "") -> octet_digits acc (d +:+ String "." s) = (v, String "." s).
Proof.
  revert acc. induction d as [|c d IH]; intros acc H; [by injection H as ->|].
  rw str_app_cons. cbn [octet_digits] in *. destruct (dec_digit c); [by apply IH|done].
Qed.

Lemma parse_octet_app d v s :
  parse_octet d = Some (v, "") -> parse_octet (d +:+ String "." s) = Some (v, String "." s).
Proof.
  destruct d as [|c d]; [done|]. rw str_app_cons. cbn [parse_octet]. intros H.
  destruct (dec_digit c) as [x|]; [|done]. destruct (octet_digits x d) as [v' rest] eqn:E.
  destruct (x =? 0) eqn:Ex; cbn [andb] in *.
  - destruct (String.eqb_spec rest d) as [->|]; [|done]. cbn [negb] in H.
    case_match; simplify_eq. rw (octet_digits_app _ _ _ _ E) String.eqb_refl /=. by case_match.
  - case_match; simplify_eq. rw (octet_digits_app _ _ _ _ E). by case_match.
Qed.

Lemma cut_slash_app a b : str_forallb not_slash a = true -> cut_slash (a +:+ "/" +:+ b) = Some (a, b).
Proof.
  induction a as [|c a IH]; [done|]. cbn [str_forallb]. intros [Hc Ha]%andb_prop.
  rw str_app_cons. cbn [cut_slash]. unfold not_slash in Hc. destruct (Ascii.eqb c "/"); [done|].
  by rw (IH Ha).
Qed.

Lemma testbit_above a n : is_addr a -> 32 <= n -> Z.testbit a n = false.
Proof.
  intros Ha Hn. destruct (decide (a = 0)) as [->|]; [apply Z.testbit_0_l|].
  unfold is_addr in Ha. apply Z.bits_above_log2; [lia|].
  apply Z.lt_le_trans with 32; [|done]. apply Z.log2_lt_pow2; lia.
Qed.

Section Printed.
Context (a : Z) (Ha : is_addr a).

Lemma octets_of_addr :
  0 <= a / 16777216 < 256 /\ 0 <= a / 65536 mod 256 < 256 /\ 0 <= a / 256 mod 256 < 256 /\
  0 <= a mod 256 < 256 /\
  ((a / 16777216 * 256 + a / 65536 mod 256) * 256 + a / 256 mod 256) * 256 + a mod 256 = a.
Proof. unfold is_addr in Ha. Z.div_mod_to_equations. lia. Qed.

Lemma parseIPv4_fmt : parseIPv4 (fmt_ipv4 a) = Some a.
Proof.
  destruct octets_of_addr as (H1 & H2 & H3 & H4 & E). unfold parseIPv4, fmt_ipv4.
  apply octet_text in H1 as [H1 _], H2 as [H2 _], H3 as [H3 _], H4 as [H4 _].
  rw (parse_octet_app _ _ _ H1) /= (parse_octet_app _ _ _ H2) /= (parse_octet_app _ _ _ H3) /= H4.
  by rw E.
Qed.

Lemma fmt_ipv4_no_slash : str_forallb not_slash (fmt_ipv4 a) = true.
Proof.
  destruct octets_of_addr as (H1 & H2 & H3 & H4 & _). unfold fmt_ipv4.
  apply octet_text in H1 as [_ H1], H2 as [_ H2], H3 as [_ H3], H4 as [_ H4].
  by rw !str_forallb_app H1 H2 H3 H4.
Qed.

Lemma ParseCIDR_fmt prefix :
  prefix ∈ cidr_prefixes -> ParseCIDR (fmt_cidr a prefix) = Some (Mask a (CIDRMask prefix), prefix).
Proof.
  intros Hp. unfold ParseCIDR, fmt_cidr. rw (cut_slash_app _ _ fmt_ipv4_no_slash) parseIPv4_fmt.
  assert (E : octet_digits 0 (pretty prefix) = (prefix, "") /\ String.eqb (pretty prefix) "" = false
              /\ (32 <? prefix) = false).
  { revert prefix Hp. apply Forall_forall, (bool_decide_unpack _). vm_compute. exact I. }
  destruct E as (-> & -> & ->). done.
Qed.

(** *** Networks as common leading bits *)

Lemma Mask_bits prefix :
  0 <= prefix <= 32 ->
  Mask a (CIDRMask prefix) = Z.shiftl (Z.shiftr a (32 - prefix)) (32 - prefix).
Proof.
  intros Hp. apply Z.bits_inj'. intros n Hn. unfold Mask, CIDRMask.
  rw Z.land_spec Z.ldiff_spec !Z.testbit_ones_nonneg; [lia..|]. rw Z.shiftl_spec; [done|].
  destruct (Z.ltb_spec n (32 - prefix)) as [Hl|Hl].
  - rw (Z.testbit_neg_r _ (n - (32 - prefix))); [lia|]. cbn [negb]. by rw !andb_false_r.
  - rw Z.shiftr_spec; [lia|]. replace (n - (32 - prefix) + (32 - prefix)) with n by lia.
    destruct (Z.ltb_spec n 32); cbn [negb andb]; [by rw andb_true_r|].
    rw andb_false_r testbit_above //.
Qed.
End Printed.

Lemma clear_last_byte_addr a : is_addr a -> is_addr (clear_last_byte a).
Proof.
  unfold is_addr, clear_last_byte. rw Z.ldiff_ones_r; [lia|]. intros H.
  rw Z.shiftl_mul_pow2; [lia|]. rw Z.shiftr_div_pow2; [lia|]. Z.div_mod_to_equations. lia.
Qed.

Lemma clear_last_byte_shiftr a n : 8 <= n -> Z.shiftr (clear_last_byte a) n = Z.shiftr a n.
Proof.
  intros Hn. apply Z.bits_inj'. intros m Hm. unfold clear_last_byte.
  rw !Z.shiftr_spec // Z.ldiff_spec Z.testbit_ones_nonneg; [lia..|].
  destruct (Z.ltb_spec (m + n) 8); [lia|]. apply andb_true_r.
Qed.

(** All addresses agree with the first on their first [prefix] bits. *)
Definition common_prefix (prefix : Z) (a : Z) (l : list Z) : Prop :=
  Forall (fun b => Z.shiftr b (32 - prefix) = Z.shiftr a (32 - prefix)) l.

(** The network of the first [prefix] bits of an address. *)
Definition network_of (prefix a : Z) : Z := Z.shiftl (Z.shiftr a (32 - prefix)) (32 - prefix).

Lemma shiftr_shiftl_same x n : 0 <= n -> Z.shiftr (Z.shiftl x n) n = x.
Proof. intros H. rw Z.shiftr_shiftl_l; [done|]. by rw Z.sub_diag Z.shiftl_0_r. Qed.

Lemma network_of_inj prefix a b :
  0 <= prefix <= 32 -> network_of prefix a = network_of prefix b ->
  Z.shiftr a (32 - prefix) = Z.shiftr b (32 - prefix).
Proof.
  intros Hp H. unfold network_of in H. apply (f_equal (fun x => Z.shiftr x (32 - prefix))) in H.
  by rw !shiftr_shiftl_same in H; [lia..|].
Qed.

Lemma network_of_addr prefix a : 0 <= prefix <= 32 -> is_addr a -> is_addr (network_of prefix a).
Proof.
  unfold is_addr, network_of. intros Hp Ha. rw Z.shiftl_mul_pow2; [lia|].
  rw Z.shiftr_div_pow2; [lia|]. assert (0 < 2 ^ (32 - prefix)) by (apply Z.pow_pos_nonneg; lia).
  pose proof (Z.mul_div_le a (2 ^ (32 - prefix))).
  assert (0 <= a / 2 ^ (32 - prefix)) by (apply Z.div_pos; lia). nia.
Qed.

Lemma find_prefix_step prefix prefixes a l :
  prefix ∈ cidr_prefixes -> is_addr a -> Forall is_addr l ->
  (common_prefix prefix a l ->
   find_prefix (prefix :: prefixes) (clear_last_byte a) (a :: l)
   = Ok (fmt_cidr (network_of prefix a) prefix)) /\
  (~ common_prefix prefix a l ->
   find_prefix (prefix :: prefixes) (clear_last_byte a) (a :: l)
   = find_prefix prefixes (clear_last_byte a) (a :: l)).
Proof.
  intros Hin Ha Hl. assert (Hp : 16 <= prefix <= 24).
  { revert prefix Hin. apply Forall_forall, (bool_decide_unpack _). vm_compute. exact I. }
  assert (Hn : Mask (clear_last_byte a) (CIDRMask prefix) = network_of prefix a).
  { rw Mask_bits; [by apply clear_last_byte_addr|lia|]. by rw clear_last_byte_shiftr; [lia|]. }
  assert (Hm : Mask (network_of prefix a) (CIDRMask prefix) = network_of prefix a).
  { rw Mask_bits; [apply network_of_addr; [lia|done]|lia|]. unfold network_of at 1.
    by rw shiftr_shiftl_same; [lia|]. }
  cbn [find_prefix]. rw Hn ParseCIDR_fmt; [apply network_of_addr; [lia|done]|done|]. rw Hm.
  assert (E : forallb (net_contains (network_of prefix a, prefix)) (a :: l) = true <->
              common_prefix prefix a l).
  { rw -Is_true_true forallb_True Forall_cons. unfold net_contains; cbn [fst snd].
    rw Is_true_true Z.eqb_eq (Mask_bits a) //; [lia|]. unfold common_prefix. split.
    - intros [_ H]. apply Forall_forall. intros b Hb. rw Forall_forall in H.
      specialize (H b Hb). rw Is_true_true Z.eqb_eq in H.
      rw Mask_bits in H; [by eapply Forall_forall in Hl|lia|]. apply network_of_inj in H; [done|lia].
    - intros H. split; [done|]. apply Forall_forall. intros b Hb. rw Forall_forall in H.
      rw Is_true_true Z.eqb_eq Mask_bits; [by eapply Forall_forall in Hl|lia|].
      unfold network_of. by rw (H b Hb). }
  destruct (forallb _ _); split; intros Hc; try done; [|]; exfalso; naive_solver.
Qed.

Lemma common_prefix_mono p q a l :
  0 <= p <= q -> q <= 32 -> common_prefix q a l -> common_prefix p a l.
Proof.
  intros Hp Hq Hc. eapply Forall_impl; [exact Hc|]. intros b H. cbn beta in H.
  apply (f_equal (fun x => Z.shiftr x (q - p))) in H. rw !Z.shiftr_shiftr in H; [lia..|].
  by replace (32 - q + (q - p)) with (32 - p) in H by lia.
Qed.

Lemma find_prefix_longest prefixes p a l :
  prefixes ⊆ cidr_prefixes -> StronglySorted (fun x y => y < x) prefixes ->
  is_addr a -> Forall is_addr l -> p ∈ prefixes -> common_prefix p a l ->
  (forall q, q ∈ prefixes -> p < q -> ~ common_prefix q a l) ->
  find_prefix prefixes (clear_last_byte a) (a :: l) = Ok (fmt_cidr (network_of p a) p).
Proof.
  intros Hs Hsort Ha Hl. induction Hsort as [|q prefixes Hsort IH Hq]; intros Hp Hc Hn;
    [by apply not_elem_of_nil in Hp|].
  destruct (find_prefix_step q prefixes a l) as [Hyes Hno]; [set_solver|done..|].
  destruct (decide (p = q)) as [->|Hpq]; [by apply Hyes|].
  assert (Hp' : p ∈ prefixes) by set_solver. rw Forall_forall in Hq.
  rw Hno; [apply Hn; [set_solver|by apply Hq]|]. apply IH; set_solver.
Qed.

Lemma find_prefix_none prefixes a l :
  prefixes ⊆ cidr_prefixes -> is_addr a -> Forall is_addr l ->
  (forall q, q ∈ prefixes -> ~ common_prefix q a l) ->
  find_prefix prefixes (clear_last_byte a) (a :: l)
  = Err (Errorf "no /16../24 network contains all IPs").
Proof.
  intros Hs Ha Hl. induction prefixes as [|q prefixes IH]; intros Hn; [done|].
  destruct (find_prefix_step q prefixes a l) as [_ Hno]; [set_solver|done..|].
  rw Hno; [apply Hn; set_solver|]. apply IH; set_solver.
Qed.

Lemma elem_of_cidr_prefixes q : q ∈ cidr_prefixes <-> 16 <= q <= 24.
Proof.
  split; [revert q; apply Forall_forall, (bool_decide_unpack _); vm_compute; exact I|].
  intros Hq. unfold cidr_prefixes. rw !elem_of_cons. lia.
Qed.

Lemma parse_all_ok ips l :
  Forall2 (fun s x => ParseIP s = Some (IPv4 x)) ips l -> parse_all ips = Ok l /\ Forall is_addr l.
Proof.
  induction 1 as [|s x ips l Hs _ [IH Hl]]; [done|]. cbn [parse_all]. rw Hs IH.
  split; [done|]. constructor; [by eapply ParseIP_range|done].
Qed.

(** The internal network of VMs with IPv4 addresses is the network of the longest prefix
    between /16 and /24 on which all the addresses agree, whatever the notation of the
    addresses; when they do not agree on their first sixteen bits, there is an error. *)
Theorem calculateNetworkCIDR_spec ips a l :
  Forall2 (fun s x => ParseIP s = Some (IPv4 x)) ips (a :: l) ->
  (forall p, 16 <= p <= 24 -> common_prefix p a l ->
     (forall q, p < q <= 24 -> ~ common_prefix q a l) ->
     calculateNetworkCIDR ips = Ok (fmt_cidr (network_of p a) p)) /\
  (~ common_prefix 16 a l ->
   calculateNetworkCIDR ips = Err (Errorf "no /16../24 network contains all IPs")).
Proof.
  intros H. assert (E : calculateNetworkCIDR ips = find_prefix cidr_prefixes (clear_last_byte a) (a :: l)).
  { pose proof (parse_all_ok _ _ H) as [E _]. unfold calculateNetworkCIDR. rw E.
    by inversion H; subst. }
  apply parse_all_ok in H as [_ [Ha Hl]%Forall_cons]. rw E. split.
  - intros p Hp Hc Hn. apply find_prefix_longest; try done; [|by apply elem_of_cidr_prefixes|].
    + repeat constructor.
    + intros q Hq%elem_of_cidr_prefixes Hpq. apply Hn. lia.
  - intros Hn. apply find_prefix_none; try done. intros q Hq%elem_of_cidr_prefixes Hc.
    apply Hn. eapply common_prefix_mono, Hc; lia.
Qed.

Lemma calculateNetworkCIDR_spec_witness :
  calculateNetworkCIDR ["10.12.1.5"; "10.12.3.9"; "::ffff:10.12.2.1"] = Ok "10.12.0.0/22".
Proof.
  refine (proj1 (calculateNetworkCIDR_spec ["10.12.1.5"; "10.12.3.9"; "::ffff:10.12.2.1"]
            168558853 [168559369; 168559105] _) 22 _ _ _); [|lia| |].
  - repeat constructor.
  - apply (bool_decide_unpack _). vm_compute. exact I.
  - intros q Hq. assert (E : q = 23 \/ q = 24) by lia. destruct E as [-> | ->];
      apply (bool_decide_unpack _); vm_compute; exact I.
Defined.

(** ** The values of the template *)

Record bootstrapParams := mkParams {
  bp_PodSubnetCIDR : string;
  bp_ServiceSubnetCIDR : string;
  bp_KubernetesVersion : string;
  bp_ClusterDomain : string;
  bp_ImagesRepo : string;
  bp_RegistryDockerCfg : string;
  bp_PublicDomainTemplate : string;
  bp_InternalNetworkCIDR : string;
  bp_DevBranch : string
}.

(** The required parameters, in the order they are checked, with their messages. *)
Definition required (d : DKPParameters) : list (string * string) :=
  [(PodSubnetCIDR d, "dkpParameters.podSubnetCIDR is required");
   (ServiceSubnetCIDR d, "dkpParameters.serviceSubnetCIDR is required");
   (KubernetesVersion d, "dkpParameters.kubernetesVersion is required");
   (ClusterDomain d, "dkpParameters.clusterDomain is required");
   (RegistryRepo d, "dkpParameters.registryRepo is required")].

Fixpoint first_missing (l : list (string * string)) : option error :=
  match l with
  | [] => None
  | (value, msg) :: l' => if String.eqb value "" then Some (Errorf msg) else first_missing l'
  end.

(** A node that is a VM and has an address. *)
Definition vm_ip (n : ClusterNode) : option string :=
  if decide (Host n = HostTypeVM) then if String.eqb (IPAddress n) "" then None else Some (IPAddress n)
  else None.

Definition cluster_vm_ips (def : ClusterDefinition) : list string :=
  omap vm_ip (Masters def) ++ omap vm_ip (Workers def) ++
  match Setup def with Some n => omap vm_ip [n] | None => [] end.

Definition buildBootstrapParams (def : option ClusterDefinition) (registryDockerCfg : string)
    : result bootstrapParams :=
  match def with
  | None => Err (Errorf "cluster definition is nil")
  | Some def =>
      let d := DKP def in
      match first_missing (required d) with
      | Some e => Err e
      | None =>
          let vmIPs := cluster_vm_ips def in
          let firstMasterIP := default "" (head (omap vm_ip (Masters def))) in
          if Nat.eqb (length vmIPs) 0
          then Err (Errorf "no VM IP addresses in cluster definition (provision VMs first)")
          else if String.eqb firstMasterIP ""
          then Err (Errorf "no master IP address in cluster definition")
          else match calculateNetworkCIDR vmIPs with
               | Err e => Err (ErrorfW "calculate internal network CIDR: " e "")
               | Ok cidr =>
                   Ok (mkParams (PodSubnetCIDR d) (ServiceSubnetCIDR d) (KubernetesVersion d)
                         (ClusterDomain d) (RegistryRepo d) registryDockerCfg
                         ("%s." +:+ firstMasterIP +:+ ".sslip.io") cidr
                         (if String.eqb (DevBranch d) "" then "main" else DevBranch d))
               end
      end
  end.
