(* ===== verification/DvpConfig.v ===== *)
(** The settings and credentials of the DVP provider
    ([src/internal/provisioning/dvp/config.go]). The variables are read by
    [github.com/caarlos0/env]; files and the home directory are the operating system's. *)
From S2P Require Import Prelude Errors Retry Config.

Local Open Scope Z_scope.

Definition apiServerRemotePort : Z := 6445.

Definition sentinel (name msg : string) : error := Leaf (KSentinel name None) msg.
Definition ErrSSHUserRequired : error :=
  sentinel "dvp.ErrSSHUserRequired" "E2E_DVP_BASE_CLUSTER_SSH_USER is required".
Definition ErrSSHHostRequired : error :=
  sentinel "dvp.ErrSSHHostRequired" "E2E_DVP_BASE_CLUSTER_SSH_HOST is required".
Definition ErrKubeconfigSource : error := sentinel "dvp.ErrKubeconfigSource"
  "exactly one of E2E_DVP_BASE_CLUSTER_KUBECONFIG_PATH or E2E_DVP_BASE_CLUSTER_KUBECONFIG must be set".
Definition ErrSSHKeySource : error := sentinel "dvp.ErrSSHKeySource"
  "exactly one of E2E_DVP_BASE_CLUSTER_SSH_PRIVATE_KEY_PATH or E2E_DVP_BASE_CLUSTER_SSH_PRIVATE_KEY must be set".
Definition ErrJumpHostIncomplete : error := sentinel "dvp.ErrJumpHostIncomplete"
  "jump host requires E2E_DVP_BASE_CLUSTER_SSH_JUMP_HOST, E2E_DVP_BASE_CLUSTER_SSH_JUMP_USER and exactly one of E2E_DVP_BASE_CLUSTER_SSH_JUMP_PRIVATE_KEY_PATH or E2E_DVP_BASE_CLUSTER_SSH_JUMP_PRIVATE_KEY".
Definition ErrEmptyKubeconfig : error := sentinel "dvp.ErrEmptyKubeconfig" "kubeconfig is empty".
Definition ErrDKPLicenseKeyRequired : error := sentinel "dvp.ErrDKPLicenseKeyRequired"
  "E2E_DVP_DKP_LICENSE_KEY is required for bootstrap".
Definition ErrRegistryDockerCfgRequired : error := sentinel "dvp.ErrRegistryDockerCfgRequired"
  "E2E_DVP_REGISTRY_DOCKER_CFG is required for bootstrap".

Record Config := mkDvp {
  SSHUser : string;
  SSHHost : string;
  SSHPassphrase : string;
  SSHKeyPath : string;
  SSHKeyContent : string;
  SSHJumpHost : string;
  SSHJumpUser : string;
  SSHJumpPassphrase : string;
  SSHJumpKeyPath : string;
  SSHJumpKeyContent : string;
  KubeConfigPath : string;
  KubeConfigContent : string;
  Namespace : string;
  StorageClass : string;
  VMClassName : string;
  DefaultVMClassName : string;
  VMSSHUser : string;
  DKPLicenseKey : string;
  RegistryDockerCfg : string
}.

Record Credentials := mkCreds { Kubeconfig : string; SSHKey : string; JumpKey : string }.

(** ** Validation *)

Definition exactlyOne (a b : bool) : bool := xorb a b.
Definition is_set (s : string) : bool := negb (String.eqb s "").

Definition JumpHostConfigured (c : Config) : bool :=
  is_set (SSHJumpHost c) && is_set (SSHJumpUser c) &&
  exactlyOne (is_set (SSHJumpKeyPath c)) (is_set (SSHJumpKeyContent c)).

Definition jumpHostMentioned (c : Config) : bool :=
  is_set (SSHJumpHost c) || is_set (SSHJumpUser c) || is_set (SSHJumpKeyPath c) ||
  is_set (SSHJumpKeyContent c).

(** [if cond { errs = append(errs, err) }]. *)
Definition when (cond : bool) (err : error) : list error := if cond then [err] else [].

Definition Validate (c : Config) : option error :=
  joinErrors
    (when (String.eqb (SSHUser c) "") ErrSSHUserRequired ++
     when (String.eqb (SSHHost c) "") ErrSSHHostRequired ++
     when (negb (exactlyOne (is_set (KubeConfigPath c)) (is_set (KubeConfigContent c))))
       ErrKubeconfigSource ++
     when (negb (exactlyOne (is_set (SSHKeyPath c)) (is_set (SSHKeyContent c)))) ErrSSHKeySource ++
     when (jumpHostMentioned c && negb (JumpHostConfigured c)) ErrJumpHostIncomplete).

Definition ValidateForBootstrap (c : Config) : option error :=
  joinErrors (when (String.eqb (DKPLicenseKey c) "") ErrDKPLicenseKeyRequired ++
              when (String.eqb (RegistryDockerCfg c) "") ErrRegistryDockerCfgRequired).

(** [parse] is [env.ParseAsWithOptions] for the tags of [Config]. *)
Definition LoadConfig (parse : gmap string string -> result Config) (environ : gmap string string)
    : result Config :=
  match parse environ with
  | Err e => Err e
  | Ok cfg => match Validate cfg with Some e => Err e | None => Ok cfg end
  end.

(** ** [os.ExpandEnv] *)

Definition isShellSpecialVar (c : Ascii.ascii) : bool :=
  is_digit c || existsb (Ascii.eqb c) ["*"; "#"; "$"; "@"; "!"; "?"; "-"]%char.

Fixpoint scan_brace (s : string) : option string :=
  match s with
  | EmptyString => None
  | String c s' => if Ascii.eqb c "}" then Some "" else String c <$> scan_brace s'
  end.

(** [getShellName]: the name and how many bytes it takes. *)
Definition getShellName (s : string) : string * nat :=
  match s with
  | String "{" s' =>
      match s' with
      | String c (String "}" _) =>
          if isShellSpecialVar c then (String c "", 3%nat)
          else match scan_brace s' with
               | Some "" => ("", 2%nat)
               | Some name => (name, (String.length name + 2)%nat)
               | None => ("", 1%nat)
               end
      | _ => match scan_brace s' with
             | Some "" => ("", 2%nat)
             | Some name => (name, (String.length name + 2)%nat)
             | None => ("", 1%nat)
             end
      end
  | String c _ =>
      if isShellSpecialVar c then (String c "", 1%nat)
      else let name := fst (span_ident s) in (name, String.length name)
  | EmptyString => ("", 0%nat)
  end.

(** [os.Expand]; [skip] counts the bytes of a reference that are still to be passed over. *)
Fixpoint expand (mapping : string -> string) (skip : nat) (s : string) : string :=
  match s with
  | EmptyString => ""
  | String c s' =>
      match skip with
      | S n => expand mapping n s'
      | O =>
          if Ascii.eqb c "$" && negb (String.eqb s' "") then
            let '(name, w) := getShellName s' in
            (if String.eqb name "" then if Nat.eqb w 0 then "$" else "" else mapping name)
            +:+ expand mapping w s'
          else String c (expand mapping O s')
      end
  end.

(** ** [path.Clean], [path.Dir] and [filepath.Join] on Unix *)

Fixpoint split_on (c : Ascii.ascii) (s : string) : list string :=
  match s with
  | EmptyString => [""]
  | String a s' =>
      if Ascii.eqb a c then "" :: split_on c s'
      else match split_on c s' with
           | x :: l => String a x :: l
           | [] => [String a ""]
           end
  end.

(** The elements kept, last first. *)
Definition clean_element (rooted : bool) (kept : list string) (x : string) : list string :=
  if String.eqb x "" || String.eqb x "." then kept
  else if String.eqb x ".." then
    match kept with
    | y :: kept' => if String.eqb y ".." then x :: kept else kept'
    | [] => if rooted then [] else [x]
    end
  else x :: kept.

Definition Clean (path : string) : string :=
  let rooted := HasPrefix path "/" in
  let cleaned := (if rooted then "/" else "") +:+
    Join (rev (foldl (clean_element rooted) [] (split_on "/" path))) "/" in
  if String.eqb cleaned "" then "." else cleaned.

Definition path_Dir (path : string) : string :=
  Clean (TrimSuffix path (after_last "/" path)).

Definition path_Join (elems : list string) : string :=
  let elems := filter (fun e => e <> "") elems in
  match elems with [] => "" | _ => Clean (Join elems "/") end.

Example Clean_examples :
  map Clean ["/a//b/./c/../d"; "../x/.."; "/.."; ""; "a/.."] = ["/a/b/d"; ".."; "/"; "."; "."] /\
  path_Dir "/home/cloud/.ssh/id_rsa" = "/home/cloud/.ssh" /\ path_Dir "config.yml" = "." /\
  path_Join ["/root"; ".kube/config"] = "/root/.kube/config".
Proof. vm_compute. done. Qed.

(** ** Credentials *)

Section Resolve.
(** [os.Getenv], [os.UserHomeDir] and [os.ReadFile]. *)
Context (getenv : string -> string) (home : result string) (readFile : string -> result string).

Definition expandUserPath (path : string) : result string :=
  let expanded := expand getenv 0 path in
  if negb (HasPrefix expanded "~") then Ok expanded
  else match home with
       | Err e => Err (ErrorfW ("resolve home directory for " +:+ quote path +:+ ": ") e "")
       | Ok home =>
           if String.eqb expanded "~" then Ok home
           else Ok (path_Join [home; TrimPrefix expanded "~/"])
       end.

Definition resolveBytes (path content : string) : result string :=
  if is_set content then Ok content
  else match expandUserPath path with
       | Err e => Err e
       | Ok expanded =>
           match readFile expanded with
           | Err e => Err (ErrorfW ("read " +:+ quote expanded +:+ ": ") e "")
           | Ok raw => Ok raw
           end
       end.

Definition Resolve (c : Config) : result Credentials :=
  match resolveBytes (KubeConfigPath c) (KubeConfigContent c) with
  | Err e => Err (ErrorfW "resolving kubeconfig: " e "")
  | Ok kubeconfig =>
      if String.eqb (TrimSpace kubeconfig) "" then Err ErrEmptyKubeconfig
      else match resolveBytes (SSHKeyPath c) (SSHKeyContent c) with
      | Err e => Err (ErrorfW "resolving ssh private key: " e "")
      | Ok sshKey =>
          if JumpHostConfigured c then
            match resolveBytes (SSHJumpKeyPath c) (SSHJumpKeyContent c) with
            | Err e => Err (ErrorfW "resolving jump ssh private key: " e "")
            | Ok jumpKey => Ok (mkCreds kubeconfig sshKey jumpKey)
            end
          else Ok (mkCreds kubeconfig sshKey "")
      end
  end.
End Resolve.

Example expandUserPath_examples :
  let getenv k := if String.eqb k "KEYS" then "/keys" else "" in
  map (expandUserPath getenv (Ok "/root"))
    ["~/.ssh/id_rsa"; "~"; "$KEYS/id"; "${KEYS}/a/$"; "~other/x"; "a~b"]
  = [Ok "/root/.ssh/id_rsa"; Ok "/root"; Ok "/keys/id"; Ok "/keys/a/$"; Ok "/root/~other/x"; Ok "a~b"].
Proof. vm_compute. reflexivity. Qed.
