(* ===== verification/SshConn.v ===== *)
(** The self-healing SSH connection ([src/internal/infrastructure/ssh/v2]: [errors.go],
    [conn.go], [exec.go], [options.go], the dialing of [tunnel.go]).

    A [conn] is shared by the goroutines of its callers and by its own keepalive loop. What
    each of them does is a program [cprog] whose actions are the atomic steps of the code: a
    critical section under [c.mu], a dial, the closing of a connection, joining an execution
    of the singleflight group. [SshSafety] runs any number of such programs interleaved. *)
From S2P Require Import Prelude Errors Retry.

Local Open Scope Z_scope.
Local Open Scope go_scope.

(** ** Errors ([errors.go]) *)

Definition errClosed : error := Leaf (KSentinel "ssh.errClosed" None) "ssh: client is closed".

(** The system call errors that healing may fix. *)
Definition transient_errnos : list string :=
  ["syscall.ECONNRESET"; "syscall.ECONNREFUSED"; "syscall.ECONNABORTED"; "syscall.EPIPE";
   "syscall.ETIMEDOUT"; "syscall.EHOSTUNREACH"; "syscall.ENETUNREACH"].

Definition isTransient (err : option error) : bool :=
  match err with
  | None => false
  | Some e =>
      if errors_Is e "context.Canceled" || errors_Is e "context.DeadlineExceeded" then false
      else if errors_Is e "io.EOF" || errors_Is e "io.ErrUnexpectedEOF" then true
      else if errors_Is e "net.ErrClosed" then true
      else if existsb (errors_Is e) transient_errnos then true
      else match errors_As as_net e with Some t => t | None => false end
  end.

(** ** Options ([options.go]) *)

Definition defaultDialTimeout : Z := 30 * Second.
Definition defaultKeepaliveTimeout : Z := 10 * Second.

(** The logger is left out; [hostKey] is the name of a callback. *)
Record options := mkOptions {
  keepalive : Z;
  keepaliveTimeout : Z;
  retries : Z;
  hostKey : string;
  insecureHostKey : bool;
  dialTimeout : Z
}.

Definition insecureIgnoreHostKey : string := "InsecureIgnoreHostKey".

Definition defaultOptions : options :=
  mkOptions 0 0 SSHRetryCount insecureIgnoreHostKey true defaultDialTimeout.

Definition resolveKeepaliveTimeout (interval configured : Z) : Z :=
  if 0 <? configured then configured
  else if interval <? defaultKeepaliveTimeout then interval
  else defaultKeepaliveTimeout.

Definition Option := options -> options.

Definition WithKeepalive (d : Z) : Option := fun o =>
  mkOptions d (keepaliveTimeout o) (retries o) (hostKey o) (insecureHostKey o) (dialTimeout o).

Definition WithKeepaliveTimeout (d : Z) : Option := fun o =>
  if 0 <? d
  then mkOptions (keepalive o) d (retries o) (hostKey o) (insecureHostKey o) (dialTimeout o)
  else o.

Definition WithRetries (n : Z) : Option := fun o =>
  let n := if n <? 0 then 0 else n in
  mkOptions (keepalive o) (keepaliveTimeout o) n (hostKey o) (insecureHostKey o) (dialTimeout o).

(** [nil] is no callback. *)
Definition WithHostKeyCallback (cb : option string) : Option := fun o =>
  match cb with
  | Some cb => mkOptions (keepalive o) (keepaliveTimeout o) (retries o) cb false (dialTimeout o)
  | None => o
  end.

Definition WithInsecureIgnoreHostKey : Option := fun o =>
  mkOptions (keepalive o) (keepaliveTimeout o) (retries o) insecureIgnoreHostKey true
    (dialTimeout o).

(** The options [New] builds: the defaults, changed in the order given. *)
Definition buildOptions (opts : list Option) : options :=
  fold_left (fun o opt => opt o) opts defaultOptions.

(** ** The connection *)

(** What one successful [Dial] yields: the [*ssh.Client] and the closer of its chain. *)
Notation link := Z (only parsing).

(** The fields guarded by [c.mu]. *)
Record conn := mkConn {
  client : option link;
  closer : option link;
  gen : Z;
  closed : bool
}.

Definition wrap64 (n : Z) : Z := n mod 2 ^ 64.

(** The result of one execution of [refresh]'s function: a client with its generation. *)
Definition healed : Type := result (option link * Z).

(** [Lead n]: the caller runs the function as execution [n]; [Wait n]: it gets the result of
    execution [n], which is in flight. *)
Inductive role := Lead (n : nat) | Wait (n : nat).

(** Calls on a live client that the model leaves to the peer. *)
Inductive rcall :=
| NewSession (l : link)
| SessionStart (s : Z) (cmd : string)
| SessionSignal (s : Z)
| SessionClose (s : Z)
| DialTCP (l : link) (addr : string).

(** How the [select] of a wait ends. *)
Inductive probed := ProbeDone | ProbeTimer | ProbeReply (e : option error).
Inductive waited := WaitDone (e : error) | WaitReply (e : option error).

(** [Lock f k] is a critical section that reads the fields and leaves [f] of them; [k] goes
    on with what was read. *)
Inductive cprog (A : Type) : Type :=
| Ret (a : A)
| Lock (f : conn -> conn) (k : conn -> cprog A)
| Join (key : Z) (k : role -> cprog A)
| Await (n : nat) (k : healed -> cprog A)
| Finish (key : Z) (n : nat) (r : healed) (k : cprog A)
| Dial (k : result link -> cprog A)
| CloseLink (l : link) (k : option error -> cprog A)
| LifeCancel (k : cprog A)
| WgWait (k : cprog A)
| CtxErr (k : option error -> cprog A)
| LifeErr (k : option error -> cprog A)
| Tick (k : bool -> cprog A)
| Probe (l : link) (k : probed -> cprog A)
| Call (c : rcall) (k : result Z -> cprog A)
| SelectWait (s : Z) (k : waited -> cprog A)
| Output (s : Z) (k : string -> string -> cprog A).
Arguments Ret {A} a.
Arguments Lock {A} f k.
Arguments Join {A} key k.
Arguments Await {A} n k.
Arguments Finish {A} key n r k.
Arguments Dial {A} k.
Arguments CloseLink {A} l k.
Arguments LifeCancel {A} k.
Arguments WgWait {A} k.
Arguments CtxErr {A} k.
Arguments LifeErr {A} k.
Arguments Tick {A} k.
Arguments Probe {A} l k.
Arguments Call {A} c k.
Arguments SelectWait {A} s k.
Arguments Output {A} s k.

Fixpoint cprog_bind {A B} (p : cprog A) (f : A -> cprog B) : cprog B :=
  match p with
  | Ret a => f a
  | Lock g k => Lock g (fun x => cprog_bind (k x) f)
  | Join key k => Join key (fun x => cprog_bind (k x) f)
  | Await n k => Await n (fun x => cprog_bind (k x) f)
  | Finish key n r k => Finish key n r (cprog_bind k f)
  | Dial k => Dial (fun x => cprog_bind (k x) f)
  | CloseLink l k => CloseLink l (fun x => cprog_bind (k x) f)
  | LifeCancel k => LifeCancel (cprog_bind k f)
  | WgWait k => WgWait (cprog_bind k f)
  | CtxErr k => CtxErr (fun x => cprog_bind (k x) f)
  | LifeErr k => LifeErr (fun x => cprog_bind (k x) f)
  | Tick k => Tick (fun x => cprog_bind (k x) f)
  | Probe l k => Probe l (fun x => cprog_bind (k x) f)
  | Call c k => Call c (fun x => cprog_bind (k x) f)
  | SelectWait s k => SelectWait s (fun x => cprog_bind (k x) f)
  | Output s k => Output s (fun x y => cprog_bind (k x y) f)
  end.

#[export] Instance cprog_mret : MRet cprog := fun A a => Ret a.
#[export] Instance cprog_mbind : MBind cprog := fun A B f p => cprog_bind p f.

(** [dialer.Describe()]. *)
Section Conn.
Context (describe : string).

(** [newConn] after its dial: the connection, and the interval and probe timeout of the
    keepalive loop it starts, if any. *)
Definition newConn (dialed : result link) (o : options) : result (conn * option (Z * Z)) :=
  match dialed with
  | Err err => Err (ErrorfW ("connect to " +:+ describe +:+ ": ") err "")
  | Ok l =>
      let c := mkConn (Some l) (Some l) 1 false in
      Ok (c, if 0 <? keepalive o
             then Some (keepalive o, resolveKeepaliveTimeout (keepalive o) (keepaliveTimeout o))
             else None)
  end.

Definition snapshot : cprog (option link * Z) :=
  Lock (fun c => c) (fun c => Ret (client c, gen c)).

(** [flight.Do]. *)
Definition flightDo (key : Z) (fn : cprog healed) : cprog healed :=
  Join key (fun ro =>
    match ro with
    | Wait n => Await n Ret
    | Lead n => let! r := fn in Finish key n r (Ret r)
    end).

(** The critical section that installs a new connection, unless closed in the meantime. *)
Definition install (l : link) (c : conn) : conn :=
  if closed c then c else mkConn (Some l) (Some l) (wrap64 (gen c + 1)) (closed c).

(** The function [refresh] runs through singleflight. *)
Definition reconnect (failedGen : Z) : cprog healed :=
  Lock (fun c => c) (fun c =>
    if closed c then Ret (Err errClosed)
    else if negb (gen c =? failedGen) then Ret (Ok (client c, gen c))
    else Dial (fun dialed =>
      match dialed with
      | Err dialErr => Ret (Err (ErrorfW ("reconnect to " +:+ describe +:+ ": ") dialErr ""))
      | Ok l =>
          Lock (install l) (fun c =>
            if closed c then CloseLink l (fun _ => Ret (Err errClosed))
            else
              let newGen := wrap64 (gen c + 1) in
              match closer c with
              | Some old => CloseLink old (fun _ => Ret (Ok (Some l, newGen)))
              | None => Ret (Ok (Some l, newGen))
              end)
      end)).

Definition refresh (failedGen : Z) : cprog healed := flightDo failedGen (reconnect failedGen).

Definition isClosed : cprog bool := Lock (fun c => c) (fun c => Ret (closed c)).

Definition probeKeepalive (timeout : Z) (l : link) : cprog (option error) :=
  Probe l (fun ev =>
    match ev with
    | ProbeDone => LifeErr Ret
    | ProbeTimer => Ret (Some (Errorf ("ssh: keepalive probe timed out after " +:+ fmt_duration timeout)))
    | ProbeReply e => Ret e
    end).

(** One round of [keepaliveLoop]: [true] to go on. *)
Definition keepaliveRound (probeTimeout : Z) : cprog bool :=
  Tick (fun fired =>
    if fired : bool then
      let! '(cl, g) := snapshot in
      match cl with
      | None => mret true
      | Some l =>
          let! err := probeKeepalive probeTimeout l in
          if is_nil err then mret true
          else LifeErr (fun ce =>
            if negb (is_nil ce) then Ret false
            else
              let! r := refresh g in
              match r with
              | Ok _ => mret true
              | Err _ =>
                  let! cd := isClosed in
                  if cd : bool then mret false
                  else LifeErr (fun ce => Ret (is_nil ce))
              end)
      end
    else Ret false).

Definition Close : cprog (option error) :=
  Lock (fun c => if closed c then c else mkConn None None (gen c) true) (fun c =>
    if closed c then Ret None
    else LifeCancel (WgWait (
      match closer c with
      | Some cl => CloseLink cl (fun err =>
          Ret (if negb (is_nil err) && negb (isTransient err) then err else None))
      | None => Ret None
      end))).

(** [withConn]: [left] retries are left after this attempt. *)
Fixpoint withConn_loop {T} (op : link -> cprog (result T)) (left : nat) (attempt : Z)
    (cl : option link) (g : Z) : cprog (result T) :=
  CtxErr (fun ce =>
    match ce with
    | Some err => Ret (Err err)
    | None =>
        match cl with
        | None => Ret (Err errClosed)
        | Some l =>
            let! r := op l in
            match r with
            | Ok result => mret (Ok result)
            | Err err =>
                CtxErr (fun ce =>
                  match ce with
                  | Some ce => Ret (Err ce)
                  | None =>
                      if negb (isTransient (Some err)) then Ret (Err err)
                      else match left with
                           | O => Ret (Err (ErrorfW ("after " +:+ pretty (attempt + 1) +:+
                                                     " attempt(s): ") err ""))
                           | S left' =>
                               let! h := refresh g in
                               match h with
                               | Err err => mret (Err (ErrorfW "heal connection: " err ""))
                               | Ok (cl', g') => withConn_loop op left' (attempt + 1) cl' g'
                               end
                           end
                  end)
            end
        end
    end).

Definition withConn {T} (retries : Z) (op : link -> cprog (result T)) : cprog (result T) :=
  let! '(cl, g) := snapshot in
  withConn_loop op (Z.to_nat retries) 0 cl g.

(** ** Operations over it ([exec.go], [tunnel.go]) *)

Record ExecResult := mkExec { Stdout : string; Stderr : string; ExitCode : Z }.

Definition openSession (l : link) : cprog (result Z) :=
  Call (NewSession l) (fun r =>
    match r with
    | Err err => Ret (Err (ErrorfW "open ssh session: " err ""))
    | Ok s => Ret (Ok s)
    end).

Definition runWithContext (session : Z) (cmd : string)
    : cprog (option error) :=
  Call (SessionStart session cmd) (fun r =>
    match r with
    | Err err => Ret (Some (ErrorfW "start command: " err ""))
    | Ok _ =>
        SelectWait session (fun ev =>
          match ev with
          | WaitDone ctxe =>
              Call (SessionSignal session) (fun _ =>
              Call (SessionClose session) (fun _ => Ret (Some ctxe)))
          | WaitReply (Some err) =>
              Ret (Some (ErrorfW ("command " +:+ quote cmd +:+ " failed: ") err ""))
          | WaitReply None => Ret None
          end)
    end).

Definition Exec (retries : Z) (cmd : string)
    : cprog (ExecResult * option error) :=
  let! opened := withConn retries openSession in
  match opened with
  | Err err => mret (mkExec "" "" 0, Some err)
  | Ok session =>
      let! runErr := runWithContext session cmd in
      Output session (fun out err =>
        let code := match runErr with Some e => default 0 (errors_As as_exit e) | None => 0 end in
        Call (SessionClose session) (fun _ => Ret (mkExec out err code, runErr)))
  end.

(** The connection a tunnel forwards to; a dial that loses against the context is closed by
    its own goroutine. *)
Definition dialChannel (addr : string) (l : link) : cprog (result Z) :=
  Call (DialTCP l addr) Ret.

Definition forward (retries : Z) (remotePort : Z) : cprog (result Z) :=
  withConn retries (dialChannel ("127.0.0.1:" +:+ pretty remotePort)).
End Conn.
