(* ===== verification/SshSafety.v ===== *)
(** The connection of [SshConn] under every interleaving of its users, its keepalive loop and
    [Close]: it refines a cell that is healed and closed, no connection is leaked, one dial
    runs at a time, and nobody waits forever. *)
From stdpp Require Import functions.
From S2P Require Import Prelude Errors Retry SshConn.

Local Open Scope Z_scope.
Local Open Scope go_scope.

(** ** [golang.org/x/sync/singleflight]

    Documented: [Do] makes sure that only one execution is in flight for a key at a time; a
    duplicate caller waits for the original to complete and receives the same results. *)
Class Singleflight (G : Type) := {
  running : G -> Z -> option nat;
  outcome : G -> nat -> option healed;
  join : Z -> G -> role * G;
  finish : Z -> nat -> healed -> G -> G
}.

Class SingleflightLaws (G : Type) `{Singleflight G} : Prop := {
  join_lead key g n g' : join key g = (Lead n, g') ->
    running g key = None /\ outcome g' = outcome g /\
    running g' key = Some n /\ (forall k, k <> key -> running g' k = running g k);
  join_wait key g n g' : join key g = (Wait n, g') -> running g key = Some n /\ g' = g;
  finish_running key n r g : running g key = Some n ->
    running (finish key n r g) key = None /\
    (forall k, k <> key -> running (finish key n r g) k = running g k);
  finish_outcome key n r g : running g key = Some n ->
    outcome (finish key n r g) n = Some r /\
    (forall m, m <> n -> outcome (finish key n r g) m = outcome g m)
}.

(** A group in memory: the executions in flight, the results, and the next number. *)
Record memGroup := mkGroup {
  grp_running : Z -> option nat;
  grp_outcome : nat -> option healed;
  grp_next : nat
}.

#[export] Instance mem_flight : Singleflight memGroup := {|
  running := grp_running;
  outcome := grp_outcome;
  join key g := match grp_running g key with
    | Some n => (Wait n, g)
    | None => (Lead (grp_next g),
               mkGroup (<[key := Some (grp_next g)]> (grp_running g)) (grp_outcome g)
                       (S (grp_next g)))
    end;
  finish key n r g := mkGroup (<[key := None]> (grp_running g))
                              (<[n := Some r]> (grp_outcome g)) (grp_next g)
|}.

#[export] Instance mem_flight_laws : SingleflightLaws memGroup.
Proof.
  split; cbn.
  - intros key g n g' H. destruct (grp_running g key) eqn:E; [done|]. injection H as <- <-. cbn.
    rw fn_lookup_insert. repeat split; [done..|]. intros k Hk. by apply fn_lookup_insert_ne.
  - intros key g n g' H. destruct (grp_running g key) eqn:E; [|done]. by injection H as <- <-.
  - intros key n r g _. rw fn_lookup_insert. split; [done|].
    intros k Hk. by apply fn_lookup_insert_ne.
  - intros key n r g _. rw fn_lookup_insert. split; [done|].
    intros k Hk. by apply fn_lookup_insert_ne.
Qed.

(** ** The system *)
Section System.
Context {G : Type} `{SF : Singleflight G}.

(** What the goroutines share: the connection, the group, whether [lifeCtx] is cancelled, the
    wait group, and the network connections that are open. *)
Record shared := mkShared {
  s_conn : conn;
  s_group : G;
  s_life : bool;
  s_wg : nat;
  s_live : gset Z
}.

Definition with_conn (c : conn) (s : shared) : shared :=
  mkShared c (s_group s) (s_life s) (s_wg s) (s_live s).
Definition with_group (g : G) (s : shared) : shared :=
  mkShared (s_conn s) g (s_life s) (s_wg s) (s_live s).
Definition with_life (b : bool) (s : shared) : shared :=
  mkShared (s_conn s) (s_group s) b (s_wg s) (s_live s).
Definition with_wg (n : nat) (s : shared) : shared :=
  mkShared (s_conn s) (s_group s) (s_life s) n (s_live s).
Definition with_live (v : gset Z) (s : shared) : shared :=
  mkShared (s_conn s) (s_group s) (s_life s) (s_wg s) v.

(** One action of a program. A dial fails or yields a connection that was not open; the
    answers of the peer, of contexts and timers are arbitrary, except that a wait for the
    end of [lifeCtx] ends so only once it is cancelled. *)
Inductive cstep {A} : cprog A -> shared -> cprog A -> shared -> Prop :=
| cs_lock f k s : cstep (Lock f k) s (k (s_conn s)) (with_conn (f (s_conn s)) s)
| cs_join key k s ro g : join key (s_group s) = (ro, g) ->
    cstep (Join key k) s (k ro) (with_group g s)
| cs_await n k s r : outcome (s_group s) n = Some r -> cstep (Await n k) s (k r) s
| cs_finish key n r k s :
    cstep (Finish key n r k) s k (with_group (finish key n r (s_group s)) s)
| cs_dial_ok k s l : l ∉ s_live s -> cstep (Dial k) s (k (Ok l)) (with_live ({[l]} ∪ s_live s) s)
| cs_dial_err k s e : cstep (Dial k) s (k (Err e)) s
| cs_close l k s e : cstep (CloseLink l k) s (k e) (with_live (s_live s ∖ {[l]}) s)
| cs_cancel k s : cstep (LifeCancel k) s k (with_life true s)
| cs_wgwait k s : s_wg s = 0%nat -> cstep (WgWait k) s k s
| cs_ctx k s e : cstep (CtxErr k) s (k e) s
| cs_life k s :
    cstep (LifeErr k) s (k (if s_life s then Some context_Canceled else None)) s
| cs_tick k s : cstep (Tick k) s (k true) s
| cs_tick_done k s : s_life s = true -> cstep (Tick k) s (k false) s
| cs_probe l k s ev : (ev = ProbeDone -> s_life s = true) -> cstep (Probe l k) s (k ev) s
| cs_call c k s r : cstep (Call c k) s (k r) s
| cs_select sn k s ev : cstep (SelectWait sn k) s (k ev) s
| cs_output sn k s o e : cstep (Output sn k) s (k o e) s.

(** What a caller does with the connection, one after another. *)
Inductive usage := UExec (cmd : string) | UForward (port : Z) | UClose.

Context (describe : string) (probeTimeout nretries : Z).

Fixpoint caller (us : list usage) : cprog unit :=
  match us with
  | [] => Ret tt
  | UExec cmd :: us => let! _ := Exec describe nretries cmd in caller us
  | UForward port :: us => let! _ := forward describe nretries port in caller us
  | UClose :: us => let! _ := Close in caller us
  end.

(** A goroutine of a caller, or the keepalive loop, which runs its body again until it
    returns [false]. *)
Inductive thread := TCaller (p : cprog unit) | TLoop (p : cprog bool) | TEnd.

Inductive thread_step : thread -> shared -> thread -> shared -> Prop :=
| th_caller p s p' s' : cstep p s p' s' -> thread_step (TCaller p) s (TCaller p') s'
| th_loop p s p' s' : cstep p s p' s' -> thread_step (TLoop p) s (TLoop p') s'
| th_again s :
    thread_step (TLoop (Ret true)) s (TLoop (keepaliveRound describe probeTimeout)) s
| th_stop s : thread_step (TLoop (Ret false)) s TEnd (with_wg (pred (s_wg s)) s)
| th_end s : thread_step (TCaller (Ret tt)) s TEnd s.

(** The state of the system; a caller may start at any time. *)
Inductive step : shared * list thread -> shared * list thread -> Prop :=
| st_start us s ts : step (s, ts) (s, ts ++ [TCaller (caller us)])
| st_thread i t s t' s' ts :
    ts !! i = Some t -> thread_step t s t' s' -> step (s, ts) (s', <[i := t']> ts).

(** [newConn] has dialed [l0]; the keepalive loop runs if it is configured. *)
Definition initial (g : G) (l0 : Z) (o : options) (c : shared * list thread) : Prop :=
  exists cn loop, newConn describe (Ok l0) o = Ok (cn, loop) /\
    c = (mkShared cn g false (if loop is Some _ then 1 else 0)%nat {[l0]},
         if loop is Some _ then [TLoop (keepaliveRound describe probeTimeout)] else []).

Inductive reaches (c0 : shared * list thread) : shared * list thread -> Prop :=
| reaches_init : reaches c0 c0
| reaches_step c c' : reaches c0 c -> step c c' -> reaches c0 c'.

(** ** The abstract connection

    A cell with a client and a generation, which is healed and, once, closed. *)
Inductive cell := COpen (l : Z) (g : Z) | CClosed.

Inductive cell_step : cell -> cell -> Prop :=
| cell_stutter c : cell_step c c
| cell_heal l g l' : cell_step (COpen l g) (COpen l' (wrap64 (g + 1)))
| cell_close l g : cell_step (COpen l g) CClosed.

Definition abstract (c : conn) : cell :=
  match client c with Some l => COpen l (gen c) | None => CClosed end.

Definition conn_wf (c : conn) : Prop :=
  client c = closer c /\ (closed c = true <-> closer c = None).

(** ** What a goroutine may do

    [MLead key n]: it runs execution [n] of [key]; [MChecked]: it has also seen that [key] is
    the current generation of the open connection. [own] is a network connection that the
    goroutine alone knows and has to close or hand over. *)
Inductive mode := MFree | MWait (n : nat) | MLead (key : Z) (n : nat) | MChecked (key : Z) (n : nat).

Definition leads (m : mode) : option (Z * nat) :=
  match m with MLead k n | MChecked k n => Some (k, n) | _ => None end.

Definition checked (m : mode) (c : conn) : Prop :=
  match m with MChecked key _ => gen c = key | _ => True end.

(** The critical sections: reading, seeing that the generation is current, installing, closing. *)
Inductive section (c : conn) : mode -> option Z -> conn -> mode -> option Z -> Prop :=
| sec_read m own : section c m own c m own
| sec_check key n : gen c = key ->
    section c (MLead key n) None c (MChecked key n) None
| sec_install key n l : closed c = false ->
    section c (MChecked key n) (Some l) (mkConn (Some l) (Some l) (wrap64 (gen c + 1)) false)
      (MLead key n) (closer c)
| sec_close m : closed c = false ->
    section c m None (mkConn None None (gen c) true) m (closer c).

(** [bg] holds for the keepalive loop, which [Close] waits for. *)
Fixpoint safe {A} (bg : bool) (Q : mode -> option Z -> A -> Prop) (m : mode) (own : option Z)
    (p : cprog A) : Prop :=
  match p with
  | Ret a => Q m own a
  | Lock f k => forall c, conn_wf c -> checked m c ->
      exists m' own', section c m own (f c) m' own' /\ safe bg Q m' own' (k c)
  | Join key k => m = MFree /\ own = None /\
      (forall n, safe bg Q (MLead key n) None (k (Lead n))) /\
      (forall n, safe bg Q (MWait n) None (k (Wait n)))
  | Await n k => m = MWait n /\ forall r, safe bg Q MFree own (k r)
  | Finish key n r k => leads m = Some (key, n) /\ own = None /\ safe bg Q MFree None k
  | Dial k => own = None /\ (exists key n, m = MChecked key n) /\
      (forall l, safe bg Q m (Some l) (k (Ok l))) /\ (forall e, safe bg Q m None (k (Err e)))
  | CloseLink l k => own = Some l /\ forall e, safe bg Q m None (k e)
  | LifeCancel k => safe bg Q m own k
  | WgWait k => bg = false /\ m = MFree /\ safe bg Q m own k
  | CtxErr k | LifeErr k => forall e, safe bg Q m own (k e)
  | Tick k => forall b, safe bg Q m own (k b)
  | Probe _ k => forall ev, safe bg Q m own (k ev)
  | Call _ k => forall r, safe bg Q m own (k r)
  | SelectWait _ k => forall ev, safe bg Q m own (k ev)
  | Output _ k => forall o e, safe bg Q m own (k o e)
  end.

(** A program that starts and ends without obligations. *)
Definition idle {A} : mode -> option Z -> A -> Prop := fun m own _ => m = MFree /\ own = None.

Lemma safe_seq {A B} bg (Q : mode -> option Z -> A -> Prop) (R : mode -> option Z -> B -> Prop)
    m own (p : cprog A) (f : A -> cprog B) :
  safe bg Q m own p -> (forall m own a, Q m own a -> safe bg R m own (f a)) ->
  safe bg R m own (cprog_bind p f).
Proof.
  intros Hp Hf. revert m own Hp.
  induction p as [a|g k IH|key k IH|n k IH|key n r k IH|k IH|l k IH|k IH|k IH|k IH|k IH|k IH
                 |l k IH|c k IH|s k IH|s k IH]; intros m own Hp; simpl in *; eauto.
  - intros c Hwf Hc. destruct (Hp c Hwf Hc) as (m' & own' & Hs & Hk). eauto 10.
  - destruct Hp as (-> & -> & Hl & Hw). eauto 10.
  - destruct Hp as (-> & Hk). eauto.
  - destruct Hp as (Hl & -> & Hk). eauto.
  - destruct Hp as (-> & Hm & Hok & Herr). eauto 10.
  - destruct Hp as (-> & Hk). eauto.
  - destruct Hp as (-> & -> & Hk). eauto.
Qed.

Lemma safe_idle_bind {A B} bg (p : cprog A) (f : A -> cprog B) (R : mode -> option Z -> B -> Prop) :
  safe bg idle MFree None p -> (forall a, safe bg R MFree None (f a)) ->
  safe bg R MFree None (cprog_bind p f).
Proof. intros Hp Hf. eapply safe_seq; [done|]. by intros m own a [-> ->]. Qed.

Lemma safe_read {A} bg (Q : mode -> option Z -> A -> Prop) m own (k : conn -> cprog A) :
  (forall c, safe bg Q m own (k c)) -> safe bg Q m own (Lock (fun c => c) k).
Proof. intros Hk c _ _. exists m, own. split; [apply sec_read|apply Hk]. Qed.

Lemma safe_reconnect bg key n :
  safe bg (fun m own _ => leads m = Some (key, n) /\ own = None) (MLead key n) None
    (reconnect describe key).
Proof.
  intros c Hwf _. destruct (closed c) eqn:Hcl.
  { exists (MLead key n), None. by split; [apply sec_read|]. }
  destruct (gen c =? key) eqn:Hg; cbn [negb].
  2: { exists (MLead key n), None. by split; [apply sec_read|]. }
  apply Z.eqb_eq in Hg. exists (MChecked key n), None. split; [by apply sec_check|].
  split; [done|]. split; [eauto|]. split; [|done].
  intros l c' [_ Hwf'] Hc'. unfold install. destruct (closed c') eqn:Hcl'.
  { exists (MChecked key n), (Some l). by split; [apply sec_read|]. }
  exists (MLead key n), (closer c'). split; [by apply sec_install|].
  by destruct (closer c').
Qed.

Lemma safe_refresh bg key : safe bg idle MFree None (refresh describe key).
Proof.
  split; [done|]. split; [done|]. split.
  - intros n. eapply safe_seq; [apply safe_reconnect|]. intros m own r [Hm ->]. by split.
  - intros n. by split.
Qed.

Lemma safe_Close : safe false idle MFree None Close.
Proof.
  intros c Hwf _. destruct (closed c) eqn:Hcl.
  { exists MFree, None. by split; [apply sec_read|]. }
  exists MFree, (closer c). split; [by apply sec_close|]. split; [done|]. split; [done|].
  by destruct (closer c).
Qed.

Lemma safe_withConn_loop {T} bg (op : Z -> cprog (result T)) left attempt cl g :
  (forall l, safe bg idle MFree None (op l)) ->
  safe bg idle MFree None (withConn_loop describe op left attempt cl g).
Proof.
  intros Hop. revert attempt cl g.
  induction left as [|left IH]; intros attempt cl g; intros [err|]; try done;
    destruct cl as [l|]; try done; (apply safe_idle_bind; [apply Hop|]);
    intros [r|err]; try done; intros [ce|]; try done;
    destruct (negb (isTransient (Some err))); try done.
  apply safe_idle_bind; [apply safe_refresh|]. intros [[cl' g']|e]; [apply IH|done].
Qed.

Lemma safe_withConn {T} bg (op : Z -> cprog (result T)) n :
  (forall l, safe bg idle MFree None (op l)) ->
  safe bg idle MFree None (withConn describe n op).
Proof. intros Hop. apply safe_read. intros c. by apply safe_withConn_loop. Qed.

Lemma safe_Exec bg cmd : safe bg idle MFree None (Exec describe nretries cmd).
Proof.
  apply safe_idle_bind; [apply safe_withConn; by intros l [s|e]|]. intros [session|e]; [|done].
  intros [r|e]; [|done]. by intros [ce|[e|]].
Qed.

Lemma safe_caller us : safe false idle MFree None (caller us).
Proof.
  induction us as [|[cmd|port|] us IH]; [done|..]; (apply safe_idle_bind; [|done]).
  - apply safe_Exec.
  - by apply safe_withConn; intros l r.
  - apply safe_Close.
Qed.

Lemma safe_probeKeepalive bg d l : safe bg idle MFree None (probeKeepalive d l).
Proof. by intros [| |e]. Qed.

Lemma safe_keepaliveRound : safe true idle MFree None (keepaliveRound describe probeTimeout).
Proof.
  intros [|]; [|done]. apply safe_idle_bind; [by apply safe_read|]. intros [[l|] g]; [|done].
  apply safe_idle_bind; [apply safe_probeKeepalive|]. intros [err|]; [|done].
  intros [ce|]; [done|]. apply safe_idle_bind; [apply safe_refresh|]. intros [r|e]; [done|].
  apply safe_idle_bind; [by apply safe_read|]. by intros [|].
Qed.

(** ** The effect of one action *)
Inductive effect : shared -> mode -> option Z -> shared -> mode -> option Z -> Prop :=
| ef_none s m own : effect s m own s m own
| ef_life s m own : effect s m own (with_life true s) m own
| ef_section s m own c' m' own' :
    section (s_conn s) m own c' m' own' -> effect s m own (with_conn c' s) m' own'
| ef_lead s key n g : join key (s_group s) = (Lead n, g) ->
    effect s MFree None (with_group g s) (MLead key n) None
| ef_wait s key n g : join key (s_group s) = (Wait n, g) ->
    effect s MFree None (with_group g s) (MWait n) None
| ef_awaited s n own : effect s (MWait n) own s MFree own
| ef_finish s m key n r : leads m = Some (key, n) ->
    effect s m None (with_group (finish key n r (s_group s)) s) MFree None
| ef_dial s m l : l ∉ s_live s -> effect s m None (with_live ({[l]} ∪ s_live s) s) m (Some l)
| ef_close s m l : effect s m (Some l) (with_live (s_live s ∖ {[l]}) s) m None.

Lemma cstep_effect {A} bg (Q : mode -> option Z -> A -> Prop) m own p s p' s' :
  conn_wf (s_conn s) -> checked m (s_conn s) ->
  cstep p s p' s' -> safe bg Q m own p ->
  exists m' own', effect s m own s' m' own' /\ safe bg Q m' own' p'.
Proof.
  intros Hwf Hc Hs.
  destruct Hs as [f k s|key k s ro g Hj|n k s r Ho|key n r k s|k s l Hl|k s e|l k s e|k s|k s Hw
                 |k s e|k s|k s|k s Hd|l k s ev Hev|c k s r|sn k s ev|sn k s o e]; cbn; intros Hp;
    try (by eexists _, _; split; [apply ef_none|]).
  - destruct (Hp _ Hwf Hc) as (m' & own' & Hsec & Hk). eauto using ef_section.
  - destruct Hp as (-> & -> & Hlead & Hwait).
    destruct ro as [n|n]; eauto using ef_lead, ef_wait.
  - destruct Hp as (-> & Hk). eauto using ef_awaited.
  - destruct Hp as (Hm & -> & Hk). eauto using ef_finish.
  - destruct Hp as (-> & _ & Hok & _). eauto using ef_dial.
  - destruct Hp as (-> & _ & _ & Herr). eauto using ef_none.
  - destruct Hp as (-> & Hk). eauto using ef_close.
  - eauto using ef_life.
  - destruct Hp as (_ & _ & Hk). eauto using ef_none.
Qed.

(** ** The invariant *)
Definition thread_safe (t : thread) (g : mode * option Z) : Prop :=
  match t with
  | TCaller p => safe false idle g.1 g.2 p
  | TLoop p => safe true idle g.1 g.2 p
  | TEnd => g = (MFree, None)
  end.

Definition is_loop (t : thread) : bool := if t is TLoop _ then true else false.
Definition loops (ts : list thread) : nat := length (List.filter is_loop ts).

Record core (s : shared) (gh : nat -> mode * option Z) : Prop := {
  core_wf : conn_wf (s_conn s);
  core_live l : l ∈ s_live s <-> closer (s_conn s) = Some l \/ exists i, (gh i).2 = Some l;
  core_conn_owner i l : closer (s_conn s) = Some l -> (gh i).2 <> Some l;
  core_owner i j l : (gh i).2 = Some l -> (gh j).2 = Some l -> i = j;
  core_leads i key n : leads (gh i).1 = Some (key, n) -> running (s_group s) key = Some n;
  core_leader key n : running (s_group s) key = Some n -> exists i, leads (gh i).1 = Some (key, n);
  core_unique i j key n n' :
    leads (gh i).1 = Some (key, n) -> leads (gh j).1 = Some (key, n') -> i = j;
  core_checked i : checked (gh i).1 (s_conn s);
  core_waits i n : (gh i).1 = MWait n ->
    is_Some (outcome (s_group s) n) \/ exists key, running (s_group s) key = Some n
}.

Record inv (s : shared) (ts : list thread) (gh : nat -> mode * option Z) : Prop := {
  inv_core : core s gh;
  inv_threads i t : ts !! i = Some t -> thread_safe t (gh i);
  inv_absent i : ts !! i = None -> gh i = (MFree, None);
  inv_wg : s_wg s = loops ts
}.

Context {SFL : SingleflightLaws G}.

(** The ghost state of goroutine [j] after goroutine [i] moved. *)
Lemma gh_cases (gh : nat -> mode * option Z) i x j :
  (j = i /\ (<[i := x]> gh) j = x) \/ (j <> i /\ (<[i := x]> gh) j = gh j).
Proof.
  destruct (decide (j = i)) as [->|Hne]; [left|right].
  - by rw fn_lookup_insert.
  - by rw fn_lookup_insert_ne.
Qed.

(** Case analysis on which goroutine a lookup is about. *)
Ltac gh_split :=
  repeat match goal with
  | H : context [(<[?i := ?x]> ?gh) ?j] |- _ =>
      destruct (gh_cases gh i x j) as [[-> ?E]|[? ?E]]; rewrite E in H; clear E
  | |- context [(<[?i := ?x]> ?gh) ?j] =>
      destruct (gh_cases gh i x j) as [[-> ?E]|[? ?E]]; rewrite E; clear E
  end.

(** What goroutine [i] owns moves in the set of open connections. *)
Lemma live_own (gh : nat -> mode * option Z) i x l :
  (exists j, ((<[i := x]> gh) j).2 = Some l) <->
  x.2 = Some l \/ exists j, j <> i /\ (gh j).2 = Some l.
Proof.
  split.
  - intros [j Hj]. gh_split; eauto.
  - intros [Hx|(j & Hne & Hj)]; [exists i; by rw fn_lookup_insert|].
    exists j. by rw fn_lookup_insert_ne.
Qed.

Lemma core_same s gh i m own m' :
  core s gh -> gh i = (m, own) -> leads m' = leads m -> checked m' (s_conn s) ->
  (forall n, m' = MWait n -> m = MWait n) -> core s (<[i := (m', own)]> gh).
Proof.
  intros [Hwf Hl Hco Ho Hld Hlr Hu Hc Hw] Hi Hm Hck Hmw.
  assert (Hs : forall j, ((<[i := (m', own)]> gh) j).2 = (gh j).2).
  { intros j. gh_split; [by rw Hi|done]. }
  assert (Hle : forall j, leads ((<[i := (m', own)]> gh) j).1 = leads (gh j).1).
  { intros j. gh_split; [by rw Hi|done]. }
  split; try done; intros *; rw ?Hs ?Hle; eauto.
  - rw Hl. split; (intros [H|[j Hj]]; [by left|right; exists j]); by rw Hs in Hj |- *.
  - intros H. destruct (Hlr _ _ H) as [j Hj]. exists j. by rw Hle.
  - gh_split; [done|apply Hc].
  - gh_split; [|apply Hw]. intros ->%Hmw. apply (Hw i). by rw Hi.
Qed.

(** Ownership moves between goroutine [i], the connection and the network. *)
Lemma core_move s gh i m own c live m' own' :
  core s gh -> gh i = (m, own) -> leads m' = leads m -> conn_wf c ->
  (forall n, m' = MWait n -> m = MWait n) ->
  (forall j, j <> i -> checked (gh j).1 c) -> checked m' c ->
  (forall l, l ∈ live <-> closer c = Some l \/ own' = Some l \/ exists j, j <> i /\ (gh j).2 = Some l) ->
  (forall l, own' = Some l -> closer c <> Some l /\ forall j, j <> i -> (gh j).2 <> Some l) ->
  (forall l, closer c = Some l -> forall j, j <> i -> (gh j).2 <> Some l) ->
  core (with_live live (with_conn c s)) (<[i := (m', own')]> gh).
Proof.
  intros [Hwf Hl Hco Ho Hld Hlr Hu Hc Hw] Hi Hm Hwf' Hmw Hck Hck' Hlive Hown Hclo.
  assert (Hle : forall j, leads ((<[i := (m', own')]> gh) j).1 = leads (gh j).1).
  { intros j. gh_split; [by rw Hi|done]. }
  split; cbn; try done; intros *; rw ?Hle; eauto.
  - by rw Hlive live_own.
  - intros Hcl. gh_split; cbn; [|by apply Hclo]. intros ->. by apply Hown in Hcl.
  - intros H1 H2. gh_split; cbn in *; simplify_eq; try done; [..|by eapply Ho].
    + by edestruct (proj2 (Hown _ eq_refl)).
    + by edestruct (proj2 (Hown _ eq_refl)).
  - intros H. destruct (Hlr _ _ H) as [j Hj]. exists j. by rw Hle.
  - gh_split; [done|by apply Hck].
  - gh_split; [|apply Hw]. intros ->%Hmw. apply (Hw i). by rw Hi.
Qed.

(** Nobody else has checked the generation that goroutine [i] has checked. *)
Lemma checked_alone s gh i key n own j :
  core s gh -> gh i = (MChecked key n, own) -> j <> i -> forall c, checked (gh j).1 c.
Proof.
  intros Hcore Hi Hj c. destruct (gh j) as [[|k|k n'|k n'] o] eqn:Hgj; cbn; try done.
  pose proof (core_checked _ _ Hcore i) as H1. pose proof (core_checked _ _ Hcore j) as H2.
  rw Hi in H1. rw Hgj in H2. cbn in H1, H2. subst.
  destruct Hj. eapply (core_unique _ _ Hcore j i (gen (s_conn s)) n' n); [by rw Hgj|by rw Hi].
Qed.

Lemma core_section s gh i m own c m' own' :
  core s gh -> gh i = (m, own) -> section (s_conn s) m own c m' own' ->
  core (with_conn c s) (<[i := (m', own')]> gh).
Proof.
  intros Hcore Hi Hsec.
  assert (Hlive : with_live (s_live s) (with_conn c s) = with_conn c s) by by destruct s.
  pose proof (core_wf _ _ Hcore) as [Hcc Hcl].
  destruct Hsec as [m own|key n Hg|key n l Hopen|m Hopen].
  - rw -Hlive. destruct s; cbn in *. by eapply core_same; [done|done|done|..];
      [pose proof (core_checked _ _ Hcore i) as H; by rw Hi in H|].
  - destruct s; cbn in *. by eapply core_same.
  - rw -Hlive. eapply core_move; try done.
    + intros j Hj. by eapply checked_alone.
    + intros l'. cbn. rw (core_live _ _ Hcore). split.
      * intros [H|[j Hj]]; [by right; left|].
        destruct (decide (j = i)) as [->|Hne]; [left; by rw Hi in Hj|eauto].
      * intros [[= <-]|[H|(j & _ & Hj)]]; [|by left|eauto].
        right. exists i. by rw Hi.
    + cbn. intros l' Hl'. split.
      * intros [= ->]. apply (core_conn_owner _ _ Hcore i) in Hl'. by rw Hi in Hl'.
      * intros j _. by apply (core_conn_owner _ _ Hcore j) in Hl'.
    + cbn. intros l' [= <-] j Hj H. destruct Hj. eapply (core_owner _ _ Hcore); [exact H|].
      by rw Hi.
  - rw -Hlive. eapply core_move; try done.
    + intros j Hj. pose proof (core_checked _ _ Hcore j). by destruct (gh j) as [[| | |] o].
    + pose proof (core_checked _ _ Hcore i) as H. rw Hi in H. by destruct m.
    + intros l'. cbn. rw (core_live _ _ Hcore). split.
      * intros [H|[j Hj]]; [by right; left|].
        destruct (decide (j = i)) as [->|Hne]; [by rw Hi in Hj|eauto].
      * intros [[=]|[H|(j & _ & Hj)]]; eauto.
    + cbn. intros l' Hl'. split; [done|]. intros j _. by apply (core_conn_owner _ _ Hcore j) in Hl'.
Qed.

Lemma core_dial s gh i m l :
  core s gh -> gh i = (m, None) -> l ∉ s_live s ->
  core (with_live ({[l]} ∪ s_live s) s) (<[i := (m, Some l)]> gh).
Proof.
  intros Hcore Hi Hl. pose proof (core_checked _ _ Hcore i) as Hck. rw Hi in Hck.
  assert (Hfresh : closer (s_conn s) <> Some l /\ forall j, (gh j).2 <> Some l).
  { rw (core_live _ _ Hcore) in Hl. split; [|intros j]; intros H; apply Hl; eauto. }
  change (with_live ({[l]} ∪ s_live s) s) with (with_live ({[l]} ∪ s_live s) (with_conn (s_conn s) s)).
  eapply core_move; try done.
  - apply (core_wf _ _ Hcore).
  - intros j _. apply (core_checked _ _ Hcore).
  - intros l'. rw elem_of_union elem_of_singleton (core_live _ _ Hcore). split.
    + intros [->|[H|[j Hj]]]; [eauto..|].
      right; right. exists j. split; [|done]. intros ->. by rw Hi in Hj.
    + intros [H|[[= <-]|(j & _ & Hj)]]; eauto.
  - intros l' [= <-]. split; [apply Hfresh|]. intros j _. apply Hfresh.
  - intros l' Hl' j _. by apply (core_conn_owner _ _ Hcore j) in Hl'.
Qed.

Lemma core_close s gh i m l :
  core s gh -> gh i = (m, Some l) ->
  core (with_live (s_live s ∖ {[l]}) s) (<[i := (m, None)]> gh).
Proof.
  intros Hcore Hi. pose proof (core_checked _ _ Hcore i) as Hck. rw Hi in Hck.
  change (with_live (s_live s ∖ {[l]}) s) with (with_live (s_live s ∖ {[l]}) (with_conn (s_conn s) s)).
  assert (Hil : (gh i).2 = Some l) by by rw Hi.
  eapply core_move; try done.
  - apply (core_wf _ _ Hcore).
  - intros j _. apply (core_checked _ _ Hcore).
  - intros l'. rw elem_of_difference elem_of_singleton (core_live _ _ Hcore). split.
    + intros [[H|[j Hj]] Hne]; [by left|].
      right; right. exists j. split; [|done]. intros ->. rw Hi in Hj. by simplify_eq/=.
    + intros [H|[[=]|(j & Hne & Hj)]].
      * split; [by left|]. intros ->. by apply (core_conn_owner _ _ Hcore i) in H.
      * split; [eauto|]. intros ->. destruct Hne. by eapply (core_owner _ _ Hcore).
  - intros l' Hl' j _. by apply (core_conn_owner _ _ Hcore j) in Hl'.
Qed.

(** Joining and finishing executions leaves connections alone. *)
Lemma core_group s gh i m m' g :
  core s gh -> gh i = (m, None) ->
  (forall j key n, leads ((<[i := (m', None)]> gh) j).1 = Some (key, n) -> running g key = Some n) ->
  (forall key n, running g key = Some n -> exists j, leads ((<[i := (m', None)]> gh) j).1 = Some (key, n)) ->
  (forall j key n n', j <> i -> leads m' = Some (key, n) -> leads (gh j).1 <> Some (key, n')) ->
  checked m' (s_conn s) ->
  (forall j n, ((<[i := (m', None)]> gh) j).1 = MWait n ->
     is_Some (outcome g n) \/ exists key, running g key = Some n) ->
  core (with_group g s) (<[i := (m', None)]> gh).
Proof.
  intros [Hwf Hl Hco Ho Hld Hlr Hu Hc Hw] Hi H1 H2 H3 H4 H5.
  assert (Hs : forall j, ((<[i := (m', None)]> gh) j).2 = (gh j).2).
  { intros j. gh_split; [by rw Hi|done]. }
  split; cbn; try done; intros *; rw ?Hs; eauto.
  - rw Hl. split; (intros [H|[j Hj]]; [by left|right; exists j]); by rw Hs in Hj |- *.
  - intros Ha Hb. gh_split; cbn in *; [done| | |by eapply Hu].
    + by eapply H3 in Hb.
    + by eapply H3 in Ha.
  - gh_split; [done|apply Hc].
Qed.

Lemma core_join s gh i key ro g :
  core s gh -> gh i = (MFree, None) -> join key (s_group s) = (ro, g) ->
  core (with_group g s)
    (<[i := (match ro with Lead n => MLead key n | Wait n => MWait n end, None)]> gh).
Proof.
  intros Hcore Hi Hj. destruct ro as [n|n].
  - apply join_lead in Hj as (Hnone & Ho & Hr & Hne).
    assert (Hother : forall j k m, leads (gh j).1 = Some (k, m) -> k <> key).
    { intros j k m H ->. apply (core_leads _ _ Hcore) in H. congruence. }
    eapply core_group; [done..| | | |done|].
    + intros j k m H. gh_split; [by simplify_eq/=|].
      rw Hne; [by eapply Hother|by eapply core_leads].
    + intros k m H. destruct (decide (k = key)) as [->|Hk].
      * exists i. rw fn_lookup_insert. cbn. congruence.
      * rw Hne // in H. destruct (core_leader _ _ Hcore _ _ H) as [j Hj]. exists j.
        rw fn_lookup_insert_ne; [|done]. intros <-. by rw Hi in Hj.
    + intros j k m m' _ [= <- <-] H. by eapply Hother.
    + intros j m H. gh_split; [done|]. rw Ho.
      destruct (core_waits _ _ Hcore _ _ H) as [Hs|[k Hk]]; [by left|right].
      exists k. rw Hne; [intros ->; congruence|done].
  - apply join_wait in Hj as [Hr ->].
    eapply core_group; [done..| | |done|done|].
    + intros j k m H. gh_split; [done|]. by eapply core_leads.
    + intros k m H. destruct (core_leader _ _ Hcore _ _ H) as [j Hj]. exists j.
      rw fn_lookup_insert_ne; [|done]. intros <-. by rw Hi in Hj.
    + intros j m H. gh_split; [|by eapply core_waits]. simplify_eq/=. eauto.
Qed.

Lemma core_finish s gh i m key n r :
  core s gh -> gh i = (m, None) -> leads m = Some (key, n) ->
  core (with_group (finish key n r (s_group s)) s) (<[i := (MFree, None)]> gh).
Proof.
  intros Hcore Hi Hm.
  assert (Hrun : running (s_group s) key = Some n).
  { apply (core_leads _ _ Hcore i). by rw Hi. }
  destruct (finish_running _ _ r _ Hrun) as [Hnone Hne].
  destruct (finish_outcome _ _ r _ Hrun) as [Hout Hon].
  assert (Hother : forall j k m', j <> i -> leads (gh j).1 = Some (k, m') -> k <> key).
  { intros j k m' Hj H ->. destruct Hj. eapply (core_unique _ _ Hcore); [exact H|]. by rw Hi. }
  eapply core_group; [done..| | |done|done|].
  - intros j k m' H. gh_split; [done|].
    rw Hne; [by eapply Hother|by eapply core_leads].
  - intros k m' H. destruct (decide (k = key)) as [->|Hk]; [congruence|].
    rw Hne // in H. destruct (core_leader _ _ Hcore _ _ H) as [j Hj]. exists j.
    rw fn_lookup_insert_ne; [|done]. intros <-. rw Hi /= Hm in Hj. congruence.
  - intros j m' H. gh_split; [done|].
    destruct (decide (m' = n)) as [->|Hmn]; [left; by rw Hout|].
    destruct (core_waits _ _ Hcore _ _ H) as [Hs|[k Hk]]; [left; by rw Hon|right].
    exists k. rw Hne; [intros ->; congruence|done].
Qed.

Lemma effect_core s gh i m own s' m' own' :
  core s gh -> gh i = (m, own) -> effect s m own s' m' own' ->
  core s' (<[i := (m', own')]> gh).
Proof.
  intros Hcore Hi He. pose proof (core_checked _ _ Hcore i) as Hck. rw Hi in Hck.
  destruct He as [s m own|s m own|s m own c' m' own' Hs|s key n g Hj|s key n g Hj|s n own
                 |s m key n r Hm|s m l Hl|s m l].
  - by eapply core_same.
  - destruct Hcore, s. by eapply core_same.
  - by eapply core_section.
  - by eapply (core_join _ _ _ _ (Lead n)).
  - by eapply (core_join _ _ _ _ (Wait n)).
  - by eapply core_same.
  - by eapply core_finish.
  - by eapply core_dial.
  - by eapply core_close.
Qed.

Lemma effect_wg s m own s' m' own' : effect s m own s' m' own' -> s_wg s' = s_wg s.
Proof. by destruct 1. Qed.

Lemma effect_cell s m own s' m' own' :
  conn_wf (s_conn s) -> effect s m own s' m' own' ->
  cell_step (abstract (s_conn s)) (abstract (s_conn s')).
Proof.
  intros [Hcc Hcl] He. destruct He as [ | |s m own c' m' own' Hs| | | | | | ]; try apply cell_stutter.
  cbn. destruct Hs as [| |key n l Hopen|m Hopen]; try apply cell_stutter;
    unfold abstract; rw Hcc; (destruct (closer (s_conn s)) as [l0|]; [|by rw (proj2 Hcl) in Hopen]);
    constructor.
Qed.

Lemma loops_insert ts i t t' :
  ts !! i = Some t ->
  (loops (<[i := t']> ts) + (if is_loop t then 1 else 0) =
   loops ts + (if is_loop t' then 1 else 0))%nat.
Proof.
  unfold loops. revert i. induction ts as [|x ts IH]; intros [|i] Hi; simplify_eq/=.
  - destruct (is_loop t), (is_loop t'); cbn; lia.
  - specialize (IH _ Hi). destruct (is_loop x); cbn; lia.
Qed.

(** A goroutine moves: the invariant with its ghost state updated. *)
Lemma inv_insert s ts gh i t m own s' t' m' own' :
  inv s ts gh -> ts !! i = Some t -> gh i = (m, own) ->
  core s' (<[i := (m', own')]> gh) -> thread_safe t' (m', own') ->
  (s_wg s' + (if is_loop t then 1 else 0) = s_wg s + (if is_loop t' then 1 else 0))%nat ->
  inv s' (<[i := t']> ts) (<[i := (m', own')]> gh).
Proof.
  intros [Hcore Hts Habs Hwg] Hi Hgi Hcore' Ht' Hw. split; [done|..].
  - intros j x Hj. gh_split.
    + by rw (list_lookup_insert_eq _ _ _ (lookup_lt_Some _ _ _ Hi)) in Hj; simplify_eq.
    + rw list_lookup_insert_ne // in Hj. by apply Hts.
  - intros j Hj. gh_split.
    + by rw (list_lookup_insert_eq _ _ _ (lookup_lt_Some _ _ _ Hi)) in Hj.
    + rw list_lookup_insert_ne // in Hj. by apply Habs.
  - pose proof (loops_insert _ _ _ t' Hi). lia.
Qed.

Lemma thread_step_inv s ts gh i t s' t' :
  inv s ts gh -> ts !! i = Some t -> thread_step t s t' s' ->
  exists gh', inv s' (<[i := t']> ts) gh' /\ cell_step (abstract (s_conn s)) (abstract (s_conn s')).
Proof.
  intros Hinv Hi Hs. pose proof (inv_threads _ _ _ Hinv _ _ Hi) as Hsafe.
  pose proof (inv_core _ _ _ Hinv) as Hcore. pose proof (core_wf _ _ Hcore) as Hwf.
  pose proof (core_checked _ _ Hcore i) as Hck. destruct (gh i) as [m own] eqn:Hg.
  destruct Hs as [p s p' s' Hp|p s p' s' Hp|s|s|s]; cbn in Hsafe, Hck.
  - destruct (cstep_effect _ _ _ _ _ _ _ _ Hwf Hck Hp Hsafe) as (m' & own' & He & Hs').
    eexists. split; [|by eapply effect_cell].
    eapply inv_insert; [done..|by eapply effect_core|done|]. cbn. by rw (effect_wg _ _ _ _ _ _ He).
  - destruct (cstep_effect _ _ _ _ _ _ _ _ Hwf Hck Hp Hsafe) as (m' & own' & He & Hs').
    eexists. split; [|by eapply effect_cell].
    eapply inv_insert; [done..|by eapply effect_core|done|]. cbn. by rw (effect_wg _ _ _ _ _ _ He).
  - destruct Hsafe as [-> ->]. eexists. split; [|apply cell_stutter].
    eapply inv_insert; [done..| |apply safe_keepaliveRound|done].
    eapply effect_core; [done..|apply ef_none].
  - destruct Hsafe as [-> ->]. eexists. split; [|apply cell_stutter].
    eapply inv_insert; [done..| |done|].
    + destruct (effect_core _ _ _ _ _ _ _ _ Hcore Hg (ef_none s MFree None)). by split.
    + cbn. pose proof (inv_wg _ _ _ Hinv). pose proof (loops_insert _ _ _ TEnd Hi). cbn in *. lia.
  - destruct Hsafe as [-> ->]. eexists. split; [|apply cell_stutter].
    eapply inv_insert; [done..| |done|done].
    eapply effect_core; [done..|apply ef_none].
Qed.

Lemma step_inv s ts gh s' ts' :
  inv s ts gh -> step (s, ts) (s', ts') ->
  exists gh', inv s' ts' gh' /\ cell_step (abstract (s_conn s)) (abstract (s_conn s')).
Proof.
  intros Hinv Hs. inversion Hs; subst; [|by eapply thread_step_inv].
  destruct Hinv as [Hcore Hts Habs Hwg]. exists gh. split; [|apply cell_stutter].
  split; [done|..].
  - intros i t [Hi|[Hi Ht]]%lookup_app_Some; [by apply Hts|].
    apply list_lookup_singleton_Some in Ht as [? <-]. rw (Habs i); [by apply lookup_ge_None|].
    apply safe_caller.
  - intros i Hi. apply Habs. rw lookup_app in Hi. by destruct (ts !! i).
  - unfold loops in *. by rw List.filter_app length_app /= Nat.add_0_r.
Qed.

Lemma initial_inv g l0 o s ts :
  (forall key, running g key = None) -> initial g l0 o (s, ts) ->
  inv s ts (fun _ => (MFree, None)).
Proof.
  intros Hg (cn & loop & Hn & Hc). cbn in Hn. injection Hn as <- <-. injection Hc as -> ->.
  split; [split|..]; cbn; try done.
  - intros l. rw elem_of_singleton. split; [by intros ->; left|]. by intros [[=]|[? ?]].
  - intros key n. by rw Hg.
  - intros i t Hi. destruct (0 <? keepalive o); [|done].
    apply list_lookup_singleton_Some in Hi as [_ <-]. apply safe_keepaliveRound.
  - by destruct (0 <? keepalive o).
Qed.

Lemma reaches_inv g l0 o c0 c :
  (forall key, running g key = None) -> initial g l0 o c0 -> reaches c0 c ->
  exists gh, inv c.1 c.2 gh.
Proof.
  intros Hg H0. induction 1 as [|[s ts] [s' ts'] _ [gh IH] Hs].
  - destruct c0. eexists. by eapply initial_inv.
  - destruct (step_inv _ _ _ _ _ IH Hs) as (gh' & Hinv & _). eauto.
Qed.

(** ** The theorems *)

(** C2: under every interleaving the connection behaves as a cell: a step leaves it as it is,
    replaces its client by the one of the next generation, or closes it; a closed cell never
    opens again. While the cell is open its client has not been closed. *)
Theorem conn_refines_cell g l0 o c0 c c' :
  (forall key, running g key = None) -> initial g l0 o c0 -> reaches c0 c -> step c c' ->
  abstract (s_conn c0.1) = COpen l0 1 /\
  cell_step (abstract (s_conn c.1)) (abstract (s_conn c'.1)) /\
  forall l n, abstract (s_conn c'.1) = COpen l n -> l ∈ s_live c'.1.
Proof.
  intros Hg H0 Hc Hs. destruct (reaches_inv _ _ _ _ _ Hg H0 Hc) as [gh Hinv].
  destruct c as [s ts], c' as [s' ts']. cbn in Hinv.
  destruct (step_inv _ _ _ _ _ Hinv Hs) as (gh' & Hinv' & Hcell). split; [|split; [done|]].
  - destruct H0 as (cn & loop & Hn & ->). cbn in Hn. by injection Hn as <- _.
  - intros l n Ha. pose proof (inv_core _ _ _ Hinv') as Hcore.
    apply (core_live _ _ Hcore). left. destruct (core_wf _ _ Hcore) as [Hcc _].
    cbn in Ha. unfold abstract in Ha. rw Hcc in Ha. by destruct (closer (s_conn s')); simplify_eq.
Qed.

(** C7: once all goroutines have ended, the only network connection that is open is the
    client of the connection, and none is after [Close]; this holds in every interleaving of
    operations, keepalive probes, reconnects that fail or come late, and [Close]. *)
Theorem conn_no_leak g l0 o c0 c :
  (forall key, running g key = None) -> initial g l0 o c0 -> reaches c0 c ->
  Forall (eq TEnd) c.2 ->
  (closed (s_conn c.1) = true -> s_live c.1 = ∅) /\
  (closed (s_conn c.1) = false -> exists l, client (s_conn c.1) = Some l /\ s_live c.1 = {[l]}).
Proof.
  intros Hg H0 Hc Hend. destruct (reaches_inv _ _ _ _ _ Hg H0 Hc) as [gh Hinv].
  pose proof (inv_core _ _ _ Hinv) as Hcore. destruct (core_wf _ _ Hcore) as [Hcc Hcl].
  assert (Hgh : forall i, (gh i).2 = None).
  { intros i. destruct (c.2 !! i) as [t|] eqn:Hi; [|by rw (inv_absent _ _ _ Hinv _ Hi)].
    pose proof (inv_threads _ _ _ Hinv _ _ Hi) as Ht.
    rw Forall_lookup in Hend. apply Hend in Hi as <-. by rw Ht. }
  split.
  - intros Hclosed. apply Hcl in Hclosed. apply set_eq. intros l.
    rw (core_live _ _ Hcore) Hclosed. split; [|set_solver]. by intros [?|[i Hi]]; [|rw Hgh in Hi].
  - intros Hopen. destruct (closer (s_conn c.1)) as [l|] eqn:Hl; [|by rw (proj2 Hcl) in Hopen].
    exists l. split; [done|]. apply set_eq. intros l'.
    rw (core_live _ _ Hcore) Hl elem_of_singleton. split; [|by intros ->; left].
    by intros [[= ->]|[i Hi]]; [|rw Hgh in Hi].
Qed.

Definition dialing (t : thread) : Prop :=
  match t with TCaller (Dial _) | TLoop (Dial _) => True | _ => False end.

(** At most one goroutine is dialing at any time, however many found the connection broken. *)
Theorem one_reconnect_at_a_time g l0 o c0 c i j t t' :
  (forall key, running g key = None) -> initial g l0 o c0 -> reaches c0 c ->
  c.2 !! i = Some t -> c.2 !! j = Some t' -> dialing t -> dialing t' -> i = j.
Proof.
  intros Hg H0 Hc Hi Hj Ht Ht'. destruct (reaches_inv _ _ _ _ _ Hg H0 Hc) as [gh Hinv].
  assert (Hd : forall i t, c.2 !! i = Some t -> dialing t ->
            exists key n, (gh i).1 = MChecked key n /\ key = gen (s_conn c.1)).
  { intros i1 t1 Hi1 Hd1. pose proof (inv_threads _ _ _ Hinv _ _ Hi1) as Hs.
    assert (exists key n, (gh i1).1 = MChecked key n) as (key & n & Hm).
    { destruct t1 as [p|p|]; [destruct p| destruct p|]; try done; cbn in Hs; apply Hs. }
    exists key, n. split; [done|]. pose proof (core_checked _ _ (inv_core _ _ _ Hinv) i1) as Hck.
    by rw Hm in Hck. }
  destruct (Hd _ _ Hi Ht) as (k & n & Hm & ->), (Hd _ _ Hj Ht') as (k' & n' & Hm' & ->).
  eapply (core_unique _ _ (inv_core _ _ _ Hinv)); [by rw Hm|by rw Hm'].
Qed.

(** ** Progress *)

(** A program that has not returned can move, or waits for an execution or the wait group. *)
Lemma cstep_progress {A} (p : cprog A) s :
  (exists a, p = Ret a) \/ (exists p' s', cstep p s p' s') \/
  (exists n k, p = Await n k /\ outcome (s_group s) n = None) \/
  (exists k, p = WgWait k /\ s_wg s <> 0%nat).
Proof.
  destruct p as [a|f k|key k|n k|key n r k|k|l k|k|k|k|k|k|l k|c k|sn k|sn k]; [by left; eauto|..];
    right.
  - left. by eexists _, _; constructor.
  - left. destruct (join key (s_group s)) as [ro g] eqn:E. by eexists _, _; constructor.
  - destruct (outcome (s_group s) n) as [r|] eqn:E; [|by right; left; eauto].
    left. by eexists _, _; constructor.
  - left. by eexists _, _; constructor.
  - left. eexists _, _. apply cs_dial_err with (e := errClosed).
  - left. eexists _, _. by apply cs_close with (e := None).
  - left. by eexists _, _; constructor.
  - destruct (decide (s_wg s = 0%nat)); [|by right; right; eauto].
    left. by eexists _, _; constructor.
  - left. eexists _, _. by apply cs_ctx with (e := None).
  - left. by eexists _, _; constructor.
  - left. eexists _, _. by apply cs_tick.
  - left. eexists _, _. by apply cs_probe with (ev := ProbeTimer).
  - left. eexists _, _. apply cs_call with (r := Ok 0).
  - left. eexists _, _. apply cs_select with (ev := WaitReply None).
  - left. eexists _, _. apply cs_output with (o := "") (e := "").
Qed.

(** Some goroutine can move. *)
Definition moves (s : shared) (ts : list thread) : Prop :=
  exists j u u' s', ts !! j = Some u /\ thread_step u s u' s'.

(** The goroutine that runs an execution is never blocked. *)
Lemma leader_moves s ts gh key n :
  inv s ts gh -> running (s_group s) key = Some n -> moves s ts.
Proof.
  intros Hinv Hr. pose proof (inv_core _ _ _ Hinv) as Hcore.
  destruct (core_leader _ _ Hcore _ _ Hr) as [i Hl].
  destruct (ts !! i) as [t|] eqn:Hi; [|by rw (inv_absent _ _ _ Hinv _ Hi) in Hl].
  pose proof (inv_threads _ _ _ Hinv _ _ Hi) as Hs. destruct (gh i) as [m own].
  destruct t as [p|p|]; [| |by injection Hs as -> ->]; cbn in Hs, Hl;
    (destruct (cstep_progress p s) as [[a ->]|[(p' & s' & Hp)|[(n' & k & -> & _)|(k & -> & _)]]];
     [by destruct Hs as [-> _]|eexists _, _, _, _; split; [done|by constructor]
     |by destruct Hs as [-> _]|by destruct Hs as (_ & -> & _)]).
Qed.

(** A goroutine that has not ended moves, or another one does, unless it waits in [Close]. *)
Lemma moves_or_waits {A} (bg : bool) (p : cprog A) (mk : cprog A -> thread) s ts gh i :
  inv s ts gh -> ts !! i = Some (mk p) -> safe bg idle (gh i).1 (gh i).2 p ->
  (forall p' s', cstep p s p' s' -> thread_step (mk p) s (mk p') s') ->
  (forall a, exists t' s', thread_step (mk (Ret a)) s t' s') ->
  moves s ts \/ (bg = false /\ s_wg s <> 0%nat).
Proof.
  intros Hinv Hi Hs Hmk Hret.
  destruct (cstep_progress p s) as [[a ->]|[(p' & s' & Hp)|[(n & k & -> & Ho)|(k & -> & Hw)]]].
  - destruct (Hret a) as (t' & s' & Ht). left. by exists i, (mk (Ret a)), t', s'.
  - left. exists i, (mk p), (mk p'), s'. auto.
  - left. destruct Hs as [Hm _].
    destruct (core_waits _ _ (inv_core _ _ _ Hinv) _ _ Hm) as [[r Hr]|[key Hr]]; [by rw Ho in Hr|].
    by eapply leader_moves.
  - right. by destruct Hs.
Qed.

Lemma loop_moves s ts gh i p :
  inv s ts gh -> ts !! i = Some (TLoop p) -> moves s ts.
Proof.
  intros Hinv Hi. pose proof (inv_threads _ _ _ Hinv _ _ Hi) as Hs.
  edestruct (moves_or_waits true p TLoop s ts gh i Hinv Hi Hs) as [H|[H _]];
    [intros p' s'; apply th_loop|intros [|]; eexists _, _; [apply th_again|apply th_stop]|done|done].
Qed.

End System.

(** ** Runs of the system *)
Definition noFlights : memGroup := mkGroup (fun _ => None) (fun _ => None) 0.
Lemma no_flights key : running noFlights key = None.
Proof. done. Qed.

Definition start : shared (G := memGroup) * list thread :=
  (mkShared (mkConn (Some 1) (Some 1) 1 false) noFlights false 0 {[1]}, []).
Notation sreaches := (reaches "r" (10 * Second) 1 start).
Notation sstep := (step "r" (10 * Second) 1).

Lemma start_initial : initial "r" (10 * Second) noFlights 1 defaultOptions start.
Proof. by exists (mkConn (Some 1) (Some 1) 1 false), None. Qed.

Lemma then_thread i s ts t t' s' :
  sreaches (s, ts) -> ts !! i = Some t -> thread_step "r" (10 * Second) t s t' s' ->
  sreaches (s', <[i := t']> ts).
Proof. intros H Hi Ht. eapply reaches_step; [done|by eapply st_thread]. Qed.

Tactic Notation "adv" hyp(H) uconstr(r) :=
  eapply (then_thread 0) in H; [|reflexivity|eapply th_caller; eapply r]; cbn in H.

Lemma closed_run : exists s, sreaches (s, [TEnd]) /\ closed (s_conn s) = true.
Proof.
  assert (H : sreaches start) by constructor.
  eapply reaches_step in H; [|apply (st_start _ _ _ [UClose])]. cbn in H.
  adv H cs_lock. adv H cs_cancel. adv H cs_wgwait; [|done]. adv H (cs_close _ _ _ None).
  eapply (then_thread 0) in H; [|reflexivity|apply th_end]. by eexists.
Qed.

(** One caller whose session does not open is reconnecting. *)
Lemma dialing_run : exists s k, sreaches (s, [TCaller (Dial k)]).
Proof.
  assert (H : sreaches start) by constructor.
  eapply reaches_step in H; [|apply (st_start _ _ _ [UExec "ls"])]. cbn in H.
  adv H cs_lock. adv H (cs_ctx _ _ None). adv H (cs_call _ _ _ (Err io_EOF)).
  adv H (cs_ctx _ _ None). adv H cs_join; [|reflexivity]. adv H cs_lock. by eexists _, _.
Qed.

Lemma conn_refines_cell_witness : exists s s' k,
  sstep (s, [TCaller (Dial k)]) s' /\
  cell_step (abstract (s_conn s)) (abstract (s_conn s'.1)).
Proof.
  destruct dialing_run as (s & k & H).
  assert (Hs : sstep (s, [TCaller (Dial k)]) (s, [TCaller (k (Err io_EOF))])).
  { apply (st_thread _ _ _ 0 (TCaller (Dial k)) s (TCaller (k (Err io_EOF)))); [done|].
    apply th_caller, cs_dial_err. }
  exists s, (s, [TCaller (k (Err io_EOF))]), k. split; [exact Hs|].
  apply (conn_refines_cell "r" (10 * Second) 1 noFlights 1 defaultOptions start _ _
           no_flights start_initial H Hs).
Defined.

Lemma conn_no_leak_witness : exists s, sreaches (s, [TEnd]) /\ s_live s = ∅.
Proof.
  destruct closed_run as (s & H & Hc). exists s. split; [done|].
  apply (conn_no_leak "r" (10 * Second) 1 noFlights 1 defaultOptions start _
           no_flights start_initial H); [by repeat constructor|done].
Defined.

Lemma one_reconnect_witness : exists s k, sreaches (s, [TCaller (Dial k)]) /\ 0%nat = 0%nat.
Proof.
  destruct dialing_run as (s & k & H). exists s, k. split; [done|].
  by apply (one_reconnect_at_a_time "r" (10 * Second) 1 noFlights 1 defaultOptions start _ 0 0
    (TCaller (Dial k)) (TCaller (Dial k)) no_flights start_initial H).
Defined.

