(* ===== verification/SshExec.v ===== *)
(** What one caller sees of [withConn] and [Exec] ([conn.go], [exec.go]): the calls it makes
    on clients and sessions, whatever the other goroutines, the peer and the context do. *)
From S2P Require Import Prelude Errors Retry SshConn.

Local Open Scope Z_scope.
Local Open Scope go_scope.

(** A call with its answer. *)
Notation event := (rcall * result Z)%type.

(** The calls of one run of a program, with every answer possible: what the program reads of
    the shared state, receives from others or hears from the peer is arbitrary. *)
Inductive path {A} : cprog A -> list event -> A -> Prop :=
| path_ret a : path (Ret a) [] a
| path_lock f k c tr a : path (k c) tr a -> path (Lock f k) tr a
| path_join key k ro tr a : path (k ro) tr a -> path (Join key k) tr a
| path_await n k r tr a : path (k r) tr a -> path (Await n k) tr a
| path_finish key n r k tr a : path k tr a -> path (Finish key n r k) tr a
| path_dial k r tr a : path (k r) tr a -> path (Dial k) tr a
| path_close l k e tr a : path (k e) tr a -> path (CloseLink l k) tr a
| path_cancel k tr a : path k tr a -> path (LifeCancel k) tr a
| path_wg k tr a : path k tr a -> path (WgWait k) tr a
| path_ctx k e tr a : path (k e) tr a -> path (CtxErr k) tr a
| path_life k e tr a : path (k e) tr a -> path (LifeErr k) tr a
| path_tick k b tr a : path (k b) tr a -> path (Tick k) tr a
| path_probe l k ev tr a : path (k ev) tr a -> path (Probe l k) tr a
| path_call c k r tr a : path (k r) tr a -> path (Call c k) ((c, r) :: tr) a
| path_select s k ev tr a : path (k ev) tr a -> path (SelectWait s k) tr a
| path_output s k o e tr a : path (k o e) tr a -> path (Output s k) tr a.

(** Inversion of a path at the head of its program. *)
Ltac pinv H := inversion H; subst; clear H.

Lemma path_ret_inv {A} (a : A) tr b : path (Ret a) tr b -> tr = [] /\ b = a.
Proof. intros Hp. by pinv Hp. Qed.
Lemma path_ctx_inv {A} (k : option error -> cprog A) tr a :
  path (CtxErr k) tr a -> exists e, path (k e) tr a.
Proof. intros Hp. pinv Hp. eauto. Qed.
Lemma path_call_inv {A} c (k : result Z -> cprog A) tr a :
  path (Call c k) tr a -> exists r tr', path (k r) tr' a /\ tr = (c, r) :: tr'.
Proof. intros Hp. pinv Hp. eauto. Qed.
Lemma path_select_inv {A} s (k : waited -> cprog A) tr a :
  path (SelectWait s k) tr a -> exists ev, path (k ev) tr a.
Proof. intros Hp. pinv Hp. eauto. Qed.
Lemma path_output_inv {A} s (k : string -> string -> cprog A) tr a :
  path (Output s k) tr a -> exists o e, path (k o e) tr a.
Proof. intros Hp. pinv Hp. eauto. Qed.

Lemma path_bind {A B} (p : cprog A) (f : A -> cprog B) tr b :
  path (cprog_bind p f) tr b ->
  exists tr1 a tr2, path p tr1 a /\ path (f a) tr2 b /\ tr = tr1 ++ tr2.
Proof.
  revert tr. induction p; cbn; intros tr Hp;
    [eexists [], _, _; split; [constructor|]; by split|..];
    pinv Hp; match goal with IH : context [_ -> exists _, _], H : path _ _ _ |- _ =>
      apply IH in H as (tr1 & a' & tr2 & H1 & H2 & ->) end;
    eexists _, a', tr2; (split; [by econstructor|]); by split.
Qed.

(** Programs that make no call on clients or sessions. *)
Fixpoint silent {A} (p : cprog A) : Prop :=
  match p with
  | Ret _ => True
  | Lock _ k => forall c, silent (k c)
  | Join _ k => forall ro, silent (k ro)
  | Await _ k => forall r, silent (k r)
  | Finish _ _ _ k | LifeCancel k | WgWait k => silent k
  | Dial k => forall r, silent (k r)
  | CloseLink _ k | CtxErr k | LifeErr k => forall e, silent (k e)
  | Tick k => forall b, silent (k b)
  | Probe _ k => forall ev, silent (k ev)
  | Call _ _ => False
  | SelectWait _ k => forall ev, silent (k ev)
  | Output _ k => forall o e, silent (k o e)
  end.

Lemma silent_bind {A B} (p : cprog A) (f : A -> cprog B) :
  silent p -> (forall a, silent (f a)) -> silent (cprog_bind p f).
Proof. intros Hp Hf. induction p; cbn in *; auto. Qed.

Lemma silent_path {A} (p : cprog A) tr a : silent p -> path p tr a -> tr = [].
Proof. intros Hs. induction 1; cbn in Hs; eauto; done. Qed.

Section Exec.
Context (describe : string).

Lemma refresh_silent g : silent (refresh describe g).
Proof.
  intros [n|n]; [|by intros r]. apply silent_bind; [|done].
  intros c. destruct (closed c); [done|]. destruct (negb _); [done|].
  intros [l|e]; [|done]. intros c'. destruct (closed c'); [done|]. by destruct (closer c').
Qed.

(** ** [withConn] *)
Section WithConn.
Context {T : Type} (op : Z -> cprog (result T)).

(** One attempt: the client, the calls made on it, and the result. *)
Definition attempt : Type := Z * list event * result T.

Definition is_attempt (a : attempt) : Prop := path (op a.1.1) a.1.2 a.2.

Definition broken (a : attempt) : Prop := exists e, a.2 = Err e /\ isTransient (Some e) = true.

(** All attempts but the last one failed with a transient error. *)
Fixpoint retried (atts : list attempt) : Prop :=
  match atts with
  | [] | [_] => True
  | a :: atts => broken a /\ retried atts
  end.

(** [r] is the result of the last attempt if that is a value, and an error otherwise. *)
Definition outcome_of (atts : list attempt) (r : result T) : Prop :=
  forall x, r = Ok x <-> exists a, last atts = Some a /\ a.2 = Ok x.

(** The calls [tr] and the result [r] are those of at most [n] attempts. *)
Definition ran (n : nat) (tr : list event) (r : result T) : Prop :=
  exists atts, (length atts <= n)%nat /\ tr = concat (map (fun a => a.1.2) atts) /\
    Forall is_attempt atts /\ retried atts /\ outcome_of atts r.

Lemma ran_none n e : ran n [] (Err e).
Proof. exists []. repeat split; [cbn; lia|done..|]. by intros (a & Ha & _). Qed.

Lemma ran_one n l tr x r :
  path (op l) tr x -> (forall y, r = Ok y <-> x = Ok y) -> ran (S n) tr r.
Proof.
  intros Hp Hr. exists [(l, tr, x)]. repeat split; cbn; [lia|by rw app_nil_r|by repeat constructor|..].
  - intros Hy%Hr. eauto.
  - intros (a & [= <-] & Ha). by apply Hr.
Qed.

Lemma ran_more n l tr e tr' r :
  path (op l) tr (Err e) -> isTransient (Some e) = true -> ran n tr' r -> ran (S n) (tr ++ tr') r.
Proof.
  intros Hp He (atts & Hn & -> & Hall & Hret & Hout).
  exists ((l, tr, Err e) :: atts). split; [cbn; lia|]. split; [done|]. split; [by constructor|].
  destruct atts as [|a atts].
  - split; [done|]. intros x. rw (Hout x). split; [by intros (? & ? & _)|].
    by intros (? & [= <-] & ?).
  - split; [split; [by exists e|done]|]. exact Hout.
Qed.

Lemma withConn_loop_ran left k cl g tr r :
  path (withConn_loop describe op left k cl g) tr r -> ran (S left) tr r.
Proof.
  revert k cl g tr. induction left as [|left IH]; intros k cl g tr Hp;
    cbn [withConn_loop] in Hp; apply path_ctx_inv in Hp as [[err|] Hp];
    try (by apply path_ret_inv in Hp as [-> ->]; apply ran_none);
    (destruct cl as [l|]; [|by apply path_ret_inv in Hp as [-> ->]; apply ran_none]);
    apply path_bind in Hp as (tr1 & [y|err] & tr2 & H1 & Hp & ->);
    try (by apply path_ret_inv in Hp as [-> ->]; rw app_nil_r; eapply ran_one);
    apply path_ctx_inv in Hp as [[ce|] Hp];
    try (by apply path_ret_inv in Hp as [-> ->]; rw app_nil_r; eapply ran_one);
    destruct (isTransient (Some err)) eqn:Ht; cbn [negb] in Hp;
    try (by apply path_ret_inv in Hp as [-> ->]; rw app_nil_r; eapply ran_one).
  eapply ran_more; [done..|]. apply path_bind in Hp as (tr3 & h & tr4 & H3 & Hp & ->).
  apply (silent_path _ _ _ (refresh_silent _)) in H3 as ->. cbn [app].
  destruct h as [[cl' g']|e]; [by eapply IH|].
  apply path_ret_inv in Hp as [-> ->]. apply ran_none.
Qed.

Lemma withConn_ran n tr r :
  path (withConn describe n op) tr r -> ran (S (Z.to_nat n)) tr r.
Proof. intros Hp. pinv Hp. by eapply withConn_loop_ran. Qed.

(** [withConn] calls its operation at most [retries]+1 times, again only after a transient
    error, and returns a value exactly when the last call did; on a closed connection or a
    done context it makes no call. *)
Theorem withConn_attempts n tr r :
  path (withConn describe n op) tr r ->
  exists atts, (length atts <= S (Z.to_nat n))%nat /\ tr = concat (map (fun a => a.1.2) atts) /\
    Forall is_attempt atts /\ retried atts /\ outcome_of atts r.
Proof. apply withConn_ran. Qed.
End WithConn.

(** ** [Exec] *)
Definition is_start (ev : event) : bool := if ev.1 is SessionStart _ _ then true else false.
Definition is_new (ev : event) : bool := if ev.1 is NewSession _ then true else false.

Lemma openSession_path l tr r :
  path (openSession l) tr r -> exists x, tr = [(NewSession l, x)] /\
    match r with Ok s => x = Ok s | Err _ => exists e, x = Err e end.
Proof.
  intros Hp. apply path_call_inv in Hp as (x & tr' & Hp & ->).
  destruct x as [s|e]; apply path_ret_inv in Hp as [-> ->]; eauto.
Qed.

(** The calls of opening a session: attempts to open one, and a session only from the last. *)
Lemma open_calls n tr r :
  ran openSession n tr r ->
  (length tr <= n)%nat /\ Forall (fun ev => is_new ev = true) tr /\
  (forall ev s, ev ∈ tr -> ev.2 = Ok s -> r = Ok s) /\
  (forall s, r = Ok s -> exists l, (NewSession l, Ok s) ∈ tr).
Proof.
  intros (atts & Hn & -> & Hall & Hret & Hout). revert n Hn Hout.
  induction atts as [|[[l tr] x] atts IH]; intros n Hn Hout.
  - cbn. repeat split; [lia|done|..]; [by intros ev s []%not_elem_of_nil|].
    intros s Hs%Hout. by destruct Hs as (? & ? & _).
  - apply Forall_cons in Hall as [Hx Hall]. apply openSession_path in Hx as (y & Htr & Hy).
    cbn in Htr, Hy. subst tr. destruct n as [|n]; [cbn in Hn; lia|]. cbn in Hn.
    destruct atts as [|a atts].
    + cbn. repeat split; [lia|by repeat constructor|..].
      * intros ev s ->%list_elem_of_singleton Hs. cbn in Hs. subst y.
        apply Hout. eexists. split; [done|]. cbn. by destruct x; [congruence|destruct Hy].
      * intros s Hs%Hout. destruct Hs as (a & [= <-] & Ha). cbn in Ha. subst x y.
        exists l. by left.
    + destruct Hret as [[e [He Ht]] Hret].
      destruct (IH Hall Hret n) as (H1 & H2 & H3 & H4); [lia|exact Hout|].
      cbn in He. subst x. destruct Hy as [e' ->]. repeat split.
      * cbn [map concat] in *. rw length_app. cbn in *. lia.
      * by constructor.
      * intros ev s [->|Hin]%elem_of_cons Hs; [done|by eapply H3].
      * intros s Hs. destruct (H4 s Hs) as [l' Hl']. exists l'. by right.
Qed.

(** What follows the start of the command: signals and the closing of the session. *)
Definition is_cleanup (s : Z) (ev : event) : Prop :=
  ev.1 = SessionSignal s \/ ev.1 = SessionClose s.

Lemma runWithContext_path s cmd tr err :
  path (runWithContext s cmd) tr err ->
  exists r tail, tr = (SessionStart s cmd, r) :: tail /\ Forall (is_cleanup s) tail /\
    (err = None -> exists x, r = Ok x).
Proof.
  intros Hp. apply path_call_inv in Hp as (r & tail & Hp & ->). exists r, tail. split; [done|].
  destruct r as [x|e]; [|by apply path_ret_inv in Hp as [-> ->]].
  apply path_select_inv in Hp as [[ce|[e|]] Hp]; [|apply path_ret_inv in Hp as [-> ->]; eauto..].
  apply path_call_inv in Hp as (r1 & t1 & Hp & ->).
  apply path_call_inv in Hp as (r2 & t2 & Hp & ->). apply path_ret_inv in Hp as [-> ->].
  split; [|done]. by repeat constructor.
Qed.

(** C14: a command is started at most once: [Exec] opens sessions until one opens, at most
    [retries]+1 times, starts the command only on that session and only once, whatever fails
    afterwards, and closes the session; without a session nothing was started and there is an
    error; without an error the command was started and its exit code is 0. *)
Theorem Exec_once n cmd tr res err :
  path (Exec describe n cmd) tr (res, err) ->
  exists opens rest, tr = opens ++ rest /\
    Forall (fun ev => is_new ev = true) opens /\ (length opens <= S (Z.to_nat n))%nat /\
    ((rest = [] /\ err <> None /\ forall ev s, ev ∈ opens -> ev.2 <> Ok s) \/
     exists l s r tail c, (NewSession l, Ok s) ∈ opens /\
       (forall ev s', ev ∈ opens -> ev.2 = Ok s' -> s' = s) /\
       rest = (SessionStart s cmd, r) :: tail ++ [(SessionClose s, c)] /\
       Forall (is_cleanup s) tail /\
       (err = None -> ExitCode res = 0 /\ exists x, r = Ok x)).
Proof.
  intros Hp. apply path_bind in Hp as (opens & opened & rest & H1 & Hp & ->).
  apply withConn_ran in H1. apply open_calls in H1 as (Hlen & Hnew & Hok & Hopen).
  exists opens, rest. split; [done|]. split; [done|]. split; [done|].
  destruct opened as [s|e].
  - right. destruct (Hopen s eq_refl) as [l Hl].
    apply path_bind in Hp as (tr1 & rerr & tr2 & H2 & Hp & ->).
    apply runWithContext_path in H2 as (r & tail & -> & Htail & Hr).
    apply path_output_inv in Hp as (o & e & Hp).
    apply path_call_inv in Hp as (c & tr3 & Hp & ->). apply path_ret_inv in Hp as [-> Heq].
    injection Heq as -> ->. exists l, s, r, tail, c. split; [done|].
    split; [intros ev s' Hin Hs; by injection (Hok _ _ Hin Hs)|].
    split; [done|]. split; [done|]. intros ->. eauto.
  - left. apply path_ret_inv in Hp as [-> Heq]. injection Heq as -> ->. split; [done|].
    split; [done|]. intros ev s Hin Hs. by apply (Hok _ _ Hin) in Hs.
Qed.
End Exec.

(** ** A run that heals the connection once *)
Definition healed_run : list event :=
  [(NewSession 1, Err io_EOF); (NewSession 2, Ok 7); (SessionStart 7 "ls", Ok 0);
   (SessionClose 7, Ok 0)].

Lemma healed_open tr rest :
  tr = [(NewSession 1, Err io_EOF); (NewSession 2, Ok 7)] ->
  rest = Ok 7 -> path (withConn "r" 1 openSession) tr rest.
Proof.
  intros -> ->. eapply (path_lock _ _ (mkConn (Some 1) (Some 1) 1 false)).
  eapply (path_ctx _ None). eapply (path_call _ _ (Err io_EOF)). eapply (path_ctx _ None).
  eapply (path_join _ _ (Wait 0)). eapply (path_await _ _ (Ok (Some 2, 2))).
  eapply (path_ctx _ None). eapply (path_call _ _ (Ok 7)). apply path_ret.
Qed.

Lemma withConn_attempts_witness : exists atts : list (attempt (T := Z)),
  (length atts <= 2)%nat /\ retried atts /\ outcome_of atts (Ok 7).
Proof.
  destruct (withConn_attempts "r" openSession 1 _ _ (healed_open _ _ eq_refl eq_refl))
    as (atts & Hn & _ & _ & Hr & Ho).
  by exists atts.
Defined.

Lemma healed_run_path :
  path (Exec "r" 1 "ls") healed_run (mkExec "out" "" 0, None).
Proof.
  eapply (path_lock _ _ (mkConn (Some 1) (Some 1) 1 false)).
  eapply (path_ctx _ None). eapply (path_call _ _ (Err io_EOF)). eapply (path_ctx _ None).
  eapply (path_join _ _ (Wait 0)). eapply (path_await _ _ (Ok (Some 2, 2))).
  eapply (path_ctx _ None). eapply (path_call _ _ (Ok 7)). eapply (path_call _ _ (Ok 0)).
  eapply (path_select _ _ (WaitReply None)). eapply (path_output _ _ "out" "").
  eapply (path_call _ _ (Ok 0)). apply path_ret.
Qed.

Lemma Exec_once_witness : exists opens rest, healed_run = opens ++ rest /\
  (length opens <= 2)%nat /\ rest <> [].
Proof.
  destruct (Exec_once "r" 1 "ls" _ _ _ healed_run_path)
    as (opens & rest & Heq & _ & Hn & [(_ & Hne & _)|(l & s & r & tail & c & _ & _ & -> & _)]);
    [done|]. by exists opens, ((SessionStart s "ls", r) :: tail ++ [(SessionClose s, c)]).
Defined.
