(* ===== verification/Tunnel.v ===== *)
(** The tunnel ([src/internal/infrastructure/ssh/v2/tunnel.go]): the accept loop, one handler
    per connection with its copying goroutines, the abandoned dials and the callers of [Close],
    as a machine whose actions are the atomic steps of the code. An action names the goroutine
    that moves and what its environment answers; [act] runs it. *)
From S2P Require Import Prelude Errors Retry SshConn.

Local Open Scope Z_scope.
Local Open Scope go_scope.

(** ** Goroutines *)

(** [serve]: at the head of the loop, in [Accept], with what it returned, in the deferred
    calls. *)
Inductive serving :=
| SvTop
| SvAccept
| SvError (timeout : bool)
| SvAccepted (local : Z)
| SvReturn
| SvDone
| SvEnd.

(** [handle]: in [withConn], in the [select] of [dialChannel] on the dial [d], in the body
    around the copying, in the deferred calls. *)
Inductive handling :=
| HFwd (p : cprog (result Z))
| HSelect (d : nat) (k : result Z -> cprog (result Z))
| HStart
| HFirst
| HCloseLocal
| HCloseRemote
| HSecond
| HStop
| HRemote
| HLocal
| HDone
| HEnd.

(** The goroutine that closes both connections when the context is done. *)
Inductive watching := WSelect | WRemote | WEnd.

(** A handler with the goroutines it starts; [tokens] is what is in the channel [done]. *)
Record handler := mkHandler {
  h_pc : handling;
  h_local : Z;
  h_remote : Z;
  toRemote : bool;
  toLocal : bool;
  tokens : nat;
  watcher : watching;
  stopped : bool
}.

(** The goroutine of [dialChannel]: in [client.Dial], or done with its result in the channel;
    [abandoned] once the caller gave up and another goroutine waits for the result. *)
Inductive dialing :=
| DRun (abandoned : bool)
| DSent (r : result Z) (abandoned : bool)
| DGone.

(** A caller of [Close]. *)
Inductive closing := CIdle | CEnter | CCancel | CListener | CWait (e : option error) | CRet (e : option error).

Inductive once := OFree | OBusy | ODone (e : option error).

(** A tunnel with everything that runs for it; [sockets] are the connections that are open,
    [ids] the next identity. *)
Record tunnel := mkTunnel {
  ctxDone : bool;
  lnOpen : bool;
  lnCloseErr : option (option error);
  closeOnce : once;
  wg : Z;
  sockets : gset Z;
  ids : Z;
  serve_pc : serving;
  handlers : list handler;
  dials : list dialing;
  closers : list closing
}.

(** ** Opening *)

Inductive netAddr := TCPAddr (port : Z) | OtherAddr (type : string).

(** [OpenTunnel]: what it returns, the local port and the running tunnel if any; [n] goroutines
    may call [Close]. A listener with another address is closed before the error. *)
Definition OpenTunnel (ctxErr : option error) (listened : result netAddr) (n : nat)
    : result (Z * tunnel) :=
  match ctxErr with
  | Some err => Err (ErrorfW "tunnel setup: " err "")
  | None =>
      match listened with
      | Err err => Err (ErrorfW "listen on local port: " err "")
      | Ok (OtherAddr t) => Err (Errorf ("unexpected listener address type " +:+ t))
      | Ok (TCPAddr port) =>
          Ok (port, mkTunnel false true None OFree 1 ∅ 0 SvTop [] [] (repeat CIdle n))
      end
  end.

Definition LocalAddr (port : Z) : string := "127.0.0.1:" +:+ pretty port.

(** ** Updates *)

Definition set_serve (pc : serving) (t : tunnel) : tunnel :=
  mkTunnel (ctxDone t) (lnOpen t) (lnCloseErr t) (closeOnce t) (wg t) (sockets t) (ids t) pc
    (handlers t) (dials t) (closers t).
Definition set_handlers (l : list handler) (t : tunnel) : tunnel :=
  mkTunnel (ctxDone t) (lnOpen t) (lnCloseErr t) (closeOnce t) (wg t) (sockets t) (ids t)
    (serve_pc t) l (dials t) (closers t).
Definition set_dials (l : list dialing) (t : tunnel) : tunnel :=
  mkTunnel (ctxDone t) (lnOpen t) (lnCloseErr t) (closeOnce t) (wg t) (sockets t) (ids t)
    (serve_pc t) (handlers t) l (closers t).
Definition set_closers (l : list closing) (t : tunnel) : tunnel :=
  mkTunnel (ctxDone t) (lnOpen t) (lnCloseErr t) (closeOnce t) (wg t) (sockets t) (ids t)
    (serve_pc t) (handlers t) (dials t) l.
Definition set_once (o : once) (t : tunnel) : tunnel :=
  mkTunnel (ctxDone t) (lnOpen t) (lnCloseErr t) o (wg t) (sockets t) (ids t)
    (serve_pc t) (handlers t) (dials t) (closers t).
Definition cancel (t : tunnel) : tunnel :=
  mkTunnel true (lnOpen t) (lnCloseErr t) (closeOnce t) (wg t) (sockets t) (ids t)
    (serve_pc t) (handlers t) (dials t) (closers t).
Definition wg_add (n : Z) (t : tunnel) : tunnel :=
  mkTunnel (ctxDone t) (lnOpen t) (lnCloseErr t) (closeOnce t) (wg t + n) (sockets t) (ids t)
    (serve_pc t) (handlers t) (dials t) (closers t).
Definition close_socket (c : Z) (t : tunnel) : tunnel :=
  mkTunnel (ctxDone t) (lnOpen t) (lnCloseErr t) (closeOnce t) (wg t) (sockets t ∖ {[c]}) (ids t)
    (serve_pc t) (handlers t) (dials t) (closers t).
(** A new connection, with the identity [ids t]. *)
Definition open_socket (t : tunnel) : tunnel :=
  mkTunnel (ctxDone t) (lnOpen t) (lnCloseErr t) (closeOnce t) (wg t) ({[ids t]} ∪ sockets t)
    (ids t + 1) (serve_pc t) (handlers t) (dials t) (closers t).

(** [closeListener]: [e] is what [listener.Close] returns the first time. *)
Definition closeListener (e : option error) (t : tunnel) : tunnel :=
  match lnCloseErr t with
  | Some _ => t
  | None => mkTunnel (ctxDone t) false (Some e) (closeOnce t) (wg t) (sockets t) (ids t)
              (serve_pc t) (handlers t) (dials t) (closers t)
  end.

(** ** Steps *)

(** What [Accept] returns; a timeout comes from [SetDeadline]. *)
Inductive accepted := AccConn | AccTimeout | AccError.

(** Answers to the actions of [withConn] that concern the shared connection. *)
Inductive reply :=
| RConn (c : conn) | RRole (r : role) | RHealed (r : healed) | RLink (r : result link)
| RErr (e : option error) | RBool (b : bool) | RProbed (p : probed) | RRes (r : result Z)
| RWaited (w : waited) | ROut (o e : string) | RUnit.

Definition answer {A} (p : cprog A) (r : reply) : option (cprog A) :=
  match p, r with
  | Lock _ k, RConn c => Some (k c)
  | Join _ k, RRole r => Some (k r)
  | Await _ k, RHealed r => Some (k r)
  | Finish _ _ _ k, RUnit => Some k
  | Dial k, RLink r => Some (k r)
  | CloseLink _ k, RErr e => Some (k e)
  | LifeCancel k, RUnit => Some k
  | WgWait k, RUnit => Some k
  | LifeErr k, RErr e => Some (k e)
  | Tick k, RBool b => Some (k b)
  | Probe _ k, RProbed p => Some (k p)
  | SelectWait _ k, RWaited w => Some (k w)
  | Output _ k, ROut o e => Some (k o e)
  | _, _ => None
  end.

(** The context error of a done context. *)
Definition canceled : error := Leaf (KSentinel "context.Canceled" None) "context canceled".
Definition ctx_Err (t : tunnel) : option error := if ctxDone t then Some canceled else None.

Section Machine.
(** [t.RemotePort], the retries of the client and the description of its route. *)
Context (describe : string) (nretries remotePort : Z).

Definition new_handler (local : Z) : handler :=
  mkHandler (HFwd (forward describe nretries remotePort)) local 0 false false 0 WEnd false.

(** [e] is what [listener.Close] returns. *)
Definition serve_step (a : accepted) (e : option error) (t : tunnel) : option tunnel :=
  match serve_pc t with
  | SvTop => Some (set_serve (if ctxDone t then SvReturn else SvAccept) t)
  | SvAccept =>
      match a with
      | AccConn => if lnOpen t then Some (set_serve (SvAccepted (ids t)) (open_socket t)) else None
      | AccTimeout => if lnOpen t then Some (set_serve (SvError true) t) else None
      | AccError => Some (set_serve (SvError false) t)
      end
  | SvError timeout =>
      Some (set_serve (if ctxDone t then SvReturn else if timeout then SvTop else SvReturn) t)
  | SvAccepted local =>
      Some (set_serve SvTop (set_handlers (handlers t ++ [new_handler local]) (wg_add 1 t)))
  | SvReturn => Some (set_serve SvDone (closeListener e t))
  | SvDone => Some (set_serve SvEnd (wg_add (-1) t))
  | SvEnd => None
  end.

Definition set_pc (pc : handling) (h : handler) : handler :=
  mkHandler pc (h_local h) (h_remote h) (toRemote h) (toLocal h) (tokens h) (watcher h) (stopped h).

Definition put (i : nat) (h : handler) (t : tunnel) : tunnel :=
  set_handlers (<[i := h]> (handlers t)) t.

(** One step of [handle] itself; [r] answers what it asks of the shared connection. *)
Definition handle_step (r : reply) (i : nat) (h : handler) (t : tunnel) : option tunnel :=
  match h_pc h with
  | HFwd (Ret (Err _)) => Some (put i (set_pc HLocal h) t)
  | HFwd (Ret (Ok c)) =>
      Some (put i (mkHandler HStart (h_local h) c (toRemote h) (toLocal h) (tokens h) (watcher h)
                     (stopped h)) t)
  | HFwd (CtxErr k) => Some (put i (set_pc (HFwd (k (ctx_Err t))) h) t)
  | HFwd (Call (DialTCP _ _) k) =>
      Some (put i (set_pc (HSelect (length (dials t)) k) h) (set_dials (dials t ++ [DRun false]) t))
  | HFwd p => p' ← answer p r; Some (put i (set_pc (HFwd p') h) t)
  | HSelect d k =>
      match r with
      | RUnit =>
          (* ctx.Done(): the result is left to another goroutine *)
          if ctxDone t then
            st ← dials t !! d;
            Some (put i (set_pc (HFwd (k (Err canceled))) h)
              (set_dials (<[d := match st with
                                 | DRun _ => DRun true
                                 | DSent r _ => DSent r true
                                 | DGone => DGone
                                 end]> (dials t)) t))
          else None
      | _ =>
          match dials t !! d with
          | Some (DSent res _) =>
              Some (put i (set_pc (HFwd (k res)) h) (set_dials (<[d := DGone]> (dials t)) t))
          | _ => None
          end
      end
  | HStart => Some (put i (mkHandler HFirst (h_local h) (h_remote h) true true 0 WSelect false) t)
  | HFirst | HSecond =>
      match tokens h with
      | O => None
      | S n => Some (put i (mkHandler (match h_pc h with HFirst => HCloseLocal | _ => HStop end)
                              (h_local h) (h_remote h) (toRemote h) (toLocal h) n (watcher h)
                              (stopped h)) t)
      end
  | HCloseLocal => Some (put i (set_pc HCloseRemote h) (close_socket (h_local h) t))
  | HCloseRemote => Some (put i (set_pc HSecond h) (close_socket (h_remote h) t))
  | HStop => Some (put i (mkHandler HRemote (h_local h) (h_remote h) (toRemote h) (toLocal h)
                            (tokens h) (watcher h) true) t)
  | HRemote => Some (put i (set_pc HLocal h) (close_socket (h_remote h) t))
  | HLocal => Some (put i (set_pc HDone h) (close_socket (h_local h) t))
  | HDone => Some (put i (set_pc HEnd h) (wg_add (-1) t))
  | HEnd => None
  end.

(** One of the two [io.Copy] ends: at the end of its input, on an error, on a closed connection. *)
Definition copy_step (remoteward : bool) (i : nat) (h : handler) (t : tunnel) : option tunnel :=
  if (if remoteward then toRemote h else toLocal h) then
    Some (put i (mkHandler (h_pc h) (h_local h) (h_remote h) (if remoteward then false else toRemote h)
                   (if remoteward then toLocal h else false) (S (tokens h)) (watcher h) (stopped h)) t)
  else None.

Definition set_watcher (w : watching) (h : handler) : handler :=
  mkHandler (h_pc h) (h_local h) (h_remote h) (toRemote h) (toLocal h) (tokens h) w (stopped h).

(** The watcher; of two ready cases its [select] takes either, [done] says which. *)
Definition watch_step (done : bool) (i : nat) (h : handler) (t : tunnel) : option tunnel :=
  match watcher h with
  | WSelect =>
      if done then
        if ctxDone t then Some (put i (set_watcher WRemote h) (close_socket (h_local h) t)) else None
      else if stopped h then Some (put i (set_watcher WEnd h) t) else None
  | WRemote => Some (put i (set_watcher WEnd h) (close_socket (h_remote h) t))
  | WEnd => None
  end.

(** [client.Dial] returns, with a new connection or an error. *)
Definition dial_step (e : option error) (d : nat) (t : tunnel) : option tunnel :=
  match dials t !! d with
  | Some (DRun a) =>
      Some match e with
           | None => set_dials (<[d := DSent (Ok (ids t)) a]> (dials t)) (open_socket t)
           | Some e => set_dials (<[d := DSent (Err e) a]> (dials t)) t
           end
  | _ => None
  end.

(** The goroutine that waits for an abandoned dial. *)
Definition reap_step (d : nat) (t : tunnel) : option tunnel :=
  match dials t !! d with
  | Some (DSent r true) =>
      Some (set_dials (<[d := DGone]> (dials t))
              (match r with Ok c => close_socket c t | Err _ => t end))
  | _ => None
  end.

(** [Close], by the [j]th of its callers; [e] is what [listener.Close] returns. *)
Definition close_step (e : option error) (j : nat) (t : tunnel) : option tunnel :=
  let go c t := Some (set_closers (<[j := c]> (closers t)) t) in
  match closers t !! j with
  | Some CIdle => go CEnter t
  | Some CEnter =>
      match closeOnce t with
      | OFree => go CCancel (set_once OBusy t)
      | OBusy => None
      | ODone err => go (CRet err) t
      end
  | Some CCancel => go CListener (cancel t)
  | Some CListener =>
      let t := closeListener e t in
      go (CWait (match lnCloseErr t with Some err => err | None => None end)) t
  | Some (CWait err) => if wg t =? 0 then go (CRet err) (set_once (ODone err) t) else None
  | Some (CRet _) | None => None
  end.

(** Who moves. *)
Inductive action :=
| ACancel
| AServe (a : accepted) (e : option error)
| AHandle (i : nat) (r : reply)
| ACopy (i : nat) (remoteward : bool)
| AWatch (i : nat) (done : bool)
| ADial (d : nat) (e : option error)
| AReap (d : nat)
| AClose (j : nat) (e : option error).

Definition act (a : action) (t : tunnel) : option tunnel :=
  match a with
  | ACancel => if ctxDone t then None else Some (cancel t)
  | AServe acc e => serve_step acc e t
  | AHandle i r => h ← handlers t !! i; handle_step r i h t
  | ACopy i b => h ← handlers t !! i; copy_step b i h t
  | AWatch i b => h ← handlers t !! i; watch_step b i h t
  | ADial d e => dial_step e d t
  | AReap d => reap_step d t
  | AClose j e => close_step e j t
  end.

Fixpoint run (l : list action) (t : tunnel) : option tunnel :=
  match l with
  | [] => Some t
  | a :: l => t' ← act a t; run l t'
  end.

(** The moves that do not wait for the outside: the peer, a new connection, the answer of a
    dial, the cancellation of the caller's context, a call of [Close]. A copy has to end once
    one of its connections is closed; [Accept] once its deadline is over or the listener closed. *)
Definition own (a : action) (t : tunnel) : bool :=
  match a with
  | ACancel | ADial _ _ => false
  | AServe AccConn _ => match serve_pc t with SvAccept => false | _ => true end
  | AServe AccError _ => match serve_pc t with SvAccept => negb (lnOpen t) | _ => true end
  | AServe _ _ | AHandle _ _ | AWatch _ _ | AReap _ => true
  | ACopy i _ =>
      match handlers t !! i with
      | Some h => bool_decide (h_local h ∉ sockets t) || bool_decide (h_remote h ∉ sockets t)
      | None => false
      end
  | AClose j _ => match closers t !! j with Some CIdle => false | _ => true end
  end.
End Machine.
