(* ===== verification/TunnelSafety.v ===== *)
(** What [Tunnel] promises: when [Close] has returned nothing that was accepted or forwarded is
    left, and once the context is done every run of the tunnel is finite and ends with all of
    its goroutines and connections gone. *)
From S2P Require Import Prelude Errors Retry SshConn Tunnel.

Local Open Scope Z_scope.
Local Open Scope go_scope.

(** ** Programs of bounded length that dial *)

(** [tidy p n]: [p] ends after at most [n] actions, and a connection it dials is what it
    returns, at once. *)
Fixpoint tidy (p : cprog (result Z)) (n : nat) : Prop :=
  match p, n with
  | Ret (Err _), _ => True
  | Call (DialTCP _ _) k, S n => (forall c, k (Ok c) = Ret (Ok c)) /\ forall e, tidy (k (Err e)) n
  | Lock _ k, S n => forall c, tidy (k c) n
  | Join _ k, S n => forall r, tidy (k r) n
  | Await _ k, S n => forall r, tidy (k r) n
  | Finish _ _ _ k, S n => tidy k n
  | Dial k, S n => forall r, tidy (k r) n
  | CloseLink _ k, S n => forall e, tidy (k e) n
  | CtxErr k, S n => forall e, tidy (k e) n
  | _, _ => False
  end.

(** Programs that make no call, of bounded length. *)
Fixpoint short {A} (p : cprog A) (n : nat) : Prop :=
  match p, n with
  | Ret _, _ => True
  | Lock _ k, S n => forall c, short (k c) n
  | Join _ k, S n => forall r, short (k r) n
  | Await _ k, S n => forall r, short (k r) n
  | Finish _ _ _ k, S n => short k n
  | Dial k, S n => forall r, short (k r) n
  | CloseLink _ k, S n => forall e, short (k e) n
  | CtxErr k, S n => forall e, short (k e) n
  | _, _ => False
  end.

Lemma tidy_le p a b : tidy p a -> (a <= b)%nat -> tidy p b.
Proof.
  revert a b. induction p as [r| | | | | | | | | | | | |rc k IH| | ]; intros [|a] [|b] Hp Hl; cbn in *;
    try done; try lia; try (by destruct r); try (intros; eapply H; [apply Hp|lia]).
  - eapply IHp; [exact Hp|lia].
  - by destruct rc.
  - destruct rc; try done. destruct Hp as [Hk Hp]. split; [done|]. intros e. eapply IH; [apply Hp|lia].
Qed.

Lemma tidy_bind {A} (p : cprog A) (f : A -> cprog (result Z)) a b :
  short p a -> (forall x, tidy (f x) b) -> tidy (cprog_bind p f) (a + b).
Proof.
  intros Hp Hf. revert a Hp. induction p; intros m Hp; cbn in Hp |- *;
    [eapply tidy_le; [apply Hf|lia]|..];
    (destruct m as [|m]; [done|]); cbn; try (intros; apply H; apply Hp); try done.
  by apply IHp.
Qed.

Lemma refresh_short describe g : short (refresh describe g) 6.
Proof.
  unfold refresh, flightDo. cbn. intros [n|n]; [|done].
  intros c. destruct (closed c); [done|]. destruct (negb _); [done|].
  intros [l|e]; [|done]. intros c'. destruct (closed c'); [done|]. by destruct (closer c').
Qed.

(** Ten actions for each attempt. *)
Lemma forward_tidy describe nretries port :
  tidy (forward describe nretries port) (1 + 10 * S (Z.to_nat nretries)).
Proof.
  unfold forward, withConn. cbn [cprog_bind mbind cprog_mbind snapshot tidy Nat.add]. intros c.
  cbn [cprog_bind]. generalize 0 (gen c) (client c).
  induction (Z.to_nat nretries) as [|n IH]; intros attempt g cl.
  - cbn. intros [e|]; [done|]. destruct cl as [l|]; [|done]. split; [done|].
    intros e [ce|]; [done|]. by destruct (negb _).
  - replace (10 * S (S n))%nat with (3 + (6 + (1 + 10 * S n)))%nat by lia.
    cbn [Nat.add tidy withConn_loop]. intros [e|]; [done|]. destruct cl as [l|]; [|done].
    cbn [cprog_bind mbind cprog_mbind dialChannel tidy]. split; [done|].
    intros e. intros [ce|]; [done|]. destruct (negb _); [done|].
    eapply tidy_le; [apply (tidy_bind _ _ 6 (10 * S n)); [apply refresh_short|]|lia].
    intros [[cl' g']|err]; [apply IH|done].
Qed.

(** ** The invariant *)

(** The part of a handler's life: before the copying, between its start and the deferred calls,
    after it. *)
Definition before (pc : handling) : bool :=
  match pc with HFwd _ | HSelect _ _ | HStart => true | _ => false end.
Definition after_stop (pc : handling) : bool :=
  match pc with HRemote | HLocal | HDone | HEnd => true | _ => false end.

(** Copies that run, and their tokens. *)
Definition copying (h : handler) : nat := Nat.b2n (toRemote h) + Nat.b2n (toLocal h) + tokens h.

(** How many tokens [handle] still receives. *)
Definition receives (pc : handling) : nat :=
  match pc with HFirst => 2 | HCloseLocal | HCloseRemote | HSecond => 1 | _ => 0 end.

Definition dial_cont (k : result Z -> cprog (result Z)) (n : nat) : Prop :=
  (forall c, k (Ok c) = Ret (Ok c)) /\ forall e, tidy (k (Err e)) n.

(** The connections a handler has to close. *)
Definition owns (h : handler) (c : Z) : Prop :=
  match h_pc h with
  | HFwd (Ret (Ok r)) => c = h_local h \/ c = r
  | HFwd _ | HSelect _ _ => c = h_local h
  | HStart | HFirst | HCloseLocal | HCloseRemote | HSecond | HStop | HRemote =>
      c = h_local h \/ c = h_remote h
  | HLocal => c = h_local h
  | HDone | HEnd => False
  end.

(** A handler, given the open connections and the next identity. *)
Record hinv (socks : gset Z) (next : Z) (h : handler) : Prop := {
  hi_ids c : owns h c -> c < next;
  hi_local : h_local h < next;
  hi_copying : copying h = receives (h_pc h);
  hi_prog : match h_pc h with
            | HFwd p => (exists n, tidy p n) \/ exists c, p = Ret (Ok c)
            | HSelect _ k => exists n, dial_cont k n
            | _ => h_pc h = HLocal \/ h_pc h = HDone \/ h_pc h = HEnd \/ h_remote h < next
            end;
  hi_idle : before (h_pc h) = true -> watcher h = WEnd;
  hi_watch1 : before (h_pc h) = false -> after_stop (h_pc h) = false ->
              stopped h = false /\ (watcher h <> WSelect -> h_local h ∉ socks);
  hi_watch2 : before (h_pc h) = false -> after_stop (h_pc h) = false ->
              watcher h = WEnd -> h_remote h ∉ socks;
  hi_stopped : after_stop (h_pc h) = true -> stopped h = true \/ watcher h = WEnd;
  hi_closed1 : h_pc h = HCloseRemote \/ h_pc h = HSecond -> h_local h ∉ socks;
  hi_closed2 : h_pc h = HSecond -> h_remote h ∉ socks
}.

Lemma hinv_mono socks next socks' next' h :
  (forall c, c < next -> c ∈ socks' -> c ∈ socks) -> next <= next' ->
  hinv socks next h -> hinv socks' next' h.
Proof.
  intros Hs Hn [H1 H2 H3 H4 H5 H6 H7 H8 H9 H10].
  assert (Hr : before (h_pc h) = false -> after_stop (h_pc h) = false -> h_remote h < next).
  { clear -H4. destruct (h_pc h); naive_solver. }
  constructor; try done.
  - intros c Hc. apply H1 in Hc. lia.
  - lia.
  - destruct (h_pc h); naive_solver lia.
  - intros Hb Ha. destruct (H6 Hb Ha). split; [done|]. naive_solver.
  - naive_solver.
  - naive_solver.
  - intros Hp Hin. apply Hs in Hin; [by apply H10|]. apply Hr; by rewrite Hp.
Qed.

Definition b2z (b : bool) : Z := if b then 1 else 0.
Definition serving_on (pc : serving) : bool := match pc with SvEnd => false | _ => true end.
Definition handling_on (h : handler) : bool := match h_pc h with HEnd => false | _ => true end.
Definition alive (l : list handler) : Z := Z.of_nat (length (List.filter handling_on l)).

(** A dial whose result a handler waits for. *)
Definition awaited (st : dialing) : bool :=
  match st with DRun a | DSent _ a => negb a | DGone => false end.

Definition selects (h : handler) (d : nat) : Prop := exists k, h_pc h = HSelect d k.

(** A caller of [Close] inside [closeOnce.Do]. *)
Definition inside (c : closing) : bool :=
  match c with CCancel | CListener | CWait _ => true | _ => false end.

Definition cinv (t : tunnel) (c : closing) : Prop :=
  match c with
  | CIdle | CEnter => True
  | CCancel => closeOnce t = OBusy
  | CListener => closeOnce t = OBusy /\ ctxDone t = true
  | CWait e => closeOnce t = OBusy /\ ctxDone t = true /\ lnCloseErr t = Some e
  | CRet e => closeOnce t = ODone e
  end.

Record inv (t : tunnel) : Prop := {
  inv_wg : wg t = b2z (serving_on (serve_pc t)) + alive (handlers t);
  inv_hs i h : handlers t !! i = Some h -> hinv (sockets t) (ids t) h;
  inv_ids c : c ∈ sockets t -> c < ids t;
  inv_sockets c : c ∈ sockets t ->
    serve_pc t = SvAccepted c \/
    (exists i h, handlers t !! i = Some h /\ owns h c) \/
    exists d a, dials t !! d = Some (DSent (Ok c) a);
  inv_accepted c : serve_pc t = SvAccepted c -> c < ids t;
  inv_dialed d c a : dials t !! d = Some (DSent (Ok c) a) -> c < ids t;
  inv_dials d st : dials t !! d = Some st -> awaited st = true ->
    exists i h, handlers t !! i = Some h /\ selects h d;
  inv_select i h d : handlers t !! i = Some h -> selects h d ->
    (exists st, dials t !! d = Some st /\ awaited st = true) /\
    forall j h', handlers t !! j = Some h' -> selects h' d -> j = i;
  inv_ln : lnOpen t = false <-> lnCloseErr t <> None;
  inv_served : serve_pc t = SvDone \/ serve_pc t = SvEnd -> lnOpen t = false;
  inv_closers j c : closers t !! j = Some c -> cinv t c;
  inv_alone i j c d : closers t !! i = Some c -> closers t !! j = Some d ->
    inside c = true -> inside d = true -> i = j;
  inv_once : match closeOnce t with
             | OFree => True
             | OBusy => exists j c, closers t !! j = Some c /\ inside c = true
             | ODone e => ctxDone t = true /\ lnCloseErr t = Some e /\ wg t = 0
             end
}.

Lemma alive_app l l' : alive (l ++ l') = alive l + alive l'.
Proof. unfold alive. rewrite List.filter_app length_app. lia. Qed.

Lemma alive_cons h l : alive (h :: l) = b2z (handling_on h) + alive l.
Proof. unfold alive. cbn. destruct (handling_on h); cbn [length b2z]; lia. Qed.

Lemma alive_insert l i h h' :
  l !! i = Some h -> alive (<[i := h']> l) = alive l + b2z (handling_on h') - b2z (handling_on h).
Proof.
  revert i. induction l as [|x l IH]; intros [|i] H; cbn in H; [done|done| |].
  - injection H as ->. change (<[0%nat := h']> (h :: l)) with (h' :: l). rewrite !alive_cons. lia.
  - change (<[S i := h']> (x :: l)) with (x :: <[i := h']> l). rewrite !alive_cons (IH i H). lia.
Qed.

Lemma alive_pos l : 0 <= alive l.
Proof. unfold alive. lia. Qed.

Lemma alive_none l : (forall i h, l !! i = Some h -> h_pc h = HEnd) -> alive l = 0.
Proof.
  induction l as [|x l IH]; intros H; [done|]. rewrite alive_cons IH.
  - intros i h. apply (H (S i)).
  - unfold handling_on. by rewrite (H 0%nat x eq_refl).
Qed.

Lemma alive_zero l i h : alive l = 0 -> l !! i = Some h -> h_pc h = HEnd.
Proof.
  intros Ha H. destruct (decide (handling_on h = true)) as [Ho|Ho].
  - assert (In h (List.filter handling_on l)) as Hin.
    { apply List.filter_In. split; [|done]. eapply list_elem_of_In, list_elem_of_lookup_2, H. }
    unfold alive in Ha. destruct (List.filter handling_on l); [done|cbn in Ha; lia].
  - unfold handling_on in Ho. by destruct (h_pc h).
Qed.

(** ** Preservation *)

Lemma insert_cases {A} (l : list A) i x j y :
  <[i := x]> l !! j = Some y -> (j = i /\ y = x) \/ (j <> i /\ l !! j = Some y).
Proof. rewrite list_lookup_insert_Some. naive_solver. Qed.

Lemma insert_self {A} (l : list A) i x y : l !! i = Some y -> <[i := x]> l !! i = Some x.
Proof. intros H. apply list_lookup_insert_eq. by eapply lookup_lt_Some. Qed.

Lemma insert_other {A} (l : list A) i x j y :
  l !! j = Some y -> j <> i -> <[i := x]> l !! j = Some y.
Proof. intros H Hn. by rewrite list_lookup_insert_ne. Qed.

Lemma inv_close t x : inv t -> inv (close_socket x t).
Proof.
  intros []. constructor; cbn; try done.
  - intros i h Hh. eapply hinv_mono; [|reflexivity|by eapply inv_hs0]. set_solver.
  - set_solver.
  - intros c Hc. apply inv_sockets0. set_solver.
Qed.

(** A handler goes on; it neither starts nor ends the wait for a dial. *)
Lemma inv_put t i h h' :
  inv t -> handlers t !! i = Some h ->
  (forall d, ~ selects h d) -> (forall d, ~ selects h' d) -> handling_on h' = handling_on h ->
  hinv (sockets t) (ids t) h' -> (forall c, c ∈ sockets t -> owns h c -> owns h' c) ->
  inv (put i h' t).
Proof.
  intros [] Hi Hs Hs' Ha Hh Ho.
  constructor; cbn; try done.
  - rewrite (alive_insert _ _ _ _ Hi) Ha. lia.
  - intros j g [[-> ->]|[_ H]]%insert_cases; [done|by eapply inv_hs0].
  - intros c Hc. destruct (inv_sockets0 c Hc) as [H|[(j & g & Hj & Hg)|H]]; [by left| |by right; right].
    right; left. destruct (decide (j = i)) as [->|Hn]; [|exists j, g; by rewrite list_lookup_insert_ne].
    exists i, h'. split; [by eapply insert_self|]. apply Ho; [done|]. by simplify_eq.
  - intros d st Hd Haw. destruct (inv_dials0 d st Hd Haw) as (j & g & Hj & Hg).
    exists j, g. split; [|done]. apply insert_other; [done|]. intros ->. simplify_eq. by eapply Hs.
  - intros j g d Hj Hg. apply insert_cases in Hj as [[-> ->]|[Hn Hj]]; [by apply Hs' in Hg|].
    destruct (inv_select0 j g d Hj Hg) as [He Hu]. split; [done|].
    intros k g' [[-> ->]|[_ Hk]]%insert_cases Hg'; [by apply Hs' in Hg'|by eapply Hu].
Qed.

Lemma inv_done t i h :
  inv t -> handlers t !! i = Some h -> h_pc h = HDone ->
  inv (put i (set_pc HEnd h) (wg_add (-1) t)).
Proof.
  intros HI Hi Hpc. destruct HI as [].
  pose proof (inv_hs0 i h Hi) as Hh.
  constructor; cbn; try done.
  - rewrite (alive_insert _ _ _ _ Hi) inv_wg0. unfold handling_on. rewrite Hpc. cbn. lia.
  - intros j g [[-> ->]|[_ H]]%insert_cases; [|by eapply inv_hs0].
    destruct Hh as [H1 H2 H3 H4 H5 H6 H7 H8 H9 H10]. rewrite -> Hpc in *.
    constructor; cbn; naive_solver.
  - intros c Hc. destruct (inv_sockets0 c Hc) as [H|[(j & g & Hj & Hg)|H]]; [by left| |by right; right].
    right; left. exists j, g. split; [|done]. apply insert_other; [done|].
    intros ->. simplify_eq. unfold owns in Hg. by rewrite Hpc in Hg.
  - intros d st Hd Haw. destruct (inv_dials0 d st Hd Haw) as (j & g & Hj & [k Hg]).
    exists j, g. split; [|by exists k]. apply insert_other; [done|].
    intros ->. congruence.
  - intros j g d Hj Hg. apply insert_cases in Hj as [[-> ->]|[Hn Hj]]; [by destruct Hg|].
    destruct (inv_select0 j g d Hj Hg) as [He Hu]. split; [done|].
    intros k g' [[-> ->]|[_ Hk]]%insert_cases Hg'; [by destruct Hg'|by eapply Hu].
  - destruct (closeOnce t); [done|done|]. exfalso. destruct inv_once0 as (_ & _ & Hw).
    rewrite -> Hw in inv_wg0. pose proof (alive_pos (handlers t)).
    assert (handling_on h = true) as Ho by (unfold handling_on; by rewrite Hpc).
    assert (alive (handlers t) = 0) as Hz by (destruct (serving_on _); cbn in *; lia).
    pose proof (alive_zero _ _ _ Hz Hi). congruence.
Qed.

(** The wait for a dial starts. *)
Lemma inv_dial_start t i h k n :
  inv t -> handlers t !! i = Some h -> (exists p, h_pc h = HFwd p /\ forall c, p <> Ret (Ok c)) ->
  dial_cont k n ->
  inv (put i (set_pc (HSelect (length (dials t)) k) h) (set_dials (dials t ++ [DRun false]) t)).
Proof.
  intros [] Hi (p & Hpc & Hp) Hk. set (h' := set_pc _ h).
  pose proof (inv_hs0 i h Hi) as Hh.
  assert (Hown : forall c, owns h c <-> c = h_local h).
  { intros c. unfold owns. rewrite Hpc. destruct p as [[]| | | | | | | | | | | | | | |]; try done.
    by destruct (Hp a). }
  pose proof (insert_self _ _ h' _ Hi) as Hself.
  assert (Hold : forall d st, dials t !! d = Some st -> (dials t ++ [DRun false]) !! d = Some st)
    by (intros; by apply lookup_app_l_Some).
  assert (Hne : forall j g d, handlers t !! j = Some g -> selects g d -> d <> length (dials t)).
  { intros j g d Hj Hg ->. destruct (inv_select0 j g _ Hj Hg) as [(st & Hst & _) _].
    apply lookup_lt_Some in Hst. lia. }
  constructor; cbn; try done.
  - rewrite (alive_insert _ _ _ _ Hi) inv_wg0. unfold handling_on. rewrite Hpc. cbn. lia.
  - intros j g [[-> ->]|[_ H]]%insert_cases; [|by eapply inv_hs0].
    destruct Hh as [H1 H2 H3 H4 H5 H6 H7 H8 H9 H10]. rewrite -> Hpc in *.
    constructor; cbn; naive_solver.
  - intros c Hc. destruct (inv_sockets0 c Hc) as [H|[(j & g & Hj & Hg)|(d & a & Hd)]]; [by left| |].
    + right; left. destruct (decide (j = i)) as [->|Hn];
        [|exists j, g; by rewrite list_lookup_insert_ne].
      exists i, h'. split; [done|]. simplify_eq. by apply Hown in Hg.
    + right; right. exists d, a. by apply Hold.
  - intros d c a Hd. apply lookup_app_Some in Hd as [Hd|[_ Hd]]; [by eapply inv_dialed0|].
    by apply list_lookup_singleton_Some in Hd as [_ [=]].
  - intros d st Hd Haw. apply lookup_app_Some in Hd as [Hd|[Hl Hd]].
    + destruct (inv_dials0 d st Hd Haw) as (j & g & Hj & Hg).
      exists j, g. split; [|done]. apply insert_other; [done|].
      intros ->. simplify_eq. destruct Hg as [? Hg]. congruence.
    + apply list_lookup_singleton_Some in Hd as [Hz _]. exists i, h'. split; [done|].
      exists k. cbn. f_equal. lia.
  - intros j g d [[-> ->]|[Hn Hj]]%insert_cases Hg.
    + destruct Hg as [k' [= <- <-]]. split.
      * exists (DRun false). split; [|done]. rewrite lookup_app_r; [lia|]. by rewrite Nat.sub_diag.
      * intros j g [[-> ->]|[_ Hj]]%insert_cases Hg; [done|]. by destruct (Hne _ _ _ Hj Hg).
    + destruct (inv_select0 j g d Hj Hg) as [(st & Hst & Haw) Hu]. split; [by eauto|].
      intros j' g' [[-> ->]|[_ Hk']]%insert_cases Hg'; [|by eapply Hu].
      destruct Hg' as [k' [= <- <-]]. by destruct (Hne _ _ _ Hj Hg).
Qed.

(** It ends: the result is taken, or left to the goroutine that closes it. *)
Lemma inv_dial_end t i h d k st p st' :
  inv t -> handlers t !! i = Some h -> h_pc h = HSelect d k -> dials t !! d = Some st ->
  (exists n, tidy p n) \/ (exists c, p = Ret (Ok c)) -> awaited st' = false ->
  (forall c, p = Ret (Ok c) -> exists a, st = DSent (Ok c) a) ->
  (forall c a, st = DSent (Ok c) a -> p = Ret (Ok c) \/ exists b, st' = DSent (Ok c) b) ->
  (forall c b, st' = DSent (Ok c) b -> exists a, st = DSent (Ok c) a) ->
  inv (put i (set_pc (HFwd p) h) (set_dials (<[d := st']> (dials t)) t)).
Proof.
  intros [] Hi Hpc Hd Hp Haw Hp1 Hst Hst'. set (h' := set_pc _ h).
  pose proof (inv_hs0 i h Hi) as Hh.
  pose proof (insert_self _ _ h' _ Hi) as Hself.
  pose proof (insert_self _ _ st' _ Hd) as Hselfd.
  assert (Hsel : selects h d) by (by exists k).
  destruct (inv_select0 i h d Hi Hsel) as [_ Huniq].
  assert (Hown : forall c, owns h c -> owns h' c).
  { intros c. unfold owns. rewrite Hpc. cbn. intros ->. destruct p as [[]| | | | | | | | | | | | | | |]; auto. }
  constructor; cbn; try done.
  - rewrite (alive_insert _ _ _ _ Hi) inv_wg0. unfold handling_on. rewrite Hpc. cbn. lia.
  - intros j g [[-> ->]|[_ H]]%insert_cases; [|by eapply inv_hs0].
    destruct Hh as [H1 H2 H3 H4 H5 H6 H7 H8 H9 H10]. rewrite -> Hpc in *.
    constructor; cbn; try done; try (by intros [|]).
    unfold owns. cbn. intros c Hc.
    destruct p as [[c'|e']| | | | | | | | | | | | | | |]; try (subst; lia).
    destruct Hc as [->| ->]; [lia|]. destruct (Hp1 c' eq_refl) as [a ->]. by eapply inv_dialed0.
  - intros c Hc. destruct (inv_sockets0 c Hc) as [H|[(j & g & Hj & Hg)|(e & a & He)]]; [by left| |].
    + right; left. destruct (decide (j = i)) as [->|Hn];
        [|exists j, g; by rewrite list_lookup_insert_ne].
      exists i, h'. split; [done|]. simplify_eq. auto.
    + destruct (decide (e = d)) as [->|Hn].
      * assert (st = DSent (Ok c) a) as -> by congruence.
        destruct (Hst c a eq_refl) as [->|[b ->]]; [|right; right; by exists d, b].
        right; left. exists i, h'. split; [done|]. by right.
      * right; right. exists e, a. by rewrite list_lookup_insert_ne.
  - intros e c a [[-> <-]|[_ He]]%insert_cases; [|by eapply inv_dialed0].
    destruct (Hst' c a eq_refl) as [b ->]. by eapply inv_dialed0.
  - intros e st1 [[-> ->]|[Hn He]]%insert_cases Hw; [congruence|].
    destruct (inv_dials0 e st1 He Hw) as (j & g & Hj & Hg).
    exists j, g. split; [|done]. apply insert_other; [done|].
    intros ->. simplify_eq. destruct Hg as [? Hg]. congruence.
  - intros j g e [[-> ->]|[Hn Hj]]%insert_cases Hg; [by destruct Hg|].
    destruct (inv_select0 j g e Hj Hg) as [(st1 & Hst1 & Haw1) Hu]. split.
    + exists st1. split; [|done]. apply insert_other; [done|].
      intros ->. apply Hn. by apply (Huniq j g).
    + intros j' g' [[-> ->]|[_ Hk']]%insert_cases Hg'; [by destruct Hg'|by eapply Hu].
Qed.

(** The proof obligations of [inv_put] for a move whose program counters are known. *)
Ltac hput Hh Hpc :=
  eapply inv_put; [try apply inv_close; eassumption|eassumption|
    (by intros ? [? ?]; cbn in *; congruence)|(by intros ? [? ?]; cbn in *; congruence)|
    (by unfold handling_on; cbn; rewrite ?Hpc)|
    (let H1 := fresh in let H2 := fresh in let H3 := fresh in let H4 := fresh in let H5 := fresh in
     let H6 := fresh in let H7 := fresh in let H8 := fresh in let H9 := fresh in let H10 := fresh in
     destruct Hh as [H1 H2 H3 H4 H5 H6 H7 H8 H9 H10];
     unfold owns, copying in *; rewrite -> Hpc in *; constructor; unfold owns, copying; cbn in *;
     rewrite ?Hpc; cbn in *;
     clear Hpc; try done; try lia; try (by intros [|]); try (by auto); try (by intuition congruence);
     try (by do 3 right; auto);
     try (intros; repeat match goal with H : ?x = ?x -> _ |- _ => specialize (H eq_refl) end;
          set_solver))|
    (intros ?; unfold owns; cbn; rewrite ?Hpc; cbn; try done; set_solver)].

Lemma answer_tidy p n r p' : tidy p (S n) -> answer p r = Some p' -> tidy p' n.
Proof. destruct p, r; cbn; intros Hp [= <-]; try done; apply Hp. Qed.

Lemma inv_fwd t i h p p' :
  inv t -> handlers t !! i = Some h -> h_pc h = HFwd p -> (forall c, p <> Ret (Ok c)) ->
  (exists n, tidy p' n) -> inv (put i (set_pc (HFwd p') h) t).
Proof.
  intros HI Hi Hpc Hp [n Hn]. pose proof (inv_hs t HI i h Hi) as Hh.
  assert (Hown : forall c, owns (set_pc (HFwd p') h) c -> c = h_local h).
  { intros c. unfold owns. cbn. destruct p' as [[]| | | | | | | | | | | | | | |]; try done. }
  assert (Hown' : forall c, owns h c -> owns (set_pc (HFwd p') h) c).
  { intros c. unfold owns. rewrite Hpc. cbn.
    destruct p as [[r|]| | | | | | | | | | | | | | |]; [by destruct (Hp r)|..];
      intros ->; destruct p' as [[]| | | | | | | | | | | | | | |]; auto. }
  eapply inv_put; [done|done| | |by unfold handling_on; rewrite Hpc| |].
  - intros d [k Hk]. congruence.
  - by intros d [k Hk].
  - destruct Hh as [H1 H2 H3 H4 H5 H6 H7 H8 H9 H10]. rewrite -> Hpc in *.
    constructor; cbn; try done; try (by intros [|]); [|by left; exists n].
    intros c ->%Hown. lia.
  - auto.
Qed.

Section Steps.
Context (describe : string) (nretries remotePort : Z).

Lemma inv_handle r i h t t' :
  inv t -> handlers t !! i = Some h -> handle_step r i h t = Some t' -> inv t'.
Proof.
  intros HI Hi H. pose proof (inv_hs t HI i h Hi) as Hh. unfold handle_step in H.
  destruct (h_pc h) as [p|d k| | | | | | | | | |] eqn:Hpc.
  - pose proof (hi_prog _ _ _ Hh) as Hp. rewrite Hpc in Hp.
    destruct Hp as [[n Hn]|[c ->]].
    + assert (Hne : forall c, p <> Ret (Ok c)) by (intros c ->; done).
      destruct n as [|n]; [by destruct p as [[]| | | | | | | | | | | | |[]| |]; cbn in Hn; try done;
        injection H as <-; hput Hh Hpc|].
      destruct p as [[c|e]| | | | | | | | |k| | | |rc k| |]; try (by destruct Hn);
        try (apply bind_Some in H as (p' & Ha & [= <-]);
             eapply inv_fwd; [done|done|done|done|exists n; by eapply answer_tidy]).
      * injection H as <-. hput Hh Hpc.
      * injection H as <-. eapply inv_fwd; [done|done|done|done|]. exists n. apply Hn.
      * destruct rc; try (by destruct Hn). injection H as <-.
        eapply inv_dial_start; [done|done|by eexists|exact Hn].
    + injection H as <-. hput Hh Hpc.
  - pose proof (hi_prog _ _ _ Hh) as Hp. rewrite Hpc in Hp. destruct Hp as [n [Hk1 Hk2]].
    assert (Htake : forall t', match dials t !! d with
        | Some (DSent res _) =>
            Some (put i (set_pc (HFwd (k res)) h) (set_dials (<[d := DGone]> (dials t)) t))
        | _ => None end = Some t' -> inv t').
    { intros t1 H1. destruct (dials t !! d) as [[|res a|]|] eqn:Hd; try done. injection H1 as <-.
      eapply inv_dial_end; [done|done|done|done| |done| | |done].
      - destruct res as [c|e]; [right; eauto|left; eauto].
      - intros c Hc. destruct res as [c'|e]; [|exfalso; specialize (Hk2 e); rewrite Hc in Hk2; by destruct n].
        rewrite Hk1 in Hc. injection Hc as ->. by exists a.
      - intros c b [= -> <-]. left. apply Hk1. }
    destruct r; try by apply Htake.
    destruct (ctxDone t); [|done]. apply bind_Some in H as (st & Hd & [= <-]).
    eapply inv_dial_end; [done|done|done|done| | | | |].
    + left. by exists n.
    + by destruct st.
    + intros c Hc. exfalso. specialize (Hk2 canceled). rewrite Hc in Hk2. by destruct n.
    + intros c a ->. right. by exists true.
    + intros c b. destruct st; naive_solver.
  - injection H as <-. hput Hh Hpc.
  - destruct (tokens h) as [|n] eqn:Ht; [done|]. injection H as <-. hput Hh Hpc.
  - injection H as <-. hput Hh Hpc.
  - injection H as <-. hput Hh Hpc.
  - destruct (tokens h) as [|n] eqn:Ht; [done|]. injection H as <-. hput Hh Hpc.
  - injection H as <-. hput Hh Hpc.
  - injection H as <-. hput Hh Hpc.
  - injection H as <-. hput Hh Hpc.
  - injection H as <-. by eapply inv_done.
  - done.
Qed.

Lemma inv_copy b i h t t' :
  inv t -> handlers t !! i = Some h -> copy_step b i h t = Some t' -> inv t'.
Proof.
  intros HI Hi H. pose proof (inv_hs t HI i h Hi) as Hh. unfold copy_step in H.
  destruct (if b then toRemote h else toLocal h) eqn:Hr; [|done]. injection H as <-.
  pose proof (hi_copying _ _ _ Hh) as Hc. unfold copying in Hc.
  destruct b; rewrite -> Hr in Hc; destruct (h_pc h) eqn:Hpc; cbn in Hc; try lia;
    destruct (toRemote h) eqn:Hr1; destruct (toLocal h) eqn:Hr2; cbn in Hc; try done; hput Hh Hpc.
Qed.

(** The watcher moves. *)
Lemma inv_set_watcher t i h w :
  inv t -> handlers t !! i = Some h -> before (h_pc h) = false ->
  (after_stop (h_pc h) = false ->
    (w <> WSelect -> h_local h ∉ sockets t) /\ (w = WEnd -> h_remote h ∉ sockets t)) ->
  (after_stop (h_pc h) = true -> stopped h = true \/ w = WEnd) ->
  inv (put i (set_watcher w h) t).
Proof.
  intros HI Hi Hb Hw Hs. destruct (inv_hs t HI i h Hi) as [H1 H2 H3 H4 H5 H6 H7 H8 H9 H10].
  eapply inv_put; [done|done| | |done| |done].
  - intros d [k Hk]. by rewrite Hk in Hb.
  - intros d [k Hk]. cbn in Hk. by rewrite Hk in Hb.
  - constructor; try done; cbn.
    + congruence.
    + intros _ Ha. split; [by apply H6|]. by apply Hw.
    + intros _ Ha. by apply Hw.
Qed.

Lemma inv_watch b i h t t' :
  inv t -> handlers t !! i = Some h -> watch_step b i h t = Some t' -> inv t'.
Proof.
  intros HI Hi H. pose proof (inv_hs t HI i h Hi) as Hh. unfold watch_step in H.
  assert (Hb : watcher h <> WEnd -> before (h_pc h) = false).
  { intros Hw. destruct (before (h_pc h)) eqn:E; [|done]. by apply (hi_idle _ _ _ Hh) in E. }
  destruct (watcher h) eqn:Hw; [| |done].
  - destruct b; [destruct (ctxDone t); [|done]|destruct (stopped h) eqn:Hst; [|done]];
      injection H as <-.
    + apply inv_set_watcher; [by apply inv_close|done|by apply Hb| |].
      * cbn. intros Ha. split; [set_solver|done].
      * intros Ha. destruct (hi_stopped _ _ _ Hh Ha) as [|]; [by left|congruence].
    + apply inv_set_watcher; [done|done|by apply Hb| |by right].
      intros Ha. destruct (hi_watch1 _ _ _ Hh) as [Hs _]; [by apply Hb|done|congruence].
  - injection H as <-. apply inv_set_watcher; [by apply inv_close|done|by apply Hb| |by right].
    cbn. intros Ha. split; [|set_solver]. intros _.
    destruct (hi_watch1 _ _ _ Hh) as [_ Hl]; [by apply Hb|done|]. rewrite Hw in Hl. set_solver.
Qed.

(** A new connection belongs to whom the next state says. *)
Lemma hinv_open t i h : inv t -> handlers t !! i = Some h ->
  hinv ({[ids t]} ∪ sockets t) (ids t + 1) h.
Proof.
  intros HI Hi. eapply hinv_mono; [| |by eapply inv_hs]; [|lia].
  intros c Hc [->%elem_of_singleton|]%elem_of_union; [lia|done].
Qed.

Lemma inv_dial e d t t' : inv t -> dial_step e d t = Some t' -> inv t'.
Proof.
  intros HI H. unfold dial_step in H. destruct (dials t !! d) as [[a| |]|] eqn:Hd; try done.
  assert (Hsel : forall r j h d', handlers t !! j = Some h -> selects h d' ->
    (exists st, <[d := DSent r a]> (dials t) !! d' = Some st /\ awaited st = true) /\
    forall j' h', handlers t !! j' = Some h' -> selects h' d' -> j' = j).
  { intros r j h d' Hj Hs. destruct (inv_select t HI j h d' Hj Hs) as [(st & Hst & Haw) Hu].
    split; [|done]. destruct (decide (d' = d)) as [->|Hn]; [|exists st; by rewrite list_lookup_insert_ne].
    exists (DSent r a). split; [by eapply insert_self|]. rewrite Hd in Hst. by injection Hst as <-. }
  assert (Hdl : forall r d' st, <[d := DSent r a]> (dials t) !! d' = Some st -> awaited st = true ->
    exists i h, handlers t !! i = Some h /\ selects h d').
  { intros r d' st [[-> ->]|[_ Hd']]%insert_cases Haw; [by eapply (inv_dials t HI)|by eapply inv_dials]. }
  assert (Hold : forall r d' c b, dials t !! d' = Some (DSent (Ok c) b) ->
    <[d := DSent r a]> (dials t) !! d' = Some (DSent (Ok c) b)).
  { intros r d' c b Hd'. apply insert_other; [done|]. intros ->. congruence. }
  destruct e as [e|]; injection H as <-; pose proof HI as []; constructor; cbn; try done.
  - intros c Hc. destruct (inv_sockets0 c Hc) as [H|[H|(d' & b & Hd')]]; [auto|auto|].
    right; right. exists d', b. auto.
  - intros d' c b [[-> [=]]|[_ Hd']]%insert_cases. by eapply inv_dialed0.
  - intros d' st Hd'. by eapply Hdl.
  - apply Hsel.
  - intros i h Hi. by eapply hinv_open.
  - intros c [->%elem_of_singleton|Hc]%elem_of_union; [lia|]. apply inv_ids0 in Hc. lia.
  - intros c [->%elem_of_singleton|Hc]%elem_of_union.
    + right; right. exists d, a. by eapply insert_self.
    + destruct (inv_sockets0 c Hc) as [H|[H|(d' & b & Hd')]]; [auto|auto|].
      right; right. exists d', b. auto.
  - intros c Hc. apply inv_accepted0 in Hc. lia.
  - intros d' c b [[-> [= -> ->]]|[_ Hd']]%insert_cases; [lia|]. apply inv_dialed0 in Hd'. lia.
  - intros d' st Hd'. by eapply Hdl.
  - apply Hsel.
Qed.

Lemma inv_gone d r t : inv t -> dials t !! d = Some (DSent r true) ->
  (forall c, r = Ok c -> c ∉ sockets t) -> inv (set_dials (<[d := DGone]> (dials t)) t).
Proof.
  intros [] Hd Hr. constructor; cbn; try done.
  - intros c Hc. destruct (inv_sockets0 c Hc) as [H|[H|(d' & b & Hd')]]; [auto|auto|].
    right; right. exists d', b. apply insert_other; [done|]. intros ->.
    rewrite Hd in Hd'. injection Hd' as -> _. by eapply Hr.
  - intros d' c b [[_ [=]]|[_ Hd']]%insert_cases. by eapply inv_dialed0.
  - intros d' st [[_ ->]|[_ Hd']]%insert_cases Haw; [done|by eapply inv_dials0].
  - intros j h d' Hj Hs. destruct (inv_select0 j h d' Hj Hs) as [(st & Hst & Haw) Hu].
    split; [|done]. exists st. split; [|done]. apply insert_other; [done|]. intros ->.
    rewrite Hd in Hst. by injection Hst as <-.
Qed.

Lemma inv_reap d t t' : inv t -> reap_step d t = Some t' -> inv t'.
Proof.
  intros HI H. unfold reap_step in H. destruct (dials t !! d) as [[|r []|]|] eqn:Hd; try done.
  injection H as <-. destruct r as [c|e].
  - apply (inv_gone d (Ok c) (close_socket c t)); [by apply inv_close|done|]. cbn. set_solver.
  - by eapply (inv_gone d (Err e)).
Qed.

Lemma inv_closeListener e t : inv t -> inv (closeListener e t) /\ lnOpen (closeListener e t) = false.
Proof.
  intros HI. unfold closeListener. destruct (lnCloseErr t) as [x|] eqn:He.
  - split; [done|]. apply (inv_ln t HI). by rewrite He.
  - split; [|done]. pose proof HI as []. constructor; cbn; try done.
    + intros j c Hc. apply inv_closers0 in Hc. destruct c; cbn in *; try done.
      destruct Hc as (_ & _ & Hc). congruence.
    + destruct (closeOnce t); try done. destruct inv_once0 as (_ & H & _). congruence.
Qed.

(** [serve] moves on without a connection in its hands. *)
Lemma inv_set_serve pc t :
  inv t -> serving_on pc = serving_on (serve_pc t) -> (forall c, serve_pc t <> SvAccepted c) ->
  (forall c, pc <> SvAccepted c) -> (pc = SvDone \/ pc = SvEnd -> lnOpen t = false) ->
  inv (set_serve pc t).
Proof.
  intros [] Hon Hold Hnew Hln. constructor; cbn; try done.
  - by rewrite Hon.
  - intros c Hc. destruct (inv_sockets0 c Hc) as [H|H]; [by apply Hold in H|by right].
  - intros c Hc. by apply Hnew in Hc.
Qed.

Lemma not_done t : inv t -> 0 < wg t -> forall e, closeOnce t <> ODone e.
Proof. intros HI Hw e He. pose proof (inv_once t HI) as H. rewrite He in H. lia. Qed.

Lemma wg_serving t : inv t -> serving_on (serve_pc t) = true -> 0 < wg t.
Proof.
  intros HI Hs. rewrite (inv_wg t HI) Hs. pose proof (alive_pos (handlers t)). cbn. lia.
Qed.

Lemma inv_accept t : inv t -> serve_pc t = SvAccept ->
  inv (set_serve (SvAccepted (ids t)) (open_socket t)).
Proof.
  intros HI Hs. pose proof HI as []. constructor; cbn; try done.
  - by rewrite Hs in inv_wg0.
  - intros i h Hi. by eapply hinv_open.
  - intros c [->%elem_of_singleton|Hc]%elem_of_union; [lia|]. apply inv_ids0 in Hc. lia.
  - intros c [->%elem_of_singleton|Hc]%elem_of_union; [by left|].
    destruct (inv_sockets0 c Hc) as [H|H]; [congruence|by right].
  - intros c [= <-]. lia.
  - intros d c b Hd. apply inv_dialed0 in Hd. lia.
  - by intros [|].
Qed.

(** [wg.Add] is called while the counter is positive. *)
Lemma inv_spawn t local : inv t -> serve_pc t = SvAccepted local ->
  inv (set_serve SvTop
        (set_handlers (handlers t ++ [new_handler describe nretries remotePort local]) (wg_add 1 t))).
Proof.
  intros HI Hs. pose proof (not_done t HI (wg_serving t HI ltac:(by rewrite Hs))) as Hnd.
  pose proof HI as []. rewrite -> Hs in *. set (new := new_handler _ _ _ local).
  assert (Hlk : forall j g, (handlers t ++ [new]) !! j = Some g -> handlers t !! j = Some g \/ g = new).
  { intros j g [H|[_ H]]%lookup_app_Some; [by left|]. apply list_lookup_singleton_Some in H as [_ <-].
    by right. }
  constructor; cbn; try done.
  - rewrite alive_app alive_cons inv_wg0. unfold alive. cbn. lia.
  - intros j g [Hj| ->]%Hlk; [by eapply inv_hs0|]. pose proof (inv_accepted0 local eq_refl).
    constructor; cbn; try done; try (by intros [|]); [by intros c ->|].
    left. eexists. apply forward_tidy.
  - intros c Hc. destruct (inv_sockets0 c Hc) as [[= ->]|[(j & g & Hj & Hg)|H]]; [| |by right; right].
    + right; left. exists (length (handlers t)), new. split; [|done].
      rewrite lookup_app_r; [lia|]. by rewrite Nat.sub_diag.
    + right; left. exists j, g. split; [by apply lookup_app_l_Some|done].
  - intros d st Hd Haw. destruct (inv_dials0 d st Hd Haw) as (j & g & Hj & Hg).
    exists j, g. split; [by apply lookup_app_l_Some|done].
  - intros j g d [Hj| ->]%Hlk Hg; [|by destruct Hg].
    destruct (inv_select0 j g d Hj Hg) as [He Hu]. split; [done|].
    intros j' g' [Hj'| ->]%Hlk Hg'; [by eapply Hu|by destruct Hg'].
  - by intros [|].
  - destruct (closeOnce t) as [| |e0]; [done|done|]. by destruct (Hnd e0).
Qed.

Lemma inv_serve_done t : inv t -> serve_pc t = SvDone -> inv (set_serve SvEnd (wg_add (-1) t)).
Proof.
  intros HI Hs. pose proof (not_done t HI (wg_serving t HI ltac:(by rewrite Hs))) as Hnd.
  pose proof HI as []. rewrite -> Hs in *. constructor; cbn; try done.
  - rewrite inv_wg0. cbn. lia.
  - intros c Hc. destruct (inv_sockets0 c Hc) as [H|H]; [done|by right].
  - auto.
  - destruct (closeOnce t) as [| |e0]; [done|done|]. by destruct (Hnd e0).
Qed.

Lemma inv_serve a e t t' : inv t -> serve_step describe nretries remotePort a e t = Some t' -> inv t'.
Proof.
  intros HI H. unfold serve_step in H.
  destruct (serve_pc t) as [| |timeout|local| | |] eqn:Hs.
  - injection H as <-. apply inv_set_serve; try done; rewrite ?Hs; by destruct (ctxDone t); try intros [|].
  - destruct a; try (destruct (lnOpen t); [|done]); injection H as <-; [by apply inv_accept|..];
      apply inv_set_serve; try done; rewrite ?Hs; by try intros [|].
  - injection H as <-. apply inv_set_serve; try done; rewrite ?Hs;
      by destruct (ctxDone t), timeout; try intros [|].
  - injection H as <-. by apply inv_spawn.
  - injection H as <-. destruct (inv_closeListener e t HI) as [HI' Hln].
    assert (serve_pc (closeListener e t) = SvReturn) as Hs'
      by (unfold closeListener; by destruct (lnCloseErr t)).
    apply inv_set_serve; try done; by rewrite ?Hs'.
  - injection H as <-. by apply inv_serve_done.
  - done.
Qed.

(** ** [Close] *)

Lemma inv_cancel t : inv t -> inv (cancel t).
Proof.
  intros []. constructor; cbn; try done.
  - intros j c Hc. apply inv_closers0 in Hc. destruct c; cbn in *; naive_solver.
  - destruct (closeOnce t); naive_solver.
Qed.

Lemma inside_busy t j c : inv t -> closers t !! j = Some c -> inside c = true -> closeOnce t = OBusy.
Proof. intros HI Hj Hc. apply (inv_closers t HI) in Hj. destruct c; cbn in *; naive_solver. Qed.

(** A caller of [Close] moves; [o] is the state of [closeOnce] afterwards. *)
Lemma inv_closer j c c' o t :
  inv t -> closers t !! j = Some c -> cinv (set_once o t) c' ->
  (forall i x, i <> j -> closers t !! i = Some x -> cinv (set_once o t) x) ->
  (inside c' = true -> inside c = true \/ closeOnce t = OFree) ->
  match o with
  | OFree => True
  | OBusy => inside c' = true \/ (closeOnce t = OBusy /\ inside c = false)
  | ODone e => ctxDone t = true /\ lnCloseErr t = Some e /\ wg t = 0
  end ->
  inv (set_closers (<[j := c']> (closers t)) (set_once o t)).
Proof.
  intros HI Hj Hc' Hothers Hin Ho.
  assert (Hal : forall i x, i <> j -> closers t !! i = Some x -> inside x = true ->
            inside c' = true -> False).
  { intros i x Hn Hi Hx Hc. destruct (Hin Hc) as [H|H].
    - by apply Hn, (inv_alone t HI i j x c).
    - rewrite (inside_busy t i x HI Hi Hx) in H. done. }
  destruct HI as []. constructor; cbn; try done.
  - intros i x [[-> ->]|[Hn Hi]]%insert_cases; [done|]. by eapply Hothers.
  - intros i k x y [[-> ->]|[Hn Hi]]%insert_cases [[-> ->]|[Hn' Hk]]%insert_cases Hx Hy; [done| | |];
      [by destruct (Hal k y)|by destruct (Hal i x)|by eapply inv_alone0].
  - destruct o as [| |]; try done. destruct Ho as [Ho|[Hb Hc]].
    + exists j, c'. split; [by eapply insert_self|done].
    + rewrite Hb in inv_once0. destruct inv_once0 as (i & x & Hi & Hx). exists i, x.
      split; [|done]. apply insert_other; [done|]. intros ->. congruence.
Qed.

Lemma set_once_id t : set_once (closeOnce t) t = t.
Proof. by destruct t. Qed.

(** ... and leaves [closeOnce] as it is. *)
Lemma inv_closer_same j c c' t :
  inv t -> closers t !! j = Some c -> cinv t c' -> inside c' = inside c ->
  inv (set_closers (<[j := c']> (closers t)) t).
Proof.
  intros HI Hj Hc' Hin. pose proof (inv_once t HI) as Ho.
  pose proof (inv_closer j c c' (closeOnce t) t HI Hj) as H. rewrite set_once_id in H. apply H; try done.
  - intros i x _. apply (inv_closers t HI).
  - rewrite Hin. by left.
  - destruct (closeOnce t) eqn:E; try done. rewrite Hin. destruct (inside c); auto.
Qed.

Lemma closeListener_err e t : exists err, lnCloseErr (closeListener e t) = Some err.
Proof. unfold closeListener. destruct (lnCloseErr t) eqn:E; eauto. Qed.

Lemma closeListener_rest e t :
  closeOnce (closeListener e t) = closeOnce t /\ ctxDone (closeListener e t) = ctxDone t /\
  closers (closeListener e t) = closers t.
Proof. unfold closeListener. by destruct (lnCloseErr t). Qed.

Lemma inv_closing e j t t' : inv t -> close_step e j t = Some t' -> inv t'.
Proof.
  intros HI H. unfold close_step in H.
  destruct (closers t !! j) as [c|] eqn:Hj; [|done].
  pose proof (inv_closers t HI j c Hj) as Hc. destruct c as [| | | |err|]; [| | | | |done].
  - injection H as <-. by eapply inv_closer_same.
  - destruct (closeOnce t) as [| |err] eqn:Ho; [|done|]; injection H as <-.
    + eapply inv_closer; [done|done|done| |by right|by left].
      intros i x _ Hx. apply (inv_closers t HI) in Hx. destruct x; cbn in *; naive_solver congruence.
    + by eapply inv_closer_same.
  - injection H as <-. apply (inv_closer_same j CCancel CListener (cancel t)); [by apply inv_cancel|done|done|done].
  - destruct (closeListener_rest e t) as (H1 & H2 & H3). destruct (closeListener_err e t) as [err He].
    injection H as <-. rewrite He. destruct (inv_closeListener e t HI) as [HI' _]. destruct Hc as [Hc1 Hc2].
    eapply inv_closer_same; [done|by rewrite H3|cbn; by rewrite H1 H2|done].
  - destruct (Z.eqb_spec (wg t) 0) as [Hw|]; [|done]. injection H as <-. destruct Hc as (Hb & Hd & Hl).
    eapply inv_closer; [done|done|done| |done|done].
    intros i x Hn Hx. pose proof (inv_closers t HI i x Hx) as Hcx. destruct x; cbn in *; try done;
      try (by destruct Hn; eapply (inv_alone t HI)); congruence.
Qed.

Lemma inv_act a t t' : inv t -> act describe nretries remotePort a t = Some t' -> inv t'.
Proof.
  intros HI. destruct a; cbn [act]; intros H;
    try match type of H with mbind _ _ = _ => apply bind_Some in H as (h & Hh & H) end.
  - destruct (ctxDone t); [done|]. injection H as <-. by apply inv_cancel.
  - by eapply inv_serve.
  - by eapply inv_handle.
  - by eapply inv_copy.
  - by eapply inv_watch.
  - by eapply inv_dial.
  - by eapply inv_reap.
  - by eapply inv_closing.
Qed.

Lemma inv_run l t t' : inv t -> run describe nretries remotePort l t = Some t' -> inv t'.
Proof.
  revert t. induction l as [|a l IH]; cbn; intros t HI H; [by injection H as <-|].
  apply bind_Some in H as (t1 & Ha & H). eapply IH; [by eapply inv_act|done].
Qed.

(** What a tunnel can become. *)
Definition reachable (t : tunnel) : Prop :=
  exists port n t0 l, OpenTunnel None (Ok (TCPAddr port)) n = Ok (port, t0) /\
    run describe nretries remotePort l t0 = Some t.

Lemma tunnel_reachable_inv t : reachable t -> inv t.
Proof.
  intros (port & n & t0 & l & [= <-] & Hr). eapply inv_run; [|done].
  assert (Hidle : forall j c, repeat CIdle n !! j = Some c -> c = CIdle).
  { intros j c Hc. by eapply repeat_spec, list_elem_of_In, list_elem_of_lookup_2. }
  constructor; cbn; try done.
  - by intros [|].
  - by intros j c ->%Hidle.
  - by intros i j c d ->%Hidle.
Qed.

(** When a call of [Close] has returned, the listener is closed, the accept loop and all
    handlers with their copies have ended, and the only connections that may still be open are
    results of dials that were given up, which their own goroutine closes; the call returns the
    error of closing the listener, whoever closed it. *)
Theorem tunnel_Close_waits t j e :
  reachable t -> closers t !! j = Some (CRet e) ->
  lnOpen t = false /\ lnCloseErr t = Some e /\ serve_pc t = SvEnd /\
  (forall i h, handlers t !! i = Some h -> h_pc h = HEnd /\ toRemote h = false /\ toLocal h = false) /\
  (forall c, c ∈ sockets t -> exists d, dials t !! d = Some (DSent (Ok c) true)).
Proof.
  intros HI%tunnel_reachable_inv Hj. pose proof (inv_closers t HI j _ Hj) as Hc. cbn in Hc.
  pose proof (inv_once t HI) as Ho. rewrite Hc in Ho. destruct Ho as (_ & He & Hw).
  rewrite (inv_wg t HI) in Hw. pose proof (alive_pos (handlers t)) as Hp.
  destruct (serve_pc t) eqn:Hs; cbn in Hw; try lia.
  assert (Hend : forall i h, handlers t !! i = Some h -> h_pc h = HEnd)
    by (intros i h; apply alive_zero; lia).
  split; [apply (inv_ln t HI); by rewrite He|]. split; [done|]. split; [done|]. split.
  - intros i h Hi. pose proof (Hend i h Hi) as Hpc. split; [done|].
    pose proof (hi_copying _ _ _ (inv_hs t HI i h Hi)) as Hcp. rewrite Hpc in Hcp.
    unfold copying in Hcp. destruct (toRemote h), (toLocal h); cbn in Hcp; by try lia.
  - intros c Hin. destruct (inv_sockets t HI c Hin) as [H|[(i & h & Hi & Ho)|(d & a & Hd)]].
    + congruence.
    + unfold owns in Ho. by rewrite (Hend i h Hi) in Ho.
    + exists d. destruct a; [done|].
      destruct (inv_dials t HI d _ Hd eq_refl) as (i & h & Hi & k & Hk).
      rewrite (Hend i h Hi) in Hk. done.
Qed.

(** ** Termination *)

(** Bounds for the moves that are left to each goroutine once the context is done. *)
Definition watch_cost (w : watching) : nat := match w with WSelect => 2 | WRemote => 1 | WEnd => 0 end.

Definition pc_cost (pc : handling) : nat :=
  match pc with
  | HEnd => 0 | HDone => 1 | HLocal => 2 | HRemote => 3 | HStop => 4 | HSecond => 5
  | HCloseRemote => 6 | HCloseLocal => 7 | HFirst => 8 | HStart => 13 | _ => 14
  end.

(** [m] bounds what is left of the program of a handler. *)
Definition fwd_cost (pc : handling) (m : nat) : Prop :=
  match pc with
  | HFwd p => (exists n, tidy p n /\ m = 1 + 4 * n)%nat \/ (exists c, p = Ret (Ok c)) /\ m = 0%nat
  | HSelect _ k => exists n, dial_cont k n /\ (m = 2 + 4 * n)%nat
  | _ => m = 0%nat
  end.

Definition handler_cost (h : handler) (m : nat) : Prop :=
  exists f, fwd_cost (h_pc h) f /\
    (m = f + pc_cost (h_pc h) + Nat.b2n (toRemote h) + Nat.b2n (toLocal h) + watch_cost (watcher h))%nat.

Definition new_cost : nat := 15 + 4 * (1 + 10 * S (Z.to_nat nretries)).

Definition serve_cost (pc : serving) : nat :=
  match pc with
  | SvEnd => 0 | SvDone => 1 | SvReturn => 2 | SvTop | SvError _ => 3
  | SvAccepted _ => 4 + new_cost | SvAccept => 5 + new_cost
  end.
Definition dial_cost (d : dialing) : nat := match d with DRun _ => 2 | DSent _ _ => 1 | DGone => 0 end.
Definition closer_cost (c : closing) : nat :=
  match c with CIdle => 5 | CEnter => 4 | CCancel => 3 | CListener => 2 | CWait _ => 1 | CRet _ => 0 end.

Definition total {A} (f : A -> nat) (l : list A) : nat := sum_list_with f l.

(** [n] bounds the number of moves of the whole tunnel. *)
Definition bounded (t : tunnel) (n : nat) : Prop :=
  exists ms, Forall2 handler_cost (handlers t) ms /\
    (n = serve_cost (serve_pc t) + total id ms + total dial_cost (dials t) +
         total closer_cost (closers t))%nat.

Lemma total_insert {A} (f : A -> nat) l i x y :
  l !! i = Some x -> (total f (<[i := y]> l) + f x = total f l + f y)%nat.
Proof.
  unfold total. revert i. induction l as [|z l IH]; intros [|i] H; cbn in H; [done|done| |].
  - injection H as ->. change (<[0%nat := y]> (x :: l)) with (y :: l). cbn [sum_list_with]. lia.
  - change (<[S i := y]> (z :: l)) with (z :: <[i := y]> l). cbn [sum_list_with].
    specialize (IH i H). lia.
Qed.

Lemma total_app {A} (f : A -> nat) l l' : total f (l ++ l') = (total f l + total f l')%nat.
Proof. apply sum_list_with_app. Qed.

(** The share of handler [i], and the bound after it moved. *)
Lemma bounded_handler t n i h :
  bounded t n -> handlers t !! i = Some h ->
  exists m rest, handler_cost h m /\ (n = m + rest + total dial_cost (dials t))%nat /\
    forall t' h' m', handler_cost h' m' -> handlers t' = <[i := h']> (handlers t) ->
      serve_pc t' = serve_pc t -> closers t' = closers t ->
      bounded t' (m' + rest + total dial_cost (dials t')).
Proof.
  intros (ms & Hms & ->) Hi. destruct (Forall2_lookup_l _ _ _ _ _ Hms Hi) as (m & Hm & Hc).
  pose proof (total_insert id ms i m 0%nat Hm) as H0.
  exists m, (serve_cost (serve_pc t) + total id (<[i := 0%nat]> ms) + total closer_cost (closers t))%nat.
  split; [done|]. split; [unfold id in H0 at 2 4; lia|].
  intros t' h' m' Hc' Hh Hs Hcl. exists (<[i := m']> ms). rewrite Hh Hs Hcl. split.
  - by apply Forall2_insert.
  - pose proof (total_insert id ms i m m' Hm) as H1. unfold id in H0 at 2 4, H1 at 2 4. lia.
Qed.

(** A move of handler [i] that makes it cheaper, dials included. *)
Lemma put_decreases t n i h h' t' :
  bounded t n -> handlers t !! i = Some h ->
  (forall m, handler_cost h m -> exists m', handler_cost h' m' /\
    (m' + total dial_cost (dials t') < m + total dial_cost (dials t))%nat) ->
  handlers t' = <[i := h']> (handlers t) -> serve_pc t' = serve_pc t -> closers t' = closers t ->
  exists n', bounded t' n' /\ (n' < n)%nat.
Proof.
  intros Hb Hi Hlt Hh Hs Hc. destruct (bounded_handler t n i h Hb Hi) as (m & rest & Hm & -> & Hput).
  destruct (Hlt m Hm) as (m' & Hm' & Hl).
  exists (m' + rest + total dial_cost (dials t'))%nat. split; [by eapply Hput|lia].
Qed.

(** The same for a handler whose program is over, before and after the move. *)
Lemma put_decreases_pc t n i h h' t' :
  bounded t n -> handlers t !! i = Some h ->
  (forall f, fwd_cost (h_pc h) f -> fwd_cost (h_pc h') f) ->
  (pc_cost (h_pc h') + Nat.b2n (toRemote h') + Nat.b2n (toLocal h') + watch_cost (watcher h') <
   pc_cost (h_pc h) + Nat.b2n (toRemote h) + Nat.b2n (toLocal h) + watch_cost (watcher h))%nat ->
  handlers t' = <[i := h']> (handlers t) -> dials t' = dials t -> serve_pc t' = serve_pc t ->
  closers t' = closers t -> exists n', bounded t' n' /\ (n' < n)%nat.
Proof.
  intros Hb Hi Hf Hlt Hh Hd Hs Hc. eapply put_decreases; [done|done| |done|done|done].
  intros m (f & Hfc & ->). eexists. split; [by exists f; split; [apply Hf|]|]. rewrite Hd. lia.
Qed.

(** ... and for one that is in [withConn]. *)
Lemma put_decreases_fwd t n i h pc t' :
  bounded t n -> handlers t !! i = Some h ->
  pc_cost (h_pc h) = 14%nat -> (pc_cost pc <= 14)%nat ->
  (forall f, fwd_cost (h_pc h) f -> exists f', fwd_cost pc f' /\
    (f' + pc_cost pc + total dial_cost (dials t') < f + 14 + total dial_cost (dials t))%nat) ->
  handlers t' = <[i := set_pc pc h]> (handlers t) -> serve_pc t' = serve_pc t ->
  closers t' = closers t -> exists n', bounded t' n' /\ (n' < n)%nat.
Proof.
  intros Hb Hi H14 Hle Hf Hh Hs Hc. eapply put_decreases; [done|done| |done|done|done].
  intros m (f & Hfc & ->). destruct (Hf f Hfc) as (f' & Hf' & Hlt). rewrite H14.
  eexists. split; [by exists f'|]. cbn [set_pc h_pc toRemote toLocal watcher]. lia.
Qed.

(** The next action of [withConn] was answered. *)
Lemma answered_decreases t n i h p p' :
  bounded t n -> handlers t !! i = Some h -> h_pc h = HFwd p ->
  (forall m, tidy p m -> exists m', tidy p' m' /\ (m' < m)%nat) -> (forall c, p <> Ret (Ok c)) ->
  exists n', bounded (put i (set_pc (HFwd p') h) t) n' /\ (n' < n)%nat.
Proof.
  intros Hb Hi Hpc Hlt Hne.
  eapply put_decreases_fwd; [done|done|by rewrite Hpc| | |done|done|done]; [done|].
  rewrite Hpc. intros f [(m & Hm & ->)|[[c Hc] _]]; [|by destruct (Hne c)].
  destruct (Hlt m Hm) as (m' & Hm' & Hl). exists (1 + 4 * m')%nat. split; [left; by exists m'|].
  cbn [put set_handlers dials pc_cost]. lia.
Qed.

(** The [select] of [dialChannel] ended. *)
Lemma selected_decreases t n i h d k res st st' :
  bounded t n -> handlers t !! i = Some h -> h_pc h = HSelect d k -> dials t !! d = Some st ->
  (dial_cost st' <= dial_cost st)%nat ->
  exists n', bounded (put i (set_pc (HFwd (k res)) h) (set_dials (<[d := st']> (dials t)) t)) n' /\
    (n' < n)%nat.
Proof.
  intros Hb Hi Hpc Hd Hle.
  eapply put_decreases_fwd; [done|done|by rewrite Hpc| | |done|done|done]; [done|].
  rewrite Hpc. intros f (m & [Hk1 Hk2] & ->). cbn [put set_handlers set_dials dials pc_cost].
  pose proof (total_insert dial_cost _ _ _ st' Hd). destruct res as [c|e].
  - exists 0%nat. split; [right; by eauto|lia].
  - exists (1 + 4 * m)%nat. split; [left; by exists m|lia].
Qed.

Lemma fwd_decreases r i h p t t' n :
  inv t -> handlers t !! i = Some h -> h_pc h = HFwd p -> handle_step r i h t = Some t' ->
  bounded t n -> exists n', bounded t' n' /\ (n' < n)%nat.
Proof.
  intros HI Hi Hpc H Hb. pose proof (hi_prog _ _ _ (inv_hs t HI i h Hi)) as Hp. rewrite Hpc in Hp.
  unfold handle_step in H. rewrite Hpc in H.
  destruct p as [[c|e]| | | | | | | | |k| | | |rc k| |];
    try (apply bind_Some in H as (p' & Ha & [= <-]); eapply answered_decreases; [done|done|done| |done];
         intros [|m] Hm; [by destruct Hm|]; exists m; split; [by eapply answer_tidy|lia]).
  - injection H as <-. eapply put_decreases; [done|done| |done|done|done].
    intros m (f & Hf & ->). rewrite Hpc in Hf. rewrite Hpc. eexists. split; [by exists 0%nat|].
    cbn [put set_handlers dials h_pc pc_cost toRemote toLocal watcher]. lia.
  - injection H as <-.
    eapply put_decreases_fwd; [done|done|by rewrite Hpc| | |done|done|done]; [cbn; lia|].
    intros f _. exists 0%nat. split; [done|cbn [put set_handlers dials pc_cost]; lia].
  - injection H as <-. eapply answered_decreases; [done|done|done| |done].
    intros [|m] Hm; [by destruct Hm|]. exists m. split; [apply Hm|lia].
  - destruct rc; try (destruct Hp as [[[|m] Hm]|[c Hc]]; [by destruct Hm|by destruct Hm|done]).
    injection H as <-. eapply put_decreases_fwd; [done|done|by rewrite Hpc| | |done|done|done]; [done|].
    rewrite Hpc. intros f [([|m] & Hm & ->)|[[c Hc] _]]; [by destruct Hm| |done].
    exists (2 + 4 * m)%nat. split; [by exists m|]. cbn [put set_handlers set_dials dials pc_cost].
    rewrite total_app. cbn [total sum_list_with dial_cost]. lia.
Qed.

Lemma handle_decreases r i h t t' n :
  inv t -> handlers t !! i = Some h -> handle_step r i h t = Some t' -> bounded t n ->
  exists n', bounded t' n' /\ (n' < n)%nat.
Proof.
  intros HI Hi H Hb. pose proof (inv_hs t HI i h Hi) as Hh.
  pose proof (hi_copying _ _ _ Hh) as Hc. pose proof (hi_idle _ _ _ Hh) as Hw.
  destruct (h_pc h) as [p|d k| | | | | | | | | |] eqn:Hpc; [by eapply fwd_decreases|..];
    unfold handle_step in H; rewrite Hpc in H;
    try (injection H as <-; eapply put_decreases_pc; [done|done| | |done|done|done|done];
         rewrite Hpc; [done|cbn; lia]); try done.
  - assert (Htake : match dials t !! d with
        | Some (DSent res _) =>
            Some (put i (set_pc (HFwd (k res)) h) (set_dials (<[d := DGone]> (dials t)) t))
        | _ => None end = Some t' -> exists n', bounded t' n' /\ (n' < n)%nat).
    { destruct (dials t !! d) as [[|res a|]|] eqn:Hd; try done. intros [= <-].
      eapply selected_decreases; [done|done|done|done|cbn; lia]. }
    destruct r; try by apply Htake. destruct (ctxDone t); [|done].
    apply bind_Some in H as (st & Hd & [= <-]).
    eapply selected_decreases; [done|done|done|done|by destruct st].
  - destruct (tokens h); [done|]. injection H as <-.
    eapply put_decreases_pc; [done|done| | |done|done|done|done]; rewrite Hpc; [done|cbn; lia].
  - destruct (tokens h); [done|]. injection H as <-.
    eapply put_decreases_pc; [done|done| | |done|done|done|done]; rewrite Hpc; [done|cbn; lia].
Qed.

Lemma serve_decreases a e t t' n :
  ctxDone t = true -> serve_step describe nretries remotePort a e t = Some t' -> bounded t n ->
  exists n', bounded t' n' /\ (n' < n)%nat.
Proof.
  intros Hd H (ms & Hms & ->). unfold serve_step in H. rewrite Hd in H.
  assert (Hgo : forall t1, t' = t1 -> handlers t1 = handlers t -> dials t1 = dials t ->
            closers t1 = closers t -> (serve_cost (serve_pc t1) < serve_cost (serve_pc t))%nat ->
            exists n', bounded t' n' /\ (n' < serve_cost (serve_pc t) + total id ms +
              total dial_cost (dials t) + total closer_cost (closers t))%nat).
  { intros t1 -> Hh Hdl Hc Hlt. eexists. split; [by exists ms; rewrite Hh|]. rewrite Hdl Hc. lia. }
  destruct (serve_pc t) as [| | |local| | |] eqn:Hs; try done;
    try (destruct a; try (destruct (lnOpen t); [|done]));
    try (injection H as <-; eapply Hgo; [done|by try (unfold closeListener; destruct (lnCloseErr t))..|];
         cbn [serve_pc set_serve serve_cost]; lia).
  all: injection H as <-; eexists; (split;
    [exists (ms ++ [new_cost]); split; [|reflexivity]; apply Forall2_app; [done|];
     constructor; [|done]; exists (1 + 4 * (1 + 10 * S (Z.to_nat nretries)))%nat;
     split; [left; eexists; split; [apply forward_tidy|done]|
             unfold new_cost; cbn [new_handler h_pc pc_cost toRemote toLocal watcher watch_cost Nat.b2n]; lia]|]).
  all: cbn [set_serve set_handlers wg_add serve_pc dials closers serve_cost];
    rewrite total_app; cbn [total sum_list_with id]; lia.
Qed.

Lemma dial_decreases t n d st st' t' :
  bounded t n -> dials t !! d = Some st -> (dial_cost st' < dial_cost st)%nat ->
  dials t' = <[d := st']> (dials t) -> handlers t' = handlers t -> serve_pc t' = serve_pc t ->
  closers t' = closers t -> exists n', bounded t' n' /\ (n' < n)%nat.
Proof.
  intros (ms & Hms & ->) Hd Hlt H1 H2 H3 H4. eexists. split; [by exists ms; rewrite H2|].
  rewrite H1 H3 H4. pose proof (total_insert dial_cost _ _ _ st' Hd). lia.
Qed.

Lemma closer_decreases t n j c c' t' :
  bounded t n -> closers t !! j = Some c -> (closer_cost c' < closer_cost c)%nat ->
  closers t' = <[j := c']> (closers t) -> handlers t' = handlers t -> serve_pc t' = serve_pc t ->
  dials t' = dials t -> exists n', bounded t' n' /\ (n' < n)%nat.
Proof.
  intros (ms & Hms & ->) Hj Hlt H1 H2 H3 H4. eexists. split; [by exists ms; rewrite H2|].
  rewrite H1 H3 H4. pose proof (total_insert closer_cost _ _ _ c' Hj). lia.
Qed.

Lemma close_decreases e j t t' n :
  close_step e j t = Some t' -> bounded t n -> exists n', bounded t' n' /\ (n' < n)%nat.
Proof.
  intros H Hb. unfold close_step in H. destruct (closers t !! j) as [c|] eqn:Hj; [|done].
  destruct c as [| | | |err|]; [| | | | |done].
  - injection H as <-. eapply closer_decreases; [done|done| |done|done|done|done]. cbn. lia.
  - destruct (closeOnce t); [|done|]; injection H as <-;
      (eapply closer_decreases; [done|done| |done|done|done|done]; cbn; lia).
  - injection H as <-. eapply closer_decreases; [done|done| |done|done|done|done]. cbn. lia.
  - injection H as <-. unfold closeListener.
    destruct (lnCloseErr t); (eapply closer_decreases; [done|done| |done|done|done|done]; cbn; lia).
  - destruct (wg t =? 0); [|done]. injection H as <-.
    eapply closer_decreases; [done|done| |done|done|done|done]. cbn. lia.
Qed.

Lemma act_decreases a t t' n :
  inv t -> ctxDone t = true -> act describe nretries remotePort a t = Some t' -> bounded t n ->
  exists n', bounded t' n' /\ (n' < n)%nat.
Proof.
  intros HI Hd H Hb. destruct a as [|acc e|i r|i b|i b|d e|d|j e]; cbn [act] in H;
    try match type of H with mbind _ _ = _ => apply bind_Some in H as (h & Hh & H) end.
  - by rewrite Hd in H.
  - by eapply serve_decreases.
  - by eapply handle_decreases.
  - unfold copy_step in H. destruct (if b then _ else _) eqn:Hr; [|done]. injection H as <-.
    eapply put_decreases_pc; [done|done| | |done|done|done|done]; [done|].
    destruct b; cbn; rewrite Hr; cbn; lia.
  - unfold watch_step in H. destruct (watcher h) eqn:Hw; [| |done].
    + destruct b; [rewrite Hd in H|destruct (stopped h); [|done]]; injection H as <-;
        (eapply put_decreases_pc; [done|done| | |done|done|done|done]; [done|]; cbn; rewrite Hw; cbn; lia).
    + injection H as <-. eapply put_decreases_pc; [done|done| | |done|done|done|done]; [done|].
      cbn. rewrite Hw. cbn. lia.
  - unfold dial_step in H. destruct (dials t !! d) as [[b| |]|] eqn:Hdl; try done. injection H as <-.
    destruct e as [e|]; (eapply dial_decreases; [done|done| |done|done|done|done]; cbn; lia).
  - unfold reap_step in H. destruct (dials t !! d) as [[|[c|e] []|]|] eqn:Hdl; try done; injection H as <-;
      (eapply dial_decreases; [done|done| |done|done|done|done]; cbn; lia).
  - by eapply close_decreases.
Qed.

Lemma act_done a t t' :
  ctxDone t = true -> act describe nretries remotePort a t = Some t' -> ctxDone t' = true.
Proof.
  intros Hd H. destruct a as [|acc e|i r|i b|i b|d e|d|j e]; cbn [act] in H;
    try match type of H with mbind _ _ = _ => apply bind_Some in H as (h & Hh & H) end.
  - by rewrite Hd in H.
  - unfold serve_step, closeListener in H. repeat case_match; simplify_eq; done.
  - unfold handle_step in H. repeat case_match; simplify_eq; try done;
      apply bind_Some in H as (x & _ & [= <-]); done.
  - unfold copy_step in H. repeat case_match; simplify_eq; done.
  - unfold watch_step in H. repeat case_match; simplify_eq; done.
  - unfold dial_step in H. repeat case_match; simplify_eq; done.
  - unfold reap_step in H. repeat case_match; simplify_eq; done.
  - unfold close_step, closeListener in H. repeat case_match; simplify_eq; done.
Qed.

Lemma run_bounded l t t' n :
  inv t -> ctxDone t = true -> bounded t n -> run describe nretries remotePort l t = Some t' ->
  (length l <= n)%nat /\ ctxDone t' = true.
Proof.
  revert t n. induction l as [|a l IH]; cbn; intros t n HI Hd Hb H.
  - injection H as <-. split; [lia|done].
  - apply bind_Some in H as (t1 & Ha & H). destruct (act_decreases a t t1 n HI Hd Ha Hb) as (n1 & Hb1 & Hn1).
    destruct (IH t1 n1) as [Hl Hd']; [by eapply inv_act|by eapply act_done|done|done|]. split; [lia|done].
Qed.

Lemma bounded_exists t : inv t -> exists n, bounded t n.
Proof.
  intros HI. assert (exists ms, Forall2 handler_cost (handlers t) ms) as [ms Hms]; [|by eexists _, ms].
  assert (Hf : Forall (fun h => exists m, handler_cost h m) (handlers t)).
  { apply Forall_lookup. intros i h Hi. pose proof (hi_prog _ _ _ (inv_hs t HI i h Hi)) as Hp.
    assert (exists f, fwd_cost (h_pc h) f) as [f Hf]; [|by eexists _, f].
    destruct (h_pc h); cbn in *; eauto; [|naive_solver].
    destruct Hp as [[n Hn]|Hp]; [exists (1 + 4 * n)%nat; left; eauto|exists 0%nat; by right]. }
  clear HI. induction Hf as [|h l [m Hm] _ [ms Hms]]; [by exists []|]. exists (m :: ms). by constructor.
Qed.

(** ** Progress *)

(** Nothing moves without the outside. *)
Definition stuck (t : tunnel) : Prop :=
  forall a, own a t = true -> act describe nretries remotePort a t = None.

Lemma stuck_serve t : inv t -> stuck t -> serve_pc t = SvEnd.
Proof.
  intros HI Hst. destruct (serve_pc t) eqn:Hs; [| | | | | |done].
  2: { destruct (lnOpen t) eqn:Hl.
       - specialize (Hst (AServe AccTimeout None) eq_refl). cbn in Hst. unfold serve_step in Hst.
         by rewrite Hs Hl in Hst.
       - specialize (Hst (AServe AccError None)). cbn in Hst. rewrite Hs Hl in Hst.
         specialize (Hst eq_refl). unfold serve_step in Hst. by rewrite Hs in Hst. }
  all: specialize (Hst (AServe AccTimeout None) eq_refl); cbn in Hst; unfold serve_step in Hst;
    by rewrite Hs in Hst.
Qed.

Lemma tidy_answer p n : tidy p n -> (exists e, p = Ret (Err e)) \/ (exists k, p = CtxErr k) \/
  (exists l a k, p = Call (DialTCP l a) k) \/ exists r p', answer p r = Some p'.
Proof.
  destruct p as [[c|e]|f k|key k|m k|key m r k|k|l k|k|k|k|k|k|l k|rc k|q k|q k], n as [|n]; cbn;
    intros H; try done; try (by destruct rc; try done; right; right; left; eauto); eauto; do 3 right.
  - by eexists (RConn (mkConn None None 0 false)), _.
  - by eexists (RRole (Lead 0)), _.
  - by eexists (RHealed (Err canceled)), _.
  - by eexists RUnit, _.
  - by eexists (RLink (Err canceled)), _.
  - by eexists (RErr None), _.
Qed.

Lemma stuck_handler t i h :
  inv t -> ctxDone t = true -> stuck t -> handlers t !! i = Some h ->
  h_pc h = HEnd /\ watcher h = WEnd.
Proof.
  intros HI Hd Hst Hi. pose proof (inv_hs t HI i h Hi) as Hh.
  assert (Hm : forall r, handle_step r i h t = None).
  { intros r. specialize (Hst (AHandle i r) eq_refl). cbn in Hst. by rewrite Hi in Hst. }
  assert (Hwt : watcher h = WEnd).
  { specialize (Hst (AWatch i true) eq_refl). cbn in Hst. rewrite Hi in Hst. cbn in Hst.
    unfold watch_step in Hst. rewrite Hd in Hst. by destruct (watcher h). }
  assert (Hcp : forall b : bool, h_local h ∉ sockets t -> (if b then toRemote h else toLocal h) = false).
  { intros b Hl. specialize (Hst (ACopy i b)). cbn in Hst. rewrite Hi in Hst. cbn in Hst.
    rewrite (bool_decide_true _ Hl) in Hst. specialize (Hst eq_refl). unfold copy_step in Hst.
    destruct b; [by destruct (toRemote h)|by destruct (toLocal h)]. }
  pose proof (hi_copying _ _ _ Hh) as Hc. unfold copying in Hc.
  split; [|done]. unfold handle_step in Hm.
  destruct (h_pc h) as [p|d k| | | | | | | | | |] eqn:Hpc; try (by specialize (Hm RUnit)); try done.
  - exfalso. pose proof (hi_prog _ _ _ Hh) as Hp. rewrite Hpc in Hp.
    destruct Hp as [[n Hn]|[c ->]]; [|by specialize (Hm RUnit)].
    destruct (tidy_answer p n Hn) as [[e ->]|[[k ->]|[(l & a & k & ->)|(r & p' & Ha)]]];
      try (by specialize (Hm RUnit)).
    specialize (Hm r). destruct p as [[]| | | | | | | | | | | | |[]| |], r; try done; by destruct n.
  - exfalso. specialize (Hm RUnit). rewrite Hd in Hm. cbn in Hm.
    destruct (inv_select t HI i h d Hi) as [(st & Hdl & _) _]; [by exists k|]. by rewrite Hdl in Hm.
  - exfalso. specialize (Hm RUnit). destruct (tokens h); [|done]. cbn in Hc.
    destruct (hi_watch1 _ _ _ Hh) as [_ Hl]; [by rewrite Hpc|by rewrite Hpc|].
    assert (h_local h ∉ sockets t) as Hl' by (apply Hl; congruence).
    pose proof (Hcp true Hl') as H1. pose proof (Hcp false Hl') as H2. cbn in H1, H2.
    rewrite H1 H2 in Hc. done.
  - exfalso. specialize (Hm RUnit). destruct (tokens h); [|done]. cbn in Hc.
    pose proof (hi_closed1 _ _ _ Hh ltac:(by right)) as Hl'.
    pose proof (Hcp true Hl') as H1. pose proof (Hcp false Hl') as H2. cbn in H1, H2.
    rewrite H1 H2 in Hc. done.
Qed.

(** All that ran for the tunnel is gone; calls of [Close] that were made have returned. *)
Definition drained (t : tunnel) : Prop :=
  serve_pc t = SvEnd /\ lnOpen t = false /\ wg t = 0 /\ sockets t = ∅ /\
  (forall i h, handlers t !! i = Some h ->
    h_pc h = HEnd /\ watcher h = WEnd /\ toRemote h = false /\ toLocal h = false) /\
  forall j c, closers t !! j = Some c -> c = CIdle \/ exists e, c = CRet e.

Lemma stuck_closers t j c : inv t -> stuck t -> wg t = 0 -> closers t !! j = Some c ->
  c = CIdle \/ exists e, c = CRet e.
Proof.
  intros HI Hst Hw.
  assert (Hin : forall j c, closers t !! j = Some c -> inside c = true -> False).
  { intros i x Hi Hx. specialize (Hst (AClose i None)). cbn in Hst. rewrite Hi in Hst.
    unfold close_step in Hst. rewrite Hi in Hst. destruct x; try done; specialize (Hst eq_refl); try done.
    by rewrite Hw in Hst. }
  intros Hj. destruct c as [| | | | |e]; eauto; try (by edestruct Hin).
  exfalso. specialize (Hst (AClose j None)). cbn in Hst. rewrite Hj in Hst.
  specialize (Hst eq_refl). unfold close_step in Hst. rewrite Hj in Hst.
  pose proof (inv_once t HI) as Ho. destruct (closeOnce t); try done.
  destruct Ho as (i & x & Hi & Hx). by eapply Hin.
Qed.

Lemma stuck_drained t : inv t -> ctxDone t = true -> stuck t -> drained t.
Proof.
  intros HI Hd Hst. pose proof (stuck_serve t HI Hst) as Hs.
  assert (Hend : forall i h, handlers t !! i = Some h -> h_pc h = HEnd /\ watcher h = WEnd)
    by (intros i h; by apply stuck_handler).
  assert (Hw : wg t = 0).
  { rewrite (inv_wg t HI) Hs. cbn. apply alive_none. intros i h Hi. by apply (Hend i h). }
  split; [done|]. split; [apply (inv_served t HI); by right|]. split; [done|]. split; [|split].
  - apply set_eq. intros c. split; [|set_solver]. intros Hc. exfalso.
    destruct (inv_sockets t HI c Hc) as [H|[(i & h & Hi & Ho)|(d & a & Hdl)]].
    + congruence.
    + unfold owns in Ho. by rewrite (proj1 (Hend i h Hi)) in Ho.
    + destruct a.
      * specialize (Hst (AReap d) eq_refl). cbn in Hst. unfold reap_step in Hst. by rewrite Hdl in Hst.
      * destruct (inv_dials t HI d _ Hdl eq_refl) as (i & h & Hi & k & Hk).
        destruct (Hend i h Hi). congruence.
  - intros i h Hi. destruct (Hend i h Hi) as [Hpc Hwt]. split; [done|]. split; [done|].
    pose proof (hi_copying _ _ _ (inv_hs t HI i h Hi)) as Hcp. rewrite Hpc in Hcp.
    unfold copying in Hcp. destruct (toRemote h), (toLocal h); cbn in Hcp; by try lia.
  - intros j c. by apply stuck_closers.
Qed.

End Steps.

(** ** A run: one connection is forwarded, then the tunnel is closed under it *)

Definition demo_forwarding : list action :=
  [AServe AccConn None; AServe AccConn None; AServe AccConn None;
   AHandle 0 (RConn (mkConn (Some 7) (Some 7) 1 false)); AHandle 0 RUnit; AHandle 0 RUnit;
   ADial 0 None; AHandle 0 (RBool true); AHandle 0 RUnit; AHandle 0 RUnit;
   AClose 0 None; AClose 0 None; AClose 0 None].

Definition demo_closing : list action :=
  [AClose 0 None; AWatch 0 true; AWatch 0 true; ACopy 0 true; ACopy 0 false] ++
  repeat (AHandle 0 RUnit) 8 ++ repeat (AServe AccTimeout None) 3 ++ [AClose 0 None].

Definition demo_run (l : list action) : option tunnel :=
  match OpenTunnel None (Ok (TCPAddr 40000)) 1 with
  | Ok (_, t) => run "root@master" 2 6443 l t
  | Err _ => None
  end.

Lemma demo_reachable l t : demo_run l = Some t -> reachable "root@master" 2 6443 t.
Proof. intros H. eexists 40000, 1%nat, _, l. by split; [reflexivity|]. Qed.

Lemma demo_fact {A} (f : tunnel -> A) l (a : A) :
  option_map f (demo_run l) = Some a -> exists t, demo_run l = Some t /\ f t = a.
Proof. destruct (demo_run l) as [t|]; [|done]. intros [= <-]. by exists t. Qed.

Example tunnel_Close_waits_witness :
  exists t, demo_run (demo_forwarding ++ demo_closing) = Some t /\
    closers t = [CRet None] /\ lnOpen t = false /\ sockets t = ∅ /\ serve_pc t = SvEnd.
Proof.
  destruct (demo_fact (fun t => (closers t, sockets t)) (demo_forwarding ++ demo_closing)
              ([CRet None], ∅)) as (t & E & [= Hc Hs]); [vm_compute; reflexivity|].
  destruct (tunnel_Close_waits "root@master" 2 6443 t 0 None (demo_reachable _ _ E)) as (Hl & _ & Hsv & _).
  { rewrite Hc. reflexivity. }
  exists t. split; [exact E|]. split; [exact Hc|]. split; [exact Hl|]. split; [exact Hs|exact Hsv].
Defined.

