(* ===== verification/Remote.v ===== *)
(** What the provisioning code relies on of remote hosts
    ([src/internal/infrastructure/ssh/v2], [src/internal/provisioning/dvp/deps.go]): SSH
    clients to a host at the end of a route, commands run over them, and tunnels. The
    interface keeps the connections that are open and the commands that were run; an
    in-memory instance answers from a script. *)
From S2P Require Import Prelude Errors Retry Kube.

Local Open Scope Z_scope.
Local Open Scope go_scope.

(** One hop of a route. *)
Record Endpoint := mkEndpoint {
  User : string;
  Addr : string;
  KeyData : string;
  Passphrase : string
}.

Record ExecResult := mkExec { Stdout : string; Stderr : string; ExitCode : Z }.

(** A command that was run: where, what, and how it ended. *)
Record execution := mkRun {
  run_addr : string;
  run_cmd : string;
  run_res : ExecResult;
  run_err : option error
}.

(** The host a route leads to. *)
Definition target_addr (hops : list Endpoint) : string :=
  match last hops with Some e => Addr e | None => "" end.

(** [ssh.New] and [ssh.NewWithRetry] yield a client, [OpenTunnel] a tunnel with its local
    address; both are connections until they are closed. *)
Class Remote (W : Type) := {
  open_conns : W -> gmap Z string;
  history : W -> list execution;
  sshNew : list Endpoint -> M W (result Z);
  sshNewWithRetry : list Endpoint -> M W (result Z);
  sshExec : Z -> string -> M W (ExecResult * option error);
  sshOpenTunnel : Z -> Z -> M W (result (Z * string));
  connClose : Z -> M W (option error)
}.

(** Opening a connection that fails leaves none behind, closing removes the connection
    whatever it reports, and a command is run on the host of its client. *)
Class RemoteLaws (W : Type) `{Remote W} : Prop := {
  new_ok hops w c w' : sshNew hops w = (Ok c, w') ->
    open_conns w !! c = None /\ open_conns w' = <[c := target_addr hops]> (open_conns w) /\
    history w' = history w;
  new_err hops w e w' : sshNew hops w = (Err e, w') ->
    open_conns w' = open_conns w /\ history w' = history w;
  retry_ok hops w c w' : sshNewWithRetry hops w = (Ok c, w') ->
    open_conns w !! c = None /\ open_conns w' = <[c := target_addr hops]> (open_conns w) /\
    history w' = history w;
  retry_err hops w e w' : sshNewWithRetry hops w = (Err e, w') ->
    open_conns w' = open_conns w /\ history w' = history w;
  exec_runs c cmd w r err w' : sshExec c cmd w = ((r, err), w') ->
    open_conns w' = open_conns w /\
    history w' = history w ++ [mkRun (default "" (open_conns w !! c)) cmd r err];
  tunnel_ok c port w t w' : sshOpenTunnel c port w = (Ok t, w') ->
    open_conns w !! t.1 = None /\
    open_conns w' = <[t.1 := default "" (open_conns w !! c)]> (open_conns w) /\
    history w' = history w;
  tunnel_err c port w e w' : sshOpenTunnel c port w = (Err e, w') ->
    open_conns w' = open_conns w /\ history w' = history w;
  close_removes c w r w' : connClose c w = (r, w') ->
    open_conns w' = delete c (open_conns w) /\ history w' = history w
}.

(** ** Outcomes

    A step of the provisioning code: [None] when a wait ran out of fuel, otherwise a value
    or an error. *)
Notation act W A := (M W (option (result A))).

Section Act.
Context {W : Type}.

Definition give {A} (a : A) : act W A := mret (Some (Ok a)).
Definition fail {A} (e : error) : act W A := mret (Some (Err e)).

Definition act_bind {A B} (m : act W A) (k : A -> act W B) : act W B :=
  let! r := m in
  match r with
  | None => mret None
  | Some (Err e) => fail e
  | Some (Ok a) => k a
  end.

(** [if err != nil { return fmt.Errorf("pre: %w", err) }]. *)
Definition wrapped {A} (pre : string) (m : act W A) : act W A :=
  let! r := m in
  mret match r with Some (Err e) => Some (Err (ErrorfW pre e "")) | r => r end.

(** A call that does not wait, an error that is nil or not, and a wait that ends with one. *)
Definition call {A} (m : M W (result A)) : act W A := let! r := m in mret (Some r).
Definition check_err (m : M W (option error)) : act W unit :=
  let! e := m in mret (Some match e with Some e => Err e | None => Ok tt end).
Definition wait_err (m : M W (option (option error))) : act W unit :=
  let! e := m in
  mret match e with Some (Some e) => Some (Err e) | Some None => Some (Ok tt) | None => None end.
End Act.

Notation "'try!' x := m 'in' k" := (act_bind m (fun x => k))
  (at level 10, x name, m at level 100, k at level 200) : go_scope.
Notation "'try!' ' p := m 'in' k" := (act_bind m (fun x => match x with p => k end))
  (at level 10, p strict pattern, m at level 100, k at level 200) : go_scope.

(** ** Steps that open and run nothing *)
Section Calm.
Context {W : Type} `{R : Remote W}.

(** [m] leaves the connections as they are ... *)
Definition keeps {A} (m : M W A) : Prop := forall w, open_conns (m w).2 = open_conns w.
(** ... and runs no command either. *)
Definition calm {A} (m : M W A) : Prop :=
  forall w, open_conns (m w).2 = open_conns w /\ history (m w).2 = history w.

Lemma calm_keeps {A} (m : M W A) : calm m -> keeps m.
Proof. intros H w. by destruct (H w). Qed.

Lemma ret_calm {A} (a : A) : calm (mret (M := M W) a).
Proof. by intros w. Qed.
Lemma bind_calm {A B} (m : M W A) (k : A -> M W B) :
  calm m -> (forall a, calm (k a)) -> calm (mbind k m).
Proof.
  intros Hm Hk w. unfold mbind, M_bind. specialize (Hm w). destruct (m w) as [a w1].
  cbn in Hm. destruct Hm as [<- <-]. apply Hk.
Qed.
Lemma ret_keeps {A} (a : A) : keeps (mret (M := M W) a).
Proof. by intros w. Qed.
Lemma bind_keeps {A B} (m : M W A) (k : A -> M W B) :
  keeps m -> (forall a, keeps (k a)) -> keeps (mbind k m).
Proof.
  intros Hm Hk w. unfold mbind, M_bind. specialize (Hm w). destruct (m w) as [a w1].
  cbn in Hm. rw -Hm. apply Hk.
Qed.
End Calm.
Arguments keeps {W R A} m.
Arguments calm {W R A} m.

(** Waiting and talking to the API server open no connection of ours. *)
Class CalmCtx (W : Type) `{Remote W, Ctx W} : Prop := {
  ctx_calm : calm ctxErr;
  timer_calm z : calm (timerFires z)
}.
Class CalmClient (W O : Type) `{Remote W, Client W O} : Prop := {
  get_calm k : calm (clientGet (O := O) k);
  create_calm k (o : O) : calm (clientCreate k o);
  update_calm k (o : O) : calm (clientUpdate k o);
  delete_calm k : calm (clientDelete O k);
  list_calm : calm (clientList (O := O))
}.

#[export] Hint Resolve ret_calm ret_keeps calm_keeps ctx_calm timer_calm get_calm create_calm
  update_calm delete_calm list_calm : calm.

Section Steps.
Context {W : Type} `{R : Remote W}.

Lemma act_bind_calm {A B} (m : act W A) (k : A -> act W B) :
  calm m -> (forall a, calm (k a)) -> calm (act_bind m k).
Proof. intros Hm Hk. apply bind_calm; [done|]. intros [[a|e]|]; auto with calm. apply ret_calm. Qed.
Lemma act_bind_keeps {A B} (m : act W A) (k : A -> act W B) :
  keeps m -> (forall a, keeps (k a)) -> keeps (act_bind m k).
Proof. intros Hm Hk. apply bind_keeps; [done|]. intros [[a|e]|]; auto with calm. apply ret_keeps. Qed.

Lemma wrapped_calm {A} pre (m : act W A) : calm m -> calm (wrapped pre m).
Proof. intros Hm. apply bind_calm; auto with calm. Qed.
Lemma wrapped_keeps {A} pre (m : act W A) : keeps m -> keeps (wrapped pre m).
Proof. intros Hm. apply bind_keeps; auto with calm. Qed.
Lemma call_calm {A} (m : M W (result A)) : calm m -> calm (call m).
Proof. intros Hm. apply bind_calm; auto with calm. Qed.
Lemma check_err_calm (m : M W (option error)) : calm m -> calm (check_err m).
Proof. intros Hm. apply bind_calm; auto with calm. Qed.
Lemma wait_err_calm (m : M W (option (option error))) : calm m -> calm (wait_err m).
Proof. intros Hm. apply bind_calm; auto with calm. Qed.
Lemma wait_err_keeps (m : M W (option (option error))) : keeps m -> keeps (wait_err m).
Proof. intros Hm. apply bind_keeps; auto with calm. Qed.

Lemma poll_calm `{CX : Ctx W, CC : !CalmCtx W} {St A} (check : St -> M W (St * option A)) over
    fuel interval s :
  (forall s, calm (check s)) -> calm (poll check over fuel interval s).
Proof.
  intros Hc w. destruct (poll check over fuel interval s w) as [r w'] eqn:E. cbn.
  refine (poll_preserves check over
    (fun w' => open_conns w' = open_conns w /\ history w' = history w) _ _ _ _ _ _ _ _ _ _ E);
    [| | |done].
  - intros s1 w1 x w2 [<- <-] E1. specialize (Hc s1 w1). by rw E1 in Hc.
  - intros w1 e w2 [<- <-] E1. pose proof (ctx_calm w1) as H. by rw E1 in H.
  - intros z w1 b w2 [<- <-] E1. pose proof (timer_calm z w1) as H. by rw E1 in H.
Qed.

Lemma errgroup_keeps (tasks : list (M W (option (option error)))) :
  (forall t, t ∈ tasks -> keeps t) -> keeps (errgroup tasks).
Proof.
  intros Ht w. destruct (errgroup tasks w) as [r w'] eqn:E. cbn.
  refine (errgroup_preserves (fun w' => open_conns w' = open_conns w) _ _ _ _ _ _ E); [|done].
  intros t w1 r1 w2 Hin <- E1. specialize (Ht t Hin w1). by rw E1 in Ht.
Qed.
Lemma errgroup_calm (tasks : list (M W (option (option error)))) :
  (forall t, t ∈ tasks -> calm t) -> calm (errgroup tasks).
Proof.
  intros Ht w. destruct (errgroup tasks w) as [r w'] eqn:E. cbn.
  refine (errgroup_preserves (fun w' => open_conns w' = open_conns w /\ history w' = history w)
    _ _ _ _ _ _ E); [|done].
  intros t w1 r1 w2 Hin [<- <-] E1. specialize (Ht t Hin w1). by rw E1 in Ht.
Qed.
End Steps.

#[export] Hint Resolve act_bind_calm act_bind_keeps bind_calm bind_keeps wrapped_calm wrapped_keeps
  call_calm check_err_calm wait_err_calm wait_err_keeps poll_calm : calm.

(** ** Remote hosts in memory

    [rm_refuse] says of each new connection, in order, whether it is refused;
    [rm_answer] is how a host answers a command, given what was run before. *)
Record remoteHosts := mkHosts {
  rm_open : gmap Z string;
  rm_log : list execution;
  rm_refuse : list bool;
  rm_answer : list execution -> string -> string -> ExecResult * option error
}.

Definition rm_connect (addr : string) : M remoteHosts (result Z) := fun h =>
  let c := fresh (dom (rm_open h)) in
  match rm_refuse h with
  | true :: bs => (Err (Errorf "connection refused"), mkHosts (rm_open h) (rm_log h) bs (rm_answer h))
  | bs => (Ok c, mkHosts (<[c := addr]> (rm_open h)) (rm_log h) (tail bs) (rm_answer h))
  end.

Definition rm_exec (c : Z) (cmd : string) : M remoteHosts (ExecResult * option error) := fun h =>
  let addr := default "" (rm_open h !! c) in
  let r := rm_answer h (rm_log h) addr cmd in
  (r, mkHosts (rm_open h) (rm_log h ++ [mkRun addr cmd r.1 r.2]) (rm_refuse h) (rm_answer h)).

#[export] Instance hosts_remote : Remote remoteHosts := {|
  open_conns := rm_open;
  history := rm_log;
  sshNew := fun hops => rm_connect (target_addr hops);
  sshNewWithRetry := fun hops => rm_connect (target_addr hops);
  sshExec := rm_exec;
  sshOpenTunnel := fun c port h =>
    match rm_connect (default "" (rm_open h !! c)) h with
    | (Ok t, h') => (Ok (t, "127.0.0.1:" +:+ pretty port), h')
    | (Err e, h') => (Err e, h')
    end;
  connClose := fun c h =>
    (None, mkHosts (delete c (rm_open h)) (rm_log h) (rm_refuse h) (rm_answer h))
|}.

Lemma rm_connect_ok addr h c h' :
  rm_connect addr h = (Ok c, h') ->
  rm_open h !! c = None /\ rm_open h' = <[c := addr]> (rm_open h) /\ rm_log h' = rm_log h.
Proof.
  intros H. assert (Hc : c = fresh (dom (rm_open h)) /\ rm_open h' = <[c := addr]> (rm_open h) /\
    rm_log h' = rm_log h).
  { unfold rm_connect in H. destruct (rm_refuse h) as [|[] bs]; [|done|]; by injection H as <- <-. }
  destruct Hc as (-> & H1 & H2). split; [|done]. apply not_elem_of_dom, is_fresh.
Qed.

Lemma rm_connect_err addr h e h' :
  rm_connect addr h = (Err e, h') -> rm_open h' = rm_open h /\ rm_log h' = rm_log h.
Proof.
  unfold rm_connect. intros H. destruct (rm_refuse h) as [|[] bs]; [done| |done].
  by injection H as _ <-.
Qed.

#[export] Instance hosts_remote_laws : RemoteLaws remoteHosts.
Proof.
  split; cbn.
  - intros hops w c w'. apply rm_connect_ok.
  - intros hops w e w'. apply rm_connect_err.
  - intros hops w c w'. apply rm_connect_ok.
  - intros hops w e w'. apply rm_connect_err.
  - intros c cmd w r err w' H. unfold rm_exec in H. injection H as Hr <-. by rw Hr.
  - intros c port w t w' H. destruct (rm_connect _ w) as [[t'|e] w1] eqn:E; [|done].
    injection H as <- <-. by apply rm_connect_ok in E.
  - intros c port w e w' H. destruct (rm_connect _ w) as [[t'|e'] w1] eqn:E; [done|].
    injection H as _ <-. by apply rm_connect_err in E.
  - intros c w r w' H. by injection H as _ <-.
Qed.

(** A world with API servers and with hosts. *)
#[export] Instance pair_remote W1 W2 `{R2 : Remote W2} : Remote (W1 * W2) := {|
  open_conns := fun w => open_conns w.2;
  history := fun w => history w.2;
  sshNew := fun hops => on_snd (sshNew hops);
  sshNewWithRetry := fun hops => on_snd (sshNewWithRetry hops);
  sshExec := fun c cmd => on_snd (sshExec c cmd);
  sshOpenTunnel := fun c port => on_snd (sshOpenTunnel c port);
  connClose := fun c => on_snd (connClose c)
|}.

#[export] Instance pair_remote_laws W1 W2 `{R2 : Remote W2, RL : !RemoteLaws W2} : RemoteLaws (W1 * W2).
Proof.
  split; cbn; intros *; intros [H _]%on_snd_inv; revert H;
    [apply new_ok|apply new_err|apply retry_ok|apply retry_err|apply exec_runs|apply tunnel_ok
    |apply tunnel_err|apply close_removes].
Qed.

Lemma on_fst_calm {W1 W2 A} `{R2 : Remote W2} (m : M W1 A) : calm (on_fst (W2 := W2) m).
Proof. intros w. cbn. unfold on_fst. by destruct (m w.1). Qed.

#[export] Instance pair_calm_ctx W1 W2 `{C1 : Ctx W1, R2 : Remote W2} : CalmCtx (W1 * W2).
Proof. split; intros; apply on_fst_calm. Qed.
#[export] Instance pair_calm_client W1 W2 O `{C1 : Client W1 O, R2 : Remote W2} :
  CalmClient (W1 * W2) O (H0 := pair_client_fst W1 W2 O).
Proof. split; intros; apply on_fst_calm. Qed.
