(* ===== verification/SshDial.v ===== *)
(** Dialing an SSH route ([src/internal/infrastructure/ssh/v2]: [endpoint.go], [dialer.go],
    [client.go], [retry.go]): addresses, credentials, the chain of jump hosts, and what is
    closed when a hop fails. The network is the class [Wire]. *)
From S2P Require Import Prelude Errors Retry Kube Timeout Remote SshConn.

Local Open Scope Z_scope.
Local Open Scope go_scope.

(** ** Addresses: [net.SplitHostPort] and [net.JoinHostPort] *)

(** The parts before and after the first [c], and the last [c]. *)
Fixpoint split_first (c : Ascii.ascii) (s : string) : option (string * string) :=
  match s with
  | EmptyString => None
  | String a s' =>
      if Ascii.eqb a c then Some ("", s')
      else match split_first c s' with
           | Some (h, t) => Some (String a h, t)
           | None => None
           end
  end.

Fixpoint split_last (c : Ascii.ascii) (s : string) : option (string * string) :=
  match s with
  | EmptyString => None
  | String a s' =>
      match split_last c s' with
      | Some (h, t) => Some (String a h, t)
      | None => if Ascii.eqb a c then Some ("", s') else None
      end
  end.

Definition has_byte (c : Ascii.ascii) (s : string) : bool :=
  negb (str_forallb (fun a => negb (Ascii.eqb a c)) s).

Definition addrErr {A} (addr why : string) : result A :=
  Err (Errorf ("address " +:+ addr +:+ ": " +:+ why)).

(** The checks after the host is known: [hp1] is what may not contain an opening bracket,
    [hp2] what may not contain a closing one. *)
Definition checked_port (hp hp1 hp2 host port : string) : result (string * string) :=
  if has_byte "[" hp1 then addrErr hp "unexpected '[' in address"
  else if has_byte "]" hp2 then addrErr hp "unexpected ']' in address"
  else Ok (host, port).

Definition SplitHostPort (hostport : string) : result (string * string) :=
  match split_last ":" hostport with
  | None => addrErr hostport "missing port in address"
  | Some (pre, port) =>
      match hostport with
      | String "[" rest =>
          match split_first "]" rest with
          | None => addrErr hostport "missing ']' in address"
          | Some (host, after) =>
              if String.eqb after "" then addrErr hostport "missing port in address"
              else if String.eqb pre ("[" +:+ host +:+ "]")
                   then checked_port hostport rest after host port
              else if HasPrefix after ":" then addrErr hostport "too many colons in address"
              else addrErr hostport "missing port in address"
          end
      | _ =>
          if has_byte ":" pre then addrErr hostport "too many colons in address"
          else checked_port hostport hostport hostport pre port
      end
  end.

Definition JoinHostPort (host port : string) : string :=
  if has_byte ":" host then "[" +:+ host +:+ "]:" +:+ port else host +:+ ":" +:+ port.

(** ** Endpoints *)

(** A hop of a route: an [Endpoint] of [Remote] with its host key callback, which may be nil. *)
Record hop := mkHop { ep : Endpoint; HostKey : option string }.

Definition addr (e : hop) : string :=
  if String.eqb (Addr (ep e)) "" then ""
  else match SplitHostPort (Addr (ep e)) with
       | Ok _ => Addr (ep e)
       | Err _ => JoinHostPort (Addr (ep e)) "22"
       end.

Definition label (e : hop) : string := User (ep e) +:+ "@" +:+ addr e.

(** [ssh.ClientConfig]: the signers are named by their public keys. *)
Record ClientConfig := mkClientConfig {
  cfg_User : string;
  cfg_Auth : list string;
  cfg_HostKeyCallback : option string;
  cfg_Timeout : Z
}.

(** ** The network

    Connections to the agent, TCP connections, SSH clients and connections through a client
    are resources that are open until they are closed. *)
Class Wire (W : Type) := {
  opened : W -> gset Z;
  authSock : W -> string;
  dialUnix : string -> M W (result Z);
  agentSigners : Z -> M W (result (list string));
  dialTCP : string -> M W (result Z);
  clientDial : Z -> string -> M W (result Z);
  jumpLost : M W (option error);
  newClientConn : Z -> string -> ClientConfig -> M W (result Z);
  closeRes : Z -> M W (option error)
}.

(** Opening fails and opens nothing, or yields a new resource. A handshake turns a connection
    into a client that owns it, or fails, with the connection closed or not. [jumpLost] is
    the context when its end is noticed before an answer. *)
Class WireLaws (W : Type) `{Wire W} : Prop := {
  unix_law s w r w' : dialUnix s w = (r, w') ->
    match r with Ok c => c ∉ opened w /\ opened w' = {[c]} ∪ opened w | Err _ => opened w' = opened w end;
  signers_law c w r w' : agentSigners c w = (r, w') -> opened w' = opened w;
  tcp_law a w r w' : dialTCP a w = (r, w') ->
    match r with Ok c => c ∉ opened w /\ opened w' = {[c]} ∪ opened w | Err _ => opened w' = opened w end;
  client_law j a w r w' : clientDial j a w = (r, w') ->
    match r with Ok c => c ∉ opened w /\ opened w' = {[c]} ∪ opened w | Err _ => opened w' = opened w end;
  jump_law w r w' : jumpLost w = (r, w') -> opened w' = opened w;
  handshake_law c a cfg w r w' : newClientConn c a cfg w = (r, w') ->
    match r with
    | Ok cl => cl ∉ opened w ∖ {[c]} /\ opened w' = {[cl]} ∪ (opened w ∖ {[c]})
    | Err _ => opened w' ∖ {[c]} = opened w ∖ {[c]}
    end;
  close_law c w r w' : closeRes c w = (r, w') -> opened w' = opened w ∖ {[c]}
}.

Section Dial.
Context {W : Type} `{WR : Wire W}.
(** [ssh.ParsePrivateKey] and [ssh.ParsePrivateKeyWithPassphrase]. *)
Context (ParsePrivateKey : string -> result string).
Context (ParsePrivateKeyWithPassphrase : string -> string -> result string).

(** [Ok None]: the key needs a passphrase and there is none. *)
Definition parseSigner (raw passphrase : string) : result (option string) :=
  match ParsePrivateKey raw with
  | Ok signer => Ok (Some signer)
  | Err err =>
      match errors_As as_passphrase err with
      | None => Err err
      | Some _ =>
          if String.eqb passphrase "" then Ok None
          else match ParsePrivateKeyWithPassphrase raw passphrase with
               | Err err => Err (ErrorfW "decrypt private key with passphrase: " err "")
               | Ok signer => Ok (Some signer)
               end
      end
  end.

(** The signers of the key of an endpoint. *)
Definition keySigners (e : hop) : result (list string) :=
  if String.eqb (KeyData (ep e)) "" then Ok []
  else match parseSigner (KeyData (ep e)) (Passphrase (ep e)) with
       | Err err => Err (ErrorfW ("parse private key for " +:+ label e +:+ ": ") err "")
       | Ok (Some signer) => Ok [signer]
       | Ok None => Ok []
       end.

(** The connection to the agent, if there is one, and its signers. *)
Definition agentPart : M W (option Z * list string) :=
  let! sock := gets authSock in
  if String.eqb sock "" then mret (None, [])
  else
    let! dialed := dialUnix sock in
    match dialed with
    | Err _ => mret (None, [])
    | Ok conn =>
        let! got := agentSigners conn in
        mret (Some conn, match got with Ok ss => ss | Err _ => [] end)
    end.

Definition clientConfig (e : hop) (defaultHostKey : option string)
    : M W (result (ClientConfig * option Z)) :=
  match keySigners e with
  | Err err => mret (Err err)
  | Ok ks =>
      let! '(agentCloser, agentKeys) := agentPart in
      let signers := ks ++ agentKeys in
      match signers with
      | [] => mret (Err (Errorf ("no usable credentials for " +:+ label e +:+
                                 ": set KeyData or start an ssh-agent")))
      | _ =>
          let hostKey := match HostKey e with None => defaultHostKey | k => k end in
          mret (Ok (mkClientConfig (User (ep e)) signers hostKey defaultDialTimeout, agentCloser))
      end
  end.

(** ** Dialing *)

(** [chainCloser]: the closers in the order they were added. *)
Definition chain_add (cc : list Z) (c : option Z) : list Z :=
  match c with Some c => cc ++ [c] | None => cc end.

Fixpoint close_all (cs : list Z) : M W (list error) :=
  match cs with
  | [] => mret []
  | c :: cs =>
      let! err := closeRes c in
      let! errs := close_all cs in
      mret (match err with
            | Some e => if isTransient (Some e) then errs else e :: errs
            | None => errs
            end)
  end.

Definition chain_Close (cc : list Z) : M W (option error) :=
  let! errs := close_all (rev cc) in
  mret (match joinErrors errs with
        | None => None
        | Some e => Some (ErrorfW "close ssh chain: " e "")
        end).

(** Setting and clearing the deadline of the connection is left out. *)
Definition handshakeOver (conn : Z) (a : string) (cfg : ClientConfig) : M W (result Z) :=
  newClientConn conn a cfg.

Definition dialSSH (a : string) (cfg : ClientConfig) : M W (result Z) :=
  let! dialed := dialTCP a in
  match dialed with
  | Err err => mret (Err err)
  | Ok conn =>
      let! hs := handshakeOver conn a cfg in
      match hs with
      | Err err => let! _ := closeRes conn in mret (Err err)
      | Ok client => mret (Ok client)
      end
  end.

(** When the context ends first, the goroutine that dials closes what it gets. *)
Definition dialThroughJump (jump : Z) (a : string) : M W (result Z) :=
  let! lost := jumpLost in
  let! dialed := clientDial jump a in
  match lost with
  | Some err =>
      match dialed with
      | Ok conn => let! _ := closeRes conn in mret (Err err)
      | Err _ => mret (Err err)
      end
  | None => mret dialed
  end.

(** The hops after the first: the client of the last hop, and the chain in any case. *)
Fixpoint dial_more (firstLabel : string) (defaultHostKey : option string) (current : Z)
    (chain : list Z) (hops : list hop) : M W (result Z * list Z) :=
  match hops with
  | [] => mret (Ok current, chain)
  | h :: hops =>
      let! cfg := clientConfig h defaultHostKey in
      match cfg with
      | Err err => mret (Err (ErrorfW ("build config for " +:+ label h +:+ ": ") err ""), chain)
      | Ok (cfg, hopAgent) =>
          let chain := chain_add chain hopAgent in
          let! next := dialThroughJump current (addr h) in
          match next with
          | Err err =>
              mret (Err (ErrorfW ("dial " +:+ label h +:+ " via " +:+ firstLabel +:+ ": ") err ""),
                    chain)
          | Ok next =>
              let! hs := handshakeOver next (addr h) cfg in
              match hs with
              | Err err =>
                  let! _ := closeRes next in
                  mret (Err (ErrorfW ("handshake to " +:+ label h +:+ ": ") err ""), chain)
              | Ok hopClient =>
                  dial_more firstLabel defaultHostKey hopClient (chain ++ [hopClient]) hops
              end
          end
      end
  end.

Definition dial_chain (defaultHostKey : option string) (first : hop) (more : list hop)
    : M W (result Z * list Z) :=
  let! cfg := clientConfig first defaultHostKey in
  match cfg with
  | Err err => mret (Err (ErrorfW ("build config for " +:+ label first +:+ ": ") err ""), [])
  | Ok (cfg, agentCloser) =>
      let chain := chain_add [] agentCloser in
      let! dialed := dialSSH (addr first) cfg in
      match dialed with
      | Err err => mret (Err (ErrorfW ("dial " +:+ label first +:+ ": ") err ""), chain)
      | Ok current => dial_more (label first) defaultHostKey current (chain ++ [current]) more
      end
  end.

(** [route.Dial]: the chain is closed when an error is returned. *)
Definition route_Dial (defaultHostKey : option string) (first : hop) (more : list hop)
    : M W (result (Z * list Z)) :=
  let! '(r, chain) := dial_chain defaultHostKey first more in
  match r with
  | Ok client => mret (Ok (client, chain))
  | Err err => let! _ := chain_Close chain in mret (Err err)
  end.

Definition Describe (first : hop) (more : list hop) : string :=
  Prelude.Join (map label (first :: more)) " -> ".

(** ** What is open *)
Context {WL : WireLaws W}.

(** A key that cannot be read is an error; a hop without any key is left to the agent. *)
Definition has_key (e : hop) : Prop := keySigners e <> Ok [].

(** [fresh] was opened and nothing else. *)
Definition opens (w w' : W) (fresh : option Z) : Prop :=
  match fresh with
  | Some c => c ∉ opened w /\ opened w' = {[c]} ∪ opened w
  | None => opened w' = opened w
  end.

Lemma agentPart_opens w a ks w' : agentPart w = ((a, ks), w') -> opens w w' a.
Proof.
  intros H. unfold agentPart, gets, mbind, M_bind in H; cbv beta iota in H.
  destruct (String.eqb (authSock w) ""); [by injection H as <- <- <-|].
  mstep H as [d w2] E2. apply unix_law in E2. destruct d as [c|e]; [|by injection H as <- <- <-].
  mstep H as [g w3] E3. apply signers_law in E3. injection H as <- <- <-.
  destruct E2. cbn. by rw E3.
Qed.

Lemma clientConfig_opens e d w r w' :
  has_key e -> clientConfig e d w = (r, w') ->
  opens w w' (match r with Ok (_, a) => a | Err _ => None end).
Proof.
  unfold has_key. intros Hk H. unfold clientConfig in H.
  destruct (keySigners e) as [[|k ks]|err]; [done| |by injection H as <- <-].
  mstep H as [[a ak] w1] E1. injection H as <- <-. by eapply agentPart_opens.
Qed.

Lemma dialSSH_opens a cfg w r w' :
  dialSSH a cfg w = (r, w') -> opens w w' (match r with Ok c => Some c | Err _ => None end).
Proof.
  intros H. unfold dialSSH, handshakeOver in H. mstep H as [d w1] E1. apply tcp_law in E1.
  destruct d as [c|e]; [|by injection H as <- <-]. destruct E1 as [Hc E1].
  mstep H as [hs w2] E2. apply handshake_law in E2. destruct hs as [cl|e].
  - injection H as <- <-. destruct E2 as [Hcl E2]. rw E1 in Hcl, E2. cbn.
    replace (({[c]} ∪ opened w) ∖ {[c]}) with (opened w) in * by set_solver. done.
  - mstep H as [x w3] E3. apply close_law in E3. injection H as <- <-. cbn. rw E3 E2 E1.
    set_solver.
Qed.

Lemma dialThroughJump_opens j a w r w' :
  dialThroughJump j a w = (r, w') -> opens w w' (match r with Ok c => Some c | Err _ => None end).
Proof.
  intros H. unfold dialThroughJump in H. mstep H as [lost w1] E1. apply jump_law in E1.
  mstep H as [d w2] E2. apply client_law in E2.
  destruct lost as [err|], d as [c|e]; cbn in *; try (injection H as <- <-; cbn).
  - mstep H as [x w3] E3. apply close_law in E3. injection H as <- <-. cbn.
    destruct E2 as [Hc E2]. rw E3 E2 E1. rw E1 in Hc. set_solver.
  - by rw E2.
  - by rw -E1.
  - by rw E2.
Qed.

(** The chain holds what was opened since [w0]. *)
Definition holds (w0 w : W) (chain : list Z) : Prop :=
  opened w = list_to_set chain ∪ opened w0 /\ list_to_set chain ## opened w0.

Lemma holds_opens w0 w w' chain c :
  holds w0 w chain -> opens w w' c -> holds w0 w' (chain_add chain c).
Proof.
  intros [H1 H2] Ho. destruct c as [c|]; cbn in *.
  - destruct Ho as [Hc Ho]. unfold holds. rw list_to_set_app_L /= Ho H1. rw H1 in Hc. set_solver.
  - split; [by rw Ho|done].
Qed.

Lemma dial_more_holds fl d cur chain hops w0 w r chain' w' :
  Forall has_key hops -> holds w0 w chain -> cur ∈ chain ->
  dial_more fl d cur chain hops w = ((r, chain'), w') ->
  holds w0 w' chain' /\ forall c, r = Ok c -> c ∈ chain'.
Proof.
  intros Hk. revert cur chain w. induction Hk as [|h hops Hh Hk IH]; intros cur chain w Hw Hcur H;
    cbn [dial_more] in H.
  { injection H as <- <- <-. split; [done|]. by intros c [= <-]. }
  mstep H as [cfg w1] E1. apply clientConfig_opens in E1; [|done].
  pose proof (holds_opens _ _ _ _ _ Hw E1) as Hw1.
  destruct cfg as [[cfg a]|e]; [|by injection H as <- <- <-].
  mstep H as [nx w2] E2. apply dialThroughJump_opens in E2.
  destruct nx as [nx|e]; [|injection H as <- <- <-; split; [by eapply (holds_opens _ _ _ _ None)|done]].
  mstep H as [hs w3] E3. apply handshake_law in E3. destruct E2 as [Hnx E2].
  assert (Hdrop : opened w2 ∖ {[nx]} = opened w1) by (rw E2; set_solver).
  destruct hs as [cl|e].
  - refine (IH _ _ _ _ _ H); [|set_solver].
    eapply (holds_opens _ _ _ _ (Some cl)); [exact Hw1|]. cbn. by rw -Hdrop.
  - mstep H as [x w4] E4. apply close_law in E4. injection H as <- <- <-. split; [|done].
    eapply (holds_opens _ _ _ _ None); [exact Hw1|]. cbn. by rw E4 E3 Hdrop.
Qed.

Lemma dial_chain_holds d first more w r chain w' :
  Forall has_key (first :: more) -> dial_chain d first more w = ((r, chain), w') ->
  holds w w' chain /\ forall c, r = Ok c -> c ∈ chain.
Proof.
  intros [Hk Hks]%Forall_cons H. unfold dial_chain in H.
  assert (Hw : holds w w []) by (split; set_solver).
  mstep H as [cfg w1] E1. apply clientConfig_opens in E1; [|done].
  pose proof (holds_opens _ _ _ _ _ Hw E1) as Hw1.
  destruct cfg as [[cfg a]|e]; [|by injection H as <- <- <-].
  mstep H as [d1 w2] E2. apply dialSSH_opens in E2. pose proof (holds_opens _ _ _ _ _ Hw1 E2) as Hw2.
  destruct d1 as [c|e]; [|by injection H as <- <- <-].
  refine (dial_more_holds _ _ _ _ _ _ _ _ _ _ Hks Hw2 _ H). set_solver.
Qed.

Lemma close_all_opened cs w : opened (close_all cs w).2 = opened w ∖ list_to_set cs.
Proof.
  revert w. induction cs as [|c cs IH]; intros w; cbn [close_all]; [set_solver|].
  unfold mbind, M_bind, mret, M_ret. destruct (closeRes c w) as [e w1] eqn:E1.
  apply close_law in E1. specialize (IH w1). destruct (close_all cs w1) as [es w2]. cbn in *.
  rw IH E1. set_solver.
Qed.

Lemma chain_Close_opened cc w : opened (chain_Close cc w).2 = opened w ∖ list_to_set cc.
Proof.
  unfold chain_Close, mbind, M_bind, mret, M_ret. pose proof (close_all_opened (rev cc) w) as H.
  destruct (close_all (rev cc) w) as [es w1]. cbn in *.
  by rw H (list_to_set_perm_L _ _ (Permutation_rev cc)).
Qed.

Lemma dial_result d first more w r w' :
  Forall has_key (first :: more) -> route_Dial d first more w = (r, w') ->
  match r with
  | Err _ => opened w' = opened w
  | Ok (c, chain) => c ∈ chain /\ opened w' = list_to_set chain ∪ opened w /\
      opened (chain_Close chain w').2 = opened w
  end.
Proof.
  intros Hk H. unfold route_Dial in H. mstep H as [[x chain] w1] E1.
  destruct (dial_chain_holds _ _ _ _ _ _ _ Hk E1) as [[Ho Hd] Hc]. destruct x as [c|e].
  - injection H as <- <-. split; [by apply Hc|]. split; [done|]. rw chain_Close_opened Ho. set_solver.
  - mstep H as [y w2] E2. injection H as <- <-. pose proof (chain_Close_opened chain w1) as Hcl.
    rw E2 in Hcl. cbn in Hcl. rw Hcl Ho. set_solver.
Qed.

(** Dialing a route is all or nothing: a failed dial leaves open exactly what was open
    before, at whichever hop it failed; a successful one yields the client of the last hop
    and a chain of everything that was opened, and closing the chain closes all of it. *)
Theorem Dial_all_or_nothing d first more w r w' :
  Forall has_key (first :: more) -> route_Dial d first more w = (r, w') ->
  match r with
  | Err _ => opened w' = opened w
  | Ok (c, chain) => c ∈ chain /\ opened w' = list_to_set chain ∪ opened w /\
      opened (chain_Close chain w').2 = opened w
  end.
Proof. apply dial_result. Qed.

(** ** Clients ([client.go], [retry.go]) *)

(** [conn] is named by its client; [chain] is its closer and [loop] what the keepalive
    goroutine runs with. *)
Record Client := mkClient {
  c_conn : conn;
  c_chain : list Z;
  c_loop : option (Z * Z);
  c_retries : Z
}.

Definition New (dialer : option (hop * list hop)) (opts : list Option) : M W (result Client) :=
  match dialer with
  | None => mret (Err (Errorf "ssh: nil dialer"))
  | Some (first, more) =>
      let o := buildOptions opts in
      let! dialed := route_Dial (Some (hostKey o)) first more in
      let link := match dialed with Ok (c, _) => Ok c | Err e => Err e end in
      let chain := match dialed with Ok (_, ch) => ch | Err _ => [] end in
      mret (match newConn (Describe first more) link o with
            | Err err => Err err
            | Ok (cn, loop) => Ok (mkClient cn chain loop (retries o))
            end)
  end.

(** One round of [NewWithRetry]: it keeps the last error. *)
Definition attempt (dialer : option (hop * list hop)) (opts : list Option) (_ : option error)
    : M W (option error * option (result Client)) :=
  let! r := New dialer opts in
  mret (match r with
        | Ok c => (None, Some (Ok c))
        | Err err => (Some err, None)
        end).

(** [NewWithRetry]: [wake] is the [select] of its loop. *)
Definition NewWithRetry `{CX : Ctx W} `{TM : !Timeout W} (fuel : nat)
    (dialer : option (hop * list hop)) (retryEvery timeout : Z) (opts : list Option)
    : M W (option (result Client)) :=
  match dialer with
  | None => mret (Some (Err (Errorf "ssh: nil dialer")))
  | Some (first, more) =>
      wait_now
        (attempt dialer opts)
        (fun ce => Err (default (Errorf "") ce))
        (fun last => Err (ErrorfWn ("ssh: connect to " +:+ Describe first more +:+ " within " +:+
                                    fmt_duration timeout +:+ ": ") last ""))
        fuel retryEvery None
  end.

(** What a client holds open beside [base]. *)
Definition client_open (base : gset Z) (c : Client) (w : W) : Prop :=
  exists l, client (c_conn c) = Some l /\ l ∈ c_chain c /\ closed (c_conn c) = false /\
    opened w = list_to_set (c_chain c) ∪ base /\ opened (chain_Close (c_chain c) w).2 = base.

Lemma New_opens dialer opts w r w' :
  (forall first more, dialer = Some (first, more) -> Forall has_key (first :: more)) ->
  New dialer opts w = (r, w') ->
  match r with Ok c => client_open (opened w) c w' | Err _ => opened w' = opened w end.
Proof.
  intros Hk H. unfold New in H. destruct dialer as [[first more]|]; [|by injection H as <- <-].
  mstep H as [d w1] E1. apply dial_result in E1; [|by eapply Hk].
  destruct d as [[c chain]|e]; injection H as <- <-; [|done].
  exists c. by destruct E1 as (? & ? & ?).
Qed.

(** [NewWithRetry] returns when its timer lets no more ticks through; failed attempts
    leave nothing open, so that an error leaves open what was open before, and a client holds
    exactly the chain of the attempt that succeeded. *)
Theorem NewWithRetry_clean `{CX : Ctx W} `{TM : !Timeout W} `{TL : !TimeoutLaws W}
    fuel dialer retryEvery timeout opts w :
  (forall w, opened (ctxErr w).2 = opened w) ->
  (forall z w, opened (wake z w).2 = opened w) ->
  (forall w, (budget (New dialer opts w).2 <= budget w)%nat) ->
  (forall first more, dialer = Some (first, more) -> Forall has_key (first :: more)) ->
  (budget w < fuel)%nat ->
  exists r w', NewWithRetry fuel dialer retryEvery timeout opts w = (Some r, w') /\
    match r with Ok c => client_open (opened w) c w' | Err _ => opened w' = opened w end.
Proof.
  intros Hctx Hwake Hb Hk Hf. unfold NewWithRetry. destruct dialer as [[first more]|]; [|by eexists _, _].
  set (d := Some (first, more)) in *. set (ol := fun last => Err (ErrorfWn _ last _)).
  assert (Hn : forall s v s' o v', attempt d opts s v = ((s', o), v') ->
    match o with
    | Some (Ok c) => client_open (opened v) c v'
    | Some (Err _) => False
    | None => opened v' = opened v
    end).
  { intros s v s' o v' H. unfold attempt in H. mstep H as [x v1] E1.
    apply New_opens in E1; [|done]. by destruct x; injection H as <- <- <-. }
  destruct (wait_now_total (attempt d opts) (fun ce => Err (default (Errorf "") ce)) ol
              fuel retryEvery None w) as (r & w' & Hrun); [|done|].
  { intros s v. unfold attempt, mbind, M_bind, mret, M_ret. specialize (Hb v).
    by destruct (New d opts v) as [[c|e] v1]. }
  exists r, w'. split; [done|].
  destruct (wait_now_concluded (attempt d opts) (fun ce => Err (default (Errorf "") ce)) ol
              (fun _ v => opened v = opened w) fuel retryEvery None w r w')
    as [s v s' HJ Hc|s ce z v0 v HJ _ Hc ->|s HJ ->]; try done.
  - intros s v s' v' HJ Hc%Hn. by rw Hc.
  - intros s z v ev v' HJ Hc. specialize (Hwake z v). rw Hc in Hwake. by rw Hwake.
  - apply Hn in Hc. rw -HJ. by destruct r.
  - specialize (Hctx v). rw Hc in Hctx. by rw Hctx.
Qed.
End Dial.

(** ** Addresses can be split again *)

Lemma has_byte_false c s : has_byte c s = false <-> str_forallb (fun a => negb (Ascii.eqb a c)) s = true.
Proof. unfold has_byte. by rw negb_false_iff. Qed.

Lemma has_byte_app c s t : has_byte c (s +:+ t) = has_byte c s || has_byte c t.
Proof. unfold has_byte. by rw str_forallb_app negb_andb. Qed.

Lemma has_byte_cons c a s : has_byte c (String a s) = Ascii.eqb a c || has_byte c s.
Proof. unfold has_byte. cbn. by destruct (Ascii.eqb a c). Qed.

Lemma split_last_none c s : has_byte c s = false -> split_last c s = None.
Proof.
  induction s as [|a s IH]; [done|]. rw has_byte_cons. intros [Ha Hs]%orb_false_iff.
  cbn. rw IH; [done|]. by rw Ha.
Qed.

Lemma split_last_app c s t :
  has_byte c t = false -> split_last c (s +:+ String c t) = Some (s, t).
Proof.
  intros Ht. induction s as [|a s IH].
  - rw str_app_nil_l. cbn [split_last]. rw (split_last_none _ _ Ht). by rw Ascii.eqb_refl.
  - rw str_app_cons. cbn [split_last]. by rw IH.
Qed.

Lemma split_first_app c s t :
  has_byte c s = false -> split_first c (s +:+ String c t) = Some (s, t).
Proof.
  induction s as [|a s IH]; intros Hs.
  - rw str_app_nil_l. cbn [split_first]. by rw Ascii.eqb_refl.
  - rw has_byte_cons in Hs. apply orb_false_iff in Hs as [Ha Hs].
    rw str_app_cons. cbn [split_first]. rw Ha. by rw IH.
Qed.

Definition no_brackets (s : string) : Prop := has_byte "[" s = false /\ has_byte "]" s = false.

Lemma join_split host port :
  no_brackets host -> no_brackets port -> has_byte ":" port = false ->
  SplitHostPort (JoinHostPort host port) = Ok (host, port).
Proof.
  intros [Hh1 Hh2] [Hp1 Hp2] Hp. unfold JoinHostPort. destruct (has_byte ":" host) eqn:Hc.
  - unfold SplitHostPort.
    replace ("[" +:+ host +:+ "]:" +:+ port) with (("[" +:+ host +:+ "]") +:+ String ":" port)
      by (by rw !str_app_assoc).
    rw split_last_app //. rw str_app_assoc. cbn [String.append].
    change ("[" +:+ (host +:+ "]") +:+ String ":" port) with (String "[" ((host +:+ "]") +:+ String ":" port)).
    cbv beta iota. rw str_app_assoc.
    change ("]" +:+ String ":" port) with (String "]" (String ":" port)).
    rw split_first_app //. cbn [String.eqb].
    unfold checked_port. rw String.eqb_refl has_byte_app Hh1 !has_byte_cons Hp1 Hp2. done.
  - unfold SplitHostPort. rw split_last_app //.
    assert (Hb : has_byte "[" (host +:+ ":" +:+ port) = false).
    { by rw !has_byte_app Hh1 Hp1. }
    assert (Hb2 : has_byte "]" (host +:+ ":" +:+ port) = false).
    { by rw !has_byte_app Hh2 Hp2. }
    change (String ":" port) with (":" +:+ port).
    destruct (host +:+ ":" +:+ port) as [|a rest] eqn:E.
    { unfold checked_port. by rw Hc. }
    assert (Ha : a <> "["%char).
    { intros ->. by rw has_byte_cons in Hb. }
    unfold checked_port. rw Hc Hb Hb2.
    destruct a as [[] [] [] [] [] [] [] []]; done.
Qed.

(** An address without brackets is dialed as a host and a port that the network splits
    again: its own ones when it has a port, otherwise the address itself, also a bare IPv6
    address, and port 22. *)
Theorem addr_splits e :
  Addr (ep e) <> "" -> no_brackets (Addr (ep e)) ->
  exists host port, SplitHostPort (addr e) = Ok (host, port) /\
    (SplitHostPort (Addr (ep e)) = Ok (host, port) \/ (host = Addr (ep e) /\ port = "22")).
Proof.
  intros Hne Hb. unfold addr. rw (proj2 (String.eqb_neq _ _) Hne).
  destruct (SplitHostPort (Addr (ep e))) as [[h p]|err] eqn:E; [eauto|].
  eexists _, _. split; [by apply join_split|]. by right.
Qed.

Definition ipv6_hop : hop := mkHop (mkEndpoint "root" "fe80::1" "" "") None.

Lemma addr_splits_witness : SplitHostPort (addr ipv6_hop) = Ok ("fe80::1", "22").
Proof.
  destruct (addr_splits ipv6_hop) as (h & p & H & [H2|[-> ->]]); [done|done| |done].
  exfalso. vm_compute in H2. done.
Defined.

(** A bracketed IPv6 address without a port gets a second pair of brackets, which the network
    does not accept. *)
Example bracketed_addr_is_not_dialable :
  let e := mkHop (mkEndpoint "root" "[fe80::1]" "" "") None in
  addr e = "[[fe80::1]]:22" /\ if SplitHostPort (addr e) is Ok _ then False else True.
Proof. by vm_compute. Qed.

(** ** A network in memory

    The script says which openings succeed; afterwards all do. *)
Record wire := mkWire {
  wi_open : gset Z;
  wi_sock : string;
  wi_keys : list string;
  wi_script : list bool;
  wi_ticks : nat
}.

Definition wire_with (o : gset Z) (script : list bool) (w : wire) : wire :=
  mkWire o (wi_sock w) (wi_keys w) script (wi_ticks w).

Definition new_id (s : gset Z) : Z := 1 + foldr Z.max 0 (elements s).

Lemma new_id_new s : new_id s ∉ s.
Proof.
  intros H. assert (Hl : forall l x, x ∈ l -> x <= foldr Z.max 0 l).
  { induction l as [|y l IH]; intros x Hx; [by apply elem_of_nil in Hx|].
    apply elem_of_cons in Hx as [->|Hx]; cbn; [|apply IH in Hx]; lia. }
  specialize (Hl (elements s) (new_id s)). rw elem_of_elements in Hl. specialize (Hl H).
  unfold new_id in Hl. lia.
Qed.

Definition wire_open (base : wire -> gset Z) : M wire (result Z) := fun w =>
  match wi_script w with
  | false :: sc => (Err io_EOF, wire_with (wi_open w) sc w)
  | true :: sc => (Ok (new_id (base w)), wire_with ({[new_id (base w)]} ∪ base w) sc w)
  | [] => (Ok (new_id (base w)), wire_with ({[new_id (base w)]} ∪ base w) [] w)
  end.

#[export] Instance wire_wire : Wire wire := {|
  opened := wi_open;
  authSock := wi_sock;
  dialUnix := fun _ => wire_open wi_open;
  agentSigners := fun _ => gets (fun w => Ok (wi_keys w));
  dialTCP := fun _ => wire_open wi_open;
  clientDial := fun _ _ => wire_open wi_open;
  jumpLost := mret None;
  newClientConn := fun c _ _ => wire_open (fun w => wi_open w ∖ {[c]});
  closeRes := fun c w => (None, wire_with (wi_open w ∖ {[c]}) (wi_script w) w)
|}.

#[export] Instance wire_ctx : Ctx wire := {|
  ctxErr := gets (fun w => if wi_ticks w is O then Some context_DeadlineExceeded else None);
  timerFires := fun _ w => (false, mkWire (wi_open w) (wi_sock w) (wi_keys w) (wi_script w) 0)
|}.

#[export] Instance wire_timeout : Timeout wire := {|
  wake := fun _ w => match wi_ticks w with
    | O => (WokenDone, w)
    | S n => (WokenTick, mkWire (wi_open w) (wi_sock w) (wi_keys w) (wi_script w) n)
    end
|}.

#[export] Instance wire_timeout_laws : TimeoutLaws wire.
Proof.
  refine {| budget := wi_ticks |}; cbn.
  - intros z w w'. destruct (wi_ticks w) eqn:E; [|done]. intros [= <-]. unfold gets. rw E. eauto.
  - intros w. lia.
  - intros z w. destruct (wi_ticks w) eqn:E; cbn; lia.
  - intros z w w'. destruct (wi_ticks w) eqn:E; [done|]. intros [= <-]. cbn. lia.
Defined.

Lemma wire_open_law base w r w' : wire_open base w = (r, w') ->
  match r with
  | Ok c => c ∉ base w /\ wi_open w' = {[c]} ∪ base w
  | Err _ => wi_open w' = wi_open w
  end.
Proof.
  unfold wire_open. pose proof (new_id_new (base w)).
  destruct (wi_script w) as [|[] sc]; by intros [= <- <-].
Qed.

#[export] Instance wire_laws : WireLaws wire.
Proof.
  split; cbn.
  - intros _. apply wire_open_law.
  - by intros c w r w' [= _ <-].
  - intros _. apply wire_open_law.
  - intros _ _. apply wire_open_law.
  - by intros w r w' [= _ <-].
  - intros c a cfg w r w' H%wire_open_law. destruct r as [cl|e]; [done|by rw H].
  - by intros c w r w' [= _ <-].
Qed.

(** Keys are their own public names. *)
Definition plain_key (raw : string) : result string := Ok raw.
Definition no_passphrase (raw pass : string) : result string := Err io_EOF.

Definition jump_hop : hop := mkHop (mkEndpoint "jump" "bastion" "k1" "") None.
Definition target_hop : hop := mkHop (mkEndpoint "root" "10.0.0.5" "k2" "") None.

(** The handshake with the second hop fails. *)
Definition failing_wire : wire := mkWire ∅ "/agent" [] [true; true; true; true; true; false] 3.

Lemma keys_ok : Forall (has_key plain_key no_passphrase) [jump_hop; target_hop].
Proof. by repeat constructor. Qed.

Lemma Dial_all_or_nothing_witness :
  (if (route_Dial plain_key no_passphrase None jump_hop [target_hop] failing_wire).1 is Err _
   then True else False) /\
  wi_open (route_Dial plain_key no_passphrase None jump_hop [target_hop] failing_wire).2 = ∅.
Proof.
  split; [by vm_compute|].
  destruct (route_Dial plain_key no_passphrase None jump_hop [target_hop] failing_wire)
    as [r w'] eqn:E.
  pose proof (Dial_all_or_nothing _ _ _ _ _ _ _ _ keys_ok E) as H. destruct r as [[c chain]|e].
  - exfalso. by vm_compute in E.
  - exact H.
Defined.

(** Nothing but the timers uses up ticks. *)
Definition keeps_ticks {A} (m : M wire A) : Prop := forall w, wi_ticks (m w).2 = wi_ticks w.

Lemma keeps_ticks_bind {A B} (m : M wire A) (k : A -> M wire B) :
  keeps_ticks m -> (forall a, keeps_ticks (k a)) -> keeps_ticks (mbind k m).
Proof.
  intros Hm Hk w. unfold mbind, M_bind. specialize (Hm w). destruct (m w) as [a w1].
  cbn in Hm. rw -Hm. apply Hk.
Qed.
Lemma keeps_ticks_open base : keeps_ticks (wire_open base).
Proof. intros w. unfold wire_open. by destruct (wi_script w) as [|[]]. Qed.
Lemma keeps_ticks_close_all cs : keeps_ticks (close_all cs).
Proof.
  induction cs as [|c cs IH]; [done|]. apply keeps_ticks_bind; [done|]. intros e.
  by apply keeps_ticks_bind.
Qed.

Lemma New_keeps_ticks opts :
  keeps_ticks (New plain_key no_passphrase (Some (jump_hop, [target_hop])) opts).
Proof.
  repeat first [ apply keeps_ticks_open | apply keeps_ticks_close_all | done
               | apply keeps_ticks_bind; [|intros ?]
               | match goal with |- keeps_ticks (match ?x with _ => _ end) => destruct x end
               | progress unfold New, route_Dial, dial_chain, clientConfig, agentPart, dialSSH,
                   handshakeOver, dialThroughJump, chain_Close
               | progress cbn ].
Qed.

Lemma NewWithRetry_clean_witness : exists r w',
  NewWithRetry plain_key no_passphrase 4 (Some (jump_hop, [target_hop])) 5 60 [] failing_wire =
    (Some r, w') /\
  match r with
  | Ok c => client_open (opened failing_wire) c w'
  | Err _ => opened w' = opened failing_wire
  end.
Proof.
  apply (NewWithRetry_clean plain_key no_passphrase 4 (Some (jump_hop, [target_hop])) 5 60 []
           failing_wire).
  - done.
  - intros z w. cbn. by destruct (wi_ticks w).
  - intros w. pose proof (New_keeps_ticks [] w) as H. cbn [budget wire_timeout_laws]. lia.
  - intros first more [= <- <-]. apply keys_ok.
  - cbn. lia.
Defined.

(** An agent without keys: the connection to it stays open when a hop has no key of its own. *)
Definition empty_agent : wire := mkWire ∅ "/agent" [] [] 0.

(** When the agent offers no key and the endpoint has none, the dial fails and the
    connection to the agent stays open: [clientConfig] returns without its closer. *)
Theorem agent_connection_leaks :
  let '(r, w) := route_Dial plain_key no_passphrase None ipv6_hop [] empty_agent in
  (if r is Err _ then True else False) /\ opened w <> opened empty_agent.
Proof. vm_compute. by split. Qed.
