(* ===== verification/Connect.v ===== *)
(** Connections to the base cluster, to the VMs and to the first master
    ([src/internal/provisioning/dvp/connect.go], [vm_ip_resolver.go], [node_executor.go],
    [src/internal/kubernetes/kubeaccess/kubeaccess.go]). Reading a kubeconfig is
    [k8s.io/client-go]'s. The theorems are about what stays open. *)
From S2P Require Import Prelude Errors Retry Kube Config DvpConfig Remote Virt.

Local Open Scope Z_scope.
Local Open Scope go_scope.

(** ** [kubeaccess] *)

Definition getKubeconfigRemoteShell : string :=
  "sudo -n /bin/cat /etc/kubernetes/super-admin.conf 2>/dev/null " +:+
  "|| sudo -n /bin/cat /etc/kubernetes/admin.conf".

Definition newline : Ascii.ascii := "010".
Definition is_blank (c : Ascii.ascii) : bool := Ascii.eqb c " " || Ascii.eqb c "009".

Definition is_server_line (line : string) : bool := HasPrefix (TrimSpace line) "server:".

Definition rewrite_line (localAddr line : string) : string :=
  if is_server_line line
  then TrimSuffix line (trim_left is_blank line) +:+ "server: https://" +:+ localAddr
  else line.

Definition RewriteServer (kubeconfig localAddr : string) : result string :=
  let lines := split_on newline kubeconfig in
  if existsb is_server_line lines
  then Ok (Join (map (rewrite_line localAddr) lines) (String newline ""))
  else Err (Errorf "no server field found in kubeconfig").

Section Access.
Context {W : Type} `{R : Remote W}.
Context {RestConfig ApiConfig : Type}.
(** [clientcmd.Load]; [NewDefaultClientConfig(...).ClientConfig()] with the server override,
    if any; [kubernetes.NewForConfig]; and a GET of [/version] within [directProbeTimeout]. *)
Context (clientcmd_Load : string -> result ApiConfig).
Context (ClientConfig : ApiConfig -> option string -> result RestConfig).
Context (NewForConfig : RestConfig -> option error) (getVersion : RestConfig -> M W (option error)).

Definition FetchKubeconfig (exec : Z) : M W (result string) :=
  let! '(res, err) := sshExec exec getKubeconfigRemoteShell in
  mret match err with
       | Some e => Err (ErrorfW "read kubeconfig over ssh: " e
                          (" (stderr: " +:+ TrimSpace (Stderr res) +:+ ")"))
       | None =>
           if String.eqb (Stdout res) ""
           then Err (Errorf ("empty kubeconfig from master (stderr: " +:+
                       TrimSpace (Stderr res) +:+ ")"))
           else Ok (Stdout res)
       end.

(** The transport timeouts set on the result do not concern the model. *)
Definition buildRestConfig (kubeconfig : string) (server : option string) : result RestConfig :=
  match clientcmd_Load kubeconfig with
  | Err e => Err (ErrorfW "parsing kubeconfig: " e "")
  | Ok apiCfg =>
      match ClientConfig apiCfg server with
      | Err e => Err (ErrorfW "creating client config: " e "")
      | Ok cfg => Ok cfg
      end
  end.
Definition BuildRestConfig (kubeconfig overrideAddr : string) : result RestConfig :=
  buildRestConfig kubeconfig (Some ("https://" +:+ overrideAddr)).
Definition BuildRestConfigDirect (kubeconfig : string) : result RestConfig :=
  buildRestConfig kubeconfig None.

Definition TunnelRestConfig (sshClient : Z) (kubeconfig : string) (remotePort : Z)
    : M W (result (RestConfig * M W (option error))) :=
  let! tun := sshOpenTunnel sshClient remotePort in
  match tun with
  | Err e => mret (Err (ErrorfW "creating tunnel: " e ""))
  | Ok (t, localAddr) =>
      match BuildRestConfig kubeconfig localAddr with
      | Err e => let! _ := connClose t in mret (Err (ErrorfW "creating rest config: " e ""))
      | Ok restConfig => mret (Ok (restConfig, connClose t))
      end
  end.

Definition DirectReachable (cfg : RestConfig) : M W bool :=
  match NewForConfig cfg with
  | Some _ => mret false
  | None => let! err := getVersion cfg in mret (is_nil err)
  end.

(** ** The connector *)

Context (dvpConf : DvpConfig.Config) (creds : Credentials).

(** A cleanup is a call that is made later; its errors are only logged. *)
Definition logged (close : M W (option error)) : M W unit := let! _ := close in mret tt.

(** The cleanups are run last first. *)
Fixpoint run_list (fns : list (M W unit)) : M W unit :=
  match fns with
  | [] => mret tt
  | fn :: fns' => let! _ := fn in run_list fns'
  end.
Definition runCleanups (cleanups : list (M W unit)) : M W unit := run_list (rev cleanups).

Definition baseEndpoints : list Endpoint :=
  let base := mkEndpoint (SSHUser dvpConf) (SSHHost dvpConf) (SSHKey creds) (SSHPassphrase dvpConf) in
  if JumpHostConfigured dvpConf
  then [mkEndpoint (SSHJumpUser dvpConf) (SSHJumpHost dvpConf) (JumpKey creds)
          (SSHJumpPassphrase dvpConf); base]
  else [base].

Definition buildSSHClient : M W (result Z) :=
  let! c := sshNew baseEndpoints in
  mret match c with Err e => Err (ErrorfW "creating ssh client: " e "") | Ok c => Ok c end.

Definition vm_route (vmIP : string) : list Endpoint :=
  baseEndpoints ++ [mkEndpoint (VMSSHUser dvpConf) vmIP (SSHKey creds) (SSHPassphrase dvpConf)].

Definition VMExecutor (vmIP : string) : M W (result (Z * M W unit)) :=
  let! client := sshNewWithRetry (vm_route vmIP) in
  mret match client with
       | Err e => Err (ErrorfW ("connecting to VM " +:+ vmIP +:+ ": ") e "")
       | Ok c => Ok (c, logged (connClose c))
       end.

Definition Connect : M W (result (RestConfig * M W unit)) :=
  let! direct :=
    match BuildRestConfigDirect (Kubeconfig creds) with
    | Err _ => mret None
    | Ok directConfig =>
        let! reachable := DirectReachable directConfig in
        mret (if reachable : bool then Some directConfig else None)
    end in
  match direct with
  | Some directConfig => mret (Ok (directConfig, mret tt))
  | None =>
      let! sshClient := buildSSHClient in
      match sshClient with
      | Err e => mret (Err (ErrorfW "creating ssh client: " e ""))
      | Ok c =>
          let! tunnel := TunnelRestConfig c (Kubeconfig creds) apiServerRemotePort in
          match tunnel with
          | Err e => let! _ := runCleanups [logged (connClose c)] in mret (Err e)
          | Ok (restConfig, closeTunnel) =>
              mret (Ok (restConfig, runCleanups [logged (connClose c); logged closeTunnel]))
          end
      end
  end.

Definition openTunnelToVM (vmIP : string) (remotePort : Z)
    : M W (result (string * M W (option error))) :=
  let! client := sshNewWithRetry (vm_route vmIP) in
  match client with
  | Err e => mret (Err (ErrorfW ("connecting to VM " +:+ vmIP +:+ ": ") e ""))
  | Ok c =>
      let! tun := sshOpenTunnel c remotePort in
      match tun with
      | Err e => let! _ := connClose c in
                 mret (Err (ErrorfW ("opening tunnel to VM " +:+ vmIP +:+ ": ") e ""))
      | Ok (t, localAddr) =>
          mret (Ok (localAddr,
            let! tunErr := connClose t in
            let! clientErr := connClose c in
            mret (if is_nil tunErr then clientErr else tunErr)))
      end
  end.

Definition connectToMaster (masterIP : string) : M W (result (RestConfig * M W unit)) :=
  let! exec := VMExecutor masterIP in
  match exec with
  | Err e => mret (Err (ErrorfW ("connecting to master " +:+ masterIP +:+ ": ") e ""))
  | Ok (c, closeExec) =>
      let! kubeconfig := FetchKubeconfig c in
      let! _ := closeExec in
      match kubeconfig with
      | Err e => mret (Err (ErrorfW ("fetching kubeconfig from master " +:+ masterIP +:+ ": ") e ""))
      | Ok kubeconfig =>
          let! tunnel := openTunnelToVM masterIP apiServerRemotePort in
          match tunnel with
          | Err e => mret (Err e)
          | Ok (localAddr, closeTunnel) =>
              match RewriteServer kubeconfig localAddr with
              | Err e => let! _ := closeTunnel in
                         mret (Err (ErrorfW "rewriting master kubeconfig: " e ""))
              | Ok rewritten =>
                  match BuildRestConfigDirect rewritten with
                  | Err e => let! _ := closeTunnel in
                             mret (Err (ErrorfW "building master rest config: " e ""))
                  | Ok restConfig => mret (Ok (restConfig, logged closeTunnel))
                  end
              end
          end
      end
  end.

(** ** Commands on the nodes of the test cluster *)

Section Nodes.
Context `{VM : Client W VirtualMachine}.

Definition vmIPResolver_Resolve (nodeName : string) : M W (result string) :=
  let! machine := clientGet (O := VirtualMachine) nodeName in
  mret match machine with
       | Err e => Err (ErrorfW ("get VM " +:+ Namespace dvpConf +:+ "/" +:+ nodeName +:+ ": ") e "")
       | Ok machine =>
           if String.eqb (vmIPAddress machine) ""
           then Err (Errorf ("VM " +:+ Namespace dvpConf +:+ "/" +:+ nodeName +:+
                       " has no IP address in status"))
           else Ok (vmIPAddress machine)
       end.

(** A command that exits with a code is a result, not an error. *)
Definition dvpNodeExecutor_Exec (nodeName command : string) : M W (ExecResult * option error) :=
  let! ip := vmIPResolver_Resolve nodeName in
  match ip with
  | Err e => mret (mkExec "" "" 0, Some e)
  | Ok ip =>
      let! exec := VMExecutor ip in
      match exec with
      | Err e => mret (mkExec "" "" 0, Some (ErrorfW ("connect to node " +:+ nodeName +:+ " (" +:+
                   ip +:+ "): ") e ""))
      | Ok (c, closeExec) =>
          let! '(out, err) := sshExec c command in
          let! _ := closeExec in
          mret match err with
               | None => (out, None)
               | Some e =>
                   match errors_As as_exit e with
                   | Some _ => (out, None)
                   | None => (out, Some (ErrorfW ("exec on node " +:+ nodeName +:+ " (" +:+ ip +:+
                                "): ") e ""))
                   end
               end
      end
  end.
End Nodes.
End Access.

(** ** What stays open *)

Section Release.
Context {W : Type} `{R : Remote W, RL : !RemoteLaws W}.

(** From any state with the connections of [w'], the cleanup leads back to those of [w],
    and runs no command. *)
Definition releases (cleanup : M W unit) (w w' : W) : Prop :=
  forall w2, open_conns w2 = open_conns w' ->
    open_conns (cleanup w2).2 = open_conns w /\ history (cleanup w2).2 = history w2.

(** [m] hands out what it opened together with its cleanup, and nothing when it fails; the
    commands it runs satisfy [P]. *)
Definition acquires {A} (P : execution -> Prop) (m : M W (result (A * M W unit))) : Prop :=
  forall w r w', m w = (r, w') ->
    (exists new, history w' = history w ++ new /\ Forall P new) /\
    match r with
    | Ok (_, cleanup) => releases cleanup w w'
    | Err _ => open_conns w' = open_conns w
    end.

Lemma no_history (P : execution -> Prop) (w w' : W) :
  history w' = history w -> exists new, history w' = history w ++ new /\ Forall P new.
Proof. intros ->. exists []. by rw app_nil_r. Qed.

Lemma logged_close c w : 
  open_conns (logged (connClose c) w).2 = delete c (open_conns w) /\
  history (logged (connClose c) w).2 = history w.
Proof.
  unfold logged, mbind, M_bind. destruct (connClose c w) as [r w'] eqn:E.
  by apply close_removes in E.
Qed.

Lemma run_list_bind (fn : M W unit) fns w : run_list (fn :: fns) w = run_list fns (fn w).2.
Proof. cbn [run_list]. unfold mbind, M_bind. by destruct (fn w). Qed.

(** Cleanups of what was opened one after another, run last first, release all of it. *)
Lemma releases_stack c1 c2 (w w1 w2 : W) :
  releases c1 w w1 -> releases c2 w1 w2 -> releases (runCleanups [c1; c2]) w w2.
Proof.
  intros H1 H2 w3 E. unfold runCleanups. cbn [rev app]. rw !run_list_bind. cbn.
  destruct (H2 _ E) as [E2 Hh2]. destruct (H1 _ E2) as [E1 Hh1]. by rw Hh1 Hh2.
Qed.

Lemma releases_nothing (w w' : W) : open_conns w' = open_conns w -> releases (mret tt) w w'.
Proof. intros H w2 E. by rw -H. Qed.

Lemma releases_frame cleanup (w w1 w' w1' : W) :
  releases cleanup w w' -> open_conns w1 = open_conns w -> open_conns w1' = open_conns w' ->
  releases cleanup w1 w1'.
Proof. intros H E1 E2 w2 E. rw E1. apply H. by rw E. Qed.

Lemma closes_opened c addr (w w' : W) :
  open_conns w !! c = None -> open_conns w' = <[c := addr]> (open_conns w) ->
  releases (logged (connClose c)) w w'.
Proof.
  intros Hn Ho w2 E. destruct (logged_close c w2) as [-> ->]. split; [|done].
  by rw E Ho delete_insert_id.
Qed.
End Release.

Section Connections.
Context {W : Type} `{R : Remote W, RL : !RemoteLaws W}.
Context {RestConfig ApiConfig : Type}.
Context (clientcmd_Load : string -> result ApiConfig).
Context (ClientConfig : ApiConfig -> option string -> result RestConfig).
Context (NewForConfig : RestConfig -> option error) (getVersion : RestConfig -> M W (option error)).
Context (dvpConf : DvpConfig.Config) (creds : Credentials).

Lemma vm_route_target vmIP : target_addr (vm_route dvpConf creds vmIP) = vmIP.
Proof. unfold target_addr, vm_route. by rw last_snoc. Qed.

(** The client runs its commands on the VM, and its close function closes it. *)
Lemma VMExecutor_ok vmIP w c closeExec w' :
  VMExecutor dvpConf creds vmIP w = (Ok (c, closeExec), w') ->
  open_conns w !! c = None /\ open_conns w' = <[c := vmIP]> (open_conns w) /\
  history w' = history w /\ closeExec = logged (connClose c).
Proof.
  intros H. unfold VMExecutor in H. mstep H as [r w1] E. destruct r as [c1|e]; [|discriminate H].
  injection H as -> <- <-. apply retry_ok in E as (? & Ho & ?). by rw vm_route_target in Ho.
Qed.

Lemma VMExecutor_err vmIP w e w' :
  VMExecutor dvpConf creds vmIP w = (Err e, w') ->
  open_conns w' = open_conns w /\ history w' = history w.
Proof.
  intros H. unfold VMExecutor in H. mstep H as [r w1] E. destruct r as [c1|e1]; [discriminate H|].
  injection H as _ <-. by apply retry_err in E.
Qed.

Lemma VMExecutor_acquires vmIP : acquires (fun _ => False) (VMExecutor dvpConf creds vmIP).
Proof.
  intros w [[c cl]|e] w' H.
  - apply VMExecutor_ok in H as (Hn & Ho & Hh & ->).
    split; [by apply no_history|by eapply closes_opened].
  - apply VMExecutor_err in H as [Ho Hh]. split; [by apply no_history|done].
Qed.

Lemma TunnelRestConfig_acquires c kubeconfig port w r w' :
  TunnelRestConfig clientcmd_Load ClientConfig c kubeconfig port w = (r, w') ->
  history w' = history w /\
  match r with
  | Ok (_, close) => releases (logged close) w w'
  | Err _ => open_conns w' = open_conns w
  end.
Proof.
  intros H. unfold TunnelRestConfig in H. mstep H as [tun w1] E. destruct tun as [[t addr]|e].
  - apply tunnel_ok in E as (Hn & Ho & Hh). cbn [fst] in *.
    destruct (BuildRestConfig _ _ _ _) as [cfg|e].
    + injection H as <- <-. split; [done|]. by eapply closes_opened.
    + mstep H as [r2 w2] E2. injection H as <- <-. apply close_removes in E2 as [-> ->].
      split; [done|]. by rw Ho delete_insert_id.
  - injection H as <- <-. by apply tunnel_err in E as [-> ->].
Qed.

Context (getVersion_calm : forall cfg, calm (getVersion cfg)).

Lemma DirectReachable_calm cfg : calm (DirectReachable NewForConfig getVersion cfg).
Proof. unfold DirectReachable. destruct (NewForConfig cfg); auto with calm. Qed.

Lemma Connect_acquires :
  acquires (fun _ => False)
    (Connect clientcmd_Load ClientConfig NewForConfig getVersion dvpConf creds).
Proof.
  intros w r w' H. unfold Connect in H. mstep H as [direct w1] E.
  assert (Hc : open_conns w1 = open_conns w /\ history w1 = history w).
  { match type of E with ?m w = _ => assert (Hm : calm m) end.
    { destruct (BuildRestConfigDirect _ _ _); [|apply ret_calm].
      apply bind_calm; [apply DirectReachable_calm|intros; apply ret_calm]. }
    specialize (Hm w). by rw E in Hm. }
  clear E. destruct Hc as [Ho Hh]. destruct direct as [cfg|].
  { injection H as <- <-. split; [by apply no_history|by apply releases_nothing]. }
  mstep H as [cl w2] E2. unfold buildSSHClient in E2. mstep E2 as [cl' w2'] E2'.
  injection E2 as <- <-. destruct cl' as [c|e]; last first.
  { injection H as <- <-. apply new_err in E2' as [-> Hh2].
    split; [apply no_history; congruence|done]. }
  apply new_ok in E2' as (Hn & Ho2 & Hh2). mstep H as [tun w3] E3.
  apply TunnelRestConfig_acquires in E3 as [Hh3 Ht]. destruct tun as [[cfg close]|e].
  - injection H as <- <-. split; [apply no_history; congruence|].
    eapply releases_stack; [|exact Ht]. eapply releases_frame; [by eapply closes_opened|done|done].
  - unfold runCleanups in H. mstep H as [u w4] E4. injection H as <- <-.
    rw run_list_bind in E4. injection E4 as _ <-.
    destruct (logged_close c w3) as [-> ->]. split; [apply no_history; congruence|].
    by rw Ht Ho2 delete_insert_id.
Qed.

Lemma openTunnelToVM_acquires vmIP port w r w' :
  openTunnelToVM dvpConf creds vmIP port w = (r, w') ->
  history w' = history w /\
  match r with
  | Ok (_, close) => releases (logged close) w w'
  | Err _ => open_conns w' = open_conns w
  end.
Proof.
  intros H. unfold openTunnelToVM in H. mstep H as [cl w1] E. destruct cl as [c|e]; last first.
  { injection H as <- <-. by apply retry_err in E as [-> ->]. }
  apply retry_ok in E as (Hn & Ho & Hh). mstep H as [tun w2] E2. destruct tun as [[t addr]|e].
  - injection H as <- <-. apply tunnel_ok in E2 as (Hn2 & Ho2 & Hh2). cbn [fst] in *.
    split; [congruence|]. intros w3 E3. unfold logged, mbind, M_bind.
    destruct (connClose t w3) as [r4 w4] eqn:E4. destruct (connClose c w4) as [r5 w5] eqn:E5.
    apply close_removes in E4 as [Ho4 Hh4], E5 as [Ho5 Hh5]. cbn. split; [|congruence].
    by rw Ho5 Ho4 E3 Ho2 delete_insert_id // Ho delete_insert_id.
  - apply tunnel_err in E2 as [Ho2 Hh2]. mstep H as [r3 w3] E3. injection H as <- <-.
    apply close_removes in E3 as [-> ->]. split; [congruence|]. by rw Ho2 Ho delete_insert_id.
Qed.

Lemma FetchKubeconfig_runs c w r w' :
  FetchKubeconfig c w = (r, w') ->
  open_conns w' = open_conns w /\
  exists res err, history w' = history w ++
    [mkRun (default "" (open_conns w !! c)) getKubeconfigRemoteShell res err].
Proof.
  intros H. unfold FetchKubeconfig in H. mstep H as [[res err] w1] E. injection H as _ <-.
  apply exec_runs in E as [Ho Hh]. split; [done|]. by exists res, err.
Qed.

(** The only command [connectToMaster] runs reads the kubeconfig of the master. *)
Definition reads_kubeconfig (ip : string) (e : execution) : Prop :=
  run_addr e = ip /\ run_cmd e = getKubeconfigRemoteShell.

Lemma connectToMaster_acquires masterIP :
  acquires (reads_kubeconfig masterIP)
    (connectToMaster clientcmd_Load ClientConfig dvpConf creds masterIP).
Proof.
  intros w r w' H. unfold connectToMaster in H. mstep H as [exec w1] E1.
  destruct exec as [[c closeExec]|e]; last first.
  { injection H as <- <-. apply VMExecutor_err in E1 as [Ho Hh]. by split; [apply no_history|]. }
  apply VMExecutor_ok in E1 as (Hn & Ho1 & Hh1 & ->). mstep H as [kc w2] E2.
  apply FetchKubeconfig_runs in E2 as (Ho2 & res & err & Hh2). mstep H as [u w3] E3.
  pose proof (logged_close c w2) as [Ho3 Hh3]. rw E3 in Ho3 Hh3. cbn [snd] in Ho3, Hh3.
  assert (Ho : open_conns w3 = open_conns w) by by rw Ho3 Ho2 Ho1 delete_insert_id.
  assert (Hh : exists new, history w3 = history w ++ new /\ Forall (reads_kubeconfig masterIP) new).
  { eexists. split; [by rw Hh3 Hh2 Hh1|]. constructor; [|constructor]. split; [|done].
    cbn. by rw Ho1 lookup_insert_eq. }
  clear - Ho Hh H RL. destruct kc as [kc|e]; [|by injection H as <- <-].
  mstep H as [tun w4] E4. apply openTunnelToVM_acquires in E4 as [Hh4 Ht].
  rw -Hh4 in Hh. destruct tun as [[addr close]|e]; [|injection H as <- <-; split; [done|congruence]].
  assert (Hcl : forall r w5, close w4 = (r, w5) -> open_conns w5 = open_conns w /\ history w5 = history w4).
  { intros r5 w5 E5. destruct (Ht w4 eq_refl) as [Ho5 Hh5]. unfold logged, mbind, M_bind in Ho5, Hh5.
    rw E5 in Ho5 Hh5. by rw -Ho. }
  destruct (RewriteServer kc addr) as [rw_|e].
  - destruct (BuildRestConfigDirect _ _ _) as [cfg|e].
    + injection H as <- <-. split; [done|]. by eapply releases_frame.
    + mstep H as [r5 w5] E5. injection H as <- <-. by destruct (Hcl _ _ eq_refl) as [-> ->].
  - mstep H as [r5 w5] E5. injection H as <- <-. by destruct (Hcl _ _ eq_refl) as [-> ->].
Qed.

Context `{VM : Client W VirtualMachine, CV : !CalmClient W VirtualMachine}.

Lemma vmIPResolver_calm nodeName : calm (vmIPResolver_Resolve dvpConf nodeName).
Proof. unfold vmIPResolver_Resolve. auto with calm. Qed.

(** A command on a node runs that command once, on the address of the VM, or nothing. *)
Lemma dvpNodeExecutor_Exec_runs nodeName command w r w' :
  dvpNodeExecutor_Exec dvpConf creds nodeName command w = (r, w') ->
  open_conns w' = open_conns w /\
  (history w' = history w /\ is_Some r.2 \/
   exists ip err, history w' = history w ++ [mkRun ip command r.1 err]).
Proof.
  intros H. unfold dvpNodeExecutor_Exec in H. mstep H as [ip w1] E1.
  pose proof (vmIPResolver_calm nodeName w) as [Ho1 Hh1]. rw E1 in Ho1 Hh1. cbn [snd] in Ho1, Hh1.
  destruct ip as [ip|e]; [|injection H as <- <-; split; [done|left; split; [done|by eexists]]].
  mstep H as [exec w2] E2. destruct exec as [[c closeExec]|e]; last first.
  { injection H as <- <-. apply VMExecutor_err in E2 as [-> ->]. split; [done|left].
    split; [done|by eexists]. }
  apply VMExecutor_ok in E2 as (Hn & Ho2 & Hh2 & ->). mstep H as [[out err] w3] E3.
  apply exec_runs in E3 as [Ho3 Hh3]. mstep H as [u w4] E4. injection H as <- <-.
  pose proof (logged_close c w3) as [Ho4 Hh4]. rw E4 in Ho4 Hh4. cbn [snd] in Ho4, Hh4.
  split; [by rw Ho4 Ho3 Ho2 delete_insert_id|]. right. exists ip, err.
  rw Hh4 Hh3 Hh2 Hh1 Ho2 lookup_insert_eq. destruct err as [e|]; [|done].
  by destruct (errors_As as_exit e).
Qed.
End Connections.
