(* ===== verification/Deps.v ===== *)
(** The seams of the DVP provider ([src/internal/provisioning/dvp/deps.go]): what the
    provider asks of its connector, of the base cluster and of the VM fleet. The laws are
    what the provider's theorems rely on; [Connect] proves them of the connector. *)
From S2P Require Import Prelude Errors Retry Kube Config DvpConfig Remote Connect.

Local Open Scope Z_scope.
Local Open Scope go_scope.

(** [Provision] fills in the addresses of the definition it is given. *)
Record vmFleet (W : Type) := mkFleet {
  fleet_Provision : ClusterDefinition -> M W (option (option error) * ClusterDefinition);
  fleet_DeleteNode : string -> M W (option (option error));
  fleet_Teardown : M W (option (option error))
}.
Arguments mkFleet {W} _ _ _.
Arguments fleet_Provision {W} _ _.
Arguments fleet_DeleteNode {W} _ _.
Arguments fleet_Teardown {W} _.

Record deps (W RestConfig : Type) := mkDeps {
  connector_Connect : M W (result (RestConfig * M W unit));
  connector_VMExecutor : string -> M W (result (Z * M W unit));
  masterConn_connectToMaster : string -> M W (result (RestConfig * M W unit));
  kube_CheckReachable : RestConfig -> M W (option error);
  kube_WaitModuleReady : RestConfig -> string -> Z -> M W (option (option error));
  kube_EnsureNamespace : RestConfig -> string -> M W (option error);
  kube_DeleteNamespace : RestConfig -> string -> M W (option (option error));
  fleet_New : RestConfig -> string -> M W (result (vmFleet W));
  virt_New : RestConfig -> M W (option error);
  installReady : option (RestConfig -> Z -> M W (option (option error)))
}.
Arguments mkDeps {W RestConfig} _ _ _ _ _ _ _ _ _ _.
Arguments connector_Connect {W RestConfig} _.
Arguments connector_VMExecutor {W RestConfig} _ _.
Arguments masterConn_connectToMaster {W RestConfig} _ _.
Arguments kube_CheckReachable {W RestConfig} _ _.
Arguments kube_WaitModuleReady {W RestConfig} _ _ _ _.
Arguments kube_EnsureNamespace {W RestConfig} _ _ _.
Arguments kube_DeleteNamespace {W RestConfig} _ _ _.
Arguments fleet_New {W RestConfig} _ _ _.
Arguments virt_New {W RestConfig} _ _.
Arguments installReady {W RestConfig} _.

(** A connector of VMs: the client it hands out runs its commands on that VM. *)
Class ExecutorLaws {W} `{R : Remote W} (VMExecutor : string -> M W (result (Z * M W unit))) : Prop := {
  executor_ok ip w c close w' : VMExecutor ip w = (Ok (c, close), w') ->
    open_conns w' !! c = Some ip /\ history w' = history w /\ releases close w w';
  executor_err ip w e w' : VMExecutor ip w = (Err e, w') ->
    open_conns w' = open_conns w /\ history w' = history w
}.

Definition fleet_calm {W} `{R : Remote W} (f : vmFleet W) : Prop :=
  (forall def, calm (fleet_Provision f def)) /\ (forall h, calm (fleet_DeleteNode f h)) /\
  calm (fleet_Teardown f).

Class DepsLaws {W RestConfig} `{R : Remote W} (d : deps W RestConfig) : Prop := {
  #[global] deps_executor :: ExecutorLaws (connector_VMExecutor d);
  connect_acquires : acquires (fun _ => False) (connector_Connect d);
  master_acquires ip : acquires (reads_kubeconfig ip) (masterConn_connectToMaster d ip);
  reachable_calm kube : calm (kube_CheckReachable d kube);
  module_ready_calm kube m t : calm (kube_WaitModuleReady d kube m t);
  ensure_ns_calm kube ns : calm (kube_EnsureNamespace d kube ns);
  delete_ns_calm kube ns : calm (kube_DeleteNamespace d kube ns);
  fleet_new_calm kube key : calm (fleet_New d kube key);
  fleet_made_calm kube key w f w' : fleet_New d kube key w = (Ok f, w') -> fleet_calm f;
  virt_calm kube : calm (virt_New d kube);
  install_ready_calm f kube t : installReady d = Some f -> calm (f kube t)
}.

(** The connector of the provider is one. *)
#[export] Instance VMExecutor_laws {W} `{R : Remote W, RL : !RemoteLaws W} dvpConf creds :
  ExecutorLaws (VMExecutor (W := W) dvpConf creds).
Proof.
  split.
  - intros ip w c close w' H. apply VMExecutor_ok in H as (Hn & Ho & Hh & ->).
    split_and!; [by rw Ho lookup_insert_eq|done|by eapply closes_opened].
  - intros ip w e w'. apply VMExecutor_err.
Qed.

(** ** Working on a VM

    A connection to a VM, work over it that opens nothing, and the close of the connection. *)
Section On_vm.
Context {W : Type} `{R : Remote W, RL : !RemoteLaws W}.
Context (VMExecutor : string -> M W (result (Z * M W unit))) {EL : ExecutorLaws VMExecutor}.

(** [exec, closeExec, err := VMExecutor(...); if err ... ; defer closeExec()]. *)
Definition on_vm {A} (ip : string) (onErr : error -> A) (body : Z -> M W A) : M W A :=
  let! exec := VMExecutor ip in
  match exec with
  | Err e => mret (onErr e)
  | Ok (c, closeExec) =>
      let! a := body c in
      let! _ := closeExec in
      mret a
  end.

(** Everything run in between is in the history, and nothing stays open. *)
Lemma on_vm_inv {A} ip onErr (body : Z -> M W A) w a w' :
  (forall c, keeps (body c)) ->
  on_vm ip onErr body w = (a, w') ->
  open_conns w' = open_conns w /\
  ((exists e, a = onErr e /\ history w' = history w) \/
   exists c w1 w2, open_conns w1 !! c = Some ip /\ open_conns w1 = open_conns w2 /\
     history w1 = history w /\ body c w1 = (a, w2) /\ history w' = history w2).
Proof.
  intros Hk H. unfold on_vm in H. mstep H as [exec w1] E1. destruct exec as [[c close]|e].
  - apply executor_ok in E1 as (Hc & Hh & Hr). mstep H as [a1 w2] E2.
    pose proof (Hk c w1) as Ho. rw E2 in Ho. cbn [snd] in Ho. mstep H as [u w3] E3.
    injection H as <- <-. destruct (Hr w2 Ho) as [Ho3 Hh3]. rw E3 in Ho3 Hh3. cbn [snd] in Ho3, Hh3.
    split; [done|]. right. by exists c, w1, w2.
  - injection H as <- <-. apply executor_err in E1 as [Ho Hh]. split; [done|left]. by exists e.
Qed.

Lemma on_vm_keeps {A} ip onErr (body : Z -> M W A) :
  (forall c, keeps (body c)) -> keeps (on_vm ip onErr body).
Proof.
  intros Hk w. destruct (on_vm ip onErr body w) as [a w'] eqn:E. cbn. by apply on_vm_inv in E as [-> _].
Qed.
End On_vm.

Lemma exec_keeps {W} `{R : Remote W, RL : !RemoteLaws W} c cmd : keeps (sshExec c cmd).
Proof. intros w. destruct (sshExec c cmd w) as [[r e] w'] eqn:E. cbn. by apply exec_runs in E as [-> _]. Qed.
#[export] Hint Resolve exec_keeps on_vm_keeps : calm.

(** ** What a step runs

    From connections [O], [m] gives the connections back as they were, and its result and the
    commands it ran satisfy [P]. *)
Section Logs.
Context {W : Type} `{R : Remote W, RL : !RemoteLaws W}.

Definition logs {A} (O : gmap Z string) (m : M W A) (P : A -> list execution -> Prop) : Prop :=
  forall w a w', open_conns w = O -> m w = (a, w') ->
    open_conns w' = O /\ exists new, history w' = history w ++ new /\ P a new.

Lemma logs_ret {A} O (a : A) (P : A -> list execution -> Prop) : P a [] -> logs O (mret a) P.
Proof. intros HP w b w' HO [= <- <-]. split; [done|]. exists []. by rw app_nil_r. Qed.

Lemma logs_bind {A B} O (m : M W A) (k : A -> M W B) (P : A -> list execution -> Prop)
    (Q : B -> list execution -> Prop) :
  logs O m P -> (forall a new, P a new -> logs O (k a) (fun b new' => Q b (new ++ new'))) ->
  logs O (mbind k m) Q.
Proof.
  intros Hm Hk w b w' HO H. mstep H as [a w1] E.
  destruct (Hm _ _ _ HO E) as (HO1 & n1 & Hh1 & HP).
  destruct (Hk _ _ HP _ _ _ HO1 H) as (HO2 & n2 & Hh2 & HQ). split; [done|].
  exists (n1 ++ n2). split; [|done]. by rw Hh2 Hh1 app_assoc.
Qed.

Lemma logs_conseq {A} O (m : M W A) (P Q : A -> list execution -> Prop) :
  logs O m P -> (forall a new, P a new -> Q a new) -> logs O m Q.
Proof.
  intros Hm HPQ w a w' HO E. destruct (Hm _ _ _ HO E) as (HO1 & n & Hh & HP).
  split; [done|]. exists n. split; [done|]. by apply HPQ.
Qed.

Lemma logs_calm {A} O (m : M W A) (P : A -> list execution -> Prop) :
  calm m -> (forall a, P a []) -> logs O m P.
Proof.
  intros Hm HP w a w' HO E. specialize (Hm w). rw E in Hm. destruct Hm as [Ho Hh]. cbn in Ho, Hh.
  split; [congruence|]. exists []. by rw app_nil_r.
Qed.

Lemma logs_exec O c cmd (P : ExecResult * option error -> list execution -> Prop) :
  (forall r err, P (r, err) [mkRun (default "" (O !! c)) cmd r err]) -> logs O (sshExec c cmd) P.
Proof.
  intros HP w [r err] w' HO E. apply exec_runs in E as [Ho Hh]. split; [congruence|].
  eexists. split; [exact Hh|]. by rw HO.
Qed.

Lemma logs_on_vm (VMExecutor : string -> M W (result (Z * M W unit))) {EL : ExecutorLaws VMExecutor}
    {A} O ip onErr (body : Z -> M W A) (P : A -> list execution -> Prop) :
  (forall e, P (onErr e) []) -> (forall c O', O' !! c = Some ip -> logs O' (body c) P) ->
  logs O (on_vm VMExecutor ip onErr body) P.
Proof.
  intros He Hb w a w' HO H. unfold on_vm in H. mstep H as [exec w1] E1.
  destruct exec as [[c close]|e].
  - apply executor_ok in E1 as (Hc & Hh & Hr). mstep H as [a1 w2] E2.
    destruct (Hb c (open_conns w1) Hc w1 a1 w2 eq_refl E2) as (Ho2 & new & Hh2 & HP).
    mstep H as [u w3] E3. injection H as <- <-. destruct (Hr w2 Ho2) as [Ho3 Hh3].
    rw E3 in Ho3 Hh3. cbn [snd] in Ho3, Hh3. split; [congruence|]. exists new.
    split; [by rw Hh3 Hh2 Hh|done].
  - injection H as <- <-. apply executor_err in E1 as [Ho Hh]. split; [congruence|].
    exists []. by rw app_nil_r.
Qed.

(** A connection with a cleanup that is run at the end. *)
Lemma logs_acquired {A B} O (m : M W (result (A * M W unit))) (P0 : execution -> Prop)
    (k : result (A * M W unit) -> M W B) (P : B -> list execution -> Prop) :
  acquires P0 m ->
  (forall e new, Forall P0 new -> logs O (k (Err e)) (fun b new' => P b (new ++ new'))) ->
  (forall a cl w1 w2 new, Forall P0 new -> releases cl w1 w2 -> open_conns w1 = O ->
     forall b w3, k (Ok (a, cl)) w2 = (b, w3) ->
       open_conns w3 = O /\ exists new', history w3 = history w2 ++ new' /\ P b (new ++ new')) ->
  logs O (mbind k m) P.
Proof.
  intros Hm He Hk w b w' HO H. mstep H as [r w1] E.
  destruct (Hm _ _ _ E) as [(n1 & Hh1 & HP) Hr]. destruct r as [[a cl]|e].
  - destruct (Hk a cl w w1 n1 HP Hr HO _ _ H) as (HO2 & n2 & Hh2 & HQ). split; [done|].
    exists (n1 ++ n2). split; [|done]. by rw Hh2 Hh1 app_assoc.
  - destruct (He e n1 HP _ _ _ (eq_trans Hr HO) H) as (HO2 & n2 & Hh2 & HQ). split; [done|].
    exists (n1 ++ n2). split; [|done]. by rw Hh2 Hh1 app_assoc.
Qed.
End Logs.
