(* ===== verification/Install.v ===== *)
(** Waiting for the freshly installed cluster and joining its nodes
    ([src/internal/provisioning/dvp/install.go], [nodes.go], [setupnode.go]), with the
    clientset and the namespaces of [src/pkg/kubernetes/client.go] and [namespace.go]. *)
From S2P Require Import Prelude Errors Retry Kube Config Deckhouse Remote Connect.

Local Open Scope Z_scope.
Local Open Scope go_scope.

(** ** The objects, by the fields the code reads *)
Record Node := mkKubeNode { nodeLabels : gmap string string; nodeConditions : list Condition }.
Record Secret := mkSecret { Data : gmap string string }.
Record Deployment := mkDeployment { depConditions : list Condition }.
Record NamespaceObj := mkNamespace {}.

Definition bootstrapSecretNamespace := "d8-cloud-instance-manager".
Definition masterBootstrapSecret := "manual-bootstrap-for-master".
Definition workerBootstrapSecret := "manual-bootstrap-for-worker".
Definition bootstrapScriptKey := "bootstrap.sh".
Definition workerNodeGroupName := "worker".
Definition deckhouseNamespace := "d8-system".
Definition deckhouseDeploymentName := "deckhouse".
Definition installPollInterval : Z := 5 * Second.
Definition existingInstallReadyTimeout : Z := 10 * Minute.
Definition controlPlaneNodeLabels : list string :=
  ["node-role.kubernetes.io/control-plane"; "node-role.kubernetes.io/master"].

(** The status of the first condition of a type. *)
Fixpoint condition_true (ty : string) (conds : list Condition) : bool :=
  match conds with
  | [] => false
  | c :: conds' => if String.eqb (Type_ c) ty then String.eqb (Status_ c) "True"
                   else condition_true ty conds'
  end.

Definition isNodeReady (node : Node) : bool := condition_true "Ready" (nodeConditions node).
Definition isControlPlaneNode (node : Node) : bool :=
  existsb (fun label => bool_decide (is_Some (nodeLabels node !! label))) controlPlaneNodeLabels.
Definition isDeploymentAvailable (dep : Deployment) : bool :=
  condition_true "Available" (depConditions dep).

(** The name under which a namespaced object is stored. *)
Definition ref (ns name : string) : string := ns +:+ "/" +:+ name.

Section Install.
Context {W : Type} `{AE : ApiErrors, CX : Ctx W}.
Context `{NC : Client W Node, SC : Client W Secret, DC : Client W Deployment, NS : Client W NamespaceObj}.
Context {RestConfig : Type}.
(** [kubernetes.NewForConfig], and the GET of [/version]. *)
Context (NewForConfig : RestConfig -> option error) (ServerVersion : RestConfig -> M W (option error)).
Context (fuel : nat).

Definition NewClientsetWithRetry (config : RestConfig) : M W (option error) :=
  DoVoid ctxErr timerFires DefaultConfig
    match NewForConfig config with
    | Some e => mret (Some (ErrorfW "failed to create kubernetes clientset: " e ""))
    | None =>
        let! err := ServerVersion config in
        mret match err with
             | Some e => Some (ErrorfW "failed to verify cluster connectivity: " e "")
             | None => None
             end
    end.

(** ** Namespaces *)

Definition namespaceDeletePollInterval : Z := 2 * Second.

Definition CreateNamespaceIfNotExists (config : RestConfig) (name : string) : M W (option error) :=
  let! err := NewClientsetWithRetry config in
  match err with
  | Some e => mret (Some (ErrorfW "failed to create kubernetes clientset: " e ""))
  | None =>
      let! got := clientGet (O := NamespaceObj) name in
      match got with
      | Ok _ => mret None
      | Err e =>
          if IsNotFound (Some e) then clientCreate name mkNamespace
          else mret (Some (ErrorfW ("failed to get namespace " +:+ name +:+ ": ") e ""))
      end
  end.

Definition namespace_gone (name : string) (_ : unit) : M W (unit * option (option error)) :=
  let! got := clientGet (O := NamespaceObj) name in
  mret (tt, match got with
    | Ok _ => None
    | Err e => if IsNotFound (Some e) then Some None
               else Some (Some (ErrorfW ("failed to get namespace " +:+ name +:+ ": ") e ""))
    end).

(** [wait.PollUntilContextCancel] with [immediate] set polls at once and then on every tick. *)
Definition DeleteNamespace (config : RestConfig) (name : string) : M W (option (option error)) :=
  let! err := NewClientsetWithRetry config in
  match err with
  | Some e => mret (Some (Some (ErrorfW "failed to create kubernetes clientset: " e "")))
  | None =>
      let! err := clientDelete NamespaceObj name in
      if negb (is_nil err) && negb (IsNotFound err)
      then mret (Some (Some (ErrorfWn ("failed to delete namespace " +:+ name +:+ ": ") err "")))
      else
        let! waitErr := poll (namespace_gone name) (fun _ ce => ce) fuel
                          namespaceDeletePollInterval tt in
        mret match waitErr with
             | Some (Some e) => Some (Some (ErrorfW ("waiting for namespace " +:+ name +:+
                                  " deletion: ") e ""))
             | r => r
             end
  end.

(** ** Waiting *)

(** The variables the checks share are threaded through; [lastErr] of
    [waitClusterHealthyClient] is one. *)
Definition pollUntil {St} (timeout : Z) (what : string) (check : St -> M W (St * (bool * option error)))
    (s : St) : M W (option (option error * St)) :=
  poll
    (fun s =>
       let! '(s, (ok, err)) := check s in
       mret (s, match err with
                | Some e => Some (Some e, s)
                | None => if ok : bool then Some (None, s) else None
                end))
    (fun s ce => (Some (ErrorfWn ("waiting for " +:+ what +:+ " within " +:+ fmt_duration timeout +:+
                                    ": ") ce ""), s))
    fuel installPollInterval s.

Definition pollUntil_ (timeout : Z) (what : string) (check : M W (bool * option error))
    : M W (option (option error)) :=
  let! r := pollUntil timeout what (fun _ => let! r := check in mret (tt, r)) tt in
  mret (fst <$> r).

(** [for _, name := range ... Secrets(...).Get]; [onErr] is what an error means. *)
Fixpoint secrets_present (onErr : string -> error -> bool * option error) (names : list string)
    : M W (bool * option error) :=
  match names with
  | [] => mret (true, None)
  | name :: names' =>
      let! got := clientGet (O := Secret) (ref bootstrapSecretNamespace name) in
      match got with
      | Ok _ => secrets_present onErr names'
      | Err e => mret (onErr name e)
      end
  end.

Definition bootstrapSecrets : list string := [masterBootstrapSecret; workerBootstrapSecret].

Definition waitBootstrapSecretsClient (timeout : Z) : M W (option (option error)) :=
  pollUntil_ timeout "bootstrap secrets"
    (secrets_present
       (fun name e =>
          if IsNotFound (Some e) then (false, None)
          else (false, Some (ErrorfW ("get secret " +:+ ref bootstrapSecretNamespace name +:+ ": ") e "")))
       bootstrapSecrets).

(** The wrappers that make a clientset first. *)
Definition with_clientset (kube : RestConfig) (k : M W (option (option error)))
    : M W (option (option error)) :=
  let! err := NewClientsetWithRetry kube in
  match err with
  | Some e => mret (Some (Some (ErrorfW "create clientset: " e "")))
  | None => k
  end.

Definition waitBootstrapSecrets (kube : RestConfig) (timeout : Z) : M W (option (option error)) :=
  with_clientset kube (waitBootstrapSecretsClient timeout).

(** The loop of [checkHealthClient] over the nodes. *)
Fixpoint control_plane_ready (nodes : list (string * Node)) (controlPlane : Z) : option error :=
  match nodes with
  | [] => if controlPlane =? 0 then Some (Errorf "no control-plane nodes found") else None
  | (name, node) :: nodes' =>
      if negb (isControlPlaneNode node) then control_plane_ready nodes' controlPlane
      else if negb (isNodeReady node)
      then Some (Errorf ("control-plane node " +:+ name +:+ " is not Ready"))
      else control_plane_ready nodes' (controlPlane + 1)
  end.

Definition checkHealthClient : M W (option error) :=
  let! nodes := clientList (O := Node) in
  match nodes with
  | Err e => mret (Some (ErrorfW "list nodes: " e ""))
  | Ok nodes =>
      match control_plane_ready nodes 0 with
      | Some e => mret (Some e)
      | None =>
          let! dep := clientGet (O := Deployment) (ref deckhouseNamespace deckhouseDeploymentName) in
          mret match dep with
               | Err e => Some (ErrorfW ("get " +:+ ref deckhouseNamespace deckhouseDeploymentName +:+
                                  " deployment: ") e "")
               | Ok dep => if isDeploymentAvailable dep then None
                           else Some (Errorf "deckhouse deployment is not Available")
               end
      end
  end.

Definition waitExistingInstallReadyClient (timeout : Z) : M W (option (option error)) :=
  pollUntil_ timeout "existing Deckhouse installation to become healthy"
    (let! err := checkHealthClient in
     if is_nil err then secrets_present (fun _ _ => (false, None)) bootstrapSecrets
     else mret (false, None)).

Definition waitExistingInstallReady (kube : RestConfig) (timeout : Z) : M W (option (option error)) :=
  with_clientset kube (waitExistingInstallReadyClient timeout).

Definition count_ready (nodes : list (string * Node)) : Z :=
  Z.of_nat (length (filter (fun p => isNodeReady p.2 = true) nodes)).

Definition waitNodesReadyClient (def : ClusterDefinition) (timeout : Z) : M W (option (option error)) :=
  let want := Z.of_nat (length (Masters def) + length (Workers def)) in
  if want =? 0 then mret (Some (Some (Errorf "cluster definition declares no nodes")))
  else pollUntil_ timeout (pretty want +:+ " nodes ready")
    (let! nodes := clientList (O := Node) in
     mret match nodes with
          | Err e => (false, Some (ErrorfW "list nodes: " e ""))
          | Ok nodes => (want <=? count_ready nodes, None)
          end).

Definition waitNodesReady (kube : RestConfig) (def : ClusterDefinition) (timeout : Z)
    : M W (option (option error)) :=
  with_clientset kube (waitNodesReadyClient def timeout).

Definition waitClusterHealthyClient (timeout : Z) : M W (option (option error)) :=
  let! r := pollUntil timeout "cluster to become healthy"
              (fun _ => let! lastErr := checkHealthClient in mret (lastErr, (is_nil lastErr, None)))
              None in
  mret match r with
       | Some (Some e, Some lastErr) => Some (Some (Wrap2 "" e " (last check: " lastErr ")"))
       | Some (e, _) => Some e
       | None => None
       end.

Definition waitClusterHealthy (kube : RestConfig) (timeout : Z) : M W (option (option error)) :=
  with_clientset kube (waitClusterHealthyClient timeout).

(** ** The setup node *)

Definition dockerReadyPoll : Z := 10 * Second.
Definition dockerReadyTimeout : Z := 5 * Minute.
Definition buildDockerReadyCommand : string := "sudo docker info >/dev/null 2>&1".

Context `{R : Remote W}.

Definition waitDockerReady (exec : Z) (poll_ timeout : Z) : M W (option (option error)) :=
  poll
    (fun _ : unit =>
       let! '(res, err) := sshExec exec buildDockerReadyCommand in
       mret (tt, if is_nil err && (ExitCode res =? 0) then Some None else None))
    (fun _ ce => Some (ErrorfWn ("waiting for docker to become ready within " +:+
                                   fmt_duration timeout +:+ ": ") ce ""))
    fuel poll_ tt.
End Install.

(** ** Only the API server is talked to *)

Section Calm.
Context {W : Type} `{AE : ApiErrors, CX : Ctx W, R : Remote W, CC : !CalmCtx W}.

Lemma do_loop_calm {T} (fn : M W (T * option error)) n cfg wait r le :
  calm fn -> calm (do_loop ctxErr timerFires fn n cfg wait r le).
Proof.
  intros Hf. revert wait r le. induction n as [|n IH]; intros wait r le; cbn [do_loop];
    [apply ret_calm|].
  apply bind_calm; [apply ctx_calm|]. intros [ce|]; [apply ret_calm|].
  apply bind_calm; [done|]. intros [t [e|]]; [|apply ret_calm]. cbn [is_nil negb].
  destruct (IsRetryable (Some e)); [|apply ret_calm]. cbn [negb].
  destruct (0 <? Z.of_nat n); [|apply IH].
  apply bind_calm; [apply timer_calm|]. intros [|]; [apply IH|]. auto with calm.
Qed.

Lemma DoVoid_calm cfg (fn : M W (option error)) : calm fn -> calm (DoVoid ctxErr timerFires cfg fn).
Proof.
  intros Hf. apply bind_calm; [apply do_loop_calm, bind_calm; auto with calm|].
  intros [t e]. apply ret_calm.
Qed.

Context `{NC : Client W Node, SC : Client W Secret, DC : Client W Deployment, NS : Client W NamespaceObj}.
Context `{CN : !CalmClient W Node, CS : !CalmClient W Secret, CD : !CalmClient W Deployment}.
Context `{CNS : !CalmClient W NamespaceObj}.
Context {RestConfig : Type}.
Context (NewForConfig : RestConfig -> option error) (ServerVersion : RestConfig -> M W (option error)).
Context (ServerVersion_calm : forall cfg, calm (ServerVersion cfg)).
Context (fuel : nat).

Lemma NewClientsetWithRetry_calm kube : calm (NewClientsetWithRetry NewForConfig ServerVersion kube).
Proof. apply DoVoid_calm. destruct (NewForConfig kube); auto with calm. Qed.

Lemma with_clientset_calm kube (k : M W (option (option error))) :
  calm k -> calm (with_clientset NewForConfig ServerVersion kube k).
Proof.
  intros Hk. apply bind_calm; [apply NewClientsetWithRetry_calm|]. intros [e|]; [apply ret_calm|done].
Qed.

Lemma CreateNamespaceIfNotExists_calm kube name :
  calm (CreateNamespaceIfNotExists NewForConfig ServerVersion kube name).
Proof.
  apply bind_calm; [apply NewClientsetWithRetry_calm|]. intros [e|]; [apply ret_calm|].
  apply bind_calm; [apply get_calm|]. intros [o|e]; [apply ret_calm|].
  destruct (IsNotFound (Some e)); auto with calm.
Qed.

Lemma DeleteNamespace_calm kube name :
  calm (DeleteNamespace NewForConfig ServerVersion fuel kube name).
Proof.
  apply bind_calm; [apply NewClientsetWithRetry_calm|]. intros [e|]; [apply ret_calm|].
  apply bind_calm; [apply delete_calm|]. intros err. case_match; [apply ret_calm|].
  apply bind_calm; [|auto with calm]. apply poll_calm. intros s. unfold namespace_gone. auto with calm.
Qed.

Lemma pollUntil_calm {St} timeout what (check : St -> M W (St * (bool * option error))) s :
  (forall s, calm (check s)) -> calm (pollUntil fuel timeout what check s).
Proof.
  intros Hc. apply poll_calm. intros s'. apply bind_calm; [done|]. intros [s1 [ok err]].
  apply ret_calm.
Qed.
Lemma pollUntil__calm timeout what (check : M W (bool * option error)) :
  calm check -> calm (pollUntil_ fuel timeout what check).
Proof.
  intros Hc. apply bind_calm; [|auto with calm]. apply pollUntil_calm. intros _.
  apply bind_calm; auto with calm.
Qed.

Lemma secrets_present_calm onErr names : calm (secrets_present onErr names).
Proof.
  induction names as [|name names IH]; cbn [secrets_present]; [apply ret_calm|].
  apply bind_calm; [apply get_calm|]. intros [o|e]; [done|apply ret_calm].
Qed.

Lemma checkHealthClient_calm : calm checkHealthClient.
Proof.
  apply bind_calm; [apply list_calm|]. intros [nodes|e]; [|apply ret_calm].
  destruct (control_plane_ready nodes 0); auto with calm.
Qed.

Lemma waitBootstrapSecrets_calm kube timeout :
  calm (waitBootstrapSecrets NewForConfig ServerVersion fuel kube timeout).
Proof. apply with_clientset_calm, pollUntil__calm, secrets_present_calm. Qed.

Lemma waitExistingInstallReady_calm kube timeout :
  calm (waitExistingInstallReady NewForConfig ServerVersion fuel kube timeout).
Proof.
  apply with_clientset_calm, pollUntil__calm, bind_calm; [apply checkHealthClient_calm|].
  intros err. destruct (is_nil err); [apply secrets_present_calm|apply ret_calm].
Qed.

Lemma waitNodesReady_calm kube def timeout :
  calm (waitNodesReady NewForConfig ServerVersion fuel kube def timeout).
Proof.
  apply with_clientset_calm. unfold waitNodesReadyClient. case_match; [apply ret_calm|].
  apply pollUntil__calm. auto with calm.
Qed.

Lemma waitClusterHealthy_calm kube timeout :
  calm (waitClusterHealthy NewForConfig ServerVersion fuel kube timeout).
Proof.
  apply with_clientset_calm, bind_calm; [|auto with calm]. apply pollUntil_calm. intros _.
  apply bind_calm; [apply checkHealthClient_calm|auto with calm].
Qed.
End Calm.
