(* ===== verification/Join.v ===== *)
(** Joining the remaining nodes to the cluster ([src/internal/provisioning/dvp/nodes.go]). *)
From S2P Require Import Prelude Errors Retry Kube Config Deckhouse Remote Connect Deps Install.

Local Open Scope Z_scope.
Local Open Scope go_scope.

Definition joinRetryCount : Z := SSHRetryCount.
Definition joinRetryInitialDelay : Z := SSHRetryInitialDelay.
Definition joinRetryMaxDelay : Z := SSHRetryMaxDelay.
Definition joinRetryMarkers : list string := ["HTTP Error 401"; "Unauthorized"; "Connection refused"].

Definition buildNodeBootstrapCommand (script : string) : string :=
  "sudo bash <<'BOOTSTRAP_EOF'" +:+ nl +:+ script +:+ nl +:+ "BOOTSTRAP_EOF".

Definition isRetryableJoinError (res : ExecResult) (err : option error) : bool :=
  if is_nil err then false
  else existsb (Contains (Stdout res +:+ nl +:+ Stderr res)) joinRetryMarkers.

Record nodeJoin := mkJoin { join_node : ClusterNode; join_script : string }.

Definition join_failed (node : ClusterNode) (attempt : Z) (lastErr : option error) : error :=
  ErrorfWn ("join node " +:+ Hostname node +:+ " after " +:+ pretty attempt +:+ " attempt(s): ")
    lastErr "".

(** [joinRetryInitialDelay * time.Duration(1<<uint(attempt-1))], capped. *)
Definition join_backoff (attempt : Z) : Z :=
  let backoff := joinRetryInitialDelay * Z.shiftl 1 (attempt - 1) in
  if joinRetryMaxDelay <? backoff then joinRetryMaxDelay else backoff.

Section Join.
Context {W : Type} `{AE : ApiErrors, CX : Ctx W, R : Remote W}.
Context `{NC : Client W Node, SC : Client W Secret}.
Context (VMExecutor : string -> M W (result (Z * M W unit))).

(** One iteration per unit of [left] = [joinRetryCount + 1 - attempt]. *)
Fixpoint join_loop (left : nat) (attempt : Z) (exec : Z) (node : ClusterNode) (cmd : string)
    (lastErr : option error) : M W (option error) :=
  match left with
  | O => mret (Some (join_failed node joinRetryCount lastErr))
  | S left' =>
      let! '(res, execErr) := sshExec exec cmd in
      if is_nil execErr && (ExitCode res =? 0) then mret None
      else
        let lastErr := match execErr with
                       | Some e => Some e
                       | None => Some (Errorf ("bootstrap script exited with code " +:+
                                         pretty (ExitCode res)))
                       end in
        if negb (isRetryableJoinError res execErr) || (attempt =? joinRetryCount)
        then mret (Some (join_failed node attempt lastErr))
        else
          let! fired := timerFires (join_backoff attempt) in
          if fired : bool then join_loop left' (attempt + 1) exec node cmd lastErr
          else let! ce := ctxErr in
               mret (Some (ErrorfWn ("join node " +:+ Hostname node +:+ ": ") ce ""))
  end.

Definition joinNode (node : ClusterNode) (script : string) : M W (option error) :=
  if String.eqb (IPAddress node) ""
  then mret (Some (Errorf ("join node " +:+ Hostname node +:+ ": IP address is not set")))
  else on_vm VMExecutor (IPAddress node)
    (fun e => Some (ErrorfW ("join node " +:+ Hostname node +:+ ": connect: ") e ""))
    (fun exec => join_loop (Z.to_nat joinRetryCount) 1 exec node (buildNodeBootstrapCommand script) None).

Definition registeredNodeNames : M W (result (gset string)) :=
  let! nodes := clientList (O := Node) in
  mret match nodes with
       | Err e => Err (ErrorfW "list cluster nodes: " e "")
       | Ok nodes => Ok (list_to_set (map fst nodes))
       end.

Definition getBootstrapScript (secretName : string) : M W (result string) :=
  let name := ref bootstrapSecretNamespace secretName in
  let! secret := clientGet (O := Secret) name in
  mret match secret with
       | Err e =>
           if IsNotFound (Some e) then Err (Errorf ("bootstrap secret " +:+ name +:+ " not found"))
           else Err (ErrorfW ("get bootstrap secret " +:+ name +:+ ": ") e "")
       | Ok secret =>
           let script := default "" (Data secret !! bootstrapScriptKey) in
           if String.eqb script ""
           then Err (Errorf ("bootstrap secret " +:+ name +:+ " has no " +:+
                       quote bootstrapScriptKey +:+ " key"))
           else Ok script
       end.

(** The joins of one group of nodes: none needs no script. *)
Definition joins_of (secretName : string) (nodes : list ClusterNode) : M W (result (list nodeJoin)) :=
  match nodes with
  | [] => mret (Ok [])
  | _ =>
      let! script := getBootstrapScript secretName in
      mret match script with
           | Err e => Err e
           | Ok script => Ok (map (fun n => mkJoin n script) nodes)
           end
  end.

(** [order] is the order in which the group's goroutines come to run. *)
Context (order : forall T, list T -> list T).

Definition join_pending (extraMasters workers : list ClusterNode) : M W (option error) :=
  let! registered := registeredNodeNames in
  match registered with
  | Err e => mret (Some e)
  | Ok registered =>
      let pending := filter (fun n => Hostname n ∉ registered) in
      let! workerJoins := joins_of workerBootstrapSecret (pending workers) in
      match workerJoins with
      | Err e => mret (Some e)
      | Ok workerJoins =>
          let! masterJoins := joins_of masterBootstrapSecret (pending extraMasters) in
          match masterJoins with
          | Err e => mret (Some e)
          | Ok masterJoins =>
              let! r := errgroup (map (fun j => let! e := joinNode (join_node j) (join_script j) in
                                                mret (Some e))
                                    (order _ (workerJoins ++ masterJoins))) in
              mret (default None r)
          end
      end
  end.

Definition joinNodesWithClient (def : ClusterDefinition) : M W (option error) :=
  match tail (Masters def), Workers def with
  | [], [] => mret None
  | extraMasters, workers => join_pending extraMasters workers
  end.

Context `{CF : ClientFactory W, NG : Client W NodeGroup}.
Context {RestConfig : Type}.
Context (NewForConfig : RestConfig -> option error) (ServerVersion : RestConfig -> M W (option error)).

Definition joinNodes (target : RestConfig) (def : ClusterDefinition) : M W (option error) :=
  let! err := CreateStaticNodeGroup workerNodeGroupName in
  match err with
  | Some e => mret (Some (ErrorfW "create worker nodegroup: " e ""))
  | None =>
      let! err := NewClientsetWithRetry NewForConfig ServerVersion target in
      match err with
      | Some e => mret (Some (ErrorfW "create clientset: " e ""))
      | None => joinNodesWithClient def
      end
  end.
End Join.

(** ** What joining runs *)

Section Spec.
Context {W : Type} `{AE : ApiErrors, CX : Ctx W, R : Remote W, RL : !RemoteLaws W, CC : !CalmCtx W}.

(** A run of the bootstrap script on a host, and one that succeeded. *)
Definition runs_script (ip script : string) (e : execution) : Prop :=
  run_addr e = ip /\ run_cmd e = buildNodeBootstrapCommand script.
Definition succeeded (e : execution) : Prop := run_err e = None /\ ExitCode (run_res e) = 0.

Lemma calm_step {A} (m : M W A) w a w' :
  calm m -> m w = (a, w') -> open_conns w' = open_conns w /\ history w' = history w.
Proof. intros H E. specialize (H w). by rw E in H. Qed.

Lemma join_loop_keeps n attempt c node cmd le : keeps (join_loop n attempt c node cmd le).
Proof.
  revert attempt le. induction n as [|n IH]; intros attempt le; cbn [join_loop]; [apply ret_keeps|].
  apply bind_keeps; [apply exec_keeps|]. intros [res err]. case_match; [apply ret_keeps|].
  case_match; [apply ret_keeps|]. apply bind_keeps; [auto with calm|]. intros [|]; [apply IH|].
  auto with calm.
Qed.

Lemma join_loop_runs n attempt c node cmd le w r w' :
  join_loop n attempt c node cmd le w = (r, w') ->
  exists new, history w' = history w ++ new /\
    Forall (fun e => run_addr e = default "" (open_conns w !! c) /\ run_cmd e = cmd) new /\
    (r = None -> Exists succeeded new).
Proof.
  revert attempt le w. induction n as [|n IH]; intros attempt le w H; cbn [join_loop] in H.
  { injection H as <- <-. exists []. by rw app_nil_r. }
  mstep H as [[res err] w1] E1. apply exec_runs in E1 as [Ho1 Hh1].
  assert (Hend : forall r w', history w' = history w1 -> (r = None -> succeeded (mkRun
      (default "" (open_conns w !! c)) cmd res err)) -> exists new, history w' = history w ++ new /\
    Forall (fun e => run_addr e = default "" (open_conns w !! c) /\ run_cmd e = cmd) new /\
    (r = (None : option error) -> Exists succeeded new)).
  { intros r2 w2 Hh Hs. eexists. split; [by rw Hh Hh1|]. split; [by repeat constructor|].
    intros Hr. constructor. by apply Hs. }
  destruct (is_nil err && (ExitCode res =? 0)) eqn:Eok.
  { injection H as <- <-. apply Hend; [done|]. intros _. destruct err; [done|].
    by apply Z.eqb_eq in Eok. }
  case_match; [injection H as <- <-; by apply Hend|]. mstep H as [b w2] E2.
  apply (calm_step _ _ _ _ (timer_calm _)) in E2 as [Ho2 Hh2]. destruct b.
  - apply IH in H as (new & Hh & Hall & Hs). eexists. split; [by rw Hh Hh2 Hh1 -app_assoc|].
    rw Ho2 Ho1 in Hall. split; [by constructor|]. intros Hr. right. by apply Hs.
  - mstep H as [ce w3] E3. apply (calm_step _ _ _ _ ctx_calm) in E3 as [_ Hh3].
    injection H as <- <-. apply Hend; [congruence|done].
Qed.

Context (VMExecutor : string -> M W (result (Z * M W unit))) {EL : ExecutorLaws VMExecutor}.

Lemma joinNode_runs node script w r w' :
  joinNode VMExecutor node script w = (r, w') ->
  open_conns w' = open_conns w /\
  exists new, history w' = history w ++ new /\ Forall (runs_script (IPAddress node) script) new /\
    (r = None -> Exists succeeded new).
Proof.
  intros H. unfold joinNode in H. case_match.
  { injection H as <- <-. split; [done|]. exists []. by rw app_nil_r. }
  apply (on_vm_inv VMExecutor) in H as [Ho H]; [|intros; apply join_loop_keeps]. split; [done|].
  destruct H as [(e & -> & Hh)|(c & w1 & w2 & Hc & _ & Hh1 & Hb & Hh2)].
  { exists []. by rw app_nil_r. }
  apply join_loop_runs in Hb as (new & Hh & Hall & Hs). exists new. rw Hh2 Hh Hh1.
  split; [done|]. split; [|done]. by rw Hc in Hall.
Qed.

(** What every task keeps holds after the group, and what a task establishes stays when the
    other tasks do not undo it. *)
Lemma errgroup_each {T} (task : T -> M W (option (option error))) (J : W -> Prop)
    (Q : T -> W -> Prop) xs w r w' :
  (forall x w r w', x ∈ xs -> J w -> task x w = (r, w') -> J w' /\ (r = Some None -> Q x w')) ->
  (forall x y w r w', y ∈ xs -> J w -> Q x w -> task y w = (r, w') -> Q x w') ->
  J w -> errgroup (map task xs) w = (r, w') ->
  J w' /\ (r = Some None -> forall x, x ∈ xs -> Q x w').
Proof.
  revert w r. induction xs as [|x xs IH]; intros w r Ht Hp HJ H; cbn [map errgroup] in H.
  { injection H as <- <-. split; [done|]. intros _ x Hx. by apply elem_of_nil in Hx. }
  mstep H as [r1 w1] E1. mstep H as [r2 w2] E2. injection H as <- <-.
  destruct (Ht x w r1 w1 (list_elem_of_here _ _) HJ E1) as [HJ1 HQ1].
  destruct (IH w1 r2) as [HJ2 HQ2]; [..|done|done|].
  { intros y v rv v' Hy. apply Ht. by right. }
  { intros y z v rv v' Hz. apply Hp. by right. }
  split; [done|]. intros Hr. destruct r1 as [[e|]|], r2 as [[e'|]|]; try done.
  intros y [->|Hy]%elem_of_cons; [|by apply HQ2].
  refine (proj2 (errgroup_preserves (fun w => J w /\ Q x w) _ _ _ _ _ _ E2)); [|by split; [|apply HQ1]].
  intros t v rv v' (z & -> & Hz)%list_elem_of_fmap [HJv HQv] Hrun. split.
  - by eapply (Ht z); [right| |].
  - by eapply (Hp x z); [right|..].
Qed.

Context `{NC : Client W Node, NCL : !ClientLaws W Node, CN : !CalmClient W Node}.
Context `{SC : Client W Secret, SCL : !ClientLaws W Secret, CS : !CalmClient W Secret}.
Context {FR : Frame W Node Secret}.
Context (order : forall T, list T -> list T).
Hypothesis order_perm : forall T (l : list T), order T l ≡ₚ l.

(** The nodes to be joined, with the secret that holds their script: every worker and every
    master but the first. *)
Definition joins_with (def : ClusterDefinition) (n : ClusterNode) (secretName : string) : Prop :=
  (n ∈ Workers def /\ secretName = workerBootstrapSecret) \/
  (n ∈ tail (Masters def) /\ secretName = masterBootstrapSecret).

Definition script_in (secrets : gmap string Secret) (secretName script : string) : Prop :=
  exists s, secrets !! ref bootstrapSecretNamespace secretName = Some s /\
    Data s !! bootstrapScriptKey = Some script /\ script <> "".

Lemma joins_of_calm secretName nodes : calm (joins_of (W := W) secretName nodes).
Proof.
  unfold joins_of. destruct nodes; [apply ret_calm|]. apply bind_calm; [|auto with calm].
  unfold getBootstrapScript. auto with calm.
Qed.

Lemma joins_of_ok secretName nodes w js w' :
  joins_of secretName nodes w = (Ok js, w') ->
  objs (O := Secret) w' = objs w /\
  (forall j, j ∈ js -> join_node j ∈ nodes /\ script_in (objs w) secretName (join_script j)) /\
  (forall n, n ∈ nodes -> exists script, mkJoin n script ∈ js).
Proof.
  intros H. unfold joins_of in H. destruct nodes as [|n0 nodes].
  { injection H as <- <-. split; [done|]. split; [|by intros n Hn%elem_of_nil].
    intros j Hj. by apply elem_of_nil in Hj. }
  revert H. generalize (n0 :: nodes). intros ns H. mstep H as [r w1] E.
  unfold getBootstrapScript in E. mstep E as [got w2] E2. injection E as <- <-.
  destruct got as [s|e]; [|by destruct (IsNotFound (Some e)); injection H]. apply get_ok in E2 as [Hs Ho].
  destruct (String.eqb_spec (default "" (Data s !! bootstrapScriptKey)) "") as [Es|Es];
    [by injection H|]. injection H as <- <-. split; [done|]. split.
  - intros j (n & -> & Hn)%list_elem_of_fmap. split; [done|]. cbn. exists s.
    destruct (Data s !! bootstrapScriptKey); [|done]. done.
  - intros n Hn. eexists. apply list_elem_of_fmap. by exists n.
Qed.

Lemma registeredNodeNames_ok w names w' :
  registeredNodeNames w = (Ok names, w') -> names = dom (objs (O := Node) w).
Proof.
  intros H. unfold registeredNodeNames in H. mstep H as [l w1] E. destruct l as [l|e]; [|by injection H].
  injection H as <- <-. apply list_ok in E as [E _]. apply set_eq. intros x.
  rw elem_of_list_to_set elem_of_dom list_elem_of_fmap. split.
  - intros ([k v] & -> & Hin). rw E in Hin. apply elem_of_map_to_list in Hin. by exists v.
  - intros [v Hv]. exists (x, v). split; [done|]. rw E. by apply elem_of_map_to_list.
Qed.

Lemma errgroup_some (tasks : list (M W (option (option error)))) w :
  (forall t v, t ∈ tasks -> is_Some (t v).1) -> is_Some (errgroup tasks w).1.
Proof.
  revert w. induction tasks as [|t ts IH]; intros w Ht; cbn [errgroup]; [by eexists|].
  unfold mbind, M_bind, mret, M_ret. pose proof (Ht t w (list_elem_of_here _ _)) as [x Hx].
  destruct (t w) as [r w1]. cbn in Hx. subst r. destruct (IH w1) as [y Hy].
  { intros t' v Hin. apply Ht. by right. }
  destruct (errgroup ts w1) as [r2 w2]. cbn in Hy. subst r2. by destruct x, y; eexists.
Qed.

Lemma join_task_some js t v :
  t ∈ map (fun j => let! e := joinNode VMExecutor (join_node j) (join_script j) in mret (Some e)) js ->
  is_Some (t v).1.
Proof.
  intros (j & -> & _)%list_elem_of_fmap. unfold mbind, M_bind.
  destruct (joinNode _ _ _ v). by eexists.
Qed.

(** The group of joins, from the history [h0] on: it only runs the scripts it was given, and
    when it succeeds each of them ran to the end. *)
Lemma join_group_runs js w r w' :
  errgroup (map (fun j => let! e := joinNode VMExecutor (join_node j) (join_script j) in mret (Some e)) js)
    w = (r, w') ->
  open_conns w' = open_conns w /\
  exists new, history w' = history w ++ new /\
    Forall (fun e => exists j, j ∈ js /\ runs_script (IPAddress (join_node j)) (join_script j) e) new /\
    (r = Some None -> forall j, j ∈ js ->
       Exists (fun e => runs_script (IPAddress (join_node j)) (join_script j) e /\ succeeded e) new).
Proof.
  set (allowed := fun e => exists j, j ∈ js /\ runs_script (IPAddress (join_node j)) (join_script j) e).
  set (J := fun v => open_conns v = open_conns w /\
    exists new, history v = history w ++ new /\ Forall allowed new).
  set (Q := fun j v => exists new, history v = history w ++ new /\
    Exists (fun e => runs_script (IPAddress (join_node j)) (join_script j) e /\ succeeded e) new).
  intros H. refine ((fun (P : J w' /\ (r = Some None -> forall j, j ∈ js -> Q j w')) => _)
    (errgroup_each _ J Q js w r w' _ _ _ H)).
  - destruct P as [[Ho (new & Hh & Hall)] HQ]. split; [done|]. exists new.
    split; [done|]. split; [done|]. intros Hr j Hj. destruct (HQ Hr j Hj) as (new' & Hh' & He).
    rw Hh in Hh'. by apply app_inv_head in Hh' as <-.
  - intros j v rv v' Hj [Ho (new & Hh & Hall)] E. mstep E as [e v1] E1. injection E as <- <-.
    apply joinNode_runs in E1 as (Ho1 & new1 & Hh1 & Hall1 & Hs).
    assert (Hh2 : history v1 = history w ++ new ++ new1) by by rw Hh1 Hh -app_assoc.
    split.
    + split; [congruence|]. exists (new ++ new1). split; [done|]. apply Forall_app. split; [done|].
      eapply Forall_impl; [exact Hall1|]. intros e1 He1. by exists j.
    + intros [= ->]. exists (new ++ new1). split; [done|]. apply Exists_app. right.
      specialize (Hs eq_refl). apply Exists_exists in Hs as (e1 & Hin & Hs1).
      apply Exists_exists. exists e1. rw Forall_forall in Hall1. by split; [|split; [apply Hall1|]].
  - intros j j' v rv v' _ _ (new & Hh & He) E. mstep E as [e v1] E1. injection E as _ <-.
    apply joinNode_runs in E1 as (_ & new1 & Hh1 & _). exists (new ++ new1).
    split; [by rw Hh1 Hh -app_assoc|]. apply Exists_app. by left.
  - split; [done|]. exists []. by rw app_nil_r.
Qed.

(** A run that joining may make, and the nodes it has to join. *)
Definition join_run (def : ClusterDefinition) (w : W) (e : execution) : Prop :=
  exists n secretName script, joins_with def n secretName /\
    objs (O := Node) w !! Hostname n = None /\ script_in (objs w) secretName script /\
    runs_script (IPAddress n) script e.
Definition all_joined (def : ClusterDefinition) (w : W) (new : list execution) : Prop :=
  forall n secretName, joins_with def n secretName -> objs (O := Node) w !! Hostname n = None ->
    exists script, script_in (objs w) secretName script /\
      Exists (fun e => runs_script (IPAddress n) script e /\ succeeded e) new.

Lemma join_pending_runs def w r w' :
  join_pending VMExecutor order (tail (Masters def)) (Workers def) w = (r, w') ->
  open_conns w' = open_conns w /\
  exists new, history w' = history w ++ new /\ Forall (join_run def w) new /\
    (r = None -> all_joined def w new).
Proof.
  intros H. unfold join_pending in H.
  assert (Hnothing : forall w0 (e : error), open_conns w0 = open_conns w -> history w0 = history w ->
    open_conns w0 = open_conns w /\ exists new, history w0 = history w ++ new /\
      Forall (join_run def w) new /\ (Some e = None -> all_joined def w new)).
  { intros w0 e Ho Hh. split; [done|]. exists []. by rw app_nil_r. }
  mstep H as [reg w1] E1.
  assert (Hc1 : calm registeredNodeNames) by (unfold registeredNodeNames; auto with calm).
  pose proof (calm_step _ _ _ _ Hc1 E1) as [Ho1 Hh1].
  destruct reg as [reg|e]; [|injection H as <- <-; by apply Hnothing].
  assert (Hs1 : objs (O := Secret) w1 = objs w).
  { unfold registeredNodeNames in E1. mstep E1 as [l w1'] E1'. injection E1 as _ <-.
    pose proof (frame_list (O1 := Node) (O2 := Secret) w) as Hf. by rw E1' in Hf. }
  apply registeredNodeNames_ok in E1 as ->. mstep H as [wj w2] E2.
  pose proof (calm_step _ _ _ _ (joins_of_calm _ _) E2) as [Ho2 Hh2].
  destruct wj as [wj|e]; [|injection H as <- <-; apply Hnothing; congruence].
  apply joins_of_ok in E2 as (Hs2 & Hw1 & Hw2). mstep H as [mj w3] E3.
  pose proof (calm_step _ _ _ _ (joins_of_calm _ _) E3) as [Ho3 Hh3].
  destruct mj as [mj|e]; [|injection H as <- <-; apply Hnothing; congruence].
  apply joins_of_ok in E3 as (_ & Hm1 & Hm2). mstep H as [g w4] E4. injection H as <- <-.
  assert (Hsome : is_Some (g, w4).1)
    by (rw -E4; exact (errgroup_some _ w3 (join_task_some (order _ (wj ++ mj))))).
  cbn [fst] in Hsome.
  apply join_group_runs in E4 as (Ho4 & new & Hh4 & Hall & Hdone).
  rw Hs2 Hs1 in Hm1. rw Hs1 in Hw1.
  assert (Hj : forall j, j ∈ order _ (wj ++ mj) -> exists secretName, joins_with def (join_node j) secretName /\
    objs (O := Node) w !! Hostname (join_node j) = None /\ script_in (objs w) secretName (join_script j)).
  { intros j Hj. rw order_perm in Hj. apply elem_of_app in Hj as [Hj|Hj].
    - apply Hw1 in Hj as [[Hn Hin]%list_elem_of_filter Hs]. exists workerBootstrapSecret.
      split; [by left|]. by rw -not_elem_of_dom.
    - apply Hm1 in Hj as [[Hn Hin]%list_elem_of_filter Hs]. exists masterBootstrapSecret.
      split; [by right|]. by rw -not_elem_of_dom. }
  split; [congruence|]. exists new. split; [congruence|]. split.
  - eapply Forall_impl; [exact Hall|]. intros e (j & Hin & Hr). destruct (Hj j Hin) as (s & ? & ? & ?).
    by exists (join_node j), s, (join_script j).
  - intros Hg n s Hjw Hn. rw -not_elem_of_dom in Hn.
    assert (Hg' : g = Some None) by (by destruct Hsome as [x ->]; cbn in Hg; rw Hg). clear Hg Hsome.
    assert (Hj' : exists script, mkJoin n script ∈ wj ++ mj /\ script_in (objs w) s script).
    { destruct Hjw as [[Hin ->]|[Hin ->]].
      - destruct (Hw2 n) as [script Hsc]; [by apply list_elem_of_filter|]. exists script.
        split; [apply elem_of_app; by left|]. by destruct (Hw1 _ Hsc) as [_ ?].
      - destruct (Hm2 n) as [script Hsc]; [by apply list_elem_of_filter|]. exists script.
        split; [apply elem_of_app; by right|]. by destruct (Hm1 _ Hsc) as [_ ?]. }
    destruct Hj' as (script & Hin & Hs). exists script. split; [done|].
    apply (Hdone Hg' (mkJoin n script)). by rw order_perm.
Qed.

(** [joinNodesWithClient] runs nothing but bootstrap scripts, each the one of the node's
    secret, on nodes that are not registered yet and are not the first master. When it returns
    nil, every such node has run its script to the end with exit code 0. Whatever happens, no
    connection stays open. *)
Theorem joinNodesWithClient_spec def w r w' :
  joinNodesWithClient VMExecutor order def w = (r, w') ->
  open_conns w' = open_conns w /\
  exists new, history w' = history w ++ new /\ Forall (join_run def w) new /\
    (r = None -> all_joined def w new).
Proof.
  intros H. unfold joinNodesWithClient in H.
  destruct (decide (tail (Masters def) = [] /\ Workers def = [])) as [[Em Ew]|Hne].
  - rw Em Ew in H. injection H as <- <-. split; [done|]. exists []. rw app_nil_r.
    split; [done|]. split; [done|]. intros _ n s Hj. unfold joins_with in Hj. rw Em Ew in Hj.
    by destruct Hj as [[Hn%elem_of_nil _]|[Hn%elem_of_nil _]].
  - apply join_pending_runs. rw -H. destruct (tail (Masters def)), (Workers def); try done.
    by destruct Hne.
Qed.
End Spec.

(** ** On hosts in memory *)

Definition joinWorld := (memWorld Node * memWorld Secret * remoteHosts)%type.

Definition cluster_node (hostname ip : string) : ClusterNode :=
  mkNode hostname ip (mkOSType "" "" "") HostTypeVM None 2 None 4 20 false.
Definition two_and_one : ClusterDefinition :=
  mkDef [cluster_node "master-0" "10.0.0.1"; cluster_node "master-1" "10.0.0.2"]
    [cluster_node "worker-0" "10.0.0.3"] None (mkDKP "" "" "" "" "" "" []).

(** The worker answers the first attempt with a refused connection. *)
Definition flaky_host (log : list execution) (addr cmd : string) : ExecResult * option error :=
  if String.eqb addr "10.0.0.3" && negb (existsb (fun e => String.eqb (run_addr e) addr) log)
  then (mkExec "" "curl: Connection refused" 7, Some (Errorf "Process exited with status 7"))
  else (mkExec "ok" "" 0, None).

Definition secret_with (script : string) : Secret := mkSecret {[bootstrapScriptKey := script]}.
Definition first_master_up : joinWorld :=
  (mkWorld (mkMem {["master-0" := mkKubeNode ∅ []]} []) 3 false,
   mkWorld (mkMem {[ref bootstrapSecretNamespace masterBootstrapSecret := secret_with "join master";
                    ref bootstrapSecretNamespace workerBootstrapSecret := secret_with "join worker"]} [])
     0 false,
   mkHosts ∅ [] [] flaky_host).

Definition join_vms : string -> M joinWorld (result (Z * M joinWorld unit)) :=
  VMExecutor (DvpConfig.mkDvp "root" "base" "" "" "key" "" "" "" "" "" "" "" "e2e" "" "" "" "cloud" "" "")
    (DvpConfig.mkCreds "" "key" "").

Lemma joinNodesWithClient_spec_witness :
  let '(r, w') := joinNodesWithClient join_vms (fun T l => l) two_and_one first_master_up in
  r = None /\ length (history w') = 3%nat /\ open_conns w' = ∅ /\
  exists new, history w' = history first_master_up ++ new /\
    Forall (join_run two_and_one first_master_up) new /\ all_joined two_and_one first_master_up new.
Proof.
  destruct (joinNodesWithClient join_vms (fun T l => l) two_and_one first_master_up) as [r w'] eqn:E.
  pose proof (joinNodesWithClient_spec (W := joinWorld) join_vms (EL := VMExecutor_laws _ _)
    (fun T l => l) (fun T l => Permutation_refl l) two_and_one first_master_up r w' E)
    as (Ho & new & Hh & Hall & Hd).
  vm_compute in E. injection E as <- <-. split; [done|]. split; [done|]. split; [done|].
  exists new. split; [done|]. split; [done|]. by apply Hd.
Defined.
