(* ===== verification/Dhctl.v ===== *)
(** Bootstrapping the first master with dhctl, in a container on the setup node
    ([src/internal/provisioning/dvp/dhctl.go]): the commands, how they are quoted, and the
    decision whether to bootstrap at all. *)
From S2P Require Import Prelude Errors Retry Kube Config DvpConfig.
From S2P Require Import Deckhouse Remote Connect Deps Install Join Bootstrap.

(** ** Base64 *)

Definition b64_digit (n : nat) : Ascii.ascii :=
  Ascii.ascii_of_nat
    (if (n <? 26)%nat then 65 + n else if (n <? 52)%nat then 71 + n
     else if (n <? 62)%nat then n - 4 else if (n =? 62)%nat then 43 else 47).

Definition byte (c : Ascii.ascii) : nat := Ascii.nat_of_ascii c.

(** [base64.StdEncoding.EncodeToString]. *)
Fixpoint EncodeToString (s : string) : string :=
  match s with
  | EmptyString => ""
  | String a EmptyString =>
      String (b64_digit (byte a / 4)) (String (b64_digit (byte a mod 4 * 16)) "==")
  | String a (String b EmptyString) =>
      String (b64_digit (byte a / 4)) (String (b64_digit (byte a mod 4 * 16 + byte b / 16))
        (String (b64_digit (byte b mod 16 * 4)) "="))
  | String a (String b (String c s')) =>
      String (b64_digit (byte a / 4)) (String (b64_digit (byte a mod 4 * 16 + byte b / 16))
        (String (b64_digit (byte b mod 16 * 4 + byte c / 64))
          (String (b64_digit (byte c mod 64)) (EncodeToString s'))))
  end.

Example EncodeToString_examples :
  map EncodeToString [""; "f"; "fo"; "foo"; "Hello, world?>"]
  = [""; "Zg=="; "Zm8="; "Zm9v"; "SGVsbG8sIHdvcmxkPz4="].
Proof. vm_compute. reflexivity. Qed.

Local Open Scope Z_scope.
Local Open Scope go_scope.

(** ** Commands *)

Definition dhctlContainerSSHKeyPath := "/root/.ssh/id_rsa".
Definition writeFileHeredocMarker := "STORAGE_E2E_B64_EOF".
Definition dhctlContainerName := "storage-e2e-dhctl-bootstrap".
Definition masterKubeconfigProbeCmd : string :=
  "sudo -n test -f /etc/kubernetes/super-admin.conf" +:+
  " || sudo -n test -f /etc/kubernetes/admin.conf".

Record dhctlBootstrapParams := mkDhctl {
  InstallImage : string;
  dhctlVMSSHUser : string;
  MasterIP : string;
  RemoteLogPath : string;
  UsePassphrase : bool
}.

Definition remoteConfigPath (user : string) : string := "/home/" +:+ user +:+ "/config.yml".
Definition remoteKeyPath (user : string) : string := "/home/" +:+ user +:+ "/.ssh/id_rsa".
Definition remoteConnConfigPath (user : string) : string :=
  "/home/" +:+ user +:+ "/.config/storage-e2e/dhctl-connection.yaml".

Definition buildDockerLoginCommand (registryHost licenseKey : string) : string :=
  "echo " +:+ quote licenseKey +:+ " | sudo docker login -u license-token --password-stdin " +:+
  registryHost.

Definition buildWriteFileCommand (remotePath content mode : string) : string :=
  let b64 := EncodeToString content in
  "set -eu" +:+ nl +:+ "umask 077" +:+ nl +:+
  "mkdir -p " +:+ quote (path_Dir remotePath) +:+ nl +:+
  "sudo rm -rf -- " +:+ quote remotePath +:+ nl +:+
  "base64 -d > " +:+ quote remotePath +:+ " <<'" +:+ writeFileHeredocMarker +:+ "'" +:+ nl +:+
  b64 +:+ nl +:+ writeFileHeredocMarker +:+ nl +:+ "chmod " +:+ mode +:+ " " +:+ quote remotePath.

Definition buildBindMount (src dst : string) (readonly : bool) : string :=
  let m := "type=bind,src=" +:+ src +:+ ",dst=" +:+ dst in
  "--mount " +:+ quote (if readonly then m +:+ ",readonly" else m).

Definition shellSingleQuote (s : string) : string :=
  "'" +:+ ReplaceAll s "'" "'\''" +:+ "'".

Definition dhctl_inner (p : dhctlBootstrapParams) : string :=
  let user := dhctlVMSSHUser p in
  let configMount := buildBindMount (remoteConfigPath user) "/config.yml" false in
  let '(volFlags, sshArgs) :=
    if UsePassphrase p then
      (configMount +:+ " " +:+ buildBindMount (remoteConnConfigPath user) "/dhctl-connection.yaml" true,
       "--connection-config=/dhctl-connection.yaml --config=/config.yml")
    else
      (configMount +:+ " " +:+ buildBindMount (remoteKeyPath user) dhctlContainerSSHKeyPath true,
       "--ssh-host=" +:+ MasterIP p +:+ " --ssh-user=" +:+ user +:+ " --ssh-agent-private-keys=" +:+
       dhctlContainerSSHKeyPath +:+ " --config=/config.yml") in
  "sudo docker run --name " +:+ dhctlContainerName +:+ " --network=host --pull=always " +:+ volFlags +:+
  " " +:+ InstallImage p +:+ " dhctl bootstrap " +:+ sshArgs +:+ " > " +:+ RemoteLogPath p +:+ " 2>&1".

Definition buildDhctlBootstrapCommand (p : dhctlBootstrapParams) : string :=
  "sudo -u " +:+ dhctlVMSSHUser p +:+ " bash -c " +:+ shellSingleQuote (dhctl_inner p).

(** ** The connection config of dhctl *)

Record dhctlSSHAgentPrivateKey := mkAgentKey { agentKey : string; agentPassphrase : string }.
Record dhctlSSHConfigManifest := mkSSHConfig {
  cfgAPIVersion : string;
  cfgKind : string;
  cfgSSHUser : string;
  cfgSSHPort : Z;
  cfgPrivateKeys : list dhctlSSHAgentPrivateKey
}.
Record dhctlSSHHostManifest := mkSSHHost { hostAPIVersion : string; hostKind : string; hostHost : string }.

(** The first master VM with an address is the one dhctl bootstraps. *)
Definition firstMasterVMIP (def : option ClusterDefinition) : result string :=
  match def with
  | None => Err (Errorf "cluster definition is nil")
  | Some def =>
      match omap vm_ip (Masters def) with
      | ip :: _ => Ok ip
      | [] => Err (Errorf "no master VM with an IP address in cluster definition")
      end
  end.

Section Dhctl.
Context {W : Type} `{AE : ApiErrors, CX : Ctx W, R : Remote W}.
Context `{NC : Client W Node, SC : Client W Secret, DC : Client W Deployment}.
Context {RestConfig : Type}.
Context (NewForConfig : RestConfig -> option error) (ServerVersion : RestConfig -> M W (option error)).
Context (fuel : nat).
(** [yaml.Marshal], the bootstrap template, and [time.Now().UnixNano()]. *)
Context (marshal_cfg : dhctlSSHConfigManifest -> result string).
Context (marshal_host : dhctlSSHHostManifest -> result string).
Context (execute_template : bootstrapParams -> result string) (unixNano : M W Z).
Context (d : deps W RestConfig) (dvpConf : DvpConfig.Config) (creds : Credentials).

Definition renderBootstrapConfig (p : bootstrapParams) : result string :=
  match execute_template p with
  | Err e => Err (ErrorfW "render bootstrap template: " e "")
  | Ok s => Ok s
  end.

Definition buildDHCTLSSHConnectionConfig (privateKeyPEM user masterIP passphrase : string)
    : result string :=
  if String.eqb (TrimSpace privateKeyPEM) "" then Err (Errorf "private key PEM is empty")
  else if String.eqb user "" then Err (Errorf "ssh user is empty")
  else if String.eqb masterIP "" then Err (Errorf "master IP is empty")
  else
    let cfg := mkSSHConfig "dhctl.deckhouse.io/v1" "SSHConfig" user 22
      [mkAgentKey (TrimSpace privateKeyPEM +:+ nl) passphrase] in
    let hostDoc := mkSSHHost "dhctl.deckhouse.io/v1" "SSHHost" masterIP in
    match marshal_cfg cfg with
    | Err e => Err (ErrorfW "marshal SSHConfig: " e "")
    | Ok cfgBytes =>
        match marshal_host hostDoc with
        | Err e => Err (ErrorfW "marshal SSHHost: " e "")
        | Ok hostBytes =>
            Ok ("---" +:+ nl +:+ TrimSuffix cfgBytes nl +:+ nl +:+ "---" +:+ nl +:+
                TrimSuffix hostBytes nl +:+ nl)
        end
    end.

Definition dockerContainerStatus (exec : Z) (name : string) : M W (result string) :=
  let! '(res, err) := sshExec exec
    ("sudo docker inspect -f '{{.State.Status}}' " +:+ quote name +:+ " 2>/dev/null || true") in
  mret match err with
       | Some e => Err (ErrorfW ("inspect container " +:+ quote name +:+ ": ") e "")
       | None => Ok (TrimSpace (Stdout res))
       end.

Definition dockerWaitContainer (exec : Z) (name : string) : M W (result Z) :=
  let! '(res, err) := sshExec exec ("sudo docker wait " +:+ quote name) in
  mret match err with
       | Some e => Err (ErrorfW ("docker wait " +:+ quote name +:+ ": ") e "")
       | None =>
           let out := TrimSpace (Stdout res) in
           match Atoi out with
           | Some code => Ok code
           | None => Err (Errorf ("docker wait " +:+ quote name +:+ ": unexpected output " +:+ quote out))
           end
       end.

Definition installReadyWait : RestConfig -> Z -> M W (option (option error)) :=
  match installReady d with
  | Some f => f
  | None => waitExistingInstallReady NewForConfig ServerVersion fuel
  end.

Definition deckhouseAlreadyInstalled (masterIP : string) : act W bool :=
  let! probe := on_vm (connector_VMExecutor d) masterIP Err
    (fun exec => let! r := sshExec exec masterKubeconfigProbeCmd in mret (Ok r)) in
  match probe with
  | Err e => fail (ErrorfW ("dhctl bootstrap: probe master " +:+ masterIP +:+ ": connect: ") e "")
  | Ok (res, Some probeErr) =>
      if negb (ExitCode res =? 0) then give false
      else fail (ErrorfW ("dhctl bootstrap: probe master " +:+ masterIP +:+ " for kubeconfig: ")
                   probeErr "")
  | Ok (res, None) =>
      let! target := masterConn_connectToMaster d masterIP in
      match target with
      | Err e => fail (ErrorfW ("master " +:+ masterIP +:+
          " has a kubeconfig but its API server is unreachable; " +:+
          "the VM is half-bootstrapped and dhctl cannot resume it — recreate the cluster VMs: ") e "")
      | Ok (target, cleanup) =>
          let! ready := installReadyWait target existingInstallReadyTimeout in
          let! _ := cleanup in
          mret match ready with
               | None => None
               | Some (Some e) => Some (Err (ErrorfW ("master " +:+ masterIP +:+
                   " has a kubeconfig but Deckhouse never became healthy; " +:+
                   "the VM is half-bootstrapped — recreate the cluster VMs or inspect `sudo docker logs " +:+
                   dhctlContainerName +:+ "` on the setup node: ") e ""))
               | Some None => Some (Ok true)
               end
      end
  end.

(** The copy of the log that is kept in a local file is not modelled. *)
Definition collectRemoteLog (exec : Z) (remoteLog : string) : M W string :=
  let! '(res, _) := sshExec exec ("sudo cat " +:+ quote remoteLog +:+ " 2>/dev/null || true") in
  let! _ := sshExec exec ("sudo rm -f " +:+ quote remoteLog) in
  mret (Stdout res).

(** [if res, err := exec.Exec(cmd); err != nil { return ... }]. *)
Definition run_or (pre : string) (exec : Z) (cmd : string) (k : M W (option error))
    : M W (option error) :=
  let! '(res, err) := sshExec exec cmd in
  match err with
  | Some e => mret (Some (ErrorfW pre e (" (stderr: " +:+ Stderr res +:+ ")")))
  | None => k
  end.

(** From the removal of a leftover container on. *)
Definition run_container (exec : Z) (installImage masterIP : string) (usePassphrase : bool)
    : M W (option error) :=
  let user := VMSSHUser dvpConf in
  let! _ := sshExec exec ("sudo docker rm -f " +:+ quote dhctlContainerName +:+ " >/dev/null 2>&1 || true") in
  let! now := unixNano in
  let remoteLog := "/tmp/dhctl-bootstrap-" +:+ pretty now +:+ ".log" in
  let! '(_, bootstrapErr) := sshExec exec (buildDhctlBootstrapCommand
    (mkDhctl installImage user masterIP remoteLog usePassphrase)) in
  let! _ := if usePassphrase
    then let! _ := sshExec exec ("sudo rm -rf -- " +:+ quote (remoteConnConfigPath user)) in mret tt
    else mret tt in
  let! logContent := collectRemoteLog exec remoteLog in
  mret match bootstrapErr with
       | None => None
       | Some e => Some (ErrorfW "dhctl bootstrap failed: " e
           (if String.eqb logContent "" then ""
            else nl +:+ nl +:+ "bootstrap log:" +:+ nl +:+ logContent))
       end.

Definition runDhctlBootstrap (exec : Z) (def : ClusterDefinition) : M W (option error) :=
  match firstMasterVMIP (Some def) with
  | Err e => mret (Some (ErrorfW "dhctl bootstrap: " e ""))
  | Ok masterIP =>
      let registryRepo := RegistryRepo (DKP def) in
      if String.eqb registryRepo ""
      then mret (Some (Errorf "dhctl bootstrap: dkpParameters.registryRepo is required"))
      else
        let registryHost := cut_before "/" registryRepo in
        let devBranch := if String.eqb (DevBranch (DKP def)) "" then "main" else DevBranch (DKP def) in
        let installImage := registryRepo +:+ "/install:" +:+ devBranch in
        match buildBootstrapParams (Some def) (RegistryDockerCfg dvpConf) with
        | Err e => mret (Some (ErrorfW "dhctl bootstrap: build config params: " e ""))
        | Ok params =>
            match renderBootstrapConfig params with
            | Err e => mret (Some (ErrorfW "dhctl bootstrap: render config: " e ""))
            | Ok configYML =>
                let user := VMSSHUser dvpConf in
                let usePassphrase := is_set (SSHPassphrase dvpConf) in
                run_or "dhctl bootstrap: write config.yml to setup node: " exec
                  (buildWriteFileCommand (remoteConfigPath user) configYML "0644") (
                run_or "dhctl bootstrap: write private key to setup node: " exec
                  (buildWriteFileCommand (remoteKeyPath user) (SSHKey creds) "0600") (
                run_or ("dhctl bootstrap: registry login to " +:+ registryHost +:+ ": ") exec
                  (buildDockerLoginCommand registryHost (DKPLicenseKey dvpConf)) (
                if usePassphrase then
                  match buildDHCTLSSHConnectionConfig (SSHKey creds) user masterIP
                          (SSHPassphrase dvpConf) with
                  | Err e => mret (Some (ErrorfW "dhctl bootstrap: build connection-config: " e ""))
                  | Ok connYAML =>
                      run_or "dhctl bootstrap: write connection-config to setup node: " exec
                        (buildWriteFileCommand (remoteConnConfigPath user) connYAML "0600")
                        (run_container exec installImage masterIP usePassphrase)
                  end
                else run_container exec installImage masterIP usePassphrase)))
            end
        end
  end.

Definition ensureDhctlBootstrapped (exec : Z) (def : ClusterDefinition) : act W unit :=
  match firstMasterVMIP (Some def) with
  | Err e => fail (ErrorfW "dhctl bootstrap: " e "")
  | Ok masterIP =>
      try! status := wrapped "dhctl bootstrap: check for in-flight bootstrap container: "
        (call (dockerContainerStatus exec dhctlContainerName)) in
      try! _ := if String.eqb status "running"
        then wrapped "dhctl bootstrap: wait for in-flight bootstrap container: "
               (call (dockerWaitContainer exec dhctlContainerName))
        else give 0 in
      try! installed := deckhouseAlreadyInstalled masterIP in
      if installed : bool then give tt else check_err (runDhctlBootstrap exec def)
  end.

Definition dhctlBootstrap (def : ClusterDefinition) : act W unit :=
  match Setup def with
  | None => fail (Errorf "dhctl bootstrap: setup node IP is not set")
  | Some setup =>
      if String.eqb (IPAddress setup) ""
      then fail (Errorf "dhctl bootstrap: setup node IP is not set")
      else on_vm (connector_VMExecutor d) (IPAddress setup)
        (fun e => Some (Err (ErrorfW "dhctl bootstrap: connect to setup node: " e "")))
        (fun exec => ensureDhctlBootstrapped exec def)
  end.
End Dhctl.

(** ** Quoting *)

(** How a POSIX shell reads one word: single quotes keep everything up to the next quote, a
    backslash outside of quotes keeps the next character. Unquoted, only characters without
    a meaning of their own are read. *)
Definition plain (c : Ascii.ascii) : bool :=
  is_ident c || existsb (Ascii.eqb c) ["-"; "."; "/"; ":"; "="; "@"; "%"; "+"; ","]%char.

Fixpoint sh_word (quoted : bool) (s : string) : option string :=
  match s with
  | EmptyString => if quoted then None else Some ""
  | String c s' =>
      if Ascii.eqb c "'" then sh_word (negb quoted) s'
      else if quoted then String c <$> sh_word true s'
      else if Ascii.eqb c "\" then
        match s' with
        | String e s'' => String e <$> sh_word false s''
        | EmptyString => None
        end
      else if plain c then String c <$> sh_word false s' else None
  end.

Lemma ReplaceAll_quote_cons c s new :
  ReplaceAll (String c s) "'" new =
  (if Ascii.eqb c "'" then new else String c "") +:+ ReplaceAll s "'" new.
Proof.
  unfold ReplaceAll. cbn [String.length replace_rounds HasPrefix].
  assert (E : HasPrefix s "" = true) by by destruct s. rw E andb_true_r Ascii.eqb_sym.
  by destruct (Ascii.eqb c "'").
Qed.

Lemma sh_word_quoted s t :
  sh_word true (ReplaceAll s "'" "'\''" +:+ String "'" t) = (fun x => s +:+ x) <$> sh_word false t.
Proof.
  induction s as [|c s IH].
  { change (sh_word false t = (fun x => "" +:+ x) <$> sh_word false t).
    destruct (sh_word false t) as [x|]; [|done]. cbn. by rw str_app_nil_l. }
  assert (E : String c <$> ((fun x => s +:+ x) <$> sh_word false t)
              = (fun x => String c s +:+ x) <$> sh_word false t).
  { destruct (sh_word false t) as [x|]; [|done]. cbn. by rw str_app_cons. }
  rw ReplaceAll_quote_cons str_app_assoc -E -IH. destruct (Ascii.eqb_spec c "'") as [->|Hc].
  - by rw !str_app_cons str_app_nil_l.
  - rw str_app_cons str_app_nil_l. cbn [sh_word]. by destruct (Ascii.eqb_spec c "'").
Qed.

(** C40: A shell reads [shellSingleQuote s] as the one word [s], whatever [s] contains, so the
    command line handed to [bash -c] is the one that was built. *)
Theorem shellSingleQuote_roundtrip s : sh_word false (shellSingleQuote s) = Some s.
Proof.
  unfold shellSingleQuote. rw str_app_cons str_app_nil_l. cbn [sh_word Ascii.eqb Bool.eqb negb].
  change (sh_word true (ReplaceAll s "'" "'\''" +:+ "'") = Some s).
  rw (sh_word_quoted s ""). cbn. by rw str_app_nil_r.
Qed.

(** ** When dhctl is run *)

(** The bootstrap command is the only one run as another user. *)
Definition is_dhctl_run (e : execution) : bool := HasPrefix (run_cmd e) "sudo -u ".

Lemma bootstrap_command_is_dhctl_run p addr res err :
  is_dhctl_run (mkRun addr (buildDhctlBootstrapCommand p) res err) = true.
Proof. by apply HasPrefix_spec; eexists. Qed.

(** The probe of a master: no kubeconfig there, or one found. *)
Definition is_probe (ip : string) (e : execution) : Prop :=
  run_addr e = ip /\ run_cmd e = masterKubeconfigProbeCmd.
Definition clean_probe (ip : string) (e : execution) : Prop :=
  is_probe ip e /\ run_err e <> None /\ ExitCode (run_res e) <> 0.
Definition found_probe (ip : string) (e : execution) : Prop := is_probe ip e /\ run_err e = None.

Definition no_dhctl (e : execution) : Prop := is_dhctl_run e = false.
Definition dhctl_ok (setupIP : string) (e : execution) : Prop :=
  is_dhctl_run e = true /\ run_addr e = setupIP /\ run_err e = None.

(** What may be run: dhctl only after a probe that found a clean master. *)
Definition probed_first (masterIP : string) (new : list execution) : Prop :=
  forall l1 e l2, new = l1 ++ e :: l2 -> is_dhctl_run e = true -> Exists (clean_probe masterIP) l1.

Lemma no_dhctl_probed ip new : Forall no_dhctl new -> probed_first ip new.
Proof.
  intros H l1 e l2 -> He. rw Forall_app Forall_cons in H. destruct H as (_ & Hn & _).
  by rw Hn in He.
Qed.

(** Runs that are not dhctl may come before, and after a clean probe anything may follow. *)
Lemma probed_first_app ip new new' :
  Forall no_dhctl new -> Exists (clean_probe ip) new \/ probed_first ip new' ->
  probed_first ip (new ++ new').
Proof.
  intros Hn Hor l1 e l2 E He. apply app_eq_inv in E as [(k & E1 & E2)|(k & E1 & E2)].
  - destruct k as [|x k].
    + rw app_nil_r in E1. subst l1. destruct Hor as [Hc|Hp]; [done|].
      specialize (Hp [] e l2 (eq_sym E2) He). by inversion Hp.
    + injection E2 as -> ->. subst new. rw Forall_app Forall_cons in Hn.
      destruct Hn as (_ & Hn & _). by rw Hn in He.
  - subst l1. apply Exists_app. destruct Hor as [Hc|Hp]; [by left|]. right. by apply (Hp k e l2).
Qed.

Section Safety.
Context {W : Type} `{AE : ApiErrors, CX : Ctx W, R : Remote W, RL : !RemoteLaws W, CC : !CalmCtx W}.
Context `{NC : Client W Node, SC : Client W Secret, DC : Client W Deployment}.
Context `{CN : !CalmClient W Node, CS : !CalmClient W Secret, CD : !CalmClient W Deployment}.
Context {RestConfig : Type}.
Context (NewForConfig : RestConfig -> option error) (ServerVersion : RestConfig -> M W (option error)).
Context (ServerVersion_calm : forall cfg, calm (ServerVersion cfg)).
Context (fuel : nat).
Context (marshal_cfg : dhctlSSHConfigManifest -> result string).
Context (marshal_host : dhctlSSHHostManifest -> result string).
Context (execute_template : bootstrapParams -> result string) (unixNano : M W Z).
Context (unixNano_calm : calm unixNano).
Context (d : deps W RestConfig) {DL : DepsLaws d} (dvpConf : DvpConfig.Config) (creds : Credentials).

(** *** The container *)

Definition any {A} (a : A) (new : list execution) : Prop := True.

Lemma logs_any_exec O c cmd : logs O (sshExec c cmd) any.
Proof. by apply logs_exec. Qed.

Lemma collectRemoteLog_logs O c log : logs O (collectRemoteLog c log) any.
Proof.
  unfold collectRemoteLog. eapply logs_bind; [apply logs_any_exec|]. intros [res err] n _.
  eapply logs_bind; [apply logs_any_exec|]. intros r n' _. by apply logs_ret.
Qed.

Definition success_ran (setupIP : string) (r : option error) (new : list execution) : Prop :=
  r = None -> Exists (dhctl_ok setupIP) new.

Lemma success_ran_app setupIP r new new' :
  success_ran setupIP r new' -> success_ran setupIP r (new ++ new').
Proof. intros H Hr. apply Exists_app. right. by apply H. Qed.

Lemma run_container_logs O c image masterIP usePassphrase :
  logs O (run_container unixNano dvpConf c image masterIP usePassphrase)
    (success_ran (default "" (O !! c))).
Proof.
  unfold run_container. eapply logs_bind; [apply logs_any_exec|]. intros r n _.
  eapply logs_bind; [by apply (logs_calm _ _ any)|]. intros now n1 _.
  eapply logs_bind; [apply (logs_exec _ _ _ (fun a new => success_ran (default "" (O !! c)) a.2 new))|].
  { intros res err Hr. cbn in Hr. constructor. split_and!; [apply bootstrap_command_is_dhctl_run|done..]. }
  intros [res err] n2 Hs. eapply logs_bind.
  { instantiate (1 := any). destruct usePassphrase; [|by apply logs_ret].
    eapply logs_bind; [apply logs_any_exec|]. intros. by apply logs_ret. }
  intros u n3 _. eapply logs_bind; [apply collectRemoteLog_logs|]. intros content n4 _.
  apply logs_ret. rw app_nil_r. intros Hr. destruct err; [done|].
  apply Exists_app. right. apply Exists_app. right. apply Exists_app. left. by apply Hs.
Qed.

Lemma run_or_logs setupIP O pre c cmd k :
  logs O k (success_ran setupIP) -> logs O (run_or pre c cmd k) (success_ran setupIP).
Proof.
  intros Hk. eapply logs_bind; [apply logs_any_exec|]. intros [res [e|]] n _.
  - by apply logs_ret.
  - eapply logs_conseq; [exact Hk|]. intros r new. apply success_ran_app.
Qed.

Lemma runDhctlBootstrap_logs O c def :
  logs O (runDhctlBootstrap marshal_cfg marshal_host execute_template unixNano dvpConf creds c def)
    (success_ran (default "" (O !! c))).
Proof.
  unfold runDhctlBootstrap.
  repeat match goal with
    | |- logs _ (match ?x with _ => _ end) _ => destruct x
    | |- logs _ (mret (Some _)) _ => by apply logs_ret
    | |- logs _ (run_or _ _ _ _) _ => apply run_or_logs
    | |- logs _ (run_container _ _ _ _ _ _) _ => apply run_container_logs
    end.
Qed.

(** *** The decision *)

Lemma installReadyWait_calm kube timeout :
  calm (installReadyWait NewForConfig ServerVersion fuel d kube timeout).
Proof.
  unfold installReadyWait. destruct (installReady d) eqn:E; [by eapply install_ready_calm|].
  by apply waitExistingInstallReady_calm.
Qed.

(** The outcome of the probe and what it was based on. *)
Definition decided (masterIP : string) (r : option (result bool)) (new : list execution) : Prop :=
  Forall no_dhctl new /\
  (r = Some (Ok false) -> Exists (clean_probe masterIP) new) /\
  (r = Some (Ok true) -> Exists (found_probe masterIP) new).

Lemma reads_kubeconfig_no_dhctl ip new : Forall (reads_kubeconfig ip) new -> Forall no_dhctl new.
Proof. intros H. eapply Forall_impl; [exact H|]. intros e [_ He]. unfold no_dhctl, is_dhctl_run. by rw He. Qed.

Lemma deckhouseAlreadyInstalled_logs O masterIP :
  logs O (deckhouseAlreadyInstalled NewForConfig ServerVersion fuel d masterIP) (decided masterIP).
Proof.
  unfold deckhouseAlreadyInstalled. eapply logs_bind.
  { apply (logs_on_vm _ _ _ _ _ (fun r new => match r with
      | Err _ => new = []
      | Ok (res, err) => exists e, new = [e] /\ is_probe masterIP e /\ run_res e = res /\ run_err e = err
      end)); [done|].
    intros c O' Hc. eapply logs_bind.
    { apply (logs_exec _ _ _ (fun r new => exists e, new = [e] /\ is_probe masterIP e /\
        run_res e = r.1 /\ run_err e = r.2)).
      intros res err. eexists. split; [done|]. split; [|done]. split; [by cbn; rw Hc|done]. }
    intros [res err] n Hn. apply logs_ret. by rw app_nil_r. }
  intros [[res [e|]]|e] n Hn.
  - destruct Hn as (p & -> & Hp & Hres & Herr). assert (Hno : no_dhctl p).
    { unfold no_dhctl, is_dhctl_run. by rw (proj2 Hp). }
    destruct (ExitCode res =? 0) eqn:Ec; cbn [negb]; apply logs_ret; rw app_nil_r.
    + split; [by constructor|]. done.
    + split; [by constructor|]. split; [|done]. intros _. constructor. split; [done|].
      rw Hres Herr. split; [done|]. by apply Z.eqb_neq.
  - destruct Hn as (p & -> & Hp & Hres & Herr). assert (Hno : no_dhctl p).
    { unfold no_dhctl, is_dhctl_run. by rw (proj2 Hp). }
    eapply logs_acquired; [apply master_acquires| |].
    + intros e1 n1 Hn1. apply logs_ret. rw app_nil_r. apply reads_kubeconfig_no_dhctl in Hn1.
      split; [by constructor|]. done.
    + intros target cl w1 w2 n1 Hn1 Hr HO b w3 H. apply reads_kubeconfig_no_dhctl in Hn1.
      mstep H as [ready w4] E4. apply (calm_step _ _ _ _ (installReadyWait_calm _ _)) in E4 as [Ho4 Hh4].
      mstep H as [u w5] E5. injection H as <- <-. destruct (Hr w4 Ho4) as [Ho5 Hh5].
      rw E5 in Ho5 Hh5. cbn [snd] in Ho5, Hh5. split; [congruence|]. exists [].
      split; [by rw app_nil_r Hh5 Hh4|]. rw !app_nil_r. split; [by constructor|].
      destruct ready as [[e|]|]; [done| |done]. split; [done|]. intros _. by constructor.
  - subst n. apply logs_ret. by split_and!; [constructor|..].
Qed.

(** What [dhctlBootstrap] may run, and what its success rests on. *)
Definition bootstrapped (setupIP masterIP : string) (r : option (result unit)) (new : list execution)
    : Prop :=
  probed_first masterIP new /\
  (r = Some (Ok tt) -> Exists (dhctl_ok setupIP) new \/ Exists (found_probe masterIP) new).

Lemma bootstrapped_failed setupIP masterIP r new :
  r <> Some (Ok tt) -> Forall no_dhctl new -> bootstrapped setupIP masterIP r new.
Proof. intros Hr Hn. split; [by apply no_dhctl_probed|done]. Qed.

Lemma bootstrapped_app setupIP masterIP r new new' :
  Forall no_dhctl new -> bootstrapped setupIP masterIP r new' ->
  bootstrapped setupIP masterIP r (new ++ new').
Proof.
  intros Hn [Hp Hs]. split; [apply probed_first_app; auto|]. intros Hr.
  destruct (Hs Hr) as [H|H]; [left|right]; apply Exists_app; by right.
Qed.

(** Steps before the decision: they run something else, and their failure is the end. *)
Lemma logs_before {A} O (m : act W A) (k : A -> act W unit) setupIP masterIP :
  logs O m (fun _ new => Forall no_dhctl new) ->
  (forall a, logs O (k a) (bootstrapped setupIP masterIP)) ->
  logs O (act_bind m k) (bootstrapped setupIP masterIP).
Proof.
  intros Hm Hk. eapply logs_bind; [exact Hm|]. intros [[a|e]|] new Hn.
  - eapply logs_conseq; [apply Hk|]. intros r new'. by apply bootstrapped_app.
  - apply logs_ret. rw app_nil_r. by apply bootstrapped_failed.
  - apply logs_ret. rw app_nil_r. by apply bootstrapped_failed.
Qed.

Lemma docker_call_logs {A} O pre c cmd (k : ExecResult * option error -> M W (result A)) :
  HasPrefix cmd "sudo -u " = false -> (forall r, calm (k r)) ->
  logs O (wrapped pre (call (mbind k (sshExec c cmd)))) (fun _ new => Forall no_dhctl new).
Proof.
  set (P := fun B (_ : B) new => Forall no_dhctl new). intros Hc Hk.
  assert (Hret : forall B (b : B) new, Forall no_dhctl new ->
    logs O (mret b) (fun _ new' => Forall no_dhctl (new ++ new'))).
  { intros B b new Hn. apply logs_ret. by rw app_nil_r. }
  eapply (logs_bind _ _ _ (P _)); [|by intros; apply Hret].
  eapply (logs_bind _ _ _ (P _)); [|by intros; apply Hret].
  eapply (logs_bind _ _ _ (P _)); [apply logs_exec; intros r err; by constructor|].
  intros r new Hn. apply logs_calm; [done|]. intros a. by rw app_nil_r.
Qed.

Lemma ensureDhctlBootstrapped_logs O c def setupIP masterIP :
  default "" (O !! c) = setupIP -> firstMasterVMIP (Some def) = Ok masterIP ->
  logs O (ensureDhctlBootstrapped NewForConfig ServerVersion fuel marshal_cfg marshal_host
            execute_template unixNano d dvpConf creds c def) (bootstrapped setupIP masterIP).
Proof.
  intros Hc Hm. unfold ensureDhctlBootstrapped. rw Hm. apply logs_before.
  { apply docker_call_logs; [by vm_compute|]. intros [res err]. apply ret_calm. }
  intros status. apply logs_before.
  { destruct (String.eqb status "running"); [|by apply logs_ret].
    apply docker_call_logs; [by vm_compute|]. intros [res err]. apply ret_calm. }
  intros _. eapply logs_bind; [apply deckhouseAlreadyInstalled_logs|].
  intros [[[|]|e]|] new (Hn & Hf & Ht).
  - apply logs_ret. rw app_nil_r. split; [by apply no_dhctl_probed|]. intros _. right. by apply Ht.
  - eapply logs_bind; [apply runDhctlBootstrap_logs|]. intros r new' Hr. apply logs_ret.
    rw app_nil_r Hc in Hr |- *. split; [apply probed_first_app; [done|left; by apply Hf]|].
    intros E. left. apply Exists_app. right. apply Hr. by destruct r.
  - apply logs_ret. rw app_nil_r. by apply bootstrapped_failed.
  - apply logs_ret. rw app_nil_r. by apply bootstrapped_failed.
Qed.

Lemma dhctlBootstrap_keeps def :
  keeps (dhctlBootstrap NewForConfig ServerVersion fuel marshal_cfg marshal_host execute_template unixNano
    d dvpConf creds def).
Proof.
  unfold dhctlBootstrap. destruct (Setup def) as [setup|]; [|apply ret_keeps].
  case_match; [apply ret_keeps|]. apply (on_vm_keeps _). intros c.
  destruct (firstMasterVMIP (Some def)) as [masterIP|e] eqn:E; last first.
  { unfold ensureDhctlBootstrapped. rw E. apply ret_keeps. }
  intros w. destruct (ensureDhctlBootstrapped _ _ _ _ _ _ _ _ _ _ c def w) as [r w'] eqn:Er. cbn.
  by apply (ensureDhctlBootstrapped_logs (open_conns w) c def _ masterIP eq_refl E) in Er as [-> _].
Qed.

(** C18: [dhctlBootstrap] runs the bootstrap container only after a probe of the first master
    exited with a non-zero code, that is on a master without a kubeconfig. When it succeeds,
    the container was run on the setup node and ended without an error, or the probe found a
    kubeconfig. It leaves no connection open. *)
Theorem dhctlBootstrap_spec def setup masterIP w r w' :
  Setup def = Some setup -> firstMasterVMIP (Some def) = Ok masterIP ->
  dhctlBootstrap NewForConfig ServerVersion fuel marshal_cfg marshal_host execute_template unixNano
    d dvpConf creds def w = (r, w') ->
  open_conns w' = open_conns w /\
  exists new, history w' = history w ++ new /\ probed_first masterIP new /\
    (r = Some (Ok tt) -> Exists (dhctl_ok (IPAddress setup)) new \/ Exists (found_probe masterIP) new).
Proof.
  intros Hs Hm. assert (HL : logs (open_conns w)
    (dhctlBootstrap NewForConfig ServerVersion fuel marshal_cfg marshal_host execute_template unixNano
       d dvpConf creds def) (bootstrapped (IPAddress setup) masterIP)); [|by apply HL].
  unfold dhctlBootstrap. rw Hs. case_match; [apply logs_ret; by apply bootstrapped_failed|].
  apply (logs_on_vm _); [intros e; by apply bootstrapped_failed|]. intros c O' Hc.
  apply ensureDhctlBootstrapped_logs; [by rw Hc|done].
Qed.
End Safety.
