(* ===== verification/DvpProvider.v ===== *)
(** The DVP provider ([src/internal/provisioning/dvp/provider.go], [connect_test_cluster.go],
    [kubeconfig.go], the defaults of [deps.go] and [enableModules] of [modules.go]): the
    bootstrap of a test cluster from the VMs to the modules, its removal, and the connection
    of a test run. *)
From S2P Require Import Prelude Errors Retry Kube Config ModuleLevels Deckhouse Modules Wait Naming.
From S2P Require Import Virt Provision DvpConfig Remote Connect Deps Install Join Bootstrap Dhctl.

Local Open Scope Z_scope.
Local Open Scope go_scope.

Definition vmProvisionPollInterval : Z := 5 * Second.

(** ** The SSH key *)

Section Key.
(** [golang.org/x/crypto/ssh]: parsing a private key, without and with a passphrase, and the
    authorized-key line of its public half. *)
Context {Signer : Type} (ParsePrivateKey : string -> result Signer).
Context (ParsePrivateKeyWithPassphrase : string -> string -> result Signer).
Context (MarshalAuthorizedKey : Signer -> string).

Definition parsePrivateKeySigner (raw passphrase : string) : result Signer :=
  match ParsePrivateKey raw with
  | Ok signer => Ok signer
  | Err e =>
      match errors_As as_passphrase e with
      | None => Err (ErrorfW "parse private key: " e "")
      | Some _ =>
          if String.eqb passphrase ""
          then Err (Errorf "private key is passphrase-protected but no passphrase was provided")
          else match ParsePrivateKeyWithPassphrase raw passphrase with
               | Err e => Err (ErrorfW "decrypt private key with passphrase: " e "")
               | Ok signer => Ok signer
               end
      end
  end.

Definition publicKeyFromPrivateKey (privateKeyPEM passphrase : string) : result string :=
  match parsePrivateKeySigner privateKeyPEM passphrase with
  | Err e => Err e
  | Ok signer =>
      let key := TrimSpace (MarshalAuthorizedKey signer) in
      if String.eqb key "" then Err (Errorf "derived SSH public key is empty") else Ok key
  end.
End Key.

(** ** The defaults of the seams *)

Section Defaults.
Context {W : Type} `{AE : ApiErrors, CX : Ctx W, CF : ClientFactory W}.
Context `{MS : Client W Module_, NS : Client W NamespaceObj}.
Context {RestConfig : Type}.
Context (NewForConfig : RestConfig -> option error) (ServerVersion : RestConfig -> M W (option error)).
Context (fuel : nat).

Definition CheckReachable (kube : RestConfig) : M W (option error) :=
  let! err := NewClientsetWithRetry NewForConfig ServerVersion kube in
  mret match err with
       | Some e => Some (ErrorfW "cluster connectivity check failed: " e "")
       | None => None
       end.

Definition WaitModuleReady (_ : RestConfig) (module_ : string) (timeout : Z)
    : M W (option (option error)) :=
  let! err := WaitForModuleReady fuel module_ timeout in
  mret match err with
       | Some (Some e) => Some (Some (ErrorfW (module_ +:+ " module not ready: ") e ""))
       | r => r
       end.

Definition EnsureNamespace (kube : RestConfig) (namespace : string) : M W (option error) :=
  let! err := CreateNamespaceIfNotExists NewForConfig ServerVersion kube namespace in
  mret match err with
       | Some e => Some (ErrorfW ("ensure namespace " +:+ quote namespace +:+ ": ") e "")
       | None => None
       end.

Definition kubeOps_DeleteNamespace (kube : RestConfig) (namespace : string)
    : M W (option (option error)) :=
  let! err := DeleteNamespace NewForConfig ServerVersion fuel kube namespace in
  mret match err with
       | Some (Some e) => Some (Some (ErrorfW ("delete namespace " +:+ quote namespace +:+ ": ") e ""))
       | r => r
       end.

Context `{IC : Client W ClusterVirtualImage, DC : Client W VirtualDisk}.
Context `{MC : Client W VirtualMachine, CC : Client W VirtualMachineClass}.
Context (sha256hex : string -> string) (ParseQuantity : string -> result Z).
Context (order : forall T, list T -> list T).
Context (dvpConf : DvpConfig.Config).

Definition provisionerConfig (sshPublicKey : string) : ProvisionerConfig :=
  mkProv (Namespace dvpConf) (StorageClass dvpConf) sshPublicKey (VMClassName dvpConf)
    (DefaultVMClassName dvpConf) vmProvisionPollInterval.

(** [vm.NewProvisioner] behind the [vmFleet] interface. *)
Definition provisioner_fleet (sshPublicKey : string) : vmFleet W :=
  let cfg := provisionerConfig sshPublicKey in
  mkFleet
    (fun def w => let '(r, (w', def')) := Provision sha256hex ParseQuantity order cfg fuel (w, def) in
                  ((r, def'), w'))
    (DeleteNode cfg fuel) (Teardown order cfg fuel).

(** [newVirtClient] is [virtualization.NewClient]. *)
Definition defaultFleetFactory_New (newVirtClient : RestConfig -> M W (option error))
    (kube : RestConfig) (sshPublicKey : string) : M W (result (vmFleet W)) :=
  let! err := newVirtClient kube in
  mret match err with
       | Some e => Err (ErrorfW "create virtualization client: " e "")
       | None => Ok (provisioner_fleet sshPublicKey)
       end.

Definition defaultVirtFactory_New (newVirtClient : RestConfig -> M W (option error))
    (kube : RestConfig) : M W (option error) :=
  let! err := newVirtClient kube in
  mret match err with
       | Some e => Some (ErrorfW "create virtualization client: " e "")
       | None => None
       end.

(** The seams [NewDVPProvider] puts together. *)
Definition default_deps `{R : Remote W} {ApiConfig : Type} (clientcmd_Load : string -> result ApiConfig)
    (ClientConfig : ApiConfig -> option string -> result RestConfig)
    (newVirtClient : RestConfig -> M W (option error)) (creds : Credentials) : deps W RestConfig :=
  mkDeps
    (Connect clientcmd_Load ClientConfig NewForConfig ServerVersion dvpConf creds)
    (VMExecutor dvpConf creds)
    (connectToMaster clientcmd_Load ClientConfig dvpConf creds)
    CheckReachable WaitModuleReady EnsureNamespace kubeOps_DeleteNamespace
    (defaultFleetFactory_New newVirtClient) (defaultVirtFactory_New newVirtClient) None.
End Defaults.

(** ** The provider *)

Section Provider.
Context {W : Type} `{AE : ApiErrors, CX : Ctx W, R : Remote W, CF : ClientFactory W}.
Context `{NC : Client W Node, SC : Client W Secret, DC : Client W Deployment, NG : Client W NodeGroup}.
Context `{MCC : Client W ModuleConfigSpec, MPC : Client W ModulePullOverrideSpec, MS : Client W Module_}.
Context `{VMC : Client W VirtualMachine}.
Context {RestConfig : Type}.
Context (NewForConfig : RestConfig -> option error) (ServerVersion : RestConfig -> M W (option error)).
Context (fuel : nat).
Context (marshal_cfg : dhctlSSHConfigManifest -> result string).
Context (marshal_host : dhctlSSHHostManifest -> result string).
Context (execute_template : bootstrapParams -> result string) (unixNano : M W Z).
Context (order : forall T, list T -> list T).
Context (d : deps W RestConfig) (dvpConf : DvpConfig.Config) (creds : Credentials).
(** The outcomes of [config.LoadClusterDefinition] and of [publicKeyFromPrivateKey]. *)
Context (loaded : result ClusterDefinition) (publicKey : result string).

(** *** [enableModules] *)

Definition apply_task (registryRepo : string) (levelIdx : nat) (mc : ModuleConfig)
    : M W (option (option error)) :=
  let! err := apply mc registryRepo in
  mret (Some (task_error levelIdx (TApply mc) <$> err)).
Definition ready_task (levelIdx : nat) (mc : ModuleConfig) : M W (option (option error)) :=
  let! err := WaitForModuleReady fuel (Name mc) ModuleDeployTimeout in
  mret (match err with
        | Some e => Some (task_error levelIdx (TReady mc) <$> e)
        | None => None
        end).

Fixpoint enable_levels (registryRepo : string) (levelIdx : nat) (levels : list (list ModuleConfig))
    : M W (option (option error)) :=
  match levels with
  | [] => mret (Some None)
  | level :: levels' =>
      and_then (errgroup (map (apply_task registryRepo levelIdx) (order _ level))) (
      and_then (errgroup (map (ready_task levelIdx)
                  (order _ (filter (fun mc => Enabled mc = true) level))))
        (enable_levels registryRepo (S levelIdx) levels'))
  end.

Definition enableModules (def : ClusterDefinition) : M W (option (option error)) :=
  match Config.Modules (DKP def) with
  | [] => mret (Some None)
  | modules =>
      match buildModuleLevels modules with
      | Err e => mret (Some (Some (ErrorfW "order modules: " e "")))
      | Ok levels => enable_levels (RegistryRepo (DKP def)) 0 levels
      end
  end.

(** *** [provision] *)

(** [if clusterDef.Setup == nil { clusterDef.Setup = new(config.DefaultSetupVM) }]. *)
Definition with_setup (def : ClusterDefinition) : ClusterDefinition :=
  match Setup def with
  | Some _ => def
  | None => mkDef (Masters def) (Workers def) (Some DefaultSetupVM) (DKP def)
  end.

Definition provision_vms (fleet : vmFleet W) (def : ClusterDefinition) : act W ClusterDefinition :=
  let! '(r, def') := fleet_Provision fleet def in
  mret match r with
       | None => None
       | Some (Some e) => Some (Err (ErrorfW "provision virtual machines: " e ""))
       | Some None => Some (Ok def')
       end.

Definition wait_setup_node (def : ClusterDefinition) : M W (option (option error)) :=
  let setupIP := match Setup def with Some n => IPAddress n | None => "" end in
  on_vm (connector_VMExecutor d) setupIP
    (fun e => Some (Some (ErrorfW "setup node ssh not ready: " e "")))
    (fun exec =>
       let! err := waitDockerReady fuel exec dockerReadyPoll dockerReadyTimeout in
       mret match err with
            | Some (Some e) => Some (Some (ErrorfW "setup node docker not ready: " e ""))
            | r => r
            end).

(** Once the base cluster is connected. *)
Definition provision_on (kube : RestConfig) (sshPublicKey : string) (clusterDef : ClusterDefinition)
    : act W (ClusterDefinition * vmFleet W) :=
  try! _ := check_err (kube_CheckReachable d kube) in
  try! _ := wait_err (kube_WaitModuleReady d kube "virtualization" ModuleCheckTimeout) in
  try! _ := check_err (kube_EnsureNamespace d kube (Namespace dvpConf)) in
  try! fleet := call (fleet_New d kube sshPublicKey) in
  try! clusterDef := provision_vms fleet (with_setup clusterDef) in
  try! _ := wait_err (wait_setup_node clusterDef) in
  give (clusterDef, fleet).

(** The cleanups are returned along with the outcome. *)
Definition provision (cleanups : list (M W unit))
    : M W (option (result (ClusterDefinition * vmFleet W)) * list (M W unit)) :=
  match loaded with
  | Err e => mret (Some (Err (ErrorfW "load cluster bootstrap config: " e "")), cleanups)
  | Ok clusterDef =>
      match publicKey with
      | Err e => mret (Some (Err (ErrorfW "derive ssh public key: " e "")), cleanups)
      | Ok sshPublicKey =>
          let! conn := connector_Connect d in
          match conn with
          | Err e => mret (Some (Err e), cleanups)
          | Ok (kube, baseCleanup) =>
              let! r := provision_on kube sshPublicKey clusterDef in
              mret (r, cleanups ++ [baseCleanup])
          end
      end
  end.

(** *** [installDeckhouse] *)

(** Failures are logged and swallowed. *)
Definition deleteSetupNode (fleet : vmFleet W) (def : ClusterDefinition) : act W unit :=
  match Setup def with
  | None => give tt
  | Some setup =>
      let! err := fleet_DeleteNode fleet (Hostname setup) in
      mret (match err with None => None | Some _ => Some (Ok tt) end)
  end.

(** Once the first master is connected. *)
Definition install_on (target : RestConfig) (def : ClusterDefinition) : act W unit :=
  try! _ := wrapped "create worker nodegroup: " (check_err (CreateStaticNodeGroup workerNodeGroupName)) in
  try! _ := wrapped "wait bootstrap secrets: "
    (wait_err (waitBootstrapSecrets NewForConfig ServerVersion fuel target SecretsWaitTimeout)) in
  try! _ := wrapped "cluster health check: "
    (wait_err (waitClusterHealthy NewForConfig ServerVersion fuel target ClusterHealthTimeout)) in
  try! _ := wrapped "join nodes: "
    (check_err (joinNodes (connector_VMExecutor d) order NewForConfig ServerVersion target def)) in
  try! _ := wrapped "wait nodes ready: "
    (wait_err (waitNodesReady NewForConfig ServerVersion fuel target def NodesReadyTimeout)) in
  wrapped "enable modules: " (wait_err (enableModules def)).

Definition installDeckhouse (fleet : vmFleet W) (def : ClusterDefinition) (cleanups : list (M W unit))
    : M W (option (result unit) * list (M W unit)) :=
  match firstMasterVMIP (Some def) with
  | Err e => mret (Some (Err (ErrorfW "install: " e "")), cleanups)
  | Ok firstMasterIP =>
      let! ready :=
        (try! _ := wrapped "dhctl bootstrap: " (dhctlBootstrap NewForConfig ServerVersion fuel
            marshal_cfg marshal_host execute_template unixNano d dvpConf creds def) in
         deleteSetupNode fleet def) in
      match ready with
      | Some (Ok _) =>
          let! conn := masterConn_connectToMaster d firstMasterIP in
          match conn with
          | Err e => mret (Some (Err (ErrorfW ("connect to master " +:+ firstMasterIP +:+ ": ") e "")),
                           cleanups)
          | Ok (target, masterCleanup) =>
              let! r := install_on target def in
              mret (r, cleanups ++ [masterCleanup])
          end
      | r => mret (r, cleanups)
      end
  end.

(** *** The operations *)

Definition Bootstrap : act W unit :=
  match ValidateForBootstrap dvpConf with
  | Some e => fail (ErrorfW "bootstrap config validation: " e "")
  | None =>
      let! '(r, cleanups) := provision [] in
      let! '(r, cleanups) :=
        match r with
        | Some (Ok (clusterDef, fleet)) => installDeckhouse fleet clusterDef cleanups
        | Some (Err e) => mret (Some (Err e), cleanups)
        | None => mret (None, cleanups)
        end in
      let! _ := runCleanups cleanups in
      mret r
  end.

Definition Remove : act W unit :=
  let! conn := connector_Connect d in
  match conn with
  | Err e => fail e
  | Ok (kube, cleanup) =>
      let! r :=
        (try! fleet := call (fleet_New d kube "") in
         try! _ := wrapped "teardown virtual machines: " (wait_err (fleet_Teardown fleet)) in
         wait_err (kube_DeleteNamespace d kube (Namespace dvpConf))) in
      let! _ := cleanup in
      mret r
  end.

(** The connection of a test run: the API of the cluster and its cleanup. Node commands and
    disks go through [dvpNodeExecutor_Exec] and the disk manager. *)
Definition ConnectTestCluster : M W (result (RestConfig * M W unit)) :=
  match loaded with
  | Err e => mret (Err (ErrorfW "load cluster bootstrap config: " e ""))
  | Ok clusterDef =>
      match Masters clusterDef with
      | [] => mret (Err (Errorf "cluster definition declares no master nodes"))
      | firstMaster :: _ =>
          let! base := connector_Connect d in
          match base with
          | Err e => mret (Err (ErrorfW "connect to DVP base cluster: " e ""))
          | Ok (baseKube, baseCleanup) =>
              let! err := virt_New d baseKube in
              match err with
              | Some e => let! _ := runCleanups [baseCleanup] in
                          mret (Err (ErrorfW "create virtualization client: " e ""))
              | None =>
                  let! masterIP := vmIPResolver_Resolve dvpConf (Hostname firstMaster) in
                  match masterIP with
                  | Err e => let! _ := runCleanups [baseCleanup] in
                             mret (Err (ErrorfW "resolve first master VM: " e ""))
                  | Ok masterIP =>
                      let! conn := masterConn_connectToMaster d masterIP in
                      match conn with
                      | Err e => let! _ := runCleanups [baseCleanup] in
                                 mret (Err (ErrorfW ("connect to master " +:+ masterIP +:+ ": ") e ""))
                      | Ok (target, masterCleanup) =>
                          mret (Ok (target, runCleanups [baseCleanup; masterCleanup]))
                      end
                  end
              end
          end
      end
  end.
End Provider.

(** ** What stays open *)

Class CalmFactory (W : Type) `{Remote W, ClientFactory W} : Prop := {
  v1alpha1_calm : calm addV1alpha1;
  v1alpha2_calm : calm addV1alpha2;
  clientNew_calm : calm clientNew
}.

Section Target.
Context {W : Type} `{AE : ApiErrors, CX : Ctx W, R : Remote W, CC : !CalmCtx W}.
Context `{CF : ClientFactory W, CCF : !CalmFactory W}.

Lemma with_client_calm {A} (fail : error -> A) (k : M W A) : calm k -> calm (with_client fail k).
Proof.
  intros Hk. apply bind_calm; [|intros [u [e|]]; [apply ret_calm|done]].
  apply do_loop_calm. apply bind_calm; [apply v1alpha1_calm|].
  intros [e|]; [apply ret_calm|]. apply bind_calm; [apply v1alpha2_calm|].
  intros [e|]; [apply ret_calm|]. apply bind_calm; [apply clientNew_calm|].
  intros [e|]; apply ret_calm.
Qed.

Lemma get_with_client_calm {T} `{OC : Client W T, CO : !CalmClient W T} {A} (fail : error -> A) k f :
  calm (with_client fail (let! r := clientGet (O := T) k in mret (f r))).
Proof. apply with_client_calm. auto with calm. Qed.

Lemma CreateStaticNodeGroup_calm `{NG : Client W NodeGroup, CNG : !CalmClient W NodeGroup} name :
  calm (CreateStaticNodeGroup name).
Proof.
  apply DoVoid_calm, bind_calm; [apply get_with_client_calm|]. intros [o|e]; [apply ret_calm|].
  destruct (IsNotFound (Some e)); [|apply ret_calm]. apply bind_calm; [|auto with calm].
  apply with_client_calm. auto with calm.
Qed.

Context `{MCC : Client W ModuleConfigSpec, CMC : !CalmClient W ModuleConfigSpec}.
Context `{MPC : Client W ModulePullOverrideSpec, CMP : !CalmClient W ModulePullOverrideSpec}.
Context `{MS : Client W Module_, CMS : !CalmClient W Module_}.
Context (fuel : nat) (order : forall T, list T -> list T).

Lemma apply_calm mc repo : calm (apply mc repo).
Proof.
  apply bind_calm.
  - apply DoVoid_calm, bind_calm; [apply get_with_client_calm|]. intros [o|e].
    + apply with_client_calm. apply bind_calm; [apply get_calm|]. intros [o'|e]; auto with calm.
    + destruct (IsNotFound (Some e)); [|apply ret_calm]. apply with_client_calm. auto with calm.
  - intros err. destruct (negb (is_nil err)); [apply ret_calm|]. unfold upsertModulePullOverride.
    destruct (overrideTag mc repo); [|apply ret_calm].
    apply DoVoid_calm, bind_calm; [apply get_with_client_calm|]. intros [o|e].
    + apply with_client_calm. apply bind_calm; [apply get_calm|]. intros [o'|e]; auto with calm.
    + destruct (IsNotFound (Some e)); [|apply ret_calm]. apply with_client_calm. auto with calm.
Qed.

Lemma WaitForModuleReady_calm name timeout : calm (WaitForModuleReady fuel name timeout).
Proof.
  apply poll_calm. intros st. apply bind_calm; [apply get_with_client_calm|].
  intros [m|e]; apply ret_calm.
Qed.

Lemma and_then_calm (m k : M W (option (option error))) : calm m -> calm k -> calm (and_then m k).
Proof. intros Hm Hk. apply bind_calm; [done|]. intros [[e|]|]; [apply ret_calm|done|apply ret_calm]. Qed.

Lemma enableModules_calm def : calm (enableModules fuel order def).
Proof.
  unfold enableModules. destruct (Config.Modules (DKP def)) as [|m ms]; [apply ret_calm|].
  destruct (buildModuleLevels (m :: ms)) as [levels|e]; [|apply ret_calm].
  generalize 0%nat. induction levels as [|level levels IH]; intros i; cbn [enable_levels];
    [apply ret_calm|].
  apply and_then_calm; [|apply and_then_calm; [|apply IH]]; apply errgroup_calm.
  - intros t (mc & -> & _)%list_elem_of_fmap. apply bind_calm; [apply apply_calm|auto with calm].
  - intros t (mc & -> & _)%list_elem_of_fmap. apply bind_calm; [apply WaitForModuleReady_calm|auto with calm].
Qed.
End Target.

Section Stack.
Context {W : Type} `{R : Remote W}.

(** Pushing the cleanup of what was opened last. *)
Lemma releases_push cls c (w w1 w2 : W) :
  releases (runCleanups cls) w w1 -> releases c w1 w2 -> releases (runCleanups (cls ++ [c])) w w2.
Proof.
  intros H1 H2 w3 E. unfold runCleanups. rw rev_app_distr. cbn [rev app]. rw run_list_bind.
  destruct (H2 _ E) as [E2 Hh2]. destruct (H1 _ E2) as [E1 Hh1]. by rw E1 Hh1 Hh2.
Qed.

Lemma keeps_step {A} (m : M W A) w a w' : keeps m -> m w = (a, w') -> open_conns w' = open_conns w.
Proof. intros H E. specialize (H w). by rw E in H. Qed.

(** The cases of a step that keeps the connections and what follows it. *)
Lemma act_bind_inv {A B} (m : act W A) (k : A -> act W B) w r w' :
  act_bind m k w = (r, w') -> keeps m ->
  exists x w1, m w = (x, w1) /\ open_conns w1 = open_conns w /\
    match x with
    | Some (Ok a) => k a w1 = (r, w')
    | Some (Err e) => r = Some (Err e) /\ w' = w1
    | None => r = None /\ w' = w1
    end.
Proof.
  intros E Hm. unfold act_bind in E. mstep E as [x w1] E1. exists x, w1. split; [done|].
  split; [by eapply keeps_step|]. destruct x as [[a|e]|]; [done|by injection E as <- <-..].
Qed.
End Stack.

Section Open.
Context {W : Type} `{AE : ApiErrors, CX : Ctx W, R : Remote W, RL : !RemoteLaws W, CC : !CalmCtx W}.
Context `{CF : ClientFactory W, CCF : !CalmFactory W}.
Context `{NC : Client W Node, CN : !CalmClient W Node, SC : Client W Secret, CS : !CalmClient W Secret}.
Context `{DC : Client W Deployment, CD : !CalmClient W Deployment}.
Context `{NG : Client W NodeGroup, CNG : !CalmClient W NodeGroup}.
Context `{MCC : Client W ModuleConfigSpec, CMC : !CalmClient W ModuleConfigSpec}.
Context `{MPC : Client W ModulePullOverrideSpec, CMP : !CalmClient W ModulePullOverrideSpec}.
Context `{MS : Client W Module_, CMS : !CalmClient W Module_}.
Context `{VMC : Client W VirtualMachine, CVM : !CalmClient W VirtualMachine}.
Context {RestConfig : Type}.
Context (NewForConfig : RestConfig -> option error) (ServerVersion : RestConfig -> M W (option error)).
Context (ServerVersion_calm : forall cfg, calm (ServerVersion cfg)).
Context (fuel : nat).
Context (marshal_cfg : dhctlSSHConfigManifest -> result string).
Context (marshal_host : dhctlSSHHostManifest -> result string).
Context (execute_template : bootstrapParams -> result string) (unixNano : M W Z).
Context (unixNano_calm : calm unixNano) (order : forall T, list T -> list T).
Context (d : deps W RestConfig) {DL : DepsLaws d} (dvpConf : DvpConfig.Config) (creds : Credentials).
Context (loaded : result ClusterDefinition) (publicKey : result string).

Lemma joinNode_keeps node script : keeps (joinNode (connector_VMExecutor d) node script).
Proof.
  unfold joinNode. case_match; [apply ret_keeps|]. apply (on_vm_keeps _). intros c. apply join_loop_keeps.
Qed.

Lemma joinNodes_keeps target def :
  keeps (joinNodes (connector_VMExecutor d) order NewForConfig ServerVersion target def).
Proof.
  apply bind_keeps; [apply calm_keeps, CreateStaticNodeGroup_calm|]. intros [e|]; [apply ret_keeps|].
  apply bind_keeps; [by apply calm_keeps, NewClientsetWithRetry_calm|]. intros [e|]; [apply ret_keeps|].
  assert (Hp : forall ms ws, keeps (join_pending (connector_VMExecutor d) order ms ws)).
  { intros ms ws. apply bind_keeps; [apply calm_keeps; unfold registeredNodeNames; auto with calm|].
    intros [reg|e]; [|apply ret_keeps]. apply bind_keeps; [apply calm_keeps, joins_of_calm|].
    intros [wj|e]; [|apply ret_keeps]. apply bind_keeps; [apply calm_keeps, joins_of_calm|].
    intros [mj|e]; [|apply ret_keeps]. apply bind_keeps; [|auto with calm]. apply errgroup_keeps.
    intros t (j & -> & _)%list_elem_of_fmap. apply bind_keeps; [apply joinNode_keeps|auto with calm]. }
  unfold joinNodesWithClient. destruct (tail (Masters def)), (Workers def); [apply ret_keeps|apply Hp..].
Qed.

Lemma install_on_keeps target def :
  keeps (install_on NewForConfig ServerVersion fuel order d target def).
Proof.
  apply act_bind_keeps; [|intros _; apply act_bind_keeps;
    [|intros _; apply act_bind_keeps; [|intros _; apply act_bind_keeps;
    [|intros _; apply act_bind_keeps; [|intros _]]]]]; apply wrapped_keeps.
  - apply calm_keeps, check_err_calm, CreateStaticNodeGroup_calm.
  - by apply calm_keeps, wait_err_calm, waitBootstrapSecrets_calm.
  - by apply calm_keeps, wait_err_calm, waitClusterHealthy_calm.
  - apply bind_keeps; [apply joinNodes_keeps|auto with calm].
  - by apply calm_keeps, wait_err_calm, waitNodesReady_calm.
  - apply wait_err_keeps, calm_keeps, enableModules_calm.
Qed.

Lemma waitDockerReady_keeps c poll_ timeout : keeps (waitDockerReady fuel c poll_ timeout).
Proof.
  intros w. destruct (waitDockerReady fuel c poll_ timeout w) as [r w'] eqn:E. cbn.
  refine (poll_preserves _ _ (fun w' => open_conns w' = open_conns w) _ _ _ _ _ _ _ _ _ _ E);
    [| | |done].
  - intros s1 w1 x w2 <- E1. mstep E1 as [[res err] w3] E3. injection E1 as _ <-.
    by apply exec_runs in E3 as [-> _].
  - intros w1 e w2 <- E1. by apply (keeps_step _ _ _ _ (calm_keeps _ ctx_calm)) in E1.
  - intros z w1 b w2 <- E1. by apply (keeps_step _ _ _ _ (calm_keeps _ (timer_calm z))) in E1.
Qed.

Lemma wait_setup_node_keeps def : keeps (wait_setup_node fuel d def).
Proof.
  apply (on_vm_keeps _). intros c. apply bind_keeps; [apply waitDockerReady_keeps|auto with calm].
Qed.

Lemma provision_on_keeps kube key def w r w' :
  provision_on fuel d dvpConf kube key def w = (r, w') ->
  open_conns w' = open_conns w /\ (forall def' f, r = Some (Ok (def', f)) -> fleet_calm f).
Proof.
  intros H. unfold provision_on in H.
  apply act_bind_inv in H as (x1 & w1 & _ & Ho1 & H); [|apply calm_keeps, check_err_calm, reachable_calm].
  destruct x1 as [[[]|e]|]; [|destruct H as [-> ->]; by split..].
  apply act_bind_inv in H as (x2 & w2 & _ & Ho2 & H); [|apply calm_keeps, wait_err_calm, module_ready_calm].
  destruct x2 as [[[]|e]|]; [|destruct H as [-> ->]; split; [congruence|done]..].
  apply act_bind_inv in H as (x3 & w3 & _ & Ho3 & H); [|apply calm_keeps, check_err_calm, ensure_ns_calm].
  destruct x3 as [[[]|e]|]; [|destruct H as [-> ->]; split; [congruence|done]..].
  apply act_bind_inv in H as (x4 & w4 & E4 & Ho4 & H); [|apply calm_keeps, call_calm, fleet_new_calm].
  destruct x4 as [[fleet|e]|]; [|destruct H as [-> ->]; split; [congruence|done]..].
  assert (Hf : fleet_calm fleet).
  { unfold call in E4. mstep E4 as [f v] Ef. injection E4 as -> ->. by eapply fleet_made_calm. }
  apply act_bind_inv in H as (x5 & w5 & _ & Ho5 & H); last first.
  { apply calm_keeps. apply bind_calm; [apply Hf|]. intros [r0 def0]. apply ret_calm. }
  destruct x5 as [[def'|e]|]; [|destruct H as [-> ->]; split; [congruence|done]..].
  apply act_bind_inv in H as (x6 & w6 & _ & Ho6 & H); [|apply wait_err_keeps, wait_setup_node_keeps].
  destruct x6 as [[[]|e]|]; [|destruct H as [-> ->]; split; [congruence|done]..].
  injection H as <- <-. split; [congruence|]. by intros ? ? [= _ <-].
Qed.

Lemma provision_releases w r cls w' :
  provision fuel d dvpConf loaded publicKey [] w = ((r, cls), w') ->
  releases (runCleanups cls) w w' /\ (forall def f, r = Some (Ok (def, f)) -> fleet_calm f).
Proof.
  intros H. unfold provision in H. assert (Hnil : forall v v' : W, open_conns v' = open_conns v ->
    releases (runCleanups []) v v') by (intros; by apply releases_nothing).
  destruct loaded as [def|e]; [|injection H as <- <- <-; split; [by apply Hnil|done]].
  destruct publicKey as [key|e]; [|injection H as <- <- <-; split; [by apply Hnil|done]].
  mstep H as [conn w1] E1. destruct (connect_acquires _ _ _ E1) as [_ Hc].
  destruct conn as [[kube base]|e]; [|injection H as <- <- <-; split; [by apply Hnil|done]].
  mstep H as [r2 w2] E2. apply provision_on_keeps in E2 as [Ho2 Hf]. injection H as <- <- <-.
  split; [|done]. apply (releases_push []) with w; [by apply Hnil|]. by eapply releases_frame.
Qed.

Lemma installDeckhouse_releases fleet def cls w0 w r cls' w' :
  fleet_calm fleet -> releases (runCleanups cls) w0 w ->
  installDeckhouse NewForConfig ServerVersion fuel marshal_cfg marshal_host execute_template unixNano
    order d dvpConf creds fleet def cls w = ((r, cls'), w') ->
  releases (runCleanups cls') w0 w'.
Proof.
  intros Hf Hr H. unfold installDeckhouse in H.
  destruct (firstMasterVMIP (Some def)) as [ip|e]; [|by injection H as _ <- <-].
  mstep H as [ready w1] E1. apply keeps_step in E1; last first.
  { apply act_bind_keeps; [apply wrapped_keeps, dhctlBootstrap_keeps; done|]. intros [].
    unfold deleteSetupNode. destruct (Setup def); [|apply ret_keeps].
    apply bind_keeps; [apply calm_keeps, Hf|auto with calm]. }
  assert (Hr1 : releases (runCleanups cls) w0 w1) by by eapply releases_frame.
  destruct ready as [[u|e]|]; [|by injection H as _ <- <-..].
  mstep H as [conn w2] E2. destruct (master_acquires ip _ _ _ E2) as [_ Hc].
  destruct conn as [[target cl]|e].
  - mstep H as [r3 w3] E3. apply keeps_step in E3; [|apply install_on_keeps].
    injection H as _ <- <-. eapply releases_push; [exact Hr1|]. by eapply releases_frame.
  - injection H as _ <- <-. by eapply releases_frame.
Qed.

(** C17: However [Bootstrap] and [Remove] end, and wherever they fail, every SSH client and
    tunnel they opened is closed when they return: the connections that are open are those
    that were open before. *)
Theorem Bootstrap_Remove_release :
  keeps (Bootstrap NewForConfig ServerVersion fuel marshal_cfg marshal_host execute_template unixNano
           order d dvpConf creds loaded publicKey) /\
  keeps (Remove d dvpConf).
Proof.
  split; intros w.
  - destruct (Bootstrap _ _ _ _ _ _ _ _ _ _ _ _ _ w) as [r w'] eqn:H. cbn. unfold Bootstrap in H.
    destruct (ValidateForBootstrap dvpConf); [by injection H as _ <-|].
    mstep H as [[r1 cls] w1] E1. apply provision_releases in E1 as [Hr1 Hf].
    mstep H as [[r2 cls2] w2] E2. mstep H as [u w3] E3. injection H as _ <-.
    assert (Hr2 : releases (runCleanups cls2) w w2).
    { destruct r1 as [[[def fleet]|e]|]; [|by injection E2 as _ <- <-..].
      eapply installDeckhouse_releases; [by eapply Hf| |exact E2]. done. }
    destruct (Hr2 w2 eq_refl) as [Ho _]. by rw E3 in Ho.
  - destruct (Remove d dvpConf w) as [r w'] eqn:H. cbn. unfold Remove in H.
    mstep H as [conn w1] E1. destruct (connect_acquires _ _ _ E1) as [_ Hc].
    destruct conn as [[kube cl]|e]; [|by injection H as _ <-].
    mstep H as [r2 w2] E2. mstep H as [u w3] E3. injection H as _ <-.
    assert (Ho : open_conns w2 = open_conns w1).
    { apply act_bind_inv in E2 as (x & w4 & E4 & Ho4 & E2); [|apply calm_keeps, call_calm, fleet_new_calm].
      destruct x as [[fleet|e]|]; [|by destruct E2 as [_ ->]..].
      assert (Hf : fleet_calm fleet).
      { unfold call in E4. mstep E4 as [f v] Ef. injection E4 as -> ->. by eapply fleet_made_calm. }
      rw -Ho4. eapply keeps_step; [|exact E2]. apply act_bind_keeps.
      - apply wrapped_keeps, wait_err_keeps, calm_keeps, Hf.
      - intros []. apply wait_err_keeps, calm_keeps, delete_ns_calm. }
    destruct (Hc w2 Ho) as [Ho3 _]. by rw E3 in Ho3.
Qed.

(** [ConnectTestCluster] hands out what it opens together with its cleanup. *)
Lemma connect_test_cluster_opens :
  acquires (fun e => run_cmd e = getKubeconfigRemoteShell) (ConnectTestCluster d dvpConf loaded).
Proof.
  intros w r w' H. unfold ConnectTestCluster in H.
  assert (Hno : forall v v' : W, history v' = history v -> exists new, history v' = history v ++ new /\
    Forall (fun e => run_cmd e = getKubeconfigRemoteShell) new) by (intros; by apply no_history).
  destruct loaded as [def|e]; [|injection H as <- <-; by split; [apply Hno|]].
  destruct (Masters def) as [|m ms]; [injection H as <- <-; by split; [apply Hno|]|].
  mstep H as [base w1] E1. destruct (connect_acquires _ _ _ E1) as [(n1 & Hh1 & Hn1) Hc].
  assert (Hh : history w1 = history w).
  { destruct n1 as [|x n1]; [by rw Hh1 app_nil_r|]. by apply Forall_cons in Hn1 as [[] _]. }
  clear n1 Hh1 Hn1. destruct base as [[kube cl]|e]; [|injection H as <- <-; by split; [apply Hno|]].
  assert (Hclose : forall v, open_conns v = open_conns w1 ->
    open_conns (runCleanups [cl] v).2 = open_conns w /\ history (runCleanups [cl] v).2 = history v).
  { intros v Hv. unfold runCleanups. cbn [rev app]. rw run_list_bind. by apply Hc. }
  mstep H as [err w2] E2. apply (calm_step _ _ _ _ (virt_calm _)) in E2 as [Ho2 Hh2].
  destruct err as [e|].
  { mstep H as [u w3] E3. injection H as <- <-. destruct (Hclose w2 Ho2) as [Ho3 Hh3].
    rw E3 in Ho3 Hh3. split; [apply Hno; cbn in Hh3; congruence|done]. }
  mstep H as [ip w3] E3. apply (calm_step _ _ _ _ (vmIPResolver_calm _ _)) in E3 as [Ho3 Hh3].
  destruct ip as [ip|e]; last first.
  { mstep H as [u w4] E4. injection H as <- <-. destruct (Hclose w3) as [Ho4 Hh4]; [congruence|].
    rw E4 in Ho4 Hh4. split; [apply Hno; cbn in Hh4; congruence|done]. }
  mstep H as [conn w4] E4. destruct (master_acquires ip _ _ _ E4) as [(new & Hh4 & Hn) Hm].
  assert (Hnew : exists new, history w4 = history w ++ new /\
    Forall (fun e => run_cmd e = getKubeconfigRemoteShell) new).
  { exists new. split; [congruence|]. eapply Forall_impl; [exact Hn|]. by intros e [_ He]. }
  destruct conn as [[target mcl]|e].
  - injection H as <- <-. split; [done|]. eapply releases_stack; [exact Hc|].
    eapply releases_frame; [exact Hm|congruence|done].
  - mstep H as [u w5] E5. injection H as <- <-. destruct (Hclose w4) as [Ho5 Hh5]; [congruence|].
    rw E5 in Ho5 Hh5. cbn [snd] in Ho5, Hh5. split; [by rw Hh5|done].
Qed.

(** When [ConnectTestCluster] fails, nothing it opened stays open. When it succeeds, its
    cleanup closes all the connections it opened, from any later state that has the same ones
    open. The only command it runs reads the kubeconfig of the master. *)
Theorem ConnectTestCluster_acquires :
  acquires (fun e => run_cmd e = getKubeconfigRemoteShell) (ConnectTestCluster d dvpConf loaded).
Proof. apply connect_test_cluster_opens. Qed.
End Open.

(** ** The seams of [NewDVPProvider] are lawful *)

(** A world that carries the cluster definition along. *)
Definition fst_remote (W D : Type) `{R : Remote W} : Remote (W * D) := {|
  open_conns := fun w => open_conns w.1;
  history := fun w => history w.1;
  sshNew := fun hops => on_fst (sshNew hops);
  sshNewWithRetry := fun hops => on_fst (sshNewWithRetry hops);
  sshExec := fun c cmd => on_fst (sshExec c cmd);
  sshOpenTunnel := fun c port => on_fst (sshOpenTunnel c port);
  connClose := fun c => on_fst (connClose c)
|}.

Lemma lift_calm {W D A} `{R : Remote W} (m : M W A) : calm m -> calm (R := fst_remote W D) (on_fst m).
Proof. intros Hm w. cbn. unfold on_fst. specialize (Hm w.1). by destruct (m w.1). Qed.

Section Fleet.
Context {W : Type} `{AE : ApiErrors, CX : Ctx W, R : Remote W, CXC : !CalmCtx W}.
Context `{IC : Client W ClusterVirtualImage, CI : !CalmClient W ClusterVirtualImage}.
Context `{DC : Client W VirtualDisk, CD : !CalmClient W VirtualDisk}.
Context `{MC : Client W VirtualMachine, CM : !CalmClient W VirtualMachine}.
Context `{CC : Client W VirtualMachineClass, CCL : !CalmClient W VirtualMachineClass}.
Context (sha256hex : string -> string) (ParseQuantity : string -> result Z).
Context (order : forall T, list T -> list T).
Context (fuel : nat).

Lemma waitForCondition_calm {T} (get : M W (result T)) cond n interval :
  calm get -> (forall r, calm (cond r)) -> calm (waitForCondition get cond n interval).
Proof.
  intros Hg Hc. apply poll_calm. intros s. unfold wait_check. apply bind_calm; [done|].
  intros got. apply bind_calm; [done|]. intros [ok err]. auto with calm.
Qed.

Lemma wait_with_calm {T} cfg pre (get : M W (result T)) cond :
  calm get -> (forall r, calm (cond r)) -> calm (wait_with cfg fuel pre get cond).
Proof. intros Hg Hc. apply bind_calm; [by apply waitForCondition_calm|auto with calm]. Qed.

Lemma createIfAbsent_calm {T} `{OC : Client W T, CO : !CalmClient W T} what name (o : T) :
  calm (createIfAbsent what name o).
Proof.
  apply bind_calm; [apply get_calm|]. intros [x|e]; [apply ret_calm|].
  destruct (negb (IsNotFound (Some e))); auto with calm.
Qed.

Lemma delete_object_calm {T} `{OC : Client W T, CO : !CalmClient W T} cfg kind name :
  calm (delete_object cfg fuel T kind name).
Proof.
  apply bind_calm; [apply delete_calm|]. intros err. case_match; [apply ret_calm|].
  apply wait_with_calm; [apply get_calm|]. intros r. apply ret_calm.
Qed.

Lemma teardown_kind_calm {T} `{OC : Client W T, CO : !CalmClient W T} cfg labels kind :
  calm (teardown_kind order cfg fuel T labels kind).
Proof.
  apply bind_calm; [apply list_calm|]. intros [items|e]; [|apply ret_calm]. apply errgroup_calm.
  intros t (p & -> & _)%list_elem_of_fmap. apply delete_object_calm.
Qed.

Lemma provisionVMClass_calm cfg : calm (provisionVMClass cfg fuel).
Proof.
  assert (Hw : forall name, calm (waitVMClassReady cfg fuel name)).
  { intros name. apply wait_with_calm; [apply get_calm|]. intros r. apply ret_calm. }
  apply bind_calm; [apply get_calm|]. intros [x|e]; [apply Hw|].
  case_match; [apply ret_calm|]. case_match; [apply ret_calm|].
  apply bind_calm; [apply get_calm|]. intros [x|e']; [|apply ret_calm].
  apply bind_calm; [apply createIfAbsent_calm|]. intros [e'|]; [apply ret_calm|apply Hw].
Qed.

Lemma image_task_calm cfg image : calm (image_task cfg fuel image).
Proof.
  destruct image as [name url]. apply bind_calm; [apply createIfAbsent_calm|].
  intros [e|]; [apply ret_calm|]. apply wait_with_calm; [apply get_calm|]. intros r. apply ret_calm.
Qed.

Lemma disk_and_vm_task_calm cfg pl : calm (disk_and_vm_task ParseQuantity cfg pl).
Proof.
  apply bind_calm; [|auto with calm]. unfold createDiskAndVM.
  case_match; [|apply ret_calm]. apply bind_calm; [apply createIfAbsent_calm|].
  intros [e|]; [apply ret_calm|]. case_match; [apply createIfAbsent_calm|apply ret_calm].
Qed.

Lemma running_task_calm cfg pl :
  calm (R := fst_remote W ClusterDefinition) (running_task cfg fuel pl).
Proof.
  apply (bind_calm (R := fst_remote W ClusterDefinition)).
  - apply lift_calm, waitForCondition_calm; [apply get_calm|]. intros r. unfold running_cond. auto with calm.
  - intros [[[e|] got]|]; [by intros w| |by intros w].
    apply (bind_calm (R := fst_remote W ClusterDefinition)); by intros.
Qed.

Lemma Provision_calm cfg def w r w' def' :
  Provision sha256hex ParseQuantity order cfg fuel (w, def) = (r, (w', def')) ->
  open_conns w' = open_conns w /\ history w' = history w.
Proof.
  intros H. unfold Provision in H. case_match; [by injection H as _ <- _|].
  match type of H with ?m _ = _ => assert (Hm : calm (R := fst_remote W ClusterDefinition) m) end.
  { apply (and_then_calm (R := fst_remote W ClusterDefinition));
      [apply lift_calm, provisionVMClass_calm|].
    apply (and_then_calm (R := fst_remote W ClusterDefinition));
      [apply lift_calm, errgroup_calm; intros t (x & -> & _)%list_elem_of_fmap; apply image_task_calm|].
    apply (and_then_calm (R := fst_remote W ClusterDefinition));
      [apply lift_calm, errgroup_calm; intros t (x & -> & _)%list_elem_of_fmap; apply disk_and_vm_task_calm|].
    apply (errgroup_calm (R := fst_remote W ClusterDefinition)).
    intros t (x & -> & _)%list_elem_of_fmap. apply running_task_calm. }
  specialize (Hm (w, def)). by rw H in Hm.
Qed.

Lemma provisioner_fleet_calm dvpConf key :
  fleet_calm (provisioner_fleet fuel sha256hex ParseQuantity order dvpConf key).
Proof.
  split_and!; cbn.
  - intros def w. destruct (Provision _ _ _ _ _ (w, def)) as [r [w' def']] eqn:E. cbn.
    by apply Provision_calm in E.
  - intros h. apply and_then_calm; apply delete_object_calm.
  - apply and_then_calm; apply teardown_kind_calm.
Qed.
End Fleet.

#[export] Instance default_deps_laws {W : Type} `{AE : ApiErrors, CX : Ctx W, R : Remote W,
    RL : !RemoteLaws W, CXC : !CalmCtx W, CF : ClientFactory W, CCF : !CalmFactory W}
    `{MS : Client W Module_, CMS : !CalmClient W Module_}
    `{NS : Client W NamespaceObj, CNS : !CalmClient W NamespaceObj}
    `{IC : Client W ClusterVirtualImage, CI : !CalmClient W ClusterVirtualImage}
    `{DC : Client W VirtualDisk, CD : !CalmClient W VirtualDisk}
    `{MC : Client W VirtualMachine, CM : !CalmClient W VirtualMachine}
    `{CC : Client W VirtualMachineClass, CCL : !CalmClient W VirtualMachineClass}
    {RestConfig ApiConfig : Type} NewForConfig ServerVersion fuel sha256hex ParseQuantity order dvpConf
    (clientcmd_Load : string -> result ApiConfig) (ClientConfig : ApiConfig -> option string -> result RestConfig)
    newVirtClient creds :
  (forall cfg, calm (ServerVersion cfg)) -> (forall cfg, calm (newVirtClient cfg)) ->
  DepsLaws (default_deps NewForConfig ServerVersion fuel sha256hex ParseQuantity order dvpConf
              clientcmd_Load ClientConfig newVirtClient creds).
Proof.
  intros Hv Hn. split; cbn.
  - apply _.
  - by apply Connect_acquires.
  - intros ip. apply connectToMaster_acquires.
  - intros kube. apply bind_calm; [by apply NewClientsetWithRetry_calm|auto with calm].
  - intros kube m t. apply bind_calm; [apply WaitForModuleReady_calm|auto with calm].
  - intros kube ns. apply bind_calm; [by apply CreateNamespaceIfNotExists_calm|auto with calm].
  - intros kube ns. apply bind_calm; [by apply DeleteNamespace_calm|auto with calm].
  - intros kube key. apply bind_calm; auto with calm.
  - intros kube key w f w' H. unfold defaultFleetFactory_New in H. mstep H as [err w1] E.
    destruct err; [by injection H|]. injection H as <- _. apply provisioner_fleet_calm.
  - intros kube. apply bind_calm; auto with calm.
  - done.
Qed.

(** ** A bootstrap in memory *)

#[export] Instance pair_calm_factory W1 W2 `{F1 : ClientFactory W1, R2 : Remote W2} :
  CalmFactory (W1 * W2).
Proof. split; apply on_fst_calm. Qed.

Definition apiWorld : Type :=
  baseWorld * memWorld Node * memWorld Secret * memWorld Deployment * memWorld NamespaceObj *
  memWorld NodeGroup * memWorld ModuleConfigSpec * memWorld ModulePullOverrideSpec * memWorld Module_.
Definition testWorld : Type := apiWorld * remoteHosts.

Definition holding {O} (m : gmap string O) : memWorld O := mkWorld (mkMem m []) 4 false.
Definition ready_condition (ty : string) : Condition := mkCondition ty "True" "" "".

Definition image_url := "https://host/jammy.img".
Definition vm_node (hostname : string) (role : option ClusterRole) : ClusterNode :=
  mkNode hostname "" (mkOSType "" image_url "") HostTypeVM role 2 None 4 20 false.
Definition small_cluster : ClusterDefinition :=
  mkDef [vm_node "master-0" None] [vm_node "worker-0" None] (Some (vm_node "setup" (Some ClusterRoleSetup)))
    (mkDKP "1.31" "10.111.0.0/16" "10.222.0.0/16" "cluster.local" "dev-registry.deckhouse.io/sys/deckhouse-oss"
       "" []).

Definition running_vm (ip : string) : VirtualMachine :=
  mkVM ManagedLabels "generic" true "AlwaysOn" "Generic" "BIOS" "PreferSafe" 2 "100%" 4 [] "" "Running" ip.

(** The master has no kubeconfig before dhctl has run, and one afterwards. *)
Definition fresh_hosts (log : list execution) (addr cmd : string) : ExecResult * option error :=
  if String.eqb cmd masterKubeconfigProbeCmd && negb (existsb is_dhctl_run log)
  then (mkExec "" "" 1, Some (Errorf "Process exited with status 1"))
  else if String.eqb cmd getKubeconfigRemoteShell then (mkExec "    server: https://127.0.0.1:6445" "" 0, None)
  else (mkExec "" "" 0, None).

Definition base_ready : testWorld :=
  ((holding {["master-0" := running_vm "10.0.0.1"; "worker-0" := running_vm "10.0.0.2";
              "setup" := running_vm "10.0.0.3"]},
    holding (list_to_map (map (fun n => (systemDiskName n, sample_vd ManagedLabels))
                            ["master-0"; "worker-0"; "setup"])),
    holding {[cviNameFromImageURL zero_digest image_url := mkCVI ManagedLabels image_url "Ready"]},
    holding {["generic" := mkClass ∅ (mkClassSpec "Host" [] [] []) "Ready"]},
    holding {["master-0" := mkKubeNode {["node-role.kubernetes.io/control-plane" := ""]} [ready_condition "Ready"];
              "worker-0" := mkKubeNode ∅ [ready_condition "Ready"]]},
    holding {[ref bootstrapSecretNamespace masterBootstrapSecret := secret_with "join master";
              ref bootstrapSecretNamespace workerBootstrapSecret := secret_with "join worker"]},
    holding {[ref deckhouseNamespace deckhouseDeploymentName := mkDeployment [ready_condition "Available"]]},
    holding ∅, holding ∅, holding ∅, holding ∅,
    holding {["virtualization" := mkModuleStatus "Ready" []]}),
   mkHosts ∅ [] [] fresh_hosts).

Definition test_conf : DvpConfig.Config :=
  mkDvp "root" "base" "" "" "key" "" "" "" "" "" "" "kubeconfig" "e2e" "" "generic" "generic" "cloud"
    "license" "cfg".
Definition test_creds : Credentials := mkCreds "kubeconfig" "key" "".

(** A rest config is its server, or the kubeconfig without an override; the kubeconfig of the
    base cluster is not reachable directly. *)
Definition test_version (cfg : string) : M testWorld (option error) :=
  mret (if String.eqb cfg "kubeconfig" then Some (Errorf "no route to host") else None).

Definition test_deps : deps testWorld string :=
  default_deps (fun _ => None) test_version 4 zero_digest (fun _ => Ok 4) (fun T l => l) test_conf
    (fun kubeconfig => Ok kubeconfig) (fun kubeconfig server => Ok (default kubeconfig server))
    (fun _ => mret None) test_creds.

Lemma test_deps_laws : DepsLaws test_deps.
Proof. apply default_deps_laws; intros; apply ret_calm. Qed.

Definition test_bootstrap : act testWorld unit :=
  Bootstrap (fun _ => None) test_version 4 (fun _ => Ok "") (fun _ => Ok "") (fun _ => Ok "config")
    (mret 0) (fun T l => l) test_deps test_conf test_creds (Ok small_cluster) (Ok "ssh-ed25519").

Lemma Bootstrap_Remove_release_witness :
  (test_bootstrap base_ready).1 = Some (Ok tt) /\
  existsb is_dhctl_run (history (test_bootstrap base_ready).2) = true /\
  open_conns (test_bootstrap base_ready).2 = open_conns base_ready.
Proof.
  split; [vm_compute; reflexivity|]. split; [vm_compute; reflexivity|].
  exact (proj1 (Bootstrap_Remove_release (W := testWorld) (DL := test_deps_laws) (fun _ => None)
    test_version (fun _ => ret_calm _) 4 (fun _ => Ok "") (fun _ => Ok "") (fun _ => Ok "config") (mret 0)
    (ret_calm _) (fun T l => l) test_deps test_conf test_creds (Ok small_cluster) (Ok "ssh-ed25519"))
    base_ready).
Defined.

Definition test_connect : M testWorld (result (string * M testWorld unit)) :=
  ConnectTestCluster test_deps test_conf (Ok small_cluster).

Lemma ConnectTestCluster_acquires_witness :
  size (open_conns (test_connect base_ready).2) = 4%nat /\
  match (test_connect base_ready).1 with
  | Ok (_, cleanup) => open_conns (cleanup (test_connect base_ready).2).2 = ∅
  | Err _ => False
  end.
Proof.
  split; [vm_compute; reflexivity|].
  pose proof (ConnectTestCluster_acquires (W := testWorld) (DL := test_deps_laws) test_deps test_conf
    (Ok small_cluster) base_ready _ _ (surjective_pairing _)) as [_ H].
  assert (E : (if (test_connect base_ready).1 then true else false) = true)
    by (vm_compute; reflexivity).
  unfold test_connect in *.
  destruct (ConnectTestCluster test_deps test_conf (Ok small_cluster) base_ready).1 as [[t cl]|e];
    [|done].
  exact (proj1 (H _ eq_refl)).
Defined.

(** ** dhctl in memory *)

Definition provisioned : ClusterDefinition :=
  let ip n a := set_ip a (vm_node n None) in
  mkDef [ip "master-0" "10.0.0.1"] [ip "worker-0" "10.0.0.2"] (Some (ip "setup" "10.0.0.3"))
    (DKP small_cluster).

Definition test_dhctl : act testWorld unit :=
  dhctlBootstrap (fun _ => None) test_version 4 (fun _ => Ok "") (fun _ => Ok "") (fun _ => Ok "config")
    (mret 0) test_deps test_conf test_creds provisioned.

Lemma dhctlBootstrap_spec_witness :
  (test_dhctl base_ready).1 = Some (Ok tt) /\
  exists new, history (test_dhctl base_ready).2 = [] ++ new /\ probed_first "10.0.0.1" new /\
    (Exists (dhctl_ok "10.0.0.3") new \/ Exists (found_probe "10.0.0.1") new).
Proof.
  assert (E : (test_dhctl base_ready).1 = Some (Ok tt)) by (vm_compute; reflexivity).
  split; [exact E|].
  destruct (dhctlBootstrap_spec (W := testWorld) (DL := test_deps_laws) (fun _ => None) test_version
    (fun _ => ret_calm _) 4 (fun _ => Ok "") (fun _ => Ok "") (fun _ => Ok "config") (mret 0)
    (ret_calm _) test_deps test_conf test_creds provisioned (set_ip "10.0.0.3" (vm_node "setup" None))
    "10.0.0.1" base_ready _ _ eq_refl eq_refl (surjective_pairing _)) as (_ & new & Hh & Hp & Hs).
  exists new. split; [exact Hh|]. split; [exact Hp|]. apply Hs. exact E.
Defined.
