(* ===== verification/E2E.v ===== *)
(** The test SDK ([src/pkg/e2e]) and the provider abstraction under it
    ([src/pkg/clusterprovider], its registry): a suite selects a provider by its mode, attaches
    to the cluster, waits until it is healthy, takes the cluster lock, and gives everything
    back with [Close]. Providers are values of [Provider] that satisfy [ProviderLaws]. *)
From S2P Require Import Prelude Errors Retry Lease LeaseSafety LeaseServer Kube Config Deckhouse Remote Connect Disks Install Join.

Local Open Scope Z_scope.
Local Open Scope go_scope.

(** ** Modes and configuration ([mode.go], [config.go]) *)
Definition ProviderMode := string.
Definition ModeDVP : ProviderMode := "dvp".
Definition ModeCommander : ProviderMode := "commander".

Definition UnmarshalText (text : string) : result ProviderMode :=
  if String.eqb text ModeDVP || String.eqb text ModeCommander then Ok text
  else Err (Errorf ("invalid MODE: " +:+ quote text +:+ " (allowed: dvp, commander)")).

Definition ProviderMode_String (m : ProviderMode) : string := m.

Record ClusterConfig := mkClusterConfig {
  ClusterProvider : ProviderMode;
  ClusterBootstrapConfigPath : string
}.

(** [env.Parse], which sets the fields from the environment, is [parse]. *)
Definition NewClusterConfig (parse : gmap string string -> result ClusterConfig)
    (environ : gmap string string) : result ClusterConfig :=
  match parse environ with
  | Err parseErr => Err parseErr
  | Ok cfg => Ok cfg
  end.

(** ** Capabilities and providers ([nodeexec.go], [disks.go], [cluster.go], [provider.go]) *)
Definition ErrConnectUnsupported : error :=
  Leaf (KSentinel "clusterprovider.ErrConnectUnsupported" None)
    "cluster provider does not support connecting to the test cluster".
Definition ErrDisksUnsupported : error :=
  Leaf (KSentinel "clusterprovider.ErrDisksUnsupported" None)
    "cluster provider does not support disk management".

(** [None] of an operation: a wait ran out of fuel. *)
Record DiskManager (W : Type) := mkDiskManager {
  dm_CreateDisk : DiskSpec -> M W (option (result Disk));
  dm_DeleteDisk : string -> M W (option (option error));
  dm_AttachDisk : string -> string -> M W (option (option error));
  dm_DetachDisk : string -> string -> M W (option (option error));
  dm_ResizeDisk : string -> Z -> M W (option (option error))
}.
Arguments mkDiskManager {W} _ _ _ _ _.
Arguments dm_CreateDisk {W} _ _ _.
Arguments dm_DeleteDisk {W} _ _ _.
Arguments dm_AttachDisk {W} _ _ _ _.
Arguments dm_DetachDisk {W} _ _ _ _.
Arguments dm_ResizeDisk {W} _ _ _ _.

Definition NodeExecutor (W : Type) : Type := string -> string -> M W (ExecResult * option error).

(** [clusterprovider.Cluster]: a nil field is [None]. *)
Record Connection (W RestConfig : Type) := mkConnection {
  RESTConfig : option RestConfig;
  Nodes : option (NodeExecutor W);
  Disks_ : option (DiskManager W);
  Cleanup : option (M W unit)
}.
Arguments mkConnection {W RestConfig} _ _ _ _.
Arguments RESTConfig {W RestConfig} _.
Arguments Nodes {W RestConfig} _.
Arguments Disks_ {W RestConfig} _.
Arguments Cleanup {W RestConfig} _.

Record Provider (W RestConfig : Type) := mkProvider {
  Name : string;
  p_Bootstrap : M W (option (ending (option error)));
  p_Remove : M W (option (option error));
  p_ConnectTestCluster : M W (result (Connection W RestConfig))
}.
Arguments mkProvider {W RestConfig} _ _ _ _.
Arguments Name {W RestConfig} _.
Arguments p_Bootstrap {W RestConfig} _.
Arguments p_Remove {W RestConfig} _.
Arguments p_ConnectTestCluster {W RestConfig} _.

(** ** The registry ([registry.go]) *)
Section Registry.
Context {P : Type}.

Definition Constructor : Type := ClusterConfig -> result P.
Definition Registry : Type := gmap string Constructor.

Definition NewRegistry (dvp commander : Constructor) : Registry :=
  <[ModeDVP := dvp]> (<[ModeCommander := commander]> ∅).

Definition Register (name : string) (c : Constructor) (r : Registry) : Registry := <[name := c]> r.

Definition Get (name : ProviderMode) (r : Registry) : result Constructor :=
  match r !! ProviderMode_String name with
  | Some c => Ok c
  | None => Err (Errorf ("provider " +:+ quote name +:+ " is not registered"))
  end.
End Registry.

(** ** Options ([e2e.go]) *)
Record connectOptions := mkConnectOptions {
  testName : string;
  acquireLock : bool;
  healthCheck : bool;
  healthCheckTimeout : Z
}.

Definition defaultHealthCheckTimeout : Z := 10 * Minute.
Definition healthCheckPollInterval : Z := 5 * Second.

Definition WithTestName (name : string) (o : connectOptions) : connectOptions :=
  mkConnectOptions name (acquireLock o) (healthCheck o) (healthCheckTimeout o).
Definition WithoutLock (o : connectOptions) : connectOptions :=
  mkConnectOptions (testName o) false (healthCheck o) (healthCheckTimeout o).
Definition WithoutHealthCheck (o : connectOptions) : connectOptions :=
  mkConnectOptions (testName o) (acquireLock o) false (healthCheckTimeout o).
Definition WithHealthCheckTimeout (d : Z) (o : connectOptions) : connectOptions :=
  mkConnectOptions (testName o) (acquireLock o) (healthCheck o) d.

(** [binary] is [filepath.Base(os.Args[0])]. *)
Definition newConnectOptions (binary : string) (opts : list (connectOptions -> connectOptions))
    : connectOptions :=
  fold_left (fun o opt => opt o) opts
    (mkConnectOptions binary true true defaultHealthCheckTimeout).

(** ** The lock, in a world with other calls *)
Class LeaseCalls (W : Type) := {
  lc_now : M W Z;
  lc_get : M W (result Lease);
  lc_create : Lease -> M W (option error);
  lc_update : Lease -> M W (option error);
  lc_delete : Z -> M W (option error)
}.

Section SDK.
Context {W : Type} `{AE : ApiErrors, CX : Ctx W, LC : LeaseCalls W}.
Context `{NC : Client W Node, DC : Client W Deployment}.
Context {RestConfig : Type}.
(** [kubernetes.NewForConfig], [dynamic.NewForConfig] and [NewClientsetWithRetry]. *)
Context (NewForConfig dynamicNewForConfig : RestConfig -> option error).
Context (newClientset : RestConfig -> M W (option error)).
(** The host of the run, and the time format of messages. *)
Context (env : Env) (formatRFC3339 : Z -> string) (fuel : nat).

(** A program of [Lease] run in this world. *)
Fixpoint run_lease {A} (p : prog A) : M W A :=
  match p with
  | Ret a => mret a
  | Now k => let! t := lc_now in run_lease (k t)
  | GetLease k => let! r := lc_get in run_lease (k r)
  | CreateLease l k => let! e := lc_create l in run_lease (k e)
  | UpdateLease l k => let! e := lc_update l in run_lease (k e)
  | DeleteLease uid k => let! e := lc_delete uid in run_lease (k e)
  | CtxErr k => let! e := ctxErr in run_lease (k e)
  | After d k => let! b := timerFires d in run_lease (k b)
  end.

(** ** Health ([health.go])

    The same checks as [checkHealthClient] of the DVP installation. *)
Definition checkClusterHealth : M W (option error) := checkHealthClient.

Definition waitClusterHealthy (timeout : Z) : M W (option (option error)) :=
  poll
    (fun _ => let! lastErr := checkClusterHealth in
              mret (lastErr, if is_nil lastErr then Some None else None))
    (fun lastErr ce =>
       let pre := "waiting for cluster to become healthy within " +:+ fmt_duration timeout +:+ ": " in
       Some match ce, lastErr with
            | Some ce, Some le => Wrap2 pre ce " (last check: " le ")"
            | None, Some le => ErrorfW (pre +:+ "%!w(<nil>) (last check: ") le ")"
            | ce, None => ErrorfWn pre ce " (last check: %!w(<nil>))"
            end)
    fuel healthCheckPollInterval None.

(** ** The handle ([cluster.go]) *)

(** [closed] is what [sync.Once] remembers: the result of the first [Close]. *)
Record Cluster := mkCluster {
  provider : string;
  conn : Connection W RestConfig;
  lock : option LeaseLock;
  closed : option (option error)
}.

Definition unsupported_err (name : string) : error :=
  ErrorfW ("provider " +:+ quote name +:+ ": ") ErrDisksUnsupported "".

Definition unsupportedDiskManager (name : string) : DiskManager W :=
  mkDiskManager
    (fun _ => mret (Some (Err (unsupported_err name))))
    (fun _ => mret (Some (Some (unsupported_err name))))
    (fun _ _ => mret (Some (Some (unsupported_err name))))
    (fun _ _ => mret (Some (Some (unsupported_err name))))
    (fun _ _ => mret (Some (Some (unsupported_err name)))).

(** [newCluster] fills in nil fields of the connection, which its caller shares: the new
    connection is returned on every path. *)
Definition newCluster (name : string) (c : Connection W RestConfig)
    : Connection W RestConfig * result Cluster :=
  let prefix := "provider " +:+ quote name in
  match RESTConfig c with
  | None => (c, Err (Errorf (prefix +:+ " returned a cluster without a rest.Config")))
  | Some rc =>
      match Nodes c with
      | None => (c, Err (Errorf (prefix +:+ " returned a cluster without a NodeExecutor")))
      | Some _ =>
          let c := match Cleanup c with
                   | Some _ => c
                   | None => mkConnection (RESTConfig c) (Nodes c) (Disks_ c) (Some (mret tt))
                   end in
          let c := match Disks_ c with
                   | Some _ => c
                   | None => mkConnection (RESTConfig c) (Nodes c)
                               (Some (unsupportedDiskManager name)) (Cleanup c)
                   end in
          (c, match NewForConfig rc with
              | Some err => Err (ErrorfW (prefix +:+ ": build clientset: ") err "")
              | None =>
                  match dynamicNewForConfig rc with
                  | Some err => Err (ErrorfW (prefix +:+ ": build dynamic client: ") err "")
                  | None => Ok (mkCluster name c None None)
                  end
              end)
      end
  end.

(** [conn.Cleanup()] before an error is returned. *)
Definition cleanup_then {A} (c : Connection W RestConfig) (r : A) : M W (option (ending A)) :=
  match Cleanup c with
  | None => mret (Some Panics)
  | Some cleanup => let! _ := cleanup in mret (Some (Returns r))
  end.

(** The lock part of [connectWithProvider], once the cluster is healthy. *)
Definition lock_cluster (o : connectOptions) (c : Connection W RestConfig) (cluster : Cluster)
    : M W (option (ending (result Cluster))) :=
  if acquireLock o then
    let! clientset := match RESTConfig c with
                      | Some rc => newClientset rc
                      | None => mret None
                      end in
    let! got := run_lease (AcquireLease formatRFC3339
                  (match clientset with Some e => Err e | None => Ok tt end) env (testName o)) in
    match got with
    | Err err => cleanup_then c (Err err)
    | Ok l => mret (Some (Returns (Ok (mkCluster (provider cluster) (conn cluster) (Some l) None))))
    end
  else mret (Some (Returns (Ok cluster))).

Definition connectWithProvider (p : Provider W RestConfig) (o : connectOptions)
    : M W (option (ending (result Cluster))) :=
  let! connected := p_ConnectTestCluster p in
  match connected with
  | Err err => mret (Some (Returns (Err (ErrorfW ("connect test cluster on provider " +:+
                                           quote (Name p) +:+ ": ") err ""))))
  | Ok c =>
      let '(c, made) := newCluster (Name p) c in
      match made with
      | Err err => cleanup_then c (Err err)
      | Ok cluster =>
          if healthCheck o then
            let! healthy := waitClusterHealthy (healthCheckTimeout o) in
            match healthy with
            | None => mret None
            | Some (Some err) => cleanup_then c (Err (ErrorfW "cluster health check: " err ""))
            | Some None => lock_cluster o c cluster
            end
          else lock_cluster o c cluster
      end
  end.

Definition Connect (parse : gmap string string -> result ClusterConfig) (environ : gmap string string)
    (registry : Registry (P := Provider W RestConfig)) (binary : string)
    (opts : list (connectOptions -> connectOptions)) : M W (option (ending (result Cluster))) :=
  match NewClusterConfig parse environ with
  | Err err => mret (Some (Returns (Err (ErrorfW "read cluster provider config: " err ""))))
  | Ok cfg =>
      match Get (ClusterProvider cfg) registry with
      | Err err => mret (Some (Returns (Err err)))
      | Ok constructor =>
          match constructor cfg with
          | Err err => mret (Some (Returns (Err (ErrorfW ("build provider " +:+
                                       quote (ClusterProvider cfg) +:+ ": ") err ""))))
          | Ok provider => connectWithProvider provider (newConnectOptions binary opts)
          end
      end
  end.

(** [Close]: the result, and the handle that remembers it. A nil cleanup panics. *)
Definition Close (c : Cluster) : M W (ending (option error * Cluster)) :=
  match closed c with
  | Some err => mret (Returns (err, c))
  | None =>
      let! '(err, l) := match lock c with
                        | None => mret (None, None)
                        | Some l =>
                            let! '(err, l) := run_lease (Release l) in mret (err, Some l)
                        end in
      match Cleanup (conn c) with
      | None => mret Panics
      | Some cleanup =>
          let! _ := cleanup in
          mret (Returns (err, mkCluster (provider c) (conn c) l (Some err)))
      end
  end.
End SDK.

(** ** What a provider promises

    A failed connect leaves nothing open; a connection is complete and its cleanup closes
    what the connect opened. *)
Class ProviderLaws {W RestConfig} `{R : Remote W} (p : Provider W RestConfig) : Prop := {
  provider_connect w r w' : p_ConnectTestCluster p w = (r, w') ->
    match r with
    | Err _ => open_conns w' = open_conns w
    | Ok c => is_Some (RESTConfig c) /\ is_Some (Nodes c) /\
        exists cleanup, Cleanup c = Some cleanup /\ releases cleanup w w'
    end
}.

(** The calls of the lock open no connection. *)
Class CalmLease (W : Type) `{R : Remote W, LC : LeaseCalls W} : Prop := {
  now_calm : calm lc_now;
  lget_calm : calm lc_get;
  lcreate_calm l : calm (lc_create l);
  lupdate_calm l : calm (lc_update l);
  ldelete_calm u : calm (lc_delete u)
}.

Section Release.
Context {W : Type} `{AE : ApiErrors, CX : Ctx W, R : Remote W, CC : !CalmCtx W}.
Context `{LC : LeaseCalls W, CL : !CalmLease W}.
Context `{NC : Client W Node, CN : !CalmClient W Node, DC : Client W Deployment, CD : !CalmClient W Deployment}.
Context {RestConfig : Type}.
Context (NewForConfig dynamicNewForConfig : RestConfig -> option error).
Context (newClientset : RestConfig -> M W (option error)) (Hnc : forall rc, calm (newClientset rc)).
Context (env : Env) (formatRFC3339 : Z -> string) (fuel : nat).

Lemma run_lease_calm {A} (p : prog A) : calm (run_lease p).
Proof.
  induction p as [a|k IH|k IH|l k IH|l k IH|u k IH|k IH|d k IH]; cbn;
    [apply ret_calm|apply bind_calm; [|done]..].
  - apply now_calm.
  - apply lget_calm.
  - apply lcreate_calm.
  - apply lupdate_calm.
  - apply ldelete_calm.
  - apply ctx_calm.
  - apply timer_calm.
Qed.

Lemma checkClusterHealth_calm : calm checkClusterHealth.
Proof.
  apply bind_calm; [apply list_calm|]. intros [nodes|e]; [|apply ret_calm].
  destruct (control_plane_ready nodes 0); [apply ret_calm|].
  apply bind_calm; [apply get_calm|]. intros r. apply ret_calm.
Qed.

Lemma health_check_calm timeout : calm (waitClusterHealthy fuel timeout).
Proof.
  apply poll_calm. intros s. apply bind_calm; [apply checkClusterHealth_calm|].
  intros e. apply ret_calm.
Qed.

(** The handle of a connection that is complete. *)
Definition usable (o : connectOptions) (cleanup : M W unit) (c : Cluster (W := W) (RestConfig := RestConfig)) : Prop :=
  Cleanup (conn c) = Some cleanup /\ is_Some (Nodes (conn c)) /\ is_Some (Disks_ (conn c)) /\
  (if acquireLock o
   then exists l, lock c = Some l /\ holder l = holderIdentity env /\ released l = None
   else lock c = None) /\ closed c = None.

Notation connect := (connectWithProvider NewForConfig dynamicNewForConfig newClientset env
                       formatRFC3339 fuel).

(** A lock that was acquired is the one of this host. *)
Lemma acquired_lock clientset name w l w' :
  run_lease (AcquireLease formatRFC3339 clientset env name) w = (Ok l, w') ->
  holder l = holderIdentity env /\ released l = None.
Proof.
  assert (Hr : LeaseSafety.returns (fun r => match r with
    | Ok l => holder l = holderIdentity env /\ released l = None | Err _ => True end)
    (AcquireLease formatRFC3339 clientset env name)).
  { destruct clientset as [[]|e]; [|done]. apply LeaseSafety.prog_returns_bind. by intros [e|]. }
  revert w. generalize dependent (AcquireLease formatRFC3339 clientset env name).
  intros p Hr. induction p as [a|k IH|k IH|x k IH|x k IH|u k IH|k IH|d k IH]; intros w H; cbn in *;
    [injection H as -> _; exact Hr|mstep H as [y w1] E1; by eapply IH..].
Qed.

Lemma cleanup_then_releases {A} (c : Connection W RestConfig) cleanup (r : A) w w1 w2 x w3 :
  Cleanup c = Some cleanup -> releases cleanup w w1 -> open_conns w2 = open_conns w1 ->
  cleanup_then c r w2 = (x, w3) -> x = Some (Returns r) /\ open_conns w3 = open_conns w.
Proof.
  intros Hc Hr Ho H. unfold cleanup_then in H. rw Hc in H. mstep H as [u v] E.
  injection H as <- <-. split; [done|]. destruct (Hr _ Ho) as [H _]. by rw E in H.
Qed.

Lemma lock_cluster_spec o c cl cleanup w w1 w2 x w3 :
  Cleanup c = Some cleanup -> releases cleanup w w1 -> open_conns w2 = open_conns w1 ->
  usable (WithoutLock o) cleanup cl ->
  lock_cluster newClientset env formatRFC3339 o c cl w2 = (x, w3) ->
  (exists e, x = Some (Returns (Err e)) /\ open_conns w3 = open_conns w) \/
  exists cl', x = Some (Returns (Ok cl')) /\ open_conns w3 = open_conns w1 /\ usable o cleanup cl'.
Proof.
  intros Hc Hr Ho (Hu1 & Hu2 & Hu3 & Hu4 & Hu5) H. unfold lock_cluster in H.
  destruct (acquireLock o) eqn:Ha.
  - mstep H as [cs w4] E4.
    assert (Ho4 : open_conns w4 = open_conns w1).
    { rw -Ho. destruct (RESTConfig c) as [rc|].
      - by destruct (Join.calm_step _ _ _ _ (Hnc rc) E4).
      - by injection E4 as _ <-. }
    mstep H as [got w5] E5. destruct (Join.calm_step _ _ _ _ (run_lease_calm _) E5) as [Ho5 _].
    destruct got as [l|e].
    + injection H as <- <-. right. eexists. split; [done|]. split; [congruence|].
      repeat split; try done. cbn. rw Ha. exists l. split; [done|].
      by apply acquired_lock in E5.
    + left. exists e. eapply cleanup_then_releases; [exact Hc|exact Hr| |exact H]. congruence.
  - injection H as <- <-. right. exists cl. split; [done|]. split; [done|].
    repeat split; try done. by rw Ha.
Qed.

Lemma connect_result p o w x w' :
  ProviderLaws p -> connect p o w = (Some x, w') ->
  match x with
  | Panics => False
  | Returns (Err _) => open_conns w' = open_conns w
  | Returns (Ok c) => exists cleanup, usable o cleanup c /\ releases cleanup w w'
  end.
Proof.
  intros HP H. unfold connectWithProvider in H. mstep H as [r w1] E1. apply provider_connect in E1.
  destruct r as [c|e]; [|by injection H as <- <-].
  destruct E1 as ([rc Hrc] & [nx Hnx] & cleanup & Hcl & Hrel).
  unfold newCluster in H. rw Hrc Hnx in H. cbn in H. rw Hcl in H.
  set (c1 := match Disks_ c with Some _ => c | None => _ end) in H.
  assert (Hc1 : Cleanup c1 = Some cleanup /\ Nodes c1 = Some nx /\ is_Some (Disks_ c1)).
  { unfold c1. destruct (Disks_ c) eqn:E; cbn; rw ?E; eauto. }
  clearbody c1. destruct Hc1 as (Hcl1 & Hn1 & Hd1).
  assert (Hfail : forall (e : error) v y v', open_conns v = open_conns w1 ->
    cleanup_then c1 (Err (A := Cluster (W := W) (RestConfig := RestConfig)) e) v = (Some y, v') ->
    y = Returns (Err e) /\ open_conns v' = open_conns w).
  { intros e v y v' Hv Hy. destruct (cleanup_then_releases _ _ _ _ _ _ _ _ Hcl1 Hrel Hv Hy) as [Heq Ho].
    by injection Heq as ->. }
  destruct (NewForConfig rc) as [e|]; [by apply Hfail in H as [-> ?]|].
  destruct (dynamicNewForConfig rc) as [e|]; [by apply Hfail in H as [-> ?]|].
  set (cl := mkCluster (Name p) c1 None None) in H.
  assert (Hu : usable (WithoutLock o) cleanup cl) by (repeat split; eauto).
  assert (Hlock : forall v, open_conns v = open_conns w1 ->
    lock_cluster newClientset env formatRFC3339 o c1 cl v = (Some x, w') ->
    match x with
    | Panics => False
    | Returns (Err _) => open_conns w' = open_conns w
    | Returns (Ok c) => exists cleanup, usable o cleanup c /\ releases cleanup w w'
    end).
  { intros v Hv Hl. destruct (lock_cluster_spec _ _ _ _ _ _ _ _ _ Hcl1 Hrel Hv Hu Hl)
      as [(e & [= ->] & Ho)|(cl' & [= ->] & Ho & Hu')]; [done|].
    exists cleanup. split; [done|]. intros w2 Hw2. apply Hrel. congruence. }
  destruct (healthCheck o); [|by eapply Hlock].
  mstep H as [h w2] E2. destruct (Join.calm_step _ _ _ _ (health_check_calm _) E2) as [Ho2 _].
  destruct h as [[e|]|]; [|by eapply Hlock|done].
  by apply Hfail in H as [-> ?].
Qed.

(** ** Ending *)
Context `{DL : !Deadline W, TN : !TimedClient W Node, TD : !TimedClient W Deployment}.

Lemma checkClusterHealth_bounded : bounded checkClusterHealth.
Proof.
  apply bind_bounded; [apply list_bounded|]. intros [nodes|e]; [|apply ret_bounded].
  destruct (control_plane_ready nodes 0); [apply ret_bounded|].
  apply bind_bounded; [apply get_bounded|]. intros r. apply ret_bounded.
Qed.

Lemma waitClusterHealthy_returns timeout : returns fuel (waitClusterHealthy fuel timeout).
Proof.
  apply poll_returns. intros s. apply bind_bounded; [apply checkClusterHealth_bounded|].
  intros e. apply ret_bounded.
Qed.

Lemma cleanup_then_some {A} (c : Connection W RestConfig) (r : A) v :
  exists y v', cleanup_then c r v = (Some y, v').
Proof.
  unfold cleanup_then. destruct (Cleanup c) as [cl|]; [|by eexists _, _].
  unfold mbind, M_bind. destruct (cl v). by eexists _, _.
Qed.

Lemma lock_cluster_some o c cl v :
  exists y v', lock_cluster newClientset env formatRFC3339 o c cl v = (Some y, v').
Proof.
  unfold lock_cluster. destruct (acquireLock o); [|by eexists _, _].
  unfold mbind at 1, M_bind at 1.
  set (cs := match RESTConfig c with Some rc => newClientset rc | None => _ end).
  destruct (cs v) as [e v1]. unfold mbind at 1, M_bind at 1.
  destruct (run_lease _ v1) as [[l|err] v2]; [by eexists _, _|]. apply cleanup_then_some.
Qed.

Lemma connect_returns p o : bounded (p_ConnectTestCluster p) -> returns fuel (connect p o).
Proof.
  intros Hb. apply bind_returns; [done|]. intros [c|e] w Hw; [|by eexists _, _].
  destruct (newCluster _ _ (Name p) c) as [c1 [cl|e]]; [|apply cleanup_then_some].
  destruct (healthCheck o); [|apply lock_cluster_some].
  destruct (waitClusterHealthy_returns (healthCheckTimeout o) w Hw) as (h & w1 & E).
  unfold mbind, M_bind. rw E. destruct h as [e|]; [apply cleanup_then_some|apply lock_cluster_some].
Qed.

(** Attaching to a cluster is all or nothing for every provider that keeps its contract:
    [connectWithProvider] never panics, an error at any stage (building clients, health check,
    lock) leaves open exactly what was open before, and a handle carries executor, disk
    manager, cleanup and, unless the lock is skipped, a lock of this host. *)
Theorem connectWithProvider_spec p o w :
  ProviderLaws p -> bounded (p_ConnectTestCluster p) -> (left w < fuel)%nat ->
  exists x w', connect p o w = (Some x, w') /\
  match x with
  | Panics => False
  | Returns (Err _) => open_conns w' = open_conns w
  | Returns (Ok c) => exists cleanup, usable o cleanup c /\ releases cleanup w w'
  end.
Proof.
  intros HP Hb Hw. destruct (connect_returns p o Hb w Hw) as (x & w' & E).
  exists x, w'. split; [done|]. by eapply connect_result.
Qed.

(** What the first and the second [Close] of a handle do. *)
Lemma close_result o cleanup (c : Cluster (RestConfig := RestConfig)) w w1 v :
  usable o cleanup c -> releases cleanup w w1 -> open_conns v = open_conns w1 ->
  exists err c' v', Close c v = (Returns (err, c'), v') /\ open_conns v' = open_conns w /\
    closed c' = Some err /\ forall v2, Close c' v2 = (Returns (err, c'), v2).
Proof.
  intros (Hcl & _ & _ & _ & Hopen) Hr Hv. unfold Close. rw Hopen.
  unfold mbind, M_bind, mret, M_ret.
  set (rel := match lock c with Some l => _ | None => _ end).
  assert (Hcalm : calm rel).
  { unfold rel. destruct (lock c); [|apply ret_calm]. apply bind_calm; [apply run_lease_calm|].
    intros []. apply ret_calm. }
  destruct (rel v) as [[err l] v1] eqn:E. destruct (Join.calm_step _ _ _ _ Hcalm E) as [Ho _].
  rw Hcl. destruct (cleanup v1) as [u v2] eqn:E2.
  destruct (Hr v1) as [Hr2 _]; [congruence|]. rw E2 in Hr2.
  eexists err, _, v2. split; [done|]. split; [exact Hr2|]. by split.
Qed.
(** [Close] gives back what [connectWithProvider] took, releases the lock, and is done
    once: a second call returns the first result and does nothing. *)
Theorem Close_once o cleanup (c : Cluster (RestConfig := RestConfig)) w w1 v :
  usable o cleanup c -> releases cleanup w w1 -> open_conns v = open_conns w1 ->
  exists err c' v', Close c v = (Returns (err, c'), v') /\ open_conns v' = open_conns w /\
    closed c' = Some err /\ forall v2, Close c' v2 = (Returns (err, c'), v2).
Proof. apply close_result. Qed.
End Release.

(** ** Health, read off the server *)
Section Health.
Context {W : Type} `{AE : ApiErrors, CX : Ctx W, DL : !Deadline W}.
Context `{NC : Client W Node, NL : !ClientLaws W Node, TN : !TimedClient W Node}.
Context `{DC : Client W Deployment, DLs : !ClientLaws W Deployment, TD : !TimedClient W Deployment}.

Lemma control_plane_ready_none nodes n :
  control_plane_ready nodes n = None -> 0 <= n ->
  (0 < n \/ exists name node, (name, node) ∈ nodes /\ isControlPlaneNode node = true) /\
  forall name node, (name, node) ∈ nodes -> isControlPlaneNode node = true -> isNodeReady node = true.
Proof.
  revert n. induction nodes as [|[name node] nodes IH]; intros n H Hn;
    cbn [control_plane_ready] in H.
  - destruct (n =? 0) eqn:E; [done|]. apply Z.eqb_neq in E. split; [left; lia|]. by intros ? ? ?%elem_of_nil.
  - destruct (isControlPlaneNode node) eqn:Hc; cbn [negb] in H.
    + destruct (isNodeReady node) eqn:Hr; cbn [negb] in H; [|done].
      destruct (IH (n + 1)) as [_ Hall]; [done|lia|]. split.
      * right. exists name, node. by split; [left|].
      * intros x y [[= -> ->]|Hin]%elem_of_cons Hy; [done|by eapply Hall].
    + destruct (IH n) as [Hex Hall]; [done..|]. split.
      * destruct Hex as [?|(x & y & Hin & Hy)]; [by left|right]. exists x, y. by split; [right|].
      * intros x y [[= -> ->]|Hin]%elem_of_cons Hy; [congruence|by eapply Hall].
Qed.

(** The cluster is healthy as far as [w1] and [w2] go: what was read for the nodes, and for
    the deployment. *)
Definition healthy (w1 w2 : W) : Prop :=
  (exists name node, objs w1 !! name = Some node /\ isControlPlaneNode node = true) /\
  (forall name node, objs w1 !! name = Some node -> isControlPlaneNode node = true ->
     isNodeReady node = true) /\
  exists dep, objs w2 !! ref deckhouseNamespace deckhouseDeploymentName = Some dep /\
    isDeploymentAvailable dep = true.

Lemma checkClusterHealth_healthy w w' :
  checkClusterHealth w = (None, w') -> exists w2, healthy w w2.
Proof.
  intros H. unfold checkClusterHealth, checkHealthClient in H. mstep H as [nodes w1] E1.
  destruct nodes as [nodes|e]; [|by injection H]. apply list_ok in E1 as [Hp _].
  destruct (control_plane_ready nodes 0) eqn:Hcp; [by injection H|].
  mstep H as [dep w2] E2. destruct dep as [dep|e]; [|by injection H].
  apply Kube.get_ok in E2 as [Hd _]. destruct (isDeploymentAvailable dep) eqn:Ha; [|by injection H].
  exists w1. apply control_plane_ready_none in Hcp as [[?|(name & node & Hin & Hc)] Hall]; [lia| |lia].
  assert (Hobjs : forall name node, (name, node) ∈ nodes <-> objs w !! name = Some node).
  { intros x y. by rw Hp elem_of_map_to_list. }
  repeat split.
  - exists name, node. by rw -Hobjs.
  - intros x y Hx. apply (Hall x). by rw Hobjs.
  - eauto.
Qed.

(** The health wait returns by its deadline; without an error some check saw a control
    plane whose nodes are all ready and the Deckhouse deployment available. *)
Theorem waitClusterHealthy_spec fuel timeout w :
  (left w < fuel)%nat ->
  exists r w', waitClusterHealthy fuel timeout w = (Some r, w') /\
    (r = None -> exists w1 w2, healthy w1 w2).
Proof.
  intros Hw. destruct (waitClusterHealthy_returns fuel timeout w Hw) as (r & w' & E).
  exists r, w'. split; [done|]. intros ->. unfold waitClusterHealthy in E.
  apply (poll_ended _ _ (fun _ _ => True)) in E as [s w1 s' _ H|s ce z w0 w1 _ _ _ H]; try done.
  mstep H as [e w2] E2. destruct e; [by injection H|].
  destruct (checkClusterHealth_healthy _ _ E2) as [w3 Hh]. eauto.
Qed.
End Health.

(** ** A suite in memory *)

#[export] Instance lease_calls : LeaseCalls LeaseServer.mem := {|
  lc_now := gets LeaseServer.m_clock;
  lc_get := LeaseServer.mem_get;
  lc_create := LeaseServer.mem_create;
  lc_update := LeaseServer.mem_update;
  lc_delete := LeaseServer.mem_delete
|}.
#[export] Instance pair_lease_fst W1 W2 `{L1 : LeaseCalls W1} : LeaseCalls (W1 * W2) | 10 := {|
  lc_now := on_fst lc_now;
  lc_get := on_fst lc_get;
  lc_create l := on_fst (lc_create l);
  lc_update l := on_fst (lc_update l);
  lc_delete u := on_fst (lc_delete u)
|}.
#[export] Instance pair_lease_snd W1 W2 `{L2 : LeaseCalls W2} : LeaseCalls (W1 * W2) | 20 := {|
  lc_now := on_snd lc_now;
  lc_get := on_snd lc_get;
  lc_create l := on_snd (lc_create l);
  lc_update l := on_snd (lc_update l);
  lc_delete u := on_snd (lc_delete u)
|}.
#[export] Instance pair_calm_lease W1 W2 `{L1 : LeaseCalls W1, R2 : Remote W2} :
  CalmLease (W1 * W2) (LC := pair_lease_fst W1 W2).
Proof. split; intros; apply on_fst_calm. Qed.

Definition suiteWorld : Type :=
  memWorld Node * memWorld Deployment * LeaseServer.mem * remoteHosts.

Definition suite_hosts : remoteHosts :=
  mkHosts ∅ [] [] (fun _ _ _ => (mkExec "" "" 0, None)).

Definition available (ty : string) : Condition := mkCondition ty "True" "" "".

Definition healthy_suite : suiteWorld :=
  (mkWorld (mkMem {["m0" := mkKubeNode {["node-role.kubernetes.io/master" := ""]}
                              [available "Ready"]]} []) 3 false,
   mkWorld (mkMem {[ref deckhouseNamespace deckhouseDeploymentName :=
                      mkDeployment [available "Available"]]} []) 3 false,
   LeaseServer.mkMem None 0 0 0,
   suite_hosts).

(** A provider that reaches its cluster over one SSH client. *)
Definition ssh_provider : Provider suiteWorld string := mkProvider "ssh" (mret (Some (Returns None))) (mret (Some None))
  (let! r := sshNew [mkEndpoint "root" "10.0.0.1" "key" ""] in
   mret (match r with
         | Err e => Err e
         | Ok c => Ok (mkConnection (Some "https://10.0.0.1") (Some (fun _ cmd => sshExec c cmd)) None
                         (Some (logged (connClose c))))
         end)).

#[export] Instance ssh_provider_laws : ProviderLaws ssh_provider.
Proof.
  split. intros w r w' H. cbn [p_ConnectTestCluster ssh_provider] in H. mstep H as [c w1] E.
  destruct c as [c|e]; injection H as <- <-.
  - apply new_ok in E as (Hf & Ho & _). split; [eauto|]. split; [eauto|]. eexists. split; [done|].
    intros w2 Hw2. destruct (logged_close c w2) as [Hc Hh]. split; [|done].
    rw Hc Hw2 Ho. by apply delete_insert_id.
  - by apply new_err in E as [? _].
Qed.

Definition suite_env : Env := mkEnv "ci" "" "runner" 42.
Definition suite_connect : M suiteWorld (option (ending (result Cluster))) :=
  connectWithProvider (fun _ => None) (fun _ => None) (fun _ => mret None) suite_env pretty 4
    ssh_provider (newConnectOptions "suite.test" []).

Lemma ssh_provider_bounded : bounded (p_ConnectTestCluster ssh_provider).
Proof. apply bind_bounded; [apply on_snd_bounded|]. intros r. apply ret_bounded. Qed.

Lemma connectWithProvider_spec_witness :
  (if (suite_connect healthy_suite).1 is Some (Returns (Ok c)) then is_Some (lock c) else False) /\
  exists x w', suite_connect healthy_suite = (Some x, w') /\
    match x with
    | Panics => False
    | Returns (Err _) => open_conns w' = open_conns healthy_suite
    | Returns (Ok c) => exists cleanup,
        usable suite_env (newConnectOptions "suite.test" []) cleanup c /\
        releases cleanup healthy_suite w'
    end.
Proof.
  split; [vm_compute; eauto|]. unfold suite_connect.
  refine (connectWithProvider_spec (W := suiteWorld) (fun _ => None) (fun _ => None)
    (fun _ => mret None) (fun _ => ret_calm _) suite_env pretty 4 ssh_provider
    (newConnectOptions "suite.test" []) healthy_suite ssh_provider_laws ssh_provider_bounded _).
  cbn. lia.
Defined.

(** A handle without a lock. *)
Definition suite_handle : Cluster (W := suiteWorld) (RestConfig := string) :=
  mkCluster "ssh" (mkConnection (Some "https://10.0.0.1") (Some (fun _ _ => mret (mkExec "" "" 0, None)))
    (Some (unsupportedDiskManager "ssh")) (Some (mret tt))) None None.

Lemma Close_once_witness : exists err c' v',
  Close suite_handle healthy_suite = (Returns (err, c'), v') /\ closed c' = Some err.
Proof.
  destruct (Close_once (W := suiteWorld) suite_env (WithoutLock (newConnectOptions "suite.test" []))
    (mret tt) suite_handle healthy_suite healthy_suite healthy_suite) as (e & c & v & H1 & _ & H2 & _).
  - repeat split; eauto.
  - intros w2 Hw2. by split.
  - done.
  - by exists e, c, v.
Defined.

Lemma waitClusterHealthy_spec_witness : exists r w',
  waitClusterHealthy 4 60 healthy_suite = (Some r, w') /\
  (r = None -> exists w1 w2 : suiteWorld, healthy w1 w2).
Proof. apply (waitClusterHealthy_spec (W := suiteWorld) 4 60 healthy_suite). cbn. lia. Defined.

(** ** A provider that leaves the cleanup nil *)

(** [newCluster] fills in a missing cleanup only after its first two checks: for a
    connection without a rest config (or executor) and without a cleanup, the error path calls
    the nil function. *)
Theorem nil_cleanup_panics {W RestConfig : Type} `{AE : ApiErrors, CX : Ctx W, LC : LeaseCalls W}
    `{NC : Client W Node, DC : Client W Deployment}
    (NewForConfig dynamicNewForConfig : RestConfig -> option error) newClientset env fmt fuel
    (p : Provider W RestConfig) o w n d w' :
  p_ConnectTestCluster p w = (Ok (mkConnection None n d None), w') ->
  connectWithProvider NewForConfig dynamicNewForConfig newClientset env fmt fuel p o w =
    (Some Panics, w').
Proof. intros H. unfold connectWithProvider. by rw (bind_eq _ _ _ _ _ H). Qed.

Lemma nil_cleanup_panics_witness :
  connectWithProvider (fun _ => None) (fun _ => None) (fun _ => mret None) suite_env pretty 4
    (mkProvider "none" (mret (Some (Returns None))) (mret (Some None))
       (mret (Ok (mkConnection None None None None : Connection suiteWorld string))))
    (newConnectOptions "t" []) healthy_suite = (Some Panics, healthy_suite).
Proof. by apply (nil_cleanup_panics (W := suiteWorld) _ _ _ _ _ _ _ _ _ None None). Defined.
