(* ===== verification/CommanderApi.v ===== *)
(** The client of the Deckhouse Commander API ([src/internal/kubernetes/commander]:
    [client.go], [types.go], [errors.go]). The HTTP transport is the class [Http]; decoding
    and encoding of JSON, code of the standard library driven by struct tags, is the class
    [Json] of one function per type. *)
From S2P Require Import Prelude Errors Retry Kube Timeout.

Local Open Scope Z_scope.
Local Open Scope go_scope.

(** ** Errors *)
Definition cmd_sentinel (name msg : string) : error := Leaf (KSentinel name None) msg.
Definition ErrClusterNotFound := cmd_sentinel "commander.ErrClusterNotFound" "cluster not found".
Definition ErrTemplateNotFound := cmd_sentinel "commander.ErrTemplateNotFound" "template not found".
Definition ErrRevisionConflict :=
  cmd_sentinel "commander.ErrRevisionConflict" "cluster revision conflict".
Definition ErrClusterCannotConverge :=
  cmd_sentinel "commander.ErrClusterCannotConverge" "cluster cannot be converged".

(** ** Data ([types.go]) *)

(** A decoded [interface{}]. Numbers are given by the integer that [int(x)] makes of them. *)
Inductive json :=
| JNull
| JBool (b : bool)
| JNum (n : Z)
| JStr (s : string)
| JArr (l : list json)
| JObj (kvs : list (string * json)).

Definition ClusterPhase := string.
Definition ClusterPhaseDraft : ClusterPhase := "Draft".
Definition ClusterPhaseCreating : ClusterPhase := "Creating".
Definition ClusterPhaseReadyToJoin : ClusterPhase := "ReadyToJoin".
Definition ClusterPhaseJoining : ClusterPhase := "Joining".
Definition ClusterPhaseReady : ClusterPhase := "Ready".
Definition ClusterPhaseUpdating : ClusterPhase := "Updating".
Definition ClusterPhaseDeleting : ClusterPhase := "Deleting".
Definition ClusterPhaseFailed : ClusterPhase := "Failed".

(** [ClusterResponse]: the fields the code reads. *)
Record ClusterResponse := mkClusterResponse {
  ID : string;
  CurrentRevision : Z;
  Name : string;
  Status : string;
  Values : json;
  ClusterTemplateVersionID : string;
  RegistryID : string;
  RegistryMode : string;
  ClusterAgentData : json;
  ConnectionHosts : json;
  r_Phase : string;
  r_SSHHost : string;
  r_SSHUser : string;
  r_SSHPort : Z;
  Message : string
}.

(** The zero value, for an empty body. *)
Definition emptyCluster : ClusterResponse :=
  mkClusterResponse "" 0 "" "" JNull "" "" "" JNull JNull "" "" "" 0 "".

(** [Cluster] with its [ClusterStatus], as the methods fill it. *)
Record Cluster := mkCluster {
  cl_Name : string;
  cl_Phase : ClusterPhase;
  cl_Message : string;
  cl_APIEndpoint : string
}.

Record TemplateVersionResponse := mkTemplateVersion { tv_ID : string; tv_Name : string }.

Record ClusterTemplateResponse := mkTemplate {
  t_ID : string;
  t_Name : string;
  CurrentClusterTemplateVersionID : string;
  ClusterTemplateVersions : list TemplateVersionResponse;
  Versions : list TemplateVersionResponse
}.

(** [Template], a resource of the legacy methods: its name and version names. *)
Record Template := mkLegacyTemplate { lt_Name : string; lt_Versions : list string }.

Record RegistryResponse := mkRegistry { reg_ID : string; reg_Name : string }.
Record ClusterChangeRequest := mkChangeRequest { cr_ID : string; cr_ClusterID : string; cr_Status : string }.

(** A list that the API may wrap in an object: [Items] and [Data]. *)
Record Wrapped (T : Type) := mkWrapped { Items : list T; Data : list T }.
Arguments mkWrapped {T} _ _.
Arguments Items {T} _.
Arguments Data {T} _.

Record CreateClusterRequest := mkCreate {
  cq_Name : string;
  cq_TemplateVersionID : string;
  cq_RegistryID : string;
  cq_Values : gmap string json
}.

Record UpdateClusterRequest := mkUpdate {
  uq_Name : string;
  uq_TemplateVersionID : string;
  uq_RegistryID : string;
  uq_RegistryMode : string;
  uq_CurrentRevision : Z;
  uq_Values : gmap string json
}.

Record ClusterConnectionInfo := mkConnInfo {
  Kubeconfig : string;
  APIEndpoint : string;
  SSHHost : string;
  SSHUser : string;
  SSHPort : Z
}.

(** ** HTTP *)
Inductive http_method := GET | POST | PUT | DELETE.

Record request := mkRequest {
  rq_method : http_method;
  rq_url : string;
  rq_headers : list (string * string);
  rq_body : string
}.

(** [ReadErr] is what [io.ReadAll] of the body reports. *)
Record response := mkResponse { StatusCode : Z; Body : string; ReadErr : option error }.

(** [NewRequest] fails for a URL that does not parse. *)
Class Http (W : Type) := {
  NewRequest : http_method -> string -> option error;
  httpDo : request -> M W (result response)
}.

Class Json := {
  decodeCluster : string -> result ClusterResponse;
  decodeClusters : string -> result (list ClusterResponse);
  decodeWrappedClusters : string -> result (Wrapped ClusterResponse);
  decodeTemplates : string -> result (list ClusterTemplateResponse);
  decodeWrappedTemplates : string -> result (Wrapped ClusterTemplateResponse);
  decodeVersions : string -> result (list TemplateVersionResponse);
  decodeWrappedVersions : string -> result (Wrapped TemplateVersionResponse);
  decodeRegistries : string -> result (list RegistryResponse);
  decodeWrappedRegistries : string -> result (Wrapped RegistryResponse);
  decodeChangeRequests : string -> result (list ClusterChangeRequest);
  decodeWrappedChangeRequests : string -> result (Wrapped ClusterChangeRequest);
  decodeKubeconfigResp : string -> result (string * string * string);
  decodeLegacyCluster : string -> result Cluster;
  decodeLegacyTemplate : string -> result Template;
  decodeLegacyTemplates : string -> result (list Template);
  marshalLegacyCluster : Cluster -> result string;
  marshalCreate : CreateClusterRequest -> result string;
  marshalUpdate : UpdateClusterRequest -> result string
}.

(** ** The client *)
Definition AuthMethod := string.
Definition AuthMethodBearer : AuthMethod := "bearer".
Definition AuthMethodToken : AuthMethod := "token".
Definition AuthMethodXAuthToken : AuthMethod := "x-auth-token".
Definition AuthMethodCookie : AuthMethod := "cookie".
Definition AuthMethodBasic : AuthMethod := "basic".

Record Client := mkClient {
  baseURL : string;
  apiPrefix : string;
  token : string;
  authMethod : AuthMethod;
  authUser : string;
  requestTimeout : Z
}.

Record ClientOptions := mkClientOptions {
  InsecureSkipTLSVerify : bool;
  CACertPath : string;
  o_AuthMethod : AuthMethod;
  AuthUser : string;
  APIPrefix : string;
  RequestTimeout : Z
}.

(** [readCA] reads and parses the certificate file: [os.ReadFile], then
    [AppendCertsFromPEM]. *)
Definition NewClientWithOptions (readCA : string -> result bool) (base tok : string)
    (opts : ClientOptions) : result Client :=
  if String.eqb base "" then Err (Errorf "baseURL cannot be empty")
  else if String.eqb tok "" then Err (Errorf "token cannot be empty")
  else
    let ca :=
      if InsecureSkipTLSVerify opts then None
      else if String.eqb (CACertPath opts) "" then None
      else match readCA (CACertPath opts) with
           | Err err => Some (ErrorfW ("failed to read CA certificate from " +:+ CACertPath opts +:+
                                       ": ") err "")
           | Ok false => Some (Errorf ("failed to parse CA certificate from " +:+ CACertPath opts))
           | Ok true => None
           end in
    match ca with
    | Some err => Err err
    | None =>
        let am := if String.eqb (o_AuthMethod opts) "" then AuthMethodXAuthToken else o_AuthMethod opts in
        let prefix := if String.eqb (APIPrefix opts) "" then "/api/v1" else APIPrefix opts in
        let timeout := if RequestTimeout opts <=? 0 then 120 * Second else RequestTimeout opts in
        Ok (mkClient (TrimSuffix base "/") (TrimSuffix prefix "/") tok am (AuthUser opts) timeout)
    end.

Definition NewClient (readCA : string -> result bool) (base tok : string) : result Client :=
  NewClientWithOptions readCA base tok (mkClientOptions false "" "" "" "" 0).

(** ** base64 *)
Definition b64_char (n : Z) : Ascii.ascii :=
  Ascii.ascii_of_nat (Z.to_nat
    (if n <? 26 then n + 65 else if n <? 52 then n + 71 else if n <? 62 then n - 4
     else if n =? 62 then 43 else 47)).

Definition byte_of (c : Ascii.ascii) : Z := Z.of_nat (Ascii.nat_of_ascii c).

Fixpoint base64Encode (s : string) : string :=
  match s with
  | EmptyString => ""
  | String a EmptyString =>
      let n := Z.shiftl (byte_of a) 16 in
      String (b64_char (Z.shiftr n 18)) (String (b64_char (Z.land (Z.shiftr n 12) 63)) "==")
  | String a (String b EmptyString) =>
      let n := Z.lor (Z.shiftl (byte_of a) 16) (Z.shiftl (byte_of b) 8) in
      String (b64_char (Z.shiftr n 18)) (String (b64_char (Z.land (Z.shiftr n 12) 63))
        (String (b64_char (Z.land (Z.shiftr n 6) 63)) "="))
  | String a (String b (String c s')) =>
      let n := Z.lor (Z.lor (Z.shiftl (byte_of a) 16) (Z.shiftl (byte_of b) 8)) (byte_of c) in
      String (b64_char (Z.shiftr n 18)) (String (b64_char (Z.land (Z.shiftr n 12) 63))
        (String (b64_char (Z.land (Z.shiftr n 6) 63)) (String (b64_char (Z.land n 63))
          (base64Encode s'))))
  end.

Example base64_examples :
  map base64Encode ["M"; "Ma"; "Man"; "user:token"] = ["TQ=="; "TWE="; "TWFu"; "dXNlcjp0b2tlbg=="].
Proof. reflexivity. Qed.

(** The headers [setAuthHeaders] sets; a cookie is the header [Cookie]. *)
Definition authHeaders (c : Client) : list (string * string) :=
  (let am := authMethod c in
   if String.eqb am AuthMethodToken then ("Authorization", "Token " +:+ token c)
   else if String.eqb am AuthMethodXAuthToken then ("X-Auth-Token", token c)
   else if String.eqb am AuthMethodCookie then ("Cookie", "token=" +:+ token c)
   else if String.eqb am AuthMethodBasic
   then ("Authorization", "Basic " +:+ base64Encode (authUser c +:+ ":" +:+ token c))
   else ("Authorization", "Bearer " +:+ token c)) :: [("Accept", "application/json")].

Definition one_of_strings (s : string) (l : list string) : bool := existsb (String.eqb s) l.

Definition mapStatusToPhase (status : string) : ClusterPhase :=
  let s := ToLower status in
  if one_of_strings s ["in_sync"; "insync"; "ready"; "running"; "active"] then ClusterPhaseReady
  else if one_of_strings s ["new"] then ClusterPhaseDraft
  else if one_of_strings s ["creating"; "provisioning"; "bootstrapping"] then ClusterPhaseCreating
  else if one_of_strings s ["updating"; "upgrading"] then ClusterPhaseUpdating
  else if one_of_strings s ["deleting"; "terminating"] then ClusterPhaseDeleting
  else if one_of_strings s ["failed"; "error"] then ClusterPhaseFailed
  else if one_of_strings s ["joining"] then ClusterPhaseJoining
  else if one_of_strings s ["ready_to_join"; "readytojoin"] then ClusterPhaseReadyToJoin
  else status.

(** [v.(map[string]interface{})[key]] and the type assertions on it. *)
Fixpoint assoc (key : string) (kvs : list (string * json)) : option json :=
  match kvs with
  | [] => None
  | (k, v) :: kvs => if String.eqb k key then Some v else assoc key kvs
  end.
Definition json_field (key : string) (v : json) : option json :=
  match v with JObj kvs => assoc key kvs | _ => None end.
Definition json_string (v : option json) : option string :=
  match v with Some (JStr s) => Some s | _ => None end.
Definition json_number (v : option json) : option Z :=
  match v with Some (JNum n) => Some n | _ => None end.
Definition is_object (v : json) : bool := if v is JObj _ then true else false.

Definition apiEndpointOf (cr : ClusterResponse) : string :=
  default "" (json_string (json_field "api_endpoint" (ConnectionHosts cr))).

Definition toCluster (cr : ClusterResponse) : Cluster :=
  mkCluster (Name cr) (mapStatusToPhase (Status cr)) (Message cr) (apiEndpointOf cr).

(** [url.PathEscape] and [url.QueryEscape]: unreserved bytes stay, and in a path also some
    reserved ones; a space is [+] in a query. *)
Definition unreserved (c : Ascii.ascii) : bool :=
  let n := Ascii.nat_of_ascii c in
  ((97 <=? n) && (n <=? 122))%nat || ((65 <=? n) && (n <=? 90))%nat || ((48 <=? n) && (n <=? 57))%nat
  || existsb (Ascii.eqb c) ["-"; "_"; "."; "~"]%char.
Definition upper_hex (n : nat) : Ascii.ascii :=
  Ascii.ascii_of_nat (if (n <? 10)%nat then 48 + n else 55 + n)%nat.
Definition percent (c : Ascii.ascii) : string :=
  let n := Ascii.nat_of_ascii c in
  String "%" (String (upper_hex (n / 16)%nat) (String (upper_hex (n mod 16)%nat) "")).
Fixpoint escape_with (keep : Ascii.ascii -> bool) (plus : bool) (s : string) : string :=
  match s with
  | EmptyString => ""
  | String c s' =>
      (if keep c then String c "" else if plus && Ascii.eqb c " " then "+" else percent c) +:+
      escape_with keep plus s'
  end.
Definition PathEscape (s : string) : string :=
  escape_with (fun c => unreserved c || existsb (Ascii.eqb c) ["$"; "&"; "+"; "="; ":"; "@"]%char)
    false s.
Definition QueryEscape (s : string) : string := escape_with unreserved true s.

Section Client.
Context {W : Type} `{HT : Http W, JS : Json} (c : Client).

(** What every method does first: build the request, set the headers, send it. *)
Definition send (m : http_method) (path : string) (body : option string) : M W (result response) :=
  let url := baseURL c +:+ apiPrefix c +:+ path in
  match NewRequest m url with
  | Some err => mret (Err (ErrorfW "failed to create request: " err ""))
  | None =>
      let headers := authHeaders c ++
        match body with Some _ => [("Content-Type", "application/json")] | None => [] end in
      let! r := httpDo (mkRequest m url headers (default "" body)) in
      mret match r with
           | Err err => Err (ErrorfW "failed to send request: " err "")
           | Ok resp => Ok resp
           end
  end.

Definition unexpected (resp : response) : error :=
  Errorf ("unexpected status code " +:+ pretty (StatusCode resp) +:+ ": " +:+ Body resp).

(** [json.NewDecoder(resp.Body).Decode]: what is missing of a value may be due to the read. *)
Definition decode_body {T} (decode : string -> result T) (resp : response) : result T :=
  match decode (Body resp) with
  | Ok x => Ok x
  | Err err => Err (ErrorfW "failed to decode response: " (default err (ReadErr resp)) "")
  end.

Definition GetClusterByID (id : string) : M W (result ClusterResponse) :=
  let! sent := send GET ("/clusters/" +:+ id) None in
  mret match sent with
       | Err err => Err err
       | Ok resp =>
           if StatusCode resp =? 404 then Err ErrClusterNotFound
           else if negb (StatusCode resp =? 200) then Err (unexpected resp)
           else decode_body decodeCluster resp
       end.

Definition items_or_data {T} (w : Wrapped T) : list T :=
  match Items w with [] => Data w | l => l end.

(** The lists: an array, or an object with [items] or [data]; [onErr] makes the error of two
    failed attempts. *)
Definition decode_list {T} (arr : string -> result (list T)) (obj : string -> result (Wrapped T))
    (onErr : string -> error -> error -> error) (resp : response) : result (list T) :=
  if negb (StatusCode resp =? 200) then Err (unexpected resp)
  else match ReadErr resp with
       | Some err => Err (ErrorfW "failed to read response body: " err "")
       | None =>
           match arr (Body resp) with
           | Ok l => Ok l
           | Err arrayErr =>
               match obj (Body resp) with
               | Ok w => Ok (items_or_data w)
               | Err objectErr => Err (onErr (Body resp) arrayErr objectErr)
               end
           end
       end.

Definition list_error (body : string) (arrayErr objectErr : error) : error :=
  let preview := if (500 <? String.length body)%nat then str_take 500 body +:+ "..." else body in
  Errorf ("failed to decode response (array error: " +:+ Error arrayErr +:+ ", object error: " +:+
          Error objectErr +:+ ", body preview: " +:+ preview +:+ ")").

Definition decode_error (_ : string) (_ objectErr : error) : error :=
  ErrorfW "failed to decode response: " objectErr "".

Definition with_response {T} (sent : result response) (k : response -> result T) : result T :=
  match sent with Err err => Err err | Ok resp => k resp end.

Definition ListClustersAPI : M W (result (list ClusterResponse)) :=
  let! sent := send GET "/clusters" None in
  mret (with_response sent (decode_list decodeClusters decodeWrappedClusters list_error)).

Definition find_named {T} (name_of : T -> string) (name : string) (l : list T) : option T :=
  List.find (fun x => String.eqb (name_of x) name) l.

Definition GetClusterByName (name : string) : M W (result ClusterResponse) :=
  let! got := ListClustersAPI in
  mret match got with
       | Err err => Err (ErrorfW "failed to list clusters: " err "")
       | Ok clusters =>
           match find_named Name name clusters with
           | Some cl => Ok cl
           | None => Err ErrClusterNotFound
           end
       end.

Definition GetCluster (name : string) : M W (result Cluster) :=
  let! got := GetClusterByName name in
  mret match got with Err err => Err err | Ok cr => Ok (toCluster cr) end.

Definition ListClusters : M W (result (list Cluster)) :=
  let! got := ListClustersAPI in
  mret match got with Err err => Err err | Ok crs => Ok (map toCluster crs) end.

(** The create calls: 200 and 201 are success. *)
Definition create_with {T} (what : string) (body : result string) (decode : string -> result T)
    : M W (result T) :=
  match body with
  | Err err => mret (Err (ErrorfW ("failed to marshal " +:+ what +:+ ": ") err ""))
  | Ok body =>
      let! sent := send POST "/clusters" (Some body) in
      mret (with_response sent (fun resp =>
        if negb (StatusCode resp =? 201) && negb (StatusCode resp =? 200)
        then Err (unexpected resp) else decode_body decode resp))
  end.

Definition CreateCluster (cluster : Cluster) : M W (result Cluster) :=
  create_with "cluster" (marshalLegacyCluster cluster) decodeLegacyCluster.

Definition CreateClusterFromTemplate (name templateVersionID registryID : string)
    (values : gmap string json) : M W (result ClusterResponse) :=
  create_with "request" (marshalCreate (mkCreate name templateVersionID registryID values))
    decodeCluster.

Definition ListClusterTemplates : M W (result (list ClusterTemplateResponse)) :=
  let! sent := send GET "/cluster_templates" None in
  mret (with_response sent (decode_list decodeTemplates decodeWrappedTemplates decode_error)).

Definition GetClusterTemplateByName (name : string) : M W (result ClusterTemplateResponse) :=
  let! got := ListClusterTemplates in
  mret match got with
       | Err err => Err (ErrorfW "failed to list templates: " err "")
       | Ok ts => match find_named t_Name name ts with
                  | Some t => Ok t
                  | None => Err ErrTemplateNotFound
                  end
       end.

Definition GetClusterTemplateVersions (templateID : string)
    : M W (result (list TemplateVersionResponse)) :=
  let! sent := send GET ("/cluster_templates/" +:+ templateID +:+ "/versions") None in
  mret (with_response sent (decode_list decodeVersions decodeWrappedVersions decode_error)).

Definition DeleteClusterByID (id : string) : M W (option error) :=
  let! sent := send DELETE ("/clusters/" +:+ id) None in
  mret match sent with
       | Err err => Some err
       | Ok resp =>
           if negb (StatusCode resp =? 200) && negb (StatusCode resp =? 204) &&
              negb (StatusCode resp =? 202)
           then Some (unexpected resp) else None
       end.

Definition DeleteCluster (name : string) : M W (option error) :=
  let! got := GetClusterByName name in
  match got with
  | Err err => mret (Some (ErrorfW ("failed to find cluster '" +:+ name +:+ "': ") err ""))
  | Ok cluster => DeleteClusterByID (ID cluster)
  end.

(** The first non-empty string. *)
Definition first_set (l : list (option string)) : option string :=
  List.find (fun s => negb (String.eqb s "")) (omap (fun o => o) l).

Definition getKubeconfigFromClusterDetails (id : string) : M W (result string) :=
  let! got := GetClusterByID id in
  mret match got with
       | Err err => Err (ErrorfW "failed to get cluster details: " err "")
       | Ok cluster =>
           let kubeconfig v := json_string (json_field "kubeconfig" v) in
           let agent := ClusterAgentData cluster in
           match first_set [match json_field "data" agent with Some d => kubeconfig d | None => None end;
                            kubeconfig agent; kubeconfig (ConnectionHosts cluster);
                            kubeconfig (Values cluster)] with
           | Some k => Ok k
           | None => Err (Errorf ("kubeconfig not found in cluster response (cluster id: " +:+ id +:+
                       ", status: " +:+ Status cluster +:+ "). The /clusters/{id}/kubeconfig endpoint may not be available in this Commander version"))
           end
       end.

Definition GetClusterKubeconfigByID (id : string) : M W (result string) :=
  let! sent := send GET ("/clusters/" +:+ id +:+ "/kubeconfig") None in
  match sent with
  | Err err => mret (Err err)
  | Ok resp =>
      if StatusCode resp =? 404 then getKubeconfigFromClusterDetails id
      else if negb (StatusCode resp =? 200) then mret (Err (unexpected resp))
      else
        let fields :=
          if HasPrefix (TrimSpace (Body resp)) "{" then
            match decodeKubeconfigResp (Body resp) with
            | Ok (kubeconfig, data, content) => first_set [Some kubeconfig; Some data; Some content]
            | Err _ => None
            end
          else None in
        mret (Ok (default (Body resp) fields))
  end.

Definition GetClusterKubeconfig (name : string) : M W (result string) :=
  let! got := GetClusterByName name in
  match got with
  | Err err => mret (Err err)
  | Ok cluster => GetClusterKubeconfigByID (ID cluster)
  end.
End Client.

(** ** Connection data *)

(** The fields of [v] under these keys, where they have the right type, replace those of [info]. *)
Definition take_ssh (host user port : string) (v : json) (info : ClusterConnectionInfo)
    : ClusterConnectionInfo :=
  mkConnInfo (Kubeconfig info) (APIEndpoint info)
    (default (SSHHost info) (json_string (json_field host v)))
    (default (SSHUser info) (json_string (json_field user v)))
    (default (SSHPort info) (json_number (json_field port v))).

Definition first_master (v : json) : option json :=
  match json_field "masters" v with Some (JArr (m :: _)) => Some m | _ => None end.

(** The part of [GetClusterConnectionInfo] that works on the connection hosts. *)
Definition from_connection_hosts (v : json) (info : ClusterConnectionInfo) : ClusterConnectionInfo :=
  if is_object v then
    let info := mkConnInfo (Kubeconfig info)
                  (default (APIEndpoint info) (json_string (json_field "api_endpoint" v)))
                  (SSHHost info) (SSHUser info) (SSHPort info) in
    let info := match first_master v with
                | Some m => if is_object m then take_ssh "host" "user" "port" m info else info
                | None => info
                end in
    if String.eqb (SSHHost info) "" then take_ssh "ssh_host" "ssh_user" "ssh_port" v info else info
  else info.

Definition from_agent_data (v : json) (info : ClusterConnectionInfo) : ClusterConnectionInfo :=
  if String.eqb (SSHHost info) "" then
    match json_field "data" v with
    | Some d => if is_object d then take_ssh "ssh_host" "ssh_user" "ssh_port" d info else info
    | None => info
    end
  else info.

Definition from_legacy (cr : ClusterResponse) (info : ClusterConnectionInfo) : ClusterConnectionInfo :=
  if String.eqb (SSHHost info) "" && negb (String.eqb (r_SSHHost cr) "")
  then mkConnInfo (Kubeconfig info) (APIEndpoint info) (r_SSHHost cr) (r_SSHUser cr) (r_SSHPort cr)
  else info.

Definition default_port (info : ClusterConnectionInfo) : ClusterConnectionInfo :=
  if negb (String.eqb (SSHHost info) "") && (SSHPort info =? 0)
  then mkConnInfo (Kubeconfig info) (APIEndpoint info) (SSHHost info) (SSHUser info) 22
  else info.

(** The connection info of a cluster, given the outcome of the kubeconfig request. *)
Definition connectionInfo (cr : ClusterResponse) (kubeconfig : result string)
    : result ClusterConnectionInfo :=
  let info := mkConnInfo (match kubeconfig with Ok k => k | Err _ => "" end) "" "" "" 0 in
  let info := default_port (from_legacy cr (from_agent_data (ClusterAgentData cr)
                (from_connection_hosts (ConnectionHosts cr) info))) in
  match kubeconfig with
  | Err err =>
      if String.eqb (SSHHost info) ""
      then Err (ErrorfW "failed to get kubeconfig and no SSH connection info available: " err "")
      else Ok info
  | Ok _ => Ok info
  end.

Section Client2.
Context {W : Type} `{HT : Http W, JS : Json} (c : Client).

Definition GetClusterConnectionInfo (name : string) : M W (result ClusterConnectionInfo) :=
  let! got := GetClusterByName c name in
  match got with
  | Err err => mret (Err err)
  | Ok cr =>
      let! kubeconfig := GetClusterKubeconfigByID c (ID cr) in
      mret (connectionInfo cr kubeconfig)
  end.

(** One poll of [WaitForClusterReady]; it keeps the last status. *)
Definition ready_check (name : string) (lastStatus : string)
    : M W (string * option (result Cluster)) :=
  let! got := GetClusterByName c name in
  mret match got with
       | Err _ => (lastStatus, None)
       | Ok cr =>
           let phase := mapStatusToPhase (Status cr) in
           (Status cr,
            if String.eqb phase ClusterPhaseReady
            then Some (Ok (mkCluster (Name cr) phase (Message cr) ""))
            else if String.eqb phase ClusterPhaseFailed
            then Some (Err (Errorf ("cluster " +:+ name +:+ " failed (status: " +:+ Status cr +:+
                                    "): " +:+ Message cr)))
            else None)
       end.

Definition WaitForClusterReady `{CX : Ctx W} `{TM : !Timeout W} (fuel : nat) (name : string)
    : M W (option (result Cluster)) :=
  wait_ticks (ready_check name)
    (fun ce => Err (default (Errorf "") ce))
    (fun lastStatus => Err (Errorf ("timeout waiting for cluster " +:+ name +:+
       " to become ready (last status: " +:+ lastStatus +:+ ")")))
    fuel (10 * Second) "".

Definition GetTemplate (name : string) : M W (result Template) :=
  let! sent := send c GET ("/cluster_templates/" +:+ PathEscape name) None in
  mret match sent with
       | Err err => Err err
       | Ok resp =>
           if StatusCode resp =? 404 then Err ErrTemplateNotFound
           else if negb (StatusCode resp =? 200) then Err (unexpected resp)
           else decode_body decodeLegacyTemplate resp
       end.

Definition ListTemplates : M W (result (list Template)) :=
  let! sent := send c GET "/cluster_templates" None in
  mret (with_response sent (fun resp =>
    if negb (StatusCode resp =? 200) then Err (unexpected resp)
    else decode_body decodeLegacyTemplates resp)).

Definition ListRegistries : M W (result (list RegistryResponse)) :=
  let! sent := send c GET "/registries" None in
  mret (with_response sent (decode_list decodeRegistries decodeWrappedRegistries decode_error)).

(** The registry with this name, or the first one whose name contains it. *)
Definition pick_registry (name : string) (l : list RegistryResponse) : option RegistryResponse :=
  match find_named reg_Name name l with
  | Some r => Some r
  | None => List.find (fun r => Contains (reg_Name r) name) l
  end.

Definition GetRegistryByName (name : string) : M W (result RegistryResponse) :=
  let! got := ListRegistries in
  mret match got with
       | Err err => Err (ErrorfW "failed to list registries: " err "")
       | Ok l => match pick_registry name l with
                 | Some r => Ok r
                 | None => Err (Errorf ("registry '" +:+ name +:+ "' not found"))
                 end
       end.
End Client2.

(** ** Lemmas *)

(** No stage of the extraction touches the kubeconfig. *)
Lemma take_ssh_kubeconfig h u p v i : Kubeconfig (take_ssh h u p v i) = Kubeconfig i.
Proof. reflexivity. Qed.

Lemma from_connection_hosts_kubeconfig v i : Kubeconfig (from_connection_hosts v i) = Kubeconfig i.
Proof.
  unfold from_connection_hosts. destruct (is_object v); [|done].
  set (j := mkConnInfo _ _ _ _ _). set (k := match first_master v with Some _ => _ | None => _ end).
  assert (Kubeconfig k = Kubeconfig i) as <-
    by (unfold k; destruct (first_master v) as [m|]; [destruct (is_object m)|]; reflexivity).
  clearbody k. by destruct (String.eqb (SSHHost k) "").
Qed.

Lemma from_agent_data_kubeconfig v i : Kubeconfig (from_agent_data v i) = Kubeconfig i.
Proof.
  unfold from_agent_data. destruct (String.eqb (SSHHost i) ""); [|done].
  destruct (json_field "data" v) as [d|]; [by destruct (is_object d)|done].
Qed.

Lemma from_legacy_kubeconfig cr i : Kubeconfig (from_legacy cr i) = Kubeconfig i.
Proof. unfold from_legacy. by destruct (_ && _). Qed.

Lemma default_port_kubeconfig i : Kubeconfig (default_port i) = Kubeconfig i.
Proof. unfold default_port. by destruct (_ && _). Qed.

Lemma default_port_set i : SSHHost (default_port i) <> "" -> SSHPort (default_port i) <> 0.
Proof.
  unfold default_port. destruct (String.eqb (SSHHost i) "") eqn:E; cbn [negb andb].
  - by apply String.eqb_eq in E.
  - destruct (Z.eqb_spec (SSHPort i) 0); cbn; [lia|done].
Qed.

(** The connection info of a cluster always names a port when it names an SSH host, and
    when it names none its kubeconfig came from the API. *)
Theorem connectionInfo_complete cr kubeconfig info :
  connectionInfo cr kubeconfig = Ok info ->
  (SSHHost info <> "" -> SSHPort info <> 0) /\
  (SSHHost info = "" -> kubeconfig = Ok (Kubeconfig info)).
Proof.
  unfold connectionInfo. set (i := from_legacy cr _).
  assert (Hk : Kubeconfig i = match kubeconfig with Ok k => k | Err _ => "" end).
  { unfold i. rewrite from_legacy_kubeconfig from_agent_data_kubeconfig.
    by rewrite from_connection_hosts_kubeconfig. }
  clearbody i. intros H. pose proof (default_port_set i) as Hp.
  destruct kubeconfig as [k|err].
  - injection H as <-. split; [exact Hp|]. intros _. by rewrite default_port_kubeconfig Hk.
  - destruct (String.eqb (SSHHost (default_port i)) "") eqn:E; [done|]. injection H as <-.
    split; [exact Hp|]. by apply String.eqb_neq in E.
Qed.

Definition master_cluster : ClusterResponse :=
  mkClusterResponse "id-1" 3 "e2e" "in_sync" JNull "" "" "" JNull
    (JObj [("masters", JArr [JObj [("host", JStr "10.211.1.16"); ("user", JStr "ubuntu")]])])
    "" "" "" 0 "".

Lemma connectionInfo_complete_witness :
  connectionInfo master_cluster (Err (Errorf "gone")) =
    Ok (mkConnInfo "" "" "10.211.1.16" "ubuntu" 22) /\ 22 <> 0.
Proof.
  split; [reflexivity|].
  apply (connectionInfo_complete master_cluster (Err (Errorf "gone"))
           (mkConnInfo "" "" "10.211.1.16" "ubuntu" 22)); [reflexivity|done].
Defined.
