(* ===== verification/CommanderUpdate.v ===== *)
(** Updating a cluster through the Commander API ([src/internal/kubernetes/commander/update.go]):
    the read-modify-write of the template input values under optimistic locking, the approval
    of change requests, and the wait for convergence.

    [Server] is the contract of the API that optimistic locking relies on. Other clients may
    write between any two requests; [UpdateClusterValues] is shown to act as one atomic
    read-modify-write all the same. *)
From S2P Require Import Prelude Errors Retry Kube Timeout CommanderApi.

Local Open Scope Z_scope.
Local Open Scope go_scope.

Definition updateRevisionRetries : nat := 5.
Definition defaultRegistryMode : string := "Direct".
Definition waitPollInterval : Z := 10 * Second.
Definition failureStatusPolls : Z := 12.

(** ** Helpers *)
Definition isFailureStatus (status : string) : bool := Contains (ToLower status) "fail".

Definition messageOrUnset (message : string) : string :=
  if String.eqb (TrimSpace message) "" then "<none reported>" else message.

Definition registryModeOrDefault (mode : string) : string :=
  if String.eqb mode "" then defaultRegistryMode else mode.

(** A map type of Go: the copy has the entries of an object, one per key. *)
Definition valuesToMap (v : json) : gmap string json :=
  match v with JObj kvs => list_to_map kvs | _ => ∅ end.

(** The [%v] verb on a decoded value; a map prints in the order of its keys. *)
Definition key_le (p q : string * string) : Prop := String.le p.1 q.1.
#[export] Instance key_le_dec p q : Decision (key_le p q) := _.
Fixpoint fmt_value (v : json) : string :=
  match v with
  | JNull => "<nil>"
  | JBool b => if b then "true" else "false"
  | JNum n => pretty n
  | JStr s => s
  | JArr l => fmt_strings (map fmt_value l)
  | JObj kvs =>
      "map[" +:+ Join (map (fun p => p.1 +:+ ":" +:+ p.2)
                        (merge_sort key_le (map (fun p => (p.1, fmt_value p.2)) kvs))) " " +:+ "]"
  end.

Section Update.
Context {W : Type} `{HT : Http W, JS : Json} (c : Client).

Definition UpdateCluster (id : string) (req : UpdateClusterRequest) : M W (result ClusterResponse) :=
  match marshalUpdate req with
  | Err err => mret (Err (ErrorfW "failed to marshal update request: " err ""))
  | Ok body =>
      let! sent := send c PUT ("/clusters/" +:+ id) (Some body) in
      mret match sent with
           | Err err => Err err
           | Ok resp =>
               if StatusCode resp =? 409
               then Err (ErrorfW "" ErrRevisionConflict (": " +:+ TrimSpace (Body resp)))
               else if negb (StatusCode resp =? 200) && negb (StatusCode resp =? 201)
               then Err (unexpected resp)
               else if String.eqb (Body resp) "" then Ok emptyCluster
               else match decodeCluster (Body resp) with
                    | Ok updated => Ok updated
                    | Err err => Err (ErrorfW "failed to decode response: " err "")
                    end
           end
  end.

Definition update_request (cluster : ClusterResponse) (values : gmap string json)
    : UpdateClusterRequest :=
  mkUpdate (Name cluster) (ClusterTemplateVersionID cluster) (RegistryID cluster)
    (registryModeOrDefault (RegistryMode cluster)) (CurrentRevision cluster) values.

(** The loop of [UpdateClusterValues] over the attempts that are left. *)
Fixpoint update_attempts (n : nat) (name : string)
    (mutate : gmap string json -> gmap string json) (lastErr : option error)
    : M W (result ClusterResponse) :=
  match n with
  | O => mret (Err (ErrorfWn ("update cluster " +:+ quote name +:+ " values: exhausted " +:+
                      pretty updateRevisionRetries +:+ " revision-conflict retries: ") lastErr ""))
  | S n =>
      let! byName := GetClusterByName c name in
      match byName with
      | Err err => mret (Err (ErrorfW ("get cluster " +:+ quote name +:+ ": ") err ""))
      | Ok byName =>
          let! cluster := GetClusterByID c (ID byName) in
          match cluster with
          | Err err => mret (Err (ErrorfW ("get cluster " +:+ quote name +:+ " by id " +:+
                                           quote (ID byName) +:+ ": ") err ""))
          | Ok cluster =>
              let values := mutate (valuesToMap (Values cluster)) in
              let! updated := UpdateCluster (ID cluster) (update_request cluster values) in
              match updated with
              | Ok updated => mret (Ok updated)
              | Err err =>
                  if errors_Is err "commander.ErrRevisionConflict"
                  then update_attempts n name mutate (Some err)
                  else mret (Err err)
              end
          end
      end
  end.

Definition UpdateClusterValues (name : string) (mutate : gmap string json -> gmap string json)
    : M W (result ClusterResponse) :=
  update_attempts updateRevisionRetries name mutate None.

Definition ListClusterChangeRequests (clusterID : string)
    : M W (result (list ClusterChangeRequest)) :=
  let! sent := send c GET ("/cluster_change_requests?cluster_id=" +:+ QueryEscape clusterID) None in
  mret (with_response sent (fun resp =>
    if negb (StatusCode resp =? 200) then Err (unexpected resp)
    else match decodeChangeRequests (Body resp) with
         | Ok l => Ok l
         | Err _ =>
             match decodeWrappedChangeRequests (Body resp) with
             | Ok w => Ok (items_or_data w)
             | Err _ => Err (Errorf ("failed to decode change requests response: " +:+ Body resp))
             end
         end)).

Definition ApproveClusterChangeRequest (id : string) : M W (option error) :=
  let! sent := send c POST ("/cluster_change_requests/" +:+ PathEscape id +:+ "/approve") None in
  mret match sent with
       | Err err => Some err
       | Ok resp =>
           let code := StatusCode resp in
           let other := Some (Errorf ("approve change request " +:+ id +:+ ": unexpected status " +:+
                                pretty code +:+ ": " +:+ Body resp)) in
           if (200 <=? code) && (code <? 300) then None
           else if code =? 409 then
             let lower := ToLower (Body resp) in
             if Contains lower "already_approved" || Contains lower "already_completed" then None
             else if Contains lower "cluster_cannot_be_converged"
             then Some (ErrorfW "" ErrClusterCannotConverge (": change request " +:+ id +:+ ": " +:+
                                  TrimSpace (Body resp)))
             else other
           else other
       end.

(** The approvals of one poll: only [ErrClusterCannotConverge] ends the wait. *)
Fixpoint approve_all (crs : list ClusterChangeRequest) : M W (option error) :=
  match crs with
  | [] => mret None
  | cr :: crs =>
      let! err := ApproveClusterChangeRequest (cr_ID cr) in
      match err with
      | Some e => if errors_Is e "commander.ErrClusterCannotConverge" then mret (Some e)
                  else approve_all crs
      | None => approve_all crs
      end
  end.
End Update.

(** ** The wait for convergence *)

(** The variables of the loop. *)
Record conv := mkConv {
  clusterID : string;
  lastStatus : string;
  lastMessage : string;
  statuses : list string;
  failingPolls : Z
}.

Section Converge.
Variables (name key : string) (value : json).

(** What one poll makes of the cluster it read. *)
Definition observe (cluster : ClusterResponse) (s : conv) : conv * option (option error) :=
  let st := Status cluster in
  let changed := negb (String.eqb st (lastStatus s)) in
  let seen := if changed then statuses s ++ [st] else statuses s in
  let failing := if changed then 0 else failingPolls s in
  let id := if String.eqb (clusterID s) "" then ID cluster else clusterID s in
  let phase := mapStatusToPhase st in
  let s' := mkConv id st (Message cluster) seen in
  if String.eqb phase ClusterPhaseReady then (s' failing, Some None)
  else if String.eqb phase ClusterPhaseFailed
  then (s' failing, Some (Some (Errorf ("cluster " +:+ quote name +:+ " failed to converge (status " +:+
                                 quote st +:+ "): " +:+ Message cluster))))
  else if isFailureStatus st then
    let failing := failing + 1 in
    if failureStatusPolls <=? failing
    then (s' failing, Some (Some (Errorf ("cluster " +:+ quote name +:+ " stayed in " +:+ quote st +:+
            " for " +:+ fmt_duration (failureStatusPolls * waitPollInterval) +:+ " after setting " +:+
            quote key +:+ "=" +:+ fmt_value value +:+ ": " +:+ messageOrUnset (Message cluster) +:+
            " (statuses seen: " +:+ Join seen " -> " +:+ ")"))))
    else (s' failing, None)
  else (s' failing, None).

Definition converge_timeout (s : conv) : error :=
  Errorf ("timeout waiting for cluster " +:+ quote name +:+ " to converge after setting " +:+
    quote key +:+ "=" +:+ fmt_value value +:+ " (last status: " +:+ lastStatus s +:+
    ", message: " +:+ messageOrUnset (lastMessage s) +:+ ", statuses seen: " +:+
    Join (statuses s) " -> " +:+ ")").

Context {W : Type} `{HT : Http W, JS : Json} (c : Client).

Definition converge_check (s : conv) : M W (conv * option (option error)) :=
  let! fatal :=
    if String.eqb (clusterID s) "" then mret None
    else let! crs := ListClusterChangeRequests c (clusterID s) in
         match crs with
         | Ok crs => approve_all c crs
         | Err _ => mret None
         end in
  match fatal with
  | Some err => mret (s, Some (Some err))
  | None =>
      let! got := GetClusterByName c name in
      match got with
      | Ok cluster => mret (observe cluster s)
      | Err _ => mret (s, None)
      end
  end.

(** The inner option is the error returned; [None] outside is lack of fuel. *)
Definition SetClusterInputValueAndWait `{CX : Ctx W} `{TM : !Timeout W} (fuel : nat)
    : M W (option (option error)) :=
  let! set := UpdateClusterValues c name (fun values => <[key := value]> values) in
  match set with
  | Err err => mret (Some (Some (ErrorfW ("set " +:+ quote key +:+ "=" +:+ fmt_value value +:+
                                  " on cluster " +:+ quote name +:+ ": ") err "")))
  | Ok updated =>
      wait_now converge_check (fun ce => ce) (fun s => Some (converge_timeout s))
        fuel waitPollInterval (mkConv (ID updated) "" "" [] 0)
  end.
End Converge.

(** ** The contract of the API *)

(** An ID that is one path segment. *)
Definition plain (id : string) : Prop := Contains id "/" = false.

Definition cluster_url (c : Client) (path : string) : string := baseURL c +:+ apiPrefix c +:+ path.

Notation clusters := (gmap string ClusterResponse).

(** What a wholesale replace by [req] makes of [old]. *)
Definition applied (req : UpdateClusterRequest) (old new : ClusterResponse) : Prop :=
  Name new = uq_Name req /\ ClusterTemplateVersionID new = uq_TemplateVersionID req /\
  RegistryID new = uq_RegistryID req /\ RegistryMode new = uq_RegistryMode req /\
  valuesToMap (Values new) = uq_Values req /\ CurrentRevision old < CurrentRevision new.

(** The settings that a revision covers; the status of a cluster changes without one. *)
Definition settings (cr : ClusterResponse) :=
  (Name cr, ClusterTemplateVersionID cr, RegistryID cr, RegistryMode cr, Values cr).

(** The sentinel errors of this package are not made by the standard library. *)
Definition foreign (e : error) : Prop :=
  errors_Is e "commander.ErrRevisionConflict" = false /\
  errors_Is e "commander.ErrClusterNotFound" = false.

Lemma foreign_wrap pre e post : foreign e -> foreign (ErrorfW pre e post).
Proof. unfold foreign. by rewrite !errors_Is_wrap. Qed.

(** [db] is what the server stores and [others] what happens to it without our writes: other
    clients and Commander itself. Whoever changes the settings of a cluster changes its
    revision. A request may be served at any moment between its start and its end, so each
    law names the state [s] it was served in. *)
Class Server (W : Type) `{HT : Http W, JS : Json} (c : Client) := {
  db : W -> clusters;
  others : clusters -> clusters -> Prop;
  others_pre :: PreOrder others;
  others_revision s s' id a b :
    others s s' -> s !! id = Some a -> s' !! id = Some b ->
    CurrentRevision a = CurrentRevision b -> settings a = settings b;
  http_others rq w r w' :
    httpDo rq w = (r, w') ->
    rq_method rq = GET \/ HasPrefix (rq_url rq) (cluster_url c "/cluster_change_requests/") = true ->
    others (db w) (db w');
  list_clusters headers w resp w' l :
    httpDo (mkRequest GET (cluster_url c "/clusters") headers "") w = (Ok resp, w') ->
    decode_list decodeClusters decodeWrappedClusters list_error resp = Ok l ->
    exists s, others (db w) s /\ others s (db w') /\
      forall cr, In cr l -> plain (ID cr) /\
        exists cr', s !! ID cr = Some cr' /\ Name cr' = Name cr /\ Status cr' = Status cr;
  list_complete headers w resp w' l :
    httpDo (mkRequest GET (cluster_url c "/clusters") headers "") w = (Ok resp, w') ->
    decode_list decodeClusters decodeWrappedClusters list_error resp = Ok l ->
    exists s, others (db w) s /\ others s (db w') /\
      forall id cr, s !! id = Some cr -> Name cr ∈ map Name l;
  get_cluster id headers w resp w' cr :
    plain id ->
    httpDo (mkRequest GET (cluster_url c ("/clusters/" +:+ id)) headers "") w = (Ok resp, w') ->
    StatusCode resp = 200 -> decodeCluster (Body resp) = Ok cr ->
    ID cr = id /\ exists s, others (db w) s /\ others s (db w') /\ s !! id = Some cr;
  put_cluster id req body headers w r w' :
    plain id -> marshalUpdate req = Ok body ->
    httpDo (mkRequest PUT (cluster_url c ("/clusters/" +:+ id)) headers body) w = (r, w') ->
    let accepted := exists s old new,
      others (db w) s /\ s !! id = Some old /\ CurrentRevision old = uq_CurrentRevision req /\
      applied req old new /\ others (<[id := new]> s) (db w') in
    match r with
    | Ok resp =>
        if StatusCode resp =? 409 then others (db w) (db w')
        else if (StatusCode resp =? 200) || (StatusCode resp =? 201) then accepted
        else others (db w) (db w') \/ accepted
    | Err _ => others (db w) (db w') \/ accepted
    end;
  http_foreign rq w e w' : httpDo rq w = (Err e, w') -> foreign e;
  read_foreign rq w resp w' e : httpDo rq w = (Ok resp, w') -> ReadErr resp = Some e -> foreign e;
  decode_foreign body e : decodeCluster body = Err e -> foreign e;
  request_foreign m url e : NewRequest m url = Some e -> foreign e;
  marshal_foreign req e : marshalUpdate req = Err e -> foreign e
}.

(** The specification of [UpdateClusterValues]: one atomic read-modify-write of a cluster that
    has had the name; the state [s] it reads is the state it writes. *)
Inductive rmw `{Server} (name : string) (mutate : gmap string json -> gmap string json)
    (d d' : clusters) : Prop :=
| rmw_intro id s0 named s old new :
    others d s0 -> s0 !! id = Some named -> Name named = name -> others s0 s ->
    s !! id = Some old ->
    Name new = Name old ->
    ClusterTemplateVersionID new = ClusterTemplateVersionID old ->
    RegistryID new = RegistryID old ->
    RegistryMode new = registryModeOrDefault (RegistryMode old) ->
    valuesToMap (Values new) = mutate (valuesToMap (Values old)) ->
    CurrentRevision old < CurrentRevision new ->
    others (<[id := new]> s) d' ->
    rmw name mutate d d'.

Section Atomic.
Context {W : Type} `{SV : Server W}.

Lemma rmw_before name mutate d1 d2 d3 :
  others d1 d2 -> rmw name mutate d2 d3 -> rmw name mutate d1 d3.
Proof.
  intros H12 [id s0 named s old new H1 ?????????? H2].
  by apply (rmw_intro _ _ _ _ id s0 named s old new); [etrans|..].
Qed.

Lemma rmw_after name mutate d1 d2 d3 :
  rmw name mutate d1 d2 -> others d2 d3 -> rmw name mutate d1 d3.
Proof.
  intros [id s0 named s old new H1 ?????????? H2] H23.
  by apply (rmw_intro _ _ _ _ id s0 named s old new); try done; etrans.
Qed.

(** [send] is one request, or none. *)
Lemma send_inv m path body w r w' :
  send c m path body w = (r, w') ->
  (exists e, r = Err e /\ foreign e) /\ w' = w \/
  exists headers r', httpDo (mkRequest m (cluster_url c path) headers (default "" body)) w = (r', w') /\
    match r' with
    | Ok resp => r = Ok resp
    | Err e => exists e', r = Err e' /\ foreign e'
    end.
Proof.
  unfold send. destruct (NewRequest _ _) as [e|] eqn:En; intros Hs.
  - injection Hs as <- <-. left. split; [|done]. eexists. split; [done|].
    by eapply foreign_wrap, request_foreign.
  - mstep Hs as [r' w1] E. injection Hs as <- <-. right. do 2 eexists. split; [exact E|].
    destruct r' as [resp|e]; [done|]. eexists. split; [done|].
    by eapply foreign_wrap, http_foreign.
Qed.

Lemma send_others m path body w r w' :
  send c m path body w = (r, w') ->
  m = GET \/ HasPrefix (cluster_url c path) (cluster_url c "/cluster_change_requests/") = true ->
  others (db w) (db w').
Proof.
  intros [[_ ->]|(? & ? & E & _)]%send_inv Hm; [done|]. by eapply http_others.
Qed.

Lemma find_named_In {T} (f : T -> string) name l x :
  find_named f name l = Some x -> In x l /\ f x = name.
Proof.
  intros H. apply List.find_some in H as [Hin Heq]. split; [done|]. by apply String.eqb_eq.
Qed.

Lemma find_named_None {T} (f : T -> string) name l :
  find_named f name l = None -> name ∈ map f l -> False.
Proof.
  intros H (x & -> & Hx)%list_elem_of_fmap. apply list_elem_of_In, (List.find_none _ _ H) in Hx.
  by rewrite String.eqb_refl in Hx.
Qed.

(** A listing that fails does not report that the cluster is missing. *)
Lemma list_foreign w sent w' e :
  send c GET "/clusters" None w = (sent, w') ->
  with_response sent (decode_list decodeClusters decodeWrappedClusters list_error) = Err e -> foreign e.
Proof.
  intros [[[e' [-> He]] _]|(hs & r' & E & Hr)]%send_inv H; [by injection H as <-|].
  destruct r' as [resp|e']; [subst sent|destruct Hr as (e2 & -> & He); by injection H as <-].
  cbn in H. unfold decode_list in H. destruct (StatusCode resp =? 200); [|by injection H as <-].
  destruct (ReadErr resp) as [re|] eqn:Er.
  - injection H as <-. by eapply foreign_wrap, read_foreign.
  - destruct (decodeClusters _); [done|]. destruct (decodeWrappedClusters _); [done|].
    by injection H as <-.
Qed.

(** A cluster found by its name was stored under its ID at that moment. *)
Lemma GetClusterByName_spec name w r w' :
  GetClusterByName c name w = (r, w') ->
  others (db w) (db w') /\
  match r with
  | Ok cr => plain (ID cr) /\ Name cr = name /\
      exists s cr', others (db w) s /\ others s (db w') /\ s !! ID cr = Some cr' /\
        Name cr' = name /\ Status cr' = Status cr
  | Err e => errors_Is e "commander.ErrClusterNotFound" = true ->
      exists s, others (db w) s /\ others s (db w') /\ forall id cr, s !! id = Some cr -> Name cr <> name
  end.
Proof.
  unfold GetClusterByName, ListClustersAPI. intros H. mstep H as [got w1] E.
  mstep E as [sent w2] E1. injection E as Eg <-. injection H as <- <-.
  split; [eapply send_others; [exact E1|by left]|].
  destruct got as [l|e].
  2: { intros He. rewrite errors_Is_wrap in He. exfalso.
       enough (Hf : foreign e) by (by rewrite (proj2 Hf) in He). eapply list_foreign; [exact E1|exact Eg]. }
  destruct (find_named _ _ _) as [cr|] eqn:Ef.
  2: { intros _. destruct sent as [resp|]; [|done]. cbn in Eg.
       apply send_inv in E1 as [[[? [? _]] _]|(? & r' & E1 & Hr)]; [done|].
       destruct r' as [resp'|]; [|by destruct Hr as (? & ? & _)]. injection Hr as <-.
       destruct (list_complete _ _ _ _ _ E1 Eg) as (s & H1 & H2 & Hl).
       exists s. split_and!; [done..|]. intros id cr Hs Hn. apply Hl in Hs as Hin.
       rewrite Hn in Hin. by eapply find_named_None. }
  apply find_named_In in Ef as [Hin Hn].
  destruct sent as [resp|]; [|done]. cbn in Eg.
  apply send_inv in E1 as [[[? [? _]] _]|(? & r' & E1 & Hr)]; [done|].
  destruct r' as [resp'|]; [|by destruct Hr as (? & ? & _)]. injection Hr as <-.
  destruct (list_clusters _ _ _ _ _ E1 Eg) as (s & H1 & H2 & Hl).
  destruct (Hl _ Hin) as (Hp & cr' & Hs & Hn' & Hst).
  split_and!; [done..|]. exists s, cr'. split_and!; try done. congruence.
Qed.

Lemma GetClusterByID_spec id w r w' :
  plain id -> GetClusterByID c id w = (r, w') ->
  others (db w) (db w') /\
  match r with
  | Ok cr => ID cr = id /\ exists s, others (db w) s /\ others s (db w') /\ s !! id = Some cr
  | Err _ => True
  end.
Proof.
  unfold GetClusterByID. intros Hp H. mstep H as [sent w1] E. injection H as <- <-.
  split; [eapply send_others; [exact E|by left]|].
  destruct sent as [resp|]; [|done].
  destruct (StatusCode resp =? 404); [done|].
  destruct (Z.eqb_spec (StatusCode resp) 200) as [H200|]; [|done].
  unfold decode_body. cbn [negb]. destruct (decodeCluster _) as [cr|] eqn:Ed; [|done].
  apply send_inv in E as [[[? [? _]] _]|(? & r' & E & Hr)]; [done|].
  destruct r' as [resp'|]; [|by destruct Hr as (? & ? & _)]. injection Hr as <-.
  by eapply get_cluster.
Qed.

(** One write, applied to the state of the revision it names, or none. *)
Definition written (id : string) (req : UpdateClusterRequest) (d d' : clusters) : Prop :=
  exists s old new, others d s /\ s !! id = Some old /\
    CurrentRevision old = uq_CurrentRevision req /\ applied req old new /\
    others (<[id := new]> s) d'.

Lemma UpdateCluster_spec id req w r w' :
  plain id -> UpdateCluster c id req w = (r, w') ->
  match r with
  | Ok _ => written id req (db w) (db w')
  | Err e => if errors_Is e "commander.ErrRevisionConflict" then others (db w) (db w')
             else others (db w) (db w') \/ written id req (db w) (db w')
  end.
Proof.
  unfold UpdateCluster. intros Hp H. destruct (marshalUpdate req) as [body|e] eqn:Em.
  2: { injection H as <- <-. rewrite (proj1 (foreign_wrap _ _ _ (marshal_foreign _ _ Em))). by left. }
  mstep H as [sent w1] E. injection H as <- <-.
  apply send_inv in E as [[[e [-> He]] ->]|(hs & r' & E & Hr)].
  { rewrite (proj1 He). by left. }
  pose proof (put_cluster _ _ _ _ _ _ _ Hp Em E) as Hput. fold (written id req (db w) (db w1)) in Hput.
  destruct r' as [resp|e]; [|destruct Hr as (e' & -> & He); rewrite (proj1 He); exact Hput].
  subst sent. destruct (StatusCode resp =? 409); [exact Hput|].
  destruct (StatusCode resp =? 200), (StatusCode resp =? 201); cbn in *.
  1-3: destruct (String.eqb (Body resp) ""); [exact Hput|];
    destruct (decodeCluster (Body resp)) as [|e] eqn:Ed; [exact Hput|];
    rewrite (proj1 (foreign_wrap _ _ _ (decode_foreign _ _ Ed))); by right.
  exact Hput.
Qed.

(** A write that names the revision read is a write of the settings read. *)
Lemma written_rmw name mutate d s0 s1 named cr d1 d' :
  others d s0 -> s0 !! ID cr = Some named -> Name named = name -> others s0 s1 ->
  s1 !! ID cr = Some cr -> others s1 d1 ->
  written (ID cr) (update_request cr (mutate (valuesToMap (Values cr)))) d1 d' ->
  rmw name mutate d d'.
Proof.
  intros H0 Hn Hname H01 H1 H1d (s & old & new & Hs & Hold & Hrev & Happ & Hd').
  assert (Hs1 : others s1 s) by (by transitivity d1).
  assert (Hset : settings cr = settings old) by (by eapply others_revision).
  destruct Happ as (A1 & A2 & A3 & A4 & A5 & A6). cbn in *.
  injection Hset as B1 B2 B3 B4 B5. rewrite -> B1, B2, B3, B4, B5 in *.
  apply (rmw_intro _ _ _ _ (ID cr) s0 named s old new); try done; by transitivity s1.
Qed.

Lemma update_attempts_spec n name mutate lastErr w r w' :
  (forall e, lastErr = Some e -> errors_Is e "commander.ErrRevisionConflict" = true) ->
  update_attempts c n name mutate lastErr w = (r, w') ->
  match r with
  | Ok _ => rmw name mutate (db w) (db w')
  | Err e => if errors_Is e "commander.ErrRevisionConflict" then others (db w) (db w')
             else others (db w) (db w') \/ rmw name mutate (db w) (db w')
  end.
Proof.
  revert lastErr w. induction n as [|n IH]; intros lastErr w Hlast H; cbn [update_attempts] in H.
  { injection H as <- <-. destruct (errors_Is _ _); [done|by left]. }
  mstep H as [byName w1] E1. apply GetClusterByName_spec in E1 as [Ho1 E1].
  destruct byName as [byName|e].
  2: { injection H as <- <-. destruct (errors_Is _ _); [done|by left]. }
  destruct E1 as (Hp & Hn & s0 & named & H0a & H0b & H0 & Hname & _).
  mstep H as [cluster w2] E2. apply GetClusterByID_spec in E2 as [Ho2 E2]; [|done].
  destruct cluster as [cr|e].
  2: { assert (others (db w) (db w2)) by (by transitivity (db w1)).
       injection H as <- <-. destruct (errors_Is _ _); [done|by left]. }
  destruct E2 as (Hid & s1 & H1a & H1b & H1).
  mstep H as [updated w3] E3. apply UpdateCluster_spec in E3; [|congruence].
  rewrite <- Hid in *.
  assert (Hw : written (ID cr) (update_request cr (mutate (valuesToMap (Values cr)))) (db w2) (db w3) ->
               rmw name mutate (db w) (db w3)).
  { apply (written_rmw _ _ _ s0 s1 named); try done. by transitivity (db w1). }
  assert (Hbefore : others (db w) (db w2)) by (by transitivity (db w1)).
  destruct updated as [updated|e].
  - injection H as <- <-. by apply Hw.
  - destruct (errors_Is e _) eqn:He.
    + assert (Hb3 : others (db w) (db w3)) by (by transitivity (db w2)).
      apply IH in H; [|naive_solver]. destruct r as [|e'].
      * by eapply rmw_before.
      * destruct (errors_Is e' _); [by transitivity (db w3)|].
        destruct H; [left; by transitivity (db w3)|right].
        by eapply rmw_before.
    + injection H as <- <-. rewrite He. destruct E3; [left; by transitivity (db w2)|right; by apply Hw].
Qed.

(** C3: [UpdateClusterValues] refines an atomic read-modify-write. Whatever other clients write
    between its requests, a success means that [mutate] was applied once, to the values that
    the cluster had at that very moment, and that nothing else of it changed but a registry
    mode that was unset; an error that reports the revision conflict means that nothing was
    written; any other error leaves at most that one write. *)
Theorem UpdateClusterValues_atomic name mutate w r w' :
  UpdateClusterValues c name mutate w = (r, w') ->
  match r with
  | Ok _ => rmw name mutate (db w) (db w')
  | Err e => if errors_Is e "commander.ErrRevisionConflict" then others (db w) (db w')
             else others (db w) (db w') \/ rmw name mutate (db w) (db w')
  end.
Proof. by apply update_attempts_spec. Qed.
End Atomic.

(** ** The wait *)

(** Waiting is not writing, and the timer of the wait goes on during requests. *)
Class ServerTime (W : Type) `{SV : Server W} `{CX : Ctx W, TM : !Timeout W, TL : !TimeoutLaws W}
    : Prop := {
  wake_others z w ev w' : wake z w = (ev, w') -> others (db w) (db w');
  ctx_others w ce w' : ctxErr w = (ce, w') -> others (db w) (db w');
  budget_http rq w : (budget (httpDo rq w).2 <= budget w)%nat
}.

Section Wait.
Context {W : Type} `{SV : Server W} `{CX : Ctx W, TM : !Timeout W, TL : !TimeoutLaws W}.
Context {ST : ServerTime W}.

(** Computations that do not prolong the wait. *)
Definition timely {A} (m : M W A) : Prop := forall w, (budget (m w).2 <= budget w)%nat.

Lemma timely_ret {A} (a : A) : timely (mret (M := M W) a).
Proof. intros w. reflexivity. Qed.

Lemma timely_bind {A B} (m : M W A) (k : A -> M W B) :
  timely m -> (forall a, timely (k a)) -> timely (mbind k m).
Proof.
  intros Hm Hk w. unfold mbind, M_bind. specialize (Hm w). destruct (m w) as [a w1].
  specialize (Hk a w1). cbn in *. lia.
Qed.

Lemma timely_send m path body : timely (send c m path body).
Proof.
  unfold send. destruct (NewRequest _ _); [apply timely_ret|].
  apply timely_bind; [intros w; apply budget_http|intros; apply timely_ret].
Qed.

Ltac timely := repeat first [apply timely_ret | apply timely_send | apply timely_bind; [|intros ?]].

Lemma timely_GetClusterByName name : timely (GetClusterByName c name).
Proof. unfold GetClusterByName, ListClustersAPI. timely. Qed.

Lemma timely_update_attempts n name mutate e : timely (update_attempts c n name mutate e).
Proof.
  revert e. induction n as [|n IH]; intros e; cbn [update_attempts]; [apply timely_ret|].
  apply timely_bind; [apply timely_GetClusterByName|intros [byName|]; [|timely]].
  apply timely_bind; [unfold GetClusterByID; timely|intros [cr|]; [|timely]].
  apply timely_bind; [unfold UpdateCluster; destruct (marshalUpdate _); timely|intros [|]; [timely|]].
  destruct (errors_Is _ _); [apply IH|timely].
Qed.

Lemma timely_approve_all crs : timely (approve_all c crs).
Proof.
  induction crs as [|cr crs IH]; cbn [approve_all]; [timely|].
  apply timely_bind; [unfold ApproveClusterChangeRequest; timely|intros [e|]; [|done]].
  by destruct (errors_Is _ _); [timely|].
Qed.

Lemma timely_converge_check name key value s : timely (converge_check name key value c s).
Proof.
  unfold converge_check. apply timely_bind.
  - destruct (String.eqb _ _); [timely|].
    apply timely_bind; [unfold ListClusterChangeRequests; timely|].
    intros [crs|]; [apply timely_approve_all|timely].
  - intros [|]; [timely|]. apply timely_bind; [apply timely_GetClusterByName|].
    intros [|]; timely.
Qed.

Lemma HasPrefix_same a b d : HasPrefix (a +:+ b) (a +:+ d) = HasPrefix b d.
Proof.
  induction a as [|x a IH]; [done|]. rewrite !str_app_cons. cbn. by rewrite Ascii.eqb_refl.
Qed.

Lemma HasPrefix_app a b : HasPrefix (a +:+ b) a = true.
Proof. apply HasPrefix_spec. eauto. Qed.

Lemma approve_all_others crs w r w' : approve_all c crs w = (r, w') -> others (db w) (db w').
Proof.
  revert w. induction crs as [|cr crs IH]; intros w H; cbn [approve_all] in H.
  { by injection H as <- <-. }
  mstep H as [e w1] E. unfold ApproveClusterChangeRequest in E. mstep E as [sent w2] E1.
  injection E as _ <-.
  assert (H1 : others (db w) (db w2)).
  { eapply send_others; [exact E1|]. right. unfold cluster_url. rewrite 2!HasPrefix_same.
    apply HasPrefix_app. }
  destruct e as [e|]; [destruct (errors_Is e _); [by injection H as <- <-|]|]; apply IH in H; by transitivity (db w2).
Qed.

(** A poll writes nothing, and decides for success only on a Ready status of that name. *)
Lemma converge_check_spec name key value s w s' r w' :
  converge_check name key value c s w = ((s', r), w') ->
  others (db w) (db w') /\
  (r = Some None -> exists d id cr, others (db w) d /\ d !! id = Some cr /\ Name cr = name /\
     mapStatusToPhase (Status cr) = ClusterPhaseReady /\ others d (db w')).
Proof.
  unfold converge_check. intros H. mstep H as [fatal w1] E1.
  assert (H1 : others (db w) (db w1)).
  { destruct (String.eqb _ _); [by injection E1 as <- <-|].
    mstep E1 as [crs w2] E2. unfold ListClusterChangeRequests in E2. mstep E2 as [sent w3] E3.
    injection E2 as <- <-. apply send_others in E3; [|by left].
    destruct (with_response _ _) as [l|]; [|by injection E1 as <- <-].
    apply approve_all_others in E1. by transitivity (db w3). }
  destruct fatal as [err|]; [by injection H as <- <- <-|].
  mstep H as [got w2] E2. apply GetClusterByName_spec in E2 as [H2 E2].
  assert (H02 : others (db w) (db w2)) by (by transitivity (db w1)).
  destruct got as [cr|]; [|by injection H as <- <- <-].
  destruct E2 as (_ & Hn & d & cr' & Ha & Hb & Hd & Hn' & Hst).
  injection H as Hobs <-. split; [done|]. intros ->.
  exists d, (ID cr), cr'. split_and!; try done; [by transitivity (db w1)|].
  rewrite Hst. unfold observe in Hobs. revert Hobs.
  destruct (String.eqb (mapStatusToPhase (Status cr)) ClusterPhaseReady) eqn:Er;
    [intros _; by apply String.eqb_eq|].
  destruct (String.eqb _ ClusterPhaseFailed); [done|].
  destruct (isFailureStatus _); [|done]. by destruct (_ <=? _).
Qed.

(** C30: [SetClusterInputValueAndWait] returns, and when it returns nil the value was written by
    one atomic update and, after that, a cluster of this name was in a Ready status; when it
    returns an error, that update is all that it may have written. *)
Theorem SetClusterInputValueAndWait_spec name key value fuel w :
  (budget w < fuel)%nat ->
  exists r w', SetClusterInputValueAndWait name key value c fuel w = (Some r, w') /\
    match r with
    | None => exists d d2 id cr,
        rmw name (fun values => <[key := value]> values) (db w) d /\
        others d d2 /\ d2 !! id = Some cr /\ Name cr = name /\
        mapStatusToPhase (Status cr) = ClusterPhaseReady /\ others d2 (db w')
    | Some _ => others (db w) (db w') \/
        rmw name (fun values => <[key := value]> values) (db w) (db w')
    end.
Proof.
  intros Hf. set (mu := fun values => <[key := value]> values).
  unfold SetClusterInputValueAndWait, mbind, M_bind. fold mu.
  pose proof (timely_update_attempts updateRevisionRetries name mu None w) as Hb.
  fold (UpdateClusterValues c name mu) in Hb.
  destruct (UpdateClusterValues c name mu w) as [set w1] eqn:Eu. cbn in Hb.
  apply (update_attempts_spec _ _ _ None) in Eu; [|done]. destruct set as [updated|e].
  2: { do 2 eexists. split; [done|]. cbn. destruct (errors_Is e _); [by left|done]. }
  destruct (wait_now_total (converge_check name key value c) (fun ce => ce)
    (fun s => Some (converge_timeout name key value s)) fuel waitPollInterval
    (mkConv (ID updated) "" "" [] 0) w1) as (r & w' & Hw);
    [intros; apply timely_converge_check|lia|].
  exists r, w'. split; [exact Hw|].
  destruct (wait_now_concluded (converge_check name key value c) (fun ce => ce)
    (fun s => Some (converge_timeout name key value s)) (fun _ v => others (db w1) (db v))
    fuel waitPollInterval (mkConv (ID updated) "" "" [] 0) w1 r w')
    as [s v s' HJ Hc|s ce z v0 v HJ Hd Hc ->|s HJ ->]; try done.
  - intros s v s' v' HJ [Hc _]%converge_check_spec. by transitivity (db v).
  - intros s z v ev v' HJ Hc%wake_others. by transitivity (db v).
  - apply converge_check_spec in Hc as [Hc Hr]. destruct r as [e|].
    + right. eapply rmw_after; [exact Eu|]. by transitivity (db v).
    + destruct (Hr eq_refl) as (d & id & cr & Ha & Hd & Hn & Hs & Hb').
      exists (db w1), d, id, cr. split_and!; try done. by transitivity (db v).
  - apply wake_done in Hd as (e & w'' & Hd). rewrite Hd in Hc. injection Hc as <- <-.
    right. eapply rmw_after; [exact Eu|]. apply ctx_others in Hd. by transitivity (db v).
  - right. by eapply rmw_after.
Qed.
End Wait.

(** ** The grace of a failure status *)

(** The readings of consecutive polls, up to the one that decides. *)
Fixpoint polls (name key : string) (value : json) (l : list ClusterResponse) (s : conv)
    : conv * option (option error) :=
  match l with
  | [] => (s, None)
  | cr :: l => match observe name key value cr s with
               | (s', None) => polls name key value l s'
               | d => d
               end
  end.

(** The length of the run of [st] that ends [l]. *)
Fixpoint prefix_run (st : string) (l : list string) : Z :=
  match l with
  | x :: l => if String.eqb x st then 1 + prefix_run st l else 0
  | [] => 0
  end.
Definition trailing (st : string) (l : list string) : Z := prefix_run st (reverse l).

Section Grace.
Variables (name key : string) (value : json) (id : string).

Lemma polls_snoc l cr s s' r :
  polls name key value (l ++ [cr]) s = (s', r) ->
  (exists s1, polls name key value l s = (s1, None) /\ observe name key value cr s1 = (s', r)) \/
  exists r', r = Some r' /\ polls name key value l s = (s', Some r').
Proof.
  revert s. induction l as [|x l IH]; intros s; cbn [app polls].
  - intros H. left. exists s. split; [done|]. by destruct (observe _ _ _ cr s) as [? [|]].
  - destruct (observe name key value x s) as [s1 [r1|]]; [|apply IH].
    intros H. injection H as <- <-. right. eauto.
Qed.

Lemma observe_undecided cr s s' :
  observe name key value cr s = (s', None) ->
  lastStatus s' = Status cr /\
  failingPolls s' = (if String.eqb (Status cr) (lastStatus s) then failingPolls s else 0) +
                    (if isFailureStatus (Status cr) then 1 else 0).
Proof.
  unfold observe. destruct (String.eqb (mapStatusToPhase _) ClusterPhaseReady); [done|].
  destruct (String.eqb (mapStatusToPhase _) ClusterPhaseFailed); [done|].
  set (f := if negb _ then 0 else failingPolls s).
  assert (Hf : f = if String.eqb (Status cr) (lastStatus s) then failingPolls s else 0)
    by (unfold f; by destruct (String.eqb _ _)).
  rewrite <- Hf. clearbody f.
  destruct (isFailureStatus _); [destruct (_ <=? _); [done|]|];
    intros H; injection H as <-; cbn; split; done || lia.
Qed.

Lemma trailing_snoc st l x :
  trailing st (l ++ [x]) = if String.eqb x st then 1 + trailing st l else 0.
Proof. unfold trailing. by rewrite reverse_snoc. Qed.

Lemma polls_undecided l s :
  polls name key value l (mkConv id "" "" [] 0) = (s, None) ->
  failingPolls s = (if isFailureStatus (lastStatus s)
                    then trailing (lastStatus s) (map Status l) else 0) /\
  (forall st, st <> lastStatus s -> trailing st (map Status l) = 0).
Proof.
  revert s. induction l as [|cr l IH] using rev_ind; intros s.
  { intros H. by injection H as <-. }
  intros [(s1 & H1 & H2)|(? & ? & _)]%polls_snoc; [|done].
  destruct (IH _ H1) as [IHf IHo]. apply observe_undecided in H2 as [Hst Hf].
  rewrite -> Hst, Hf. rewrite map_app. cbn [map]. split.
  - rewrite trailing_snoc String.eqb_refl.
    destruct (String.eqb_spec (Status cr) (lastStatus s1)) as [E|Hne].
    + rewrite IHf E. destruct (isFailureStatus (lastStatus s1)); lia.
    + rewrite (IHo _ Hne). destruct (isFailureStatus (Status cr)); lia.
  - intros st Hne. rewrite trailing_snoc. destruct (String.eqb_spec (Status cr) st); done.
Qed.

(** While the wait is undecided, a poll that reads a status outside the Ready and Failed
    phases ends it exactly when that status names a failure and it is the twelfth reading of
    it in a row. *)
Theorem gives_up_on_twelfth l s cr :
  polls name key value l (mkConv id "" "" [] 0) = (s, None) ->
  mapStatusToPhase (Status cr) <> ClusterPhaseReady ->
  mapStatusToPhase (Status cr) <> ClusterPhaseFailed ->
  (observe name key value cr s).2 <> None <->
  isFailureStatus (Status cr) = true /\ 12 <= trailing (Status cr) (map Status (l ++ [cr])).
Proof.
  intros [Hf Ho]%polls_undecided Hr Hfl.
  rewrite map_app. cbn [map]. rewrite trailing_snoc String.eqb_refl.
  unfold observe. apply String.eqb_neq in Hr as ->. apply String.eqb_neq in Hfl as ->.
  set (f := if negb _ then 0 else failingPolls s).
  destruct (isFailureStatus (Status cr)) eqn:Hfail; [|cbn; naive_solver].
  assert (Hfe : f = trailing (Status cr) (map Status l)).
  { unfold f. destruct (String.eqb_spec (Status cr) (lastStatus s)) as [E|Hne]; cbn.
    - by rewrite Hf -E Hfail.
    - by rewrite Ho. }
  rewrite Hfe. unfold failureStatusPolls.
  destruct (Z.leb_spec 12 (trailing (Status cr) (map Status l) + 1)); cbn.
  - split; [|done]. intros _. split; [done|lia].
  - split; [done|]. lia.
Qed.
End Grace.

Definition failing_cluster : ClusterResponse :=
  mkClusterResponse "id-1" 3 "e2e" "synchronization_failure" JNull "" "" "" JNull JNull "" "" "" 0 "boom".

Lemma gives_up_on_twelfth_witness :
  (observe "e2e" "masterCount" (JStr "3") failing_cluster
     (polls "e2e" "masterCount" (JStr "3") (repeat failing_cluster 11) (mkConv "id-1" "" "" [] 0)).1).2
  <> None.
Proof.
  apply (gives_up_on_twelfth "e2e" "masterCount" (JStr "3") "id-1" (repeat failing_cluster 11)
           _ failing_cluster); [reflexivity|done|done|].
  split; [reflexivity|vm_compute; congruence].
Defined.

Example the_report_of_a_failure :
  (observe "e2e" "masterCount" (JStr "3") failing_cluster
     (polls "e2e" "masterCount" (JStr "3") (repeat failing_cluster 11) (mkConv "id-1" "" "" [] 0)).1).2
  = Some (Some (Errorf ("cluster " +:+ quote "e2e" +:+ " stayed in " +:+
      quote "synchronization_failure" +:+ " for 2m0s after setting " +:+ quote "masterCount" +:+
      "=3: boom (statuses seen: synchronization_failure)"))).
Proof. vm_compute. reflexivity. Qed.

(** ** A server that keeps the contract

    One cluster; its history is the string of the values that [masterCount] was given, one
    character each, and its revision the length of that string. Another client writes the
    next pending value just before each of our updates. *)
Record tape := mkTape { hist : string; pending : list Ascii.ascii; ticks : nat }.

Definition tape_client : Client :=
  mkClient "http://c" "/api/v1" "token" AuthMethodXAuthToken "" (120 * Second).

Definition tape_values (h : string) : json :=
  match str_last h with
  | Some ch => JObj [("masterCount", JStr (String ch ""))]
  | None => JObj []
  end.

Definition tape_cluster (h : string) : ClusterResponse :=
  mkClusterResponse "c1" (Z.of_nat (String.length h)) "e2e" "in_sync" (tape_values h) "v1" "r1"
    "Managed" JNull JNull "" "" "" 0 "".

Definition tape_db (h : string) : clusters := {[ "c1" := tape_cluster h ]}.

Fixpoint ones (n : nat) : string := match n with O => "" | S n => String "1" (ones n) end.

Definition tape_marshal (req : UpdateClusterRequest) : result string :=
  match map_to_list (uq_Values req) with
  | [(k, JStr (String ch EmptyString))] =>
      if String.eqb k "masterCount" && String.eqb (uq_Name req) "e2e" &&
         String.eqb (uq_TemplateVersionID req) "v1" && String.eqb (uq_RegistryID req) "r1" &&
         String.eqb (uq_RegistryMode req) "Managed" && (0 <=? uq_CurrentRevision req)
      then Ok (String ch (ones (Z.to_nat (uq_CurrentRevision req))))
      else Err (Errorf "unsupported")
  | _ => Err (Errorf "unsupported")
  end.

#[export] Instance tape_json : Json := {|
  decodeCluster := fun s => Ok (tape_cluster s);
  decodeClusters := fun s => match s with
    | String "[" h => Ok [tape_cluster h]
    | _ => Err (Errorf "not an array")
    end;
  decodeWrappedClusters := fun _ => Err (Errorf "not an object");
  decodeTemplates := fun _ => Ok [];
  decodeWrappedTemplates := fun _ => Ok (mkWrapped [] []);
  decodeVersions := fun _ => Ok [];
  decodeWrappedVersions := fun _ => Ok (mkWrapped [] []);
  decodeRegistries := fun _ => Ok [];
  decodeWrappedRegistries := fun _ => Ok (mkWrapped [] []);
  decodeChangeRequests := fun _ => Ok [];
  decodeWrappedChangeRequests := fun _ => Ok (mkWrapped [] []);
  decodeKubeconfigResp := fun _ => Err (Errorf "none");
  decodeLegacyCluster := fun _ => Err (Errorf "none");
  decodeLegacyTemplate := fun _ => Err (Errorf "none");
  decodeLegacyTemplates := fun _ => Err (Errorf "none");
  marshalLegacyCluster := fun _ => Err (Errorf "none");
  marshalCreate := fun _ => Err (Errorf "none");
  marshalUpdate := tape_marshal
|}.

Definition tape_other (w : tape) : tape :=
  match pending w with
  | ch :: p => mkTape (hist w +:+ String ch "") p (ticks w)
  | [] => w
  end.

Definition tape_put (body : string) (w : tape) : result response * tape :=
  match body with
  | String ch rest =>
      if (String.length rest =? String.length (hist w))%nat
      then let h := hist w +:+ String ch "" in
           (Ok (mkResponse 200 h None), mkTape h (pending w) (ticks w))
      else (Ok (mkResponse 409 "stale" None), w)
  | EmptyString => (Ok (mkResponse 409 "empty" None), w)
  end.

#[export] Instance tape_http : Http tape := {|
  NewRequest := fun _ _ => None;
  httpDo := fun rq w =>
    let url := rq_url rq in
    match rq_method rq with
    | GET =>
        if String.eqb url (cluster_url tape_client "/clusters")
        then (Ok (mkResponse 200 (String "[" (hist w)) None), w)
        else if String.eqb url (cluster_url tape_client "/clusters/c1")
        then (Ok (mkResponse 200 (hist w) None), w)
        else (Ok (mkResponse 404 "" None), w)
    | PUT =>
        if String.eqb url (cluster_url tape_client "/clusters/c1")
        then tape_put (rq_body rq) (tape_other w)
        else (Ok (mkResponse 404 "" None), w)
    | _ => (Ok (mkResponse 404 "" None), w)
    end
|}.

Definition tape_others (s s' : clusters) : Prop :=
  s = s' \/ exists h h', s = tape_db h /\ s' = tape_db h' /\ (String.length h < String.length h')%nat.

Lemma tape_db_length h h' : tape_db h = tape_db h' -> String.length h = String.length h'.
Proof.
  intros H. apply (f_equal (fun m => m !! "c1")) in H. unfold tape_db in H.
  rewrite -> !lookup_singleton_eq in H. injection H as H. lia.
Qed.

Lemma tape_others_pre : PreOrder tape_others.
Proof.
  split; [by left|]. intros s1 s2 s3 [->|(h1 & h2 & -> & -> & H12)]; [done|].
  intros [<-|(h2' & h3 & E & -> & H23)]; right; [eauto 6|].
  apply tape_db_length in E. exists h1, h3. split_and!; [done..|lia].
Qed.

Lemma tape_other_others w : tape_others (tape_db (hist w)) (tape_db (hist (tape_other w))).
Proof.
  unfold tape_other. destruct (pending w) as [|ch p]; [by left|]. right. do 2 eexists.
  split_and!; [done..|]. cbn. rewrite str_length_app. cbn. lia.
Qed.

Lemma ones_length n : String.length (ones n) = n.
Proof. induction n; cbn; congruence. Qed.

Lemma tape_marshal_inv req body :
  tape_marshal req = Ok body -> exists ch, body = String ch (ones (Z.to_nat (uq_CurrentRevision req))) /\
    0 <= uq_CurrentRevision req /\
    uq_Name req = "e2e" /\ uq_TemplateVersionID req = "v1" /\ uq_RegistryID req = "r1" /\
    uq_RegistryMode req = "Managed" /\
    uq_Values req = valuesToMap (JObj [("masterCount", JStr (String ch ""))]).
Proof.
  unfold tape_marshal. destruct (map_to_list (uq_Values req)) as [|[k v] [|]] eqn:E; try done;
    destruct v as [| | |s| |]; try done; destruct s as [|ch []]; try done.
  destruct (_ && _) eqn:Eb; [|done]. intros [= <-].
  apply andb_true_iff in Eb as [Eb Hrev%Z.leb_le].
  repeat match goal with H : _ && _ = true |- _ => apply andb_true_iff in H as [H ?%String.eqb_eq] end.
  apply String.eqb_eq in Eb as ->. exists ch. split_and!; try done.
  rewrite <- (list_to_map_to_list (uq_Values req)), E. reflexivity.
Qed.

Lemma tape_values_snoc h ch :
  tape_values (h +:+ String ch "") = JObj [("masterCount", JStr (String ch ""))].
Proof. unfold tape_values. by rewrite str_last_app. Qed.

Lemma tape_url_inv id :
  cluster_url tape_client ("/clusters/" +:+ id) = cluster_url tape_client "/clusters/c1" -> id = "c1".
Proof. cbn. intros H. repeat (injection H as H). exact H. Qed.

#[export] Instance tape_server : Server tape tape_client.
Proof.
  refine {| db := fun w => tape_db (hist w); others := tape_others |}.
  - apply tape_others_pre.
  - intros s s' id a b [->|(h & h' & -> & -> & Hlt)]; [naive_solver|].
    unfold tape_db. rewrite !lookup_singleton_Some. intros [<- <-] [_ <-] Hr.
    cbn in Hr. apply Nat2Z.inj in Hr. lia.
  - intros rq w r w' H [Hm|Hu]; left; cbn in H.
    + rewrite Hm in H. by destruct (String.eqb _ _); [|destruct (String.eqb _ _)]; injection H as _ <-.
    + destruct (String.eqb_spec (rq_url rq) (cluster_url tape_client "/clusters/c1")) as [E|_].
      { by rewrite E in Hu. }
      by destruct (rq_method rq); [destruct (String.eqb _ _)| | |]; injection H as _ <-.
  - intros hs w resp w' l H Hl. cbn in H. injection H as <- <-. cbn in Hl. injection Hl as <-.
    exists (tape_db (hist w)). split; [by left|]. split; [by left|].
    intros cr [<-|[]]. split; [done|]. exists (tape_cluster (hist w)).
    by rewrite lookup_singleton_eq.
  - intros hs w resp w' l H Hl. cbn in H. injection H as <- <-. cbn in Hl. injection Hl as <-.
    exists (tape_db (hist w)). split; [by left|]. split; [by left|].
    intros id cr. unfold tape_db. rewrite lookup_singleton_Some. intros [_ <-]. by left.
  - intros id hs w resp w' cr _ H H200 Hd. cbn [httpDo tape_http rq_method rq_url] in H.
    destruct (String.eqb_spec (cluster_url tape_client ("/clusters/" +:+ id))
                (cluster_url tape_client "/clusters")) as [E|_]; [done|].
    destruct (String.eqb_spec (cluster_url tape_client ("/clusters/" +:+ id))
                (cluster_url tape_client "/clusters/c1")) as [->%tape_url_inv|_];
      injection H as <- <-; [|done].
    injection Hd as <-. split; [done|]. exists (tape_db (hist w)).
    split; [by left|]. split; [by left|]. by rewrite lookup_singleton_eq.
  - intros id req body hs w r w' _ Hm H. cbn [httpDo tape_http rq_method rq_url rq_body] in H.
    destruct (String.eqb_spec (cluster_url tape_client ("/clusters/" +:+ id))
                (cluster_url tape_client "/clusters/c1")) as [->%tape_url_inv|_].
    2: { injection H as <- <-. by left; left. }
    pose proof (tape_other_others w) as Ho. set (w1 := tape_other w) in *.
    apply tape_marshal_inv in Hm as (ch & -> & Hrev & Hn & Ht & Hr & Hmode & Hv).
    cbn [tape_put] in H. rewrite ones_length in H.
    destruct (Nat.eqb_spec (Z.to_nat (uq_CurrentRevision req)) (String.length (hist w1))) as [El|_];
      injection H as <- <-; cbn; [|exact Ho].
    exists (tape_db (hist w1)), (tape_cluster (hist w1)), (tape_cluster (hist w1 +:+ String ch "")).
    split; [done|]. unfold tape_db at 1. rewrite lookup_singleton_eq. split; [done|].
    split; [cbn; lia|]. split.
    + unfold applied. cbn [Name tape_cluster ClusterTemplateVersionID RegistryID RegistryMode
        Values CurrentRevision]. rewrite tape_values_snoc str_length_app. cbn [String.length].
      split_and!; try done. lia.
    + left. unfold tape_db. by rewrite insert_singleton_eq.
  - intros rq w e w' H. cbn in H. unfold tape_put in H. by repeat case_match.
  - intros rq w resp w' e H He. cbn in H. unfold tape_put in H.
    by repeat case_match; simplify_eq.
  - done.
  - done.
  - intros req e H. cbn in H. unfold tape_marshal in H. by repeat case_match; simplify_eq.
Defined.

#[export] Instance tape_ctx : Ctx tape := {|
  ctxErr := gets (fun w => match ticks w with O => Some context_Canceled | S _ => None end);
  timerFires := fun _ => gets (fun w => match ticks w with O => false | S _ => true end)
|}.

#[export] Instance tape_timeout : Timeout tape := {|
  wake := fun _ w => match ticks w with
    | O => (WokenDone, w)
    | S n => (WokenTick, mkTape (hist w) (pending w) n)
    end
|}.

#[export] Instance tape_timeout_laws : TimeoutLaws tape.
Proof.
  refine {| budget := ticks |}; cbn.
  - intros z w w'. destruct (ticks w) eqn:E; [|done]. intros [= <-]. unfold gets. rw E. eauto.
  - intros w. lia.
  - intros z w. destruct (ticks w) eqn:E; cbn; lia.
  - intros z w w'. destruct (ticks w) eqn:E; [done|]. intros [= <-]. cbn. lia.
Defined.

#[export] Instance tape_time : ServerTime tape (c := tape_client).
Proof.
  split.
  - intros z w ev w' H. cbn in H. left. by destruct (ticks w); injection H as _ <-.
  - intros w ce w' H. cbn in H. left. by injection H as _ <-.
  - intros rq w. change (ticks (httpDo rq w).2 <= ticks w)%nat. cbn.
    destruct (rq_method rq); repeat case_match; cbn; try lia.
    unfold tape_put, tape_other. by repeat case_match; cbn; lia.
Qed.

(** Three other writes arrive first: the fourth attempt is the one that gets through. *)
Definition busy_tape : tape := mkTape "1" ["1"; "1"; "3"]%char 2.

Definition set_three : gmap string json -> gmap string json :=
  fun values => <["masterCount" := JStr "3"]> values.

Example busy_update :
  UpdateClusterValues tape_client "e2e" set_three busy_tape =
  (Ok (tape_cluster "11133"), mkTape "11133" [] 2).
Proof. vm_compute. reflexivity. Qed.

(** Five other writes are too many. *)
Example too_busy_update :
  match UpdateClusterValues tape_client "e2e" set_three
          (mkTape "1" ["1"; "1"; "3"; "1"; "1"]%char 2) with
  | (Err e, w') => errors_Is e "commander.ErrRevisionConflict" && String.eqb (hist w') "111311"
  | _ => false
  end = true.
Proof. vm_compute. reflexivity. Qed.

Lemma UpdateClusterValues_atomic_witness :
  rmw "e2e" set_three (tape_db "1") (tape_db "11133").
Proof.
  exact (UpdateClusterValues_atomic (c := tape_client) "e2e" set_three busy_tape
           (Ok (tape_cluster "11133")) (mkTape "11133" [] 2) busy_update).
Defined.

Lemma SetClusterInputValueAndWait_spec_witness :
  exists r w', SetClusterInputValueAndWait "e2e" "masterCount" (JStr "3") tape_client 3 busy_tape =
    (Some r, w') /\ r = None.
Proof.
  destruct (SetClusterInputValueAndWait_spec "e2e" "masterCount" (JStr "3") 3 busy_tape)
    as (r & w' & H & _); [change (2 < 3)%nat; lia|].
  exists r, w'. split; [exact H|]. vm_compute in H. injection H as <- _. reflexivity.
Defined.
