(* ===== verification/Commander.v ===== *)
(** The provider of clusters made by Deckhouse Commander ([src/internal/provisioning/commander]:
    [config.go], [provider.go], [connect.go], [connect_test_cluster.go], [node_executor.go],
    [modules.go], [mastercount.go]). It uses the API client of [CommanderApi] and
    [CommanderUpdate], the SSH clients of [Remote], the kubeconfig access of [Connect] and the
    module enablement of the test kit; [CommanderSafety] has the theorems. *)
From S2P Require Import CommanderApi CommanderUpdate Prelude Errors Retry Kube Timeout Config DvpConfig ModuleGraph Deckhouse Modules Provision Remote Connect Deps Install Join DvpProvider E2E.

Local Open Scope Z_scope.
Local Open Scope go_scope.

(** ** Settings ([config.go]) *)
Definition apiServerRemotePort : Z := 6445.

Definition ErrSSHKeySource : error := sentinel "commander.ErrSSHKeySource"
  "exactly one of E2E_COMMANDER_SSH_PRIVATE_KEY_PATH or E2E_COMMANDER_SSH_PRIVATE_KEY must be set".
Definition ErrJumpHostIncomplete : error := sentinel "commander.ErrJumpHostIncomplete"
  "jump host requires both E2E_COMMANDER_SSH_JUMP_HOST and E2E_COMMANDER_SSH_JUMP_USER".
Definition ErrJumpKeySource : error := sentinel "commander.ErrJumpKeySource"
  "at most one of E2E_COMMANDER_SSH_JUMP_PRIVATE_KEY_PATH or E2E_COMMANDER_SSH_JUMP_PRIVATE_KEY may be set (defaults to the master key)".

Record Config := mkCommander {
  URL : string;
  Token : string;
  ClusterName : string;
  TemplateName : string;
  TemplateVersion : string;
  RegistryName : string;
  InputValues : string;
  c_AuthMethod : string;
  c_AuthUser : string;
  c_APIPrefix : string;
  c_InsecureSkipTLSVerify : bool;
  c_CACertPath : string;
  WaitTimeout : Z;
  c_SSHUser : string;
  c_SSHPassphrase : string;
  c_SSHKeyPath : string;
  c_SSHKeyContent : string;
  c_SSHJumpHost : string;
  c_SSHJumpUser : string;
  c_SSHJumpPassphrase : string;
  c_SSHJumpKeyPath : string;
  c_SSHJumpKeyContent : string
}.

Record Credentials := mkCredentials { c_SSHKey : string; c_JumpKey : string }.

Definition JumpHostConfigured (c : Config) : bool := is_set (c_SSHJumpHost c) && is_set (c_SSHJumpUser c).

Definition jumpHostMentioned (c : Config) : bool :=
  is_set (c_SSHJumpHost c) || is_set (c_SSHJumpUser c) || is_set (c_SSHJumpKeyPath c) ||
  is_set (c_SSHJumpKeyContent c).

Definition Validate (c : Config) : option error :=
  joinErrors
    (when (negb (exactlyOne (is_set (c_SSHKeyPath c)) (is_set (c_SSHKeyContent c)))) ErrSSHKeySource ++
     when (jumpHostMentioned c && negb (JumpHostConfigured c)) ErrJumpHostIncomplete ++
     when (is_set (c_SSHJumpKeyPath c) && is_set (c_SSHJumpKeyContent c)) ErrJumpKeySource).

(** [parse] is [env.ParseAsWithOptions] for the tags of [Config]. *)
Definition LoadConfig (parse : gmap string string -> result Config) (environ : gmap string string)
    : result Config :=
  match parse environ with
  | Err err => Err err
  | Ok cfg => match Validate cfg with Some err => Err err | None => Ok cfg end
  end.

Section Resolve.
(** [os.Getenv], [os.UserHomeDir] and [os.ReadFile]. *)
Context (getenv : string -> string) (home : result string) (readFile : string -> result string).

(** The package has its own copies of [expandUserPath] and [resolveBytes], with the text of
    those in [dvp/config.go]. *)
Definition expandUserPath : string -> result string := DvpConfig.expandUserPath getenv home.
Definition resolveBytes : string -> string -> result string :=
  DvpConfig.resolveBytes getenv home readFile.

Definition Resolve (c : Config) : result Credentials :=
  match resolveBytes (c_SSHKeyPath c) (c_SSHKeyContent c) with
  | Err err => Err (ErrorfW "resolving ssh private key: " err "")
  | Ok sshKey =>
      if JumpHostConfigured c then
        if is_set (c_SSHJumpKeyPath c) || is_set (c_SSHJumpKeyContent c) then
          match resolveBytes (c_SSHJumpKeyPath c) (c_SSHJumpKeyContent c) with
          | Err err => Err (ErrorfW "resolving jump ssh private key: " err "")
          | Ok jumpKey => Ok (mkCredentials sshKey jumpKey)
          end
        else Ok (mkCredentials sshKey sshKey)
      else Ok (mkCredentials sshKey "")
  end.
End Resolve.

(** ** The API client ([provider.go]) *)
Definition newAPIClient (readCA : string -> result bool) (conf : Config) : result CommanderApi.Client :=
  let authMethod := if String.eqb (c_AuthMethod conf) "" then AuthMethodXAuthToken
                    else c_AuthMethod conf in
  match NewClientWithOptions readCA (URL conf) (Token conf)
          (mkClientOptions (c_InsecureSkipTLSVerify conf) (c_CACertPath conf) authMethod
             (c_AuthUser conf) (c_APIPrefix conf) 0) with
  | Err err => Err (ErrorfW "create commander client: " err "")
  | Ok client => Ok client
  end.

Record commanderProvider := mkCommanderProvider {
  cp_cfg : ClusterConfig;
  cp_conf : Config;
  cp_client : CommanderApi.Client
}.

(** [parsed] is what [env.Parse] made of the environment. *)
Definition NewCommanderProvider (readCA : string -> result bool) (parsed : result Config)
    (cfg : ClusterConfig) : result commanderProvider :=
  match parsed with
  | Err err => Err (ErrorfW "parse commander config: " err "")
  | Ok conf =>
      match newAPIClient readCA conf with
      | Err err => Err err
      | Ok client => Ok (mkCommanderProvider cfg conf client)
      end
  end.

(** ** Creating and removing the cluster *)

Definition resolveTemplateVersionID (template : ClusterTemplateResponse) (requested : string)
    : result string :=
  let versions := match ClusterTemplateVersions template with
                  | [] => Versions template
                  | versions => versions
                  end in
  if is_set requested then
    match List.find (fun v => String.eqb (tv_Name v) requested || String.eqb (tv_ID v) requested)
            versions with
    | Some v => Ok (tv_ID v)
    | None => Err (Errorf ("template version " +:+ quote requested +:+ " not found; available: " +:+
                fmt_strings (map (fun v => tv_Name v +:+ " (" +:+ tv_ID v +:+ ")") versions)))
    end
  else if is_set (CurrentClusterTemplateVersionID template)
  then Ok (CurrentClusterTemplateVersionID template)
  else match versions with
       | v :: _ => Ok (tv_ID v)
       | [] => Err (Errorf ("template " +:+ quote (t_Name template) +:+ " has no versions available"))
       end.

(** [unmarshalValues] is [json.Unmarshal] into a map; the JSON [null] makes it nil, which is
    [None], and writing to a nil map panics. *)
Definition buildValues (unmarshalValues : string -> result (option (gmap string json))) (conf : Config)
    (name : string) : ending (result (gmap string json)) :=
  let parsed := if is_set (InputValues conf) then unmarshalValues (InputValues conf)
                else Ok (Some ∅) in
  match parsed with
  | Err err => Returns (Err (ErrorfW "parse E2E_COMMANDER_VALUES as JSON: " err ""))
  | Ok None => Panics
  | Ok (Some values) => Returns (Ok (<["prefix" := JStr name]> values))
  end.

Section API.
Context {W : Type} `{HT : Http W, JS : Json, CX : Ctx W, TM : !Timeout W} (fuel : nat).
Context (unmarshalValues : string -> result (option (gmap string json))) (p : commanderProvider).
Notation conf := (cp_conf p).
Notation client := (cp_client p).

Definition resolve_registry : M W (result string) :=
  if is_set (RegistryName conf) then
    let! registry := GetRegistryByName client (RegistryName conf) in
    mret match registry with
         | Err regErr => Err (ErrorfW ("resolve registry " +:+ quote (RegistryName conf) +:+ ": ") regErr "")
         | Ok registry => Ok (reg_ID registry)
         end
  else mret (Ok "").

(** The phase of the created cluster, which is all the caller looks at. *)
Definition createCluster (name : string) : M W (ending (result ClusterPhase)) :=
  if negb (is_set (TemplateName conf))
  then mret (Returns (Err (Errorf ("E2E_COMMANDER_TEMPLATE_NAME is required to create cluster " +:+
                             quote name))))
  else
    let! template := GetClusterTemplateByName client (TemplateName conf) in
    match template with
    | Err err => mret (Returns (Err (ErrorfW ("resolve template " +:+ quote (TemplateName conf) +:+
                                       ": ") err "")))
    | Ok template =>
        match resolveTemplateVersionID template (TemplateVersion conf) with
        | Err err => mret (Returns (Err err))
        | Ok versionID =>
            let! registryID := resolve_registry in
            match registryID with
            | Err err => mret (Returns (Err err))
            | Ok registryID =>
                match buildValues unmarshalValues conf name with
                | Panics => mret Panics
                | Returns (Err err) => mret (Returns (Err err))
                | Returns (Ok values) =>
                    let! resp := CreateClusterFromTemplate client name versionID registryID values in
                    mret (Returns match resp with
                                  | Err err => Err err
                                  | Ok resp => Ok (if String.eqb (CommanderApi.Status resp) "" then r_Phase resp
                                                   else CommanderApi.Status resp)
                                  end)
                end
            end
        end
    end.

(** What [Bootstrap] does before it enables the modules: an existing cluster is used as it
    is, a missing one is created, and the wait ends with a Ready one. *)
Definition ensureReady : M W (option (ending (option error))) :=
  let name := ClusterName conf in
  let! found := GetCluster client name in
  let! phase :=
    match found with
    | Ok cluster => mret (Returns (Ok (cl_Phase cluster)))
    | Err err =>
        if errors_Is err "commander.ErrClusterNotFound" then
          let! created := createCluster name in
          mret match created with
               | Returns (Err err) => Returns (Err (ErrorfW ("create cluster " +:+ quote name +:+ ": ") err ""))
               | r => r
               end
        else mret (Returns (Err (ErrorfW ("look up cluster " +:+ quote name +:+ " in Commander: ") err "")))
    end in
  match phase with
  | Panics => mret (Some Panics)
  | Returns (Err err) => mret (Some (Returns (Some err)))
  | Returns (Ok phase) =>
      if String.eqb phase ClusterPhaseReady then mret (Some (Returns None))
      else
        let! waited := WaitForClusterReady client fuel name in
        mret match waited with
             | None => None
             | Some (Err err) => Some (Returns (Some (ErrorfW ("wait for cluster " +:+ quote name +:+
                                                 " to become Ready: ") err "")))
             | Some (Ok _) => Some (Returns None)
             end
  end.

Definition Remove : M W (option error) :=
  let name := ClusterName conf in
  let! err := DeleteCluster client name in
  mret match err with
       | None => None
       | Some e => if errors_Is e "commander.ErrClusterNotFound" then None
                   else Some (ErrorfW ("delete cluster " +:+ quote name +:+ ": ") e "")
       end.
End API.

(** [SetMasterCount]; [parsed] is what [env.Parse] made of the environment. *)
Definition masterCountInputKey : string := "masterCount".
Definition SetMasterCount {W : Type} `{HT : Http W, JS : Json, CX : Ctx W, TM : !Timeout W} (fuel : nat)
    (readCA : string -> result bool) (parsed : result Config) (masterCount : Z)
    : M W (option (option error)) :=
  if negb (masterCount =? 1) && negb (masterCount =? 3)
  then mret (Some (Some (Errorf ("masterCount must be 1 or 3, got " +:+ pretty masterCount))))
  else match parsed with
  | Err err => mret (Some (Some (ErrorfW "parse commander config: " err "")))
  | Ok conf =>
      if String.eqb (ClusterName conf) ""
      then mret (Some (Some (Errorf "E2E_COMMANDER_CLUSTER_NAME is required to set the master count")))
      else match newAPIClient readCA conf with
           | Err err => mret (Some (Some err))
           | Ok client =>
               SetClusterInputValueAndWait (ClusterName conf) masterCountInputKey
                 (JStr (pretty masterCount)) client fuel
           end
  end.

(** ** Connecting ([connect.go]) *)
Section Connector.
Context {W : Type} `{HT : Http W, JS : Json, R : Remote W}.
Context {RestConfig ApiConfig : Type}.
Context (clientcmd_Load : string -> result ApiConfig).
Context (ClientConfig : ApiConfig -> option string -> result RestConfig).
Context (client : CommanderApi.Client) (conf : Config) (creds : Credentials).

Definition resolveMaster : M W (result (string * string)) :=
  let! conn := GetClusterConnectionInfo client (ClusterName conf) in
  mret match conn with
       | Err err => Err (ErrorfW ("get connection info for cluster " +:+ quote (ClusterName conf) +:+ ": ")
                          err "")
       | Ok conn =>
           if String.eqb (CommanderApi.SSHHost conn) ""
           then Err (Errorf ("no SSH host for cluster " +:+ quote (ClusterName conf) +:+
                       " from Commander (connection_hosts.masters empty)"))
           else
             let user := if String.eqb (c_SSHUser conf) "" then CommanderApi.SSHUser conn
                         else c_SSHUser conf in
             if String.eqb user ""
             then Err (Errorf ("no SSH user for the master of cluster " +:+ quote (ClusterName conf) +:+
                         " (set E2E_COMMANDER_SSH_USER)"))
             else Ok (CommanderApi.SSHHost conn, user)
       end.

Definition route_to (masterHost masterUser : string) : list Endpoint :=
  let master := mkEndpoint masterUser masterHost (c_SSHKey creds) (c_SSHPassphrase conf) in
  if JumpHostConfigured conf
  then [mkEndpoint (c_SSHJumpUser conf) (c_SSHJumpHost conf) (c_JumpKey creds)
          (c_SSHJumpPassphrase conf); master]
  else [master].

Definition buildSSHClient (masterHost masterUser : string) : M W (result Z) :=
  let! sshClient := sshNewWithRetry (route_to masterHost masterUser) in
  mret match sshClient with
       | Err err => Err (ErrorfW "creating ssh client: " err "")
       | Ok c => Ok c
       end.

Definition connector_Connect : M W (result (RestConfig * M W unit)) :=
  let! master := resolveMaster in
  match master with
  | Err err => mret (Err err)
  | Ok (host, user) =>
      let! sshClient := buildSSHClient host user in
      match sshClient with
      | Err err => mret (Err err)
      | Ok c =>
          let cleanups := [logged (connClose c)] in
          let! kubeconfig := FetchKubeconfig c in
          match kubeconfig with
          | Err err => let! _ := runCleanups cleanups in mret (Err err)
          | Ok kubeconfig =>
              let! tunnel := TunnelRestConfig clientcmd_Load ClientConfig c kubeconfig
                               apiServerRemotePort in
              match tunnel with
              | Err err => let! _ := runCleanups cleanups in mret (Err err)
              | Ok (restConfig, closeTunnel) =>
                  mret (Ok (restConfig, runCleanups (cleanups ++ [logged closeTunnel])))
              end
          end
      end
  end.
End Connector.

(** ** Commands on nodes ([node_executor.go]) *)

(** The addresses of a Node, with their types. *)
Record NodeAddresses := mkNodeAddresses { Addresses : list (string * string) }.

Section Executor.
Context {W : Type} `{R : Remote W, NA : Kube.Client W NodeAddresses}.
Context (conf : Config) (creds : Credentials) (user : string).

Definition internal_ip (addrs : list (string * string)) : option string :=
  snd <$> List.find (fun a => String.eqb a.1 "InternalIP" && is_set a.2) addrs.

Definition internalIPResolver_Resolve (nodeName : string) : M W (result string) :=
  let! node := clientGet (O := NodeAddresses) nodeName in
  mret match node with
       | Err err => Err (ErrorfW ("get node " +:+ nodeName +:+ ": ") err "")
       | Ok node =>
           match internal_ip (Addresses node) with
           | Some ip => Ok ip
           | None => Err (Errorf ("node " +:+ nodeName +:+ " reports no InternalIP"))
           end
       end.

(** A command that exits with a code is a result, not an error. *)
Definition commanderNodeExecutor_Exec (nodeName command : string) : M W (ExecResult * option error) :=
  let! ip := internalIPResolver_Resolve nodeName in
  match ip with
  | Err err => mret (mkExec "" "" 0, Some err)
  | Ok ip =>
      let! client := buildSSHClient conf creds ip user in
      match client with
      | Err err => mret (mkExec "" "" 0, Some (ErrorfW ("connect to node " +:+ nodeName +:+ " (" +:+
                     ip +:+ "): ") err ""))
      | Ok c =>
          let! '(out, err) := sshExec c command in
          let! _ := connClose c in
          mret match err with
               | None => (out, None)
               | Some e =>
                   match errors_As as_exit e with
                   | Some _ => (out, None)
                   | None => (out, Some (ErrorfW ("exec on node " +:+ nodeName +:+ " (" +:+ ip +:+
                                "): ") e ""))
                   end
               end
      end
  end.
End Executor.

(** ** Waiting for the API of Deckhouse ([modules.go]) *)
Definition moduleConfigGroupVersion : string := "deckhouse.io/v1alpha1".
Definition moduleConfigResource : string := "moduleconfigs".
Definition moduleConfigAPITimeout : Z := 15 * Minute.
Definition discoverySettleTimeout : Z := 3 * Minute.

(** [metav1.APIResourceList]: the names of its resources. *)
Record APIResourceList := mkResources { GroupVersion : string; APIResources : list string }.

Definition servesModuleConfigs (lists : list (option APIResourceList)) : bool :=
  existsb (fun l => match l with
                    | Some l => String.eqb (GroupVersion l) moduleConfigGroupVersion &&
                                existsb (fun r => String.eqb r moduleConfigResource) (APIResources l)
                    | None => false
                    end) lists.

Section Discovery.
Context {W : Type} `{CX : Ctx W}.
(** [time.Now()] and [ServerGroupsAndResources]. *)
Context (now : M W Z) (discover : M W (list (option APIResourceList) * option error)).

(** [if moduleConfigSeen && settleDeadline.IsZero() { settleDeadline = ... }]. *)
Definition note_settle (seen : bool) (settle : option Z) : M W (option Z) :=
  match settle with
  | None => if seen then let! t := now in mret (Some (t + discoverySettleTimeout)) else mret None
  | Some _ => mret settle
  end.

(** [moduleConfigSeen && time.Now().After(settleDeadline)]. *)
Definition is_settled (seen : bool) (settle : option Z) : M W bool :=
  if seen then let! t := now in mret (default 0 settle <? t) else mret false.

(** The end of an iteration that found discovery incomplete; [again] is the next one. *)
Definition settle_or_sleep (deadline : Z) (seen : bool) (settle : option Z) (last : string)
    (again : M W (option (option error))) : M W (option (option error)) :=
  let! settled := is_settled seen settle in
  if settled : bool then mret (Some None)
  else
    let! t := now in
    if deadline <? t
    then mret (Some (Some (Errorf ("timeout waiting for the Deckhouse ModuleConfig API: " +:+ last))))
    else
      let! fired := timerFires (10 * Second) in
      if fired : bool then again
      else let! ce := ctxErr in mret (Some ce).

(** The loop; [settle] is the settle deadline, once it is set. *)
Fixpoint wait_api (fuel : nat) (deadline : Z) (settle : option Z) : M W (option (option error)) :=
  match fuel with
  | O => mret None
  | S fuel =>
      let! '(resources, err) := discover in
      let seen := servesModuleConfigs resources in
      let! settle := note_settle seen settle in
      match err with
      | Some e => settle_or_sleep deadline seen settle (Error e) (wait_api fuel deadline settle)
      | None =>
          if seen then mret (Some None)
          else settle_or_sleep deadline seen settle
                 "discovery resolved but the moduleconfigs resource is not listed yet"
                 (wait_api fuel deadline settle)
      end
  end.

(** [newDiscovery] is the outcome of [NewDiscoveryClientForConfig]. *)
Definition waitForModuleConfigAPI (fuel : nat) (newDiscovery : option error) (timeout : Z)
    : M W (option (option error)) :=
  match newDiscovery with
  | Some err => mret (Some (Some err))
  | None => let! t := now in wait_api fuel (t + timeout) None
  end.
End Discovery.

(** ** Enabling modules: [EnableAndConfigureModules] of the test kit, run *)

(** The order of [range] over a map, and the order in which the goroutines of a group run. *)
Section Kit.
Context {W : Type} `{AE : ApiErrors, CX : Ctx W, CF : ClientFactory W}.
Context `{MC : Kube.Client W ModuleConfigSpec, MP : Kube.Client W ModulePullOverrideSpec}.
Context `{MS : Kube.Client W Module_}.
Context (range : gmap string Z -> list (string * Z)) (order : forall T, list T -> list T) (fuel : nat).

Definition kit_apply (registryRepo : string) (mc : ModuleConfig) : M W (option (option error)) :=
  let! err := configureModuleConfig mc in
  match err with
  | Some e => mret (Some (Some (ErrorfW ("failed to create ModuleConfig for module " +:+
                                   Config.Name mc +:+ ": ") e "")))
  | None =>
      let! err := configureModulePullOverride mc registryRepo in
      mret (Some match err with
                 | Some e => Some (ErrorfW ("failed to create ModulePullOverride for module " +:+
                                     Config.Name mc +:+ ": ") e "")
                 | None => None
                 end)
  end.

Definition kit_ready (levelIndex : nat) (mc : ModuleConfig) : M W (option (option error)) :=
  let! err := WaitForModuleReady fuel (Config.Name mc) ModuleDeployTimeout in
  mret match err with
       | Some e => Some (kit_task_error levelIndex (TReady mc) <$> e)
       | None => None
       end.

Fixpoint kit_levels_run (registryRepo : string) (levelIndex : nat) (levels : list (list ModuleConfig))
    : M W (option (option error)) :=
  match levels with
  | [] => mret (Some None)
  | level :: levels =>
      and_then (errgroup (map (kit_apply registryRepo) (order _ level))) (
      and_then (errgroup (map (kit_ready levelIndex)
                  (order _ (filter (fun mc => Enabled mc = true) level))))
        (kit_levels_run registryRepo (S levelIndex) levels))
  end.

(** [buildModuleGraph] dereferences every module: a nil one panics. *)
Definition EnableAndConfigureModules_run (def : ClusterDefinition) : M W (option (ending (option error))) :=
  let returns (m : M W (option (option error))) :=
    let! r := m in mret (Returns <$> r) in
  match Config.Modules (DKP def) with
  | [] => returns (mret (Some None))
  | modules =>
      match mapM id modules with
      | None => mret (Some Panics)
      | Some modules =>
          returns match buildModuleGraph modules with
                  | Err e => mret (Some (Some (ErrorfW "failed to build module graph: " e "")))
                  | Ok graph =>
                      match topologicalSortLevels range graph with
                      | Err e => mret (Some (Some (ErrorfW "failed to sort modules: " e "")))
                      | Ok levels => kit_levels_run (RegistryRepo (DKP def)) 0 levels
                      end
                  end
      end
  end.
End Kit.

(** ** The provider *)
Section Provider.
Context {W : Type} `{AE : ApiErrors, HT : Http W, JS : Json, CX : Ctx W, TM : !Timeout W, R : Remote W}.
Context `{CF : ClientFactory W, NA : Kube.Client W NodeAddresses}.
Context `{MC : Kube.Client W ModuleConfigSpec, MP : Kube.Client W ModulePullOverrideSpec}.
Context `{MS : Kube.Client W Module_}.
Context {RestConfig ApiConfig : Type}.
Context (clientcmd_Load : string -> result ApiConfig).
Context (ClientConfig : ApiConfig -> option string -> result RestConfig).
(** [kubernetes.NewForConfig] and [NewDiscoveryClientForConfig]. *)
Context (NewForConfig NewDiscovery : RestConfig -> option error).
Context (now : M W Z) (discover : M W (list (option APIResourceList) * option error)).
Context (range : gmap string Z -> list (string * Z)) (order : forall T, list T -> list T).
Context (getenv : string -> string) (home : result string) (readFile : string -> result string).
Context (unmarshalValues : string -> result (option (gmap string json))).
(** The outcome of [config.LoadClusterDefinition] at the path of the configuration. *)
Context (loaded : result ClusterDefinition).
Context (fuel : nat) (p : commanderProvider).
Notation conf := (cp_conf p).

Definition connect_with (creds : Credentials) : M W (result (RestConfig * M W unit)) :=
  connector_Connect clientcmd_Load ClientConfig (cp_client p) conf creds.

(** The part of [enableModules] under the deferred cleanup. *)
Definition enable_on (restConfig : RestConfig) (clusterDef : ClusterDefinition)
    : M W (option (ending (option error))) :=
  let! waited := waitForModuleConfigAPI now discover fuel (NewDiscovery restConfig)
                   moduleConfigAPITimeout in
  match waited with
  | None => mret None
  | Some (Some err) => mret (Some (Returns (Some err)))
  | Some None =>
      let! enabled := EnableAndConfigureModules_run range order fuel clusterDef in
      mret match enabled with
           | Some (Returns (Some err)) =>
               Some (Returns (Some (ErrorfW "enable and configure modules: " err "")))
           | r => r
           end
  end.

(** The deferred cleanup runs on every return, and on a panic. *)
Definition enableModules : M W (option (ending (option error))) :=
  match loaded with
  | Err err => mret (Some (Returns (Some (ErrorfW ("load cluster definition " +:+
                 quote (ClusterBootstrapConfigPath (cp_cfg p)) +:+ ": ") err ""))))
  | Ok clusterDef =>
      match Resolve getenv home readFile conf with
      | Err err => mret (Some (Returns (Some (ErrorfW
                     "resolve commander credentials for module enablement: " err ""))))
      | Ok creds =>
          let! connected := connect_with creds in
          match connected with
          | Err err => mret (Some (Returns (Some (ErrorfW
                         "connect to cluster for module enablement: " err ""))))
          | Ok (restConfig, cleanup) =>
              let! result := enable_on restConfig clusterDef in
              let! _ := cleanup in
              mret result
          end
      end
  end.

Definition Bootstrap : M W (option (ending (option error))) :=
  let! ready := ensureReady fuel unmarshalValues p in
  match ready with
  | Some (Returns None) => enableModules
  | r => mret r
  end.

Definition provider_Connect : M W (result (RestConfig * M W unit)) :=
  match Resolve getenv home readFile conf with
  | Err err => mret (Err (ErrorfW "resolve commander credentials: " err ""))
  | Ok creds => connect_with creds
  end.

Definition ConnectTestCluster : M W (result (Connection W RestConfig)) :=
  match Resolve getenv home readFile conf with
  | Err err => mret (Err (ErrorfW "resolve commander credentials: " err ""))
  | Ok creds =>
      let! master := resolveMaster (cp_client p) conf in
      match master with
      | Err err => mret (Err err)
      | Ok (_, sshUser) =>
          let! connected := connect_with creds in
          match connected with
          | Err err => mret (Err (ErrorfW "connect to the commander cluster: " err ""))
          | Ok (restConfig, cleanup) =>
              match NewForConfig restConfig with
              | Some err => let! _ := cleanup in
                            mret (Err (ErrorfW "build clientset for node address lookups: " err ""))
              | None => mret (Ok (mkConnection (Some restConfig)
                                (Some (commanderNodeExecutor_Exec conf creds sshUser)) None
                                (Some cleanup)))
              end
          end
      end
  end.

Definition commander_provider : Provider W RestConfig :=
  mkProvider ModeCommander Bootstrap (let! r := Remove p in mret (Some r)) ConnectTestCluster.
End Provider.
