(* ===== verification/CommanderSafety.v ===== *)
(** The provider of Commander clusters is safe: it keeps the promises of [E2E.ProviderLaws], its
    [Bootstrap] creates at most one cluster and closes what it opens, its waits end, and it
    panics only on the inputs named here. The instances at the end run it in memory. *)
From S2P Require Import CommanderApi CommanderUpdate Prelude Errors Retry Kube Timeout Config DvpConfig ModuleGraph Deckhouse Modules Provision Remote Connect Deps Install Join DvpProvider E2E Commander.

Local Open Scope Z_scope.
Local Open Scope go_scope.

(** ** Values and versions *)

(** The prefix is the name of the cluster whatever the values say, and the other values stay. *)
Lemma buildValues_prefix unmarshalValues conf name values :
  buildValues unmarshalValues conf name = Returns (Ok values) ->
  values !! "prefix" = Some (JStr name) /\
  forall given k, unmarshalValues (InputValues conf) = Ok (Some given) ->
    is_set (InputValues conf) = true -> k <> "prefix" -> values !! k = given !! k.
Proof.
  unfold buildValues. intros H.
  destruct (if is_set (InputValues conf) then _ else _) as [[v|]|] eqn:E; [|done|done].
  injection H as <-. split; [apply lookup_insert_eq|]. intros given k Hg Hs Hk.
  rewrite -> Hs, Hg in E. injection E as <-. by rewrite lookup_insert_ne.
Qed.

Definition all_versions (t : ClusterTemplateResponse) : list TemplateVersionResponse :=
  match ClusterTemplateVersions t with [] => Versions t | l => l end.

(** The version is one of the template's: the one asked for, by name or ID, or the current one,
    or the first. *)
Lemma resolveTemplateVersionID_spec t requested id :
  resolveTemplateVersionID t requested = Ok id ->
  (requested <> "" /\ exists v, In v (all_versions t) /\ tv_ID v = id /\
     (tv_Name v = requested \/ tv_ID v = requested)) \/
  (requested = "" /\ (id = CurrentClusterTemplateVersionID t \/
     CurrentClusterTemplateVersionID t = "" /\ exists v, head (all_versions t) = Some v /\ tv_ID v = id)).
Proof.
  unfold resolveTemplateVersionID. fold (all_versions t). unfold is_set.
  destruct (String.eqb_spec requested "") as [->|Hne]; cbn [negb].
  - right. split; [done|].
    destruct (String.eqb_spec (CurrentClusterTemplateVersionID t) "") as [E|]; cbn [negb] in *.
    + right. split; [done|]. destruct (all_versions t) as [|v l]; [done|]. exists v.
      split; [done|]. congruence.
    + left. congruence.
  - left. split; [done|]. destruct (List.find _ _) as [v|] eqn:Ef; [|done].
    apply List.find_some in Ef as [Hin Hv]. exists v. split_and!; [done|congruence|].
    apply orb_true_iff in Hv as [Hv|Hv]; apply String.eqb_eq in Hv; auto.
Qed.

(** ** What stays open *)

(** A request to the API opens no connection of ours: its transport is the HTTP client's. *)
Class CalmHttp (W : Type) `{R : Remote W, HT : Http W} : Prop := {
  http_calm rq : calm (httpDo rq)
}.
Class CalmTimeout (W : Type) `{R : Remote W, CX : Ctx W, TM : !Timeout W} : Prop := {
  wake_calm z : calm (wake z)
}.

Section CalmApi.
Context {W : Type} `{R : Remote W, HT : Http W, CH : !CalmHttp W, JS : Json}.
Context (client : CommanderApi.Client).

Lemma send_calm m path body : calm (send client m path body).
Proof.
  unfold send. destruct (NewRequest _ _); [apply ret_calm|].
  apply bind_calm; [apply http_calm|intros; apply ret_calm].
Qed.

Lemma send_ret_calm {T} m path body (f : result response -> T) :
  calm (let! sent := send client m path body in mret (f sent)).
Proof. apply bind_calm; [apply send_calm|intros; apply ret_calm]. Qed.

Lemma GetClusterByName_calm name : calm (GetClusterByName client name).
Proof. apply bind_calm; [apply send_ret_calm|intros; apply ret_calm]. Qed.

Lemma GetClusterByID_calm id : calm (GetClusterByID client id).
Proof. apply send_ret_calm. Qed.

Lemma GetClusterKubeconfigByID_calm id : calm (GetClusterKubeconfigByID client id).
Proof.
  apply bind_calm; [apply send_calm|]. intros [resp|]; [|apply ret_calm].
  destruct (StatusCode resp =? 404).
  - apply bind_calm; [apply GetClusterByID_calm|intros; apply ret_calm].
  - destruct (negb _); apply ret_calm.
Qed.

Lemma GetClusterConnectionInfo_calm name : calm (GetClusterConnectionInfo client name).
Proof.
  apply bind_calm; [apply GetClusterByName_calm|]. intros [cr|]; [|apply ret_calm].
  apply bind_calm; [apply GetClusterKubeconfigByID_calm|intros; apply ret_calm].
Qed.

Lemma resolveMaster_calm conf : calm (resolveMaster client conf).
Proof. apply bind_calm; [apply GetClusterConnectionInfo_calm|intros; apply ret_calm]. Qed.

Lemma create_with_calm {T} what body (decode : string -> result T) : calm (create_with client what body decode).
Proof. unfold create_with. destruct body; [apply send_ret_calm|apply ret_calm]. Qed.

Context `{CX : Ctx W, TM : !Timeout W, CC : !CalmCtx W, CT : !CalmTimeout W}.

Lemma wait_ticks_calm {St A} (check : St -> M W (St * option A)) onDone onDeadline fuel z s :
  (forall s, calm (check s)) -> calm (wait_ticks check onDone onDeadline fuel z s).
Proof.
  intros Hc. revert s. induction fuel as [|fuel IH]; intros s; cbn [wait_ticks]; [apply ret_calm|].
  apply bind_calm; [apply wake_calm|]. intros []; [|apply ret_calm|].
  - apply bind_calm; [apply ctx_calm|intros; apply ret_calm].
  - apply bind_calm; [apply Hc|]. intros [s1 [a|]]; [apply ret_calm|apply IH].
Qed.

Lemma WaitForClusterReady_calm fuel name : calm (WaitForClusterReady client fuel name).
Proof.
  apply wait_ticks_calm. intros s. apply bind_calm; [apply GetClusterByName_calm|].
  intros; apply ret_calm.
Qed.
End CalmApi.

Section Nodes.
Context {W : Type} `{R : Remote W, RL : !RemoteLaws W}.
Context (conf : Config) (creds : Credentials).

Lemma route_target host user : target_addr (route_to conf creds host user) = host.
Proof. unfold target_addr, route_to. by destruct (JumpHostConfigured conf). Qed.

Lemma buildSSHClient_cases host user w r w' :
  buildSSHClient conf creds host user w = (r, w') ->
  history w' = history w /\
  match r with
  | Ok c => open_conns w !! c = None /\ open_conns w' = <[c := host]> (open_conns w)
  | Err _ => open_conns w' = open_conns w
  end.
Proof.
  intros H. unfold buildSSHClient in H. mstep H as [r' w1] E. injection H as <- <-.
  destruct r' as [c|e].
  - apply retry_ok in E as (? & Ho & ?). by rewrite route_target in Ho.
  - by apply retry_err in E as [? ?].
Qed.

Context `{NA : Kube.Client W NodeAddresses, CNA : !CalmClient W NodeAddresses}.

(** A command on a node runs once, on the address that the node reports, or not at
    all and with an error; the connection it took is closed; and an exit code is not an error. *)
Theorem commanderNodeExecutor_Exec_runs user nodeName command w r w' :
  commanderNodeExecutor_Exec conf creds user nodeName command w = (r, w') ->
  open_conns w' = open_conns w /\
  (history w' = history w /\ is_Some r.2 \/
   exists ip err, (internalIPResolver_Resolve nodeName w).1 = Ok ip /\
     history w' = history w ++ [mkRun ip command r.1 err] /\
     (r.2 = None <-> err = None \/ exists e code, err = Some e /\ errors_As as_exit e = Some code)).
Proof.
  intros H. unfold commanderNodeExecutor_Exec in H. mstep H as [ip w1] E1.
  assert (Hc : calm (internalIPResolver_Resolve (W := W) nodeName)).
  { apply bind_calm; [apply get_calm|intros; apply ret_calm]. }
  destruct (calm_step _ _ _ _ Hc E1) as [Ho1 Hh1].
  destruct ip as [ip|e]; [|injection H as <- <-; split; [done|left; split; [done|by eexists]]].
  mstep H as [cl w2] E2. apply buildSSHClient_cases in E2 as [Hh2 E2]. destruct cl as [c|e]; last first.
  { injection H as <- <-. split; [congruence|left]. split; [congruence|by eexists]. }
  destruct E2 as [Hn Ho2]. mstep H as [[out err] w3] E3. apply exec_runs in E3 as [Ho3 Hh3].
  mstep H as [cr w4] E4. injection H as <- <-. apply close_removes in E4 as [Ho4 Hh4].
  split; [rewrite Ho4 Ho3 Ho2 delete_insert_id; congruence|]. right. exists ip, err.
  split; [done|]. rewrite -> Hh4, Hh3, Hh2, Hh1, Ho2, lookup_insert_eq. destruct err as [e|]; [|naive_solver].
  destruct (errors_As as_exit e) as [code|] eqn:Ee; cbn; [naive_solver|].
  split; [done|]. split; [done|]. intros [?|(e' & code & [= <-] & He)]; congruence.
Qed.
End Nodes.

Section Release.
Context {W : Type} `{R : Remote W, RL : !RemoteLaws W, HT : Http W, CH : !CalmHttp W, JS : Json}.
Context {RestConfig ApiConfig : Type}.
Context (clientcmd_Load : string -> result ApiConfig).
Context (ClientConfig : ApiConfig -> option string -> result RestConfig).
Context (client : CommanderApi.Client) (conf : Config) (creds : Credentials).

Lemma runCleanups_single c (w : W) : runCleanups [c] w = run_list [] (c w).2.
Proof. unfold runCleanups. cbn [rev app]. by rewrite run_list_bind. Qed.

(** The connector hands out what it opened with its cleanup, and nothing when it fails; the
    only command it runs reads the kubeconfig. *)
Lemma connector_Connect_acquires :
  acquires (fun e => run_cmd e = getKubeconfigRemoteShell)
    (connector_Connect clientcmd_Load ClientConfig client conf creds).
Proof.
  intros w r w' H. unfold connector_Connect in H. mstep H as [master w1] E1.
  destruct (calm_step _ _ _ _ (resolveMaster_calm client conf) E1) as [Ho1 Hh1].
  destruct master as [[host user]|e]; [|injection H as <- <-; by split; [apply no_history|]].
  mstep H as [cl w2] E2. apply buildSSHClient_cases in E2 as [Hh2 E2].
  destruct cl as [c|e]; [|injection H as <- <-; split; [apply no_history; congruence|congruence]].
  destruct E2 as [Hn Ho2]. mstep H as [kc w3] E3.
  apply FetchKubeconfig_runs in E3 as (Ho3 & res & err & Hh3).
  assert (Hnew : exists new, history w3 = history w ++ new /\
    Forall (fun e => run_cmd e = getKubeconfigRemoteShell) new).
  { eexists. split; [rewrite Hh3 Hh2 Hh1; reflexivity|]. by repeat constructor. }
  assert (Hrel : releases (logged (connClose c)) w w3).
  { eapply closes_opened; [by rewrite <- Ho1|]. by rewrite Ho3 Ho2 Ho1. }
  assert (Hback : forall v v' u, open_conns v = open_conns w3 ->
    runCleanups [logged (connClose c)] v = (u, v') ->
    open_conns v' = open_conns w /\ history v' = history v).
  { intros v v' u Hv Hrun. rewrite runCleanups_single in Hrun. injection Hrun as _ <-. by apply Hrel. }
  clear - Hnew Hrel Hback H RL. destruct kc as [kc|e].
  2: { mstep H as [u w4] E4. injection H as <- <-. apply Hback in E4 as [-> ->]; done. }
  mstep H as [tun w4] E4. apply TunnelRestConfig_acquires in E4 as [Hh4 Ht].
  destruct tun as [[cfg close]|e].
  - injection H as <- <-. rewrite Hh4. split; [done|]. by eapply releases_stack.
  - mstep H as [u w5] E5. injection H as <- <-. apply Hback in E5 as [-> ->]; [|done].
    by rewrite Hh4.
Qed.

End Release.

(** ** Panics *)
Section Panic.
Context {W : Type} `{AE : ApiErrors, HT : Http W, JS : Json, CX : Ctx W, TM : !Timeout W}.
Context `{CF : ClientFactory W}.
Context `{MC : Kube.Client W ModuleConfigSpec, MP : Kube.Client W ModulePullOverrideSpec}.
Context `{MS : Kube.Client W Module_}.
Context (range : gmap string Z -> list (string * Z)) (order : forall T, list T -> list T).
Context (unmarshalValues : string -> result (option (gmap string json))).
Context (fuel : nat) (p : commanderProvider).

Lemma mapM_id_None {T} (l : list (option T)) : mapM id l = None -> In None l.
Proof.
  intros H. apply mapM_None, Exists_exists in H as (x & Hx & E).
  apply list_elem_of_In. cbn in E. by rewrite <- E.
Qed.

Lemma EnableAndConfigureModules_run_panics def w w' :
  EnableAndConfigureModules_run range order fuel def w = (Some Panics, w') ->
  In None (Config.Modules (DKP def)).
Proof.
  unfold EnableAndConfigureModules_run. intros H.
  destruct (Config.Modules (DKP def)) as [|m ms]; [done|].
  destruct (mapM id (m :: ms)) as [mods|] eqn:E; [|by apply mapM_id_None].
  mstep H as [r w1] E1. by destruct r.
Qed.

Lemma ensureReady_panics w w' :
  ensureReady fuel unmarshalValues p w = (Some Panics, w') ->
  InputValues (cp_conf p) <> "" /\ unmarshalValues (InputValues (cp_conf p)) = Ok None.
Proof.
  unfold ensureReady. intros H. mstep H as [found w1] E1. mstep H as [phase w2] E2.
  destruct phase as [[phase|e]|]; [|done|].
  { destruct (String.eqb _ _); [done|]. mstep H as [waited w3] E3. by destruct waited as [[]|]. }
  destruct found as [|e]; [done|]. destruct (errors_Is _ _); [|done].
  mstep E2 as [created w3] E3. destruct created as [[]|]; [done..|].
  unfold createCluster in E3. destruct (negb _); [done|].
  mstep E3 as [t w4] E4. destruct t as [t|]; [|done].
  destruct (resolveTemplateVersionID _ _) as [v|]; [|done].
  mstep E3 as [rid w5] E5. destruct rid as [rid|]; [|done].
  unfold buildValues, is_set in E3. destruct (String.eqb_spec (InputValues (cp_conf p)) "") as [|Hne].
  - cbn in E3. mstep E3 as [resp w6] E6. by injection E3.
  - cbn in E3. split; [done|]. destruct (unmarshalValues _) as [[v'|]|]; [|done|done].
    mstep E3 as [resp w6] E6. by injection E3.
Qed.
End Panic.

Section Promises.
Context {W : Type} `{AE : ApiErrors, HT : Http W, JS : Json, CX : Ctx W, TM : !Timeout W, R : Remote W}.
Context `{RL : !RemoteLaws W, CC : !CalmCtx W, CT : !CalmTimeout W, CH : !CalmHttp W}.
Context `{CF : ClientFactory W, CCF : !CalmFactory W}.
Context `{NA : Kube.Client W NodeAddresses, CNA : !CalmClient W NodeAddresses}.
Context `{MC : Kube.Client W ModuleConfigSpec, CMC : !CalmClient W ModuleConfigSpec}.
Context `{MP : Kube.Client W ModulePullOverrideSpec, CMP : !CalmClient W ModulePullOverrideSpec}.
Context `{MS : Kube.Client W Module_, CMS : !CalmClient W Module_}.
Context {RestConfig ApiConfig : Type}.
Context (clientcmd_Load : string -> result ApiConfig).
Context (ClientConfig : ApiConfig -> option string -> result RestConfig).
Context (NewForConfig NewDiscovery : RestConfig -> option error).
Context (now : M W Z) (now_calm : calm now).
Context (discover : M W (list (option APIResourceList) * option error)) (discover_calm : calm discover).
Context (range : gmap string Z -> list (string * Z)) (order : forall T, list T -> list T).
Context (getenv : string -> string) (home : result string) (readFile : string -> result string).
Context (unmarshalValues : string -> result (option (gmap string json))).
Context (loaded : result ClusterDefinition).
Context (fuel : nat) (p : commanderProvider).

(** The provider keeps what the SDK relies on. *)
#[export] Instance commander_provider_laws :
  ProviderLaws (commander_provider clientcmd_Load ClientConfig NewForConfig NewDiscovery now discover
    range order getenv home readFile unmarshalValues loaded fuel p).
Proof.
  split. intros w r w' H. cbn in H. unfold ConnectTestCluster in H.
  destruct (Resolve _ _ _ _) as [creds|e]; [|by injection H as <- <-].
  mstep H as [master w1] E1.
  destruct (calm_step _ _ _ _ (resolveMaster_calm (cp_client p) (cp_conf p)) E1) as [Ho1 _].
  destruct master as [[host user]|e]; [|by injection H as <- <-].
  mstep H as [connected w2] E2.
  apply (connector_Connect_acquires clientcmd_Load ClientConfig) in E2 as [_ E2].
  destruct connected as [[cfg cleanup]|e]; [|injection H as <- <-; congruence].
  destruct (NewForConfig cfg).
  - mstep H as [u w3] E3. injection H as <- <-. destruct (E2 w2 eq_refl) as [Hc _].
    rewrite E3 in Hc. cbn in Hc. congruence.
  - injection H as <- <-. cbn. split; [by eexists|]. split; [by eexists|]. exists cleanup.
    split; [done|]. by eapply releases_frame.
Qed.

(** *** [Bootstrap] closes what it opens *)
Lemma createCluster_calm name : calm (createCluster unmarshalValues p name).
Proof.
  unfold createCluster. destruct (negb _); [apply ret_calm|]. apply bind_calm.
  { apply bind_calm; [apply send_ret_calm|intros; apply ret_calm]. }
  intros [t|]; [|apply ret_calm]. destruct (resolveTemplateVersionID _ _); [|apply ret_calm].
  apply bind_calm.
  { unfold resolve_registry. destruct (is_set _); [|apply ret_calm].
    apply bind_calm; [|intros; apply ret_calm].
    apply bind_calm; [apply send_ret_calm|intros; apply ret_calm]. }
  intros [rid|]; [|apply ret_calm]. destruct (buildValues _ _ _) as [[v|]|]; [|apply ret_calm..].
  apply bind_calm; [apply create_with_calm|intros; apply ret_calm].
Qed.

Lemma ensureReady_calm : calm (ensureReady fuel unmarshalValues p).
Proof.
  unfold ensureReady. apply bind_calm.
  { apply bind_calm; [apply GetClusterByName_calm|intros; apply ret_calm]. }
  intros found. apply bind_calm.
  { destruct found; [apply ret_calm|]. destruct (errors_Is _ _); [|apply ret_calm].
    apply bind_calm; [apply createCluster_calm|intros; apply ret_calm]. }
  intros [[phase|]|]; [|apply ret_calm..]. destruct (String.eqb _ _); [apply ret_calm|].
  apply bind_calm; [exact (WaitForClusterReady_calm _ _ _)|intros; apply ret_calm].
Qed.

Lemma settle_or_sleep_calm deadline seen settle last again :
  calm again -> calm (settle_or_sleep now deadline seen settle last again).
Proof.
  intros Ha. apply bind_calm.
  { unfold is_settled. destruct seen; [|apply ret_calm].
    apply bind_calm; [apply now_calm|intros; apply ret_calm]. }
  intros []; [apply ret_calm|]. apply bind_calm; [apply now_calm|]. intros t.
  destruct (deadline <? t); [apply ret_calm|]. apply bind_calm; [apply timer_calm|].
  intros []; [done|]. apply bind_calm; [apply ctx_calm|intros; apply ret_calm].
Qed.

Lemma wait_api_calm n deadline settle : calm (wait_api now discover n deadline settle).
Proof.
  revert settle. induction n as [|n IH]; intros settle; cbn [wait_api]; [apply ret_calm|].
  apply bind_calm; [apply discover_calm|]. intros [resources err]. apply bind_calm.
  { unfold note_settle. destruct settle; [apply ret_calm|].
    destruct (servesModuleConfigs _); [|apply ret_calm].
    apply bind_calm; [apply now_calm|intros; apply ret_calm]. }
  intros settle'. destruct err; [by apply settle_or_sleep_calm|].
  destruct (servesModuleConfigs _); [apply ret_calm|by apply settle_or_sleep_calm].
Qed.

Lemma configureModuleConfig_calm mc : calm (configureModuleConfig mc).
Proof.
  unfold configureModuleConfig. generalize 60%nat, (2 * Second), (None (A := error)).
  intros n. induction n as [|n IH]; intros z le; cbn [configureModuleConfig_loop]; [apply ret_calm|].
  apply bind_calm; [apply get_with_client_calm|]. intros r. apply bind_calm.
  { destruct r; (apply bind_calm; [|intros; apply ret_calm]); apply with_client_calm.
    - apply bind_calm; [apply get_calm|]. intros []; auto with calm.
    - auto with calm. }
  intros [verb [e|]]; [|apply ret_calm]. destruct (_ && _); [|apply ret_calm].
  apply bind_calm; [apply timer_calm|]. intros []; [apply IH|apply ctx_calm].
Qed.

Lemma configureModulePullOverride_calm mc repo : calm (configureModulePullOverride mc repo).
Proof.
  unfold configureModulePullOverride. destruct (overrideTag mc repo) as [tag|]; [|apply ret_calm].
  generalize 5%nat, true, (2 * Second), (None (A := error)). intros n.
  induction n as [|n IH]; intros first z le; cbn [configureModulePullOverride_loop]; [apply ret_calm|].
  apply bind_calm; [destruct first; [apply ret_calm|apply timer_calm]|]. intros [].
  2: { apply bind_calm; [apply ctx_calm|intros; apply ret_calm]. }
  apply bind_calm; [apply get_with_client_calm|]. intros r. apply bind_calm.
  { destruct r; (apply bind_calm; [|intros; apply ret_calm]); apply with_client_calm.
    - apply bind_calm; [apply get_calm|]. intros []; auto with calm.
    - auto with calm. }
  intros [verb [e|]]; [|apply ret_calm]. destruct (_ && _); [apply IH|apply ret_calm].
Qed.

Lemma EnableAndConfigureModules_run_calm def : calm (EnableAndConfigureModules_run range order fuel def).
Proof.
  unfold EnableAndConfigureModules_run. destruct (Config.Modules (DKP def)) as [|m ms].
  { apply bind_calm; intros; apply ret_calm. }
  destruct (mapM id (m :: ms)) as [mods|]; [|apply ret_calm].
  apply bind_calm; [|intros; apply ret_calm].
  destruct (buildModuleGraph mods) as [g|]; [|apply ret_calm].
  destruct (topologicalSortLevels range g) as [levels|]; [|apply ret_calm].
  generalize 0%nat. induction levels as [|level levels IH]; intros i; cbn [kit_levels_run];
    [apply ret_calm|].
  apply and_then_calm; [|apply and_then_calm; [|apply IH]]; apply errgroup_calm;
    intros t (mc & -> & _)%list_elem_of_fmap.
  - apply bind_calm; [apply configureModuleConfig_calm|]. intros [e|]; [apply ret_calm|].
    apply bind_calm; [apply configureModulePullOverride_calm|intros; apply ret_calm].
  - apply bind_calm; [apply WaitForModuleReady_calm|intros; apply ret_calm].
Qed.

(** [Bootstrap] leaves the connections as it found them, whether it succeeds, fails or
    panics, and the only command it runs on a host reads the kubeconfig of the master. *)
Theorem Bootstrap_closes w r w' :
  Commander.Bootstrap clientcmd_Load ClientConfig NewDiscovery now discover range order
    getenv home readFile unmarshalValues loaded fuel p w =
    (r, w') ->
  open_conns w' = open_conns w /\
  exists new, history w' = history w ++ new /\
    Forall (fun e => run_cmd e = getKubeconfigRemoteShell) new.
Proof.
  intros H. unfold Bootstrap in H. mstep H as [ready w1] E1.
  destruct (calm_step _ _ _ _ ensureReady_calm E1) as [Ho1 Hh1].
  assert (Hsame : forall v, v = w1 -> open_conns v = open_conns w /\
    exists new, history v = history w ++ new /\
    Forall (fun e => run_cmd e = getKubeconfigRemoteShell) new).
  { intros v ->. split; [done|by apply no_history]. }
  destruct ready as [[[e|]|]|]; try (by injection H as _ <-; apply Hsame).
  rewrite <- Ho1, <- Hh1. clear - H RL CC CH CCF CMC CMP CMS now_calm discover_calm.
  unfold enableModules in H.
  assert (Hno : forall v : W, v = w1 -> open_conns v = open_conns w1 /\
    exists new, history v = history w1 ++ new /\
    Forall (fun e => run_cmd e = getKubeconfigRemoteShell) new).
  { intros v ->. split; [done|by apply no_history]. }
  destruct loaded as [def|e]; [|by injection H as _ <-; apply Hno].
  destruct (Resolve _ _ _ _) as [creds|e]; [|by injection H as _ <-; apply Hno].
  mstep H as [connected w2] E2.
  apply (connector_Connect_acquires clientcmd_Load ClientConfig) in E2 as [Hnew E2].
  destruct connected as [[cfg cleanup]|e]; [|by injection H as _ <-].
  mstep H as [res w3] E3. mstep H as [u w4] E4. injection H as _ <-.
  assert (H3 : open_conns w3 = open_conns w2 /\ history w3 = history w2).
  { eapply calm_step; [|exact E3]. apply bind_calm.
    - unfold waitForModuleConfigAPI. destruct (NewDiscovery cfg); [apply ret_calm|].
      apply bind_calm; [apply now_calm|intros; apply wait_api_calm].
    - intros [[e|]|]; [apply ret_calm| |apply ret_calm].
      apply bind_calm; [apply EnableAndConfigureModules_run_calm|intros; apply ret_calm]. }
  destruct H3 as [Ho3 Hh3]. destruct (E2 w3 Ho3) as [Ho4 Hh4]. rewrite -> E4 in Ho4, Hh4. cbn in *.
  rewrite -> Hh4, Hh3. done.
Qed.

(** [Bootstrap] panics only when the template values are the JSON [null] or the cluster
    definition lists an empty module. *)
Theorem Bootstrap_panics w w' :
  Commander.Bootstrap clientcmd_Load ClientConfig NewDiscovery now discover range order
    getenv home readFile unmarshalValues loaded fuel p w =
    (Some Panics, w') ->
  (InputValues (cp_conf p) <> "" /\ unmarshalValues (InputValues (cp_conf p)) = Ok None) \/
  exists def, loaded = Ok def /\ In None (Config.Modules (DKP def)).
Proof.
  intros H. unfold Bootstrap in H. mstep H as [ready w1] E1.
  destruct ready as [[[e|]|]|]; [done| |injection H as _; left|done].
  - right. unfold enableModules in H. destruct loaded as [def|e]; [|done].
    exists def. split; [done|].
    destruct (Resolve _ _ _ _) as [creds|e]; [|done]. mstep H as [connected w2] E2.
    destruct connected as [[cfg cleanup]|e]; [|done].
    mstep H as [res w3] E3. mstep H as [u w4] E4. injection H as -> _.
    unfold enable_on in E3. mstep E3 as [waited w5] E5. destruct waited as [[e|]|]; [done| |done].
    mstep E3 as [enabled w6] E6. destruct enabled as [[[e|]|]|]; try done.
    by eapply EnableAndConfigureModules_run_panics.
  - by eapply ensureReady_panics.
Qed.
End Promises.

(** ** The wait for the ModuleConfig API ends *)

(** [clk] is the clock: readings of it lie between the start and the end of the call, and a
    timer that fires took its time. *)
Class Clock (W : Type) `{CX : Ctx W} (now : M W Z)
    (discover : M W (list (option APIResourceList) * option error)) := {
  clk : W -> Z;
  now_reads w t w' : now w = (t, w') -> clk w <= t <= clk w';
  discover_forward w : clk w <= clk (discover w).2;
  timer_forward z w w' : timerFires z w = (true, w') -> clk w + z <= clk w'
}.

Section WaitApi.
Context {W : Type} `{CX : Ctx W, CL : !CtxLaws W}.
Context (now : M W Z) (discover : M W (list (option APIResourceList) * option error)).
Context {CK : Clock W now discover}.

(** A discovery listed the resource. *)
Definition listed : Prop :=
  exists w1 resources err w2, discover w1 = ((resources, err), w2) /\ servesModuleConfigs resources = true.

Lemma settle_or_sleep_ends deadline seen settle last again w :
  (seen = true -> listed) ->
  (forall w1, clk w + 10 * Second <= clk w1 -> exists r w', again w1 = (Some r, w') /\ (r = None -> listed)) \/
  deadline < clk w ->
  exists r w', settle_or_sleep now deadline seen settle last again w = (Some r, w') /\ (r = None -> listed).
Proof.
  intros Hseen Hnext. unfold settle_or_sleep, mbind, M_bind, mret, M_ret.
  assert (Hs : clk w <= clk (is_settled now seen settle w).2 /\
               ((is_settled now seen settle w).1 = true -> seen = true)).
  { unfold is_settled. destruct seen; [|split; [cbn; lia|done]]. unfold mbind, M_bind.
    destruct (now w) as [t v] eqn:E. apply now_reads in E. cbn. split; [lia|done]. }
  destruct (is_settled now seen settle w) as [b v]. destruct Hs as [Hv Hb]. cbn in Hv, Hb.
  destruct b; [do 2 eexists; split; [done|intros _; apply Hseen, Hb; done]|].
  destruct (now v) as [t v1] eqn:E. apply now_reads in E.
  destruct (Z.ltb_spec deadline t) as [Hlt|Hge]; [by do 2 eexists|].
  destruct Hnext as [Hnext|Hd]; [|lia].
  destruct (timerFires (10 * Second) v1) as [fired v2] eqn:Et. destruct fired.
  - apply timer_forward in Et. apply Hnext. lia.
  - destruct (ctx_done _ _ _ Et) as (e & v3 & ->). by do 2 eexists.
Qed.

Lemma wait_api_ends n deadline settle w :
  deadline < clk w + Z.of_nat n * (10 * Second) ->
  exists r w', wait_api now discover (S n) deadline settle w = (Some r, w') /\ (r = None -> listed).
Proof.
  revert settle w. induction n as [|n IH]; intros settle w Hd; cbn [wait_api];
    unfold mbind, M_bind; pose proof (discover_forward w) as Hf;
    destruct (discover w) as [[resources err] w1] eqn:E1; cbn in Hf;
    (assert (Hseen : servesModuleConfigs resources = true -> listed)
      by (intros; by exists w, resources, err, w1)).
  all: assert (Hs : clk w1 <= clk (note_settle now (servesModuleConfigs resources) settle w1).2).
  1, 3: unfold note_settle; destruct settle; [cbn; lia|]; destruct (servesModuleConfigs resources);
    [|cbn; lia]; unfold mbind, M_bind; destruct (now w1) as [t v] eqn:En; apply now_reads in En; cbn; lia.
  all: destruct (note_settle now _ settle w1) as [settle' w2]; cbn in Hs;
    destruct err as [e|]; [|destruct (servesModuleConfigs resources) eqn:Es;
      [do 2 eexists; split; [done|intros _; by apply Hseen]|]].
  all: apply settle_or_sleep_ends; [by rewrite ?Es|].
  1, 2: right; lia.
  all: left; intros v Hv; apply IH; lia.
Qed.

(** The wait for the ModuleConfig API ends within its fifteen minutes: 92 rounds of ten
    seconds are enough; and it succeeds only when a discovery listed the resource. *)
Theorem waitForModuleConfigAPI_ends fuel newDiscovery w :
  (92 <= fuel)%nat ->
  exists r w', waitForModuleConfigAPI now discover fuel newDiscovery moduleConfigAPITimeout w = (Some r, w') /\
    (r = None -> listed).
Proof.
  intros Hf. unfold waitForModuleConfigAPI. destruct newDiscovery as [e|]; [by do 2 eexists|].
  unfold mbind, M_bind. destruct (now w) as [t w1] eqn:E. apply now_reads in E.
  destruct fuel as [|n]; [lia|]. apply wait_api_ends.
  change (t + 900000000000 < clk w1 + Z.of_nat n * 10000000000). lia.
Qed.
End WaitApi.

(** ** What [Bootstrap] does to the clusters of Commander *)

(** A create request that is accepted adds one cluster, with what it asks for; one that is not
    answered may have been accepted. *)
Class ServerCreate (W : Type) `{SV : Server W} : Prop := {
  post_cluster req body headers w r w' :
    marshalCreate req = Ok body ->
    httpDo (mkRequest POST (cluster_url c "/clusters") headers body) w = (r, w') ->
    let added := exists s id new,
      others (db w) s /\ s !! id = None /\ CommanderApi.Name new = cq_Name req /\
      ClusterTemplateVersionID new = cq_TemplateVersionID req /\ RegistryID new = cq_RegistryID req /\
      valuesToMap (Values new) = cq_Values req /\ others (<[id := new]> s) (db w') in
    match r with
    | Ok resp => if (StatusCode resp =? 200) || (StatusCode resp =? 201) then added
                 else others (db w) (db w') \/ added
    | Err _ => others (db w) (db w') \/ added
    end
}.

(** One cluster of this name was added, after a moment at which there was none, and its prefix
    is its name. *)
Definition created `{SV : Server} (name : string) (d d' : gmap string ClusterResponse) : Prop :=
  exists s0 s id new, others d s0 /\ (forall i cr, s0 !! i = Some cr -> CommanderApi.Name cr <> name) /\
    others s0 s /\ s !! id = None /\ CommanderApi.Name new = name /\
    valuesToMap (Values new) !! "prefix" = Some (JStr name) /\ others (<[id := new]> s) d'.

Definition progress `{SV : Server} (name : string) (d d' : gmap string ClusterResponse) : Prop :=
  others d d' \/ created name d d'.

Definition ready_in (name : string) (s : gmap string ClusterResponse) : Prop :=
  exists id cr, s !! id = Some cr /\ CommanderApi.Name cr = name /\
    mapStatusToPhase (CommanderApi.Status cr) = ClusterPhaseReady.

Section Ensure.
Context {W : Type} `{SV : Server W} `{CX : Ctx W, TM : !Timeout W, TL : !TimeoutLaws W}.
Context {ST : ServerTime W} {SC : ServerCreate W}.
Context (unmarshalValues : string -> result (option (gmap string json))) (p : commanderProvider).
Context (Hclient : cp_client p = c).
Notation name := (ClusterName (cp_conf p)).

Lemma progress_after d1 d2 d3 : progress name d1 d2 -> others d2 d3 -> progress name d1 d3.
Proof.
  intros [H|(s0 & s & id & new & H)] H23; [left; by transitivity d2|right].
  exists s0, s, id, new. destruct_and! H. split_and!; try done. by transitivity d2.
Qed.

Lemma ListRegistries_others w r w' : ListRegistries c w = (r, w') -> others (db w) (db w').
Proof.
  unfold ListRegistries. intros H. mstep H as [sent w1] E. injection H as _ <-.
  eapply send_others; [exact E|by left].
Qed.

Lemma ListClusterTemplates_others w r w' : ListClusterTemplates c w = (r, w') -> others (db w) (db w').
Proof.
  unfold ListClusterTemplates. intros H. mstep H as [sent w1] E. injection H as _ <-.
  eapply send_others; [exact E|by left].
Qed.

Lemma resolve_registry_others w r w' : resolve_registry p w = (r, w') -> others (db w) (db w').
Proof.
  unfold resolve_registry. rewrite Hclient. destruct (is_set _); intros H.
  - mstep H as [reg w1] E. injection H as _ <-. unfold GetRegistryByName in E.
    mstep E as [l w2] E1. injection E as _ <-. by eapply ListRegistries_others.
  - by injection H as _ <-.
Qed.

(** The create request adds at most the one cluster, and it adds it when it succeeds. *)
Lemma createCluster_progress d w r w' :
  others d (db w) -> (forall i cr, d !! i = Some cr -> CommanderApi.Name cr <> name) ->
  createCluster unmarshalValues p name w = (r, w') ->
  progress name d (db w') /\ (if r is Returns (Ok _) then created name d (db w') else True).
Proof.
  intros Hd Hnone H. unfold createCluster in H. rewrite Hclient in H.
  assert (Hstay : forall e v, others d (db v) -> (Returns (Err e), v) = (r, w') ->
    progress name d (db w') /\ (if r is Returns (Ok _) then created name d (db w') else True)).
  { intros e v Hv [= <- <-]. by split; [left|]. }
  destruct (negb _); [by apply Hstay in H|].
  mstep H as [t w1] E1. unfold GetClusterTemplateByName in E1. mstep E1 as [l w1'] E1'.
  injection E1 as _ <-. apply ListClusterTemplates_others in E1'.
  assert (H1 : others d (db w1')) by (by transitivity (db w)).
  destruct t as [t|]; [|by apply Hstay in H].
  destruct (resolveTemplateVersionID _ _); [|by apply Hstay in H].
  mstep H as [rid w2] E2. apply resolve_registry_others in E2.
  assert (H2 : others d (db w2)) by (by transitivity (db w1')).
  destruct rid as [rid|]; [|by apply Hstay in H].
  destruct (buildValues _ _ _) as [[values|]|] eqn:Ev;
    [|by apply Hstay in H|by injection H as <- <-; split; [left|]].
  mstep H as [resp w3] E3. injection H as <- <-.
  unfold CreateClusterFromTemplate, create_with in E3.
  destruct (marshalCreate _) as [body|] eqn:Em; [|by injection E3 as <- <-; split; [left|]].
  mstep E3 as [sent w4] E4. injection E3 as <- <-.
  apply send_inv in E4 as [[(e & -> & _) ->]|(hs & r' & E4 & Hr)]; [by split; [left|]|].
  pose proof (post_cluster _ _ _ _ _ _ Em E4) as Hpost.
  set (added := exists s id new, _) in Hpost. 
  assert (Hadd : added -> created name d (db w4)).
  { intros (s & id & new & Hs & Hid & Hn & _ & _ & Hv & Ho).
    exists d, s, id, new. split_and!; try done; [by transitivity (db w2)|].
    rewrite Hv. cbn. by destruct (buildValues_prefix _ _ _ _ Ev). }
  assert (Hmay : others (db w2) (db w4) \/ added -> progress name d (db w4)).
  { intros [Ho|Ha]; [left; by transitivity (db w2)|right; by apply Hadd]. }
  clearbody added. destruct r' as [resp|e]; [subst sent|destruct Hr as (e' & -> & _); cbn; split; auto].
  cbn. destruct (StatusCode resp =? 200), (StatusCode resp =? 201); cbn in *;
    unfold decode_body; try destruct (decodeCluster _); split; auto.
Qed.

Lemma timely_createCluster : timely (createCluster (W := W) unmarshalValues p name).
Proof.
  unfold createCluster. rewrite Hclient. destruct (negb _); [apply timely_ret|].
  apply timely_bind.
  { apply timely_bind; [|intros; apply timely_ret]. unfold ListClusterTemplates.
    apply timely_bind; [apply timely_send|intros; apply timely_ret]. }
  intros [t|]; [|apply timely_ret]. destruct (resolveTemplateVersionID _ _); [|apply timely_ret].
  apply timely_bind.
  { unfold resolve_registry. rewrite Hclient. destruct (is_set _); [|apply timely_ret].
    apply timely_bind; [|intros; apply timely_ret]. unfold GetRegistryByName, ListRegistries.
    apply timely_bind; [|intros; apply timely_ret].
    apply timely_bind; [apply timely_send|intros; apply timely_ret]. }
  intros [rid|]; [|apply timely_ret]. destruct (buildValues _ _ _) as [[v|]|]; [|apply timely_ret..].
  apply timely_bind; [|intros; apply timely_ret]. unfold CreateClusterFromTemplate, create_with.
  destruct (marshalCreate _); [|apply timely_ret].
  apply timely_bind; [apply timely_send|intros; apply timely_ret].
Qed.

(** A wait that succeeds has seen a Ready cluster of this name. *)
Lemma WaitForClusterReady_sees fuel w :
  (budget w < fuel)%nat ->
  exists r w', WaitForClusterReady c fuel name w = (Some r, w') /\ others (db w) (db w') /\
    (if r is Ok _ then exists s, others (db w) s /\ others s (db w') /\ ready_in name s else True).
Proof.
  intros Hf. unfold WaitForClusterReady.
  destruct (wait_ticks_total (ready_check c name) (fun ce => Err (default (Errorf "") ce))
    (fun lastStatus => Err (Errorf ("timeout waiting for cluster " +:+ name +:+
       " to become ready (last status: " +:+ lastStatus +:+ ")"))) fuel (10 * Second) "" w)
    as (r & w' & Hw); [|done|].
  { intros s v. unfold ready_check. apply timely_bind; [apply timely_GetClusterByName|].
    intros; apply timely_ret. }
  assert (Hcheck : forall s v s' r v', ready_check c name s v = ((s', r), v') ->
    others (db v) (db v') /\
    (if r is Some (Ok _) then exists d, others (db v) d /\ others d (db v') /\ ready_in name d else True)).
  { intros s v s' r' v' H. unfold ready_check in H. mstep H as [got v1] E1.
    apply GetClusterByName_spec in E1 as [Ho E1]. destruct got as [cr|]; injection H as <- <- <-; [|done].
    split; [done|]. destruct E1 as (_ & _ & d & cr' & H1 & H2 & H3 & H4 & H5).
    destruct (String.eqb_spec (mapStatusToPhase (CommanderApi.Status cr)) ClusterPhaseReady) as [Er|_].
    - exists d. split_and!; [done..|]. exists (ID cr), cr'. rewrite H5. done.
    - by destruct (String.eqb _ _). }
  exists r, w'. split; [exact Hw|].
  eapply (wait_ticks_concluded (ready_check c name) (fun ce => Err (default (Errorf "") ce)) _
    (fun _ v => others (db w) (db v))) in Hw as [s v s' HJ Hc|s ce z v0 v HJ Hd Hc ->|s HJ ->]; try done.
  - apply Hcheck in Hc as [Ho Hc]. split; [by transitivity (db v)|].
    destruct r; [|done]. destruct Hc as (d & H1 & H2 & H3). exists d. split_and!; try done.
    by transitivity (db v).
  - apply ctx_others in Hc. split; [by transitivity (db v)|done].
  - intros s v s' v' HJ [Hc _]%Hcheck. by transitivity (db v).
  - intros s z v ev v' HJ Hc%wake_others. by transitivity (db v).
Qed.

(** The cluster part of [Bootstrap] returns; it creates at most one cluster, and only after
    it found none of this name; that cluster carries the name as its prefix; and when it
    returns nil, a cluster of this name was in a Ready status, or the response to the creation
    said so. *)
Theorem ensureReady_spec fuel w :
  (budget w < fuel)%nat ->
  exists r w', ensureReady fuel unmarshalValues p w = (Some r, w') /\
    progress name (db w) (db w') /\
    (r = Returns None ->
       created name (db w) (db w') \/
       exists s, progress name (db w) s /\ others s (db w') /\ ready_in name s).
Proof.
  intros Hf. unfold ensureReady, GetCluster. rewrite Hclient. unfold mbind, M_bind, mret, M_ret.
  pose proof (timely_GetClusterByName name w) as Hb1.
  destruct (GetClusterByName c name w) as [got w1] eqn:E1. cbn in Hb1.
  apply GetClusterByName_spec in E1 as [Ho1 E1]. destruct got as [cr|e].
  - (* it exists *)
    destruct E1 as (_ & _ & s & cr' & H1 & H2 & H3 & H4 & H5). cbn.
    destruct (String.eqb_spec (mapStatusToPhase (CommanderApi.Status cr)) ClusterPhaseReady) as [Er|_].
    + do 2 eexists. split; [done|]. split; [by left|]. intros _. right. exists s.
      split; [by left|]. split; [done|]. exists (ID cr), cr'. by rewrite H5.
    + destruct (WaitForClusterReady_sees fuel w1) as (r & w' & -> & Ho & Hr); [lia|].
      destruct r as [x|]; do 2 eexists; (split; [reflexivity|]);
        (split; [left; by transitivity (db w1)|]); [|done]. intros _. right. destruct Hr as (d & Ha & Hc & Hd).
      exists d. split; [left; by transitivity (db w1)|done].
  - destruct (errors_Is e "commander.ErrClusterNotFound") eqn:He.
    2: { do 2 eexists. split; [done|]. split; [by left|done]. }
    destruct (E1 eq_refl) as (s0 & H0a & H0b & Hnone).
    pose proof (timely_createCluster w1) as Hb2.
    destruct (createCluster unmarshalValues p name w1) as [got w2] eqn:E2. cbn in Hb2.
    apply (createCluster_progress s0) in E2 as [E2 Hc]; [|done..].
    assert (Hbefore : created name s0 (db w2) -> created name (db w) (db w2)).
    { intros (d & s & id & new & H). exists d, s, id, new. destruct_and! H. split_and!; try done.
      by transitivity s0. }
    assert (Hp : progress name (db w) (db w2)).
    { destruct E2 as [E2|E2]; [left; by transitivity s0|right; by apply Hbefore]. }
    destruct got as [[phase|e2]|]; [|do 2 eexists; split; [done|]; by split..].
    apply Hbefore in Hc. destruct (String.eqb phase ClusterPhaseReady).
    + do 2 eexists. split; [done|]. split; [done|]. by left.
    + destruct (WaitForClusterReady_sees fuel w2) as (r & w' & -> & Ho & Hr); [lia|].
      destruct r as [x|]; do 2 eexists; (split; [reflexivity|]);
        (split; [by eapply progress_after|]); [|done]. intros _. right. destruct Hr as (d & Ha & Hc' & Hd).
      exists d. split; [by eapply progress_after|done].
Qed.
End Ensure.

(** ** A Commander in memory

    It knows one template and at most one cluster, which it makes at the first create request. *)
Record lab := mkLab { lab_made : bool; lab_ticks : nat }.

Definition lab_client : CommanderApi.Client :=
  mkClient "http://c" "/api/v1" "token" AuthMethodXAuthToken "" (120 * Second).

Definition lab_cluster : ClusterResponse :=
  mkClusterResponse "c1" 1 "e2e" "in_sync" (JObj [("prefix", JStr "e2e")]) "v1" "" "Managed" JNull
    (JObj [("masters", JArr [JObj [("host", JStr "10.211.1.16"); ("user", JStr "ubuntu")]])]) "" "" "" 0 "".

Definition lab_db (made : bool) : gmap string ClusterResponse :=
  if made then {[ "c1" := lab_cluster ]} else ∅.

Definition lab_marshal (req : CreateClusterRequest) : result string :=
  match map_to_list (cq_Values req) with
  | [(k, JStr v)] =>
      if String.eqb k "prefix" && String.eqb v "e2e" && String.eqb (cq_Name req) "e2e" &&
         String.eqb (cq_TemplateVersionID req) "v1" && String.eqb (cq_RegistryID req) ""
      then Ok "create e2e"
      else Err (Errorf "unsupported")
  | _ => Err (Errorf "unsupported")
  end.

Definition lab_json : Json := {|
  decodeCluster := fun _ => Ok lab_cluster;
  decodeClusters := fun s => Ok (if String.eqb s "[e2e]" then [lab_cluster] else []);
  decodeWrappedClusters := fun _ => Err (Errorf "not an object");
  decodeTemplates := fun _ => Ok [mkTemplate "t1" "default" "v1" [] []];
  decodeWrappedTemplates := fun _ => Ok (mkWrapped [] []);
  decodeVersions := fun _ => Ok [];
  decodeWrappedVersions := fun _ => Ok (mkWrapped [] []);
  decodeRegistries := fun _ => Ok [];
  decodeWrappedRegistries := fun _ => Ok (mkWrapped [] []);
  decodeChangeRequests := fun _ => Ok [];
  decodeWrappedChangeRequests := fun _ => Ok (mkWrapped [] []);
  decodeKubeconfigResp := fun _ => Err (Errorf "none");
  decodeLegacyCluster := fun _ => Err (Errorf "none");
  decodeLegacyTemplate := fun _ => Err (Errorf "none");
  decodeLegacyTemplates := fun _ => Err (Errorf "none");
  marshalLegacyCluster := fun _ => Err (Errorf "none");
  marshalCreate := lab_marshal;
  marshalUpdate := fun _ => Err (Errorf "read only")
|}.
#[local] Existing Instance lab_json.
#[local] Remove Hints tape_json : typeclass_instances.

#[export] Instance lab_http : Http lab := {|
  NewRequest := fun _ _ => None;
  httpDo := fun rq w =>
    let answer code body := (Ok (mkResponse code body None), w) in
    match rq_method rq with
    | GET =>
        if String.eqb (rq_url rq) (cluster_url lab_client "/clusters")
        then answer 200 (if lab_made w then "[e2e]" else "[]")
        else if String.eqb (rq_url rq) (cluster_url lab_client "/clusters/c1")
        then if lab_made w then answer 200 "e2e" else answer 404 ""
        else if String.eqb (rq_url rq) (cluster_url lab_client "/cluster_templates")
        then answer 200 "[default]"
        else answer 404 ""
    | POST =>
        if String.eqb (rq_url rq) (cluster_url lab_client "/clusters")
        then if lab_made w then answer 409 "exists"
             else (Ok (mkResponse 201 "e2e" None), mkLab true (lab_ticks w))
        else answer 404 ""
    | _ => answer 404 ""
    end
|}.

#[export] Instance lab_server : Server lab lab_client.
Proof.
  refine {| db := fun w => lab_db (lab_made w); others := eq |}.
  - by intros s s' id a b <- -> [= ->].
  - intros rq w r w' H Hm. f_equal. cbn in H. destruct Hm as [Hm|Hu].
    + rewrite Hm in H. by repeat case_match; injection H as _ <-.
    + destruct (String.eqb_spec (rq_url rq) (cluster_url lab_client "/clusters")) as [E|_];
        [by rewrite E in Hu|].
      by repeat case_match; injection H as _ <-.
  - intros hs w resp w' l H Hl. cbn in H. injection H as <- <-. exists (lab_db (lab_made w)).
    split_and!; [done..|]. destruct (lab_made w); cbn in Hl; injection Hl as <-; [|by intros cr []].
    intros cr [<-|[]]. split; [done|]. by exists lab_cluster.
  - intros hs w resp w' l H Hl. cbn in H. injection H as <- <-. exists (lab_db (lab_made w)).
    split_and!; [done..|]. destruct (lab_made w); cbn in Hl; injection Hl as <-; intros id cr; cbn.
    + rewrite lookup_singleton_Some. intros [_ <-]. by left.
    + by rewrite lookup_empty.
  - intros id hs w resp w' cr _ H H200 Hd. cbn [httpDo lab_http rq_method rq_url] in H.
    destruct (String.eqb_spec (cluster_url lab_client ("/clusters/" +:+ id))
                (cluster_url lab_client "/clusters")) as [E|_]; [done|].
    destruct (String.eqb_spec (cluster_url lab_client ("/clusters/" +:+ id))
                (cluster_url lab_client "/clusters/c1")) as [->%tape_url_inv|_].
    + destruct (lab_made w) eqn:Em; injection H as <- <-; [|done]. injection Hd as <-.
      split; [done|]. exists (lab_db true). rewrite Em. split_and!; [done..|]. apply lookup_singleton_eq.
    + destruct (String.eqb_spec (cluster_url lab_client ("/clusters/" +:+ id))
                  (cluster_url lab_client "/cluster_templates")) as [E|_]; [done|].
      by injection H as <- <-.
  - done.
  - intros rq w e w' H. cbn in H. by repeat case_match.
  - intros rq w resp w' e H He. cbn in H. by repeat case_match; simplify_eq.
  - done.
  - done.
  - by intros req e [= <-].
Defined.

#[export] Instance lab_create : ServerCreate lab (c := lab_client).
Proof.
  split. intros req body hs w r w' Hm H. cbn in H, Hm. unfold lab_marshal in Hm.
  destruct (map_to_list (cq_Values req)) as [|[k v] [|]] eqn:El; try done; destruct v; try done.
  destruct (_ && _) eqn:Eb; [|done].
  repeat match goal with H : _ && _ = true |- _ => apply andb_true_iff in H as [H ?%String.eqb_eq] end.
  apply String.eqb_eq in Eb as ->. subst.
  destruct (lab_made w) eqn:Em; injection H as <- <-; cbn; [left; by rewrite Em|].
  exists ∅, "c1", lab_cluster. split_and!; try done; [by rewrite Em|].
  rewrite <- (list_to_map_to_list (cq_Values req)), El. reflexivity.
Qed.

#[export] Instance lab_ctx : Ctx lab := {|
  ctxErr := gets (fun w => match lab_ticks w with O => Some context_Canceled | S _ => None end);
  timerFires := fun _ w => match lab_ticks w with
    | O => (false, w)
    | S n => (true, mkLab (lab_made w) n)
    end
|}.
#[export] Instance lab_timeout : Timeout lab := {|
  wake := fun _ w => match lab_ticks w with
    | O => (WokenDone, w)
    | S n => (WokenTick, mkLab (lab_made w) n)
    end
|}.
#[export] Instance lab_timeout_laws : TimeoutLaws lab.
Proof.
  refine {| budget := lab_ticks |}; cbn.
  - intros z w w'. destruct (lab_ticks w) eqn:E; [|done]. intros [= <-]. unfold gets. rw E. eauto.
  - intros w. lia.
  - intros z w. destruct (lab_ticks w) eqn:E; cbn; lia.
  - intros z w w'. destruct (lab_ticks w) eqn:E; [done|]. intros [= <-]. cbn. lia.
Defined.
#[export] Instance lab_time : ServerTime lab (c := lab_client).
Proof.
  split.
  - intros z w ev w' H. cbn in *. by destruct (lab_ticks w); injection H as _ <-.
  - intros w ce w' H. cbn in *. by injection H as _ <-.
  - intros rq w. change (lab_ticks (httpDo rq w).2 <= lab_ticks w)%nat. cbn.
    by repeat case_match; cbn; lia.
Qed.

Definition lab_conf (values : string) : Config :=
  mkCommander "http://c" "token" "e2e" "default" "" "" values "x-auth-token" "" "/api/v1" false ""
    (30 * Minute) "" "" "" "key" "" "" "" "" "".
Definition lab_provider (values : string) : commanderProvider :=
  mkCommanderProvider (mkClusterConfig ModeCommander "cluster.yml") (lab_conf values) lab_client.
(** [json.Unmarshal]: only [null] and the empty object are recognised. *)
Definition lab_unmarshal (s : string) : result (option (gmap string json)) :=
  if String.eqb s "null" then Ok None
  else if String.eqb s "{}" then Ok (Some ∅) else Err (Errorf "invalid character").

Lemma ensureReady_spec_witness :
  exists r w', ensureReady 4 lab_unmarshal (lab_provider "{}") (mkLab false 3) = (Some r, w') /\
    r = Returns None /\ created "e2e" (lab_db false) (lab_db true).
Proof.
  destruct (ensureReady_spec lab_unmarshal (lab_provider "{}") eq_refl 4 (mkLab false 3))
    as (r & w' & H & Hp & Hr); [change (3 < 4)%nat; lia|].
  exists r, w'. split; [exact H|]. vm_compute in H. injection H as <- <-. split; [reflexivity|].
  destruct Hp as [Hp|Hp]; [|exact Hp].
  apply (f_equal (fun m : gmap string ClusterResponse => m !! "c1")) in Hp. done.
Defined.

(** A clock that timers move, and a cluster whose ModuleConfig API appears after a minute,
    beside a group that never recovers. *)
Record ticker := mkTicker { tk_time : Z; tk_left : nat }.
#[export] Instance ticker_ctx : Ctx ticker := {|
  ctxErr := gets (fun w => match tk_left w with O => Some context_Canceled | S _ => None end);
  timerFires := fun z w => match tk_left w with
    | O => (false, w)
    | S n => (true, mkTicker (tk_time w + z) n)
    end
|}.
#[export] Instance ticker_ctx_laws : CtxLaws ticker.
Proof.
  split. intros z w w' H. cbn in *. unfold gets. destruct (tk_left w) eqn:E; [|done].
  injection H as <-. rewrite E. eauto.
Qed.
Definition ticker_discover : M ticker (list (option APIResourceList) * option error) :=
  gets (fun w => ([None; Some (mkResources moduleConfigGroupVersion
                     (if tk_time w <? Minute then ["modules"] else ["modules"; moduleConfigResource]))],
                  Some (Errorf "metrics.k8s.io/v1beta1: the server is unavailable"))).
#[export] Instance ticker_clock : Clock ticker (gets tk_time) ticker_discover.
Proof.
  refine {| clk := tk_time |}.
  - intros w t w' H. injection H as <- <-. lia.
  - intros w. cbn. lia.
  - intros z w w' H. cbn in H. destruct (tk_left w); [done|]. injection H as <-. cbn. lia.
Defined.

(** The wait goes on for the three minutes of grace and then proceeds. *)
Lemma waitForModuleConfigAPI_ends_witness :
  exists r w', waitForModuleConfigAPI (gets tk_time) ticker_discover 92 None moduleConfigAPITimeout
    (mkTicker 0 100) = (Some r, w') /\ r = None /\ tk_time w' = 250 * Second /\ listed ticker_discover.
Proof.
  destruct (waitForModuleConfigAPI_ends (gets tk_time) ticker_discover 92 None (mkTicker 0 100))
    as (r & w' & H & Hr); [lia|].
  exists r, w'. split; [exact H|]. vm_compute in H. injection H as <- <-.
  split; [reflexivity|]. split; [reflexivity|]. by apply Hr.
Defined.

(** *** The provider, run *)

#[export] Instance pair_http W1 W2 `{H1 : Http W1} : Http (W1 * W2) := {|
  NewRequest := NewRequest; httpDo := fun rq => on_fst (httpDo rq)
|}.
#[export] Instance pair_timeout W1 W2 `{C1 : Ctx W1, T1 : !Timeout W1} : Timeout (W1 * W2) := {|
  wake := fun z => on_fst (wake z)
|}.
#[export] Instance pair_calm_http W1 W2 `{H1 : Http W1, R2 : Remote W2} : CalmHttp (W1 * W2).
Proof. split. intros. apply on_fst_calm. Qed.
#[export] Instance pair_calm_timeout W1 W2 `{C1 : Ctx W1, T1 : !Timeout W1, R2 : Remote W2} :
  CalmTimeout (W1 * W2).
Proof. split. intros. apply on_fst_calm. Qed.
#[export] Instance lab_factory : ClientFactory lab :=
  {| addV1alpha1 := mret None; addV1alpha2 := mret None; clientNew := mret None |}.

Definition labApi : Type :=
  lab * memWorld NodeAddresses * memWorld ModuleConfigSpec * memWorld ModulePullOverrideSpec *
  memWorld Module_.
Definition labWorld : Type := labApi * remoteHosts.

Definition lab_hosts : remoteHosts :=
  mkHosts ∅ [] [] (fun _ _ cmd =>
    if String.eqb cmd getKubeconfigRemoteShell then (mkExec "server: https://127.0.0.1:6445" "" 0, None)
    else if String.eqb cmd "false" then (mkExec "" "" 1, Some (Leaf (KExit 1) "Process exited with status 1"))
    else (mkExec "" "" 0, None)).

Definition snapshot_module : ModuleConfig := mkModule "snapshot-controller" 1 true None [] "".
Definition lab_world (made : bool) : labWorld :=
  ((mkLab made 8,
    holding {["master-0" := mkNodeAddresses [("Hostname", "master-0"); ("InternalIP", "");
                                             ("InternalIP", "10.211.1.16")]]},
    holding ∅, holding ∅,
    holding {["snapshot-controller" := mkModuleStatus "Ready" []]}),
   lab_hosts).

Definition lab_def (modules : list (option ModuleConfig)) : ClusterDefinition :=
  mkDef [vm_node "master-0" None] [] None
    (mkDKP "1.31" "10.111.0.0/16" "10.222.0.0/16" "cluster.local" "registry.deckhouse.io/sys" "" modules).

Definition lab_bootstrap (values : string) (modules : list (option ModuleConfig)) :
    M labWorld (option (ending (option error))) :=
  Bootstrap (fun k => Ok k) (fun k server => Ok (default k server)) (fun _ => None) (mret 0)
    (mret ([Some (mkResources moduleConfigGroupVersion [moduleConfigResource])], None))
    map_to_list (fun T l => l) (fun _ => "") (Ok "/root") (fun _ => Err (Errorf "no such file"))
    lab_unmarshal (Ok (lab_def modules)) 8 (lab_provider values).

(** The cluster is created, the module is enabled through the tunnel, and nothing stays open. *)
Lemma Bootstrap_closes_witness :
  (lab_bootstrap "{}" [Some snapshot_module] (lab_world false)).1 = Some (Returns None) /\
  open_conns (lab_bootstrap "{}" [Some snapshot_module] (lab_world false)).2 = ∅.
Proof.
  split; [vm_compute; reflexivity|].
  exact (proj1 (Bootstrap_closes (W := labWorld) (fun k => Ok k)
    (fun k server => Ok (default k server)) (fun _ => None) (mret 0) (ret_calm _)
    (mret ([Some (mkResources moduleConfigGroupVersion [moduleConfigResource])], None)) (ret_calm _)
    map_to_list (fun T l => l) (fun _ => "") (Ok "/root") (fun _ => Err (Errorf "no such file"))
    lab_unmarshal (Ok (lab_def [Some snapshot_module])) 8 (lab_provider "{}") (lab_world false) _ _
    (surjective_pairing _))).
Defined.

(** Values of [null] do make it panic, and so does an empty entry in the list of modules. *)
Lemma Bootstrap_panics_witness :
  (lab_bootstrap "null" [] (lab_world false)).1 = Some Panics /\
  (lab_bootstrap "{}" [None] (lab_world false)).1 = Some Panics /\
  ((InputValues (lab_conf "null") <> "" /\ lab_unmarshal "null" = Ok None) \/
   exists def, Ok (A := ClusterDefinition) (lab_def []) = Ok def /\ In None (Config.Modules (DKP def))).
Proof.
  assert (E : (lab_bootstrap "null" [] (lab_world false)).1 = Some Panics) by (vm_compute; reflexivity).
  split; [exact E|]. split; [vm_compute; reflexivity|].
  apply (Bootstrap_panics (W := labWorld) (fun k => Ok k)
    (fun k server => Ok (default k server)) (fun _ => None) (mret 0)
    (mret ([Some (mkResources moduleConfigGroupVersion [moduleConfigResource])], None))
    map_to_list (fun T l => l) (fun _ => "") (Ok "/root") (fun _ => Err (Errorf "no such file"))
    lab_unmarshal (Ok (lab_def [])) 8 (lab_provider "null") (lab_world false)
    (lab_bootstrap "null" [] (lab_world false)).2).
  rewrite <- E. exact (surjective_pairing (lab_bootstrap "null" [] (lab_world false))).
Defined.

Lemma commanderNodeExecutor_Exec_runs_witness :
  let run := commanderNodeExecutor_Exec (lab_conf "") (mkCredentials "key" "") "ubuntu" "master-0" "false"
               (lab_world true) in
  run.1 = (mkExec "" "" 1, None) /\
  history run.2 = [mkRun "10.211.1.16" "false" (mkExec "" "" 1)
                     (Some (Leaf (KExit 1) "Process exited with status 1"))] /\
  open_conns run.2 = ∅.
Proof.
  split; [vm_compute; reflexivity|]. split; [vm_compute; reflexivity|].
  exact (proj1 (commanderNodeExecutor_Exec_runs (W := labWorld) (lab_conf "") (mkCredentials "key" "") "ubuntu"
    "master-0" "false" (lab_world true) _ _ (surjective_pairing _))).
Defined.
