(* ===== verification/Suite.v ===== *)
(** A suite from end to end: the default registry ([src/pkg/clusterprovider/registry]) with the
    DVP and the Commander provider behind it, [Connect] and [Close] of the SDK. Both providers
    keep [ProviderLaws], so what the SDK promises holds whichever of them the mode selects. *)
From S2P Require Import CommanderApi Prelude Errors Retry Lease LeaseSafety Kube Timeout Config DvpConfig Deckhouse Virt Disks Provision Remote Connect Deps Install Join DvpProvider E2E Commander CommanderSafety.

Local Open Scope Z_scope.
Local Open Scope go_scope.

(** The error of an operation that waits. *)
Definition act_error {W} (m : act W unit) : M W (option (option error)) :=
  let! r := m in
  mret match r with
       | None => None
       | Some (Err e) => Some (Some e)
       | Some (Ok _) => Some None
       end.

Section Suite.
Context {W : Type} `{AE : ApiErrors, CX : Ctx W, TM : !Timeout W, R : Remote W, LC : LeaseCalls W}.
Context `{HT : Http W, JS : Json, CF : ClientFactory W}.
Context `{NC : Kube.Client W Node, DPC : Kube.Client W Deployment, SC : Kube.Client W Secret}.
Context `{NG : Kube.Client W NodeGroup, NS : Kube.Client W NamespaceObj, NA : Kube.Client W NodeAddresses}.
Context `{MCC : Kube.Client W ModuleConfigSpec, MPC : Kube.Client W ModulePullOverrideSpec}.
Context `{MS : Kube.Client W Module_, IC : Kube.Client W ClusterVirtualImage}.
Context `{VD : Kube.Client W VirtualDisk, VB : Kube.Client W VMBDA, VM : Kube.Client W VirtualMachine}.
Context `{VC : Kube.Client W VirtualMachineClass}.
Context {RestConfig ApiConfig : Type}.
(** Calls of other packages: clientcmd, client-go, the virtualization client, YAML, JSON,
    quantities, SHA-256, the clock, the operating system. *)
Context (clientcmd_Load : string -> result ApiConfig).
Context (ClientConfig : ApiConfig -> option string -> result RestConfig).
Context (NewForConfig dynamicNewForConfig NewDiscovery : RestConfig -> option error).
Context (ServerVersion newClientset newVirtClient : RestConfig -> M W (option error)).
Context (now : M W Z) (discover : M W (list (option APIResourceList) * option error)).
Context (marshal_cfg : Dhctl.dhctlSSHConfigManifest -> result string).
Context (marshal_host : Dhctl.dhctlSSHHostManifest -> result string).
Context (execute_template : Bootstrap.bootstrapParams -> result string).
Context (unmarshalValues : string -> result (option (gmap string json))).
Context (ParseQuantity : string -> result Z) (ParseSize : string -> option Z) (fmtQuantity : Z -> string).
Context (sha256hex : string -> string) (publicKeyOf : string -> string -> result string).
Context (range : gmap string Z -> list (string * Z)) (order : forall T, list T -> list T).
Context (getenv : string -> string) (home : result string) (readFile : string -> result string).
Context (readCA : string -> result bool).
(** [config.LoadClusterDefinition], and [env.Parse] for the settings of either provider. *)
Context (load : string -> result ClusterDefinition).
Context (parseDvp : gmap string string -> result DvpConfig.Config).
Context (parseCommander : gmap string string -> result Commander.Config).
Context (parse : gmap string string -> result ClusterConfig) (environ : gmap string string).
Context (env : Env) (formatRFC3339 : Z -> string) (fuel : nat).

(** *** The DVP provider behind the interface *)

Definition dvp_disks (dvpConf : DvpConfig.Config) : DiskManager W :=
  let ns := Namespace dvpConf in
  let sc := StorageClass dvpConf in
  mkDiskManager
    (CreateDisk fmtQuantity ns sc vmProvisionPollInterval fuel)
    (DeleteDisk ns vmProvisionPollInterval fuel)
    (AttachDisk sha256hex ns vmProvisionPollInterval fuel)
    (DetachDisk sha256hex ns vmProvisionPollInterval fuel)
    (ResizeDisk ParseSize fmtQuantity ns vmProvisionPollInterval fuel).

(** [ConnectTestCluster] of the DVP provider with all the fields of its result. *)
Definition dvp_connect (d : deps W RestConfig) (dvpConf : DvpConfig.Config) (creds : DvpConfig.Credentials)
    (loaded : result ClusterDefinition) : M W (result (Connection W RestConfig)) :=
  let! connected := DvpProvider.ConnectTestCluster d dvpConf loaded in
  mret match connected with
       | Err err => Err err
       | Ok (target, cleanup) =>
           Ok (mkConnection (Some target) (Some (dvpNodeExecutor_Exec dvpConf creds))
                 (Some (dvp_disks dvpConf)) (Some cleanup))
       end.

Definition NewDVPProvider (cfg : ClusterConfig) : result (Provider W RestConfig) :=
  match DvpConfig.LoadConfig parseDvp environ with
  | Err err => Err err
  | Ok dvpConf =>
      match DvpConfig.Resolve getenv home readFile dvpConf with
      | Err err => Err (ErrorfW "resolving credentials: " err "")
      | Ok creds =>
          let d := default_deps NewForConfig ServerVersion fuel sha256hex ParseQuantity order dvpConf
                     clientcmd_Load ClientConfig newVirtClient creds in
          let loaded := load (ClusterBootstrapConfigPath cfg) in
          Ok (mkProvider ModeDVP
                (let! r := act_error (DvpProvider.Bootstrap NewForConfig ServerVersion fuel marshal_cfg
                             marshal_host execute_template now order d dvpConf creds loaded
                             (publicKeyOf (DvpConfig.SSHKey creds) (DvpConfig.SSHPassphrase dvpConf))) in
                 mret (Returns <$> r))
                (act_error (DvpProvider.Remove d dvpConf))
                (dvp_connect d dvpConf creds loaded))
      end
  end.

Definition NewCommanderProvider_ (cfg : ClusterConfig) : result (Provider W RestConfig) :=
  match NewCommanderProvider readCA (parseCommander environ) cfg with
  | Err err => Err err
  | Ok p => Ok (commander_provider clientcmd_Load ClientConfig NewForConfig NewDiscovery now discover
                  range order getenv home readFile unmarshalValues
                  (load (ClusterBootstrapConfigPath cfg)) fuel p)
  end.

Definition DefaultRegistry : Registry (P := Provider W RestConfig) :=
  NewRegistry NewDVPProvider NewCommanderProvider_.

Definition suite_connect (binary : string) (opts : list (connectOptions -> connectOptions))
    : M W (option (ending (result (Cluster (W := W) (RestConfig := RestConfig))))) :=
  E2E.Connect NewForConfig dynamicNewForConfig newClientset env formatRFC3339 fuel parse environ
    DefaultRegistry binary opts.

(** *** What the suite may rely on *)

Context `{RL : !RemoteLaws W, CC : !CalmCtx W, CT : !CalmTimeout W, CH : !CalmHttp W, CL : !CalmLease W}.
Context `{CCF : !CalmFactory W, CN : !CalmClient W Node, CD : !CalmClient W Deployment}.
Context `{CS : !CalmClient W Secret, CNG : !CalmClient W NodeGroup, CNS : !CalmClient W NamespaceObj}.
Context `{CNA : !CalmClient W NodeAddresses, CMC : !CalmClient W ModuleConfigSpec}.
Context `{CMP : !CalmClient W ModulePullOverrideSpec, CMS : !CalmClient W Module_}.
Context `{CI : !CalmClient W ClusterVirtualImage, CVD : !CalmClient W VirtualDisk}.
Context `{CVM : !CalmClient W VirtualMachine, CVC : !CalmClient W VirtualMachineClass}.
Context (ServerVersion_calm : forall cfg, calm (ServerVersion cfg)).
Context (newClientset_calm : forall cfg, calm (newClientset cfg)).
Context (newVirtClient_calm : forall cfg, calm (newVirtClient cfg)).

Lemma dvp_connect_laws d `{!DepsLaws d} dvpConf creds loaded bootstrap remove :
  ProviderLaws (mkProvider ModeDVP bootstrap remove (dvp_connect d dvpConf creds loaded)).
Proof.
  split. intros w r w' H. cbn in H. unfold dvp_connect in H. mstep H as [connected w1] E.
  destruct (connect_test_cluster_opens d dvpConf loaded w _ _ E) as [_ Hc]. injection H as <- <-.
  destruct connected as [[target cleanup]|err]; [|done]. cbn.
  split; [by eexists|]. split; [by eexists|]. by exists cleanup.
Qed.

(** Every provider of the default registry keeps the contract. *)
Lemma default_registry_laws mode constructor cfg p :
  DefaultRegistry !! mode = Some constructor -> constructor cfg = Ok p -> ProviderLaws p.
Proof.
  unfold DefaultRegistry, NewRegistry. intros H Hp.
  destruct (decide (mode = ModeDVP)) as [->|Hne].
  - rewrite lookup_insert_eq in H. injection H as <-. unfold NewDVPProvider in Hp.
    destruct (DvpConfig.LoadConfig _ _) as [dvpConf|]; [|done].
    destruct (DvpConfig.Resolve _ _ _ _) as [creds|]; [|done]. injection Hp as <-.
    apply dvp_connect_laws. by apply default_deps_laws.
  - rewrite lookup_insert_ne in H; [done|].
    rewrite lookup_insert_Some lookup_empty in H. destruct H as [[_ <-]|[_ ?]]; [|done].
    unfold NewCommanderProvider_ in Hp. destruct (NewCommanderProvider _ _ _) as [q|]; [|done].
    injection Hp as <-. apply _.
Qed.

End Suite.

(** ** A suite in memory *)
Definition wideApi : Type :=
  lab * LeaseServer.mem * memWorld NodeAddresses * memWorld ModuleConfigSpec *
  memWorld ModulePullOverrideSpec * memWorld Module_ * memWorld Node * memWorld Deployment *
  memWorld Secret * memWorld NodeGroup * memWorld NamespaceObj * memWorld ClusterVirtualImage *
  memWorld VirtualDisk * memWorld VMBDA * memWorld VirtualMachine * memWorld VirtualMachineClass.
Definition wideWorld : Type := wideApi * remoteHosts.

Definition wide : wideWorld :=
  ((mkLab true 8, LeaseServer.mkMem None 0 0 0, holding ∅, holding ∅, holding ∅, holding ∅,
    holding {["master-0" := mkKubeNode {["node-role.kubernetes.io/control-plane" := ""]}
                              [ready_condition "Ready"]]},
    holding {[ref deckhouseNamespace deckhouseDeploymentName := mkDeployment [ready_condition "Available"]]},
    holding ∅, holding ∅, holding ∅, holding ∅, holding ∅, holding ∅,
    holding {["master-0" := running_vm "10.0.0.1"]}, holding ∅),
   lab_hosts).

Definition wide_suite (mode : string) : M wideWorld (option (ending (result Cluster))) :=
  suite_connect (W := wideWorld) (JS := lab_json) (fun k => Ok k)
    (fun k server => Ok (default k server)) (fun _ => None) (fun _ => None) (fun _ => None)
    (fun _ => mret (Some (Errorf "no route to host"))) (fun _ => mret None) (fun _ => mret None) (mret 0)
    (mret ([], None)) (fun _ => Ok "") (fun _ => Ok "") (fun _ => Ok "") lab_unmarshal (fun _ => Ok 4)
    (fun _ => Some 4) (fun _ => "") (fun s => s) (fun _ _ => Ok "ssh-ed25519") map_to_list (fun T l => l)
    (fun _ => "") (Ok "/root") (fun _ => Ok "file") (fun _ => Ok true) (fun _ => Ok small_cluster)
    (fun _ => Ok test_conf) (fun _ => Ok (lab_conf "{}"))
    (fun _ => Ok (mkClusterConfig mode "cluster.yml")) ∅ suite_env (fun _ => "now") 9 "suite.test" [].

Definition connected (r : option (ending (result (Cluster (W := wideWorld) (RestConfig := string))))) : bool :=
  match r with Some (Returns (Ok _)) => true | _ => false end.

Example both_providers_connect :
  connected (wide_suite ModeCommander wide).1 = true /\ connected (wide_suite ModeDVP wide).1 = true /\
  size (open_conns (wide_suite ModeCommander wide).2) = 2%nat /\
  size (open_conns (wide_suite ModeDVP wide).2) = 4%nat.
Proof. vm_compute. done. Qed.

