(* ===== verification/Cmd.v ===== *)
(** The commands [src/cmd/bootstrap-cluster/main.go] and [src/cmd/remove-cluster/main.go]: a
    provider is chosen by the environment, made, and asked to bootstrap or to remove the cluster
    within a time limit. *)
From S2P Require Import Prelude Errors Retry Env Kube E2E.

Local Open Scope Z_scope.
Local Open Scope go_scope.

(** How the process ends: with status 0, by [log.Fatalf] with its message and status 1, or by a
    panic. *)
Inductive exit := Exit0 | Fatal (msg : string) | Crashed.

Section Cmd.
Context {W RestConfig : Type} `{SC : Scope W}.
Context (parse : gmap string string -> result ClusterConfig) (environ : gmap string string).
Context (registry : Registry (P := Provider W RestConfig)).

(** [if err != nil { log.Fatalf(...) }]. *)
Definition fatal_if (what : string) (err : option error) : exit :=
  match err with Some err => Fatal (what +:+ ": " +:+ Error err) | None => Exit0 end.

(** The provider of the environment, or the end of the process. *)
Definition chosen_provider : Provider W RestConfig + exit :=
  match NewClusterConfig parse environ with
  | Err err => inr (Fatal ("failed to initialize config: " +:+ Error err))
  | Ok cfg =>
      match Get (ClusterProvider cfg) registry with
      | Err err => inr (Fatal ("failed to get provider: " +:+ Error err))
      | Ok newProvider =>
          match newProvider cfg with
          | Err err => inr (Fatal ("failed to build provider: " +:+ Error err))
          | Ok p => inl p
          end
      end
  end.

(** [None]: a wait of the provider ran out of fuel. *)
Definition bootstrap_cluster : M W (option exit) :=
  match chosen_provider with
  | inr e => mret (Some e)
  | inl p =>
      let! r := withTimeout (75 * Minute) (p_Bootstrap p) in
      mret match r with
           | None => None
           | Some Panics => Some Crashed
           | Some (Returns err) => Some (fatal_if "failed to bootstrap cluster" err)
           end
  end.

Definition remove_cluster : M W (option exit) :=
  match chosen_provider with
  | inr e => mret (Some e)
  | inl p =>
      let! r := withTimeout (30 * Minute) (p_Remove p) in
      mret (fatal_if "failed to tear down cluster" <$> r)
  end.

(** A command ends with status 0 exactly when the provider of the environment is registered, was
    made and did its work without an error within the time limit; when there is no provider
    nothing is touched. *)
Theorem commands_exit w :
  (forall w', bootstrap_cluster w = (Some Exit0, w') <->
     exists p w1, chosen_provider = inl p /\ p_Bootstrap p (enter (75 * Minute) w) = (Some (Returns None), w1) /\ w' = leave w w1) /\
  (forall w', remove_cluster w = (Some Exit0, w') <->
     exists p w1, chosen_provider = inl p /\ p_Remove p (enter (30 * Minute) w) = (Some None, w1) /\ w' = leave w w1) /\
  (forall e, chosen_provider = inr e -> bootstrap_cluster w = (Some e, w) /\ remove_cluster w = (Some e, w)).
Proof.
  unfold bootstrap_cluster, remove_cluster. destruct chosen_provider as [p|e] eqn:Hp.
  - split_and!; [intros w'|intros w'|done]; unfold withTimeout, mbind, M_bind, mret, M_ret.
    + destruct (p_Bootstrap p _) as [r w1] eqn:E. split.
      * destruct r as [[[err|]|]|]; try done. intros [= <-]. by exists p, w1.
      * intros (q & w2 & [= <-] & E2 & ->). rewrite E in E2. by injection E2 as -> ->.
    + destruct (p_Remove p _) as [r w1] eqn:E. split.
      * destruct r as [[err|]|]; try done. intros [= <-]. by exists p, w1.
      * intros (q & w2 & [= <-] & E2 & ->). rewrite E in E2. by injection E2 as -> ->.
  - assert (He : e <> Exit0).
    { unfold chosen_provider in Hp. destruct (NewClusterConfig _ _) as [cfg|]; [|by injection Hp as <-].
      destruct (Get _ _) as [mk|]; [|by injection Hp as <-]. destruct (mk cfg); [done|by injection Hp as <-]. }
    split_and!; [intros w'; split; [by intros [= -> _]|by intros (p & w1 & ? & _)]..|by intros e' [= ->]].
Qed.
End Cmd.

(** An environment that names no provider. *)
Example unknown_provider (w : memWorld unit) : bootstrap_cluster (RestConfig := unit)
    (fun _ => Ok (mkClusterConfig "kind" "")) ∅ (NewRegistry (fun _ => Err (Errorf "")) (fun _ => Err (Errorf ""))) w
  = (Some (Fatal ("failed to get provider: provider " +:+ quote "kind" +:+ " is not registered")), w).
Proof. done. Qed.
