(* ===== verification/Kit.v ===== *)
(** Patterns the test kit ([src/pkg/kubernetes], [src/pkg/testkit],
    [src/internal/kubernetes/storage]) is built from: updates under optimistic concurrency with
    a retry on conflicts, waits that sleep until a deadline of their own, objects that are
    created or else updated, deletions that tolerate a missing object. *)
From S2P Require Import Prelude Errors Retry Kube.
From stdpp Require Export relations.

Local Open Scope Z_scope.
Local Open Scope go_scope.

(** ** Objects others write too

    A kind whose objects carry a [resourceVersion]; others may write before every call. *)
Record versioned (O : Type) := mkVersioned { rv : Z; val : O }.
Arguments mkVersioned {O} _ _.
Arguments rv {O} _.
Arguments val {O} _.

Class Shared (W O : Type) := {
  db : W -> gmap string (versioned O);
  sharedGet : string -> M W (result (versioned O));
  sharedUpdate : string -> versioned O -> M W (option error);
  sharedList : M W (result (list (string * versioned O)))
}.

(** What others do: an object they changed has a higher version. *)
Definition moved_on {O} (d d' : gmap string (versioned O)) : Prop :=
  forall k v v', d !! k = Some v -> d' !! k = Some v' -> v' = v \/ rv v < rv v'.

(** Reads show a state of the server; an update is done when its version is the current one,
    as one step, and not done on a conflict. Whether it was done after another error is open. *)
Class SharedLaws (W O : Type) `{ApiErrors, Shared W O} : Prop := {
  sget_ok k w v w' : sharedGet (O := O) k w = (Ok v, w') ->
    moved_on (db w) (db w') /\ db w' !! k = Some v;
  sget_err k w e w' : sharedGet (O := O) k w = (Err e, w') -> moved_on (O := O) (db w) (db w');
  slist_ok w l w' : sharedList (O := O) w = (Ok l, w') ->
    moved_on (O := O) (db w) (db w') /\ l ≡ₚ map_to_list (db w');
  slist_err w e w' : sharedList (O := O) w = (Err e, w') -> moved_on (O := O) (db w) (db w');
  supdate_ok k v w w' : sharedUpdate (O := O) k v w = (None, w') ->
    exists d cur n, moved_on (db w) d /\ d !! k = Some cur /\ rv cur = rv v /\ rv v < n /\
      db w' = <[k := mkVersioned n (val v)]> d;
  supdate_err k v w e w' : sharedUpdate (O := O) k v w = (Some e, w') ->
    moved_on (db w) (db w') \/
    IsConflict (Some e) = false /\
    exists d cur n, moved_on (db w) d /\ d !! k = Some cur /\ rv cur = rv v /\ rv v < n /\
      db w' = <[k := mkVersioned n (val v)]> d
}.

Section ReadModifyWrite.
Context {W O : Type} `{AE : ApiErrors, SH : !Shared W O}.
(** When nothing is to be done, the change, and the errors of the caller. *)
Context (has : O -> bool) (set : O -> O).
Context (getFailed updateFailed exhausted : error -> error).

(** The loop over the attempts that are left; [lastErr] is the conflict of the last one. *)
Fixpoint rmw_loop (left : nat) (name : string) (lastErr : error) : M W (option error) :=
  match left with
  | 0%nat => mret (Some (exhausted lastErr))
  | S left =>
      let! got := sharedGet name in
      match got with
      | Err err => mret (Some (getFailed err))
      | Ok v =>
          if has (val v) then mret None
          else
            let! r := sharedUpdate name (mkVersioned (rv v) (set (val v))) in
            match r with
            | None => mret None
            | Some err => if IsConflict (Some err) then rmw_loop left name err
                          else mret (Some (updateFailed err))
            end
      end
  end.

(** The object is as wanted: it was found so, or it was changed in one step that kept
    everything else about it. *)
Definition settled (name : string) (d d' : gmap string (versioned O)) : Prop :=
  exists d1 v, rtc moved_on d d1 /\ d1 !! name = Some v /\
    ((has (val v) = true /\ d' = d1) \/
     (has (val v) = false /\ exists n, rv v < n /\ d' = <[name := mkVersioned n (set (val v))]> d1)).

(** A write based on a read is a change of what is on the server at that moment. *)
Lemma write_settles name v n w d cur d' :
  moved_on (db (O := O) w) d -> db w !! name = Some v -> d !! name = Some cur ->
  rv cur = rv v -> rv v < n -> has (val v) = false ->
  d' = <[name := mkVersioned n (set (val v))]> d -> settled name (db w) d'.
Proof.
  intros Hm Hv Hc Hrv Hn Hh ->. assert (cur = v) as ->.
  { destruct (Hm name v cur Hv Hc) as [->|Hlt]; [done|lia]. }
  exists d, v. split; [by apply rtc_once|]. split; [done|]. right. eauto.
Qed.

Lemma settled_after name d0 d d' : rtc moved_on d0 d -> settled name d d' -> settled name d0 d'.
Proof. intros H0 (d1 & v & H1 & Hr). exists d1, v. split; [by etrans|done]. Qed.

Lemma rmw_loop_spec `{SL : !SharedLaws W O} left name lastErr w r w' :
  rmw_loop left name lastErr w = (r, w') ->
  match r with
  | None => settled name (db w) (db w')
  | Some _ => rtc moved_on (db (O := O) w) (db w') \/ settled name (db w) (db w')
  end.
Proof.
  revert w lastErr. induction left as [|left IH]; intros w lastErr H; cbn [rmw_loop] in H.
  { injection H as <- <-. by left. }
  mstep H as [got w1] E1. destruct got as [v|e].
  2: { injection H as <- <-. left. by eapply rtc_once, sget_err. }
  destruct (sget_ok _ _ _ _ E1) as [Hm Hv]. destruct (has (val v)) eqn:Hh.
  { injection H as <- <-. exists (db w1), v. split; [by apply rtc_once|]. auto. }
  mstep H as [u w2] E2. destruct u as [e|].
  - apply supdate_err in E2. destruct (IsConflict (Some e)) eqn:Hc.
    + destruct E2 as [E2|[? _]]; [|congruence].
      assert (H0 : rtc moved_on (db (O := O) w) (db w2)) by (by eapply rtc_l, rtc_once).
      apply IH in H. destruct r as [e'|]; [|by eapply settled_after].
      destruct H as [H|H]; [left; by etrans|right; by eapply settled_after].
    + injection H as <- <-. destruct E2 as [E2|(_ & d & cur & n & H1 & H2 & H3 & H4 & H5)];
        [left; by eapply rtc_l, rtc_once|right].
      eapply settled_after; [by apply rtc_once|by eapply (write_settles name v n w1 d cur)].
  - injection H as <- <-. destruct (supdate_ok _ _ _ _ E2) as (d & cur & n & H1 & H2 & H3 & H4 & H5).
    eapply settled_after; [by apply rtc_once|by eapply (write_settles name v n w1 d cur)].
Qed.
End ReadModifyWrite.

(** Several objects, one after another. *)
Section Sequence.
Context {W : Type}.

Fixpoint each {X} (f : X -> M W (option error)) (l : list X) : M W (option error) :=
  match l with
  | [] => mret None
  | x :: l =>
      let! err := f x in
      match err with
      | Some e => mret (Some e)
      | None => each f l
      end
  end.

(** [R x] holds of the states before and after [x]; up to the first error. *)
Inductive chain {X S} (R : X -> S -> S -> Prop) : list X -> S -> S -> Prop :=
| chain_nil s : chain R [] s s
| chain_cons x l s s1 s' : R x s s1 -> chain R l s1 s' -> chain R (x :: l) s s'.

Lemma each_chain {X S} (f : X -> M W (option error)) (view : W -> S) (R E : X -> S -> S -> Prop) l w r w' :
  (forall x w r w', f x w = (r, w') ->
     match r with None => R x (view w) (view w') | Some _ => E x (view w) (view w') end) ->
  each f l w = (r, w') ->
  match r with
  | None => chain R l (view w) (view w')
  | Some _ => exists l1 x l2 s, l = l1 ++ x :: l2 /\ chain R l1 (view w) s /\ E x s (view w')
  end.
Proof.
  intros Hf. revert w. induction l as [|x l IH]; intros w H; cbn [each] in H.
  { injection H as <- <-. constructor. }
  mstep H as [e w1] E1. apply Hf in E1. destruct e as [e|].
  - injection H as <- <-. exists [], x, l, (view w). split; [done|]. split; [constructor|done].
  - apply IH in H. destruct r as [e|]; [|by econstructor].
    destruct H as (l1 & y & l2 & s & -> & Hc & He). exists (x :: l1), y, l2, s.
    split; [done|]. split; [by econstructor|done].
Qed.
End Sequence.

(** ** Waits that sleep

    [time.Now()] and [time.Sleep(d)]; the sleep does not look at the context. *)
Class Clock (W : Type) := {
  now : M W Z;
  sleep : Z -> M W unit
}.

(** Time does not run back, and a sleep takes its time. *)
Class ClockLaws (W : Type) `{Ctx W, Clock W} := {
  clk : W -> Z;
  now_reads w t w' : now w = (t, w') -> clk w <= t <= clk w';
  sleep_passes z w : clk w + z <= clk (sleep z w).2;
  ctxErr_forward w : clk w <= clk (ctxErr w).2
}.

(** Calls take time, if any. *)
Definition forward_in_time {W A} `{ClockLaws W} (m : M W A) : Prop :=
  forall w, clk w <= clk (m w).2.

Section SleepWait.
Context {W A : Type} `{CX : Ctx W, CK : Clock W}.
(** One look; [None]: not yet. [over] is the error after the deadline. *)
Context (check : M W (option A)) (over : error) (interval : Z).

(** [for { if ctx.Err() ...; if time.Now().After(deadline) ...; check; time.Sleep(interval) }];
    [None] only when the fuel runs out. *)
Fixpoint sleep_loop (fuel : nat) (deadline : Z) : M W (option (result A)) :=
  match fuel with
  | 0%nat => mret None
  | S fuel =>
      let! ce := ctxErr in
      match ce with
      | Some e => mret (Some (Err e))
      | None =>
          let! t := now in
          if deadline <? t then mret (Some (Err over))
          else
            let! r := check in
            match r with
            | Some a => mret (Some (Ok a))
            | None => let! _ := sleep interval in sleep_loop fuel deadline
            end
      end
  end.

Definition sleep_wait (fuel : nat) (timeout : Z) : M W (option (result A)) :=
  let! t := now in sleep_loop fuel (t + timeout).

(** A wait that succeeds ended with a look that did. *)
Lemma sleep_loop_ok (J : W -> Prop) fuel deadline w a w' :
  (forall w x w', J w -> ctxErr w = (x, w') -> J w') -> (forall w x w', J w -> now w = (x, w') -> J w') ->
  (forall z w x w', J w -> sleep z w = (x, w') -> J w') -> (forall w x w', J w -> check w = (x, w') -> J w') ->
  J w -> sleep_loop fuel deadline w = (Some (Ok a), w') ->
  exists w0, J w0 /\ check w0 = (Some a, w').
Proof.
  intros H1 H2 H3 H4. revert w. induction fuel as [|fuel IH]; intros w HJ H; cbn [sleep_loop] in H; [done|].
  mstep H as [ce w1] E1. apply H1 in E1; [|done]. destruct ce as [e|]; [done|].
  mstep H as [t w2] E2. apply H2 in E2; [|done]. destruct (deadline <? t); [done|].
  mstep H as [r w3] E3. destruct r as [x|].
  - injection H as <- <-. by exists w2.
  - apply H4 in E3; [|done]. mstep H as [u w4] E4. apply H3 in E4; [|done]. by eapply IH.
Qed.

Lemma sleep_wait_ok fuel timeout w a w' :
  sleep_wait fuel timeout w = (Some (Ok a), w') -> exists w0, check w0 = (Some a, w').
Proof.
  intros H. unfold sleep_wait in H. mstep H as [t w1] E1.
  apply (sleep_loop_ok (fun _ => True)) in H as (w0 & _ & H); eauto.
Qed.

Context {CL : ClockLaws W} (check_forward : forward_in_time check).

(** The number of rounds is bounded by the time there is. *)
Lemma sleep_loop_ends fuel deadline w :
  0 < interval -> deadline < clk w + Z.of_nat fuel * interval ->
  exists r w', sleep_loop (S fuel) deadline w = (Some r, w').
Proof.
  intros Hi. revert w. induction fuel as [|fuel IH]; intros w Hd; cbn [sleep_loop];
    unfold mbind, M_bind, mret, M_ret; pose proof (ctxErr_forward w) as Hc;
    destruct (ctxErr w) as [[e|] w1]; try (by eexists _, _); cbn in Hc;
    destruct (now w1) as [t w2] eqn:E2; pose proof (now_reads _ _ _ E2) as Ht;
    destruct (Z.ltb_spec deadline t) as [|Hle]; try (by eexists _, _).
  { lia. }
  pose proof (check_forward w2) as Hk. destruct (check w2) as [[a|] w3]; [by eexists _, _|]. cbn in Hk.
  pose proof (sleep_passes interval w3) as Hs. destruct (sleep interval w3) as [u w4]. cbn in Hs.
  apply IH. lia.
Qed.

Lemma sleep_wait_ends fuel timeout w :
  0 < interval -> timeout < Z.of_nat fuel * interval ->
  exists r w', sleep_wait (S fuel) timeout w = (Some r, w').
Proof.
  intros Hi Ht. unfold sleep_wait, mbind, M_bind. destruct (now w) as [t w1] eqn:E.
  apply now_reads in E. apply sleep_loop_ends; [done|lia].
Qed.
End SleepWait.

(** ** A clock beside a server in memory *)
#[export] Instance pair_clock W : Clock (W * Z) := {|
  now := gets snd;
  sleep := fun z w => (tt, (w.1, w.2 + Z.max 0 z))
|}.

#[export] Instance pair_clock_laws W `{Ctx W} : ClockLaws (W * Z).
Proof.
  refine {| clk := snd |}.
  - intros w t w' [= <- <-]. lia.
  - intros z w. cbn. lia.
  - intros w. cbn. unfold on_fst. destruct (ctxErr w.1). cbn. lia.
Defined.

Lemma on_fst_forward {W A} `{Ctx W} (m : M W A) : forward_in_time (on_fst (W2 := Z) m).
Proof. intros w. unfold on_fst. destruct (m w.1). cbn. lia. Qed.

(** ** Creating and deleting *)
Section CreateDelete.
Context {W O : Type} `{AE : ApiErrors, CO : !Client W O}.

(** [Create], and an object that exists already is left alone. *)
Definition createOrSkip (name : string) (o : O) (failed : error -> error) : M W (option error) :=
  let! r := clientCreate name o in
  mret match r with
       | None => None
       | Some e => if IsAlreadyExists (Some e) then None else Some (failed e)
       end.

(** [Delete], and a missing object is no error. *)
Definition deleteOrSkip (name : string) (failed : error -> error) : M W (option error) :=
  let! r := clientDelete O name in
  mret match r with
       | None => None
       | Some e => if IsNotFound (Some e) then None else Some (failed e)
       end.

Context `{CL : !ClientLaws W O}.

Lemma createOrSkip_ok name o failed w w' :
  createOrSkip name o failed w = (None, w') ->
  (objs (O := O) w !! name = None /\ objs w' = <[name := o]> (objs w)) \/
  (is_Some (objs (O := O) w !! name) /\ objs (O := O) w' = objs w).
Proof.
  intros H. unfold createOrSkip in H. mstep H as [r w1] E1. destruct r as [e|].
  - destruct (IsAlreadyExists (Some e)) eqn:Ha; [|done]. injection H as <-. right.
    destruct (create_err _ _ _ _ _ E1) as [_ H]. by destruct (H Ha).
  - injection H as <-. left. by apply create_ok.
Qed.
End CreateDelete.

(** ** A server in memory that others write to

    [tape] holds, per call, what happens just before it: somebody writes an object, or the call
    fails on the way. *)
Inductive meanwhile (O : Type) := Nothing | SomebodyWrites (k : string) (o : O) | CallFails (msg : string).
Arguments Nothing {O}.
Arguments SomebodyWrites {O} _ _.
Arguments CallFails {O} _.

Record shared_mem (O : Type) := mkShared { sm_db : gmap string (versioned O); tape : list (meanwhile O) }.
Arguments mkShared {O} _ _.
Arguments sm_db {O} _.
Arguments tape {O} _.

Definition next_version {O} (d : gmap string (versioned O)) (k : string) : Z :=
  match d !! k with Some v => rv v + 1 | None => 0 end.

Definition sm_call {O A} (fail : error -> A)
    (act : gmap string (versioned O) -> A * gmap string (versioned O)) : M (shared_mem O) A := fun m =>
  let run d tp := let '(a, d') := act d in (a, mkShared d' tp) in
  match tape m with
  | CallFails msg :: tp => (fail (Errorf msg), mkShared (sm_db m) tp)
  | SomebodyWrites k o :: tp => run (<[k := mkVersioned (next_version (sm_db m) k) o]> (sm_db m)) tp
  | Nothing :: tp => run (sm_db m) tp
  | [] => run (sm_db m) []
  end.

#[export] Instance sm_shared O : Shared (shared_mem O) O := {|
  db := sm_db;
  sharedGet := fun k => sm_call Err (fun d =>
    (match d !! k with Some v => Ok v | None => Err (notFoundError k) end, d));
  sharedUpdate := fun k v => sm_call Some (fun d =>
    match d !! k with
    | Some cur => if rv cur =? rv v then (None, <[k := mkVersioned (rv v + 1) (val v)]> d)
                  else (Some (conflictError k), d)
    | None => (Some (notFoundError k), d)
    end);
  sharedList := sm_call Err (fun d => (Ok (map_to_list d), d))
|}.

Lemma moved_on_refl {O} (d : gmap string (versioned O)) : moved_on d d.
Proof. intros k v v' H1 H2. left. congruence. Qed.

(** The call failed on the way, or it worked on what others left. *)
Lemma sm_call_cases {O A} (fail : error -> A) act (m : shared_mem O) a m' :
  sm_call fail act m = (a, m') ->
  (exists msg, a = fail (Errorf msg) /\ sm_db m' = sm_db m) \/
  exists d, moved_on (sm_db m) d /\ act d = (a, sm_db m').
Proof.
  unfold sm_call. destruct (tape m) as [|[|k o|msg] tp].
  - destruct (act _) as [b d] eqn:E. intros [= <- <-]. right. eauto using moved_on_refl.
  - destruct (act _) as [b d] eqn:E. intros [= <- <-]. right. eauto using moved_on_refl.
  - set (d0 := <[k := _]> _). destruct (act d0) as [b d] eqn:E. intros [= <- <-]. right.
    exists d0. split; [|done]. intros k' v v' Hv Hv'. subst d0.
    apply lookup_insert_Some in Hv' as [[<- <-]|[_ Hv']]; [|left; congruence].
    right. unfold next_version. rewrite Hv. cbn. lia.
  - intros [= <- <-]. left. eauto.
Qed.

#[export] Instance sm_shared_laws O : SharedLaws (shared_mem O) O.
Proof.
  split; cbn [sharedGet sharedUpdate sharedList sm_shared db]; intros *; intros H;
    apply sm_call_cases in H as [(msg & H & Hd)|(d & Hm & H)]; try done;
    try (rewrite Hd; by apply moved_on_refl).
  - destruct (d !! k) eqn:E; [|done]. injection H as <- <-. done.
  - destruct (d !! k) eqn:E; [done|]. by injection H as _ <-.
  - by injection H as <- <-.
  - destruct (d !! k) as [cur|] eqn:E; [|done]. destruct (Z.eqb_spec (rv cur) (rv v)); [|done].
    injection H as <-. exists d, cur, (rv v + 1). repeat split; try done; lia.
  - left. rewrite Hd. apply moved_on_refl.
  - left. destruct (d !! k) as [cur|] eqn:E; [destruct (rv cur =? rv v)|]; try done; by injection H as _ <-.
Qed.

(** Several kinds side by side. *)
#[export] Instance pair_shared_fst W1 W2 O `{S1 : Shared W1 O} : Shared (W1 * W2) O | 10 := {|
  db := fun w => db w.1;
  sharedGet := fun k => on_fst (sharedGet k);
  sharedUpdate := fun k v => on_fst (sharedUpdate k v);
  sharedList := on_fst sharedList |}.
#[export] Instance pair_shared_snd W1 W2 O `{S2 : Shared W2 O} : Shared (W1 * W2) O | 20 := {|
  db := fun w => db w.2;
  sharedGet := fun k => on_snd (sharedGet k);
  sharedUpdate := fun k v => on_snd (sharedUpdate k v);
  sharedList := on_snd sharedList |}.

#[export] Instance pair_shared_fst_laws W1 W2 O `{AE : ApiErrors, S1 : Shared W1 O, L1 : !SharedLaws W1 O} :
  SharedLaws (W1 * W2) O (H0 := pair_shared_fst W1 W2 O).
Proof.
  split; cbn; intros *; intros [H _]%on_fst_inv; revert H;
    [apply sget_ok|apply sget_err|apply slist_ok|apply slist_err|apply supdate_ok|apply supdate_err].
Qed.
#[export] Instance pair_shared_snd_laws W1 W2 O `{AE : ApiErrors, S2 : Shared W2 O, L2 : !SharedLaws W2 O} :
  SharedLaws (W1 * W2) O (H0 := pair_shared_snd W1 W2 O).
Proof.
  split; cbn; intros *; intros [H _]%on_snd_inv; revert H;
    [apply sget_ok|apply sget_err|apply slist_ok|apply slist_err|apply supdate_ok|apply supdate_err].
Qed.
