(* ===== verification/KitNodes.v ===== *)
(** Nodes and block devices of the test kit: [src/pkg/kubernetes/nodes.go],
    [src/pkg/kubernetes/blockdevice.go], [src/internal/kubernetes/storage/blockdevice.go]. *)
From S2P Require Import Prelude Errors Retry Kube Kit.

Local Open Scope Z_scope.
Local Open Scope go_scope.

(** ** Nodes *)

Record Taint := mkTaint { Key : string; Value : string; Effect : string }.
Record KNode := mkKNode { Labels : gmap string string; Taints : list Taint }.

Definition TaintEffectNoSchedule := "NoSchedule".
Definition TaintEffectNoExecute := "NoExecute".
Definition nodeLabelPollInterval : Z := 10 * Second.

(** [maxRetries] of the labelling loops. *)
Definition maxRetries : nat := 5.

(** [labels[key] == value], with an absent key that is not the empty value. *)
Definition has_label (key value : string) (labels : gmap string string) : bool :=
  match labels !! key with Some v => String.eqb v value | None => false end.

Definition is_master (node : KNode) : bool :=
  bool_decide (is_Some (Labels node !! "node-role.kubernetes.io/control-plane")) ||
  bool_decide (is_Some (Labels node !! "node-role.kubernetes.io/master")).

Definition set_label (key value : string) (node : KNode) : KNode :=
  mkKNode (<[key := value]> (Labels node)) (Taints node).

Section Nodes.
Context {W : Type} `{AE : ApiErrors, CX : Ctx W, SN : Shared W KNode}.
(** [NewClientsetWithRetry] on the kubeconfig. *)
Context (newClientset : M W (option error)).

Definition GetNodes : M W (result (list (string * versioned KNode))) :=
  let! err := newClientset in
  match err with
  | Some e => mret (Err (ErrorfW "failed to create clientset: " e ""))
  | None =>
      let! l := sharedList in
      mret match l with
           | Err e => Err (ErrorfW "failed to list nodes: " e "")
           | Ok l => Ok l
           end
  end.

Definition GetWorkerNodes : M W (result (list (string * versioned KNode))) :=
  let! all := GetNodes in
  mret match all with
       | Err e => Err e
       | Ok l => Ok (filter (fun p => is_master (val p.2) = false) l)
       end.

(** The attempts for one node. *)
Definition label_node (key value : string) (name : string) : M W (option error) :=
  rmw_loop (fun node => has_label key value (Labels node)) (set_label key value)
    (fun e => ErrorfW ("failed to get node " +:+ name +:+ ": ") e "")
    (fun e => ErrorfW ("failed to label node " +:+ name +:+ ": ") e "")
    (fun e => ErrorfW ("failed to label node " +:+ name +:+ " after " +:+ pretty maxRetries +:+
                       " attempts: ") e "")
    maxRetries name (Errorf "").

Definition LabelNodes (nodeNames : list string) (key value : string) : M W (option error) :=
  match nodeNames with
  | [] => mret None
  | _ =>
      let! err := newClientset in
      match err with
      | Some e => mret (Some (ErrorfW "failed to create clientset: " e ""))
      | None => each (label_node key value) nodeNames
      end
  end.

Definition GetNodeTaints (nodeName : string) : M W (result (list Taint)) :=
  let! err := newClientset in
  match err with
  | Some e => mret (Err (ErrorfW "failed to create clientset: " e ""))
  | None =>
      let! node := sharedGet nodeName in
      mret match node with
           | Err e => Err (ErrorfW ("failed to get node " +:+ nodeName +:+ ": ") e "")
           | Ok v => Ok (Taints (val v))
           end
  end.

Definition keeps_out (t : Taint) : bool :=
  String.eqb (Effect t) TaintEffectNoSchedule || String.eqb (Effect t) TaintEffectNoExecute.

Definition IsNodeCordoned (nodeName : string) : M W (result bool) :=
  let! taints := GetNodeTaints nodeName in
  mret match taints with
       | Err e => Err e
       | Ok l => Ok (existsb keeps_out l)
       end.

(** The goroutine of one node; it looks for the first time after a tick. *)
Definition label_check (key value name : string) (_ : unit) : M W (unit * option (option error)) :=
  let! got := sharedGet (O := KNode) name in
  mret (tt, match got with
            | Ok v => if has_label key value (Labels (val v)) then Some None else None
            | Err _ => None
            end).

Definition wait_labeled (fuel : nat) (key value name : string) : M W (option (option error)) :=
  poll_loop (label_check key value name)
    (fun _ ce => Some (ErrorfWn "timeout waiting for label: " ce "")) fuel nodeLabelPollInterval tt.

(** The results in the order in which the goroutines send them. *)
Fixpoint collect_results (fuel : nat) (key value : string) (names : list string)
    : M W (option (list error)) :=
  match names with
  | [] => mret (Some [])
  | name :: names =>
      let! r := wait_labeled fuel key value name in
      let! rs := collect_results fuel key value names in
      mret match r, rs with
           | Some None, Some es => Some es
           | Some (Some e), Some es => Some (ErrorfW ("node " +:+ name +:+ ": ") e "" :: es)
           | _, _ => None
           end
  end.

(** [order]: the order in which the nodes come to an end. *)
Definition WaitForNodesLabeled (order : list string -> list string) (fuel : nat) (nodeNames : list string)
    (key value : string) : M W (option (option error)) :=
  match nodeNames with
  | [] => mret (Some None)
  | _ =>
      let! err := newClientset in
      match err with
      | Some e => mret (Some (Some (ErrorfW "failed to create Kubernetes client: " e "")))
      | None =>
          let! errs := collect_results fuel key value (order nodeNames) in
          mret match errs with
               | None => None
               | Some [] => Some None
               | Some es => Some (Some (Errorf ("failed to wait for nodes to be labeled: " +:+
                                                  fmt_strings (map Error es))))
               end
      end
  end.

(** ** Theorems *)
Context `{SL : !SharedLaws W KNode}.

Notation has_it key value := (fun node : KNode => has_label key value (Labels node)).

(** [LabelNodes] returns nil only when, node by node in the given order, the node was found
    with the label or was given it by one write that changed nothing else about the node as it
    was on the server at that moment, whatever others write in between; after an error the
    nodes before the failing one are labelled so, and of the failing one at most the label
    changed. *)
Theorem LabelNodes_atomic names key value w r w' :
  (forall w, rtc moved_on (db (O := KNode) w) (db (newClientset w).2)) ->
  LabelNodes names key value w = (r, w') ->
  exists d, rtc moved_on (db w) d /\
    match r with
    | None => chain (settled (has_it key value) (set_label key value)) names d (db w')
    | Some _ => exists l1 l2 d1, names = l1 ++ l2 /\
        chain (settled (has_it key value) (set_label key value)) l1 d d1 /\
        match l2 with
        | [] => d1 = db w'
        | name :: _ => rtc moved_on d1 (db w') \/
                       settled (has_it key value) (set_label key value) name d1 (db w')
        end
    end.
Proof.
  intros Hnew H. unfold LabelNodes in H. destruct names as [|n0 names].
  { injection H as <- <-. exists (db w). split; [done|constructor]. }
  specialize (Hnew w). mstep H as [err w1] E1. cbn in Hnew. exists (db w1). split; [done|].
  destruct err as [e|].
  { injection H as <- <-. exists [], (n0 :: names), (db w1). split; [done|]. split; [constructor|by left]. }
  apply (each_chain _ db (settled (has_it key value) (set_label key value)) (fun name d d' => rtc moved_on d d' \/
           settled (has_it key value) (set_label key value) name d d')) in H.
  - destruct r as [e|]; [|done]. destruct H as (l1 & x & l2 & d & Hl & Hc & He).
    exists l1, (x :: l2), d. done.
  - intros name v r' v' Hr. by apply rmw_loop_spec in Hr.
Qed.

(** What [settled] leaves of the other labels and of the taints. *)
Lemma set_label_keeps key value node k :
  k <> key -> Labels (set_label key value node) !! k = Labels node !! k.
Proof. intros Hk. cbn. by rewrite lookup_insert_ne. Qed.

Lemma set_label_has key value node : has_label key value (Labels (set_label key value node)) = true.
Proof. unfold has_label. cbn. rewrite lookup_insert_eq. apply String.eqb_refl. Qed.

(** The workers are exactly the nodes without a master label. *)
Lemma GetWorkerNodes_ok w l w' :
  GetWorkerNodes w = (Ok l, w') ->
  forall name v, (name, v) ∈ l <-> db w' !! name = Some v /\ is_master (val v) = false.
Proof.
  intros H name v. unfold GetWorkerNodes, GetNodes in H. mstep H as [all w1] E1.
  mstep E1 as [err w2] E2. destruct err as [e|]; [by injection E1 as <- <-|].
  mstep E1 as [l0 w3] E3. injection E1 as <- <-. destruct l0 as [l0|e]; [|done].
  injection H as <- <-. apply slist_ok in E3 as [_ Hp].
  rewrite list_elem_of_filter Hp elem_of_map_to_list. naive_solver.
Qed.
End Nodes.

(** A node somebody else writes to between the read and the update. *)
Definition busy_nodes : shared_mem KNode :=
  mkShared {["worker-0" := mkVersioned 7 (mkKNode {["zone" := "a"]} [])]}
    [Nothing; SomebodyWrites "worker-0" (mkKNode {["zone" := "b"]} [])].

Example LabelNodes_atomic_witness :
  exists w', LabelNodes (mret None) ["worker-0"] "role" "storage" busy_nodes = (None, w') /\
    sm_db w' !! "worker-0" = Some (mkVersioned 9 (mkKNode {["zone" := "b"; "role" := "storage"]} [])) /\
    exists d, chain (settled (fun node => has_label "role" "storage" (Labels node))
                      (set_label "role" "storage")) ["worker-0"] d (sm_db w').
Proof.
  destruct (LabelNodes (mret None) ["worker-0"] "role" "storage" busy_nodes) as [r w'] eqn:E.
  assert (Hr : r = None) by (vm_compute in E; by injection E as <- _).
  assert (Hw : sm_db w' !! "worker-0" =
            Some (mkVersioned 9 (mkKNode {["zone" := "b"; "role" := "storage"]} [])))
    by (vm_compute in E; injection E as _ <-; vm_compute; reflexivity).
  subst r. exists w'. split; [reflexivity|]. split; [exact Hw|].
  destruct (LabelNodes_atomic (mret None) ["worker-0"] "role" "storage" busy_nodes None w')
    as (d & _ & Hc); [by intros|exact E|]. by exists d.
Defined.

(** ** Block devices *)

(** The fields of [snc.BlockDevice] the code reads; [Size] as [Quantity.String] renders it. *)
Record BlockDevice := mkBlockDevice {
  bdLabels : gmap string string;
  Consumable : bool;
  bdNodeName : string;
  bdPath : string;
  bdSize : string
}.

Record BlockDeviceInfo := mkInfo { Name : string; NodeName : string; Path : string; Size : string }.

Definition info_of (p : string * versioned BlockDevice) : BlockDeviceInfo :=
  let bd := val p.2 in mkInfo p.1 (bdNodeName bd) (bdPath bd) (bdSize bd).

Definition set_bd_label (key value : string) (bd : BlockDevice) : BlockDevice :=
  mkBlockDevice (<[key := value]> (bdLabels bd)) (Consumable bd) (bdNodeName bd) (bdPath bd) (bdSize bd).

Section BlockDevices.
Context {W : Type} `{AE : ApiErrors, CX : Ctx W, SB : Shared W BlockDevice}.
(** [snc.AddToScheme] on a new scheme, and [client.New]. *)
Context (addToScheme : option error) (clientNew : M W (option error)).
(** [NewDynamicClientWithRetry] on the kubeconfig. *)
Context (newDynamicClient : M W (option error)).

(** [NewBlockDeviceClient]. *)
Definition NewBlockDeviceClient : M W (option error) :=
  DoVoid ctxErr timerFires DefaultConfig
    match addToScheme with
    | Some e => mret (Some (ErrorfW "failed to add sds-node-configurator scheme: " e ""))
    | None =>
        let! err := clientNew in
        mret match err with
             | Some e => Some (ErrorfW "failed to create controller-runtime client: " e "")
             | None => None
             end
    end.

Definition List : M W (result (list (string * versioned BlockDevice))) :=
  let! l := sharedList in
  mret match l with
       | Err e => Err (ErrorfW "failed to list BlockDevices: " e "")
       | Ok l => Ok l
       end.

Definition bd_Get (name : string) : M W (result (versioned BlockDevice)) :=
  let! got := sharedGet name in
  mret match got with
       | Err e => Err (ErrorfW ("failed to get BlockDevice " +:+ name +:+ ": ") e "")
       | Ok bd => Ok bd
       end.

Definition list_if (keep : BlockDevice -> bool) : M W (result (list BlockDeviceInfo)) :=
  let! l := List in
  mret match l with
       | Err e => Err e
       | Ok l => Ok (map info_of (filter (fun p => keep (val p.2) = true) l))
       end.

Definition ListConsumable : M W (result (list BlockDeviceInfo)) := list_if Consumable.
Definition ListByNode (nodeName : string) : M W (result (list BlockDeviceInfo)) :=
  list_if (fun bd => String.eqb (bdNodeName bd) nodeName).
Definition ListConsumableByNode (nodeName : string) : M W (result (list BlockDeviceInfo)) :=
  list_if (fun bd => String.eqb (bdNodeName bd) nodeName && Consumable bd).

Definition with_bd_client {A} (k : M W (result A)) : M W (result A) :=
  let! err := NewBlockDeviceClient in
  match err with
  | Some e => mret (Err (ErrorfW "failed to create BlockDevice client: " e ""))
  | None => k
  end.

Definition GetConsumableBlockDevices : M W (result (list BlockDeviceInfo)) :=
  with_bd_client ListConsumable.

Definition GetConsumableBlockDevicesByNode (nodeName : string) : M W (result (list BlockDeviceInfo)) :=
  if String.eqb nodeName "" then mret (Err (Errorf "nodeName is required"))
  else with_bd_client (ListConsumableByNode nodeName).

(** [labels[labelKey] == labelValue]: an absent label reads as the empty value. *)
Definition bd_has_label (key value : string) (bd : BlockDevice) : bool :=
  String.eqb (default "" (bdLabels bd !! key)) value.

Definition LabelBlockDevice (name key value : string) : M W (option error) :=
  let! err := newDynamicClient in
  match err with
  | Some e => mret (Some (ErrorfW "failed to create dynamic client: " e ""))
  | None =>
      rmw_loop (bd_has_label key value) (set_bd_label key value)
        (fun e => ErrorfW ("failed to get BlockDevice " +:+ name +:+ ": ") e "")
        (fun e => ErrorfW ("failed to label BlockDevice " +:+ name +:+ ": ") e "")
        (fun e => ErrorfW ("failed to label BlockDevice " +:+ name +:+ " after " +:+ pretty maxRetries +:+
                           " attempts: ") e "")
        maxRetries name (Errorf "")
  end.

Context `{SL : !SharedLaws W BlockDevice}.

(** The devices that are listed are those on the server, each with its name. *)
Lemma list_if_ok keep w l w' :
  list_if keep w = (Ok l, w') ->
  forall i, i ∈ l <-> exists name v, db w' !! name = Some v /\ keep (val v) = true /\ i = info_of (name, v).
Proof.
  intros H i. unfold list_if, List in H. mstep H as [l1 w1] E1. mstep E1 as [l0 w2] E2.
  injection E1 as <- <-. destruct l0 as [l0|e]; [|done]. injection H as <- <-.
  apply slist_ok in E2 as [_ Hp]. rewrite list_elem_of_fmap. split.
  - intros ([name v] & -> & Hin). apply list_elem_of_filter in Hin as [Hk Hin].
    rewrite Hp elem_of_map_to_list in Hin. eauto.
  - intros (name & v & Hv & Hk & ->). exists (name, v). split; [done|].
    apply list_elem_of_filter. split; [done|]. by rewrite Hp elem_of_map_to_list.
Qed.

(** Listing keeps to what others do. *)
Lemma list_if_moves keep w r w' : list_if keep w = (r, w') -> rtc moved_on (db (O := BlockDevice) w) (db w').
Proof.
  intros H. unfold list_if, List in H. mstep H as [l1 w1] E1. mstep E1 as [l0 w2] E2.
  injection E1 as <- <-. injection H as _ <-. apply rtc_once.
  destruct l0; [by eapply slist_ok|by eapply slist_err].
Qed.

Lemma LabelBlockDevice_spec name key value w r w' :
  (forall w, rtc moved_on (db (O := BlockDevice) w) (db (newDynamicClient w).2)) ->
  LabelBlockDevice name key value w = (r, w') ->
  match r with
  | None => settled (bd_has_label key value) (set_bd_label key value) name (db w) (db w')
  | Some _ => rtc moved_on (db w) (db w') \/
              settled (bd_has_label key value) (set_bd_label key value) name (db w) (db w')
  end.
Proof.
  intros Hnew H. unfold LabelBlockDevice in H. specialize (Hnew w). mstep H as [err w1] E1. cbn in Hnew.
  destruct err as [e|]; [injection H as <- <-; by left|].
  apply rmw_loop_spec in H; [|exact SL]. destruct r as [e|]; [|by eapply settled_after].
  destruct H as [H|H]; [left; by etrans|right; by eapply settled_after].
Qed.
End BlockDevices.

(** An empty value counts as set already: the device is left without the label. *)
Example LabelBlockDevice_empty_value :
  let disk := mkVersioned 1 (mkBlockDevice ∅ true "worker-0" "/dev/sdb" "20Gi") in
  let world := mkShared {["dev-1" := disk]} [] in
  LabelBlockDevice (mret None) "dev-1" "osd" "" world = (None, world).
Proof. vm_compute. reflexivity. Qed.
