(* ===== verification/KitPods.v ===== *)
(** Pods, claims and secrets of the test kit: [src/pkg/kubernetes/pod.go], [pvc.go],
    [pod_exec.go], [vmpod.go], [secrets.go]. The clients are those of the namespace at hand;
    label selectors belong to the API server and are predicates. *)
From S2P Require Import Prelude Errors Retry Kube Kit Deckhouse.

Local Open Scope Z_scope.
Local Open Scope go_scope.

(** ** Pods *)

Definition PodRunning := "Running".
Definition PodSucceeded := "Succeeded".

(** The state of an ephemeral container; [nil] fields all around are [StNone]. *)
Inductive containerState :=
| StNone
| StRunning
| StTerminated (reason : string) (exitCode : Z)
| StWaiting (reason message : string).

Record EphemeralContainer := mkEphemeral {
  ecName : string;
  ecImage : string;
  ecCommand : list string;
  ecTarget : string
}.

(** The program of a container of the stress tests: the shell scripts are named, not spelled
    out. [Flog check]: the generator, with the search for leftovers of an earlier start. *)
Inductive script :=
| DataPreloader | DataWriter | DataChecker | Flog (check : bool) | CheckExt4 | CheckRestored.

(** A container; [cMount] is the volume it mounts and where. *)
Record Container := mkContainer {
  cName : string;
  cImage : string;
  cScript : script;
  cEnv : list (string * string);
  cMount : string * string
}.

(** [Volumes]: names of volumes with the claims behind them; [AntiAffinity]: pods with the
    label load-test=true are preferred on other hosts. *)
Record PodSpec := mkPodSpec {
  RestartPolicy : string;
  SchedulerName : string;
  AntiAffinity : bool;
  Tolerations : list string;
  InitContainers : list Container;
  Containers : list Container;
  Volumes : list (string * string)
}.

Definition emptyPodSpec : PodSpec := mkPodSpec "" "" false [] [] [] [].

(** The fields of [corev1.Pod] the code reads or writes. *)
Record Pod := mkPod {
  podPhase : string;
  podReason : string;
  podConditions : list Condition;
  podNodeName : string;
  containerIDs : list string;
  ephemeralContainers : list EphemeralContainer;
  ephemeralStatuses : list (string * containerState);
  podLabels : gmap string string;
  podSpec : PodSpec
}.

(** The pod counts: completed, or running without a Ready condition that is not true. *)
Definition pod_settled (pod : Pod) : bool :=
  String.eqb (podPhase pod) PodSucceeded ||
  (String.eqb (podPhase pod) PodRunning &&
   forallb (fun c => negb (String.eqb (Type_ c) "Ready" && negb (String.eqb (Status_ c) "True")))
     (podConditions pod)).

Section Pods.
Context {W : Type} `{AE : ApiErrors, CX : Ctx W, CK : Clock W, PC : Client W Pod}.
Context (newClientset : M W (option error)).

Definition all_ready_look : M W (option unit) :=
  let! pods := clientList in
  mret match pods with
       | Err _ => None
       | Ok [] => None
       | Ok l => if forallb (fun p => pod_settled p.2) l then Some tt else None
       end.

Definition void (r : option (result unit)) : option (option error) :=
  match r with
  | None => None
  | Some (Ok _) => Some None
  | Some (Err e) => Some (Some e)
  end.

Definition WaitForAllPodsReadyInNamespace (fuel : nat) (namespace : string) (timeout : Z)
    : M W (option (option error)) :=
  let! err := newClientset in
  match err with
  | Some e => mret (Some (Some (ErrorfW "failed to create clientset: " e "")))
  | None =>
      let! r := sleep_wait all_ready_look
                  (Errorf ("timeout waiting for all pods to be ready in namespace " +:+ namespace))
                  (2 * Second) fuel timeout in
      mret (void r)
  end.

(** ** [WaitForPodsStatus] *)

Definition in_status (status : string) (pod : Pod) : bool :=
  String.eqb (podPhase pod) status ||
  (String.eqb status "Completed" && String.eqb (podPhase pod) PodSucceeded).
Definition is_failed (status : string) (pod : Pod) : bool :=
  negb (in_status status pod) &&
  (String.eqb (podPhase pod) "Failed" || String.eqb (podPhase pod) "Error").
Definition is_pending (status : string) (pod : Pod) : bool :=
  negb (in_status status pod) && negb (is_failed status pod) && String.eqb (podPhase pod) "Pending".

Definition count {A} (p : A -> bool) (l : list A) : Z := Z.of_nat (length (List.filter p l)).

Lemma count_perm {A} (p : A -> bool) l l' : l ≡ₚ l' -> count p l = count p l'.
Proof.
  unfold count. induction 1 as [|x l l' _ IH|x y l|l l1 l2 _ IH1 _ IH2]; cbn; [done| | |congruence].
  - destruct (p x); cbn [length]; lia.
  - destruct (p x), (p y); reflexivity.
Qed.

(** One round; the state is the number of attempts made. *)
Definition pods_round (selects : Pod -> bool) (status : string) (expectedCount maxAttempts : Z)
    (attempt : Z) : M W (Z * option (option error)) :=
  let! ce := ctxErr in
  match ce with
  | Some e => mret (attempt, Some (Some (ErrorfW ("context cancelled while waiting for pods status " +:+
                                                   status +:+ ": ") e "")))
  | None =>
      let! pods := clientList in
      match pods with
      | Err e => mret (attempt, Some (Some (ErrorfW "failed to list pods: " e "")))
      | Ok l =>
          let pods := List.filter (fun p : string * Pod => selects p.2) l in
          let readyCount := count (fun p => in_status status p.2) pods in
          let failedPods := List.filter (fun p => is_failed status p.2) pods in
          let failed := Z.of_nat (length failedPods) in
          if expectedCount <=? readyCount then mret (attempt, Some None)
          else if (0 <? failed) && (Z.quot expectedCount 10 <? failed)
          then mret (attempt, Some (Some (Errorf ("too many pods failed (" +:+ pretty failed +:+
                 " failed): " +:+ fmt_strings (map (fun p => p.1 +:+ " (reason: " +:+
                                                     podReason p.2 +:+ ")") failedPods)))))
          else
            let attempt := attempt + 1 in
            if (0 <? maxAttempts) && (maxAttempts <=? attempt)
            then mret (attempt, Some (Some (Errorf ("timeout waiting for pods status " +:+ status +:+
                   ": " +:+ pretty readyCount +:+ "/" +:+ pretty expectedCount +:+ " ready after " +:+
                   pretty maxAttempts +:+ " attempts (failed: " +:+ pretty failed +:+ ", pending: " +:+
                   pretty (count (fun p => is_pending status p.2) pods) +:+ ")"))))
            else mret (attempt, None)
      end
  end.

Definition WaitForPodsStatus (fuel : nat) (selects : Pod -> bool) (status : string)
    (expectedCount maxAttempts interval : Z) : M W (option (option error)) :=
  poll (pods_round selects status expectedCount maxAttempts)
    (fun _ ce => Some (ErrorfWn ("context cancelled while waiting for pods status " +:+ status +:+ ": ") ce ""))
    fuel interval 0.

(** ** The pod of a virtual machine ([vmpod.go]) *)

Fixpoint pick_vm_pod (namespace vmName : string) (pods : list (string * Pod)) : result (string * string) :=
  match pods with
  | [] => Err (Errorf ("no running pod for VM " +:+ vmName +:+ " in namespace " +:+ namespace))
  | (name, pod) :: pods =>
      if negb (String.eqb (podPhase pod) PodRunning) then pick_vm_pod namespace vmName pods
      else if negb (Contains name vmName) then pick_vm_pod namespace vmName pods
      else if String.eqb (podNodeName pod) "" then pick_vm_pod namespace vmName pods
      else match List.find (fun id => negb (String.eqb id "")) (containerIDs pod) with
           | Some id => Ok (podNodeName pod, id)
           | None => Err (Errorf ("pod " +:+ namespace +:+ "/" +:+ name +:+ " has no container ID yet"))
           end
  end.

Definition GetVMPodNodeAndContainerID (newForConfig : option error) (namespace vmName : string)
    : M W (result (string * string)) :=
  match newForConfig with
  | Some e => mret (Err (ErrorfW "create clientset: " e ""))
  | None =>
      let! pods := clientList in
      mret match pods with
           | Err e => Err (ErrorfW ("list pods in " +:+ namespace +:+ ": ") e "")
           | Ok l => pick_vm_pod namespace vmName l
           end
  end.

(** ** Theorems *)
Section PodTheorems.
Context `{CL : !CtxLaws W, PL : !ClientLaws W Pod}.

Lemma pods_round_cases selects status expected maxAttempts a w a' r w' :
  pods_round selects status expected maxAttempts a w = ((a', r), w') ->
  match r with
  | None => a' = a + 1 /\ (0 < maxAttempts -> a' < maxAttempts)
  | Some None => expected <= count (fun p => selects p.2 && in_status status p.2) (map_to_list (objs w'))
  | Some (Some _) => True
  end.
Proof.
  intros H. unfold pods_round in H. mstep H as [ce w1] E1. destruct ce as [e|]; [by injection H as _ <- _|].
  mstep H as [l w2] E2. destruct l as [l|e]; [|by injection H as _ <- _].
  apply list_ok in E2 as [Hp Ho]. set (pods := List.filter _ l) in H.
  destruct (Z.leb_spec expected (count (fun p => in_status status p.2) pods)) as [Hle|_].
  - injection H as _ <- <-. rewrite Ho.
    assert (Hc : count (fun p => in_status status p.2) pods =
                 count (fun p => selects p.2 && in_status status p.2) l).
    { subst pods. unfold count. f_equal. clear. induction l as [|x l IH]; [done|]. cbn.
      destruct (selects x.2); cbn; [|done]. destruct (in_status status x.2); cbn; by rewrite IH. }
    by rewrite Hc (count_perm _ _ _ Hp) in Hle.
  - destruct ((0 <? _) && _); [by injection H as _ <- _|].
    destruct (Z.ltb_spec 0 maxAttempts) as [Hm|Hm]; cbn [andb] in H.
    + destruct (Z.leb_spec maxAttempts (a + 1)); injection H as <- <- _; [done|]. split; [done|lia].
    + injection H as <- <- _. split; [done|lia].
Qed.

(** A wait whose rounds count themselves ends after [n] of them, whatever the context does. *)
Lemma counted_poll {A} (round : Z -> M W (Z * option A)) over fuel interval maxAttempts a w :
  (forall a w a' r w', round a w = ((a', r), w') -> r = None -> a' = a + 1 /\ a' < maxAttempts) ->
  (maxAttempts <= a + Z.of_nat fuel + 1)%Z ->
  exists r w', poll round over fuel interval a w = (Some r, w').
Proof.
  intros Hr. revert a w.
  assert (Hloop : forall fuel a w, (maxAttempts <= a + Z.of_nat fuel)%Z -> a < maxAttempts ->
            exists r w', poll_loop round over fuel interval a w = (Some r, w')).
  { clear fuel. intros fuel. induction fuel as [|fuel IH]; intros a w Hf Ha; [lia|]. cbn [poll_loop].
    unfold mbind, M_bind, mret, M_ret. destruct (timerFires interval w) as [b w1]. destruct b.
    - destruct (round a w1) as [[a' r] w2] eqn:E. destruct r as [x|]; [by eexists _, _|].
      destruct (Hr _ _ _ _ _ E eq_refl). apply IH; lia.
    - destruct (ctxErr w1). by eexists _, _. }
  intros a w Hf. unfold poll, mbind, M_bind, mret, M_ret.
  destruct (round a w) as [[a' r] w1] eqn:E. destruct r as [x|]; [by eexists _, _|].
  destruct (Hr _ _ _ _ _ E eq_refl). apply Hloop; lia.
Qed.

Lemma WaitForPodsStatus_ok fuel selects status expected maxAttempts interval w w' :
  WaitForPodsStatus fuel selects status expected maxAttempts interval w = (Some None, w') ->
  expected <= count (fun p => selects p.2 && in_status status p.2) (map_to_list (objs w')).
Proof.
  intros H. apply (poll_ended _ _ (fun _ _ => True)) in H; [|done..].
  destruct H as [a v a' _ Hc|a ce z v0 v1 _ _ _ [=]]. by apply pods_round_cases in Hc.
Qed.

(** [WaitForPodsStatus] with a positive number of attempts returns after at most that many
    lists, also under a context without a deadline, and returns nil only when a list shows at
    least the expected number of selected pods in the status. *)
Theorem WaitForPodsStatus_spec fuel selects status expected maxAttempts interval w :
  0 < maxAttempts -> maxAttempts <= Z.of_nat fuel + 1 ->
  exists r w', WaitForPodsStatus fuel selects status expected maxAttempts interval w = (Some r, w') /\
    (r = None ->
     expected <= count (fun p => selects p.2 && in_status status p.2) (map_to_list (objs w'))).
Proof.
  intros Hm Hf. unfold WaitForPodsStatus.
  destruct (counted_poll (pods_round selects status expected maxAttempts)
    (fun _ ce => Some (ErrorfWn ("context cancelled while waiting for pods status " +:+ status +:+ ": ") ce ""))
    fuel interval maxAttempts 0 w) as (r & w' & H); [|lia|].
  { intros a v a' r v' Hr ->. apply pods_round_cases in Hr as [-> Hlt]. split; [done|]. by apply Hlt. }
  exists r, w'. split; [done|]. intros ->. by eapply WaitForPodsStatus_ok.
Qed.

(** [WaitForAllPodsReadyInNamespace] returns within its timeout, and returns nil only when a
    list shows pods and all of them settled. *)
Lemma WaitForAllPodsReady_spec `{CKL : !ClockLaws W} fuel namespace timeout w :
  forward_in_time newClientset -> forward_in_time (clientList (O := Pod)) ->
  timeout < Z.of_nat fuel * (2 * Second) ->
  exists r w', WaitForAllPodsReadyInNamespace (S fuel) namespace timeout w = (Some r, w') /\
    (r = None -> objs (O := Pod) w' <> ∅ /\
      forall name pod, objs w' !! name = Some pod -> pod_settled pod = true).
Proof.
  intros Hn Hl Ht. unfold WaitForAllPodsReadyInNamespace. unfold mbind at 1, M_bind at 1.
  destruct (newClientset w) as [[e|] w1]; [by eexists _, _|]. unfold mbind at 1, M_bind at 1.
  set (over := Errorf _).
  destruct (sleep_wait_ends all_ready_look over (2 * Second)) with (fuel := fuel) (timeout := timeout) (w := w1)
    as (r & w' & H); [|done|done|].
  { intros v. unfold all_ready_look, mbind, M_bind. specialize (Hl v). destruct (clientList v). exact Hl. }
  rewrite H. exists (match r with Ok _ => None | Err e => Some e end), w'.
  split; [by destruct r|]. destruct r as [[]|e]; [intros _|done].
  apply sleep_wait_ok in H as (w0 & H). unfold all_ready_look in H. mstep H as [l w2] E.
  destruct l as [l|e]; [|done]. destruct (forallb (fun p => pod_settled p.2) l) eqn:Hall; [|by destruct l].
  destruct l as [|p l]; [done|]. injection H as <-. apply list_ok in E as [Hp Ho]. rewrite Ho. split.
  - intros He. rewrite He map_to_list_empty in Hp. by apply Permutation_nil_r in Hp.
  - intros name pod Hin. apply elem_of_map_to_list in Hin. rewrite <- Hp in Hin.
    apply list_elem_of_In in Hin. rewrite forallb_forall in Hall. by apply (Hall (name, pod)).
Qed.
End PodTheorems.
End Pods.

Definition worker_pod (phase : string) : Pod := mkPod phase "" [] "node-0" ["id"] [] [] ∅ emptyPodSpec.

Definition pod_world : memWorld Pod :=
  mkWorld (mkMem {["a" := worker_pod "Running"; "b" := worker_pod "Pending"]} []) 9 false.

Example WaitForPodsStatus_spec_witness :
  exists r w', WaitForPodsStatus 3 (fun _ => true) "Running" 2 3 Second pod_world = (Some r, w') /\
    (r = None -> 2 <= count (fun p => true && in_status "Running" p.2) (map_to_list (objs w'))).
Proof. apply (WaitForPodsStatus_spec 3 (fun _ => true) "Running" 2 3 Second pod_world); lia. Defined.

(** The pod of [master-10] is taken for the one of [master-1]. *)
Example vm_pod_by_substring :
  pick_vm_pod "vms" "master-1" [("virt-launcher-master-10-x7k2p", worker_pod "Running")]
  = Ok ("node-0", "id").
Proof. reflexivity. Qed.

(** ** Claims ([pvc.go]) *)

(** The spec of a claim: the requested bytes, the class, what it is filled from ([apiGroup],
    kind and name) and whether the volume mode is given as Filesystem. *)
Record PVCSpec := mkPVCSpec {
  requestStorage : Z;
  storageClassName : string;
  dataSource : option (option string * string * string);
  filesystemMode : bool
}.

(** [capacity]: [status.capacity] is nil, has no storage entry, or has one (in bytes). *)
Record PVC := mkPVC {
  pvcPhase : string;
  capacity : option (option Z);
  pvcLabels : gmap string string;
  pvcSpec : PVCSpec
}.

Definition ClaimBound := "Bound".

Section Claims.
Context {W : Type} `{AE : ApiErrors, CX : Ctx W, VC : Client W PVC}.
Context (ParseQuantity : string -> result Z).

(** The attempt counts only when some claim is bound. *)
Definition bound_round (selects : PVC -> bool) (expectedCount maxAttempts : Z) (attempt : Z)
    : M W (Z * option (option error)) :=
  let! pvcs := clientList in
  match pvcs with
  | Err e => mret (attempt, Some (Some e))
  | Ok l =>
      let boundCount := count (fun p : string * PVC => selects p.2 && String.eqb (pvcPhase p.2) ClaimBound) l in
      if expectedCount <=? boundCount then mret (attempt, Some None)
      else
        let attempt := if 0 <? boundCount then attempt + 1 else attempt in
        if (0 <? maxAttempts) && (maxAttempts <=? attempt)
        then mret (attempt, Some (Some (Errorf ("timeout waiting for PVCs to be bound: " +:+
               pretty boundCount +:+ "/" +:+ pretty expectedCount +:+ " bound after " +:+
               pretty maxAttempts +:+ " attempts"))))
        else mret (attempt, None)
  end.

Definition WaitForPVCsBound (fuel : nat) (selects : PVC -> bool) (expectedCount maxAttempts interval : Z)
    : M W (option (option error)) :=
  poll (bound_round selects expectedCount maxAttempts) (fun _ ce => ce) fuel interval 0.

(** How many of the claims have the size. *)
Fixpoint count_resized (target : Z) (names : list string) : M W (result Z) :=
  match names with
  | [] => mret (Ok 0)
  | name :: names =>
      let! got := clientGet name in
      match got with
      | Err e => mret (Err e)
      | Ok pvc =>
          let! rest := count_resized target names in
          mret match rest with
               | Err e => Err e
               | Ok n => Ok (n + match capacity pvc with
                                 | Some (Some size) => if size =? target then 1 else 0
                                 | _ => 0
                                 end)
               end
      end
  end.

Definition resized_round (names : list string) (target maxAttempts : Z) (attempt : Z)
    : M W (Z * option (option error)) :=
  let! n := count_resized target names in
  let total := Z.of_nat (length names) in
  match n with
  | Err e => mret (attempt, Some (Some e))
  | Ok resized =>
      if resized =? total then mret (attempt, Some None)
      else
        let attempt := if 0 <? resized then attempt + 1 else attempt in
        if (0 <? maxAttempts) && (maxAttempts <=? attempt)
        then mret (attempt, Some (Some (Errorf ("timeout waiting for PVCs to be resized: " +:+
               pretty resized +:+ "/" +:+ pretty total +:+ " resized after " +:+ pretty maxAttempts +:+
               " attempts"))))
        else mret (attempt, None)
  end.

Definition WaitForPVCsResized (fuel : nat) (pvcNames : list string) (targetSize : string)
    (maxAttempts interval : Z) : M W (option (option error)) :=
  match ParseQuantity targetSize with
  | Err e => mret (Some (Some (ErrorfW ("invalid target size " +:+ targetSize +:+ ": ") e "")))
  | Ok target => poll (resized_round pvcNames target maxAttempts) (fun _ ce => ce) fuel interval 0
  end.

(** [ResizeList]: [patch name size] replaces [/spec/resources/requests/storage]; every claim is
    patched, in the order the goroutines get to it, and the first error sent is returned. *)
Context (patch : string -> string -> M W (option error)).

Fixpoint patch_all (newSize : string) (names : list string) : M W (list error) :=
  match names with
  | [] => mret []
  | name :: names =>
      let! err := patch name newSize in
      let! errs := patch_all newSize names in
      mret match err with
           | Some e => ErrorfW ("failed to resize PVC " +:+ name +:+ ": ") e "" :: errs
           | None => errs
           end
  end.

Definition ResizeList (order : list string -> list string) (pvcNames : list string) (newSize : string)
    : M W (option error) :=
  let! errs := patch_all newSize (order pvcNames) in mret (head errs).

Context `{CL : !CtxLaws W, VL : !ClientLaws W PVC}.

Lemma bound_round_ok selects expected maxAttempts a w a' w' :
  bound_round selects expected maxAttempts a w = ((a', Some None), w') ->
  expected <= count (fun p => selects p.2 && String.eqb (pvcPhase p.2) ClaimBound) (map_to_list (objs w')).
Proof.
  intros H. unfold bound_round in H. mstep H as [l w1] E1. destruct l as [l|e]; [|done].
  apply list_ok in E1 as [Hp Ho]. destruct (Z.leb_spec expected (count (fun p : string * PVC =>
    selects p.2 && String.eqb (pvcPhase p.2) ClaimBound) l)) as [Hle|_].
  - injection H as _ <-. rewrite Ho. by rewrite (count_perm _ _ _ Hp) in Hle.
  - by destruct ((0 <? maxAttempts) && _).
Qed.

Lemma WaitForPVCsBound_ok fuel selects expected maxAttempts interval w w' :
  WaitForPVCsBound fuel selects expected maxAttempts interval w = (Some None, w') ->
  expected <= count (fun p => selects p.2 && String.eqb (pvcPhase p.2) ClaimBound) (map_to_list (objs w')).
Proof.
  intros H. apply (poll_ended _ _ (fun _ _ => True)) in H; [|done..].
  destruct H as [a v a' _ Hc|a ce z v0 v1 Hd Hce _ Hn]; [by eapply bound_round_ok|].
  destruct (ctx_done _ _ _ Hd) as (e & v2 & He). congruence.
Qed.

(** What reading the claims one by one finds. *)
Lemma count_resized_ok target names w n w' :
  count_resized target names w = (Ok n, w') ->
  0 <= n <= Z.of_nat (length names) /\ objs (O := PVC) w' = objs w /\
  (n = Z.of_nat (length names) -> forall name, name ∈ names ->
     exists pvc, objs (O := PVC) w !! name = Some pvc /\ capacity pvc = Some (Some target)).
Proof.
  revert w n. induction names as [|name names IH]; intros w n H; cbn [count_resized] in H.
  { injection H as <- <-. cbn. split; [lia|]. split; [done|]. intros _ x Hx. by apply elem_of_nil in Hx. }
  mstep H as [got w1] E1. destruct got as [pvc|e]; [|done]. apply get_ok in E1 as [Hg Ho].
  mstep H as [rest w2] E2. destruct rest as [m|e]; [|done]. injection H as <- <-.
  destruct (IH _ _ E2) as (Hb & Ho2 & Hall). rewrite Ho in Ho2, Hall.
  assert (Hone : (match capacity pvc with Some (Some size) => if size =? target then 1 else 0 | _ => 0 end) = 1
            /\ capacity pvc = Some (Some target) \/
            (match capacity pvc with Some (Some size) => if size =? target then 1 else 0 | _ => 0 end) = 0).
  { destruct (capacity pvc) as [[size|]|]; [|by right|by right].
    destruct (Z.eqb_spec size target); [left; by subst|by right]. }
  cbn [length]. split; [lia|]. split; [done|]. intros Hn x Hx.
  apply elem_of_cons in Hx as [->|Hx]; [|apply Hall; [lia|done]].
  destruct Hone as [[_ Hc]|H0]; [by exists pvc|lia].
Qed.

(** [WaitForPVCsResized] returns nil only after a look in which every claim had the size. *)
Lemma WaitForPVCsResized_ok fuel names size maxAttempts interval w w' :
  WaitForPVCsResized fuel names size maxAttempts interval w = (Some None, w') ->
  exists target, ParseQuantity size = Ok target /\ forall name, name ∈ names ->
    exists pvc, objs (O := PVC) w' !! name = Some pvc /\ capacity pvc = Some (Some target).
Proof.
  unfold WaitForPVCsResized. destruct (ParseQuantity size) as [target|e]; [|done]. intros H.
  exists target. split; [done|]. apply (poll_ended _ _ (fun _ _ => True)) in H; [|done..].
  destruct H as [a v a' _ Hc|a ce z v0 v1 Hd Hce _ Hn];
    [|destruct (ctx_done _ _ _ Hd) as (e & v2 & He); congruence].
  unfold resized_round in Hc. mstep Hc as [n v1] E1. destruct n as [n|e]; [|done].
  destruct (count_resized_ok _ _ _ _ _ E1) as (_ & Ho & Hall).
  destruct (Z.eqb_spec n (Z.of_nat (length names))) as [->|_]; [|by destruct ((0 <? maxAttempts) && _)].
  injection Hc as _ <-. rewrite Ho. by apply Hall.
Qed.

(** Every claim is patched, whatever became of the others; the error that is returned belongs
    to a claim of the list. *)
Lemma ResizeList_ok order names size w w' :
  ResizeList order names size w = (None, w') -> patch_all size (order names) w = ([], w').
Proof.
  intros H. unfold ResizeList in H. mstep H as [errs w1] E. injection H as Hh <-.
  by destruct errs.
Qed.
End Claims.

(** While no claim is bound the attempts are not counted: the wait goes on past [maxAttempts]. *)
Example unbound_attempts_do_not_count fuel :
  let world := mkWorld (mkMem {["pvc-0" := mkPVC "Pending" None ∅ (mkPVCSpec 0 "" None false)]} []) fuel false in
  (WaitForPVCsBound fuel (fun _ => true) 1 1 Second world).1 = None.
Proof.
  cbn. unfold WaitForPVCsBound, poll. cbn.
  induction fuel as [|fuel IH]; [done|]. cbn. exact IH.
Qed.
