(* ===== verification/KitExec.v ===== *)
(** Commands in pods and reading files of images without a shell
    ([src/pkg/kubernetes/pod_exec.go]), and secrets under names with hidden characters
    ([src/pkg/kubernetes/secrets.go]). *)
From S2P Require Import Prelude Errors Retry Kube Kit Deckhouse KitPods.
From Stdlib Require SpecFloat.

Local Open Scope Z_scope.
Local Open Scope go_scope.

(** ** [pod_exec.go] *)

Definition DefaultEphemeralStartupTimeout : Z := 60 * Second.
Definition DefaultDistrolessSessionTTL : Z := 30 * Minute.
Definition ephemeralPollInterval : Z := 500000000.

Record ReadFileOptions := mkReadOptions { DebugImage : string; StartupTimeout : Z; SessionTTL : Z }.

(** [int64(d.Seconds())]: the seconds and the rest are added in binary64. *)
Definition seconds_int (d : Z) : Z :=
  int_of_float (SpecFloat.SFadd 53 1024 (float_of_int (Z.quot d Second))
                 (SpecFloat.SFdiv 53 1024 (float_of_int (Z.rem d Second)) (float_of_int Second))).

Definition requireDebugImage (image : string) : option error :=
  if String.eqb image "" then
    Some (Errorf "ReadFileOptions.DebugImage is required (use a minimal image with cat and sleep from your cluster registry)")
  else None.

Record DistrolessReader := mkReader {
  r_namespace : string;
  r_podName : string;
  r_targetContainer : string;
  r_ephemeralName : string
}.

Definition PodName (r : DistrolessReader) : string := r_podName r.
Definition EphemeralName (r : DistrolessReader) : string := r_ephemeralName r.

Section Exec.
Context {W : Type} `{AE : ApiErrors, CX : Ctx W, PC : Client W Pod}.
Context (newClientset : M W (option error)).
(** [remotecommand.NewSPDYExecutor] and the stream: what was written to stdout and stderr. *)
Context (newSPDYExecutor : string -> string -> string -> list string -> option error).
Context (stream : string -> string -> string -> list string -> M W (string * string * option error)).
(** [UpdateEphemeralContainers], and four bytes of [rand.Read] in hexadecimal. *)
Context (updateEphemeral : string -> Pod -> M W (option error)) (randomHex : M W (result string)).

Definition ExecInPod (namespace pod container : string) (cmd : list string)
    : M W (string * string * option error) :=
  let! err := newClientset in
  let at_pod := namespace +:+ "/" +:+ pod +:+ "[" +:+ container +:+ "]" in
  match err with
  | Some e => mret ("", "", Some (ErrorfW "create clientset: " e ""))
  | None =>
      match newSPDYExecutor namespace pod container cmd with
      | Some e => mret ("", "", Some (ErrorfW ("create SPDY executor for " +:+ at_pod +:+ ": ") e ""))
      | None =>
          let! '(stdout, stderr, err) := stream namespace pod container cmd in
          mret match err with
               | Some e => (stdout, stderr, Some (ErrorfW ("exec " +:+ fmt_strings cmd +:+ " in " +:+
                              at_pod +:+ ": ") e (" (stderr=" +:+ quote stderr +:+ ")")))
               | None => (stdout, stderr, None)
               end
      end
  end.

Definition ReadFileFromPod (namespace pod container path : string) : M W (string * option error) :=
  let! '(stdout, stderr, err) := ExecInPod namespace pod container ["cat"; path] in
  mret match err with
       | Some e => (stdout, Some e)
       | None =>
           if negb (String.eqb stderr "")
           then (stdout, Some (Errorf ("cat " +:+ path +:+ " in " +:+ namespace +:+ "/" +:+ pod +:+ "[" +:+
                   container +:+ "] reported stderr: " +:+ stderr)))
           else (stdout, None)
       end.

Definition ReadFile (r : DistrolessReader) (path : string) : M W (string * option error) :=
  let! '(stdout, stderr, err) := ExecInPod (r_namespace r) (r_podName r) (r_ephemeralName r)
                                   ["cat"; "/proc/1/root" +:+ path] in
  let what := "read " +:+ path +:+ " from " +:+ r_namespace r +:+ "/" +:+ r_podName r +:+ "[" +:+
              r_targetContainer r +:+ "] via ephemeral " +:+ r_ephemeralName r +:+ ": " in
  mret match err with
       | Some e => (stdout, Some (ErrorfW what e ""))
       | None => if negb (String.eqb stderr "") then (stdout, Some (Errorf (what +:+ "stderr=" +:+ stderr)))
                 else (stdout, None)
       end.

(** The statuses of the container, in order; one that says nothing decisive is passed over. *)
Fixpoint started (podName ecName : string) (l : list (string * containerState)) : option (option error) :=
  match l with
  | [] => None
  | (name, st) :: l =>
      if negb (String.eqb name ecName) then started podName ecName l
      else match st with
           | StRunning => Some None
           | StTerminated reason code =>
               Some (Some (Errorf ("ephemeral container " +:+ quote ecName +:+ " in pod " +:+ podName +:+
                 " terminated before exec: reason=" +:+ reason +:+ " exitCode=" +:+ pretty code)))
           | StWaiting reason message =>
               if String.eqb reason "ImagePullBackOff" || String.eqb reason "ErrImagePull"
               then Some (Some (Errorf ("ephemeral container " +:+ quote ecName +:+ " in pod " +:+ podName +:+
                      " cannot start: " +:+ reason +:+ ": " +:+ message)))
               else started podName ecName l
           | StNone => started podName ecName l
           end
  end.

Definition ephemeral_check (podName ecName : string) (_ : unit) : M W (unit * option (option error)) :=
  let! got := clientGet podName in
  mret (tt, match got with
            | Err e => if IsNotFound (Some e)
                       then Some (Some (Errorf ("pod " +:+ podName +:+
                              " disappeared while waiting for ephemeral container " +:+ quote ecName)))
                       else None
            | Ok p => started podName ecName (ephemeralStatuses p)
            end).

Definition waitEphemeralContainerRunning (fuel : nat) (podName ecName : string) (timeout : Z)
    : M W (option (option error)) :=
  poll (ephemeral_check podName ecName)
    (fun _ _ => Some (Errorf ("timeout (" +:+ fmt_duration timeout +:+
       ") waiting for ephemeral container " +:+ quote ecName +:+ " in pod " +:+ podName +:+ " to be Running")))
    fuel ephemeralPollInterval tt.

Definition randomEphemeralName (prefix : string) : M W (result string) :=
  let! hex := randomHex in
  mret match hex with Ok h => Ok (prefix +:+ h) | Err e => Err e end.

Definition add_ephemeral (ec : EphemeralContainer) (p : Pod) : Pod :=
  mkPod (podPhase p) (podReason p) (podConditions p) (podNodeName p) (containerIDs p)
    (ephemeralContainers p ++ [ec]) (ephemeralStatuses p) (podLabels p) (podSpec p).

(** The container that is injected. *)
Definition reader_container (ecName targetContainer : string) (opts : ReadFileOptions) : EphemeralContainer :=
  let ttl := if SessionTTL opts <=? 0 then DefaultDistrolessSessionTTL else SessionTTL opts in
  let sleepSeconds := seconds_int ttl in
  let sleepSeconds := if sleepSeconds <? 1 then 1 else sleepSeconds in
  mkEphemeral ecName (DebugImage opts) ["sleep"; pretty sleepSeconds] targetContainer.

Definition OpenDistrolessReader (fuel : nat) (namespace pod targetContainer : string) (opts : ReadFileOptions)
    : M W (option (result DistrolessReader)) :=
  match requireDebugImage (DebugImage opts) with
  | Some e => mret (Some (Err e))
  | None =>
      let timeout := if StartupTimeout opts <=? 0 then DefaultEphemeralStartupTimeout else StartupTimeout opts in
      let! err := newClientset in
      match err with
      | Some e => mret (Some (Err (ErrorfW "create clientset: " e "")))
      | None =>
          let! name := randomEphemeralName "filereader-" in
          match name with
          | Err e => mret (Some (Err (ErrorfW "generate ephemeral container name: " e "")))
          | Ok ecName =>
              let! live := clientGet pod in
              match live with
              | Err e => mret (Some (Err (ErrorfW ("get pod " +:+ namespace +:+ "/" +:+ pod +:+ ": ") e "")))
              | Ok livePod =>
                  let! updated := updateEphemeral pod
                    (add_ephemeral (reader_container ecName targetContainer opts) livePod) in
                  match updated with
                  | Some e => mret (Some (Err (ErrorfW ("inject ephemeral container " +:+ quote ecName +:+
                                " into " +:+ namespace +:+ "/" +:+ pod +:+ ": ") e "")))
                  | None =>
                      let! waited := waitEphemeralContainerRunning fuel pod ecName timeout in
                      mret match waited with
                           | None => None
                           | Some (Some e) => Some (Err e)
                           | Some None => Some (Ok (mkReader namespace pod targetContainer ecName))
                           end
                  end
              end
          end
      end
  end.

Definition ReadFileFromDistrolessPod (fuel : nat) (namespace pod targetContainer path : string)
    (opts : ReadFileOptions) : M W (option (string * option error)) :=
  let! r := OpenDistrolessReader fuel namespace pod targetContainer opts in
  match r with
  | None => mret None
  | Some (Err e) => mret (Some ("", Some e))
  | Some (Ok r) => let! out := ReadFile r path in mret (Some out)
  end.

(** *** Theorems *)
Context `{CL : !CtxLaws W, PL : !ClientLaws W Pod, DL : !Deadline W, TC : !TimedClient W Pod}.

Lemma started_running podName ecName l :
  started podName ecName l = Some None -> (ecName, StRunning) ∈ l.
Proof.
  induction l as [|[name st] l IH]; cbn; [done|]. destruct (String.eqb_spec name ecName) as [->|]; cbn.
  - destruct st; try done; [intros H; right; by apply IH|left|]. destruct (_ || _); [done|].
    intros H; right; by apply IH.
  - intros H; right; by apply IH.
Qed.

Lemma ephemeral_running fuel podName ecName timeout w w' :
  waitEphemeralContainerRunning fuel podName ecName timeout w = (Some None, w') ->
  exists p, objs w' !! podName = Some p /\ (ecName, StRunning) ∈ ephemeralStatuses p.
Proof.
  intros H. apply (poll_ended _ _ (fun _ _ => True)) in H; [|done..].
  destruct H as [[] v [] _ Hc|[] ce z v0 v1 _ _ _ [=]]. unfold ephemeral_check in Hc.
  mstep Hc as [got v1] E. destruct got as [p|e]; [|by destruct (IsNotFound (Some e))].
  injection Hc as Hs <-. apply get_ok in E as [Hg ->]. exists p. split; [done|by apply started_running in Hs].
Qed.

Lemma waitEphemeral_spec fuel podName ecName timeout w :
  (left w < fuel)%nat ->
  exists r w', waitEphemeralContainerRunning fuel podName ecName timeout w = (Some r, w') /\
    (r = None -> exists p, objs w' !! podName = Some p /\ (ecName, StRunning) ∈ ephemeralStatuses p).
Proof.
  intros Hl. unfold waitEphemeralContainerRunning. set (over := fun _ _ => _).
  destruct (poll_returns (ephemeral_check podName ecName) over fuel ephemeralPollInterval tt) with (w := w)
    as (r & w' & H); [|done|].
  { intros []. unfold ephemeral_check. auto with runs. }
  exists r, w'. split; [done|]. intros ->. by eapply ephemeral_running.
Qed.

Lemma OpenDistrolessReader_returns fuel namespace pod target opts :
  bounded newClientset -> bounded randomHex -> (forall k p, bounded (updateEphemeral k p)) ->
  returns fuel (OpenDistrolessReader fuel namespace pod target opts).
Proof.
  intros Hn Hr Hu. unfold OpenDistrolessReader, randomEphemeralName.
  destruct (requireDebugImage _); [apply ret_returns|].
  apply bind_returns; [done|]. intros [e|]; [apply ret_returns|].
  apply bind_returns; [apply bind_bounded; [done|intros; apply ret_bounded]|].
  intros [ec|e]; [|apply ret_returns]. apply bind_returns; [apply get_bounded|].
  intros [p|e]; [|apply ret_returns]. apply bind_returns; [done|].
  intros [e|]; [apply ret_returns|].
  apply returns_bind.
  - intros w Hl. destruct (waitEphemeral_spec fuel pod ec
      (if StartupTimeout opts <=? 0 then DefaultEphemeralStartupTimeout else StartupTimeout opts) w Hl)
      as (r & w' & H & _). eauto.
  - apply poll_bounded. intros []. unfold ephemeral_check. auto with runs.
  - intros [e|]; apply ret_returns.
Qed.

(** [OpenDistrolessReader] returns once its context is done at the latest; a reader is
    returned only for a container that runs in the pod, and the pod was changed by one update at
    most, which adds the container to those it had and nothing else. *)
Theorem OpenDistrolessReader_spec fuel namespace pod target opts w :
  bounded newClientset -> bounded randomHex -> (forall k p, bounded (updateEphemeral k p)) ->
  (left w < fuel)%nat ->
  exists r w', OpenDistrolessReader fuel namespace pod target opts w = (Some r, w') /\
    forall reader, r = Ok reader ->
      (exists p, objs w' !! pod = Some p /\ (r_ephemeralName reader, StRunning) ∈ ephemeralStatuses p) /\
      (exists v0 v1 p, updateEphemeral pod
         (add_ephemeral (reader_container (r_ephemeralName reader) target opts) p) v0 = (None, v1) /\
         objs v0 !! pod = Some p) /\
      reader = mkReader namespace pod target (r_ephemeralName reader).
Proof.
  intros Hn Hr Hu Hl.
  destruct (OpenDistrolessReader_returns fuel namespace pod target opts Hn Hr Hu w Hl) as (r & w' & H).
  exists r, w'. split; [done|]. intros reader ->. unfold OpenDistrolessReader in H.
  destruct (requireDebugImage _); [done|]. mstep H as [err w1] E1. destruct err as [e|]; [done|].
  mstep H as [nm w2] E2. destruct nm as [ec|e]; [|done].
  mstep H as [live w3] E3. destruct live as [p|e]; [|done]. apply get_ok in E3 as [Hp Ho].
  mstep H as [up w4] E4. destruct up as [e|]; [done|].
  mstep H as [wt w5] E5. destruct wt as [[e|]|]; [done| |done]. injection H as <- <-. cbn.
  split; [|split; [|done]].
  - by eapply ephemeral_running.
  - exists w3, w4, p. split; [done|]. by rewrite Ho.
Qed.
End Exec.

(** A pod in which the injected container comes up on the second look. *)
Definition csi_pod (st : list (string * containerState)) : Pod := mkPod "Running" "" [] "node-0" ["id"] [] st ∅ emptyPodSpec.

Definition csi_world : memWorld Pod :=
  mkWorld (mkMem {["csi-0" := csi_pod [("filereader-00c0ffee", StRunning)]]} []) 5 false.

Example OpenDistrolessReader_spec_witness :
  exists r w', OpenDistrolessReader (mret None) clientUpdate (mret (Ok "00c0ffee")) 6 "d8-csi" "csi-0"
      "controller" (mkReadOptions "busybox" 0 0) csi_world = (Some r, w') /\
    forall reader, r = Ok reader ->
      (exists p, objs w' !! "csi-0" = Some p /\ (r_ephemeralName reader, StRunning) ∈ ephemeralStatuses p) /\
      (exists v0 v1 p, clientUpdate "csi-0"
         (add_ephemeral (reader_container (r_ephemeralName reader) "controller" (mkReadOptions "busybox" 0 0)) p)
         v0 = (None, v1) /\ objs v0 !! "csi-0" = Some p) /\
      reader = mkReader "d8-csi" "csi-0" "controller" (r_ephemeralName reader).
Proof.
  refine (OpenDistrolessReader_spec (mret None) clientUpdate (mret (Ok "00c0ffee")) 6 "d8-csi" "csi-0"
    "controller" (mkReadOptions "busybox" 0 0) csi_world _ _ _ _);
    [apply ret_bounded|apply ret_bounded|intros; apply update_bounded|cbn; lia].
Defined.

Example csi_reader :
  (OpenDistrolessReader (mret None) clientUpdate (mret (Ok "00c0ffee")) 6 "d8-csi" "csi-0" "controller"
     (mkReadOptions "busybox" 0 0) csi_world).1
  = Some (Ok (mkReader "d8-csi" "csi-0" "controller" "filereader-00c0ffee")) /\
  ecCommand (reader_container "filereader-00c0ffee" "controller" (mkReadOptions "busybox" 0 0))
  = ["sleep"; "1800"].
Proof. split; vm_compute; reflexivity. Qed.

(** ** Secrets ([secrets.go]) *)

Record KSecret := mkKSecret { secretData : gmap string string }.

(** Byte sequences of the characters that are replaced. *)
Definition bytes (l : list nat) : string := String.string_of_list_ascii (map Ascii.ascii_of_nat l).
Definition nbsp := bytes [194; 160]%nat.      (* U+00A0 *)
Definition zwsp := bytes [226; 128; 139]%nat. (* U+200B *)
Definition bom := bytes [239; 187; 191]%nat.  (* U+FEFF *)
Definition zwnj := bytes [226; 128; 140]%nat. (* U+200C *)
Definition zwj := bytes [226; 128; 141]%nat.  (* U+200D *)

Definition normalizeSecretName (name : string) : string :=
  let n := ReplaceAll name nbsp " " in
  let n := ReplaceAll n zwsp "" in
  let n := ReplaceAll n bom "" in
  let n := ReplaceAll n zwnj "" in
  let n := ReplaceAll n zwj "" in
  ToLower (TrimSpace n).

(** [strings.EqualFold] on ASCII. *)
Definition EqualFold (a b : string) : bool := String.eqb (ToLower a) (ToLower b).

Definition name_matches (name secretName : string) : bool :=
  EqualFold secretName name || String.eqb (normalizeSecretName secretName) (normalizeSecretName name).

Section Secrets.
Context {W : Type} `{AE : ApiErrors, SC : Client W KSecret}.
Context (newClientset : M W (option error)).

Definition FindSecretByName (namespace name : string) : M W (result string) :=
  let! err := newClientset in
  match err with
  | Some e => mret (Err (ErrorfW "failed to create kubernetes clientset: " e ""))
  | None =>
      let! got := clientGet (O := KSecret) name in
      match got with
      | Ok _ => mret (Ok name)
      | Err _ =>
          let! l := clientList (O := KSecret) in
          mret match l with
               | Err e => Err (ErrorfW "failed to list secrets: " e "")
               | Ok l =>
                   match List.find (name_matches name) (map fst l) with
                   | Some found => Ok found
                   | None => Err (Errorf ("secret " +:+ namespace +:+ "/" +:+ name +:+
                               " not found. Available secrets: " +:+ fmt_strings (map fst l)))
                   end
               end
      end
  end.

Definition GetSecretDataValue (namespace name key : string) : M W (result string) :=
  let! found := FindSecretByName namespace name in
  match found with
  | Err e => mret (Err e)
  | Ok actualName =>
      let! err := newClientset in
      match err with
      | Some e => mret (Err (ErrorfW "failed to create kubernetes clientset: " e ""))
      | None =>
          let! got := clientGet actualName in
          mret match got with
               | Err e => Err (ErrorfW ("failed to get secret " +:+ namespace +:+ "/" +:+ actualName +:+ ": ") e "")
               | Ok secret =>
                   match secretData secret !! key with
                   | Some v => Ok v
                   | None => Err (Errorf ("key " +:+ key +:+ " not found in secret " +:+ namespace +:+ "/" +:+
                                          actualName))
                   end
               end
      end
  end.

Context `{SL : !ClientLaws W KSecret}.

(** A name that is found is one of a secret that exists, and equals the one asked for up to
    case and hidden characters; a secret of exactly that name is preferred. *)
Lemma FindSecretByName_ok namespace name w found w' :
  FindSecretByName namespace name w = (Ok found, w') ->
  is_Some (objs (O := KSecret) w' !! found) /\ (found = name \/ name_matches name found = true).
Proof.
  intros H. unfold FindSecretByName in H. mstep H as [err w1] E1. destruct err as [e|]; [done|].
  mstep H as [got w2] E2. destruct got as [s|e].
  - injection H as <- <-. apply get_ok in E2 as [Hs ->]. split; [by exists s|by left].
  - mstep H as [l w3] E3. destruct l as [l|e']; [|done].
    destruct (List.find _ _) as [x|] eqn:Hf; [|done]. injection H as <- <-.
    apply find_some in Hf as [Hin Hm]. split; [|by right].
    apply list_ok in E3 as [Hp ->]. apply list_elem_of_In, list_elem_of_fmap in Hin as ([k s] & -> & Hin).
    rewrite Hp elem_of_map_to_list in Hin. by exists s.
Qed.
End Secrets.

Example hidden_space : name_matches ("db-pass" +:+ zwsp) "DB-pass" = true.
Proof. vm_compute. reflexivity. Qed.
