(* ===== verification/Stress.v ===== *)
(** The stress tests: [src/pkg/testkit/stress-tests.go]. Configuration and its validation, the
    claims, pods and snapshots that are made, and the modes of the runner. The parallel stages
    are the pools of [Pool]; [sched n] is the schedule of the [n]-th one. *)
From S2P Require Import Prelude Errors Retry Kube Pool Kit KitPods.
From stdpp Require Import numbers list_numbers.

Local Open Scope Z_scope.
Local Open Scope go_scope.

(** ** Configuration *)

Definition ModeFlog := "flog".
Definition ModeCheckFSOnly := "check_fs_only".
Definition ModeCheckCloning := "check_cloning".
Definition ModeCheckRestoringFromSnapshot := "check_restoring_from_snapshot".
Definition ModeSnapshotResizeCloning := "snapshot_resize_cloning".
Definition ModeSnapshotOnly := "snapshot_only".

Definition StepRestoreFromSnapshot := "restore_from_snapshot".
Definition StepResize := "resize".
Definition StepClone := "clone".

Record Config := mkConfig {
  cNamespace : string;
  cStorageClassName : string;
  cPVCSize : string;
  cPodsCount : Z;
  cIterations : Z;
  cSchedulerName : string;
  cMode : string;
  cPVCSizeAfterResize : string;
  cPVCSizeAfterResizeStage2 : string;
  cSnapshotsPerPVC : Z;
  cTestOrder : list string;
  cMaxAttempts : Z;
  cInterval : Z;
  cCleanup : bool
}.

Definition with_snapshots (n : Z) (c : Config) : Config :=
  mkConfig (cNamespace c) (cStorageClassName c) (cPVCSize c) (cPodsCount c) (cIterations c)
    (cSchedulerName c) (cMode c) (cPVCSizeAfterResize c) (cPVCSizeAfterResizeStage2 c) n
    (cTestOrder c) (cMaxAttempts c) (cInterval c) (cCleanup c).

(** The value in the environment, or the default. *)
Definition string_or (s default : string) : string := if String.eqb s "" then default else s.
Definition number_or (s : string) (d : Z) : Z :=
  match Atoi s with Some n => n | None => d end.

(** Two's complement, 64 bits. *)
Definition int64 (z : Z) : Z := (z + 2 ^ 63) mod 2 ^ 64 - 2 ^ 63.

Definition DefaultConfig (getenv : string -> string) : Config :=
  let cleanup := getenv "STRESS_TEST_CLEANUP" in
  mkConfig "" ""
    (string_or (getenv "STRESS_TEST_PVC_SIZE") "100Mi")
    (number_or (getenv "STRESS_TEST_PODS_COUNT") 100)
    1 "default-scheduler" ModeFlog
    (string_or (getenv "STRESS_TEST_PVC_SIZE_AFTER_RESIZE") "200Mi")
    (string_or (getenv "STRESS_TEST_PVC_SIZE_AFTER_RESIZE_STAGE2") "300Mi")
    (number_or (getenv "STRESS_TEST_SNAPSHOTS_PER_PVC") 2)
    [StepRestoreFromSnapshot; StepResize; StepClone]
    (number_or (getenv "STRESS_TEST_MAX_ATTEMPTS") 360)
    (int64 (number_or (getenv "STRESS_TEST_INTERVAL") 5 * Second))
    (if String.eqb cleanup "" then true
     else String.eqb cleanup "true" || String.eqb cleanup "True").

Definition known_step (step : string) : bool :=
  String.eqb step StepRestoreFromSnapshot || String.eqb step StepResize || String.eqb step StepClone.

(** The checks of the modes; [snapshot_only] sets a default. *)
Definition validate_mode (c : Config) : option error * Config :=
  if String.eqb (cMode c) ModeCheckCloning then (None, c)
  else if String.eqb (cMode c) ModeCheckRestoringFromSnapshot then (None, c)
  else if String.eqb (cMode c) ModeSnapshotOnly then
    (None, if cSnapshotsPerPVC c <=? 0 then with_snapshots 1 c else c)
  else if String.eqb (cMode c) ModeSnapshotResizeCloning then
    if cSnapshotsPerPVC c <=? 0 then (Some (Errorf "snapshots per PVC must be > 0"), c)
    else
      match List.find (fun step => negb (known_step step)) (cTestOrder c) with
      | Some step => (Some (Errorf ("invalid test step: " +:+ step +:+
                        " (allowed: restore_from_snapshot, resize, clone)")), c)
      | None =>
          let hasResize := existsb (String.eqb StepResize) (cTestOrder c) in
          let hasCloneOrRestore :=
            existsb (fun step => String.eqb step StepClone || String.eqb step StepRestoreFromSnapshot)
              (cTestOrder c) in
          if hasResize && String.eqb (cPVCSizeAfterResize c) ""
          then (Some (Errorf "PVC size after resize is required when resize step is enabled"), c)
          else if hasCloneOrRestore && String.eqb (cPVCSizeAfterResizeStage2 c) ""
          then (Some (Errorf "PVC size after resize stage2 is required when clone/restore steps are enabled"), c)
          else (None, c)
      end
  else (None, c).

Definition Validate (c : Config) : option error * Config :=
  if String.eqb (cNamespace c) "" then (Some (Errorf "namespace is required"), c)
  else if String.eqb (cStorageClassName c) "" then (Some (Errorf "storage class name is required"), c)
  else if String.eqb (cPVCSize c) "" then (Some (Errorf "PVC size is required"), c)
  else if cPodsCount c <=? 0 then (Some (Errorf "pods count must be > 0"), c)
  else if cIterations c <=? 0 then (Some (Errorf "iterations must be > 0"), c)
  else validate_mode c.

(** ** Objects *)

Record SnapshotStatus := mkSnapshotStatus { readyToUse : option bool; restoreSizeOf : option string }.
Record VolumeSnapshot := mkSnapshot {
  snapLabels : gmap string string;
  snapSource : string;
  snapStatus : option SnapshotStatus
}.

Record Namespace := mkNamespace { nsLabels : gmap string string }.

(** A label selector of equalities. *)
Definition selector : Type := list (string * string).
Definition selected (sel : selector) (labels : gmap string string) : bool :=
  forallb (fun kv => bool_decide (labels !! kv.1 = Some kv.2)) sel.

Definition load_test : selector := [("load-test", "true")].
Definition with_role (role : string) : selector := [("load-test", "true"); ("load-test-role", role)].
Definition role_labels (role : string) : gmap string string :=
  <["load-test-role" := role]> {["load-test" := "true"]}.
Definition plain_labels : gmap string string := {["load-test" := "true"]}.

(** Names. *)
Definition pvcTest (i : Z) : string := "pvc-test-" +:+ pretty i.
Definition podTest (i : Z) : string := "pod-test-" +:+ pretty i.
Definition snapshotTest (i n : Z) : string := "snapshot-test-" +:+ pretty i +:+ "-" +:+ pretty n.
Definition pvcRestore (i n : Z) : string := pvcTest i +:+ "-restore-" +:+ pretty n.
Definition podRestore (i n : Z) : string := podTest i +:+ "-restore-" +:+ pretty n.
Definition pvcClone (i : Z) : string := pvcTest i +:+ "-clone".
Definition podClone (i : Z) : string := podTest i +:+ "-clone".

(** A claim and a pod as they are sent to the server: no status yet. *)
Definition new_claim (labels : gmap string string) (spec : PVCSpec) : PVC := mkPVC "" None labels spec.
Definition new_pod (labels : gmap string string) (spec : PodSpec) : Pod :=
  mkPod "" "" [] "" [] [] [] labels spec.

Definition controlPlane := "node-role.kubernetes.io/control-plane".
Definition dataMount := ("data-volume", "/usr/share/test-data").
Definition nginxMount := ("nginx-persistent-storage", "/usr/share/test-data").

Section Objects.
Context (cfg : Config).

Definition test_spec (anti : bool) (inits containers : list Container) (volume claim : string) : PodSpec :=
  mkPodSpec "Never" (cSchedulerName cfg) anti [controlPlane] inits containers [(volume, claim)].

Definition original_pod (claim : string) : Pod :=
  new_pod (role_labels "original")
    (test_spec true [mkContainer "data-preloader" "alpine" DataPreloader [] dataMount]
       [mkContainer "data-writer" "alpine" DataWriter [] dataMount] "data-volume" claim).

Definition checker_pod (role claim : string) : Pod :=
  new_pod (role_labels role)
    (test_spec false [] [mkContainer "data-checker" "alpine" DataChecker [] dataMount] "data-volume" claim).

Definition nginx_pod (s : script) (claim : string) : Pod :=
  new_pod plain_labels
    (test_spec false [] [mkContainer "nginx" "nginx" s [] nginxMount] "nginx-persistent-storage" claim).

Definition flog_env (firstStart : string) : list (string * string) :=
  [("FLOG_BATCH_SIZE", "10700"); ("FLOG_TIME_INTERVAL", "1"); ("FLOG_LOG_FORMAT", "json")] ++
  (if String.eqb firstStart "" then [] else [("FIRST_START", firstStart)]).

Definition flog_pod (role claim : string) (withAntiAffinity : bool) (firstStart : string) : Pod :=
  new_pod (if String.eqb role "" then plain_labels else role_labels role)
    (test_spec withAntiAffinity []
       [mkContainer "flog-generator" "ex42zav/flog:0.4.3" (Flog (negb (String.eqb firstStart "")))
          (flog_env firstStart) ("nginx-persistent-storage", "/var/log/flog")]
       "nginx-persistent-storage" claim).

Definition snapshotSource (name : string) : option (option string * string * string) :=
  Some (Some "snapshot.storage.k8s.io", "VolumeSnapshot", name).
Definition claimSource (name : string) : option (option string * string * string) :=
  Some (None, "PersistentVolumeClaim", name).

Definition new_snapshot (pvcIndex : Z) : VolumeSnapshot :=
  mkSnapshot (role_labels "snapshot") (pvcTest pvcIndex) None.
End Objects.

(** ** The goroutines *)

(** Local variables of a goroutine that creates: a size read from a claim, what is created. *)
Record locals := mkLocals {
  lSize : string;
  lClaim : option (string * PVC);
  lPod : string * Pod
}.

(** How a stage ends; [None]: the fuel of a wait ran out. *)
Definition outcome : Type := option (ending (option error)).

(** [if err := m; err != nil { return err }; k] *)
Definition and_also {W} (m k : M W outcome) : M W outcome :=
  let! r := m in
  match r with
  | Some (Returns None) => k
  | r => mret r
  end.
Notation "m ';?' k" := (and_also m k) (at level 100, right associativity) : go_scope.

Section Runner.
Context {W : Type} `{AE : ApiErrors, CX : Ctx W, CK : Clock W}.
Context `{VC : Client W PVC, PC : Client W Pod, SC : Client W VolumeSnapshot, NC : Client W Namespace}.
(** [k8s.io/apimachinery]: quantities. *)
Context (ParseQuantity : string -> result Z) (fmtQuantity : Z -> string).
(** Requests that are not those of [Client]: the JSON patches and [DeleteCollection]. *)
Context (patchClaim : string -> string -> M W (option error)) (patchLabel : string -> M W (option error)).
Context (deletePods deleteClaims : selector -> M W (option error)).
Context (cfg : Config) (sched : nat -> list nat) (order : list string -> list string) (fuel : nat).

(** A claim of the given size; [resource.MustParse] panics on a bad one. *)
Definition claim_of (labels : gmap string string) (size : string)
    (source : option (option string * string * string)) (fs : bool) : ending PVC :=
  match ParseQuantity size with
  | Err _ => Panics
  | Ok q => Returns (new_claim labels (mkPVCSpec q (cStorageClassName cfg) source fs))
  end.

Definition build (claim : locals -> option (string * ending PVC)) (pod : string * Pod) : call W locals :=
  fun s => mret match claim s with
                | None => Returns (Ok (mkLocals (lSize s) None pod))
                | Some (name, Returns pvc) => Returns (Ok (mkLocals (lSize s) (Some (name, pvc)) pod))
                | Some (_, Panics) => Panics
                end.

Definition create_claim : call W locals := fun s =>
  match lClaim s with
  | None => mret (Returns (Ok s))
  | Some (name, pvc) =>
      let! r := clientCreate name pvc in
      mret (Returns match r with
                    | None => Ok s
                    | Some e => Err (ErrorfW ("failed to create PVC " +:+ name +:+ ": ") e "")
                    end)
  end.

Definition create_pod : call W locals := fun s =>
  let! r := clientCreate (lPod s).1 (lPod s).2 in
  mret (Returns match r with
                | None => Ok s
                | Some e => Err (ErrorfW ("failed to create pod " +:+ (lPod s).1 +:+ ": ") e "")
                end).

Definition createPodAndPVC : list (call W locals) := [create_claim; create_pod].

Definition createOriginalPodAndPVC (index : Z) : list (call W locals) :=
  build (fun _ => Some (pvcTest index, claim_of (role_labels "original") (cPVCSize cfg) None true))
    (podTest index, original_pod cfg (pvcTest index)) :: createPodAndPVC.

Definition createFlogPodAndPVC (podName pvcName role : string) (createPVC withAntiAffinity : bool)
    (firstStart : string) : list (call W locals) :=
  build (fun _ => if createPVC then Some (pvcName, claim_of plain_labels (cPVCSize cfg) None true) else None)
    (podName, flog_pod cfg role pvcName withAntiAffinity firstStart) :: createPodAndPVC.

Definition createRestorePodAndPVC (snapshotName pvcName podName : string) : list (call W locals) :=
  build (fun s => Some (pvcName, claim_of (role_labels "restore") (lSize s) (snapshotSource snapshotName) false))
    (podName, checker_pod cfg "restore" pvcName) :: createPodAndPVC.

Definition createClonePodAndPVC (originalIndex : Z) (pvcName podName : string) : list (call W locals) :=
  build (fun s => Some (pvcName, claim_of (role_labels "clone") (lSize s) (claimSource (pvcTest originalIndex)) false))
    (podName, checker_pod cfg "clone" pvcName) :: createPodAndPVC.

Definition createCheckFSPodAndPVC (index : Z) : list (call W locals) :=
  build (fun _ => Some (pvcTest index, claim_of plain_labels (cPVCSize cfg) None true))
    (podTest index, nginx_pod cfg CheckExt4 (pvcTest index)) :: createPodAndPVC.

Definition createCloneCheckPodAndPVC (index : Z) (sourcePVCName : string) : list (call W locals) :=
  build (fun _ => Some (pvcTest index, claim_of plain_labels (cPVCSize cfg) (claimSource sourcePVCName) false))
    (podTest index, nginx_pod cfg CheckExt4 (pvcTest index)) :: createPodAndPVC.

Definition createRestoreCheckPodAndPVC (index : Z) (snapshotName restoreSize : string) : list (call W locals) :=
  build (fun _ => Some (pvcTest index, claim_of plain_labels restoreSize (snapshotSource snapshotName) false))
    (podTest index, nginx_pod cfg CheckRestored (pvcTest index)) :: createPodAndPVC.

Definition createVolumeSnapshot (pvcIndex : Z) (snapshotName : string) : M W (option error) :=
  clientCreate snapshotName (new_snapshot pvcIndex).

Definition one_call (pre : string) (m : M W (option error)) : call W unit := fun _ =>
  let! r := m in mret (Returns match r with None => Ok tt | Some e => Err (ErrorfW pre e "") end).

(** The current size of the claim a copy is made of: the capacity, if there is one. *)
Definition get_size (what : string) (index : Z) : call W locals := fun s =>
  let! got := clientGet (pvcTest index) in
  mret (Returns match got with
                | Err e => Err (ErrorfW ("failed to get " +:+ what +:+ pvcTest index +:+ ": ") e "")
                | Ok pvc => Ok (mkLocals match capacity pvc with
                                         | Some (Some size) => fmtQuantity size
                                         | _ => cPVCSize cfg
                                         end (lClaim s) (lPod s))
                end).

Definition zero_locals : locals := mkLocals "" None ("", new_pod ∅ emptyPodSpec).

(** The goroutines of a stage, [wg.Wait()], and the look at the errors. *)
Definition stage {X St} (n : nat) (init : X -> St) (prog : X -> list (call W St)) (xs : list X)
    : M W outcome :=
  let! r := go_all (sched n) init prog xs in
  mret match r with
       | None => None
       | Some Panics => Some Panics
       | Some (Returns res) => Some (Returns (first_sent res))
       end.

Definition indexes : list Z := seqZ 1 (cPodsCount cfg).
Definition index_pairs : list (Z * Z) :=
  i ← indexes; n ← seqZ 1 (cSnapshotsPerPVC cfg); [(i, n)].

Definition waits (m : M W (option (option error))) : M W outcome :=
  let! r := m in mret match r with Some e => Some (Returns e) | None => None end.
Definition does (m : M W (option error)) : M W outcome :=
  let! e := m in mret (Some (Returns e)).

Definition claims_bound (sel : selector) (n : Z) : M W outcome :=
  waits (WaitForPVCsBound fuel (fun p => selected sel (pvcLabels p)) n (cMaxAttempts cfg) (cInterval cfg)).
Definition pods_status (sel : selector) (status : string) (n : Z) : M W outcome :=
  waits (WaitForPodsStatus fuel (fun p => selected sel (podLabels p)) status n (cMaxAttempts cfg) (cInterval cfg)).
Definition resize_claims (names : list string) (size : string) : M W outcome :=
  does (ResizeList patchClaim order names size) ;?
  waits (WaitForPVCsResized ParseQuantity fuel names size (cMaxAttempts cfg) (cInterval cfg)).

(** ** Cleanup *)

Definition claims_gone_round (attempt : Z) : M W (Z * option (option error)) :=
  let! pvcs := clientList in
  match pvcs with
  | Err _ => mret (attempt, Some None)
  | Ok l =>
      let n := count (fun p : string * PVC => selected load_test (pvcLabels p.2)) l in
      if n =? 0 then mret (attempt, Some None)
      else
        let attempt := attempt + 1 in
        if (0 <? cMaxAttempts cfg) && (cMaxAttempts cfg <=? attempt)
        then mret (attempt, Some (Some (Errorf ("timeout waiting for PVCs to be deleted: " +:+ pretty n +:+
               " remaining after " +:+ pretty (cMaxAttempts cfg) +:+ " attempts"))))
        else mret (attempt, None)
  end.

Definition wrapped (pre : string) (m : M W (option error)) : M W outcome :=
  let! r := m in mret (Some (Returns match r with Some e => Some (ErrorfW pre e "") | None => None end)).

Definition delete_snapshots : M W outcome :=
  let! snapshots := clientList (O := VolumeSnapshot) in
  match snapshots with
  | Err e => mret (Some (Returns (Some (ErrorfW "failed to list VolumeSnapshots: " e ""))))
  | Ok l =>
      let names := map fst (List.filter (fun p => selected load_test (snapLabels p.2)) l) in
      stage 9 (fun _ => tt)
        (fun name => [one_call ("failed to delete VolumeSnapshot " +:+ name +:+ ": ")
                        (clientDelete VolumeSnapshot name)]) names
  end.

Definition delete_namespace : M W outcome :=
  if String.eqb (cNamespace cfg) "default" then mret (Some (Returns None))
  else wrapped "failed to delete namespace: " (clientDelete Namespace (cNamespace cfg)).

Definition cleanup : M W outcome :=
  wrapped "failed to delete pods: " (deletePods load_test) ;?
  wrapped "failed to delete PVCs: " (deleteClaims load_test) ;?
  delete_snapshots ;?
  waits (poll claims_gone_round (fun _ ce => ce) fuel (cInterval cfg) 0) ;?
  delete_namespace.

Definition cleanup_if_asked : M W outcome :=
  if cCleanup cfg then cleanup else mret (Some (Returns None)).

(** ** The modes *)

Definition runFlogMode : M W outcome :=
  stage 0 (fun _ => zero_locals)
    (fun index => failing ("failed to create pod/PVC " +:+ pretty index +:+ ": ")
       (createFlogPodAndPVC (podTest index) (pvcTest index) "" true true
          (if index =? 1 then "true" else ""))) indexes ;?
  claims_bound load_test (cPodsCount cfg) ;?
  pods_status load_test "Running" (cPodsCount cfg) ;?
  (if String.eqb (cPVCSizeAfterResize cfg) "" then mret (Some (Returns None))
   else resize_claims (map pvcTest indexes) (cPVCSizeAfterResize cfg)) ;?
  cleanup_if_asked.

Definition runCheckFSOnlyMode : M W outcome :=
  stage 0 (fun _ => zero_locals)
    (fun index => failing ("failed to create filesystem check pod/PVC " +:+ pretty index +:+ ": ")
       (createCheckFSPodAndPVC index)) indexes ;?
  claims_bound load_test (cPodsCount cfg) ;?
  pods_status load_test "Completed" (cPodsCount cfg) ;?
  cleanup_if_asked.

Definition runCheckCloningMode : M W outcome :=
  stage 0 (fun _ => zero_locals)
    (fun index => failing ("failed to create clone check pod/PVC " +:+ pretty index +:+ ": ")
       (createCloneCheckPodAndPVC index "pvc-test-1")) indexes ;?
  claims_bound load_test (cPodsCount cfg) ;?
  pods_status load_test "Completed" (cPodsCount cfg) ;?
  cleanup_if_asked.

Definition runCheckRestoringFromSnapshotMode : M W outcome :=
  let snapshotName := "snapshot-test-1-1" in
  let! got := clientGet (O := VolumeSnapshot) snapshotName in
  match got with
  | Err e => mret (Some (Returns (Some (ErrorfW ("failed to get snapshot " +:+ snapshotName +:+ ": ") e ""))))
  | Ok snapshot =>
      let restoreSize := match snapStatus snapshot with
                         | Some st => match restoreSizeOf st with
                                      | Some size => if String.eqb size "" then cPVCSize cfg else size
                                      | None => cPVCSize cfg
                                      end
                         | None => cPVCSize cfg
                         end in
      stage 0 (fun _ => zero_locals)
        (fun index => failing ("failed to create restore check pod/PVC " +:+ pretty index +:+ ": ")
           (createRestoreCheckPodAndPVC index snapshotName restoreSize)) indexes ;?
      claims_bound load_test (cPodsCount cfg) ;?
      pods_status load_test "Completed" (cPodsCount cfg) ;?
      cleanup_if_asked
  end.

Definition create_originals : M W outcome :=
  stage 0 (fun _ => zero_locals)
    (fun index => failing ("failed to create original pod/PVC " +:+ pretty index +:+ ": ")
       (createOriginalPodAndPVC index)) indexes ;?
  claims_bound (with_role "original") (cPodsCount cfg) ;?
  pods_status (with_role "original") "Running" (cPodsCount cfg) ;?
  (let! _ := sleep (5 * Second) in mret (Some (Returns None))).

Definition totalSnapshots : Z := cPodsCount cfg * cSnapshotsPerPVC cfg.

Definition create_snapshots : M W outcome :=
  stage 1 (fun _ => tt)
    (fun p => [one_call ("failed to create snapshot " +:+ snapshotTest p.1 p.2 +:+ ": ")
                 (createVolumeSnapshot p.1 (snapshotTest p.1 p.2))]) index_pairs.

Definition ready_snapshots (l : list (string * VolumeSnapshot)) : Z :=
  count (fun p => selected [("load-test-role", "snapshot")] (snapLabels p.2) &&
                  match snapStatus p.2 with
                  | Some st => match readyToUse st with Some b => b | None => false end
                  | None => false
                  end) l.

(** The wait of [snapshot_only]: the attempts are counted whatever [MaxAttempts] is. *)
Fixpoint snapshots_ready_loop (rounds : nat) (attempt : Z) : M W outcome :=
  match rounds with
  | 0%nat => mret None
  | S rounds =>
      let! snapshots := clientList (O := VolumeSnapshot) in
      match snapshots with
      | Err e => mret (Some (Returns (Some e)))
      | Ok l =>
          let readyCount := ready_snapshots l in
          if totalSnapshots <=? readyCount then mret (Some (Returns None))
          else
            let attempt := attempt + 1 in
            if cMaxAttempts cfg <=? attempt
            then mret (Some (Returns (Some (Errorf ("timeout waiting for snapshots to be ready (got " +:+
                   pretty readyCount +:+ "/" +:+ pretty totalSnapshots +:+ ")")))))
            else let! _ := sleep (cInterval cfg) in snapshots_ready_loop rounds attempt
      end
  end.

Definition runSnapshotOnlyMode : M W outcome :=
  create_originals ;?
  create_snapshots ;?
  snapshots_ready_loop fuel 0 ;?
  cleanup_if_asked.

(** ** [snapshot_resize_cloning] *)

Definition snapshots_round (attempt : Z) : M W (Z * option (option error)) :=
  let! ce := ctxErr in
  match ce with
  | Some e => mret (attempt, Some (Some (ErrorfW "context cancelled while waiting for snapshots: " e "")))
  | None =>
      let! snapshots := clientList (O := VolumeSnapshot) in
      match snapshots with
      | Err e => mret (attempt, Some (Some e))
      | Ok l =>
          let readyCount := ready_snapshots l in
          if totalSnapshots <=? readyCount then mret (attempt, Some None)
          else
            let attempt := attempt + 1 in
            if (0 <? cMaxAttempts cfg) && (cMaxAttempts cfg <=? attempt)
            then mret (attempt, Some (Some (Errorf ("timeout waiting for VolumeSnapshots to be ready: " +:+
                   pretty readyCount +:+ "/" +:+ pretty totalSnapshots +:+ " ready after " +:+
                   pretty attempt +:+ " attempts (max: " +:+ pretty (cMaxAttempts cfg) +:+ ")"))))
            else mret (attempt, None)
      end
  end.

Definition snapshots_ready : M W outcome :=
  waits (poll snapshots_round
    (fun _ ce => Some (ErrorfWn "context cancelled while waiting for snapshots: " ce "")) fuel (cInterval cfg) 0).

(** The names of the claims that were made, in the order the goroutines appended them. *)
Definition appended {X} (name : X -> string) (res : list (X * result locals)) : list string :=
  omap (fun p => match p.2 with Ok _ => Some (name p.1) | Err _ => None end) res.

(** A stage that appends to [names]: the error or the panic, or the longer list. *)
Definition copies {X} (n : nat) (prog : X -> list (call W locals)) (name : X -> string) (xs : list X)
    (names : list string) : M W (outcome * list string) :=
  let! r := go_all (sched n) (fun _ => zero_locals) prog xs in
  mret match r with
       | None => (None, names)
       | Some Panics => (Some Panics, names)
       | Some (Returns res) => (Some (Returns (first_sent res)), names ++ appended name res)
       end.

(** [k] when the copies were made. *)
Definition after_copies (m : M W (outcome * list string)) (k : M W outcome) : M W (outcome * list string) :=
  let! '(r, names) := m in
  match r with
  | Some (Returns None) => let! r := k in mret (r, names)
  | r => mret (r, names)
  end.

Definition restore_prog (p : Z * Z) : list (call W locals) :=
  get_size "source PVC " p.1 ::
  failing ("failed to create restore pod/PVC " +:+ podRestore p.1 p.2 +:+ ": ")
    (createRestorePodAndPVC (snapshotTest p.1 p.2) (pvcRestore p.1 p.2) (podRestore p.1 p.2)).

Definition executeRestoreFromSnapshotStep (names : list string) : M W (outcome * list string) :=
  let! made := create_snapshots ;? snapshots_ready in
  match made with
  | Some (Returns None) =>
      after_copies (copies 2 restore_prog (fun p => pvcRestore p.1 p.2) index_pairs names)
        (claims_bound (with_role "restore") totalSnapshots ;?
         pods_status (with_role "restore") "Completed" totalSnapshots)
  | r => mret (r, names)
  end.

Definition clone_prog (i : Z) : list (call W locals) :=
  get_size "PVC " i ::
  failing ("failed to create clone pod/PVC " +:+ podClone i +:+ ": ")
    (createClonePodAndPVC i (pvcClone i) (podClone i)).

Definition executeCloneStep (names : list string) : M W (outcome * list string) :=
  after_copies (copies 3 clone_prog pvcClone indexes names)
    (claims_bound (with_role "clone") (cPodsCount cfg) ;?
     pods_status (with_role "clone") "Completed" (cPodsCount cfg)).

(** [len(s) > n && s[len(s)-n:] == suf], for a suffix of [n] bytes. *)
Definition ends_with (suf s : string) : bool :=
  (String.length suf <? String.length s)%nat &&
  String.eqb (str_drop (String.length s - String.length suf) s) suf.

Definition stage2_role (pvcName : string) : string :=
  if ends_with "-restore" pvcName then "restore-flog" else "clone-flog".

Definition if_positive (n : Z) (m : M W outcome) : M W outcome :=
  if 0 <? n then m else mret (Some (Returns None)).

Definition executeStage2 (pvcNames : list string) : M W outcome :=
  let cloneCount := count (ends_with "-clone") pvcNames in
  let restoreCount := count (fun n => negb (ends_with "-clone" n)) pvcNames in
  stage 4 (fun _ => zero_locals)
    (fun pvcName => failing ("failed to create flog pod " +:+ pvcName +:+ "-flog: ")
       (createFlogPodAndPVC (pvcName +:+ "-flog") pvcName (stage2_role pvcName) false false "")) pvcNames ;?
  if_positive cloneCount (pods_status (with_role "clone-flog") "Running" cloneCount) ;?
  if_positive restoreCount (pods_status (with_role "restore-flog") "Running" restoreCount) ;?
  resize_claims pvcNames (cPVCSizeAfterResizeStage2 cfg).

(** The steps of the test order; the claims that were cloned and those that were restored. *)
Fixpoint execute_steps (steps : list string) (clones restores : list string)
    : M W (outcome * (list string * list string)) :=
  match steps with
  | [] => mret (Some (Returns None), (clones, restores))
  | step :: steps =>
      let! '(r, (clones, restores)) :=
        if String.eqb step StepRestoreFromSnapshot then
          let! '(r, restores) := executeRestoreFromSnapshotStep restores in mret (r, (clones, restores))
        else if String.eqb step StepResize then
          let! r := resize_claims (map pvcTest indexes) (cPVCSizeAfterResize cfg) in mret (r, (clones, restores))
        else if String.eqb step StepClone then
          let! '(r, clones) := executeCloneStep clones in mret (r, (clones, restores))
        else mret (Some (Returns None), (clones, restores)) in
      match r with
      | Some (Returns None) => execute_steps steps clones restores
      | r => mret (r, (clones, restores))
      end
  end.

Definition runSnapshotResizeCloningMode : M W outcome :=
  create_originals ;?
  (let! '(r, (clones, restores)) := execute_steps (cTestOrder cfg) [] [] in
   match r with
   | Some (Returns None) =>
       match clones ++ restores with
       | [] => mret (Some (Returns None))
       | stage2PVCs => executeStage2 stage2PVCs
       end
   | r => mret r
   end) ;?
  cleanup_if_asked.

Definition ensure_namespace : M W outcome :=
  let! got := clientGet (O := Namespace) (cNamespace cfg) in
  match got with
  | Ok _ => mret (Some (Returns None))
  | Err _ => wrapped "failed to create namespace: " (clientCreate (cNamespace cfg) (mkNamespace ∅))
  end.

Definition run_mode : M W outcome :=
  let mode := cMode cfg in
  if String.eqb mode ModeFlog then runFlogMode
  else if String.eqb mode ModeCheckFSOnly then runCheckFSOnlyMode
  else if String.eqb mode ModeCheckCloning then runCheckCloningMode
  else if String.eqb mode ModeCheckRestoringFromSnapshot then runCheckRestoringFromSnapshotMode
  else if String.eqb mode ModeSnapshotOnly then runSnapshotOnlyMode
  else if String.eqb mode ModeSnapshotResizeCloning then runSnapshotResizeCloningMode
  else mret (Some (Returns (Some (Errorf ("unknown mode: " +:+ mode))))).

(** The namespace, its label (a failure is only logged), the mode. *)
Definition run_validated : M W outcome :=
  ensure_namespace ;?
  (let! _ := patchLabel (cNamespace cfg) in run_mode).
End Runner.

Section Run.
Context {W : Type} `{AE : ApiErrors, CX : Ctx W, CK : Clock W}.
Context `{VC : Client W PVC, PC : Client W Pod, SC : Client W VolumeSnapshot, NC : Client W Namespace}.
Context (ParseQuantity : string -> result Z) (fmtQuantity : Z -> string).
Context (patchClaim : string -> string -> M W (option error)) (patchLabel : string -> M W (option error)).
Context (deletePods deleteClaims : selector -> M W (option error)).

(** The configuration as [Validate] leaves it is the one that is run. *)
Definition StressRun (cfg : Config) (sched : nat -> list nat) (order : list string -> list string) (fuel : nat)
    : M W outcome :=
  let '(err, cfg) := Validate cfg in
  match err with
  | Some e => mret (Some (Returns (Some (ErrorfW "invalid configuration: " e ""))))
  | None => run_validated ParseQuantity fmtQuantity patchClaim patchLabel deletePods deleteClaims
              cfg sched order fuel
  end.

(** [NewStressTestRunner]: the two clients, on a copy of the REST configuration without a rate
    limiter. *)
Definition NewStressTestRunner (newClientset newDynamicClient : M W (option error)) : M W (option error) :=
  let! r := newClientset in
  match r with
  | Some e => mret (Some (ErrorfW "failed to create Kubernetes clientset: " e ""))
  | None =>
      let! r := newDynamicClient in
      mret match r with Some e => Some (ErrorfW "failed to create dynamic client: " e "") | None => None end
  end.

Fixpoint delete_each (names : list string) : M W unit :=
  match names with
  | [] => mret tt
  | name :: names => let! _ := clientDelete Namespace name in delete_each names
  end.

Definition CleanupStressNamespaces (newClientset : M W (option error)) : M W (option error) :=
  let! r := newClientset in
  match r with
  | Some e => mret (Some (ErrorfW "failed to create clientset: " e ""))
  | None =>
      let! namespaces := clientList (O := Namespace) in
      match namespaces with
      | Err e => mret (Some (ErrorfW "failed to list namespaces: " e ""))
      | Ok l =>
          let! _ := delete_each (map fst (List.filter (fun p => selected load_test (nsLabels p.2)) l)) in
          mret None
      end
  end.
End Run.
