(* ===== verification/StressSafety.v ===== *)
(** What the stress tests do and do not achieve: configurations, the parallel creation of claims
    and pods under every schedule, bounds of the waits, what cleaning up spares, and two modes
    that cannot succeed. *)
From S2P Require Import Prelude Errors Retry Kube Pool Kit KitPods Stress.
From stdpp Require Import numbers list_numbers.

Local Open Scope Z_scope.
Local Open Scope go_scope.

Lemma also_stays {W} (J : W -> Prop) (m k : M W outcome) : maintains J m -> maintains J k -> maintains J (and_also m k).
Proof.
  intros Hm Hk. apply bind_stays; [done|]. intros [[[e|]|]|]; try apply ret_stays. done.
Qed.

Ltac stays := stays_with ltac:(idtac; match goal with |- maintains _ (and_also _ _) => apply also_stays end).

(** ** The role that no pod gets *)

(** No pod has the role. *)
Definition no_role {W} `{Client W Pod} (role : string) (w : W) : Prop :=
  forall k p, objs (O := Pod) w !! k = Some p -> podLabels p !! "load-test-role" <> Some role.

Section Role.
Context {W : Type} `{AE : ApiErrors, CX : Ctx W, CK : Clock W}.
Context `{VC : Client W PVC, PC : Client W Pod, SC : Client W VolumeSnapshot, NC : Client W Namespace}.
Context (ParseQuantity : string -> result Z) (fmtQuantity : Z -> string).
Context (patchClaim : string -> string -> M W (option error)) (patchLabel : string -> M W (option error)).
Context (deletePods deleteClaims : selector -> M W (option error)).

(** Nobody but the runner makes pods of the role: not while it waits, not on a request that is
    about something else. *)
Class NobodyElse (role : string) : Prop := {
  others_ctx : maintains (no_role role) ctxErr;
  others_timer z : maintains (no_role role) (timerFires z);
  others_sleep z : maintains (no_role role) (sleep z);
  others_patch name size : maintains (no_role role) (patchClaim name size);
  others_label name : maintains (no_role role) (patchLabel name)
}.

Context `{PL : !ClientLaws W Pod}.
Context `{FV : !Frame W PVC Pod, FS : !Frame W VolumeSnapshot Pod, FN : !Frame W Namespace Pod}.
Context (cfg : Config) (sched : nat -> list nat) (order : list string -> list string) (fuel : nat).

Section OneRole.
Context (role : string) `{NE : !NobodyElse role}.

Lemma framed_stays {A} (m : M W A) :
  (forall w, objs (O := Pod) (m w).2 = objs w) -> maintains (no_role role) m.
Proof. intros Hf w a w' HJ H k p Hk. specialize (Hf w). rewrite H in Hf. cbn in Hf. rewrite Hf in Hk. by eapply HJ. Qed.

Lemma create_pod_stays k (p : Pod) :
  podLabels p !! "load-test-role" <> Some role -> maintains (no_role role) (clientCreate k p).
Proof.
  intros Hp w a w' HJ H k' p' Hk'. destruct (decide (k' = k)) as [->|Hne].
  - destruct a as [e|].
    + apply create_err_own in H as [H|[_ H]]; rewrite H in Hk'; [by eapply HJ|]. by injection Hk' as <-.
    + apply create_ok in H as [_ H]. rewrite H lookup_insert_eq in Hk'. by injection Hk' as <-.
  - destruct a as [e|].
    + apply create_err in H as [H _]. rewrite H in Hk'; [done|by eapply HJ].
    + apply create_ok in H as [_ H]. rewrite H lookup_insert_ne in Hk'; [done|by eapply HJ].
Qed.

Lemma list_pods_stays : maintains (no_role role) (clientList (O := Pod)).
Proof.
  intros w a w' HJ H k p Hk. assert (Ho : objs (O := Pod) w' = objs w).
  { destruct a as [l|e]; [by apply list_ok in H as [_ H]|by apply list_err in H]. }
  rewrite Ho in Hk. by eapply HJ.
Qed.

Lemma get_claim_stays k : maintains (no_role role) (clientGet (O := PVC) k).
Proof. apply framed_stays, frame_get. Qed.
Lemma create_claim_stays k (o : PVC) : maintains (no_role role) (clientCreate k o).
Proof. apply framed_stays, frame_create. Qed.
Lemma list_claims_stays : maintains (no_role role) (clientList (O := PVC)).
Proof. apply framed_stays, frame_list. Qed.
Lemma create_snapshot_stays k (o : VolumeSnapshot) : maintains (no_role role) (clientCreate k o).
Proof. apply framed_stays, frame_create. Qed.
Lemma list_snapshots_stays : maintains (no_role role) (clientList (O := VolumeSnapshot)).
Proof. apply framed_stays, frame_list. Qed.

#[local] Hint Resolve others_ctx others_timer others_sleep others_patch others_label list_pods_stays
  get_claim_stays create_claim_stays list_claims_stays create_snapshot_stays list_snapshots_stays : stays.

Lemma waits_stays m : maintains (no_role role) m -> maintains (no_role role) (waits (W := W) m).
Proof. intros Hm. unfold waits. stays. Qed.

Lemma claims_bound_stays sel n : maintains (no_role role) (claims_bound cfg fuel sel n).
Proof. apply waits_stays. unfold WaitForPVCsBound, bound_round. stays. Qed.

Lemma pods_status_stays sel status n : maintains (no_role role) (pods_status cfg fuel sel status n).
Proof. apply waits_stays. unfold WaitForPodsStatus, pods_round. stays. Qed.

Lemma count_resized_stays target names : maintains (no_role role) (count_resized target names).
Proof. induction names as [|name names IH]; cbn [count_resized]; stays. Qed.

Lemma patch_all_stays size names : maintains (no_role role) (patch_all patchClaim size names).
Proof. induction names as [|name names IH]; cbn [patch_all]; stays. Qed.

#[local] Hint Resolve count_resized_stays patch_all_stays claims_bound_stays pods_status_stays : stays.

Lemma resize_stays names size :
  maintains (no_role role) (resize_claims ParseQuantity patchClaim cfg order fuel names size).
Proof.
  unfold resize_claims, does, waits, ResizeList, WaitForPVCsResized, resized_round. stays.
Qed.

(** A goroutine whose pod has another role. *)
Definition other_pod (s : locals) : Prop := podLabels (lPod s).2 !! "load-test-role" <> Some role.

Definition call_stays (c : call W locals) : Prop := forall s w r w',
  no_role role w -> other_pod s -> c s w = (r, w') ->
  no_role role w' /\ match r with Returns (Ok s1) => other_pod s1 | _ => True end.

Lemma build_stays claim name p :
  podLabels p !! "load-test-role" <> Some role -> call_stays (build claim (name, p)).
Proof.
  intros Hp s w r w' HJ _ H. unfold build in H. cbn in H. injection H as <- <-. split; [done|].
  destruct (claim s) as [[n [pvc|]]|]; done.
Qed.

Lemma create_calls_stay c : c ∈ createPodAndPVC (W := W) -> call_stays c.
Proof.
  intros Hc s w r w' HJ Hs H.
  apply elem_of_cons in Hc as [->|Hc]; [|apply list_elem_of_singleton in Hc as ->].
  - unfold create_claim in H. destruct (lClaim s) as [[name pvc]|]; [|by injection H as <- <-].
    mstep H as [e w1] E. injection H as <- <-. split; [by eapply create_claim_stays|]. by destruct e.
  - unfold create_pod in H. mstep H as [e w1] E. injection H as <- <-.
    split; [by eapply create_pod_stays|]. by destruct e.
Qed.

Lemma failing_stays pre calls :
  (forall c, c ∈ calls -> call_stays c) -> forall c, c ∈ failing pre calls -> call_stays c.
Proof.
  intros Hc c (c0 & -> & Hin)%list_elem_of_fmap s w r w' HJ Hs H. mstep H as [r0 w1] E.
  injection H as <- <-. destruct (Hc _ Hin _ _ _ _ HJ Hs E) as [HJ1 HL]. split; [done|].
  by destruct r0 as [[s1|e]|].
Qed.

Lemma get_size_stays what i : call_stays (get_size fmtQuantity cfg what i).
Proof.
  intros s w r w' HJ Hs H. unfold get_size in H. mstep H as [got w1] E. injection H as <- <-.
  split; [by eapply get_claim_stays|]. by destruct got.
Qed.

Lemma built_stays pre claim name p :
  podLabels p !! "load-test-role" <> Some role ->
  forall c, c ∈ failing pre (build claim (name, p) :: createPodAndPVC (W := W)) -> call_stays c.
Proof.
  intros Hp. apply failing_stays. intros c [->|Hc]%elem_of_cons; [by apply build_stays|by apply create_calls_stay].
Qed.

Lemma go_stays {X} n (prog : X -> list (call W locals)) xs :
  (forall x c, x ∈ xs -> c ∈ prog x -> call_stays c) ->
  maintains (no_role role) (go_all (sched n) (fun _ => zero_locals) prog xs).
Proof.
  intros Hc w r w' HJ H. eapply (go_all_preserves _ other_pod); [| |exact HJ|exact H].
  - intros x c s v rv v' Hx Hin Hv HL. by eapply Hc.
  - intros x _. unfold other_pod. cbn. by rewrite lookup_empty.
Qed.

Lemma stage_stays {X} n (prog : X -> list (call W locals)) xs :
  (forall x c, x ∈ xs -> c ∈ prog x -> call_stays c) ->
  maintains (no_role role) (stage sched n (fun _ => zero_locals) prog xs).
Proof. intros Hc. unfold stage. apply bind_stays; [by apply go_stays|]. stays. Qed.

Lemma create_snapshots_stays : maintains (no_role role) (create_snapshots cfg sched).
Proof.
  unfold create_snapshots, stage. apply bind_stays; [|stays].
  intros w r w' HJ H. eapply (go_all_preserves _ (fun _ => True)); [| |exact HJ|exact H]; [|done].
  intros p c s v rv v' _ Hc%list_elem_of_singleton Hv _ Hr. subst c. unfold one_call in Hr.
  mstep Hr as [e v1] E. injection Hr as <- <-. split; [by eapply create_snapshot_stays|by destruct e].
Qed.

Lemma snapshots_ready_stays : maintains (no_role role) (snapshots_ready cfg fuel).
Proof. unfold snapshots_ready, waits, snapshots_round. stays. Qed.

#[local] Hint Resolve resize_stays create_snapshots_stays snapshots_ready_stays : stays.

Lemma copies_stays {X} n (prog : X -> list (call W locals)) name xs names :
  (forall x c, x ∈ xs -> c ∈ prog x -> call_stays c) ->
  maintains (no_role role) (copies sched n prog name xs names).
Proof. intros Hc. unfold copies. apply bind_stays; [by apply go_stays|]. stays. Qed.

Hypothesis not_mine : role <> "original" /\ role <> "restore" /\ role <> "clone" /\ role <> "clone-flog".

Lemma role_other r : role <> r -> role_labels r !! "load-test-role" <> Some role.
Proof. intros Hr. unfold role_labels. rewrite lookup_insert_eq. congruence. Qed.

Lemma originals_stays : maintains (no_role role) (create_originals ParseQuantity cfg sched fuel).
Proof.
  unfold create_originals. apply also_stays; [|stays]. apply stage_stays. intros i c _.
  apply built_stays. cbn. apply role_other. tauto.
Qed.

Lemma restore_stays names :
  maintains (no_role role) (executeRestoreFromSnapshotStep ParseQuantity fmtQuantity cfg sched fuel names).
Proof.
  unfold executeRestoreFromSnapshotStep. apply bind_stays; [stays|].
  intros r. destruct r as [[[e|]|]|]; try apply ret_stays. apply bind_stays; [|stays].
  apply copies_stays. intros p c _ Hc. apply elem_of_cons in Hc as [->|Hc]; [apply get_size_stays|].
  revert c Hc. apply built_stays. cbn. apply role_other. tauto.
Qed.

Lemma clone_stays names :
  maintains (no_role role) (executeCloneStep ParseQuantity fmtQuantity cfg sched fuel names).
Proof.
  unfold executeCloneStep. apply bind_stays; [|stays]. apply copies_stays.
  intros p c _ Hc. apply elem_of_cons in Hc as [->|Hc]; [apply get_size_stays|].
  revert c Hc. apply built_stays. cbn. apply role_other. tauto.
Qed.

#[local] Hint Resolve restore_stays clone_stays : stays.

Lemma steps_stays steps clones restores :
  maintains (no_role role) (execute_steps ParseQuantity fmtQuantity patchClaim cfg sched order fuel steps clones restores).
Proof.
  revert clones restores. induction steps as [|step steps IH]; intros clones restores; cbn [execute_steps]; [stays|].
  apply bind_stays; [stays|]. intros [r [c r']]. destruct r as [[[e|]|]|]; stays.
Qed.
End OneRole.

(** ** Names *)

Lemma str_drop_app a b : str_drop (String.length a) (a +:+ b) = b.
Proof. induction a as [|c a IH]; [done|]. rewrite str_app_cons. exact IH. Qed.

Lemma ends_with_split suf s : ends_with suf s = true -> exists t, s = t +:+ suf.
Proof.
  unfold ends_with. intros [_ <-%String.eqb_eq]%andb_true_iff.
  exists (str_take (String.length s - String.length suf) s). symmetry. apply str_take_drop.
Qed.

Lemma str_app_same_length a b c d :
  a +:+ b = c +:+ d -> String.length b = String.length d -> b = d.
Proof.
  intros Heq Hlen. assert (Ha : String.length a = String.length c).
  { apply (f_equal String.length) in Heq. rewrite !str_length_app in Heq. lia. }
  rewrite -(str_drop_app a b) Heq Ha. apply str_drop_app.
Qed.

Lemma str_last_digit s : str_forallb is_digit s = true -> s <> "" ->
  exists c, str_last s = Some c /\ is_digit c = true.
Proof.
  induction s as [|c s IH]; [done|]. cbn. intros [Hc Hs]%andb_true_iff _.
  destruct s as [|d s]; [eauto|]. apply IH; done.
Qed.

Lemma pretty_nonempty (z : Z) : 0 < z -> pretty z <> "".
Proof.
  assert (Hgo : forall x s, s <> "" -> pretty_N_go x s <> "").
  { intros x. induction (N.lt_wf_0 x) as [x _ IH]; intros s Hs.
    destruct (decide (x = 0)%N) as [->|Hx]; [by rewrite pretty_N_go_0|].
    rewrite pretty_N_go_step; [lia|]. apply IH; [apply N.div_lt; lia|done]. }
  destruct z as [|p|p]; [lia| |lia]. intros _.
  unfold pretty, pretty_Z, pretty, pretty_positive, pretty, pretty_N. simpl.
  rewrite pretty_N_go_step; [lia|]. by apply Hgo.
Qed.

Lemma pvcRestore_suffix suf i n : suf = "-restore" \/ suf = "-clone" -> 0 < n -> ends_with suf (pvcRestore i n) = false.
Proof.
  intros Hsuf Hn. destruct (ends_with suf _) eqn:He; [|done]. apply ends_with_split in He as [t Ht].
  destruct (str_last_digit _ (pretty_digits n Hn) (pretty_nonempty n Hn)) as (c & Hc & Hd).
  assert (Hl : str_last (pvcRestore i n) = Some c).
  { unfold pvcRestore. rewrite str_last_app; [done|]. rewrite str_last_app; [by apply pretty_nonempty|done]. }
  rewrite Ht str_last_app in Hl; [by destruct Hsuf as [-> | ->]|].
  by destruct Hsuf as [-> | ->]; injection Hl as <-.
Qed.

(** No name of a claim the runner makes gets the role of the restored ones. *)
Lemma stage2_role_clone i : stage2_role (pvcClone i) = "clone-flog".
Proof.
  unfold stage2_role. destruct (ends_with _ _) eqn:He; [|done]. apply ends_with_split in He as [t Ht].
  unfold pvcClone in Ht. assert (E : t +:+ "-restore" = (t +:+ "-r") +:+ "estore") by (by rewrite str_app_assoc).
  rewrite E in Ht. by apply str_app_same_length in Ht.
Qed.

Lemma stage2_role_restore i n : 0 < n -> stage2_role (pvcRestore i n) = "clone-flog".
Proof. intros Hn. unfold stage2_role. rewrite pvcRestore_suffix; auto. Qed.

(** ** The second stage *)

Lemma appended_all {X} (name : X -> string) (res : list (X * result locals)) :
  first_sent res = None -> appended name res = map name res.*1.
Proof.
  intros Hf. pose proof (first_sent_None _ Hf) as Hall. clear Hf. unfold appended.
  induction res as [|[x r] res IH]; [done|].
  destruct (Hall x r) as [s ->]; [by left|]. cbn. f_equal. apply IH. intros y ry Hy. apply (Hall y). by right.
Qed.

Lemma also_nil (m k : M W outcome) w w' :
  and_also m k w = (Some (Returns None), w') ->
  exists w1, m w = (Some (Returns None), w1) /\ k w1 = (Some (Returns None), w').
Proof.
  intros H. unfold and_also in H. mstep H as [r w1] E. exists w1.
  destruct r as [[[e|]|]|]; try done.
Qed.

(** The copies that were made have the names of the goroutines that made them. *)
Lemma after_copies_nil {X} n (prog : X -> list (call W locals)) name xs names k w names' w' :
  after_copies (copies sched n prog name xs names) k w = ((Some (Returns None), names'), w') ->
  exists ys, ys ≡ₚ xs /\ names' = names ++ map name ys.
Proof.
  intros H. unfold after_copies in H. mstep H as [[r ns] w1] E1.
  destruct r as [[[e|]|]|]; try done. mstep H as [r2 w2] E2. injection H as -> <- <-.
  unfold copies in E1. mstep E1 as [res w3] E3. destruct res as [[res|]|]; try done.
  injection E1 as Hf <- _. exists (res.*1). split; [by eapply go_all_ids|]. by rewrite appended_all.
Qed.

Definition copy_names (clones restores : list string) : Prop :=
  (forall name, name ∈ clones -> exists i, name = pvcClone i) /\
  (forall name, name ∈ restores -> exists i n, 0 < n /\ name = pvcRestore i n).

Lemma elem_of_index_pairs i n : (i, n) ∈ index_pairs cfg <-> 1 <= i < 1 + cPodsCount cfg /\ 1 <= n < 1 + cSnapshotsPerPVC cfg.
Proof.
  unfold index_pairs, indexes. rewrite list_elem_of_bind. split.
  - intros (j & Hin & Hj%elem_of_seqZ). apply list_elem_of_bind in Hin as (m & Hp & Hm%elem_of_seqZ).
    apply list_elem_of_singleton in Hp as [= -> ->]. done.
  - intros [Hi Hn]. exists i. split; [|by apply elem_of_seqZ]. apply list_elem_of_bind. exists n.
    split; [by apply list_elem_of_singleton|by apply elem_of_seqZ].
Qed.

Lemma restore_step_names restores restores' w w' :
  executeRestoreFromSnapshotStep ParseQuantity fmtQuantity cfg sched fuel restores w =
    ((Some (Returns None), restores'), w') ->
  exists ys, ys ≡ₚ index_pairs cfg /\ restores' = restores ++ map (fun p => pvcRestore p.1 p.2) ys.
Proof.
  intros H. unfold executeRestoreFromSnapshotStep in H. mstep H as [made w1] E1.
  destruct made as [[[e|]|]|]; try done. by apply after_copies_nil in H.
Qed.

Lemma execute_steps_names steps clones restores w clones' restores' w' :
  copy_names clones restores ->
  execute_steps ParseQuantity fmtQuantity patchClaim cfg sched order fuel steps clones restores w =
    ((Some (Returns None), (clones', restores')), w') ->
  copy_names clones' restores' /\
  (StepRestoreFromSnapshot ∈ steps \/ restores <> [] -> 0 < cPodsCount cfg -> 0 < cSnapshotsPerPVC cfg ->
   restores' <> []).
Proof.
  revert clones restores w. induction steps as [|step steps IH]; intros clones restores w Hn H; cbn [execute_steps] in H.
  { injection H as <- <- <-. split; [done|]. intros [Hin|Hne] _ _; [by apply elem_of_nil in Hin|done]. }
  mstep H as [[r [c1 r1]] w1] E1. destruct r as [[[e|]|]|]; try done.
  assert (Hstep : copy_names c1 r1 /\
    (step = StepRestoreFromSnapshot \/ restores <> [] -> 0 < cPodsCount cfg -> 0 < cSnapshotsPerPVC cfg -> r1 <> [])).
  { destruct Hn as [Hc Hr]. destruct (String.eqb_spec step StepRestoreFromSnapshot) as [->|Hne].
    - mstep E1 as [[r2 rs] w2] E2. injection E1 as -> <- <- <-.
      apply restore_step_names in E2 as (ys & Hys & ->). split; [split; [done|]|].
      + intros name [Hin|Hin]%elem_of_app; [by apply Hr|].
        apply list_elem_of_fmap in Hin as ([i n] & -> & Hin). rewrite Hys in Hin.
        apply elem_of_index_pairs in Hin. exists i, n. split; [lia|done].
      + intros _ Hp Hs Hnil. apply app_eq_nil in Hnil as [_ Hnil]. apply map_eq_nil in Hnil as ->.
        assert (Hin : (1, 1) ∈ index_pairs cfg) by (apply elem_of_index_pairs; lia).
        rewrite <- Hys in Hin. by apply elem_of_nil in Hin.
    - assert (Hkeep : r1 = restores -> (step = StepRestoreFromSnapshot \/ restores <> [] ->
          0 < cPodsCount cfg -> 0 < cSnapshotsPerPVC cfg -> r1 <> [])) by (intros -> [?|?]; done).
      destruct (String.eqb step StepResize).
      { mstep E1 as [r2 w2] E2. injection E1 as -> <- <- <-. split; [done|by apply Hkeep]. }
      destruct (String.eqb step StepClone); [|injection E1 as <- <- <-; split; [done|by apply Hkeep]].
      mstep E1 as [[r2 cs] w2] E2. injection E1 as -> <- <- <-.
      apply after_copies_nil in E2 as (ys & Hys & ->). split; [split; [|done]|by apply Hkeep].
      intros name [Hin|Hin]%elem_of_app; [by apply Hc|]. apply list_elem_of_fmap in Hin as (i & -> & _). by exists i. }
  destruct Hstep as [Hn1 Hne1]. apply IH in H as [Hn' Hne']; [|done]. split; [done|].
  intros Hin Hp Hs. apply Hne'; [|done..]. destruct Hin as [[Heq|Hin]%elem_of_cons|Hne];
    [right; apply Hne1; auto|by left|right; apply Hne1; auto].
Qed.

Context `{NE : !NobodyElse "restore-flog"}.

Lemma count_in {A} (p : A -> bool) l x : x ∈ l -> p x = true -> 0 < count p l.
Proof.
  intros Hx Hp. unfold count. induction l as [|y l IH]; [by apply elem_of_nil in Hx|].
  apply elem_of_cons in Hx as [<-|Hx]; cbn; [rewrite Hp; cbn; lia|].
  specialize (IH Hx). destruct (p y); cbn; lia.
Qed.

Lemma no_role_none status w :
  no_role "restore-flog" w ->
  count (fun p : string * Pod => selected (with_role "restore-flog") (podLabels p.2) && in_status status p.2)
    (map_to_list (objs w)) = 0.
Proof.
  intros HJ. unfold count. assert (Hall : forall l : list (string * Pod), l ⊆ map_to_list (objs w) ->
    List.filter (fun p => selected (with_role "restore-flog") (podLabels p.2) && in_status status p.2) l = []).
  { induction l as [|[k p] l IH]; intros Hsub; [done|]. cbn [List.filter].
    assert (Hk : objs (O := Pod) w !! k = Some p) by (apply elem_of_map_to_list, Hsub; by left).
    destruct (selected (with_role "restore-flog") (podLabels (k, p).2)) eqn:Hs.
    - exfalso. unfold selected in Hs. cbn in Hs. rewrite !andb_true_iff !bool_decide_eq_true in Hs.
      destruct Hs as (_ & Hr & _). by apply (HJ k p Hk).
    - cbn. apply IH. intros x Hx. apply Hsub. by right. }
  by rewrite Hall.
Qed.

Lemma executeStage2_fails names i n w r w' :
  0 < n -> pvcRestore i n ∈ names -> (forall name, name ∈ names -> stage2_role name = "clone-flog") ->
  no_role "restore-flog" w ->
  executeStage2 ParseQuantity patchClaim cfg sched order fuel names w = (r, w') -> r <> Some (Returns None).
Proof.
  intros Hn Hin Hroles HJ H ->. unfold executeStage2 in H. cbv zeta in H.
  apply also_nil in H as (w1 & H1 & H). apply also_nil in H as (w2 & H2 & H). apply also_nil in H as (w3 & H3 & _).
  assert (HJ1 : no_role "restore-flog" w1).
  { eapply (stage_stays "restore-flog"); [|exact HJ|exact H1]. intros name c Hname.
    apply built_stays. cbn. rewrite (Hroles _ Hname). cbn. by apply role_other. }
  assert (HJ2 : no_role "restore-flog" w2).
  { unfold if_positive in H2. destruct (0 <? _); [|by injection H2 as <-]. by eapply pods_status_stays. }
  assert (Hpos : 0 < count (fun n => negb (ends_with "-clone" n)) names).
  { eapply count_in; [exact Hin|]. rewrite pvcRestore_suffix; auto. }
  unfold if_positive in H3. rewrite (proj2 (Z.ltb_lt _ _) Hpos) in H3.
  assert (HJ3 : no_role "restore-flog" w3) by (by eapply pods_status_stays).
  unfold pods_status, waits in H3. mstep H3 as [r3 w4] E3. destruct r3 as [r3|]; [|done].
  injection H3 as -> ->. apply WaitForPodsStatus_ok in E3. rewrite no_role_none in E3; [done|lia].
Qed.
Lemma resize_cloning_fails w r w' :
  StepRestoreFromSnapshot ∈ cTestOrder cfg -> 0 < cPodsCount cfg -> 0 < cSnapshotsPerPVC cfg ->
  no_role "restore-flog" w ->
  runSnapshotResizeCloningMode ParseQuantity fmtQuantity patchClaim deletePods deleteClaims cfg sched order fuel w
    = (r, w') -> r <> Some (Returns None).
Proof.
  intros Hin Hp Hs HJ H ->. unfold runSnapshotResizeCloningMode in H.
  apply also_nil in H as (w1 & H1 & H). apply also_nil in H as (w2 & H2 & _).
  pose proof (originals_stays "restore-flog" ltac:(done) _ _ _ HJ H1) as HJ1. mstep H2 as [[r2 [clones restores]] w3] E2.
  pose proof (steps_stays "restore-flog" ltac:(done) _ _ _ _ _ _ HJ1 E2) as HJ3.
  destruct r2 as [[[e|]|]|]; try done.
  apply execute_steps_names in E2 as [[Hc Hr] Hne].
  2: { split; intros name Hname; by apply elem_of_nil in Hname. }
  specialize (Hne (or_introl Hin) Hp Hs). destruct restores as [|name restores]; [done|].
  destruct (Hr name) as (i & n & Hn & ->); [by left|].
  destruct (clones ++ pvcRestore i n :: restores) as [|x names] eqn:Hall; [by destruct clones|].
  eapply (executeStage2_fails (x :: names) i n w3); [done| | |done|exact H2|done].
  - rewrite -Hall. apply elem_of_app. right. by left.
  - intros y Hy. rewrite -Hall in Hy. apply elem_of_app in Hy as [Hy|Hy].
    + destruct (Hc y Hy) as [j ->]. apply stage2_role_clone.
    + destruct (Hr y Hy) as (j & m & Hm & ->). by apply stage2_role_restore.
Qed.
End Role.

(** ** Configurations *)

(** What [Validate] asks for. *)
Definition sound_config (c : Config) : Prop :=
  cNamespace c <> "" /\ cStorageClassName c <> "" /\ cPVCSize c <> "" /\ 0 < cPodsCount c /\
  0 < cIterations c /\
  (cMode c = ModeSnapshotResizeCloning ->
     0 < cSnapshotsPerPVC c /\ (forall step, step ∈ cTestOrder c -> known_step step = true) /\
     (StepResize ∈ cTestOrder c -> cPVCSizeAfterResize c <> "") /\
     (StepClone ∈ cTestOrder c \/ StepRestoreFromSnapshot ∈ cTestOrder c -> cPVCSizeAfterResizeStage2 c <> "")).

Lemma find_unknown steps :
  List.find (fun step => negb (known_step step)) steps = None <->
  forall step, step ∈ steps -> known_step step = true.
Proof.
  split.
  - intros H step Hin%list_elem_of_In. pose proof (List.find_none _ _ H _ Hin) as Hf. by apply negb_false_iff.
  - intros H. destruct (List.find _ steps) as [step|] eqn:E; [|done].
    apply List.find_some in E as [Hin%list_elem_of_In Hn]. by rewrite H in Hn.
Qed.

Lemma existsb_eqb x l : existsb (String.eqb x) l = true <-> x ∈ l.
Proof.
  rewrite existsb_exists. setoid_rewrite <- list_elem_of_In. setoid_rewrite String.eqb_eq. naive_solver.
Qed.

Lemma existsb_either steps :
  existsb (fun step => String.eqb step StepClone || String.eqb step StepRestoreFromSnapshot) steps = true <->
  StepClone ∈ steps \/ StepRestoreFromSnapshot ∈ steps.
Proof.
  rewrite existsb_exists. setoid_rewrite <- list_elem_of_In. setoid_rewrite orb_true_iff.
  setoid_rewrite String.eqb_eq. naive_solver.
Qed.

Lemma eqb_empty s : String.eqb s "" = true <-> s = "".
Proof. apply String.eqb_eq. Qed.

(** The checks of the one mode that has some. *)
Lemma validate_resize_cloning c :
  cMode c = ModeSnapshotResizeCloning ->
  (validate_mode c).2 = c /\
  ((validate_mode c).1 = None <->
   0 < cSnapshotsPerPVC c /\ (forall step, step ∈ cTestOrder c -> known_step step = true) /\
   (StepResize ∈ cTestOrder c -> cPVCSizeAfterResize c <> "") /\
   (StepClone ∈ cTestOrder c \/ StepRestoreFromSnapshot ∈ cTestOrder c -> cPVCSizeAfterResizeStage2 c <> "")).
Proof.
  intros Hm. unfold validate_mode. rewrite Hm.
  change (String.eqb ModeSnapshotResizeCloning ModeCheckCloning) with false.
  change (String.eqb ModeSnapshotResizeCloning ModeCheckRestoringFromSnapshot) with false.
  change (String.eqb ModeSnapshotResizeCloning ModeSnapshotOnly) with false. rewrite String.eqb_refl. cbv iota.
  destruct (Z.leb_spec (cSnapshotsPerPVC c) 0) as [Hle|Hlt]; [split; [done|]; split; [done|lia]|].
  rewrite -(find_unknown (cTestOrder c)). destruct (List.find _ _) as [step|] eqn:Hf.
  { split; [done|]. split; [done|]. intros (_ & Hx & _). by rewrite Hx in Hf. }
  rewrite -existsb_either. rewrite -(existsb_eqb StepResize).
  generalize (existsb (String.eqb StepResize) (cTestOrder c)).
  generalize (existsb (fun step => String.eqb step StepClone || String.eqb step StepRestoreFromSnapshot) (cTestOrder c)).
  intros b a. destruct a, b; destruct (String.eqb_spec (cPVCSizeAfterResize c) "");
    destruct (String.eqb_spec (cPVCSizeAfterResizeStage2 c) ""); cbn; split; naive_solver.
Qed.

(** [Validate] accepts exactly the sound configurations; it changes nothing but the number of
    snapshots of [snapshot_only], which is positive afterwards. *)
Theorem Validate_spec c :
  ((Validate c).1 = None <-> sound_config c) /\
  ((Validate c).2 = c \/
   cMode c = ModeSnapshotOnly /\ cSnapshotsPerPVC c <= 0 /\ (Validate c).2 = with_snapshots 1 c).
Proof.
  unfold Validate, sound_config.
  destruct (String.eqb_spec (cNamespace c) ""); [split; [naive_solver|by left]|].
  destruct (String.eqb_spec (cStorageClassName c) ""); [split; [naive_solver|by left]|].
  destruct (String.eqb_spec (cPVCSize c) ""); [split; [naive_solver|by left]|].
  destruct (Z.leb_spec (cPodsCount c) 0); [split; [split; [done|lia]|by left]|].
  destruct (Z.leb_spec (cIterations c) 0); [split; [split; [done|lia]|by left]|].
  destruct (decide (cMode c = ModeSnapshotResizeCloning)) as [Hm|Hm].
  { destruct (validate_resize_cloning c Hm) as [-> Hv]. split; [|by left]. rewrite Hv. naive_solver. }
  unfold validate_mode. rewrite (proj2 (String.eqb_neq _ _) Hm).
  destruct (String.eqb (cMode c) ModeCheckCloning); [split; [naive_solver|by left]|].
  destruct (String.eqb (cMode c) ModeCheckRestoringFromSnapshot); [split; [naive_solver|by left]|].
  destruct (String.eqb_spec (cMode c) ModeSnapshotOnly); [|split; [naive_solver|by left]].
  destruct (Z.leb_spec (cSnapshotsPerPVC c) 0); split; naive_solver.
Qed.

Lemma with_snapshots_resize c : (Validate c).1 = None -> cMode c = ModeSnapshotResizeCloning -> (Validate c).2 = c.
Proof.
  intros _ Hm. destruct (proj2 (Validate_spec c)) as [->|(Hs & _)]; [done|]. rewrite Hm in Hs. done.
Qed.

Section Fails.
Context {W : Type} `{AE : ApiErrors, CX : Ctx W, CK : Clock W}.
Context `{VC : Client W PVC, PC : Client W Pod, SC : Client W VolumeSnapshot, NC : Client W Namespace}.
Context (ParseQuantity : string -> result Z) (fmtQuantity : Z -> string).
Context (patchClaim : string -> string -> M W (option error)) (patchLabel : string -> M W (option error)).
Context (deletePods deleteClaims : selector -> M W (option error)).
Context `{PL : !ClientLaws W Pod}.
Context `{FV : !Frame W PVC Pod, FS : !Frame W VolumeSnapshot Pod, FN : !Frame W Namespace Pod}.
Context `{NE : !NobodyElse patchClaim patchLabel "restore-flog"}.

(** C9: The mode [snapshot_resize_cloning] never passes with the step [restore_from_snapshot]: the
    restored claims are named [pvc-test-i-restore-n], the test for the suffix "-restore" gives
    none of their pods the role restore-flog, and the second stage waits for running pods of
    that role. *)
Theorem restored_claims_never_pass cfg sched order fuel w r w' :
  cMode cfg = ModeSnapshotResizeCloning -> StepRestoreFromSnapshot ∈ cTestOrder cfg ->
  no_role "restore-flog" w ->
  StressRun ParseQuantity fmtQuantity patchClaim patchLabel deletePods deleteClaims cfg sched order fuel w = (r, w') ->
  r <> Some (Returns None).
Proof.
  intros Hm Hin HJ H ->. unfold StressRun in H. destruct (Validate cfg) as [[e|] cfg'] eqn:Hv; [done|].
  assert (Hnone : (Validate cfg).1 = None) by (by rewrite Hv).
  pose proof (with_snapshots_resize cfg Hnone Hm) as Hc. rewrite Hv in Hc. cbn in Hc. subst cfg'.
  apply Validate_spec in Hnone as (_ & _ & _ & Hp & _ & Hmode). destruct (Hmode Hm) as [Hs _].
  unfold run_validated in H. apply also_nil in H as (w1 & H1 & H).
  assert (HJ1 : no_role "restore-flog" w1).
  { unfold ensure_namespace in H1. mstep H1 as [got w2] E2.
    apply (framed_stays "restore-flog" _ (frame_get _)) in E2; [|done].
    destruct got as [ns|e]; [by injection H1 as <-|]. unfold wrapped in H1. mstep H1 as [c w3] E3.
    injection H1 as _ <-. by apply (framed_stays "restore-flog" _ (frame_create _ _)) in E3. }
  mstep H as [u w2] E2. apply (others_label patchClaim patchLabel (cNamespace cfg) _ _ _ HJ1) in E2.
  unfold run_mode in H. rewrite Hm in H. cbn -[runSnapshotResizeCloningMode] in H.
  by eapply resize_cloning_fails in H.
Qed.
End Fails.

(** ** Creating claims and pods in parallel *)
Section Create.
Context {W : Type} `{AE : ApiErrors, VC : Client W PVC, PC : Client W Pod}.
Context `{VL : !ClientLaws W PVC, PL : !ClientLaws W Pod}.
Context `{FV : !Frame W PVC Pod, FP : !Frame W Pod PVC}.

(** The goroutines: calls that only read, then a claim and a pod with names of their own. *)
Context {X : Type} (xs : list X) (reads : X -> list (call W locals)) (msg cn pn : X -> string).
Context (claim : X -> locals -> option (string * ending PVC)) (pod : X -> Pod).
Hypothesis distinct : NoDup xs.
Hypothesis claim_name : forall x s n c, claim x s = Some (n, c) -> n = cn x.
Hypothesis cn_inj : forall x y, x ∈ xs -> y ∈ xs -> cn x = cn y -> x = y.
Hypothesis pn_inj : forall x y, x ∈ xs -> y ∈ xs -> pn x = pn y -> x = y.
Hypothesis reads_only : forall x c s w r w', x ∈ xs -> c ∈ reads x -> c s w = (r, w') ->
  objs (O := PVC) w' = objs w /\ objs (O := Pod) w' = objs w.

Definition creating (x : X) : list (call W locals) :=
  reads x ++ failing (msg x) (build (claim x) (pn x, pod x) :: createPodAndPVC).

Context (w0 : W).

(** Only objects of the goroutines' names are touched. *)
Definition others_kept (w : W) : Prop :=
  (forall k, k ∉ map cn xs -> objs (O := PVC) w !! k = objs w0 !! k) /\
  (forall k, k ∉ map pn xs -> objs (O := Pod) w !! k = objs w0 !! k).

Definition claim_made (x : X) (s : locals) (w : W) : Prop :=
  match claim x s with
  | None => objs (O := PVC) w !! cn x = objs w0 !! cn x
  | Some (n, Returns pvc) => objs (O := PVC) w0 !! cn x = None /\ objs w !! cn x = Some pvc
  | Some (_, Panics) => False
  end.

Definition pod_made (x : X) (w : W) : Prop :=
  objs (O := Pod) w0 !! pn x = None /\ objs w !! pn x = Some (pod x).

Definition untouched (x : X) (w : W) : Prop :=
  objs (O := PVC) w !! cn x = objs w0 !! cn x /\ objs (O := Pod) w !! pn x = objs w0 !! pn x.

Definition pod_untouched (x : X) (w : W) : Prop := objs (O := Pod) w !! pn x = objs w0 !! pn x.

(** The claim in the local variables is the one that was built. *)
Definition built (x : X) (s0 s : locals) : Prop :=
  lPod s = (pn x, pod x) /\
  match claim x s0 with
  | None => lClaim s = None
  | Some (n, Returns pvc) => lClaim s = Some (n, pvc)
  | Some (_, Panics) => False
  end.

Definition created (x : X) (w : W) : Prop := exists s0, claim_made x s0 w /\ pod_made x w.

(** The assertion of goroutine [x] at each point. *)
Definition at_point (x : X) (g : gor W locals) (w : W) : Prop :=
  x ∈ xs /\
  match g with
  | Run s todo =>
      (exists l, todo = l ++ failing (msg x) (build (claim x) (pn x, pod x) :: createPodAndPVC) /\
         (forall c, c ∈ l -> c ∈ reads x) /\ untouched x w) \/
      (todo = failing (msg x) createPodAndPVC /\ exists s0, built x s0 s /\ untouched x w) \/
      (todo = failing (msg x) [create_pod] /\ exists s0, built x s0 s /\ claim_made x s0 w /\ pod_untouched x w) \/
      (todo = [] /\ created x w)
  | Send _ => True
  | Over (Ok _) => created x w
  | Over (Err _) => True
  end.

(** What the two creations do. *)
Lemma create_claim_call s w r w' :
  create_claim s w = (r, w') ->
  objs (O := Pod) w' = objs w /\
  match lClaim s with
  | None => r = Returns (Ok s) /\ objs (O := PVC) w' = objs w
  | Some (n, pvc) =>
      (forall k, k <> n -> objs (O := PVC) w' !! k = objs w !! k) /\
      ((exists e, r = Returns (Err e)) \/
       r = Returns (Ok s) /\ objs (O := PVC) w !! n = None /\ objs w' !! n = Some pvc)
  end.
Proof.
  unfold create_claim. destruct (lClaim s) as [[n pvc]|]; [|by intros [= <- <-]]. intros H.
  mstep H as [e w1] E. injection H as <- <-.
  pose proof (frame_create (O2 := Pod) n pvc w) as Hf. rewrite E in Hf. split; [exact Hf|].
  destruct e as [e|].
  - split; [by apply create_err in E as [E _]|]. left. eauto.
  - apply create_ok in E as [Hn ->]. split; [intros k Hk; by apply lookup_insert_ne|].
    right. by rewrite lookup_insert_eq.
Qed.

Lemma create_pod_call s w r w' :
  create_pod s w = (r, w') ->
  objs (O := PVC) w' = objs w /\ (forall k, k <> (lPod s).1 -> objs (O := Pod) w' !! k = objs w !! k) /\
  ((exists e, r = Returns (Err e)) \/
   r = Returns (Ok s) /\ objs (O := Pod) w !! (lPod s).1 = None /\ objs w' !! (lPod s).1 = Some (lPod s).2).
Proof.
  unfold create_pod. intros H. mstep H as [e w1] E. injection H as <- <-.
  pose proof (frame_create (O2 := PVC) (lPod s).1 (lPod s).2 w) as Hf. rewrite E in Hf. split; [exact Hf|].
  destruct e as [e|].
  - split; [by apply create_err in E as [E _]|]. left. eauto.
  - apply create_ok in E as [Hn ->]. split; [intros k Hk; by apply lookup_insert_ne|].
    right. by rewrite lookup_insert_eq.
Qed.

(** One move of [x]: where it gets to, and that only its own objects change. *)
Definition own_only (x : X) (w w' : W) : Prop :=
  (forall k, k <> cn x -> objs (O := PVC) w' !! k = objs w !! k) /\
  (forall k, k <> pn x -> objs (O := Pod) w' !! k = objs w !! k).

Lemma same_own x w w' : objs (O := PVC) w' = objs w -> objs (O := Pod) w' = objs w -> own_only x w w'.
Proof. intros H1 H2. split; intros k _; [by rewrite H1|by rewrite H2]. Qed.

Lemma at_point_move x g w g' w' :
  at_point x g w -> move g w = (Some g', w') -> at_point x g' w' /\ own_only x w w'.
Proof.
  intros [Hx HA] H. destruct g as [s todo|e|r].
  2: { injection H as <- <-. split; [done|by apply same_own]. }
  2: { injection H as <- <-. split; [done|by apply same_own]. }
  destruct HA as [(l & -> & Hl & Hu)|[(-> & s0 & Hb & Hu)|[(-> & s0 & [Hpod Hb] & Hm & Hu)|[-> Hc]]]].
  - destruct l as [|c l].
    + apply failing_move in H as (r & Hr & Hg). unfold build in Hr. cbn in Hr. injection Hr as Hr <-.
      split; [|by apply same_own]. split; [done|].
      destruct r as [s1|e]; [subst g'|by destruct Hg as [e' ->]]. right. left. split; [done|].
      exists s. split; [|done]. unfold built.
      destruct (claim x s) as [[n [pvc|]]|]; try done; injection Hr as <-; done.
    + unfold move in H. cbn [app] in H. mstep H as [r w1] E. injection H as Hg <-.
      destruct (reads_only x c s w r w1 Hx (Hl _ ltac:(by left)) E) as [H1 H2].
      split; [|by apply same_own]. split; [done|]. destruct r as [[s1|e]|]; [| |done]; injection Hg as <-; [|done].
      left. exists l. split; [done|]. split; [intros c' Hc'; apply Hl; by right|].
      unfold untouched. by rewrite H1 H2.
  - apply failing_move in H as (r & Hr & Hg). apply create_claim_call in Hr as [Hp Hr].
    destruct Hb as [Hpod Hb]. destruct Hu as [Hu1 Hu2].
    assert (Hown : own_only x w w').
    { split; [|intros k _; by rewrite Hp]. intros k Hk. destruct (claim x s0) as [[n [pvc|]]|] eqn:Hcl; [|done|];
        rewrite Hb in Hr; [|by destruct Hr as [_ ->]].
      apply claim_name in Hcl as ->. by apply Hr. }
    split; [|done]. split; [done|]. destruct r as [s1|e]; [subst g'|by destruct Hg as [e' ->]].
    right. right. left. split; [done|]. exists s0. unfold built, claim_made, pod_untouched. rewrite Hp.
    destruct (claim x s0) as [[n [pvc|]]|] eqn:Hcl; [|done|]; rewrite Hb in Hr.
    + pose proof (claim_name _ _ _ _ Hcl) as ->. destruct Hr as [_ [[e [=]]|([= <-] & Hn & Hs)]].
      rewrite -Hu1. done.
    + destruct Hr as [[= <-] Ho]. rewrite Ho. done.
  - apply failing_move in H as (r & Hr & Hg). apply create_pod_call in Hr as (Hv & Hk & Hr). rewrite Hpod in Hk, Hr.
    cbn in Hk, Hr. split; [|split; [intros k _; by rewrite Hv|done]]. split; [done|].
    destruct r as [s1|e]; [subst g'|by destruct Hg as [e' ->]]. destruct Hr as [[e [=]]|([= <-] & Hn & Hs)].
    do 3 right. split; [done|]. exists s0. split; [|split; [by rewrite -Hu|done]].
    unfold claim_made in *. by rewrite Hv.
  - injection H as <- <-. split; [done|by apply same_own].
Qed.

(** What others do to their own objects leaves an assertion alone. *)
Lemma at_point_stable x y g w w' :
  x <> y -> y ∈ xs -> own_only y w w' -> at_point x g w -> at_point x g w'.
Proof.
  intros Hne Hy [Ho1 Ho2] [Hx HA]. split; [done|].
  assert (E1 : objs (O := PVC) w' !! cn x = objs w !! cn x) by (apply Ho1; intros He; by apply Hne, cn_inj).
  assert (E2 : objs (O := Pod) w' !! pn x = objs w !! pn x) by (apply Ho2; intros He; by apply Hne, pn_inj).
  assert (Hc : created x w -> created x w').
  { intros (s0 & H1 & H2). exists s0. unfold claim_made, pod_made in *. by rewrite E1 E2. }
  destruct g as [s todo|e|[s|e]]; [|done|by apply Hc|done]. unfold untouched, pod_untouched, claim_made in *.
  rewrite E1 E2. destruct HA as [HA|[HA|[HA|[Ht HA]]]]; [by left|right; by left|do 2 right; by left|].
  do 3 right. split; [done|by apply Hc].
Qed.

Lemma kept_move x w w' : x ∈ xs -> others_kept w -> own_only x w w' -> others_kept w'.
Proof.
  intros Hx [H1 H2] [Ho1 Ho2]. split; intros k Hk.
  - rewrite Ho1; [|by apply H1]. intros ->. by apply Hk, list_elem_of_fmap_2.
  - rewrite Ho2; [|by apply H2]. intros ->. by apply Hk, list_elem_of_fmap_2.
Qed.

(** Under every schedule: when no goroutine fails, every claim and every pod is there as it was
    asked for, none of them existed before, and nothing else changed. *)
Lemma create_pool sched res w' :
  go_all sched (fun _ => zero_locals) creating xs w0 = (Some (Returns res), w') ->
  others_kept w' /\ (first_sent res = None -> forall x, x ∈ xs -> created x w').
Proof.
  intros H. apply (go_all_rule others_kept at_point) in H as (Hk & Hp & Hr).
  - split; [done|]. intros Hf x Hx. rewrite <- Hp in Hx. apply list_elem_of_fmap in Hx as ([y r] & -> & Hin).
    destruct (first_sent_None _ Hf _ _ Hin) as [s ->]. by destruct (Hr _ _ Hin) as [_ ?].
  - intros x g w g' w1 HJ HA Hm. destruct (at_point_move _ _ _ _ _ HA Hm) as [HA' Ho]. split; [|done].
    eapply kept_move; [by destruct HA|done|done].
  - intros x y gx gy w g' w1 Hne HJ Hx Hy Hm. destruct (at_point_move _ _ _ _ _ Hy Hm) as [Hy' Ho].
    eapply at_point_stable; [done|by destruct Hy|done|done].
  - done.
  - by split.
  - intros x Hx. split; [done|]. left. exists (reads x). by split.
Qed.
End Create.

(** ** The stages of the modes *)

Lemma pvcTest_inj i j : pvcTest i = pvcTest j -> i = j.
Proof. intros H%str_app_inv_l. by apply (inj pretty) in H. Qed.
Lemma podTest_inj i j : podTest i = podTest j -> i = j.
Proof. intros H%str_app_inv_l. by apply (inj pretty) in H. Qed.

(** Names with two numbers are told apart by both. *)
Lemma two_numbers_inj pre mid (i n j m : Z) : 0 < i -> 0 < j ->
  (pre +:+ pretty i) +:+ String "-" mid +:+ pretty n = (pre +:+ pretty j) +:+ String "-" mid +:+ pretty m ->
  i = j /\ n = m.
Proof.
  intros Hi Hj. rewrite !str_app_assoc. intros H%str_app_inv_l. rewrite !str_app_cons in H.
  apply digits_cut in H as [Hij Hnm]; [|by apply pretty_digits..].
  apply str_app_inv_l in Hnm. split; by apply (inj pretty).
Qed.

Lemma pvcRestore_inj i n j m : 0 < i -> 0 < j -> pvcRestore i n = pvcRestore j m -> i = j /\ n = m.
Proof. apply (two_numbers_inj "pvc-test-" "restore-"). Qed.

Section Stages.
Context {W : Type} `{AE : ApiErrors, CX : Ctx W, CK : Clock W}.
Context `{VC : Client W PVC, PC : Client W Pod, SC : Client W VolumeSnapshot, NC : Client W Namespace}.
Context `{VL : !ClientLaws W PVC, PL : !ClientLaws W Pod}.
Context `{FV : !Frame W PVC Pod, FP : !Frame W Pod PVC}.
Context (ParseQuantity : string -> result Z) (fmtQuantity : Z -> string).
Context (patchClaim : string -> string -> M W (option error)) (patchLabel : string -> M W (option error)).
Context (deletePods deleteClaims : selector -> M W (option error)).
Context (cfg : Config) (sched : nat -> list nat) (order : list string -> list string) (fuel : nat).

(** The goroutines of [for i := 1; i <= PodsCount; i++], each with one claim and one pod. *)
Lemma index_stage (msg : Z -> string) (claim : Z -> ending PVC) (pod : Z -> Pod) w :
  let prog i := failing (msg i) (build (fun _ => Some (pvcTest i, claim i)) (podTest i, pod i) :: createPodAndPVC) in
  exists r w', stage sched 0 (fun _ => zero_locals) prog (indexes cfg) w = (Some r, w') /\
    (r <> Panics ->
       (forall k, k ∉ map pvcTest (indexes cfg) -> objs (O := PVC) w' !! k = objs w !! k) /\
       (forall k, k ∉ map podTest (indexes cfg) -> objs (O := Pod) w' !! k = objs w !! k)) /\
    (r = Returns None -> forall i, 1 <= i <= cPodsCount cfg -> exists pvc, claim i = Returns pvc /\
       objs (O := PVC) w !! pvcTest i = None /\ objs w' !! pvcTest i = Some pvc /\
       objs (O := Pod) w !! podTest i = None /\ objs w' !! podTest i = Some (pod i)).
Proof.
  intros prog. destruct (go_all_ends (sched 0%nat) (fun _ => zero_locals) prog (indexes cfg) w) as (r & w' & H).
  unfold stage, mbind, M_bind. rewrite H. destruct r as [res|]; [|by exists Panics, w'].
  exists (Returns (first_sent res)), w'. split; [done|].
  apply (create_pool (indexes cfg) (fun _ => []) msg pvcTest podTest
    (fun i _ => Some (pvcTest i, claim i)) pod) in H as [[Hk1 Hk2] Hc].
  - split; [done|]. intros [= Hf] i Hi. destruct (Hc Hf i) as (s0 & Hm & Hp); [apply elem_of_seqZ; lia|].
    unfold claim_made in Hm. destruct (claim i) as [pvc|]; [|done]. exists pvc. destruct Hm, Hp. done.
  - apply NoDup_seqZ.
  - by intros i s n c [= -> _].
  - intros i j _ _. apply pvcTest_inj.
  - intros i j _ _. apply podTest_inj.
  - intros i c s v r v' _ Hin. by apply elem_of_nil in Hin.
Qed.

(** The first stage of the flog mode, under every schedule of its goroutines, ends; unless a
    bad quantity makes it panic, it touches nothing but the claims and pods of its names, and
    without an error each of them is there as configured and none existed before. *)
Theorem flog_stage_spec w :
  exists r w',
    stage sched 0 (fun _ => zero_locals)
      (fun index => failing ("failed to create pod/PVC " +:+ pretty index +:+ ": ")
         (createFlogPodAndPVC ParseQuantity cfg (podTest index) (pvcTest index) "" true true
            (if index =? 1 then "true" else ""))) (indexes cfg) w = (Some r, w') /\
    (r <> Panics ->
       (forall k, k ∉ map pvcTest (indexes cfg) -> objs (O := PVC) w' !! k = objs w !! k) /\
       (forall k, k ∉ map podTest (indexes cfg) -> objs (O := Pod) w' !! k = objs w !! k)) /\
    (r = Returns None -> forall i, 1 <= i <= cPodsCount cfg -> exists q,
       ParseQuantity (cPVCSize cfg) = Ok q /\
       objs (O := PVC) w !! pvcTest i = None /\
       objs w' !! pvcTest i = Some (new_claim plain_labels (mkPVCSpec q (cStorageClassName cfg) None true)) /\
       objs (O := Pod) w !! podTest i = None /\
       objs w' !! podTest i = Some (flog_pod cfg "" (pvcTest i) true (if i =? 1 then "true" else ""))).
Proof.
  destruct (index_stage (fun index => "failed to create pod/PVC " +:+ pretty index +:+ ": ")
    (fun _ => claim_of ParseQuantity cfg plain_labels (cPVCSize cfg) None true)
    (fun i => flog_pod cfg "" (pvcTest i) true (if i =? 1 then "true" else "")) w) as (r & w' & H & Hk & Hc).
  exists r, w'. split; [exact H|]. split; [done|]. intros Hr i Hi. destruct (Hc Hr i Hi) as (pvc & Hp & Hrest).
  unfold claim_of in Hp. destruct (ParseQuantity (cPVCSize cfg)) as [q|e]; [|done]. injection Hp as <-. by exists q.
Qed.

(** [check_cloning] makes no clone of a claim that is there: it fails when [pvc-test-1] exists,
    because it creates a claim of that name, and where it passes, [pvc-test-1] was created as a
    clone of itself. *)
Theorem check_cloning_clones_itself w w' :
  1 <= cPodsCount cfg ->
  runCheckCloningMode ParseQuantity deletePods deleteClaims cfg sched fuel w = (Some (Returns None), w') ->
  objs (O := PVC) w !! pvcTest 1 = None /\
  exists w1 pvc, stage sched 0 (fun _ => zero_locals)
      (fun index => failing ("failed to create clone check pod/PVC " +:+ pretty index +:+ ": ")
         (createCloneCheckPodAndPVC ParseQuantity cfg index "pvc-test-1")) (indexes cfg) w = (Some (Returns None), w1) /\
    objs (O := PVC) w1 !! pvcTest 1 = Some pvc /\ dataSource (pvcSpec pvc) = claimSource (pvcTest 1).
Proof.
  intros H1 H. unfold runCheckCloningMode in H. apply also_nil in H as (w1 & Hs & _).
  destruct (index_stage (fun index => "failed to create clone check pod/PVC " +:+ pretty index +:+ ": ")
    (fun _ => claim_of ParseQuantity cfg plain_labels (cPVCSize cfg) (claimSource "pvc-test-1") false)
    (fun i => nginx_pod cfg CheckExt4 (pvcTest i)) w) as (r & w2 & H & _ & Hc).
  assert (E : (Some r, w2) = (Some (Returns None), w1)) by (rewrite -H; exact Hs). injection E as -> ->.
  destruct (Hc eq_refl 1) as (pvc & Hp & Hn & Hm & _); [lia|]. split; [done|]. exists w1, pvc. split; [done|].
  split; [done|]. unfold claim_of in Hp. destruct (ParseQuantity _); [|done]. by injection Hp as <-.
Qed.

(** C39: The wait of [snapshot_only] looks at most [MaxAttempts] times, once when that is not
    positive, and passes only when a list shows all snapshots ready. *)
Theorem snapshots_ready_loop_bound rounds attempt w :
  0 <= attempt -> Z.max 1 (cMaxAttempts cfg - attempt) <= Z.of_nat rounds ->
  exists r w', snapshots_ready_loop cfg rounds attempt w = (Some r, w') /\
    (r = Returns None -> exists l w0, clientList (O := VolumeSnapshot) w0 = (Ok l, w') /\
       totalSnapshots cfg <= ready_snapshots l).
Proof.
  revert attempt w. induction rounds as [|rounds IH]; intros attempt w Ha Hr; [lia|]. cbn [snapshots_ready_loop].
  unfold mbind, M_bind, mret, M_ret. destruct (clientList w) as [[l|e] w1] eqn:E; [|by eexists _, _].
  destruct (Z.leb_spec (totalSnapshots cfg) (ready_snapshots l)); [eexists _, _; split; [done|]; intros _; by exists l, w|].
  destruct (Z.leb_spec (cMaxAttempts cfg) (attempt + 1)); [by eexists _, _|].
  destruct (sleep (cInterval cfg) w1) as [u w2]. apply IH; lia.
Qed.
End Stages.
