(* ===== verification/StressRuns.v ===== *)
(** The stress tests run on a small cluster: claims get bound, pods run or finish and snapshots
    get ready while the runner waits. The runs show that the theorems of [StressSafety] speak of
    runs that happen. *)
From S2P Require Import Prelude Errors Retry Kube Pool Kit KitPods Stress StressSafety.

Local Open Scope Z_scope.
Local Open Scope go_scope.

(** Claims and pods, snapshots and namespaces, and the time. *)
Definition cluster : Type :=
  ((memWorld PVC * memWorld Pod) * (memWorld VolumeSnapshot * memWorld Namespace)) * Z.

(** What the controllers do between two looks. *)
Definition bind_claim (c : PVC) : PVC :=
  mkPVC ClaimBound (Some (Some (requestStorage (pvcSpec c)))) (pvcLabels c) (pvcSpec c).
Definition finishes (c : Container) : bool :=
  match cScript c with DataChecker | CheckExt4 | CheckRestored => true | _ => false end.
Definition run_pod (p : Pod) : Pod :=
  mkPod (if existsb finishes (Containers (podSpec p)) then PodSucceeded else PodRunning) "" [] "node-0" []
    [] [] (podLabels p) (podSpec p).
Definition ready_snapshot (s : VolumeSnapshot) : VolumeSnapshot :=
  mkSnapshot (snapLabels s) (snapSource s) (Some (mkSnapshotStatus (Some true) None)).

Definition on_objs {O} (f : gmap string O -> gmap string O) (w : memWorld O) : memWorld O :=
  mkWorld (mkMem (f (mem_objs (store w))) (mem_faults (store w))) (ticks w) (done w).

Definition reconcile (w : cluster) : cluster :=
  let '(((cs, ps), (ss, ns)), t) := w in
  (((on_objs (fmap bind_claim) cs, on_objs (fmap run_pod) ps), (on_objs (fmap ready_snapshot) ss, ns)), t).

#[export] Instance cluster_ctx : Ctx cluster := {|
  ctxErr := ctxErr (W := ((memWorld PVC * memWorld Pod) * (memWorld VolumeSnapshot * memWorld Namespace)) * Z);
  timerFires := fun z w =>
    let '(b, w') := timerFires (W := ((memWorld PVC * memWorld Pod) * (memWorld VolumeSnapshot * memWorld Namespace)) * Z) z w in
    (b, reconcile w')
|}.

#[export] Instance cluster_clock : Clock cluster := {|
  now := gets snd;
  sleep := fun z w => (tt, reconcile (w.1, w.2 + Z.max 0 z))
|}.

Definition small_quantity (s : string) : result Z :=
  if String.eqb s "1Gi" then Ok 1
  else if String.eqb s "2Gi" then Ok 2
  else if String.eqb s "3Gi" then Ok 3 else Err (Errorf "quantities must match the regular expression").
Definition fmt_small (z : Z) : string := pretty z +:+ "Gi".

(** The JSON patch of the size, and those of the label and of whole collections. *)
Definition patch_size (name size : string) : M cluster (option error) := fun w =>
  let '(((cs, ps), rest), t) := w in
  match small_quantity size with
  | Err e => (Some e, w)
  | Ok q =>
      (None, (((on_objs (alter (fun c => mkPVC (pvcPhase c) (capacity c) (pvcLabels c)
         (mkPVCSpec q (storageClassName (pvcSpec c)) (dataSource (pvcSpec c)) (filesystemMode (pvcSpec c)))) name) cs,
         ps), rest), t))
  end.
Definition label_namespace (name : string) : M cluster (option error) := mret None.
Definition delete_pods (sel : selector) : M cluster (option error) := fun w =>
  let '(((cs, ps), rest), t) := w in
  (None, (((cs, on_objs (filter (fun kv => selected sel (podLabels kv.2) = false)) ps), rest), t)).
Definition delete_claims (sel : selector) : M cluster (option error) := fun w =>
  let '(((cs, ps), rest), t) := w in
  (None, (((on_objs (filter (fun kv => selected sel (pvcLabels kv.2) = false)) cs, ps), rest), t)).

Definition empty_cluster : cluster :=
  (((mkWorld (mkMem ∅ []) 50 false, mkWorld (mkMem ∅ []) 50 false),
    (mkWorld (mkMem ∅ []) 50 false, mkWorld (mkMem ∅ []) 50 false)), 0).

(** Two pods, one snapshot each, with the given mode and steps. *)
Definition small_config (mode : string) (steps : list string) : Config :=
  mkConfig "stress" "local" "1Gi" 2 1 "default-scheduler" mode "2Gi" "3Gi" 1 steps 3 Second false.

Definition small_run (mode : string) (steps : list string) (sched : nat -> list nat) : M cluster outcome :=
  StressRun small_quantity fmt_small patch_size label_namespace delete_pods delete_claims
    (small_config mode steps) sched (fun l => l) 9.

(** Every mode but two passes, here under a schedule that always takes the last goroutine. *)
Definition last_first (_ : nat) : list nat := repeat 1%nat 9.

Example modes_that_pass :
  (small_run ModeFlog [] last_first empty_cluster).1 = Some (Returns None) /\
  (small_run ModeCheckFSOnly [] last_first empty_cluster).1 = Some (Returns None) /\
  (small_run ModeSnapshotOnly [] last_first empty_cluster).1 = Some (Returns None) /\
  (small_run ModeSnapshotResizeCloning [StepResize; StepClone] last_first empty_cluster).1 = Some (Returns None).
Proof. vm_compute. repeat split. Qed.

(** With the step [restore_from_snapshot] the run ends in a timeout. *)
Example restore_times_out :
  exists e w', small_run ModeSnapshotResizeCloning [StepRestoreFromSnapshot] last_first empty_cluster
    = (Some (Returns (Some e)), w') /\
  Error e = "timeout waiting for pods status Running: 0/2 ready after 3 attempts (failed: 0, pending: 0)".
Proof. vm_compute. by eexists _, _. Qed.

(** Nobody else makes pods of the role on the small cluster. *)
Lemma reconcile_roles role w : no_role role w -> no_role role (reconcile w).
Proof.
  destruct w as [[[cs ps] [ss ns]] t]. intros H k p Hk. cbn in Hk.
  rewrite lookup_fmap in Hk. apply fmap_Some in Hk as (p0 & Hp & ->). by apply (H k p0).
Qed.

#[export] Instance small_nobody role : NobodyElse patch_size label_namespace role.
Proof.
  split.
  - intros [[[cs ps] [ss ns]] t] a w' HJ [= _ <-]. exact HJ.
  - intros z [[[[st n d] ps] [ss ns]] t] a w' HJ H. destruct n; injection H as _ <-;
      apply (reconcile_roles role (((mkWorld _ _ _, ps), (ss, ns)), t)); exact HJ.
  - intros z w a w' HJ H. injection H as _ <-. apply (reconcile_roles role (w.1, w.2 + Z.max 0 z)).
    by destruct w as [[[cs ps] [ss ns]] t].
  - intros name size [[[cs ps] [ss ns]] t] a w' HJ H. unfold patch_size in H.
    destruct (small_quantity size); injection H as _ <-; exact HJ.
  - intros name w a w' HJ [= _ <-]. exact HJ.
Qed.

Lemma empty_no_role role : no_role role empty_cluster.
Proof. intros k p Hk. by rewrite lookup_empty in Hk. Qed.

Lemma restored_claims_never_pass_witness :
  exists w', small_run ModeSnapshotResizeCloning [StepRestoreFromSnapshot] last_first empty_cluster
    = ((small_run ModeSnapshotResizeCloning [StepRestoreFromSnapshot] last_first empty_cluster).1, w') /\
  (small_run ModeSnapshotResizeCloning [StepRestoreFromSnapshot] last_first empty_cluster).1 <> Some (Returns None).
Proof.
  destruct (small_run ModeSnapshotResizeCloning [StepRestoreFromSnapshot] last_first empty_cluster) as [r w'] eqn:E.
  exists w'. split; [done|].
  apply (restored_claims_never_pass small_quantity fmt_small patch_size label_namespace delete_pods delete_claims
    (small_config ModeSnapshotResizeCloning [StepRestoreFromSnapshot]) last_first (fun l => l) 9 empty_cluster r w');
    [reflexivity|by left|apply empty_no_role|exact E].
Defined.

(** The first stage of the flog mode on the small cluster. *)
Lemma flog_stage_spec_witness :
  exists w' : cluster, objs (O := PVC) w' !! "pvc-test-2" =
    Some (new_claim plain_labels (mkPVCSpec 1 "local" None true)).
Proof.
  destruct (flog_stage_spec small_quantity (small_config ModeFlog []) last_first empty_cluster)
    as (r & w' & H & _ & Hc).
  assert (Hr : r = Returns None) by (vm_compute in H; by injection H as <- _).
  destruct (Hc Hr 2 ltac:(done)) as (q & Hq & _ & Hs & _). injection Hq as <-. exists w'. exact Hs.
Defined.

(** [check_cloning] on an empty cluster passes with two claims that are clones of the first, one
    of them itself. *)
Lemma check_cloning_clones_itself_witness :
  exists w1 pvc, (objs (O := PVC) (w1 : cluster) !! "pvc-test-1" = Some pvc) /\
    dataSource (pvcSpec pvc) = Some (None, "PersistentVolumeClaim", "pvc-test-1").
Proof.
  destruct (runCheckCloningMode small_quantity delete_pods delete_claims (small_config ModeCheckCloning [])
    last_first 9 empty_cluster) as [r w'] eqn:E.
  assert (Hr : r = Some (Returns None)) by (vm_compute in E; by injection E as <- _). subst r.
  destruct (check_cloning_clones_itself small_quantity delete_pods delete_claims (small_config ModeCheckCloning [])
    last_first 9 empty_cluster w' ltac:(done) E) as (_ & w1 & pvc & _ & Hp & Hd).
  exists w1, pvc. split; [exact Hp|exact Hd].
Defined.

Lemma snapshots_ready_loop_bound_witness :
  exists r w', snapshots_ready_loop (small_config ModeSnapshotOnly []) 3 0 empty_cluster = (Some r, w') /\
    r <> Returns None.
Proof.
  destruct (snapshots_ready_loop_bound (small_config ModeSnapshotOnly []) 3 0 empty_cluster ltac:(done) ltac:(done))
    as (r & w' & H & _).
  exists r, w'. split; [exact H|]. vm_compute in H. by injection H as <- _.
Defined.

(** [MaxAttempts] of 0 means no limit everywhere else; here it means one look. *)
Example snapshot_only_no_limit :
  let cfg := mkConfig "stress" "local" "1Gi" 1 1 "default-scheduler" ModeSnapshotOnly "" "" 1 [] 0 Second false in
  exists e w', snapshots_ready_loop cfg 9 0 empty_cluster = (Some (Returns (Some e)), w').
Proof. vm_compute. by eexists _, _. Qed.
