(* ===== verification/KitVirt.v ===== *)
(** The client of the virtualization API ([src/internal/kubernetes/virtualization]) and the
    attachment of disks to machines on top of it ([src/pkg/kubernetes/virtualdisk.go],
    [virtclient.go]). Objects are stored under [namespace/name], cluster-wide ones under their
    name. *)
From S2P Require Import Prelude Errors Retry Kube Kit Deckhouse Virt.

Local Open Scope Z_scope.
Local Open Scope go_scope.

(** ** The client *)

Definition nsref (namespace name : string) : string := namespace +:+ "/" +:+ name.

Record VirtualImage := mkVI { viPhase : string }.

Section Virtualization.
Context {W : Type} `{AE : ApiErrors, CX : Ctx W}.
(** [v1alpha2] and [v1alpha3] in the scheme, and [client.New]. *)
Context (addV1alpha2 addV1alpha3 : option error) (virtNew : M W (option error)).

Definition virt_NewClient : M W (option error) :=
  DoVoid ctxErr timerFires DefaultConfig
    match addV1alpha2 with
    | Some e => mret (Some (ErrorfW "failed to add virtualization v1alpha2 scheme: " e ""))
    | None =>
        match addV1alpha3 with
        | Some e => mret (Some (ErrorfW "failed to add virtualization v1alpha3 scheme: " e ""))
        | None => let! err := virtNew in mret (wrap_error "failed to create controller-runtime client: " err)
        end
    end.

(** The methods every kind has, given what the kind and the object are called. *)
Section Kind.
Context {O : Type} `{CO : Client W O}.

Definition kind_Get (kind ref : string) : M W (result O) :=
  let! r := clientGet ref in mret (wrap_err ("failed to get " +:+ kind +:+ " " +:+ ref +:+ ": ") r).
Definition kind_Create (kind ref : string) (o : O) : M W (option error) :=
  let! r := clientCreate ref o in mret (wrap_error ("failed to create " +:+ kind +:+ " " +:+ ref +:+ ": ") r).
Definition kind_Update (kind ref : string) (o : O) : M W (option error) :=
  let! r := clientUpdate ref o in mret (wrap_error ("failed to update " +:+ kind +:+ " " +:+ ref +:+ ": ") r).
Definition kind_Delete (kind ref : string) : M W (option error) :=
  let! r := clientDelete O ref in mret (wrap_error ("failed to delete " +:+ kind +:+ " " +:+ ref +:+ ": ") r).

(** Of a namespace, or of all. *)
Definition in_namespace (namespace : string) (l : list (string * O)) : list (string * O) :=
  if String.eqb namespace "" then l
  else List.filter (fun p => HasPrefix p.1 (namespace +:+ "/")) l.

Definition kind_List (failed : string) (namespace : string) : M W (result (list (string * O))) :=
  let! r := clientList in
  mret match r with
       | Err e => Err (ErrorfW failed e "")
       | Ok l => Ok (in_namespace namespace l)
       end.
End Kind.

Context `{CV : Client W VirtualMachine, CD : Client W VirtualDisk, CA : Client W VMBDA}.
Context `{CI : Client W ClusterVirtualImage, CK : Client W VirtualMachineClass, CG : Client W VirtualImage}.

Definition VirtualMachines_Get ns name : M W (result VirtualMachine) := kind_Get "VirtualMachine" (nsref ns name).
Definition VirtualMachines_List ns : M W (result (list (string * VirtualMachine))) :=
  kind_List "failed to list VirtualMachines: " ns.
Definition VirtualMachines_Create ns name (vm : VirtualMachine) := kind_Create "VirtualMachine" (nsref ns name) vm.
Definition VirtualMachines_Update ns name (vm : VirtualMachine) := kind_Update "VirtualMachine" (nsref ns name) vm.
Definition VirtualMachines_Delete ns name := kind_Delete (O := VirtualMachine) "VirtualMachine" (nsref ns name).

Definition VirtualDisks_Get ns name : M W (result VirtualDisk) := kind_Get "VirtualDisk" (nsref ns name).
Definition VirtualDisks_List ns : M W (result (list (string * VirtualDisk))) :=
  kind_List "failed to list VirtualDisks: " ns.
Definition VirtualDisks_Create ns name (vd : VirtualDisk) := kind_Create "VirtualDisk" (nsref ns name) vd.
Definition VirtualDisks_Update ns name (vd : VirtualDisk) := kind_Update "VirtualDisk" (nsref ns name) vd.
Definition VirtualDisks_Delete ns name := kind_Delete (O := VirtualDisk) "VirtualDisk" (nsref ns name).

Definition vmbda := "VirtualMachineBlockDeviceAttachment".
Definition VMBD_Get ns name : M W (result VMBDA) := kind_Get vmbda (nsref ns name).
Definition VMBD_List ns : M W (result (list (string * VMBDA))) :=
  kind_List "failed to list VirtualMachineBlockDeviceAttachments: " ns.
Definition VMBD_Create ns name (a : VMBDA) := kind_Create vmbda (nsref ns name) a.
Definition VMBD_Update ns name (a : VMBDA) := kind_Update vmbda (nsref ns name) a.
Definition VMBD_Delete ns name := kind_Delete (O := VMBDA) vmbda (nsref ns name).

Definition ClusterVirtualImages_Get name : M W (result ClusterVirtualImage) := kind_Get "ClusterVirtualImage" name.
Definition ClusterVirtualImages_List : M W (result (list (string * ClusterVirtualImage))) :=
  kind_List "failed to list ClusterVirtualImages: " "".
Definition ClusterVirtualImages_Create name (i : ClusterVirtualImage) := kind_Create "ClusterVirtualImage" name i.
Definition ClusterVirtualImages_Update name (i : ClusterVirtualImage) := kind_Update "ClusterVirtualImage" name i.
Definition ClusterVirtualImages_Delete name := kind_Delete (O := ClusterVirtualImage) "ClusterVirtualImage" name.

Definition VirtualMachineClasses_Get name : M W (result VirtualMachineClass) := kind_Get "VirtualMachineClass" name.
Definition VirtualMachineClasses_List : M W (result (list (string * VirtualMachineClass))) :=
  kind_List "failed to list VirtualMachineClasses: " "".
Definition VirtualMachineClasses_Create name (c : VirtualMachineClass) := kind_Create "VirtualMachineClass" name c.
Definition VirtualMachineClasses_Delete name := kind_Delete (O := VirtualMachineClass) "VirtualMachineClass" name.

Definition VirtualImages_Get ns name : M W (result VirtualImage) := kind_Get "VirtualImage" (nsref ns name).
Definition VirtualImages_List ns : M W (result (list (string * VirtualImage))) :=
  kind_List ("failed to list VirtualImages in namespace " +:+ ns +:+ ": ") ns.
Definition VirtualImages_Create ns name (i : VirtualImage) := kind_Create "VirtualImage" (nsref ns name) i.
Definition VirtualImages_Update ns name (i : VirtualImage) := kind_Update "VirtualImage" (nsref ns name) i.
Definition VirtualImages_Delete ns name := kind_Delete (O := VirtualImage) "VirtualImage" (nsref ns name).

(** ** Attaching disks ([virtualdisk.go]) *)

Context (ParseQuantity : string -> result Z).

Record VirtualDiskAttachmentConfig := mkAttach {
  ac_VMName : string;
  ac_Namespace : string;
  ac_DiskName : string;
  ac_DiskSize : string;
  ac_StorageClassName : string
}.

Record VirtualDiskAttachmentResult := mkAttached { ar_DiskName : string; ar_AttachmentName : string }.

Definition with_virt {A} (fail : error -> A) (k : M W A) : M W A :=
  let! err := virt_NewClient in
  match err with
  | Some e => mret (fail (ErrorfW "failed to create virtualization client: " e ""))
  | None => k
  end.

Definition disk_attachment (vmName diskName : string) : VMBDA :=
  mkVMBDA ∅ vmName "VirtualDisk" diskName "".

Definition attach (ns attachmentName vmName diskName : string) : M W (result VirtualDiskAttachmentResult) :=
  let! err := VMBD_Create ns attachmentName (disk_attachment vmName diskName) in
  mret match err with
       | Some e => Err (ErrorfW ("failed to create VirtualMachineBlockDeviceAttachment " +:+ attachmentName +:+
                                   ": ") e "")
       | None => Ok (mkAttached diskName attachmentName)
       end.

Definition attached_disk_name (config : VirtualDiskAttachmentConfig) : string :=
  if String.eqb (ac_DiskName config) "" then ac_VMName config +:+ "-data-disk" else ac_DiskName config.

Definition AttachVirtualDiskToVM (config : VirtualDiskAttachmentConfig)
    : M W (result VirtualDiskAttachmentResult) :=
  if String.eqb (ac_VMName config) "" then mret (Err (Errorf "VMName is required"))
  else if String.eqb (ac_Namespace config) "" then mret (Err (Errorf "Namespace is required"))
  else if String.eqb (ac_DiskSize config) "" then mret (Err (Errorf "DiskSize is required"))
  else if String.eqb (ac_StorageClassName config) "" then mret (Err (Errorf "StorageClassName is required"))
  else
    let diskName := attached_disk_name config in
    with_virt Err
      match ParseQuantity (ac_DiskSize config) with
      | Err e => mret (Err (ErrorfW ("failed to parse disk size " +:+ quote (ac_DiskSize config) +:+ ": ") e ""))
      | Ok size =>
          let! err := VirtualDisks_Create (ac_Namespace config) diskName
                        (mkVD ∅ (Some size) (Some (ac_StorageClassName config)) None "" "") in
          match err with
          | Some e => mret (Err (ErrorfW ("failed to create VirtualDisk " +:+ diskName +:+ ": ") e ""))
          | None => attach (ac_Namespace config) (diskName +:+ "-attachment") (ac_VMName config) diskName
          end
      end.

Record VirtualDiskReattachmentConfig := mkReattach {
  rc_AttachmentName : string;
  rc_VMName : string;
  rc_Namespace : string;
  rc_DiskName : string
}.

Definition ReattachVirtualDiskToVM (config : VirtualDiskReattachmentConfig)
    : M W (result VirtualDiskAttachmentResult) :=
  if String.eqb (rc_AttachmentName config) "" then mret (Err (Errorf "AttachmentName is required"))
  else if String.eqb (rc_VMName config) "" then mret (Err (Errorf "VMName is required"))
  else if String.eqb (rc_Namespace config) "" then mret (Err (Errorf "Namespace is required"))
  else if String.eqb (rc_DiskName config) "" then mret (Err (Errorf "DiskName is required"))
  else with_virt Err
         (attach (rc_Namespace config) (rc_AttachmentName config) (rc_VMName config) (rc_DiskName config)).

(** One look; the first one is after a tick. *)
Definition attached_check (namespace name : string) (_ : unit) : M W (unit * option (option error)) :=
  let! got := VMBD_Get namespace name in
  mret (tt, match got with
            | Err _ => None
            | Ok a =>
                if String.eqb (bdPhase a) PhaseAttached then Some None
                else if String.eqb (bdPhase a) "Failed"
                then Some (Some (Errorf ("disk attachment failed: attachment " +:+ nsref namespace name +:+
                                         " is in Failed phase")))
                else None
            end).

Definition WaitForVirtualDiskAttached (fuel : nat) (namespace attachmentName : string) (pollInterval : Z)
    : M W (option (option error)) :=
  with_virt (fun e => Some (Some e))
    (poll_loop (attached_check namespace attachmentName)
       (fun _ ce => Some (ErrorfWn "context cancelled while waiting for disk attachment: " ce ""))
       fuel pollInterval tt).

(** The name part of a key. *)
Definition name_of (namespace : string) (ref : string) : string := TrimPrefix ref (namespace +:+ "/").

Definition ListVirtualMachineNames (namespace : string) : M W (result (list string)) :=
  with_virt Err (
    let! l := VirtualMachines_List namespace in
    mret match l with
         | Err e => Err (ErrorfW ("failed to list VirtualMachines in " +:+ namespace +:+ ": ") e "")
         | Ok l => Ok (map (fun p => name_of namespace p.1) l)
         end).

Definition GetVMIPFromBaseCluster (namespace vmName : string) : M W (result string) :=
  let! err := virt_NewClient in
  match err with
  | Some e => mret (Err (ErrorfW "create virtualization client: " e ""))
  | None =>
      let! got := VirtualMachines_Get namespace vmName in
      mret match got with
           | Err e => Err (ErrorfW ("get VM " +:+ nsref namespace vmName +:+ ": ") e "")
           | Ok vm => if String.eqb (vmIPAddress vm) ""
                      then Err (Errorf ("VM " +:+ nsref namespace vmName +:+ " has no IP in status yet"))
                      else Ok (vmIPAddress vm)
           end
  end.

(** Errors of the deletions are only logged. *)
Definition DetachAndDeleteVirtualDisk (namespace attachmentName diskName : string) : M W (option error) :=
  with_virt Some (
    let! _ := (if negb (String.eqb attachmentName "") then
                 let! _ := VMBD_Delete namespace attachmentName in mret tt else mret tt) in
    let! _ := (if negb (String.eqb diskName "") then
                 let! _ := VirtualDisks_Delete namespace diskName in mret tt else mret tt) in
    mret None).
End Virtualization.

(** ** Theorems *)
Section VirtTheorems.
Context {W : Type} `{AE : ApiErrors, CX : Ctx W, CL : !CtxLaws W, DL : !Deadline W}.
Context `{CD : Client W VirtualDisk, CDL : !ClientLaws W VirtualDisk}.
Context `{CA : Client W VMBDA, CAL : !ClientLaws W VMBDA, TA : !TimedClient W VMBDA}.
Context `{F1 : !Frame W VirtualDisk VMBDA, F2 : !Frame W VMBDA VirtualDisk}.
Context (addV1alpha2 addV1alpha3 : option error) (virtNew : M W (option error)).
Context (ParseQuantity : string -> result Z).

Notation newClient := (virt_NewClient addV1alpha2 addV1alpha3 virtNew).

(** Making a client leaves the disks and attachments alone. *)
Hypothesis new_keeps : forall w,
  objs (O := VirtualDisk) (newClient w).2 = objs w /\ objs (O := VMBDA) (newClient w).2 = objs w.

Lemma attach_cases ns name vm disk w r w' :
  attach ns name vm disk w = (r, w') ->
  objs (O := VirtualDisk) w' = objs w /\
  match r with
  | Ok res => res = mkAttached disk name /\ objs (O := VMBDA) w !! nsref ns name = None /\
              objs w' = <[nsref ns name := disk_attachment vm disk]> (objs w)
  | Err _ => forall k, k <> nsref ns name -> objs (O := VMBDA) w' !! k = objs w !! k
  end.
Proof.
  intros H. unfold attach, VMBD_Create, kind_Create in H. mstep H as [r1 w1] E1. mstep E1 as [r2 w2] E2.
  injection E1 as <- <-. pose proof (frame_create (O1 := VMBDA) (O2 := VirtualDisk) (nsref ns name)
    (disk_attachment vm disk) w) as Hf. rewrite E2 in Hf. cbn in Hf.
  destruct r2 as [e|]; cbn in H; injection H as <- <-; (split; [done|]).
  - by apply create_err in E2 as [E2 _].
  - by apply create_ok in E2 as [E2 E3].
Qed.

(** When [AttachVirtualDiskToVM] succeeds, neither the disk nor the attachment existed
    before, both exist as configured, the attachment binding the disk to the machine, and no
    other object was touched; when it fails, at most these two objects changed. *)
Theorem AttachVirtualDiskToVM_spec config w r w' :
  AttachVirtualDiskToVM addV1alpha2 addV1alpha3 virtNew ParseQuantity config w = (r, w') ->
  let disk := nsref (ac_Namespace config) (attached_disk_name config) in
  let att := nsref (ac_Namespace config) (attached_disk_name config +:+ "-attachment") in
  match r with
  | Ok res =>
      exists size, ParseQuantity (ac_DiskSize config) = Ok size /\
      objs (O := VirtualDisk) w !! disk = None /\ objs (O := VMBDA) w !! att = None /\
      objs w' = <[disk := mkVD ∅ (Some size) (Some (ac_StorageClassName config)) None "" ""]> (objs w) /\
      objs w' = <[att := disk_attachment (ac_VMName config) (attached_disk_name config)]> (objs w) /\
      res = mkAttached (attached_disk_name config) (attached_disk_name config +:+ "-attachment")
  | Err _ =>
      (forall k, k <> disk -> objs (O := VirtualDisk) w' !! k = objs w !! k) /\
      (forall k, k <> att -> objs (O := VMBDA) w' !! k = objs w !! k)
  end.
Proof.
  intros H disk att. unfold AttachVirtualDiskToVM in H.
  do 4 (destruct (String.eqb _ ""); [by injection H as <- <-|]).
  unfold with_virt in H. destruct (new_keeps w) as [Hk1 Hk2]. mstep H as [err w1] E1. cbn in Hk1, Hk2.
  destruct err as [e|]; [injection H as <- <-; by rewrite Hk1 Hk2|].
  destruct (ParseQuantity (ac_DiskSize config)) as [size|e]; [|injection H as <- <-; by rewrite Hk1 Hk2].
  unfold VirtualDisks_Create, kind_Create in H. mstep H as [r1 w2] E2. mstep E2 as [r2 w3] E3.
  injection E2 as <- <-. fold disk in E3.
  pose proof (frame_create (O1 := VirtualDisk) (O2 := VMBDA) disk
    (mkVD ∅ (Some size) (Some (ac_StorageClassName config)) None "" "") w1) as Hf.
  rewrite E3 in Hf. cbn in Hf. destruct r2 as [e|]; cbn in H.
  - injection H as <- <-. rewrite Hf Hk2. split; [|done]. rewrite <- Hk1.
    by apply create_err in E3 as [E3 _].
  - apply create_ok in E3 as [E3 E4]. apply attach_cases in H as [Hd H]. fold att in H.
    destruct r as [res|e].
    + destruct H as (-> & Ha & Ho). exists size. rewrite Hd E4 Ho Hf Hk1 Hk2. rewrite <- Hk1, <- Hk2, <- Hf at 1.
      repeat split; try done; by rewrite Hf Hk2 in Ha.
    + rewrite Hd E4 Hk1. split; [intros k Hk; by rewrite lookup_insert_ne|].
      intros k Hk. rewrite (H k Hk). by rewrite Hf Hk2.
Qed.

(** [WaitForVirtualDiskAttached] returns by its deadline, and returns nil only when a read shows
    the attachment as attached. *)
Lemma WaitForVirtualDiskAttached_spec fuel ns name interval w :
  bounded newClient -> (left w < fuel)%nat ->
  exists r w', WaitForVirtualDiskAttached addV1alpha2 addV1alpha3 virtNew fuel ns name interval w = (Some r, w') /\
    (r = None -> exists a, objs w' !! nsref ns name = Some a /\ bdPhase a = PhaseAttached).
Proof.
  intros Hn Hl. unfold WaitForVirtualDiskAttached, with_virt. unfold mbind at 1, M_bind at 1.
  specialize (Hn w). destruct (newClient w) as [[e|] w1]; [by eexists _, _|]. cbn in Hn.
  set (over := fun _ ce => _).
  destruct (poll_loop_total (attached_check ns name) over left fuel interval tt w1) as (r & w' & H).
  { intros [] v. apply (bind_bounded (VMBD_Get ns name)); [|intros; apply ret_bounded].
    apply bind_bounded; [apply get_bounded|intros; apply ret_bounded]. }
  { intros z v v'. apply left_tick. }
  { lia. }
  exists r, w'. split; [done|]. intros ->. apply (poll_loop_ended _ _ (fun _ _ => True)) in H; [|done..].
  destruct H as [[] v [] _ Hc|[] ce z v0 v1 _ _ _ [=]].
  unfold attached_check, VMBD_Get, kind_Get in Hc. mstep Hc as [got v1] E. mstep E as [g v2] E2.
  injection E as <- <-. destruct g as [a|e]; cbn in Hc; [|done].
  destruct (String.eqb_spec (bdPhase a) PhaseAttached) as [Hp|]; [|by destruct (String.eqb (bdPhase a) "Failed")].
  injection Hc as <-. apply get_ok in E2 as [Hg ->]. by exists a.
Qed.
End VirtTheorems.

(** A base cluster with disks and attachments. *)
Definition base : Type := memWorld VirtualDisk * memWorld VMBDA.
Definition empty_base (faults : list (option string)) : base :=
  (mkWorld (mkMem ∅ faults) 3 false, mkWorld (mkMem ∅ []) 3 false).

Definition parse_gi (s : string) : result Z :=
  if String.eqb s "20Gi" then Ok 20 else Err (Errorf "unknown quantity").

Lemma virt_new_keeps_base (w : base) :
  objs (O := VirtualDisk) (virt_NewClient (W := base) None None (mret None) w).2 = objs w /\
  objs (O := VMBDA) (virt_NewClient (W := base) None None (mret None) w).2 = objs w.
Proof. destruct w as [[s n []] v]; done. Qed.

Example AttachVirtualDiskToVM_spec_witness :
  exists w' : base,
    AttachVirtualDiskToVM None None (mret None) parse_gi (mkAttach "worker-0" "e2e" "" "20Gi" "replicated")
      (empty_base []) = (Ok (mkAttached "worker-0-data-disk" "worker-0-data-disk-attachment"), w') /\
    objs w' !! "e2e/worker-0-data-disk-attachment" = Some (disk_attachment "worker-0" "worker-0-data-disk").
Proof.
  destruct (AttachVirtualDiskToVM None None (mret None) parse_gi
    (mkAttach "worker-0" "e2e" "" "20Gi" "replicated") (empty_base [])) as [r w'] eqn:E.
  assert (Hr : r = Ok (mkAttached "worker-0-data-disk" "worker-0-data-disk-attachment"))
    by (vm_compute in E; by injection E as <- _).
  subst r. exists w'. split; [reflexivity|].
  destruct (AttachVirtualDiskToVM_spec None None (mret None) parse_gi virt_new_keeps_base
    (mkAttach "worker-0" "e2e" "" "20Gi" "replicated") (empty_base []) _ w' E) as (size & _ & _ & _ & _ & Ho & _).
  rewrite Ho. vm_compute. reflexivity.
Defined.

(** Deletions that fail are not reported: the disk is still there. *)
Example DetachAndDelete_swallows_errors :
  let disk := mkVD ∅ (Some 20) None None "Ready" "20Gi" in
  let world : base := (mkWorld (mkMem {["e2e/data" := disk]} [Some "connection reset by peer"]) 3 false,
                       mkWorld (mkMem ∅ []) 3 false) in
  let '(r, w) := DetachAndDeleteVirtualDisk None None (mret None) "e2e" "" "data" world in
  r = None /\ objs w !! "e2e/data" = Some disk.
Proof. vm_compute. by split. Qed.
