(* ===== verification/LegacyVms.v ===== *)
(** The virtual machines of the legacy suites: [src/pkg/cluster/vms.go], with
    [GetSSHPublicKeyContent] of [setup.go] and [GenerateRandomSuffix] of [cluster.go]. *)
From S2P Require Import Prelude Errors Retry Env Kube Pool Config Deckhouse Naming Virt Provision DvpConfig KitVirt.

Local Open Scope Z_scope.
Local Open Scope go_scope.

(** ** Names and user data *)

Definition vmClassAutoCreatedLabelKey := "storage-e2e.deckhouse.io/auto-created".
Definition vmClassAutoCreatedLabelValue := "true".

Definition getCVMINameFromImageURL (imageURL : string) : string :=
  let name := after_last "/" imageURL in
  let name := TrimSuffix name ".img" in
  let name := TrimSuffix name ".qcow2" in
  let name := ToLower name in
  let name := ReplaceAll name "_" "-" in
  let name := ReplaceAll name "." "-" in
  let name := squeeze (String.length name) name in
  let name := Trim is_dash name in
  if String.eqb name "" then "image" else name.

Definition is_vm (n : ClusterNode) : bool := bool_decide (Host n = HostTypeVM).

Definition getVMNodes (def : ClusterDefinition) : list ClusterNode :=
  List.filter is_vm (Masters def) ++ List.filter is_vm (Workers def) ++
  match Setup def with Some n => if is_vm n then [n] else [] | None => [] end.

Definition passwd := "$6$rounds=4096$vln/.aPHBOI7BMYR$bBMkqQvuGs5Gyd/1H5DP4m9HjQSy.kgrxpaGEHwkX7KEFV8BS.HZWPitAtZ2Vd8ZqIZRqmlykRCagTgPejt1i.".

(** The user and the SSH configuration, which both documents have in common. *)
Definition cloud_user (sshPubKey : string) : string := "
ssh_pwauth: true
users:
  - name: cloud
    # passwd: cloud
    passwd: " +:+ passwd +:+ "
    shell: /bin/bash
    sudo: ALL=(ALL) NOPASSWD:ALL
    chpasswd: {expire: False}
    lock_passwd: false
    ssh_authorized_keys:
      - " +:+ sshPubKey +:+ "
write_files:
" +:+ cloudInitForceIPv4Apt +:+ "  - path: /etc/ssh/sshd_config.d/allow_tcp_forwarding.conf
    content: |
      # Разрешить TCP forwarding
      AllowTcpForwarding yes
".

Definition cloud_commands (hostname : string) : string := "
runcmd:
  - systemctl restart ssh
  - hostnamectl set-hostname " +:+ hostname +:+ "
  - systemctl daemon-reload
  - systemctl enable --now qemu-guest-agent.service
".

Definition generateCloudInitUserData (hostname sshPubKey : string) : string :=
  "#cloud-config
" +:+ cloudInitAptMirror +:+ "package_update: true
packages:
  - tmux
  - htop
  - qemu-guest-agent
  - iputils-ping
  - stress-ng
  - jq
  - yq
  - rsync
  - fio
  - curl
" +:+ cloud_user sshPubKey +:+ "  - path: /root/.kubectl_aliases
    content: |
      # kubectl alias and completion
      alias k=kubectl
      complete -o default -F __start_kubectl k
" +:+ cloud_commands hostname +:+ "  - echo 'source /root/.kubectl_aliases' >> /root/.bashrc
".

Definition generateSetupNodeCloudInit (hostname sshPubKey : string) : string :=
  "#cloud-config
" +:+ cloudInitAptMirror +:+ "package_update: true
packages:
  - tmux
  - htop
  - qemu-guest-agent
  - iputils-ping
  - jq
  - curl
  - docker.io
" +:+ cloud_user sshPubKey +:+ cloud_commands hostname +:+ "  - systemctl enable --now docker.service
".

Definition user_data (vmName sshPublicKey : string) : string :=
  if HasPrefix vmName "bootstrap-node-" then generateSetupNodeCloudInit vmName sshPublicKey
  else generateCloudInitUserData vmName sshPublicKey.

(** [expandPath] of [setup.go]; [user.Current] and [os.ReadFile] are the system's. *)
Definition expandPath (home : result string) (path : string) : result string :=
  if negb (HasPrefix path "~") then Ok path
  else match home with
       | Err e => Err (ErrorfW "failed to get current user: " e "")
       | Ok home => if String.eqb path "~" then Ok home else Ok (path_Join [home; TrimPrefix path "~/"])
       end.

Definition GetSSHPublicKeyContent (home : result string) (readFile : string -> result string) (v : Vars) : result string :=
  let key := SSHPublicKey v in
  if String.eqb key "" then Err (Errorf "SSH_PUBLIC_KEY is not set")
  else if Contains key "/" || HasPrefix key "~" then
    match expandPath home key with
    | Err e => Err (ErrorfW "failed to expand public key path: " e "")
    | Ok path =>
        match readFile path with
        | Err e => Err (ErrorfW ("failed to read public key file " +:+ path +:+ ": ") e "")
        | Ok content => Ok (TrimSpace content)
        end
    end
  else Ok (TrimSpace key).

(** [GenerateRandomSuffix]; [Intn] is that of [math/rand]. *)
Definition charset := "abcdefghijklmnopqrstuvwxyz0123456789".

Fixpoint GenerateRandomSuffix {W} (Intn : Z -> M W Z) (length : nat) : M W string :=
  match length with
  | O => mret ""
  | S length =>
      let! i := Intn 36 in
      let! rest := GenerateRandomSuffix Intn length in
      mret (String (default "a"%char (String.get (Z.to_nat i) charset)) rest)
  end.

Definition with_hostname (h : string) (n : ClusterNode) : ClusterNode :=
  mkNode h (IPAddress n) (OS n) (Host n) (Role n) (CPU n) (CoreFraction n) (RAM n) (DiskSize n) (Prepared n).

Fixpoint randomize {W} (Intn : Z -> M W Z) (l : list ClusterNode) : M W (list ClusterNode) :=
  match l with
  | [] => mret []
  | n :: l =>
      let! suffix := GenerateRandomSuffix Intn 5 in
      let! rest := randomize Intn l in
      mret (with_hostname (Hostname n +:+ "-" +:+ suffix) n :: rest)
  end.

Definition randomizeHostnames {W} (Intn : Z -> M W Z) (def : ClusterDefinition) : M W ClusterDefinition :=
  let! masters := randomize Intn (Masters def) in
  let! workers := randomize Intn (Workers def) in
  mret (mkDef masters workers (Setup def) (DKP def)).

(** ** Nodes and their addresses *)

Record VMResources := mkResources {
  vr_Namespace : string;
  vr_VMNames : list string;
  vr_CVMINames : list string;
  vr_SetupVMName : string
}.

Definition GetSetupNode (def : option ClusterDefinition) : result ClusterNode :=
  match def with
  | None => Err (Errorf "clusterDef cannot be nil")
  | Some def =>
      match Setup def with
      | None => Err (Errorf "setup node is not defined in cluster definition")
      | Some n => Ok n
      end
  end.

(** The address of the first node of that name, once it is set. *)
Definition address_of (kind hostname : string) (n : ClusterNode) : result string :=
  if String.eqb (IPAddress n) "" then Err (Errorf ("IP address not set for " +:+ kind +:+ " node " +:+ hostname))
  else Ok (IPAddress n).

Definition GetNodeIPAddress (def : ClusterDefinition) (hostname : string) : result string :=
  let named n := String.eqb (Hostname n) hostname in
  match List.find named (Masters def) with
  | Some n => address_of "master" hostname n
  | None =>
      match List.find named (Workers def) with
      | Some n => address_of "worker" hostname n
      | None =>
          match Setup def with
          | Some n => if named n then address_of "setup" hostname n
                      else Err (Errorf ("node with hostname " +:+ hostname +:+ " not found in cluster definition"))
          | None => Err (Errorf ("node with hostname " +:+ hostname +:+ " not found in cluster definition"))
          end
      end
  end.

Section LegacyVms.
Context {W : Type} `{AE : ApiErrors, CX : Ctx W, SC : Scope W}.
Context `{CV : Client W VirtualMachine, CD : Client W VirtualDisk}.
Context `{CI : Client W ClusterVirtualImage, CK : Client W VirtualMachineClass}.
(** The environment; [time.Now().Unix()]; the system; quantities; the iteration order of maps
    and the schedules of the goroutines. *)
Context (env : Vars) (now : M W Z) (home : result string) (readFile : string -> result string).
Context (ParseQuantity : string -> result Z) (order : list string -> list string) (sched : nat -> list nat).
Context (fuel : nat).

(** ** Conflicts *)

Record resourceConflicts := mkConflicts { cf_VMs : list string; cf_Disks : list string; cf_Images : list string }.

(** The names that are among the keys of the namespace. *)
Definition taken {O} (namespace : string) (existing : list (string * O)) (names : list string) : list string :=
  List.filter (fun n => existsb (fun p => String.eqb p.1 (nsref namespace n)) existing) names.

Fixpoint images_there (names : list string) : M W (result (list string)) :=
  match names with
  | [] => mret (Ok [])
  | name :: names =>
      let! got := ClusterVirtualImages_Get name in
      match got with
      | Err e =>
          if IsNotFound (Some e) then images_there names
          else mret (Err (ErrorfW ("failed to check ClusterVirtualImage " +:+ name +:+ ": ") e ""))
      | Ok _ =>
          let! rest := images_there names in
          mret match rest with Ok l => Ok (name :: l) | Err e => Err e end
      end
  end.

Definition image_of (n : ClusterNode) : string := getCVMINameFromImageURL (ImageURL (OS n)).

Definition checkResourceConflicts (namespace : string) (vmNodes : list ClusterNode) : M W (result resourceConflicts) :=
  let! existingVMs := VirtualMachines_List namespace in
  match existingVMs with
  | Err e => mret (Err (ErrorfW "failed to list existing VMs: " e ""))
  | Ok vms =>
      let! existingVDs := VirtualDisks_List namespace in
      match existingVDs with
      | Err e => mret (Err (ErrorfW "failed to list existing VirtualDisks: " e ""))
      | Ok vds =>
          let! images := if String.eqb (ImagePullPolicy env) ImagePullPolicyAlways
                         then images_there (order (remove_dups (map image_of vmNodes)))
                         else mret (Ok []) in
          mret match images with
               | Err e => Err e
               | Ok images =>
                   Ok (mkConflicts (taken namespace vms (map Hostname vmNodes))
                         (taken namespace vds (map (fun n => systemDiskName (Hostname n)) vmNodes)) images)
               end
      end
  end.

Definition conflict_messages (c : resourceConflicts) : list string :=
  let part name l := match l with [] => [] | _ => [name +:+ ": " +:+ fmt_strings l] end in
  part "VirtualMachines" (cf_VMs c) ++ part "VirtualDisks" (cf_Disks c) ++
  part "ClusterVirtualImages" (cf_Images c).

(** ** The class *)

Definition class_round (name : string) (_ : unit) : M W (unit * option (option error)) :=
  let! got := VirtualMachineClasses_Get name in
  mret (tt, match got with
            | Err e => Some (Some (ErrorfW ("get VirtualMachineClass " +:+ name +:+ ": ") e ""))
            | Ok vmc =>
                if String.eqb (clsPhase vmc) ClassPhaseReady then Some None
                else if String.eqb (clsPhase vmc) ClassPhaseTerminating
                then Some (Some (Errorf ("VirtualMachineClass " +:+ name +:+ " is Terminating")))
                else None
            end).

Definition waitForVirtualMachineClassReady (name : string) : M W (option (option error)) :=
  withTimeout VirtualMachineClassReadinessTimeout
    (poll_loop (class_round name)
       (fun _ _ => Some (Errorf ("timeout waiting for VirtualMachineClass " +:+ name +:+
          " to reach Ready (phase still not Ready after " +:+ fmt_duration VirtualMachineClassReadinessTimeout +:+ ")")))
       fuel (5 * Second) tt).

Definition genericClass := "generic".

Definition host_class (template : VMClassSpec) : VirtualMachineClass :=
  mkClass {[vmClassAutoCreatedLabelKey := vmClassAutoCreatedLabelValue]}
    (mkClassSpec "Host" [] [] (clsRest template)) "".

Definition ensureVirtualMachineClassForClusterVMs : M W (option (option error)) :=
  let className := EffectiveVirtualMachineClassName env in
  let fail e := mret (Some (Some e)) in
  let! got := VirtualMachineClasses_Get className in
  match got with
  | Ok _ => waitForVirtualMachineClassReady className
  | Err e =>
      if negb (IsNotFound (Some e)) then fail (ErrorfW ("VirtualMachineClass " +:+ quote className +:+ ": ") e "")
      else if String.eqb className genericClass
      then fail (Errorf ("VirtualMachineClass " +:+ quote className +:+ " not found on the base cluster; enable the " +:+
             "virtualization module and ensure this VirtualMachineClass exists before running tests"))
      else
        let! template := VirtualMachineClasses_Get genericClass in
        match template with
        | Err e =>
            if IsNotFound (Some e)
            then fail (Errorf ("VirtualMachineClass " +:+ quote className +:+ " is missing and template class " +:+
                   quote genericClass +:+ " was not found on the cluster; cannot auto-create the class"))
            else fail (ErrorfW ("get template VirtualMachineClass " +:+ quote genericClass +:+ ": ") e "")
        | Ok template =>
            let! err := VirtualMachineClasses_Create className (host_class (clsSpec template)) in
            match err with
            | Some e =>
                if IsAlreadyExists (Some e) then waitForVirtualMachineClassReady className
                else fail (ErrorfW ("create VirtualMachineClass " +:+ quote className +:+ ": ") e "")
            | None => waitForVirtualMachineClassReady className
            end
        end
  end.

(** ** The images: one goroutine for each node *)

(** What a goroutine knows of its image. [CviStarved]: the fuel of the wait ran out. *)
Inductive cvi_state := CviThere | CviMissing | CviRaced | CviReady | CviStarved.

Definition image_round (cvmiName : string) (_ : unit) : M W (unit * option (option error)) :=
  let! got := ClusterVirtualImages_Get cvmiName in
  mret (tt, match got with
            | Err e => Some (Some (ErrorfW ("failed to get ClusterVirtualImage " +:+ cvmiName +:+ ": ") e ""))
            | Ok cvmi =>
                if String.eqb (cviPhase cvmi) "Ready" then Some None
                else if String.eqb (cviPhase cvmi) "Failed"
                then Some (Some (Errorf ("ClusterVirtualImage " +:+ cvmiName +:+ " failed to provision")))
                else None
            end).

Definition waitForClusterVirtualImageReady (cvmiName : string) : M W (option (option error)) :=
  poll_loop (image_round cvmiName)
    (fun _ _ => Some (Errorf ("timeout waiting for ClusterVirtualImage " +:+ cvmiName +:+ " to become Ready")))
    fuel (5 * Second) tt.

Definition cvi_get (cvmiName : string) : call W cvi_state := fun _ =>
  let! got := ClusterVirtualImages_Get cvmiName in
  mret (Returns match got with
    | Ok _ =>
        if String.eqb (ImagePullPolicy env) ImagePullPolicyAlways
        then Err (Errorf ("ClusterVirtualImage " +:+ cvmiName +:+ " already exists, cannot create a new one " +:+
               "(IMAGE_PULL_POLICY=" +:+ ImagePullPolicyAlways +:+ ")"))
        else Ok CviThere
    | Err e =>
        if IsNotFound (Some e) then Ok CviMissing
        else Err (ErrorfW ("failed to get ClusterVirtualImage " +:+ cvmiName +:+ ": ") e "")
    end).

Definition cvi_create (cvmiName imageURL : string) : call W cvi_state := fun s =>
  match s with
  | CviMissing =>
      let! err := ClusterVirtualImages_Create cvmiName (mkCVI ∅ imageURL "") in
      mret (Returns match err with
        | None => Ok CviThere
        | Some e =>
            if IsAlreadyExists (Some e) then Ok CviRaced
            else Err (ErrorfW ("failed to create ClusterVirtualImage " +:+ cvmiName +:+ ": ") e "")
        end)
  | s => mret (Returns (Ok s))
  end.

Definition cvi_again (cvmiName : string) : call W cvi_state := fun s =>
  match s with
  | CviRaced =>
      let! got := ClusterVirtualImages_Get cvmiName in
      mret (Returns match got with
        | Ok _ => Ok CviThere
        | Err e => Err (ErrorfW ("failed to get ClusterVirtualImage " +:+ cvmiName +:+ ": ") e "")
        end)
  | s => mret (Returns (Ok s))
  end.

(** The deadline of 15 minutes only matters to the wait, where it is counted from. *)
Definition cvi_wait (cvmiName : string) : call W cvi_state := fun _ =>
  let! r := withTimeout ClusterVirtualImageReadinessTimeout (waitForClusterVirtualImageReady cvmiName) in
  mret (Returns match r with
    | Some None => Ok CviReady
    | Some (Some e) => Err e
    | None => Ok CviStarved
    end).

Definition createCVI (cvmiName imageURL : string) : list (call W cvi_state) :=
  failing ("failed to create/wait for CVI " +:+ cvmiName +:+ ": ")
    [cvi_get cvmiName; cvi_create cvmiName imageURL; cvi_again cvmiName; cvi_wait cvmiName].

(** ** The machines: one goroutine for each node *)

(** Which objects a goroutine has found missing. *)
Record missing := mkMissing { no_disk : bool; no_vm : bool }.

Definition system_disk (cvmiName storageClass : string) (n : ClusterNode) : VirtualDisk :=
  mkVD ∅ (Some (wrap64 (DiskSize n * 1024 * 1024 * 1024))) (Some storageClass) (Some cvmiName) "" "".

Definition machine (n : ClusterNode) (memory : Z) (userData : string) : VirtualMachine :=
  mkVM {["vm" := "linux"; "service" := "v1"]} (EffectiveVirtualMachineClassName env) true "AlwaysOn" "Generic" "BIOS"
    "PreferSafe" (CPU n) (match CoreFraction n with Some f => pretty f +:+ "%" | None => "100%" end) memory
    [systemDiskName (Hostname n)] userData "" "".

Definition disk_get (ns : string) (n : ClusterNode) : call W missing := fun s =>
  let disk := systemDiskName (Hostname n) in
  let! got := VirtualDisks_Get ns disk in
  mret (Returns match got with
    | Ok _ => Ok (mkMissing false (no_vm s))
    | Err e => if IsNotFound (Some e) then Ok (mkMissing true (no_vm s))
               else Err (ErrorfW ("failed to check VirtualDisk " +:+ disk +:+ ": ") e "")
    end).

Definition disk_create (ns storageClass : string) (n : ClusterNode) : call W missing := fun s =>
  let disk := systemDiskName (Hostname n) in
  if no_disk s then
    let! err := VirtualDisks_Create ns disk (system_disk (image_of n) storageClass n) in
    mret (Returns match err with
      | None => Ok s
      | Some e => Err (ErrorfW ("failed to create VirtualDisk " +:+ disk +:+ ": ") e "")
      end)
  else mret (Returns (Ok s)).

Definition vm_get (ns : string) (n : ClusterNode) : call W missing := fun s =>
  let! got := VirtualMachines_Get ns (Hostname n) in
  mret (Returns match got with
    | Ok _ => Ok (mkMissing (no_disk s) false)
    | Err e => if IsNotFound (Some e) then Ok (mkMissing (no_disk s) true)
               else Err (ErrorfW ("failed to check VirtualMachine " +:+ Hostname n +:+ ": ") e "")
    end).

Definition vm_create (ns : string) (n : ClusterNode) : call W missing := fun s =>
  if no_vm s then
    match GetSSHPublicKeyContent home readFile env with
    | Err e => mret (Returns (Err (ErrorfW "failed to get SSH public key content: " e "")))
    | Ok key =>
        match ParseQuantity (pretty (RAM n) +:+ "Gi") with
        | Err _ => mret Panics
        | Ok memory =>
            let! err := VirtualMachines_Create ns (Hostname n) (machine n memory (user_data (Hostname n) key)) in
            mret (Returns match err with
              | None => Ok s
              | Some e => Err (ErrorfW ("failed to create VirtualMachine " +:+ Hostname n +:+ ": ") e "")
              end)
        end
    end
  else mret (Returns (Ok s)).

Definition createVM (ns storageClass : string) (n : ClusterNode) : list (call W missing) :=
  failing ("failed to create VM " +:+ Hostname n +:+ ": ")
    [disk_get ns n; disk_create ns storageClass n; vm_get ns n; vm_create ns n].

Definition ready_image (p : ClusterNode * result cvi_state) : option string :=
  match p.2 with Ok _ => Some (image_of p.1) | Err _ => None end.
Definition starved (p : ClusterNode * result cvi_state) : bool :=
  match p.2 with Ok CviStarved => true | _ => false end.

Definition setup_vm (t : Z) : ClusterNode :=
  with_hostname (Hostname DefaultSetupVM +:+ pretty t) DefaultSetupVM.

(** [None]: the fuel of a wait ran out. *)
Definition creation : Type := option (ending (result (list string * VMResources))).

Definition create_machines (namespace : string) (vmNodes : list ClusterNode) (setupVMName : string)
    (images : list string) : M W creation :=
  let! r := go_all (sched 1) (fun _ => mkMissing false false)
              (createVM namespace (TestClusterStorageClass env)) vmNodes in
  mret match r with
       | None => None
       | Some Panics => Some Panics
       | Some (Returns res) =>
           Some (Returns match first_sent res with
             | Some e => Err e
             | None => let names := map Hostname vmNodes in
                       Ok (names, mkResources namespace names (order (remove_dups images)) setupVMName)
             end)
       end.

Definition create_images (vmNodes : list ClusterNode) (k : list string -> M W creation) : M W creation :=
  let! r := go_all (sched 0) (fun _ => CviThere)
              (fun n => createCVI (image_of n) (ImageURL (OS n))) vmNodes in
  match r with
  | None => mret None
  | Some Panics => mret (Some Panics)
  | Some (Returns res) =>
      if existsb starved res then mret None
      else match first_sent res with
           | Some e => mret (Some (Returns (Err e)))
           | None => k (omap ready_image res)
           end
  end.

Definition CreateVirtualMachines (def : ClusterDefinition) : M W creation :=
  let namespace := TestClusterNamespace env in
  let fail e := mret (Some (Returns (Err e))) in
  match getVMNodes def with
  | [] => fail (Errorf "no VM nodes found in cluster definition")
  | nodes =>
      let! t := now in
      let vmNodes := nodes ++ [setup_vm t] in
      let! conflicts := checkResourceConflicts namespace vmNodes in
      match conflicts with
      | Err e => fail (ErrorfW "failed to check for resource conflicts: " e "")
      | Ok c =>
          match conflict_messages c with
          | [] =>
              let! class := ensureVirtualMachineClassForClusterVMs in
              match class with
              | None => mret None
              | Some (Some e) => fail e
              | Some None =>
                  create_images vmNodes (create_machines namespace vmNodes (Hostname (setup_vm t)))
              end
          | messages =>
              fail (Errorf ("the following VM-related resources already exist (CLUSTER_CREATE_MODE=" +:+
                      TestClusterCreateMode env +:+ "): " +:+ Join messages ", "))
          end
      end
  end.

(** ** Addresses *)

Definition GetVMIPAddress (namespace vmName : string) : M W (result string) :=
  let ref := nsref namespace vmName in
  let! vm := VirtualMachines_Get namespace vmName in
  mret match vm with
       | Err e => Err (ErrorfW ("failed to get VM " +:+ ref +:+ ": ") e "")
       | Ok vm => if String.eqb (vmIPAddress vm) ""
                  then Err (Errorf ("VM " +:+ ref +:+ " does not have an IP address in status yet"))
                  else Ok (vmIPAddress vm)
       end.

(** A goroutine for each VM: the node it is for, [None] for the setup VM, and the name. *)
Definition target : Type := option nodePtr * string.

Definition pointers (ptr : nat -> nodePtr) (l : list ClusterNode) : list target :=
  concat (imap (fun i n => if is_vm n then [(Some (ptr i), Hostname n)] else []) l).

Definition targets (def : ClusterDefinition) (setupVMName : string) (skipSetupVM : bool) : list target :=
  pointers PMaster (Masters def) ++ pointers PWorker (Workers def) ++
  (if negb skipSetupVM && negb (String.eqb setupVMName "") then [(None, setupVMName)] else []).

(** The goroutines make their calls and offer their results, in this order. *)
Fixpoint offers (namespace : string) (l : list target) : M W (list (target * result string)) :=
  match l with
  | [] => mret []
  | t :: l =>
      let! ip := GetVMIPAddress namespace t.2 in
      let! rest := offers namespace l in
      mret ((t, ip) :: rest)
  end.

(** The receiver: the definition, the address of the setup VM, and the error with the number of
    results that nobody will take. *)
Fixpoint receive (def : ClusterDefinition) (setupIP : string) (l : list (target * result string))
    : ClusterDefinition * string * option (error * nat) :=
  match l with
  | [] => (def, setupIP, None)
  | ((_, hostname), Err e) :: l =>
      (def, setupIP, Some (ErrorfW ("failed to get IP for VM " +:+ hostname +:+ ": ") e "", length l))
  | ((Some ptr, _), Ok ip) :: l => receive (assign_ip def (ptr, ip)) setupIP l
  | ((None, _), Ok ip) :: l => receive def ip l
  end.

Definition with_setup (n : ClusterNode) (def : ClusterDefinition) : ClusterDefinition :=
  mkDef (Masters def) (Workers def) (Some n) (DKP def).

(** Each result is handed over on a channel without a buffer, so a goroutine whose result is not
    taken is blocked for good; with one of them the goroutine that closes the channel is too. *)
Definition GatherVMInfo (arrival : list target -> list target) (namespace : string) (def : ClusterDefinition)
    (setupVMName : string) (skipSetupVM : bool) : M W (option error * ClusterDefinition * nat) :=
  let! results := offers namespace (arrival (targets def setupVMName skipSetupVM)) in
  mret match receive def "" results with
       | (def, _, Some (e, blocked)) =>
           (Some e, def, match blocked with O => O | S _ => S blocked end)
       | (def, setupIP, None) =>
           if skipSetupVM then (None, def, O)
           else let n := default DefaultSetupVM (Setup def) in
                (None, with_setup (set_ip setupIP (with_hostname setupVMName n)) def, O)
       end.

(** ** Removal *)

(** The images of the disks that can be read. *)
Fixpoint disk_images (namespace : string) (names : list string) : M W (list string) :=
  match names with
  | [] => mret []
  | name :: names =>
      let! vd := VirtualDisks_Get namespace name in
      let! rest := disk_images namespace names in
      mret match vd with
           | Ok vd => match vdDataSource vd with Some image => image :: rest | None => rest end
           | Err _ => rest
           end
  end.

(** Any failed read ends the wait. *)
Definition vm_gone_round (namespace vmName : string) (_ : unit) : M W (unit * option (option error)) :=
  let! got := VirtualMachines_Get namespace vmName in
  mret (tt, match got with Err _ => Some None | Ok _ => None end).

(** The disks whose deletion was accepted. *)
Fixpoint delete_disks (namespace : string) (names : list string) : M W (list string) :=
  match names with
  | [] => mret []
  | name :: names =>
      let! err := VirtualDisks_Delete namespace name in
      let! rest := delete_disks namespace names in
      mret (if negb (is_nil err) && negb (IsNotFound err) then rest else name :: rest)
  end.

(** Those of the disks that can still be read. *)
Fixpoint disks_left (namespace : string) (names : list string) : M W (list string) :=
  match names with
  | [] => mret []
  | name :: names =>
      let! got := VirtualDisks_Get namespace name in
      let! rest := disks_left namespace names in
      mret match got with Ok _ => name :: rest | Err _ => rest end
  end.

Definition disks_gone_round (namespace : string) (names : list string) : M W (list string * option (option error)) :=
  let! left := disks_left namespace (order names) in
  mret (left, match left with [] => Some None | _ => None end).

Definition wait_disks_gone (namespace : string) (names : list string) : M W (option (option error)) :=
  match names with
  | [] => mret (Some None)
  | _ => poll (disks_gone_round namespace)
           (fun _ ce => Some (ErrorfWn "context cancelled while waiting for VirtualDisks to be deleted: " ce ""))
           fuel (5 * Second) names
  end.

Fixpoint delete_images (inUse : list string) (names : list string) : M W unit :=
  match names with
  | [] => mret tt
  | name :: names =>
      if existsb (String.eqb name) inUse then delete_images inUse names
      else let! _ := ClusterVirtualImages_Delete name in delete_images inUse names
  end.

Definition delete_unused_images (namespace : string) (images : list string) : M W unit :=
  let! all := VirtualDisks_List namespace in
  let inUse := match all with Ok l => omap (fun p => vdDataSource p.2) l | Err _ => [] end in
  delete_images inUse (order (remove_dups images)).

Definition RemoveVM (namespace vmName : string) : M W (option (option error)) :=
  let ref := nsref namespace vmName in
  let! vm := VirtualMachines_Get namespace vmName in
  match vm with
  | Err e => mret (Some (if IsNotFound (Some e) then None else Some (ErrorfW ("failed to get VM " +:+ ref +:+ ": ") e "")))
  | Ok vm =>
      let vdNames := BlockDevices vm in
      let! images := disk_images namespace vdNames in
      let! err := VirtualMachines_Delete namespace vmName in
      if negb (is_nil err) && negb (IsNotFound err)
      then mret (Some (Some (ErrorfWn ("failed to delete VM " +:+ ref +:+ ": ") err "")))
      else
        let! gone := poll (vm_gone_round namespace vmName)
                       (fun _ ce => Some (ErrorfWn ("context cancelled while waiting for VM " +:+ ref +:+
                          " to be deleted: ") ce "")) fuel (5 * Second) tt in
        match gone with
        | Some None =>
            let! deleted := delete_disks namespace vdNames in
            let! gone := wait_disks_gone namespace (remove_dups deleted) in
            match gone with
            | Some None => let! _ := delete_unused_images namespace images in mret (Some None)
            | r => mret r
            end
        | r => mret r
        end
  end.

(** Errors are logged; the other machines are still removed. *)
Fixpoint remove_each (namespace : string) (names : list string) : M W (option (option error)) :=
  match names with
  | [] => mret (Some None)
  | name :: names =>
      let! r := RemoveVM namespace name in
      match r with
      | None => mret None
      | Some _ => remove_each namespace names
      end
  end.

Definition RemoveAllVMs (resources : option VMResources) : M W (option (option error)) :=
  match resources with
  | None => mret (Some (Some (Errorf "resources cannot be nil")))
  | Some r => remove_each (vr_Namespace r) (vr_VMNames r)
  end.

Definition CleanupSetupVM (resources : option VMResources) : M W (option (option error)) :=
  match resources with
  | None => mret (Some (Some (Errorf "resources cannot be nil")))
  | Some r => RemoveVM (vr_Namespace r) (vr_SetupVMName r)
  end.
End LegacyVms.
