(* ===== verification/LegacyVmsSafety.v ===== *)
(** What creating and removing the machines of the legacy suites does to the objects on the
    base cluster. *)
From S2P Require Import Prelude Errors Retry Env Kube Pool Config Deckhouse Naming Virt Provision DvpConfig KitVirt LegacyVms.

Local Open Scope Z_scope.
Local Open Scope go_scope.

(** From [m] to [m'] only objects with [P] went away. *)
Definition gone_only {O} (P : string -> Prop) (m m' : gmap string O) : Prop :=
  forall k, m' !! k = m !! k \/ (m' !! k = None /\ P k).

Lemma gone_only_refl {O} P (m : gmap string O) : gone_only P m m.
Proof. by left. Qed.

Lemma gone_only_trans {O} P (m1 m2 m3 : gmap string O) : gone_only P m1 m2 -> gone_only P m2 m3 -> gone_only P m1 m3.
Proof. intros H1 H2 k. destruct (H2 k) as [->|]; [apply H1|by right]. Qed.

Lemma gone_only_mono {O} (P Q : string -> Prop) (m m' : gmap string O) :
  (forall k, P k -> Q k) -> gone_only P m m' -> gone_only Q m m'.
Proof. intros HPQ H k. destruct (H k) as [|[? ?]]; [by left|right; auto]. Qed.

Definition nothing (_ : string) : Prop := False.

Section Removal.
Context {W : Type} `{AE : ApiErrors, CX : Ctx W, CL : !CtxLaws W}.
Context `{CV : Client W VirtualMachine, CD : Client W VirtualDisk, CI : Client W ClusterVirtualImage}.
Context `{VL : !ClientLaws W VirtualMachine, DLs : !ClientLaws W VirtualDisk, IL : !ClientLaws W ClusterVirtualImage}.
Context `{VQ : !Quiet W VirtualMachine, DQ : !Quiet W VirtualDisk, IQ : !Quiet W ClusterVirtualImage}.
Context `{F1 : !Frame W VirtualMachine VirtualDisk, F2 : !Frame W VirtualMachine ClusterVirtualImage}.
Context `{F3 : !Frame W VirtualDisk VirtualMachine, F4 : !Frame W VirtualDisk ClusterVirtualImage}.
Context `{F5 : !Frame W ClusterVirtualImage VirtualMachine, F6 : !Frame W ClusterVirtualImage VirtualDisk}.
Context (order : list string -> list string) (order_perm : forall l, order l ≡ₚ l) (fuel : nat) (namespace : string).

Definition removes (V D I : string -> Prop) (w w' : W) : Prop :=
  gone_only V (objs (O := VirtualMachine) w) (objs w') /\ gone_only D (objs (O := VirtualDisk) w) (objs w') /\
  gone_only I (objs (O := ClusterVirtualImage) w) (objs w').

Lemma removes_trans V D I w1 w2 w3 : removes V D I w1 w2 -> removes V D I w2 w3 -> removes V D I w1 w3.
Proof. intros (? & ? & ?) (? & ? & ?). split; [|split]; by eapply gone_only_trans. Qed.

Lemma removes_mono (V D I V' D' I' : string -> Prop) w w' :
  (forall k, V k -> V' k) -> (forall k, D k -> D' k) -> (forall k, I k -> I' k) -> removes V D I w w' -> removes V' D' I' w w'.
Proof. intros ??? (? & ? & ?). split; [|split]; by eapply gone_only_mono. Qed.

(** Reading leaves everything as it is. *)
Definition same (w w' : W) : Prop :=
  objs (O := VirtualMachine) w' = objs w /\ objs (O := VirtualDisk) w' = objs w /\ objs (O := ClusterVirtualImage) w' = objs w.

Lemma same_removes V D I w w' : same w w' -> removes V D I w w'.
Proof. intros (E1 & E2 & E3). unfold removes. rewrite E1 E2 E3. split; [|split]; apply gone_only_refl. Qed.

Lemma same_trans w1 w2 w3 : same w1 w2 -> same w2 w3 -> same w1 w3.
Proof. unfold same. intros (-> & -> & ->) (-> & -> & ->). done. Qed.

Lemma get_same {O} `{OC : Client W O, OL : !ClientLaws W O} k w r w' :
  clientGet (O := O) k w = (r, w') -> objs (O := O) w' = objs w.
Proof. destruct r; [by intros [_ ?]%get_ok|by intros [? _]%get_err]. Qed.

Lemma vm_get_same name w r w' : VirtualMachines_Get namespace name w = (r, w') -> same w w'.
Proof.
  intros H. unfold VirtualMachines_Get, kind_Get in H. mstep H as [g w1] E. injection H as _ <-.
  pose proof (frame_get (O1 := VirtualMachine) (O2 := VirtualDisk) (nsref namespace name) w) as G1.
  pose proof (frame_get (O1 := VirtualMachine) (O2 := ClusterVirtualImage) (nsref namespace name) w) as G2.
  rewrite E in G1, G2. split; [by eapply get_same|done].
Qed.

Lemma vd_get_same name w r w' : VirtualDisks_Get namespace name w = (r, w') -> same w w'.
Proof.
  intros H. unfold VirtualDisks_Get, kind_Get in H. mstep H as [g w1] E. injection H as _ <-.
  pose proof (frame_get (O1 := VirtualDisk) (O2 := VirtualMachine) (nsref namespace name) w) as G1.
  pose proof (frame_get (O1 := VirtualDisk) (O2 := ClusterVirtualImage) (nsref namespace name) w) as G2.
  rewrite E in G1, G2. split; [done|]. split; [by eapply get_same|done].
Qed.

Lemma ctx_same w : same w (ctxErr w).2.
Proof. split; [|split]; apply quiet_ctx. Qed.
Lemma timer_same z w : same w (timerFires z w).2.
Proof. split; [|split]; apply quiet_timer. Qed.

(** A wait whose checks only read only reads. *)
Lemma poll_same {St A} (check : St -> M W (St * option A)) over interval s w r w' :
  (forall s w x w', check s w = (x, w') -> same w w') ->
  poll check over fuel interval s w = (r, w') -> same w w'.
Proof.
  intros Hc H. refine (poll_preserves check over (same w) fuel interval s w r w' _ _ _ _ H).
  - intros s0 v x v' Hv Hx. eapply same_trans; [exact Hv|by eapply Hc].
  - intros v e v' Hv Hx. eapply same_trans; [exact Hv|]. pose proof (ctx_same v) as Hs. by rewrite Hx in Hs.
  - intros z v b v' Hv Hx. eapply same_trans; [exact Hv|]. pose proof (timer_same z v) as Hs. by rewrite Hx in Hs.
  - by split.
Qed.

Lemma disk_images_ok names w images w' :
  disk_images namespace names w = (images, w') ->
  same w w' /\ forall image, image ∈ images -> exists d vd, d ∈ names /\
    objs w !! nsref namespace d = Some vd /\ vdDataSource vd = Some image.
Proof.
  revert w images. induction names as [|d names IH]; intros w images H; cbn [disk_images] in H.
  { injection H as <- <-. split; [by split|]. intros i Hi. by apply elem_of_nil in Hi. }
  mstep H as [vd w1] E1. mstep H as [rest w2] E2. injection H as <- <-.
  pose proof (vd_get_same _ _ _ _ E1) as S1. destruct (IH _ _ E2) as [S2 Hr].
  split; [by eapply same_trans|].
  assert (Hrest : forall image, image ∈ rest -> exists d0 vd0, d0 ∈ d :: names /\
    objs w !! nsref namespace d0 = Some vd0 /\ vdDataSource vd0 = Some image).
  { intros i Hi. destruct (Hr i Hi) as (d0 & vd0 & Hd & Hv & Hs). destruct S1 as (_ & S1 & _).
    rewrite S1 in Hv. exists d0, vd0. split; [by right|done]. }
  destruct vd as [vd|e]; [|exact Hrest]. destruct (vdDataSource vd) as [image|] eqn:Hs; [|exact Hrest].
  intros i [->|Hi]%elem_of_cons; [|by apply Hrest]. exists d, vd.
  split; [by left|]. split; [|done]. unfold VirtualDisks_Get, kind_Get in E1. mstep E1 as [g w3] E3.
  injection E1 as E1 ->. destruct g as [vd0|e0]; [|done]. injection E1 as ->. by apply get_ok in E3 as [? _].
Qed.

Lemma disks_left_same names w r w' : disks_left namespace names w = (r, w') -> same w w'.
Proof.
  revert w r. induction names as [|d names IH]; intros w r H; cbn [disks_left] in H; [injection H as _ <-; by split|].
  mstep H as [g w1] E1. mstep H as [rest w2] E2. injection H as _ <-.
  eapply same_trans; [by eapply vd_get_same|by eapply IH].
Qed.

Lemma delete_disks_removes names w r w' :
  delete_disks namespace names w = (r, w') -> removes nothing (fun k => k ∈ map (nsref namespace) names) nothing w w'.
Proof.
  revert w r. induction names as [|d names IH]; intros w r H; cbn [delete_disks] in H.
  { injection H as _ <-. apply same_removes. by split. }
  mstep H as [g w1] E1. mstep H as [rest w2] E2. injection H as _ <-. apply removes_trans with w1.
  - unfold VirtualDisks_Delete, kind_Delete in E1. mstep E1 as [e w3] E3. injection E1 as _ ->.
    pose proof (frame_delete (O1 := VirtualDisk) (O2 := VirtualMachine) (nsref namespace d) w) as G1.
    pose proof (frame_delete (O1 := VirtualDisk) (O2 := ClusterVirtualImage) (nsref namespace d) w) as G2.
    rewrite E3 in G1, G2. cbn in G1, G2. unfold removes. rewrite G1 G2.
    split; [apply gone_only_refl|]. split; [|apply gone_only_refl]. intros k.
    destruct (decide (k = nsref namespace d)) as [->|Hne]; [|left; by eapply delete_frame].
    destruct (delete_own _ _ _ _ E3) as [?|?]; [right; split; [done|by left]|by left].
  - eapply removes_mono; [..|by eapply IH]; try done. intros k Hk. by right.
Qed.

Lemma delete_images_removes inUse names w u w' :
  delete_images inUse names w = (u, w') -> removes nothing nothing (fun k => k ∈ names /\ k ∉ inUse) w w'.
Proof.
  revert w. induction names as [|i names IH]; intros w H; cbn [delete_images] in H.
  { injection H as _ <-. apply same_removes. by split. }
  assert (Hmono : forall v v', removes nothing nothing (fun k => k ∈ names /\ k ∉ inUse) v v' ->
    removes nothing nothing (fun k => k ∈ i :: names /\ k ∉ inUse) v v').
  { intros v v'. apply removes_mono; try done. intros k [Hk Hn]. split; [by right|done]. }
  destruct (existsb (String.eqb i) inUse) eqn:Hu; [by apply Hmono, IH|].
  mstep H as [g w1] E1. apply removes_trans with w1; [|by apply Hmono, IH].
  unfold ClusterVirtualImages_Delete, kind_Delete in E1. mstep E1 as [e w3] E3. injection E1 as _ ->.
  pose proof (frame_delete (O1 := ClusterVirtualImage) (O2 := VirtualMachine) i w) as G1.
  pose proof (frame_delete (O1 := ClusterVirtualImage) (O2 := VirtualDisk) i w) as G2.
  rewrite E3 in G1, G2. cbn in G1, G2. unfold removes. rewrite G1 G2.
  split; [apply gone_only_refl|]. split; [apply gone_only_refl|]. intros k.
  destruct (decide (k = i)) as [->|Hne]; [|left; by eapply delete_frame].
  destruct (delete_own _ _ _ _ E3) as [?|?]; [right|by left]. split; [done|]. split; [by left|].
  intros Hin. assert (existsb (String.eqb i) inUse = true); [|congruence].
  apply existsb_exists. exists i. split; [by apply list_elem_of_In|apply String.eqb_refl].
Qed.

Lemma vd_list_same w r w' : VirtualDisks_List namespace w = (r, w') -> same w w'.
Proof.
  intros H. unfold VirtualDisks_List, kind_List in H. mstep H as [l w1] E. injection H as _ <-.
  pose proof (frame_list (O1 := VirtualDisk) (O2 := VirtualMachine) w) as G1.
  pose proof (frame_list (O1 := VirtualDisk) (O2 := ClusterVirtualImage) w) as G2.
  rewrite E in G1, G2. split; [done|]. split; [|done].
  destruct l; [by apply list_ok in E as [_ ?]|by apply list_err in E].
Qed.

(** Images go only when the list shows no disk that uses them; a failed list shows none. *)
Lemma delete_unused_images_removes images w u w' :
  delete_unused_images order namespace images w = (u, w') ->
  removes nothing nothing (fun k => k ∈ images) w w' /\
  ((forall v, exists l, (clientList (O := VirtualDisk) v).1 = Ok l) ->
   forall d vd k, objs w !! nsref namespace d = Some vd -> vdDataSource vd = Some k ->
     objs (O := ClusterVirtualImage) w' !! k = objs w !! k).
Proof.
  intros H. unfold delete_unused_images in H. mstep H as [all w1] E1. pose proof (vd_list_same _ _ _ E1) as S1.
  pose proof (delete_images_removes _ _ _ _ _ H) as Hr. split.
  - eapply removes_trans; [by apply same_removes|]. eapply removes_mono; [..|exact Hr]; try done.
    intros k [Hk _]. by rewrite order_perm elem_of_remove_dups in Hk.
  - intros Hok d vd k Hd Hs. destruct S1 as (_ & _ & <-). destruct Hr as (_ & _ & Hr). destruct (Hr k) as [|[_ [_ Hn]]]; [done|].
    destruct Hn. unfold VirtualDisks_List, kind_List in E1. mstep E1 as [l w2] E2. destruct (Hok w) as [l0 Hl].
    rewrite E2 in Hl. cbn in Hl. subst l. injection E1 as <- ->. apply list_ok in E2 as [Hp _].
    apply list_elem_of_omap. exists (nsref namespace d, vd). split; [|done]. unfold in_namespace.
    assert (Hin : (nsref namespace d, vd) ∈ l0) by (rewrite Hp; by apply elem_of_map_to_list).
    destruct (String.eqb namespace ""); [done|]. apply list_elem_of_In, filter_In. split; [by apply list_elem_of_In|].
    apply HasPrefix_spec. exists d. unfold nsref. cbn. by rewrite -str_app_assoc.
Qed.

Lemma wait_disks_gone_same names w r w' : wait_disks_gone order fuel namespace names w = (r, w') -> same w w'.
Proof.
  unfold wait_disks_gone. destruct names as [|d names]; [intros [= _ <-]; by split|]. apply poll_same.
  intros s v x v' H. unfold disks_gone_round in H. mstep H as [l v1] E. injection H as _ <-. by eapply disks_left_same.
Qed.

(** The deletion of the machine itself. *)
Lemma vm_delete_removes name w r w' :
  VirtualMachines_Delete namespace name w = (r, w') -> removes (eq (nsref namespace name)) nothing nothing w w'.
Proof.
  intros H. unfold VirtualMachines_Delete, kind_Delete in H. mstep H as [e w1] E. injection H as _ <-.
  pose proof (frame_delete (O1 := VirtualMachine) (O2 := VirtualDisk) (nsref namespace name) w) as G1.
  pose proof (frame_delete (O1 := VirtualMachine) (O2 := ClusterVirtualImage) (nsref namespace name) w) as G2.
  rewrite E in G1, G2. cbn in G1, G2. unfold removes. rewrite G1 G2.
  split; [|split; apply gone_only_refl]. intros k.
  destruct (decide (k = nsref namespace name)) as [->|Hne]; [|left; by eapply delete_frame].
  destruct (delete_own _ _ _ _ E) as [?|?]; [by right|by left].
Qed.

(** What [RemoveVM] may take away, whatever it returns: the machine, the disks it lists, the
    images these disks are made of. *)
Definition vm_disk (vmName : string) (w : W) (k : string) : Prop :=
  exists vm, objs w !! nsref namespace vmName = Some vm /\ k ∈ map (nsref namespace) (BlockDevices vm).
Definition vm_image (vmName : string) (w : W) (k : string) : Prop :=
  exists d vd, vm_disk vmName w d /\ objs w !! d = Some vd /\ vdDataSource vd = Some k.

Lemma RemoveVM_removes vmName w r w' :
  RemoveVM order fuel namespace vmName w = (r, w') ->
  removes (eq (nsref namespace vmName)) (vm_disk vmName w) (vm_image vmName w) w w' /\
  ((forall v, exists l, (clientList (O := VirtualDisk) v).1 = Ok l) ->
   forall d vd k, objs w !! nsref namespace d = Some vd -> vdDataSource vd = Some k ->
     ~ vm_disk vmName w (nsref namespace d) -> objs (O := ClusterVirtualImage) w' !! k = objs w !! k).
Proof.
  intros H. unfold RemoveVM in H. mstep H as [got w1] E1. pose proof (vm_get_same _ _ _ _ E1) as S1.
  assert (Hsame : forall v, same w v -> removes (eq (nsref namespace vmName)) (vm_disk vmName w) (vm_image vmName w) w v /\
    ((forall v, exists l, (clientList (O := VirtualDisk) v).1 = Ok l) -> forall d vd k,
      objs w !! nsref namespace d = Some vd -> vdDataSource vd = Some k ->
      ~ vm_disk vmName w (nsref namespace d) -> objs (O := ClusterVirtualImage) v !! k = objs w !! k)).
  { intros v Hv. split; [by apply same_removes|]. destruct Hv as (_ & _ & ->). done. }
  destruct got as [vm|e]; [|injection H as _ <-; by apply Hsame].
  assert (Hvm : objs w !! nsref namespace vmName = Some vm).
  { unfold VirtualMachines_Get, kind_Get in E1. mstep E1 as [g v] E. injection E1 as E1 ->.
    destruct g; [|done]. injection E1 as ->. by apply get_ok in E as [? _]. }
  mstep H as [images w2] E2. apply disk_images_ok in E2 as [S2 Himg].
  pose proof (same_trans _ _ _ S1 S2) as S02. destruct S1 as (_ & S1d & _).
  mstep H as [err w3] E3. pose proof (vm_delete_removes _ _ _ _ E3) as R3.
  assert (R03 : removes (eq (nsref namespace vmName)) nothing nothing w w3)
    by (eapply removes_trans; [by apply same_removes|exact R3]).
  assert (Hstop : forall v, same w3 v -> removes (eq (nsref namespace vmName)) (vm_disk vmName w) (vm_image vmName w) w v /\
    objs (O := ClusterVirtualImage) v = objs w).
  { intros v Hv. split.
    - eapply removes_mono; [..|eapply removes_trans; [exact R03|by apply same_removes]]; done.
    - destruct Hv as (_ & _ & ->). destruct R03 as (_ & _ & R). apply map_eq. intros k. by destruct (R k) as [|[_ []]]. }
  destruct (negb (is_nil err) && negb (IsNotFound err)).
  { injection H as _ <-. destruct (Hstop w3) as [? Hi]; [by split|]. split; [done|]. intros. by rewrite Hi. }
  mstep H as [gone w4] E4.
  assert (S4 : same w3 w4).
  { eapply poll_same; [|exact E4]. intros s v x v' Hx. unfold vm_gone_round in Hx. mstep Hx as [g v1] Eg.
    injection Hx as _ <-. by eapply vm_get_same. }
  destruct gone as [[e|]|].
  1, 3: injection H as _ <-; destruct (Hstop w4 S4) as [? Hi]; split; [done|]; intros; by rewrite Hi.
  mstep H as [deleted w5] E5. pose proof (delete_disks_removes _ _ _ _ E5) as R5.
  assert (R05 : removes (eq (nsref namespace vmName)) (vm_disk vmName w) nothing w w5).
  { eapply removes_trans; [eapply removes_trans; [eapply removes_mono; [..|exact R03]; done|by apply same_removes]|].
    eapply removes_mono; [..|exact R5]; [done| |done]. intros k Hk. by exists vm. }
  mstep H as [gone w6] E6. pose proof (wait_disks_gone_same _ _ _ _ E6) as S6.
  assert (R06 : removes (eq (nsref namespace vmName)) (vm_disk vmName w) nothing w w6)
    by (eapply removes_trans; [exact R05|by apply same_removes]).
  assert (Hi6 : objs (O := ClusterVirtualImage) w6 = objs w).
  { destruct R06 as (_ & _ & R). apply map_eq. intros k. by destruct (R k) as [|[_ []]]. }
  destruct gone as [[e|]|].
  1, 3: injection H as _ <-; split; [eapply removes_mono; [..|exact R06]; done|]; intros; by rewrite Hi6.
  mstep H as [u w7] E7. injection H as _ <-. apply delete_unused_images_removes in E7 as [R7 Hkeep]. split.
  - eapply removes_trans; [eapply removes_mono; [..|exact R06]; done|]. eapply removes_mono; [..|exact R7]; [done|done|].
    intros k Hk. destruct (Himg k Hk) as (d & vd & Hd & Hv & Hs). rewrite S1d in Hv.
    exists (nsref namespace d), vd. split; [|done]. exists vm. split; [done|]. by apply list_elem_of_fmap_2.
  - intros Hok d vd k Hd Hs Hnot. rewrite -Hi6. eapply (Hkeep Hok d vd); [|done].
    destruct R06 as (_ & R & _). by destruct (R (nsref namespace d)) as [->|[_ Hx]].
Qed.

Context `{DL : !Deadline W, TV : !TimedClient W VirtualMachine, TD : !TimedClient W VirtualDisk}.
Context `{TI : !TimedClient W ClusterVirtualImage}.

Lemma kind_get_bounded {O} `{OC : Client W O, TO : !TimedClient W O} kind ref : bounded (kind_Get (O := O) kind ref).
Proof. apply bind_bounded; [apply get_bounded|intros; apply ret_bounded]. Qed.
Lemma kind_delete_bounded {O} `{OC : Client W O, TO : !TimedClient W O} kind ref : bounded (kind_Delete (O := O) kind ref).
Proof. apply bind_bounded; [apply delete_bounded|intros; apply ret_bounded]. Qed.
Hint Resolve kind_get_bounded kind_delete_bounded : runs.

Lemma disk_images_bounded names : bounded (disk_images namespace names).
Proof.
  induction names as [|d names IH]; cbn [disk_images]; [apply ret_bounded|].
  apply bind_bounded; [apply kind_get_bounded|]. intros. apply bind_bounded; [exact IH|intros; apply ret_bounded].
Qed.
Lemma delete_disks_bounded names : bounded (delete_disks namespace names).
Proof.
  induction names as [|d names IH]; cbn [delete_disks]; [apply ret_bounded|].
  apply bind_bounded; [apply kind_delete_bounded|]. intros. apply bind_bounded; [exact IH|intros; apply ret_bounded].
Qed.
Lemma disks_gone_round_bounded names : bounded (disks_gone_round order namespace names).
Proof.
  apply bind_bounded; [|intros; apply ret_bounded]. induction (order names) as [|d l IH]; cbn [disks_left]; [apply ret_bounded|].
  apply bind_bounded; [apply kind_get_bounded|]. intros. apply bind_bounded; [exact IH|intros; apply ret_bounded].
Qed.

Lemma wait_disks_gone_runs names :
  bounded (wait_disks_gone order fuel namespace names) /\ returns fuel (wait_disks_gone order fuel namespace names).
Proof.
  destruct names as [|d names]; cbn; [split; [apply ret_bounded|apply ret_returns]|].
  split; [apply poll_bounded|apply poll_returns]; intros; apply disks_gone_round_bounded.
Qed.

Lemma RemoveVM_returns vmName : returns fuel (RemoveVM order fuel namespace vmName).
Proof.
  apply bind_returns; [apply kind_get_bounded|]. intros [vm|e]; [|apply ret_returns].
  apply bind_returns; [apply disk_images_bounded|]. intros images.
  apply bind_returns; [apply kind_delete_bounded|]. intros err. destruct (_ && _); [apply ret_returns|].
  assert (Hround : forall s, bounded (vm_gone_round namespace vmName s))
    by (intros; apply bind_bounded; [apply kind_get_bounded|intros; apply ret_bounded]).
  apply returns_bind; [by apply poll_returns|by apply poll_bounded|]. intros [e|]; [apply ret_returns|].
  apply bind_returns; [apply delete_disks_bounded|]. intros deleted.
  destruct (wait_disks_gone_runs (remove_dups deleted)) as [Hb Hr].
  apply returns_bind; [done|done|]. intros [e|]; [apply ret_returns|].
  intros w _. unfold mbind, M_bind. destruct (delete_unused_images order namespace images w). by eexists _, _.
Qed.

End Removal.

(** ** Creating the machines *)
Section Creation.
Context {W : Type} `{AE : ApiErrors}.
Context `{CV : Client W VirtualMachine, CD : Client W VirtualDisk}.
Context `{VL : !ClientLaws W VirtualMachine, DLs : !ClientLaws W VirtualDisk}.
Context `{F1 : !Frame W VirtualMachine VirtualDisk, F3 : !Frame W VirtualDisk VirtualMachine}.
Context (env : Vars) (home : result string) (readFile : string -> result string) (ParseQuantity : string -> result Z).
Context (namespace storageClass : string) (nodes : list ClusterNode).

Definition vm_key (n : ClusterNode) : string := nsref namespace (Hostname n).
Definition disk_key (n : ClusterNode) : string := nsref namespace (systemDiskName (Hostname n)).

(** The machine and the disk as they are configured. *)
Definition asked_vm (n : ClusterNode) (vm : VirtualMachine) : Prop :=
  exists key memory, GetSSHPublicKeyContent home readFile env = Ok key /\
    ParseQuantity (pretty (RAM n) +:+ "Gi") = Ok memory /\ vm = machine env n memory (user_data (Hostname n) key).
Definition asked_disk (n : ClusterNode) (vd : VirtualDisk) : Prop := vd = system_disk (image_of n) storageClass n.

(** From [w] to [w'] nothing that exists changes, and what is new was asked for. *)
Definition grows {O} (P : string -> O -> Prop) (m m' : gmap string O) : Prop :=
  forall k, m' !! k = m !! k \/ (m !! k = None /\ exists o, m' !! k = Some o /\ P k o).
Definition adds (w w' : W) : Prop :=
  grows (fun k vm => exists n, n ∈ nodes /\ k = vm_key n /\ asked_vm n vm) (objs (O := VirtualMachine) w) (objs w') /\
  grows (fun k vd => exists n, n ∈ nodes /\ k = disk_key n /\ asked_disk n vd) (objs (O := VirtualDisk) w) (objs w').

Lemma grows_trans {O} (P : string -> O -> Prop) m1 m2 m3 : grows P m1 m2 -> grows P m2 m3 -> grows P m1 m3.
Proof.
  intros H1 H2 k. destruct (H2 k) as [->|(Hn & Ho)]; [apply H1|]. destruct (H1 k) as [Hk|(Hn1 & o & Hk & _)].
  - right. by rewrite -Hk.
  - congruence.
Qed.
Lemma grows_refl {O} (P : string -> O -> Prop) m : grows P m m.
Proof. by left. Qed.

Lemma adds_trans w1 w2 w3 : adds w1 w2 -> adds w2 w3 -> adds w1 w3.
Proof. intros [? ?] [? ?]. split; by eapply grows_trans. Qed.

Lemma adds_same w w' : objs (O := VirtualMachine) w' = objs w -> objs (O := VirtualDisk) w' = objs w -> adds w w'.
Proof. intros E1 E2. unfold adds. rewrite E1 E2. split; apply grows_refl. Qed.

Lemma grows_there {O} (P : string -> O -> Prop) m m' k : grows P m m' -> is_Some (m !! k) -> is_Some (m' !! k).
Proof. intros H [o Ho]. destruct (H k) as [->|(Hn & _)]; [eauto|congruence]. Qed.

(** A creation, whether it is reported or not. *)
Lemma create_grows {O} `{OC : Client W O, OL : !ClientLaws W O} (P : string -> O -> Prop) k o w r w' :
  P k o -> clientCreate k o w = (r, w') -> grows P (objs w) (objs w') /\ (r = None -> is_Some (objs (O := O) w' !! k)).
Proof.
  intros HP H. destruct r as [e|].
  - split; [|done]. intros k'. destruct (decide (k' = k)) as [->|Hne].
    + destruct (create_err_own _ _ _ _ _ H) as [?|[? ?]]; [by left|right; eauto].
    + left. by apply create_err in H as [H _]; apply H.
  - apply create_ok in H as [Hn ->]. split; [|intros _; rewrite lookup_insert_eq; eauto]. intros k'.
    destruct (decide (k' = k)) as [->|Hne]; [right; rewrite lookup_insert_eq; eauto|left; by rewrite lookup_insert_ne].
Qed.

Definition disk_there (n : ClusterNode) (w : W) : Prop := is_Some (objs (O := VirtualDisk) w !! disk_key n).
Definition vm_there (n : ClusterNode) (w : W) : Prop := is_Some (objs (O := VirtualMachine) w !! vm_key n).

Lemma there_adds n w w' : adds w w' -> (disk_there n w -> disk_there n w') /\ (vm_there n w -> vm_there n w').
Proof. intros [H1 H2]. split; by eapply grows_there. Qed.

(** The four calls. *)
Lemma disk_get_call n s w r w' :
  disk_get namespace n s w = (Returns r, w') -> adds w w' /\
  match r with Ok s' => no_disk s' = false -> disk_there n w' | Err _ => True end.
Proof.
  intros H. unfold disk_get, VirtualDisks_Get, kind_Get in H. mstep H as [x w1] E. mstep E as [g w2] Eg.
  injection E as <- <-. injection H as Hr <-.
  pose proof (frame_get (O1 := VirtualDisk) (O2 := VirtualMachine) (disk_key n) w) as Hf.
  unfold disk_key in Hf. rewrite Eg in Hf. split; [apply adds_same; [done|by eapply get_same]|].
  destruct g as [vd|e]; cbn in Hr.
  - subst r. intros _. apply get_ok in Eg as [Hk Ho]. unfold disk_there. rewrite Ho. by exists vd.
  - subst r. by destruct (IsNotFound _).
Qed.

Lemma vm_get_call n s w r w' :
  vm_get namespace n s w = (Returns r, w') -> adds w w' /\
  match r with Ok s' => no_vm s' = false -> vm_there n w' | Err _ => True end.
Proof.
  intros H. unfold vm_get, VirtualMachines_Get, kind_Get in H. mstep H as [x w1] E. mstep E as [g w2] Eg.
  injection E as <- <-. injection H as Hr <-.
  pose proof (frame_get (O1 := VirtualMachine) (O2 := VirtualDisk) (vm_key n) w) as Hf.
  unfold vm_key in Hf. rewrite Eg in Hf. split; [apply adds_same; [by eapply get_same|done]|].
  destruct g as [vm|e]; cbn in Hr.
  - subst r. intros _. apply get_ok in Eg as [Hk Ho]. unfold vm_there. rewrite Ho. by exists vm.
  - subst r. by destruct (IsNotFound _).
Qed.

Lemma disk_create_call n s w r w' :
  n ∈ nodes -> disk_create namespace storageClass n s w = (Returns r, w') -> adds w w' /\
  match r with Ok s' => s' = s /\ (no_disk s = true -> disk_there n w') | Err _ => True end.
Proof.
  intros Hn H. unfold disk_create in H. destruct (no_disk s) eqn:Hd.
  - unfold VirtualDisks_Create, kind_Create in H. mstep H as [x w1] E. mstep E as [e w2] Ee.
    injection E as <- <-. injection H as Hr <-.
    pose proof (frame_create (O2 := VirtualMachine) (disk_key n) (system_disk (image_of n) storageClass n) w) as Hf.
    unfold disk_key in Hf. rewrite Ee in Hf.
    eapply (create_grows (fun k vd => exists n, n ∈ nodes /\ k = disk_key n /\ asked_disk n vd)) in Ee as [Hg Hs];
      [|by exists n]. split; [split; [cbn in Hf; rewrite Hf; apply grows_refl|done]|].
    destruct e as [e|]; cbn in Hr; subst r; [done|]. split; [done|]. intros _. by apply Hs.
  - injection H as <- <-. split; [by apply adds_same|]. done.
Qed.

Lemma vm_create_call n s w r w' :
  n ∈ nodes -> vm_create env home readFile ParseQuantity namespace n s w = (Returns r, w') -> adds w w' /\
  match r with Ok s' => s' = s /\ (no_vm s = true -> vm_there n w') | Err _ => True end.
Proof.
  intros Hn H. unfold vm_create in H. destruct (no_vm s) eqn:Hd.
  2: { injection H as <- <-. split; [by apply adds_same|]. done. }
  destruct (GetSSHPublicKeyContent home readFile env) as [key|e] eqn:Hkey; [|injection H as <- <-; split; [by apply adds_same|done]].
  destruct (ParseQuantity _) as [memory|e] eqn:Hq; [|done].
  unfold VirtualMachines_Create, kind_Create in H. mstep H as [x w1] E. mstep E as [e w2] Ee.
  injection E as <- <-. injection H as Hr <-. set (vm := machine env n memory _) in *.
  pose proof (frame_create (O2 := VirtualDisk) (vm_key n) vm w) as Hf.
  unfold vm_key in Hf. rewrite Ee in Hf.
  eapply (create_grows (fun k vm => exists n, n ∈ nodes /\ k = vm_key n /\ asked_vm n vm)) in Ee as [Hg Hs];
    [|exists n; split; [done|]; split; [done|]; by exists key, memory].
  split; [split; [done|cbn in Hf; rewrite Hf; apply grows_refl]|].
  destruct e as [e|]; cbn in Hr; subst r; [done|]. split; [done|]. intros _. by apply Hs.
Qed.

Definition vm_prog : ClusterNode -> list (call W missing) :=
  createVM env home readFile ParseQuantity namespace storageClass.

(** The assertion of the goroutine of [n] after its first [i] calls. *)
Definition after_calls (n : ClusterNode) (i : nat) (s : missing) (w : W) : Prop :=
  match i with
  | 0%nat => True
  | 1%nat => no_disk s = false -> disk_there n w
  | 2%nat => disk_there n w
  | 3%nat => disk_there n w /\ (no_vm s = false -> vm_there n w)
  | _ => disk_there n w /\ vm_there n w
  end.

Definition vm_point (n : ClusterNode) (g : gor W missing) (w : W) : Prop :=
  n ∈ nodes /\
  match g with
  | Run s todo => exists i, (i <= 4)%nat /\ todo = drop i (vm_prog n) /\ after_calls n i s w
  | Over (Ok _) => disk_there n w /\ vm_there n w
  | _ => True
  end.

Lemma vm_point_adds n g w w' : adds w w' -> vm_point n g w -> vm_point n g w'.
Proof.
  intros Ha [Hn Hg]. destruct (there_adds n w w' Ha) as [Hd Hv]. split; [done|].
  destruct g as [s todo|e|[s|e]]; try done; [|destruct Hg; auto].
  destruct Hg as (i & Hi & Ht & Hc). exists i. split; [done|]. split; [done|].
  destruct i as [|[|[|[|i]]]]; cbn in *; naive_solver.
Qed.

Lemma vm_point_move n g w g' w' : vm_point n g w -> move g w = (Some g', w') -> adds w w' /\ vm_point n g' w'.
Proof.
  intros [Hn Hg] H. destruct g as [s todo|e|r].
  2, 3: injection H as <- <-; split; [by apply adds_same|done].
  destruct Hg as (i & Hi & -> & Hc). pose proof (fun v => there_adds n w v) as Hthere.
  destruct i as [|[|[|[|i]]]]; cbn [after_calls] in Hc.
  - apply (failing_move _ (disk_get namespace n)) in H as (r & H & Hr).
    apply disk_get_call in H as [Ha Hx]. split; [done|]. split; [done|].
    destruct r as [s'|e]; [subst g'; exists 1%nat; split; [lia|by split]|by destruct Hr as [e' ->]].
  - apply (failing_move _ (disk_create namespace storageClass n)) in H as (r & H & Hr).
    apply disk_create_call in H as [Ha Hx]; [|done]. split; [done|]. split; [done|].
    destruct r as [s'|e]; [subst g'|by destruct Hr as [e' ->]]. destruct Hx as [-> Hx]. exists 2%nat.
    split; [lia|]. split; [done|]. cbn. destruct (no_disk s); [by apply Hx|by apply (Hthere _ Ha), Hc].
  - apply (failing_move _ (vm_get namespace n)) in H as (r & H & Hr).
    apply vm_get_call in H as [Ha Hx]. split; [done|]. split; [done|].
    destruct r as [s'|e]; [subst g'|by destruct Hr as [e' ->]]. exists 3%nat.
    split; [lia|]. split; [done|]. split; [by apply (Hthere _ Ha)|done].
  - apply (failing_move _ (vm_create env home readFile ParseQuantity namespace n)) in H as (r & H & Hr).
    apply vm_create_call in H as [Ha Hx]; [|done]. split; [done|]. split; [done|].
    destruct r as [s'|e]; [subst g'|by destruct Hr as [e' ->]]. destruct Hx as [-> Hx], Hc as [Hd Hv].
    exists 4%nat. split; [lia|]. split; [done|]. split; [by apply (Hthere _ Ha)|].
    destruct (no_vm s); [by apply Hx|by apply (Hthere _ Ha), Hv].
  - assert (i = 0%nat) as -> by lia. injection H as <- <-. split; [by apply adds_same|]. done.
Qed.

Lemma nsref_inj a b : nsref namespace a = nsref namespace b -> a = b.
Proof. unfold nsref. intros H%str_app_inv_l. by injection H. Qed.

Lemma disk_name_inj a b : systemDiskName a = systemDiskName b -> a = b.
Proof. unfold systemDiskName. apply str_app_inv_r. Qed.

Lemma same_host n n' : NoDup (map Hostname nodes) -> n ∈ nodes -> n' ∈ nodes -> Hostname n = Hostname n' -> n = n'.
Proof.
  induction nodes as [|m l IH]; intros Hnd Hn Hn' He; [by apply elem_of_nil in Hn|].
  cbn in Hnd. apply NoDup_cons in Hnd as [Hnot Hnd].
  apply elem_of_cons in Hn as [->|Hn], Hn' as [->|Hn']; [done| | |by apply IH].
  - destruct Hnot. rewrite He. by apply list_elem_of_fmap_2.
  - destruct Hnot. rewrite -He. by apply list_elem_of_fmap_2.
Qed.

(** What is there of a node afterwards: an object that was there before, or the one asked for. *)
Definition provided (w w' : W) (n : ClusterNode) : Prop :=
  (exists vm, objs w' !! vm_key n = Some vm /\ (objs w !! vm_key n = Some vm \/ objs (O := VirtualMachine) w !! vm_key n = None /\ asked_vm n vm)) /\
  (exists vd, objs w' !! disk_key n = Some vd /\
     (objs w !! disk_key n = Some vd \/ objs (O := VirtualDisk) w !! disk_key n = None /\ asked_disk n vd)).

Lemma machines_stage sched w res w' :
  NoDup (map Hostname nodes) ->
  go_all sched (fun _ => mkMissing false false) vm_prog nodes w = (Some (Returns res), w') ->
  adds w w' /\ (first_sent res = None -> forall n, n ∈ nodes -> provided w w' n).
Proof.
  intros Hnd H. assert (Hndn : NoDup nodes) by (by eapply NoDup_fmap_1).
  apply (go_all_rule (adds w) vm_point) in H as (Ha & Hp & Hr).
  - split; [done|]. intros Hf n Hn. pose proof Hn as Hin. rewrite <- Hp in Hin.
    apply list_elem_of_fmap in Hin as ([m r] & Hm & Hin). cbn in Hm. subst m.
    destruct (first_sent_None _ Hf _ _ Hin) as [s ->]. destruct (Hr _ _ Hin) as [_ [[vd Hd] [vm Hv]]]. destruct Ha as [Ga Gd].
    split.
    + exists vm. split; [done|]. destruct (Ga (vm_key n)) as [E|(Hnone & o & Ho & m & Hmn & Hk & Hasked)]; [left; by rewrite -E|].
      right. split; [done|]. apply nsref_inj in Hk. assert (Hnm : n = m) by (by apply same_host). subst m. by simplify_eq.
    + exists vd. split; [done|]. destruct (Gd (disk_key n)) as [E|(Hnone & o & Ho & m & Hmn & Hk & Hasked)]; [left; by rewrite -E|].
      right. split; [done|]. apply nsref_inj, disk_name_inj in Hk. assert (Hnm : n = m) by (by apply same_host). subst m. by simplify_eq.
  - intros n g v g' v' HJ HA Hm. destruct (vm_point_move _ _ _ _ _ HA Hm) as [Ha HA']. split; [by eapply adds_trans|done].
  - intros x y gx gy v g' v' _ HJ Hx Hy Hm. destruct (vm_point_move _ _ _ _ _ Hy Hm) as [Ha _]. by eapply vm_point_adds.
  - done.
  - by apply adds_same.
  - intros n Hn. split; [done|]. exists 0%nat. split; [lia|]. by split.
Qed.
End Creation.

(** ** The class and the images

    What is about them changes no machine and no disk: [O] is one of these kinds. *)
Section Others.
Context {W O : Type} `{AE : ApiErrors, CX : Ctx W, SC : Scope W}.
Context `{CO : Client W O, CI : Client W ClusterVirtualImage, CK : Client W VirtualMachineClass}.
Context `{QO : !Quiet W O, SO : !ScopeLaws W O, FI : !Frame W ClusterVirtualImage O, FK : !Frame W VirtualMachineClass O}.
Context (env : Vars) (fuel : nat) (m : gmap string O).

Definition still (w : W) : Prop := objs (O := O) w = m.

Lemma still_frame {A} (c : M W A) : (forall w, objs (O := O) (c w).2 = objs w) -> maintains still c.
Proof. intros Hc w a w' HJ H. unfold still. specialize (Hc w). rewrite H in Hc. by rewrite Hc. Qed.

Lemma still_timeout {A} d (c : M W A) : maintains still c -> maintains still (withTimeout d c).
Proof.
  intros Hc w a w' HJ H. apply withTimeout_inv in H as (w1 & H & ->). unfold still. rewrite leave_objs.
  eapply Hc; [|exact H]. unfold still. by rewrite enter_objs.
Qed.

Lemma still_ctx : maintains still ctxErr.
Proof. apply still_frame, quiet_ctx. Qed.
Lemma still_timer z : maintains still (timerFires z).
Proof. apply still_frame, quiet_timer. Qed.
Lemma still_get {K} `{OK : Client W K, FO : !Frame W K O} kind ref : maintains still (kind_Get (O := K) kind ref).
Proof. apply bind_stays; [apply still_frame, frame_get|intros; apply ret_stays]. Qed.
Lemma still_create {K} `{OK : Client W K, FO : !Frame W K O} kind ref (o : K) : maintains still (kind_Create kind ref o).
Proof. apply bind_stays; [apply still_frame, frame_create|intros; apply ret_stays]. Qed.
Lemma still_list {K} `{OK : Client W K, FO : !Frame W K O} what ns : maintains still (kind_List (O := K) what ns).
Proof. apply bind_stays; [apply still_frame, frame_list|intros; apply ret_stays]. Qed.
#[local] Hint Resolve still_ctx still_timer still_get still_create : stays.
#[local] Hint Extern 1 (maintains still (VirtualMachineClasses_Get _)) => apply still_get : stays.
#[local] Hint Extern 1 (maintains still (VirtualMachineClasses_Create _ _)) => apply still_create : stays.
#[local] Hint Extern 1 (maintains still (ClusterVirtualImages_Get _)) => apply still_get : stays.
#[local] Hint Extern 1 (maintains still (ClusterVirtualImages_Create _ _)) => apply still_create : stays.
Ltac stays := stays_with ltac:(idtac; fail).

Lemma class_ready_still name : maintains still (waitForVirtualMachineClassReady fuel name).
Proof. apply still_timeout. unfold class_round. stays. Qed.
#[local] Hint Resolve class_ready_still : stays.

Lemma class_still : maintains still (ensureVirtualMachineClassForClusterVMs env fuel).
Proof. unfold ensureVirtualMachineClassForClusterVMs. stays. Qed.

Lemma cvi_call_still c cvmiName imageURL s :
  c ∈ createCVI env fuel cvmiName imageURL -> maintains still (c s).
Proof.
  intros Hc. apply list_elem_of_fmap in Hc as (c0 & -> & Hc). apply bind_stays; [|intros; apply ret_stays].
  repeat (apply elem_of_cons in Hc as [->|Hc]); [..|by apply elem_of_nil in Hc].
  - unfold cvi_get. stays.
  - unfold cvi_create. destruct s; stays.
  - unfold cvi_again. destruct s; stays.
  - unfold cvi_wait. apply bind_stays; [|intros; apply ret_stays]. apply still_timeout.
    unfold waitForClusterVirtualImageReady, image_round. stays.
Qed.

Lemma images_still sched nodes :
  maintains still (go_all sched (fun _ => CviThere)
    (fun n => createCVI env fuel (image_of n) (ImageURL (OS n))) nodes).
Proof.
  intros w r w' HJ H. eapply (go_all_preserves still (fun _ => True)); [|done|exact HJ|exact H].
  intros n c s v rv v' _ Hc Hv _ Hx. split; [exact (cvi_call_still _ _ _ s Hc _ _ _ Hv Hx)|]. by destruct rv as [[?|?]|].
Qed.

Lemma images_there_still names : maintains still (images_there names).
Proof. induction names; cbn [images_there]; stays. Qed.
End Others.

(** ** The whole creation *)
Section Whole.
Context {W : Type} `{AE : ApiErrors, CX : Ctx W, SC : Scope W}.
Context `{CV : Client W VirtualMachine, CD : Client W VirtualDisk}.
Context `{CI : Client W ClusterVirtualImage, CK : Client W VirtualMachineClass}.
Context `{VL : !ClientLaws W VirtualMachine, DLs : !ClientLaws W VirtualDisk}.
Context `{F1 : !Frame W VirtualMachine VirtualDisk, F3 : !Frame W VirtualDisk VirtualMachine}.
Context `{VQ : !Quiet W VirtualMachine, DQ : !Quiet W VirtualDisk, VS : !ScopeLaws W VirtualMachine, DS : !ScopeLaws W VirtualDisk}.
Context `{F5 : !Frame W ClusterVirtualImage VirtualMachine, F6 : !Frame W ClusterVirtualImage VirtualDisk}.
Context `{F7 : !Frame W VirtualMachineClass VirtualMachine, F8 : !Frame W VirtualMachineClass VirtualDisk}.
Context (env : Vars) (now : M W Z) (home : result string) (readFile : string -> result string).
Context (ParseQuantity : string -> result Z) (order : list string -> list string) (sched : nat -> list nat).
Context (fuel : nat).
(** Reading the clock changes nothing. *)
Hypothesis now_reads : forall w, objs (O := VirtualMachine) (now w).2 = objs w /\ objs (O := VirtualDisk) (now w).2 = objs w.

Local Notation ns := (TestClusterNamespace env).
Local Notation CreateVirtualMachines := (CreateVirtualMachines env now home readFile ParseQuantity order sched fuel).
Local Notation provided := (provided env home readFile ParseQuantity ns (TestClusterStorageClass env)).
Local Notation adds := (adds env home readFile ParseQuantity ns (TestClusterStorageClass env)).

(** A key of the namespace is in the list when the object exists. *)
Lemma taken_none {O} `{OC : Client W O, OL : !ClientLaws W O} what (names : list string) w l w' :
  kind_List (O := O) what ns w = (Ok l, w') -> taken ns l names = [] ->
  objs (O := O) w' = objs w /\ forall n, n ∈ names -> objs (O := O) w !! nsref ns n = None.
Proof.
  intros H Ht. unfold kind_List in H. mstep H as [r w1] E. destruct r as [l0|e]; [|done]. injection H as <- <-.
  apply list_ok in E as [Hp Ho]. split; [done|]. intros n Hn.
  destruct (objs w !! nsref ns n) as [o|] eqn:Hk; [|done]. exfalso.
  assert (Hin : n ∈ taken ns (in_namespace ns l0) names); [|rewrite Ht in Hin; by apply elem_of_nil in Hin].
  unfold taken. apply list_elem_of_In, filter_In. split; [by apply list_elem_of_In|].
  apply existsb_exists. exists (nsref ns n, o). split; [|apply String.eqb_refl]. apply list_elem_of_In.
  assert (Hl : (nsref ns n, o) ∈ l0) by (rewrite Hp; by apply elem_of_map_to_list).
  unfold in_namespace. destruct (String.eqb ns ""); [done|]. apply list_elem_of_In, filter_In.
  split; [by apply list_elem_of_In|]. apply HasPrefix_spec. exists n. unfold nsref. cbn. by rewrite -str_app_assoc.
Qed.

Definition free (w : W) (n : ClusterNode) : Prop :=
  objs (O := VirtualMachine) w !! vm_key ns n = None /\ objs (O := VirtualDisk) w !! disk_key ns n = None.

Lemma no_conflicts vmNodes w c w' :
  checkResourceConflicts env order ns vmNodes w = (Ok c, w') -> conflict_messages c = [] ->
  (forall n, n ∈ vmNodes -> free w n) /\
  objs (O := VirtualMachine) w' = objs w /\ objs (O := VirtualDisk) w' = objs w.
Proof.
  intros H Hc. unfold checkResourceConflicts in H. mstep H as [vms w1] E1. destruct vms as [vms|e]; [|done].
  mstep H as [vds w2] E2. destruct vds as [vds|e]; [|done]. mstep H as [images w3] E3.
  destruct images as [images|e]; [|done]. injection H as <- <-.
  unfold conflict_messages in Hc. cbn [cf_VMs cf_Disks cf_Images] in Hc.
  destruct (taken ns vms _) eqn:T1; [|done]. destruct (taken ns vds _) eqn:T2; [|done].
  pose proof (still_list (objs (O := VirtualDisk) w) _ _ _ _ _ eq_refl E1) as Hf. unfold still in Hf.
  destruct (taken_none _ _ _ _ _ E1 T1) as [Hv H1]. destruct (taken_none _ _ _ _ _ E2 T2) as [Hd H2]. rewrite Hf in Hd, H2.
  assert (Hi : forall O (OC : Client W O) (FI : Frame W ClusterVirtualImage O), objs (O := O) w3 = objs w2).
  { intros O OC FI. destruct (String.eqb _ _); [|by injection E3 as _ <-].
    exact (images_there_still (objs w2) _ _ _ _ eq_refl E3). }
  split; [|split; rewrite Hi; [|done]].
  - intros n Hn. split; [apply H1; by apply list_elem_of_fmap_2|].
    apply H2. by apply (list_elem_of_fmap_2 (fun n => systemDiskName (Hostname n))).
  - pose proof (still_list (objs (O := VirtualMachine) w1) _ _ _ _ _ eq_refl E2) as Hf2. unfold still in Hf2. by rewrite Hf2.
Qed.

(** The stages of a creation that succeeds: up to the creation of the machines, nothing happens
    to machines and disks, and those to be created are not there. *)
Lemma CreateVirtualMachines_inv def names res w w' :
  CreateVirtualMachines def w = (Some (Returns (Ok (names, res))), w') ->
  let t := (now w).1 in let vmNodes := getVMNodes def ++ [setup_vm t] in
  names = map Hostname vmNodes /\ vr_VMNames res = names /\ vr_SetupVMName res = Hostname (setup_vm t) /\
  (forall n, n ∈ vmNodes -> free w n) /\
  exists w2 mres, objs (O := VirtualMachine) w2 = objs w /\ objs (O := VirtualDisk) w2 = objs w /\
    go_all (sched 1%nat) (fun _ => mkMissing false false)
      (createVM env home readFile ParseQuantity ns (TestClusterStorageClass env)) vmNodes w2 = (Some (Returns mres), w') /\
    first_sent mres = None.
Proof.
  intros H t. unfold LegacyVms.CreateVirtualMachines in H. destruct (getVMNodes def) as [|n0 l] eqn:Hl; [done|].
  rewrite -Hl in H |- *. mstep H as [t0 w0] E0. subst t. cbn [fst].
  set (vmNodes := getVMNodes def ++ [setup_vm t0]) in *.
  destruct (now_reads w) as [N1 N2]. rewrite E0 in N1, N2. cbn in N1, N2.
  mstep H as [c w2] E2. destruct c as [c|e]; [|done]. destruct (conflict_messages c) eqn:Hc; [|done].
  destruct (no_conflicts _ _ _ _ E2 Hc) as (Hfree & V2 & D2). rewrite N1 in V2. rewrite N2 in D2.
  mstep H as [cls w3] E3. destruct cls as [[e|]|]; [done| |done].
  unfold create_images in H. mstep H as [r w4] E4. destruct r as [[ires|]|]; [|done..].
  destruct (existsb starved ires); [done|]. destruct (first_sent ires); [done|].
  unfold create_machines in H. mstep H as [r w5] E5. destruct r as [[mres|]|]; [|done..]. injection H as H <-.
  destruct (first_sent mres) eqn:Hf; [done|]. injection H as <- <-. do 3 (split; [done|]).
  split; [intros n Hn; destruct (Hfree n Hn); split; by rewrite -?N1 -?N2|]. exists w4, mres.
  split; [|split; [|done]].
  - exact (images_still _ _ _ _ _ _ _ _ (class_still _ _ _ _ _ _ V2 E3) E4).
  - exact (images_still _ _ _ _ _ _ _ _ (class_still _ _ _ _ _ _ D2 E3) E4).
Qed.

(** What is there of a node afterwards. *)
Definition created (w' : W) (n : ClusterNode) : Prop :=
  (exists vm, objs w' !! vm_key ns n = Some vm /\ asked_vm env home readFile ParseQuantity n vm) /\
  objs w' !! disk_key ns n = Some (system_disk (image_of n) (TestClusterStorageClass env) n).

Lemma CreateVirtualMachines_created def names res w w' :
  let vmNodes := getVMNodes def ++ [setup_vm (now w).1] in
  NoDup (map Hostname vmNodes) -> CreateVirtualMachines def w = (Some (Returns (Ok (names, res))), w') ->
  (forall n, n ∈ vmNodes -> free w n /\ created w' n) /\ adds vmNodes w w'.
Proof.
  intros vmNodes Hnd H. apply CreateVirtualMachines_inv in H as (_ & _ & _ & Hfree & w2 & mres & Hv & Hd & Hg & Hf).
  apply machines_stage in Hg as [Ha Hp]; [|done]. unfold LegacyVmsSafety.adds in *. rewrite Hv Hd in Ha. split; [|exact Ha].
  intros n Hn. split; [by apply Hfree|]. destruct (Hfree n Hn) as [F V].
  destruct (Hp Hf n Hn) as [(vm & Evm & Cvm) (vd & Evd & Cvd)]. rewrite Hv F in Cvm. rewrite Hd V in Cvd.
  split; [exists vm; split; [done|]; by destruct Cvm as [|[_ ?]]|].
  destruct Cvd as [|[_ Ck]]; [done|]. rewrite Evd. by rewrite Ck.
Qed.


Lemma setup_name_no_prefix t : 0 < t -> HasPrefix (Hostname (setup_vm t)) "bootstrap-node-" = false.
Proof.
  intros Ht. destruct (HasPrefix _ _) eqn:H; [|done]. exfalso. apply HasPrefix_spec in H as [d H].
  change (Hostname (setup_vm t)) with ("bootstrap-node" +:+ pretty t) in H.
  change ("bootstrap-node-" +:+ d) with ("bootstrap-node" +:+ String "-" d) in H. apply str_app_inv_l in H.
  pose proof (pretty_digits t Ht) as Hd. rewrite H in Hd. done.
Qed.

(** The setup machine that is created has no Docker: its name lacks the hyphen the choice of the
    user data looks for, so it gets those of a node of the cluster. *)
Theorem setup_vm_without_docker def names res w w' :
  NoDup (map Hostname (getVMNodes def ++ [setup_vm (now w).1])) -> 0 < (now w).1 ->
  CreateVirtualMachines def w = (Some (Returns (Ok (names, res))), w') ->
  exists vm key, objs w' !! nsref ns (vr_SetupVMName res) = Some vm /\ GetSSHPublicKeyContent home readFile env = Ok key /\
    UserData vm = generateCloudInitUserData (vr_SetupVMName res) key.
Proof.
  intros Hnd Ht H. pose proof (CreateVirtualMachines_created _ _ _ _ _ Hnd H) as [Hn _].
  apply CreateVirtualMachines_inv in H as (_ & _ & Hs & _). rewrite Hs.
  destruct (Hn (setup_vm (now w).1)) as [_ [(vm & Hv & key & memory & Hk & _ & ->) _]]; [apply elem_of_app; right; by left|].
  exists (machine env (setup_vm (now w).1) memory (user_data (Hostname (setup_vm (now w).1)) key)), key.
  split; [done|]. split; [done|]. cbn [UserData machine]. unfold user_data. by rewrite setup_name_no_prefix.
Qed.
End Whole.

(** ** Addresses *)
Section Addresses.
Context {W : Type} `{AE : ApiErrors, CV : Client W VirtualMachine, VL : !ClientLaws W VirtualMachine}.
Context (arrival : list target -> list target) (arrival_perm : forall l, arrival l ≡ₚ l) (namespace : string).

(** The address of a machine that has one. *)
Definition address (w : W) (hostname ip : string) : Prop :=
  exists vm, objs w !! nsref namespace hostname = Some vm /\ vmIPAddress vm = ip /\ ip <> "".

Lemma GetVMIPAddress_ok name w r w' :
  GetVMIPAddress namespace name w = (r, w') ->
  objs (O := VirtualMachine) w' = objs w /\ match r with Ok ip => address w name ip | Err _ => True end.
Proof.
  intros H. unfold GetVMIPAddress, VirtualMachines_Get, kind_Get in H. mstep H as [x w1] E. mstep E as [g w2] Eg.
  injection E as <- <-. injection H as <- <-. split; [by eapply get_same|]. destruct g as [vm|e]; cbn; [|done].
  destruct (String.eqb_spec (vmIPAddress vm) ""); [done|]. apply get_ok in Eg as [Hk _]. by exists vm.
Qed.

Lemma offers_ok l w res w' :
  offers namespace l w = (res, w') ->
  map fst res = l /\ forall t ip, (t, Ok ip) ∈ res -> address w t.2 ip.
Proof.
  revert w res. induction l as [|t l IH]; intros w res H; cbn [offers] in H.
  { injection H as <- <-. split; [done|]. intros t ip Hx. by apply elem_of_nil in Hx. }
  mstep H as [r w1] E1. mstep H as [rest w2] E2. injection H as <- <-.
  apply GetVMIPAddress_ok in E1 as [Ho Hr]. apply IH in E2 as [Hm Hall]. split; [cbn; by f_equal|].
  intros t' ip [[= -> <-]|Hx]%elem_of_cons; [done|]. destruct (Hall _ _ Hx) as (vm & Hv & Hip). exists vm. by rewrite -Ho.
Qed.

(** All results of a success carry an address. *)
Lemma receive_all_ok l def s def' s' :
  receive def s l = (def', s', None) -> forall t r, (t, r) ∈ l -> exists ip, r = Ok ip.
Proof.
  revert def s. induction l as [|[[[ptr|] h] [ip|e]] l IH]; intros def s H t r Hin; try (by apply elem_of_nil in Hin);
    try done; apply elem_of_cons in Hin as [[= -> ->]|Hin]; eauto.
Qed.

Definition received (l : list (target * result string)) : list nodePtr := omap (fun p => p.1.1) l.

Lemma receive_nodes (g : nodePtr -> string) l def s def' s' :
  (forall ptr h r, ((Some ptr, h), r) ∈ l -> r = Ok (g ptr)) ->
  receive def s l = (def', s', None) -> forall ptr,
    node_at def' ptr = if decide (ptr ∈ received l) then set_ip (g ptr) <$> node_at def ptr else node_at def ptr.
Proof.
  revert def s. induction l as [|[[[q|] h] [ip|e]] l IH]; intros def s Hg H ptr; cbn [receive] in H; [by injection H as <- <-|..]; try done.
  - rewrite (IH _ _ (fun p h r Hin => Hg p h r (list_elem_of_further _ _ _ Hin)) H ptr) !node_at_assign.
    assert (Hq : ip = g q) by (specialize (Hg q h (Ok ip) (list_elem_of_here _ _)); by injection Hg as ->).
    unfold received. cbn [omap list_omap fst]. fold (received l).
    destruct (decide (ptr = q)) as [->|Hne].
    + rewrite (decide_True (P := q ∈ q :: received l)); [by left|]. subst ip.
      case_decide; [|done]. by destruct (node_at def q) as [[]|].
    + destruct (decide (ptr ∈ received l)) as [Hin|Hnot].
      * rewrite decide_True; [by right|done].
      * rewrite decide_False; [by intros [?|?]%elem_of_cons|done].
  - by rewrite (IH _ _ (fun p h r Hin => Hg p h r (list_elem_of_further _ _ _ Hin)) H ptr).
Qed.

Lemma receive_setup ip l def s def' s' :
  (forall h r, ((None, h), r) ∈ l -> r = Ok ip) -> s = ip \/ (exists h r, ((None, h), r) ∈ l) ->
  receive def s l = (def', s', None) -> s' = ip.
Proof.
  revert def s. induction l as [|[[[q|] h] [x|e]] l IH]; intros def s Hg Hs H; cbn [receive] in H; try done.
  - injection H as _ <-. destruct Hs as [?|(h & r & Hx)]; [done|]. by apply elem_of_nil in Hx.
  - eapply IH; [|..|exact H]; [intros h0 r Hin; apply (Hg h0); by right|]. destruct Hs as [?|(h0 & r & Hx)]; [by left|].
    right. apply elem_of_cons in Hx as [[=]|Hx]. eauto.
  - eapply IH; [|..|exact H]; [intros h0 r Hin; apply (Hg h0); by right|]. left.
    specialize (Hg h (Ok x) (list_elem_of_here _ _)). by injection Hg.
Qed.

Lemma elem_of_pointers C l t :
  t ∈ pointers C l <-> exists i n, l !! i = Some n /\ is_vm n = true /\ t = (Some (C i), Hostname n).
Proof.
  unfold pointers. revert C. induction l as [|x l IH]; intros C; cbn [imap concat].
  { split; [intros H; by apply elem_of_nil in H|]. by intros (i & n & H & _). }
  rewrite elem_of_app (IH (C ∘ S)). split.
  - intros [H|(i & n & Hi & H)]; [|by exists (S i), n]. exists 0%nat, x. destruct (is_vm x); [|by apply elem_of_nil in H].
    by apply list_elem_of_singleton in H.
  - intros ([|i] & n & Hi & Hv & ->); cbn in Hi; [injection Hi as ->; left; rewrite Hv; by left|right; eauto].
Qed.

(** The targets are the nodes that are machines, and the setup machine. *)
Lemma elem_of_targets def setupVMName skip ptr h :
  (Some ptr, h) ∈ targets def setupVMName skip <->
  ptr <> PSetup /\ exists n, node_at def ptr = Some n /\ Host n = HostTypeVM /\ h = Hostname n.
Proof.
  unfold targets. rewrite !elem_of_app !elem_of_pointers. unfold is_vm. setoid_rewrite bool_decide_eq_true. split.
  - intros [(i & n & Hi & Hv & [= -> ->])|[(i & n & Hi & Hv & [= -> ->])|H]].
    1, 2: split; [done|]; by exists n.
    destruct (_ && _); [by apply list_elem_of_singleton in H|by apply elem_of_nil in H].
  - intros (Hp & n & Hn & Hv & ->). destruct ptr as [i|i|]; [left|right; left|done]; by exists i, n.
Qed.

Lemma setup_target def setupVMName skip h :
  (None, h) ∈ targets def setupVMName skip <-> skip = false /\ setupVMName <> "" /\ h = setupVMName.
Proof.
  unfold targets. rewrite !elem_of_app !elem_of_pointers. split.
  - intros [(i & n & _ & _ & [=])|[(i & n & _ & _ & [=])|H]]. destruct skip; [by apply elem_of_nil in H|].
    cbn in H. destruct (String.eqb_spec setupVMName ""); [by apply elem_of_nil in H|].
    apply list_elem_of_singleton in H as [= ->]. done.
  - intros (-> & Hn & ->). right. right. cbn. destruct (String.eqb_spec setupVMName ""); [done|]. by left.
Qed.

(** [GatherVMInfo] succeeds only when every machine has an address; then the nodes carry the
    addresses of their machines, those that are no machines stay as they are, and the setup node
    is the setup machine. The order in which the results arrive does not matter. *)
Theorem GatherVMInfo_spec def setupVMName skip w def' blocked w' :
  GatherVMInfo arrival namespace def setupVMName skip w = ((None, def', blocked), w') ->
  blocked = 0%nat /\
  (forall ptr n, ptr <> PSetup -> node_at def ptr = Some n ->
     (Host n = HostTypeVM -> exists ip, address w (Hostname n) ip /\ node_at def' ptr = Some (set_ip ip n)) /\
     (Host n = HostTypeBareMetal -> node_at def' ptr = Some n)) /\
  (skip = true -> Setup def' = Setup def) /\
  (skip = false -> setupVMName <> "" -> exists ip, address w setupVMName ip /\
     Setup def' = Some (set_ip ip (with_hostname setupVMName (default DefaultSetupVM (Setup def))))).
Proof.
  intros H. unfold GatherVMInfo in H. mstep H as [res w1] E. injection H as H <-.
  apply offers_ok in E as [Hm Hall].
  destruct (receive def "" res) as [[def1 s1] [[e b]|]] eqn:Hr; [done|].
  pose proof (receive_all_ok _ _ _ _ _ Hr) as Hok.
  assert (Hin : forall t r, (t, r) ∈ res -> t ∈ targets def setupVMName skip).
  { intros t r Hx. rewrite -(arrival_perm (targets def setupVMName skip)) -Hm. by apply (list_elem_of_fmap_2 fst _ _ Hx). }
  assert (Hhas : forall t, t ∈ targets def setupVMName skip -> exists ip, (t, Ok ip) ∈ res).
  { intros t Ht. rewrite -(arrival_perm (targets def setupVMName skip)) -Hm in Ht.
    apply list_elem_of_fmap in Ht as ([t0 r] & -> & Hx). destruct (Hok _ _ Hx) as [ip ->]. by exists ip. }
  assert (Huniq : forall h ip ip', address w h ip -> address w h ip' -> ip = ip').
  { intros h ip ip' (vm & H1 & <- & _) (vm' & H2 & <- & _). congruence. }
  set (g := fun ptr => match node_at def ptr with
              | Some n => match objs w !! nsref namespace (Hostname n) with Some vm => vmIPAddress vm | None => "" end
              | None => "" end).
  assert (Hg : forall ptr h r, ((Some ptr, h), r) ∈ res -> r = Ok (g ptr)).
  { intros ptr h r Hx. destruct (Hok _ _ Hx) as [ip ->]. destruct (Hall _ _ Hx) as (vm & Hv & <- & _).
    apply Hin, elem_of_targets in Hx as (_ & n & Hn & _ & ->). unfold g. by rewrite Hn Hv. }
  pose proof (receive_nodes g _ _ _ _ _ Hg Hr) as Hnodes.
  assert (Hptr : forall ptr, ptr ∈ received res <-> ptr <> PSetup /\ exists n, node_at def ptr = Some n /\ Host n = HostTypeVM).
  { intros ptr. unfold received. rewrite list_elem_of_omap. split.
    - intros ([[o h] r] & Hx & Ho). cbn in Ho. subst o. apply Hin, elem_of_targets in Hx as (Hp & n & Hn & Hv & _). eauto.
    - intros (Hp & n & Hn & Hv). destruct (Hhas (Some ptr, Hostname n)) as [ip Hx]; [apply elem_of_targets; eauto|].
      by exists ((Some ptr, Hostname n), Ok ip). }
  assert (Hdef : blocked = 0%nat /\ (forall ptr, ptr <> PSetup -> node_at def' ptr = node_at def1 ptr) /\
    Setup def' = if skip then Setup def1 else Some (set_ip s1 (with_hostname setupVMName (default DefaultSetupVM (Setup def1))))).
  { destruct skip; injection H as <- <-; [done|]. split; [done|]. split; [|done]. by intros [i|i|]. }
  destruct Hdef as (-> & Hdef & Hsetup). split; [done|].
  assert (Hs1 : Setup def1 = Setup def).
  { specialize (Hnodes PSetup). rewrite decide_False in Hnodes; [by intros [? _]%Hptr|done]. }
  split; [|split; [by intros ->; rewrite Hsetup|]].
  - intros ptr n Hp Hn. rewrite Hdef // Hnodes. split; intros Hv.
    + rewrite decide_True; [apply Hptr; eauto|]. rewrite Hn. exists (g ptr). split; [|done].
      destruct (Hhas (Some ptr, Hostname n)) as [ip Hx]; [apply elem_of_targets; eauto|].
      pose proof (Hg _ _ _ Hx) as [= <-]. by apply Hall in Hx.
    + rewrite decide_False; [|done]. intros (_ & m & Hm' & Hv')%Hptr. congruence.
  - intros -> Hne. destruct (Hhas (None, setupVMName)) as [ip Hx]; [by apply setup_target|]. exists ip.
    pose proof (Hall _ _ Hx) as Ha. split; [done|]. rewrite Hsetup Hs1. do 2 f_equal.
    eapply receive_setup; [|right; by eexists _, _|exact Hr]. intros h r Hy. destruct (Hok _ _ Hy) as [ip' ->].
    f_equal. pose proof (Hall _ _ Hy) as Hb. apply Hin, setup_target in Hy as (_ & _ & ->). by eapply Huniq.
Qed.
End Addresses.

(** ** Runs on the server in memory *)

Definition old_env : Vars :=
  mkVars "" "tfadm" "" "ssh-ed25519 AAAA" "192.0.2.1" "" "alwaysCreateNew" "" "e2e" "linstor" "generic" "license" "cfg"
    "IfNotExists" "" "" "" "" "" "" "" "" "".

Definition vm_object (disks : list string) (ip : string) : VirtualMachine :=
  mkVM ∅ "generic" true "AlwaysOn" "Generic" "BIOS" "PreferSafe" 2 "100%" 4 disks "" "Running" ip.
Definition vd_object (image : string) : VirtualDisk := mkVD ∅ None None (Some image) "Ready" "".

Definition hypervisor (vms : gmap string VirtualMachine) (vds : gmap string VirtualDisk)
    (images : gmap string ClusterVirtualImage) (faults : list (option string)) : baseWorld :=
  (((mkWorld (mkMem vms []) 9 false, mkWorld (mkMem vds faults) 0 false), mkWorld (mkMem images []) 0 false),
   mkWorld (mkMem {["generic" := mkClass ∅ (mkClassSpec "Host" [] [] []) "Ready"]} []) 0 false).

(** Two machines on disks of one image. *)
Definition two_nodes (faults : list (option string)) : baseWorld :=
  hypervisor {["e2e/node-1" := vm_object ["node-1-system"] "10.0.0.1"; "e2e/node-2" := vm_object ["node-2-system"] ""]}
    {["e2e/node-1-system" := vd_object "jammy"; "e2e/node-2-system" := vd_object "jammy"]}
    {["jammy" := mkCVI ∅ "https://host/jammy.img" "Ready"]} faults.


(** The image another disk is made of stays, unless the disks cannot be listed. *)
Example RemoveVM_keeps_used_image :
  let '(r, w') := RemoveVM (fun l => l) 10 "e2e" "node-1" (two_nodes []) in
  r = Some None /\ is_Some (objs (O := ClusterVirtualImage) w' !! "jammy").
Proof. vm_compute. split; [done|by eexists]. Qed.

Example failed_list_deletes_used_image :
  let '(r, w') := RemoveVM (fun l => l) 10 "e2e" "node-1" (two_nodes [None; None; None; Some "connection reset by peer"]) in
  r = Some None /\ objs (O := ClusterVirtualImage) w' !! "jammy" = None /\
  objs w' !! "e2e/node-2-system" = Some (vd_object "jammy").
Proof. vm_compute. done. Qed.

Definition one_node : ClusterDefinition :=
  mkDef [mkNode "node-1" "" (mkOSType "" "https://host/jammy.img" "") HostTypeVM None 2 None 4 20 false] []
    None (mkDKP "" "" "" "" "" "" []).

Definition images_ready : gmap string ClusterVirtualImage :=
  {["jammy" := mkCVI ∅ "https://host/jammy.img" "Ready"; image_of (setup_vm 1) := mkCVI ∅ "" "Ready"]}.

Definition create_one : baseWorld -> creation * baseWorld :=
  CreateVirtualMachines old_env (mret 1700000000) (Err (Errorf "no home")) (fun _ => Err (Errorf "no file"))
    (fun _ => Ok 4) (fun l => l) (fun _ => []) 10 one_node.

Lemma one_node_names t : NoDup (map Hostname (getVMNodes one_node ++ [setup_vm t])).
Proof.
  apply NoDup_cons. split; [|apply NoDup_singleton]. intros H%list_elem_of_singleton. discriminate H.
Qed.

Lemma clock_reads t (w : baseWorld) :
  objs (O := VirtualMachine) (mret (M := M baseWorld) t w : Z * baseWorld).2 = objs w /\
  objs (O := VirtualDisk) (mret (M := M baseWorld) t w : Z * baseWorld).2 = objs w.
Proof. done. Qed.


Lemma setup_vm_without_docker_witness :
  exists names res (w' : baseWorld) vm key, create_one (hypervisor ∅ ∅ images_ready []) = (Some (Returns (Ok (names, res))), w') /\
    objs w' !! nsref "e2e" (vr_SetupVMName res) = Some vm /\ UserData vm = generateCloudInitUserData (vr_SetupVMName res) key.
Proof.
  destruct (create_one (hypervisor ∅ ∅ images_ready [])) as [r w'] eqn:E.
  destruct r as [[[[names res]|e]|]|]; [|vm_compute in E; done..]. exists names, res, w'.
  destruct (setup_vm_without_docker (W := baseWorld) old_env (mret 1700000000) (Err (Errorf "no home"))
    (fun _ => Err (Errorf "no file")) (fun _ => Ok 4) (fun l => l) (fun _ => []) 10 (clock_reads 1700000000)
    one_node names res _ w' (one_node_names _) ltac:(done) E) as (vm & key & Hv & _ & Hk).
  exists vm, key. split; [done|]. by split.
Defined.

(** The user data that are chosen mention Docker nowhere. *)
Example setup_vm_user_data :
  Contains (user_data (Hostname (setup_vm 1700000000)) "ssh-ed25519 AAAA") "docker" = false /\
  Contains (generateSetupNodeCloudInit (Hostname (setup_vm 1700000000)) "ssh-ed25519 AAAA") "docker" = true.
Proof. vm_compute. done. Qed.

(** Two nodes of one image under IMAGE_PULL_POLICY=Always: whether it works is up to the schedule. *)
Definition always_env : Vars :=
  mkVars "" "tfadm" "" "ssh-ed25519 AAAA" "192.0.2.1" "" "alwaysCreateNew" "" "e2e" "linstor" "generic" "license" "cfg"
    "Always" "" "" "" "" "" "" "" "" "".

Definition race (sched : list nat) : option error :=
  let '(r, _) := go_all sched (fun _ => CviThere)
      (fun _ : nat => take 3 (createCVI (W := baseWorld) always_env 10 "jammy" "https://host/jammy.img")) [1%nat; 2%nat]
      (hypervisor ∅ ∅ ∅ []) in
  match r with Some (Returns res) => first_sent res | _ => None end.

Example always_policy_race : race [0; 1; 0; 1; 0; 1]%nat = None /\ is_Some (race [0; 0; 0; 0; 0]%nat).
Proof. vm_compute. split; [done|by eexists]. Qed.

(** Images of different systems share a name when their files do, and characters that no name may
    have are kept. *)
Example image_names :
  getCVMINameFromImageURL "https://host/jammy/server-cloudimg.img" = getCVMINameFromImageURL "https://host/noble/server-cloudimg.img" /\
  getCVMINameFromImageURL "https://host/alse%20base+x.qcow2" = "alse%20base+x".
Proof. vm_compute. done. Qed.

(** A public key whose text has a slash is taken for a path. *)
Lemma key_with_slash home readFile v :
  Contains (SSHPublicKey v) "/" = true -> HasPrefix (SSHPublicKey v) "~" = false ->
  GetSSHPublicKeyContent home readFile v =
    match readFile (SSHPublicKey v) with
    | Err e => Err (ErrorfW ("failed to read public key file " +:+ SSHPublicKey v +:+ ": ") e "")
    | Ok content => Ok (TrimSpace content)
    end.
Proof.
  intros Hc Hp. unfold GetSSHPublicKeyContent, expandPath. rewrite Hc Hp. cbn [orb negb].
  destruct (String.eqb_spec (SSHPublicKey v) "") as [He|]; [by rewrite He in Hc|done].
Qed.

Definition two_node_def : ClusterDefinition :=
  mkDef (Masters one_node) [mkNode "node-2" "" (mkOSType "" "https://host/jammy.img" "") HostTypeVM None 2 None 4 20 false]
    None (mkDKP "" "" "" "" "" "" []).

Lemma GatherVMInfo_spec_witness :
  exists def' w', GatherVMInfo (@reverse target) "e2e" one_node "" false (two_nodes []) = ((None, def', 0%nat), w') /\
    node_at def' (PMaster 0) = Some (set_ip "10.0.0.1" (hd DefaultSetupVM (Masters one_node))).
Proof.
  destruct (GatherVMInfo (@reverse target) "e2e" one_node "" false (two_nodes [])) as [[[e def'] b] w'] eqn:E.
  destruct e as [e|]; [vm_compute in E; done|].
  destruct (GatherVMInfo_spec (W := baseWorld) (@reverse target) (fun l => reverse_Permutation l) "e2e" one_node "" false
    (two_nodes []) def' b w' E) as (-> & Hn & _).
  exists def', w'. split; [reflexivity|].
  destruct (proj1 (Hn (PMaster 0) _ ltac:(done) eq_refl) eq_refl) as (ip & (vm & Hvm & <- & _) & ->).
  vm_compute in Hvm. by injection Hvm as <-.
Defined.

(** The machine without an address is reported first: the goroutine of the other one and the one
    that would close the channel wait forever. *)
Example GatherVMInfo_leaks :
  let '(e, _, blocked, _) := GatherVMInfo (@reverse target) "e2e" two_node_def "" false (two_nodes []) in
  is_Some e /\ blocked = 2%nat.
Proof. vm_compute. split; [by eexists|done]. Qed.
