(* ===== verification/KitStorage.v ===== *)
(** Storage classes and volume groups of the test kit: [src/pkg/kubernetes/storageclass.go],
    [localstorageclass.go], [lvmvolumegroup.go], [volumesnapshotclass.go] and
    [src/internal/kubernetes/storage/lvmvolumegroup.go]. *)
From S2P Require Import Prelude Errors Retry Config Kube Kit Deckhouse KitPods.

Local Open Scope Z_scope.
Local Open Scope go_scope.

(** ** LVM volume groups *)

Record ThinPoolSpec := mkThinPool { tpName : string; tpSize : string; tpAllocationLimit : string }.

(** The spec as the code fills it in, and the phase of the status. The block devices are
    selected by the label [kubernetes.io/metadata.name]. *)
Record LVMVolumeGroup := mkLVG {
  lvgType : string;
  lvgNodeName : string;
  lvgBlockDevices : list string;
  lvgActualVGName : string;
  lvgThinPools : list ThinPoolSpec;
  lvgPhase : string
}.

Section VolumeGroups.
Context {W : Type} `{AE : ApiErrors, CX : Ctx W, CK : Clock W, CG : Client W LVMVolumeGroup}.
(** [snc.AddToScheme] on a new scheme, and [client.New]. *)
Context (addToScheme : option error) (clientNew : M W (option error)).

Definition NewLVMVolumeGroupClient : M W (option error) :=
  DoVoid ctxErr timerFires DefaultConfig
    match addToScheme with
    | Some e => mret (Some (ErrorfW "failed to add sds-node-configurator scheme: " e ""))
    | None => let! err := clientNew in mret (wrap_error "failed to create controller-runtime client: " err)
    end.

Definition lvg_List : M W (result (list (string * LVMVolumeGroup))) :=
  let! l := clientList in
  mret match l with Ok l => Ok l | Err e => Err (ErrorfW "failed to list LVMVolumeGroups: " e "") end.

Definition lvg_Get (name : string) : M W (result LVMVolumeGroup) :=
  let! r := clientGet name in mret (wrap_err ("failed to get LVMVolumeGroup " +:+ name +:+ ": ") r).

Definition lvg_CreateWithThinPools (name nodeName : string) (blockDeviceNames : list string)
    (actualVGName : string) (thinPools : list ThinPoolSpec) : M W (option error) :=
  let! r := clientCreate name (mkLVG "Local" nodeName blockDeviceNames actualVGName thinPools "") in
  mret (wrap_error ("failed to create LVMVolumeGroup " +:+ name +:+ ": ") r).

Definition lvg_Create (name nodeName : string) (blockDeviceNames : list string) (actualVGName : string)
    : M W (option error) :=
  let! r := clientCreate name (mkLVG "Local" nodeName blockDeviceNames actualVGName [] "") in
  mret (wrap_error ("failed to create LVMVolumeGroup " +:+ name +:+ ": ") r).

Definition lvg_Delete (name : string) : M W (option error) :=
  let! r := clientDelete LVMVolumeGroup name in
  mret (wrap_error ("failed to delete LVMVolumeGroup " +:+ name +:+ ": ") r).

Definition ready_look (name : string) : M W (option unit) :=
  let! got := lvg_Get name in
  mret match got with
       | Ok lvg => if String.eqb (lvgPhase lvg) "Ready" then Some tt else None
       | Err _ => None
       end.

Definition lvg_WaitForReady (fuel : nat) (name : string) (timeout : Z) : M W (option (option error)) :=
  let! r := sleep_wait (ready_look name)
              (Errorf ("timeout waiting for LVMVolumeGroup " +:+ name +:+ " to become Ready"))
              (2 * Second) fuel timeout in
  mret (void r).

(** Any failed read is taken for a missing object. *)
Definition gone_look (name : string) : M W (option unit) :=
  let! got := lvg_Get name in
  mret match got with Ok _ => None | Err _ => Some tt end.

Definition lvg_WaitForDeletion (fuel : nat) (name : string) (timeout : Z) : M W (option (option error)) :=
  let! r := sleep_wait (gone_look name)
              (Errorf ("timeout waiting for LVMVolumeGroup " +:+ name +:+ " to be deleted"))
              (2 * Second) fuel timeout in
  mret (void r).

Definition lvg_IsReady (name : string) : M W (result bool) :=
  let! got := lvg_Get name in
  mret match got with Ok lvg => Ok (String.eqb (lvgPhase lvg) "Ready") | Err e => Err e end.

(** *** [pkg/kubernetes/lvmvolumegroup.go] *)

Definition with_lvg {A} (fail : error -> A) (k : M W A) : M W A :=
  let! err := NewLVMVolumeGroupClient in
  match err with
  | Some e => mret (fail (ErrorfW "failed to create LVMVolumeGroup client: " e ""))
  | None => k
  end.

Definition CreateLVMVolumeGroup (name nodeName : string) (bds : list string) (vg : string) : M W (option error) :=
  with_lvg Some (lvg_Create name nodeName bds vg).
Definition CreateLVMVolumeGroupWithThinPool (name nodeName : string) (bds : list string) (vg : string)
    (thinPools : list ThinPoolSpec) : M W (option error) :=
  with_lvg Some (lvg_CreateWithThinPools name nodeName bds vg
    (map (fun tp => mkThinPool (tpName tp) (tpSize tp) (tpAllocationLimit tp)) thinPools)).
Definition WaitForLVMVolumeGroupReady (fuel : nat) (name : string) (timeout : Z) : M W (option (option error)) :=
  with_lvg (fun e => Some (Some e)) (lvg_WaitForReady fuel name timeout).
Definition DeleteLVMVolumeGroup (name : string) : M W (option error) := with_lvg Some (lvg_Delete name).
Definition WaitForLVMVolumeGroupDeletion (fuel : nat) (name : string) (timeout : Z) : M W (option (option error)) :=
  with_lvg (fun e => Some (Some e)) (lvg_WaitForDeletion fuel name timeout).

(** *** Theorems *)
Context `{CGL : !ClientLaws W LVMVolumeGroup}.

Lemma ready_look_ok name w w' :
  ready_look name w = (Some tt, w') ->
  exists lvg, objs w' !! name = Some lvg /\ lvgPhase lvg = "Ready".
Proof.
  intros H. unfold ready_look, lvg_Get in H. mstep H as [got w1] E. mstep E as [g w2] E2.
  injection E as <- <-. destruct g as [lvg|e]; cbn in H; [|done].
  destruct (String.eqb_spec (lvgPhase lvg) "Ready"); [|done]. injection H as <-.
  apply get_ok in E2 as [Hg ->]. by exists lvg.
Qed.

Lemma void_None r : void r = Some None -> r = Some (Ok tt).
Proof. by destruct r as [[[]|e]|]. Qed.

Lemma lvg_WaitForReady_ok fuel name timeout w w' :
  lvg_WaitForReady fuel name timeout w = (Some None, w') ->
  exists lvg, objs w' !! name = Some lvg /\ lvgPhase lvg = "Ready".
Proof.
  intros H. unfold lvg_WaitForReady in H. mstep H as [r w1] E. injection H as ->%void_None <-.
  apply sleep_wait_ok in E as (w0 & E). by apply ready_look_ok in E.
Qed.

Context `{CKL : !ClockLaws W}.
Hypothesis get_forward : forall name, forward_in_time (clientGet (O := LVMVolumeGroup) name).

Lemma look_forward {A} name (f : result LVMVolumeGroup -> A) :
  forward_in_time (let! got := lvg_Get name in mret (f got)).
Proof.
  intros w. unfold lvg_Get, mbind, M_bind. pose proof (get_forward name w) as H.
  destruct (clientGet name w) as [g w1]. exact H.
Qed.

(** [WaitForReady] and [WaitForDeletion] return within their timeout, plus the time of the
    calls: a round takes at least two seconds and none starts after the deadline. *)
Theorem lvg_waits_end fuel name timeout w :
  timeout < Z.of_nat fuel * (2 * Second) ->
  (exists r w', lvg_WaitForReady (S fuel) name timeout w = (Some r, w')) /\
  exists r w', lvg_WaitForDeletion (S fuel) name timeout w = (Some r, w').
Proof.
  intros Ht. split; unfold lvg_WaitForReady, lvg_WaitForDeletion; unfold mbind at 1, M_bind at 1.
  - set (over := Errorf _). destruct (sleep_wait_ends (ready_look name) over (2 * Second)) with
      (fuel := fuel) (timeout := timeout) (w := w) as (r & w' & H); [apply look_forward|done|done|].
    rewrite H. exists (match r with Ok _ => None | Err e => Some e end), w'. by destruct r.
  - set (over := Errorf _). destruct (sleep_wait_ends (gone_look name) over (2 * Second)) with
      (fuel := fuel) (timeout := timeout) (w := w) as (r & w' & H); [apply look_forward|done|done|].
    rewrite H. exists (match r with Ok _ => None | Err e => Some e end), w'. by destruct r.
Qed.
End VolumeGroups.

Definition one_group (faults : list (option string)) : memWorld LVMVolumeGroup * Z :=
  (mkWorld (mkMem {["lvg-0" := mkLVG "Local" "node-0" ["dev-1"] "vg-local" [] "Ready"]} faults) 3 false, 0).

Example lvg_waits_end_witness :
  (exists r w', lvg_WaitForReady 3 "lvg-0" (3 * Second) (one_group []) = (Some r, w')) /\
  exists r w', lvg_WaitForDeletion 3 "lvg-0" (3 * Second) (one_group []) = (Some r, w').
Proof.
  refine (lvg_waits_end (W := memWorld LVMVolumeGroup * Z) _ 2 "lvg-0" (3 * Second) (one_group []) _);
    [|reflexivity].
  intros name. exact (on_fst_forward (clientGet name)).
Defined.

(** A read that fails on the way ends [WaitForDeletion] with success while the volume group
    exists. *)
Example WaitForDeletion_trusts_errors :
  let '(r, w) := lvg_WaitForDeletion 3 "lvg-0" (3 * Second) (one_group [Some "EOF"]) in
  r = Some None /\ is_Some (objs (O := LVMVolumeGroup) w !! "lvg-0").
Proof. vm_compute. split; [reflexivity|by eexists]. Qed.

(** ** Storage classes ([storageclass.go]) *)

Record StorageClass := mkSC {
  scLabels : gmap string string;
  scAnnotations : gmap string string;
  scProvisioner : string;
  scParameters : gmap string string;
  scReclaimPolicy : string;
  scAllowExpansion : bool;
  scBindingMode : string
}.

Definition defaultClassAnnotation := "storageclass.kubernetes.io/is-default-class".
Definition betaDefaultClassAnnotation := "storageclass.beta.kubernetes.io/is-default-class".

Record StorageClassCreateConfig := mkSCConfig {
  cc_Name : string;
  cc_Provisioner : string;
  cc_Parameters : gmap string string;
  cc_VolumeBindingMode : string;
  cc_ReclaimPolicy : string;
  cc_AllowExpansion : bool;
  cc_MakeDefault : bool;
  cc_AdditionalLabels : gmap string string;
  cc_AdditionalAnnot : gmap string string
}.

Definition build_class (cfg : StorageClassCreateConfig) : StorageClass :=
  let annotations :=
    if cc_MakeDefault cfg
    then <[betaDefaultClassAnnotation := "true"]> (<[defaultClassAnnotation := "true"]> (cc_AdditionalAnnot cfg))
    else cc_AdditionalAnnot cfg in
  mkSC (cc_AdditionalLabels cfg) annotations (cc_Provisioner cfg) (cc_Parameters cfg) (cc_ReclaimPolicy cfg)
    (cc_AllowExpansion cfg) (cc_VolumeBindingMode cfg).

(** [settings] is a Go map: one entry per key. *)
Fixpoint set_entry (key : string) (v : value) (settings : list (string * value)) : list (string * value) :=
  match settings with
  | [] => [(key, v)]
  | (k, x) :: l => if String.eqb k key then (key, v) :: l else (k, x) :: set_entry key v l
  end.

Section Classes.
Context {W : Type} `{AE : ApiErrors, CX : Ctx W, SP : Scope W, SC : Client W StorageClass}.
Context `{CF : ClientFactory W, MC : Client W ModuleConfigSpec}.
Context (newClientset : M W (option error)).

Definition class_check (name : string) (_ : unit) : M W (unit * option (option error)) :=
  let! got := clientGet (O := StorageClass) name in
  mret (tt, match got with Ok _ => Some None | Err _ => None end).

Definition WaitForStorageClass (fuel : nat) (name : string) (timeout : Z) : M W (option (option error)) :=
  let! err := newClientset in
  match err with
  | Some e => mret (Some (Some (ErrorfW "failed to create clientset: " e "")))
  | None => withTimeout timeout
              (poll (class_check name)
                 (fun _ ce => Some (ErrorfWn ("timeout waiting for StorageClass " +:+ name +:+ ": ") ce ""))
                 fuel (5 * Second) tt)
  end.

(** The results of the goroutines, by name. *)
Fixpoint WaitForStorageClasses (fuel : nat) (names : list string) (timeout : Z)
    : M W (option (gmap string (option error))) :=
  match names with
  | [] => mret (Some ∅)
  | name :: names =>
      let! r := WaitForStorageClass fuel name timeout in
      let! rs := WaitForStorageClasses fuel names timeout in
      mret match r, rs with
           | Some r, Some rs => Some (<[name := r]> rs)
           | _, _ => None
           end
  end.

Definition GetDefaultStorageClassName : M W (result string) :=
  let! err := newClientset in
  match err with
  | Some e => mret (Err (ErrorfW "failed to create clientset: " e ""))
  | None =>
      let! l := clientList in
      mret match l with
           | Err e => Err (ErrorfW "failed to list StorageClasses: " e "")
           | Ok l =>
               match List.find (fun p : string * StorageClass =>
                       String.eqb (default "" (scAnnotations p.2 !! defaultClassAnnotation)) "true") l with
               | Some p => Ok p.1
               | None => Ok ""
               end
           end
  end.

(** [nil] when the class does not exist. *)
Definition GetStorageClass (name : string) : M W (result (option StorageClass)) :=
  let! err := newClientset in
  match err with
  | Some e => mret (Err (ErrorfW "failed to create clientset: " e ""))
  | None =>
      let! got := clientGet name in
      mret match got with
           | Ok sc => Ok (Some sc)
           | Err e => if IsNotFound (Some e) then Ok None
                      else Err (ErrorfW ("failed to get StorageClass " +:+ name +:+ ": ") e "")
           end
  end.

(** [mcEnabled] stands for [Spec.Enabled] with [nil] read as [true]. *)
Definition SetGlobalDefaultStorageClass (storageClassName : string) : M W (option error) :=
  let entry := VString storageClassName in
  let! got := GetModuleConfig "global" in
  match got with
  | Err e =>
      if IsNotFound (Some e) then CreateModuleConfig "global" 1 true [("storageClass", entry)]
      else mret (Some (ErrorfW "failed to get global ModuleConfig: " e ""))
  | Ok mc => UpdateModuleConfig "global" (mcVersion mc) (mcEnabled mc)
               (set_entry "storageClass" entry (mcSettings mc))
  end.

Definition CreateStorageClass (cfg : StorageClassCreateConfig) : M W (option error) :=
  if String.eqb (cc_Name cfg) "" then mret (Some (Errorf "storage class name is required"))
  else if String.eqb (cc_Provisioner cfg) "" then mret (Some (Errorf "provisioner is required"))
  else
    let! err := newClientset in
    match err with
    | Some e => mret (Some (ErrorfW "failed to create clientset: " e ""))
    | None => createOrSkip (cc_Name cfg) (build_class cfg)
                (fun e => ErrorfW ("failed to create StorageClass " +:+ cc_Name cfg +:+ ": ") e "")
    end.

Context `{CL : !CtxLaws W, SCL : !ClientLaws W StorageClass, SPL : !ScopeLaws W StorageClass, MCL : !ClientLaws W ModuleConfigSpec}.

Lemma WaitForStorageClass_ok fuel name timeout w w' :
  WaitForStorageClass fuel name timeout w = (Some None, w') -> is_Some (objs (O := StorageClass) w' !! name).
Proof.
  intros H. unfold WaitForStorageClass in H. mstep H as [err w1] E1. destruct err as [e|]; [done|].
  apply withTimeout_inv in H as (w2 & H & ->). rewrite leave_objs.
  apply (poll_ended _ _ (fun _ _ => True)) in H; [|done..].
  destruct H as [[] v [] _ Hc|[] ce z v0 v1 _ _ _ [=]]. unfold class_check in Hc.
  mstep Hc as [got v1] E. destruct got as [sc|e]; [|done]. injection Hc as <-.
  apply get_ok in E as [Hg ->]. by exists sc.
Qed.

(** The entry for the class, and the others as they were. *)
Lemma set_entry_lookup key v l :
  In (key, v) (set_entry key v l) /\ forall k x, k <> key -> In (k, x) (set_entry key v l) <-> In (k, x) l.
Proof.
  induction l as [|[k0 x0] l [IH1 IH2]]; cbn.
  - split; [by left|]. intros k x Hk. split; [intros [[= -> _]|[]]; done|done].
  - destruct (String.eqb_spec k0 key) as [->|Hn]; cbn.
    + split; [by left|]. intros k x Hk. split; intros [[= -> ->]|H]; try done; by right.
    + split; [by right|]. intros k x Hk. by rewrite (IH2 k x Hk).
Qed.

Lemma global_default_set name w w' :
  SetGlobalDefaultStorageClass name w = (None, w') ->
  exists mc, objs w' !! "global" = Some mc /\ In ("storageClass", VString name) (mcSettings mc) /\
    ((mcVersion mc = 1 /\ mcEnabled mc = true /\ mcSettings mc = [("storageClass", VString name)]) \/
     exists v old, objs v !! "global" = Some old /\ mcVersion mc = mcVersion old /\
       mcEnabled mc = mcEnabled old /\
       forall k x, k <> "storageClass" -> In (k, x) (mcSettings mc) <-> In (k, x) (mcSettings old)).
Proof.
  intros H. unfold SetGlobalDefaultStorageClass in H. mstep H as [got w1] E1. destruct got as [mc|e].
  - apply UpdateModuleConfig_ok in H. eexists. split; [done|]. cbn.
    split; [exact (proj1 (set_entry_lookup _ _ _))|]. right. unfold GetModuleConfig in E1. apply with_client_inv in E1 as [(e & [=])|(v & E1)].
    mstep E1 as [g v1] E2. injection E1 as E1 _. destruct g as [o|e]; [|done]. injection E1 as ->.
    apply get_ok in E2 as [E2 _]. exists v, mc. split; [done|]. split; [done|]. split; [done|].
    exact (proj2 (set_entry_lookup _ _ _)).
  - destruct (IsNotFound (Some e)); [|done]. apply CreateModuleConfig_ok in H.
    eexists. split; [done|]. cbn. split; [by left|]. left. done.
Qed.

Lemma SetGlobalDefault_ok name w w' :
  SetGlobalDefaultStorageClass name w = (None, w') ->
  exists mc, objs w' !! "global" = Some mc /\ In ("storageClass", VString name) (mcSettings mc).
Proof. intros (mc & H1 & H2 & _)%global_default_set. eauto. Qed.

(** When [SetGlobalDefaultStorageClass] succeeds, the ModuleConfig [global] names the class
    as default; one that existed, as the code read it, keeps its version, whether it is
    enabled, and all its other settings. *)
Theorem SetGlobalDefaultStorageClass_spec name w w' :
  SetGlobalDefaultStorageClass name w = (None, w') ->
  exists mc, objs w' !! "global" = Some mc /\ In ("storageClass", VString name) (mcSettings mc) /\
    ((mcVersion mc = 1 /\ mcEnabled mc = true /\ mcSettings mc = [("storageClass", VString name)]) \/
     exists v old, objs v !! "global" = Some old /\ mcVersion mc = mcVersion old /\
       mcEnabled mc = mcEnabled old /\
       forall k x, k <> "storageClass" -> In (k, x) (mcSettings mc) <-> In (k, x) (mcSettings old)).
Proof. apply global_default_set. Qed.

Lemma CreateStorageClass_ok cfg w w' :
  (forall w, objs (O := StorageClass) (newClientset w).2 = objs w) ->
  CreateStorageClass cfg w = (None, w') ->
  (objs (O := StorageClass) w !! cc_Name cfg = None /\ objs w' = <[cc_Name cfg := build_class cfg]> (objs w)) \/
  (is_Some (objs (O := StorageClass) w !! cc_Name cfg) /\ objs (O := StorageClass) w' = objs w).
Proof.
  intros Hn H. unfold CreateStorageClass in H. destruct (String.eqb (cc_Name cfg) ""); [done|].
  destruct (String.eqb (cc_Provisioner cfg) ""); [done|].
  specialize (Hn w). mstep H as [err w1] E1. cbn in Hn. destruct err as [e|]; [done|].
  rewrite <- Hn. by eapply createOrSkip_ok.
Qed.
End Classes.

Definition global_config : memWorld ModuleConfigSpec :=
  mkWorld (mkMem {["global" := mkMC 2 true [("modules", VString "default"); ("storageClass", VString "old")] ]} []) 9 false.

Example SetGlobalDefaultStorageClass_witness :
  exists w' mc, SetGlobalDefaultStorageClass "sc-1" global_config = (None, w') /\
    objs w' !! "global" = Some mc /\ In ("storageClass", VString "sc-1") (mcSettings mc).
Proof.
  destruct (SetGlobalDefaultStorageClass "sc-1" global_config) as [r w'] eqn:E.
  pose proof (SetGlobalDefaultStorageClass_spec "sc-1" global_config w') as H.
  vm_compute in E. injection E as <- <-. destruct H as (mc & H1 & H2 & _); [reflexivity|].
  eexists _, mc. split; [reflexivity|]. split; [exact H1|exact H2].
Defined.

(** ** Local storage classes ([localstorageclass.go]) *)

Record LocalStorageClassConfig := mkLSCConfig {
  lc_Name : string;
  lc_LVMVolumeGroups : list string;
  lc_LVMType : string;
  lc_ThinPoolName : string;
  lc_ReclaimPolicy : string;
  lc_VolumeBindingMode : string
}.

(** The object: per volume group the thin pool, if any. *)
Record LocalStorageClass := mkLSC {
  lscGroups : list (string * option string);
  lscType : string;
  lscReclaimPolicy : string;
  lscBindingMode : string;
  lscPhase : string
}.

Definition or_default (s d : string) : string := if String.eqb s "" then d else s.

Definition build_local_class (cfg : LocalStorageClassConfig) : LocalStorageClass :=
  let type := or_default (lc_LVMType cfg) "Thick" in
  mkLSC (map (fun name => (name, if String.eqb type "Thin" then Some (lc_ThinPoolName cfg) else None))
           (lc_LVMVolumeGroups cfg))
    type (or_default (lc_ReclaimPolicy cfg) "Delete") (or_default (lc_VolumeBindingMode cfg) "WaitForFirstConsumer")
    "".

Section LocalClasses.
Context {W : Type} `{AE : ApiErrors, CX : Ctx W, SP : Scope W, LC : Client W LocalStorageClass}.
Context (newDynamicClient : M W (option error)).

Definition CreateLocalStorageClass (cfg : LocalStorageClassConfig) : M W (option error) :=
  if String.eqb (lc_Name cfg) "" then mret (Some (Errorf "LocalStorageClass name is required"))
  else if bool_decide (lc_LVMVolumeGroups cfg = [])
  then mret (Some (Errorf "at least one LVMVolumeGroup is required"))
  else if String.eqb (or_default (lc_LVMType cfg) "Thick") "Thin" && String.eqb (lc_ThinPoolName cfg) ""
  then mret (Some (Errorf "ThinPoolName is required for Thin LVM type"))
  else
    let! err := newDynamicClient in
    match err with
    | Some e => mret (Some (ErrorfW "failed to create dynamic client: " e ""))
    | None => createOrSkip (lc_Name cfg) (build_local_class cfg)
                (fun e => ErrorfW ("failed to create LocalStorageClass " +:+ lc_Name cfg +:+ ": ") e "")
    end.

Definition local_check (name : string) (_ : unit) : M W (unit * option (option error)) :=
  let! got := clientGet (O := LocalStorageClass) name in
  mret (tt, match got with
            | Ok lsc => if String.eqb (lscPhase lsc) "Created" then Some None else None
            | Err _ => None
            end).

Definition WaitForLocalStorageClassCreated (fuel : nat) (name : string) (timeout : Z)
    : M W (option (option error)) :=
  let! err := newDynamicClient in
  match err with
  | Some e => mret (Some (Some (ErrorfW "failed to create dynamic client: " e "")))
  | None => withTimeout timeout
              (poll (local_check name)
                 (fun _ ce => Some (ErrorfWn ("timeout waiting for LocalStorageClass " +:+ name +:+
                                              " to be Created: ") ce ""))
                 fuel (5 * Second) tt)
  end.

Context `{CL : !CtxLaws W, LCL : !ClientLaws W LocalStorageClass, SPL : !ScopeLaws W LocalStorageClass}.

Lemma CreateLocalStorageClass_ok cfg w w' :
  (forall w, objs (O := LocalStorageClass) (newDynamicClient w).2 = objs w) ->
  CreateLocalStorageClass cfg w = (None, w') ->
  lc_LVMVolumeGroups cfg <> [] /\
  ((objs (O := LocalStorageClass) w !! lc_Name cfg = None /\
    objs w' = <[lc_Name cfg := build_local_class cfg]> (objs w)) \/
   (is_Some (objs (O := LocalStorageClass) w !! lc_Name cfg) /\ objs (O := LocalStorageClass) w' = objs w)).
Proof.
  intros Hn H. unfold CreateLocalStorageClass in H. destruct (String.eqb (lc_Name cfg) ""); [done|].
  destruct (bool_decide_reflect (lc_LVMVolumeGroups cfg = [])); [done|]. destruct (_ && _); [done|].
  split; [done|]. specialize (Hn w). mstep H as [err w1] E1. cbn in Hn. destruct err as [e|]; [done|].
  rewrite <- Hn. by eapply createOrSkip_ok.
Qed.

Lemma WaitForLocalStorageClassCreated_ok fuel name timeout w w' :
  WaitForLocalStorageClassCreated fuel name timeout w = (Some None, w') ->
  exists lsc, objs w' !! name = Some lsc /\ lscPhase lsc = "Created".
Proof.
  intros H. unfold WaitForLocalStorageClassCreated in H. mstep H as [err w1] E1. destruct err as [e|]; [done|].
  apply withTimeout_inv in H as (w2 & H & ->). rewrite leave_objs.
  apply (poll_ended _ _ (fun _ _ => True)) in H; [|done..].
  destruct H as [[] v [] _ Hc|[] ce z v0 v1 _ _ _ [=]]. unfold local_check in Hc.
  mstep Hc as [got v1] E. destruct got as [lsc|e]; [|done].
  destruct (String.eqb_spec (lscPhase lsc) "Created"); [|done]. injection Hc as <-.
  apply get_ok in E as [Hg ->]. by exists lsc.
Qed.
End LocalClasses.

(** ** Snapshot classes ([volumesnapshotclass.go]) *)

Record VolumeSnapshotClassConfig := mkVSCConfig {
  vc_Name : string;
  vc_Driver : string;
  vc_DeletionPolicy : string;
  vc_Parameters : gmap string string;
  vc_MakeDefault : bool
}.

Record VolumeSnapshotClass := mkVSC {
  vscAnnotations : gmap string string;
  vscDriver : string;
  vscDeletionPolicy : string;
  vscParameters : gmap string string
}.

Definition build_snapshot_class (cfg : VolumeSnapshotClassConfig) : VolumeSnapshotClass :=
  mkVSC (if vc_MakeDefault cfg then {["snapshot.storage.kubernetes.io/is-default-class" := "true"]} else ∅)
    (vc_Driver cfg) (or_default (vc_DeletionPolicy cfg) "Delete") (vc_Parameters cfg).

Section SnapshotClasses.
Context {W : Type} `{AE : ApiErrors, CX : Ctx W, CK : Clock W, VC : Client W VolumeSnapshotClass}.
Context (newDynamicClient : M W (option error)).

Definition CreateVolumeSnapshotClass (cfg : VolumeSnapshotClassConfig) : M W (option error) :=
  if String.eqb (vc_Name cfg) "" then mret (Some (Errorf "volume snapshot class name is required"))
  else if String.eqb (vc_Driver cfg) "" then mret (Some (Errorf "driver is required"))
  else
    let! err := newDynamicClient in
    match err with
    | Some e => mret (Some (ErrorfW "failed to create dynamic client: " e ""))
    | None => createOrSkip (vc_Name cfg) (build_snapshot_class cfg)
                (fun e => ErrorfW ("failed to create VolumeSnapshotClass " +:+ vc_Name cfg +:+ ": ") e "")
    end.

Definition snapshot_look (name : string) : M W (option unit) :=
  let! got := clientGet (O := VolumeSnapshotClass) name in
  mret match got with Ok _ => Some tt | Err _ => None end.

Definition WaitForVolumeSnapshotClass (fuel : nat) (name : string) (timeout : Z) : M W (option (option error)) :=
  let! err := newDynamicClient in
  match err with
  | Some e => mret (Some (Some (ErrorfW "failed to create dynamic client: " e "")))
  | None =>
      let! r := sleep_wait (snapshot_look name) (Errorf ("timeout waiting for VolumeSnapshotClass " +:+ name))
                  (5 * Second) fuel timeout in
      mret (void r)
  end.
End SnapshotClasses.
