(* ===== verification/KitElastic.v ===== *)
(** The sds-elastic resources of the test kit: [src/pkg/kubernetes/elasticcluster.go],
    [elasticstorageclass.go], [elasticrook.go], [cephfilesystem.go], [rookconfigoverride.go] and
    the scenarios of [src/pkg/testkit/elastic.go]. *)
From S2P Require Import Prelude Errors Retry Config Kube Deckhouse Wait Kit KitNodes KitStorage.

Local Open Scope Z_scope.
Local Open Scope go_scope.

(** ** Unstructured objects *)

(** [map[string]interface{}]. *)
Definition tree : Type := list (string * value).

Fixpoint field (o : tree) (k : string) : option value :=
  match o with
  | [] => None
  | (k', v) :: o => if String.eqb k' k then Some v else field o k
  end.

Fixpoint at_path (v : value) (path : list string) : option value :=
  match path with
  | [] => Some v
  | k :: path =>
      match v with
      | VMap o => match field o k with Some v => at_path v path | None => None end
      | _ => None
      end
  end.

(** The accessors of [k8s.io/apimachinery]: the value, whether it was found, or an error when
    something on the way has another type. *)
Class Nested := {
  NestedString : tree -> list string -> result (option string);
  NestedSlice : tree -> list string -> result (option (list value));
  NestedMap : tree -> list string -> result (option tree);
  NestedInt64 : tree -> list string -> result (option Z)
}.

(** What is found is what is there. *)
Class NestedLaws `{Nested} : Prop := {
  nested_string o p s : NestedString o p = Ok (Some s) <-> at_path (VMap o) p = Some (VString s);
  nested_slice o p l : NestedSlice o p = Ok (Some l) <-> at_path (VMap o) p = Some (VList l);
  nested_map o p m : NestedMap o p = Ok (Some m) <-> at_path (VMap o) p = Some (VMap m);
  nested_int64 o p z : NestedInt64 o p = Ok (Some z) <-> at_path (VMap o) p = Some (VInt z)
}.

(** [x, _, _ := unstructured.Nested...]: the zero value unless found. *)
Definition orZero {A} (zero : A) (r : result (option A)) : A :=
  match r with Ok (Some a) => a | _ => zero end.

(** The kinds, so that each has its own client. *)
Inductive kind := ElasticCluster | ElasticStorageClass | CephFilesystem
                | RookCephCluster | RookCephBlockPool | RookCephFilesystem.

Record resource (k : kind) := mkRes {
  resLabels : gmap string string;
  resAnnotations : gmap string string;
  Object : tree
}.
Arguments mkRes {k} _ _ _.
Arguments resLabels {k} _.
Arguments resAnnotations {k} _.
Arguments Object {k} _.

Definition toStringMapInterface (m : gmap string string) : tree :=
  map (fun p => (p.1, VString p.2)) (map_to_list m).

(** An entry of a map set to a value. *)
Definition with_spec {k} (spec : tree) (o : unstructured (resource k)) : unstructured (resource k) :=
  mkObj (DeletionTimestamp o) (Finalizers o)
    (mkRes (resLabels (content o)) (resAnnotations (content o))
       (set_entry "spec" (VMap spec) (Object (content o)))).

(** ** Conditions *)
Section Conditions.
Context `{ND : Nested}.

Fixpoint scan_conditions (condType : string) (conditions : list value) : option tree :=
  match conditions with
  | [] => None
  | VMap m :: l => if String.eqb (orZero "" (NestedString m ["type"])) condType then Some m
                   else scan_conditions condType l
  | _ :: l => scan_conditions condType l
  end.

(** Status, reason and message, if found. *)
Definition findUnstructuredCondition (o : tree) (condType : string) : option (string * string * string) :=
  match NestedSlice o ["status"; "conditions"] with
  | Ok (Some conditions) =>
      match scan_conditions condType conditions with
      | Some m => Some (orZero "" (NestedString m ["status"]), orZero "" (NestedString m ["reason"]),
                        orZero "" (NestedString m ["message"]))
      | None => None
      end
  | _ => None
  end.

Definition condition_ready (condType wantStatus : string) {k} (obj : unstructured (resource k)) : bool * string :=
  match findUnstructuredCondition (Object (content obj)) condType with
  | Some (status, reason, _) =>
      if String.eqb status wantStatus
      then (true, condType +:+ "=" +:+ status +:+ " reason=" +:+ reason) else (false, "")
  | None => (false, "")
  end.

Definition ready_entry (raw : value) : bool :=
  match raw with
  | VMap cond => String.eqb (orZero "" (NestedString cond ["type"])) "Ready" &&
                 String.eqb (orZero "" (NestedString cond ["status"])) "True"
  | _ => false
  end.

Definition cephFilesystemReadyByCondition (o : tree) : bool :=
  match NestedSlice o ["status"; "conditions"] with
  | Ok (Some conditions) => existsb ready_entry conditions
  | _ => false
  end.

Context `{NL : !NestedLaws}.

(** The first condition of the type, whatever else is in the list. *)
Lemma scan_conditions_first condType l m :
  scan_conditions condType l = Some m ->
  exists l1 l2, l = l1 ++ VMap m :: l2 /\ orZero "" (NestedString m ["type"]) = condType /\
    forall m', In (VMap m') l1 -> orZero "" (NestedString m' ["type"]) <> condType.
Proof.
  induction l as [|v l IH]; cbn; [done|]. intros H.
  assert (Hskip : scan_conditions condType l = Some m ->
    (forall m', v = VMap m' -> orZero "" (NestedString m' ["type"]) <> condType) ->
    exists l1 l2, v :: l = l1 ++ VMap m :: l2 /\ orZero "" (NestedString m ["type"]) = condType /\
      forall m', In (VMap m') l1 -> orZero "" (NestedString m' ["type"]) <> condType).
  { intros (l1 & l2 & -> & Ht & Hn)%IH Hv. exists (v :: l1), l2. split; [done|]. split; [done|].
    intros m' [->|Hm]; [by apply Hv|by apply Hn]. }
  destruct v as [| | | |l'|m']; try (apply Hskip; [done|intros ? [=]]).
  destruct (String.eqb_spec (orZero "" (NestedString m' ["type"])) condType) as [Ht|Ht].
  - injection H as ->. exists [], l. split; [done|]. split; [done|]. intros ? [].
  - apply Hskip; [done|]. by intros ? [= <-].
Qed.

Lemma string_field m k s : s <> "" -> orZero "" (NestedString m [k]) = s -> field m k = Some (VString s).
Proof.
  intros Hs H. unfold orZero in H.
  destruct (NestedString m [k]) as [[x|]|e] eqn:E; [|congruence..]. subst x.
  apply nested_string in E. cbn in E. destruct (field m k) as [v|]; [|done]. congruence.
Qed.

(** A condition that is found at a status is an entry of [status.conditions] with that type and
    status. *)
Lemma condition_ready_spec condType wantStatus k (obj : unstructured (resource k)) :
  condType <> "" -> wantStatus <> "" -> (condition_ready condType wantStatus obj).1 = true ->
  exists l m, at_path (VMap (Object (content obj))) ["status"; "conditions"] = Some (VList l) /\
    In (VMap m) l /\ field m "type" = Some (VString condType) /\ field m "status" = Some (VString wantStatus).
Proof.
  intros Ht Hs H. unfold condition_ready, findUnstructuredCondition in H.
  destruct (NestedSlice _ _) as [[l|]|e] eqn:E; [|done..]. apply nested_slice in E.
  destruct (scan_conditions condType l) as [m|] eqn:Es; [|done].
  destruct (String.eqb_spec (orZero "" (NestedString m ["status"])) wantStatus) as [Hst|]; [|done].
  apply scan_conditions_first in Es as (l1 & l2 & -> & Hty & _). exists (l1 ++ VMap m :: l2), m.
  split; [done|]. split; [apply in_or_app; by right; left|]. split; by apply string_field.
Qed.
End Conditions.

(** ** Create, or replace the spec *)
Section CreateUpdate.
Context {W : Type} {k : kind} `{AE : ApiErrors, CR : !Client W (unstructured (resource k))}.
Context (newDynamicClient : M W (option error)).

Definition createOrUpdateSpec (label ref : string) (labels annotations : gmap string string) (spec : tree)
    : M W (option error) :=
  let! err := newDynamicClient in
  match err with
  | Some e => mret (Some (ErrorfW "failed to create dynamic client: " e ""))
  | None =>
      let! err := clientCreate (O := unstructured (resource k)) ref
                    (mkObj None [] (mkRes labels annotations [("spec", VMap spec)])) in
      match err with
      | None => mret None
      | Some e =>
          if negb (IsAlreadyExists (Some e))
          then mret (Some (ErrorfW ("failed to create " +:+ label +:+ " " +:+ ref +:+ ": ") e ""))
          else
            let! existing := clientGet (O := unstructured (resource k)) ref in
            match existing with
            | Err e => mret (Some (ErrorfW ("failed to fetch existing " +:+ label +:+ " " +:+ ref +:+ ": ") e ""))
            | Ok existing =>
                match errIfTerminating existing label ref with
                | Some e => mret (Some e)
                | None =>
                    let! err := clientUpdate ref (with_spec spec existing) in
                    mret (wrap_error ("failed to update " +:+ label +:+ " " +:+ ref +:+ ": ") err)
                end
            end
      end
  end.

Definition get_resource (label name : string) : M W (result (unstructured (resource k))) :=
  let! err := newDynamicClient in
  match err with
  | Some e => mret (Err (ErrorfW "failed to create dynamic client: " e ""))
  | None =>
      let! got := clientGet (O := unstructured (resource k)) name in
      mret (wrap_err ("failed to get " +:+ label +:+ " " +:+ name +:+ ": ") got)
  end.

(** [Delete...] of the kinds: a missing object is no error. *)
Definition deleteResource (label ref : string) : M W (option error) :=
  let! err := newDynamicClient in
  match err with
  | Some e => mret (Some (ErrorfW "failed to create dynamic client: " e ""))
  | None => deleteOrSkip (O := unstructured (resource k)) ref
              (fun e => ErrorfW ("failed to delete " +:+ label +:+ " " +:+ ref +:+ ": ") e "")
  end.

Context `{CRL : !ClientLaws W (unstructured (resource k))}.
Hypothesis client_frame : forall w, objs (O := unstructured (resource k)) (newDynamicClient w).2 = objs w.

(** On success the object is new, or the one that was there with its spec replaced and nothing
    else, its labels and annotations included; an object that is being deleted is left alone. *)
Lemma createOrUpdateSpec_ok label ref ls ans spec w w' :
  createOrUpdateSpec label ref ls ans spec w = (None, w') ->
  match objs (O := unstructured (resource k)) w !! ref with
  | None => objs w' = <[ref := mkObj None [] (mkRes ls ans [("spec", VMap spec)])]> (objs w)
  | Some old => DeletionTimestamp old = None /\ objs w' = <[ref := with_spec spec old]> (objs w)
  end.
Proof.
  intros H. unfold createOrUpdateSpec in H. pose proof (client_frame w) as Hf.
  mstep H as [err w1] E1. cbn in Hf. rewrite <- Hf. destruct err as [e|]; [done|].
  mstep H as [err w2] E2. destruct err as [e|].
  2: { injection H as <-. apply create_ok in E2 as [-> ->]. done. }
  destruct (IsAlreadyExists (Some e)) eqn:Ha; [|done]. cbn [negb] in H.
  destruct (create_err _ _ _ _ _ E2) as [_ Hx]. destruct (Hx Ha) as [Ho _]. rewrite <- Ho.
  mstep H as [ex w3] E3. destruct ex as [old|e']; [|done]. apply get_ok in E3 as [-> Hg]. rewrite <- Hg.
  unfold errIfTerminating in H. destruct (DeletionTimestamp old) eqn:Hd; [done|].
  mstep H as [u w4] E4. injection H as Hu <-. apply wrap_error_None in Hu as ->.
  by apply update_ok in E4 as [_ ->].
Qed.

Lemma createOrUpdateSpec_terminating label ref ls ans spec old dt w r w' :
  objs (O := unstructured (resource k)) w !! ref = Some old -> DeletionTimestamp old = Some dt ->
  createOrUpdateSpec label ref ls ans spec w = (r, w') -> r <> None.
Proof.
  intros Ho Hd H ->. apply createOrUpdateSpec_ok in H. rewrite Ho in H. destruct H. congruence.
Qed.
End CreateUpdate.

(** ** ElasticCluster *)

Record ElasticClusterParams := mkECParams {
  ec_Name : string;
  ec_NodeSelector : gmap string string;
  ec_BlockDeviceSelector : gmap string string;
  ec_NetworkPublic : string;
  ec_NetworkCluster : string;
  ec_Labels : gmap string string;
  ec_Annotations : gmap string string
}.

(** The spec of [buildElasticClusterObject]; labels and annotations are copied. *)
Definition buildElasticClusterObject (params : ElasticClusterParams) : tree :=
  ("storage", VMap [("nodeSelector", VMap [("matchLabels", VMap (toStringMapInterface (ec_NodeSelector params)))]);
                    ("blockDeviceSelector",
                     VMap [("matchLabels", VMap (toStringMapInterface (ec_BlockDeviceSelector params)))])]) ::
  (if negb (String.eqb (ec_NetworkPublic params) "") && negb (String.eqb (ec_NetworkCluster params) "")
   then [("network", VMap [("public", VString (ec_NetworkPublic params));
                           ("cluster", VString (ec_NetworkCluster params))])]
   else []).

Record ElasticClusterCephTopology := mkTopology { MonCount : Z; MgrCount : Z; TopologyReason : string }.

Definition ElasticClusterGoneTimeout : Z := 15 * Minute.
Definition ElasticStorageClassGoneTimeout : Z := 10 * Minute.
Definition CephFilesystemGoneTimeout : Z := 5 * Minute.

Definition orTimeout (timeout d : Z) : Z := if timeout <=? 0 then d else timeout.

Section Elastic.
Context {W : Type} `{AE : ApiErrors, CX : Ctx W, SC : Scope W, ND : Nested}.
Context `{CEC : Client W (unstructured (resource ElasticCluster)), CES : Client W (unstructured (resource ElasticStorageClass))}.
Context `{CFS : Client W (unstructured (resource CephFilesystem)), CRC : Client W (unstructured (resource RookCephCluster))}.
Context `{CRB : Client W (unstructured (resource RookCephBlockPool)), CRF : Client W (unstructured (resource RookCephFilesystem))}.
Context (newDynamicClient : M W (option error)).

Definition CreateElasticCluster (params : ElasticClusterParams) : M W (option error) :=
  if String.eqb (ec_Name params) "" then mret (Some (Errorf "ElasticCluster requires a Name"))
  else if bool_decide (ec_NodeSelector params = ∅)
  then mret (Some (Errorf ("ElasticCluster " +:+ ec_Name params +:+ " requires NodeSelectorMatchLabels")))
  else if bool_decide (ec_BlockDeviceSelector params = ∅)
  then mret (Some (Errorf ("ElasticCluster " +:+ ec_Name params +:+ " requires BlockDeviceSelectorMatchLabels")))
  else createOrUpdateSpec (k := ElasticCluster) newDynamicClient "ElasticCluster" (ec_Name params)
         (ec_Labels params) (ec_Annotations params) (buildElasticClusterObject params).

Definition WaitForElasticClusterCondition (fuel : nat) (name condType wantStatus : string) (timeout : Z)
    : M W (option (option error)) :=
  pollResourceUntilReady (C := resource ElasticCluster) newDynamicClient fuel "" name timeout
    PollTickInterval "ElasticCluster" (Some (condition_ready condType wantStatus)).

Definition WaitForElasticClusterReady (fuel : nat) (name : string) (timeout : Z) : M W (option (option error)) :=
  WaitForElasticClusterCondition fuel name "Ready" "True" timeout.

Definition GetElasticClusterCondition (name condType : string) : M W (result (option (string * string * string))) :=
  let! got := get_resource (k := ElasticCluster) newDynamicClient "ElasticCluster" name in
  mret match got with
       | Err e => Err e
       | Ok obj => Ok (findUnstructuredCondition (Object (content obj)) condType)
       end.

Definition GetElasticClusterCephTopology (name : string) : M W (result (option ElasticClusterCephTopology)) :=
  let! got := get_resource (k := ElasticCluster) newDynamicClient "ElasticCluster" name in
  mret match got with
       | Err e => Err e
       | Ok obj =>
           let o := Object (content obj) in
           match NestedMap o ["status"; "cephTopology"] with
           | Err e => Err (ErrorfW ("read status.cephTopology of ElasticCluster " +:+ name +:+ ": ") e "")
           | Ok None => Ok None
           | Ok (Some _) =>
               Ok (Some (mkTopology (orZero 0 (NestedInt64 o ["status"; "cephTopology"; "monCount"]))
                           (orZero 0 (NestedInt64 o ["status"; "cephTopology"; "mgrCount"]))
                           (orZero "" (NestedString o ["status"; "cephTopology"; "reason"]))))
           end
       end.

Definition DeleteElasticCluster (name : string) : M W (option error) :=
  deleteResource (k := ElasticCluster) newDynamicClient "ElasticCluster" name.

Definition WaitForElasticClusterGone (fuel : nat) (name : string) (timeout : Z) : M W (option (option error)) :=
  pollResourceUntilGone (C := resource ElasticCluster) newDynamicClient fuel "" name
    (orTimeout timeout ElasticClusterGoneTimeout) PollTickInterval "ElasticCluster".

(** *** ElasticStorageClass *)

Definition ElasticStorageClassForceDeleteAnnotation := "sds-elastic.deckhouse.io/force-deletion".

Record ElasticStorageClassParams := mkESCParams {
  esc_Name : string;
  esc_ClusterRef : string;
  esc_Type : string;
  esc_Replication : string;
  esc_Labels : gmap string string;
  esc_Annotations : gmap string string
}.

Definition buildElasticStorageClassObject (params : ElasticStorageClassParams) : tree :=
  ("clusterRef", VString (esc_ClusterRef params)) :: ("type", VString (esc_Type params)) ::
  (if String.eqb (esc_Replication params) "" then [] else [("replication", VString (esc_Replication params))]).

Definition CreateElasticStorageClass (params : ElasticStorageClassParams) : M W (option error) :=
  if String.eqb (esc_Name params) "" then mret (Some (Errorf "ElasticStorageClass requires a Name"))
  else if String.eqb (esc_ClusterRef params) ""
  then mret (Some (Errorf ("ElasticStorageClass " +:+ esc_Name params +:+ " requires a ClusterRef")))
  else if String.eqb (esc_Type params) ""
  then mret (Some (Errorf ("ElasticStorageClass " +:+ esc_Name params +:+ " requires a Type (RBD or CephFS)")))
  else createOrUpdateSpec (k := ElasticStorageClass) newDynamicClient "ElasticStorageClass" (esc_Name params)
         (esc_Labels params) (esc_Annotations params) (buildElasticStorageClassObject params).

Definition WaitForElasticStorageClassCondition (fuel : nat) (name condType wantStatus : string) (timeout : Z)
    : M W (option (option error)) :=
  pollResourceUntilReady (C := resource ElasticStorageClass) newDynamicClient fuel "" name timeout
    PollTickInterval "ElasticStorageClass" (Some (condition_ready condType wantStatus)).

Definition WaitForElasticStorageClassReady (fuel : nat) (name : string) (timeout : Z)
    : M W (option (option error)) :=
  WaitForElasticStorageClassCondition fuel name "Ready" "True" timeout.

Definition GetElasticStorageClassCondition (name condType : string)
    : M W (result (option (string * string * string))) :=
  let! got := get_resource (k := ElasticStorageClass) newDynamicClient "ElasticStorageClass" name in
  mret match got with
       | Err e => Err e
       | Ok obj => Ok (findUnstructuredCondition (Object (content obj)) condType)
       end.

Definition DeleteElasticStorageClass (name : string) : M W (option error) :=
  deleteResource (k := ElasticStorageClass) newDynamicClient "ElasticStorageClass" name.

Definition WaitForElasticStorageClassGone (fuel : nat) (name : string) (timeout : Z)
    : M W (option (option error)) :=
  pollResourceUntilGone (C := resource ElasticStorageClass) newDynamicClient fuel "" name
    (orTimeout timeout ElasticStorageClassGoneTimeout) PollTickInterval "ElasticStorageClass".

(** *** The Rook resources of the renamed group *)

Definition rook_cluster_ready (obj : unstructured (resource RookCephCluster)) : bool * string :=
  let o := Object (content obj) in
  let state := orZero "" (NestedString o ["status"; "state"]) in
  let health := orZero "" (NestedString o ["status"; "ceph"; "health"]) in
  let phase := orZero "" (NestedString o ["status"; "phase"]) in
  if String.eqb state "Created" || String.eqb phase "Ready"
  then (true, "state=" +:+ state +:+ " phase=" +:+ phase +:+ " ceph health: " +:+ health)
  else (false, "").

Definition WaitForElasticRookCephClusterReady (fuel : nat) (namespace name : string) (timeout : Z)
    : M W (option (option error)) :=
  pollResourceUntilReady (C := resource RookCephCluster) newDynamicClient fuel namespace name timeout
    (10 * Second) "Rook CephCluster" (Some rook_cluster_ready).

Definition phase_ready {k} (obj : unstructured (resource k)) : bool * string :=
  if String.eqb (orZero "" (NestedString (Object (content obj)) ["status"; "phase"])) "Ready"
  then (true, "phase=Ready") else (false, "").

Definition WaitForElasticRookCephBlockPoolReady (fuel : nat) (namespace name : string) (timeout : Z)
    : M W (option (option error)) :=
  pollResourceUntilReady (C := resource RookCephBlockPool) newDynamicClient fuel namespace name timeout
    PollTickInterval "Rook CephBlockPool" (Some phase_ready).

Definition WaitForElasticRookCephFilesystemReady (fuel : nat) (namespace name : string) (timeout : Z)
    : M W (option (option error)) :=
  pollResourceUntilReady (C := resource RookCephFilesystem) newDynamicClient fuel namespace name timeout
    PollTickInterval "Rook CephFilesystem" (Some phase_ready).

(** The name of an object, if it is in the namespace; [""] stands for all namespaces. *)
Definition in_namespace (namespace key : string) : option string :=
  match cut_slash key with
  | Some (ns, name) => if String.eqb namespace "" || String.eqb ns namespace then Some name else None
  | None => if String.eqb namespace "" then Some key else None
  end.

Definition ListElasticRookCephClusterNames (namespace : string) : M W (result (list string)) :=
  let! err := newDynamicClient in
  match err with
  | Some e => mret (Err (ErrorfW "failed to create dynamic client: " e ""))
  | None =>
      let! l := clientList (O := unstructured (resource RookCephCluster)) in
      mret match l with
           | Err e => Err (ErrorfW ("failed to list Rook CephClusters in " +:+ namespace +:+ ": ") e "")
           | Ok l => Ok (omap (fun p => in_namespace namespace p.1) l)
           end
  end.

(** [clientset.Discovery().ServerGroups()]: the names of the groups. *)
Definition ServerHasAPIGroup (newClientset : M W (option error)) (serverGroups : M W (result (list string)))
    (group : string) : M W (result bool) :=
  let! err := newClientset in
  match err with
  | Some e => mret (Err (ErrorfW "failed to create clientset: " e ""))
  | None =>
      let! groups := serverGroups in
      mret match groups with
           | Err e => Err (ErrorfW "failed to list server API groups: " e "")
           | Ok l => Ok (existsb (fun g => String.eqb g group) l)
           end
  end.

(** *** CephFilesystem *)

Record CephFilesystemConfig := mkCephFS {
  fs_Name : string;
  fs_Namespace : string;
  fs_FailureDomain : string;
  fs_MetadataPoolReplicas : Z;
  fs_DataPoolName : string;
  fs_DataPoolReplicas : Z;
  fs_ActiveCount : Z;
  fs_RequireSafeReplicaSize : option bool
}.

Definition CephFSDataPoolFullName (fsName dataPoolName : string) : string := fsName +:+ "-" +:+ dataPoolName.

Definition orOne (n : Z) : Z := if n <=? 0 then 1 else n.

(** The defaults, and the spec with them. *)
Definition cephfs_spec (cfg : CephFilesystemConfig) : tree :=
  let meta := orOne (fs_MetadataPoolReplicas cfg) in
  let data := orOne (fs_DataPoolReplicas cfg) in
  let domain := if String.eqb (fs_FailureDomain cfg) ""
                then if (meta =? 1) && (data =? 1) then "osd" else "host"
                else fs_FailureDomain cfg in
  let requireSafe := match fs_RequireSafeReplicaSize cfg with
                     | None => if (meta =? 1) || (data =? 1) then Some false else None
                     | safe => safe
                     end in
  let replicated size := VMap (("size", VInt size) ::
    match requireSafe with Some b => [("requireSafeReplicaSize", VBool b)] | None => [] end) in
  [("metadataPool", VMap [("failureDomain", VString domain); ("replicated", replicated meta)]);
   ("dataPools", VList [VMap [("name", VString (or_default (fs_DataPoolName cfg) "data0"));
                              ("failureDomain", VString domain); ("replicated", replicated data)]]);
   ("preserveFilesystemOnDelete", VBool false);
   ("metadataServer", VMap [("activeCount", VInt (orOne (fs_ActiveCount cfg))); ("activeStandby", VBool false)])].

Definition CreateCephFilesystem (cfg : CephFilesystemConfig) : M W (option error) :=
  if String.eqb (fs_Name cfg) "" then mret (Some (Errorf "CephFilesystem name is required"))
  else if String.eqb (fs_Namespace cfg) "" then mret (Some (Errorf "CephFilesystem namespace is required"))
  else createOrUpdateSpec (k := CephFilesystem) newDynamicClient "CephFilesystem"
         (formatRef (fs_Namespace cfg) (fs_Name cfg)) ∅ ∅ (cephfs_spec cfg).

Definition cephfs_ready (obj : unstructured (resource CephFilesystem)) : bool * string :=
  let o := Object (content obj) in
  if String.eqb (orZero "" (NestedString o ["status"; "phase"])) "Ready" then (true, "status.phase")
  else if cephFilesystemReadyByCondition o then (true, "status.conditions[Ready]=True")
  else (false, "").

Definition WaitForCephFilesystemReady (fuel : nat) (namespace name : string) (timeout : Z)
    : M W (option (option error)) :=
  pollResourceUntilReady (C := resource CephFilesystem) newDynamicClient fuel namespace name timeout
    PollTickInterval "CephFilesystem" (Some cephfs_ready).

Definition DeleteCephFilesystem (namespace name : string) : M W (option error) :=
  deleteResource (k := CephFilesystem) newDynamicClient "CephFilesystem" (namespace +:+ "/" +:+ name).

Definition WaitForCephFilesystemGone (fuel : nat) (namespace name : string) (timeout : Z)
    : M W (option (option error)) :=
  pollResourceUntilGone (C := resource CephFilesystem) newDynamicClient fuel namespace name
    (orTimeout timeout CephFilesystemGoneTimeout) PollTickInterval "CephFilesystem".
End Elastic.

(** ** The ConfigMap [rook-config-override] *)

Definition RookConfigOverrideName := "rook-config-override".

Definition RenderCephGlobalConfig (globals : gmap string string) : string :=
  let keys := merge_sort String.le (map fst (map_to_list globals)) in
  "[global]" +:+ nl +:+
  String.concat "" (map (fun k => k +:+ " = " +:+ default "" (globals !! k) +:+ nl) keys).

Record ConfigMap := mkCM { cmData : gmap string string; cmRest : gmap string string }.

Section ConfigOverride.
Context {W : Type} `{AE : ApiErrors, CM : Client W ConfigMap}.
Context (newClientset : M W (option error)).

Definition SetRookConfigOverride (namespace : string) (globals : gmap string string) : M W (option error) :=
  if String.eqb namespace "" then mret (Some (Errorf "namespace is required"))
  else
    let! err := newClientset in
    match err with
    | Some e => mret (Some (ErrorfW "failed to create clientset: " e ""))
    | None =>
        let ref := namespace +:+ "/" +:+ RookConfigOverrideName in
        let data := {["config" := RenderCephGlobalConfig globals]} in
        let! existing := clientGet ref in
        match existing with
        | Err e =>
            if IsNotFound (Some e) then
              let! err := clientCreate ref (mkCM data ∅) in
              mret (wrap_error ("failed to create ConfigMap " +:+ ref +:+ ": ") err)
            else mret (Some (ErrorfW ("failed to get ConfigMap " +:+ ref +:+ ": ") e ""))
        | Ok cm =>
            let! err := clientUpdate ref (mkCM data (cmRest cm)) in
            mret (wrap_error ("failed to update ConfigMap " +:+ ref +:+ ": ") err)
        end
    end.

Definition DeleteRookConfigOverride (namespace : string) : M W (option error) :=
  if String.eqb namespace "" then mret (Some (Errorf "namespace is required"))
  else
    let! err := newClientset in
    match err with
    | Some e => mret (Some (ErrorfW "failed to create clientset: " e ""))
    | None =>
        let ref := namespace +:+ "/" +:+ RookConfigOverrideName in
        deleteOrSkip (O := ConfigMap) ref (fun e => ErrorfW ("failed to delete ConfigMap " +:+ ref +:+ ": ") e "")
    end.

Context `{CML : !ClientLaws W ConfigMap}.

(** On success the ConfigMap holds the rendering of [globals] and no other key. *)
Lemma SetRookConfigOverride_ok namespace globals w w' :
  SetRookConfigOverride namespace globals w = (None, w') ->
  exists cm, objs w' !! (namespace +:+ "/" +:+ RookConfigOverrideName) = Some cm /\
    cmData cm = {["config" := RenderCephGlobalConfig globals]}.
Proof.
  intros H. unfold SetRookConfigOverride in H. destruct (String.eqb namespace ""); [done|].
  mstep H as [err w1] E1. destruct err as [e|]; [done|]. mstep H as [ex w2] E2. destruct ex as [cm|e].
  - mstep H as [u w3] E3. injection H as Hu <-. apply wrap_error_None in Hu as ->.
    apply update_ok in E3 as [_ ->]. rewrite lookup_insert_eq. by eexists.
  - destruct (IsNotFound (Some e)); [|done].
    mstep H as [u w3] E3. injection H as Hu <-. apply wrap_error_None in Hu as ->.
    apply create_ok in E3 as [_ ->]. rewrite lookup_insert_eq. by eexists.
Qed.
End ConfigOverride.

(** ** The annotation that allows a purge *)

Definition force_deletion (o : unstructured (resource ElasticStorageClass)) : bool :=
  String.eqb (default "" (resAnnotations (content o) !! ElasticStorageClassForceDeleteAnnotation)) "true".

Definition set_force_deletion (o : unstructured (resource ElasticStorageClass))
    : unstructured (resource ElasticStorageClass) :=
  mkObj (DeletionTimestamp o) (Finalizers o)
    (mkRes (resLabels (content o))
       (<[ElasticStorageClassForceDeleteAnnotation := "true"]> (resAnnotations (content o)))
       (Object (content o))).

Definition AnnotateElasticStorageClassForceDeletion {W} `{AE : ApiErrors}
    `{SE : Shared W (unstructured (resource ElasticStorageClass))} (newDynamicClient : M W (option error))
    (name : string) : M W (option error) :=
  let! err := newDynamicClient in
  match err with
  | Some e => mret (Some (ErrorfW "failed to create dynamic client: " e ""))
  | None =>
      rmw_loop force_deletion set_force_deletion
        (fun e => ErrorfW ("failed to get ElasticStorageClass " +:+ name +:+ ": ") e "")
        (fun e => ErrorfW ("failed to annotate ElasticStorageClass " +:+ name +:+ ": ") e "")
        (fun e => ErrorfW ("failed to annotate ElasticStorageClass " +:+ name +:+ " after " +:+
                           pretty maxRetries +:+ " attempts: ") e "")
        maxRetries name (Errorf "")
  end.

(** ** The accessors on maps, as a program *)

Definition nested {A} (pick : value -> option A) (o : tree) (path : list string) : result (option A) :=
  match at_path (VMap o) path with
  | None => Ok None
  | Some v => match pick v with Some a => Ok (Some a) | None => Err (Errorf "accessor error: wrong type") end
  end.

#[export] Instance map_nested : Nested := {|
  NestedString := nested (fun v => match v with VString s => Some s | _ => None end);
  NestedSlice := nested (fun v => match v with VList l => Some l | _ => None end);
  NestedMap := nested (fun v => match v with VMap m => Some m | _ => None end);
  NestedInt64 := nested (fun v => match v with VInt z => Some z | _ => None end)
|}.

Lemma nested_found {A} (pick : value -> option A) o p a :
  nested pick o p = Ok (Some a) <-> exists v, at_path (VMap o) p = Some v /\ pick v = Some a.
Proof.
  unfold nested. destruct (at_path (VMap o) p) as [v|].
  - destruct (pick v) eqn:E; split; try done; [intros [= <-]; eauto|intros (? & [= <-] & ?); congruence|].
    intros (? & [= <-] & ?). congruence.
  - split; [done|]. by intros (? & ? & _).
Qed.

#[export] Instance map_nested_laws : NestedLaws.
Proof.
  split; intros *; cbn [NestedString NestedSlice NestedMap NestedInt64 map_nested]; rewrite nested_found;
    (split; [intros (v & -> & H); destruct v; by simplify_eq|intros ->; by eexists]).
Qed.
