(* ===== verification/KitScenarios.v ===== *)
(** Scenarios of the test kit over its resources: [src/pkg/testkit/elastic.go] and
    [src/pkg/testkit/storageclass.go]. *)
From S2P Require Import Prelude Errors Retry Config Kube Deckhouse Wait Kit KitNodes KitVirt KitStorage KitElastic.

Local Open Scope Z_scope.
Local Open Scope go_scope.

(** ** Steps that end a scenario with an error

    The result of a scenario is [None] when the fuel runs out. *)
Section Steps.
Context {W A : Type}.

Definition ensure (m : M W (option error)) (failed : error -> error) (next : M W (option (result A)))
    : M W (option (result A)) :=
  let! err := m in
  match err with
  | Some e => mret (Some (Err (failed e)))
  | None => next
  end.

Definition await {B} (m : M W (option (result B))) (failed : error -> error) (next : B -> M W (option (result A)))
    : M W (option (result A)) :=
  let! r := m in
  match r with
  | None => mret None
  | Some (Err e) => mret (Some (Err (failed e)))
  | Some (Ok b) => next b
  end.

Definition waited (r : option (option error)) : option (result unit) :=
  match r with
  | None => None
  | Some (Some e) => Some (Err e)
  | Some None => Some (Ok tt)
  end.

Definition awaitVoid (m : M W (option (option error))) (failed : error -> error) (next : M W (option (result A)))
    : M W (option (result A)) :=
  await (let! r := m in mret (waited r)) failed (fun _ => next).

Lemma ensure_ok m failed next w a w' :
  ensure m failed next w = (Some (Ok a), w') -> exists w1, m w = (None, w1) /\ next w1 = (Some (Ok a), w').
Proof. intros H. unfold ensure in H. mstep H as [[e|] w1] E1; [done|eauto]. Qed.

Lemma await_ok {B} (m : M W (option (result B))) failed next w a w' :
  await m failed next w = (Some (Ok a), w') ->
  exists b w1, m w = (Some (Ok b), w1) /\ next b w1 = (Some (Ok a), w').
Proof. intros H. unfold await in H. mstep H as [[[b|e]|] w1] E1; [|done..]. eauto. Qed.

Lemma awaitVoid_ok m failed next w a w' :
  awaitVoid m failed next w = (Some (Ok a), w') ->
  exists w1, m w = (Some None, w1) /\ next w1 = (Some (Ok a), w').
Proof.
  intros (b & w1 & H & Hn)%await_ok. mstep H as [r w2] E. injection H as Hr <-. exists w2.
  destruct r as [[e|]|]; [done| |done]. done.
Qed.
End Steps.

(** ** [testkit/elastic.go] *)

Definition DefaultElasticStorageNodeLabelKey := "sds-elastic-e2e.storage.deckhouse.io/storage-node".
Definition DefaultElasticStorageNodeLabelValue := "true".
Definition DefaultElasticOSDLabelKey := "sds-elastic-e2e.storage.deckhouse.io/osd".
Definition DefaultElasticOSDLabelValue := "true".
Definition DefaultElasticClusterReadyTimeout : Z := 25 * Minute.
Definition DefaultElasticStorageClassReadyTimeout : Z := 10 * Minute.
Definition blockDevicePollInterval : Z := 10 * Second.

Record ElasticOSDBlockDevicesConfig := mkOSD {
  osd_StorageNodeNames : list string;
  osd_NodeLabelKey : string;
  osd_NodeLabelValue : string;
  osd_BlockDeviceLabelKey : string;
  osd_BlockDeviceLabelValue : string;
  osd_MinBlockDevices : Z;
  osd_BlockDeviceWaitTimeout : Z
}.

Definition or_zero (t d : Z) : Z := if t =? 0 then d else t.

Definition applyDefaults (c : ElasticOSDBlockDevicesConfig) : ElasticOSDBlockDevicesConfig :=
  mkOSD (osd_StorageNodeNames c)
    (or_default (osd_NodeLabelKey c) DefaultElasticStorageNodeLabelKey)
    (or_default (osd_NodeLabelValue c) DefaultElasticStorageNodeLabelValue)
    (or_default (osd_BlockDeviceLabelKey c) DefaultElasticOSDLabelKey)
    (or_default (osd_BlockDeviceLabelValue c) DefaultElasticOSDLabelValue)
    (orOne (osd_MinBlockDevices c)) (or_zero (osd_BlockDeviceWaitTimeout c) (10 * Minute)).

Section OSD.
Context {W : Type} `{AE : ApiErrors, CX : Ctx W, SC : Scope W, SN : Shared W KNode, SB : Shared W BlockDevice}.
Context (newClientset newDynamicClient : M W (option error)).
Context (addToScheme : option error) (clientNew : M W (option error)).

(** The state is [lastSeen]. *)
Definition consumable_check (nodeNames : list string) (minCount : Z) (lastSeen : Z)
    : M W (Z * option (result (list BlockDeviceInfo))) :=
  let! all := GetConsumableBlockDevices addToScheme clientNew in
  mret match all with
       | Err _ => (lastSeen, None)
       | Ok all =>
           let onNodes := filter (fun bd => NodeName bd ∈ nodeNames) all in
           let seen := Z.of_nat (length onNodes) in
           (seen, if minCount <=? seen then Some (Ok onNodes) else None)
       end.

Definition waitForConsumableBlockDevicesOnNodes (fuel : nat) (nodeNames : list string) (minCount timeout : Z)
    : M W (option (result (list BlockDeviceInfo))) :=
  withTimeout timeout
    (poll (consumable_check nodeNames minCount)
       (fun lastSeen ce => Err (ErrorfWn ("timeout waiting for >= " +:+ pretty minCount +:+
          " consumable BlockDevices on storage nodes (last seen " +:+ pretty lastSeen +:+ "): ") ce ""))
       fuel blockDevicePollInterval 0).

Definition resolve_nodes (names : list string) : M W (result (list string)) :=
  match names with
  | [] =>
      let! workers := GetWorkerNodes newClientset in
      mret match workers with
           | Err e => Err (ErrorfW "list worker nodes: " e "")
           | Ok l => Ok (map fst l)
           end
  | _ => mret (Ok names)
  end.

Definition label_devices (key value : string) (bds : list BlockDeviceInfo) : M W (option error) :=
  each (fun bd =>
    let! err := LabelBlockDevice newDynamicClient (KitNodes.Name bd) key value in
    mret (wrap_error ("label BlockDevice " +:+ KitNodes.Name bd +:+ ": ") err)) bds.

Definition EnsureElasticOSDBlockDevices (fuel : nat) (cfg : ElasticOSDBlockDevicesConfig)
    : M W (option (result (list string))) :=
  let cfg := applyDefaults cfg in
  let! nodes := resolve_nodes (osd_StorageNodeNames cfg) in
  match nodes with
  | Err e => mret (Some (Err e))
  | Ok [] => mret (Some (Err (Errorf "no storage nodes resolved (StorageNodeNames empty and no worker nodes found)")))
  | Ok nodeNames =>
      ensure (LabelNodes newClientset nodeNames (osd_NodeLabelKey cfg) (osd_NodeLabelValue cfg))
        (fun e => ErrorfW "label storage nodes: " e "")
        (await (waitForConsumableBlockDevicesOnNodes fuel nodeNames (osd_MinBlockDevices cfg)
                  (osd_BlockDeviceWaitTimeout cfg)) id
           (fun bds => ensure (label_devices (osd_BlockDeviceLabelKey cfg) (osd_BlockDeviceLabelValue cfg) bds) id
              (mret (Some (Ok (map KitNodes.Name bds))))))
  end.

(** *** Theorems *)
Context `{SLB : !SharedLaws W BlockDevice}.
Hypothesis dyn_moves : forall w, rtc moved_on (db (O := BlockDevice) w) (db (newDynamicClient w).2).
Hypothesis leave_db : forall w w', db (O := BlockDevice) (leave w w') = db w'.

(** The wait ends with the consumable devices of the nodes, all of them and enough. *)
Lemma wait_consumable_ok fuel nodeNames minCount timeout w l w' :
  waitForConsumableBlockDevicesOnNodes fuel nodeNames minCount timeout w = (Some (Ok l), w') ->
  minCount <= Z.of_nat (length l) /\
  forall i, i ∈ l <-> NodeName i ∈ nodeNames /\
    exists name v, db w' !! name = Some v /\ Consumable (val v) = true /\ i = info_of (name, v).
Proof.
  intros (w1 & H & ->)%withTimeout_inv. apply (poll_ended _ _ (fun _ _ => True)) in H; [|done..].
  destruct H as [ls v0 ls' _ Hc|ls ce z v0 v1 _ _ _ [=]]. unfold consumable_check in Hc.
  mstep Hc as [all v1] E. destruct all as [all|e]; [|done].
  destruct (Z.leb_spec minCount (Z.of_nat (length (filter (fun bd => NodeName bd ∈ nodeNames) all)))); [|done].
  injection Hc as _ <- <-. split; [done|]. intros i. rewrite list_elem_of_filter leave_db.
  unfold GetConsumableBlockDevices, with_bd_client in E. mstep E as [err v2] E2.
  destruct err as [e|]; [done|]. pose proof (list_if_ok _ _ _ _ E i) as Hi. naive_solver.
Qed.

Lemma label_devices_ok key value bds w w' :
  label_devices key value bds w = (None, w') ->
  chain (settled (bd_has_label key value) (set_bd_label key value)) (map KitNodes.Name bds) (db w) (db w').
Proof.
  intros H. unfold label_devices in H.
  pose (R := fun bd => settled (bd_has_label key value) (set_bd_label key value) (KitNodes.Name bd)).
  apply (each_chain _ db R (fun _ _ _ => True)) in H.
  - clear -H. induction H; [constructor|by econstructor].
  - intros bd v r v' Hr. mstep Hr as [r0 v1] E. injection Hr as <- <-.
    apply LabelBlockDevice_spec in E; [|done..]. by destruct r0.
Qed.

(** When [EnsureElasticOSDBlockDevices] succeeds, the names it returns are exactly the block
    devices that were consumable and on one of the storage nodes when it last looked, at least
    [MinBlockDevices] (and at least one) of them; and, one after another, each was found with
    the label or given it by a write that kept everything else about the device. *)
Theorem EnsureElasticOSDBlockDevices_spec fuel cfg w names w' :
  EnsureElasticOSDBlockDevices fuel cfg w = (Some (Ok names), w') ->
  exists nodes v,
    nodes <> [] /\ (osd_StorageNodeNames cfg <> [] -> nodes = osd_StorageNodeNames cfg) /\
    Z.max 1 (osd_MinBlockDevices cfg) <= Z.of_nat (length names) /\
    (forall name, name ∈ names <-> exists bd, db v !! name = Some bd /\ Consumable (val bd) = true /\
       bdNodeName (val bd) ∈ nodes) /\
    chain (settled (bd_has_label (osd_BlockDeviceLabelKey (applyDefaults cfg)) (osd_BlockDeviceLabelValue (applyDefaults cfg)))
             (set_bd_label (osd_BlockDeviceLabelKey (applyDefaults cfg)) (osd_BlockDeviceLabelValue (applyDefaults cfg))))
      names (db v) (db w').
Proof.
  intros H. unfold EnsureElasticOSDBlockDevices in H. mstep H as [nodes w1] E1.
  destruct nodes as [[|n0 nodes]|e]; [done| |done].
  apply ensure_ok in H as (w2 & _ & H). apply await_ok in H as (bds & w3 & E3 & H).
  apply ensure_ok in H as (w4 & E4 & H). injection H as <- <-.
  apply wait_consumable_ok in E3 as [Hlen Hin]. apply label_devices_ok in E4.
  exists (n0 :: nodes), w3. split; [done|]. split.
  { intros Hne. cbn in E1. destruct (osd_StorageNodeNames cfg); [done|]. unfold resolve_nodes, mret, M_ret in E1. congruence. }
  split. { cbn in Hlen. unfold orOne in Hlen. rewrite length_map. destruct (Z.leb_spec (osd_MinBlockDevices cfg) 0); lia. }
  split; [|done]. intros name. rewrite list_elem_of_fmap. split.
  - intros (i & -> & Hi). apply Hin in Hi as (Hn & nm & bd & Hbd & Hc & ->). cbn in *. eauto.
  - intros (bd & Hbd & Hc & Hn). exists (info_of (name, bd)). split; [done|]. apply Hin. cbn. eauto 10.
Qed.
End OSD.

(** Two workers, a consumable disk on one of them; somebody writes the disk in between. *)
Definition osd_world : memWorld unit * (shared_mem KNode * shared_mem BlockDevice) :=
  (mkWorld (mkMem ∅ []) 9 false,
   (mkShared {["worker-0" := mkVersioned 1 (mkKNode ∅ []); "worker-1" := mkVersioned 4 (mkKNode ∅ [])]} [],
    mkShared {["dev-a" := mkVersioned 1 (mkBlockDevice ∅ true "worker-0" "/dev/sdb" "20Gi");
               "dev-b" := mkVersioned 1 (mkBlockDevice ∅ false "worker-1" "/dev/sdb" "20Gi")]}
      [Nothing; Nothing; SomebodyWrites "dev-a" (mkBlockDevice {["zone" := "a"]} true "worker-0" "/dev/sdb" "20Gi")])).

Example EnsureElasticOSDBlockDevices_witness :
  let cfg := mkOSD [] "" "" "" "" 0 0 in
  exists w', EnsureElasticOSDBlockDevices (mret None) (mret None) None (mret None) 9 cfg osd_world
               = (Some (Ok ["dev-a"]), w') /\
    exists v : memWorld unit * (shared_mem KNode * shared_mem BlockDevice),
      chain (settled (bd_has_label DefaultElasticOSDLabelKey "true") (set_bd_label DefaultElasticOSDLabelKey "true"))
                ["dev-a"] (db (O := BlockDevice) v) (db w').
Proof.
  intros cfg.
  destruct (EnsureElasticOSDBlockDevices (mret None) (mret None) None (mret None) 9 cfg osd_world) as [r w'] eqn:E.
  assert (Hr : r = Some (Ok ["dev-a"])) by (vm_compute in E; by injection E as <- _).
  subst r. exists w'. split; [reflexivity|].
  assert (H0 : forall w : memWorld unit * (shared_mem KNode * shared_mem BlockDevice),
    rtc moved_on (db (O := BlockDevice) w) (db (O := BlockDevice) ((mret None : M _ (option error)) w).2))
    by (intros; apply rtc_refl).
  assert (H1 : forall w w' : memWorld unit * (shared_mem KNode * shared_mem BlockDevice),
    db (O := BlockDevice) (leave w w') = db w') by reflexivity.
  destruct (EnsureElasticOSDBlockDevices_spec (mret None) (mret None) None (mret None) H0 H1 9 cfg osd_world
    ["dev-a"] w' E) as (nodes & v & _ & _ & _ & _ & Hc).
  exists v. exact Hc.
Defined.

Record ElasticClusterConfig := mkECConfig {
  ecc_Params : ElasticClusterParams;
  ecc_ReadyTimeout : Z
}.

Record ElasticStorageClassConfig := mkESCConfig {
  escc_Params : ElasticStorageClassParams;
  escc_ReadyTimeout : Z;
  escc_StorageClassWaitTimeout : Z
}.

Section ElasticScenarios.
Context {W : Type} `{AE : ApiErrors, CX : Ctx W, SC : Scope W, ND : Nested}.
Context `{CEC : Client W (unstructured (resource ElasticCluster)), CES : Client W (unstructured (resource ElasticStorageClass))}.
Context `{KC : Client W StorageClass}.
Context `{SE : Shared W (unstructured (resource ElasticStorageClass))}.
Context (newClientset newDynamicClient : M W (option error)).

Definition EnsureElasticCluster (fuel : nat) (cfg : ElasticClusterConfig) : M W (option (result string)) :=
  let name := ec_Name (ecc_Params cfg) in
  if String.eqb name "" then mret (Some (Err (Errorf "ElasticClusterConfig.Name is required")))
  else
    ensure (CreateElasticCluster newDynamicClient (ecc_Params cfg))
      (fun e => ErrorfW "create ElasticCluster: " e "")
      (awaitVoid (WaitForElasticClusterReady newDynamicClient fuel name
                    (or_zero (ecc_ReadyTimeout cfg) DefaultElasticClusterReadyTimeout))
         (fun e => ErrorfW "wait ElasticCluster Ready: " e "")
         (mret (Some (Ok name)))).

Definition EnsureElasticStorageClass (fuel : nat) (cfg : ElasticStorageClassConfig) : M W (option (result string)) :=
  let name := esc_Name (escc_Params cfg) in
  if String.eqb name "" then mret (Some (Err (Errorf "ElasticStorageClassConfig.Name is required")))
  else if String.eqb (esc_ClusterRef (escc_Params cfg)) ""
  then mret (Some (Err (Errorf "ElasticStorageClassConfig.ClusterRef is required")))
  else if String.eqb (esc_Type (escc_Params cfg)) ""
  then mret (Some (Err (Errorf "ElasticStorageClassConfig.Type is required (RBD or CephFS)")))
  else
    ensure (CreateElasticStorageClass newDynamicClient (escc_Params cfg))
      (fun e => ErrorfW "create ElasticStorageClass: " e "")
      (awaitVoid (WaitForElasticStorageClassReady newDynamicClient fuel name
                    (or_zero (escc_ReadyTimeout cfg) DefaultElasticStorageClassReadyTimeout))
         (fun e => ErrorfW "wait ElasticStorageClass Ready: " e "")
         (awaitVoid (WaitForStorageClass newClientset fuel name
                       (or_zero (escc_StorageClassWaitTimeout cfg) (2 * Minute)))
            (fun e => ErrorfW "wait core StorageClass: " e "")
            (mret (Some (Ok name))))).

Definition TeardownElasticStorageClass (fuel : nat) (name : string) (force : bool) (timeout : Z)
    : M W (option (result unit)) :=
  ensure (if force then AnnotateElasticStorageClassForceDeletion newDynamicClient name else mret None)
    (fun e => ErrorfW "annotate ElasticStorageClass force-deletion: " e "")
    (ensure (DeleteElasticStorageClass newDynamicClient name) (fun e => ErrorfW "delete ElasticStorageClass: " e "")
       (awaitVoid (WaitForElasticStorageClassGone newDynamicClient fuel name timeout)
          (fun e => ErrorfW "wait ElasticStorageClass gone: " e "")
          (mret (Some (Ok tt))))).

Definition TeardownElasticCluster (fuel : nat) (name : string) (timeout : Z) : M W (option (result unit)) :=
  ensure (DeleteElasticCluster newDynamicClient name) (fun e => ErrorfW "delete ElasticCluster: " e "")
    (awaitVoid (WaitForElasticClusterGone newDynamicClient fuel name timeout)
       (fun e => ErrorfW "wait ElasticCluster gone: " e "")
       (mret (Some (Ok tt)))).

Context `{CL : !CtxLaws W, NL : !NestedLaws}.
Context `{CESL : !ClientLaws W (unstructured (resource ElasticStorageClass))}.
Context `{SCL : !ScopeLaws W (unstructured (resource ElasticStorageClass))}.
Context `{CECL : !ClientLaws W (unstructured (resource ElasticCluster))}.
Context `{SCC : !ScopeLaws W (unstructured (resource ElasticCluster))}.
Context `{KCL : !ClientLaws W StorageClass, KSL : !ScopeLaws W StorageClass}.
Hypothesis dyn_keeps : forall w,
  objs (O := unstructured (resource ElasticStorageClass)) (newDynamicClient w).2 = objs w.

(** [status.conditions] has an entry with the type [Ready] and the status [True]. *)
Definition shows_ready {k} (obj : unstructured (resource k)) : Prop :=
  exists l m, at_path (VMap (Object (content obj))) ["status"; "conditions"] = Some (VList l) /\
    In (VMap m) l /\ field m "type" = Some (VString "Ready") /\ field m "status" = Some (VString "True").

(** When [EnsureElasticStorageClass] succeeds, the class was created, or one of its name that
    was not being deleted had its spec replaced and nothing else; then it was seen with the
    condition Ready at True and not being deleted; and the core StorageClass of the same name
    exists at the end. *)
Theorem EnsureElasticStorageClass_spec fuel cfg w name w' :
  EnsureElasticStorageClass fuel cfg w = (Some (Ok name), w') ->
  name = esc_Name (escc_Params cfg) /\
  exists w1 w2 obj,
    match objs (O := unstructured (resource ElasticStorageClass)) w !! name with
    | None => objs (O := unstructured (resource ElasticStorageClass)) w1 = <[name := mkObj None [] (mkRes (esc_Labels (escc_Params cfg)) (esc_Annotations (escc_Params cfg))
                [("spec", VMap (buildElasticStorageClassObject (escc_Params cfg)))])]> (objs w)
    | Some old => DeletionTimestamp old = None /\
        objs (O := unstructured (resource ElasticStorageClass)) w1 = <[name := with_spec (buildElasticStorageClassObject (escc_Params cfg)) old]> (objs w)
    end /\
    objs (O := unstructured (resource ElasticStorageClass)) w2 !! name = Some obj /\
    DeletionTimestamp obj = None /\ shows_ready obj /\
    is_Some (objs (O := StorageClass) w' !! name).
Proof.
  intros H. unfold EnsureElasticStorageClass, CreateElasticStorageClass in H.
  destruct (String.eqb (esc_Name _) ""); [done|]. destruct (String.eqb (esc_ClusterRef _) ""); [done|].
  destruct (String.eqb (esc_Type _) ""); [done|].
  apply ensure_ok in H as (w1 & E1 & H). apply createOrUpdateSpec_ok in E1; [|try exact dyn_keeps; exact _..].
  apply awaitVoid_ok in H as (w2 & E2 & H). apply ready_wait_ok in E2 as (obj & p & Ho & Hd & [= <-] & Hr);
    [|exact _..]. apply condition_ready_spec in Hr; [|done..].
  apply awaitVoid_ok in H as (w3 & E3 & H). apply WaitForStorageClass_ok in E3; [|exact _..].
  injection H as <- <-. split; [done|]. by exists w1, w2, obj.
Qed.

Lemma TeardownElasticStorageClass_ok fuel name force timeout w w' :
  TeardownElasticStorageClass fuel name force timeout w = (Some (Ok tt), w') ->
  objs (O := unstructured (resource ElasticStorageClass)) w' !! name = None.
Proof.
  intros (w1 & _ & H)%ensure_ok. apply ensure_ok in H as (w2 & _ & H).
  apply awaitVoid_ok in H as (w3 & E & H). injection H as <-. apply gone_wait_ok in E; [done|exact _..].
Qed.

Lemma TeardownElasticCluster_ok fuel name timeout w w' :
  TeardownElasticCluster fuel name timeout w = (Some (Ok tt), w') ->
  objs (O := unstructured (resource ElasticCluster)) w' !! name = None.
Proof.
  intros (w1 & _ & H)%ensure_ok. apply awaitVoid_ok in H as (w3 & E & H). injection H as <-.
  apply gone_wait_ok in E; [done|exact _..].
Qed.

Lemma EnsureElasticCluster_ok fuel cfg w name w' :
  EnsureElasticCluster fuel cfg w = (Some (Ok name), w') ->
  exists obj, objs (O := unstructured (resource ElasticCluster)) w' !! name = Some obj /\
    DeletionTimestamp obj = None /\ shows_ready obj.
Proof.
  intros H. unfold EnsureElasticCluster in H. destruct (String.eqb (ec_Name _) ""); [done|].
  apply ensure_ok in H as (w1 & _ & H). apply awaitVoid_ok in H as (w2 & E2 & H). injection H as <- <-.
  apply ready_wait_ok in E2 as (obj & p & Ho & Hd & [= <-] & Hr); [|exact _..]. apply condition_ready_spec in Hr; [|done..].
  by exists obj.
Qed.
End ElasticScenarios.

(** An ElasticStorageClass that is ready beside the StorageClass of the same name. *)
Definition ready_class : unstructured (resource ElasticStorageClass) :=
  mkObj None ["sds-elastic"] (mkRes {["team" := "storage"]} ∅
    [("spec", VMap [("type", VString "CephFS")]);
     ("status", VMap [("phase", VString "Ready");
                      ("conditions", VList [VNull; VMap [("type", VString "PoolReady"); ("status", VString "False")];
                                            VMap [("type", VString "Ready"); ("status", VString "True")]])])]).

Definition elastic_world : memWorld (unstructured (resource ElasticStorageClass)) * memWorld StorageClass :=
  (mkWorld (mkMem {["rbd" := ready_class]} []) 9 false,
   mkWorld (mkMem {["rbd" := mkSC ∅ ∅ "rbd.csi.ceph.com" ∅ "Delete" true "Immediate"]} []) 9 false).

Example EnsureElasticStorageClass_witness :
  let cfg := mkESCConfig (mkESCParams "rbd" "ec" "RBD" "" ∅ ∅) 0 0 in
  exists w', EnsureElasticStorageClass (mret None) (mret None) 9 cfg elastic_world = (Some (Ok "rbd"), w') /\
    is_Some (objs (O := StorageClass) w' !! "rbd").
Proof.
  intros cfg. destruct (EnsureElasticStorageClass (mret None) (mret None) 9 cfg elastic_world) as [r w'] eqn:E.
  pose proof (EnsureElasticStorageClass_spec (mret None) (mret None) (fun _ => eq_refl) 9 cfg elastic_world "rbd" w') as H.
  assert (Hr : r = Some (Ok "rbd")) by (vm_compute in E; by injection E as <- _).
  subst r. exists w'. split; [reflexivity|]. destruct (H E) as (_ & w1 & w2 & obj & _ & _ & _ & _ & Hs). exact Hs.
Defined.

(** A forced teardown of a class that does not exist fails; without force it succeeds. *)
Example TeardownElasticStorageClass_missing :
  let w := (mkWorld (mkMem (O := unstructured (resource ElasticStorageClass)) ∅ []) 9 false,
            mkShared (O := unstructured (resource ElasticStorageClass)) ∅ []) in
  (exists w', TeardownElasticStorageClass (mret None) 9 "rbd" false Minute w = (Some (Ok tt), w')) /\
  exists e w', TeardownElasticStorageClass (mret None) 9 "rbd" true Minute w = (Some (Err e), w').
Proof. split; vm_compute; [by eexists|by eexists _, _]. Qed.
