(* ===== verification/KitDefault.v ===== *)
(** The default StorageClass of a test cluster: [src/pkg/testkit/storageclass.go]. *)
From S2P Require Import Prelude Errors Retry Config Kube Deckhouse Wait Virt Kit KitNodes KitVirt KitStorage KitScenarios.

Local Open Scope Z_scope.
Local Open Scope go_scope.

(** [dc_Base] tells whether [BaseKubeconfig] is set. *)
Record DefaultStorageClassConfig := mkDefaultClass {
  dc_StorageClassName : string;
  dc_LVMType : string;
  dc_ThinPoolName : string;
  dc_ThinPoolSize : string;
  dc_ThinPoolAllocationLimit : string;
  dc_VGName : string;
  dc_NodeNames : list string;
  dc_IncludeMasters : bool;
  dc_Base : bool;
  dc_VMNamespace : string;
  dc_BaseStorageClassName : string;
  dc_DiskSize : string;
  dc_DiskAttachTimeout : Z;
  dc_BlockDeviceWaitTimeout : Z;
  dc_LVGReadyTimeout : Z;
  dc_LocalStorageClassTimeout : Z;
  dc_StorageClassWaitTimeout : Z
}.

Definition class_defaults (c : DefaultStorageClassConfig) : DefaultStorageClassConfig :=
  mkDefaultClass (dc_StorageClassName c) (or_default (dc_LVMType c) "Thin")
    (or_default (dc_ThinPoolName c) "thinpool") (or_default (dc_ThinPoolSize c) "90%")
    (or_default (dc_ThinPoolAllocationLimit c) "150%") (or_default (dc_VGName c) "vg-local")
    (dc_NodeNames c) (dc_IncludeMasters c) (dc_Base c) (dc_VMNamespace c) (dc_BaseStorageClassName c)
    (or_default (dc_DiskSize c) "20Gi") (or_zero (dc_DiskAttachTimeout c) (15 * Minute))
    (or_zero (dc_BlockDeviceWaitTimeout c) (10 * Minute)) (or_zero (dc_LVGReadyTimeout c) (10 * Minute))
    (or_zero (dc_LocalStorageClassTimeout c) (5 * Minute)) (or_zero (dc_StorageClassWaitTimeout c) (2 * Minute)).

Definition storageModules : list ModuleConfig :=
  [mkModule "sds-node-configurator" 1 true None [] "";
   mkModule "sds-local-volume" 1 true None ["sds-node-configurator"] ""].

Definition sdsLocalVolumeNodeLabel := "storage.deckhouse.io/sds-local-volume-node".

Definition lvg_name (nodeName : string) : string := "lvg-" +:+ nodeName.

Section DefaultClass.
Context {W : Type} `{AE : ApiErrors, CX : Ctx W, SP : Scope W, CK : Clock W}.
Context `{SN : Shared W KNode, SB : Shared W BlockDevice, LG : Client W LVMVolumeGroup}.
Context `{LC : Client W LocalStorageClass, KC : Client W StorageClass}.
Context `{CD : Client W VirtualDisk, CA : Client W VMBDA}.
Context `{CF : ClientFactory W, MC : Client W ModuleConfigSpec}.
(** The constructors of the clients, and [ParseQuantity] of apimachinery. *)
Context (newClientset newDynamicClient : M W (option error)).
Context (sncScheme : option error) (sncNew : M W (option error)).
Context (virtScheme2 virtScheme3 : option error) (virtNew : M W (option error)).
Context (ParseQuantity : string -> result Z).
(** [kubernetes.EnableModulesAndWait]: its order is the subject of [Modules.v]. *)
Context (EnableModulesAndWait : list ModuleConfig -> Z -> M W (option (option error))).

Definition class_nodes (cfg : DefaultStorageClassConfig) : M W (result (list string)) :=
  match dc_NodeNames cfg with
  | [] =>
      let! objs := (if dc_IncludeMasters cfg then GetNodes newClientset else GetWorkerNodes newClientset) in
      mret match objs with
           | Err e => Err (ErrorfW (if dc_IncludeMasters cfg then "failed to get all nodes: "
                                    else "failed to get worker nodes: ") e "")
           | Ok l => Ok (map fst l)
           end
  | names => mret (Ok names)
  end.

(** The disk of one node, attached and seen attached. *)
Definition attach_disk (fuel : nat) (cfg : DefaultStorageClassConfig) (runSuffix : Z) (nodeName : string)
    : M W (option (result unit)) :=
  let! res := AttachVirtualDiskToVM virtScheme2 virtScheme3 virtNew ParseQuantity
                (mkAttach nodeName (dc_VMNamespace cfg) (nodeName +:+ "-sds-local-disk-" +:+ pretty runSuffix)
                   (dc_DiskSize cfg) (dc_BaseStorageClassName cfg)) in
  match res with
  | Err e => mret (Some (Err (ErrorfW ("failed to attach VirtualDisk to VM " +:+ nodeName +:+ ": ") e "")))
  | Ok res =>
      awaitVoid (WaitForVirtualDiskAttached virtScheme2 virtScheme3 virtNew fuel (dc_VMNamespace cfg)
                   (ar_AttachmentName res) (10 * Second))
        (fun e => ErrorfW ("disk attachment for VM " +:+ nodeName +:+ " did not complete: ") e "")
        (mret (Some (Ok tt)))
  end.

Fixpoint attach_disks (fuel : nat) (cfg : DefaultStorageClassConfig) (runSuffix : Z) (nodes : list string)
    : M W (option (result unit)) :=
  match nodes with
  | [] => mret (Some (Ok tt))
  | n :: nodes => await (attach_disk fuel cfg runSuffix n) id (fun _ => attach_disks fuel cfg runSuffix nodes)
  end.

Definition attach_step (fuel : nat) (cfg : DefaultStorageClassConfig) (nodes : list string)
    : M W (option (result unit)) :=
  if dc_Base cfg then
    if String.eqb (dc_VMNamespace cfg) ""
    then mret (Some (Err (Errorf "VMNamespace is required when BaseKubeconfig is set")))
    else if String.eqb (dc_BaseStorageClassName cfg) ""
    then mret (Some (Err (Errorf "BaseStorageClassName is required when BaseKubeconfig is set")))
    else let! t := now in
         withTimeout (dc_DiskAttachTimeout cfg) (attach_disks fuel cfg (t / Second) nodes)
  else mret (Some (Ok tt)).

(** Nodes that keep agents out are skipped; a failed check does not skip. *)
Definition skip_node (cfg : DefaultStorageClassConfig) (nodeName : string) : M W bool :=
  if dc_IncludeMasters cfg then
    let! cordoned := IsNodeCordoned newClientset nodeName in
    mret match cordoned with Ok b => b | Err _ => false end
  else mret false.

Definition device_look (nodeName : string) : M W (option BlockDeviceInfo) :=
  let! bds := GetConsumableBlockDevicesByNode sncScheme sncNew nodeName in
  mret match bds with Ok (bd :: _) => Some bd | _ => None end.

Definition create_group (cfg : DefaultStorageClassConfig) (nodeName : string) (bd : BlockDeviceInfo) : M W (option error) :=
  if String.eqb (dc_LVMType cfg) "Thin" then
    CreateLVMVolumeGroupWithThinPool sncScheme sncNew (lvg_name nodeName) nodeName [KitNodes.Name bd] (dc_VGName cfg)
      [mkThinPool (dc_ThinPoolName cfg) (dc_ThinPoolSize cfg) (dc_ThinPoolAllocationLimit cfg)]
  else if String.eqb (dc_LVMType cfg) "Thick" then
    CreateLVMVolumeGroup sncScheme sncNew (lvg_name nodeName) nodeName [KitNodes.Name bd] (dc_VGName cfg)
  else mret None.

Definition unless_exists (err : option error) : option error :=
  if IsAlreadyExists err then None else err.

Definition setup_group (fuel : nat) (cfg : DefaultStorageClassConfig) (nodeName : string) : M W (option (result unit)) :=
  await (sleep_wait (device_look nodeName)
           (Errorf ("timeout waiting for consumable block devices on node " +:+ nodeName))
           (10 * Second) fuel (dc_BlockDeviceWaitTimeout cfg)) id
    (fun bd =>
       let! err := create_group cfg nodeName bd in
       match unless_exists err with
       | Some e => mret (Some (Err (ErrorfW ("failed to create LVG " +:+ lvg_name nodeName +:+ ": ") e "")))
       | None => awaitVoid (WaitForLVMVolumeGroupReady sncScheme sncNew fuel (lvg_name nodeName) (dc_LVGReadyTimeout cfg))
                   (fun e => ErrorfW ("LVG " +:+ lvg_name nodeName +:+ " did not become ready: ") e "")
                   (mret (Some (Ok tt)))
       end).

(** The groups of the nodes that are not skipped, in their order. *)
Fixpoint setup_groups (fuel : nat) (cfg : DefaultStorageClassConfig) (nodes : list string)
    : M W (option (result (list string))) :=
  match nodes with
  | [] => mret (Some (Ok []))
  | n :: nodes =>
      let! skip := skip_node cfg n in
      if skip : bool then setup_groups fuel cfg nodes
      else await (setup_group fuel cfg n) id (fun _ =>
             await (setup_groups fuel cfg nodes) id (fun names => mret (Some (Ok (lvg_name n :: names)))))
  end.

Definition CreateDefaultStorageClass (fuel : nat) (cfg0 : DefaultStorageClassConfig) : M W (option (result string)) :=
  let cfg := class_defaults cfg0 in
  let name := dc_StorageClassName cfg in
  if String.eqb name "" then mret (Some (Err (Errorf "StorageClassName is required")))
  else if negb (String.eqb (dc_LVMType cfg) "Thin") && negb (String.eqb (dc_LVMType cfg) "Thick")
  then mret (Some (Err (Errorf ("invalid LVMType: " +:+ dc_LVMType cfg +:+ " (must be Thin or Thick)"))))
  else if String.eqb (dc_LVMType cfg) "Thin" && String.eqb (dc_ThinPoolName cfg) ""
  then mret (Some (Err (Errorf "ThinPoolName is required for Thin LVM type")))
  else
    let! nodes := class_nodes cfg in
    match nodes with
    | Err e => mret (Some (Err e))
    | Ok [] => mret (Some (Err (Errorf "no nodes available for LVG creation")))
    | Ok nodes =>
        awaitVoid (EnableModulesAndWait storageModules (10 * Minute))
          (fun e => ErrorfW "failed to enable storage modules: " e "")
          (ensure (LabelNodes newClientset nodes sdsLocalVolumeNodeLabel "")
             (fun e => ErrorfW "failed to label nodes for sds-node-configurator: " e "")
             (await (attach_step fuel cfg nodes) id (fun _ =>
                await (setup_groups fuel cfg nodes) id (fun lvgNames =>
                  ensure (CreateLocalStorageClass newDynamicClient
                            (mkLSCConfig name lvgNames (dc_LVMType cfg) (dc_ThinPoolName cfg) "" ""))
                    (fun e => ErrorfW ("failed to create LocalStorageClass " +:+ name +:+ ": ") e "")
                    (awaitVoid (WaitForLocalStorageClassCreated newDynamicClient fuel name (dc_LocalStorageClassTimeout cfg))
                       (fun e => ErrorfW ("LocalStorageClass " +:+ name +:+ " did not reach Created phase: ") e "")
                       (awaitVoid (WaitForStorageClass newClientset fuel name (dc_StorageClassWaitTimeout cfg))
                          (fun e => ErrorfW ("StorageClass " +:+ name +:+ " did not appear: ") e "")
                          (mret (Some (Ok name)))))))))
    end.

Definition EnsureDefaultStorageClass (fuel : nat) (cfg0 : DefaultStorageClassConfig) : M W (option (result string)) :=
  let cfg := class_defaults cfg0 in
  let name := dc_StorageClassName cfg in
  if String.eqb name "" then mret (Some (Err (Errorf "StorageClassName is required")))
  else
    let! existing := GetStorageClass newClientset name in
    match existing with
    | Err e => mret (Some (Err (ErrorfW ("failed to check StorageClass " +:+ name +:+ ": ") e "")))
    | Ok existing =>
        await (match existing with
               | Some _ => mret (Some (Ok name))
               | None => CreateDefaultStorageClass fuel cfg
               end)
          (fun e => ErrorfW ("failed to create StorageClass " +:+ name +:+ ": ") e "")
          (fun scName =>
             ensure (SetGlobalDefaultStorageClass scName)
               (fun e => ErrorfW ("failed to set " +:+ scName +:+ " as default in global ModuleConfig: ") e "")
               (mret (Some (Ok scName))))
    end.

(** ** Theorems *)
Context `{CL : !CtxLaws W, LGL : !ClientLaws W LVMVolumeGroup, LCL : !ClientLaws W LocalStorageClass}.
Context `{KCL : !ClientLaws W StorageClass, KSL : !ScopeLaws W StorageClass, LSL : !ScopeLaws W LocalStorageClass}.
Context `{MCL : !ClientLaws W ModuleConfigSpec}.
Hypothesis dyn_keeps : forall w, objs (O := LocalStorageClass) (newDynamicClient w).2 = objs w.

(** A moment at which the group was ready. *)
Definition seen_ready (name : string) : Prop :=
  exists v lvg, objs (O := LVMVolumeGroup) v !! name = Some lvg /\ lvgPhase lvg = "Ready".

Lemma setup_group_ok fuel cfg n w w' :
  setup_group fuel cfg n w = (Some (Ok tt), w') -> seen_ready (lvg_name n).
Proof.
  intros (bd & w1 & _ & H)%await_ok. mstep H as [err w2] E2. destruct (unless_exists err); [done|].
  apply awaitVoid_ok in H as (w3 & E3 & _). unfold WaitForLVMVolumeGroupReady, with_lvg in E3.
  mstep E3 as [e w4] E4. destruct e as [e|]; [done|].
  apply lvg_WaitForReady_ok in E3 as (lvg & H1 & H2). by exists w3, lvg.
Qed.

Lemma setup_groups_ok fuel cfg nodes w names w' :
  setup_groups fuel cfg nodes w = (Some (Ok names), w') ->
  Forall seen_ready names /\ names `sublist_of` map lvg_name nodes /\
  (dc_IncludeMasters cfg = false -> names = map lvg_name nodes).
Proof.
  revert w names w'. induction nodes as [|n nodes IH]; intros w names w' H; cbn [setup_groups] in H.
  { injection H as <- <-. done. }
  mstep H as [skip w1] E1. destruct skip.
  - apply IH in H as (H1 & H2 & H3). split; [done|]. split; [by constructor|]. intros Hm.
    unfold skip_node in E1. rewrite Hm in E1. done.
  - apply await_ok in H as ([] & w2 & E2 & H). apply setup_group_ok in E2.
    apply await_ok in H as (rest & w3 & E3 & H). injection H as <- <-.
    apply IH in E3 as (H1 & H2 & H3). split; [by constructor|]. split; [by constructor|].
    intros Hm. cbn. by rewrite H3.
Qed.

Lemma default_class_made fuel cfg w name w' :
  CreateDefaultStorageClass fuel cfg w = (Some (Ok name), w') ->
  name = dc_StorageClassName cfg /\ is_Some (objs (O := StorageClass) w' !! name) /\
  exists nodes lvgs v1 v2 v3 lsc,
    nodes <> [] /\ (dc_NodeNames cfg <> [] -> nodes = dc_NodeNames cfg) /\
    lvgs <> [] /\ lvgs `sublist_of` map lvg_name nodes /\
    (dc_IncludeMasters cfg = false -> lvgs = map lvg_name nodes) /\ Forall seen_ready lvgs /\
    ((objs (O := LocalStorageClass) v1 !! name = None /\
      objs (O := LocalStorageClass) v2 !! name = Some (build_local_class (mkLSCConfig name lvgs
        (dc_LVMType (class_defaults cfg)) (dc_ThinPoolName (class_defaults cfg)) "" ""))) \/
     is_Some (objs (O := LocalStorageClass) v1 !! name)) /\
    objs (O := LocalStorageClass) v3 !! name = Some lsc /\ lscPhase lsc = "Created".
Proof.
  intros H. unfold CreateDefaultStorageClass in H. destruct (String.eqb _ ""); [done|].
  destruct (_ && _); [done|]. destruct (_ && _); [done|]. mstep H as [nodes w1] E1.
  destruct nodes as [[|n0 nodes]|e]; [done| |done].
  apply awaitVoid_ok in H as (w2 & _ & H). apply ensure_ok in H as (w3 & _ & H).
  apply await_ok in H as ([] & w4 & _ & H). apply await_ok in H as (lvgs & w5 & E5 & H).
  apply setup_groups_ok in E5 as (Hr & Hs & Hm). apply ensure_ok in H as (w6 & E6 & H).
  apply CreateLocalStorageClass_ok in E6 as (Hne & Hc); [|done..].
  apply awaitVoid_ok in H as (w7 & E7 & H). apply WaitForLocalStorageClassCreated_ok in E7 as (lsc & Hl & Hp); [|exact _..].
  apply awaitVoid_ok in H as (w8 & E8 & H). apply WaitForStorageClass_ok in E8; [|exact _..].
  injection H as <- <-. split; [done|]. split; [done|]. exists (n0 :: nodes), lvgs, w5, w6, w7, lsc.
  split; [done|]. split.
  { unfold class_nodes in E1. cbn in E1. destruct (dc_NodeNames cfg); [done|]. unfold mret, M_ret in E1. congruence. }
  split; [done|]. split; [done|]. split; [exact Hm|]. split; [done|]. split; [|done].
  destruct Hc as [[Hn ->]|[Hx _]]; [left|by right]. split; [done|]. apply lookup_insert_eq.
Qed.

(** When [CreateDefaultStorageClass] succeeds, a LocalStorageClass of the name was there
    before or was created with the volume groups of the nodes, of all of them unless masters
    are included and a node keeps agents out; every group it was created with has been seen
    ready; the LocalStorageClass has been seen in the phase Created and the StorageClass of
    the name exists at the end. *)
Theorem CreateDefaultStorageClass_spec fuel cfg w name w' :
  CreateDefaultStorageClass fuel cfg w = (Some (Ok name), w') ->
  name = dc_StorageClassName cfg /\ is_Some (objs (O := StorageClass) w' !! name) /\
  exists nodes lvgs v1 v2 v3 lsc,
    nodes <> [] /\ (dc_NodeNames cfg <> [] -> nodes = dc_NodeNames cfg) /\
    lvgs <> [] /\ lvgs `sublist_of` map lvg_name nodes /\
    (dc_IncludeMasters cfg = false -> lvgs = map lvg_name nodes) /\ Forall seen_ready lvgs /\
    ((objs (O := LocalStorageClass) v1 !! name = None /\
      objs (O := LocalStorageClass) v2 !! name = Some (build_local_class (mkLSCConfig name lvgs
        (dc_LVMType (class_defaults cfg)) (dc_ThinPoolName (class_defaults cfg)) "" ""))) \/
     is_Some (objs (O := LocalStorageClass) v1 !! name)) /\
    objs (O := LocalStorageClass) v3 !! name = Some lsc /\ lscPhase lsc = "Created".
Proof. apply default_class_made. Qed.

(** When [EnsureDefaultStorageClass] succeeds, the StorageClass exists, having been found or
    made, and the ModuleConfig [global] names it as the default of the cluster. *)
Theorem EnsureDefaultStorageClass_spec fuel cfg w name w' :
  EnsureDefaultStorageClass fuel cfg w = (Some (Ok name), w') ->
  name = dc_StorageClassName cfg /\ (exists v, is_Some (objs (O := StorageClass) v !! name)) /\
  exists mc, objs w' !! "global" = Some mc /\ In ("storageClass", VString name) (mcSettings mc).
Proof.
  intros H. unfold EnsureDefaultStorageClass in H. destruct (String.eqb _ ""); [done|].
  mstep H as [ex w1] E1. destruct ex as [ex|e]; [|done]. apply await_ok in H as (sc & w2 & E2 & H).
  apply ensure_ok in H as (w3 & E3 & H). injection H as <- <-.
  apply SetGlobalDefault_ok in E3.
  assert (Hsc : sc = dc_StorageClassName cfg /\ exists v, is_Some (objs (O := StorageClass) v !! sc)); [|naive_solver].
  destruct ex as [o|].
  - injection E2 as <- <-. split; [done|]. unfold GetStorageClass in E1. mstep E1 as [err w4] E4.
    destruct err as [e|]; [done|]. mstep E1 as [got w5] E5. injection E1 as Eg <-.
    destruct got as [o'|e]; [|by destruct (IsNotFound (Some e))]. apply get_ok in E5 as [E5 _]. eauto.
  - apply default_class_made in E2 as (-> & E2 & _). eauto.
Qed.
End DefaultClass.

(** A cluster in which an earlier run has got as far as the LocalStorageClass. *)
Definition lab : Type :=
  (memWorld LVMVolumeGroup * (memWorld LocalStorageClass * (memWorld StorageClass * (memWorld VirtualDisk *
    (memWorld VMBDA * (memWorld ModuleConfigSpec * (shared_mem KNode * shared_mem BlockDevice))))))) * Z.

Definition half_way : lab :=
  ((mkWorld (mkMem {["lvg-worker-0" := mkLVG "Local" "worker-0" ["dev-a"] "vg-local" [] "Ready"]} []) 20 false,
   (mkWorld (mkMem {["sc-local" := mkLSC [("lvg-worker-0", None)] "Thick" "Delete" "Immediate" "Created"]} []) 20 false,
   (mkWorld (mkMem {["sc-local" := mkSC ∅ ∅ "local.csi.storage.deckhouse.io" ∅ "Delete" true "Immediate"]} []) 20 false,
   (mkWorld (mkMem ∅ []) 20 false, (mkWorld (mkMem ∅ []) 20 false, (mkWorld (mkMem ∅ []) 20 false,
   (mkShared {["worker-0" := mkVersioned 1 (mkKNode ∅ [])]} [],
    mkShared {["dev-a" := mkVersioned 1 (mkBlockDevice ∅ true "worker-0" "/dev/sdb" "20Gi")]} []))))))), 0).

Definition quiet : M lab (option error) := mret None.
Definition local_class : DefaultStorageClassConfig :=
  mkDefaultClass "sc-local" "Thick" "" "" "" "" [] false false "" "" "" 0 0 0 0 0.
Definition run_create : M lab (option (result string)) :=
  CreateDefaultStorageClass quiet quiet None quiet None None quiet (fun _ => Ok 1) (fun _ _ => mret (Some None))
    9 local_class.
Definition run_ensure : M lab (option (result string)) :=
  EnsureDefaultStorageClass quiet quiet None quiet None None quiet (fun _ => Ok 1) (fun _ _ => mret (Some None))
    9 local_class.

Example CreateDefaultStorageClass_witness :
  exists w', run_create half_way = (Some (Ok "sc-local"), w') /\
    is_Some (objs (O := StorageClass) w' !! "sc-local").
Proof.
  destruct (run_create half_way) as [r w'] eqn:E.
  assert (Hr : r = Some (Ok "sc-local")) by (vm_compute in E; by injection E as <- _).
  subst r. exists w'. split; [reflexivity|]. unfold run_create in E.
  destruct (CreateDefaultStorageClass_spec quiet quiet None quiet None None quiet (fun _ => Ok 1)
    (fun _ _ => mret (Some None)) (fun _ => eq_refl) 9 local_class half_way "sc-local" w' E) as (_ & H & _).
  exact H.
Defined.

Example EnsureDefaultStorageClass_witness :
  exists w' mc, run_ensure half_way = (Some (Ok "sc-local"), w') /\
    objs w' !! "global" = Some mc /\ In ("storageClass", VString "sc-local") (mcSettings mc).
Proof.
  destruct (run_ensure half_way) as [r w'] eqn:E.
  assert (Hr : r = Some (Ok "sc-local")) by (vm_compute in E; by injection E as <- _).
  subst r. unfold run_ensure in E. exists w'.
  destruct (EnsureDefaultStorageClass_spec quiet quiet None quiet None None quiet (fun _ => Ok 1)
    (fun _ _ => mret (Some None)) (fun _ => eq_refl) 9 local_class half_way "sc-local" w' E) as (_ & _ & mc & H1 & H2).
  exists mc. split; [reflexivity|]. split; [exact H1|exact H2].
Defined.
