(* ===== verification/KitApply.v ===== *)
(** Applying manifests: [src/pkg/kubernetes/apply.go]. *)
From S2P Require Import Prelude Errors Retry Config Kube Kit.

Local Open Scope Z_scope.
Local Open Scope go_scope.

(** ** Cutting a file into documents *)

(** [strings.Split] for a separator that is not empty: at every place the separator is found,
    leftmost first. *)
Fixpoint split_rounds (n : nat) (sep s cur : string) : list string :=
  match n with
  | 0%nat => [cur]
  | S n =>
      if HasPrefix s sep then cur :: split_rounds n sep (TrimPrefix s sep) ""
      else match s with
           | EmptyString => [cur]
           | String c s => split_rounds n sep s (cur +:+ String c "")
           end
  end.
Definition Split (s sep : string) : list string := split_rounds (S (String.length s)) sep s "".

Definition separator : string := nl +:+ "---" +:+ nl.

Definition splitYAMLDocuments (yamlContent : string) : list string :=
  filter (fun doc => String.eqb doc "" || String.eqb doc "---" = false) (map TrimSpace (Split yamlContent separator)).

(** What is applied is trimmed and not empty. *)
Lemma splitYAMLDocuments_trimmed content doc :
  doc ∈ splitYAMLDocuments content -> TrimSpace doc = doc /\ String.eqb (TrimSpace doc) "" = false.
Proof.
  unfold splitYAMLDocuments. intros [Hf Hm]%list_elem_of_filter. apply list_elem_of_fmap in Hm as (x & -> & _).
  rewrite TrimSpace_idem. split; [done|]. by apply orb_false_iff in Hf as [? _].
Qed.

Lemma HasPrefix_long a b p :
  (String.length p <= String.length a)%nat -> HasPrefix (a +:+ b) p = HasPrefix a p.
Proof.
  revert a. induction p as [|c p IH]; intros a Hl; [destruct a; [by destruct b|by rewrite str_app_cons]|].
  destruct a as [|d a]; cbn in Hl; [lia|]. rewrite str_app_cons. cbn. rewrite IH; [lia|done].
Qed.

(** A text in which the separator does not begin is skipped. *)
Lemma split_skip n d rest cur :
  Contains (d +:+ nl +:+ "---") separator = false ->
  split_rounds (String.length d + n) separator (d +:+ separator +:+ rest) cur =
  split_rounds n separator (separator +:+ rest) (cur +:+ d).
Proof.
  revert cur. induction d as [|c d IH]; intros cur Hc.
  { by rewrite str_app_nil_r. }
  rewrite str_app_cons in Hc. rewrite Contains_unfold in Hc. apply orb_false_iff in Hc as [Hp Hc].
  cbn [String.length Nat.add split_rounds].
  assert (Hn : HasPrefix (String c d +:+ separator +:+ rest) separator = false).
  { assert (He : String c d +:+ separator +:+ rest = (String c (d +:+ nl +:+ "---")) +:+ (nl +:+ rest)).
    { unfold separator. rewrite !str_app_cons !str_app_assoc. done. }
    rewrite He HasPrefix_long; [|done]. cbn [String.length].
    rewrite str_length_app. change (String.length separator) with 5%nat. change (String.length (nl +:+ "---")) with 4%nat. lia. }
  rewrite Hn str_app_cons. rewrite IH; [done|]. by rewrite str_app_assoc.
Qed.

Lemma split_last n d cur :
  Contains (d +:+ nl +:+ "---") separator = false -> (String.length d < n)%nat ->
  split_rounds n separator d cur = [cur +:+ d].
Proof.
  revert n cur. induction d as [|c d IH]; intros n cur Hc Hn; (destruct n as [|n]; [cbn in Hn; lia|]).
  { cbn. by rewrite str_app_nil_r. }
  rewrite str_app_cons Contains_unfold in Hc. apply orb_false_iff in Hc as [Hp Hc]. cbn [split_rounds].
  destruct (HasPrefix (String c d) separator) eqn:Hs.
  - apply HasPrefix_spec in Hs as [t Ht]. exfalso. revert Hp. rewrite -str_app_cons Ht str_app_assoc.
    intros Hp. assert (Hq : HasPrefix (separator +:+ t +:+ nl +:+ "---") separator = true) by (apply HasPrefix_spec; eauto).
    congruence.
  - rewrite IH; [done|cbn in Hn; lia|]. by rewrite str_app_assoc.
Qed.

Lemma Split_concat docs :
  docs <> [] -> Forall (fun d => Contains (d +:+ nl +:+ "---") separator = false) docs ->
  Split (String.concat separator docs) separator = docs.
Proof.
  intros Hne HF. unfold Split.
  assert (H : forall n, (String.length (String.concat separator docs) < n)%nat ->
    split_rounds n separator (String.concat separator docs) "" = docs); [|apply H; lia].
  induction HF as [|d docs Hd HF IH]; [done|]. intros n Hn. destruct docs as [|d2 docs].
  { cbn [String.concat] in *. by rewrite split_last. }
  change (String.concat separator (d :: d2 :: docs)) with (d +:+ separator +:+ String.concat separator (d2 :: docs)) in *.
  set (rest := String.concat separator (d2 :: docs)) in *. rewrite !str_length_app in Hn.
  replace n with (String.length d + S (n - String.length d - 1))%nat by lia.
  rewrite split_skip; [done|]. cbn [split_rounds].
  assert (Hs : HasPrefix (separator +:+ rest) separator = true) by (apply HasPrefix_spec; eauto).
  rewrite Hs. f_equal. assert (Ht : TrimPrefix (separator +:+ rest) separator = rest) by (unfold TrimPrefix; by rewrite Hs).
  rewrite Ht. apply IH; [done|]. cbn [nl String.length] in Hn. lia.
Qed.

(** Documents that are trimmed, not empty, not a bare [---], and in which no separator begins,
    joined with the separator, are what the file is cut into again. *)
Theorem splitYAMLDocuments_roundtrip docs :
  docs <> [] ->
  Forall (fun d => TrimSpace d = d /\ d <> "" /\ d <> "---" /\ Contains (d +:+ nl +:+ "---") separator = false) docs ->
  splitYAMLDocuments (String.concat separator docs) = docs.
Proof.
  intros Hne HF. unfold splitYAMLDocuments. rewrite Split_concat; [done| |].
  { eapply Forall_impl; [exact HF|]. by intros d (_ & _ & _ & H). }
  clear Hne. induction HF as [|d docs (Ht & H1 & H2 & _) HF IH]; [done|]. cbn [map]. rewrite Ht.
  rewrite filter_cons_True; [|by rewrite IH].
  apply orb_false_iff. split; by apply String.eqb_neq.
Qed.

Example splitYAMLDocuments_roundtrip_witness :
  splitYAMLDocuments (String.concat separator ["kind: Pod"; "kind: Secret"]) = ["kind: Pod"; "kind: Secret"].
Proof.
  apply (splitYAMLDocuments_roundtrip ["kind: Pod"; "kind: Secret"]); [discriminate|].
  repeat constructor; discriminate.
Defined.

(** ** Variables *)

Definition refs (content : string) : list string :=
  omap (fun seg => match seg with SRef name => Some name | SLit _ => None end) (segments content).

(** [seen] holds the names met so far. *)
Fixpoint unset_first (getenv : string -> string) (seen : list string) (names : list string) : list string :=
  match names with
  | [] => []
  | v :: names =>
      if bool_decide (v ∈ seen) then unset_first getenv seen names
      else if String.eqb (getenv v) "" then v :: unset_first getenv (v :: seen) names
      else unset_first getenv (v :: seen) names
  end.

Definition FindUnsetEnvVars (getenv : string -> string) (content : string) : list string :=
  unset_first getenv [] (refs content).

(** [os.ExpandEnv]. *)
Definition isShellSpecialVar (c : Ascii.ascii) : bool := Contains "*#$@!?-0123456789" (String c "").

(** Up to the closing brace: what is before it and after it. *)
Fixpoint to_brace (s : string) : option (string * string) :=
  match s with
  | EmptyString => None
  | String c s =>
      if Ascii.eqb c "}" then Some ("", s)
      else match to_brace s with Some (a, b) => Some (String c a, b) | None => None end
  end.

(** The name after the dollar sign and what follows; the flag is set when characters were eaten. *)
Definition getShellName (s : string) : string * string * bool :=
  match s with
  | EmptyString => ("", "", false)
  | String c s' =>
      if Ascii.eqb c "{" then
        match s' with
        | String d (String "}" rest) => if isShellSpecialVar d then (String d "", rest, true)
                                        else match to_brace s' with
                                             | Some (name, rest) => (name, rest, true)
                                             | None => ("", s', true)
                                             end
        | _ => match to_brace s' with
               | Some (name, rest) => (name, rest, true)
               | None => ("", s', true)
               end
        end
      else if isShellSpecialVar c then (String c "", s', true)
      else let '(name, rest) := span_ident s in (name, rest, negb (String.eqb name ""))
  end.

Fixpoint expand_rounds (n : nat) (mapping : string -> string) (s : string) : string :=
  match n, s with
  | 0%nat, _ | _, EmptyString => ""
  | S n, String c s' =>
      if Ascii.eqb c "$" && negb (String.eqb s' "") then
        let '(name, rest, eaten) := getShellName s' in
        if String.eqb name "" then
          if eaten then expand_rounds n mapping rest else String "$" (expand_rounds n mapping rest)
        else mapping name +:+ expand_rounds n mapping rest
      else String c (expand_rounds n mapping s')
  end.
Definition ExpandEnv (getenv : string -> string) (s : string) : string :=
  expand_rounds (String.length s) getenv s.

(** Every name is reported once, and those reported are the references without a value. *)
Lemma unset_first_spec getenv seen names :
  NoDup (unset_first getenv seen names) /\
  forall v, v ∈ unset_first getenv seen names <-> v ∈ names /\ v ∉ seen /\ getenv v = "".
Proof.
  revert seen. induction names as [|n names IH]; intros seen; cbn [unset_first].
  { split; [constructor|]. intros v. split; [by intros ?%elem_of_nil|by intros [?%elem_of_nil _]]. }
  destruct (bool_decide_reflect (n ∈ seen)) as [Hs|Hs].
  { destruct (IH seen) as [H1 H2]. split; [done|]. intros v. rewrite H2 elem_of_cons. naive_solver. }
  destruct (IH (n :: seen)) as [H1 H2].
  destruct (String.eqb_spec (getenv n) "") as [He|He].
  - split.
    + constructor; [|done]. rewrite H2 not_elem_of_cons. naive_solver.
    + intros v. rewrite !elem_of_cons H2 not_elem_of_cons. destruct (decide (v = n)); naive_solver.
  - split; [done|]. intros v. rewrite H2 not_elem_of_cons elem_of_cons.
    destruct (decide (v = n)); naive_solver.
Qed.

(** ** Applying and creating *)

(** A decoded manifest; [group] and [version] are those of [apiVersion]. *)
Record manifest := mkManifest {
  group : string; version : string; kind : string;
  ns : string; name : string; body : list (string * value)
}.

Definition SetNamespace (n : string) (m : manifest) : manifest :=
  mkManifest (group m) (version m) (kind m) n (name m) (body m).

(** The dynamic client: objects by resource, namespace and name; [dynGet] gives the resource
    version that [dynUpdate] needs. *)
Class Dynamic (W : Type) := {
  cluster : W -> gmap string manifest;
  dynGet : string -> M W (result string);
  dynCreate : string -> string -> manifest -> M W (option error);
  dynUpdate : string -> string -> manifest -> M W (option error)
}.

(** A call that succeeds did what it says; after an error the object is as it was or as asked
    for. An object is created only without a resource version. *)
Class DynamicLaws (W : Type) `{Dynamic W} : Prop := {
  dyn_get_keeps k w : cluster (dynGet k w).2 = cluster w;
  dyn_create_ok k rv m w w' : dynCreate k rv m w = (None, w') ->
    rv = "" /\ cluster w !! k = None /\ cluster w' = <[k := m]> (cluster w);
  dyn_create_err k rv m w e w' : dynCreate k rv m w = (Some e, w') ->
    cluster w' = cluster w \/ (cluster w !! k = None /\ cluster w' = <[k := m]> (cluster w));
  dyn_update_ok k rv m w w' : dynUpdate k rv m w = (None, w') ->
    is_Some (cluster w !! k) /\ cluster w' = <[k := m]> (cluster w);
  dyn_update_err k rv m w e w' : dynUpdate k rv m w = (Some e, w') ->
    cluster w' = cluster w \/ cluster w' = <[k := m]> (cluster w)
}.

Section Apply.
Context {W : Type} `{AE : ApiErrors, CX : Ctx W, DY : Dynamic W}.
(** [dynamic.NewForConfig] and [discovery.NewDiscoveryClientForConfig]; the YAML decoder;
    [restmapper.GetAPIGroupResources], and the mapping of a kind: its resource and whether it
    is namespaced; [errors.NewAggregate]. *)
Context (dynamicNew discoveryNew : M W (option error)) (Decode : string -> result manifest).
Context (Groups : Type) (getAPIGroupResources : M W (result Groups)).
Context (RESTMapping : Groups -> string -> string -> string -> result (string * bool)).
Context (NewAggregate : list error -> option error).

Definition NewApplyClient : M W (option error) :=
  DoVoid ctxErr timerFires DefaultConfig (
    let! err := dynamicNew in
    match err with
    | Some e => mret (Some (ErrorfW "failed to create dynamic client: " e ""))
    | None =>
        let! err := discoveryNew in
        mret match err with
             | Some e => Some (ErrorfW "failed to create discovery client: " e "")
             | None => None
             end
    end).

Definition gvk_string (m : manifest) : string := group m +:+ "/" +:+ version m +:+ ", Kind=" +:+ kind m.

(** Where the object is, or why it cannot be told: the part [applyDocument] and
    [createDocument] share. *)
Definition locate (yamlDoc defaultNamespace : string) : M W (result (string * manifest)) :=
  match Decode yamlDoc with
  | Err e => mret (Err (ErrorfW "failed to decode YAML: " e ""))
  | Ok obj =>
      let obj := if String.eqb (ns obj) "" && negb (String.eqb defaultNamespace "")
                 then SetNamespace defaultNamespace obj else obj in
      if String.eqb (group obj) "" && String.eqb (version obj) "" && String.eqb (kind obj) ""
      then mret (Err (Errorf ("GroupVersionKind is empty for object: " +:+ name obj)))
      else
        let! groups := getAPIGroupResources in
        mret match groups with
             | Err e => Err (ErrorfW "failed to get API group resources: " e "")
             | Ok groups =>
                 match RESTMapping groups (group obj) (kind obj) (version obj) with
                 | Err e => Err (ErrorfW ("failed to get REST mapping for " +:+ gvk_string obj +:+ ": ") e "")
                 | Ok (resource, namespaced) =>
                     let key := if namespaced : bool
                                then resource +:+ "/" +:+ (if String.eqb (ns obj) "" then "default" else ns obj) +:+
                                     "/" +:+ name obj
                                else resource +:+ "/" +:+ name obj in
                     Ok (key, obj)
                 end
             end
  end.

(** The closure of the retried call; the second component of the state is the resource
    version of [obj], which stays from one attempt to the next. *)
Definition apply_once (key : string) (obj : manifest) : M (W * string) (option error) := fun s =>
  let '(existing, w1) := dynGet key s.1 in
  match existing with
  | Ok rv =>
      let '(err, w2) := dynUpdate key rv obj w1 in
      (match err with
       | Some e => Some (ErrorfW ("failed to update " +:+ kind obj +:+ "/" +:+ name obj +:+ ": ") e "")
       | None => None
       end, (w2, rv))
  | Err _ =>
      let '(err, w2) := dynCreate key s.2 obj w1 in
      (match err with
       | Some e => Some (ErrorfW ("failed to create " +:+ kind obj +:+ "/" +:+ name obj +:+ ": ") e "")
       | None => None
       end, (w2, s.2))
  end.

(** The retried call, with a resource version that starts empty. *)
Definition apply_retried (key : string) (obj : manifest) : M W (option error) := fun w =>
  let '(err, s) := DoVoid (F := M (W * string)) (on_fst ctxErr) (fun z => on_fst (timerFires z)) DefaultConfig
                     (apply_once key obj) (w, "") in
  (err, s.1).

Definition applyDocument (yamlDoc defaultNamespace : string) : M W (option error) :=
  let! where_ := locate yamlDoc defaultNamespace in
  match where_ with
  | Err e => mret (Some e)
  | Ok (key, obj) => apply_retried key obj
  end.

Definition createDocument (yamlDoc defaultNamespace : string) : M W (option error) :=
  let! where_ := locate yamlDoc defaultNamespace in
  match where_ with
  | Err e => mret (Some e)
  | Ok (key, obj) =>
      DoVoid ctxErr timerFires DefaultConfig (
        let! err := dynCreate key "" obj in
        mret match err with
             | Some e => Some (ErrorfW ("failed to create " +:+ kind obj +:+ "/" +:+ name obj +:+ ": ") e "")
             | None => None
             end)
  end.

(** Every document is tried; [i] counts them. *)
Fixpoint each_document (run : string -> M W (option error)) (i : Z) (docs : list string) : M W (list error) :=
  match docs with
  | [] => mret []
  | doc :: docs =>
      if String.eqb (TrimSpace doc) "" then each_document run (i + 1) docs
      else
        let! err := run (TrimSpace doc) in
        let! errs := each_document run (i + 1) docs in
        mret match err with
             | Some e => ErrorfW ("document " +:+ pretty i +:+ ": ") e "" :: errs
             | None => errs
             end
  end.

Definition ApplyYAML (yamlContent namespace : string) : M W (option error) :=
  let! errs := each_document (fun doc => applyDocument doc namespace) 1 (splitYAMLDocuments yamlContent) in
  mret (NewAggregate errs).

Definition CreateYAML (yamlContent namespace : string) : M W (option error) :=
  let! errs := each_document (fun doc => createDocument doc namespace) 1 (splitYAMLDocuments yamlContent) in
  mret (NewAggregate errs).

Definition CreateYAMLFromFileWithEnvvars (readFile : string -> M W (result string)) (getenv : string -> string)
    (filePath namespace : string) : M W (option error) :=
  let! content := readFile filePath in
  match content with
  | Err e => mret (Some (ErrorfW ("failed to read file " +:+ filePath +:+ ": ") e ""))
  | Ok yamlContent =>
      match FindUnsetEnvVars getenv yamlContent with
      | [] => CreateYAML (ExpandEnv getenv yamlContent) namespace
      | unsetVars => mret (Some (Errorf ("environment variables not set: " +:+ fmt_strings unsetVars)))
      end
  end.

(** *** Theorems *)
Context `{CL : !CtxLaws W, DL : !DynamicLaws W}.
Hypothesis aggregate_nil : forall es, NewAggregate es = None <-> es = [].
Hypothesis ctx_keeps : forall w, cluster (ctxErr w).2 = cluster w.
Hypothesis timer_keeps : forall z w, cluster (timerFires z w).2 = cluster w.
Hypothesis groups_keep : forall w, cluster (getAPIGroupResources w).2 = cluster w.

(** The cluster with the object, and nothing else changed. *)
Definition applied (key : string) (obj : manifest) (d d' : gmap string manifest) : Prop :=
  d' = <[key := obj]> d.

Lemma apply_once_spec key obj w rv e s :
  apply_once key obj (w, rv) = (e, s) ->
  (cluster s.1 = cluster w \/ applied key obj (cluster w) (cluster s.1)) /\
  (e = None -> applied key obj (cluster w) (cluster s.1)).
Proof.
  unfold apply_once, applied. cbn. pose proof (dyn_get_keeps key w) as Hg.
  destruct (dynGet key w) as [[rv'|e0] w1]; cbn in Hg.
  - destruct (dynUpdate key rv' obj w1) as [[e1|] w2] eqn:E; intros [= <- <-]; cbn.
    + apply dyn_update_err in E. rewrite Hg in E. done.
    + apply dyn_update_ok in E as [_ E]. rewrite Hg in E. auto.
  - destruct (dynCreate key rv obj w1) as [[e1|] w2] eqn:E; intros [= <- <-]; cbn.
    + apply dyn_create_err in E. rewrite Hg in E. split; [|done]. destruct E as [->|[_ ->]]; auto.
    + apply dyn_create_ok in E as (_ & _ & E). rewrite Hg in E. auto.
Qed.

Lemma apply_retried_spec key obj w e w' :
  apply_retried key obj w = (e, w') ->
  (cluster w' = cluster w \/ applied key obj (cluster w) (cluster w')) /\
  (e = None -> applied key obj (cluster w) (cluster w')).
Proof.
  unfold apply_retried. destruct (DoVoid (F := M (W * string)) _ _ _ _ (w, "")) as [err s] eqn:E. intros [= <- <-].
  set (I := fun s : W * string => cluster s.1 = cluster w \/ applied key obj (cluster w) (cluster s.1)).
  refine (DoVoid_rule _ _ I (fun s => applied key obj (cluster w) (cluster s.1)) _ _ _ _ _ _ _ _ _ _ _ E).
  - intros s1 e1 s2 HI [H _]%on_fst_inv. pose proof (ctx_keeps s1.1) as Hk. rewrite H in Hk. unfold I. by rewrite Hk.
  - intros z s1 b s2 HI [H _]%on_fst_inv. pose proof (timer_keeps z s1.1) as Hk. rewrite H in Hk. unfold I. by rewrite Hk.
  - intros z s1 s2 [H _]%on_fst_inv. apply ctx_done in H as (e1 & w1 & H). eexists _, _. unfold on_fst.
    by rewrite H.
  - intros [w1 rv] e1 s2 HI H. apply apply_once_spec in H as [H1 H2]. unfold I, applied in *. cbn [fst] in HI.
    assert (Hi : <[key := obj]> (cluster w1) = <[key := obj]> (cluster w)).
    { destruct HI as [->| ->]; [done|]. apply insert_insert_eq. }
    rewrite Hi in H1 H2. destruct H1 as [H1|H1]; [|auto]. rewrite H1. split; [done|].
    intros ->. rewrite <- H1. by apply H2.
  - by left.
  - done.
Qed.

(** The place of a document as the code found it. *)
Definition placed (namespace doc : string) (p : string * manifest) : Prop :=
  exists v v', locate doc namespace v = (Ok p, v').

Lemma locate_keeps doc namespace w : cluster (locate doc namespace w).2 = cluster w.
Proof.
  unfold locate. destruct (Decode doc) as [obj|e]; [|done]. destruct (_ && _ && _); [done|].
  unfold mbind, M_bind. pose proof (groups_keep w) as H. by destruct (getAPIGroupResources w).
Qed.

(** What becomes of one document: it is in the cluster, or there is an error and at most its
    object changed, to what the document asks for. *)
Definition apply_outcome (namespace : string) (p : string * option error) (d d' : gmap string manifest) : Prop :=
  match p.2 with
  | None => exists q, placed namespace p.1 q /\ d' = <[q.1 := q.2]> d
  | Some _ => d' = d \/ exists q, placed namespace p.1 q /\ d' = <[q.1 := q.2]> d
  end.

Lemma applyDocument_spec doc namespace w e w' :
  applyDocument doc namespace w = (e, w') -> apply_outcome namespace (doc, e) (cluster w) (cluster w').
Proof.
  intros H. unfold applyDocument in H. pose proof (locate_keeps doc namespace w) as Hk.
  mstep H as [r w1] E1. cbn in Hk. destruct r as [[key obj]|e0].
  - assert (Hp : placed namespace doc (key, obj)) by (by exists w, w1).
    apply apply_retried_spec in H as [H1 H2]. rewrite Hk in H1 H2. destruct e as [e|]; cbn.
    + destruct H1 as [->|H1]; [by left|right]. by exists (key, obj).
    + exists (key, obj). split; [done|]. by apply H2.
  - injection H as <- <-. cbn. rewrite Hk. by left.
Qed.

Lemma each_document_chain run (R : string * option error -> gmap string manifest -> gmap string manifest -> Prop)
    i docs w es w' :
  (forall doc, doc ∈ docs -> TrimSpace doc = doc /\ String.eqb (TrimSpace doc) "" = false) ->
  (forall doc w e w', run doc w = (e, w') -> R (doc, e) (cluster w) (cluster w')) ->
  each_document run i docs w = (es, w') ->
  exists outs, map fst outs = docs /\ chain R outs (cluster w) (cluster w') /\
    (es = [] <-> Forall (fun p => p.2 = None) outs).
Proof.
  intros Hd HR. revert i w es. induction docs as [|doc docs IH]; intros i w es H; cbn [each_document] in H.
  { injection H as <- <-. exists []. split; [done|]. split; [constructor|done]. }
  destruct (Hd doc) as [Ht Hne]; [by left|]. rewrite Hne Ht in H. mstep H as [e w1] E1.
  mstep H as [es1 w2] E2. injection H as <- <-. apply HR in E1. apply IH in E2; [|intros; apply Hd; by right].
  destruct E2 as (outs & <- & Hc & Hiff). exists ((doc, e) :: outs). split; [done|].
  split; [by econstructor|]. rewrite Forall_cons -Hiff. destruct e; cbn; naive_solver.
Qed.


Lemma createDocument_ok doc namespace w w' :
  createDocument doc namespace w = (None, w') ->
  exists q, placed namespace doc q /\ cluster w !! q.1 = None /\ cluster w' = <[q.1 := q.2]> (cluster w).
Proof.
  intros H. unfold createDocument in H. pose proof (locate_keeps doc namespace w) as Hk.
  mstep H as [r w1] E1. cbn in Hk. destruct r as [[key obj]|e0]; [|done]. exists (key, obj).
  split; [by exists w, w1|]. rewrite <- Hk. cbn.
  set (I := fun v => cluster v = cluster w1 \/ (cluster w1 !! key = None /\ cluster v = <[key := obj]> (cluster w1))).
  set (Q := fun v => cluster w1 !! key = None /\ cluster v = <[key := obj]> (cluster w1)).
  refine (proj2 (DoVoid_rule ctxErr timerFires I Q _ _ _ _ _ _ _ _ _ _ _ H) eq_refl); [..|done].
  - intros v e v' HI E. pose proof (ctx_keeps v) as Hc. rewrite E in Hc. unfold I. by rewrite Hc.
  - intros z v b v' HI E. pose proof (timer_keeps z v) as Hc. rewrite E in Hc. unfold I. by rewrite Hc.
  - apply ctx_done.
  - intros v e v' HI E. mstep E as [err v1] E2. injection E as <- <-. unfold I, Q in *. destruct err as [e|].
    + apply dyn_create_err in E2. split; [|done]. destruct E2 as [->|[Hn ->]]; [done|].
      destruct HI as [HI|[_ HI]]; rewrite HI in Hn |- *; [by right|]. by rewrite lookup_insert_eq in Hn.
    + apply dyn_create_ok in E2 as (_ & Hn & ->). destruct HI as [HI|[_ HI]]; rewrite HI in Hn |- *.
      * auto.
      * by rewrite lookup_insert_eq in Hn.
  - by left.
Qed.
End Apply.

(** ** A cluster in memory

    The resource version is the name of the writer; the second part holds the faults per call. *)
Definition dyn_world : Type := memWorld unit * (gmap string manifest * list (option string)).

Definition dyn_call {A} (fail : error -> A) (act : gmap string manifest -> A * gmap string manifest) : M dyn_world A :=
  fun w => let '(d, faults) := w.2 in
    match faults with
    | Some msg :: fs => (fail (Errorf msg), (w.1, (d, fs)))
    | None :: fs => let '(a, d') := act d in (a, (w.1, (d', fs)))
    | [] => let '(a, d') := act d in (a, (w.1, (d', [])))
    end.

#[export] Instance dyn_mem : Dynamic dyn_world := {|
  cluster := fun w => w.2.1;
  dynGet := fun k => dyn_call Err (fun d =>
    (match d !! k with Some _ => Ok "1" | None => Err (notFoundError k) end, d));
  dynCreate := fun k rv m => dyn_call Some (fun d =>
    if negb (String.eqb rv "") then (Some (Errorf "resourceVersion should not be set on objects to be created"), d)
    else match d !! k with
         | Some _ => (Some (alreadyExistsError k), d)
         | None => (None, <[k := m]> d)
         end);
  dynUpdate := fun k rv m => dyn_call Some (fun d =>
    match d !! k with
    | Some _ => (None, <[k := m]> d)
    | None => (Some (notFoundError k), d)
    end)
|}.

Lemma dyn_call_cases {A} (fail : error -> A) act w a w' :
  dyn_call fail act w = (a, w') ->
  (exists msg, a = fail (Errorf msg) /\ w'.2.1 = w.2.1) \/ act w.2.1 = (a, w'.2.1).
Proof.
  unfold dyn_call. destruct w as [w0 [d faults]]; cbn. destruct faults as [|[msg|] fs].
  - destruct (act d) eqn:E. intros [= <- <-]. by right.
  - intros [= <- <-]. left. eauto.
  - destruct (act d) eqn:E. intros [= <- <-]. by right.
Qed.

#[export] Instance dyn_mem_laws : DynamicLaws dyn_world.
Proof.
  split; cbn [cluster dynGet dynCreate dynUpdate dyn_mem].
  - intros k w. destruct (dyn_call _ _ w) as [a w'] eqn:E. cbn.
    apply dyn_call_cases in E as [(msg & _ & ->)|E]; [done|]. by injection E as _ <-.
  - intros k rv m w w' [(msg & [=] & _)|E]%dyn_call_cases.
    destruct (String.eqb_spec rv ""); cbn in E; [|done]. destruct (w.2.1 !! k); [done|]. by injection E as <-.
  - intros k rv m w e w' [(msg & _ & ->)|E]%dyn_call_cases; [by left|].
    destruct (negb _); [injection E as _ <-; by left|]. destruct (w.2.1 !! k); [injection E as _ <-; by left|done].
  - intros k rv m w w' [(msg & [=] & _)|E]%dyn_call_cases. destruct (w.2.1 !! k); [|done]. injection E as <-. eauto.
  - intros k rv m w e w' [(msg & _ & ->)|E]%dyn_call_cases; [by left|].
    destruct (w.2.1 !! k); [done|]. injection E as _ <-. by left.
Qed.

(** Documents of one line: [v1 <kind> <name>]. *)
Definition toy_decode (doc : string) : result manifest :=
  match Split doc " " with
  | [v; k; n] => Ok (mkManifest "" v k "" n [])
  | _ => Err (Errorf "yaml: invalid document")
  end.
Definition toy_aggregate (es : list error) : option error :=
  match es with [] => None | e :: _ => Some e end.
Definition toy_groups : M dyn_world (result unit) := mret (Ok tt).
Definition toy_apply : string -> string -> M dyn_world (option error) :=
  ApplyYAML toy_decode unit toy_groups (fun _ _ k _ => Ok (k, true)) toy_aggregate.

Definition two_docs : string := "v1 Pod a" +:+ separator +:+ nl +:+ "bad" +:+ separator +:+ "v1 Pod b".
Definition empty_cluster : dyn_world := (mkWorld (mkMem ∅ []) 9 false, (∅, [])).


(** A lookup that fails on the way is taken for a missing object: the object is then created,
    which fails because it exists, and that is not tried again. *)
Example apply_lost_read_fails :
  let w := (mkWorld (mkMem ∅ []) 9 false, ({["Pod/ns-1/a" := mkManifest "" "v1" "Pod" "ns-1" "a" []]}, [Some "EOF"])) in
  let '(r, w') := toy_apply "v1 Pod a" "ns-1" w in
  is_Some r /\ IsAlreadyExists r = true /\ (toy_apply "v1 Pod a" "ns-1" w').1 = None.
Proof. vm_compute. split; [by eexists|]. split; reflexivity. Qed.

(** A variable without braces is not looked for, and is replaced by nothing when it is not set. *)
Example unbraced_variable_vanishes :
  let unset := fun _ : string => "" in
  FindUnsetEnvVars unset "password: $SECRET" = [] /\ ExpandEnv unset "password: $SECRET" = "password: ".
Proof. vm_compute. split; reflexivity. Qed.
