(* ===== verification/KitCrc.v ===== *)
(** Switching checksums of the Ceph messenger on the servers: [src/pkg/testkit/ceph_crc.go]. The
    ConfigMap is written, the daemons and the operator are restarted and waited for. *)
From S2P Require Import Prelude Errors Retry Config Kube Deckhouse Wait Kit KitNodes KitStorage KitElastic.

Local Open Scope Z_scope.
Local Open Scope go_scope.

(** ** Deployments *)

(** The fields of [appsv1.Deployment] the code reads or writes. *)
Record Rollout := mkRollout {
  appLabel : string;
  generation : Z;
  specReplicas : option Z;
  restartedAt : option string;
  observedGeneration : Z;
  updatedReplicas : Z;
  availableReplicas : Z
}.

Definition rolled_out (d : Rollout) : bool :=
  let desired := match specReplicas d with Some n => n | None => 1 end in
  (generation d <=? observedGeneration d) && (desired <=? updatedReplicas d) && (desired <=? availableReplicas d).

Definition stamped (stamp : string) (n : Z) (d : Rollout) : Rollout :=
  mkRollout (appLabel d) n (specReplicas d) (Some stamp) (observedGeneration d) (updatedReplicas d)
    (availableReplicas d).

(** The strategic merge patch of the annotation, and the time as text. *)
Class Restarts (W : Type) := {
  patchRestart : string -> string -> M W (option error);
  timestamp : M W string
}.

(** A patch that changes the template is a new generation. *)
Class RestartsLaws (W : Type) `{Client W Rollout, Restarts W} : Prop := {
  patch_ok k stamp w w' : patchRestart k stamp w = (None, w') ->
    exists d n, objs w !! k = Some d /\ generation d <= n /\
      (restartedAt d <> Some stamp -> generation d < n) /\
      objs w' = <[k := stamped stamp n d]> (objs w);
  stamp_objs w : objs (O := Rollout) (timestamp w).2 = objs w
}.

Definition DefaultRookNamespace := "d8-sds-elastic".
Definition in_default (namespace : string) : string :=
  if String.eqb namespace "" then DefaultRookNamespace else namespace.

Lemma in_default_idem namespace : in_default (in_default namespace) = in_default namespace.
Proof. unfold in_default. destruct (String.eqb namespace "") eqn:E; [done|by rewrite E]. Qed.

Definition cephRoles : list string :=
  ["rook-ceph-mon"; "rook-ceph-mgr"; "rook-ceph-osd"; "rook-ceph-mds"; "rook-ceph-rgw"].
Definition labelSel := "app in (rook-ceph-mon,rook-ceph-mgr,rook-ceph-osd,rook-ceph-mds,rook-ceph-rgw)".

Section Crc.
Context {W : Type} `{AE : ApiErrors, CX : Ctx W, SC : Scope W, ND : Nested}.
Context `{CM : Client W ConfigMap, CD : Client W Rollout, CFS : Client W (unstructured (resource CephFilesystem))}.
Context `{RS : !Restarts W}.
Context (newClientset newDynamicClient : M W (option error)).

(** ** The daemons *)

(** How many of the Deployments have rolled out. *)
Fixpoint count_rolled_out (namespace : string) (names : list string) : M W (result Z) :=
  match names with
  | [] => mret (Ok 0)
  | name :: names =>
      let ref := namespace +:+ "/" +:+ name in
      let! got := clientGet (O := Rollout) ref in
      match got with
      | Err e => mret (Err (ErrorfW ("get Deployment " +:+ ref +:+ ": ") e ""))
      | Ok d =>
          let! rest := count_rolled_out namespace names in
          mret match rest with
               | Err e => Err e
               | Ok n => Ok (n + if rolled_out d then 1 else 0)
               end
      end
  end.

(** One round; the state is the count of the last one. *)
Definition daemons_round (namespace : string) (names : list string) (_ : Z) : M W (Z * option (option error)) :=
  let! ready := count_rolled_out namespace names in
  mret match ready with
       | Err e => (0, Some (Some e))
       | Ok ready => (ready, if ready =? Z.of_nat (length names) then Some None else None)
       end.

Definition restart_each (namespace stamp : string) (names : list string) : M W (option error) :=
  each (fun name =>
    let ref := namespace +:+ "/" +:+ name in
    let! err := patchRestart ref stamp in
    mret (wrap_error ("annotate Deployment " +:+ ref +:+ " for rollout: ") err)) names.

Definition daemon_names (namespace : string) (l : list (string * Rollout)) : list string :=
  omap (fun p => if existsb (String.eqb (appLabel p.2)) cephRoles then in_namespace namespace p.1 else None) l.

Definition RestartCephDaemons (fuel : nat) (namespace : string) (timeout : Z) : M W (option (option error)) :=
  let namespace := in_default namespace in
  let! err := newClientset in
  match err with
  | Some e => mret (Some (Some (ErrorfW "failed to create clientset: " e "")))
  | None =>
      let! deployList := clientList (O := Rollout) in
      match deployList with
      | Err e => mret (Some (Some (ErrorfW ("list ceph daemon Deployments (" +:+ labelSel +:+ "): ") e "")))
      | Ok l =>
          match daemon_names namespace l with
          | [] => mret (Some (Some (Errorf ("no Ceph daemon Deployments matched " +:+ quote labelSel +:+
                    " in namespace " +:+ namespace +:+ " — is Rook running?"))))
          | names =>
              let! stamp := timestamp in
              let! err := restart_each namespace stamp names in
              match err with
              | Some e => mret (Some (Some e))
              | None =>
                  let total := pretty (Z.of_nat (length names)) in
                  withTimeout timeout
                    (poll (daemons_round namespace names)
                       (fun ready _ => Some (Errorf ("timed out after " +:+ fmt_duration timeout +:+
                          " waiting for " +:+ total +:+ " Ceph daemon Deployments to become ready (" +:+
                          pretty ready +:+ "/" +:+ total +:+ ")")))
                       fuel (5 * Second) 0)
              end
          end
      end
  end.

(** ** The operator *)

Definition operator_round (ref : string) (_ : unit) : M W (unit * option (option error)) :=
  let! got := clientGet (O := Rollout) ref in
  mret (tt, match got with
            | Err e => Some (Some (ErrorfW ("get Deployment " +:+ ref +:+ ": ") e ""))
            | Ok d => if rolled_out d then Some None else None
            end).

Definition RestartRookOperator (fuel : nat) (namespace : string) (timeout : Z) : M W (option (option error)) :=
  let namespace := in_default namespace in
  let! err := newClientset in
  match err with
  | Some e => mret (Some (Some (ErrorfW "failed to create clientset: " e "")))
  | None =>
      let operatorName := TrimPrefix namespace "d8-" in
      if negb (HasPrefix namespace "d8-") || String.eqb operatorName ""
      then mret (Some (Some (Errorf ("namespace " +:+ quote namespace +:+ " is not a deckhouse module namespace " +:+
             "(expected d8-<module> prefix); cannot derive rook-operator Deployment name"))))
      else
        let ref := namespace +:+ "/" +:+ operatorName in
        let! got := clientGet (O := Rollout) ref in
        match got with
        | Err e => mret (Some (Some (ErrorfW ("get rook-operator Deployment " +:+ ref +:+ ": ") e "")))
        | Ok _ =>
            let! stamp := timestamp in
            let! err := patchRestart ref stamp in
            match err with
            | Some e => mret (Some (Some (ErrorfW ("annotate Deployment " +:+ ref +:+ " for rollout: ") e "")))
            | None =>
                withTimeout timeout
                  (poll (operator_round ref)
                     (fun _ _ => Some (Errorf ("timed out after " +:+ fmt_duration timeout +:+
                        " waiting for Deployment " +:+ ref +:+ " to become ready")))
                     fuel (5 * Second) tt)
            end
        end
  end.

(** ** The file systems *)

Fixpoint wait_filesystems (fuel : nat) (namespace : string) (timeout : Z) (names : list string)
    : M W (option (option error)) :=
  match names with
  | [] => mret (Some None)
  | name :: names =>
      let! r := WaitForCephFilesystemReady newDynamicClient fuel namespace name timeout in
      match r with
      | None => mret None
      | Some (Some e) => mret (Some (Some (ErrorfW ("CephFilesystem " +:+ namespace +:+ "/" +:+ name +:+
                           " did not become Ready after CRC flip: ") e "")))
      | Some None => wait_filesystems fuel namespace timeout names
      end
  end.

Definition waitCephFilesystemsReady (fuel : nat) (namespace : string) (timeout : Z) : M W (option (option error)) :=
  let namespace := in_default namespace in
  let! err := newDynamicClient in
  match err with
  | Some e => mret (Some (Some (ErrorfW "failed to create dynamic client: " e "")))
  | None =>
      let! l := clientList (O := unstructured (resource CephFilesystem)) in
      match l with
      | Err e => mret (Some (Some (ErrorfW ("list CephFilesystem in " +:+ namespace +:+ ": ") e "")))
      | Ok l => wait_filesystems fuel namespace timeout (omap (fun p => in_namespace namespace p.1) l)
      end
  end.

(** ** The switch *)

Definition format_bool (b : bool) : string := if b then "true" else "false".

Definition renderMsCrcDataOverrides (enabled : option bool) : gmap string string :=
  match enabled with
  | None => ∅
  | Some b => {["ms_crc_data" := format_bool b]}
  end.

(** [if err := m; err != nil { return fmt.Errorf(pre+"%w", err) }; k] *)
Definition step (pre : string) (m k : M W (option (option error))) : M W (option (option error)) :=
  let! r := m in
  match r with
  | None => mret None
  | Some (Some e) => mret (Some (Some (ErrorfW pre e "")))
  | Some None => k
  end.

Definition SetMsCrcDataOnServer (fuel : nat) (namespace : string) (enabled : option bool)
    : M W (option (option error)) :=
  let namespace := in_default namespace in
  let overrides := renderMsCrcDataOverrides enabled in
  let ref := namespace +:+ "/" +:+ RookConfigOverrideName in
  let! err := newClientset in
  match err with
  | Some e => mret (Some (Some (ErrorfW "failed to create clientset: " e "")))
  | None =>
      let! existing := clientGet (O := ConfigMap) ref in
      let unread := match existing with
                    | Err e => if IsNotFound (Some e) then None else Some e
                    | Ok _ => None
                    end in
      match unread with
      | Some e => mret (Some (Some (ErrorfW ("get " +:+ ref +:+ ": ") e "")))
      | None =>
          let currentConfig := match existing with
                               | Ok cm => default "" (cmData cm !! "config")
                               | Err _ => ""
                               end in
          if String.eqb currentConfig (RenderCephGlobalConfig overrides) then mret (Some None)
          else
            step "set rook-config-override: "
              (let! e := SetRookConfigOverride newClientset namespace overrides in mret (Some e))
            (step "restart ceph daemons: " (RestartCephDaemons fuel namespace (10 * Minute))
            (step "restart rook-ceph-operator: " (RestartRookOperator fuel namespace (5 * Minute))
            (step "wait CephFilesystem ready after CRC flip: "
               (waitCephFilesystemsReady fuel namespace (5 * Minute)) (mret (Some None)))))
      end
  end.

Definition EnableServerCRC (fuel : nat) (namespace : string) : M W (option (option error)) :=
  SetMsCrcDataOnServer fuel namespace (Some true).
Definition DisableServerCRC (fuel : nat) (namespace : string) : M W (option (option error)) :=
  SetMsCrcDataOnServer fuel namespace (Some false).
Definition ResetServerCRCToDefault (fuel : nat) (namespace : string) : M W (option (option error)) :=
  SetMsCrcDataOnServer fuel namespace None.
End Crc.

(** ** Theorems *)
Section CrcTheorems.
Context {W : Type} `{AE : ApiErrors, CX : Ctx W, SC : Scope W, ND : Nested}.
Context `{CM : Client W ConfigMap, CD : Client W Rollout, CFS : Client W (unstructured (resource CephFilesystem))}.
Context `{RS : !Restarts W, RL : !RestartsLaws W, DL : !ClientLaws W Rollout, CML : !ClientLaws W ConfigMap}.
Context `{SL : !ScopeLaws W Rollout}.
Context (newClientset newDynamicClient : M W (option error)).

Definition annotated (stamp k : string) (w : W) : Prop :=
  exists d, objs (O := Rollout) w !! k = Some d /\ restartedAt d = Some stamp.

(** Nobody else restarts or deletes Deployments while the code waits. *)
Class StampsKept : Prop := {
  ctx_stamps stamp k w : annotated stamp k w -> annotated stamp k (ctxErr w).2;
  timer_stamps stamp k z w : annotated stamp k w -> annotated stamp k (timerFires z w).2
}.

Lemma patch_annotates k stamp w w' : patchRestart k stamp w = (None, w') -> annotated stamp k w'.
Proof.
  intros H. apply patch_ok in H as (d & n & _ & _ & _ & Ho). unfold annotated.
  rewrite Ho lookup_insert_eq. by eexists.
Qed.

Lemma patch_keeps k k' stamp w w' : patchRestart k stamp w = (None, w') -> annotated stamp k' w -> annotated stamp k' w'.
Proof.
  intros H. destruct (decide (k' = k)) as [->|Hne]; [intros _; by eapply patch_annotates|].
  apply patch_ok in H as (d & n & _ & _ & _ & Ho). unfold annotated. by rewrite Ho lookup_insert_ne.
Qed.

Lemma restart_each_ok namespace stamp names w w' :
  restart_each namespace stamp names w = (None, w') ->
  (forall k, annotated stamp k w -> annotated stamp k w') /\
  forall name, name ∈ names -> annotated stamp (namespace +:+ "/" +:+ name) w'.
Proof.
  revert w. induction names as [|name names IH]; intros w H; cbn [restart_each each] in H.
  { injection H as <-. split; [done|]. intros name Hn. by apply elem_of_nil in Hn. }
  unfold restart_each in H. cbn [each] in H. mstep H as [e w1] E1. mstep E1 as [e1 w2] E2. injection E1 as <- <-.
  destruct e1 as [e1|]; [done|]. destruct (IH _ H) as [Hk Hn]. split.
  - intros k Hann. by eapply Hk, patch_keeps.
  - intros x [->|Hx]%elem_of_cons; [by eapply Hk, patch_annotates|by apply Hn].
Qed.

Lemma count_rolled_out_ok namespace names w n w' :
  count_rolled_out namespace names w = (Ok n, w') ->
  0 <= n <= Z.of_nat (length names) /\ objs (O := Rollout) w' = objs w /\
  (n = Z.of_nat (length names) -> forall name, name ∈ names ->
     exists d, objs w !! (namespace +:+ "/" +:+ name) = Some d /\ rolled_out d = true).
Proof.
  revert w n. induction names as [|name names IH]; intros w n H; cbn [count_rolled_out] in H.
  { injection H as <- <-. cbn. split; [lia|]. split; [done|]. intros _ x Hx. by apply elem_of_nil in Hx. }
  mstep H as [got w1] E1. destruct got as [d|e]; [|done]. apply get_ok in E1 as [Hg Ho].
  mstep H as [rest w2] E2. destruct rest as [m|e]; [|done]. injection H as <- <-.
  destruct (IH _ _ E2) as (Hb & Ho2 & Hall). rewrite Ho in Ho2, Hall. cbn [length].
  split; [destruct (rolled_out d); lia|]. split; [done|]. intros Hn x [->|Hx]%elem_of_cons.
  - exists d. split; [done|]. destruct (rolled_out d); [done|lia].
  - apply Hall; [destruct (rolled_out d); lia|done].
Qed.

Context `{SK : !StampsKept}.

Lemma gets_stamps namespace names stamp k w r w' :
  count_rolled_out namespace names w = (r, w') -> annotated stamp k w -> annotated stamp k w'.
Proof.
  revert w r. induction names as [|name names IH]; intros w r H Hann; cbn [count_rolled_out] in H.
  { by injection H as _ <-. }
  mstep H as [got w1] E1. assert (Ho : objs (O := Rollout) w1 = objs w).
  { destruct got; [by apply get_ok in E1 as [_ ?]|by apply get_err in E1 as [? _]]. }
  assert (Hann1 : annotated stamp k w1) by (unfold annotated; by rewrite Ho).
  destruct got as [d|e]; [|by injection H as _ <-]. mstep H as [rest w2] E2.
  injection H as _ ->. by eapply IH.
Qed.

(** [RestartCephDaemons] returns nil only when there are daemons and each Deployment that was
    listed carries the annotation of this restart and has rolled out. *)
Lemma RestartCephDaemons_ok fuel namespace timeout w w' :
  RestartCephDaemons newClientset fuel namespace timeout w = (Some None, w') ->
  exists w1 l w2 stamp, clientList (O := Rollout) w1 = (Ok l, w2) /\
    daemon_names (in_default namespace) l <> [] /\
    forall name, name ∈ daemon_names (in_default namespace) l ->
      exists d, objs w' !! (in_default namespace +:+ "/" +:+ name) = Some d /\
        rolled_out d = true /\ restartedAt d = Some stamp.
Proof.
  intros H. unfold RestartCephDaemons in H. mstep H as [e w1] E1. destruct e as [e|]; [done|].
  mstep H as [l w2] E2. destruct l as [l|e]; [|done]. set (ns := in_default namespace) in *.
  destruct (daemon_names ns l) as [|n0 names] eqn:Hn; [done|]. set (all := n0 :: names) in *.
  mstep H as [stamp w3] E3. mstep H as [e w4] E4. destruct e as [e|]; [done|].
  apply restart_each_ok in E4 as [_ Hann]. apply withTimeout_inv in H as (w5 & H & ->).
  exists w1, l, w2, stamp. split; [done|]. rewrite Hn. split; [done|].
  pose (J (_ : Z) (v : W) := forall name, name ∈ all -> annotated stamp (ns +:+ "/" +:+ name) v).
  apply (poll_ended _ _ J) in H.
  - destruct H as [s v s' HJ Hc|s ce z v0 v1 _ _ _ [=]].
    unfold daemons_round in Hc. mstep Hc as [ready v1] E5. injection Hc as Hr <-.
    destruct ready as [ready|e]; [|done]. injection Hr as _ Hr.
    destruct (ready =? Z.of_nat (length all)) eqn:Hz; [apply Z.eqb_eq in Hz as ->|by rewrite Hz in Hr].
    destruct (count_rolled_out_ok _ _ _ _ _ E5) as (_ & Ho & Hall). intros name Hin.
    destruct (HJ name Hin) as (d & Hd & Hs). destruct (Hall eq_refl name Hin) as (d' & Hd' & Hro).
    rewrite leave_objs Ho. exists d. split; [done|]. split; [|done]. by simplify_eq.
  - intros s v s' r v' HJ Hc name Hin. unfold daemons_round in Hc. mstep Hc as [ready v1] E5.
    injection Hc as _ <-. by eapply gets_stamps, HJ.
  - intros s z v v' HJ Ht name Hin. pose proof (timer_stamps stamp _ z v (HJ name Hin)) as Hk. by rewrite Ht in Hk.
  - intros name Hin. destruct (Hann name Hin) as (d & Hd & Hs). exists d. split; [|done]. by rewrite enter_objs.
Qed.

Hypothesis clientset_objs : forall w, objs (O := ConfigMap) (newClientset w).2 = objs w /\
  objs (O := Rollout) (newClientset w).2 = objs w.
Context `{FC : !Frame W ConfigMap Rollout}.

Lemma step_nil pre (m k : M W (option (option error))) w w' :
  step pre m k w = (Some None, w') -> exists w1, m w = (Some None, w1) /\ k w1 = (Some None, w').
Proof. intros H. unfold step in H. mstep H as [r w1] E. exists w1. by destruct r as [[e|]|]. Qed.

(** The text of the configuration on the server. *)
Definition config_on_server (namespace : string) (w : W) : string :=
  match objs (O := ConfigMap) w !! (in_default namespace +:+ "/" +:+ RookConfigOverrideName) with
  | Some cm => default "" (cmData cm !! "config")
  | None => ""
  end.

(** [SetMsCrcDataOnServer] returns nil in two cases: the wanted configuration was on the server
    already, and then no Deployment was touched; or it was written, all daemons have rolled out
    with the annotation of a restart made after that, and the restart of the operator and the
    wait for the file systems returned nil too. *)
Theorem SetMsCrcDataOnServer_spec fuel namespace enabled w w' :
  SetMsCrcDataOnServer newClientset newDynamicClient fuel namespace enabled w = (Some None, w') ->
  let want := RenderCephGlobalConfig (renderMsCrcDataOverrides enabled) in
  (config_on_server namespace w = want /\ objs (O := Rollout) w' = objs w) \/
  (config_on_server namespace w <> want /\ exists w2 w3 w4,
     config_on_server namespace w2 = want /\
     RestartCephDaemons newClientset fuel (in_default namespace) (10 * Minute) w2 = (Some None, w3) /\
     (exists v l v' stamp, clientList (O := Rollout) v = (Ok l, v') /\ forall name,
        name ∈ daemon_names (in_default namespace) l -> exists d,
          objs w3 !! (in_default namespace +:+ "/" +:+ name) = Some d /\
          rolled_out d = true /\ restartedAt d = Some stamp) /\
     RestartRookOperator newClientset fuel (in_default namespace) (5 * Minute) w3 = (Some None, w4) /\
     waitCephFilesystemsReady newDynamicClient fuel (in_default namespace) (5 * Minute) w4 = (Some None, w')).
Proof.
  intros H. cbv zeta. set (want := RenderCephGlobalConfig _). unfold SetMsCrcDataOnServer in H.
  cbv zeta in H. fold want in H. set (ns := in_default namespace) in *. mstep H as [e w1] E1.
  destruct (clientset_objs w) as [Hc Hd]. rewrite E1 in Hc, Hd. cbn in Hc, Hd. destruct e as [e|]; [done|].
  mstep H as [got w2] E2. pose proof (frame_get (O1 := ConfigMap) (O2 := Rollout) (ns +:+ "/" +:+ RookConfigOverrideName) w1) as Hf.
  rewrite E2 in Hf. cbn in Hf.
  assert (Hcur : match got with Ok cm => default "" (cmData cm !! "config") | Err _ => "" end = config_on_server namespace w
                 \/ exists e, got = Err e /\ IsNotFound (Some e) = false).
  { unfold config_on_server. fold ns. rewrite -Hc. destruct got as [cm|e].
    - apply get_ok in E2 as [-> _]. by left.
    - destruct (IsNotFound (Some e)) eqn:He; [|right; by exists e].
      apply get_err in E2 as [_ Hn]. rewrite (Hn He). by left. }
  destruct Hcur as [Hcur|(e & -> & He)]; [|by rewrite He in H].
  assert (Hread : match got with Ok _ => None | Err e => if IsNotFound (Some e) then None else Some e end = None).
  { destruct got as [cm|e]; [done|]. by destruct (IsNotFound (Some e)). }
  rewrite Hread Hcur in H. destruct (String.eqb_spec (config_on_server namespace w) want) as [Heq|Hne].
  { left. split; [done|]. injection H as <-. by rewrite Hf Hd. }
  right. split; [done|]. apply step_nil in H as (w3 & H3 & H). apply step_nil in H as (w4 & H4 & H).
  apply step_nil in H as (w5 & H5 & H). apply step_nil in H as (w6 & H6 & H). injection H as <-.
  mstep H3 as [e w7] E3. injection H3 as -> ->. exists w3, w4, w5. split.
  { apply (SetRookConfigOverride_ok newClientset) in E3 as (cm & Hcm & Hdata).
    unfold config_on_server. fold ns. rewrite Hcm Hdata. by rewrite lookup_singleton_eq. }
  split; [done|]. split; [|done]. apply RestartCephDaemons_ok in H4 as (v & l & v' & stamp & Hl & _ & Hall).
  rewrite (in_default_idem namespace) in Hall.
  eauto 8.
Qed.
End CrcTheorems.

(** ** A small cluster

    Between two looks the Deployments roll out. *)
Definition crc_lab : Type :=
  memWorld ConfigMap * (memWorld Rollout * memWorld (unstructured (resource CephFilesystem))).

Definition observe_generation (d : Rollout) : Rollout :=
  mkRollout (appLabel d) (generation d) (specReplicas d) (restartedAt d) (generation d) (updatedReplicas d)
    (availableReplicas d).

Definition roll_out (w : crc_lab) : crc_lab :=
  let '(cm, (ds, fs)) := w in
  (cm, (mkWorld (mkMem (observe_generation <$> mem_objs (store ds)) (mem_faults (store ds))) (ticks ds) (done ds), fs)).

#[export] Instance crc_ctx : Ctx crc_lab := {|
  ctxErr := on_fst ctxErr;
  timerFires := fun z w => let '(b, w') := on_fst (timerFires z) w in (b, roll_out w')
|}.

#[export] Instance crc_restarts : Restarts crc_lab := {|
  patchRestart := fun k stamp => on_snd (on_fst (on_store (mem_call Some (fun s =>
    match s !! k with
    | Some d => (None, <[k := stamped stamp (generation d + 1) d]> s)
    | None => (Some (notFoundError k), s)
    end))));
  timestamp := mret "2025-01-01T00:00:00Z"
|}.

#[export] Instance crc_restarts_laws : RestartsLaws crc_lab.
Proof.
  split; [|done]. intros k stamp w w' H. cbn in H.
  apply on_snd_inv in H as [H _]. apply on_fst_inv in H as [H _].
  apply on_store_cases, mem_call_cases in H as [(msg & [=] & _)|(s & H & Hs)]. cbn.
  destruct (mem_objs (store w.2.1) !! k) as [d|] eqn:Hk; [|done]. injection H as H. exists d, (generation d + 1).
  split; [done|]. split; [lia|]. split; [lia|]. by rewrite Hs H.
Qed.

#[export] Instance crc_stamps : StampsKept (W := crc_lab).
Proof.
  split.
  - intros stamp k [cm [ds fs]] H. exact H.
  - intros stamp k z [[st n dn] [ds fs]] (d & Hd & Hs). exists (observe_generation d). cbn in *.
    split; [|done]. destruct n; cbn; by rewrite lookup_fmap Hd.
Qed.

Definition daemon (app : string) : Rollout := mkRollout app 1 (Some 1) None 1 1 1.

Definition crc_world (faults : list (option string)) : crc_lab :=
  (mkWorld (mkMem ∅ []) 50 false,
   (mkWorld (mkMem {["d8-sds-elastic/rook-ceph-mon-a" := daemon "rook-ceph-mon";
                     "d8-sds-elastic/rook-ceph-mds-a" := daemon "rook-ceph-mds";
                     "d8-sds-elastic/sds-elastic" := daemon "operator"]} faults) 50 false,
    mkWorld (mkMem ∅ []) 50 false)).

Definition crc_disable : crc_lab -> option (option error) * crc_lab :=
  DisableServerCRC (mret None) (mret None) 9 "".

Lemma SetMsCrcDataOnServer_spec_witness :
  exists (w3 : crc_lab) (l : list (string * Rollout)) (stamp : string), forall name,
    name ∈ daemon_names DefaultRookNamespace l -> exists d,
      objs w3 !! (DefaultRookNamespace +:+ "/" +:+ name) = Some d /\
      rolled_out d = true /\ restartedAt d = Some stamp.
Proof.
  destruct (crc_disable (crc_world [])) as [r w'] eqn:E.
  assert (Hr : r = Some None) by (vm_compute in E; by injection E as <- _). subst r.
  assert (Hkeep : forall w : crc_lab, objs (W := crc_lab) (O := ConfigMap) ((mret None : M crc_lab (option error)) w).2 = objs (W := crc_lab) w /\
    objs (W := crc_lab) (O := Rollout) ((mret None : M crc_lab (option error)) w).2 = objs (W := crc_lab) w)
    by (intros w; split; reflexivity).
  destruct (SetMsCrcDataOnServer_spec (W := crc_lab) (mret None) (mret None) Hkeep 9 ""
    (Some false) (crc_world []) w' E) as [[Hc _]|(_ & w2 & w3 & w4 & _ & _ & (v & l & v' & stamp & _ & Hall) & _)];
    [vm_compute in Hc; done|].
  exists w3, l, stamp. exact Hall.
Defined.

(** A restart that failed is not made up for: the ConfigMap is written, the annotation of the
    daemons fails, and the next call finds the ConfigMap as wanted and reports success. *)
Example crc_restart_lost :
  let '(r1, w1) := crc_disable (crc_world [None; Some "etcdserver: request timed out"]) in
  let '(r2, w2) := crc_disable w1 in
  (exists e, r1 = Some (Some e)) /\ r2 = Some None /\
  forall k d, objs (O := Rollout) w2 !! k = Some d -> restartedAt d = None.
Proof.
  destruct (crc_disable _) as [r1 w1] eqn:E1. destruct (crc_disable w1) as [r2 w2] eqn:E2.
  vm_compute in E1. injection E1 as <- <-. vm_compute in E2. injection E2 as <- <-.
  split; [by eexists|]. split; [done|]. intros k d Hk.
  change (({["d8-sds-elastic/rook-ceph-mon-a" := daemon "rook-ceph-mon";
             "d8-sds-elastic/rook-ceph-mds-a" := daemon "rook-ceph-mds";
             "d8-sds-elastic/sds-elastic" := daemon "operator"]} : gmap string Rollout) !! k = Some d) in Hk.
  do 2 (apply lookup_insert_Some in Hk as [[_ <-]|[_ Hk]]; [done|]).
  by apply lookup_singleton_Some in Hk as [_ <-].
Qed.
