(* ===== verification/LegacyRemote.v ===== *)
(** What the legacy cluster code relies on of remote hosts and local files: the interface
    [SSHClient] of [src/internal/infrastructure/ssh/interface.go], with its clients that are open
    and what was done over them, and the files of package [os]. An in-memory instance answers
    from a script. *)
From S2P Require Import Prelude Errors Retry Kube.

Local Open Scope Z_scope.
Local Open Scope go_scope.

(** What was done on a host: a command with its combined output, or an upload. *)
Inductive ssh_event :=
| Ran (host cmd out : string) (err : option error)
| Put (host remotePath : string) (perm : option Z) (err : option error).

(** The host and its user, with the key to log in. *)
Record login := mkLogin { login_user : string; login_host : string; login_key : string }.

(** [Exec], [Upload] and the like of a client; clients are numbered. *)
Class LegacySSH (W : Type) := {
  ssh_open : W -> gmap Z string;
  ssh_log : W -> list ssh_event;
  NewClient : login -> M W (result Z);
  NewClientWithJumpHost : login -> login -> M W (result Z);
  Exec : Z -> string -> M W (string * option error);
  Upload : Z -> string -> string -> M W (option error);
  UploadPrivate : Z -> string -> string -> Z -> M W (option error);
  ssh_Close : Z -> M W (option error)
}.

(** The host of a client. *)
Definition host_of {W} `{LegacySSH W} (c : Z) (w : W) : string := default "" (ssh_open w !! c).

(** A client that is not there is not opened, closing one removes it whatever it reports, and
    each operation is done on the host of its client. *)
Class LegacySSHLaws (W : Type) `{LegacySSH W} : Prop := {
  client_ok l w c w' : NewClient l w = (Ok c, w') ->
    ssh_open w !! c = None /\ ssh_open w' = <[c := login_host l]> (ssh_open w) /\ ssh_log w' = ssh_log w;
  client_err l w e w' : NewClient l w = (Err e, w') -> ssh_open w' = ssh_open w /\ ssh_log w' = ssh_log w;
  jump_ok j l w c w' : NewClientWithJumpHost j l w = (Ok c, w') ->
    ssh_open w !! c = None /\ ssh_open w' = <[c := login_host l]> (ssh_open w) /\ ssh_log w' = ssh_log w;
  jump_err j l w e w' : NewClientWithJumpHost j l w = (Err e, w') ->
    ssh_open w' = ssh_open w /\ ssh_log w' = ssh_log w;
  exec_done c cmd w out err w' : Exec c cmd w = ((out, err), w') ->
    ssh_open w' = ssh_open w /\ ssh_log w' = ssh_log w ++ [Ran (host_of c w) cmd out err];
  upload_done c l r w err w' : Upload c l r w = (err, w') ->
    ssh_open w' = ssh_open w /\ ssh_log w' = ssh_log w ++ [Put (host_of c w) r None err];
  private_done c l r perm w err w' : UploadPrivate c l r perm w = (err, w') ->
    ssh_open w' = ssh_open w /\ ssh_log w' = ssh_log w ++ [Put (host_of c w) r (Some perm) err];
  ssh_close_removes c w r w' : ssh_Close c w = (r, w') ->
    ssh_open w' = delete c (ssh_open w) /\ ssh_log w' = ssh_log w
}.

(** ** Local files *)
Class LocalFiles (W : Type) := {
  files : W -> gmap string string;
  readFile : string -> M W (result string);
  mkdirAll : string -> M W (option error);
  createFile : string -> M W (option error);
  createTemp : string -> M W (result string);
  chmod : string -> Z -> M W (option error);
  writeTo : string -> string -> M W (option error);
  closeFile : string -> M W (option error);
  removeFile : string -> M W (option error)
}.

(** What the removal of a temporary file rests on: its name was free; reading, permissions and
    closing change no content, writing only that of its file, and a removal that succeeds
    removes. *)
Class LocalFilesLaws (W : Type) `{LocalFiles W} : Prop := {
  temp_ok p w f w' : createTemp p w = (Ok f, w') -> files w !! f = None /\ files w' = <[f := ""]> (files w);
  temp_err p w e w' : createTemp p w = (Err e, w') -> files w' = files w;
  chmod_keeps f m w : files (chmod f m w).2 = files w;
  write_own f s w : delete f (files (writeTo f s w).2) = delete f (files w);
  close_keeps f w : files (closeFile f w).2 = files w;
  read_keeps f w : files (readFile f w).2 = files w;
  mkdir_keeps f w : files (mkdirAll f w).2 = files w;
  create_own f w : delete f (files (createFile f w).2) = delete f (files w);
  remove_own f w : delete f (files (removeFile f w).2) = delete f (files w);
  remove_ok f w w' : removeFile f w = (None, w') -> files w' = delete f (files w)
}.

(** ** What a computation does on remote hosts

    [P] holds of its result and the new events, when the clients [O] are open. *)
Section Traces.
Context {W : Type} `{LS : LegacySSH W, LL : !LegacySSHLaws W}.

Definition traces {A} (O : gmap Z string) (m : M W A) (P : A -> list ssh_event -> Prop) : Prop :=
  forall w a w', ssh_open w = O -> m w = (a, w') ->
  ssh_open w' = O /\ exists new, ssh_log w' = ssh_log w ++ new /\ P a new.

Lemma traces_ret {A} O (a : A) (P : A -> list ssh_event -> Prop) : P a [] -> traces O (mret a) P.
Proof. intros HP w b w' HO [= <- <-]. split; [done|]. exists []. by rewrite app_nil_r. Qed.

Lemma traces_bind {A B} O (m : M W A) (k : A -> M W B) (P : A -> list ssh_event -> Prop) (Q : B -> list ssh_event -> Prop) :
  traces O m P -> (forall a n, P a n -> traces O (k a) (fun b n' => Q b (n ++ n'))) -> traces O (mbind k m) Q.
Proof.
  intros Hm Hk w b w' HO H. mstep H as [a w1] E. destruct (Hm _ _ _ HO E) as (HO1 & n & Hn & HP).
  destruct (Hk a n HP _ _ _ HO1 H) as (HO2 & n' & Hn' & HQ). split; [done|]. exists (n ++ n').
  by rewrite Hn' Hn app_assoc.
Qed.

Lemma traces_conseq {A} O (m : M W A) (P Q : A -> list ssh_event -> Prop) :
  traces O m P -> (forall a n, P a n -> Q a n) -> traces O m Q.
Proof. intros Hm HPQ w a w' HO H. destruct (Hm _ _ _ HO H) as (? & n & ? & ?). split; [done|]. eauto. Qed.

(** A computation that is about something else. *)
Definition local {A} (m : M W A) : Prop := forall w, ssh_open (m w).2 = ssh_open w /\ ssh_log (m w).2 = ssh_log w.

Lemma traces_local {A} O (m : M W A) (P : A -> list ssh_event -> Prop) :
  local m -> (forall a, P a []) -> traces O m P.
Proof.
  intros Hm HP w a w' HO H. destruct (Hm w) as [Ho Hl]. rewrite H in Ho, Hl. cbn in Ho, Hl.
  split; [by rewrite Ho|]. exists []. by rewrite app_nil_r.
Qed.

Lemma ret_local {A} (a : A) : local (mret (M := M W) a).
Proof. done. Qed.
Lemma bind_local {A B} (m : M W A) (k : A -> M W B) : local m -> (forall a, local (k a)) -> local (mbind k m).
Proof.
  intros Hm Hk w. unfold mbind, M_bind. specialize (Hm w). destruct (m w) as [a w1]. cbn in Hm.
  destruct Hm as [Ho Hl], (Hk a w1) as [Ho' Hl']. by rewrite Ho' Hl' Ho Hl.
Qed.

Lemma traces_exec O c cmd (P : string * option error -> list ssh_event -> Prop) :
  (forall out err, P (out, err) [Ran (default "" (O !! c)) cmd out err]) -> traces O (Exec c cmd) P.
Proof.
  intros HP w [out err] w' HO H. apply exec_done in H as [Ho Hl]. unfold host_of in Hl. rewrite HO in Ho, Hl.
  split; [done|]. eauto.
Qed.

(** The first step of a computation: a command, or something local. *)
Lemma traces_exec_do {B} O c cmd (k : string * option error -> M W B) (Q : B -> list ssh_event -> Prop) :
  (forall x, traces O (k x) (fun b n => Q b (Ran (default "" (O !! c)) cmd x.1 x.2 :: n))) -> traces O (mbind k (Exec c cmd)) Q.
Proof.
  intros Hk. eapply traces_bind; [apply (traces_exec _ _ _ (fun a n => n = [Ran (default "" (O !! c)) cmd a.1 a.2])); done|].
  intros x n ->. apply Hk.
Qed.

Lemma traces_exec_then {B} O c cmd (k : string -> option error -> M W B) (Q : B -> list ssh_event -> Prop) :
  (forall out err, traces O (k out err) (fun b n => Q b (Ran (default "" (O !! c)) cmd out err :: n))) ->
  traces O (mbind (fun x => let '(out, err) := x in k out err) (Exec c cmd)) Q.
Proof. intros Hk. apply traces_exec_do. intros [out err]. apply Hk. Qed.

Lemma traces_local_then {A B} O (m : M W A) (k : A -> M W B) (Q : B -> list ssh_event -> Prop) :
  local m -> (forall a, traces O (k a) Q) -> traces O (mbind k m) Q.
Proof.
  intros Hm Hk. eapply traces_bind; [apply (traces_local _ _ (fun _ n => n = [])); done|]. intros a n ->. apply Hk.
Qed.

Lemma traces_upload O c l r (P : option error -> list ssh_event -> Prop) :
  (forall err, P err [Put (default "" (O !! c)) r None err]) -> traces O (Upload c l r) P.
Proof.
  intros HP w err w' HO H. apply upload_done in H as [Ho Hl]. unfold host_of in Hl. rewrite HO in Ho, Hl.
  split; [done|]. eauto.
Qed.

Lemma traces_private O c l r perm (P : option error -> list ssh_event -> Prop) :
  (forall err, P err [Put (default "" (O !! c)) r (Some perm) err]) -> traces O (UploadPrivate c l r perm) P.
Proof.
  intros HP w err w' HO H. apply private_done in H as [Ho Hl]. unfold host_of in Hl. rewrite HO in Ho, Hl.
  split; [done|]. eauto.
Qed.
End Traces.

(** Remote hosts and local files are apart. *)
Class Apart (W : Type) `{LegacySSH W, LocalFiles W} : Prop := {
  read_local f : local (readFile f);
  mkdir_local f : local (mkdirAll f);
  create_local f : local (createFile f);
  temp_local p : local (createTemp p);
  chmod_local f m : local (chmod f m);
  write_local f s : local (writeTo f s);
  close_local f : local (closeFile f);
  remove_local f : local (removeFile f);
  exec_files c cmd w : files (Exec c cmd w).2 = files w;
  upload_files c l r w : files (Upload c l r w).2 = files w;
  private_files c l r m w : files (UploadPrivate c l r m w).2 = files w
}.

(** ** What a computation does to local files

    At most those in [L] change. *)
Section Files.
Context {W : Type} `{LF : LocalFiles W}.

Definition touches {A} (L : list string) (m : M W A) : Prop :=
  forall w f, f ∉ L -> files (m w).2 !! f = files w !! f.

Lemma touches_ret {A} L (a : A) : touches L (mret (M := M W) a).
Proof. done. Qed.

Lemma touches_bind {A B} L (m : M W A) (k : A -> M W B) : touches L m -> (forall a, touches L (k a)) -> touches L (mbind k m).
Proof.
  intros Hm Hk w f Hf. unfold mbind, M_bind. specialize (Hm w f Hf). destruct (m w) as [a w1]. by rewrite (Hk a w1 f Hf) Hm.
Qed.

Lemma touches_none {A} L (m : M W A) : (forall w, files (m w).2 = files w) -> touches L m.
Proof. intros Hm w f _. by rewrite Hm. Qed.

Lemma touches_one {A} L f (m : M W A) : f ∈ L -> (forall w, delete f (files (m w).2) = delete f (files w)) -> touches L m.
Proof.
  intros Hf Hm w g Hg. assert (f <> g) by (by intros ->). specialize (Hm w).
  by rewrite -(lookup_delete_ne _ f g) // Hm lookup_delete_ne.
Qed.
End Files.

(** ** In memory

    Hosts that answer from a script: [answer] says, from what was done so far, what a command on
    a host prints and returns; connecting fails for the hosts in [unreachable]. *)
Record fleet := mkFleet {
  h_open : gmap Z string;
  h_log : list ssh_event;
  h_files : gmap string string;
  h_answer : list ssh_event -> string -> string -> string * option error;
  h_unreachable : list string;
  h_ticks : nat
}.

Definition h_connect (l : login) (w : fleet) : result Z * fleet :=
  if existsb (String.eqb (login_host l)) (h_unreachable w) then (Err (Errorf "connection refused"), w)
  else
    let c := fresh (dom (h_open w)) in
    (Ok c, mkFleet (<[c := login_host l]> (h_open w)) (h_log w) (h_files w) (h_answer w) (h_unreachable w)
             (h_ticks w)).

Definition h_event (e : ssh_event) (w : fleet) : fleet :=
  mkFleet (h_open w) (h_log w ++ [e]) (h_files w) (h_answer w) (h_unreachable w) (h_ticks w).
Definition h_set_files (m : gmap string string) (w : fleet) : fleet :=
  mkFleet (h_open w) (h_log w) m (h_answer w) (h_unreachable w) (h_ticks w).

#[export] Instance fleet_ssh : LegacySSH fleet := {|
  ssh_open := h_open;
  ssh_log := h_log;
  NewClient := h_connect;
  NewClientWithJumpHost := fun _ => h_connect;
  Exec := fun c cmd w =>
    let host := default "" (h_open w !! c) in
    let '(out, err) := h_answer w (h_log w) host cmd in ((out, err), h_event (Ran host cmd out err) w);
  Upload := fun c _ r w => (None, h_event (Put (default "" (h_open w !! c)) r None None) w);
  UploadPrivate := fun c _ r perm w => (None, h_event (Put (default "" (h_open w !! c)) r (Some perm) None) w);
  ssh_Close := fun c w =>
    (None, mkFleet (delete c (h_open w)) (h_log w) (h_files w) (h_answer w) (h_unreachable w) (h_ticks w))
|}.

#[export] Instance fleet_ssh_laws : LegacySSHLaws fleet.
Proof.
  assert (Hc : forall l w c w', h_connect l w = (Ok c, w') ->
    h_open w !! c = None /\ h_open w' = <[c := login_host l]> (h_open w) /\ h_log w' = h_log w).
  { intros l w c w'. unfold h_connect. destruct (existsb _ _); [done|]. intros [= <- <-].
    split; [|done]. apply not_elem_of_dom, is_fresh. }
  assert (He : forall l w e w', h_connect l w = (Err e, w') -> h_open w' = h_open w /\ h_log w' = h_log w).
  { intros l w e w'. unfold h_connect. destruct (existsb _ _); [|done]. by intros [= _ <-]. }
  split; [apply Hc|apply He|intros j; apply Hc|intros j; apply He|..].
  - intros c cmd w out err w'. cbn. destruct (h_answer w _ _ _) as [o e]. by intros [= <- <- <-].
  - intros c l r w err w'. cbn. by intros [= <- <-].
  - intros c l r perm w err w'. cbn. by intros [= <- <-].
  - intros c w r w'. cbn. by intros [= <- <-].
Qed.

#[export] Instance fleet_files : LocalFiles fleet := {|
  files := h_files;
  readFile := fun f w => (match h_files w !! f with Some s => Ok s | None => Err (Errorf ("open " +:+ f)) end, w);
  mkdirAll := fun _ w => (None, w);
  createFile := fun f w => (None, h_set_files (<[f := ""]> (h_files w)) w);
  createTemp := fun _ w =>
    let f := fresh (dom (h_files w)) in (Ok f, h_set_files (<[f := ""]> (h_files w)) w);
  chmod := fun _ _ w => (None, w);
  writeTo := fun f s w => (None, h_set_files (<[f := default "" (h_files w !! f) +:+ s]> (h_files w)) w);
  closeFile := fun _ w => (None, w);
  removeFile := fun f w => (None, h_set_files (delete f (h_files w)) w)
|}.

#[export] Instance fleet_files_laws : LocalFilesLaws fleet.
Proof.
  split.
  - intros p w f w'. cbn. intros [= <- <-]. split; [|done]. apply not_elem_of_dom, is_fresh.
  - done.
  - done.
  - intros f s w. cbn. apply delete_insert_eq.
  - done.
  - done.
  - done.
  - intros f w. cbn. apply delete_insert_eq.
  - intros f w. cbn. apply delete_delete_eq.
  - intros f w w'. cbn. by intros [= <-].
Qed.

#[export] Instance fleet_apart : Apart fleet.
Proof.
  split; try done. intros c cmd w. cbn. by destruct (h_answer w _ _ _).
Qed.

#[export] Instance fleet_ctx : Ctx fleet := {|
  ctxErr := fun w => (match h_ticks w with O => Some (Errorf "context deadline exceeded") | S _ => None end, w);
  timerFires := fun _ w =>
    match h_ticks w with
    | O => (false, w)
    | S n => (true, mkFleet (h_open w) (h_log w) (h_files w) (h_answer w) (h_unreachable w) n)
    end
|}.

(** With something else beside it. *)
#[export] Instance pair_legacy_ssh W1 W2 `{S1 : LegacySSH W1} : LegacySSH (W1 * W2) := {|
  ssh_open := fun w => ssh_open w.1;
  ssh_log := fun w => ssh_log w.1;
  NewClient := fun l => on_fst (NewClient l);
  NewClientWithJumpHost := fun j l => on_fst (NewClientWithJumpHost j l);
  Exec := fun c cmd => on_fst (Exec c cmd);
  Upload := fun c l r => on_fst (Upload c l r);
  UploadPrivate := fun c l r m => on_fst (UploadPrivate c l r m);
  ssh_Close := fun c => on_fst (ssh_Close c)
|}.

#[export] Instance pair_legacy_ssh_laws W1 W2 `{S1 : LegacySSH W1, L1 : !LegacySSHLaws W1} : LegacySSHLaws (W1 * W2).
Proof.
  split; intros *; intros [H _]%on_fst_inv;
    [by apply client_ok in H|by apply client_err in H|by apply jump_ok in H|by apply jump_err in H|by apply exec_done in H
    |by apply upload_done in H|by apply private_done in H|by apply ssh_close_removes in H].
Qed.
