(* ===== verification/LegacySetup.v ===== *)
(** Installing a cluster on the machines of the legacy suites
    ([src/pkg/cluster/setup.go]): the setup node, the configuration and the run of dhctl, joining
    the other nodes and waiting for them. *)
From S2P Require Import SshDial DvpConfig Deckhouse.
From S2P Require Import Prelude Errors Retry Env Kube Pool Config Install Virt Bootstrap Dhctl.
From S2P Require Import KitExec LegacyVms KitApply LegacyRemote.

Local Open Scope Z_scope.
Local Open Scope go_scope.

(** ** The configuration of dhctl *)

Fixpoint find_cidr (prefixes : list Z) (firstIP : Z) (parsedIPs : list Z) : result string :=
  match prefixes with
  | [] => Err (Errorf "failed to find a network CIDR that contains all IPs")
  | prefixLen :: prefixes' =>
      let cidrStr := fmt_cidr (Mask firstIP (CIDRMask prefixLen)) prefixLen in
      match ParseCIDR cidrStr with
      | None => Err (ErrorfW ("failed to parse CIDR " +:+ cidrStr +:+ ": ") (cidr_error cidrStr) "")
      | Some ipNet =>
          if forallb (net_contains ipNet) parsedIPs then Ok cidrStr
          else find_cidr prefixes' firstIP parsedIPs
      end
  end.

Definition calculateNetworkCIDR (vmIPs : list string) : result string :=
  match vmIPs with
  | [] => Err (Errorf "vmIPs cannot be empty")
  | _ =>
      match parse_all vmIPs with
      | Err e => Err e
      | Ok parsedIPs => find_cidr cidr_prefixes (clear_last_byte (hd 0 parsedIPs)) parsedIPs
      end
  end.

(** The values of the template. *)
Definition template_data (registryDockerCfg : string) (def : ClusterDefinition) : result bootstrapParams :=
  let vmIPs := cluster_vm_ips def in
  let firstMasterIP := default "" (head (omap vm_ip (Masters def))) in
  if Nat.eqb (length vmIPs) 0
  then Err (Errorf "no VM IP addresses found in cluster definition (IPAddress fields must be filled via GatherVMInfo)")
  else if String.eqb firstMasterIP "" then Err (Errorf "no master IP address found in cluster definition")
  else match calculateNetworkCIDR vmIPs with
       | Err e => Err (ErrorfW "failed to calculate network CIDR: " e "")
       | Ok internalNetworkCIDR =>
           let d := DKP def in
           Ok (mkParams (PodSubnetCIDR d) (ServiceSubnetCIDR d) (KubernetesVersion d) (ClusterDomain d)
                 (RegistryRepo d) registryDockerCfg ("%s." +:+ firstMasterIP +:+ ".sslip.io") internalNetworkCIDR
                 (if String.eqb (DevBranch d) "" then "main" else DevBranch d))
       end.

Definition E2ETempDir := "/tmp/e2e".

(** The local copy of the log. *)
Definition log_path (t : string) : string := path_Join [E2ETempDir; "bootstrap-" +:+ t +:+ ".log"].

(** ** The setup node *)

Record OSInfo := mkOSInfo {
  os_ID : string;
  os_IDLike : string;
  os_VersionID : string;
  os_PrettyName : string;
  os_KernelVersion : string
}.

Definition is_quote (c : Ascii.ascii) : bool := Nat.eqb (Ascii.nat_of_ascii c) 34.

(** One line of [/etc/os-release]. *)
Definition os_line (info : OSInfo) (line : string) : OSInfo :=
  let line := TrimSpace line in
  if String.eqb line "" || HasPrefix line "#" then info
  else match split_first "=" line with
       | None => info
       | Some (key, value) =>
           let key := TrimSpace key in
           let value := trim_right is_quote (trim_left is_quote (TrimSpace value)) in
           let '(mkOSInfo id like version pretty_ kernel) := info in
           if String.eqb key "ID" then mkOSInfo (ToLower value) like version pretty_ kernel
           else if String.eqb key "ID_LIKE" then mkOSInfo id (ToLower value) version pretty_ kernel
           else if String.eqb key "VERSION_ID" then mkOSInfo id like value pretty_ kernel
           else if String.eqb key "PRETTY_NAME" then mkOSInfo id like version value kernel
           else info
       end.

Definition os_release (output : string) : OSInfo :=
  foldl os_line (mkOSInfo "" "" "" "" "") (Split output nl).

(** The script that waits for cloud-init and Docker. *)
Definition waitCmd : string :=
  let echo text := "echo " +:+ dq +:+ text +:+ dq in
  nl +:+ Join
    ["set -e"; "";
     echo "Waiting for cloud-init to complete...";
     "sudo cloud-init status --wait || true"; "";
     "# Wait for Docker service to be available (cloud-init enables it)";
     "max_wait=300"; "waited=0";
     echo "Waiting for Docker service to be ready...";
     "while [ $waited -lt $max_wait ]; do";
     "    if sudo systemctl is-active --quiet docker 2>/dev/null; then";
     "        " +:+ echo "Docker service is active";
     "        break"; "    fi";
     "    " +:+ echo "Docker not ready yet, waiting... ($waited/$max_wait seconds)";
     "    sleep 10"; "    waited=$((waited + 10))"; "done"; "";
     "if [ $waited -ge $max_wait ]; then";
     "    " +:+ echo "Docker service did not become ready in time, attempting to start it...";
     "    sudo systemctl start docker || true"; "fi"; ""] nl.

(** The path that [mktemp] printed. *)
Definition mktemp_path (out : string) : string := TrimSpace (hd "" (Split (TrimSpace out) nl)).

Section Setup.
Context {W : Type} `{AE : ApiErrors, CX : Ctx W, SC : Scope W, LS : LegacySSH W, LF : LocalFiles W}.
Context `{NC : Client W Node, KC : Client W KSecret}.
Context {RestConfig : Type}.
(** The environment; [kubernetes.NewForConfig] and the GET of [/version]; [text/template] and
    [yaml.v3]; [filepath.Abs], the file the code was compiled from, the process and its clock. *)
Context (env : Vars) (SSHPassphrase : string).
Context (NewForConfig : RestConfig -> option error) (ServerVersion : RestConfig -> M W (option error)).
Context (newClientset : M W (option error)).
Context (parseTemplate : string -> option error) (execTemplate : string -> bootstrapParams -> string * option error).
Context (unmarshalInit : string -> result (string * string)).
Context (marshal_cfg : dhctlSSHConfigManifest -> result string) (marshal_host : dhctlSSHHostManifest -> result string).
Context (thisFile : option string) (Abs : string -> result string) (pid : Z) (timestamp : M W string).
Context (sched : list nat) (fuel : nat).

Definition with_output (pre : string) (e : error) (output : string) : error :=
  ErrorfW pre e (nl +:+ "Output: " +:+ output).

Definition GetOSInfo (c : Z) : M W (result OSInfo) :=
  let! '(output, err) := Exec c "cat /etc/os-release" in
  match err with
  | Some e => mret (Err (ErrorfW "failed to read /etc/os-release: " e ""))
  | None =>
      let '(mkOSInfo id like version pretty_ _) := os_release output in
      if String.eqb id "" then mret (Err (Errorf "failed to detect OS ID from /etc/os-release"))
      else
        let! '(kernelOutput, err) := Exec c "uname -r" in
        mret match err with
             | Some e => Err (ErrorfW "failed to detect kernel version: " e "")
             | None => Ok (mkOSInfo id like version pretty_ (TrimSpace kernelOutput))
             end
  end.

Definition WaitForSSHReady (c : Z) (targetIP : string) : M W (option (option error)) :=
  poll_loop
    (fun _ : unit =>
       let! '(output, err) := Exec c ("nc -z -w 5 " +:+ targetIP +:+ " 22 && echo SSH_READY") in
       mret (tt, if is_nil err && Contains output "SSH_READY" then Some None else None))
    (fun _ _ => Some (Errorf ("timeout waiting for SSH to be ready on " +:+ targetIP)))
    fuel (10 * Second) tt.

Definition WaitForDockerReady (c : Z) : M W (option error) :=
  let! '(output, err) := Exec c waitCmd in
  match err with
  | Some e => mret (Some (with_output "failed to wait for cloud-init/Docker: " e output))
  | None =>
      let! '(output, err) := Exec c "sudo docker ps" in
      mret match err with
           | Some e => Some (with_output "Docker is not working (docker ps failed): " e output)
           | None => None
           end
  end.

(** Writing the file stops where the template fails; a failed write is the template's error. *)
Definition PrepareBootstrapConfig (def : option ClusterDefinition) : M W (result string) :=
  match def with
  | None => mret (Err (Errorf "clusterDef cannot be nil"))
  | Some def =>
      match template_data (RegistryDockerCfg env) def, thisFile with
      | Err e, _ => mret (Err e)
      | Ok _, None => mret (Err (Errorf "failed to determine source file path"))
      | Ok templateData, Some file =>
          match Abs (path_Join [path_Dir file; ".."; ".."]) with
          | Err e => mret (Err (ErrorfW "failed to resolve repo root path: " e ""))
          | Ok repoRoot =>
              let templatePath := path_Join [repoRoot; "files"; "bootstrap"; "config.yml.tpl"] in
              let! content := readFile templatePath in
              match content with
              | Err e => mret (Err (ErrorfW ("failed to read template file " +:+ templatePath +:+ ": ") e ""))
              | Ok content =>
                  match parseTemplate content with
                  | Some e => mret (Err (ErrorfW "failed to parse template: " e ""))
                  | None =>
                      let! err := mkdirAll E2ETempDir in
                      match err with
                      | Some e => mret (Err (ErrorfW ("failed to create directory " +:+ E2ETempDir +:+ ": ") e ""))
                      | None =>
                          let outputPath := path_Join [E2ETempDir; "config.yml"] in
                          let! err := createFile outputPath in
                          match err with
                          | Some e => mret (Err (ErrorfW ("failed to create output file " +:+ outputPath +:+ ": ") e ""))
                          | None =>
                              let '(text, failed) := execTemplate content templateData in
                              let! err := writeTo outputPath text in
                              let! _ := closeFile outputPath in
                              mret match err, failed with
                                   | Some e, _ | None, Some e => Err (ErrorfW "failed to execute template: " e "")
                                   | None, None => Ok outputPath
                                   end
                          end
                      end
                  end
              end
          end
      end
  end.

Definition UploadBootstrapFiles (c : option Z) (privateKeyPath configPath : string) : M W (option error) :=
  match c with
  | None => mret (Some (Errorf "sshClient cannot be nil"))
  | Some c =>
      if String.eqb privateKeyPath "" then mret (Some (Errorf "privateKeyPath cannot be empty"))
      else if String.eqb configPath "" then mret (Some (Errorf "configPath cannot be empty"))
      else
        let remoteKeyPath := "/home/cloud/.ssh/id_rsa" in
        let! err := Upload c privateKeyPath remoteKeyPath in
        match err with
        | Some e => mret (Some (ErrorfW ("failed to upload private key to " +:+ remoteKeyPath +:+ ": ") e ""))
        | None =>
            let! '(output, err) := Exec c "chmod 600 /home/cloud/.ssh/id_rsa" in
            match err with
            | Some e => mret (Some (with_output "failed to set permissions for private key: " e output))
            | None =>
                let remoteConfigPath := "/home/cloud/config.yml" in
                let! err := Upload c configPath remoteConfigPath in
                mret match err with
                     | Some e => Some (ErrorfW ("failed to upload config.yml to " +:+ remoteConfigPath +:+ ": ") e "")
                     | None => None
                     end
            end
        end
  end.

(** The first document that is an InitConfiguration with a branch; [unmarshalInit] yields the
    kind and the branch. *)
Fixpoint first_branch (documents : list string) : option string :=
  match documents with
  | [] => None
  | doc :: documents =>
      let doc := TrimSpace doc in
      if String.eqb doc "" then first_branch documents
      else match unmarshalInit doc with
           | Err _ => first_branch documents
           | Ok (kind, devBranch) =>
               if String.eqb kind "InitConfiguration" && negb (String.eqb devBranch "") then Some devBranch
               else first_branch documents
           end
  end.

Definition getDevBranchFromConfig (configPath : string) : M W (result string) :=
  if String.eqb configPath "" then mret (Err (Errorf "configPath cannot be empty"))
  else
    let! data := readFile configPath in
    mret match data with
         | Err e => Err (ErrorfW ("failed to read config file " +:+ configPath +:+ ": ") e "")
         | Ok data =>
             match first_branch (Split data "---") with
             | Some branch => Ok branch
             | None => Err (Errorf ("devBranch not found in config file " +:+ configPath))
             end
         end.

Definition buildDHCTLSSHConnectionConfig (pemKey sshUser masterHost passphrase : string) : result string :=
  let cfg := mkSSHConfig "dhctl.deckhouse.io/v1" "SSHConfig" sshUser 22
    [mkAgentKey (TrimSpace pemKey +:+ nl) passphrase] in
  let hostDoc := mkSSHHost "dhctl.deckhouse.io/v1" "SSHHost" masterHost in
  match marshal_cfg cfg with
  | Err e => Err (ErrorfW "marshal SSHConfig: " e "")
  | Ok cfgBytes =>
      match marshal_host hostDoc with
      | Err e => Err (ErrorfW "marshal SSHHost: " e "")
      | Ok hostBytes =>
          Ok ("---" +:+ nl +:+ TrimSuffix cfgBytes nl +:+ nl +:+ "---" +:+ nl +:+ TrimSuffix hostBytes nl +:+ nl)
      end
  end.

(** ** Running dhctl *)

Definition remote_key : string := path_Join ["/home"; VMSSHUser env; ".ssh"; "id_rsa"].
Definition container_key := "/root/.ssh/id_rsa".

(** [removeRemoteConnYAML], under a context of its own; the file is removed once. *)
Definition remove_conn (c : Z) (path : string) : M W unit :=
  if String.eqb path "" then mret tt
  else let! _ := Exec c ("sudo rm -f " +:+ path) in mret tt.

Definition volume_flags (remoteConn : string) : string :=
  let v mount := "-v " +:+ dq +:+ mount +:+ dq in
  v ("/home/" +:+ VMSSHUser env +:+ "/config.yml:/config.yml") +:+ " " +:+
  if String.eqb remoteConn "" then v (remote_key +:+ ":" +:+ container_key +:+ ":ro")
  else v (remoteConn +:+ ":/dhctl-connection.yaml:ro").

Definition ssh_args (remoteConn masterIP : string) : string :=
  if String.eqb remoteConn ""
  then "--ssh-host=" +:+ masterIP +:+ " --ssh-user=" +:+ VMSSHUser env +:+ " --ssh-agent-private-keys=" +:+
       container_key +:+ " --config=/config.yml"
  else "--connection-config=/dhctl-connection.yaml --config=/config.yml".

Definition bootstrap_cmd (installImage remoteConn masterIP remoteLogPath : string) : string :=
  "sudo -u " +:+ VMSSHUser env +:+ " bash -c 'sudo docker run --network=host --pull=always " +:+
  volume_flags remoteConn +:+ " " +:+ installImage +:+ " dhctl bootstrap " +:+ ssh_args remoteConn masterIP +:+
  " > " +:+ remoteLogPath +:+ " 2>&1'".

Definition remote_log : string := "/tmp/bootstrap-" +:+ pretty pid +:+ ".log".

(** From the run of dhctl on: it is run, the connection file removed, the log fetched and kept. *)
Definition run_dhctl (c : Z) (installImage remoteConn masterIP logFilePath : string) : M W (option error) :=
  let! '(output, err) := Exec c (bootstrap_cmd installImage remoteConn masterIP remote_log) in
  let! _ := remove_conn c remoteConn in
  let! '(logContent, logErr) := Exec c ("sudo cat " +:+ remote_log +:+ " 2>/dev/null || echo ''") in
  let! _ := if is_nil logErr && negb (String.eqb logContent "") then
              let! mkdirErr := mkdirAll E2ETempDir in
              if is_nil mkdirErr then
                let! err := createFile logFilePath in
                if is_nil err then let! _ := writeTo logFilePath logContent in mret tt else mret tt
              else mret tt
            else mret tt in
  let! _ := Exec c ("sudo rm -f " +:+ remote_log) in
  mret match err with
       | None => None
       | Some e =>
           let baseErr := ErrorfW "failed to bootstrap cluster: " e "" in
           Some (if negb (String.eqb logContent "")
                 then ErrorfW "" baseErr (nl +:+ nl +:+ "Bootstrap log saved to: " +:+ logFilePath +:+ nl +:+ nl +:+
                        "Bootstrap log content:" +:+ nl +:+ logContent)
                 else if negb (String.eqb output "") then ErrorfW "" baseErr (nl +:+ nl +:+ "Output: " +:+ output)
                 else baseErr)
       end.

(** [removeRemoteConnYAML(); return fmt.Errorf(pre, e)]. *)
Definition abandon (c : Z) (path : string) (e : error) : M W (option error) :=
  let! _ := remove_conn c path in mret (Some e).

(** The connection file with the passphrase: written to a local file, uploaded, and used by
    [k]; the local file is removed when the function returns. *)
Definition write_connection (c : Z) (path local connYAML : string) (k : M W (option error)) : M W (option error) :=
  let! err := chmod local 384 in
  match err with
  | Some e => let! _ := closeFile local in abandon c path (ErrorfW "chmod temp connection-config: " e "")
  | None =>
      let! err := writeTo local connYAML in
      match err with
      | Some e => let! _ := closeFile local in abandon c path (ErrorfW "write temp connection-config: " e "")
      | None =>
          let! err := closeFile local in
          match err with
          | Some e => abandon c path (ErrorfW "close temp connection-config: " e "")
          | None =>
              let! err := UploadPrivate c local path 384 in
              match err with
              | Some e => abandon c path (ErrorfW "upload dhctl connection-config to setup node: " e "")
              | None => k
              end
          end
      end
  end.

Definition with_connection (c : Z) (masterIP : string) (k : string -> M W (option error)) : M W (option error) :=
  let user := VMSSHUser env in
  let fail e := mret (Some e) in
  let stageDir := path_Join ["/home"; user; ".config"; "storage-e2e"] in
  let! '(_, err) := Exec c ("sudo install -d -m 0700 -o " +:+ user +:+ " -g " +:+ user +:+ " -- " +:+ quote stageDir) in
  match err with
  | Some e => fail (ErrorfW "prepare setup-node dir for dhctl connection-config: " e "")
  | None =>
      let tmpPattern := path_Join [stageDir; "dhctl-bootstrap-connection.XXXXXX.yaml"] in
      let! '(mktempOut, err) := Exec c ("sudo -u " +:+ user +:+ " mktemp " +:+ quote tmpPattern) in
      match err with
      | Some e => fail (ErrorfW "create temp path for dhctl connection-config on setup node: " e "")
      | None =>
          let path := mktemp_path mktempOut in
          if String.eqb path "" then fail (Errorf "mktemp returned empty path for dhctl connection-config")
          else
            let! '(_, err) := Exec c ("sudo -u " +:+ user +:+ " test -r " +:+ remote_key) in
            match err with
            | Some e => abandon c path (ErrorfW ("SSH private key not readable at " +:+ remote_key +:+ " on setup node: ") e "")
            | None =>
                let! '(pemOut, err) := Exec c ("sudo -u " +:+ user +:+ " cat " +:+ remote_key) in
                match err with
                | Some e => abandon c path (ErrorfW "read bootstrap SSH private key from setup node for connection-config: " e "")
                | None =>
                    if String.eqb (TrimSpace pemOut) ""
                    then abandon c path (Errorf ("empty SSH private key at " +:+ remote_key +:+ " on setup node"))
                    else
                      match buildDHCTLSSHConnectionConfig pemOut user masterIP SSHPassphrase with
                      | Err e => abandon c path (ErrorfW "build dhctl connection-config: " e "")
                      | Ok connYAML =>
                          let! local := createTemp "dhctl-bootstrap-connection-*.yaml" in
                          match local with
                          | Err e => abandon c path (ErrorfW "create temp connection-config: " e "")
                          | Ok local =>
                              let! r := write_connection c path local connYAML (k path) in
                              let! _ := removeFile local in
                              mret r
                          end
                      end
                end
            end
      end
  end.

(** What is refused before anything is run: the address of the first master, or the error. *)
Definition bootstrap_args (c : option Z) (def : option ClusterDefinition) (configPath : string)
    : result (Z * string * string * string) :=
  match c with
  | None => Err (Errorf "sshClient cannot be nil")
  | Some c =>
      match def with
      | None => Err (Errorf "clusterDef cannot be nil")
      | Some def =>
          match Masters def with
          | [] => Err (Errorf "cluster definition must have at least one master")
          | firstMaster :: _ =>
              if String.eqb (IPAddress firstMaster) ""
              then Err (Errorf "first master IP address is not set (must be filled via GatherVMInfo)")
              else if String.eqb configPath "" then Err (Errorf "configPath cannot be empty")
              else if String.eqb (VMSSHUser env) "" then Err (Errorf "VMSSHUser cannot be empty in config")
              else if String.eqb (DKPLicenseKey env) "" then Err (Errorf "DKPLicenseKey cannot be empty in config")
              else
                let registryRepo := RegistryRepo (DKP def) in
                if String.eqb registryRepo "" then Err (Errorf "registryRepo cannot be empty in cluster definition")
                else
                  let registryHostname := cut_before "/" registryRepo in
                  if String.eqb registryHostname ""
                  then Err (Errorf ("failed to extract hostname from registry repo: " +:+ registryRepo))
                  else Ok (c, IPAddress firstMaster, registryRepo, registryHostname)
          end
      end
  end.

Definition login_cmd (registryHostname : string) : string :=
  "echo " +:+ dq +:+ DKPLicenseKey env +:+ dq +:+ " | sudo docker login -u license-token --password-stdin " +:+
  registryHostname.

Definition BootstrapCluster (c : option Z) (def : option ClusterDefinition) (configPath : string) : M W (option error) :=
  match bootstrap_args c def configPath with
  | Err e => mret (Some e)
  | Ok (c, masterIP, registryRepo, registryHostname) =>
      let! devBranch := getDevBranchFromConfig configPath in
      match devBranch with
      | Err e => mret (Some (ErrorfW "failed to get devBranch from config: " e ""))
      | Ok devBranch =>
          let! '(output, err) := Exec c (login_cmd registryHostname) in
          match err with
          | Some e => mret (Some (with_output ("failed to login to Docker registry " +:+ registryHostname +:+ ": ") e output))
          | None =>
              let! t := timestamp in
              let logFilePath := log_path t in
              let installImage := registryRepo +:+ "/install:" +:+ devBranch in
              if String.eqb SSHPassphrase "" then run_dhctl c installImage "" masterIP logFilePath
              else with_connection c masterIP (fun path => run_dhctl c installImage path masterIP logFilePath)
          end
      end
  end.

(** ** Joining the nodes: one goroutine for each *)

Record join := mkJoin { jn_node : ClusterNode; jn_script : string; jn_master : bool }.

(** The local variables of [addNodeToCluster]: the client, the last error, and what is returned. *)
Record adding := mkAdding { ad_client : option Z; ad_last : option error; ad_result : option (option error) }.

Definition not_added : adding := mkAdding None None None.
Definition returning (r : option error) (s : adding) : adding := mkAdding (ad_client s) (ad_last s) (Some r).

(** A call of the function while it has not returned. *)
Definition while_adding (k : adding -> M W adding) : call W adding := fun s =>
  match ad_result s with
  | Some _ => mret (Returns (Ok s))
  | None => let! s := k s in mret (Returns (Ok s))
  end.

Definition dial_node (def : ClusterDefinition) (jump : login) (j : join) : call W adding := while_adding (fun s =>
  let hostname := Hostname (jn_node j) in
  match GetNodeIPAddress def hostname with
  | Err e => mret (returning (Some (ErrorfW ("failed to get IP address for node " +:+ hostname +:+ ": ") e "")) s)
  | Ok nodeIP =>
      let! c := NewClientWithJumpHost jump (mkLogin (VMSSHUser env) nodeIP (login_key jump)) in
      mret match c with
           | Err e => returning (Some (ErrorfW ("failed to create SSH client to node " +:+ hostname +:+ " (" +:+ nodeIP +:+
                                                "): ") e "")) s
           | Ok c => mkAdding (Some c) (ad_last s) None
           end
  end).

Definition node_script_cmd (script : string) : string :=
  "sudo bash << 'BOOTSTRAP_EOF'" +:+ nl +:+ script +:+ nl +:+ "BOOTSTRAP_EOF".

Definition isRetryable (output : string) : bool :=
  existsb (Contains output) ["HTTP Error 401"; "Unauthorized"; "Connection refused"; "proxy endpoints failed"].

Definition run_script (j : join) (attempt : nat) : call W adding := while_adding (fun s =>
  let! '(output, err) := Exec (default 0 (ad_client s)) (node_script_cmd (jn_script j)) in
  mret match err with
       | None => returning None s
       | Some e =>
           let s := mkAdding (ad_client s) (Some e) None in
           if negb (isRetryable output) || (Z.of_nat attempt =? SSHRetryCount)
           then returning (Some (with_output ("failed to run bootstrap script on node " +:+ Hostname (jn_node j) +:+
                                              " after " +:+ pretty (Z.of_nat attempt) +:+ " attempts: ") e output)) s
           else s
       end).

Definition backoff (attempt : nat) : Z :=
  Z.min (SSHRetryInitialDelay * 2 ^ (Z.of_nat attempt - 1)) SSHRetryMaxDelay.

Definition back_off (j : join) (attempt : nat) : call W adding := while_adding (fun s =>
  let! fired := timerFires (backoff attempt) in
  if fired : bool then mret s
  else let! ce := ctxErr in
       mret (returning (Some (ErrorfWn ("context cancelled while retrying bootstrap script on node " +:+
                                        Hostname (jn_node j) +:+ ": ") ce "")) s)).

(** The deferred [Close], and the return. *)
Definition close_node (j : join) : call W adding := fun s =>
  let! _ := match ad_client s with Some c => let! _ := ssh_Close c in mret tt | None => mret tt end in
  mret (Returns match ad_result s with
    | Some None => Ok s
    | Some (Some e) => Err e
    | None => Err (ErrorfWn ("failed to run bootstrap script on node " +:+ Hostname (jn_node j) +:+ " after " +:+
                             pretty SSHRetryCount +:+ " attempts: ") (ad_last s) "")
    end).

Definition attempts (j : join) : list (call W adding) :=
  concat (map (fun attempt => [run_script j attempt; back_off j attempt]) (seq 1 (Z.to_nat SSHRetryCount))).

Definition addNodeToCluster (def : ClusterDefinition) (jump : login) (j : join) : list (call W adding) :=
  failing ("failed to add " +:+ (if jn_master j then "master" else "worker") +:+ " node " +:+ Hostname (jn_node j) +:+ ": ")
    (dial_node def jump j :: attempts j ++ [close_node j]).

Definition joins (masterScript workerScript : string) (def : ClusterDefinition) : list join :=
  map (fun n => mkJoin n masterScript true) (tl (Masters def)) ++
  map (fun n => mkJoin n workerScript false) (Workers def).

(** The channel of the errors has room for [totalNodes] of them: without a first master, one
    less than there are goroutines, and [make] panics on a negative size. [None]: the function
    does not return, since a goroutine blocks on its error. *)
Definition AddNodesToCluster (kubeconfig : option RestConfig) (def : option ClusterDefinition) (jump : login)
    : M W (option (ending (option error))) :=
  let ret e := mret (Some (Returns e)) in
  match kubeconfig, def with
  | None, _ => ret (Some (Errorf "kubeconfig cannot be nil"))
  | Some _, None => ret (Some (Errorf "clusterDef cannot be nil"))
  | Some _, Some def =>
      let! workerScript := GetSecretDataValue newClientset "d8-cloud-instance-manager" "manual-bootstrap-for-worker" "bootstrap.sh" in
      match workerScript with
      | Err e => ret (Some (ErrorfW "failed to get worker bootstrap script: " e ""))
      | Ok workerScript =>
          let! masterScript := GetSecretDataValue newClientset "d8-cloud-instance-manager" "manual-bootstrap-for-master" "bootstrap.sh" in
          match masterScript with
          | Err e => ret (Some (ErrorfW "failed to get master bootstrap script: " e ""))
          | Ok masterScript =>
              let totalNodes := Z.of_nat (length (Masters def)) - 1 + Z.of_nat (length (Workers def)) in
              if totalNodes =? 0 then ret None
              else if totalNodes <? 0 then mret (Some Panics)
              else
                let! r := go_all sched (fun _ => not_added) (addNodeToCluster def jump) (joins masterScript workerScript def) in
                mret match r with
                     | None => None
                     | Some Panics => Some Panics
                     | Some (Returns res) =>
                         let errs := omap (fun p => match p.2 with Err e => Some e | Ok _ => None end) res in
                         if totalNodes <? Z.of_nat (length errs) then None
                         else Some (Returns (first_sent res))
                     end
          end
      end
  end.

(** ** Waiting for the nodes: one goroutine for each *)

Definition ready_now (node : Node) : bool :=
  existsb (fun c => String.eqb (Type_ c) "Ready" && String.eqb (Status_ c) "True") (nodeConditions node).

(** One tick of the wait; the local variable says whether the node was seen ready. *)
Definition node_round (name : string) : call W bool := fun ready =>
  if ready : bool then mret (Returns (Ok true))
  else
    let! fired := timerFires (5 * Second) in
    if fired : bool then
      let! node := clientGet (O := Node) name in
      mret (Returns (Ok match node with Err _ => false | Ok node => ready_now node end))
    else mret (Returns (Err (Errorf ("timeout waiting for node " +:+ name +:+ " to become Ready")))).

(** [None] only when the fuel of a wait runs out. *)
Definition WaitForAllNodesReady (kubeconfig : option RestConfig) (def : option ClusterDefinition) (timeout : Z)
    : M W (option (option error)) :=
  let ret e := mret (Some e) in
  match kubeconfig, def with
  | None, _ => ret (Some (Errorf "kubeconfig cannot be nil"))
  | Some _, None => ret (Some (Errorf "clusterDef cannot be nil"))
  | Some kubeconfig, Some def =>
      let! err := NewClientsetWithRetry NewForConfig ServerVersion kubeconfig in
      match err with
      | Some e => ret (Some (ErrorfW "failed to create kubernetes clientset: " e ""))
      | None =>
          match map Hostname (Masters def) ++ map Hostname (Workers def) with
          | [] => ret (Some (Errorf "no nodes expected in cluster definition"))
          | expectedNodeNames =>
              let! r := withTimeout timeout
                (go_all sched (fun _ => false) (fun name => replicate fuel (node_round name)) expectedNodeNames) in
              mret match r with
                   | Some (Returns res) =>
                       if existsb (fun p => match p.2 with Ok ready => negb ready | Err _ => false end) res then None
                       else Some (first_sent res)
                   | _ => None
                   end
          end
      end
  end.
End Setup.
