(* ===== verification/LegacySetupSafety.v ===== *)
(** What the installation of a legacy cluster does on the setup node and on the nodes it joins. *)
From S2P Require Import SshDial DvpConfig Deckhouse.
From S2P Require Import Prelude Errors Retry Env Kube Pool Config Install Virt Bootstrap Dhctl.
From S2P Require Import KitExec LegacyVms KitApply LegacyRemote LegacySetup.

Local Open Scope Z_scope.
Local Open Scope go_scope.

(** ** The network of the machines *)

(** The same value, or an error on both sides. *)
Definition agree {A} (r r' : result A) : Prop :=
  match r, r' with Ok a, Ok a' => a = a' | Err _, Err _ => True | _, _ => False end.

Lemma find_cidr_agree prefixes base parsed :
  prefixes ⊆ cidr_prefixes -> is_addr base -> agree (find_cidr prefixes base parsed) (find_prefix prefixes base parsed).
Proof.
  intros Hs Hb. induction prefixes as [|p prefixes IH]; [done|]. cbn [find_cidr find_prefix].
  assert (Hp : p ∈ cidr_prefixes) by set_solver.
  pose proof (proj1 (elem_of_cidr_prefixes p) Hp) as Hr.
  assert (Hn : is_addr (Mask base (CIDRMask p))).
  { rewrite Mask_bits //; [lia|]. apply network_of_addr; [lia|done]. }
  rewrite ParseCIDR_fmt //. destruct (forallb _ parsed); [|apply IH; set_solver]. cbn.
  unfold Mask. by rewrite -Z.land_assoc Z.land_diag.
Qed.

Lemma parse_all_addrs ips l : parse_all ips = Ok l -> Forall is_addr l.
Proof.
  revert l. induction ips as [|s ips IH]; intros l; cbn [parse_all]; [by intros [= <-]|].
  destruct (ParseIP s) as [[a|g]|] eqn:E; [|done..]. destruct (parse_all ips) as [l'|e]; [|done].
  intros [= <-]. constructor; [by eapply ParseIP_range|by apply IH].
Qed.

(** The legacy code and the DVP provider compute the same network. *)
Lemma calculateNetworkCIDR_agree ips : agree (LegacySetup.calculateNetworkCIDR ips) (Bootstrap.calculateNetworkCIDR ips).
Proof.
  destruct ips as [|s ips]; [done|]. unfold LegacySetup.calculateNetworkCIDR, Bootstrap.calculateNetworkCIDR.
  destruct (parse_all (s :: ips)) as [l|e] eqn:E; [|done]. apply find_cidr_agree; [done|].
  apply clear_last_byte_addr. destruct l as [|a l]; [done|]. by apply parse_all_addrs, Forall_cons in E as [Ha _].
Qed.

(** The values of the template are those of the DVP provider, which only asks for more. *)
Theorem template_data_equiv cfg def p :
  buildBootstrapParams (Some def) cfg = Ok p -> template_data cfg def = Ok p.
Proof.
  unfold buildBootstrapParams, template_data. destruct (first_missing _); [done|].
  destruct (Nat.eqb _ 0); [done|]. destruct (String.eqb _ ""); [done|].
  pose proof (calculateNetworkCIDR_agree (cluster_vm_ips def)) as Ha.
  destruct (Bootstrap.calculateNetworkCIDR _) as [cidr|e]; [|done].
  destruct (LegacySetup.calculateNetworkCIDR _) as [cidr'|e]; [|done]. cbn in Ha. by subst cidr'.
Qed.

(** ** The connection file with the passphrase *)

(** A command that removes a file of a host. *)
Definition removal (host path : string) (e : ssh_event) : Prop := exists out err, e = Ran host ("sudo rm -f " +:+ path) out err.
Definition is_put (e : ssh_event) : Prop := match e with Put _ _ _ _ => True | Ran _ _ _ _ => False end.
Definition no_put : list ssh_event -> Prop := Forall (fun e => ~ is_put e).

Lemma no_put_nil : no_put [].
Proof. constructor. Qed.
Lemma no_put_ran h cmd out err new : no_put new -> no_put (Ran h cmd out err :: new).
Proof. intros Hn. constructor; [by intros []|done]. Qed.

(** Whatever is uploaded is private to its user and removed later on. *)
Definition clean (new : list ssh_event) : Prop :=
  forall l1 h p perm err l2, new = l1 ++ Put h p perm err :: l2 -> perm = Some 384 /\ Exists (removal h p) l2.

Lemma clean_nil : clean [].
Proof. by intros [] h p perm err l2. Qed.

Lemma clean_ran h cmd out err new : clean new -> clean (Ran h cmd out err :: new).
Proof. intros Hc [|e l1] h' p perm err' l2 H; [done|]. injection H as <- H. by eapply Hc. Qed.

Lemma no_put_clean new : no_put new -> clean new.
Proof.
  intros Hn l1 h p perm err l2 ->. apply Forall_app in Hn as [_ Hn]. by apply Forall_cons in Hn as [[] _].
Qed.

Lemma clean_put h p err new : no_put new -> Exists (removal h p) new -> clean (Put h p (Some 384) err :: new).
Proof.
  intros Hn He [|e l1] h' p' perm err' l2 H; [by injection H as <- <- <- <- <-|]. injection H as <- ->.
  by apply (no_put_clean _ Hn l1 h' p' perm err' l2).
Qed.

Section Bootstrapping.
Context {W : Type} `{LS : LegacySSH W, LL : !LegacySSHLaws W, LF : LocalFiles W, FL : !LocalFilesLaws W, AP : !Apart W}.
Context (env : Vars) (SSHPassphrase : string) (unmarshalInit : string -> result (string * string)).
Context (marshal_cfg : dhctlSSHConfigManifest -> result string) (marshal_host : dhctlSSHHostManifest -> result string).
Context (pid : Z) (timestamp : M W string).
Hypothesis timestamp_local : local timestamp.
Hypothesis timestamp_files : forall w, files (timestamp w).2 = files w.

(** What comes after the upload: nothing is uploaded, the file is removed, and success rests on
    an event with [Done]. *)
Definition wound_up (host path : string) (Done : ssh_event -> Prop) (r : option error) (new : list ssh_event) : Prop :=
  no_put new /\ (path <> "" -> Exists (removal host path) new) /\ (r = None -> Exists Done new).

Section OnClient.
Context (O : gmap Z string) (c : Z).
Local Notation host := (default "" (O !! c)).

Lemma remove_conn_traces path :
  traces O (remove_conn c path) (fun _ new => no_put new /\ (path <> "" -> Exists (removal host path) new)).
Proof.
  unfold remove_conn. destruct (String.eqb_spec path "") as [->|Hp].
  - apply traces_ret. split; [apply no_put_nil|done].
  - apply traces_exec_do. intros [out err]. apply traces_ret. split; [apply no_put_ran, no_put_nil|]. intros _. constructor. by exists out, err.
Qed.

Lemma abandon_traces path e Done : traces O (abandon c path e) (wound_up host path Done).
Proof.
  eapply traces_bind; [apply remove_conn_traces|]. intros u n [Hn Hr]. apply traces_ret. rewrite app_nil_r. by split.
Qed.

Definition dhctl_done (image path masterIP : string) (e : ssh_event) : Prop :=
  exists out, e = Ran host (bootstrap_cmd env image path masterIP (remote_log pid)) out None.

Lemma run_dhctl_traces image path masterIP log :
  traces O (run_dhctl env pid c image path masterIP log) (wound_up host path (dhctl_done image path masterIP)).
Proof.
  apply traces_exec_then. intros out err. eapply traces_bind; [apply remove_conn_traces|]. intros u n [Hn Hr].
  apply traces_exec_then. intros content logErr. apply traces_local_then.
  { destruct (_ && _); [|apply ret_local]. apply bind_local; [apply mkdir_local|]. intros mk.
    destruct (is_nil mk); [|apply ret_local]. apply bind_local; [apply create_local|]. intros e.
    destruct (is_nil e); [|apply ret_local]. apply bind_local; [apply write_local|intros; apply ret_local]. }
  intros _. apply traces_exec_do. intros [o2 e2]. apply traces_ret. split; [|split].
  - apply no_put_ran, Forall_app. split; [done|]. apply no_put_ran, no_put_ran, no_put_nil.
  - intros Hp. apply Exists_cons_tl, Exists_app. left. by apply Hr.
  - intros H. destruct err; [done|]. constructor. by exists out.
Qed.

(** From the upload on, and before it. *)
Lemma write_connection_traces path local yaml k Done :
  path <> "" -> traces O k (wound_up host path Done) ->
  traces O (write_connection c path local yaml k) (fun r new => clean new /\ (r = None -> Exists Done new)).
Proof.
  intros Hp Hk. assert (Hab : forall e, traces O (abandon c path e) (fun r new => clean new /\ (r = None -> Exists Done new))).
  { intros e. eapply traces_conseq; [apply (abandon_traces path e Done)|]. intros r n (Hn & _ & Hd). split; [by apply no_put_clean|done]. }
  unfold write_connection. apply traces_local_then; [apply chmod_local|]. intros [e|].
  { apply traces_local_then; [apply close_local|]. intros _. apply Hab. }
  apply traces_local_then; [apply write_local|]. intros [e|].
  { apply traces_local_then; [apply close_local|]. intros _. apply Hab. }
  apply traces_local_then; [apply close_local|]. intros [e|]; [apply Hab|].
  eapply traces_bind; [apply (traces_private _ _ _ _ _ (fun err new => new = [Put host path (Some 384) err])); done|].
  intros err n ->. eapply (traces_conseq _ _ (wound_up host path Done)).
  - destruct err as [e|]; [apply abandon_traces|done].
  - intros r n (Hn & Hr & Hd). cbn [app]. split; [apply clean_put; [done|by apply Hr]|]. intros H. by apply Exists_cons_tl, Hd.
Qed.

Lemma with_connection_traces masterIP k Done :
  (forall path, path <> "" -> traces O (k path) (wound_up host path Done)) ->
  traces O (with_connection env SSHPassphrase marshal_cfg marshal_host c masterIP k)
    (fun r new => clean new /\ (r = None -> Exists Done new)).
Proof.
  intros Hk. unfold with_connection. apply traces_exec_then. intros o1 [e|].
  { apply traces_ret. split; [apply clean_ran, clean_nil|done]. }
  apply traces_exec_then. intros o2 [e|]; [apply traces_ret; split; [apply clean_ran, clean_ran, clean_nil|done]|].
  destruct (String.eqb_spec (mktemp_path o2) "") as [|Hp]; [apply traces_ret; split; [apply clean_ran, clean_ran, clean_nil|done]|].
  set (path := mktemp_path o2) in *.
  set (Q := fun (r : option error) (new : list ssh_event) => clean new /\ (r = None -> Exists Done new)).
  assert (HQ : forall h cmd out err r new, Q r new -> Q r (Ran h cmd out err :: new)).
  { intros h cmd out err r new [Hc Hd]. split; [by apply clean_ran|]. intros H. by apply Exists_cons_tl, Hd. }
  assert (Hab : forall e, traces O (abandon c path e) Q).
  { intros e. eapply traces_conseq; [apply (abandon_traces path e Done)|]. intros r n (Hn & _ & Hd). split; [by apply no_put_clean|done]. }
  eapply traces_conseq; [|intros r n Hx; apply HQ, HQ, Hx].
  apply traces_exec_then. intros o3 err3. eapply traces_conseq; [|intros r n Hx; apply HQ, Hx].
  destruct err3 as [e|]; [apply Hab|].
  apply traces_exec_then. intros o4 err4. eapply traces_conseq; [|intros r n Hx; apply HQ, Hx].
  destruct err4 as [e|]; [apply Hab|]. destruct (String.eqb _ ""); [apply Hab|].
  destruct (LegacySetup.buildDHCTLSSHConnectionConfig _ _ _ _ _ _) as [yaml|e]; [|apply Hab].
  apply traces_local_then; [apply temp_local|]. intros [file|e]; [|apply Hab].
  eapply traces_bind; [by apply write_connection_traces, Hk|]. intros r n [Hc Hd].
  apply traces_local_then; [apply remove_local|]. intros _. apply traces_ret. by rewrite app_nil_r.
Qed.
End OnClient.

(** Which local files change. *)
Lemma run_dhctl_touches c image path masterIP log L :
  log ∈ L -> touches L (run_dhctl env pid c image path masterIP log).
Proof.
  intros Hl. assert (He : forall cmd, touches L (Exec c cmd)) by (intros; apply touches_none, exec_files).
  assert (Hw : forall f s, f ∈ L -> touches L (writeTo f s)) by (intros f s Hf; apply (touches_one _ f); [done|apply write_own]).
  apply touches_bind; [apply He|]. intros [out err]. apply touches_bind.
  { unfold remove_conn. destruct (String.eqb _ _); [apply touches_ret|]. apply touches_bind; [apply He|intros; apply touches_ret]. }
  intros _. apply touches_bind; [apply He|]. intros [content logErr]. apply touches_bind.
  { destruct (_ && _); [|apply touches_ret]. apply touches_bind; [apply touches_none, mkdir_keeps|]. intros mk.
    destruct (is_nil mk); [|apply touches_ret]. apply touches_bind; [apply (touches_one _ log); [done|apply create_own]|]. intros e.
    destruct (is_nil e); [|apply touches_ret]. apply touches_bind; [by apply Hw|intros; apply touches_ret]. }
  intros _. apply touches_bind; [apply He|]. intros. apply touches_ret.
Qed.

Lemma abandon_touches c path e L : touches L (abandon c path e).
Proof.
  apply touches_bind; [|intros; apply touches_ret]. unfold remove_conn. destruct (String.eqb _ _); [apply touches_ret|].
  apply touches_bind; [apply touches_none, exec_files|intros; apply touches_ret].
Qed.

Lemma write_connection_touches c path local yaml k L :
  local ∈ L -> touches L k -> touches L (write_connection c path local yaml k).
Proof.
  intros Hl Hk. assert (Hc : touches L (closeFile local)) by (apply touches_none, close_keeps).
  unfold write_connection. apply touches_bind; [apply touches_none, chmod_keeps|]. intros [e|].
  { apply touches_bind; [done|]. intros. apply abandon_touches. }
  apply touches_bind; [apply (touches_one _ local); [done|apply write_own]|]. intros [e|].
  { apply touches_bind; [done|]. intros. apply abandon_touches. }
  apply touches_bind; [done|]. intros [e|]; [apply abandon_touches|].
  apply touches_bind; [apply touches_none, private_files|]. intros [e|]; [apply abandon_touches|done].
Qed.

(** The local copy of the connection file is gone when removing files works. *)
Lemma with_connection_touches c masterIP k L :
  (forall f w, (removeFile f w).1 = None) -> (forall path f, touches (f :: L) (k path)) ->
  touches L (with_connection env SSHPassphrase marshal_cfg marshal_host c masterIP k).
Proof.
  intros Hrm Hk. assert (He : forall cmd, touches L (Exec c cmd)) by (intros; apply touches_none, exec_files).
  unfold with_connection. apply touches_bind; [done|]. intros [o1 [e|]]; [apply touches_ret|].
  apply touches_bind; [done|]. intros [o2 [e|]]; [apply touches_ret|]. case_match; [apply touches_ret|].
  apply touches_bind; [done|]. intros [o3 [e|]]; [apply abandon_touches|].
  apply touches_bind; [done|]. intros [o4 [e|]]; [apply abandon_touches|]. case_match; [apply abandon_touches|].
  destruct (LegacySetup.buildDHCTLSSHConnectionConfig _ _ _ _ _ _) as [yaml|e]; [|apply abandon_touches].
  intros w f Hf. unfold mbind, M_bind. destruct (createTemp _ w) as [[file|e] w1] eqn:Ht; last first.
  { rewrite (abandon_touches _ _ _ L w1 f Hf). by rewrite (temp_err _ _ _ _ Ht). }
  apply temp_ok in Ht as [Hnone Hins]. destruct (write_connection _ _ _ _ _ w1) as [r w2] eqn:Hw.
  pose proof (write_connection_touches c (mktemp_path o2) file yaml (k (mktemp_path o2)) (file :: L)
    ltac:(by left) (Hk _ _) w1) as Hx. rewrite Hw in Hx. cbn in Hx.
  destruct (removeFile file w2) as [e w3] eqn:Hr. cbn. pose proof (Hrm file w2) as He3. rewrite Hr in He3. cbn in He3. subst e.
  apply remove_ok in Hr. rewrite Hr. destruct (decide (f = file)) as [->|Hne]; [by rewrite lookup_delete_eq|].
  rewrite lookup_delete_ne // Hx; [by apply not_elem_of_cons|]. by rewrite Hins lookup_insert_ne.
Qed.

Local Notation Bootstrap := (BootstrapCluster env SSHPassphrase unmarshalInit marshal_cfg marshal_host pid timestamp).

(** What success rests on: a login to the registry and a run of dhctl for the first master. *)
Definition installed (O : gmap Z string) (c : Z) (def : option ClusterDefinition) (new : list ssh_event) : Prop :=
  exists d master masters branch path, def = Some d /\ Masters d = master :: masters /\
    Exists (fun e => exists out, e = Ran (default "" (O !! c)) (login_cmd env (cut_before "/" (RegistryRepo (DKP d)))) out None) new /\
    Exists (dhctl_done O c (RegistryRepo (DKP d) +:+ "/install:" +:+ branch) path (IPAddress master)) new.

Lemma bootstrap_args_ok c def configPath c' masterIP repo registry :
  bootstrap_args env (Some c) def configPath = Ok (c', masterIP, repo, registry) ->
  c' = c /\ exists d master masters, def = Some d /\ Masters d = master :: masters /\ masterIP = IPAddress master /\
    repo = RegistryRepo (DKP d) /\ registry = cut_before "/" repo.
Proof.
  unfold bootstrap_args. intros H. repeat (case_match; try done). injection H as <- <- <- <-. split; [done|]. by eexists _, _, _.
Qed.

Lemma BootstrapCluster_traces O c def configPath :
  traces O (Bootstrap (Some c) def configPath) (fun r new =>
    clean new /\ (SSHPassphrase = "" -> no_put new) /\ (r = None -> installed O c def new)).
Proof.
  set (Q := fun (r : option error) (new : list ssh_event) =>
    clean new /\ (SSHPassphrase = "" -> no_put new) /\ (r = None -> installed O c def new)).
  assert (Herr : forall e, Q (Some e) []) by (intros e; split; [apply clean_nil|split; [intros _; apply no_put_nil|done]]).
  unfold BootstrapCluster. destruct (bootstrap_args env (Some c) def configPath) as [[[[c' masterIP] repo] registry]|e] eqn:Ha;
    [|apply traces_ret, Herr].
  apply bootstrap_args_ok in Ha as (-> & d & master & masters & -> & Hm & -> & -> & ->).
  apply traces_local_then.
  { unfold getDevBranchFromConfig. destruct (String.eqb _ _); [apply ret_local|]. apply bind_local; [apply read_local|intros; apply ret_local]. }
  intros [branch|e]; [|apply traces_ret, Herr]. set (image := RegistryRepo (DKP d) +:+ "/install:" +:+ branch).
  apply traces_exec_then. intros out [e|].
  { apply traces_ret. split; [apply clean_ran, clean_nil|]. split; [intros _; apply no_put_ran, no_put_nil|done]. }
  apply traces_local_then; [done|]. intros t.
  assert (Hfin : forall path new, Exists (dhctl_done O c image path (IPAddress master)) new ->
    installed O c (Some d) (Ran (default "" (O !! c)) (login_cmd env (cut_before "/" (RegistryRepo (DKP d)))) out None :: new)).
  { intros path new He. exists d, master, masters, branch, path. split; [done|]. split; [done|]. split; [|by apply Exists_cons_tl].
    constructor. by exists out. }
  destruct (String.eqb_spec SSHPassphrase "") as [Hp|Hp].
  - eapply traces_conseq; [apply (run_dhctl_traces O c image "")|]. intros r n (Hn & _ & Hd).
    split; [apply clean_ran; by apply no_put_clean|]. split; [intros _; by apply no_put_ran|]. intros Hr. by eapply Hfin, Hd.
  - eapply traces_conseq; [apply (with_connection_traces O c (IPAddress master) _
      (fun e => exists path, dhctl_done O c image path (IPAddress master) e))|].
    + intros path Hpath. eapply traces_conseq; [apply run_dhctl_traces|]. intros r n (Hn & Hr & Hd).
      split; [done|]. split; [done|]. intros H. eapply Exists_impl; [by apply Hd|]. eauto.
    + intros r n [Hc Hd]. split; [by apply clean_ran|]. split; [done|]. intros Hr.
      apply Hd, Exists_exists in Hr as (e & He & path & Hdone). apply (Hfin path), Exists_exists. eauto.
Qed.

Lemma BootstrapCluster_touches c def configPath w r w' :
  (forall f v, (removeFile f v).1 = None) -> Bootstrap (Some c) def configPath w = (r, w') ->
  exists t, forall f, f <> log_path t -> files w' !! f = files w !! f.
Proof.
  intros Hrm H. unfold BootstrapCluster in H.
  destruct (bootstrap_args env (Some c) def configPath) as [[[[c' masterIP] repo] registry]|e]; [|injection H as _ <-; by exists ""].
  mstep H as [branch w1] E1. assert (F1 : files w1 = files w).
  { unfold getDevBranchFromConfig in E1. destruct (String.eqb _ _); [by injection E1 as _ <-|].
    mstep E1 as [data v] Er. injection E1 as _ <-. pose proof (read_keeps configPath w) as Hr. by rewrite Er in Hr. }
  destruct branch as [branch|e]; [|injection H as _ <-; exists ""; intros; by rewrite F1].
  mstep H as [[out err] w2] E2. pose proof (exec_files c' (login_cmd env registry) w1) as F2. rewrite E2 in F2. cbn in F2.
  rewrite F1 in F2. destruct err as [e|]; [injection H as _ <-; exists ""; intros; by rewrite F2|].
  mstep H as [t w3] E3. pose proof (timestamp_files w2) as F3. rewrite E3 in F3. cbn in F3. rewrite F2 in F3.
  exists t. intros f Hf. rewrite -F3. assert (Hnin : f ∉ [log_path t]) by (by intros ->%list_elem_of_singleton).
  destruct (String.eqb SSHPassphrase "").
  - pose proof (run_dhctl_touches c' (repo +:+ "/install:" +:+ branch) "" masterIP (log_path t) [log_path t] ltac:(by left) w3 f Hnin) as Hx.
    by rewrite H in Hx.
  - pose proof (with_connection_touches c' masterIP
      (fun path => run_dhctl env pid c' (repo +:+ "/install:" +:+ branch) path masterIP (log_path t)) [log_path t] Hrm
      (fun path g => run_dhctl_touches c' _ path masterIP (log_path t) (g :: [log_path t]) ltac:(by right; left)) w3 f Hnin) as Hx.
    by rewrite H in Hx.
Qed.

End Bootstrapping.

(** ** Runs *)
Definition suite_env : Vars :=
  mkVars "" "tfadm" "" "ssh-ed25519 AAAA" "192.0.2.1" "cloud" "alwaysCreateNew" "" "e2e" "linstor" "generic" "license" "cfg"
    "IfNotExists" "" "" "" "" "" "" "" "" "".

Definition suite_node (name ip : string) (cpu : Z) : ClusterNode :=
  mkNode name ip (mkOSType "" "https://host/jammy.img" "") HostTypeVM None cpu None 8 60 false.

Definition suite_def : ClusterDefinition :=
  mkDef [suite_node "master-1" "10.10.1.5" 4] [suite_node "worker-1" "10.10.1.6" 2; suite_node "worker-2" "10.10.3.7" 2] None
    (mkDKP "1.31" "10.112.0.0/16" "10.225.0.0/16" "cluster.local" "dev-registry.deckhouse.io/sys/deckhouse-oss" "" []).

Lemma template_data_equiv_witness :
  exists p, buildBootstrapParams (Some suite_def) "cfg" = Ok p /\ template_data "cfg" suite_def = Ok p /\
    bp_InternalNetworkCIDR p = "10.10.0.0/22".
Proof.
  eexists. split; [vm_compute; reflexivity|]. split; [|reflexivity].
  apply template_data_equiv. vm_compute. reflexivity.
Defined.

(** A setup node on which the commands succeed but those with [bad] in them. *)
Definition setup_answers (bad : string) (_ : list ssh_event) (_ cmd : string) : string * option error :=
  if negb (String.eqb bad "") && Contains cmd bad then ("", Some (Errorf "exit status 1"))
  else if Contains cmd "mktemp" then ("/home/cloud/.config/storage-e2e/dhctl-bootstrap-connection.a1b2c3.yaml" +:+ nl, None)
  else if Contains cmd " cat /home" then ("-----BEGIN KEY-----", None) else ("", None).

Definition setup_node (bad : string) : fleet :=
  mkFleet {[7 := "10.10.1.9"]} [] {["/tmp/e2e/config.yml" := "kind: InitConfiguration"]} (setup_answers bad) [] 3.

Definition bootstrap_run (passphrase bad : string) : option error * fleet :=
  BootstrapCluster suite_env passphrase (fun _ => Ok ("InitConfiguration", "main")) (fun _ => Ok "cfg") (fun _ => Ok "host") 42
    (mret "2025-01-01_00-00-00") (Some 7) (Some suite_def) "/tmp/e2e/config.yml" (setup_node bad).

Lemma ret_files (s : string) (w : fleet) : files (mret (M := M fleet) s w : string * fleet).2 = files w.
Proof. done. Qed.


(** The file is removed also when the key cannot be read or dhctl fails; then that is the error. *)
Definition ran (cmd : string) (l : list ssh_event) : bool :=
  existsb (fun e => match e with Ran _ cmd' _ _ => String.eqb cmd' cmd | Put _ _ _ _ => false end) l.

Example bootstrap_removes :
  map (fun bad => let '(r, w) := bootstrap_run "secret" bad in
         (is_nil r, ran "sudo rm -f /home/cloud/.config/storage-e2e/dhctl-bootstrap-connection.a1b2c3.yaml" (ssh_log w)))
    ["test -r"; " cat /home"; "docker run"] = [(false, true); (false, true); (false, true)].
Proof. vm_compute. reflexivity. Qed.
