(* ===== verification/LegacyJoin.v ===== *)
(** Joining nodes to a legacy cluster ([AddNodesToCluster] of [src/pkg/cluster/setup.go]): under
    every schedule of its goroutines each connection is closed, and success means that the
    script of its role ran on each node. *)
From S2P Require Import SshDial DvpConfig Deckhouse.
From S2P Require Import Prelude Errors Retry Env Kube Pool Config Install.
From S2P Require Import KitExec LegacyVms LegacyRemote LegacySetup.

Local Open Scope Z_scope.
Local Open Scope go_scope.

(** ** Addresses of the definition *)

Lemma find_own (l : list ClusterNode) n :
  NoDup (map Hostname l) -> n ∈ l -> List.find (fun m => String.eqb (Hostname m) (Hostname n)) l = Some n.
Proof.
  induction l as [|m l IH]; intros Hnd Hn; [by apply elem_of_nil in Hn|]. cbn in Hnd |- *. apply NoDup_cons in Hnd as [Hm Hnd].
  apply elem_of_cons in Hn as [->|Hn]; [by rewrite String.eqb_refl|].
  destruct (String.eqb_spec (Hostname m) (Hostname n)) as [E|]; [|by apply IH].
  destruct Hm. rewrite E. by apply (list_elem_of_fmap_2 Hostname).
Qed.

Lemma find_other (l : list ClusterNode) name :
  name ∉ map Hostname l -> List.find (fun m => String.eqb (Hostname m) name) l = None.
Proof.
  induction l as [|m l IH]; intros Hn; [done|]. cbn in Hn |- *. apply not_elem_of_cons in Hn as [Hm Hn].
  destruct (String.eqb_spec (Hostname m) name) as [E|]; [by subst|by apply IH].
Qed.

Lemma GetNodeIPAddress_own def n :
  NoDup (map Hostname (Masters def ++ Workers def)) -> n ∈ Masters def ++ Workers def ->
  (exists e, GetNodeIPAddress def (Hostname n) = Err e) \/ GetNodeIPAddress def (Hostname n) = Ok (IPAddress n).
Proof.
  intros Hnd Hn. rewrite map_app in Hnd. apply NoDup_app in Hnd as (H1 & H2 & H3). unfold GetNodeIPAddress.
  apply elem_of_app in Hn as [Hn|Hn].
  - rewrite find_own //. unfold address_of. destruct (String.eqb _ ""); eauto.
  - rewrite find_other; [intros Hx; apply (H2 _ Hx); by apply (list_elem_of_fmap_2 Hostname)|]. rewrite find_own //.
    unfold address_of. destruct (String.eqb _ ""); eauto.
Qed.

(** ** One goroutine among others *)
Section Joining.
Context {W : Type} `{AE : ApiErrors, CX : Ctx W, LS : LegacySSH W, LL : !LegacySSHLaws W}.
Hypothesis ctx_local : local ctxErr.
Hypothesis timer_local : forall z, local (timerFires z).
Context (env : Vars) (def : ClusterDefinition) (jump : login) (J : list join).

Definition ip_of (j : join) : result string := GetNodeIPAddress def (Hostname (jn_node j)).
Hypothesis distinct : forall j1 j2 ip, j1 ∈ J -> j2 ∈ J -> ip_of j1 = Ok ip -> ip_of j2 = Ok ip -> j1 = j2.

(** The clients and the log at the start. *)
Context (O0 : gmap Z string) (L0 : list ssh_event).

(** No client of its own is open; exactly one is; its script has run. *)
Definition nobody (j : join) (w : W) : Prop :=
  forall ip c, ip_of j = Ok ip -> O0 !! c = None -> ssh_open w !! c <> Some ip.
Definition owns (j : join) (c : Z) (w : W) : Prop :=
  exists ip, ip_of j = Ok ip /\ O0 !! c = None /\ ssh_open w !! c = Some ip /\
    forall c', O0 !! c' = None -> ssh_open w !! c' = Some ip -> c' = c.
Definition joined (j : join) (w : W) : Prop :=
  exists ip out new, ip_of j = Ok ip /\ ssh_log w = L0 ++ new /\ Ran ip (node_script_cmd (jn_script j)) out None ∈ new.

(** The other clients are those of the start and of the goroutines. *)
Definition shared (w : W) : Prop :=
  (exists new, ssh_log w = L0 ++ new) /\ O0 ⊆ ssh_open w /\
  forall c h, ssh_open w !! c = Some h -> O0 !! c = Some h \/ (O0 !! c = None /\ exists j, j ∈ J /\ ip_of j = Ok h).

(** What a goroutine does to the world. *)
Definition change (j : join) (w w' : W) : Prop :=
  (exists n, ssh_log w' = ssh_log w ++ n) /\
  (ssh_open w' = ssh_open w \/
   (exists c ip, ip_of j = Ok ip /\ ssh_open w !! c = None /\ ssh_open w' = <[c := ip]> (ssh_open w)) \/
   exists c, owns j c w /\ ssh_open w' = delete c (ssh_open w)).

Lemma change_same j w w' : ssh_open w' = ssh_open w -> (exists n, ssh_log w' = ssh_log w ++ n) -> change j w w'.
Proof. intros Ho Hl. split; [done|by left]. Qed.

Lemma change_local j w w' : ssh_open w' = ssh_open w -> ssh_log w' = ssh_log w -> change j w w'.
Proof. intros Ho Hl. apply change_same; [done|]. exists []. by rewrite Hl app_nil_r. Qed.

Lemma change_shared j w w' : j ∈ J -> shared w -> change j w w' -> shared w'.
Proof.
  intros Hj ((new & Hn) & Hsub & Hown) ((n & Hl) & Hcase). split; [exists (new ++ n); by rewrite Hl Hn app_assoc|].
  destruct Hcase as [->|[(c & ip & Hip & Hc & ->)|(c & (ip & _ & Hc & _) & ->)]]; [done| |]; (split; [|intros c' h]).
  - by apply insert_subseteq_r; [destruct (O0 !! c) eqn:E; [by eapply lookup_weaken in E; [|exact Hsub]; simplify_eq|]|].
  - destruct (decide (c' = c)) as [->|Hne]; [|rewrite lookup_insert_ne //; apply Hown].
    rewrite lookup_insert_eq. intros [= <-]. right. split; [|eauto].
    destruct (O0 !! c) eqn:E; [|done]. eapply lookup_weaken in E; [|exact Hsub]. by simplify_eq.
  - by apply map_subseteq_spec; intros c' h Hc'; rewrite lookup_delete_ne; [intros ->; by simplify_eq|eapply lookup_weaken].
  - intros Hc'. apply lookup_delete_Some in Hc' as [_ Hc']. by apply Hown.
Qed.

Lemma joined_mono j w w' : joined j w -> (exists n, ssh_log w' = ssh_log w ++ n) -> joined j w'.
Proof.
  intros (ip & out & new & Hip & Hl & Hin) [n Hn]. exists ip, out, (new ++ n). rewrite Hn Hl app_assoc. split; [done|]. split; [done|].
  apply elem_of_app. by left.
Qed.

(** The clients of one goroutine are none of the other's business. *)
Lemma change_other i j w w' :
  i <> j -> i ∈ J -> j ∈ J -> change j w w' ->
  (nobody i w -> nobody i w') /\ (forall c, owns i c w -> owns i c w') /\ (joined i w -> joined i w').
Proof.
  intros Hne Hi Hj [Hl Hcase]. assert (Hip : forall a b, ip_of i = Ok a -> ip_of j = Ok b -> a <> b).
  { intros a b Ha Hb ->. by apply Hne, (distinct _ _ b). }
  split; [|split; [|intros; by eapply joined_mono]].
  - intros Hn ip c Hipi Hc Hx. destruct Hcase as [E|[(c' & ip' & Hip' & Hc' & E)|(c' & _ & E)]]; rewrite E in Hx.
    + by eapply Hn.
    + destruct (decide (c = c')) as [->|Hcc]; [rewrite lookup_insert_eq in Hx; simplify_eq; by eapply Hip|].
      rewrite lookup_insert_ne // in Hx. by eapply Hn.
    + apply lookup_delete_Some in Hx as [_ Hx]. by eapply Hn.
  - intros c (ip & Hipi & Hc & Ho & Huniq). exists ip. split; [done|]. split; [done|].
    destruct Hcase as [->|[(c' & ip' & Hip' & Hc' & ->)|(c' & (ip' & Hip' & _ & Ho' & _) & ->)]]; [done|split|split].
    + rewrite lookup_insert_ne //. intros ->. by simplify_eq.
    + intros c2 Hc2 Hx. destruct (decide (c2 = c')) as [->|Hcc]; [rewrite lookup_insert_eq in Hx; simplify_eq; by destruct (Hip _ _ Hipi Hip')|].
      rewrite lookup_insert_ne // in Hx. by apply Huniq.
    + rewrite lookup_delete_ne //. intros ->. simplify_eq. by destruct (Hip _ _ Hipi Hip').
    + intros c2 Hc2 Hx. apply lookup_delete_Some in Hx as [_ Hx]. by apply Huniq.
Qed.

(** *** Where a goroutine is *)

(** Between dialling and closing. *)
Definition inside (j : join) (s : adding) (w : W) : Prop :=
  match ad_client s with
  | Some c => owns j c w
  | None => nobody j w /\ exists e, ad_result s = Some (Some e)
  end /\ (ad_result s = Some None -> joined j w).

(** A run of the script or a pause. *)
Definition middle (j : join) (c : call W adding) : Prop :=
  (exists k, c = run_script j k) \/ exists k, c = back_off j k.

Lemma attempts_middle j : Forall (middle j) (attempts j).
Proof.
  unfold attempts. apply Forall_concat, Forall_map, Forall_forall. intros k _.
  constructor; [left; eauto|]. constructor; [right; eauto|constructor].
Qed.

Definition wrapping (j : join) : list (call W adding) -> list (call W adding) :=
  failing ("failed to add " +:+ (if jn_master j then "master" else "worker") +:+ " node " +:+ Hostname (jn_node j) +:+ ": ").

Definition at_point (j : join) (g : gor W adding) (w : W) : Prop :=
  j ∈ J /\
  match g with
  | Run s todo =>
      (todo = wrapping j (dial_node env def jump j :: attempts j ++ [close_node j]) /\ s = not_added /\ nobody j w) \/
      (exists l, todo = wrapping j (l ++ [close_node j]) /\ Forall (middle j) l /\ inside j s w) \/
      (todo = [] /\ nobody j w /\ joined j w)
  | Send _ | Over (Err _) => nobody j w
  | Over (Ok _) => nobody j w /\ joined j w
  end.

Lemma inside_change j i s w w' : i <> j -> i ∈ J -> j ∈ J -> change j w w' -> inside i s w -> inside i s w'.
Proof.
  intros Hne Hi Hj Hc [Hs Hr]. destruct (change_other i j w w' Hne Hi Hj Hc) as (Hn & Ho & Hd). split; [|auto].
  destruct (ad_client s); [auto|]. destruct Hs. auto.
Qed.

Lemma at_point_change j i g w w' : i <> j -> j ∈ J -> change j w w' -> at_point i g w -> at_point i g w'.
Proof.
  intros Hne Hj Hc [Hi Hg]. destruct (change_other i j w w' Hne Hi Hj Hc) as (Hn & Ho & Hd). split; [done|].
  destruct g as [s todo|e|[s|e]]; [|auto|destruct Hg; auto|auto].
  destruct Hg as [(H1 & H2 & H3)|[(l & H1 & H2 & H3)|(H1 & H2 & H3)]]; [left; auto|right; left; exists l|right; right; auto].
  split; [done|]. split; [done|]. by eapply inside_change.
Qed.

(** *** The calls *)

Lemma dial_node_call j s r w w' :
  shared w -> j ∈ J -> nobody j w -> dial_node env def jump j not_added w = (Returns r, w') ->
  r = Ok s -> change j w w' /\ inside j s w'.
Proof.
  intros (_ & Hsub & _) Hj Hn H ->. unfold dial_node, while_adding in H. cbn [not_added ad_result] in H.
  mstep H as [s1 w1] E. injection H as <- <-. destruct (GetNodeIPAddress _ _) as [ip|e] eqn:Hip.
  - mstep E as [c w2] Ec. injection E as <- <-. destruct c as [c|e].
    + apply jump_ok in Ec as (Hc & Ho & Hl). cbn in Ho.
      assert (Hc0 : O0 !! c = None) by (destruct (O0 !! c) eqn:E0; [by eapply lookup_weaken in E0; [|exact Hsub]; simplify_eq|done]).
      split; [split; [exists []; by rewrite app_nil_r|right; left; by exists c, ip]|]. split; [|done]. exists ip.
      split; [done|]. split; [done|]. rewrite Ho lookup_insert_eq. split; [done|]. intros c' Hc' Hx.
      destruct (decide (c' = c)) as [->|Hne]; [done|]. rewrite lookup_insert_ne // in Hx. by destruct (Hn ip c').
    + apply jump_err in Ec as [Ho Hl]. split; [by apply change_local|]. split; [|done]. cbn. split; [|eauto].
      intros ip' c Hip' Hc. rewrite Ho. by apply Hn.
  - injection E as <- <-. split; [by apply change_local|]. split; [|done]. cbn. eauto.
Qed.

(** While the function has not returned, its client is open. *)
Lemma run_script_inside j k s w s' w' :
  shared w -> inside j s w -> run_script j k s w = (Returns (Ok s'), w') -> change j w w' /\ inside j s' w'.
Proof.
  intros ([new Hnew] & _) [Hs Hr] H. unfold run_script, while_adding in H. destruct (ad_result s) as [x|] eqn:Hres.
  { injection H as <- <-. split; [by apply change_local|]. unfold inside. by rewrite Hres. }
  mstep H as [s1 w1] E. injection H as <- <-. destruct (ad_client s) as [cl|] eqn:Hcl; [|by destruct Hs as [_ [e He]]].
  mstep E as [[out err] w2] Ex. injection E as Hs1 <-. apply exec_done in Ex as [Ho Hl].
  destruct Hs as (ip & Hip & Hc0 & Hop & Huniq). cbn in Hl. unfold host_of in Hl. rewrite Hop in Hl. cbn in Hl.
  split; [apply change_same; [done|by eexists]|]. assert (Hown : owns j cl w2) by (exists ip; by rewrite Ho).
  subst s1. destruct err as [e|].
  - destruct (_ || _); by split.
  - split; [by rewrite /= Hcl|]. intros _. exists ip, out, (new ++ [Ran ip (node_script_cmd (jn_script j)) out None]).
    split; [done|]. rewrite Hl Hnew app_assoc. split; [done|]. apply elem_of_app. right. by left.
Qed.

Lemma back_off_inside j k s w s' w' :
  inside j s w -> back_off j k s w = (Returns (Ok s'), w') -> change j w w' /\ inside j s' w'.
Proof.
  intros [Hs Hr] H. unfold back_off, while_adding in H. destruct (ad_result s) as [x|] eqn:Hres.
  { injection H as <- <-. split; [by apply change_local|]. unfold inside. by rewrite Hres. }
  mstep H as [s1 w1] E. injection H as <- <-. destruct (ad_client s) as [cl|] eqn:Hcl; [|by destruct Hs as [_ [e He]]].
  mstep E as [fired w2] Et. destruct (timer_local (backoff k) w) as [Ho Hl]. rewrite Et in Ho, Hl. cbn in Ho, Hl.
  assert (Hkeep : forall v, ssh_open v = ssh_open w -> owns j cl v).
  { intros v Hv. destruct Hs as (ip & ?). exists ip. by rewrite Hv. }
  destruct fired.
  - injection E as <- <-. split; [by apply change_local|]. split; [rewrite Hcl; by apply Hkeep|by rewrite Hres].
  - mstep E as [ce w3] Ec. injection E as <- <-. destruct (ctx_local w2) as [Ho2 Hl2]. rewrite Ec in Ho2, Hl2. cbn in Ho2, Hl2.
    split; [apply change_local; congruence|]. split; [|done]. cbn. rewrite Hcl. apply Hkeep. congruence.
Qed.

Lemma middle_call j c s r w w' :
  shared w -> middle j c -> inside j s w -> c s w = (Returns r, w') -> exists s', r = Ok s' /\ change j w w' /\ inside j s' w'.
Proof.
  intros Hsh Hm Hs H. assert (Hok : exists s', r = Ok s').
  { destruct Hm as [[k ->]|[k ->]]; unfold run_script, back_off, while_adding in H; (destruct (ad_result s); [injection H as <- _; eauto|]);
      mstep H as [s1 w1] E; injection H as <- _; eauto. }
  destruct Hok as [s' ->]. exists s'. split; [done|].
  destruct Hm as [[k ->]|[k ->]]; [by eapply run_script_inside|by eapply back_off_inside].
Qed.

Lemma close_node_call j s r w w' :
  inside j s w -> close_node j s w = (Returns r, w') ->
  change j w w' /\ nobody j w' /\ match r with Ok _ => joined j w' | Err _ => True end.
Proof.
  intros [Hs Hr] H. unfold close_node in H. mstep H as [u w1] E. injection H as Hres <-.
  assert (Hj : change j w w1 -> match r with Ok _ => joined j w1 | Err _ => True end).
  { intros [Hl _]. subst r. destruct (ad_result s) as [[e|]|]; [done| |done]. eapply joined_mono; [by apply Hr|done]. }
  destruct (ad_client s) as [c|].
  - mstep E as [e w2] Ec. injection E as _ <-. apply ssh_close_removes in Ec as [Ho Hl].
    assert (Hc : change j w w2) by (split; [exists []; by rewrite Hl app_nil_r|right; right; eauto]).
    split; [done|]. split; [|exact (Hj Hc)]. destruct Hs as (ip & Hip & _ & _ & Huniq). intros ip' c' Hip' Hc' Hx.
    rewrite Ho in Hx. apply lookup_delete_Some in Hx as [Hne Hx]. apply Hne. symmetry. apply Huniq; [done|congruence].
  - injection E as _ <-. assert (Hc : change j w w) by (by apply change_local). split; [done|]. destruct Hs as [Hn _]. split; [done|exact (Hj Hc)].
Qed.

Lemma join_point_move j g w g' w' :
  shared w -> at_point j g w -> move g w = (Some g', w') -> change j w w' /\ at_point j g' w'.
Proof.
  intros Hsh [Hj Hg] H. destruct g as [s todo|e|r]; [|by injection H as <- <-; split; [apply change_local|]..].
  destruct Hg as [(-> & -> & Hn)|[(l & -> & Hl & Hs)|(-> & Hn & Hd)]].
  - apply (failing_move _ (dial_node env def jump j)) in H as (r & H & Hr).
    assert (Hok : exists s, r = Ok s).
    { unfold dial_node, while_adding in H. cbn in H. mstep H as [s1 w1] E. injection H as <- _. eauto. }
    destruct Hok as [s ->]. destruct (dial_node_call _ _ _ _ _ Hsh Hj Hn H eq_refl) as [Hc Hi]. split; [done|]. split; [done|].
    subst g'. right. left. exists (attempts j). split; [done|]. split; [apply attempts_middle|done].
  - destruct l as [|c l]; cbn [app] in H.
    + apply (failing_move _ (close_node j)) in H as (r & H & Hr). apply close_node_call in H as (Hc & Hn & Hd); [|done].
      split; [done|]. split; [done|]. destruct r as [s'|e]; [subst g'; right; right; done|by destruct Hr as [e' ->]].
    + apply Forall_cons in Hl as [Hm Hl]. apply (failing_move _ c) in H as (r & H & Hr).
      destruct (middle_call j _ _ _ _ _ Hsh Hm Hs H) as (s' & -> & Hc & Hi). split; [done|]. split; [done|]. subst g'. right. left.
      by exists l.
  - injection H as <- <-. split; [by apply change_local|by split].
Qed.

(** *** All of them *)

Lemma joining_stage sched w res w' :
  NoDup J -> ssh_open w = O0 -> ssh_log w = L0 ->
  go_all sched (fun _ => not_added) (addNodeToCluster env def jump) J w = (Some (Returns res), w') ->
  ssh_open w' = O0 /\ (exists new, ssh_log w' = L0 ++ new) /\ (first_sent res = None -> forall j, j ∈ J -> joined j w').
Proof.
  intros Hnd Ho Hl H. apply (go_all_rule shared at_point) in H as ((Hlog & Hsub & Hown) & Hp & Hr).
  - assert (Hat : forall j, j ∈ J -> exists r, (j, r) ∈ res /\ at_point j (Over r) w').
    { intros j Hj. rewrite -Hp in Hj. apply list_elem_of_fmap in Hj as ([i r] & -> & Hin). exists r. split; [done|by apply Hr]. }
    split; [|split; [done|]].
    + apply map_eq. intros c. destruct (ssh_open w' !! c) as [h|] eqn:E.
      * destruct (Hown c h E) as [->|(Hc & j & Hj & Hip)]; [done|]. destruct (Hat j Hj) as ([s|e] & _ & _ & Hn); [destruct Hn as [Hn _]|];
          by destruct (Hn h c).
      * destruct (O0 !! c) eqn:E0; [|done]. eapply lookup_weaken in E0; [|exact Hsub]. by simplify_eq.
    + intros Hf j Hj. destruct (Hat j Hj) as (r & Hin & _ & Hx). destruct (first_sent_None _ Hf _ _ Hin) as [s ->]. by destruct Hx.
  - intros j g v g' v' Hsh Ha Hm. destruct (join_point_move _ _ _ _ _ Hsh Ha Hm) as [Hc Ha']. split; [|done].
    eapply change_shared; [apply Ha|done|done].
  - intros i j gi gj v g' v' Hne Hsh Hi Hj Hm. destruct (join_point_move _ _ _ _ _ Hsh Hj Hm) as [Hc _].
    eapply at_point_change; [done|apply Hj|done|done].
  - done.
  - split; [exists []; by rewrite app_nil_r|]. split; [by rewrite Ho|]. intros c h. rewrite Ho. by left.
  - intros j Hj. split; [done|]. left. split; [done|]. split; [done|]. intros ip c _ Hc. by rewrite Ho Hc.
Qed.
End Joining.

(** ** The whole *)

(** Requests to the API server are no business of the remote hosts. *)
Class LocalClient (W O : Type) `{LegacySSH W, Client W O} : Prop := {
  get_local k : local (clientGet (O := O) k);
  list_local : local (clientList (O := O))
}.
Class LocalCtx (W : Type) `{LegacySSH W, Ctx W} : Prop := {
  ctxErr_local : local ctxErr;
  timerFires_local z : local (timerFires z)
}.

Section Whole.
Context {W : Type} `{AE : ApiErrors, CX : Ctx W, LS : LegacySSH W, LL : !LegacySSHLaws W, LC : !LocalCtx W}.
Context `{KC : Client W KSecret, KL : !LocalClient W KSecret} {RestConfig : Type}.
Context (env : Vars) (newClientset : M W (option error)) (sched : list nat).
Hypothesis newClientset_local : local newClientset.

Local Notation secret role := (GetSecretDataValue newClientset "d8-cloud-instance-manager" ("manual-bootstrap-for-" +:+ role) "bootstrap.sh").

Lemma FindSecretByName_local ns name : local (FindSecretByName newClientset ns name).
Proof.
  apply bind_local; [done|]. intros [e|]; [apply ret_local|]. apply bind_local; [apply get_local|]. intros [s|e]; [apply ret_local|].
  apply bind_local; [apply list_local|]. intros. apply ret_local.
Qed.

Lemma GetSecretDataValue_local ns name key : local (GetSecretDataValue newClientset ns name key).
Proof.
  apply bind_local; [apply FindSecretByName_local|]. intros [found|e]; [|apply ret_local].
  apply bind_local; [done|]. intros [e|]; [apply ret_local|]. apply bind_local; [apply get_local|]. intros. apply ret_local.
Qed.

Lemma local_step {A} (m : M W A) w a w' : local m -> m w = (a, w') -> ssh_open w' = ssh_open w /\ ssh_log w' = ssh_log w.
Proof. intros Hm H. specialize (Hm w). by rewrite H in Hm. Qed.

Section Definition_.
Context (def : ClusterDefinition).
Hypothesis has_master : Masters def <> [].
Hypothesis hostnames : NoDup (map Hostname (Masters def ++ Workers def)).
Hypothesis addresses : NoDup (map IPAddress (Masters def ++ Workers def)).

Definition joining : list ClusterNode := tl (Masters def) ++ Workers def.

Lemma joining_nodes n : n ∈ joining -> n ∈ Masters def ++ Workers def.
Proof. unfold joining. intros [Hn|Hn]%elem_of_app; apply elem_of_app; [left|by right]. destruct (Masters def); [done|by right]. Qed.

Lemma joins_nodes ms ws : map jn_node (joins ms ws def) = joining.
Proof. unfold joins, joining. by rewrite map_app !map_map /= !map_id. Qed.

Lemma NoDup_joining : NoDup joining.
Proof.
  assert (H : NoDup (Masters def ++ Workers def)) by (by eapply NoDup_fmap_1). unfold joining.
  destruct (Masters def) as [|m l]; [done|]. cbn in H. by apply NoDup_cons in H as [_ H].
Qed.

Lemma NoDup_joins ms ws : NoDup (joins ms ws def).
Proof. eapply (NoDup_fmap_1 jn_node). change (NoDup (map jn_node (joins ms ws def))). rewrite joins_nodes. apply NoDup_joining. Qed.

Lemma same_ip n n' : n ∈ Masters def ++ Workers def -> n' ∈ Masters def ++ Workers def -> IPAddress n = IPAddress n' -> n = n'.
Proof.
  revert addresses. generalize (Masters def ++ Workers def). clear. induction l as [|m l IH]; intros Hnd Hn Hn' He; [by apply elem_of_nil in Hn|].
  cbn in Hnd. apply NoDup_cons in Hnd as [Hm Hnd].
  apply elem_of_cons in Hn as [->|Hn], Hn' as [->|Hn']; [done| | |by apply IH].
  - destruct Hm. rewrite He. by apply (list_elem_of_fmap_2 IPAddress).
  - destruct Hm. rewrite -He. by apply (list_elem_of_fmap_2 IPAddress).
Qed.

Lemma ip_of_join ms ws j ip : j ∈ joins ms ws def -> ip_of def j = Ok ip -> ip = IPAddress (jn_node j).
Proof.
  intros Hj Hip. assert (Hn : jn_node j ∈ joining) by (rewrite -(joins_nodes ms ws); by apply (list_elem_of_fmap_2 jn_node)).
  apply joining_nodes in Hn. destruct (GetNodeIPAddress_own def _ hostnames Hn) as [[e He]|Hok]; unfold ip_of in Hip; congruence.
Qed.

Lemma joins_distinct ms ws j1 j2 ip :
  j1 ∈ joins ms ws def -> j2 ∈ joins ms ws def -> ip_of def j1 = Ok ip -> ip_of def j2 = Ok ip -> j1 = j2.
Proof.
  intros H1 H2 E1 E2. pose proof (ip_of_join _ _ _ _ H1 E1) as Hi1. pose proof (ip_of_join _ _ _ _ H2 E2) as Hi2.
  assert (Hin : forall j, j ∈ joins ms ws def -> jn_node j ∈ joining).
  { intros j Hj. rewrite -(joins_nodes ms ws). by apply (list_elem_of_fmap_2 jn_node). }
  assert (E : jn_node j1 = jn_node j2) by (apply same_ip; [by apply joining_nodes, Hin..|congruence]).
  apply list_elem_of_lookup in H1 as [i1 H1], H2 as [i2 H2].
  assert (i1 = i2) as ->; [|congruence]. eapply (NoDup_lookup _ _ _ _ NoDup_joining).
  - rewrite -(joins_nodes ms ws). by apply (list_lookup_fmap_Some_2 jn_node).
  - rewrite -(joins_nodes ms ws) E. by apply (list_lookup_fmap_Some_2 jn_node).
Qed.

Lemma while_adding_returns (k : adding -> M W adding) s w : (while_adding k s w).1 <> Panics.
Proof. unfold while_adding. destruct (ad_result s); [done|]. unfold mbind, M_bind. by destruct (k s w). Qed.

Lemma addNode_returns jump j c s w : c ∈ addNodeToCluster env def jump j -> (c s w).1 <> Panics.
Proof.
  intros Hc. apply list_elem_of_fmap in Hc as (c0 & -> & Hc). unfold mbind at 1, M_bind at 1.
  assert (H0 : (c0 s w).1 <> Panics).
  { apply elem_of_cons in Hc as [->|Hc]; [apply while_adding_returns|]. apply elem_of_app in Hc as [Hc|Hc].
    - pose proof (attempts_middle (W := W) j) as Hm. rewrite Forall_forall in Hm.
      destruct (Hm _ Hc) as [[k ->]|[k ->]]; apply while_adding_returns.
    - apply list_elem_of_singleton in Hc as ->. unfold close_node, mbind, M_bind. destruct (ad_client s) as [cl|]; [by destruct (ssh_Close cl w)|done]. }
  destruct (c0 s w) as [[r|] w1]; [|done]. by destruct r.
Qed.

(** No more errors than goroutines. *)
Lemma errs_length {X St} (res : list (X * result St)) :
  (length (omap (fun p => match p.2 with Err e => Some e | Ok _ => None end) res) <= length res)%nat.
Proof. induction res as [|[x [s|e]] res IH]; cbn; [done|lia..]. Qed.

(** The scripts in the secrets, and where they have run. *)
Definition scripts_ran (w : W) (new : list ssh_event) : Prop :=
  exists workerScript masterScript w1 w2, secret "worker" w = (Ok workerScript, w1) /\ secret "master" w1 = (Ok masterScript, w2) /\
    (forall n, n ∈ Workers def -> exists out, Ran (IPAddress n) (node_script_cmd workerScript) out None ∈ new) /\
    (forall n, n ∈ tl (Masters def) -> exists out, Ran (IPAddress n) (node_script_cmd masterScript) out None ∈ new).

End Definition_.
End Whole.

(** ** Runs *)

#[export] Instance pair_local_client W1 W2 O `{S1 : LegacySSH W1, C2 : Client W2 O} :
  LocalClient (W1 * W2) O (H0 := pair_client_snd W1 W2 O).
Proof. split; intros; intros w; cbn; unfold on_snd; [by destruct (clientGet _ _)|by destruct (clientList _)]. Qed.

#[export] Instance fleet_local_ctx : LocalCtx fleet.
Proof. split; intros; intros w; cbn; by destruct (h_ticks w). Qed.
#[export] Instance pair_local_ctx W1 W2 `{S1 : LegacySSH W1, C1 : Ctx W1, L1 : !LocalCtx W1} : LocalCtx (W1 * W2).
Proof.
  split; intros; intros w; cbn; unfold on_fst.
  - pose proof (ctxErr_local w.1) as H. by destruct (ctxErr w.1).
  - pose proof (timerFires_local z w.1) as H. by destruct (timerFires z w.1).
Qed.

Definition join_env : Vars :=
  mkVars "" "tfadm" "" "ssh-ed25519 AAAA" "192.0.2.1" "cloud" "alwaysCreateNew" "" "e2e" "linstor" "generic" "license" "cfg"
    "IfNotExists" "" "" "" "" "" "" "" "" "".

Definition join_node (name ip : string) : ClusterNode :=
  mkNode name ip (mkOSType "" "https://host/jammy.img" "") HostTypeVM None 2 None 4 20 false.
Definition join_def (masters workers : list ClusterNode) : ClusterDefinition :=
  mkDef masters workers None (mkDKP "" "" "" "" "" "" []).
Definition three_nodes : ClusterDefinition :=
  join_def [join_node "master-1" "10.0.0.1"; join_node "master-2" "10.0.0.2"] [join_node "worker-1" "10.0.0.3"].

(** The script fails on the worker at first, with an error that is retried. *)
Definition join_answers (log : list ssh_event) (host _ : string) : string * option error :=
  if String.eqb host "10.0.0.3" && (length log <? 2)%nat then ("HTTP Error 401", Some (Errorf "exit status 1")) else ("", None).

Definition join_world (unreachable : list string) : fleet * memWorld KSecret :=
  (mkFleet ∅ [] ∅ join_answers unreachable 5,
   mkWorld (mkMem {["manual-bootstrap-for-worker" := mkKSecret {["bootstrap.sh" := "join worker"]};
                    "manual-bootstrap-for-master" := mkKSecret {["bootstrap.sh" := "join master"]}]} []) 5 false).

Definition join_run (sched : list nat) (def : ClusterDefinition) (unreachable : list string) :=
  AddNodesToCluster (W := fleet * memWorld KSecret) (RestConfig := unit) join_env (mret None) sched (Some tt) (Some def)
    (mkLogin "tfadm" "192.0.2.1" "key") (join_world unreachable).


(** A worker that cannot be reached is an error, and the connection to the master is closed. *)
Example unreachable_worker :
  let '(r, w) := join_run [] three_nodes ["10.0.0.3"] in
  (exists e, r = Some (Returns (Some e))) /\ ssh_open w = ∅.
Proof. vm_compute. split; [by eexists|done]. Qed.

(** Without a master, [totalNodes] is one too small: no nodes panic, one worker is not joined
    and reported as if it were, and of two workers that fail the second blocks for good. *)
Example no_master :
  (join_run [] (join_def [] []) []).1 = Some Panics /\
  ((join_run [] (join_def [] [join_node "worker-1" "10.0.0.3"]) []).1 = Some (Returns None) /\
   ssh_log (join_run [] (join_def [] [join_node "worker-1" "10.0.0.3"]) []).2 = []) /\
  (join_run [] (join_def [] [join_node "worker-1" "10.0.0.3"; join_node "worker-2" "10.0.0.4"]) ["10.0.0.3"; "10.0.0.4"]).1 = None.
Proof. vm_compute. done. Qed.
