(* ===== verification/LegacySsh.v ===== *)
(** The legacy SSH clients ([src/internal/infrastructure/ssh/client.go]), their connections: the
    key with its passphrase and the agent, the client of one host, the one through a jump host,
    their keepalives, reconnecting and closing. The network is the class [Wire] of [SshDial];
    [ssh.Dial], the terminal and the key files are classes here. *)
From S2P Require Import Prelude Errors Retry SshConn SshDial DvpConfig Kube Kit.

Local Open Scope Z_scope.
Local Open Scope go_scope.

(** ** The environment *)

(** [ssh.Dial]; the user, the key files, [SSH_PASSPHRASE] and the terminal. *)
Class KeyEnv (W : Type) := {
  sshDial : string -> ClientConfig -> M W (result Z);
  currentUser : M W (result string);
  readKeyFile : string -> M W (result string);
  envPassphrase : W -> string;
  isTerminal : Z -> M W bool;
  openTty : M W (result Z);
  terminalPassword : Z -> M W (result string);
  closeTty : Z -> M W unit
}.

(** Computations that leave a part [f] of the world alone. *)
Create HintDb keeps.

Definition keeps {W A B} (f : W -> B) (m : M W A) : Prop := forall w, f (m w).2 = f w.

Lemma keeps_ret {W A B} (f : W -> B) (a : A) : keeps f (mret (M := M W) a).
Proof. done. Qed.
Lemma keeps_gets {W A B} (f : W -> B) (g : W -> A) : keeps f (gets g).
Proof. done. Qed.
Lemma keeps_bind {W A B C} (f : W -> B) (m : M W A) (k : A -> M W C) :
  keeps f m -> (forall a, keeps f (k a)) -> keeps f (mbind k m).
Proof.
  intros Hm Hk w. unfold mbind, M_bind. specialize (Hm w). destruct (m w) as [a w1]. cbn in Hm. by rewrite (Hk a w1) Hm.
Qed.
#[export] Hint Resolve keeps_ret keeps_gets : keeps.

(** Call by call. *)
Ltac keeping :=
  repeat first [ progress intros | solve [eauto 2 with keeps]
               | match goal with
                 | |- keeps _ (mbind _ _) => apply keeps_bind
                 | |- keeps _ (match ?x with _ => _ end) => destruct x
                 end ].

(** Neither opening nor closing a connection, with [SSH_AUTH_SOCK] as it is. *)
Notation steady := (keeps (fun w => (opened w, authSock w))).

(** [ssh.Dial] fails and leaves nothing open, or yields a new client; the rest of the
    environment has no connection. *)
Class KeyEnvLaws (W : Type) `{Wire W, KeyEnv W, Ctx W, Clock W} : Prop := {
  sshDial_law a cfg w r w' : sshDial a cfg w = (r, w') ->
    match r with Ok c => c ∉ opened w /\ opened w' = {[c]} ∪ opened w | Err _ => opened w' = opened w end;
  sock_sshDial a cfg : keeps authSock (sshDial a cfg);
  sock_dialUnix s : keeps authSock (dialUnix s);
  sock_signers c : keeps authSock (agentSigners c);
  sock_clientDial j a : keeps authSock (clientDial j a);
  sock_handshake c a cfg : keeps authSock (newClientConn c a cfg);
  sock_close c : keeps authSock (closeRes c);
  currentUser_steady : steady currentUser;
  readKeyFile_steady f : steady (readKeyFile f);
  isTerminal_steady fd : steady (isTerminal fd);
  openTty_steady : steady openTty;
  terminalPassword_steady fd : steady (terminalPassword fd);
  closeTty_steady fd : steady (closeTty fd);
  ctxErr_steady : steady ctxErr;
  timer_steady z : steady (timerFires z);
  sleep_steady z : steady (sleep z)
}.

(** ** The key *)
Record sshKeyInfo := mkKeyInfo { Path : string; Algorithm : string; Fingerprint : string }.

Definition key_used (k : sshKeyInfo) : string :=
  nl +:+ "  Key used: " +:+ Path k +:+ " (algorithm: " +:+ Algorithm k +:+ ", fingerprint: " +:+ Fingerprint k +:+ ")".
Definition key_hint (k : sshKeyInfo) : string :=
  key_used k +:+ nl +:+ "  Hint: verify this key's public part is in authorized_keys on the server".

(** [config.SSHRetryInitialDelay], doubled up to [config.SSHRetryMaxDelay]. *)
Definition longer (delay : Z) : Z :=
  let delay := delay * 2 in if SSHRetryMaxDelay <? delay then SSHRetryMaxDelay else delay.

Definition with_port (host : string) : string := if Contains host ":" then host else host +:+ ":22".

(** [isConnectionError]. *)
Definition connectionPatterns : list string :=
  ["failed to create SSH session"; "ssh: handshake failed"; "ssh: connection lost";
   "use of closed network connection"; "connection refused"; "connection reset"; "broken pipe";
   "EOF"; "i/o timeout"].

Definition isConnectionError (err : option error) : bool :=
  match err with
  | None => false
  | Some e => errors_Is e "io.EOF" || existsb (Contains (Error e)) connectionPatterns
  end.

(** ** The clients

    [keepaliveCtx] says whether the context of the keepalives is live. A client is made by
    [Create] or [NewClientWithJumpHost], which set its connections: they are never nil. *)
Record client := mkDirect {
  sshClient : Z;
  keepaliveCtx : bool;
  user : string;
  host : string;
  keyPath : string
}.

Record jumpHostClient := mkJumpHost {
  jumpClient : Z;
  targetClient : Z;
  j_keepaliveCtx : bool;
  jumpUser : string;
  jumpHost : string;
  jumpKeyPath : string;
  targetUser : string;
  targetHost : string;
  targetKeyPath : string
}.

(** A keepalive goroutine, as its ticker, its context and the peer have it: how many requests it
    sends and whether it still runs. That of [client] ends after an error, those of
    [jumpHostClient] do not. *)
Inductive beat := Beat (err : option error) | Cancelled.

Fixpoint keepalives (endsOnError : bool) (bs : list beat) : nat * bool :=
  match bs with
  | [] => (0%nat, true)
  | Cancelled :: _ => (0%nat, false)
  | Beat (Some _) :: bs =>
      if endsOnError then (1%nat, false) else let '(n, on) := keepalives endsOnError bs in (S n, on)
  | Beat None :: bs => let '(n, on) := keepalives endsOnError bs in (S n, on)
  end.

Definition startKeepalive : list beat -> nat * bool := keepalives true.
Definition jump_startKeepalive : list beat -> nat * bool := keepalives false.

Section Connect.
Context {W : Type} `{WR : Wire W, KE : !KeyEnv W, CX : !Ctx W, CL : !Clock W}.
(** Of [golang.org/x/crypto/ssh]: keys are named by their signers. *)
Context (ParsePrivateKey : string -> result string).
Context (ParsePrivateKeyWithPassphrase : string -> string -> result string).
Context (keyType FingerprintSHA256 : string -> string).

Definition expandPath (path : string) : M W (result string) :=
  if negb (HasPrefix path "~") then mret (Ok path)
  else
    let! usr := currentUser in
    mret match usr with
         | Err err => Err (ErrorfW "failed to get current user: " err "")
         | Ok home => if String.eqb path "~" then Ok home else Ok (path_Join [home; TrimPrefix path "~/"])
         end.

(** The prompt is left out. *)
Definition readPassword : M W (result string) :=
  let! tty := isTerminal 0 in
  if tty : bool then terminalPassword 0
  else
    let! tty := openTty in
    match tty with
    | Err err => mret (Err (ErrorfW "error allocating terminal: " err ""))
    | Ok fd => let! pass := terminalPassword fd in let! _ := closeTty fd in mret pass
    end.

Definition no_passphrase_error (path : string) (err : error) : error :=
  ErrorfW ("SSH key '" +:+ path +:+ "' is passphrase protected. Set SSH_PASSPHRASE environment variable: " +:+
           "export SSH_PASSPHRASE='your-passphrase'" +:+ nl +:+ "Original error: ") err "".

Definition key_passphrase (path : string) : M W (result string) :=
  let! envPass := gets envPassphrase in
  if negb (String.eqb envPass "") then mret (Ok envPass)
  else
    let! pass := readPassword in
    mret match pass with Ok p => Ok p | Err readErr => Err (no_passphrase_error path readErr) end.

Definition key_signer (path key : string) : M W (result string) :=
  match ParsePrivateKey key with
  | Ok signer => mret (Ok signer)
  | Err err =>
      if negb (Contains (Error err) "ssh: this private key is passphrase protected")
      then mret (Err (ErrorfW ("unable to parse private key '" +:+ path +:+ "': ") err ""))
      else
        let! pass := key_passphrase path in
        mret match pass with
             | Err err => Err err
             | Ok pass =>
                 match ParsePrivateKeyWithPassphrase key pass with
                 | Err err => Err (ErrorfW ("unable to parse private key '" +:+ path +:+ "' with passphrase: ") err "")
                 | Ok signer => Ok signer
                 end
             end
  end.

(** The signers of the agent come after the key; [agentPart] of [SshDial] asks it. Its
    connection is left open, and nothing keeps it. *)
Definition createSSHConfig (user keyPath : string) : M W (result (ClientConfig * sshKeyInfo)) :=
  let! expanded := expandPath keyPath in
  match expanded with
  | Err err => mret (Err (ErrorfW "failed to get private key path: " err ""))
  | Ok path =>
      let! key := readKeyFile path in
      match key with
      | Err err => mret (Err (ErrorfW ("unable to read private key " +:+ path +:+ ": ") err ""))
      | Ok key =>
          let! signer := key_signer path key in
          match signer with
          | Err err => mret (Err err)
          | Ok signer =>
              let! '(_, agentKeys) := agentPart in
              mret (Ok (mkClientConfig user (signer :: agentKeys) (Some insecureIgnoreHostKey) 0,
                        mkKeyInfo path (keyType signer) (FingerprintSHA256 signer)))
          end
      end
  end.

(** ** One host *)

Definition Create (user host keyPath : string) : M W (result client) :=
  let! cfg := createSSHConfig user keyPath in
  match cfg with
  | Err err => mret (Err (ErrorfW "failed to create SSH config: " err ""))
  | Ok (sshConfig, keyInfo) =>
      let addr := with_port host in
      let! dialed := sshDial addr sshConfig in
      match dialed with
      | Err err =>
          mret (Err (ErrorfW ("failed to connect to " +:+ user +:+ "@" +:+ addr +:+ ": ") err (key_hint keyInfo)))
      | Ok c => mret (Ok (mkDirect c true user host keyPath))
      end
  end.

Definition NewClient (user host keyPath : string) : M W (result client) := Create user host keyPath.

(** The attempts of both [reconnect]: [inr] is what is returned. *)
Fixpoint reconnect_loop {L} (connect : M W (result L)) (left : nat) (first : bool) (delay : Z)
    (lastErr : option error) : M W (L + option error) :=
  match left with
  | O => mret (inr (Some (ErrorfWn ("failed to reconnect after " +:+ pretty SSHRetryCount +:+ " attempts: ") lastErr "")))
  | S left =>
      let! ce := ctxErr in
      match ce with
      | Some err => mret (inr (Some err))
      | None =>
          let! go := if first then mret true else timerFires delay in
          if go : bool then
            let! r := connect in
            match r with
            | Ok l => mret (inl l)
            | Err err => reconnect_loop connect left false (if first then delay else longer delay) (Some err)
            end
          else let! ce := ctxErr in mret (inr ce)
      end
  end.

Definition reconnect_with {L} (connect : M W (result L)) : M W (L + option error) :=
  reconnect_loop connect (Z.to_nat SSHRetryCount) true SSHRetryInitialDelay None.

(** One attempt of [client.reconnect]. *)
Definition redial (c : client) : M W (result Z) :=
  let! cfg := createSSHConfig (user c) (keyPath c) in
  match cfg with
  | Err err => mret (Err err)
  | Ok (sshConfig, keyInfo) =>
      let addr := with_port (host c) in
      let! dialed := sshDial addr sshConfig in
      mret match dialed with
           | Err err => Err (ErrorfW ("failed to connect to " +:+ user c +:+ "@" +:+ addr +:+ ": ") err (key_hint keyInfo))
           | Ok l => Ok l
           end
  end.

Definition reconnect (c : client) : M W (client * option error) :=
  let! _ := closeRes (sshClient c) in
  let! r := reconnect_with (redial c) in
  mret match r with
       | inl l => (mkDirect l true (user c) (host c) (keyPath c), None)
       | inr err => (mkDirect (sshClient c) false (user c) (host c) (keyPath c), err)
       end.

(** Errors that only say the connection was closed already. *)
Definition says_EOF (e : error) : bool := errors_Is e "io.EOF" || Contains (Error e) "EOF".

Definition Close (c : client) : M W (client * option error) :=
  let! err := closeRes (sshClient c) in
  mret (mkDirect (sshClient c) false (user c) (host c) (keyPath c),
        match err with Some e => if says_EOF e then None else Some e | None => None end).

(** ** Through a jump host *)

(** A connection through [j] with the handshake over it; the connection is closed when the
    handshake fails. *)
Definition through (j : Z) (addr : string) (cfg : ClientConfig) (dialErr shakeErr : error -> error)
    : M W (result Z) :=
  let! conn := clientDial j addr in
  match conn with
  | Err err => mret (Err (dialErr err))
  | Ok conn =>
      let! hs := newClientConn conn addr cfg in
      match hs with
      | Err err => let! _ := closeRes conn in mret (Err (shakeErr err))
      | Ok cl => mret (Ok cl)
      end
  end.

(** The attempts of [NewClientWithJumpHost]; the sleep does not look at a context. *)
Fixpoint target_loop (connect : M W (result Z)) (left : nat) (first : bool) (delay : Z)
    (lastErr : option error) : M W (Z + option error) :=
  match left with
  | O => mret (inr lastErr)
  | S left =>
      let! _ := if first then mret tt else sleep delay in
      let! r := connect in
      match r with
      | Ok c => mret (inl c)
      | Err err => target_loop connect left false (if first then delay else longer delay) (Some err)
      end
  end.

Section Jump.
Context (jumpUser jumpHost jumpKeyPath targetUser targetHost targetKeyPath : string).

Definition jumpAddr := with_port jumpHost.
Definition targetAddr := with_port targetHost.

Definition target_dial_error (err : error) : error :=
  ErrorfW ("failed to dial target host " +:+ quote targetUser +:+ "@" +:+ targetAddr +:+ " through jump host " +:+
           quote jumpUser +:+ "@" +:+ jumpAddr +:+ ": ") err "".

Definition target_shake_error (k : sshKeyInfo) (err : error) : error :=
  ErrorfW ("failed to establish SSH connection to target host " +:+ quote targetUser +:+ "@" +:+ targetAddr +:+
           " (via jump " +:+ quote jumpUser +:+ "@" +:+ jumpAddr +:+ "): ") err
    (key_used k +:+ nl +:+ "  Hint: verify SSH_VM_USER (current=" +:+ quote targetUser +:+
     ") is correct for this VM image and that the key's public part is in " +:+ targetUser +:+ "@" +:+ targetAddr +:+
     ":~/.ssh/authorized_keys").

Definition NewClientWithJumpHost : M W (result jumpHostClient) :=
  let! cfg := createSSHConfig jumpUser jumpKeyPath in
  match cfg with
  | Err err => mret (Err (ErrorfW "failed to create SSH config for jump host: " err ""))
  | Ok (jumpConfig, jumpKeyInfo) =>
      let! jump := sshDial jumpAddr jumpConfig in
      match jump with
      | Err err =>
          mret (Err (ErrorfW ("failed to connect to jump host " +:+ jumpUser +:+ "@" +:+ jumpAddr +:+ ": ") err
                       (key_hint jumpKeyInfo)))
      | Ok jump =>
          let! cfg := createSSHConfig targetUser targetKeyPath in
          match cfg with
          | Err err =>
              let! _ := closeRes jump in
              mret (Err (ErrorfW "failed to create SSH config for target host: " err ""))
          | Ok (targetConfig, targetKeyInfo) =>
              let! r := target_loop (through jump targetAddr targetConfig target_dial_error
                                       (target_shake_error targetKeyInfo))
                          (Z.to_nat SSHRetryCount) true SSHRetryInitialDelay None in
              match r with
              | inr lastErr =>
                  let! _ := closeRes jump in
                  mret (Err (ErrorfWn ("failed to connect to target host " +:+ quote targetUser +:+ "@" +:+ targetAddr +:+
                                       " after " +:+ pretty SSHRetryCount +:+ " attempts: ") lastErr ""))
              | inl target =>
                  mret (Ok (mkJumpHost jump target true jumpUser jumpHost jumpKeyPath targetUser targetHost targetKeyPath))
              end
          end
      end
  end.
End Jump.

Definition jump_Create (_ _ _ : string) : M W (result jumpHostClient) :=
  mret (Err (Errorf "Create not supported for jump host client")).

(** One attempt of [jumpHostClient.reconnect]. *)
Definition redial_both (c : jumpHostClient) : M W (result (Z * Z)) :=
  let! cfg := createSSHConfig (jumpUser c) (jumpKeyPath c) in
  match cfg with
  | Err err => mret (Err err)
  | Ok (jumpConfig, jumpKeyInfo) =>
      let! jump := sshDial (with_port (jumpHost c)) jumpConfig in
      match jump with
      | Err err => mret (Err (ErrorfW "failed to reconnect to jump host: " err (key_hint jumpKeyInfo)))
      | Ok jump =>
          let! cfg := createSSHConfig (targetUser c) (targetKeyPath c) in
          match cfg with
          | Err err => let! _ := closeRes jump in mret (Err err)
          | Ok (targetConfig, _) =>
              let! r := through jump (with_port (targetHost c)) targetConfig
                          (fun err => ErrorfW "failed to dial target through jump host: " err "")
                          (fun err => ErrorfW "failed to establish target connection: " err "") in
              match r with
              | Err err => let! _ := closeRes jump in mret (Err err)
              | Ok target => mret (Ok (jump, target))
              end
          end
      end
  end.

Definition set_links (c : jumpHostClient) (j t : Z) (live : bool) : jumpHostClient :=
  mkJumpHost j t live (jumpUser c) (jumpHost c) (jumpKeyPath c) (targetUser c) (targetHost c) (targetKeyPath c).

Definition jump_reconnect (c : jumpHostClient) : M W (jumpHostClient * option error) :=
  let! _ := closeRes (targetClient c) in
  let! _ := closeRes (jumpClient c) in
  let! r := reconnect_with (redial_both c) in
  mret match r with
       | inl (j, t) => (set_links c j t true, None)
       | inr err => (set_links c (jumpClient c) (targetClient c) false, err)
       end.

Definition jump_Close (c : jumpHostClient) : M W (jumpHostClient * option error) :=
  let! terr := closeRes (targetClient c) in
  let! jerr := closeRes (jumpClient c) in
  let real err := match err with Some e => if says_EOF e then [] else [e] | None => [] end in
  let errs := real terr ++ real jerr in
  mret (set_links c (jumpClient c) (targetClient c) false,
        match errs with
        | [] => None
        | _ => Some (Errorf ("errors closing connections: " +:+ fmt_strings (map Error errs)))
        end).
End Connect.
