(* ===== verification/LegacySshOps.v ===== *)
(** The operations of the legacy SSH clients ([src/internal/infrastructure/ssh/client.go]):
    commands, uploads over SFTP, and the loop they share, which reconnects after a connection
    error and tries again. Sessions, SFTP and local files are a class. *)
From S2P Require Import Prelude Errors Retry SshConn SshDial Kube Kit LegacySsh.

Local Open Scope Z_scope.
Local Open Scope go_scope.

(** ** Sessions, SFTP and the files that are uploaded *)

(** What a host was asked to do, with its answer: a command that ended, and the requests of an
    upload. *)
Inductive revent :=
| Began (session : Z) (cmd : string) (err : option error)
| Created (path : string) (file : result Z)
| Moded (path : string) (perm : Z) (err : option error)
| Wrote (file : Z) (data : string)
| Removed (path : string) (err : option error).

Class Sessions (W : Type) := {
  remoteLog : W -> list revent;
  newSession : Z -> M W (result Z);
  combinedOutput : Z -> string -> M W (string * option error);
  sessionRun : Z -> string -> M W (string * string * option error);
  sessionClose : Z -> M W unit;
  sftpNewClient : Z -> M W (result Z);
  sftpClose : Z -> M W unit;
  sftpCreate : Z -> string -> M W (result Z);
  sftpChmod : Z -> string -> Z -> M W (option error);
  sftpRemove : Z -> string -> M W (option error);
  sftpWrite : Z -> string -> M W (Z * option error);
  sftpCloseFile : Z -> M W unit;
  openLocal : string -> M W (result Z);
  readLocal : Z -> M W (string * option error);
  closeLocal : Z -> M W unit
}.

(** A computation that adds [ev] of its result to the log. *)
Definition says {W A} `{Sessions W} (m : M W A) (ev : A -> list revent) : Prop :=
  forall w a w', m w = (a, w') -> remoteLog w' = remoteLog w ++ ev a.

(** Sessions and files belong to connections and open none; of the calls only these reach the
    host, one each. *)
Class SessionsLaws (W : Type) `{Wire W, KeyEnv W, Ctx W, Clock W, Sessions W} : Prop := {
  newSession_steady l : steady (newSession l);
  combinedOutput_steady s cmd : steady (combinedOutput s cmd);
  sessionRun_steady s cmd : steady (sessionRun s cmd);
  sessionClose_steady s : steady (sessionClose s);
  sftpNewClient_steady l : steady (sftpNewClient l);
  sftpClose_steady c : steady (sftpClose c);
  sftpCreate_steady c p : steady (sftpCreate c p);
  sftpChmod_steady c p m : steady (sftpChmod c p m);
  sftpRemove_steady c p : steady (sftpRemove c p);
  sftpWrite_steady f s : steady (sftpWrite f s);
  sftpCloseFile_steady f : steady (sftpCloseFile f);
  openLocal_steady p : steady (openLocal p);
  readLocal_steady f : steady (readLocal f);
  closeLocal_steady f : steady (closeLocal f);
  combinedOutput_says s cmd : says (combinedOutput s cmd) (fun r => [Began s cmd r.2]);
  sessionRun_says s cmd : says (sessionRun s cmd) (fun r => [Began s cmd r.2]);
  sftpCreate_says c p : says (sftpCreate c p) (fun r => [Created p r]);
  sftpChmod_says c p m : says (sftpChmod c p m) (fun r => [Moded p m r]);
  sftpRemove_says c p : says (sftpRemove c p) (fun r => [Removed p r]);
  sftpWrite_says f s : says (sftpWrite f s) (fun r => [Wrote f (String.substring 0 (Z.to_nat r.1) s)]);
  newSession_silent l : keeps remoteLog (newSession l);
  sessionClose_silent s : keeps remoteLog (sessionClose s);
  sftpNewClient_silent l : keeps remoteLog (sftpNewClient l);
  sftpClose_silent c : keeps remoteLog (sftpClose c);
  sftpCloseFile_silent f : keeps remoteLog (sftpCloseFile f);
  openLocal_silent p : keeps remoteLog (openLocal p);
  readLocal_silent f : keeps remoteLog (readLocal f);
  closeLocal_silent f : keeps remoteLog (closeLocal f);
  sshDial_silent a cfg : keeps remoteLog (sshDial a cfg);
  dialUnix_silent s : keeps remoteLog (dialUnix s);
  signers_silent c : keeps remoteLog (agentSigners c);
  clientDial_silent j a : keeps remoteLog (clientDial j a);
  handshake_silent c a cfg : keeps remoteLog (newClientConn c a cfg);
  close_silent c : keeps remoteLog (closeRes c);
  currentUser_silent : keeps remoteLog currentUser;
  readKeyFile_silent f : keeps remoteLog (readKeyFile f);
  isTerminal_silent fd : keeps remoteLog (isTerminal fd);
  openTty_silent : keeps remoteLog openTty;
  terminalPassword_silent fd : keeps remoteLog (terminalPassword fd);
  closeTty_silent fd : keeps remoteLog (closeTty fd);
  ctxErr_silent : keeps remoteLog ctxErr;
  timer_silent z : keeps remoteLog (timerFires z)
}.

(** [unread w f] is what a local file still holds: a read takes its first bytes, at least one
    unless it fails, and ends with [io.EOF] when nothing is left; talking to the host leaves
    local files alone. *)
Class LocalReads (W : Type) `{Ctx W, Sessions W} := {
  unread : W -> Z -> string;
  read_takes f w s er w' : readLocal f w = ((s, er), w') -> unread w f = s +:+ unread w' f;
  read_some f w s w' : readLocal f w = ((s, None), w') -> s <> "";
  read_end f w s w' : readLocal f w = ((s, Some io_EOF), w') -> unread w' f = "";
  unread_create c p : keeps unread (sftpCreate c p);
  unread_chmod c p m : keeps unread (sftpChmod c p m);
  unread_write f s : keeps unread (sftpWrite f s);
  unread_ctx : keeps unread ctxErr
}.

Definition io_ErrShortWrite : error := Leaf (KSentinel "io.ErrShortWrite" None) "short write".

(** [os.ModePerm]. *)
Definition ModePerm : Z := 511.

(** ** Copying

    [read] fills the buffer, [write] returns how much it took; [None] when the fuel runs out. *)
Section Copy.
Context {W : Type} `{CX : !Ctx W}.
Context (read : M W (string * option error)) (write : string -> M W (Z * option error)).

(** The write of one chunk: what is counted, and an error that ends the loop. *)
Definition copy_chunk (data : string) : M W (Z * option error) :=
  let nr := Z.of_nat (String.length data) in
  let! '(nw, ew) := write data in
  let bad := (nw <? 0) || (nr <? nw) in
  let ew := if bad then match ew with None => Some (Errorf "invalid write result") | e => e end else ew in
  let nw := if bad then 0 else nw in
  mret (nw, match ew with
            | Some e => Some e
            | None => if negb (nr =? nw) then Some io_ErrShortWrite else None
            end).

Fixpoint copyWithContext (fuel : nat) (written : Z) : M W (option (Z * option error)) :=
  match fuel with
  | O => mret None
  | S fuel =>
      let! ce := ctxErr in
      match ce with
      | Some e => mret (Some (written, Some e))
      | None =>
          let! '(data, er) := read in
          let! '(nw, ew) := if 0 <? Z.of_nat (String.length data) then copy_chunk data else mret (0, None) in
          let written := written + nw in
          match ew, er with
          | Some e, _ => mret (Some (written, Some e))
          | None, Some er => mret (Some (written, if bool_decide (er = io_EOF) then None else Some er))
          | None, None => copyWithContext fuel written
          end
      end
  end.
End Copy.

Section Ops.
Context {W : Type} `{CX : !Ctx W, SS : !Sessions W}.

(** The deferred closes are those of the remote file, then of the local one. *)
Definition uploadOverSFTPOnce (fuel : nat) (sc : Z) (localPath remotePath : string) (chmodBeforeCopy : option Z)
    : M W (option (option error)) :=
  let! localFile := openLocal localPath in
  match localFile with
  | Err err => mret (Some (Some (ErrorfW ("failed to open local file " +:+ localPath +:+ ": ") err "")))
  | Ok localFile =>
      let! remoteFile := sftpCreate sc remotePath in
      match remoteFile with
      | Err err =>
          let! _ := closeLocal localFile in
          mret (Some (Some (ErrorfW ("failed to create remote file " +:+ remotePath +:+ ": ") err "")))
      | Ok remoteFile =>
          let! moded := match chmodBeforeCopy with Some perm => sftpChmod sc remotePath perm | None => mret None end in
          match moded with
          | Some err =>
              let! _ := sftpRemove sc remotePath in
              let! _ := sftpCloseFile remoteFile in
              let! _ := closeLocal localFile in
              mret (Some (Some (ErrorfW "chmod remote file before transfer: " err "")))
          | None =>
              let! copied := copyWithContext (readLocal localFile) (sftpWrite remoteFile) fuel 0 in
              let! _ := sftpCloseFile remoteFile in
              let! _ := closeLocal localFile in
              mret match copied with
                   | None => None
                   | Some (_, Some err) => Some (Some (ErrorfW "failed to copy file: " err ""))
                   | Some (_, None) => Some None
                   end
          end
      end
  end.

(** ** Attempts

    What one attempt decides: a result, or a connection error, with what is returned when
    reconnecting fails and when it was the last attempt. *)
Inductive outcome (A : Type) :=
| Final (a : A)
| Broken (failed : error -> A) (spent : A).
Arguments Final {A} a.
Arguments Broken {A} failed spent.

(** [(original: %v)]. *)
Definition unhealed (what : string) (reconnErr lastErr : error) : error :=
  ErrorfW (what +:+ " and reconnection failed: ") reconnErr (" (original: " +:+ Error lastErr +:+ ")").

Definition spent_error (what : string) (lastErr : option error) : error :=
  ErrorfWn ("SSH " +:+ what +:+ " failed after " +:+ pretty SSHRetryCount +:+ " attempts: ") lastErr "".

Section Retrying.
(** The connection an operation uses, and how it is made anew. *)
Context {C : Type} (link : C -> Z) (reconnect : C -> M W (C * option error)).

(** [spent] is what is returned when no attempt is left. *)
Fixpoint retrying {A} (before : error -> A) (attempt : A -> Z -> M W (outcome A)) (left : nat) (c : C) (spent : A)
    : M W (C * A) :=
  match left with
  | O => mret (c, spent)
  | S left =>
      let! ce := ctxErr in
      match ce with
      | Some err => mret (c, before err)
      | None =>
          let! o := attempt spent (link c) in
          match o with
          | Final a => mret (c, a)
          | Broken failed spent =>
              let! '(c, reconnErr) := reconnect c in
              match reconnErr with
              | Some e => mret (c, failed e)
              | None => retrying before attempt left c spent
              end
          end
      end
  end.

Definition ten : nat := Z.to_nat SSHRetryCount.

(** A session that does not open. *)
Definition no_session {A} (empty last : option error -> A) (err : error) : outcome A :=
  let lastErr := ErrorfW "failed to create SSH session: " err "" in
  if isConnectionError (Some err)
  then Broken (fun e => empty (Some (unhealed "SSH session failed" e lastErr))) (last (Some (spent_error "exec" (Some lastErr))))
  else Final (empty (Some lastErr)).

(** What a command that was run decides; [give] holds its output, [last] what the loop returns
    of it when no attempt is left. *)
Definition after_run {A} (give last : option error -> A) (err : option error) : M W (outcome A) :=
  let! ce := ctxErr in
  match ce with
  | Some ce => mret (Final (give (Some (ErrorfW "context cancelled: " ce ""))))
  | None =>
      match err with
      | None => mret (Final (give None))
      | Some err =>
          let lastErr := ErrorfW "command failed: " err "" in
          mret (if isConnectionError (Some err)
                then Broken (fun e => give (Some (unhealed "command failed" e lastErr)))
                            (last (Some (spent_error "exec" (Some lastErr))))
                else Final (give (Some lastErr)))
      end
  end.

(** The inner [output] shadows the one that is returned at the end, which stays empty. *)
Definition exec_attempt (cmd : string) (_ : string * option error) (l : Z) : M W (outcome (string * option error)) :=
  let! session := newSession l in
  match session with
  | Err err => mret (no_session (pair "") (pair "") err)
  | Ok s =>
      let! '(output, err) := combinedOutput s cmd in
      let! _ := sessionClose s in
      after_run (pair output) (pair "") err
  end.

Definition Exec (cmd : string) (c : C) : M W (C * (string * option error)) :=
  retrying (fun err => ("", Some (ErrorfW "context error before execution: " err ""))) (exec_attempt cmd) ten c
    ("", Some (spent_error "exec" None)).

(** Here the outputs of the last run are returned; a session that does not open leaves those of
    the run before. *)
Definition capture_attempt (cmd : string) (before : (string * string) * option error) (l : Z) : M W (outcome ((string * string) * option error)) :=
  let! session := newSession l in
  match session with
  | Err err => mret (no_session (pair ("", "")) (pair before.1) err)
  | Ok s =>
      let! '(outs, err) := sessionRun s cmd in
      let! _ := sessionClose s in
      after_run (pair outs) (pair outs) err
  end.

Definition ExecCapture (cmd : string) (c : C) : M W (C * ((string * string) * option error)) :=
  retrying (fun err => (("", ""), Some (ErrorfW "context error before execution: " err ""))) (capture_attempt cmd) ten c
    (("", ""), Some (spent_error "exec" None)).

Definition ExecFatal (cmd : string) (c : C) : M W (C * ending string) :=
  let! '(c, (output, err)) := Exec cmd c in
  mret (c, match err with Some _ => Panics | None => Returns output end).

Definition upload_attempt (fuel : nat) (localPath remotePath : string) (chmodBeforeCopy : option Z)
    (_ : option (option error)) (l : Z) : M W (outcome (option (option error))) :=
  let! sc := sftpNewClient l in
  match sc with
  | Err err =>
      let lastErr := ErrorfW "failed to create SFTP client: " err "" in
      mret (if isConnectionError (Some err)
            then Broken (fun e => Some (Some (unhealed "SFTP client creation failed" e lastErr)))
                        (Some (Some (spent_error "upload" (Some lastErr))))
            else Final (Some (Some lastErr)))
  | Ok sc =>
      let! r := uploadOverSFTPOnce fuel sc localPath remotePath chmodBeforeCopy in
      let! _ := sftpClose sc in
      mret match r with
           | None => Final None
           | Some None => Final (Some None)
           | Some (Some err) =>
               if isConnectionError (Some err)
               then Broken (fun e => Some (Some (unhealed "SFTP upload failed" e err)))
                           (Some (Some (spent_error "upload" (Some err))))
               else Final (Some (Some err))
           end
  end.

Definition uploadWithSFTPRetries (fuel : nat) (localPath remotePath : string) (chmodBeforeCopy : option Z) (c : C)
    : M W (C * option (option error)) :=
  retrying (fun err => Some (Some (ErrorfW "context error before upload: " err "")))
    (upload_attempt fuel localPath remotePath chmodBeforeCopy) ten c (Some (Some (spent_error "upload" None))).

Definition Upload (fuel : nat) (localPath remotePath : string) (c : C) : M W (C * option (option error)) :=
  uploadWithSFTPRetries fuel localPath remotePath None c.

Definition UploadPrivate (fuel : nat) (localPath remotePath : string) (remotePerm : Z) (c : C)
    : M W (C * option (option error)) :=
  uploadWithSFTPRetries fuel localPath remotePath (Some (Z.land remotePerm ModePerm)) c.
End Retrying.
End Ops.
Arguments Final {A} a.
Arguments Broken {A} failed spent.

(** ** The methods of both clients *)
Section Methods.
Context {W : Type} `{WR : Wire W, KE : !KeyEnv W, CX : !Ctx W, CL : !Clock W, SS : !Sessions W}.
Context (ParsePrivateKey : string -> result string).
Context (ParsePrivateKeyWithPassphrase : string -> string -> result string).
Context (keyType FingerprintSHA256 : string -> string).

Local Notation again :=
  (reconnect ParsePrivateKey ParsePrivateKeyWithPassphrase keyType FingerprintSHA256).
Local Notation jump_again :=
  (jump_reconnect ParsePrivateKey ParsePrivateKeyWithPassphrase keyType FingerprintSHA256).

Definition client_Exec (cmd : string) : client -> M W _ := Exec sshClient again cmd.
Definition client_ExecCapture (cmd : string) : client -> M W _ := ExecCapture sshClient again cmd.
Definition client_ExecFatal (cmd : string) : client -> M W _ := ExecFatal sshClient again cmd.
Definition client_uploadWithSFTPRetries (fuel : nat) (l r : string) (perm : option Z) : client -> M W _ :=
  uploadWithSFTPRetries sshClient again fuel l r perm.
Definition client_Upload (fuel : nat) (l r : string) : client -> M W _ := Upload sshClient again fuel l r.
Definition client_UploadPrivate (fuel : nat) (l r : string) (perm : Z) : client -> M W _ :=
  UploadPrivate sshClient again fuel l r perm.

Definition jump_Exec (cmd : string) : jumpHostClient -> M W _ := Exec targetClient jump_again cmd.
Definition jump_ExecCapture (cmd : string) : jumpHostClient -> M W _ := ExecCapture targetClient jump_again cmd.
Definition jump_ExecFatal (cmd : string) : jumpHostClient -> M W _ := ExecFatal targetClient jump_again cmd.
Definition jumpUploadWithSFTPRetries (fuel : nat) (l r : string) (perm : option Z) : jumpHostClient -> M W _ :=
  uploadWithSFTPRetries targetClient jump_again fuel l r perm.
Definition jump_Upload (fuel : nat) (l r : string) : jumpHostClient -> M W _ := Upload targetClient jump_again fuel l r.
Definition jump_UploadPrivate (fuel : nat) (l r : string) (perm : Z) : jumpHostClient -> M W _ :=
  UploadPrivate targetClient jump_again fuel l r perm.
End Methods.
