(* ===== verification/LegacySshSafety.v ===== *)
(** What the legacy SSH clients keep open and what they run: connecting is all or nothing, a
    reconnection replaces the old connections, and what remains in the end are the connections
    to the agent; commands run again only after a connection error; a private upload writes no
    byte before the permissions are set. *)
From S2P Require Import Prelude Errors Retry SshConn SshDial Kube Kit LegacySsh LegacySshOps.

Local Open Scope Z_scope.
Local Open Scope go_scope.

(** ** What is open *)
Section Open.
Context {W : Type} `{WR : Wire W, KE : !KeyEnv W, CX : !Ctx W, CL : !Clock W}.
Context {WL : WireLaws W} {KL : KeyEnvLaws W}.

(** At most [k] connections to the agent, and none when there is no agent. *)
Definition at_most (k : nat) (w : W) : nat := if String.eqb (authSock w) "" then 0%nat else k.

(** From [w] to [w'] the connections [L] were opened and kept, with at most [k] to the agent
    beside them. *)
Definition grows (k : nat) (w : W) (L : gset Z) (w' : W) : Prop :=
  authSock w' = authSock w /\ L ## opened w /\
  exists A : gset Z, (size A <= at_most k w)%nat /\ opened w' = L ∪ A ∪ opened w.

Lemma opened_refl k w w' : opened w' = opened w -> authSock w' = authSock w -> grows k w ∅ w'.
Proof. intros Ho Hs. split; [done|]. split; [set_solver|]. exists ∅. rewrite size_empty. split; [lia|set_solver]. Qed.

Lemma at_most_le k k' w : (k <= k')%nat -> (at_most k w <= at_most k' w)%nat.
Proof. unfold at_most. destruct (String.eqb _ _); lia. Qed.

Lemma grows_le k k' w L w' : (k <= k')%nat -> grows k w L w' -> grows k' w L w'.
Proof.
  intros Hk (Hs & Hd & A & HA & Ho). split; [done|]. split; [done|]. exists A. split; [|done].
  etrans; [done|by apply at_most_le].
Qed.

Lemma opened_trans k k' w L w1 L' w2 :
  grows k w L w1 -> grows k' w1 L' w2 -> grows (k + k') w (L ∪ L') w2.
Proof.
  intros (Hs & Hd & A & HA & Ho) (Hs' & Hd' & A' & HA' & Ho'). split; [congruence|].
  split; [set_solver|]. exists (A ∪ A'). split; [|set_solver].
  pose proof (size_union_alt A A'). pose proof (subseteq_size (A' ∖ A) A' ltac:(set_solver)).
  unfold at_most in *. rewrite Hs in HA'. destruct (String.eqb _ _); lia.
Qed.

Lemma grows_close k w L w1 c err w2 :
  grows k w L w1 -> c ∉ opened w -> closeRes c w1 = (err, w2) -> grows k w (L ∖ {[c]}) w2.
Proof.
  intros (Hs & Hd & A & HA & Ho) Hc E. pose proof (sock_close c w1) as Hk. rewrite E in Hk. cbn in Hk.
  apply close_law in E. split; [congruence|]. split; [set_solver|]. exists (A ∖ {[c]}). split.
  - etrans; [|exact HA]. apply subseteq_size. set_solver.
  - rewrite E Ho. set_solver.
Qed.

Lemma steady_grows {A} k (m : M W A) w a w' : steady m -> m w = (a, w') -> grows k w ∅ w'.
Proof. intros Hm E. specialize (Hm w). rewrite E in Hm. injection Hm as Ho Hs. by apply opened_refl. Qed.

(** One call that opens a connection or fails. *)
Lemma open_grows w (r : result Z) w' : authSock w' = authSock w ->
  match r with Ok c => c ∉ opened w /\ opened w' = {[c]} ∪ opened w | Err _ => opened w' = opened w end ->
  grows 0 w (match r with Ok c => {[c]} | Err _ => ∅ end) w'.
Proof.
  intros Hs H. destruct r as [c|e]; [|by apply opened_refl]. destruct H as [Hc Ho]. split; [done|].
  split; [set_solver|]. exists ∅. rewrite size_empty. split; [lia|set_solver].
Qed.

End Open.

#[export] Hint Resolve currentUser_steady readKeyFile_steady isTerminal_steady openTty_steady
  terminalPassword_steady closeTty_steady ctxErr_steady timer_steady sleep_steady newSession_steady
  combinedOutput_steady sessionRun_steady sessionClose_steady sftpNewClient_steady sftpClose_steady
  sftpCreate_steady sftpChmod_steady sftpRemove_steady sftpWrite_steady sftpCloseFile_steady
  openLocal_steady readLocal_steady closeLocal_steady : keeps.
#[export] Hint Resolve unread_create unread_chmod unread_write unread_ctx : keeps.
#[export] Hint Resolve newSession_silent sessionClose_silent sftpNewClient_silent sftpClose_silent
  sftpCloseFile_silent openLocal_silent readLocal_silent closeLocal_silent sshDial_silent dialUnix_silent
  signers_silent clientDial_silent handshake_silent close_silent currentUser_silent readKeyFile_silent
  isTerminal_silent openTty_silent terminalPassword_silent closeTty_silent ctxErr_silent timer_silent : keeps.

Section Connecting.
Context {W : Type} `{WR : Wire W, KE : !KeyEnv W, CX : !Ctx W, CL : !Clock W}.
Context {WL : WireLaws W} {KL : KeyEnvLaws W} {XL : CtxLaws W}.
Context (ParsePrivateKey : string -> result string).
Context (ParsePrivateKeyWithPassphrase : string -> string -> result string).
Context (keyType FingerprintSHA256 : string -> string).

Local Notation config := (createSSHConfig ParsePrivateKey ParsePrivateKeyWithPassphrase keyType FingerprintSHA256).

Lemma agentPart_grows w x w' : agentPart w = (x, w') -> grows 1 w ∅ w'.
Proof.
  intros H. unfold agentPart, gets, mbind, M_bind in H; cbv beta iota in H.
  destruct (String.eqb (authSock w) "") eqn:Es; [by injection H as <- <-; apply opened_refl|].
  mstep H as [d w2] E2. pose proof (sock_dialUnix (authSock w) w) as Hk. rewrite E2 in Hk. cbn in Hk.
  apply unix_law in E2. destruct d as [c|e]; [|by injection H as <- <-; apply opened_refl].
  mstep H as [g w3] E3. pose proof (sock_signers c w2) as Hk3. rewrite E3 in Hk3. cbn in Hk3.
  apply signers_law in E3. injection H as <- <-. destruct E2 as [Hc Ho]. split; [congruence|]. split; [set_solver|].
  exists {[c]}. rewrite size_singleton /at_most Es E3 Ho. split; [lia|set_solver].
Qed.

Lemma key_signer_steady path key : steady (key_signer ParsePrivateKey ParsePrivateKeyWithPassphrase path key).
Proof. unfold key_signer, key_passphrase, readPassword. keeping. Qed.
Hint Resolve key_signer_steady : keeps.

Lemma createSSHConfig_grows u k w r w' : config u k w = (r, w') -> grows 1 w ∅ w'.
Proof.
  intros H. unfold createSSHConfig in H. mstep H as [p w1] E1.
  assert (G1 : grows 0 w ∅ w1) by (eapply steady_grows; [|exact E1]; unfold expandPath; keeping).
  destruct p as [p|e]; [|injection H as <- <-; by eapply grows_le; [|done]; lia].
  mstep H as [key w2] E2. pose proof (steady_grows 0 _ _ _ _ (readKeyFile_steady p) E2) as G2.
  pose proof (opened_trans _ _ _ _ _ _ _ G1 G2) as G.
  destruct key as [key|e]; [|injection H as <- <-; rewrite union_empty_l_L in G; by eapply grows_le; [|done]; lia].
  mstep H as [s w3] E3. pose proof (steady_grows 0 _ _ _ _ (key_signer_steady p key) E3) as G3.
  pose proof (opened_trans _ _ _ _ _ _ _ G G3) as G'. rewrite !union_empty_l_L in G'.
  destruct s as [s|e]; [|injection H as <- <-; by eapply grows_le; [|done]; lia].
  mstep H as [[a ks] w4] E4. apply agentPart_grows in E4. injection H as <- <-.
  pose proof (opened_trans _ _ _ _ _ _ _ G' E4) as G4. by rewrite union_empty_l_L in G4.
Qed.

(** [m] opens what its result holds. *)
Definition grown {A} (k : nat) (m : M W A) (L : A -> gset Z) : Prop :=
  forall w a w', m w = (a, w') -> grows k w (L a) w'.
Definition held1 (r : result Z) : gset Z := match r with Ok c => {[c]} | Err _ => ∅ end.

Lemma grown_steady {A} k (m : M W A) : steady m -> grown k m (fun _ => ∅).
Proof. intros Hm w a w'. by apply steady_grows. Qed.

Lemma grown_bind {A B} k k' (m : M W A) (f : A -> M W B) (L : B -> gset Z) :
  grown k m (fun _ => ∅) -> (forall a, grown k' (f a) L) -> grown (k + k') (mbind f m) L.
Proof.
  intros Hm Hf w b w' H. mstep H as [a w1] E. pose proof (opened_trans _ _ _ _ _ _ _ (Hm _ _ _ E) (Hf _ _ _ _ H)) as G.
  by rewrite union_empty_l_L in G.
Qed.

Lemma grown_ret {A} (a : A) (L : A -> gset Z) : L a = ∅ -> grown 0 (mret a) L.
Proof. intros HL w b w' [= <- <-]. rewrite HL. by apply opened_refl. Qed.

Lemma grown_dial a cfg : grown 0 (sshDial a cfg) held1.
Proof.
  intros w r w' E. pose proof (sock_sshDial a cfg w) as Hk. rewrite E in Hk. apply sshDial_law in E. by apply open_grows.
Qed.

Lemma through_grown j a cfg de se : grown 0 (through j a cfg de se) held1.
Proof.
  intros w r w' H. unfold through in H. mstep H as [c w1] E1.
  pose proof (sock_clientDial j a w) as K1. rewrite E1 in K1. cbn in K1. apply client_law in E1.
  destruct c as [c|e]; [|by injection H as <- <-; apply opened_refl]. destruct E1 as [Hc Ho].
  mstep H as [h w2] E2. pose proof (sock_handshake c a cfg w1) as K2. rewrite E2 in K2. cbn in K2.
  apply handshake_law in E2. destruct h as [cl|e].
  - injection H as <- <-. apply (open_grows _ (Ok cl)); [congruence|]. destruct E2 as [Hcl Ho2]. rewrite Ho2. set_solver.
  - mstep H as [ce w3] E3. pose proof (sock_close c w2) as K3. rewrite E3 in K3. cbn in K3. apply close_law in E3.
    injection H as <- <-. apply opened_refl; [|congruence]. rewrite E3 E2 Ho. set_solver.
Qed.

(** What is kept of a connection that a later step needs: both, or the first closed again. *)
Lemma grows_two k k' w j w1 (r : result Z) w2 :
  grows k w {[j]} w1 -> grows k' w1 (held1 r) w2 ->
  match r with
  | Ok t => j <> t /\ grows (k + k') w {[j; t]} w2
  | Err _ => forall err w3, closeRes j w2 = (err, w3) -> grows (k + k') w ∅ w3
  end.
Proof.
  intros G1 G2. pose proof (opened_trans _ _ _ _ _ _ _ G1 G2) as G. destruct r as [t|e]; cbn [held1] in *.
  - split; [|done]. intros ->. destruct G1 as (_ & _ & A & _ & Ho), G2 as (_ & Hd & _). set_solver.
  - intros err w3 E. rewrite union_empty_r_L in G. apply (grows_close _ _ _ _ j err w3) in G; [|destruct G1 as (_ & Hd & _); set_solver|done].
    by rewrite difference_diag_L in G.
Qed.

(** ** One attempt to reconnect *)
Lemma redial_grown c : grown 1 (redial ParsePrivateKey ParsePrivateKeyWithPassphrase keyType FingerprintSHA256 c) held1.
Proof.
  apply (grown_bind 1 0); [intros w a w'; apply createSSHConfig_grows|]. intros [[cfg ki]|e]; [|by apply grown_ret].
  intros w r w' H. mstep H as [d w1] E. apply grown_dial in E. injection H as <- <-. by destruct d.
Qed.

Lemma redial_both_grows c w r w' :
  redial_both ParsePrivateKey ParsePrivateKeyWithPassphrase keyType FingerprintSHA256 c w = (r, w') ->
  match r with Ok (j, t) => j <> t /\ grows 2 w {[j; t]} w' | Err _ => grows 2 w ∅ w' end.
Proof.
  intros H. unfold redial_both in H. mstep H as [cfg w0] E0. apply createSSHConfig_grows in E0.
  destruct cfg as [[cfg ki]|e]; [|injection H as <- <-; by eapply grows_le; [|done]; lia].
  mstep H as [d w1] E1. apply grown_dial in E1.
  pose proof (opened_trans _ _ _ _ _ _ _ E0 E1) as G. rewrite union_empty_l_L in G. cbn [held1] in G.
  destruct d as [j|e]; [|injection H as <- <-; by eapply grows_le; [|done]; lia].
  mstep H as [cfg2 w2] E2. apply createSSHConfig_grows in E2. destruct cfg2 as [[cfg2 ki2]|e].
  - mstep H as [t w3] E3. apply through_grown in E3.
    pose proof (opened_trans _ _ _ _ _ _ _ E2 E3) as G2. rewrite union_empty_l_L in G2.
    pose proof (grows_two _ _ _ _ _ t _ G G2) as G3. destruct t as [t|e]; [by injection H as <- <-|].
    mstep H as [ce w4] E4. injection H as <- <-. by eapply G3.
  - mstep H as [ce w4] E4. injection H as <- <-. by apply (grows_two _ _ _ _ _ (Err e) _ G E2 _ _ E4).
Qed.

Lemma redial_both_grown c :
  grown 2 (redial_both ParsePrivateKey ParsePrivateKeyWithPassphrase keyType FingerprintSHA256 c)
    (fun r => match r with Ok l => {[l.1; l.2]} | Err _ => ∅ end).
Proof. intros w [[j t]|e] w' H%redial_both_grows; [by destruct H|done]. Qed.

Lemma reconnect_loop_grown {L} k (connect : M W (result L)) (links : L -> gset Z) :
  grown k connect (fun r => match r with Ok l => links l | Err _ => ∅ end) ->
  forall n first d e, grown (n * k) (reconnect_loop connect n first d e) (fun r => match r with inl l => links l | inr _ => ∅ end).
Proof.
  intros Hc n. induction n as [|n IH]; intros first d e; cbn [reconnect_loop]; [by apply grown_ret|].
  apply (grown_bind 0 (k + n * k)); [apply grown_steady; eauto with keeps|].
  intros [err|]; [intros w r w' [= <- <-]; by apply opened_refl|].
  apply (grown_bind 0 (k + n * k)); [apply grown_steady; destruct first; eauto with keeps|]. intros [].
  - intros w r w' H. mstep H as [x w1] E. apply Hc in E. destruct x as [l|err].
    + injection H as <- <-. eapply grows_le; [|done]. lia.
    + apply IH in H. pose proof (opened_trans _ _ _ _ _ _ _ E H) as G. by rewrite union_empty_l_L in G.
  - intros w r w' H. mstep H as [ce w1] E. injection H as <- <-. by eapply steady_grows; [apply ctxErr_steady|].
Qed.

(** A connection that is returned was made by an attempt. *)
Lemma reconnect_loop_made {L} (connect : M W (result L)) n first d e w l w' :
  reconnect_loop connect n first d e w = (inl l, w') -> exists w1 w2, connect w1 = (Ok l, w2).
Proof.
  revert first d e w. induction n as [|n IH]; intros first d e w H; cbn [reconnect_loop] in H; [done|].
  mstep H as [ce w1] E1. destruct ce; [done|]. mstep H as [go w2] E2. destruct go.
  - mstep H as [r w3] E3. destruct r; [injection H as <- <-; eauto|]. by eapply IH.
  - by mstep H as [ce w3] E3.
Qed.

(** [reconnect] without a connection returns an error. *)
Lemma reconnect_loop_error {L} (connect : M W (result L)) n first d e w w' :
  reconnect_loop connect n first d e w <> (inr None, w').
Proof.
  revert first d e w. induction n as [|n IH]; intros first d e w H; cbn [reconnect_loop] in H; [done|].
  mstep H as [ce w1] E1. destruct ce; [done|]. mstep H as [go w2] E2. destruct go.
  - mstep H as [r w3] E3. destruct r; [done|]. by eapply IH.
  - mstep H as [ce w3] E3. injection H as -> <-. destruct first; [done|].
    apply ctx_done in E2 as (err & w4 & E4). congruence.
Qed.

(** ** Clients that hold their connections

    Since [w0] the client has at most opened its [links], which may be closed again. *)
Definition holds (w0 : W) (k : nat) (links : gset Z) (w : W) : Prop :=
  links ## opened w0 /\ (grows k w0 links w \/ grows k w0 ∅ w).

Lemma holds_le w0 k k' links w : (k <= k')%nat -> holds w0 k links w -> holds w0 k' links w.
Proof. intros Hk [Hd [G|G]]; (split; [done|]); [left|right]; by eapply grows_le. Qed.

Lemma holds_steady {A} w0 k links w (m : M W A) a w' : steady m -> m w = (a, w') -> holds w0 k links w -> holds w0 k links w'.
Proof.
  intros Hm E [Hd HG]. apply (steady_grows 0) with (1 := Hm) in E. split; [done|].
  destruct HG as [G|G]; [left|right]; pose proof (opened_trans _ _ _ _ _ _ _ G E) as G';
    rewrite union_empty_r_L Nat.add_0_r in G'; done.
Qed.

(** Closing what it may hold. *)
Lemma holds_close w0 k links w c err w' : c ∉ opened w0 -> closeRes c w = (err, w') ->
  holds w0 k links w -> holds w0 k (links ∖ {[c]}) w'.
Proof.
  intros Hc E [Hd HG]. split; [set_solver|].
  destruct HG as [G|G]; apply (grows_close _ _ _ _ c err w') in G; try done; [by left|right].
  by replace (∅ : gset Z) with ((∅ ∖ {[c]}) : gset Z) by set_solver.
Qed.

Lemma holds_nothing w0 k w : holds w0 k ∅ w -> grows k w0 ∅ w.
Proof. by intros [_ [G|G]]. Qed.

Lemma holds_close_both w0 k j t w e1 w1 e2 w2 : closeRes t w = (e1, w1) -> closeRes j w1 = (e2, w2) ->
  holds w0 k {[j; t]} w -> grows k w0 ∅ w2.
Proof.
  intros E1 E2 H. pose proof (proj1 H) as Hd. apply (holds_close _ _ _ _ t e1 w1) in H; [|set_solver|done].
  apply (holds_close _ _ _ _ j e2 w2) in H; [|set_solver|done]. apply holds_nothing.
  by replace (∅ : gset Z) with (({[j; t]} ∖ {[t]} ∖ {[j]}) : gset Z) by set_solver.
Qed.

Local Notation jump_again :=
  (jump_reconnect ParsePrivateKey ParsePrivateKeyWithPassphrase keyType FingerprintSHA256).
Definition links (c : jumpHostClient) : gset Z := {[jumpClient c; targetClient c]}.

(** What [reconnect] did: the old connections are closed; either two new ones are open and the
    keepalives run, or nothing is and there is an error. *)
Definition reconnected (k : nat) (w0 : W) (c c' : jumpHostClient) (err : option error) (w' : W) : Prop :=
  match err with
  | None => c' = set_links c (jumpClient c') (targetClient c') true /\
            jumpClient c' <> targetClient c' /\ grows k w0 (links c') w'
  | Some _ => c' = set_links c (jumpClient c) (targetClient c) false /\ grows k w0 ∅ w'
  end.

Lemma jump_reconnect_step w0 k c w c' err w' :
  holds w0 k (links c) w -> jump_again c w = ((c', err), w') -> reconnected (k + 20) w0 c c' err w'.
Proof.
  intros HH H. unfold jump_reconnect in H. mstep H as [e1 w1] E1. mstep H as [e2 w2] E2.
  pose proof (holds_close_both _ _ _ _ _ _ _ _ _ E1 E2 HH) as G.
  mstep H as [r w3] E3.
  pose proof (reconnect_loop_grown 2 _ (fun l : Z * Z => {[l.1; l.2]}) (redial_both_grown c) _ _ _ _ _ _ _ E3) as G3.
  pose proof (opened_trans _ _ _ _ _ _ _ G G3) as G'. rewrite union_empty_l_L in G'.
  destruct r as [[j t]|err']; injection H as <- <- <-.
  - apply reconnect_loop_made in E3 as (v1 & v2 & [Hne _]%redial_both_grows). done.
  - destruct err' as [e|]; [done|]. by apply reconnect_loop_error in E3.
Qed.

(** ** Connecting through a jump host *)
Lemma target_loop_grown (connect : M W (result Z)) : grown 0 connect held1 ->
  forall n first d e, grown 0 (target_loop connect n first d e) (fun r => match r with inl c => {[c]} | inr _ => ∅ end).
Proof.
  intros Hc n. induction n as [|n IH]; intros first d e; cbn [target_loop]; [by apply grown_ret|].
  apply (grown_bind 0 0); [apply grown_steady; destruct first; eauto with keeps|]. intros _ w r w' H.
  mstep H as [x w1] E. apply Hc in E. destruct x as [c|err]; [by injection H as <- <-|].
  apply IH in H. pose proof (opened_trans _ _ _ _ _ _ _ E H) as G. by rewrite union_empty_l_L in G.
Qed.

Definition links_of (r : result jumpHostClient) : gset Z := match r with Ok c => links c | Err _ => ∅ end.

(** All or nothing, but for the agent. *)
Lemma NewClientWithJumpHost_grown ju jh jk tu th tk :
  grown 2 (NewClientWithJumpHost ParsePrivateKey ParsePrivateKeyWithPassphrase keyType FingerprintSHA256 ju jh jk tu th tk)
    links_of.
Proof.
  intros w r w' H. unfold NewClientWithJumpHost in H. mstep H as [cfg w0] E0. apply createSSHConfig_grows in E0.
  destruct cfg as [[cfg ki]|e]; [|injection H as <- <-; by eapply grows_le; [|done]; lia].
  mstep H as [d w1] E1. apply grown_dial in E1.
  pose proof (opened_trans _ _ _ _ _ _ _ E0 E1) as G. rewrite union_empty_l_L in G. cbn [held1] in G.
  destruct d as [j|e]; [|injection H as <- <-; by eapply grows_le; [|done]; lia].
  mstep H as [cfg2 w2] E2. apply createSSHConfig_grows in E2. destruct cfg2 as [[cfg2 ki2]|e].
  - mstep H as [t w3] E3. eapply target_loop_grown in E3; [|apply through_grown].
    pose proof (opened_trans _ _ _ _ _ _ _ E2 E3) as G2. rewrite union_empty_l_L in G2. destruct t as [t|e].
    + injection H as <- <-. by destruct (grows_two _ _ _ _ _ (Ok t) _ G G2).
    + mstep H as [ce w4] E4. injection H as <- <-. by apply (grows_two _ _ _ _ _ (Err io_EOF) _ G G2 _ _ E4).
  - mstep H as [ce w4] E4. injection H as <- <-. by apply (grows_two _ _ _ _ _ (Err e) _ G E2 _ _ E4).
Qed.

(** ** A client with its operations *)
Context {SS : Sessions W} {SL : SessionsLaws W}.

Lemma copy_steady read write fuel n : steady read -> (forall s, steady (write s)) ->
  steady (copyWithContext (W := W) read write fuel n).
Proof.
  intros Hr Hw. revert n. induction fuel as [|fuel IH]; intros n; cbn [copyWithContext]; [apply keeps_ret|].
  unfold copy_chunk. keeping.
Qed.

Lemma exec_attempt_steady cmd before l : steady (exec_attempt cmd before l).
Proof. unfold exec_attempt, after_run. keeping. Qed.
Lemma capture_attempt_steady cmd before l : steady (capture_attempt cmd before l).
Proof. unfold capture_attempt, after_run. keeping. Qed.
Lemma upload_attempt_steady fuel l r perm before c : steady (upload_attempt fuel l r perm before c).
Proof.
  unfold upload_attempt, uploadOverSFTPOnce. keeping. apply copy_steady; eauto with keeps.
Qed.

(** The loop of an operation costs at most two connections to the agent for each attempt of
    each reconnection. *)
Lemma retrying_holds {A} w0 k before attempt n c (spent : A) w c' a w' :
  (forall spent l, steady (attempt spent l)) -> holds w0 k (links c) w ->
  retrying targetClient jump_again before attempt n c spent w = ((c', a), w') -> holds w0 (k + n * 20) (links c') w'.
Proof.
  intros Ha. revert k c spent w. induction n as [|n IH]; intros k c spent w HH H; cbn [retrying] in H.
  { injection H as <- <- <-. eapply holds_le; [|done]. lia. }
  mstep H as [ce w1] E1. eapply holds_steady in HH; [|apply ctxErr_steady|exact E1].
  destruct ce; [injection H as <- <- <-; by eapply holds_le; [|done]; lia|].
  mstep H as [o w2] E2. eapply holds_steady in HH; [|apply Ha|exact E2].
  destruct o as [b|failed spent']; [injection H as <- <- <-; by eapply holds_le; [|done]; lia|].
  mstep H as [[c1 e1] w3] E3. pose proof (jump_reconnect_step _ _ _ _ _ _ _ HH E3) as G. destruct e1 as [e|].
  - injection H as <- <- <-. destruct G as [-> G]. destruct HH as [Hd _]. eapply (holds_le _ (k + 20)); [lia|]. split; [exact Hd|by right].
  - destruct G as (-> & _ & G). eapply (holds_le _ (k + 20 + n * 20)); [lia|]. eapply IH, H. split; [|by left]. by destruct G as (_ & Hd & _).
Qed.

(** What a caller does with a client between connecting and closing. *)
Inductive use :=
| UExec (cmd : string)
| UCapture (cmd : string)
| UUpload (fuel : nat) (l r : string)
| UPrivate (fuel : nat) (l r : string) (perm : Z)
| UReconnect.

Local Notation params f := (f ParsePrivateKey ParsePrivateKeyWithPassphrase keyType FingerprintSHA256).

Definition do_use (u : use) (c : jumpHostClient) : M W jumpHostClient :=
  match u with
  | UExec cmd => let! '(c, _) := params jump_Exec cmd c in mret c
  | UCapture cmd => let! '(c, _) := params jump_ExecCapture cmd c in mret c
  | UUpload fuel l r => let! '(c, _) := params jump_Upload fuel l r c in mret c
  | UPrivate fuel l r perm => let! '(c, _) := params jump_UploadPrivate fuel l r perm c in mret c
  | UReconnect => let! '(c, _) := jump_again c in mret c
  end.

Fixpoint do_uses (us : list use) (c : jumpHostClient) : M W jumpHostClient :=
  match us with
  | [] => mret c
  | u :: us => let! c := do_use u c in do_uses us c
  end.

Definition whole_use (ju jh jk tu th tk : string) (us : list use) : M W (option error) :=
  let! r := params NewClientWithJumpHost ju jh jk tu th tk in
  match r with
  | Err err => mret (Some err)
  | Ok c => let! c := do_uses us c in let! '(_, err) := jump_Close c in mret err
  end.

Lemma do_use_holds w0 k u c w c' w' : holds w0 k (links c) w -> do_use u c w = (c', w') -> holds w0 (k + 200) (links c') w'.
Proof.
  intros HH H. destruct u; cbn [do_use] in H; mstep H as [[c1 x] w1] E; injection H as <- <-.
  1: eapply (retrying_holds _ _ _ _ 10) in E; [exact E| |exact HH]; intros; apply exec_attempt_steady.
  1: eapply (retrying_holds _ _ _ _ 10) in E; [exact E| |exact HH]; intros; apply capture_attempt_steady.
  1, 2: eapply (retrying_holds _ _ _ _ 10) in E; [exact E| |exact HH]; intros; apply upload_attempt_steady.
  pose proof (jump_reconnect_step _ _ _ _ _ _ _ HH E) as G. eapply (holds_le _ (k + 20)); [lia|]. destruct x as [e|].
  - destruct G as [-> G], HH as [Hd _]. split; [exact Hd|by right].
  - destruct G as (-> & _ & G). split; [|by left]. by destruct G as (_ & Hd & _).
Qed.

Lemma do_uses_holds w0 k us c w c' w' :
  holds w0 k (links c) w -> do_uses us c w = (c', w') -> holds w0 (k + length us * 200) (links c') w'.
Proof.
  revert k c w. induction us as [|u us IH]; intros k c w HH H; cbn [do_uses] in H.
  { injection H as <- <-. by rewrite Nat.add_0_r. }
  mstep H as [c1 w1] E. eapply do_use_holds in E; [|exact HH]. eapply IH in H; [|exact E].
  eapply holds_le; [|exact H]. cbn [length]. lia.
Qed.

End Connecting.

(** ** What reaches the host *)
Section Log.
Context {W : Type} `{WR : Wire W, KE : !KeyEnv W, CX : !Ctx W, CL : !Clock W, SS : !Sessions W}.
Context {SL : SessionsLaws W}.
Context (ParsePrivateKey : string -> result string).
Context (ParsePrivateKeyWithPassphrase : string -> string -> result string).
Context (keyType FingerprintSHA256 : string -> string).

Local Notation params f := (f ParsePrivateKey ParsePrivateKeyWithPassphrase keyType FingerprintSHA256).

Lemma createSSHConfig_silent u k : keeps remoteLog (params createSSHConfig u k).
Proof. unfold createSSHConfig, expandPath, key_signer, key_passphrase, readPassword, agentPart. keeping. Qed.
Hint Resolve createSSHConfig_silent : keeps.

Lemma reconnect_with_silent {L} (connect : M W (result L)) : keeps remoteLog connect -> keeps remoteLog (reconnect_with connect).
Proof.
  intros Hc. unfold reconnect_with. generalize true, SSHRetryInitialDelay, (None : option error), (Z.to_nat SSHRetryCount).
  intros first d e n. revert first d e. induction n as [|n IH]; intros first d e; cbn [reconnect_loop]; keeping.
Qed.

Lemma redial_silent c : keeps remoteLog (params redial c).
Proof. unfold redial. keeping. Qed.
Lemma redial_both_silent c : keeps remoteLog (params redial_both c).
Proof. unfold redial_both, through. keeping. Qed.
Hint Resolve reconnect_with_silent redial_silent redial_both_silent : keeps.

(** Reconnecting runs nothing and writes nothing. *)
Lemma reconnect_silent c : keeps remoteLog (params reconnect c).
Proof. unfold reconnect. keeping. Qed.
Lemma jump_reconnect_silent c : keeps remoteLog (params jump_reconnect c).
Proof. unfold jump_reconnect. keeping. Qed.

(** *** Commands *)

(** The runs of a command, with their sessions and errors: at most [n], each but the last broken
    off by a connection error; when [fine] the last one succeeded. *)
Definition ran_as (n : nat) (cmd : string) (w w' : W) (fine : Prop) : Prop :=
  exists runs : list (Z * option error),
    remoteLog w' = remoteLog w ++ map (fun r => Began r.1 cmd r.2) runs /\ (length runs <= n)%nat /\
    (forall pre r post, runs = pre ++ r :: post -> post <> [] -> isConnectionError r.2 = true) /\
    (fine -> exists pre s, runs = pre ++ [(s, None)]).

Lemma log_kept {A} (m : M W A) w a w' : keeps remoteLog m -> m w = (a, w') -> remoteLog w' = remoteLog w.
Proof. intros Hm E. specialize (Hm w). by rewrite E in Hm. Qed.

(** One attempt: at most one run, broken off when the attempt is. *)
Definition one_run {A} (cmd : string) (fine : A -> Prop) (attempt : A -> Z -> M W (outcome A)) : Prop :=
  forall spent l w o w', attempt spent l w = (o, w') ->
  exists runs : list (Z * option error),
    remoteLog w' = remoteLog w ++ map (fun r => Began r.1 cmd r.2) runs /\ (length runs <= 1)%nat /\
    match o with
    | Final a => fine a -> exists s, runs = [(s, None)]
    | Broken failed spent => (forall r, r ∈ runs -> isConnectionError r.2 = true) /\ (forall e, ~ fine (failed e)) /\ ~ fine spent
    end.

Section Retried.
Context {C : Type} (link : C -> Z) (again : C -> M W (C * option error)).
Hypothesis again_silent : forall c, keeps remoteLog (again c).

Lemma retrying_runs {A} cmd (fine : A -> Prop) before attempt n c spent w c' a w' :
  one_run cmd fine attempt -> (forall e, ~ fine (before e)) -> ~ fine spent ->
  retrying link again before attempt n c spent w = ((c', a), w') -> ran_as n cmd w w' (fine a).
Proof.
  intros Ha Hb. assert (Hnone : forall m w w' (P : Prop), remoteLog w' = remoteLog w -> ~ P -> ran_as m cmd w w' P).
  { intros m v v' P Hl HP. exists []. rewrite app_nil_r. cbn. repeat split; [done|lia| |done]. by intros [] ? ?. }
  revert c spent w. induction n as [|n IH]; intros c spent w Hs H; cbn [retrying] in H.
  { injection H as <- <- <-. by apply Hnone. }
  mstep H as [ce w1] E1. apply log_kept in E1; [|eauto with keeps].
  destruct ce; [injection H as <- <- <-; by apply Hnone|].
  mstep H as [o w2] E2. apply Ha in E2 as (runs & Hl & Hn & Ho). rewrite E1 in Hl. destruct o as [b|failed spent'].
  - injection H as <- <- <-. exists runs. repeat split; [done|lia| |].
    + intros pre r post -> Hp. rewrite length_app in Hn. cbn in Hn. destruct post; [done|]. cbn in Hn. lia.
    + intros Hf. destruct (Ho Hf) as [s ->]. by exists [], s.
  - destruct Ho as (Hbad & Hfail & Hspent). mstep H as [[c1 e1] w3] E3. apply log_kept in E3; [|done].
    destruct e1 as [e|].
    + injection H as <- <- <-. exists runs. rewrite E3. repeat split; [done|lia| |by intros ?%Hfail].
      intros pre r post -> _. apply Hbad. set_solver.
    + apply IH in H as (rest & Hl' & Hn' & Hbad' & Hfine); [|done]. exists (runs ++ rest).
      rewrite Hl' E3 Hl map_app app_assoc length_app. split; [done|]. split; [lia|]. split.
      * intros pre r post Heq Hp. destruct runs as [|r1 [|r2 runs]]; [exact (Hbad' _ _ _ Heq Hp)| |cbn in Hn; lia].
        destruct pre as [|r' pre]; injection Heq as <- Heq; [apply Hbad; set_solver|]. exact (Hbad' _ _ _ Heq Hp).
      * intros Hf. destruct (Hfine Hf) as (pre & s & ->). exists (runs ++ pre), s. by rewrite app_assoc.
Qed.
End Retried.

(** A run and what follows it. *)
Lemma after_run_runs {A} cmd (fine : A -> Prop) (give last : option error -> A) (m : M W unit) s err w0 w o w' :
  keeps remoteLog m -> (forall e, fine (give e) -> e = None) -> (forall e, fine (last e) -> e = None) ->
  remoteLog w = remoteLog w0 ++ [Began s cmd err] ->
  (let! _ := m in after_run give last err) w = (o, w') ->
  exists runs : list (Z * option error),
    remoteLog w' = remoteLog w0 ++ map (fun r => Began r.1 cmd r.2) runs /\ (length runs <= 1)%nat /\
    match o with
    | Final a => fine a -> exists s, runs = [(s, None)]
    | Broken failed spent => (forall r, r ∈ runs -> isConnectionError r.2 = true) /\ (forall e, ~ fine (failed e)) /\ ~ fine spent
    end.
Proof.
  intros Hm Hg Hla Hl H. mstep H as [u w1] E1. apply log_kept in E1; [|done]. unfold after_run in H.
  mstep H as [ce w2] E2. apply log_kept in E2; [|eauto with keeps]. exists [(s, err)].
  rewrite -E1 -E2 in Hl. destruct ce as [ce|].
  { injection H as <- <-. split; [done|]. split; [cbn; lia|]. by intros Hf%Hg. }
  destruct err as [err|]; [|injection H as <- <-; split; [done|]; split; [cbn; lia|]; intros _; by exists s].
  destruct (isConnectionError (Some err)) eqn:Ec; injection H as <- <-; (split; [done|]; split; [cbn; lia|]).
  - split; [by intros r ->%list_elem_of_singleton|]. split; [by intros e Hf%Hg|by intros Hf%Hla].
  - by intros Hf%Hg.
Qed.

Lemma no_session_runs {A} cmd (fine : A -> Prop) (empty last : option error -> A) err w0 w :
  (forall e, fine (empty e) -> e = None) -> (forall e, fine (last e) -> e = None) -> remoteLog w = remoteLog w0 ->
  exists runs : list (Z * option error),
    remoteLog w = remoteLog w0 ++ map (fun r => Began r.1 cmd r.2) runs /\ (length runs <= 1)%nat /\
    match no_session empty last err with
    | Final a => fine a -> exists s, runs = [(s, None)]
    | Broken failed spent => (forall r, r ∈ runs -> isConnectionError r.2 = true) /\ (forall e, ~ fine (failed e)) /\ ~ fine spent
    end.
Proof.
  intros Hg Hla Hl. exists []. rewrite app_nil_r. split; [done|]. split; [cbn; lia|]. unfold no_session.
  destruct (isConnectionError _); [|by intros Hf%Hg].
  split; [by intros r ?%elem_of_nil|]. split; [by intros e Hf%Hg|by intros Hf%Hla].
Qed.

Lemma exec_one_run cmd : one_run cmd (fun a => a.2 = None) (exec_attempt cmd).
Proof.
  intros sp l w o w' H. unfold exec_attempt in H. mstep H as [s w1] E1. apply log_kept in E1; [|eauto with keeps].
  destruct s as [s|e]; [|injection H as <- <-; by apply no_session_runs].
  mstep H as [[out err] w2] E2. apply combinedOutput_says in E2. rewrite E1 in E2.
  by apply (after_run_runs cmd (fun a => a.2 = None) (pair out) (pair "") (sessionClose s) s err _ w2); eauto with keeps.
Qed.

Lemma capture_one_run cmd : one_run cmd (fun a => a.2 = None) (capture_attempt cmd).
Proof.
  intros sp l w o w' H. unfold capture_attempt in H. mstep H as [s w1] E1. apply log_kept in E1; [|eauto with keeps].
  destruct s as [s|e]; [|injection H as <- <-; by apply no_session_runs].
  mstep H as [[out err] w2] E2. apply sessionRun_says in E2. rewrite E1 in E2.
  by apply (after_run_runs cmd (fun a => a.2 = None) (pair out) (pair out) (sessionClose s) s err _ w2); eauto with keeps.
Qed.

(** Both methods, for a client that reconnects without running anything. *)
Lemma Exec_runs {C} (link : C -> Z) again cmd c w c' out err w' : (forall c, keeps remoteLog (again c)) ->
  Exec link again cmd c w = ((c', (out, err)), w') -> ran_as 10 cmd w w' (err = None).
Proof.
  intros Hs. by apply (retrying_runs _ _ Hs cmd (fun a => a.2 = None) _ _ 10 c _ _ _ (out, err)); [apply exec_one_run|..].
Qed.
Lemma ExecCapture_runs {C} (link : C -> Z) again cmd c w c' outs err w' : (forall c, keeps remoteLog (again c)) ->
  ExecCapture link again cmd c w = ((c', (outs, err)), w') -> ran_as 10 cmd w w' (err = None).
Proof.
  intros Hs. by apply (retrying_runs _ _ Hs cmd (fun a => a.2 = None) _ _ 10 c _ _ _ (outs, err)); [apply capture_one_run|..].
Qed.

(** C24: A command is sent to the host at most ten times, each time but the last broken off by a
    connection error, by either client and with either method; nil is returned only after a
    run that succeeded. *)
Theorem legacy_Exec_runs cmd w w' :
  (forall c c' out err, params client_Exec cmd c w = ((c', (out, err)), w') -> ran_as 10 cmd w w' (err = None)) /\
  (forall c c' outs err, params client_ExecCapture cmd c w = ((c', (outs, err)), w') -> ran_as 10 cmd w w' (err = None)) /\
  (forall c c' out err, params jump_Exec cmd c w = ((c', (out, err)), w') -> ran_as 10 cmd w w' (err = None)) /\
  (forall c c' outs err, params jump_ExecCapture cmd c w = ((c', (outs, err)), w') -> ran_as 10 cmd w w' (err = None)).
Proof.
  repeat split; intros c c' out err H; first [eapply Exec_runs, H|eapply ExecCapture_runs, H];
    first [apply reconnect_silent|apply jump_reconnect_silent].
Qed.

(** *** Uploads *)
Context {LR : LocalReads W}.

(** Every byte of [path] is written while its permissions are [perm]: they were set since the
    file was created. *)
Fixpoint guarded (path : string) (perm : Z) (safe : bool) (log : list revent) : bool :=
  match log with
  | [] => true
  | Created _ _ :: log => guarded path perm false log
  | Moded p m None :: log => guarded path perm (String.eqb p path && (m =? perm)) log
  | Wrote _ _ :: log => safe && guarded path perm safe log
  | _ :: log => guarded path perm safe log
  end.

Lemma guarded_app path perm l1 l2 safe : guarded path perm safe l1 = true -> (forall safe, guarded path perm safe l2 = true) ->
  guarded path perm safe (l1 ++ l2) = true.
Proof.
  intros H1 H2. revert safe H1. induction l1 as [|e l1 IH]; intros safe H1; [apply H2|].
  destruct e as [| | p m [err|]| |]; cbn [guarded app] in *; try by apply IH.
  apply andb_true_iff in H1 as [-> H1]. by apply IH.
Qed.

Lemma guarded_writes path perm g writes : guarded path perm true (map (Wrote g) writes) = true.
Proof. by induction writes. Qed.

Lemma whole_substring s : String.substring 0 (String.length s) s = s.
Proof. induction s as [|a s IH]; [done|]. cbn. by rewrite IH. Qed.

Lemma unread_kept {A} (m : M W A) w a w' : keeps unread m -> m w = (a, w') -> unread w' = unread w.
Proof. intros Hm E. specialize (Hm w). by rewrite E in Hm. Qed.

(** A chunk is written in full, or there is an error. *)
Lemma copy_chunk_spec g data w nw ew w' : copy_chunk (sftpWrite g) data w = ((nw, ew), w') ->
  unread w' = unread w /\ exists written, remoteLog w' = remoteLog w ++ [Wrote g written] /\ (ew = None -> written = data).
Proof.
  intros H. unfold copy_chunk in H. mstep H as [[n e] w1] E. injection H as <- <- <-.
  split; [by eapply unread_kept; [apply unread_write|]|]. apply sftpWrite_says in E. cbn [fst] in E.
  eexists. split; [done|]. destruct ((n <? 0) || _) eqn:Hb; [by destruct e|]. destruct e; [done|].
  destruct (Z.of_nat _ =? n) eqn:Hn; [|done]. intros _. apply Z.eqb_eq in Hn. rewrite -Hn Nat2Z.id. apply whole_substring.
Qed.

(** What is copied is written in order; all of it when there is no error; and a loop with more
    rounds than the file has bytes ends. *)
Lemma copyWithContext_spec f g fuel n w res w' :
  copyWithContext (readLocal f) (sftpWrite g) fuel n w = (res, w') ->
  exists writes, remoteLog w' = remoteLog w ++ map (Wrote g) writes /\
    (forall k, res = Some (k, None) -> foldr String.append "" writes = unread w f) /\
    ((String.length (unread w f) < fuel)%nat -> res <> None).
Proof.
  revert n w. induction fuel as [|fuel IH]; intros n w H; cbn [copyWithContext] in H.
  { injection H as <- <-. exists []. rewrite app_nil_r. split; [done|]. split; [done|lia]. }
  mstep H as [ce w1] E1. pose proof (unread_kept _ _ _ _ unread_ctx E1) as U1. apply log_kept in E1; [|eauto with keeps].
  destruct ce; [injection H as <- <-; exists []; by rewrite app_nil_r|].
  mstep H as [[data er] w2] E2. pose proof (read_takes _ _ _ _ _ E2) as Hd. rewrite U1 in Hd.
  pose proof (log_kept _ _ _ _ (readLocal_silent f) E2) as L2. mstep H as [[nw ew] w3] E3.
  assert (Hw : unread w3 = unread w2 /\ exists writes, remoteLog w3 = remoteLog w2 ++ map (Wrote g) writes /\
    (ew = None -> foldr String.append "" writes = data)).
  { destruct (0 <? Z.of_nat (String.length data)) eqn:Hz.
    - apply copy_chunk_spec in E3 as (Hu & s & Hl & Hs). split; [done|]. exists [s]. split; [done|].
      intros ->%Hs. cbn. apply str_app_nil_r.
    - injection E3 as <- <- <-. split; [done|]. exists []. rewrite app_nil_r. split; [done|]. intros _.
      by destruct data. }
  destruct Hw as (U3 & ws & L3 & Hws). rewrite L2 E1 in L3.
  destruct ew as [e|]; [injection H as <- <-; exists ws; done|]. specialize (Hws eq_refl). destruct er as [er|].
  - injection H as <- <-. exists ws. split; [done|]. split; [|done]. intros k [= _ Hk].
    destruct (bool_decide_reflect (er = io_EOF)) as [->|]; [|done]. apply read_end in E2.
    by rewrite Hws Hd E2 str_app_nil_r.
  - apply IH in H as (ws' & L4 & Hall & Hfuel). exists (ws ++ ws').
    rewrite L4 L3 map_app app_assoc foldr_app. split; [done|]. split.
    + intros k Hk. apply Hall in Hk. rewrite Hk Hd U3 -Hws. clear. induction ws as [|s ws IH]; [done|].
      cbn. by rewrite IH str_app_assoc.
    + intros Hlen. apply Hfuel. apply read_some in E2. rewrite Hd str_length_app in Hlen. rewrite U3.
      assert (String.length data <> 0%nat) by (by destruct data). lia.
Qed.

(** One upload in full: the file is created, its permissions are set when they are asked for,
    and what the local file held when it was opened is written. *)
Definition uploaded (l r : string) (perm : option Z) (log : list revent) : Prop :=
  exists g writes w1 f w2,
    log = Created r (Ok g) :: match perm with Some p => [Moded r p None] | None => [] end ++ map (Wrote g) writes /\
    openLocal l w1 = (Ok f, w2) /\ foldr String.append "" writes = unread w2 f.

(** The fuel is enough for the local file. *)
Definition enough (fuel : nat) (l : string) : Prop :=
  forall w f w', openLocal l w = (Ok f, w') -> (String.length (unread w' f) < fuel)%nat.

Lemma log_then {A B} (m : M W A) (k : A -> M W B) w b w' :
  keeps remoteLog m -> mbind k m w = (b, w') -> exists a w1, remoteLog w1 = remoteLog w /\ m w = (a, w1) /\ k a w1 = (b, w').
Proof. intros Hm H. mstep H as [a w1] E. exists a, w1. split; [by eapply log_kept|done]. Qed.

Lemma upload_once_log fuel sc l r perm w res w' : uploadOverSFTPOnce fuel sc l r perm w = (res, w') ->
  exists new, remoteLog w' = remoteLog w ++ new /\
    (forall p safe, perm = Some p -> guarded r p safe new = true) /\
    (res = Some None -> uploaded l r perm new) /\ (enough fuel l -> res <> None).
Proof.
  intros H. unfold uploadOverSFTPOnce in H. mstep H as [lf w1] E1. pose proof (log_kept _ _ _ _ (openLocal_silent l) E1) as L1.
  destruct lf as [lf|e]; [|injection H as <- <-; exists []; by rewrite L1 app_nil_r].
  mstep H as [g w2] E2. pose proof (unread_kept _ _ _ _ (unread_create sc r) E2) as U2. apply sftpCreate_says in E2.
  rewrite L1 in E2. destruct g as [g|e].
  2:{ apply log_then in H as (u & w3 & L3 & _ & [= <- <-]); [|eauto with keeps]. exists [Created r (Err e)].
      by rewrite L3 E2. }
  mstep H as [md w3] E3.
  assert (Hm : unread w3 = unread w2 /\ remoteLog w3 = remoteLog w2 ++ match perm with Some p => [Moded r p md] | None => [] end).
  { destruct perm as [p|]; [|injection E3 as <- <-; by rewrite app_nil_r].
    split; [by eapply unread_kept; [apply unread_chmod|]|by apply sftpChmod_says in E3]. }
  destruct Hm as [U3 L3]. rewrite E2 -app_assoc in L3. destruct md as [e|].
  { mstep H as [re w4] E4. apply sftpRemove_says in E4.
    apply log_then in H as (u & w5 & L5 & _ & H); [|eauto with keeps].
    apply log_then in H as (u' & w6 & L6 & _ & [= <- <-]); [|eauto with keeps].
    exists ([Created r (Ok g)] ++ match perm with Some p => [Moded r p (Some e)] | None => [] end ++ [Removed r re]).
    rewrite L6 L5 E4 L3 -!app_assoc. split; [done|]. split; [by intros p safe ->|done]. }
  mstep H as [cp w4] E4. apply copyWithContext_spec in E4 as (ws & L4 & Hall & Hfuel).
  apply log_then in H as (u & w5 & L5 & _ & H); [|eauto with keeps].
  apply log_then in H as (u' & w6 & L6 & _ & [= Hres <-]); [|eauto with keeps].
  exists (Created r (Ok g) :: match perm with Some p => [Moded r p None] | None => [] end ++ map (Wrote g) ws).
  rewrite L6 L5 L4 L3 -!app_assoc. split; [by destruct perm|]. split; [|split].
  - intros p safe ->. cbn [guarded app]. rewrite String.eqb_refl Z.eqb_refl. apply guarded_writes.
  - intros ->. exists g, ws, w, lf, w1. split; [done|]. split; [done|].
    destruct cp as [[k [e|]]|]; [done| |done]. by rewrite (Hall k eq_refl) U3 U2.
  - intros He. apply He in E1. rewrite -U2 -U3 in E1. apply Hfuel in E1. destruct cp as [[k [e|]]|]; by subst.
Qed.

(** What an attempt decides about the whole upload. *)
Lemma upload_attempt_log fuel l r perm before c w o w' : upload_attempt fuel l r perm before c w = (o, w') ->
  exists new, remoteLog w' = remoteLog w ++ new /\
    (forall p safe, perm = Some p -> guarded r p safe new = true) /\
    match o with
    | Final a => (a = Some None -> uploaded l r perm new) /\ (enough fuel l -> a <> None)
    | Broken failed spent => (forall e, exists e', failed e = Some (Some e')) /\ exists e', spent = Some (Some e')
    end.
Proof.
  intros H. unfold upload_attempt in H. mstep H as [sc w1] E1. apply log_kept in E1; [|eauto with keeps].
  destruct sc as [sc|e].
  - mstep H as [res w2] E2. apply upload_once_log in E2 as (new & L2 & Hg & Hup & He).
    apply log_then in H as (u & w3 & L3 & _ & [= Ho <-]); [|eauto with keeps]. exists new.
    rewrite L3 L2 E1. split; [done|]. split; [done|]. destruct res as [[err|]|]; [|by subst|by subst].
    destruct (isConnectionError (Some err)) eqn:Ec; unfold isConnectionError in Ec; rewrite Ec in Ho; subst; [|done].
    by split; [intros e'; eexists|eexists].
  - destruct (isConnectionError (Some e)) eqn:Ec; injection H as <- <-; exists []; rewrite E1 app_nil_r;
      (split; [done|]); (split; [done|]); [|done]. by split; [intros e'; eexists|eexists].
Qed.

(** A whole upload: nothing is written outside the permissions that were asked for, success
    means that the last attempt uploaded the file, and with enough fuel there is a result. *)
Definition upload_result (fuel : nat) (l r : string) (perm : option Z) (w w' : W) (res : option (option error)) : Prop :=
  exists new, remoteLog w' = remoteLog w ++ new /\
    (forall p safe, perm = Some p -> guarded r p safe new = true) /\
    (res = Some None -> exists pre last, new = pre ++ last /\ uploaded l r perm last) /\ (enough fuel l -> res <> None).

Lemma upload_result_error fuel l r perm w w' e : remoteLog w' = remoteLog w -> upload_result fuel l r perm w w' (Some (Some e)).
Proof. intros Hl. exists []. by rewrite app_nil_r. Qed.

Lemma uploads_spec {C} (link : C -> Z) again fuel l r perm c w c' res w' : (forall c, keeps remoteLog (again c)) ->
  uploadWithSFTPRetries link again fuel l r perm c w = ((c', res), w') -> upload_result fuel l r perm w w' res.
Proof.
  intros Hs. unfold uploadWithSFTPRetries. generalize (spent_error "upload" None). generalize ten as n.
  intros n. revert c w. induction n as [|n IH]; intros c w spent H; cbn [retrying] in H.
  { injection H as <- <- <-. by apply upload_result_error. }
  mstep H as [ce w1] E1. apply log_kept in E1; [|eauto with keeps].
  destruct ce; [injection H as <- <- <-; by apply upload_result_error|].
  mstep H as [o w2] E2. apply upload_attempt_log in E2 as (new & L2 & Hg & Ho). rewrite E1 in L2.
  destruct o as [a|failed spent'].
  { injection H as <- <- <-. exists new. split; [done|]. split; [done|]. split; [|apply Ho]. intros Ha%Ho. by exists [], new. }
  destruct Ho as [Hfail [sp ->]]. mstep H as [[c1 e1] w3] E3. apply log_kept in E3; [|done]. destruct e1 as [e|].
  { injection H as <- <- <-. destruct (Hfail e) as [e' ->]. exists new. by rewrite E3. }
  apply IH in H as (new' & L & Hg' & Hup & Hf). exists (new ++ new'). rewrite L E3 L2 app_assoc. split; [done|].
  split; [intros p safe Hp; apply guarded_app; [by apply Hg|intros safe'; by apply Hg']|]. split; [|done].
  intros (pre & lst & -> & Hl)%Hup. exists (new ++ pre), lst. by rewrite app_assoc.
Qed.

(** C16: A private upload by either client writes no byte of the remote file before its permissions
    are those asked for, whatever fails and however often it starts again; nil is returned only
    when the last attempt created the file, set them and wrote all the local file held; and
    with fuel for the file it returns. *)
Theorem UploadPrivate_guarded fuel l r perm w w' :
  (forall c c' res, params client_UploadPrivate fuel l r perm c w = ((c', res), w') ->
     upload_result fuel l r (Some (Z.land perm ModePerm)) w w' res) /\
  (forall c c' res, params jump_UploadPrivate fuel l r perm c w = ((c', res), w') ->
     upload_result fuel l r (Some (Z.land perm ModePerm)) w w' res).
Proof. split; intros c c' res H; eapply uploads_spec, H; [apply reconnect_silent|apply jump_reconnect_silent]. Qed.
End Log.
