(* ===== verification/LegacySshRuns.v ===== *)
(** The legacy SSH clients on a network in memory: runs that reconnect, with what they leave
    behind. *)
From S2P Require Import Prelude Errors Retry SshConn SshDial Kube Kit LegacySsh LegacySshOps LegacySshSafety.

Local Open Scope Z_scope.
Local Open Scope go_scope.

(** A host over the [wire] of [SshDial]: [answers] are those of the commands that are run, then
    all succeed; [ticks] timers fire before the context is done; every local file holds [file]. *)
Record netHost := mkHost {
  nh_wire : wire;
  nh_log : list revent;
  nh_answers : list (string * option error);
  nh_ticks : nat;
  nh_file : string;
  nh_unread : string
}.

Definition on_wire {A} (m : M wire A) : M netHost A := fun h =>
  let '(a, w) := m (nh_wire h) in (a, mkHost w (nh_log h) (nh_answers h) (nh_ticks h) (nh_file h) (nh_unread h)).

Definition say (e : revent) (h : netHost) : netHost :=
  mkHost (nh_wire h) (nh_log h ++ [e]) (nh_answers h) (nh_ticks h) (nh_file h) (nh_unread h).

Definition set_unread (s : string) (h : netHost) : netHost :=
  mkHost (nh_wire h) (nh_log h) (nh_answers h) (nh_ticks h) (nh_file h) s.

Definition run_answer (h : netHost) : (string * option error) * netHost :=
  match nh_answers h with
  | [] => (("", None), h)
  | a :: l => (a, mkHost (nh_wire h) (nh_log h) l (nh_ticks h) (nh_file h) (nh_unread h))
  end.

#[export] Instance host_wire : Wire netHost := {|
  opened := fun h => opened (nh_wire h);
  authSock := fun h => authSock (nh_wire h);
  dialUnix := fun s => on_wire (dialUnix s);
  agentSigners := fun c => on_wire (agentSigners c);
  dialTCP := fun a => on_wire (dialTCP a);
  clientDial := fun j a => on_wire (clientDial j a);
  jumpLost := on_wire jumpLost;
  newClientConn := fun c a cfg => on_wire (newClientConn c a cfg);
  closeRes := fun c => on_wire (closeRes c)
|}.

Lemma on_wire_inv {A} (m : M wire A) h a h' : on_wire m h = (a, h') -> m (nh_wire h) = (a, nh_wire h').
Proof. unfold on_wire. destruct (m (nh_wire h)) as [b w]. by intros [= <- <-]. Qed.

#[export] Instance host_wire_laws : WireLaws netHost.
Proof.
  split; intros *; intros H%on_wire_inv; revert H;
    [apply (unix_law (W := wire))|apply (signers_law (W := wire))|apply (tcp_law (W := wire))|apply (client_law (W := wire))
    |apply (jump_law (W := wire))|apply (handshake_law (W := wire))|apply (close_law (W := wire))].
Qed.

#[export] Instance host_keys : KeyEnv netHost := {|
  sshDial := fun a _ => on_wire (dialTCP a);
  currentUser := mret (Ok "/root");
  readKeyFile := fun f => mret (Ok f);
  envPassphrase := fun _ => "";
  isTerminal := fun _ => mret false;
  openTty := mret (Err (Errorf "no such device"));
  terminalPassword := fun _ => mret (Err io_EOF);
  closeTty := fun _ => mret tt
|}.

#[export] Instance host_ctx : Ctx netHost := {|
  ctxErr := gets (fun h => if nh_ticks h is O then Some context_DeadlineExceeded else None);
  timerFires := fun _ h =>
    match nh_ticks h with
    | O => (false, h)
    | S n => (negb (n =? 0)%nat, mkHost (nh_wire h) (nh_log h) (nh_answers h) n (nh_file h) (nh_unread h))
    end
|}.

#[export] Instance host_ctx_laws : CtxLaws netHost.
Proof.
  split. intros z h h'. cbn. unfold gets. destruct (nh_ticks h) as [|[|n]] eqn:E; cbn; [| |done]; intros [= <-];
    cbn; rewrite ?E; eauto.
Qed.

#[export] Instance host_clock : Clock netHost := {| now := mret 0; sleep := fun _ => mret tt |}.

Lemma wire_open_sock base w : wi_sock (wire_open base w).2 = wi_sock w.
Proof. unfold wire_open. by destruct (wi_script w) as [|[] ?]. Qed.

Lemma on_wire_sock {A} (m : M wire A) : keeps authSock m -> keeps (authSock (W := netHost)) (on_wire m).
Proof. intros Hm h. unfold on_wire. specialize (Hm (nh_wire h)). by destruct (m (nh_wire h)). Qed.

#[export] Instance host_keys_laws : KeyEnvLaws netHost.
Proof.
  split; try done; try (intros; apply on_wire_sock; intros w; first [apply wire_open_sock|done]).
  - intros a cfg h r h' H%on_wire_inv. revert H. apply (tcp_law (W := wire)).
  - intros z h. cbn. by destruct (nh_ticks h).
Qed.

#[export] Instance host_sessions : Sessions netHost := {|
  remoteLog := nh_log;
  newSession := fun l => mret (Ok l);
  combinedOutput := fun s cmd h => let '((out, err), h) := run_answer h in ((out, err), say (Began s cmd err) h);
  sessionRun := fun s cmd h => let '((out, err), h) := run_answer h in ((out, "", err), say (Began s cmd err) h);
  sessionClose := fun _ => mret tt;
  sftpNewClient := fun l => mret (Ok l);
  sftpClose := fun _ => mret tt;
  sftpCreate := fun _ p h => (Ok 1, say (Created p (Ok 1)) h);
  sftpChmod := fun _ p m h => let '((_, err), h) := run_answer h in (err, say (Moded p m err) h);
  sftpRemove := fun _ p h => (None, say (Removed p None) h);
  sftpWrite := fun f s h =>
    let '((_, err), h) := run_answer h in
    let n := match err with Some _ => 1 | None => Z.of_nat (String.length s) end in
    ((n, err), say (Wrote f (String.substring 0 (Z.to_nat n) s)) h);
  sftpCloseFile := fun _ => mret tt;
  openLocal := fun _ h => (Ok 0, set_unread (nh_file h) h);
  readLocal := fun _ h =>
    if String.eqb (nh_unread h) "" then (("", Some io_EOF), h) else ((nh_unread h, None), set_unread "" h);
  closeLocal := fun _ => mret tt
|}.

Lemma run_answer_keeps h : nh_wire (run_answer h).2 = nh_wire h /\ nh_log (run_answer h).2 = nh_log h /\
  nh_unread (run_answer h).2 = nh_unread h.
Proof. unfold run_answer. by destruct (nh_answers h). Qed.

(** The cases of a call that answers. *)
Ltac answered := cbn; match goal with h : netHost |- _ => pose proof (run_answer_keeps h) as (Hw & Hl & Hu);
  destruct (run_answer h) as [[? ?] ?]; cbn in * end; congruence.

Lemma on_wire_log {A} (m : M wire A) : keeps (remoteLog (W := netHost)) (on_wire m).
Proof. intros h. unfold on_wire. by destruct (m (nh_wire h)). Qed.

#[export] Instance host_sessions_laws : SessionsLaws netHost.
Proof.
  split; try done; try (intros; apply on_wire_log).
  - intros s cmd h. answered.
  - intros s cmd h. answered.
  - intros c p m h. answered.
  - intros f s h. answered.
  - intros f h. cbn. by destruct (String.eqb _ _).
  - intros s cmd h a h'. cbn. pose proof (run_answer_keeps h) as (_ & Hl & _). destruct (run_answer h) as [[o e] h1].
    intros [= <- <-]. cbn in *. by rewrite Hl.
  - intros s cmd h a h'. cbn. pose proof (run_answer_keeps h) as (_ & Hl & _). destruct (run_answer h) as [[o e] h1].
    intros [= <- <-]. cbn in *. by rewrite Hl.
  - by intros c p h a h' [= <- <-].
  - intros c p m h a h'. cbn. pose proof (run_answer_keeps h) as (_ & Hl & _). destruct (run_answer h) as [[o e] h1].
    intros [= <- <-]. cbn in *. by rewrite Hl.
  - by intros c p h a h' [= <- <-].
  - intros f s h a h'. cbn. pose proof (run_answer_keeps h) as (_ & Hl & _). destruct (run_answer h) as [[o e] h1].
    intros [= <- <-]. cbn in *. by rewrite Hl.
  - intros f h. cbn. by destruct (String.eqb _ _).
  - intros z h. cbn. by destruct (nh_ticks h).
Qed.

#[export] Instance host_reads : LocalReads netHost.
Proof.
  refine {| unread := fun h _ => nh_unread h |}; cbn.
  - intros f h s er h'. destruct (String.eqb_spec (nh_unread h) "") as [E|E]; intros [= <- <- <-]; [done|].
    cbn. by rewrite str_app_nil_r.
  - intros f h s h'. destruct (String.eqb_spec (nh_unread h) "") as [E|E]; [done|]. by intros [= <- <-].
  - intros f h s h'. destruct (String.eqb_spec (nh_unread h) "") as [E|E]; [|done]. by intros [= <- <-].
  - done.
  - intros c p m h. pose proof (run_answer_keeps h) as (_ & _ & Hu). cbn. destruct (run_answer h) as [[o e] h1]. cbn in *.
    by rewrite Hu.
  - intros f s h. pose proof (run_answer_keeps h) as (_ & _ & Hu). cbn. destruct (run_answer h) as [[o e] h1]. cbn in *.
    by rewrite Hu.
  - done.
Defined.

(** ** Runs *)
Definition ed25519 (_ : string) : string := "ssh-ed25519".
Definition fp (k : string) : string := "SHA256:" +:+ k.

Local Notation on f := (f plain_key SshDial.no_passphrase ed25519 fp).

(** A host with the agent at [sock], on which the commands are answered as given. *)
Definition host_with (sock : string) (answers : list (string * option error)) : netHost :=
  mkHost (mkWire {[100]} sock [] [] 3) [] answers 20 "-----BEGIN KEY-----" "".

Definition direct : client := mkDirect 100 true "ubuntu" "10.0.0.1" "/root/.ssh/id".
Definition jumped : jumpHostClient :=
  mkJumpHost 100 101 true "ubuntu" "bastion" "/root/.ssh/id" "cloud" "10.0.0.2" "/root/.ssh/id".

Definition visit : list use := [UExec "uptime"; UPrivate 50 "/tmp/key" "/etc/key" 384; UReconnect].
Local Notation visit_from sock :=
  (on whole_use "ubuntu" "bastion" "/root/.ssh/id" "cloud" "10.0.0.2" "/root/.ssh/id" visit
     (host_with sock [("up", Some io_EOF)])).


(** With an agent every connection leaves one connection to it open: two for the client and two
    for each of its two reconnections. *)
Example agent_connections_leak : size (opened (visit_from "/agent").2) = 7%nat.
Proof. by vm_compute. Qed.

(** A command that did its work before the connection was lost is run a second time. *)
Definition lost_reply : list (string * option error) := [("", Some io_EOF); ("user exists", Some (Leaf (KExit 9) "exit status 9"))].

Example command_runs_twice :
  nh_log (on client_Exec "useradd e2e" direct (host_with "" lost_reply)).2 =
  [Began 100 "useradd e2e" (Some io_EOF); Began 1 "useradd e2e" (Some (Leaf (KExit 9) "exit status 9"))].
Proof. by vm_compute. Qed.

Lemma legacy_Exec_runs_witness :
  ran_as 10 "useradd e2e" (host_with "" lost_reply) (on client_Exec "useradd e2e" direct (host_with "" lost_reply)).2 False.
Proof.
  destruct (on client_Exec "useradd e2e" direct (host_with "" lost_reply)) as [[c' [out err]] w'] eqn:E.
  destruct (proj1 (on legacy_Exec_runs "useradd e2e" _ _) _ _ _ _ E) as (runs & Hl & Hn & Hbad & _).
  by exists runs.
Defined.

(** When the last attempt breaks off, [Exec] returns no output at all, [ExecCapture] that of the
    last run. *)
Definition never_through : list (string * option error) := repeat ("half done", Some io_EOF) 10.

Example last_output_lost :
  (on client_Exec "make" direct (host_with "" never_through)).1.2.1 = "" /\
  (on client_ExecCapture "make" direct (host_with "" never_through)).1.2.1 = ("half done", "").
Proof. by vm_compute. Qed.

(** An upload that breaks off in the middle starts again. *)
Definition broken_copy : list (string * option error) := [("", None); ("", Some io_EOF)].

Example private_upload_log :
  nh_log (on jump_UploadPrivate 50 "/tmp/key" "/etc/key" 33152 jumped (host_with "" broken_copy)).2 =
  [Created "/etc/key" (Ok 1); Moded "/etc/key" 384 None; Wrote 1 "-";
   Created "/etc/key" (Ok 1); Moded "/etc/key" 384 None; Wrote 1 "-----BEGIN KEY-----"].
Proof. by vm_compute. Qed.

Lemma UploadPrivate_guarded_witness :
  upload_result 50 "/tmp/key" "/etc/key" (Some 384) (host_with "" broken_copy)
    (on jump_UploadPrivate 50 "/tmp/key" "/etc/key" 33152 jumped (host_with "" broken_copy)).2 (Some None).
Proof.
  destruct (on jump_UploadPrivate 50 "/tmp/key" "/etc/key" 33152 jumped (host_with "" broken_copy)) as [[c' res] w'] eqn:E.
  pose proof (proj2 (on UploadPrivate_guarded 50%nat "/tmp/key" "/etc/key" 33152 _ _) _ _ _ E) as H.
  assert (Hr : res = Some None) by (apply (f_equal (fun x => x.1.2)) in E; by vm_compute in E).
  by rewrite Hr in H.
Defined.
