(* ===== verification/LegacyTunnel.v ===== *)
(** The tunnels of the legacy SSH clients ([src/internal/infrastructure/ssh]: [tunnel.go], and
    [runTunnelLoop] and [handleTunnelConnection] of [client.go]): finding a local port and
    opening a tunnel with retries, and the running tunnel, its accept loop, handlers, copying
    goroutines and callers of [stop], as a machine whose actions are atomic steps. *)
From S2P Require Import Prelude Errors Retry SshConn SshDial Kube Kit LegacySsh.

Local Open Scope Z_scope.
Local Open Scope go_scope.

(** ** Opening a tunnel *)

(** [net.Listen] on an address of [127.0.0.1]; listeners are named by their ports. *)
Class Listens (W : Type) := {
  listening : W -> gset Z;
  listen : string -> M W (result Z);
  unlisten : Z -> M W (option error)
}.

(** A listener is new and has the port that was asked for; port 0 is any. *)
Class ListensLaws (W : Type) `{Ctx W, Listens W} : Prop := {
  listen_ok a w p w' : listen a w = (Ok p, w') -> p ∉ listening w /\ listening w' = {[p]} ∪ listening w;
  listen_err a w e w' : listen a w = (Err e, w') -> listening w' = listening w;
  listen_port p w q w' : listen ("127.0.0.1:" +:+ pretty p) w = (Ok q, w') -> p = 0 \/ q = p;
  unlisten_law p w e w' : unlisten p w = (e, w') -> listening w' = listening w ∖ {[p]};
  listening_ctx : keeps listening ctxErr;
  listening_timer z : keeps listening (timerFires z)
}.

(** [StopFunc] is given by the listener it closes. *)
Record TunnelInfo := mkTunnelInfo { LocalPort : Z; RemotePort : Z; StopFunc : Z }.

Section OpenTunnel.
Context {W : Type} `{CX : !Ctx W, LN : !Listens W}.

Definition findFreePort : M W (result Z) :=
  let! l := listen "127.0.0.1:0" in
  match l with
  | Err err => mret (Err err)
  | Ok port => let! _ := unlisten port in mret (Ok port)
  end.

(** The start of [runTunnelLoop] and of [StartTunnel]: the listener the tunnel runs on. *)
Definition start_tunnel (localPort : string) : M W (result Z) :=
  let! ce := ctxErr in
  match ce with
  | Some err => mret (Err (ErrorfW "context error before starting tunnel: " err ""))
  | None =>
      let! l := listen ("127.0.0.1:" +:+ localPort) in
      mret match l with
           | Err err => Err (ErrorfW ("failed to listen on local port " +:+ localPort +:+ ": ") err "")
           | Ok l => Ok l
           end
  end.

Fixpoint open_loop (remotePort : Z) (left : nat) (first : bool) (delay : Z) (lastErr : option error)
    : M W (result TunnelInfo) :=
  match left with
  | O => mret (Err (ErrorfWn ("failed to establish SSH tunnel after " +:+ pretty SSHRetryCount +:+ " attempts: ") lastErr ""))
  | S left =>
      let! go := if first then mret true else timerFires delay in
      if go : bool then
        let delay := if first then delay else longer delay in
        let! p := findFreePort in
        match p with
        | Err err => open_loop remotePort left false delay (Some (ErrorfW "failed to find free local port: " err ""))
        | Ok localPort =>
            let! stop := start_tunnel (pretty localPort) in
            match stop with
            | Err err =>
                open_loop remotePort left false delay
                  (Some (ErrorfW ("failed to start SSH tunnel (local:" +:+ pretty localPort +:+ " -> remote:" +:+
                                  pretty remotePort +:+ "): ") err ""))
            | Ok l => mret (Ok (mkTunnelInfo localPort remotePort l))
            end
        end
      else
        let! ce := ctxErr in
        mret (Err (ErrorfWn "context cancelled while retrying tunnel establishment: " ce ""))
  end.

(** The [*strconv.NumError]: digits that [Atoi] refuses are out of range. *)
Definition atoi_error (s : string) : error :=
  let digits := match s with String c rest => if Ascii.eqb c "-" || Ascii.eqb c "+" then rest else s | EmptyString => s end in
  Errorf ("strconv.Atoi: parsing " +:+ quote s +:+ ": " +:+
          if negb (String.eqb digits "") && bool_decide (is_Some (all_digits 0 digits)) then "value out of range" else "invalid syntax").

Definition openTunnel (remotePort : string) : M W (result TunnelInfo) :=
  match Atoi remotePort with
  | None => mret (Err (ErrorfW ("invalid remote port " +:+ remotePort +:+ ": ") (atoi_error remotePort) ""))
  | Some port => open_loop port (Z.to_nat SSHRetryCount) true SSHRetryInitialDelay None
  end.

(** [EstablishSSHTunnel], and [OpenTunnel] of both clients. *)
Definition EstablishSSHTunnel (remotePort : string) : M W (result TunnelInfo) := openTunnel remotePort.

Context {LL : ListensLaws W}.

(** What is listening: a listener is new, or nothing has changed. *)
Lemma findFreePort_listening w r w' : findFreePort w = (r, w') -> listening w' = listening w.
Proof.
  intros H. unfold findFreePort in H. mstep H as [l w1] E1. destruct l as [p|e].
  - apply listen_ok in E1 as [Hp Ho]. mstep H as [e w2] E2. apply unlisten_law in E2. injection H as <- <-.
    rewrite E2 Ho. set_solver.
  - apply listen_err in E1. by injection H as <- <-.
Qed.

Lemma start_tunnel_listening p w r w' : start_tunnel (pretty p) w = (r, w') ->
  match r with
  | Ok q => q ∉ listening w /\ listening w' = {[q]} ∪ listening w /\ (p = 0 \/ q = p)
  | Err _ => listening w' = listening w
  end.
Proof.
  intros H. unfold start_tunnel in H. mstep H as [ce w1] E1. pose proof (listening_ctx w) as Hc. rewrite E1 in Hc. cbn in Hc.
  destruct ce; [by injection H as <- <-|]. mstep H as [l w2] E2. destruct l as [q|e]; injection H as <- <-.
  - pose proof (listen_port _ _ _ _ E2). apply listen_ok in E2. rewrite -Hc. naive_solver.
  - apply listen_err in E2. congruence.
Qed.

(** What opening a tunnel leaves: the listener of the tunnel that is returned, on the port it
    reports, or no listener at all. *)
Definition tunnel_opened (remotePort : string) (w : W) (r : result TunnelInfo) (w' : W) : Prop :=
  match r with
  | Ok info => Atoi remotePort = Some (RemotePort info) /\ StopFunc info ∉ listening w /\
               listening w' = {[StopFunc info]} ∪ listening w /\ (LocalPort info = 0 \/ StopFunc info = LocalPort info)
  | Err _ => listening w' = listening w
  end.

(** [OpenTunnel] returns a tunnel that listens on the local port it reports and forwards to the
    port that was asked for, or an error with no listener left behind, after at most ten
    attempts and whatever failed in between. *)
Theorem openTunnel_spec remotePort w r w' : openTunnel remotePort w = (r, w') -> tunnel_opened remotePort w r w'.
Proof.
  unfold openTunnel, tunnel_opened. destruct (Atoi remotePort) as [port|]; [|by intros [= <- <-]].
  generalize true, SSHRetryInitialDelay, (None : option error), (Z.to_nat SSHRetryCount). intros first d e n.
  revert first d e w. induction n as [|n IH]; intros first d e w H; cbn [open_loop] in H; [by injection H as <- <-|].
  mstep H as [go w1] E1. assert (L1 : listening w1 = listening w).
  { destruct first; [by injection E1 as <- <-|]. pose proof (listening_timer d w) as Ht. by rewrite E1 in Ht. }
  destruct go.
  - mstep H as [p w2] E2. apply findFreePort_listening in E2. rewrite L1 in E2. destruct p as [p|err].
    + mstep H as [s w3] E3. apply start_tunnel_listening in E3. rewrite E2 in E3. destruct s as [q|err].
      * injection H as <- <-. cbn. naive_solver.
      * apply IH in H. by rewrite E3 in H.
    + apply IH in H. by rewrite E2 in H.
  - mstep H as [ce w2] E2. pose proof (listening_ctx w1) as Hc. rewrite E2 in Hc. cbn in Hc. injection H as <- <-. congruence.
Qed.
End OpenTunnel.

(** ** What a tunnel is started with

    The connection is read anew for every dial, so that a reconnection is seen. *)
Record tunnelDialer (W C : Type) := mkDialer {
  describe : string;
  dial : C -> M W (result Z);
  again : C -> M W (C * option error)
}.
Arguments mkDialer {W C}.
Arguments describe {W C}.
Arguments dial {W C}.
Arguments again {W C}.

Section Start.
Context {W : Type} `{WR : Wire W, KE : !KeyEnv W, CX : !Ctx W, CL : !Clock W, LN : !Listens W}.
Context (ParsePrivateKey : string -> result string).
Context (ParsePrivateKeyWithPassphrase : string -> string -> result string).
Context (keyType FingerprintSHA256 : string -> string).

Definition client_StartTunnel (c : client) (localPort remotePort : string) : M W (result Z * tunnelDialer W client) :=
  let dialer := mkDialer (user c +:+ "@" +:+ host c +:+ " local:" +:+ localPort +:+ " -> remote:" +:+ remotePort)
    (fun c => clientDial (sshClient c) ("127.0.0.1:" +:+ remotePort))
    (reconnect ParsePrivateKey ParsePrivateKeyWithPassphrase keyType FingerprintSHA256) in
  let! r := start_tunnel localPort in mret (r, dialer).

Definition jump_StartTunnel (c : jumpHostClient) (localPort remotePort : string)
    : M W (result Z * tunnelDialer W jumpHostClient) :=
  let dialer := mkDialer (targetUser c +:+ "@" +:+ targetHost c +:+ " via jump " +:+ jumpUser c +:+ "@" +:+ jumpHost c +:+
                          " local:" +:+ localPort +:+ " -> remote:" +:+ remotePort)
    (fun c => clientDial (targetClient c) ("127.0.0.1:" +:+ remotePort))
    (jump_reconnect ParsePrivateKey ParsePrivateKeyWithPassphrase keyType FingerprintSHA256) in
  let! r := start_tunnel localPort in mret (r, dialer).

(** The connection of one accepted local connection: what a handler of the machine below is
    answered. *)
Definition tunnel_connect {C} (d : tunnelDialer W C) (c : C) : M W (C * result Z) :=
  let! r := dial d c in
  match r with
  | Ok conn => mret (c, Ok conn)
  | Err err =>
      if negb (isConnectionError (Some err)) then mret (c, Err err)
      else
        let! '(c, rcErr) := again d c in
        match rcErr with
        | Some rcErr => mret (c, Err rcErr)
        | None => let! r := dial d c in mret (c, r)
        end
  end.
End Start.

(** ** The running tunnel *)

(** The accept loop: at its head, in [Accept], after an error, with a connection, in the
    deferred close, done. *)
Inductive serving := SvTop | SvAccept | SvFailed | SvAccepted (local : Z) | SvReturn | SvEnd.

(** A handler: dialing, reconnecting after a connection error, dialing again; waiting for the
    first and the second copy; in its deferred closes. *)
Inductive lpc := LDial | LReconnect | LRedial | LFirst | LSecond | LRemote | LLocal | LEnd.

(** [inbound] and [outbound] are the copies that run, [tokens] is what is in [done]. *)
Record lhandler := mkLH {
  lh_pc : lpc;
  lh_local : Z;
  lh_remote : Z;
  inbound : bool;
  outbound : bool;
  tokens : nat
}.

(** A caller of [stop]: closing [stopChan] a second time panics. *)
Inductive stopping := StIdle | StListener | StReturned | StPanicked.

Record ltunnel := mkLT {
  ctxDone : bool;
  stopClosed : bool;
  lnOpen : bool;
  serve_pc : serving;
  handlers : list lhandler;
  sockets : gset Z;
  ids : Z;
  stoppers : list stopping
}.

(** A tunnel that was just started, with [n] goroutines that may call [stop]. *)
Definition started (n : nat) : ltunnel := mkLT false false true SvTop [] ∅ 0 (repeat StIdle n).

Definition set_serve (pc : serving) (t : ltunnel) : ltunnel :=
  mkLT (ctxDone t) (stopClosed t) (lnOpen t) pc (handlers t) (sockets t) (ids t) (stoppers t).
Definition set_handlers (hs : list lhandler) (t : ltunnel) : ltunnel :=
  mkLT (ctxDone t) (stopClosed t) (lnOpen t) (serve_pc t) hs (sockets t) (ids t) (stoppers t).
Definition put (i : nat) (h : lhandler) (t : ltunnel) : ltunnel := set_handlers (<[i := h]> (handlers t)) t.
Definition close_listener (t : ltunnel) : ltunnel :=
  mkLT (ctxDone t) (stopClosed t) false (serve_pc t) (handlers t) (sockets t) (ids t) (stoppers t).
Definition close_socket (c : Z) (t : ltunnel) : ltunnel :=
  mkLT (ctxDone t) (stopClosed t) (lnOpen t) (serve_pc t) (handlers t) (sockets t ∖ {[c]}) (ids t) (stoppers t).
Definition open_socket (t : ltunnel) : ltunnel :=
  mkLT (ctxDone t) (stopClosed t) (lnOpen t) (serve_pc t) (handlers t) ({[ids t]} ∪ sockets t) (ids t + 1) (stoppers t).

(** What [Accept] returns: a connection, or an error, as when its deadline is over or the
    listener closed. *)
Definition serve_step (conn : bool) (t : ltunnel) : option ltunnel :=
  match serve_pc t with
  | SvTop => Some (set_serve (if ctxDone t || stopClosed t then SvReturn else SvAccept) t)
  | SvAccept =>
      if conn then if lnOpen t then Some (set_serve (SvAccepted (ids t)) (open_socket t)) else None
      else Some (set_serve SvFailed t)
  | SvFailed => Some (set_serve (if ctxDone t || stopClosed t then SvReturn else SvTop) t)
  | SvAccepted local => Some (set_serve SvTop (set_handlers (handlers t ++ [mkLH LDial local 0 false false 0]) t))
  | SvReturn => Some (set_serve SvEnd (close_listener t))
  | SvEnd => None
  end.

Section Machine.
(** Whether a handler reconnects after a connection error: those of [runTunnelLoop] do, those of
    [StartTunnel] do not. *)
Context (reconnects : bool).

Definition to_pc (pc : lpc) (h : lhandler) : lhandler :=
  mkLH pc (lh_local h) (lh_remote h) (inbound h) (outbound h) (tokens h).

(** A dial that succeeded: both copies are started. *)
Definition dialed (i : nat) (h : lhandler) (t : ltunnel) : ltunnel :=
  put i (mkLH LFirst (lh_local h) (ids t) true true 0) (open_socket t).

(** [err] answers a dial or a reconnection; in a [select] it chooses the context. *)
Definition handle_step (err : option error) (i : nat) (h : lhandler) (t : ltunnel) : option ltunnel :=
  let wait pc :=
    match err with
    | Some _ => if ctxDone t then Some (put i (to_pc LRemote h) t) else None
    | None =>
        match tokens h with
        | O => None
        | S n => Some (put i (mkLH pc (lh_local h) (lh_remote h) (inbound h) (outbound h) n) t)
        end
    end in
  match lh_pc h with
  | LDial =>
      match err with
      | None => Some (dialed i h t)
      | Some _ => Some (put i (to_pc (if reconnects && isConnectionError err then LReconnect else LLocal) h) t)
      end
  | LReconnect => Some (put i (to_pc (if is_nil err then LRedial else LLocal) h) t)
  | LRedial => Some (match err with None => dialed i h t | Some _ => put i (to_pc LLocal h) t end)
  | LFirst => wait LSecond
  | LSecond => wait LRemote
  | LRemote => Some (put i (to_pc LLocal h) (close_socket (lh_remote h) t))
  | LLocal => Some (put i (to_pc LEnd h) (close_socket (lh_local h) t))
  | LEnd => None
  end.

(** A copy ends: its input or an error, or the context is done at its next round. *)
Definition copy_step (incoming : bool) (i : nat) (h : lhandler) (t : ltunnel) : option ltunnel :=
  if (if incoming then inbound h else outbound h) then
    Some (put i (mkLH (lh_pc h) (lh_local h) (lh_remote h) (if incoming then false else inbound h)
                   (if incoming then outbound h else false) (S (tokens h))) t)
  else None.

Definition stop_step (j : nat) (t : ltunnel) : option ltunnel :=
  let go s t := Some (mkLT (ctxDone t) (stopClosed t) (lnOpen t) (serve_pc t) (handlers t) (sockets t) (ids t)
                        (<[j := s]> (stoppers t))) in
  match stoppers t !! j with
  | Some StIdle =>
      if stopClosed t then go StPanicked t
      else go StListener (mkLT (ctxDone t) true (lnOpen t) (serve_pc t) (handlers t) (sockets t) (ids t) (stoppers t))
  | Some StListener => go StReturned (close_listener t)
  | _ => None
  end.

Inductive action :=
| ACancel
| AServe (conn : bool)
| AHandle (i : nat) (err : option error)
| ACopy (i : nat) (incoming : bool)
| AStop (j : nat).

Definition act (a : action) (t : ltunnel) : option ltunnel :=
  match a with
  | ACancel => Some (mkLT true (stopClosed t) (lnOpen t) (serve_pc t) (handlers t) (sockets t) (ids t) (stoppers t))
  | AServe conn => serve_step conn t
  | AHandle i err => h ← handlers t !! i; handle_step err i h t
  | ACopy i incoming => h ← handlers t !! i; copy_step incoming i h t
  | AStop j => stop_step j t
  end.

Fixpoint run (l : list action) (t : ltunnel) : option ltunnel :=
  match l with
  | [] => Some t
  | a :: l => t' ← act a t; run l t'
  end.

(** ** Nothing is left behind *)

(** The connections a handler still has to close. *)
Definition owned (h : lhandler) : gset Z :=
  match lh_pc h with
  | LDial | LReconnect | LRedial | LLocal => {[lh_local h]}
  | LFirst | LSecond | LRemote => {[lh_local h; lh_remote h]}
  | LEnd => ∅
  end.

Definition owner (c : Z) (t : ltunnel) : Prop :=
  serve_pc t = SvAccepted c \/ exists i h, handlers t !! i = Some h /\ c ∈ owned h.

Definition tidy (t : ltunnel) : Prop :=
  (forall c, c ∈ sockets t -> owner c t) /\ (serve_pc t = SvEnd -> lnOpen t = false).

(** Another step of a handler: what is open and was owned stays owned, but for what it closed. *)
Lemma tidy_put t i h h' (S : gset Z) n :
  tidy t -> handlers t !! i = Some h ->
  (forall c, c ∈ S -> (c ∈ sockets t /\ (c ∈ owned h -> c ∈ owned h')) \/ c ∈ owned h') ->
  tidy (mkLT (ctxDone t) (stopClosed t) (lnOpen t) (serve_pc t) (<[i := h']> (handlers t)) S n (stoppers t)).
Proof.
  intros [Ho Hs] Hi HS. split; [|done]. cbn. intros c Hc.
  assert (Hown : c ∈ owned h' -> owner c (mkLT (ctxDone t) (stopClosed t) (lnOpen t) (serve_pc t) (<[i := h']> (handlers t)) S n (stoppers t))).
  { intros Hc'. right. exists i, h'. split; [|done]. cbn. apply list_lookup_insert_eq. by eapply lookup_lt_Some. }
  destruct (HS c Hc) as [[Hin Hkeep]|]; [|by apply Hown]. destruct (Ho c Hin) as [Hsv|(k & g & Hk & Hg)]; [by left|].
  destruct (decide (k = i)) as [->|Hne]; [apply Hown, Hkeep; congruence|].
  right. exists k, g. split; [|done]. cbn. by rewrite list_lookup_insert_ne.
Qed.

Lemma handle_tidy err i h t t' : tidy t -> handlers t !! i = Some h -> handle_step err i h t = Some t' -> tidy t'.
Proof.
  intros Ht Hi H.
  assert (Hput : forall h' (S : gset Z) n, (forall c, c ∈ S -> (c ∈ sockets t /\ (c ∈ owned h -> c ∈ owned h')) \/ c ∈ owned h') ->
    tidy (mkLT (ctxDone t) (stopClosed t) (lnOpen t) (serve_pc t) (<[i := h']> (handlers t)) S n (stoppers t))).
  { intros h' S n. by apply tidy_put. }
  unfold handle_step, dialed, put, set_handlers, close_socket, open_socket, to_pc in H. cbn in H. unfold owned in Hput.
  destruct (lh_pc h) eqn:Hpc; try done; repeat case_match; simplify_eq; apply Hput; cbn; repeat case_match; set_solver.
Qed.

Lemma serve_tidy conn t t' : tidy t -> serve_step conn t = Some t' -> tidy t'.
Proof.
  intros [Ho Hs] H. unfold serve_step in H. unfold owner in Ho.
  destruct (serve_pc t) as [| | |local| |] eqn:Hpc; try done; repeat case_match; simplify_eq; split; cbn; try done; intros c Hc.
  3:{ apply elem_of_union in Hc as [->%elem_of_singleton|Hc]; [by left|]. destruct (Ho c Hc); [done|by right]. }
  6:{ right. destruct (Ho c Hc) as [[= ->]|(i & h & Hi & Hh)].
      - exists (length (handlers t)). eexists. split; [by apply list_lookup_middle|]. cbn. set_solver.
      - exists i, h. split; [|done]. by apply lookup_app_l_Some. }
  all: destruct (Ho c Hc); [done|by right].
Qed.

Lemma act_tidy a t t' : tidy t -> act a t = Some t' -> tidy t'.
Proof.
  intros Ht H. destruct a as [|conn|i err|i incoming|j]; cbn [act] in H.
  - by injection H as <-.
  - by eapply serve_tidy.
  - destruct (handlers t !! i) as [h|] eqn:Hi; [|done]. by eapply handle_tidy.
  - destruct (handlers t !! i) as [h|] eqn:Hi; [|done]. cbn in H. unfold copy_step in H. case_match; [|done].
    injection H as <-. apply (tidy_put _ _ h); [done..|]. intros c Hc. left. split; [done|]. unfold owned. by destruct h as [[]].
  - destruct Ht as [Ho Hs]. unfold stop_step in H. repeat case_match; simplify_eq; split; cbn; try done; by intros ?%Hs.
Qed.

Lemma started_tidy n : tidy (started n).
Proof. split; [|done]. intros c Hc. cbn in Hc. set_solver. Qed.

Lemma run_tidy l t t' : tidy t -> run l t = Some t' -> tidy t'.
Proof.
  revert t. induction l as [|a l IH]; intros t Ht H; cbn [run] in H; [by injection H as <-|].
  destruct (act a t) as [t1|] eqn:E; [|done]. eapply IH; [by eapply act_tidy|done].
Qed.

(** C23: When the accept loop and the handlers of a tunnel are done, however its goroutines were
    interleaved and whatever failed, its listener and every connection it accepted or dialed
    are closed. *)
Theorem legacy_tunnel_clean n l t :
  run l (started n) = Some t -> serve_pc t = SvEnd -> Forall (fun h => lh_pc h = LEnd) (handlers t) ->
  lnOpen t = false /\ sockets t = ∅.
Proof.
  intros H Hs Hh. destruct (run_tidy _ _ _ (started_tidy n) H) as [Ho Hl]. split; [by apply Hl|].
  apply elem_of_equiv_empty_L. intros c Hc. destruct (Ho c Hc) as [Hsv|(i & h & Hi & Hown)]; [congruence|].
  eapply Forall_lookup_1 in Hh; [|done]. cbn in Hh. unfold owned in Hown. rewrite Hh in Hown. set_solver.
Qed.

(** ** A connection that one side has finished *)

(** Waiting for the second copy, with no token and the context live. *)
Definition half_closed (i : nat) (t : ltunnel) : Prop :=
  ctxDone t = false /\ exists h, handlers t !! i = Some h /\ lh_pc h = LSecond /\ tokens h = 0%nat.

(** Of all the moves of a tunnel only the end of the other copy, which its peer decides, and
    the cancellation of the context take a half-closed connection further: neither [stop] nor
    anything the tunnel does closes it. *)
Theorem half_closed_waits i t a t' h :
  half_closed i t -> handlers t !! i = Some h -> act a t = Some t' -> a <> ACancel -> (forall incoming, a <> ACopy i incoming) ->
  half_closed i t' /\ handlers t' !! i = Some h.
Proof.
  intros (Hc & h0 & Hi & Hpc & Htok) Hi' H Ha Hcopy. assert (h0 = h) as -> by congruence.
  enough (ctxDone t' = false /\ handlers t' !! i = Some h) as [? ?] by (split; [split; eauto|done]).
  destruct a as [|conn|k err|k incoming|j]; cbn [act] in H; [done|..].
  - unfold serve_step in H. repeat case_match; simplify_eq; cbn; try done. split; [done|]. by apply lookup_app_l_Some.
  - destruct (handlers t !! k) as [g|] eqn:Hk; [|done]. cbn in H. destruct (decide (k = i)) as [->|Hne].
    + assert (g = h) as -> by congruence. unfold handle_step in H. rewrite Hpc Htok Hc in H. by destruct err.
    + unfold handle_step in H. repeat case_match; simplify_eq; cbn; (split; [done|]); by rewrite list_lookup_insert_ne.
  - destruct (handlers t !! k) as [g|] eqn:Hk; [|done]. cbn in H. destruct (decide (k = i)) as [->|Hne]; [by destruct (Hcopy incoming)|].
    unfold copy_step in H. case_match; simplify_eq. cbn. split; [done|]. by rewrite list_lookup_insert_ne.
  - unfold stop_step in H. repeat case_match; by simplify_eq.
Qed.
End Machine.

(** ** Runs *)

(** A connection is accepted, the session is broken, made anew, and the dial succeeds. *)
Definition connect_again : list action :=
  [AServe true; AServe true; AServe true; AHandle 0 (Some io_EOF); AHandle 0 None; AHandle 0 None].
(** Both directions end and the handler closes both connections. *)
Definition finish : list action :=
  [ACopy 0 true; AHandle 0 None; ACopy 0 false; AHandle 0 None; AHandle 0 None; AHandle 0 None].
(** [stop], after which [Accept] fails and the loop returns. *)
Definition stop_all : list action := [AServe true; AStop 0; AStop 0; AServe false; AServe true; AServe true].

Lemma legacy_tunnel_clean_witness : exists t,
  run true (connect_again ++ finish ++ stop_all) (started 2) = Some t /\ lnOpen t = false /\ sockets t = ∅.
Proof.
  destruct (run true (connect_again ++ finish ++ stop_all) (started 2)) as [t|] eqn:E; [|by vm_compute in E].
  exists t. split; [done|]. apply (legacy_tunnel_clean _ _ _ _ E); vm_compute in E; injection E as <-; [done|by repeat constructor].
Defined.

(** The remote side ends its direction and [stop] is called: the connection is still open. *)
Definition half : list action := connect_again ++ [ACopy 0 true; AHandle 0 None] ++ stop_all.

Example half_closed_after_stop :
  match run true half (started 2) with
  | Some t => serve_pc t = SvEnd /\ sockets t = {[0; 1]} /\ half_closed 0 t
  | None => False
  end.
Proof. vm_compute. split; [done|]. split; [done|]. split; [done|]. eexists. done. Qed.

Lemma half_closed_waits_witness : exists t t' h,
  run true (connect_again ++ [ACopy 0 true; AHandle 0 None]) (started 2) = Some t /\
  act true (AStop 0) t = Some t' /\ half_closed 0 t' /\ handlers t' !! 0%nat = Some h.
Proof.
  destruct (run true (connect_again ++ [ACopy 0 true; AHandle 0 None]) (started 2)) as [t|] eqn:E; [|by vm_compute in E].
  assert (Hh : half_closed 0 t) by (vm_compute in E; injection E as <-; split; [done|]; by eexists).
  destruct (act true (AStop 0) t) as [t'|] eqn:E'; [|by vm_compute in E; injection E as <-].
  destruct (proj2 Hh) as (h & Hi & _). exists t, t', h. split; [done|]. split; [done|].
  by apply (half_closed_waits true 0 t (AStop 0) t' h).
Defined.

(** A second call of [stop] closes a closed channel. *)
Example stop_twice_panics :
  stoppers <$> run true [AStop 0; AStop 0; AStop 1] (started 2) = Some [StReturned; StPanicked].
Proof. by vm_compute. Qed.

(** ** Ports in memory

    [pool] are the ports there are; the script says which calls of [Listen] fail. *)
Record ports := mkPorts { po_open : gset Z; po_pool : list Z; po_faults : list bool; po_ticks : nat }.

Definition local_addr (p : Z) : string := "127.0.0.1:" +:+ pretty p.

(** The port an address names, or for port 0 one that is free. *)
Definition pick_port (a : string) (w : ports) : option Z :=
  List.find (fun p => bool_decide (p ∉ po_open w) && (String.eqb a (local_addr 0) || String.eqb a (local_addr p))) (po_pool w).

#[export] Instance ports_listen : Listens ports := {|
  listening := po_open;
  listen := fun a w =>
    match po_faults w with
    | true :: fs => (Err (Errorf "bind: address already in use"), mkPorts (po_open w) (po_pool w) fs (po_ticks w))
    | fs =>
        match pick_port a w with
        | Some p => (Ok p, mkPorts ({[p]} ∪ po_open w) (po_pool w) (tail fs) (po_ticks w))
        | None => (Err (Errorf "bind: address already in use"), mkPorts (po_open w) (po_pool w) (tail fs) (po_ticks w))
        end
    end;
  unlisten := fun p w => (None, mkPorts (po_open w ∖ {[p]}) (po_pool w) (po_faults w) (po_ticks w))
|}.

#[export] Instance ports_ctx : Ctx ports := {|
  ctxErr := gets (fun w => if po_ticks w is O then Some context_DeadlineExceeded else None);
  timerFires := fun _ w =>
    match po_ticks w with O => (false, w) | S n => (true, mkPorts (po_open w) (po_pool w) (po_faults w) n) end
|}.

(** What [listen] does when it succeeds. *)
Lemma ports_listen_ok a (w : ports) p w' : listen a w = (Ok p, w') ->
  pick_port a w = Some p /\ po_open w' = {[p]} ∪ po_open w.
Proof.
  cbn. destruct (po_faults w) as [|[] fs]; [|done|]; destruct (pick_port a w) eqn:E; try done; by intros [= <- <-].
Qed.

#[export] Instance ports_laws : ListensLaws ports.
Proof.
  split.
  - intros a w p w' [Hp Ho]%ports_listen_ok. split; [|done]. apply find_some in Hp as [_ Hp].
    apply andb_true_iff in Hp as [Hp _]. by apply bool_decide_eq_true in Hp.
  - intros a w e w'. cbn. destruct (po_faults w) as [|[] fs]; [|by intros [= _ <-]|]; destruct (pick_port a w); try done;
      by intros [= _ <-].
  - intros p w q w' [Hp _]%ports_listen_ok. apply find_some in Hp as [_ Hp]. apply andb_true_iff in Hp as [_ Hp].
    apply orb_true_iff in Hp as [Hp|Hp]; apply String.eqb_eq in Hp; unfold local_addr in Hp; apply (inj (String.append _)) in Hp;
      apply (inj pretty) in Hp; auto.
  - intros p w e w'. cbn. by intros [= _ <-].
  - done.
  - intros z w. cbn. by destruct (po_ticks w).
Qed.

(** The port that was found is taken before the tunnel starts; the next attempt succeeds. *)
Lemma openTunnel_spec_witness : exists info w',
  openTunnel "6445" (mkPorts {[40000]} [40000; 40001; 40002] [false; true] 3) = (Ok info, w') /\
  listening w' = {[StopFunc info]} ∪ {[40000]} /\ RemotePort info = 6445.
Proof.
  destruct (openTunnel "6445" (mkPorts {[40000]} [40000; 40001; 40002] [false; true] 3)) as [r w'] eqn:E.
  pose proof (openTunnel_spec _ _ _ _ E) as H. destruct r as [info|e]; [|by vm_compute in E].
  exists info, w'. split; [done|]. destruct H as (HR & _ & HL & _). split; [exact HL|]. by injection HR.
Defined.
