(* ===== verification/LegacyKubeconfig.v ===== *)
(** The cluster configuration and the kubeconfig of the legacy path
    ([src/internal/cluster/cluster.go]): validation, reading the kubeconfig over SSH or from
    [KUBE_CONFIG_PATH], what a failure is called, and pointing the file at a tunnel.
    [k8s.io/client-go] and the parsing of YAML are parameters. *)
From S2P Require Import Prelude Errors Retry SshDial DvpConfig Config Kube LegacyRemote.

Local Open Scope Z_scope.
Local Open Scope go_scope.

(** ** The cluster configuration *)

Definition validateNode (node : ClusterNode) (_ : bool) : option error :=
  if String.eqb (Hostname node) "" then Some (Errorf "hostname is required")
  else match Host node with
       | HostTypeVM =>
           if CPU node <=? 0 then Some (Errorf "CPU must be greater than 0 for VM nodes")
           else if RAM node <=? 0 then Some (Errorf "RAM must be greater than 0 for VM nodes")
           else if DiskSize node <=? 0 then Some (Errorf "diskSize must be greater than 0 for VM nodes")
           else None
       | HostTypeBareMetal => None
       end.

Fixpoint validate_nodes (what : string) (isMaster : bool) (i : Z) (nodes : list ClusterNode) : option error :=
  match nodes with
  | [] => None
  | n :: nodes =>
      match validateNode n isMaster with
      | Some err => Some (ErrorfW (what +:+ "[" +:+ pretty i +:+ "] validation failed: ") err "")
      | None => validate_nodes what isMaster (i + 1) nodes
      end
  end.

Definition validate_dkp (dkp : DKPParameters) : option error :=
  if String.eqb (PodSubnetCIDR dkp) "" then Some (Errorf "dkpParameters.podSubnetCIDR is required")
  else if String.eqb (ServiceSubnetCIDR dkp) "" then Some (Errorf "dkpParameters.serviceSubnetCIDR is required")
  else if String.eqb (ClusterDomain dkp) "" then Some (Errorf "dkpParameters.clusterDomain is required")
  else if String.eqb (RegistryRepo dkp) "" then Some (Errorf "dkpParameters.registryRepo is required")
  else None.

Definition or_else (e k : option error) : option error := match e with Some err => Some err | None => k end.

Definition validateClusterConfig (cfg : ClusterDefinition) : option error :=
  match Masters cfg with
  | [] => Some (Errorf "at least one master node is required")
  | _ =>
      or_else (validate_nodes "master" true 0 (Masters cfg))
        (or_else (validate_nodes "worker" false 0 (Workers cfg))
          (or_else match Setup cfg with
                   | Some setup =>
                       match validateNode setup false with
                       | Some err => Some (ErrorfW "setup node validation failed: " err "")
                       | None => None
                       end
                   | None => None
                   end
             (validate_dkp (DKP cfg))))
  end.

(** [data] is what [os.ReadFile] returned for the file beside the caller, [parsed] what
    [yaml.Unmarshal] makes of it; [caller] is the caller's file when it is known. *)
Definition LoadClusterConfig (caller : option string) (readFile : string -> result string)
    (parsed : string -> result ClusterDefinition) (getenv : string -> string) (configFilename : string)
    : result ClusterDefinition :=
  match caller with
  | None => Err (Errorf "failed to determine caller file path")
  | Some file =>
      let path := path_Join [path_Dir file; configFilename] in
      match readFile path with
      | Err e => Err (ErrorfW ("failed to read config file " +:+ path +:+ ": ") e "")
      | Ok data =>
          match parsed data with
          | Err e => Err (ErrorfW "failed to parse YAML config: " e "")
          | Ok def =>
              let def := (ApplyModulePullOverrideEnv getenv def).1 in
              match ValidateModulePullOverrides def with
              | Some e => Err e
              | None =>
                  match validateClusterConfig def with
                  | Some e => Err (ErrorfW "config validation failed: " e "")
                  | None => Ok def
                  end
              end
          end
      end
  end.

(** What a configuration that is accepted has. *)
Definition node_valid (n : ClusterNode) : Prop :=
  Hostname n <> "" /\ (Host n = HostTypeVM -> 0 < CPU n /\ 0 < RAM n /\ 0 < DiskSize n).

Definition cluster_valid (c : ClusterDefinition) : Prop :=
  Masters c <> [] /\ Forall node_valid (Masters c) /\ Forall node_valid (Workers c) /\
  (forall s, Setup c = Some s -> node_valid s) /\
  PodSubnetCIDR (DKP c) <> "" /\ ServiceSubnetCIDR (DKP c) <> "" /\ ClusterDomain (DKP c) <> "" /\ RegistryRepo (DKP c) <> "".

Lemma validateNode_iff n b : validateNode n b = None <-> node_valid n.
Proof.
  unfold validateNode, node_valid. destruct (String.eqb_spec (Hostname n) ""); [naive_solver|]. destruct (Host n); [|naive_solver].
  destruct (Z.leb_spec (CPU n) 0); [split; [done|]; intros [_ Hv]; specialize (Hv eq_refl); lia|].
  destruct (Z.leb_spec (RAM n) 0); [split; [done|]; intros [_ Hv]; specialize (Hv eq_refl); lia|].
  destruct (Z.leb_spec (DiskSize n) 0); [split; [done|]; intros [_ Hv]; specialize (Hv eq_refl); lia|]. naive_solver.
Qed.

Lemma validate_nodes_iff what b i ns : validate_nodes what b i ns = None <-> Forall node_valid ns.
Proof.
  revert i. induction ns as [|n ns IH]; intros i; cbn [validate_nodes]; [by split|].
  rewrite Forall_cons -(validateNode_iff n b). destruct (validateNode n b); [naive_solver|]. rewrite IH. naive_solver.
Qed.

Lemma or_else_none e k : or_else e k = None <-> e = None /\ k = None.
Proof. destruct e; naive_solver. Qed.

(** [validateClusterConfig] accepts exactly the configurations with a master, a name for every
    node, CPU, memory and disk for every VM, the setup node's included, and the four settings
    of the cluster. *)
Theorem validateClusterConfig_iff c : validateClusterConfig c = None <-> cluster_valid c.
Proof.
  unfold validateClusterConfig, cluster_valid. destruct (Masters c) as [|m ms] eqn:Em; [naive_solver|].
  rewrite !or_else_none !validate_nodes_iff. assert (Hs : match Setup c with
    | Some setup => match validateNode setup false with Some err => Some (ErrorfW "setup node validation failed: " err "") | None => None end
    | None => None end = None <-> forall s, Setup c = Some s -> node_valid s).
  { destruct (Setup c) as [s|]; [|naive_solver]. pose proof (validateNode_iff s false) as Hv.
    destruct (validateNode s false); naive_solver. }
  rewrite Hs. unfold validate_dkp.
  destruct (String.eqb_spec (PodSubnetCIDR (DKP c)) ""); [naive_solver|].
  destruct (String.eqb_spec (ServiceSubnetCIDR (DKP c)) ""); [naive_solver|].
  destruct (String.eqb_spec (ClusterDomain (DKP c)) ""); [naive_solver|].
  destruct (String.eqb_spec (RegistryRepo (DKP c)) ""); naive_solver.
Qed.

(** ** Pointing a kubeconfig at a tunnel *)

Definition lf : Ascii.ascii := "010".

Fixpoint indent (line : string) : string :=
  match line with
  | String c s => if Ascii.eqb c " " || Ascii.eqb c "009" then String c (indent s) else ""
  | "" => ""
  end.

Definition server_url (line : string) : bool :=
  let trimmedLine := TrimSpace line in HasPrefix trimmedLine "server:" && Contains trimmedLine "https://".

Definition update_line (port : Z) (line : string) : string :=
  if server_url line then indent line +:+ "server: " +:+ "https://127.0.0.1:" +:+ pretty port else line.

(** The new text, when a line was updated. *)
Definition update_text (port : Z) (content : string) : option string :=
  let lines := split_on lf content in
  if existsb server_url lines then Some (Join (map (update_line port) lines) nl) else None.

Lemma split_on_one c x : str_forallb (fun a => negb (Ascii.eqb a c)) x = true -> split_on c x = [x].
Proof.
  induction x as [|a x IH]; [done|]. cbn. intros [Ha Hx]%andb_true_iff. apply negb_true_iff in Ha. by rewrite Ha (IH Hx).
Qed.

Lemma split_on_cons c x s : str_forallb (fun a => negb (Ascii.eqb a c)) x = true ->
  split_on c (x +:+ String c s) = x :: split_on c s.
Proof.
  induction x as [|a x IH]; [intros _; change ("" +:+ String c s) with (String c s); cbn [split_on]; by rewrite Ascii.eqb_refl|].
  rewrite str_app_cons. cbn [split_on str_forallb]. intros [Ha Hx]%andb_true_iff. apply negb_true_iff in Ha. by rewrite Ha (IH Hx).
Qed.

(** Lines without a separator come back from their text. *)
Lemma split_on_Join c ls : ls <> [] -> Forall (fun x => str_forallb (fun a => negb (Ascii.eqb a c)) x = true) ls ->
  split_on c (Join ls (String c "")) = ls.
Proof.
  intros Hne HF. induction HF as [|x ls Hx HF IH]; [done|]. destruct ls as [|y ls]; [by apply split_on_one|].
  change (Join (x :: y :: ls) (String c "")) with (x +:+ String c (Join (y :: ls) (String c ""))).
  rewrite split_on_cons; [done|]. by rewrite IH.
Qed.

Lemma split_on_clean c s : split_on c s <> [] /\ Forall (fun x => str_forallb (fun a => negb (Ascii.eqb a c)) x = true) (split_on c s).
Proof.
  induction s as [|a s [Hne IH]]; [by repeat constructor|]. cbn. destruct (Ascii.eqb a c) eqn:Ha; [by split; [|constructor]|].
  destruct (split_on c s) as [|x l]; [done|]. apply Forall_cons in IH as [Hx Hl]. split; [done|]. constructor; [|done].
  cbn. by rewrite Ha Hx.
Qed.

Lemma trim_left_blanks p i s : str_forallb p i = true -> trim_left p (i +:+ s) = trim_left p s.
Proof.
  induction i as [|a i IH]; [done|]. rewrite str_app_cons. cbn [trim_left str_forallb]. intros [Ha Hi]%andb_true_iff.
  by rewrite Ha IH.
Qed.

Lemma trim_right_none p s : str_forallb (fun a => negb (p a)) s = true -> trim_right p s = s.
Proof.
  induction s as [|a s IH]; [done|]. intros [Ha Hs]%andb_true_iff. rewrite trim_right_keeps; [by apply negb_true_iff|]. by rewrite IH.
Qed.

Lemma trim_right_app p s t : trim_right p t <> "" -> trim_right p (s +:+ t) = s +:+ trim_right p t.
Proof.
  intros Ht. induction s as [|a s IH]; [done|]. rewrite !str_app_cons trim_right_cons IH.
  destruct (String.eqb_spec (s +:+ trim_right p t) ""); [|done]. by destruct s.
Qed.

Lemma indent_blank line : str_forallb is_space (indent line) = true /\ str_forallb (fun a => negb (Ascii.eqb a lf)) (indent line) = true.
Proof.
  induction line as [|a line IH]; [done|]. cbn [indent]. destruct (Ascii.eqb_spec a " ") as [->|]; [by cbn|].
  destruct (Ascii.eqb_spec a "009") as [->|]; [by cbn|done].
Qed.

Lemma indent_indent line s : indent s = "" -> indent (indent line +:+ s) = indent line.
Proof.
  intros Hs. induction line as [|a line IH]; [done|]. cbn [indent]. destruct (Ascii.eqb a " " || Ascii.eqb a "009") eqn:Ha; [|done].
  rewrite str_app_cons. cbn [indent]. by rewrite Ha IH.
Qed.

Lemma digits_plain s : str_forallb is_digit s = true ->
  str_forallb (fun a => negb (is_space a)) s = true /\ str_forallb (fun a => negb (Ascii.eqb a lf)) s = true.
Proof.
  induction s as [|a s IH]; [done|]. intros [Ha Hs]%andb_true_iff. destruct (IH Hs) as [H1 H2]. cbn. rewrite H1 H2 !andb_true_r.
  destruct a as [[] [] [] [] [] [] [] []]; done.
Qed.

Section Port.
Context (port : Z) (Hport : 0 < port).

Definition local_server : string := "server: " +:+ "https://127.0.0.1:" +:+ pretty port.

(** A line that was updated is a server line still, with the indentation it had. *)
Lemma updated_trims i : str_forallb is_space i = true -> TrimSpace (i +:+ local_server) = local_server.
Proof.
  intros Hi. destruct (digits_plain _ (pretty_digits port Hport)) as [Hd _]. unfold TrimSpace.
  rewrite trim_left_blanks; [done|].
  change (trim_left is_space local_server) with ("server: https://127.0.0.1" +:+ (":" +:+ pretty port)).
  assert (Ht : trim_right is_space (":" +:+ pretty port) = ":" +:+ pretty port)
    by (apply trim_right_none; by rewrite str_forallb_app Hd).
  by rewrite trim_right_app Ht.
Qed.

Lemma server_url_updated i : str_forallb is_space i = true -> server_url (i +:+ local_server) = true.
Proof.
  intros Hi. unfold server_url. rewrite updated_trims; [done|]. apply andb_true_iff. split; [done|].
  apply Contains_spec. exists "server: ", ("127.0.0.1:" +:+ pretty port). done.
Qed.

Lemma update_line_server line : server_url (update_line port line) = server_url line.
Proof.
  unfold update_line. destruct (server_url line) eqn:Hs; [|done]. apply server_url_updated. apply indent_blank.
Qed.

Lemma update_line_clean line : str_forallb (fun a => negb (Ascii.eqb a lf)) line = true ->
  str_forallb (fun a => negb (Ascii.eqb a lf)) (update_line port line) = true.
Proof.
  intros Hl. unfold update_line. destruct (server_url line); [|done]. rewrite str_forallb_app.
  destruct (indent_blank line) as [_ ->]. destruct (digits_plain _ (pretty_digits port Hport)) as [_ Hd].
  change (str_forallb (fun a => negb (Ascii.eqb a lf)) ("server: " +:+ "https://127.0.0.1:" +:+ pretty port)) with
    (str_forallb (fun a => negb (Ascii.eqb a lf)) (pretty port)). by rewrite Hd.
Qed.

Lemma update_line_again q line : update_line q (update_line port line) = update_line q line.
Proof.
  unfold update_line at 1 3. rewrite update_line_server. destruct (server_url line) eqn:Hs; [|unfold update_line; by rewrite Hs].
  unfold update_line. rewrite Hs. by rewrite indent_indent.
Qed.

(** The text that was updated has the lines of the old one, each server line with the new
    address; updating it again is updating the old one. *)
Lemma update_text_lines old new : update_text port old = Some new ->
  split_on lf new = map (update_line port) (split_on lf old) /\ existsb server_url (split_on lf old) = true /\
  forall q, update_text q new = update_text q old.
Proof.
  unfold update_text at 1. destruct (existsb _ _) eqn:He; [|done]. intros [= <-]. destruct (split_on_clean lf old) as [Hne Hcl].
  assert (Hl : split_on lf (Join (map (update_line port) (split_on lf old)) nl) = map (update_line port) (split_on lf old)).
  { apply split_on_Join; [by destruct (split_on lf old)|]. apply Forall_map. eapply Forall_impl; [exact Hcl|].
    intros x Hx. by apply update_line_clean. }
  split; [done|]. split; [done|]. intros q. unfold update_text. rewrite Hl He. clear Hl Hne Hcl.
  assert (He' : existsb server_url (map (update_line port) (split_on lf old)) = true).
  { rewrite -He. clear He. induction (split_on lf old) as [|x l IH]; [done|]. cbn. by rewrite update_line_server IH. }
  rewrite He' map_map. do 2 f_equal. apply map_ext. intros x. apply update_line_again.
Qed.
End Port.

(** ** Local files with their texts *)

(** [os.WriteFile], [filepath.EvalSymlinks] and the separate outputs of a command. *)
Class LocalTexts (W : Type) := {
  writeFile : string -> string -> M W (option error);
  evalSymlinks : string -> M W (result string);
  homeDir : M W (result string);
  ExecCapture : Z -> string -> M W (string * string * option error)
}.

(** A read gives the text; a write that succeeds replaces it. *)
Class LocalTextsLaws (W : Type) `{LegacySSH W, LocalFiles W, LocalTexts W} : Prop := {
  read_text f w s w' : readFile f w = (Ok s, w') -> files w !! f = Some s;
  create_text f w w' : createFile f w = (None, w') -> files w' = <[f := ""]> (files w);
  append_text f s w w' : writeTo f s w = (None, w') -> files w' = <[f := default "" (files w !! f) +:+ s]> (files w);
  write_text f s w w' : writeFile f s w = (None, w') -> files w' = <[f := s]> (files w);
  write_text_own f s w : delete f (files (writeFile f s w).2) = delete f (files w);
  links_files f w : files (evalSymlinks f w).2 = files w;
  home_files w : files (homeDir w).2 = files w;
  capture_files c cmd w : files (ExecCapture c cmd w).2 = files w;
  client_files l w : files (NewClient l w).2 = files w;
  sshclose_files c w : files (ssh_Close c w).2 = files w;
  links_local f : local (evalSymlinks f);
  home_local : local homeDir;
  capture_open c cmd w : ssh_open (ExecCapture c cmd w).2 = ssh_open w
}.

Section Kubeconfig.
Context {W : Type} `{LS : LegacySSH W, LF : !LocalFiles W, LT : !LocalTexts W, CX : !Ctx W}.
Context {RestConfig : Type}.
(** [clientcmd.BuildConfigFromFlags] on a file; [config.E2ETempDir] and [config.KubeConfigPath].
    The timeouts set on the result do not concern the model. *)
Context (BuildConfigFromFlags : string -> M W (result RestConfig)) (E2ETempDir KubeConfigPath : string).

Definition UpdateKubeconfigPort (kubeconfigPath : string) (localPort : Z) : M W (option error) :=
  let! content := readFile kubeconfigPath in
  match content with
  | Err err => mret (Some (ErrorfW "failed to read kubeconfig file: " err ""))
  | Ok content =>
      match update_text localPort content with
      | None => mret (Some (Errorf "could not find server URL in kubeconfig to update"))
      | Some newContent =>
          let! err := writeFile kubeconfigPath newContent in
          mret match err with
               | Some err => Some (ErrorfW "failed to write updated kubeconfig: " err "")
               | None => None
               end
      end
  end.

Definition expandPath (path : string) : M W (result string) :=
  let! expanded :=
    if HasPrefix path "~" then
      let! home := homeDir in
      mret match home with
           | Err err => Err (ErrorfW "failed to get home directory: " err "")
           | Ok home => Ok (if String.eqb path "~" then home else path_Join [home; TrimPrefix path "~/"])
           end
    else mret (Ok path) in
  match expanded with
  | Err err => mret (Err err)
  | Ok expanded =>
      let! resolved := evalSymlinks expanded in
      mret (Ok match resolved with Ok p => p | Err _ => expanded end)
  end.

Definition getKubeconfigRemoteShell : string :=
  "sudo -n /bin/cat /etc/kubernetes/super-admin.conf 2>/dev/null " +:+ "|| sudo -n /bin/cat /etc/kubernetes/admin.conf".

(** *** What a failure is called *)
Inductive kubeconfigFetchCause :=
| causeUnknown | causeKubeconfigMissing | causeSudoPasswordRequired | causePermissionDenied
| causeSSHUnreachable | causeContextCanceled.

Definition cause_String (c : kubeconfigFetchCause) : string :=
  match c with
  | causeKubeconfigMissing => "kubeconfig file is missing on the host"
  | causeSudoPasswordRequired => "sudo requires a password (sudo -n failed)"
  | causePermissionDenied => "permission denied reading kubeconfig"
  | causeSSHUnreachable => "SSH connection failed"
  | causeContextCanceled => "context canceled"
  | causeUnknown => "unknown"
  end.

(** [*ssh.ExitError] is the kind [KExit]. *)
Definition classifyKubeconfigFetchFailure (ctxErr : option error) (sshErr : error) (stderr : string)
    : kubeconfigFetchCause :=
  if negb (is_nil ctxErr) then causeContextCanceled
  else match errors_As as_exit sshErr with
       | None => causeSSHUnreachable
       | Some _ =>
           let s := ToLower stderr in
           if Contains s "a password is required" || Contains s "a terminal is required" || Contains s "sudo: no tty present"
           then causeSudoPasswordRequired
           else if Contains s "no such file or directory" then causeKubeconfigMissing
           else if Contains s "permission denied" then causePermissionDenied
           else causeUnknown
       end.

Definition sudoersFix (user : string) : string :=
  "echo '" +:+ user +:+ " ALL=(root) NOPASSWD: /bin/cat /etc/kubernetes/super-admin.conf, /bin/cat /etc/kubernetes/admin.conf" +:+
  "' | sudo tee /etc/sudoers.d/e2e-kubeconfig && sudo chmod 0440 /etc/sudoers.d/e2e-kubeconfig".

(** The lines of a remedy, each with its own end. *)
Definition remedies (lines : list string) : string :=
  foldr (fun l s => l +:+ nl +:+ s) "" ("Pick ONE remedy:" :: lines) +:+ "Original SSH error: ".

Definition export_line : string := "       export KUBE_CONFIG_PATH=$HOME/.kube/config".
Definition set_path_line (n : string) : string := "  " +:+ n +:+ ") Set KUBE_CONFIG_PATH to a kubeconfig file on your local machine:".

Definition buildKubeconfigFetchError (user masterIP : string) (sshErr : error) (cause : kubeconfigFetchCause) : error :=
  let head := "failed to read kubeconfig from master via SSH (" +:+ user +:+ "@" +:+ masterIP +:+ ")" in
  match cause with
  | causeContextCanceled =>
      ErrorfW (head +:+ ": the test context was canceled before kubeconfig could be fetched " +:+
               "(suite timeout, Ctrl+C, or parent context done)." +:+ nl +:+
               remedies ["  1) Increase the test/suite timeout if bootstrap or module enablement is still running.";
                         "  2) Set KUBE_CONFIG_PATH to skip SSH fetch on subsequent runs:"; export_line]) sshErr ""
  | causeSSHUnreachable =>
      ErrorfW (head +:+ ": the master is not reachable over SSH (connection refused, timeout, or handshake failure)." +:+ nl +:+
               remedies ["  1) Verify SSH_HOST / SSH_JUMP_HOST, VPN, and that the VM is up.";
                         "  2) Confirm key-based auth works: ssh -i " +:+ String "034" ("$SSH_PRIVATE_KEY" +:+ String "034" "") +:+ " " +:+
                         user +:+ "@" +:+ masterIP +:+ " true";
                         "  3) Set KUBE_CONFIG_PATH to a local kubeconfig instead:"; export_line]) sshErr ""
  | causeSudoPasswordRequired =>
      ErrorfW (head +:+ ": sudo on the master requires a password (sudo -n exited non-zero)." +:+ nl +:+
               remedies ["  1) Allow passwordless cat of the two kubeconfig files (run on the master):"; "       " +:+ sudoersFix user;
                         "  2) Point the test at a local kubeconfig instead (no SSH/sudo at all):"; export_line]) sshErr ""
  | causeKubeconfigMissing =>
      ErrorfW (head +:+ ": neither /etc/kubernetes/super-admin.conf nor /etc/kubernetes/admin.conf exists on the host — " +:+
               "this looks like a non-control-plane node." +:+ nl +:+
               remedies ["  1) Make sure SSH_HOST points at a Kubernetes control-plane (master) node " +:+
                         "(check SSH_HOST/SSH_USER, and SSH_JUMP_HOST if you use one).";
                         set_path_line "2"; export_line]) sshErr ""
  | causePermissionDenied =>
      ErrorfW (head +:+ ": permission denied reading /etc/kubernetes/{super-admin,admin}.conf even though the files exist." +:+ nl +:+
               remedies ["  1) Ensure the NOPASSWD rule targets /bin/cat directly (not /bin/sh), then re-run:"; "       " +:+ sudoersFix user;
                         set_path_line "2"; export_line]) sshErr ""
  | causeUnknown =>
      ErrorfW (head +:+ " and KUBE_CONFIG_PATH is not set." +:+ nl +:+
               remedies ["  1) If sudo on the master requires a password, allow passwordless cat of the kubeconfig files:";
                         "       " +:+ sudoersFix user; set_path_line "2"; export_line;
                         "  3) Fix SSH credentials so the master is reachable as " +:+ user +:+ " with key-based auth."]) sshErr ""
  end.

(** *** Reading it *)

(** The text of the kubeconfig: over SSH, or from [KUBE_CONFIG_PATH] when SSH failed. *)
Definition kubeconfig_content (masterIP user : string) (c : Z) : M W (result string) :=
  let! '(content, stderr, sshErr) := ExecCapture c getKubeconfigRemoteShell in
  match sshErr with
  | None => mret (Ok content)
  | Some sshErr =>
      if negb (String.eqb KubeConfigPath "") then
        let! resolved := expandPath KubeConfigPath in
        match resolved with
        | Err err => mret (Err (ErrorfW ("failed to expand KUBE_CONFIG_PATH (" +:+ KubeConfigPath +:+ "): ") err ""))
        | Ok path =>
            let! read := readFile path in
            mret match read with
                 | Err err => Err (ErrorfW ("failed to read kubeconfig from KUBE_CONFIG_PATH (" +:+ path +:+ "): ") err "")
                 | Ok content => Ok content
                 end
        end
      else
        let! ce := ctxErr in
        mret (Err (buildKubeconfigFetchError user masterIP sshErr (classifyKubeconfigFetchFailure ce sshErr stderr)))
  end.

(** The working copy; a file that cannot be written is left as it is. *)
Definition write_kubeconfig (path content : string) : M W (option error) :=
  let! err := createFile path in
  match err with
  | Some err => mret (Some (ErrorfW ("failed to create kubeconfig file " +:+ path +:+ ": ") err ""))
  | None =>
      let! werr := writeTo path content in
      match werr with
      | Some err => let! _ := closeFile path in mret (Some (ErrorfW "failed to write kubeconfig to file: " err ""))
      | None =>
          let! cerr := closeFile path in
          mret match cerr with Some err => Some (ErrorfW "failed to close kubeconfig file: " err "") | None => None end
      end
  end.

Definition kubeconfig_path (dir masterIP : string) : string :=
  path_Join [if String.eqb dir "" then E2ETempDir else dir; "kubeconfig-" +:+ masterIP +:+ ".yml"].

Definition with_client (masterIP user dir : string) (c : Z) : M W (result (RestConfig * string)) :=
  let outputDir := if String.eqb dir "" then E2ETempDir else dir in
  let! merr := mkdirAll outputDir in
  match merr with
  | Some err => mret (Err (ErrorfW ("failed to create directory " +:+ outputDir +:+ ": ") err ""))
  | None =>
      let path := kubeconfig_path dir masterIP in
      let! content := kubeconfig_content masterIP user c in
      match content with
      | Err err => mret (Err err)
      | Ok content =>
          let! werr := write_kubeconfig path content in
          match werr with
          | Some err => mret (Err err)
          | None =>
              let! cfg := BuildConfigFromFlags path in
              mret match cfg with
                   | Err err => Err (ErrorfW "failed to build config from kubeconfig: " err "")
                   | Ok cfg => Ok (cfg, path)
                   end
          end
      end
  end.

(** A client that is not given is opened and closed here. *)
Definition GetKubeconfig (masterIP user keyPath : string) (sshClient : option Z) (dir : string)
    : M W (result (RestConfig * string)) :=
  match sshClient with
  | Some c => with_client masterIP user dir c
  | None =>
      let! c := NewClient (mkLogin user masterIP keyPath) in
      match c with
      | Err err => mret (Err (ErrorfW "failed to create SSH client: " err ""))
      | Ok c => let! r := with_client masterIP user dir c in let! _ := ssh_Close c in mret r
      end
  end.

(** ** Theorems *)
Context {LL : LegacySSHLaws W} {FL : LocalFilesLaws W} {AP : Apart W} {TL : LocalTextsLaws W}.

Lemma files_kept {A} (m : M W A) w a w' : (forall w, files (m w).2 = files w) -> m w = (a, w') -> files w' = files w.
Proof. intros Hm E. specialize (Hm w). by rewrite E in Hm. Qed.

Lemma open_kept {A} (m : M W A) w a w' : (forall w, ssh_open (m w).2 = ssh_open w) -> m w = (a, w') -> ssh_open w' = ssh_open w.
Proof. intros Hm E. specialize (Hm w). by rewrite E in Hm. Qed.

(** What updating the port of a kubeconfig did. *)
Definition port_updated (path : string) (port : Z) (w : W) (r : option error) (w' : W) : Prop :=
  match r with
  | None =>
      exists old new, files w !! path = Some old /\ files w' = <[path := new]> (files w) /\
        split_on lf new = map (update_line port) (split_on lf old) /\ existsb server_url (split_on lf old) = true /\
        forall q, update_text q new = update_text q old
  | Some _ => delete path (files w') = delete path (files w)
  end.

(** C26: [UpdateKubeconfigPort] reports success only when the kubeconfig had a server line with an
    URL and now every such line, in its place and with its indentation, is the local address
    with the port, and no other line has changed; the port can be changed again, as if it never
    had been; no other file is touched. *)
Theorem UpdateKubeconfigPort_spec path port w r w' :
  0 < port -> UpdateKubeconfigPort path port w = (r, w') -> port_updated path port w r w'.
Proof.
  intros Hp H. unfold UpdateKubeconfigPort in H. mstep H as [c w1] E1. pose proof (files_kept _ _ _ _ (read_keeps path) E1) as F1.
  destruct c as [old|e]; [|injection H as <- <-; cbn; by rewrite F1]. apply read_text in E1.
  destruct (update_text port old) as [new|] eqn:Hu; [|injection H as <- <-; cbn; by rewrite F1].
  mstep H as [e w2] E2. destruct e as [e|]; injection H as <- <-.
  - cbn. pose proof (write_text_own path new w1) as Hw. rewrite E2 in Hw. by rewrite Hw F1.
  - apply write_text in E2. destruct (update_text_lines port Hp _ _ Hu) as (Hl & Hs & Hq).
    exists old, new. rewrite E2 F1. by repeat split.
Qed.

Context (build_files : forall f w, files (BuildConfigFromFlags f w).2 = files w).
Context (build_open : forall f w, ssh_open (BuildConfigFromFlags f w).2 = ssh_open w).
Context (ctx_files : forall w, files (ctxErr w).2 = files w) (ctx_open : forall w, ssh_open (ctxErr w).2 = ssh_open w).

(** Where the text of a kubeconfig comes from: the host, or the file the caller named. *)
Definition from_source (content : string) : Prop :=
  (exists c stderr w1 w2, ExecCapture c getKubeconfigRemoteShell w1 = ((content, stderr, None), w2)) \/
  (KubeConfigPath <> "" /\ exists p w1 w2 w3 w4, expandPath KubeConfigPath w1 = (Ok p, w2) /\ readFile p w3 = (Ok content, w4)).

(** Reading the text changes neither files nor clients. *)
Lemma expandPath_keeps p w r w' : expandPath p w = (r, w') -> files w' = files w /\ ssh_open w' = ssh_open w.
Proof.
  intros H. unfold expandPath in H. mstep H as [x w1] E1. assert (H1 : files w1 = files w /\ ssh_open w1 = ssh_open w).
  { destruct (HasPrefix p "~"); [|by injection E1 as <- <-]. mstep E1 as [h w2] E2. injection E1 as <- <-.
    split; [by eapply files_kept; [apply home_files|]|]. eapply open_kept; [|exact E2]. intros v. apply home_local. }
  destruct x as [x|e]; [|by injection H as <- <-]. mstep H as [y w2] E2. injection H as <- <-. destruct H1 as [<- <-].
  split; [by eapply files_kept; [apply links_files|]|]. eapply open_kept; [|exact E2]. intros v. apply links_local.
Qed.

Lemma kubeconfig_content_spec ip user c w r w' : kubeconfig_content ip user c w = (r, w') ->
  files w' = files w /\ ssh_open w' = ssh_open w /\ forall content, r = Ok content -> from_source content.
Proof.
  intros H. unfold kubeconfig_content in H. mstep H as [[[out serr] err] w1] E1.
  pose proof (files_kept _ _ _ _ (capture_files c _) E1) as F1. pose proof (open_kept _ _ _ _ (capture_open c _) E1) as O1.
  destruct err as [err|]; [|injection H as <- <-; split; [done|]; split; [done|]; intros content [= <-]; left; eauto 6].
  destruct (String.eqb_spec KubeConfigPath "") as [Hp|Hp]; cbn [negb] in H.
  - mstep H as [ce w2] E2. pose proof (files_kept _ _ _ _ ctx_files E2). pose proof (open_kept _ _ _ _ ctx_open E2).
    injection H as <- <-. split; [congruence|]. split; [congruence|done].
  - mstep H as [p w2] E2. destruct (expandPath_keeps _ _ _ _ E2) as [F2 O2].
    destruct p as [p|e]; [|injection H as <- <-; split; [congruence|]; split; [congruence|done]].
    mstep H as [t w3] E3. pose proof (files_kept _ _ _ _ (read_keeps p) E3) as F3.
    assert (O3 : ssh_open w3 = ssh_open w2) by (eapply open_kept; [|exact E3]; intros v; apply read_local).
    destruct t as [t|e]; injection H as <- <-; (split; [congruence|]; split; [congruence|]); [|done].
    intros content [= <-]. right. split; [done|]. eauto 10.
Qed.

Lemma local_open {A} (m : M W A) w a w' : local m -> m w = (a, w') -> ssh_open w' = ssh_open w.
Proof. intros Hm. apply open_kept. intros v. apply Hm. Qed.

(** The working copy: the text when it was written, and no other file in any case. *)
Lemma write_kubeconfig_spec path content w r w' : write_kubeconfig path content w = (r, w') ->
  ssh_open w' = ssh_open w /\ delete path (files w') = delete path (files w) /\ (r = None -> files w' !! path = Some content).
Proof.
  intros H. unfold write_kubeconfig in H. mstep H as [e1 w1] E1. pose proof (local_open _ _ _ _ (create_local path) E1) as O1.
  pose proof (create_own path w) as D1. rewrite E1 in D1. cbn in D1. destruct e1 as [e|]; [by injection H as <- <-|].
  apply create_text in E1. mstep H as [e2 w2] E2. pose proof (local_open _ _ _ _ (write_local path content) E2) as O2.
  pose proof (write_own path content w1) as D2. rewrite E2 in D2. cbn in D2. destruct e2 as [e|].
  - mstep H as [e3 w3] E3. pose proof (local_open _ _ _ _ (close_local path) E3). pose proof (files_kept _ _ _ _ (close_keeps path) E3) as F3.
    injection H as <- <-. rewrite F3. repeat split; [congruence..|done].
  - apply append_text in E2. mstep H as [e3 w3] E3. pose proof (local_open _ _ _ _ (close_local path) E3).
    pose proof (files_kept _ _ _ _ (close_keeps path) E3) as F3. injection H as <- <-. rewrite F3. repeat split; [congruence..|].
    intros _. rewrite E2 E1 !lookup_insert_eq. done.
Qed.

(** What getting a kubeconfig did. *)
Definition kubeconfig_read (ip dir : string) (w : W) (r : result (RestConfig * string)) (w' : W) : Prop :=
  let path := kubeconfig_path dir ip in
  ssh_open w' = ssh_open w /\ delete path (files w') = delete path (files w) /\
  match r with
  | Ok (_, p) => p = path /\ exists content, files w' !! path = Some content /\ from_source content
  | Err _ => True
  end.

Lemma with_client_spec ip user dir c w r w' :
  with_client ip user dir c w = (r, w') -> kubeconfig_read ip dir w r w'.
Proof.
  intros H. unfold with_client in H. unfold kubeconfig_read. mstep H as [e1 w1] E1.
  pose proof (local_open _ _ _ _ (mkdir_local _) E1) as O1. pose proof (files_kept _ _ _ _ (mkdir_keeps _) E1) as F1.
  destruct e1 as [e|]; [injection H as <- <-; by rewrite F1|].
  mstep H as [t w2] E2. apply kubeconfig_content_spec in E2 as (F2 & O2 & Hsrc).
  destruct t as [t|e]; [|injection H as <- <-; rewrite F2 F1; split; [congruence|done]].
  mstep H as [e3 w3] E3. apply write_kubeconfig_spec in E3 as (O3 & D3 & T3). rewrite F2 F1 in D3.
  destruct e3 as [e|]; [injection H as <- <-; split; [congruence|done]|]. specialize (T3 eq_refl).
  mstep H as [cfg w4] E4. pose proof (files_kept _ _ _ _ (build_files _) E4) as F4. pose proof (open_kept _ _ _ _ (build_open _) E4) as O4.
  destruct cfg as [cfg|e]; injection H as <- <-; rewrite F4; (split; [congruence|]); (split; [done|]); [|done].
  split; [done|]. exists t. split; [done|]. by apply Hsrc.
Qed.

End Kubeconfig.

(** ** In memory *)
#[export] Instance fleet_texts : LocalTexts fleet := {|
  writeFile := fun f s w => (None, h_set_files (<[f := s]> (h_files w)) w);
  evalSymlinks := fun f w => (match h_files w !! f with Some _ => Ok f | None => Err (Errorf ("lstat " +:+ f)) end, w);
  homeDir := mret (Ok "/root");
  ExecCapture := fun c cmd w =>
    let '((out, err), w) := Exec c cmd w in (match err with Some _ => ("", out, err) | None => (out, "", err) end, w)
|}.

#[export] Instance fleet_texts_laws : LocalTextsLaws fleet.
Proof.
  split.
  - intros f w s w'. cbn. destruct (h_files w !! f); [|done]. by intros [= <- _].
  - intros f w w'. cbn. by intros [= <-].
  - intros f s w w'. cbn. by intros [= <-].
  - intros f s w w'. cbn. by intros [= <-].
  - intros f s w. cbn. apply delete_insert_eq.
  - done.
  - done.
  - intros c cmd w. cbn. by destruct (h_answer w _ _ _).
  - intros l w. cbn. unfold h_connect. by destruct (existsb _ _).
  - done.
  - done.
  - done.
  - intros c cmd w. cbn. by destruct (h_answer w _ _ _).
Qed.

Definition kubeconfig_text : string :=
  Join ["clusters:"; "- cluster:"; "    server: https://10.0.0.5:6443"; "users: []"] nl.

Definition master_prints (_ : list ssh_event) (_ _ : string) : string * option error := (kubeconfig_text, None).
Definition master_fails (_ : list ssh_event) (_ _ : string) : string * option error :=
  ("sudo: a password is required", Some (Leaf (KExit 1) "Process exited with status 1")).
Definition build_ok (f : string) : M fleet (result string) := mret (Ok f).

Definition get_config (path : string) (answer : list ssh_event -> string -> string -> string * option error) :=
  GetKubeconfig build_ok "/tmp/e2e" path "10.0.0.5" "ubuntu" "/root/.ssh/id" None ""
    (mkFleet ∅ [] {["/root/.kube/config" := "mine"]} answer [] 1).


(** Without [KUBE_CONFIG_PATH] the error says what to do, and the developer's own kubeconfig is
    not used. *)
Example sudo_password_required :
  match get_config "" master_fails with
  | (Err e, w) => Contains (Error e) "sudo on the master requires a password" = true /\
                  files w = {["/root/.kube/config" := "mine"]}
  | (Ok _, _) => False
  end.
Proof. by vm_compute. Qed.

Lemma UpdateKubeconfigPort_spec_witness : exists new w',
  UpdateKubeconfigPort "/tmp/k" 40001 (mkFleet ∅ [] {["/tmp/k" := kubeconfig_text]} master_prints [] 1) = (None, w') /\
  files w' !! "/tmp/k" = Some new /\ split_on lf new = ["clusters:"; "- cluster:"; "    server: https://127.0.0.1:40001"; "users: []"].
Proof.
  destruct (UpdateKubeconfigPort "/tmp/k" 40001 (mkFleet ∅ [] {["/tmp/k" := kubeconfig_text]} master_prints [] 1)) as [r w'] eqn:E.
  pose proof (UpdateKubeconfigPort_spec "/tmp/k" 40001 _ _ _ eq_refl E) as H. destruct r as [e|]; [by vm_compute in E|].
  destruct H as (old & new & Ho & Hf & Hl & _). exists new, w'. split; [done|]. rewrite Hf lookup_insert_eq. split; [done|].
  assert (old = kubeconfig_text) as -> by (by injection Ho). rewrite Hl. by vm_compute.
Defined.
