(* ===== verification/LegacyConnect.v ===== *)
(** Connecting to clusters the legacy way ([src/pkg/cluster/cluster.go]): [ConnectToCluster],
    [UseExistingCluster], [connectViaProvider] with the retries of the health check, and
    [CleanupExistingCluster]. Clients are those of [LegacyRemote], tunnels those of
    [LegacyTunnel], kubeconfigs those of [LegacyKubeconfig]; the lock, the health check and the
    providers are an interface. *)
From S2P Require Import Prelude Errors Retry Env LegacyVms SshConn SshDial DvpConfig Config Kube Kit LegacySsh LegacyRemote LegacySetup LegacyTunnel LegacyKubeconfig.

Local Open Scope Z_scope.
Local Open Scope go_scope.

(** [context.Background()]: never done, its timers only pass time. *)
Definition background {W} `{Clock W} : Ctx W := {|
  ctxErr := mret None;
  timerFires := fun d => let! _ := sleep d in mret true
|}.

(** ** The settings of the environment ([internal/config]) *)
Record Settings := mkSettings {
  vars : Vars;
  sshJumpHost : string;
  sshJumpUser : string;
  sshJumpKeyPath : string;
  testClusterResume : string;
  kubeConfigPath : string
}.
Definition sshHost (cfg : Settings) : string := Env.SSHHost (vars cfg).
Definition sshUser (cfg : Settings) : string := Env.SSHUser (vars cfg).
Definition sshPrivateKey (cfg : Settings) : string := Env.SSHPrivateKey (vars cfg).
Definition namespace (cfg : Settings) : string := Env.TestClusterNamespace (vars cfg).

(** ** What is connected *)

(** A tunnel of an SSH client, or what a provider's [Connect] returned to undo it. *)
Inductive tunnel := Forwarding (info : TunnelInfo) | Provided (cleanup : Z).

(** [VirtClient] of [VMResources] is nil or not; [RestConfig] is any type. *)
Record VMState := mkVMState { hasVirtClient : bool; vmResources : VMResources }.

Record TestClusterResources (K : Type) := mkTC {
  SSHClient : option Z;
  Kubeconfig : option K;
  KubeconfigPath : string;
  TunnelOf : option tunnel;
  ClusterDef : option ClusterDefinition;
  VMs : option VMState;
  BaseClusterClient : option Z;
  BaseKubeconfig : option K;
  BaseKubeconfigPath : string;
  BaseTunnel : option tunnel;
  SetupSSHClient : option Z
}.
Arguments mkTC {K}.
Arguments SSHClient {K}.
Arguments Kubeconfig {K}.
Arguments KubeconfigPath {K}.
Arguments TunnelOf {K}.
Arguments ClusterDef {K}.
Arguments VMs {K}.
Arguments BaseClusterClient {K}.
Arguments BaseKubeconfig {K}.
Arguments BaseKubeconfigPath {K}.
Arguments BaseTunnel {K}.
Arguments SetupSSHClient {K}.

Record ConnectClusterOptions := mkConnectOptions {
  co_SSHUser : string;
  co_SSHHost : string;
  co_SSHKeyPath : string;
  co_UseJumpHost : bool;
  co_JumpHostUser : string;
  co_JumpHostHost : string;
  co_JumpHostKeyPath : string;
  co_TargetUser : string;
  co_TargetHost : string;
  co_TargetKeyPath : string;
  co_KubeconfigOutputDir : string
}.

(** ** The lock, the health of a cluster, and the providers

    The lock is that of [cluster_lock.go] (file [ClusterLock]); a provider is found, or not, by its
    configuration and the registry. *)
Inductive provider := NoProvider | BuildFailed (mode : string) (err : error) | NoConnector | Connector (mode : string).

Class SuiteOps (W K : Type) := {
  lock_held : K -> W -> bool;
  acquireLock : K -> string -> M W (option error);
  releaseLock : K -> M W (option error);
  clusterHealth : K -> bool -> M W (option error);
  nowNano : M W Z;
  findProvider : M W provider;
  providerConnect : M W (result (K * Z));
  provided : W -> gset Z;
  runCleanup : Z -> M W unit;
  buildConfig : string -> M W (result K)
}.
Arguments nowNano {W} K {_}.
Arguments findProvider {W} K {_}.
Arguments provided {W} K {_} _.
Arguments runCleanup {W} K {_} _.
Arguments lock_held {W K _} _ _.

Section Connect.
Context {W K : Type} `{LS : LegacySSH W, LF : !LocalFiles W, LT : !LocalTexts W, CX : !Ctx W, CL : !Clock W, LN : !Listens W}.
Context {SO : SuiteOps W K} (cfg : Settings).
(** [user.Current]. *)
Context (home : result string).

(** ** [ConnectToCluster] *)

Fixpoint ssh_attempts (what : string) (connect : M W (result Z)) (left : nat) (first : bool) (delay : Z)
    (lastErr : option error) : M W (result Z) :=
  match left with
  | O => mret (Err (ErrorfWn (what +:+ " after " +:+ pretty SSHRetryCount +:+ " attempts: ") lastErr ""))
  | S left =>
      let! go := if first then mret true else timerFires delay in
      if go : bool then
        let! c := connect in
        match c with
        | Ok c => mret (Ok c)
        | Err err => ssh_attempts what connect left false (if first then delay else longer delay) (Some err)
        end
      else let! ce := ctxErr in mret (Err (ErrorfWn "context cancelled while retrying SSH connection: " ce ""))
  end.

Definition with_retries (what : string) (connect : M W (result Z)) : M W (result Z) :=
  ssh_attempts what connect (Z.to_nat SSHRetryCount) true SSHRetryInitialDelay None.

(** The client with the host and user of the master, or the error of the checks. *)
Definition ssh_of (opts : ConnectClusterOptions) : M W (result Z) * string * string :=
  if co_UseJumpHost opts then
    let jump := mkLogin (Env.or_else (co_JumpHostUser opts) (co_SSHUser opts)) (Env.or_else (co_JumpHostHost opts) (co_SSHHost opts))
                  (Env.or_else (co_JumpHostKeyPath opts) (co_SSHKeyPath opts)) in
    let target := mkLogin (co_TargetUser opts) (co_TargetHost opts) (Env.or_else (co_TargetKeyPath opts) (co_SSHKeyPath opts)) in
    (with_retries "failed to create SSH client with jump host" (NewClientWithJumpHost jump target), co_TargetHost opts, co_TargetUser opts)
  else
    (with_retries "failed to create SSH client" (NewClient (mkLogin (co_SSHUser opts) (co_SSHHost opts) (co_SSHKeyPath opts))),
     co_SSHHost opts, co_SSHUser opts).

Definition connect_options_error (opts : ConnectClusterOptions) : option error :=
  if String.eqb (co_SSHUser opts) "" then Some (Errorf "SSHUser cannot be empty")
  else if String.eqb (co_SSHHost opts) "" then Some (Errorf "SSHHost cannot be empty")
  else if String.eqb (co_SSHKeyPath opts) "" then Some (Errorf "SSHKeyPath cannot be empty")
  else if co_UseJumpHost opts then
    if String.eqb (co_TargetHost opts) "" then Some (Errorf "TargetHost is required when UseJumpHost is true")
    else if String.eqb (co_TargetUser opts) "" then Some (Errorf "TargetUser is required when UseJumpHost is true")
    else None
  else None.

(** [StopFunc]. *)
Definition stop_tunnel (t : tunnel) : M W (option error) :=
  match t with
  | Forwarding info => unlisten (StopFunc info)
  | Provided h => let! _ := runCleanup K h in mret None
  end.

(** The steps from an open client on: a tunnel and the kubeconfig that leads through it. *)
Definition tunnel_and_config (masterHost masterUser keyPath dir : string) (c : Z) : M W (result (K * string * TunnelInfo)) :=
  let! t := EstablishSSHTunnel (CX := background) "6445" in
  match t with
  | Err err => mret (Err (ErrorfW "failed to establish SSH tunnel: " err ""))
  | Ok info =>
      let fail err := let! _ := unlisten (StopFunc info) in mret (Err err) in
      let! kc := GetKubeconfig buildConfig E2ETempDir (kubeConfigPath cfg) masterHost masterUser keyPath (Some c) dir in
      match kc with
      | Err err => fail (ErrorfW "failed to get kubeconfig: " err "")
      | Ok (_, path) =>
          let! uerr := UpdateKubeconfigPort path (LocalPort info) in
          match uerr with
          | Some err => fail (ErrorfW "failed to update kubeconfig port: " err "")
          | None =>
              let! k := buildConfig path in
              match k with
              | Err err => fail (ErrorfW "failed to rebuild kubeconfig from file: " err "")
              | Ok k => mret (Ok (k, path, info))
              end
          end
      end
  end.

Definition ConnectToCluster (opts : ConnectClusterOptions) : M W (result (TestClusterResources K)) :=
  match connect_options_error opts with
  | Some err => mret (Err err)
  | None =>
      let '(dial, masterHost, masterUser) := ssh_of opts in
      let! c := dial in
      match c with
      | Err err => mret (Err err)
      | Ok c =>
          let! r := tunnel_and_config masterHost masterUser (co_SSHKeyPath opts) (co_KubeconfigOutputDir opts) c in
          match r with
          | Err err => let! _ := ssh_Close c in mret (Err err)
          | Ok (k, path, info) =>
              mret (Ok (mkTC (Some c) (Some k) path (Some (Forwarding info)) None None None None "" None None))
          end
      end
  end.

(** ** The health of a cluster, with retries *)

(** [checkClusterHealthWithRetries]: it returns when the context is done. *)
Fixpoint health_retries (k : K) (left : nat) : M W (option error) :=
  match left with
  | O => mret None
  | S left =>
      let! err := clusterHealth k false in
      match err with
      | None => mret None
      | Some err =>
          if (0 <? Z.of_nat left) then
            let! go := timerFires (30 * Second) in
            if go : bool then health_retries k left
            else let! ce := ctxErr in mret (Some (ErrorfWn "context canceled during health check retries: " ce ""))
          else mret (Some (ErrorfW "cluster health check failed after 10 attempts: " err ""))
      end
  end.

Definition checkClusterHealthWithRetries (k : K) : M W (option error) := health_retries k 10.

(** The loop of [UseExistingCluster] and of [UseCommanderCluster]: the [break] on a done context
    ends the [select] and not the loop. *)
Fixpoint health_loop (k : K) (left : nat) : M W (option error) :=
  match left with
  | O => mret None
  | S left =>
      let! err := clusterHealth k false in
      match err with
      | None => mret None
      | Some err =>
          if (0 <? Z.of_nat left) then
            let! go := timerFires (30 * Second) in
            if go : bool then health_loop k left else let! _ := ctxErr in health_loop k left
          else mret (Some err)
      end
  end.

(** ** [UseExistingCluster] *)

Definition lock_name : M W string :=
  if String.eqb (namespace cfg) "" then let! t := nowNano K in mret ("e2e-test-" +:+ pretty t) else mret (namespace cfg).

Definition jump_user : string := Env.or_else (sshJumpUser cfg) (sshUser cfg).
Definition jump_key (key : string) : string := Env.or_else (sshJumpKeyPath cfg) key.
Definition uses_jump : bool := negb (String.eqb (sshJumpHost cfg) "").

Definition existing_options (key : string) : ConnectClusterOptions :=
  if uses_jump
  then mkConnectOptions jump_user (sshJumpHost cfg) (jump_key key) true "" "" "" (sshUser cfg) (sshHost cfg) key ""
  else mkConnectOptions (sshUser cfg) (sshHost cfg) key false "" "" "" "" "" "" "".

(** The tunnel and the client of a connection, in the order in which an error closes them. *)
Definition close_tunnel (r : TestClusterResources K) : M W unit :=
  match TunnelOf r with Some t => let! _ := stop_tunnel t in mret tt | None => mret tt end.
Definition close_client (r : TestClusterResources K) : M W unit :=
  match SSHClient r with Some c => let! _ := ssh_Close c in mret tt | None => mret tt end.

(** Step 4: the base cluster through the jump host. *)
Definition base_connection (key : string) : M W (result (Z * K * string * TunnelInfo)) :=
  let! c := NewClient (mkLogin jump_user (sshJumpHost cfg) (jump_key key)) in
  match c with
  | Err err => mret (Err (ErrorfW ("failed to connect to base cluster (jump host " +:+ sshJumpHost cfg +:+ "): ") err ""))
  | Ok c =>
      let! t := EstablishSSHTunnel (CX := background) "6445" in
      match t with
      | Err err => let! _ := ssh_Close c in mret (Err (ErrorfW "failed to establish base cluster tunnel: " err ""))
      | Ok info =>
          let fail err := let! _ := unlisten (StopFunc info) in let! _ := ssh_Close c in mret (Err err) in
          let! kc := GetKubeconfig buildConfig E2ETempDir (kubeConfigPath cfg) (sshJumpHost cfg) jump_user (jump_key key)
                       (Some c) E2ETempDir in
          match kc with
          | Err err => fail (ErrorfW "failed to get base cluster kubeconfig from jump host: " err "")
          | Ok (_, path) =>
              let! uerr := UpdateKubeconfigPort path (LocalPort info) in
              match uerr with
              | Some err => fail (ErrorfW "failed to update base cluster kubeconfig port: " err "")
              | None =>
                  let! k := buildConfig path in
                  match k with
                  | Err err => fail (ErrorfW "failed to build base cluster rest config: " err "")
                  | Ok k => mret (Ok (c, k, path, info))
                  end
              end
          end
      end
  end.

Definition with_base (r : TestClusterResources K) (c : Z) (k : K) (path : string) (info : TunnelInfo) : TestClusterResources K :=
  mkTC (SSHClient r) (Kubeconfig r) (KubeconfigPath r) (TunnelOf r) (ClusterDef r) (VMs r) (Some c) (Some k) path
    (Some (Forwarding info)) (SetupSSHClient r).

(** From the connection to the existing cluster on; [k] is its kubeconfig. *)
Definition use_connected (key : string) (r : TestClusterResources K) (k : K) : M W (result (TestClusterResources K)) :=
  let! name := lock_name in
  let! lerr := acquireLock k name in
  match lerr with
  | Some err =>
      let! _ := close_tunnel r in let! _ := close_client r in
      mret (Err (ErrorfW "failed to acquire cluster lock: " err ""))
  | None =>
      let give_back := let! _ := releaseLock k in let! _ := close_tunnel r in close_client r in
      let! herr := health_loop k 10 in
      match herr with
      | Some err => let! _ := give_back in mret (Err (ErrorfW "cluster health check failed after 10 attempts: " err ""))
      | None =>
          if uses_jump then
            let! base := base_connection key in
            match base with
            | Err err => let! _ := give_back in mret (Err err)
            | Ok (c, bk, path, info) => mret (Ok (with_base r c bk path info))
            end
          else mret (Ok r)
      end
  end.

Definition UseExistingCluster : M W (result (TestClusterResources K)) :=
  match LegacyVms.expandPath home (sshPrivateKey cfg) with
  | Err err => mret (Err (ErrorfW "failed to get SSH private key path: " err ""))
  | Ok key =>
      let! r := ConnectToCluster (existing_options key) in
      match r with
      | Err err => mret (Err (ErrorfW "failed to connect to existing cluster: " err ""))
      | Ok r => match Kubeconfig r with Some k => use_connected key r k | None => mret (Ok r) end
      end
  end.

(** ** [CleanupExistingCluster] *)

(** The errors that are collected. *)
Definition collect (what : string) (err : option error) : list error :=
  match err with Some e => [ErrorfW (what +:+ ": ") e ""] | None => [] end.

Definition cleanup_error (errs : list error) : option error :=
  match errs with [] => None | _ => Some (Errorf ("cleanup errors: " +:+ fmt_strings (map Error errs))) end.

Definition CleanupExistingCluster (resources : option (TestClusterResources K)) : M W (option error) :=
  match resources with
  | None => mret None
  | Some r =>
      let! e1 := match Kubeconfig r with Some k => releaseLock k | None => mret None end in
      let! e2 := match TunnelOf r with Some t => stop_tunnel t | None => mret None end in
      let! e3 := match SSHClient r with Some c => ssh_Close c | None => mret None end in
      mret (cleanup_error (collect "failed to release cluster lock" e1 ++ collect "failed to stop SSH tunnel" e2 ++
                           collect "failed to close SSH client" e3))
  end.

(** ** [connectViaProvider]

    The resources, whether the provider was used, and the error; [providerConnected] is set on
    success. *)
Definition connectViaProvider : M W (option (TestClusterResources K) * bool * option error * bool) :=
  let! p := findProvider K in
  match p with
  | NoProvider | NoConnector => mret (None, false, None, false)
  | BuildFailed mode err => mret (None, false, Some (ErrorfW ("build " +:+ mode +:+ " provider: ") err ""), false)
  | Connector mode =>
      let! conn := providerConnect in
      match conn with
      | Err err => mret (None, true, Some (ErrorfW ("connect via " +:+ mode +:+ " provider: ") err ""), false)
      | Ok (k, cleanup) =>
          let! name := lock_name in
          let! lerr := acquireLock k name in
          match lerr with
          | Some err =>
              let! _ := runCleanup K cleanup in
              mret (None, true, Some (ErrorfW "failed to acquire cluster lock: " err ""), false)
          | None =>
              let! herr := checkClusterHealthWithRetries k in
              match herr with
              | Some err =>
                  let! _ := releaseLock k in let! _ := runCleanup K cleanup in mret (None, true, Some err, false)
              | None =>
                  mret (Some (mkTC None (Some k) "" (Some (Provided cleanup)) None None None None "" None None), true, None, true)
              end
          end
      end
  end.
End Connect.
