(* ===== verification/LegacyConnectSafety.v ===== *)
(** What connecting the legacy way leaves open and locked: a connection is made completely or
    not at all, using an existing cluster gives back the lock and the connections when it fails,
    and what the cleanup of an existing cluster forgets. *)
From S2P Require Import Prelude Errors Retry Env LegacyVms SshConn SshDial DvpConfig Config Kube Kit LegacySsh LegacyRemote LegacySetup LegacyTunnel LegacyKubeconfig LegacyConnect.

Local Open Scope Z_scope.
Local Open Scope go_scope.

(** ** The parts of the world that are kept apart *)

(** The clients, the tunnels and the locks. *)
Definition net {W K} `{LegacySSH W, Listens W, SuiteOps W K} (w : W) : gmap Z string * gset Z * (K -> bool) :=
  (ssh_open w, listening w, fun k => lock_held k w).

Notation calm K := (keeps (net (K := K))).

(** Clients, tunnels and locks are changed by their own operations only; a lock that is taken is
    held, one that is given back is not, and an error may come with either. *)
Class SuiteLaws (W K : Type) `{LegacySSH W, LocalFiles W, LocalTexts W, Ctx W, Clock W, Listens W, SuiteOps W K} : Prop := {
  calm_read f : calm K (readFile f);
  calm_mkdir f : calm K (mkdirAll f);
  calm_create f : calm K (createFile f);
  calm_write f s : calm K (writeTo f s);
  calm_closef f : calm K (closeFile f);
  calm_remove f : calm K (removeFile f);
  calm_overwrite f s : calm K (writeFile f s);
  calm_links f : calm K (evalSymlinks f);
  calm_home : calm K homeDir;
  calm_capture c cmd : calm K (ExecCapture c cmd);
  calm_ctx : calm K ctxErr;
  calm_timer z : calm K (timerFires z);
  calm_sleep z : calm K (sleep z);
  calm_health (k : K) b : calm K (clusterHealth k b);
  calm_nano : calm K (nowNano K);
  calm_find : calm K (findProvider K);
  calm_connect : calm K (providerConnect (K := K));
  calm_cleanup h : calm K (runCleanup K h);
  calm_build f : calm K (buildConfig (K := K) f);
  client_listening l : keeps listening (NewClient l);
  jump_listening j l : keeps listening (NewClientWithJumpHost j l);
  close_listening c : keeps listening (ssh_Close c);
  client_locks l : keeps (fun w (k : K) => lock_held k w) (NewClient l);
  jump_locks j l : keeps (fun w (k : K) => lock_held k w) (NewClientWithJumpHost j l);
  close_locks c : keeps (fun w (k : K) => lock_held k w) (ssh_Close c);
  listen_open a : keeps ssh_open (listen a);
  unlisten_open p : keeps ssh_open (unlisten p);
  listen_locks a : keeps (fun w (k : K) => lock_held k w) (listen a);
  unlisten_locks p : keeps (fun w (k : K) => lock_held k w) (unlisten p);
  acquire_net (k : K) n : keeps (fun w => (ssh_open w, listening w)) (acquireLock k n);
  release_net (k : K) : keeps (fun w => (ssh_open w, listening w)) (releaseLock k);
  acquire_ok (k : K) n w w' : acquireLock k n w = (None, w') -> lock_held k w' = true;
  acquire_err (k : K) n w e w' : acquireLock k n w = (Some e, w') -> forall k' : K, lock_held k' w' = lock_held k' w;
  acquire_other (k : K) n w r w' k' : acquireLock k n w = (r, w') -> k' <> k -> lock_held k' w' = lock_held k' w;
  release_ok (k : K) w w' : releaseLock k w = (None, w') -> lock_held k w' = false;
  release_other (k : K) w r w' k' : releaseLock k w = (r, w') -> k' <> k -> lock_held k' w' = lock_held k' w
}.

#[export] Hint Resolve calm_read calm_mkdir calm_create calm_write calm_closef calm_remove calm_overwrite calm_links calm_home
  calm_capture calm_ctx calm_timer calm_sleep calm_health calm_nano calm_find calm_connect calm_cleanup calm_build : keeps.

Section Safety.
Context {W K : Type} `{LS : LegacySSH W, LF : !LocalFiles W, LT : !LocalTexts W, CX : !Ctx W, CL : !Clock W, LN : !Listens W}.
Context {SO : SuiteOps W K} {EK : EqDecision K} (cfg : Settings) (home : result string).
Context {LL : LegacySSHLaws W} {TL : ListensLaws W (H := background)} {SL : SuiteLaws W K}.

(** Since [w0] the clients [C] and the tunnels [T] were opened and kept. *)
Definition at_hand (w0 : W) (C T : gset Z) (w : W) : Prop :=
  dom (ssh_open w) = C ∪ dom (ssh_open w0) /\ C ## dom (ssh_open w0) /\ listening w = T ∪ listening w0 /\ T ## listening w0.

(** A lock that was not held before is that of [k]. *)
Definition locks_at_most (w0 : W) (ks : list K) (w : W) : Prop :=
  forall k, lock_held k w = true -> lock_held k w0 = true \/ k ∈ ks.

Definition state (w0 : W) (C T : gset Z) (ks : list K) (w : W) : Prop := at_hand w0 C T w /\ locks_at_most w0 ks w.

Lemma state_start w : state w ∅ ∅ [] w.
Proof. split; [split_and!; set_solver|]. intros k. by left. Qed.

Lemma state_calm {A} w0 C T ks w (m : M W A) a w' : calm K m -> m w = (a, w') -> state w0 C T ks w -> state w0 C T ks w'.
Proof.
  intros Hm E [(H1 & H2 & H3 & H4) Hk]. specialize (Hm w). rewrite E in Hm. unfold net in Hm. injection Hm as Ho Hl Hh. cbn in *.
  split; [split_and!; by rewrite ?Ho ?Hl|]. intros k Hlk. apply Hk.
  by pose proof (f_equal (fun f => f k) Hh) as <-.
Qed.

Lemma locks_kept {A} w0 ks w (m : M W A) a w' : keeps (fun w (k : K) => lock_held k w) m -> m w = (a, w') ->
  locks_at_most w0 ks w -> locks_at_most w0 ks w'.
Proof. intros Hm E Hk k Hlk. specialize (Hm w). rewrite E in Hm. apply Hk. by pose proof (f_equal (fun f => f k) Hm) as <-. Qed.

Lemma kept {A B} (f : W -> B) (m : M W A) w a w' : keeps f m -> m w = (a, w') -> f w' = f w.
Proof. intros Hm E. specialize (Hm w). by rewrite E in Hm. Qed.

(** A client that is opened, by either constructor. *)
Lemma state_dial w0 C T ks w (m : M W (result Z)) r w' l :
  keeps listening m -> keeps (fun w (k : K) => lock_held k w) m ->
  (forall w c w', m w = (Ok c, w') -> ssh_open w !! c = None /\ ssh_open w' = <[c := l]> (ssh_open w)) ->
  (forall w e w', m w = (Err e, w') -> ssh_open w' = ssh_open w) ->
  m w = (r, w') -> state w0 C T ks w -> state w0 (match r with Ok c => {[c]} ∪ C | Err _ => C end) T ks w' /\
    (forall c, r = Ok c -> c ∉ C).
Proof.
  intros Hl Hk Hok Herr E [(H1 & H2 & H3 & H4) Hlk]. apply (kept _ _ _ _ _ Hl) in E as El.
  pose proof (locks_kept _ _ _ _ _ _ Hk E Hlk). destruct r as [c|e].
  - apply Hok in E as [Hn Ho]. apply not_elem_of_dom in Hn. rewrite H1 in Hn.
    split; [|intros c' [= <-]; set_solver]. split; [|done]. split_and!; [|set_solver|by rewrite El|done].
    rewrite Ho dom_insert_L H1. set_solver.
  - apply Herr in E. split; [|done]. split; [|done]. split_and!; by rewrite ?E ?El.
Qed.

Lemma state_close w0 C T ks w c e w' : c ∉ dom (ssh_open w0) -> ssh_Close c w = (e, w') ->
  state w0 C T ks w -> state w0 (C ∖ {[c]}) T ks w'.
Proof.
  intros Hc E [(H1 & H2 & H3 & H4) Hlk]. apply (kept _ _ _ _ _ (close_listening c)) in E as El.
  pose proof (locks_kept _ _ _ _ _ _ (close_locks c) E Hlk). apply ssh_close_removes in E as [Ho _].
  split; [|done]. split_and!; [|set_solver|by rewrite El|done]. rewrite Ho dom_delete_L H1. set_solver.
Qed.

Lemma state_stop w0 C T ks w p e w' : p ∉ listening w0 -> unlisten p w = (e, w') ->
  state w0 C T ks w -> state w0 C (T ∖ {[p]}) ks w'.
Proof.
  intros Hp E [(H1 & H2 & H3 & H4) Hlk]. apply (kept _ _ _ _ _ (unlisten_open p)) in E as Eo.
  pose proof (locks_kept _ _ _ _ _ _ (unlisten_locks p) E Hlk). apply (unlisten_law (H := background)) in E.
  split; [|done]. split_and!; [by rewrite Eo|done| |set_solver]. rewrite E H3. set_solver.
Qed.

(** A tunnel that is opened: listening and closing listeners are all it does. *)
Lemma EstablishSSHTunnel_keeps {B} (f : W -> B) p : (forall a, keeps f (listen a)) -> (forall q, keeps f (unlisten q)) ->
  (forall z, keeps f (sleep z)) -> keeps f (EstablishSSHTunnel (CX := background) p).
Proof.
  intros Hl Hu Hs. unfold EstablishSSHTunnel, openTunnel. destruct (Atoi p) as [port|]; [|apply keeps_ret].
  generalize true, SSHRetryInitialDelay, (None : option error), (Z.to_nat SSHRetryCount). intros first d e n.
  revert first d e. induction n as [|n IH]; intros first d e; cbn [open_loop]; [apply keeps_ret|].
  unfold findFreePort, start_tunnel. cbn [timerFires ctxErr background]. keeping.
Qed.

Lemma state_tunnel w0 C T ks w p r w' : EstablishSSHTunnel (CX := background) p w = (r, w') -> state w0 C T ks w ->
  state w0 C (match r with Ok info => {[StopFunc info]} ∪ T | Err _ => T end) ks w' /\
  (forall info, r = Ok info -> StopFunc info ∉ T).
Proof.
  intros E [(H1 & H2 & H3 & H4) Hlk].
  assert (Eo : ssh_open w' = ssh_open w).
  { eapply kept, E. apply EstablishSSHTunnel_keeps; [apply listen_open|apply unlisten_open|].
    intros z v. pose proof (calm_sleep (K := K) z v) as Hs. unfold net in Hs. by injection Hs. }
  assert (Hk : locks_at_most w0 ks w').
  { eapply locks_kept, Hlk; [|exact E]. apply EstablishSSHTunnel_keeps; [apply listen_locks|apply unlisten_locks|].
    intros z v. pose proof (calm_sleep (K := K) z v) as Hs. unfold net in Hs. by injection Hs. }
  apply (openTunnel_spec (CX := background)) in E. destruct r as [info|e]; cbn in E.
  - destruct E as (_ & Hn & Hl & _). rewrite H3 in Hn. split; [|intros i [= <-]; set_solver]. split; [|done].
    split_and!; [by rewrite Eo|done| |set_solver]. rewrite Hl H3. set_solver.
  - split; [|done]. split; [|done]. split_and!; by rewrite ?E ?Eo.
Qed.

(** Stopping a tunnel and closing a client that were just opened. *)
Lemma state_unstop w0 C T ks w p e w' : p ∉ T -> unlisten p w = (e, w') -> state w0 C ({[p]} ∪ T) ks w -> state w0 C T ks w'.
Proof.
  intros Hp E H. pose proof H as [(_ & _ & _ & Hd) _]. assert (H' : state w0 C (({[p]} ∪ T) ∖ {[p]}) ks w') by (eapply state_stop; [|exact E|exact H]; set_solver).
  by replace T with (({[p]} ∪ T) ∖ {[p]}) by set_solver.
Qed.
Lemma state_unclose w0 C T ks w c e w' : c ∉ C -> ssh_Close c w = (e, w') -> state w0 ({[c]} ∪ C) T ks w -> state w0 C T ks w'.
Proof.
  intros Hc E H. pose proof H as [(_ & Hd & _) _]. assert (H' : state w0 (({[c]} ∪ C) ∖ {[c]}) T ks w') by (eapply state_close; [|exact E|exact H]; set_solver).
  by replace C with (({[c]} ∪ C) ∖ {[c]}) by set_solver.
Qed.

Lemma GetKubeconfig_calm ip user key c dir :
  calm K (GetKubeconfig (buildConfig (K := K)) E2ETempDir (kubeConfigPath cfg) ip user key (Some c) dir).
Proof.
  unfold GetKubeconfig, with_client, kubeconfig_content, LegacyKubeconfig.expandPath, write_kubeconfig. keeping.
Qed.
Lemma UpdateKubeconfigPort_calm p port : calm K (UpdateKubeconfigPort p port).
Proof. unfold UpdateKubeconfigPort. keeping. Qed.

Lemma tunnel_and_config_state w0 C T ks ip user key dir c w r w' :
  state w0 C T ks w -> tunnel_and_config cfg ip user key dir c w = (r, w') ->
  match r with
  | Ok (_, _, info) => StopFunc info ∉ T /\ state w0 C ({[StopFunc info]} ∪ T) ks w'
  | Err _ => state w0 C T ks w'
  end.
Proof.
  intros H E. unfold tunnel_and_config in E. mstep E as [t w1] E1. eapply state_tunnel in E1 as [H1 Hn]; [|exact H].
  destruct t as [info|e]; [|by injection E as <- <-]. specialize (Hn _ eq_refl).
  mstep E as [kc w2] E2. eapply state_calm in H1; [|apply GetKubeconfig_calm|exact E2].
  destruct kc as [[k1 path]|e]; [|mstep E as [se w3] E3; injection E as <- <-; by eapply state_unstop].
  mstep E as [ue w3] E3. eapply state_calm in H1; [|apply UpdateKubeconfigPort_calm|exact E3].
  destruct ue as [e|]; [mstep E as [se w4] E4; injection E as <- <-; by eapply state_unstop|].
  mstep E as [k w4] E4. eapply state_calm in H1; [|apply calm_build|exact E4].
  destruct k as [k|e]; [by injection E as <- <-|]. mstep E as [se w5] E5; injection E as <- <-; by eapply state_unstop.
Qed.

Lemma ssh_attempts_state what connect l w0 C T ks n first d e w r w' :
  keeps listening connect -> keeps (fun w (k : K) => lock_held k w) connect ->
  (forall w c w', connect w = (Ok c, w') -> ssh_open w !! c = None /\ ssh_open w' = <[c := l]> (ssh_open w)) ->
  (forall w e w', connect w = (Err e, w') -> ssh_open w' = ssh_open w) ->
  state w0 C T ks w -> ssh_attempts what connect n first d e w = (r, w') ->
  state w0 (match r with Ok c => {[c]} ∪ C | Err _ => C end) T ks w' /\ (forall c, r = Ok c -> c ∉ C).
Proof.
  intros Hl Hk Hok Herr. revert first d e w. induction n as [|n IH]; intros first d e w H E; cbn [ssh_attempts] in E.
  { by injection E as <- <-. }
  mstep E as [go w1] E1. eapply (state_calm _ _ _ _ _ (if first then mret true else timerFires d)) in H;
    [|destruct first; eauto with keeps|exact E1]. destruct go.
  - mstep E as [x w2] E2. eapply state_dial in E2 as [H2 Hn]; [|done..]. destruct x as [c|err]; [by injection E as <- <-|].
    by eapply IH in E.
  - mstep E as [ce w2] E2. eapply state_calm in H; [|apply calm_ctx|exact E2]. by injection E as <- <-.
Qed.

Lemma ssh_of_state opts w0 C T ks w r w' : state w0 C T ks w -> (ssh_of opts).1.1 w = (r, w') ->
  state w0 (match r with Ok c => {[c]} ∪ C | Err _ => C end) T ks w' /\ (forall c, r = Ok c -> c ∉ C).
Proof.
  intros H E. unfold ssh_of in E. destruct (co_UseJumpHost opts); cbn [fst] in E.
  - eapply ssh_attempts_state in E; [exact E|apply jump_listening|apply jump_locks| | |exact H].
    + intros v c v' Hv. apply jump_ok in Hv as (Hn & Ho & _). eauto.
    + intros v e v' Hv. by apply jump_err in Hv as [? _].
  - eapply ssh_attempts_state in E; [exact E|apply client_listening|apply client_locks| | |exact H].
    + intros v c v' Hv. apply client_ok in Hv as (Hn & Ho & _). eauto.
    + intros v e v' Hv. by apply client_err in Hv as [? _].
Qed.

(** The resources of one connection. *)
Definition connection (r : TestClusterResources K) (c : Z) (k : K) (info : TunnelInfo) : Prop :=
  SSHClient r = Some c /\ Kubeconfig r = Some k /\ TunnelOf r = Some (Forwarding info) /\
  BaseClusterClient r = None /\ BaseTunnel r = None /\ SetupSSHClient r = None.

Lemma ConnectToCluster_state w0 C T ks opts w r w' :
  state w0 C T ks w -> ConnectToCluster cfg opts w = (r, w') ->
  match r with
  | Ok res => exists c k info, connection res c k info /\ c ∉ C /\ StopFunc info ∉ T /\
                state w0 ({[c]} ∪ C) ({[StopFunc info]} ∪ T) ks w'
  | Err _ => state w0 C T ks w'
  end.
Proof.
  intros H E. unfold ConnectToCluster in E. destruct (connect_options_error opts); [by injection E as <- <-|].
  destruct (ssh_of opts) as [[dial ip] user] eqn:Ed. mstep E as [c w1] E1.
  eapply (ssh_of_state opts) in H as [H1 Hn]; [|by rewrite Ed]. destruct c as [c|e]; [|by injection E as <- <-].
  mstep E as [x w2] E2. eapply tunnel_and_config_state in E2; [|exact H1]. destruct x as [[[k path] info]|e].
  - injection E as <- <-. destruct E2 as [Hs H2]. exists c, k, info. split; [done|]. split; [by apply Hn|done].
  - mstep E as [ce w3] E3. injection E as <- <-. eapply state_unclose; [by apply Hn|exact E3|done].
Qed.

(** [ConnectToCluster] is all or nothing: with an error no client and no tunnel it opened
    remains, whatever failed; without, exactly the client and the tunnel it returns do. No lock
    is taken. *)
Theorem ConnectToCluster_spec opts w r w' : ConnectToCluster cfg opts w = (r, w') ->
  match r with
  | Ok res => exists c k info, connection res c k info /\ state w {[c]} {[StopFunc info]} [] w'
  | Err _ => state w ∅ ∅ [] w'
  end.
Proof.
  intros E. apply (ConnectToCluster_state w ∅ ∅ []) in E; [|apply state_start]. destruct r as [res|e]; [|done].
  destruct E as (c & k & info & Hc & _ & _ & H). exists c, k, info. split; [done|]. by rewrite !union_empty_r_L in H.
Qed.

(** ** Locks *)
Definition locks (w : W) : K -> bool := fun k => lock_held k w.

Lemma calm_locks {A} (m : M W A) : calm K m -> keeps locks m.
Proof. intros Hm w. specialize (Hm w). unfold net in Hm. by injection Hm. Qed.
Hint Resolve calm_locks client_locks jump_locks close_locks listen_locks unlisten_locks GetKubeconfig_calm UpdateKubeconfigPort_calm : keeps.

Lemma lock_kept {A} (m : M W A) k w a w' : keeps locks m -> m w = (a, w') -> lock_held k w' = lock_held k w.
Proof. intros Hm E. exact (f_equal (fun f : K -> bool => f k) (kept locks m w a w' Hm E)). Qed.

Lemma tunnel_locks p : keeps locks (EstablishSSHTunnel (CX := background) p).
Proof. apply EstablishSSHTunnel_keeps; [apply listen_locks|apply unlisten_locks|]. intros z. apply calm_locks, calm_sleep. Qed.
Hint Resolve tunnel_locks : keeps.

Lemma health_loop_calm (k : K) n : calm K (health_loop k n).
Proof. induction n as [|n IH]; cbn [health_loop]; keeping. Qed.

Lemma base_connection_locks key : keeps locks (base_connection cfg key).
Proof. unfold base_connection. cbv zeta. keeping. apply calm_locks, calm_build. Qed.

Lemma lock_name_calm : calm K (lock_name (K := K) cfg).
Proof. unfold lock_name. keeping. Qed.

Lemma state_acquire w0 C T k n w r w' : acquireLock k n w = (r, w') -> state w0 C T [] w ->
  state w0 C T (match r with None => [k] | Some _ => [] end) w'.
Proof.
  intros E [(H1 & H2 & H3 & H4) Hk]. pose proof (kept _ _ _ _ _ (acquire_net k n) E) as Hn. injection Hn as Ho Hl.
  split; [split_and!; by rewrite ?Ho ?Hl|]. destruct r as [e|].
  - intros k' Hk'. apply Hk. by rewrite -(acquire_err _ _ _ _ _ E).
  - intros k' Hk'. destruct (decide (k' = k)) as [->|Hne]; [right; by left|].
    rewrite (acquire_other _ _ _ _ _ _ E Hne) in Hk'. left. destruct (Hk _ Hk') as [|Hin]; [done|by apply elem_of_nil in Hin].
Qed.

Lemma state_release w0 C T k w r w' : releaseLock k w = (r, w') -> state w0 C T [k] w ->
  state w0 C T (match r with None => [] | Some _ => [k] end) w'.
Proof.
  intros E [(H1 & H2 & H3 & H4) Hk]. pose proof (kept _ _ _ _ _ (release_net k) E) as Hn. injection Hn as Ho Hl.
  split; [split_and!; by rewrite ?Ho ?Hl|]. intros k' Hk'. destruct (decide (k' = k)) as [->|Hne].
  - destruct r; [right; by left|]. apply release_ok in E. congruence.
  - rewrite (release_other _ _ _ _ _ E Hne) in Hk'. left. destruct (Hk _ Hk') as [|Hin]; [done|]. set_solver.
Qed.

(** Giving back what a connection holds. *)
Lemma close_both_state w0 C T ks r c k info w u w' : connection r c k info -> c ∉ C -> StopFunc info ∉ T ->
  state w0 ({[c]} ∪ C) ({[StopFunc info]} ∪ T) ks w ->
  (let! _ := close_tunnel r in close_client r) w = (u, w') -> state w0 C T ks w'.
Proof.
  intros (Hc & _ & Ht & _) Hcn Htn H E. unfold close_tunnel, close_client in E. rewrite Hc Ht in E.
  mstep E as [u1 w1] E1. mstep E1 as [e1 w2] E2. injection E1 as <- <-. mstep E as [e2 w3] E3. injection E as <- <-.
  eapply state_unclose; [exact Hcn|exact E3|]. by eapply state_unstop.
Qed.

(** A failure after the lock was taken: it is given back, unless that fails. *)
Definition gave_back (w0 : W) (k : K) (w' : W) : Prop :=
  state w0 ∅ ∅ [] w' \/ (state w0 ∅ ∅ [k] w' /\ exists w1 e w2, releaseLock k w1 = (Some e, w2)).

Lemma give_back_state w0 r c k info w u w' : connection r c k info ->
  state w0 {[c]} {[StopFunc info]} [k] w ->
  (let! _ := releaseLock k in let! _ := close_tunnel r in close_client r) w = (u, w') -> gave_back w0 k w'.
Proof.
  intros Hr H E. mstep E as [e w1] E1. pose proof E1 as E1'. eapply state_release in E1; [|exact H].
  assert (Hs : state w0 ∅ ∅ (match e with None => [] | Some _ => [k] end) w').
  { eapply close_both_state; [exact Hr| | |by rewrite !union_empty_r_L|exact E]; set_solver. }
  destruct e as [e|]; [right; eauto 6|by left].
Qed.

(** The base cluster: its client and its tunnel, or nothing. *)
Lemma base_connection_state w0 C T ks key w r w' : state w0 C T ks w -> base_connection cfg key w = (r, w') ->
  match r with
  | Ok (c, _, _, info) => c ∉ C /\ StopFunc info ∉ T /\ state w0 ({[c]} ∪ C) ({[StopFunc info]} ∪ T) ks w'
  | Err _ => state w0 C T ks w'
  end.
Proof.
  intros H E. unfold base_connection in E. mstep E as [c w1] E1.
  eapply state_dial in E1 as [H1 Hn]; [|apply client_listening|apply client_locks| | |exact H].
  2:{ intros v c' v' Hv. apply client_ok in Hv as (? & ? & _). eauto. }
  2:{ intros v e v' Hv. by apply client_err in Hv as [? _]. }
  destruct c as [c|e]; [|by injection E as <- <-]. specialize (Hn _ eq_refl).
  mstep E as [t w2] E2. eapply state_tunnel in E2 as [H2 Hs]; [|exact H1].
  destruct t as [info|e]; [|mstep E as [ce w3] E3; injection E as <- <-; by eapply state_unclose]. specialize (Hs _ eq_refl).
  assert (Hfail : forall v u v' (x : error), state w0 ({[c]} ∪ C) ({[StopFunc info]} ∪ T) ks v ->
    (let! _ := unlisten (StopFunc info) in let! _ := ssh_Close c in mret (Err x)) v = (u, v') ->
    match u : result (Z * K * string * TunnelInfo) with Ok _ => False | Err _ => state w0 C T ks v' end).
  { intros v u v' x Hv Eu. mstep Eu as [e1 v1] F1. mstep Eu as [e2 v2] F2. injection Eu as <- <-.
    eapply state_unclose; [exact Hn|exact F2|]. by eapply state_unstop. }
  mstep E as [kc w3] E3. eapply state_calm in H2; [|apply GetKubeconfig_calm|exact E3].
  destruct kc as [[k1 path]|e]; [|by apply Hfail in E; [destruct r|]].
  mstep E as [ue w4] E4. eapply state_calm in H2; [|apply UpdateKubeconfigPort_calm|exact E4].
  destruct ue as [e|]; [by apply Hfail in E; [destruct r|]|].
  mstep E as [k w5] E5. eapply state_calm in H2; [|apply calm_build|exact E5].
  destruct k as [k|e]; [by injection E as <- <-|]. by apply Hfail in E; [destruct r|].
Qed.

(** ** Using an existing cluster *)

Definition clients_of (o : option Z) : gset Z := match o with Some c => {[c]} | None => ∅ end.
Definition tunnels_of (o : option tunnel) : gset Z := match o with Some (Forwarding i) => {[StopFunc i]} | _ => ∅ end.

(** What the resources hold: the connection to the cluster and, apart from it, that to its base
    cluster, which there is exactly with a jump host; and the lock. *)
Definition in_use (w0 : W) (r : TestClusterResources K) (w' : W) : Prop :=
  exists c k info, SSHClient r = Some c /\ Kubeconfig r = Some k /\ TunnelOf r = Some (Forwarding info) /\
    c ∉ clients_of (BaseClusterClient r) /\ StopFunc info ∉ tunnels_of (BaseTunnel r) /\
    state w0 ({[c]} ∪ clients_of (BaseClusterClient r)) ({[StopFunc info]} ∪ tunnels_of (BaseTunnel r)) [k] w' /\
    lock_held k w' = true /\
    (uses_jump cfg = true <-> exists b i, BaseClusterClient r = Some b /\ BaseTunnel r = Some (Forwarding i)).

Lemma use_connected_spec w0 key r c k info w res w' :
  connection r c k info -> state w0 {[c]} {[StopFunc info]} [] w -> use_connected cfg key r k w = (res, w') ->
  match res with Ok r' => in_use w0 r' w' | Err _ => gave_back w0 k w' end.
Proof.
  intros Hr H E. unfold use_connected in E. mstep E as [name w1] E1. eapply state_calm in H; [|apply lock_name_calm|exact E1].
  mstep E as [le w2] E2. pose proof E2 as E2'. eapply state_acquire in E2; [|exact H]. destruct le as [e|].
  { mstep E as [u w3] E3. mstep E as [u' w4] E4. injection E as <- <-. left.
    eapply (close_both_state w0 ∅ ∅ [] r c k info w2 u'); [done|set_solver|set_solver|by rewrite !union_empty_r_L|].
    unfold mbind, M_bind. by rewrite E3. }
  apply acquire_ok in E2'.
  mstep E as [he w3] E3. pose proof (lock_kept _ k _ _ _ (calm_locks _ (health_loop_calm k 10)) E3) as L3.
  eapply state_calm in E2; [|apply health_loop_calm|exact E3]. destruct he as [e|].
  { mstep E as [[] w4] E4. injection E as <- <-. by eapply give_back_state. }
  rewrite E2' in L3.
  destruct (uses_jump cfg) eqn:Hj.
  - mstep E as [b w4] E4. pose proof (lock_kept _ k _ _ _ (base_connection_locks key) E4) as L4.
    eapply base_connection_state in E4; [|exact E2]. destruct b as [[[[bc bk] path] bi]|e].
    + injection E as <- <-. destruct E4 as (Hbc & Hbi & H4). destruct Hr as (Hc & Hk & Ht & _).
      exists c, k, info. cbn.
      apply not_elem_of_singleton in Hbc, Hbi.
      rewrite (union_comm_L {[bc]}) (union_comm_L {[StopFunc bi]}) in H4.
      split_and!; [done|done|done|by apply not_elem_of_singleton|by apply not_elem_of_singleton|done|by rewrite L4|split; eauto].
    + mstep E as [[] w5] E5. injection E as <- <-. by eapply give_back_state.
  - injection E as <- <-. destruct Hr as (Hc & Hk & Ht & Hb & Hbt & _). exists c, k, info. rewrite Hb Hbt. cbn.
    split_and!; try done; [by rewrite !union_empty_r_L|]. split; [congruence|]. by intros (? & ? & ? & _).
Qed.

(** Cleaning up gives the lock back, closes the client and the tunnel of the cluster, and leaves
    the connection to the base cluster. *)
Lemma cleanup_existing w0 res w err w' : in_use w0 res w -> CleanupExistingCluster (Some res) w = (err, w') ->
  at_hand w0 (clients_of (BaseClusterClient res)) (tunnels_of (BaseTunnel res)) w' /\
  (err = None -> locks_at_most w0 [] w') /\
  (locks_at_most w0 [] w' \/ exists k v1 e v2, releaseLock k v1 = (Some e, v2)).
Proof.
  intros (c & k & info & Hc & Hk & Ht & Hcn & Htn & H & _ & Hj) F.
  unfold CleanupExistingCluster in F. rewrite Hc Hk Ht in F. cbn [stop_tunnel] in F.
  mstep F as [e1 v1] F1. pose proof F1 as F1'. eapply state_release in F1; [|exact H].
  mstep F as [e2 v2] F2. eapply state_unstop in F2; [|exact Htn|exact F1].
  mstep F as [e3 v3] F3. eapply state_unclose in F3; [|exact Hcn|exact F2]. injection F as <- <-. destruct F3 as [Ha Hl].
  split; [done|]. destruct e1 as [e1|]; [|by split; [|left]]. split; [done|]. right. eauto.
Qed.

(** Nothing remains, but a lock that could not be given back. *)
Definition all_back (w w' : W) : Prop :=
  exists ks, state w ∅ ∅ ks w' /\ (ks = [] \/ exists k w1 e w2, ks = [k] /\ releaseLock k w1 = (Some e, w2)).

Lemma UseExistingCluster_state w r w' : UseExistingCluster cfg home w = (r, w') ->
  match r with Ok res => in_use w res w' | Err _ => all_back w w' end.
Proof.
  intros E. unfold UseExistingCluster in E. destruct (LegacyVms.expandPath home (sshPrivateKey cfg)) as [key|e].
  2:{ injection E as <- <-. exists []. split; [apply state_start|by left]. }
  mstep E as [x w1] E1. apply (ConnectToCluster_state w ∅ ∅ []) in E1; [|apply state_start].
  destruct x as [res|e]; [|injection E as <- <-; exists []; by split; [|left]].
  destruct E1 as (c & k & info & Hr & _ & _ & H1). rewrite !union_empty_r_L in H1.
  assert (Hk : Kubeconfig res = Some k) by apply Hr. rewrite Hk in E.
  eapply use_connected_spec in E; [|exact Hr|exact H1]. destruct r as [res'|e]; [done|].
  destruct E as [H|[H (v1 & e' & v2 & Hrel)]]; [exists []; by split; [|left]|]. exists [k]. split; [done|]. right. eauto 8.
Qed.

(** [UseExistingCluster] takes the lock of the cluster and holds a client and a tunnel to it,
    and to the base cluster when there is a jump host; when it fails none of its connections
    remains and the lock is given back, unless giving it back fails. *)
Theorem UseExistingCluster_spec w r w' : UseExistingCluster cfg home w = (r, w') ->
  match r with Ok res => in_use w res w' | Err _ => all_back w w' end.
Proof. apply UseExistingCluster_state. Qed.

(** C28: [CleanupExistingCluster] closes the client and the tunnel of the cluster and, when it
    reports no error, has given back the lock; the connection to the base cluster that
    [UseExistingCluster] made for a jump host is left open. *)
Theorem existing_cluster_cleanup w res w1 err w2 :
  UseExistingCluster cfg home w = (Ok res, w1) -> CleanupExistingCluster (Some res) w1 = (err, w2) ->
  at_hand w (clients_of (BaseClusterClient res)) (tunnels_of (BaseTunnel res)) w2 /\
  (err = None -> locks_at_most w [] w2) /\
  (uses_jump cfg = true <-> exists b i, BaseClusterClient res = Some b /\ BaseTunnel res = Some (Forwarding i)).
Proof.
  intros E F. apply UseExistingCluster_state in E. pose proof E as (_ & _ & _ & _ & _ & _ & _ & _ & _ & _ & Hj).
  eapply cleanup_existing in F as (Ha & Hl & _); [|exact E]. done.
Qed.
End Safety.
