(* ===== verification/LegacyCreate.v ===== *)
(** Creating and cleaning up a test cluster the legacy way ([src/pkg/cluster/cluster.go]):
    [CreateTestCluster] with its resume state, its waits and what every error path closes,
    [CleanupTestCluster], and [WaitForTestClusterReady]. The stages over SSH are those of
    [LegacySetup]; the stages over the API of the base and of the test cluster are an
    interface. *)
From S2P Require Import Prelude Errors Retry Env Provision LegacyVms SshConn SshDial DvpConfig Config Kube Kit Pool Bootstrap Dhctl LegacySsh LegacyRemote LegacySetup LegacyTunnel LegacyKubeconfig LegacyConnect.

Local Open Scope Z_scope.
Local Open Scope go_scope.

(** The timeouts of [config.go] that are used here only. *)
Definition VMCreationTimeout : Z := 20 * Minute.
Definition VMInfoTimeout : Z := 30 * Second.
Definition SetupNodeSSHReadyTimeout : Z := 5 * Minute.
Definition DKPDeployTimeout : Z := 30 * Minute.
Definition DockerInstallTimeout : Z := 10 * Minute.
Definition BootstrapUploadTimeout : Z := 5 * Minute.
Definition ClusterCreationTimeout : Z := 90 * Minute.

(** ** The resume state *)
Record resumeState := mkResume {
  FirstMasterIP : string;
  rs_Namespace : string;
  rs_VMNames : list string;
  rs_SetupVMName : string;
  MasterHostnames : list string;
  WorkerHostnames : list string
}.

Definition clusterStatePath : string := path_Join [E2ETempDir; "cluster-state.json"].

Section State.
Context {W : Type} `{LF : LocalFiles W, LT : !LocalTexts W}.
(** [encoding/json] on [resumeState]. *)
Context (marshal : resumeState -> result string) (unmarshal : string -> result resumeState).

Definition saveClusterState (state : resumeState) : M W (option error) :=
  let! err := mkdirAll (path_Dir clusterStatePath) in
  match err with
  | Some err => mret (Some err)
  | None =>
      match marshal state with
      | Err err => mret (Some err)
      | Ok data => writeFile clusterStatePath data
      end
  end.

Definition state_complete (state : resumeState) : bool :=
  negb (String.eqb (FirstMasterIP state) "") && negb (String.eqb (rs_Namespace state) "") &&
  match rs_VMNames state with [] => false | _ => true end.

Definition loadClusterState : M W (result resumeState) :=
  let! data := readFile clusterStatePath in
  mret match data with
       | Err err => Err err
       | Ok data =>
           match unmarshal data with
           | Err err => Err err
           | Ok state => if state_complete state then Ok state
                         else Err (Errorf "invalid cluster state: missing required fields")
           end
       end.
End State.

(** ** The definition of the cluster *)

(** [yaml.Unmarshal] and the environment are parameters. *)
Definition loadClusterConfigFromPath (parsed : string -> result ClusterDefinition) (getenv : string -> string)
    (configPath : string) (data : result string) : result ClusterDefinition :=
  match data with
  | Err err => Err (ErrorfW ("failed to read config file " +:+ configPath +:+ ": ") err "")
  | Ok data =>
      match parsed data with
      | Err err => Err (ErrorfW "failed to parse YAML config: " err "")
      | Ok def =>
          let def := (ApplyModulePullOverrideEnv getenv def).1 in
          match ValidateModulePullOverrides def with
          | Some err => Err err
          | None =>
              match Masters def with
              | [] => Err (Errorf "at least one master node is required")
              | _ =>
                  let dkp := DKP def in
                  if String.eqb (PodSubnetCIDR dkp) "" then Err (Errorf "dkpParameters.podSubnetCIDR is required")
                  else if String.eqb (ServiceSubnetCIDR dkp) "" then Err (Errorf "dkpParameters.serviceSubnetCIDR is required")
                  else if String.eqb (ClusterDomain dkp) "" then Err (Errorf "dkpParameters.clusterDomain is required")
                  else if String.eqb (RegistryRepo dkp) "" then Err (Errorf "dkpParameters.registryRepo is required")
                  else Ok def
              end
          end
      end
  end.

(** The directory of the first of ten callers that is under [tests/]. *)
Definition test_dir (callers : list string) : option string :=
  path_Dir <$> List.find (fun f => Contains f "/tests/") (firstn 10 callers).

Fixpoint restore_hostnames (hostnames : list string) (nodes : list ClusterNode) : list ClusterNode :=
  match hostnames, nodes with
  | h :: hostnames, n :: nodes => with_hostname h n :: restore_hostnames hostnames nodes
  | _, nodes => nodes
  end.

Definition restored (state : resumeState) (def : ClusterDefinition) : ClusterDefinition :=
  mkDef (restore_hostnames (MasterHostnames state) (Masters def)) (restore_hostnames (WorkerHostnames state) (Workers def))
    (Setup def) (DKP def).

Definition true_ (v : string) : bool := String.eqb v "true" || String.eqb v "True".
Definition false_ (v : string) : bool := String.eqb v "false" || String.eqb v "False".

(** ** The stages over the API of a cluster

    A cluster is given by its configuration [K]. The machines are those of [LegacyVms], the
    node group and the modules those of [Deckhouse] and of the test kit; joining the nodes is
    that of [LegacySetup]. *)
Class Stages (W K : Type) := {
  moduleReady : K -> string -> Z -> M W (option error);
  namespaceThere : K -> string -> M W (option error);
  virtClient : K -> M W (option error);
  createMachines : K -> ClusterDefinition -> M W (result (list string * VMResources));
  machinePhase : K -> string -> string -> M W (result string);
  gatherInfo : K -> string -> ClusterDefinition -> VMResources -> M W (option error * ClusterDefinition);
  removeMachine : K -> string -> string -> M W (option error);
  removeMachines : VMResources -> M W (option error);
  staticNodeGroup : K -> string -> M W (option error);
  clientset : K -> M W (option error);
  secretThere : K -> string -> string -> M W (option error);
  addNodes : K -> ClusterDefinition -> login -> M W (option error);
  nodesReady : K -> ClusterDefinition -> Z -> M W (option error);
  enableModules : K -> ClusterDefinition -> option Z -> M W (option error);
  modulesReady : K -> ClusterDefinition -> Z -> M W (option error);
  stressCleanup : K -> M W (option error);
  randomIndex : Z -> M W Z
}.
Arguments removeMachines {W} K {_} _.
Arguments randomIndex {W} K {_} _.

Section Create.
Context {W K : Type} `{LS : LegacySSH W, LF : !LocalFiles W, LT : !LocalTexts W, CX : !Ctx W, CL : !Clock W, LN : !Listens W}.
Context `{SC : Scope W} {SO : SuiteOps W K} {ST : Stages W K} (cfg : Settings) (home : result string).
Context (marshal : resumeState -> result string) (unmarshal : string -> result resumeState).
Context (parsed : string -> result ClusterDefinition) (getenv : string -> string) (callers : list string).
(** What the stages of [LegacySetup] are given. *)
Context (SSHPassphrase : string).
Context (parseTemplate : string -> option error) (execTemplate : string -> bootstrapParams -> string * option error).
Context (unmarshalInit : string -> result (string * string)).
Context (marshal_cfg : dhctlSSHConfigManifest -> result string) (marshal_host : dhctlSSHHostManifest -> result string).
Context (thisFile : option string) (Abs : string -> result string) (pid : Z) (timestamp : M W string).
Context (sched : list nat) (fuel : nat).

(** [None]: the fuel of a wait ran out. *)
Definition built : Type := option (ending (result (TestClusterResources K))).
Definition refused (err : error) : built := Some (Returns (Err err)).

(** [if err != nil { undo; return nil, wrap(err) }]. *)
Definition must (wrap : error -> error) (undo : M W unit) (err : option error) (k : M W built) : M W built :=
  match err with
  | Some err => let! _ := undo in mret (refused (wrap err))
  | None => k
  end.
Definition wrapping (what : string) (err : error) : error := ErrorfW (what +:+ ": ") err "".

(** A wait that may run out of fuel. *)
Definition must_wait (wrap : error -> error) (undo : M W unit) (r : option (option error)) (k : M W built) : M W built :=
  match r with
  | None => mret None
  | Some err => must wrap undo err k
  end.

Definition base_options (key : string) : ConnectClusterOptions :=
  if uses_jump cfg
  then mkConnectOptions (jump_user cfg) (sshJumpHost cfg) (jump_key cfg key) true "" "" "" (sshUser cfg) (sshHost cfg) key E2ETempDir
  else mkConnectOptions (sshUser cfg) (sshHost cfg) key false "" "" "" "" "" "" E2ETempDir.

(** The first hop: the jump host, or the base cluster. *)
Definition hop (key : string) : login :=
  if uses_jump cfg then mkLogin (jump_user cfg) (sshJumpHost cfg) (jump_key cfg key)
  else mkLogin (sshUser cfg) (sshHost cfg) key.

Definition test_options (key masterIP : string) : ConnectClusterOptions :=
  let h := hop key in
  mkConnectOptions (login_user h) (login_host h) (login_key h) true "" "" "" (Env.VMSSHUser (vars cfg)) masterIP key E2ETempDir.

(** The resources of a test cluster with its base cluster and its setup node. *)
Definition with_all (t base : TestClusterResources K) (def : ClusterDefinition) (vms : VMState) (setup : option Z)
    : TestClusterResources K :=
  mkTC (SSHClient t) (Kubeconfig t) (KubeconfigPath t) (TunnelOf t) (Some def) (Some vms) (SSHClient base) (Kubeconfig base)
    (KubeconfigPath base) (TunnelOf base) setup.

(** [baseClusterResources.SSHClient.Close(); baseClusterResources.TunnelInfo.StopFunc()]. *)
Definition undo_base (base : TestClusterResources K) : M W unit :=
  let! _ := close_client base in close_tunnel base.
Definition undo_setup (setup : Z) (base : TestClusterResources K) : M W unit :=
  let! _ := ssh_Close setup in undo_base base.

(** From step 14 on the tunnel of the base cluster is not stopped. *)
Definition undo_late (setup : Z) (base : TestClusterResources K) : M W unit :=
  let! _ := ssh_Close setup in close_client base.
Definition undo_test (t : TestClusterResources K) (setup : Z) (base : TestClusterResources K) : M W unit :=
  let! _ := close_client t in let! _ := close_tunnel t in undo_late setup base.

(** ** The resume path: connect to the cluster of the saved state

    The state is read a second time, and used whether or not that succeeds. *)
Definition set_first_ip (ip : string) (def : ClusterDefinition) : ClusterDefinition :=
  mkDef match Masters def with n :: l => Provision.set_ip ip n :: l | [] => [] end (Workers def) (Setup def) (DKP def).

Definition resume (key : string) (def : ClusterDefinition) (base : TestClusterResources K) : M W built :=
  let! state := loadClusterState unmarshal in
  match state with
  | Err _ => mret (Some Panics)
  | Ok state =>
      let def := set_first_ip (FirstMasterIP state) def in
      if String.eqb (FirstMasterIP state) "" then
        let! _ := undo_base base in mret (refused (Errorf "resume: first_master_ip missing in cluster state"))
      else
        let! t := ConnectToCluster cfg (test_options key (FirstMasterIP state)) in
        match t with
        | Err err => let! _ := undo_base base in mret (refused (wrapping "resume: connect to test cluster" err))
        | Ok t =>
            let vms := mkVMState false (mkResources "" (rs_VMNames state) [] (rs_SetupVMName state)) in
            mret (Some (Returns (Ok (with_all t base def vms None))))
        end
  end.

(** ** The virtual machines *)

(** One tick of the wait for a machine; the local variable says whether it was seen running. *)
Definition machine_round (k : K) (ns name : string) : call W bool := fun running =>
  if running : bool then mret (Returns (Ok true))
  else
    let! fired := timerFires (10 * Second) in
    if fired : bool then
      let! phase := machinePhase k ns name in
      mret (Returns (Ok match phase with Err _ => false | Ok phase => String.eqb phase "Running" end))
    else mret (Returns (Err (Errorf ("timeout waiting for VM " +:+ name +:+ " to become Running")))).

(** A goroutine for each machine; the error that was sent first. *)
Definition machines_running (k : K) (names : list string) : M W (option (option error)) :=
  let! r := withTimeout VMsRunningTimeout
    (go_all sched (fun _ => false) (fun name => replicate fuel (machine_round k (namespace cfg) name)) names) in
  mret match r with
       | Some (Returns res) =>
           if existsb (fun p => match p.2 with Ok running => negb running | Err _ => false end) res then None
           else Some (first_sent res)
       | _ => None
       end.

(** ** From step 14 on: the test cluster itself *)

Definition secrets_ready (k : K) : M W (option (option error)) :=
  let ns := "d8-cloud-instance-manager" in
  poll_loop
    (fun _ : unit =>
       let! workerErr := secretThere k ns "manual-bootstrap-for-worker" in
       let! masterErr := secretThere k ns "manual-bootstrap-for-master" in
       mret (tt, if is_nil workerErr && is_nil masterErr then Some None else None))
    (fun _ _ => Some (Errorf "timeout waiting for bootstrap secrets to appear"))
    fuel (10 * Second) tt.

Definition secrets_wait (k : K) : M W (option (option error)) :=
  withTimeout SecretsWaitTimeout
    (let! err := clientset k in
     match err with
     | Some err => mret (Some (Some (wrapping "failed to create kubernetes clientset" err)))
     | None => secrets_ready k
     end).

Definition join_up (key : string) (def : ClusterDefinition) (vms : VMState) (setup : Z) (masterIP : string)
    (base : TestClusterResources K) : M W built :=
  let! t := ConnectToCluster cfg (test_options key masterIP) in
  match t with
  | Err err => let! _ := undo_late setup base in mret (refused (wrapping "failed to connect to test cluster" err))
  | Ok t =>
      match Kubeconfig t with
      | None => mret (Some Panics)
      | Some k =>
          let undo := undo_test t setup base in
          let! err := withTimeout NodeGroupTimeout (staticNodeGroup k "worker") in
          must (wrapping "failed to create worker NodeGroup") undo err (
          let! err := secrets_wait k in
          must_wait (fun err => err) undo err (
          let! err := withTimeout ClusterHealthTimeout (clusterHealth k true) in
          must (wrapping "cluster is not ready") undo err (
          let! err := withTimeout NodesReadyTimeout (addNodes k def (mkLogin (sshUser cfg) (sshHost cfg) key)) in
          must (wrapping "failed to add nodes to the cluster") undo err (
          let! err := withTimeout NodesReadyTimeout (nodesReady k def NodesReadyTimeout) in
          must (wrapping "failed to wait for nodes to be ready") undo err (
          let! err := enableModules k def (SSHClient t) in
          must (wrapping "failed to enable and configure modules") undo err (
          mret (Some (Returns (Ok (with_all t base def vms (Some setup)))))))))))
      end
  end.

(** ** Steps 7 to 12: the setup node *)
Definition first_master (def : ClusterDefinition) : option ClusterNode := head (Masters def).

Definition set_up (key : string) (def : ClusterDefinition) (vms : VMState) (base : TestClusterResources K) (baseClient : Z)
    : M W built :=
  match GetSetupNode (Some def) with
  | Err err => let! _ := undo_base base in mret (refused (wrapping "failed to get setup node" err))
  | Ok node =>
      let ip := IPAddress node in
      if String.eqb ip "" then let! _ := undo_base base in mret (refused (Errorf "setup node IP address is not set"))
      else
        let! err := withTimeout SetupNodeSSHReadyTimeout (WaitForSSHReady fuel baseClient ip) in
        must_wait (wrapping ("SSH is not ready on setup node " +:+ ip)) (undo_base base) err (
        let! c := NewClientWithJumpHost (hop key) (mkLogin (Env.VMSSHUser (vars cfg)) ip key) in
        match c with
        | Err err => let! _ := undo_base base in mret (refused (wrapping "failed to create SSH client to setup node" err))
        | Ok setup =>
            let undo := undo_setup setup base in
            let! err := withTimeout DockerInstallTimeout (WaitForDockerReady setup) in
            must (wrapping "Docker is not ready on setup node") undo err (
            let! config := PrepareBootstrapConfig (vars cfg) parseTemplate execTemplate thisFile Abs (Some def) in
            match config with
            | Err err => let! _ := undo in mret (refused (wrapping "failed to prepare bootstrap config" err))
            | Ok config =>
                let! err := withTimeout BootstrapUploadTimeout (UploadBootstrapFiles (Some setup) key config) in
                must (wrapping "failed to upload bootstrap files") undo err (
                match first_master def with
                | None => mret (Some Panics)
                | Some m =>
                    if String.eqb (IPAddress m) "" then
                      let! _ := undo in mret (refused (Errorf "first master IP address is not set"))
                    else
                      let! err := withTimeout DKPDeployTimeout
                        (BootstrapCluster (vars cfg) SSHPassphrase unmarshalInit marshal_cfg marshal_host pid timestamp
                           (Some setup) (Some def) config) in
                      must (wrapping "failed to bootstrap cluster") undo err (
                      let! _ := removeFile config in
                      join_up key def vms setup (IPAddress m) base)
                end)
            end)
        end)
  end.

(** ** Steps 5 and 6 *)
Definition state_of (def : ClusterDefinition) (vmNames : list string) (vms : VMResources) (m : ClusterNode) : resumeState :=
  mkResume (IPAddress m) (namespace cfg) vmNames (vr_SetupVMName vms) (map Hostname (Masters def)) (map Hostname (Workers def)).

Definition create_vms (k : K) (def : ClusterDefinition) : M W (result (list string * VMResources)) :=
  withTimeout VMCreationTimeout
    (let! err := virtClient k in
     match err with
     | Some err => mret (Err (wrapping "failed to create virtualization client" err))
     | None =>
         let! r := createMachines k def in
         mret match r with Err err => Err (wrapping "failed to create virtual machines" err) | Ok x => Ok x end
     end).

Definition bring_up (key : string) (def : ClusterDefinition) (base : TestClusterResources K) (k : K) (baseClient : Z) : M W built :=
  let undo := undo_base base in
  let! r := create_vms k def in
  match r with
  | Err err => let! _ := undo in mret (refused err)
  | Ok (vmNames, vms) =>
      let! err := machines_running k vmNames in
      must_wait (fun err => err) undo err (
      let! '(err, def) := withTimeout VMInfoTimeout (gatherInfo k (namespace cfg) def vms) in
      must (wrapping "failed to gather VM information") undo err (
      match first_master def with
      | None => mret (Some Panics)
      | Some m =>
          let! _ := saveClusterState marshal (state_of def vmNames vms m) in
          set_up key def (mkVMState true vms) base baseClient
      end))
  end.

(** ** [CreateTestCluster] *)

(** Step 1: the definition, and whether a saved state is resumed. *)
Definition load_definition (yamlConfigFilename : string) : M W (result (ClusterDefinition * bool)) :=
  match test_dir callers with
  | None => mret (Err (Errorf "failed to determine test directory (no caller under tests/)"))
  | Some dir =>
      let path := path_Join [dir; Env.or_else yamlConfigFilename "cluster_config.yml"] in
      let! data := readFile path in
      match loadClusterConfigFromPath parsed getenv path data with
      | Err err => mret (Err (wrapping "failed to load cluster configuration" err))
      | Ok def =>
          let! state := if true_ (testClusterResume cfg) then loadClusterState unmarshal else mret (Err (Errorf "")) in
          match state with
          | Ok state => mret (Ok (restored state def, true))
          | Err _ => let! def := randomizeHostnames (randomIndex K) def in mret (Ok (def, false))
          end
      end
  end.

(** Steps 3 and 4, and the rest on the base cluster. *)
Definition on_base (key : string) (def : ClusterDefinition) (resumeMode : bool) (base : TestClusterResources K) : M W built :=
  match Kubeconfig base, SSHClient base with
  | Some k, Some c =>
      let undo := undo_base base in
      let! err := moduleReady k "virtualization" ModuleCheckTimeout in
      must (wrapping "virtualization module is not Ready") undo err (
      let! err := withTimeout NamespaceTimeout (namespaceThere k (namespace cfg)) in
      must (wrapping "failed to create namespace") undo err (
      if resumeMode then resume key def base else bring_up key def base k c))
  | _, _ => mret (Some Panics)
  end.

Definition CreateTestCluster (yamlConfigFilename : string) : M W built :=
  let! loaded := load_definition yamlConfigFilename in
  match loaded with
  | Err err => mret (refused err)
  | Ok (def, resumeMode) =>
      match LegacyVms.expandPath home (sshPrivateKey cfg) with
      | Err err => mret (refused (wrapping "failed to get SSH private key path" err))
      | Ok key =>
          let! base := ConnectToCluster cfg (base_options key) in
          match base with
          | Err err => mret (refused (wrapping "failed to connect to base cluster" err))
          | Ok base => on_base key def resumeMode base
          end
      end
  end.
End Create.

(** ** [CleanupTestCluster] *)
Section Cleanup.
Context {W K : Type} `{LS : LegacySSH W, LF : !LocalFiles W, LT : !LocalTexts W, CX : !Ctx W, CL : !Clock W, LN : !Listens W}.
Context {SO : SuiteOps W K} {ST : Stages W K} (cfg : Settings).

(** Step 3: the tunnel of the base cluster and the configuration that leads through it; the
    errors. *)
Definition base_access (r : TestClusterResources K) : M W (option tunnel * option K * list error) :=
  match BaseTunnel r with
  | Some t => mret (Some t, BaseKubeconfig r, [])
  | None =>
      let! t := EstablishSSHTunnel (CX := background) "6445" in
      match t with
      | Err err => mret (None, None, [wrapping "failed to re-establish base cluster tunnel for VM cleanup" err])
      | Ok info =>
          let! k := if String.eqb (BaseKubeconfigPath r) "" then mret None
                    else let! uerr := UpdateKubeconfigPort (BaseKubeconfigPath r) (LocalPort info) in
                         match uerr with
                         | Some _ => mret None
                         | None => let! k := buildConfig (BaseKubeconfigPath r) in
                                   mret match k with Ok k => Some k | Err _ => None end
                         end in
          mret (Some (Forwarding info), k, [])
      end
  end.

(** Steps 4 and 5. [RemoveAllVMs] uses the client of the resources, which a resumed run has
    not. *)
Definition remove_vms (vms : VMState) (k : K) : M W (ending (list error)) :=
  let! verr := virtClient k in
  match verr with
  | Some err => mret (Returns [wrapping "failed to create virtualization client for cleanup" err])
  | None =>
      let setupVM := vr_SetupVMName (vmResources vms) in
      let! e1 := if String.eqb setupVM "" then mret None else removeMachine k (namespace cfg) setupVM in
      let errs := collect ("failed to remove setup VM " +:+ setupVM) e1 in
      if true_ (Env.TestClusterCleanup (vars cfg)) then
        if negb (hasVirtClient vms) && match vr_VMNames (vmResources vms) with [] => false | _ => true end then mret Panics
        else let! e2 := removeMachines K (vmResources vms) in
             mret (Returns (errs ++ collect "failed to remove test cluster VMs" e2))
      else mret (Returns errs)
  end.

(** Steps 3 to 5: the tunnel to stop afterwards. *)
Definition vm_cleanup (r : TestClusterResources K) : M W (ending (option tunnel * list error)) :=
  match BaseClusterClient r, VMs r with
  | Some _, Some vms =>
      let! '(t, k, errs) := base_access r in
      match k with
      | None => mret (Returns (t, errs))
      | Some k =>
          let! e := remove_vms vms k in
          mret match e with Panics => Panics | Returns e => Returns (t, errs ++ e) end
      end
  | _, _ => mret (Returns (None, []))
  end.

Definition stop_some (t : option tunnel) : M W (option error) :=
  match t with Some t => stop_tunnel t | None => mret None end.
Definition close_some (c : option Z) : M W (option error) :=
  match c with Some c => ssh_Close c | None => mret None end.
Definition remove_some (f : string) : M W unit :=
  if String.eqb f "" then mret tt else let! _ := removeFile f in mret tt.

(** [providerConnected] is read and reset. *)
Definition CleanupTestCluster (providerConnected : bool) (resources : option (TestClusterResources K))
    : M W (ending (option error * bool)) :=
  match resources with
  | None => mret (Returns (None, providerConnected))
  | Some r =>
      if providerConnected then
        let! e1 := match Kubeconfig r with Some k => releaseLock k | None => mret None end in
        let! e2 := stop_some (TunnelOf r) in
        mret (Returns (joinErrors (collect "failed to release cluster lock" e1 ++ collect "failed to stop commander tunnel" e2), false))
      else
        let! e1 := stop_some (TunnelOf r) in
        let! e2 := close_some (SSHClient r) in
        let! e3 := close_some (SetupSSHClient r) in
        let! v := vm_cleanup r in
        match v with
        | Panics => mret Panics
        | Returns (t, e4) =>
            let toStop := match t with Some t => Some t | None => BaseTunnel r end in
            let! e5 := stop_some toStop in
            let! e6 := close_some (BaseClusterClient r) in
            let! _ := remove_some (KubeconfigPath r) in
            let! _ := remove_some (BaseKubeconfigPath r) in
            mret (Returns (cleanup_error (
              collect "failed to stop test cluster SSH tunnel" e1 ++ collect "failed to close test cluster SSH client" e2 ++
              collect "failed to close setup SSH client" e3 ++ e4 ++ collect "failed to stop base cluster SSH tunnel" e5 ++
              collect "failed to close base cluster SSH client" e6), false))
        end
  end.

(** ** [WaitForTestClusterReady] *)
Definition WaitForTestClusterReady (resources : option (TestClusterResources K)) : M W (option error) :=
  match resources with
  | None => mret (Some (Errorf "resources cannot be nil"))
  | Some r =>
      match Kubeconfig r, ClusterDef r with
      | None, _ => mret (Some (Errorf "kubeconfig cannot be nil"))
      | Some _, None => mret (Some (Errorf "cluster definition cannot be nil"))
      | Some k, Some def => modulesReady k def ModuleDeployTimeout
      end
  end.
End Cleanup.
