(* ===== verification/LegacyCreateSafety.v ===== *)
(** What creating a test cluster the legacy way holds and leaves: on success exactly the three
    clients and the two tunnels of its resources, which the cleanup gives back; on an error
    nothing, but from step 14 on the tunnel of the base cluster. The saved state is what is
    loaded. *)
From S2P Require Import Prelude Errors Retry Env Provision LegacyVms SshConn SshDial DvpConfig Config Kube Kit Pool Bootstrap Dhctl LegacySsh LegacyRemote LegacySetup LegacyTunnel LegacyKubeconfig LegacyConnect LegacyConnectSafety LegacyCreate.

Local Open Scope Z_scope.
Local Open Scope go_scope.

(** ** The saved state *)
Section State.
Context {W : Type} `{LS : LegacySSH W, LF : !LocalFiles W, LT : !LocalTexts W, FL : !LocalFilesLaws W, TL : !LocalTextsLaws W}.
Context (marshal : resumeState -> result string) (unmarshal : string -> result resumeState).
(** JSON that was written is read back. *)
Context (json_roundtrip : forall s t, marshal s = Ok t -> unmarshal t = Ok s).

End State.

(** ** Creating *)

(** The stages open no client or tunnel that remains, and take no lock; nor do contexts. *)
Class StageLaws (W K : Type) `{LegacySSH W, LocalFiles W, Listens W, Scope W, SuiteOps W K, Stages W K} : Prop := {
  calm_module (k : K) m z : calm K (moduleReady k m z);
  calm_namespace (k : K) s : calm K (namespaceThere k s);
  calm_virt (k : K) : calm K (virtClient k);
  calm_machines (k : K) d : calm K (createMachines k d);
  calm_phase (k : K) s n : calm K (machinePhase k s n);
  calm_gather (k : K) s d r : calm K (gatherInfo k s d r);
  calm_removal (k : K) s n : calm K (removeMachine k s n);
  calm_removals r : calm K (removeMachines K r);
  calm_group (k : K) n : calm K (staticNodeGroup k n);
  calm_clientset (k : K) : calm K (clientset k);
  calm_secret (k : K) s n : calm K (secretThere k s n);
  calm_nodes (k : K) d l : calm K (addNodes k d l);
  calm_ready (k : K) d z : calm K (nodesReady k d z);
  calm_enable (k : K) d c : calm K (enableModules k d c);
  calm_modules (k : K) d z : calm K (modulesReady k d z);
  calm_stress (k : K) : calm K (stressCleanup k);
  calm_random n : calm K (randomIndex K n);
  calm_exec c cmd : calm K (Exec c cmd);
  calm_upload c a b : calm K (Upload c a b);
  calm_private c a b m : calm K (UploadPrivate c a b m);
  calm_temp p : calm K (createTemp p);
  calm_chmod f m : calm K (chmod f m);
  enter_net d (w : W) : net (K := K) (enter d w) = net w;
  leave_net (w w' : W) : net (K := K) (leave w w') = net w'
}.
#[export] Hint Resolve calm_module calm_namespace calm_virt calm_machines calm_phase calm_gather calm_removal calm_removals calm_group
  calm_clientset calm_secret calm_nodes calm_ready calm_enable calm_modules calm_stress calm_random calm_exec calm_upload calm_private calm_temp
  calm_chmod : keeps.

(** A wait of calm rounds is calm. *)
Lemma poll_loop_keeps {W A B S} `{Ctx W} (f : W -> B) (check : S -> M W (S * option A)) over fuel z s :
  keeps f ctxErr -> (forall z, keeps f (timerFires z)) -> (forall s, keeps f (check s)) -> keeps f (poll_loop check over fuel z s).
Proof.
  intros Hc Ht Hk. revert s. induction fuel as [|fuel IH]; intros s; cbn [poll_loop]; [apply keeps_ret|].
  apply keeps_bind; [done|]. intros []; [|apply keeps_bind; [done|intros; apply keeps_ret]].
  apply keeps_bind; [done|]. intros [s1 [a|]]; [apply keeps_ret|apply IH].
Qed.

(** So is a pool of calm goroutines. *)
Lemma go_all_keeps {W St X B} (f : W -> B) sched init (prog : X -> list (call W St)) xs :
  (forall x, Forall (fun c : call W St => forall s, keeps f (c s)) (prog x)) -> keeps f (go_all sched init prog xs).
Proof.
  intros Hp w. destruct (go_all sched init prog xs w) as [r w'] eqn:E. cbn.
  eapply (go_all_preserves (fun v => f v = f w) (fun _ => True)) in E; [done| |done|done].
  intros x c s v rc v' _ Hc Hv _ Ec. specialize (Hp x). rewrite Forall_forall in Hp. specialize (Hp c Hc s v). rewrite Ec in Hp.
  cbn in Hp. split; [by rewrite Hp|]. by destruct rc as [[]|].
Qed.

Section Safety.
Context {W K : Type} `{LS : LegacySSH W, LF : !LocalFiles W, LT : !LocalTexts W, CX : !Ctx W, CL : !Clock W, LN : !Listens W}.
Context `{SC : Scope W} {SO : SuiteOps W K} {ST : Stages W K} {EK : EqDecision K} (cfg : Settings) (home : result string).
Context {LL : LegacySSHLaws W} {TL : ListensLaws W (H := background)} {SL : SuiteLaws W K} {GL : StageLaws W K}.
Context (marshal : resumeState -> result string) (unmarshal : string -> result resumeState).
Context (parsed : string -> result ClusterDefinition) (getenv : string -> string) (callers : list string).
Context (SSHPassphrase : string).
Context (parseTemplate : string -> option error) (execTemplate : string -> bootstrapParams -> string * option error).
Context (unmarshalInit : string -> result (string * string)).
Context (marshal_cfg : dhctlSSHConfigManifest -> result string) (marshal_host : dhctlSSHHostManifest -> result string).
Context (thisFile : option string) (Abs : string -> result string) (pid : Z) (timestamp : M W string).
Context (sched : list nat) (fuel : nat).
Context (calm_timestamp : calm K timestamp).
Hint Resolve calm_timestamp : keeps.

Lemma calm_timeout {A} d (m : M W A) : calm K m -> calm K (withTimeout d m).
Proof.
  intros Hm w. unfold withTimeout. specialize (Hm (enter d w)). destruct (m (enter d w)) as [a w']. cbn in *.
  by rewrite leave_net Hm enter_net.
Qed.
Hint Resolve calm_timeout : keeps.

Lemma calm_ssh_ready c ip : calm K (WaitForSSHReady fuel c ip).
Proof. apply poll_loop_keeps; [apply calm_ctx|intros; apply calm_timer|]. intros s. keeping. Qed.
Lemma calm_docker c : calm K (WaitForDockerReady c).
Proof. unfold WaitForDockerReady. keeping. Qed.
Lemma calm_prepare d : calm K (PrepareBootstrapConfig (vars cfg) parseTemplate execTemplate thisFile Abs d).
Proof. unfold PrepareBootstrapConfig. keeping. Qed.
Lemma calm_files c key f : calm K (UploadBootstrapFiles c key f).
Proof. unfold UploadBootstrapFiles. cbv zeta. keeping. Qed.
Lemma calm_remove_conn c p : calm K (remove_conn c p).
Proof. unfold remove_conn. keeping. Qed.
Hint Resolve calm_remove_conn : keeps.
Lemma calm_run_dhctl c i r m l : calm K (run_dhctl (vars cfg) pid c i r m l).
Proof. unfold run_dhctl. keeping. Qed.
Hint Resolve calm_run_dhctl : keeps.
Lemma calm_bootstrap c d f :
  calm K (BootstrapCluster (vars cfg) SSHPassphrase unmarshalInit marshal_cfg marshal_host pid timestamp c d f).
Proof. unfold BootstrapCluster, getDevBranchFromConfig, with_connection, write_connection, abandon. cbv zeta. keeping. Qed.
Lemma calm_running k names : calm K (machines_running cfg sched fuel k names).
Proof.
  apply keeps_bind; [|intros; apply keeps_ret]. apply calm_timeout, go_all_keeps. intros x. apply Forall_forall. intros c Hc s.
  apply elem_of_replicate in Hc as [-> _]. unfold machine_round. keeping.
Qed.
Lemma calm_save st : calm K (saveClusterState marshal st).
Proof. unfold saveClusterState. keeping. Qed.
Lemma calm_load : calm K (loadClusterState unmarshal).
Proof. unfold loadClusterState. keeping. Qed.
Hint Resolve calm_ssh_ready calm_docker calm_prepare calm_files calm_bootstrap calm_running calm_save calm_load : keeps.
Lemma calm_secrets k : calm K (secrets_wait fuel k).
Proof.
  apply calm_timeout. keeping. apply poll_loop_keeps; [apply calm_ctx|intros; apply calm_timer|]. intros s. keeping.
Qed.
Lemma calm_vms k d : calm K (create_vms k d).
Proof. apply calm_timeout. keeping. Qed.
Hint Resolve calm_secrets calm_vms : keeps.

(** ** What is undone *)
Section Undo.
Context (w0 : W).

Lemma close_client_state C T ks r c w u w' : SSHClient r = Some c -> c ∉ C ->
  state w0 ({[c]} ∪ C) T ks w -> close_client (K := K) r w = (u, w') -> state w0 C T ks w'.
Proof. intros Hc Hn H E. unfold close_client in E. rewrite Hc in E. mstep E as [e w1] E1. injection E as _ <-. by eapply state_unclose. Qed.

Lemma close_tunnel_state C T ks r i w u w' : TunnelOf r = Some (Forwarding i) -> StopFunc i ∉ T ->
  state w0 C ({[StopFunc i]} ∪ T) ks w -> close_tunnel (K := K) r w = (u, w') -> state w0 C T ks w'.
Proof. intros Hc Hn H E. unfold close_tunnel in E. rewrite Hc in E. mstep E as [e w1] E1. injection E as _ <-. by eapply state_unstop. Qed.

Context (base : TestClusterResources K) (b : Z) (kb : K) (bi : TunnelInfo) (Hbase : connection base b kb bi).

Lemma undo_base_state w u w' : state w0 {[b]} {[StopFunc bi]} [] w -> undo_base base w = (u, w') -> state w0 ∅ ∅ [] w'.
Proof.
  intros H E. unfold undo_base in E. destruct Hbase as (Hc & _ & Ht & _). mstep E as [u1 w1] E1. eapply close_tunnel_state; [exact Ht| | |exact E]; [set_solver|].
  rewrite union_empty_r_L. eapply close_client_state; [exact Hc| | |exact E1]; [set_solver|]. by rewrite union_empty_r_L.
Qed.

Lemma undo_setup_state setup w u w' : setup ∉ ({[b]} : gset Z) ->
  state w0 ({[setup]} ∪ {[b]}) {[StopFunc bi]} [] w -> undo_setup setup base w = (u, w') -> state w0 ∅ ∅ [] w'.
Proof. intros Hn H E. unfold undo_setup in E. mstep E as [e w1] E1. eapply undo_base_state; [|exact E]. by eapply state_unclose. Qed.

Lemma undo_late_state setup T w u w' : setup ∉ ({[b]} : gset Z) ->
  state w0 ({[setup]} ∪ {[b]}) T [] w -> undo_late setup base w = (u, w') -> state w0 ∅ T [] w'.
Proof.
  intros Hn H E. unfold undo_late in E. destruct Hbase as (Hc & _). mstep E as [e w1] E1. eapply close_client_state; [exact Hc| | |exact E]; [set_solver|].
  rewrite union_empty_r_L. by eapply state_unclose.
Qed.

Lemma undo_test_state t c k i setup w u w' : connection t c k i -> setup ∉ ({[b]} : gset Z) ->
  c ∉ ({[setup]} ∪ {[b]} : gset Z) -> StopFunc i ∉ ({[StopFunc bi]} : gset Z) ->
  state w0 ({[c]} ∪ ({[setup]} ∪ {[b]})) ({[StopFunc i]} ∪ {[StopFunc bi]}) [] w ->
  undo_test t setup base w = (u, w') -> state w0 ∅ {[StopFunc bi]} [] w'.
Proof.
  intros (Hc & _ & Ht & _) Hs Hn Hi H E. unfold undo_test in E. mstep E as [u1 w1] E1. mstep E as [u2 w2] E2.
  eapply undo_late_state; [exact Hs| |exact E]. eapply close_tunnel_state; [exact Ht|exact Hi| |exact E2].
  by eapply close_client_state; [exact Hc|exact Hn| |exact E1].
Qed.
End Undo.

(** ** Stages *)

Lemma do_inv {A B} (m : M W A) (k : A -> M W B) w r w' : (mbind k m) w = (r, w') -> exists a w1, m w = (a, w1) /\ k a w1 = (r, w').
Proof. unfold mbind, M_bind. destruct (m w) as [a w1]. eauto. Qed.

(** What a run comes to: [E] after an error, [O] with the resources. *)
Definition outcome (E : W -> Prop) (O : TestClusterResources K -> W -> Prop) (r : @built K) (w' : W) : Prop :=
  match r with
  | Some (Returns (Ok res)) => O res w'
  | Some (Returns (Err _)) => E w'
  | _ => True
  end.

(** A stage fails and what it is given is undone, or the run goes on. *)
Lemma stage_state E O w0 C T (m : M W (option error)) wrap undo (k : M W (@built K)) w r w' :
  calm K m -> state w0 C T [] w -> (let! err := m in must wrap undo err k) w = (r, w') ->
  (forall v u v', state w0 C T [] v -> undo v = (u, v') -> E v') ->
  (forall v, state w0 C T [] v -> k v = (r, w') -> outcome E O r w') -> outcome E O r w'.
Proof.
  intros Hm H F Hu Hk. mstep F as [e w1] F1. eapply state_calm in H; [|exact Hm|exact F1]. destruct e as [e|]; [|by eapply Hk].
  cbn [must] in F. mstep F as [u w2] F2. injection F as <- <-. by eapply Hu.
Qed.

Lemma wait_state E O w0 C T (m : M W (option (option error))) wrap undo (k : M W (@built K)) w r w' :
  calm K m -> state w0 C T [] w -> (let! err := m in must_wait wrap undo err k) w = (r, w') ->
  (forall v u v', state w0 C T [] v -> undo v = (u, v') -> E v') ->
  (forall v, state w0 C T [] v -> k v = (r, w') -> outcome E O r w') -> outcome E O r w'.
Proof.
  intros Hm H F Hu Hk. mstep F as [x w1] F1. eapply state_calm in H; [|exact Hm|exact F1].
  destruct x as [[e|]|]; [|by eapply Hk|by injection F as <- <-].
  cbn [must_wait must] in F. mstep F as [u w2] F2. injection F as <- <-. by eapply Hu.
Qed.

(** What a created cluster holds: its client and its tunnel, those of the base cluster, and the
    client of the setup node; only a resumed run has neither the latter nor a client of its
    machines. *)
Definition holds (w0 : W) (r : TestClusterResources K) (w' : W) : Prop :=
  exists c i b bi, SSHClient r = Some c /\ TunnelOf r = Some (Forwarding i) /\
    BaseClusterClient r = Some b /\ BaseTunnel r = Some (Forwarding bi) /\
    (exists vms, VMs r = Some vms /\ (hasVirtClient vms = false -> SetupSSHClient r = None)) /\
    c ∉ clients_of (SetupSSHClient r) ∪ {[b]} /\ clients_of (SetupSSHClient r) ## {[b]} /\ StopFunc i <> StopFunc bi /\
    state w0 ({[c]} ∪ (clients_of (SetupSSHClient r) ∪ {[b]})) ({[StopFunc i]} ∪ {[StopFunc bi]}) [] w'.

Ltac stage L H E U := eapply L; [| exact H | exact E | exact U |]; [by eauto 3 with keeps|]; clear H E; intros ? H E.

(** From step 14 on an error leaves the tunnel of the base cluster, and only that. *)
Lemma join_up_state w0 key def vms setup ip base b kb bi w r w' :
  connection base b kb bi -> hasVirtClient vms = true -> setup ∉ ({[b]} : gset Z) ->
  state w0 ({[setup]} ∪ {[b]}) {[StopFunc bi]} [] w ->
  join_up cfg fuel key def vms setup ip base w = (r, w') ->
  outcome (fun v => state w0 ∅ {[StopFunc bi]} [] v) (holds w0) r w'.
Proof.
  intros Hb Hv Hs H E. unfold join_up in E. apply do_inv in E as (t & w1 & E1 & E). pose proof (ConnectToCluster_state _ _ _ _ _ _ _ _ _ H E1) as F1. clear E1.
  destruct t as [t|e].
  2:{ mstep E as [u w2] E2. injection E as <- <-. by eapply undo_late_state. }
  destruct F1 as (c & k & i & Ht & Hc & Hi & H1). pose proof Ht as (Htc & Hk & Htt & _). rewrite Hk in E. clear H.
  assert (U : forall v u v', state w0 ({[c]} ∪ ({[setup]} ∪ {[b]})) ({[StopFunc i]} ∪ {[StopFunc bi]}) [] v ->
    undo_test t setup base v = (u, v') -> state w0 ∅ {[StopFunc bi]} [] v') by (intros v u v'; by eapply undo_test_state).
  stage stage_state H1 E U. stage wait_state H1 E U. stage stage_state H1 E U. stage stage_state H1 E U. stage stage_state H1 E U.
  stage stage_state H1 E U. injection E as <- <-. destruct Hb as (Hbc & _ & Hbt & _).
  exists c, i, b, bi. cbn. split_and!; [done|done|done|done|exists vms; split; [done|congruence]|done|set_solver|by intros Heq; apply Hi, elem_of_singleton|done].
Qed.

Lemma jump_state w0 C T ks j l w r w' : NewClientWithJumpHost j l w = (r, w') -> state (K := K) w0 C T ks w ->
  match r with Ok c => c ∉ C /\ state w0 ({[c]} ∪ C) T ks w' | Err _ => state w0 C T ks w' end.
Proof.
  intros E H. eapply state_dial in E as [H1 Hn]; [|apply jump_listening|apply jump_locks| | |exact H].
  - destruct r as [c|e]; [|done]. split; [by apply Hn|done].
  - intros v c v' Hv. apply jump_ok in Hv as (? & ? & _). eauto.
  - intros v e v' Hv. by apply jump_err in Hv as [? _].
Qed.

(** An error left nothing, or it came from step 14 on and left the tunnel of the base cluster. *)
Definition failed (w0 w' : W) : Prop :=
  state (K := K) w0 ∅ ∅ [] w' \/
  exists key def vms setup ip base bi v err, TunnelOf base = Some (Forwarding bi) /\
    join_up cfg fuel key def vms setup ip base v = (refused err, w') /\ state w0 ∅ {[StopFunc bi]} [] w'.

Lemma late_failed w0 key def vms setup ip base b kb bi v r w' : connection base b kb bi ->
  join_up cfg fuel key def vms setup ip base v = (r, w') ->
  outcome (fun v => state w0 ∅ {[StopFunc bi]} [] v) (holds w0) r w' -> outcome (failed w0) (holds w0) r w'.
Proof.
  intros Hb E H. destruct r as [[[res|e]|]|]; try done. right. exists key, def, vms, setup, ip, base, bi, v, e.
  split; [apply Hb|done].
Qed.

Lemma set_up_state w0 key def vms base b kb bi w r w' :
  connection base b kb bi -> hasVirtClient vms = true -> state w0 {[b]} {[StopFunc bi]} [] w ->
  set_up cfg SSHPassphrase parseTemplate execTemplate unmarshalInit marshal_cfg marshal_host thisFile Abs pid timestamp fuel
    key def vms base b w = (r, w') -> outcome (failed w0) (holds w0) r w'.
Proof.
  intros Hb Hvc H E.
  assert (U : forall v u v', state w0 {[b]} {[StopFunc bi]} [] v -> undo_base base v = (u, v') -> failed w0 v')
    by (intros v u v' Hv Hu; left; by eapply undo_base_state).
  assert (R : forall v (e : error) x v', state w0 {[b]} {[StopFunc bi]} [] v ->
    (let! _ := undo_base base in mret (refused e)) v = (x, v') -> outcome (failed w0) (holds w0) x v').
  { intros v e x v' Hv Hx. mstep Hx as [u v1] E1. injection Hx as <- <-. by eapply U. }
  unfold set_up in E. destruct (GetSetupNode (Some def)) as [node|e]; [|by eapply R].
  destruct (String.eqb (IPAddress node) ""); [by eapply R|]. stage wait_state H E U.
  apply do_inv in E as (c & w1 & E1 & E). eapply jump_state in E1; [|exact H]. destruct c as [setup|e]; [|by eapply R].
  destruct E1 as [Hs H1]. clear U R H.
  assert (U : forall v u v', state w0 ({[setup]} ∪ {[b]}) {[StopFunc bi]} [] v -> undo_setup setup base v = (u, v') -> failed w0 v')
    by (intros v' u v1 Hv Hu; left; by eapply undo_setup_state).
  assert (R : forall v (e : error) x v', state w0 ({[setup]} ∪ {[b]}) {[StopFunc bi]} [] v ->
    (let! _ := undo_setup setup base in mret (refused e)) v = (x, v') -> outcome (failed w0) (holds w0) x v').
  { intros v1 e x v' Hv Hx. mstep Hx as [u v2] E1. injection Hx as <- <-. by eapply U. }
  stage stage_state H1 E U. apply do_inv in E as (f & w2 & E2 & E). eapply state_calm in H1; [|apply calm_prepare|exact E2].
  destruct f as [f|e]; [|by eapply R]. stage stage_state H1 E U. destruct (first_master def) as [m|]; [|by injection E as <- <-].
  destruct (String.eqb (IPAddress m) ""); [by eapply R|]. stage stage_state H1 E U.
  apply do_inv in E as (e & w3 & E3 & E). eapply state_calm in H1; [|apply calm_remove|exact E3].
  eapply late_failed; [exact Hb|exact E|]. by eapply join_up_state.
Qed.

Lemma bring_up_state w0 key def base b kb bi w r w' :
  connection base b kb bi -> state w0 {[b]} {[StopFunc bi]} [] w ->
  bring_up cfg marshal SSHPassphrase parseTemplate execTemplate unmarshalInit marshal_cfg marshal_host thisFile Abs pid timestamp
    sched fuel key def base kb b w = (r, w') -> outcome (failed w0) (holds w0) r w'.
Proof.
  intros Hb H E.
  assert (U : forall v u v', state w0 {[b]} {[StopFunc bi]} [] v -> undo_base base v = (u, v') -> failed w0 v')
    by (intros v u v' Hv Hu; left; by eapply undo_base_state).
  unfold bring_up in E. apply do_inv in E as (x & w1 & E1 & E). eapply state_calm in H; [|apply calm_vms|exact E1].
  destruct x as [[names vms]|e]; [|apply do_inv in E as (u & w2 & E2 & E); injection E as <- <-; by eapply U].
  stage wait_state H E U. apply do_inv in E as ([err def'] & w2 & E2 & E).
  eapply state_calm in H; [|apply calm_timeout, calm_gather|exact E2].
  destruct err as [err|]; [apply do_inv in E as (u & w3 & E3 & E); injection E as <- <-; by eapply U|]. cbn [must] in E.
  destruct (first_master def') as [m|]; [|by injection E as <- <-].
  apply do_inv in E as (e & w3 & E3 & E). eapply state_calm in H; [|apply calm_save|exact E3].
  by eapply (set_up_state w0 key def' (mkVMState true vms)).
Qed.

Lemma resume_state w0 key def base b kb bi w r w' :
  connection base b kb bi -> state w0 {[b]} {[StopFunc bi]} [] w ->
  resume cfg unmarshal key def base w = (r, w') -> outcome (failed w0) (holds w0) r w'.
Proof.
  intros Hb H E.
  assert (R : forall v (e : error) x v', state w0 {[b]} {[StopFunc bi]} [] v ->
    (let! _ := undo_base base in mret (refused e)) v = (x, v') -> outcome (failed w0) (holds w0) x v').
  { intros v e x v' Hv Hx. mstep Hx as [u v1] E1. injection Hx as <- <-. left. by eapply undo_base_state. }
  unfold resume in E. apply do_inv in E as (st & w1 & E1 & E). eapply state_calm in H; [|apply calm_load|exact E1].
  destruct st as [st|e]; [|by injection E as <- <-]. cbv zeta in E. destruct (String.eqb (FirstMasterIP st) ""); [by eapply R|].
  apply do_inv in E as (t & w2 & E2 & E). pose proof (ConnectToCluster_state _ _ _ _ _ _ _ _ _ H E2) as F2.
  destruct t as [t|e]; [|by eapply R]. injection E as <- <-. destruct F2 as (c & k & i & Ht & Hc & Hi & H2).
  destruct Hb as (Hbc & _ & Hbt & _), Ht as (Htc & _ & Htt & _). exists c, i, b, bi. cbn. rewrite union_empty_l_L.
  split_and!; [done|done|done|done|eauto|done|set_solver|by intros Heq; apply Hi, elem_of_singleton|done].
Qed.

Lemma load_definition_calm f : calm K (load_definition cfg unmarshal parsed getenv callers f (K := K)).
Proof.
  assert (Hs : forall n, calm K (GenerateRandomSuffix (randomIndex K) n)) by (induction n; cbn [GenerateRandomSuffix]; keeping).
  assert (Hl : forall l, calm K (randomize (randomIndex K) l)) by (induction l; cbn [randomize]; keeping).
  assert (Hr : forall d, calm K (randomizeHostnames (randomIndex K) d)) by (intros d; unfold randomizeHostnames; keeping).
  unfold load_definition. keeping.
Qed.

Local Notation create := (CreateTestCluster cfg home marshal unmarshal parsed getenv callers SSHPassphrase parseTemplate
  execTemplate unmarshalInit marshal_cfg marshal_host thisFile Abs pid timestamp sched fuel).

Lemma CreateTestCluster_state f w r w' : create f w = (r, w') -> outcome (failed w) (holds w) r w'.
Proof.
  intros E. unfold CreateTestCluster in E. apply do_inv in E as (x & w1 & E1 & E).
  pose proof (state_calm _ _ _ _ _ _ _ _ (load_definition_calm f) E1 (state_start w)) as H1.
  destruct x as [[def b]|e]; [|injection E as <- <-; by left].
  destruct (LegacyVms.expandPath home (sshPrivateKey cfg)) as [key|e]; [|injection E as <- <-; by left].
  apply do_inv in E as (base & w2 & E2 & E). pose proof (ConnectToCluster_state _ _ _ _ _ _ _ _ _ H1 E2) as F2.
  destruct base as [base|e]; [|injection E as <- <-; by left]. destruct F2 as (c & k & i & Hb & _ & _ & H).
  rewrite !union_empty_r_L in H. unfold on_base in E. pose proof Hb as (Hc & Hk & _). rewrite Hk Hc in E. cbv zeta in E.
  assert (U : forall v u v', state w {[c]} {[StopFunc i]} [] v -> undo_base base v = (u, v') -> failed w v')
    by (intros v u v' Hv Hu; left; by eapply undo_base_state).
  stage stage_state H E U. stage stage_state H E U. destruct b; [by eapply resume_state|by eapply bring_up_state].
Qed.


(** ** Cleaning up *)

Lemma remove_vms_calm vms k : calm K (remove_vms cfg vms k).
Proof. unfold remove_vms. keeping. Qed.

(** The tunnel of the base cluster is there already and is the one to stop. *)
Lemma vm_cleanup_state w0 C T (r : TestClusterResources K) b t vms w x w' : BaseClusterClient r = Some b ->
  BaseTunnel r = Some t -> VMs r = Some vms -> state w0 C T [] w -> vm_cleanup cfg r w = (x, w') ->
  state w0 C T [] w' /\ match x with Returns (t', _) => t' = Some t | Panics =>
    hasVirtClient vms = false /\ true_ (Env.TestClusterCleanup (vars cfg)) = true end.
Proof.
  intros Hb Ht Hv H E. unfold vm_cleanup, base_access in E. rewrite Hb Hv Ht in E. cbn in E. unfold mbind, M_bind, mret, M_ret in E.
  destruct (BaseKubeconfig r) as [k|]; [|by injection E as <- <-].
  destruct (remove_vms cfg vms k w) as [e w1] eqn:E1. injection E as <- <-.
  eapply state_calm in H as H1; [|apply remove_vms_calm|exact E1]. split; [done|]. destruct e as [e|]; [done|].
  unfold remove_vms in E1. mstep E1 as [ve v1] F1. destruct ve; [done|]. mstep E1 as [e1 v2] F2.
  destruct (true_ _); [|done]. destruct (hasVirtClient vms); [|done]. cbn in E1. by mstep E1 as [e2 v3] F3.
Qed.

Lemma cleanup_created w0 res w x w' : holds w0 res w -> CleanupTestCluster cfg false (Some res) w = (x, w') ->
  match x with
  | Returns (_, p) => p = false /\ state w0 ∅ ∅ [] w'
  | Panics => SetupSSHClient res = None /\ true_ (Env.TestClusterCleanup (vars cfg)) = true
  end.
Proof.
  intros (c & i & b & bi & Hc & Ht & Hb & Hbt & (vms & Hv & Hvc) & Hn & Hd & Hi & H) F.
  unfold CleanupTestCluster in F. rewrite Hc Ht Hb Hbt in F. cbn [stop_some close_some stop_tunnel] in F.
  apply do_inv in F as (e1 & v1 & F1 & F). eapply state_unstop in F1; [|by apply not_elem_of_singleton|exact H].
  apply do_inv in F as (e2 & v2 & F2 & F). eapply state_unclose in F2; [|exact Hn|exact F1].
  apply do_inv in F as (e3 & v3 & F3 & F). assert (H3 : state w0 {[b]} {[StopFunc bi]} [] v3).
  { destruct (SetupSSHClient res) as [s|]; cbn in F3, F2.
    - eapply state_unclose; [|exact F3|exact F2]. cbn in Hd. by apply disjoint_singleton_l in Hd.
    - injection F3 as _ <-. by rewrite union_empty_l_L in F2. }
  apply do_inv in F as (y & v4 & F4 & F). pose proof (vm_cleanup_state _ _ _ _ _ _ _ _ _ _ Hb Hbt Hv H3 F4) as [H4 Hy].
  destruct y as [[t e4]|]; [|injection F as <- <-; split; [apply Hvc, Hy|apply Hy]]. rewrite Hy in F. cbn [stop_some stop_tunnel] in F.
  apply do_inv in F as (e5 & v5 & F5 & F). rewrite -(union_empty_r_L {[StopFunc bi]}) in H4.
  eapply (state_unstop w0 _ ∅) in F5; [|apply not_elem_of_empty|exact H4]. apply do_inv in F as (e6 & v6 & F6 & F).
  rewrite -(union_empty_r_L {[b]}) in F5. eapply (state_unclose w0 ∅) in F6; [|apply not_elem_of_empty|exact F5].
  apply do_inv in F as (u1 & v7 & F7 & F). apply do_inv in F as (u2 & v8 & F8 & F). injection F as <- <-. split; [done|].
  eapply state_calm; [|exact F8|]; [unfold remove_some; keeping|]. eapply state_calm; [|exact F7|done]. unfold remove_some. keeping.
Qed.

(** [CleanupTestCluster] after [CreateTestCluster]: when it returns, with or without an error,
    every client and tunnel of the creation is closed, whatever failed on the way. It panics only after a resumed run, when the machines are to
    be removed. *)
Theorem created_cluster_cleanup f w res w1 x w2 : create f w = (Some (Returns (Ok res)), w1) ->
  CleanupTestCluster cfg false (Some res) w1 = (x, w2) ->
  match x with
  | Returns (_, p) => p = false /\ state w ∅ ∅ [] w2
  | Panics => SetupSSHClient res = None /\ true_ (Env.TestClusterCleanup (vars cfg)) = true
  end.
Proof. intros E F. apply CreateTestCluster_state in E. by eapply cleanup_created. Qed.
End Safety.
