(* ===== verification/LegacyCreateReturns.v ===== *)
(** Creating a test cluster the legacy way returns: under every schedule of the goroutines that
    wait for the machines, and whatever the stages answer, each of its waits is over before its
    context is. *)
From S2P Require Import Prelude Errors Retry Env Provision LegacyVms SshConn SshDial DvpConfig Config Kube Kit Pool Bootstrap Dhctl LegacySsh LegacyRemote LegacySetup LegacyTunnel LegacyKubeconfig LegacyConnect LegacyCreate.

Local Open Scope Z_scope.
Local Open Scope go_scope.

(** ** Goroutines that poll

    Each repeats one round until it is done; a round that is not the last takes a tick, and
    [left] bounds the ticks of all of them together. *)
Section Rounds.
Context {W St X : Type} (left : W -> nat) (round : X -> call W St) (over : St -> bool).
Hypothesis round_ticks : forall x s w, exists r w', round x s w = (Returns r, w') /\ (left w' <= left w)%nat /\
  match r with
  | Ok s' => (over s = true -> over s' = true) /\ (over s' = true \/ (left w' < left w)%nat)
  | Err _ => True
  end.

Definition in_time (w : W) (p : X * @gor W St) : Prop :=
  match p.2 with
  | Run s todo => exists n, todo = replicate n (round p.1) /\ (over s = true \/ (left w < n)%nat)
  | Send _ => True
  | Over r => match r with Ok s => over s = true | Err _ => True end
  end.

Lemma in_time_later w w' p : (left w' <= left w)%nat -> in_time w p -> in_time w' p.
Proof. unfold in_time. destruct p.2 as [s todo|e|r]; [|done|done]. intros Hl (n & -> & H). exists n. split; [done|]. destruct H; [by left|right; lia]. Qed.

Lemma move_in_time x g w : in_time w (x, g) ->
  exists g' w', move g w = (Some g', w') /\ (left w' <= left w)%nat /\ in_time w' (x, g').
Proof.
  unfold move, in_time. destruct g as [s [|c todo]|e|r]; cbn; unfold mbind, M_bind, mret, M_ret.
  - intros (n & Hn & H). destruct n; [|done]. exists (Over (Ok s)), w. split; [done|]. split; [done|]. cbn. destruct H; [done|lia].
  - intros (n & Hn & H). destruct n as [|n]; [done|]. injection Hn as -> ->.
    destruct (round_ticks x s w) as (r & w' & -> & Hl & Hr). destruct r as [s'|e]; [|by exists (Send e), w'].
    exists (Run s' (replicate n (round x))), w'. split; [done|]. split; [done|]. cbn. exists n. split; [done|].
    destruct Hr as [Hs [Ho|Ht]]; [by left|]. destruct H; [left; auto|right; lia].
  - by exists (Over (Err e)), w.
  - by exists (Over r), w.
Qed.

Lemma pool_in_time fuel sched live out w :
  (total live <= fuel)%nat -> Forall (in_time w) live -> Forall (fun p => in_time w (p.1, Over p.2)) out ->
  exists res w', pool fuel sched live out w = (Some (Returns res), w') /\ Forall (fun p => in_time w' (p.1, Over p.2)) res.
Proof.
  revert sched live out w. induction fuel as [|fuel IH]; intros sched live out w Hf Hl Ho.
  { destruct live as [|[x g] live]; [by exists out, w|]. unfold total in Hf. cbn in Hf. destruct g; cbn in Hf; lia. }
  destruct live as [|p live]; [by exists out, w|]. cbn [pool].
  set (l := p :: live) in *. set (i := (_ mod _)%nat). destruct (nth i l p) as [x g] eqn:Hn.
  assert (Hi : l !! i = Some (x, g)) by (rewrite -Hn; by apply nth_pick).
  assert (Hg : in_time w (x, g)) by (rewrite Forall_lookup in Hl; by eapply Hl).
  destruct (move_in_time _ _ _ Hg) as (g' & w1 & Hm & Hle & Hg'). unfold mbind, M_bind, mret, M_ret. rewrite Hm.
  pose proof (total_pick _ _ _ _ Hi) as Ht. pose proof (move_less _ _ _ _ Hm) as Hls.
  assert (Hl1 : Forall (in_time w1) l) by (eapply Forall_impl; [exact Hl|]; intros q; by apply in_time_later).
  assert (Ho1 : Forall (fun p => in_time w1 (p.1, Over p.2)) out) by (eapply Forall_impl; [exact Ho|]; intros q; by apply in_time_later).
  assert (1 <= moves g)%nat by (destruct g; cbn; lia).
  destruct g' as [s todo|e|r]; apply IH; try done.
  - rewrite (moves_insert _ _ _ g); [done|lia].
  - by apply Forall_insert.
  - rewrite (moves_insert _ _ _ g); [done|lia].
  - by apply Forall_insert.
  - lia.
  - by apply Forall_delete.
  - apply Forall_app. split; [done|]. by constructor.
Qed.

(** With more rounds than ticks, all end in time. *)
Lemma go_all_in_time sched init xs n w : (left w < n)%nat ->
  exists res w', go_all sched init (fun x => replicate n (round x)) xs w = (Some (Returns res), w') /\
    Forall (fun p => match p.2 with Ok s => over s = true | Err _ => True end) res.
Proof.
  intros Hn. unfold go_all. destruct (pool_in_time (total (start init (fun x => replicate n (round x)) xs)) sched
    (start init (fun x => replicate n (round x)) xs) [] w) as (res & w' & E & H); [done| |done|].
  - unfold start. apply Forall_fmap, Forall_true. intros x. cbn. exists n. split; [done|]. by right.
  - exists res, w'. split; [done|exact H].
Qed.
End Rounds.

(** ** [CreateTestCluster] *)

(** [m] does not run out of fuel. *)
Definition always {W A} (m : M W (option A)) : Prop := forall w, exists a w', m w = (Some a, w').

Lemma always_ret {W A} (a : A) : always (W := W) (mret (Some a)).
Proof. intros w. by exists a, w. Qed.
Lemma always_bind {W A B} (m : M W A) (k : A -> M W (option B)) : (forall a, always (k a)) -> always (let! a := m in k a).
Proof. intros Hk w. unfold mbind, M_bind. destruct (m w) as [a w1]. apply Hk. Qed.
Lemma always_timeout {W A} `{Scope W} d (m : M W (option A)) :
  (forall w, exists a w', m (enter d w) = (Some a, w')) -> always (withTimeout d m).
Proof. intros Hm w. unfold withTimeout. destruct (Hm w) as (a & w' & ->). eauto. Qed.

Create HintDb always.
#[export] Hint Resolve always_ret : always.
#[export] Hint Extern 1 (always (mbind _ _)) => apply always_bind; intros : always.

Section Returns.
Context {W K : Type} `{LS : LegacySSH W, LF : !LocalFiles W, LT : !LocalTexts W, CX : !Ctx W, CL : !Clock W, LN : !Listens W}.
Context `{SC : Scope W} {SO : SuiteOps W K} {ST : Stages W K} (cfg : Settings) (home : result string).
Context (marshal : resumeState -> result string) (unmarshal : string -> result resumeState).
Context (parsed : string -> result ClusterDefinition) (getenv : string -> string) (callers : list string).
Context (SSHPassphrase : string).
Context (parseTemplate : string -> option error) (execTemplate : string -> bootstrapParams -> string * option error).
Context (unmarshalInit : string -> result (string * string)).
Context (marshal_cfg : dhctlSSHConfigManifest -> result string) (marshal_host : dhctlSSHHostManifest -> result string).
Context (thisFile : option string) (Abs : string -> result string) (pid : Z) (timestamp : M W string).
Context (sched : list nat) (fuel : nat).
(** The timeouts of the three waits let fewer ticks through than there is fuel, and a call gives
    no ticks back. *)
Context {DL : Deadline W}.
Context (short : forall d w, d ∈ [VMsRunningTimeout; SetupNodeSSHReadyTimeout; SecretsWaitTimeout] -> (Kube.left (enter d w) < fuel)%nat).
Context (bounded_exec : forall c cmd, bounded (Exec c cmd)) (bounded_phase : forall (k : K) ns n, bounded (machinePhase k ns n)).
Context (bounded_clientset : forall k : K, bounded (clientset k)) (bounded_secret : forall (k : K) ns n, bounded (secretThere k ns n)).

Lemma must_always wrap (undo : M W unit) err (k : M W (@built K)) : always k -> always (must wrap undo err k).
Proof. intros Hk. destruct err as [err|]; [|done]. apply always_bind. intros _. apply always_ret. Qed.
Lemma must_wait_always wrap (undo : M W unit) (m : M W (option (option error))) (k : M W (@built K)) :
  always m -> always k -> always (let! err := m in must_wait wrap undo err k).
Proof.
  intros Hm Hk w. unfold mbind, M_bind. destruct (Hm w) as (err & w1 & ->). by apply must_always.
Qed.
Lemma refused_always (err : error) : always (W := W) (mret (refused (K := K) err)).
Proof. apply always_ret. Qed.
Hint Resolve must_always refused_always : always.

Lemma machine_round_ticks (k : K) ns name s w : exists r w', machine_round k ns name s w = (Returns r, w') /\
  (Kube.left w' <= Kube.left w)%nat /\
  match r with Ok s' => (s = true -> s' = true) /\ (s' = true \/ (Kube.left w' < Kube.left w)%nat) | Err _ => True end.
Proof.
  unfold machine_round, mbind, M_bind, mret, M_ret. destruct s; [exists (Ok true), w; split; [done|]; split; [done|]; by split; [|left]|].
  pose proof (left_timer (10 * Second) w) as Hl. destruct (timerFires (10 * Second) w) as [[] w1] eqn:E; cbn in Hl.
  - apply left_tick in E. pose proof (bounded_phase k ns name w1) as Hb. destruct (machinePhase k ns name w1) as [ph w2]. cbn in Hb.
    eexists _, w2. split; [done|]. split; [lia|]. split; [done|]. right. lia.
  - eexists _, w1. split; [done|]. by split.
Qed.

Lemma machines_running_always k names : always (machines_running cfg sched fuel k names).
Proof.
  intros w. unfold machines_running, withTimeout, mbind, M_bind, mret, M_ret.
  destruct (go_all_in_time Kube.left (fun name => machine_round k (namespace cfg) name) id
    (fun x s v => machine_round_ticks k (namespace cfg) x s v) sched (fun _ => false) names fuel (enter VMsRunningTimeout w))
    as (res & w' & -> & H); [apply short; set_solver|].
  replace (existsb _ res) with false; [eauto|]. symmetry. apply not_true_iff_false. rewrite existsb_exists.
  intros ([x r] & Hin & Hr). rewrite Forall_forall in H. specialize (H (x, r)). rewrite list_elem_of_In in H. specialize (H Hin). cbn in *.
  destruct r as [s|e]; [|done]. unfold id in H. by rewrite H in Hr.
Qed.

Lemma ssh_ready_always c ip : always (withTimeout SetupNodeSSHReadyTimeout (WaitForSSHReady fuel c ip)).
Proof.
  apply always_timeout. intros w. eapply (poll_loop_total _ _ Kube.left).
  - intros s v. unfold mbind, M_bind, mret, M_ret. pose proof (bounded_exec c ("nc -z -w 5 " +:+ ip +:+ " 22 && echo SSH_READY") v) as Hb.
    by destruct (Exec c _ v) as [[o e] v1].
  - intros. by eapply left_tick.
  - apply short. set_solver.
Qed.

Lemma secrets_always k : always (secrets_wait fuel k).
Proof.
  apply always_timeout. intros w. unfold mbind, M_bind, mret, M_ret. pose proof (bounded_clientset k (enter SecretsWaitTimeout w)) as Hb.
  destruct (clientset k (enter SecretsWaitTimeout w)) as [[e|] w1]; [eauto|]. cbn in Hb. eapply (poll_loop_total _ _ Kube.left).
  - intros s v. unfold mbind, M_bind, mret, M_ret.
    pose proof (bounded_secret k "d8-cloud-instance-manager" "manual-bootstrap-for-worker" v) as H1.
    destruct (secretThere k _ "manual-bootstrap-for-worker" v) as [e1 v1]. cbn in H1.
    pose proof (bounded_secret k "d8-cloud-instance-manager" "manual-bootstrap-for-master" v1) as H2.
    destruct (secretThere k _ "manual-bootstrap-for-master" v1) as [e2 v2]. cbn in *. lia.
  - intros. by eapply left_tick.
  - eapply Nat.le_lt_trans; [exact Hb|]. apply short. set_solver.
Qed.
Hint Resolve machines_running_always ssh_ready_always secrets_always must_wait_always : always.

Lemma join_up_always key def vms setup ip base : always (join_up cfg fuel key def vms setup ip base).
Proof.
  unfold join_up. apply always_bind. intros [t|e]; [|auto with always]. destruct (Kubeconfig t) as [k|]; [|auto with always]. cbv zeta.
  apply always_bind. intros err. apply must_always, must_wait_always; [auto with always|].
  do 4 (apply always_bind; intros; apply must_always). apply always_ret.
Qed.

Lemma set_up_always key def vms base c : always (set_up cfg SSHPassphrase parseTemplate execTemplate unmarshalInit marshal_cfg marshal_host
  thisFile Abs pid timestamp fuel key def vms base c).
Proof.
  unfold set_up. destruct (GetSetupNode (Some def)) as [n|e]; [|auto with always]. cbv zeta. destruct (String.eqb _ _); [auto with always|].
  apply must_wait_always; [auto with always|]. apply always_bind. intros [s|e]; [|auto with always].
  apply always_bind. intros err. apply must_always, always_bind. intros [f|e]; [|auto with always].
  apply always_bind. intros err'. apply must_always. destruct (first_master def) as [m|]; [|auto with always].
  destruct (String.eqb _ _); [auto with always|]. apply always_bind. intros err2. apply must_always, always_bind. intros _. apply join_up_always.
Qed.

Lemma resume_always key def base : always (resume cfg unmarshal key def base).
Proof.
  unfold resume. apply always_bind. intros [s|e]; [|auto with always]. cbv zeta. destruct (String.eqb _ _); [auto with always|].
  apply always_bind. intros [t|e]; auto with always.
Qed.

Lemma bring_up_always key def base k c : always (bring_up cfg marshal SSHPassphrase parseTemplate execTemplate unmarshalInit marshal_cfg
  marshal_host thisFile Abs pid timestamp sched fuel key def base k c).
Proof.
  unfold bring_up. cbv zeta. apply always_bind. intros [[names vms]|e]; [|auto with always].
  apply must_wait_always; [auto with always|]. apply always_bind. intros [err d]. apply must_always.
  destruct (first_master d); [|auto with always]. apply always_bind. intros _. apply set_up_always.
Qed.

(** C13: [CreateTestCluster] returns, or panics, from every world and under every schedule, whatever
    the hosts, the clusters and the stages answer: the timeouts end its waits for the machines,
    for SSH on the setup node and for the bootstrap secrets, and it waits for nothing else by
    itself. *)
Theorem CreateTestCluster_returns f w : exists r w',
  CreateTestCluster cfg home marshal unmarshal parsed getenv callers SSHPassphrase parseTemplate execTemplate unmarshalInit marshal_cfg
    marshal_host thisFile Abs pid timestamp sched fuel f w = (Some r, w').
Proof.
  revert w. change (always (CreateTestCluster cfg home marshal unmarshal parsed getenv callers SSHPassphrase parseTemplate execTemplate
    unmarshalInit marshal_cfg marshal_host thisFile Abs pid timestamp sched fuel f)).
  unfold CreateTestCluster. apply always_bind. intros [[def b]|e]; [|auto with always].
  destruct (LegacyVms.expandPath home _) as [key|e]; [|auto with always]. apply always_bind. intros [base|e]; [|auto with always].
  unfold on_base. destruct (Kubeconfig base) as [k|], (SSHClient base) as [c|]; try (auto with always). cbv zeta.
  apply always_bind. intros err. apply must_always, always_bind. intros err'. apply must_always.
  destruct b; [apply resume_always|apply bring_up_always].
Qed.
End Returns.
