(* ===== verification/LegacyCommander.v ===== *)
(** Clusters from Deckhouse Commander the legacy way ([src/pkg/cluster/cluster.go]):
    [UseCommanderCluster], [createCommanderCluster], [buildCommanderValues] and
    [CleanupCommanderCluster], over the client of [CommanderApi] and the connections of
    [LegacyConnect]. *)
From S2P Require Import Prelude Errors Retry Timeout Env LegacyVms SshConn SshDial DvpConfig Config Kube Kit LegacySsh LegacyRemote LegacySetup LegacyTunnel LegacyKubeconfig CommanderApi LegacyConnect LegacyCreate.

Local Open Scope Z_scope.
Local Open Scope go_scope.

(** The settings of Commander that are no [Vars]; [extraValues] are the values set by
    [SetExtraCommanderValues]. *)
Record CommanderSettings := mkCommanderSettings {
  cs_AuthMethod : string;
  cs_AuthUser : string;
  cs_APIPrefix : string;
  cs_InsecureSkipTLSVerify : string;
  cs_CACert : string;
  cs_TemplateVersion : string;
  cs_RegistryName : string;
  cs_InputValues : string;
  extraValues : gmap string json
}.

Record CommanderClusterResources (K : Type) := mkCommanderResources {
  cc_resources : TestClusterResources K;
  CommanderClient : CommanderApi.Client;
  ClusterName : string;
  CreatedByUs : bool
}.
Arguments mkCommanderResources {K}.
Arguments cc_resources {K}.
Arguments CommanderClient {K}.
Arguments ClusterName {K}.
Arguments CreatedByUs {K}.

(** [SetExtraCommanderValues]. *)
Definition SetExtraCommanderValues (values : gmap string json) (cs : CommanderSettings) : CommanderSettings :=
  mkCommanderSettings (cs_AuthMethod cs) (cs_AuthUser cs) (cs_APIPrefix cs) (cs_InsecureSkipTLSVerify cs) (cs_CACert cs)
    (cs_TemplateVersion cs) (cs_RegistryName cs) (cs_InputValues cs) values.

(** The JSON [null] makes the map nil, and writing to it panics. *)
Definition buildCommanderValues (unmarshalValues : string -> result (option (gmap string json))) (cs : CommanderSettings)
    (clusterName : string) : ending (result (gmap string json)) :=
  match (if String.eqb (cs_InputValues cs) "" then Ok (Some ∅) else unmarshalValues (cs_InputValues cs)) with
  | Err err => Returns (Err (ErrorfW "failed to parse COMMANDER_VALUES as JSON: " err ""))
  | Ok None => Panics
  | Ok (Some values) => Returns (Ok (<["prefix" := JStr clusterName]> (extraValues cs ∪ values)))
  end.

(** The version of the template, by name or by ID, the current one, or the first. *)
Definition template_version (cs : CommanderSettings) (templateName : string) (t : ClusterTemplateResponse) : result string :=
  let versions := match ClusterTemplateVersions t with [] => Versions t | l => l end in
  let wanted := cs_TemplateVersion cs in
  if negb (String.eqb wanted "") then
    let id := match List.find (fun v => String.eqb (tv_Name v) wanted || String.eqb (tv_ID v) wanted) versions with
              | Some v => tv_ID v
              | None => ""
              end in
    if String.eqb id "" then
      Err (Errorf ("template version '" +:+ wanted +:+ "' not found. Available versions: " +:+
             fmt_strings (map (fun v => "name: " +:+ tv_Name v +:+ " (id: " +:+ tv_ID v +:+ ")") versions)))
    else Ok id
  else if negb (String.eqb (CurrentClusterTemplateVersionID t) "") then Ok (CurrentClusterTemplateVersionID t)
  else match versions with
       | v :: _ => Ok (tv_ID v)
       | [] => Err (Errorf ("template '" +:+ templateName +:+ "' has no versions available"))
       end.

(** [err == commander.ErrClusterNotFound]: the error itself, not one that wraps it. *)
Definition is_not_found (err : error) : bool :=
  match err with
  | Leaf (KSentinel name None) _ => String.eqb name "commander.ErrClusterNotFound"
  | _ => false
  end.

Section Commander.
Context {W K : Type} `{LS : LegacySSH W, LF : !LocalFiles W, LT : !LocalTexts W, CX : !Ctx W, CL : !Clock W, LN : !Listens W}.
Context `{SC : Scope W, HT : Http W, JS : Json, TM : !Timeout W} {SO : SuiteOps W K} {ST : Stages W K}.
Context (cfg : Settings) (cs : CommanderSettings) (home : result string).
Context (readCA : string -> result bool) (unmarshalValues : string -> result (option (gmap string json))).
Context (fuel : nat).

(** The phase of the created cluster, which is all the caller looks at. *)
Definition createCommanderCluster (client : CommanderApi.Client) (name : string) : M W (ending (result ClusterPhase)) :=
  let templateName := Env.CommanderTemplateName (vars cfg) in
  let fail err := mret (Returns (Err err)) in
  let! templates := ListClusterTemplates client in
  match templates with
  | Err err => fail (ErrorfW "failed to list templates: " err "")
  | Ok [] => fail (Errorf "no templates available in Commander")
  | Ok templates =>
      match List.find (fun t => String.eqb (t_Name t) templateName) templates with
      | None => fail (Errorf ("template '" +:+ templateName +:+ "' not found. Available templates: " +:+
                       fmt_strings (map t_Name templates)))
      | Some t =>
          match template_version cs templateName t with
          | Err err => fail err
          | Ok versionID =>
              let! registryID :=
                if String.eqb (cs_RegistryName cs) "" then mret (Ok "")
                else let! r := GetRegistryByName client (cs_RegistryName cs) in
                     mret match r with
                          | Err err => Err (ErrorfW ("failed to get registry '" +:+ cs_RegistryName cs +:+ "': ") err "")
                          | Ok r => Ok (reg_ID r)
                          end in
              match registryID with
              | Err err => fail err
              | Ok registryID =>
                  match buildCommanderValues unmarshalValues cs name with
                  | Panics => mret Panics
                  | Returns (Err err) => fail (ErrorfW "failed to build values: " err "")
                  | Returns (Ok values) =>
                      let! resp := CreateClusterFromTemplate client name versionID registryID values in
                      mret (Returns match resp with
                        | Err err => Err err
                        | Ok resp =>
                            Ok (if String.eqb (CommanderApi.Status resp) "" then r_Phase resp else CommanderApi.Status resp)
                        end)
                  end
              end
          end
      end
  end.

Definition commander_client : result CommanderApi.Client :=
  NewClientWithOptions readCA (Env.CommanderURL (vars cfg)) (Env.CommanderToken (vars cfg))
    (mkClientOptions (String.eqb (cs_InsecureSkipTLSVerify cs) "true") (cs_CACert cs)
       (Env.or_else (cs_AuthMethod cs) AuthMethodXAuthToken) (cs_AuthUser cs) (Env.or_else (cs_APIPrefix cs) "/api/v1") 0).

(** Step 2: the phase of the cluster, made when it is not there, and whether it was. *)
Definition cluster_there (client : CommanderApi.Client) (name : string) : M W (ending (result (ClusterPhase * bool))) :=
  let! got := GetCluster client name in
  match got with
  | Ok cluster => mret (Returns (Ok (cl_Phase cluster, false)))
  | Err err =>
      if is_not_found err then
        if negb (String.eqb (Env.CommanderCreateIfNotExists (vars cfg)) "true")
        then mret (Returns (Err (Errorf ("cluster '" +:+ name +:+
                     "' not found in Commander and COMMANDER_CREATE_IF_NOT_EXISTS is not 'true'"))))
        else
          let! made := createCommanderCluster client name in
          mret match made with
               | Panics => Panics
               | Returns (Err err) => Returns (Err (ErrorfW "failed to create cluster in Commander: " err ""))
               | Returns (Ok phase) => Returns (Ok (phase, true))
               end
      else mret (Returns (Err (ErrorfW "failed to get cluster from Commander: " err "")))
  end.

(** Step 3; the timeout of the wait is that of its timer. *)
Definition cluster_ready (client : CommanderApi.Client) (name : string) (phase : ClusterPhase) : M W (option (option error)) :=
  if String.eqb phase ClusterPhaseReady then mret (Some None)
  else
    let! r := WaitForClusterReady client fuel name in
    mret match r with
         | None => None
         | Some (Err err) => Some (Some (ErrorfW "failed to wait for cluster to become ready: " err ""))
         | Some (Ok _) => Some None
         end.

Definition commander_options (key host user : string) : ConnectClusterOptions :=
  if uses_jump cfg
  then mkConnectOptions (jump_user cfg) (sshJumpHost cfg) (jump_key cfg key) true "" "" "" user host key ""
  else mkConnectOptions user host key false "" "" "" "" "" "" "".

(** Steps 6 and 7: the lock and the health of the connected cluster. *)
Definition lock_and_check (r : TestClusterResources K) (k : K) : M W (option error) :=
  let! name := lock_name cfg (K := K) in
  let! lerr := acquireLock k name in
  match lerr with
  | Some err =>
      let! _ := close_client r in let! _ := close_tunnel r in
      mret (Some (ErrorfW "failed to acquire cluster lock: " err ""))
  | None =>
      let! herr := health_loop k 10 in
      match herr with
      | Some err =>
          let! _ := releaseLock k in let! _ := close_client r in let! _ := close_tunnel r in
          mret (Some (ErrorfW "cluster health check failed after 10 attempts: " err ""))
      | None => mret None
      end
  end.

(** Steps 4 to 7. *)
Definition commander_connect (client : CommanderApi.Client) (name : string) (createdByUs : bool)
    : M W (result (CommanderClusterResources K)) :=
  let! info := GetClusterConnectionInfo client name in
  match info with
  | Err err => mret (Err (ErrorfW "failed to get cluster connection info: " err ""))
  | Ok info =>
      if String.eqb (CommanderApi.SSHHost info) ""
      then mret (Err (Errorf "no SSH connection info available from Commander (connection_hosts.masters is empty)"))
      else
        match LegacyVms.expandPath home (sshPrivateKey cfg) with
        | Err err => mret (Err (ErrorfW "SSH key not available: " err ""))
        | Ok key =>
            let user := Env.or_else (Env.or_else (sshUser cfg) (CommanderApi.SSHUser info)) (Env.VMSSHUser (vars cfg)) in
            let! r := ConnectToCluster cfg (commander_options key (CommanderApi.SSHHost info) user) in
            match r with
            | Err err => mret (Err (ErrorfW "failed to connect to cluster via SSH: " err ""))
            | Ok r =>
                let! err := match Kubeconfig r with Some k => lock_and_check r k | None => mret None end in
                mret match err with Some err => Err err | None => Ok (mkCommanderResources r client name createdByUs) end
            end
        end
  end.

Definition UseCommanderCluster : M W (option (ending (result (CommanderClusterResources K)))) :=
  let fail err := mret (Some (Returns (Err err))) in
  match commander_client with
  | Err err => fail (ErrorfW "failed to create Commander client: " err "")
  | Ok client =>
      let! suffix := GenerateRandomSuffix (randomIndex K) 5 in
      let name := Env.CommanderClusterName (vars cfg) +:+ "-" +:+ suffix in
      let! there := cluster_there client name in
      match there with
      | Panics => mret (Some Panics)
      | Returns (Err err) => fail err
      | Returns (Ok (phase, createdByUs)) =>
          let! ready := cluster_ready client name phase in
          match ready with
          | None => mret None
          | Some (Some err) => fail err
          | Some None => let! r := commander_connect client name createdByUs in mret (Some (Returns r))
          end
      end
  end.

Definition CleanupCommanderCluster (resources : option (CommanderClusterResources K)) : M W (option error) :=
  match resources with
  | None => mret None
  | Some cr =>
      let r := cc_resources cr in
      let! e1 := match Kubeconfig r with Some k => releaseLock k | None => mret None end in
      let! e2 := close_some (SSHClient r) in
      let! e3 := stop_some (TunnelOf r) in
      let! e4 := if CreatedByUs cr && negb (false_ (Env.TestClusterCleanup (vars cfg)))
                 then DeleteCluster (CommanderClient cr) (ClusterName cr) else mret None in
      mret (cleanup_error (collect "failed to release cluster lock" e1 ++ collect "failed to close SSH client" e2 ++
                           collect "failed to stop SSH tunnel" e3 ++ collect "failed to delete cluster from Commander" e4))
  end.
End Commander.
