(* ===== verification/LegacySuite.v ===== *)
(** How a legacy suite gets its cluster and gives it back ([src/pkg/cluster/cluster.go]):
    [CreateOrConnectToTestCluster] and [CleanupTestClusterResources], over the provider, an
    existing cluster, Commander or a new cluster, with the package variables they share. *)
From S2P Require Import Prelude Errors Retry Timeout Env LegacyVms SshConn SshDial DvpConfig Config Kube Kit Bootstrap Dhctl LegacySsh LegacyRemote LegacySetup LegacyTunnel LegacyKubeconfig CommanderApi LegacyConnect LegacyCreate LegacyCommander.

Local Open Scope Z_scope.
Local Open Scope go_scope.

(** The package variables [commanderResources] and [providerConnected]. *)
Record Globals (K : Type) := mkGlobals { commanderResources : option (CommanderClusterResources K); providerConnected : bool }.
Arguments mkGlobals {K}.
Arguments commanderResources {K}.
Arguments providerConnected {K}.

(** [SetCommanderResources], [GetCommanderResources] and [ClearCommanderResources]. *)
Definition SetCommanderResources {K} (r : option (CommanderClusterResources K)) (g : Globals K) : Globals K :=
  mkGlobals r (providerConnected g).
Definition GetCommanderResources {K} (g : Globals K) : option (CommanderClusterResources K) := commanderResources g.
Definition ClearCommanderResources {K} (g : Globals K) : Globals K := SetCommanderResources None g.

Section Suite.
Context {W K : Type} `{LS : LegacySSH W, LF : !LocalFiles W, LT : !LocalTexts W, CX : !Ctx W, CL : !Clock W, LN : !Listens W}.
Context `{SC : Scope W, HT : Http W, JS : Json, TM : !Timeout W} {SO : SuiteOps W K} {ST : Stages W K}.
Context (cfg : Settings) (cs : CommanderSettings) (home : result string).
Context (readCA : string -> result bool) (unmarshalValues : string -> result (option (gmap string json))).
Context (marshal : resumeState -> result string) (unmarshal : string -> result resumeState).
Context (parsed : string -> result ClusterDefinition) (getenv : string -> string) (callers : list string).
Context (SSHPassphrase : string).
Context (parseTemplate : string -> option error) (execTemplate : string -> bootstrapParams -> string * option error).
Context (unmarshalInit : string -> result (string * string)).
Context (marshal_cfg : dhctlSSHConfigManifest -> result string) (marshal_host : dhctlSSHHostManifest -> result string).
Context (thisFile : option string) (Abs : string -> result string) (pid : Z) (timestamp : M W string).
Context (sched : list nat) (fuel : nat).

(** What the suite gets: resources, or the failure of an [Expect], which ends the spec and
    loses what was returned so far. [None]: the fuel of a wait ran out. *)
Definition attached : Type := option (ending (result (TestClusterResources K))).

(** The default mode. *)
Definition create_and_wait : M W attached :=
  let! r := withTimeout ClusterCreationTimeout
    (CreateTestCluster cfg home marshal unmarshal parsed getenv callers SSHPassphrase parseTemplate execTemplate unmarshalInit
       marshal_cfg marshal_host thisFile Abs pid timestamp sched fuel (Env.YAMLConfigFilename (vars cfg))) in
  match r with
  | Some (Returns (Ok res)) =>
      let! err := withTimeout ModuleDeployTimeout (WaitForTestClusterReady (Some res)) in
      mret (Some (Returns match err with Some err => Err err | None => Ok res end))
  | r => mret r
  end.

Definition commander_mode (g : Globals K) : M W (attached * Globals K) :=
  let! r := withTimeout ClusterCreationTimeout (UseCommanderCluster cfg cs home readCA unmarshalValues fuel) in
  mret match r with
       | None => (None, g)
       | Some Panics => (Some Panics, g)
       | Some (Returns (Err err)) => (Some (Returns (Err err)), g)
       | Some (Returns (Ok cr)) => (Some (Returns (Ok (cc_resources cr))), SetCommanderResources (Some cr) g)
       end.

Definition CreateOrConnectToTestCluster (g : Globals K) : M W (attached * Globals K) :=
  let! '(res, handled, err, connected) := withTimeout ClusterCreationTimeout (connectViaProvider cfg) in
  let g := if connected : bool then mkGlobals (commanderResources g) true else g in
  match err with
  | Some err => mret (Some (Returns (Err err)), g)
  | None =>
      if handled : bool then
        mret (match res with Some res => Some (Returns (Ok res)) | None => Some Panics end, g)
      else
        let mode := Env.TestClusterCreateMode (vars cfg) in
        if String.eqb mode ClusterCreateModeAlwaysUseExisting then
          let! r := withTimeout ClusterCreationTimeout (UseExistingCluster cfg home) in mret (Some (Returns r), g)
        else if String.eqb mode ClusterCreateModeCommander then commander_mode g
        else let! r := create_and_wait in mret (r, g)
  end.

(** Errors are logged. *)
Definition CleanupTestClusterResources (g : Globals K) (resources : option (TestClusterResources K)) (passed : bool)
    : M W (ending (Globals K)) :=
  match resources with
  | None => mret (Returns g)
  | Some r =>
      withTimeout ClusterCleanupTimeout (
        let! _ := match Kubeconfig r with
                  | Some k => if passed then let! _ := stressCleanup k in mret tt else mret tt
                  | None => mret tt
                  end in
        let mode := Env.TestClusterCreateMode (vars cfg) in
        if String.eqb mode ClusterCreateModeAlwaysUseExisting then let! _ := CleanupExistingCluster (Some r) in mret (Returns g)
        else if String.eqb mode ClusterCreateModeCommander then
          match GetCommanderResources g with
          | Some cr => let! _ := CleanupCommanderCluster cfg (Some cr) in mret (Returns (ClearCommanderResources g))
          | None => let! _ := CleanupExistingCluster (Some r) in mret (Returns g)
          end
        else
          let! x := CleanupTestCluster cfg (providerConnected g) (Some r) in
          mret match x with
               | Panics => Panics
               | Returns (_, p) => Returns (mkGlobals (commanderResources g) p)
               end)
  end.
End Suite.
