(* ===== verification/LegacySuiteSafety.v ===== *)
(** What a legacy suite holds between [CreateOrConnectToTestCluster] and
    [CleanupTestClusterResources], and what remains after both, in every mode; and what using a
    cluster of Commander leaves when it fails. *)
From S2P Require Import Prelude Errors Retry Timeout Env LegacyVms SshConn SshDial DvpConfig Config Kube Kit Bootstrap Dhctl LegacySsh LegacyRemote LegacySetup LegacyTunnel LegacyKubeconfig CommanderApi LegacyConnect LegacyConnectSafety LegacyCreate LegacyCreateSafety LegacyCommander LegacySuite.

Local Open Scope Z_scope.
Local Open Scope go_scope.

(** Requests and the timer of a wait open no client and no tunnel, and take no lock. *)
Class CommanderLaws (W K : Type) `{LegacySSH W, Listens W, SuiteOps W K, Http W, Ctx W, Timeout W} : Prop := {
  calm_http rq : calm K (httpDo rq);
  calm_wake z : calm K (wake z)
}.
#[export] Hint Resolve calm_http calm_wake : keeps.

(** A wait of calm rounds, with a timer of its own. *)
Lemma wait_ticks_keeps {W A B S} `{CX : Ctx W} `{TM : !Timeout W} (f : W -> B) (check : S -> M W (S * option A)) onDone over fuel z s :
  keeps f ctxErr -> (forall z, keeps f (wake z)) -> (forall s, keeps f (check s)) -> keeps f (wait_ticks check onDone over fuel z s).
Proof.
  intros Hc Hw Hk. revert s. induction fuel as [|fuel IH]; intros s; cbn [wait_ticks]; [apply keeps_ret|].
  apply keeps_bind; [done|]. intros []; [apply keeps_bind; [done|intros; apply keeps_ret]|apply keeps_ret|].
  apply keeps_bind; [done|]. intros [s1 [a|]]; [apply keeps_ret|apply IH].
Qed.

Section Safety.
Context {W K : Type} `{LS : LegacySSH W, LF : !LocalFiles W, LT : !LocalTexts W, CX : !Ctx W, CL : !Clock W, LN : !Listens W}.
Context `{SC : Scope W, HT : Http W, JS : Json, TM : !Timeout W} {SO : SuiteOps W K} {ST : Stages W K} {EK : EqDecision K}.
Context {LL : LegacySSHLaws W} {TL : ListensLaws W (H := background)} {SL : SuiteLaws W K} {GL : StageLaws W K} {ML : CommanderLaws W K}.
Context (cfg : Settings) (cs : CommanderSettings) (home : result string).
Context (readCA : string -> result bool) (unmarshalValues : string -> result (option (gmap string json))).
Context (fuel : nat).

(** ** Commander *)

Section Api.
Context (client : CommanderApi.Client).

Lemma calm_send m p b : calm K (send client m p b).
Proof. unfold send. keeping. Qed.
Hint Resolve calm_send : keeps.
Lemma calm_by_name n : calm K (GetClusterByName client n).
Proof. unfold GetClusterByName, ListClustersAPI, GetClusterByID. keeping. Qed.
Hint Resolve calm_by_name : keeps.
Lemma calm_get_cluster n : calm K (GetCluster client n).
Proof. unfold GetCluster. keeping. Qed.
Lemma calm_info n : calm K (GetClusterConnectionInfo client n).
Proof. unfold GetClusterConnectionInfo, GetClusterKubeconfigByID, getKubeconfigFromClusterDetails, GetClusterByID. keeping. Qed.
Lemma calm_delete n : calm K (DeleteCluster client n).
Proof. unfold DeleteCluster, DeleteClusterByID. keeping. Qed.
Lemma calm_create_cluster n : calm K (createCommanderCluster cfg cs unmarshalValues client n).
Proof.
  unfold createCommanderCluster, ListClusterTemplates, GetRegistryByName, ListRegistries, CreateClusterFromTemplate, create_with.
  cbv zeta. keeping.
Qed.
Hint Resolve calm_get_cluster calm_info calm_delete calm_create_cluster : keeps.
Lemma calm_there n : calm K (cluster_there cfg cs unmarshalValues client n).
Proof. unfold cluster_there. keeping. Qed.
Lemma calm_ready_check n s : calm K (ready_check client n s).
Proof. unfold ready_check. keeping. Qed.
Hint Resolve calm_ready_check : keeps.
Lemma calm_cluster_ready n p : calm K (cluster_ready fuel client n p).
Proof.
  unfold cluster_ready, WaitForClusterReady. destruct (String.eqb p _); [apply keeps_ret|]. apply keeps_bind; [|intros; apply keeps_ret].
  apply wait_ticks_keeps; eauto with keeps.
Qed.
End Api.

(** The lock and the health check; a failure gives all back. *)
Lemma lock_and_check_state w0 r c k info w err w' :
  connection r c k info -> state w0 {[c]} {[StopFunc info]} [] w -> lock_and_check cfg r k w = (err, w') ->
  match err with None => state w0 {[c]} {[StopFunc info]} [k] w' | Some _ => gave_back w0 k w' end.
Proof.
  intros (Hc & _ & Ht & _) H E. unfold lock_and_check in E. apply do_inv in E as (name & w1 & E1 & E).
  eapply state_calm in H; [|apply (lock_name_calm cfg)|exact E1].
  assert (Hclose : forall ks v u v' u' v'', state w0 {[c]} {[StopFunc info]} ks v -> close_client r v = (u, v') ->
    close_tunnel r v' = (u', v'') -> state w0 ∅ ∅ ks v'').
  { intros ks v u v' u' v'' Hv E2 E3. rewrite -(union_empty_r_L {[c]}) -(union_empty_r_L {[StopFunc info]}) in Hv.
    eapply (close_client_state w0 ∅) in E2; [|exact Hc|apply not_elem_of_empty|exact Hv].
    eapply (close_tunnel_state w0 ∅ ∅) in E3; [done|exact Ht|apply not_elem_of_empty|done]. }
  apply do_inv in E as (le & w2 & E2 & E). eapply state_acquire in E2; [|exact H]. destruct le as [e|].
  { apply do_inv in E as (u & v & E3 & E). apply do_inv in E as (u' & v' & E4 & E). injection E as <- <-. left. by eapply Hclose. }
  apply do_inv in E as (he & w3 & E3 & E). eapply state_calm in E2; [|apply health_loop_calm|exact E3].
  destruct he as [e|]; [|by injection E as <- <-]. apply do_inv in E as (re & w4 & E4 & E). pose proof E4 as E4'.
  eapply state_release in E4; [|exact E2]. apply do_inv in E as (u & v & E5 & E). apply do_inv in E as (u' & v' & E6 & E).
  injection E as <- <-. eapply Hclose in E4; [|exact E5|exact E6]. destruct re as [re|]; [right; eauto 6|by left].
Qed.

(** What a cluster of Commander holds. *)
Definition commanded (w0 : W) (r : TestClusterResources K) (w' : W) : Prop :=
  exists c k info, connection r c k info /\ state w0 {[c]} {[StopFunc info]} [k] w'.

Lemma gave_back_all w0 k w' : gave_back (K := K) w0 k w' -> all_back (K := K) w0 w'.
Proof. intros [H|[H (v1 & e & v2 & Hr)]]; [exists []; by split; [|left]|]. exists [k]. split; [done|]. right. eauto 8. Qed.

Lemma nothing_back w0 w' : state (K := K) w0 ∅ ∅ [] w' -> all_back (K := K) w0 w'.
Proof. intros H. exists []. by split; [|left]. Qed.

Lemma UseCommanderCluster_state w r w' : UseCommanderCluster cfg cs home readCA unmarshalValues fuel w = (r, w') ->
  match r with
  | Some (Returns (Ok cr)) => commanded w (cc_resources cr) w'
  | Some (Returns (Err _)) => all_back (K := K) w w'
  | _ => True
  end.
Proof.
  intros E. unfold UseCommanderCluster in E. cbv zeta in E.
  destruct (commander_client cfg cs readCA) as [client|e]; [|injection E as <- <-; apply nothing_back, state_start].
  apply do_inv in E as (suffix & w1 & E1 & E). assert (Hs : forall n, calm K (GenerateRandomSuffix (randomIndex K) n)) by
    (induction n; cbn [GenerateRandomSuffix]; keeping).
  pose proof (state_calm _ _ _ _ _ _ _ _ (Hs _) E1 (state_start w)) as H1.
  apply do_inv in E as (there & w2 & E2 & E). eapply state_calm in H1; [|apply calm_there|exact E2].
  destruct there as [[[phase by_us]|e]|]; [|injection E as <- <-; by apply nothing_back|by injection E as <- <-].
  apply do_inv in E as (ready & w3 & E3 & E). eapply state_calm in H1; [|apply calm_cluster_ready|exact E3].
  destruct ready as [[e|]|]; [injection E as <- <-; by apply nothing_back| |by injection E as <- <-].
  apply do_inv in E as (x & w4 & E4 & E). injection E as <- <-. unfold commander_connect in E4.
  apply do_inv in E4 as (info & w5 & E5 & E4). eapply state_calm in H1; [|apply calm_info|exact E5].
  destruct info as [info|e]; [|injection E4 as <- <-; by apply nothing_back].
  destruct (String.eqb _ ""); [injection E4 as <- <-; by apply nothing_back|].
  destruct (LegacyVms.expandPath home _) as [key|e]; [|injection E4 as <- <-; by apply nothing_back].
  apply do_inv in E4 as (res & w6 & E6 & E4). pose proof (ConnectToCluster_state _ _ _ _ _ _ _ _ _ H1 E6) as F6.
  destruct res as [res|e]; [|injection E4 as <- <-; by apply nothing_back]. destruct F6 as (c & k & i & Hc & _ & _ & H6).
  rewrite !union_empty_r_L in H6. pose proof Hc as (_ & Hk & _). rewrite Hk in E4.
  apply do_inv in E4 as (err & w7 & E7 & E4). eapply lock_and_check_state in E7; [|exact Hc|exact H6].
  injection E4 as <- <-. destruct err as [err|]; [by eapply gave_back_all|]. by exists c, k, i.
Qed.

(** ** The suite *)
Context (marshal : resumeState -> result string) (unmarshal : string -> result resumeState).
Context (parsed : string -> result ClusterDefinition) (getenv : string -> string) (callers : list string).
Context (SSHPassphrase : string).
Context (parseTemplate : string -> option error) (execTemplate : string -> bootstrapParams -> string * option error).
Context (unmarshalInit : string -> result (string * string)).
Context (marshal_cfg : dhctlSSHConfigManifest -> result string) (marshal_host : dhctlSSHHostManifest -> result string).
Context (thisFile : option string) (Abs : string -> result string) (pid : Z) (timestamp : M W string).
Context (sched : list nat) (calm_timestamp : calm K timestamp).

Local Notation obtain := (CreateOrConnectToTestCluster cfg cs home readCA unmarshalValues marshal unmarshal parsed getenv callers
  SSHPassphrase parseTemplate execTemplate unmarshalInit marshal_cfg marshal_host thisFile Abs pid timestamp sched fuel).

(** The clients, tunnels and locks are all that matters; and what was held since a world is held
    since an earlier one from which nothing was. *)
Lemma state_move (w0 w1 : W) C T ks (w w' : W) : state (K := K) w0 ∅ ∅ [] w1 -> net (K := K) w = net w' ->
  state w1 C T ks w -> state (K := K) w0 C T ks w'.
Proof.
  intros [(A1 & _ & A3 & _) A5] H [(H1 & H2 & H3 & H4) Hk]. injection H as O L KK. rewrite union_empty_l_L in A1. rewrite union_empty_l_L in A3.
  split; [split_and!; by rewrite -?A1 -?A3 -?O -?L|]. intros k Hh. rewrite -(f_equal (fun f => f k) KK) in Hh.
  destruct (Hk _ Hh) as [Hk'|Hk']; [|by right]. left. destruct (A5 _ Hk') as [|Hin]; [done|by apply elem_of_nil in Hin].
Qed.

Lemma held_net (w w' : W) (k : K) : net (K := K) w = net w' -> lock_held k w = lock_held k w'.
Proof. intros H. injection H as _ _ H. exact (f_equal (fun f => f k) H). Qed.

Lemma in_use_move (w0 w1 w w' : W) r : state (K := K) w0 ∅ ∅ [] w1 -> net (K := K) w = net w' ->
  in_use cfg w1 r w -> in_use cfg w0 r w'.
Proof.
  intros H0 H (c & k & i & Hc & Hk & Ht & Hcn & Htn & Hs & Hl & Hj). exists c, k, i. pose proof (held_net _ _ k H).
  split_and!; try done; [by eapply state_move|congruence].
Qed.

Lemma resources_move (w0 w1 w w' : W) r : state (K := K) w0 ∅ ∅ [] w1 -> net (K := K) w = net w' ->
  holds w1 r w -> holds (K := K) w0 r w'.
Proof.
  intros H0 H (c & i & b & bi & Hc & Ht & Hb & Hbt & Hv & Hn & Hd & Hi & Hs). exists c, i, b, bi.
  split_and!; try done. by eapply state_move.
Qed.

Lemma commanded_move (w0 w1 w w' : W) r : state (K := K) w0 ∅ ∅ [] w1 -> net (K := K) w = net w' ->
  commanded w1 r w -> commanded w0 r w'.
Proof. intros H0 H (c & k & i & Hc & Hs). exists c, k, i. split; [done|]. by eapply state_move. Qed.

(** A context that is derived, and one that is left. *)
Lemma state_enter w0 d w : state (K := K) w0 ∅ ∅ [] w -> state (K := K) w0 ∅ ∅ [] (enter d w).
Proof. intros H. eapply state_move; [apply state_start|symmetry; apply enter_net|done]. Qed.

(** A provider's cluster: its lock, and what the provider returned to undo the connection. *)
Definition provided_cluster (w0 : W) (r : TestClusterResources K) (w' : W) : Prop :=
  exists k h, r = mkTC None (Some k) "" (Some (Provided h)) None None None None "" None None /\ state w0 ∅ ∅ [k] w'.

Lemma health_retries_calm (k : K) n : calm K (health_retries k n).
Proof. induction n as [|n IH]; cbn [health_retries]; keeping. Qed.

Lemma connectViaProvider_state w res handled err connected w' :
  connectViaProvider cfg w = ((res, handled, err, connected), w') ->
  match err, res with
  | None, Some r => handled = true /\ connected = true /\ provided_cluster w r w'
  | None, None => handled = false /\ connected = false /\ state (K := K) w ∅ ∅ [] w'
  | Some _, _ => True
  end.
Proof.
  intros E. unfold connectViaProvider in E. apply do_inv in E as (p & w1 & E1 & E).
  pose proof (state_calm _ _ _ _ _ _ _ _ (calm_find (K := K)) E1 (state_start w)) as H1.
  destruct p; [by injection E as <- <- <- <- <-|by injection E as <- <- <- <- <-|by injection E as <- <- <- <- <-|].
  apply do_inv in E as (x & w2 & E2 & E). eapply state_calm in H1; [|apply calm_connect|exact E2].
  destruct x as [[k h]|e]; [|by injection E as <- <- <- <- <-].
  apply do_inv in E as (name & w3 & E3 & E). eapply state_calm in H1; [|apply (lock_name_calm cfg)|exact E3].
  apply do_inv in E as (le & w4 & E4 & E). eapply state_acquire in E4; [|exact H1].
  destruct le as [e|]; [apply do_inv in E as (u & v & E5 & E); by injection E as <- <- <- <- <-|].
  apply do_inv in E as (he & w5 & E5 & E). eapply state_calm in E4; [|apply health_retries_calm|exact E5].
  destruct he as [e|]; [apply do_inv in E as (u & v & E6 & E); apply do_inv in E as (u' & v' & E7 & E); by injection E as <- <- <- <- <-|].
  injection E as <- <- <- <- <-. split; [done|]. split; [done|]. by exists k, h.
Qed.

Notation mode := (Env.TestClusterCreateMode (vars cfg)).

(** How the suite got its cluster. *)
Inductive obtained (w0 : W) (g : Globals K) (r : TestClusterResources K) (g' : Globals K) (w' : W) : Prop :=
| ob_provider : providerConnected g' = true -> commanderResources g' = commanderResources g -> provided_cluster w0 r w' ->
    obtained w0 g r g' w'
| ob_existing : g' = g -> mode = ClusterCreateModeAlwaysUseExisting -> in_use cfg w0 r w' -> obtained w0 g r g' w'
| ob_commander cr : mode = ClusterCreateModeCommander -> commanderResources g' = Some cr -> cc_resources cr = r ->
    commanded w0 r w' -> obtained w0 g r g' w'
| ob_created : g' = g -> mode <> ClusterCreateModeAlwaysUseExisting -> mode <> ClusterCreateModeCommander -> holds w0 r w' ->
    obtained w0 g r g' w'.

Lemma create_and_wait_state w0 w r w' : state (K := K) w0 ∅ ∅ [] w ->
  create_and_wait cfg home marshal unmarshal parsed getenv callers SSHPassphrase parseTemplate execTemplate unmarshalInit
    marshal_cfg marshal_host thisFile Abs pid timestamp sched fuel w = (Some (Returns (Ok r)), w') -> holds (K := K) w0 r w'.
Proof.
  intros H0 E. unfold create_and_wait in E. apply do_inv in E as (x & w1 & E1 & E).
  apply withTimeout_inv in E1 as (v & E1 & ->). eapply CreateTestCluster_state in E1; [|first [exact _|done]..].
  destruct x as [[[res|e]|]|]; try done. apply do_inv in E as (err & w2 & E2 & E).
  assert (Hw : calm K (WaitForTestClusterReady (Some res))) by (unfold WaitForTestClusterReady; keeping).
  apply (calm_timeout (K := K) ModuleDeployTimeout) in Hw. specialize (Hw (leave w v)). rewrite E2 in Hw. cbn in Hw.
  destruct err; [done|]. injection E as <- <-. eapply resources_move; [by eapply state_enter| |exact E1]. by rewrite Hw leave_net.
Qed.

Lemma obtain_state w g r g' w' : obtain g w = ((Some (Returns (Ok r)), g'), w') -> obtained w g r g' w'.
Proof.
  intros E. unfold CreateOrConnectToTestCluster in E. apply do_inv in E as ([[[res handled] err] connected] & w1 & E1 & E).
  apply withTimeout_inv in E1 as (v & E1 & ->). apply connectViaProvider_state in E1. destruct err as [e|]; [done|].
  pose proof (state_enter w ClusterCreationTimeout w (state_start w)) as H0.
  destruct res as [res|].
  { destruct E1 as (-> & -> & k & h & -> & Hs). unfold mret, M_ret in E. cbv beta iota in E. injection E as <- <- <-. apply ob_provider; [done|done|].
    exists k, h. split; [done|]. eapply state_move; [exact H0|symmetry; apply leave_net|exact Hs]. }
  destruct E1 as (-> & -> & Hs). eapply (state_move w) in Hs; [|exact H0|symmetry; apply (leave_net w)]. cbv zeta in E.
  destruct (String.eqb_spec mode ClusterCreateModeAlwaysUseExisting) as [He|He].
  { apply do_inv in E as (x & w2 & E2 & E). injection E as -> <- <-. apply withTimeout_inv in E2 as (v2 & E2 & ->).
    eapply UseExistingCluster_state in E2; [|exact _..]. apply ob_existing; [done|done|].
    eapply in_use_move; [by apply state_enter|symmetry; apply leave_net|exact E2]. }
  destruct (String.eqb_spec mode ClusterCreateModeCommander) as [Hc|Hc].
  { unfold commander_mode in E. apply do_inv in E as (x & w2 & E2 & E). apply withTimeout_inv in E2 as (v2 & E2 & ->).
    eapply UseCommanderCluster_state in E2; [|exact _..]. destruct x as [[[cr|e]|]|]; try done. injection E as <- <- <-.
    eapply ob_commander; [done|done|done|]. eapply commanded_move; [by apply state_enter|symmetry; apply leave_net|exact E2]. }
  apply do_inv in E as (x & w2 & E2 & E). injection E as -> <- <-. apply ob_created; [done|done|done|].
  by eapply create_and_wait_state.
Qed.

(** What remains at the end: the clients [C] and the tunnels [T], and no lock that could be given
    back. *)
Definition settled (w0 : W) (C T : gset Z) (w' : W) : Prop :=
  at_hand w0 C T w' /\ (locks_at_most (K := K) w0 [] w' \/ exists (k : K) v1 e v2, releaseLock k v1 = (Some e, v2)).

Lemma settled_move w0 C T w w' : net (K := K) w = net w' -> settled w0 C T w -> settled w0 C T w'.
Proof.
  intros H [(H1 & H2 & H3 & H4) Hl]. injection H as O L KK. split; [split_and!; by rewrite -?O -?L|].
  destruct Hl as [Hl|]; [left|by right]. intros k Hh. apply Hl. by rewrite (f_equal (fun f => f k) KK).
Qed.

Lemma release_settled w0 C T (k : K) w e w' : state w0 C T [k] w -> releaseLock k w = (e, w') ->
  exists ks, state w0 C T ks w' /\ (ks = [] \/ exists (k : K) v1 e v2, releaseLock k v1 = (Some e, v2)).
Proof. intros H E. pose proof E as E'. eapply state_release in E; [|exact H]. destruct e as [e|]; eexists; split; eauto 7. Qed.

Lemma state_settled w0 C T ks w' : state w0 C T ks w' ->
  ks = [] \/ (exists (k : K) v1 e v2, releaseLock k v1 = (Some e, v2)) -> settled w0 C T w'.
Proof. intros [Ha Hl] [->|Hr]; (split; [done|]); [by left|by right]. Qed.

(** The cleanups of a provider's cluster. *)
Lemma cleanup_provided w0 r w : provided_cluster w0 r w ->
  (forall e w', CleanupExistingCluster (Some r) w = (e, w') -> settled w0 ∅ ∅ w') /\
  (forall x w', CleanupTestCluster cfg true (Some r) w = (x, w') -> (exists e, x = Returns (e, false)) /\ settled w0 ∅ ∅ w').
Proof.
  intros (k & h & -> & H). split.
  - intros e w' E. unfold CleanupExistingCluster in E. cbn [Kubeconfig TunnelOf SSHClient stop_tunnel] in E.
    apply do_inv in E as (e1 & w1 & E1 & E). eapply release_settled in E1 as (ks & H1 & Hks); [|exact H].
    apply do_inv in E as (e2 & w2 & E2 & E). apply do_inv in E2 as (u & w3 & E3 & E2). injection E2 as <- <-.
    apply do_inv in E as (e3 & w4 & E4 & E). injection E4 as <- <-. injection E as <- <-.
    eapply state_settled; [|exact Hks]. eapply state_calm; [apply (calm_cleanup (K := K))|exact E3|exact H1].
  - intros x w' E. unfold CleanupTestCluster in E. cbn [Kubeconfig TunnelOf stop_some stop_tunnel] in E.
    apply do_inv in E as (e1 & w1 & E1 & E). eapply release_settled in E1 as (ks & H1 & Hks); [|exact H].
    apply do_inv in E as (e2 & w2 & E2 & E). apply do_inv in E2 as (u & w3 & E3 & E2). injection E2 as <- <-. injection E as <- <-.
    split; [eauto|]. eapply state_settled; [|exact Hks]. eapply state_calm; [apply (calm_cleanup (K := K))|exact E3|exact H1].
Qed.

Lemma cleanup_commanded w0 cr w e w' : commanded w0 (cc_resources cr) w -> CleanupCommanderCluster cfg (Some cr) w = (e, w') ->
  settled w0 ∅ ∅ w'.
Proof.
  intros (c & k & i & (Hc & Hk & Ht & _) & H) E. unfold CleanupCommanderCluster in E. rewrite Hc Hk Ht in E.
  cbn [close_some stop_some stop_tunnel] in E.
  apply do_inv in E as (e1 & w1 & E1 & E). eapply release_settled in E1 as (ks & H1 & Hks); [|exact H].
  rewrite -(union_empty_r_L {[c]}) -(union_empty_r_L {[StopFunc i]}) in H1.
  apply do_inv in E as (e2 & w2 & E2 & E). eapply (state_unclose w0 ∅) in E2; [|apply not_elem_of_empty|exact H1].
  apply do_inv in E as (e3 & w3 & E3 & E). eapply (state_unstop w0 _ ∅) in E3; [|apply not_elem_of_empty|exact E2].
  apply do_inv in E as (e4 & w4 & E4 & E). injection E as <- <-. eapply state_settled; [|exact Hks].
  eapply state_calm; [|exact E4|exact E3]. destruct (_ && _); [apply calm_delete|apply keeps_ret].
Qed.

End Safety.
