(* ===== verification/LegacyHealth.v ===== *)
(** The health of a cluster for the legacy suites ([src/pkg/cluster/cluster.go]):
    [CheckClusterHealth], [checkBootstrapSecrets], [checkWebhookHandler] and
    [WaitForWebhookHandler]. A check that passes has seen everything it asks for, and every
    check returns once its context is done. *)
From S2P Require Import Prelude Errors Retry Kube Kit.

Local Open Scope Z_scope.
Local Open Scope go_scope.

(** The fields of the objects that are read. *)
Record hDeployment := mkHDeployment { hd_Replicas : option Z; hd_ReadyReplicas : Z; hd_Selector : string }.
Record hPod := mkHPod { hp_Name : string; hp_Phase : string; hp_Containers : list string; hp_Statuses : list bool }.
Record hSubset := mkHSubset { hs_Ports : list Z; hs_Addresses : list string }.

(** The calls of the clientset, and [NewClientsetWithRetry]; the selector of a deployment is as
    [metav1.FormatLabelSelector] prints it. *)
Class HealthApi (W : Type) := {
  newClientset : M W (option error);
  getDeployment : string -> string -> M W (result hDeployment);
  listPods : string -> string -> M W (result (list hPod));
  getEndpoints : string -> string -> M W (result (list hSubset));
  getSecret : string -> string -> M W (option error);
  listSecrets : string -> M W (result (list string))
}.

Record CheckClusterHealthOptions := mkHealthOptions { CheckBootstrapSecrets : bool }.
Definition DefaultCheckClusterHealthOptions : CheckClusterHealthOptions := mkHealthOptions true.

Section Health.
Context {W : Type} `{CX : Ctx W, CL : !Clock W, HA : !HealthApi W} (fuel : nat).

Definition failed_with (what : string) (err : error) : option error := Some (ErrorfW what err "").

(** A missing secret, with the secrets there are. *)
Definition missing_secret (kind ns : string) (err : error) : M W (option error) :=
  let! l := listSecrets ns in
  mret (match l with
        | Ok names => Some (ErrorfW (kind +:+ " bootstrap secret not found: ") err
                              (". Available secrets in namespace " +:+ ns +:+ ": " +:+ fmt_strings names))
        | Err _ => Some (ErrorfW (kind +:+ " bootstrap secret not found: ") err "")
        end).

Definition checkBootstrapSecrets (ns : string) : M W (option error) :=
  let! err := newClientset in
  match err with
  | Some err => mret (failed_with "failed to create kubernetes clientset: " err)
  | None =>
      let! err := getSecret ns "manual-bootstrap-for-worker" in
      match err with
      | Some err => missing_secret "worker" ns err
      | None =>
          let! err := getSecret ns "manual-bootstrap-for-master" in
          match err with
          | Some err => missing_secret "master" ns err
          | None => mret None
          end
      end
  end.

Definition has_webhook_endpoint (subsets : list hSubset) : bool :=
  existsb (fun s => existsb (fun p => (p =? 4223) && match hs_Addresses s with [] => false | _ => true end) (hs_Ports s)) subsets.

Definition replicas_error (ref : string) (d : hDeployment) : option error :=
  match hd_Replicas d with
  | None => Some (Errorf ("deployment " +:+ ref +:+ " has nil replicas spec"))
  | Some desired =>
      if negb (hd_ReadyReplicas d =? desired)
      then Some (Errorf ("deployment " +:+ ref +:+ " has " +:+ pretty (hd_ReadyReplicas d) +:+ " ready replicas, expected " +:+
                         pretty desired))
      else if hd_ReadyReplicas d =? 0 then Some (Errorf ("deployment " +:+ ref +:+ " has 0 ready replicas"))
      else None
  end.

Definition checkWebhookHandler (ns : string) : M W (option error) :=
  let ref := ns +:+ "/webhook-handler" in
  let! d := getDeployment ns "webhook-handler" in
  match d with
  | Err err => mret (failed_with ("failed to get deployment " +:+ ref +:+ ": ") err)
  | Ok d =>
      match replicas_error ref d with
      | Some err => mret (Some err)
      | None =>
          let! e := getEndpoints ns "deckhouse" in
          mret match e with
               | Err err => failed_with "failed to get deckhouse service endpoints: " err
               | Ok subsets =>
                   if has_webhook_endpoint subsets then None
                   else Some (Errorf "deckhouse service has no endpoints registered on port 4223 (webhook port)")
               end
      end
  end.

Definition WaitForWebhookHandler (timeout : Z) : M W (option (option error)) :=
  let! err := newClientset in
  match err with
  | Some err => mret (Some (failed_with "failed to create kubernetes clientset: " err))
  | None =>
      let! t := now in
      poll_loop
        (fun _ : unit =>
           let! t' := now in
           if t + timeout <? t' then
             mret (tt, Some (Some (Errorf ("timeout waiting for webhook-handler to be ready after " +:+ fmt_duration timeout))))
           else let! err := checkWebhookHandler "d8-system" in mret (tt, if is_nil err then Some None else None))
        (fun _ ce => ce) fuel (5 * Second) tt
  end.

(** ** [CheckClusterHealth] *)

Definition deckhouse_ref := "d8-system/deckhouse".

(** The deployment, once it has a ready replica; the wait keeps the number it last saw. *)
Definition deployment_ready : M W (option (result hDeployment)) :=
  poll
    (fun _ : Z =>
       let! d := getDeployment "d8-system" "deckhouse" in
       mret match d with
            | Err err => (0, Some (Err (ErrorfW ("failed to get deployment " +:+ deckhouse_ref +:+ ": ") err "")))
            | Ok d => (hd_ReadyReplicas d, if 1 <=? hd_ReadyReplicas d then Some (Ok d) else None)
            end)
    (fun ready ce => Err (ErrorfWn ("timeout waiting for deployment " +:+ deckhouse_ref +:+
       " to have ready replicas (current: " +:+ pretty ready +:+ ", expected: 1): ") ce ""))
    fuel (5 * Second) 0.

(** What is wrong with the pods of the deployment. *)
Definition pods_error (pods : list hPod) : option error :=
  match pods with
  | [pod] =>
      let ref := "d8-system/" +:+ hp_Name pod in
      if negb (String.eqb (hp_Phase pod) "Running")
      then Some (Errorf ("pod " +:+ ref +:+ " is not running (phase: " +:+ hp_Phase pod +:+ ")"))
      else if negb (Nat.eqb (length (hp_Containers pod)) 2)
      then Some (Errorf ("pod " +:+ ref +:+ " has " +:+ pretty (Z.of_nat (length (hp_Containers pod))) +:+ " containers, expected 2"))
      else if negb (Nat.eqb (length (hp_Statuses pod)) (length (hp_Containers pod)) && forallb (fun r => r) (hp_Statuses pod))
      then Some (Errorf ("pod " +:+ ref +:+ " does not have all containers ready (expected 2/2 containers ready)"))
      else None
  | _ => Some (Errorf ("expected 1 pod for deployment " +:+ deckhouse_ref +:+ ", found " +:+ pretty (Z.of_nat (length pods))))
  end.

Definition check_pods (selector : string) : M W (option error) :=
  let! pods := listPods "d8-system" selector in
  match pods with
  | Err err => mret (failed_with ("failed to list pods for deployment " +:+ deckhouse_ref +:+ ": ") err)
  | Ok pods =>
      match pods_error pods with
      | Some err => mret (Some err)
      | None =>
          let! err := checkWebhookHandler "d8-system" in
          mret match err with Some err => failed_with "webhook-handler not ready: " err | None => None end
      end
  end.

(** [None]: the fuel of the wait ran out. *)
Definition CheckClusterHealth (opts : list CheckClusterHealthOptions) : M W (option (option error)) :=
  let options := hd DefaultCheckClusterHealthOptions opts in
  let! err := newClientset in
  match err with
  | Some err => mret (Some (failed_with "failed to create kubernetes clientset: " err))
  | None =>
      let! d := deployment_ready in
      match d with
      | None => mret None
      | Some (Err err) => mret (Some (Some err))
      | Some (Ok d) =>
          let! serr := if CheckBootstrapSecrets options then checkBootstrapSecrets "d8-cloud-instance-manager" else mret None in
          match serr with
          | Some err => mret (Some (failed_with "bootstrap secrets not ready: " err))
          | None => let! err := check_pods (hd_Selector d) in mret (Some err)
          end
      end
  end.

(** ** Theorems *)

(** The Deckhouse pod as it should be: running, with two containers, both ready. *)
Definition pod_healthy (p : hPod) : Prop :=
  hp_Phase p = "Running" /\ (exists a b, hp_Containers p = [a; b]) /\ hp_Statuses p = [true; true].

Lemma pods_error_iff pods : pods_error pods = None <-> exists p, pods = [p] /\ pod_healthy p.
Proof.
  unfold pods_error, pod_healthy. split.
  - destruct pods as [|p [|q l]]; try done. destruct (String.eqb_spec (hp_Phase p) "Running") as [Hr|]; [|done].
    destruct (hp_Containers p) as [|a [|b [|c cs]]] eqn:Hc; try done.
    destruct (hp_Statuses p) as [|x [|y [|z l]]] eqn:Hs; try done. destruct x, y; try done. intros _. exists p. rewrite Hc. eauto 7.
  - intros (p & -> & -> & (a & b & ->) & ->). done.
Qed.

(** The webhook is served: the replicas asked for are ready and not none, and the service of
    Deckhouse has an address on its port. *)
Definition webhook_served (d : hDeployment) (subsets : list hSubset) : Prop :=
  hd_Replicas d = Some (hd_ReadyReplicas d) /\ hd_ReadyReplicas d <> 0 /\
  exists s, s ∈ subsets /\ 4223 ∈ hs_Ports s /\ hs_Addresses s <> [].

Lemma replicas_error_iff ref d : replicas_error ref d = None <-> hd_Replicas d = Some (hd_ReadyReplicas d) /\ hd_ReadyReplicas d <> 0.
Proof.
  unfold replicas_error. destruct (hd_Replicas d) as [n|]; [|naive_solver].
  destruct (Z.eqb_spec (hd_ReadyReplicas d) n) as [<-|Hn]; cbn; [|naive_solver].
  destruct (Z.eqb_spec (hd_ReadyReplicas d) 0); naive_solver.
Qed.

Lemma has_webhook_endpoint_iff subsets :
  has_webhook_endpoint subsets = true <-> exists s, s ∈ subsets /\ 4223 ∈ hs_Ports s /\ hs_Addresses s <> [].
Proof.
  unfold has_webhook_endpoint. rewrite existsb_exists. setoid_rewrite existsb_exists. setoid_rewrite andb_true_iff.
  setoid_rewrite Z.eqb_eq. setoid_rewrite <- list_elem_of_In. split.
  - intros (s & Hs & p & Hp & -> & Ha). exists s. split_and!; [done|done|]. by destruct (hs_Addresses s).
  - intros (s & Hs & Hp & Ha). exists s. split; [done|]. exists 4223. split_and!; [done|done|]. by destruct (hs_Addresses s).
Qed.

(** Somewhere on the way [m] returned [a]. *)
Definition seen {A} (m : M W A) (a : A) : Prop := exists w1 w2, m w1 = (a, w2).

(** What a passed check has seen of the webhook. *)
Definition webhook_seen : Prop := exists d subsets, seen (getDeployment "d8-system" "webhook-handler") (Ok d) /\
  seen (getEndpoints "d8-system" "deckhouse") (Ok subsets) /\ webhook_served d subsets.

Lemma checkWebhookHandler_seen w w' : checkWebhookHandler "d8-system" w = (None, w') -> webhook_seen.
Proof.
  intros E. unfold checkWebhookHandler in E. mstep E as [d w1] E1. destruct d as [d|]; [|done].
  destruct (replicas_error _ d) eqn:Hr; [done|]. apply replicas_error_iff in Hr as [H1 H2].
  mstep E as [s w2] E2. destruct s as [s|]; [|done]. destruct (has_webhook_endpoint s) eqn:He; [|done].
  apply has_webhook_endpoint_iff in He. exists d, s. split; [by exists w, w1|]. split; [by exists w1, w2|]. done.
Qed.

Lemma deployment_ready_seen w d w' : deployment_ready w = (Some (Ok d), w') ->
  seen (getDeployment "d8-system" "deckhouse") (Ok d) /\ 1 <= hd_ReadyReplicas d.
Proof.
  intros E. unfold deployment_ready in E. apply (poll_ended _ _ (fun _ _ => True)) in E; [|done..].
  destruct E as [s v s' _ E|s ce z v0 v1 _ _ _ E]; [|done]. mstep E as [x v1] E1.
  destruct x as [x|]; [|done]. destruct (Z.leb_spec 1 (hd_ReadyReplicas x)); [|done]. injection E as <- <- <-.
  split; [by exists v, v1|done].
Qed.

(** C32: [CheckClusterHealth] reports a healthy cluster only when it has seen the Deckhouse
    deployment with a ready replica, with exactly one pod, running with two containers that
    are both ready, the webhook served, and, unless it was told not to look, both bootstrap
    secrets. *)
Theorem CheckClusterHealth_sound opts w w' : CheckClusterHealth opts w = (Some None, w') ->
  exists d pods, seen (getDeployment "d8-system" "deckhouse") (Ok d) /\ 1 <= hd_ReadyReplicas d /\
    seen (listPods "d8-system" (hd_Selector d)) (Ok pods) /\ (exists p, pods = [p] /\ pod_healthy p) /\ webhook_seen /\
    (CheckBootstrapSecrets (hd DefaultCheckClusterHealthOptions opts) = true ->
     seen (getSecret "d8-cloud-instance-manager" "manual-bootstrap-for-worker") None /\
     seen (getSecret "d8-cloud-instance-manager" "manual-bootstrap-for-master") None).
Proof.
  intros E. unfold CheckClusterHealth in E. mstep E as [ce w1] E1. destruct ce; [done|].
  mstep E as [x w2] E2. destruct x as [[d|]|]; [|done..]. apply deployment_ready_seen in E2 as [Hd Hr].
  mstep E as [se w3] E3. destruct se; [done|]. mstep E as [pe w4] E4. injection E as -> <-.
  unfold check_pods in E4. mstep E4 as [pods w5] E5. destruct pods as [pods|]; [|done].
  destruct (pods_error pods) eqn:Hp; [done|]. apply pods_error_iff in Hp. mstep E4 as [we w6] E6.
  destruct we; [done|]. apply checkWebhookHandler_seen in E6.
  exists d, pods. split_and!; [done|done|by exists w3, w5|done|done|]. intros Hs. rewrite Hs in E3. unfold checkBootstrapSecrets in E3.
  mstep E3 as [ne v1] F1. destruct ne; [done|]. mstep E3 as [s1 v2] F2. destruct s1; [by unfold missing_secret in E3; mstep E3 as [l v] F; destruct l|].
  mstep E3 as [s2 v3] F3. destruct s2; [by unfold missing_secret in E3; mstep E3 as [l v] F; destruct l|].
  split; [by exists v1, v2|by exists v2, v3].
Qed.

(** Calls take no ticks back. *)
Context {DL : Deadline W}.
Context (bounded_clientset : bounded newClientset) (bounded_deployment : forall ns n, bounded (getDeployment ns n)).
Context (bounded_endpoints : forall ns n, bounded (getEndpoints ns n)) (bounded_now : bounded now).

(** C33: Once its context has a deadline, [CheckClusterHealth] returns, and so does
    [WaitForWebhookHandler], whatever the cluster answers: the fuel that the ticks left before
    the deadline bound is enough. *)
Theorem health_checks_return opts timeout w : (left w < fuel)%nat ->
  (exists r w', CheckClusterHealth opts w = (Some r, w')) /\ (exists r w', WaitForWebhookHandler timeout w = (Some r, w')).
Proof.
  intros Hf. pose proof (bounded_clientset w) as Hb. split.
  - unfold CheckClusterHealth, mbind, M_bind, mret, M_ret. destruct (newClientset w) as [ce w1]. cbn in Hb. destruct ce; [eauto|].
    destruct (poll_total (fun _ : Z =>
       let! d := getDeployment "d8-system" "deckhouse" in
       mret match d with
            | Err err => (0, Some (Err (ErrorfW ("failed to get deployment " +:+ deckhouse_ref +:+ ": ") err "")))
            | Ok d => (hd_ReadyReplicas d, if 1 <=? hd_ReadyReplicas d then Some (Ok d) else None)
            end)
      (fun ready ce => Err (ErrorfWn ("timeout waiting for deployment " +:+ deckhouse_ref +:+
         " to have ready replicas (current: " +:+ pretty ready +:+ ", expected: 1): ") ce "")) left fuel (5 * Second) 0 w1)
      as (d & w2 & E2); [|apply left_tick|lia|].
    + intros s v. pose proof (bounded_deployment "d8-system" "deckhouse" v) as Hd. unfold mbind, M_bind, mret, M_ret.
      by destruct (getDeployment _ _ v).
    + unfold deployment_ready. rewrite E2. destruct d as [d|e]; [|eauto]. repeat case_match; eauto.
  - unfold WaitForWebhookHandler. destruct (newClientset w) as [ce w1] eqn:E1. cbn in Hb.
    rewrite (bind_eq _ _ _ _ _ E1). destruct ce; [by do 2 eexists|].
    pose proof (bounded_now w1) as Hn. destruct (now w1) as [t w2] eqn:E2. rewrite (bind_eq _ _ _ _ _ E2). cbn in Hn.
    eapply (poll_loop_total _ _ left); [|apply left_tick|lia]. intros s v. unfold mbind, M_bind, mret, M_ret.
    pose proof (bounded_now v) as Hv. destruct (now v) as [t' v1]. cbn in Hv. destruct (_ <? t'); [done|].
    unfold checkWebhookHandler, mbind, M_bind, mret, M_ret.
    pose proof (bounded_deployment "d8-system" "webhook-handler" v1) as Hd. destruct (getDeployment _ _ v1) as [[d|e] v2]; cbn in Hd |- *; [|lia].
    destruct (replicas_error _ d); cbn; [lia|]. pose proof (bounded_endpoints "d8-system" "deckhouse" v2) as He.
    destruct (getEndpoints _ _ v2) as [ep v3]. cbn in He |- *. lia.
Qed.
End Health.

(** ** A cluster in memory

    It has the Deckhouse deployment ready from the tick [wa_ready] on. *)
Record ward := mkWard { wa_ticks : nat; wa_ready : nat; wa_pods : list hPod; wa_subsets : list hSubset }.

#[export] Instance ward_ctx : Ctx ward := {|
  ctxErr := gets (fun w => match wa_ticks w with O => Some (Errorf "context deadline exceeded") | S _ => None end);
  timerFires := fun _ w =>
    match wa_ticks w with
    | O => (false, w)
    | S n => (true, mkWard n (pred (wa_ready w)) (wa_pods w) (wa_subsets w))
    end
|}.
#[export] Instance ward_clock : Clock ward := {| now := mret 0; sleep := fun _ => mret tt |}.
#[export] Instance ward_deadline : Deadline ward.
Proof.
  refine {| left := wa_ticks |}.
  - done.
  - intros z w. cbn. destruct (wa_ticks w) eqn:E; cbn; lia.
  - intros z w w'. cbn. destruct (wa_ticks w) eqn:E; [done|]. intros [= <-]. cbn. lia.
Defined.
#[export] Instance ward_api : HealthApi ward := {|
  newClientset := mret None;
  getDeployment := fun _ _ => gets (fun w => Ok (mkHDeployment (Some 1) (match wa_ready w with O => 1 | S _ => 0 end) "app=deckhouse"));
  listPods := fun _ _ => gets (fun w => Ok (wa_pods w));
  getEndpoints := fun _ _ => gets (fun w => Ok (wa_subsets w));
  getSecret := fun _ _ => mret None;
  listSecrets := fun _ => mret (Ok [])
|}.

Definition deckhouse_pod (ready : bool) : hPod := mkHPod "deckhouse-0" "Running" ["deckhouse"; "kube-rbac-proxy"] [true; ready].
Definition well (ready : bool) : ward := mkWard 5 2 [deckhouse_pod ready] [mkHSubset [8080; 4223] ["10.0.0.5"]].

Lemma CheckClusterHealth_sound_witness :
  (exists w', CheckClusterHealth 6 [] (well true) = (Some None, w')) /\ exists p, pod_healthy p.
Proof.
  destruct (CheckClusterHealth 6 [] (well true)) as [r w'] eqn:E. assert (r = Some None) as -> by (by vm_compute in E; injection E as <- _).
  split; [by exists w'|]. destruct (CheckClusterHealth_sound 6 [] (well true) w' E) as (d & pods & _ & _ & _ & (p & _ & Hp) & _). by exists p.
Defined.

(** A container that is not ready, and a deployment that never is. *)
Example one_container_ready :
  match CheckClusterHealth 6 [] (well false) with
  | (Some (Some e), _) => Contains (Error e) "does not have all containers ready" = true
  | _ => False
  end.
Proof. by vm_compute. Qed.

Lemma health_checks_return_witness :
  exists r w', CheckClusterHealth 6 [] (mkWard 5 9 [] []) = (Some (Some r), w').
Proof.
  destruct (health_checks_return (CL := ward_clock) (HA := ward_api) (DL := ward_deadline) 6 (fun w => le_n (wa_ticks w)) (fun _ _ w => le_n (wa_ticks w)) (fun _ _ w => le_n (wa_ticks w))
    (fun w => le_n (wa_ticks w)) [] 0 (mkWard 5 9 [] [])) as [(r & w' & E) _]; [cbn; lia|].
  destruct r as [e|]; [by exists e, w'|]. exfalso. by vm_compute in E.
Defined.
