(* ===== verification/LegacySuiteRuns.v ===== *)
(** Runs of the legacy suites in memory: remote hosts, local files and ports, locks, and stages
    that succeed unless they are told to fail. The theorems about connecting, creating and
    cleaning up are applied to them. *)
From S2P Require Import Prelude Errors Retry Timeout Env LegacyVms SshConn SshDial DvpConfig Config Kube Kit Bootstrap Dhctl Provision CommanderApi CommanderUpdate LegacySsh LegacyRemote LegacySetup LegacyJoin LegacyTunnel LegacyKubeconfig LegacyConnect LegacyConnectSafety LegacyCreate LegacyCreateSafety LegacyCreateReturns LegacyCommander LegacySuite LegacySuiteSafety.

Local Open Scope Z_scope.
Local Open Scope go_scope.

(** [dk_failing] are the steps that fail; a configuration is the path of its file. *)
Record desk := mkDesk { dk_locks : gset string; dk_failing : list string }.
Record site := mkSite { si_fleet : fleet; si_ports : ports; si_desk : desk }.

Definition on_fleet {A} (m : M fleet A) : M site A := fun w =>
  let '(a, f) := m (si_fleet w) in (a, mkSite f (si_ports w) (si_desk w)).
Definition on_ports {A} (m : M ports A) : M site A := fun w =>
  let '(a, p) := m (si_ports w) in (a, mkSite (si_fleet w) p (si_desk w)).
Definition set_locks (l : gset string) (w : site) : site :=
  mkSite (si_fleet w) (si_ports w) (mkDesk l (dk_failing (si_desk w))).

Definition step_ (name : string) : M site (option error) :=
  gets (fun w => if existsb (String.eqb name) (dk_failing (si_desk w)) then Some (Errorf (name +:+ " failed")) else None).

#[export] Instance site_ssh : LegacySSH site := {|
  ssh_open := fun w => ssh_open (si_fleet w);
  ssh_log := fun w => ssh_log (si_fleet w);
  NewClient := fun l => on_fleet (NewClient l);
  NewClientWithJumpHost := fun j l => on_fleet (NewClientWithJumpHost j l);
  Exec := fun c cmd => on_fleet (Exec c cmd);
  Upload := fun c a b => on_fleet (Upload c a b);
  UploadPrivate := fun c a b m => on_fleet (UploadPrivate c a b m);
  ssh_Close := fun c => on_fleet (ssh_Close c)
|}.
#[export] Instance site_files : LocalFiles site := {|
  files := fun w => files (si_fleet w);
  readFile := fun f => on_fleet (readFile f);
  mkdirAll := fun f => on_fleet (mkdirAll f);
  createFile := fun f => on_fleet (createFile f);
  createTemp := fun f => on_fleet (createTemp f);
  chmod := fun f m => on_fleet (chmod f m);
  writeTo := fun f s => on_fleet (writeTo f s);
  closeFile := fun f => on_fleet (closeFile f);
  removeFile := fun f => on_fleet (removeFile f)
|}.
#[export] Instance site_texts : LocalTexts site := {|
  writeFile := fun f s => on_fleet (writeFile f s);
  evalSymlinks := fun f => on_fleet (evalSymlinks f);
  homeDir := on_fleet homeDir;
  ExecCapture := fun c cmd => on_fleet (ExecCapture c cmd)
|}.
#[export] Instance site_ctx : Ctx site := {| ctxErr := on_fleet ctxErr; timerFires := fun z => on_fleet (timerFires z) |}.
#[export] Instance site_clock : Clock site := {| now := mret 0; sleep := fun _ => mret tt |}.
#[export] Instance site_listens : Listens site := {|
  listening := fun w => listening (si_ports w);
  listen := fun a => on_ports (listen a);
  unlisten := fun p => on_ports (unlisten p)
|}.
Definition set_site_ticks (n : nat) (w : site) : site :=
  let f := si_fleet w in mkSite (mkFleet (h_open f) (h_log f) (h_files f) (h_answer f) (h_unreachable f) n) (si_ports w) (si_desk w).
(** A tick is ten seconds. *)
#[export] Instance site_scope : Scope site := {|
  enter := fun d w => set_site_ticks (Nat.min (h_ticks (si_fleet w)) (Z.to_nat (d / (10 * Second)))) w;
  leave := fun w w' => set_site_ticks (h_ticks (si_fleet w) - 1) w'
|}.
#[export] Instance site_http : Http site := {| NewRequest := fun _ _ => None; httpDo := fun _ => mret (Err (Errorf "no route")) |}.
#[export] Instance site_timeout : Timeout site := {| wake := fun _ => mret WokenDeadline |}.

#[export] Instance site_suite : SuiteOps site string := {|
  lock_held := fun k w => bool_decide (k ∈ dk_locks (si_desk w));
  acquireLock := fun k _ w =>
    if bool_decide (k ∈ dk_locks (si_desk w)) then (Some (Errorf "cluster is locked"), w)
    else (None, set_locks ({[k]} ∪ dk_locks (si_desk w)) w);
  releaseLock := fun k w =>
    match (step_ "release" w).1 with
    | Some e => (Some e, w)
    | None => (None, set_locks (dk_locks (si_desk w) ∖ {[k]}) w)
    end;
  clusterHealth := fun _ _ => step_ "health";
  nowNano := mret 0;
  findProvider := mret NoProvider;
  providerConnect := mret (Err (Errorf "no provider"));
  provided := fun _ => ∅;
  runCleanup := fun _ => mret tt;
  buildConfig := fun f => mret (Ok f)
|}.

(** The addresses the machines get. *)
Definition addressed (def : ClusterDefinition) : ClusterDefinition :=
  mkDef (imap (fun i n => set_ip ("10.0.0." +:+ pretty (Z.of_nat i + 1)) n) (Masters def)) (Workers def)
    (Some (set_ip "10.0.0.100" DefaultSetupVM)) (DKP def).

#[export] Instance site_stages : Stages site string := {|
  moduleReady := fun _ _ _ => step_ "module";
  namespaceThere := fun _ _ => step_ "namespace";
  virtClient := fun _ => step_ "virtualization";
  createMachines := fun _ def => let! e := step_ "machines" in
    mret match e with Some e => Err e | None =>
      let names := map Hostname (Masters def ++ Workers def) ++ ["bootstrap"] in Ok (names, mkResources "e2e" names [] "bootstrap") end;
  machinePhase := fun _ _ _ => mret (Ok "Running");
  gatherInfo := fun _ _ def _ => let! e := step_ "gather" in mret (e, addressed def);
  removeMachine := fun _ _ _ => step_ "remove";
  removeMachines := fun _ => step_ "remove";
  staticNodeGroup := fun _ _ => step_ "group";
  clientset := fun _ => step_ "clientset";
  secretThere := fun _ _ _ => step_ "secret";
  addNodes := fun _ _ _ => step_ "nodes";
  nodesReady := fun _ _ _ => step_ "ready";
  enableModules := fun _ _ _ => step_ "modules";
  modulesReady := fun _ _ _ => step_ "modules ready";
  stressCleanup := fun _ => step_ "stress";
  randomIndex := fun _ => mret 0
|}.

(** ** Its laws *)
Lemma on_fleet_inv {A} (m : M fleet A) w a w' : on_fleet m w = (a, w') ->
  m (si_fleet w) = (a, si_fleet w') /\ si_ports w' = si_ports w /\ si_desk w' = si_desk w.
Proof. unfold on_fleet. destruct (m (si_fleet w)) as [x f]. by intros [= <- <-]. Qed.
Lemma on_ports_inv {A} (m : M ports A) w a w' : on_ports m w = (a, w') ->
  m (si_ports w) = (a, si_ports w') /\ si_fleet w' = si_fleet w /\ si_desk w' = si_desk w.
Proof. unfold on_ports. destruct (m (si_ports w)) as [x f]. by intros [= <- <-]. Qed.

#[export] Instance site_ssh_laws : LegacySSHLaws site.
Proof.
  split; intros *; intros (H & _ & _)%on_fleet_inv;
    [by apply client_ok in H|by apply client_err in H|by apply jump_ok in H|by apply jump_err in H|by apply exec_done in H
    |by apply upload_done in H|by apply private_done in H|by apply ssh_close_removes in H].
Qed.

#[export] Instance site_listens_laws : ListensLaws site (H := background).
Proof.
  split; try done.
  - intros a w p w' (H & _ & _)%on_ports_inv. by apply (listen_ok (H := ports_ctx)) in H.
  - intros a w e w' (H & _ & _)%on_ports_inv. by apply (listen_err (H := ports_ctx)) in H.
  - intros p w q w' (H & _ & _)%on_ports_inv. by apply (listen_port (H := ports_ctx)) in H.
  - intros p w e w' (H & _ & _)%on_ports_inv. by apply (unlisten_law (H := ports_ctx)) in H.
Qed.

Lemma on_fleet_calm {A} (m : M fleet A) : keeps ssh_open m -> calm string (on_fleet m).
Proof.
  intros Hm w. destruct (on_fleet m w) as [a w'] eqn:E. apply on_fleet_inv in E as (E & Hp & Hd).
  specialize (Hm (si_fleet w)). rewrite E in Hm. unfold net. cbn in *. by rewrite Hm Hp Hd.
Qed.
Lemma capture_keeps c cmd : keeps ssh_open (ExecCapture (W := fleet) c cmd).
Proof. intros w. apply capture_open. Qed.
Lemma fleet_exec_keeps c cmd : keeps ssh_open (Exec (W := fleet) c cmd).
Proof. intros w. cbn. by destruct (h_answer w _ _ _). Qed.
Lemma timer_keeps z : keeps ssh_open (timerFires (W := fleet) z).
Proof. intros w. cbn. by destruct (h_ticks w). Qed.

Lemma on_fleet_off {A B} (m : M fleet A) (f : site -> B) : (forall w g, f (mkSite g (si_ports w) (si_desk w)) = f w) ->
  keeps f (on_fleet m).
Proof. intros Hf w. unfold on_fleet. destruct (m (si_fleet w)) as [a g]. apply Hf. Qed.
Lemma on_ports_off {A B} (m : M ports A) (f : site -> B) : (forall w p, f (mkSite (si_fleet w) p (si_desk w)) = f w) ->
  keeps f (on_ports m).
Proof. intros Hf w. unfold on_ports. destruct (m (si_ports w)) as [a g]. apply Hf. Qed.

#[export] Instance site_suite_laws : SuiteLaws site string.
Proof.
  split; try done; try (intros; apply on_fleet_calm; first [apply capture_keeps|apply timer_keeps|done]);
    try (intros; apply on_fleet_off; done); try (intros; apply on_ports_off; done).
  - intros k n w. cbn. by destruct (bool_decide _).
  - intros k w. cbn. by destruct (existsb _ _).
  - intros k n w w'. cbn. destruct (bool_decide _); [done|]. intros [= <-]. apply bool_decide_eq_true. cbn. set_solver.
  - intros k n w e w'. cbn. destruct (bool_decide _); [by intros [= _ <-]|done].
  - intros k n w r w' k' E Hne. cbn in *. destruct (bool_decide _); injection E as <- <-; [done|]. cbn. apply bool_decide_ext. set_solver.
  - intros k w w'. cbn. destruct (existsb _ _); [done|]. intros [= <-]. apply bool_decide_eq_false. cbn. set_solver.
  - intros k w r w' k' E Hne. cbn in *. destruct (existsb _ _); injection E as <- <-; [done|]. cbn. apply bool_decide_ext. set_solver.
Qed.

Lemma step_calm name : calm string (step_ name).
Proof. done. Qed.
#[export] Instance site_stage_laws : StageLaws site string.
Proof.
  split; try done; try (intros; apply on_fleet_calm; first [apply fleet_exec_keeps|done]).
Qed.
#[export] Instance site_commander_laws : CommanderLaws site string.
Proof. by split. Qed.

(** ** Creating a cluster *)

Definition legacy_vars (mode cleanup : string) : Vars :=
  mkVars "cluster_config.yml" "tfadm" "/root/.ssh/id_rsa" "ssh-ed25519 AAAA" "192.0.2.1" "cloud" mode cleanup "e2e" "linstor"
    "generic" "license" "cfg" "IfNotExists" "" "" "" "" "" "" "" "" "".
Definition legacy_settings (mode cleanup jump resume : string) : Settings :=
  mkSettings (legacy_vars mode cleanup) jump "" "" resume "".

Definition legacy_node (name : string) : ClusterNode :=
  mkNode name "" (mkOSType "" "https://host/jammy.img" "") HostTypeVM None 2 None 4 20 false.
Definition legacy_def : ClusterDefinition :=
  mkDef [legacy_node "master"] [legacy_node "worker"] None (mkDKP "1.31" "10.111.0.0/16" "10.222.0.0/16" "cluster.local" "registry.io/dkp" "main" []).

(** Every host prints a kubeconfig, in which every wait finds what it waits for. *)
Definition legacy_answers (_ : list ssh_event) (_ _ : string) : string * option error :=
  (kubeconfig_text +:+ nl +:+ "# SSH_READY", None).

Definition legacy_site (failing : list string) : site :=
  mkSite (mkFleet ∅ [] {["/src/tests/sds/cluster_config.yml" := "masters: 1"; "/src/files/bootstrap/config.yml.tpl" := "kind: InitConfiguration"]}
            legacy_answers [] 50)
         (mkPorts ∅ [40001; 40002; 40003] [] 50) (mkDesk ∅ failing).

Definition legacy_callers : list string := ["/src/pkg/cluster/cluster.go"; "/src/tests/sds/sds_test.go"].
Definition one_text (s : resumeState) : result string := Err (Errorf "json").

Definition clock_text : M site string := mret "now".
Lemma clock_text_calm : calm string clock_text.
Proof. done. Qed.

Local Notation create_run cfg := (CreateTestCluster (W := site) (K := string) cfg (Ok "/root") one_text (fun _ => Err (Errorf "json"))
  (fun _ => Ok legacy_def) (fun _ => "") legacy_callers "" (fun _ => None) (fun t _ => (t, None)) (fun _ => Ok ("InitConfiguration", "main"))
  (fun _ => Ok "") (fun _ => Ok "") (Some "/src/pkg/cluster/setup.go") Ok 1 clock_text [] 5).
Local Notation new_cluster := (legacy_settings "alwaysCreateNew" "true" "" "").
Local Notation file := "cluster_config.yml".


(** The ticks that are left. *)
#[export] Instance site_deadline : Deadline site.
Proof.
  refine {| Kube.left := fun w => h_ticks (si_fleet w) |}.
  - intros w. cbn. lia.
  - intros z w. cbn. unfold on_fleet. cbn. destruct (h_ticks (si_fleet w)) as [|n] eqn:E; cbn; lia.
  - intros z w w'. cbn. unfold on_fleet. cbn. destruct (h_ticks (si_fleet w)) as [|n] eqn:E; [done|]. intros [= <-]. cbn. lia.
Defined.

Lemma site_waits d (w : site) : d ∈ [VMsRunningTimeout; SetupNodeSSHReadyTimeout; SecretsWaitTimeout] -> (Kube.left (enter d w) < 121)%nat.
Proof.
  intros H. cbn. assert (Z.to_nat (d / (10 * Second)) <= 120)%nat; [|lia].
  repeat (apply elem_of_cons in H as [->|H]; [apply Nat.leb_le; by vm_compute|]). by apply elem_of_nil in H.
Qed.
Lemma site_exec_bounded c cmd : bounded (W := site) (Exec c cmd).
Proof. intros w. cbn. unfold on_fleet. cbn. by destruct (h_answer _ _ _ _). Qed.

(** No secret ever appears. *)
Lemma CreateTestCluster_returns_witness : exists r w', CreateTestCluster (W := site) (K := string) new_cluster (Ok "/root") one_text
  (fun _ => Err (Errorf "json")) (fun _ => Ok legacy_def) (fun _ => "") legacy_callers "" (fun _ => None) (fun t _ => (t, None))
  (fun _ => Ok ("InitConfiguration", "main")) (fun _ => Ok "") (fun _ => Ok "") (Some "/src/pkg/cluster/setup.go") Ok 1 clock_text [1%nat] 121
  file (legacy_site ["secret"]) = (Some r, w').
Proof.
  exact (CreateTestCluster_returns new_cluster (Ok "/root") one_text (fun _ => Err (Errorf "json")) (fun _ => Ok legacy_def) (fun _ => "")
    legacy_callers "" (fun _ => None) (fun t _ => (t, None)) (fun _ => Ok ("InitConfiguration", "main")) (fun _ => Ok "") (fun _ => Ok "")
    (Some "/src/pkg/cluster/setup.go") Ok 1 clock_text [1%nat] 121 site_waits site_exec_bounded (fun _ _ _ w => le_n _) (fun _ w => le_n _)
    (fun _ _ _ w => le_n _) file (legacy_site ["secret"])).
Defined.

(** The error leaves a tunnel listening; an earlier one does not. *)
Example late_failure_leaves_tunnel :
  match create_run new_cluster file (legacy_site ["nodes"]), create_run new_cluster file (legacy_site ["gather"]) with
  | (Some (Returns (Err _)), w), (Some (Returns (Err _)), w') =>
      bool_decide (dom (ssh_open w) = ∅) && bool_decide (listening w = {[40001]}) && bool_decide (listening w' = ∅) = true
  | _, _ => False
  end.
Proof. by vm_compute. Qed.

(** ** A suite with a new cluster *)
Local Notation commander_settings := (mkCommanderSettings "" "" "" "" "" "" "" "" ∅).
Local Notation suite_run cfg := (CreateOrConnectToTestCluster (W := site) (K := string) cfg commander_settings (Ok "/root")
  (fun _ => Ok true) (fun _ => Ok None) one_text (fun _ => Err (Errorf "json")) (fun _ => Ok legacy_def) (fun _ => "") legacy_callers ""
  (fun _ => None) (fun t _ => (t, None)) (fun _ => Ok ("InitConfiguration", "main")) (fun _ => Ok "") (fun _ => Ok "")
  (Some "/src/pkg/cluster/setup.go") Ok 1 clock_text [] 5 (mkGlobals None false) (legacy_site [])).


(** ** An existing cluster behind a jump host *)
Local Notation existing := (legacy_settings "alwaysUseExisting" "" "jump.example.com" "").

Lemma existing_cluster_cleanup_witness : exists res w1 err w2,
  UseExistingCluster (K := string) existing (Ok "/root") (legacy_site []) = (Ok res, w1) /\
  CleanupExistingCluster (Some res) w1 = (err, w2) /\
  at_hand (legacy_site []) (clients_of (BaseClusterClient res)) (tunnels_of (BaseTunnel res)) w2 /\
  exists b i, BaseClusterClient res = Some b /\ BaseTunnel res = Some (Forwarding i).
Proof.
  destruct (UseExistingCluster (K := string) existing (Ok "/root") (legacy_site [])) as [r w1] eqn:E.
  destruct r as [res|e]; [|by exfalso; vm_compute in E].
  destruct (CleanupExistingCluster (Some res) w1) as [err w2] eqn:F.
  destruct (existing_cluster_cleanup existing _ _ _ _ _ _ E F) as (Ha & _ & Hj). exists res, w1, err, w2.
  split; [done|]. split; [done|]. split; [exact Ha|]. by apply Hj.
Defined.

(** The client and the tunnel of the base cluster are left. *)
Example base_connection_left :
  match UseExistingCluster (K := string) existing (Ok "/root") (legacy_site []) with
  | (Ok res, w1) => let w2 := (CleanupExistingCluster (Some res) w1).2 in
                    (size (ssh_open w2), size (listening w2), bool_decide (dk_locks (si_desk w2) = ∅)) = (1%nat, 1%nat, true)
  | _ => False
  end.
Proof. by vm_compute. Qed.

Lemma UseExistingCluster_spec_witness : exists res w1,
  UseExistingCluster (K := string) existing (Ok "/root") (legacy_site []) = (Ok res, w1) /\ in_use existing (legacy_site []) res w1.
Proof.
  destruct (UseExistingCluster (K := string) existing (Ok "/root") (legacy_site [])) as [r w1] eqn:E.
  pose proof (UseExistingCluster_spec existing _ _ _ _ E) as H. destruct r as [res|e]; [|by exfalso; vm_compute in E].
  exists res, w1. split; [done|exact H].
Defined.

(** ** A resumed cluster *)
Definition saved : resumeState := mkResume "10.0.0.1" "e2e" ["master"; "worker"] "bootstrap" ["master"] ["worker"].

#[export] Instance resumeState_eq_dec : EqDecision resumeState.
Proof. solve_decision. Defined.

(** JSON for this state. *)
Definition saved_marshal (s : resumeState) : result string := if decide (s = saved) then Ok "{}" else Err (Errorf "json").
Definition saved_unmarshal (_ : string) : result resumeState := Ok saved.
Lemma saved_roundtrip s t : saved_marshal s = Ok t -> saved_unmarshal t = Ok s.
Proof. unfold saved_marshal. destruct (decide (s = saved)) as [->|]; [done|done]. Qed.


(** The machines of a resumed cluster cannot be removed: its resources have no client. *)
Example resumed_cleanup_panics :
  let cfg := legacy_settings "alwaysCreateNew" "true" "" "true" in
  let w := mkSite (h_set_files (<[clusterStatePath := "{}"]> (files (si_fleet (legacy_site [])))) (si_fleet (legacy_site [])))
             (si_ports (legacy_site [])) (si_desk (legacy_site [])) in
  match CreateTestCluster (W := site) (K := string) cfg (Ok "/root") saved_marshal saved_unmarshal
          (fun _ => Ok legacy_def) (fun _ => "") legacy_callers "" (fun _ => None) (fun t _ => (t, None)) (fun _ => Ok ("InitConfiguration", "main"))
          (fun _ => Ok "") (fun _ => Ok "") (Some "/src/pkg/cluster/setup.go") Ok 1 clock_text [] 5 file w with
  | (Some (Returns (Ok res)), w1) => (CleanupTestCluster cfg false (Some res) w1).1 = Panics
  | _ => False
  end.
Proof. by vm_compute. Qed.
